(* ===== verification/_CoqProject ===== *)
-Q . S2P
Prelude.v
Pmm.v
Pages.v
Uaccess.v
Reclock.v
Klog.v
Pipe.v
Mqueue.v
Time.v
Route.v
Swap.v
Tmpfile.v
Tmptree.v
Tmpfs.v
Tmpops.v
Wait.v
Futex.v
Crypto.v
Random.v
Net.v
Tcp.v
Tcprecv.v
Tcpseg.v
Tcpsend.v
Tcpstack.v
Tcplink.v
Vm.v
Vmtab.v
Vminv.v
Vmdesc.v
Vmstep.v
Vmput.v
Vmfault.v
Vmcalls.v
Vmspace.v
Vmclone.v
Vmoff.v
Vmmem.v
Vmflat.v
Vmuser.v
