(* ===== verification/Prelude.v ===== *)
(** * SuckOS for the Sage040: a verification library

    SuckOS (src/kernel) is a Unix-like kernel for a 68040 machine: paging,
    processes and threads, pipes, message queues, futexes, record locks,
    several file systems, a network stack and the devices. This library
    models parts of it in Rocq, function by function from the C, and proves
    what makes each part correct. A definition has the name of the C function
    it translates; where Rocq does not allow the name, or a loop of a function
    is a definition of its own, the name says so ([ring_write_loop] is the
    loop of ring_write).

    ** How C is modelled

    A machine integer is a [Z] and each result that C stores back is reduced
    by [u8], [u16], [u32] or [s32] at the place where C reduces it. Memory is
    a function from addresses to bytes ([ram]), big-endian as the 68040 is. A
    fixed table of structures is a list of records, a pointer into it an
    index, and a null or dangling use is a value ([Stuck] or [None]) that the
    theorems exclude. The kernel is not preemptive: a call runs without
    interruption except where it sleeps. A call that can sleep takes what the
    other tasks do at each sleep as arguments, a list of arbitrary changes of
    the state, and the theorems hold for every such list or say what they ask
    of it. Interrupts are modelled where the code handles them with the mask
    off. A loop that is not structural has fuel, and either its theorem shows
    that the fuel the definition passes is enough, or running out of it is a
    result of its own ([Stuck]) that the theorem excludes.

    ** The files

    - Prelude (this file): integers, error numbers, tactics, the hint
      databases [sage] and [sage_rw], byte memory, bounded loops, tables.
    - Pmm (kernel/pmm.c): the page allocator, with its bitmap and reference
      counts in the memory it hands out. Refinement of a list of holder
      counts; freshness and zeroing; completeness of the run search;
      pmm_init's invariant.
    - Pages: the classes [PageMemory] and [PageRefs], what a client may rely
      on of the page allocator, with kernel/pmm.c as their instance.
    - Uaccess (kernel/uaccess.c; fetch and sys_store of kernel/syscall.c):
      the page-by-page copies to and from a program, over a translation that
      stays as it is during the copy and maps whole pages, equal to bytewise
      ones; the class [UserMemory] is what the clients see. That the walk of
      kernel/vm.c maps whole pages is [tables_map_whole_pages] of Vmflat; the
      copies with the page faults they take are in Vmuser.
    - Reclock (kernel/reclock.c): fcntl record locks. Mutual exclusion under
      every interleaving, the range table as an update of a byte map, EDEADLK
      exact for the waits in its table, flock decoding.
    - Klog (kernel/klog.c, kernel/console.c, NVRAM of
      kernel/drivers/m48t59.c): the log ring as a bounded queue, the panic
      text across a reboot.
    - Pipe (kernel/pipe.c): pipes, FIFOs and socket pairs. Ends counted and
      pages balanced, PIPE_BUF atomicity and order of the bytes while others
      read and write the ring during the sleeps.
    - Mqueue (kernel/mqueue.c): message queues. Pages balanced, priority
      order, exact delivery, one notification per registration; others run
      where a call sleeps, in the fetch of its attributes too.
    - Time (kernel/time.c): dates and day numbers, round trips.
    - Route (kernel/net/route.c): longest prefix, and the table as a map.
    - Swap (kernel/swap.c): slots counted, the sector map of swapon, pages
      back unchanged. The disk and the file are parameters. The class
      [SwapSlots] is what address spaces rely on, with this as its instance.
    - Tmpfile, Tmptree, Tmpfs, Tmpops (kernel/fs/tmpfs.c): the file system
      in memory. Tmpfile: a file's tables of pages, refining a sequence of
      bytes. Tmptree: the tree of names, apart from the data. Tmpfs: every
      operation, the walk of a path, and the calls that make names. Tmpops:
      taking names away, moving them, links, and whole runs of calls, which
      keep one tree with exact counts and refine a map of names; rmdir and
      rename by a last name . or .. are in, with the write outside the tables
      they can make as a result of its own ([None]).
    - Wait (kernel/wait.c; task_timeouts of kernel/task.c): wait queues as
      linked lists through the tasks, refining first-in first-out lines;
      semaphores and mutexes over them as a transition system, through the
      class [GATE.Gate].
    - Futex (kernel/futex.c): the table of addresses, refining lines of
      waiters per address, with the exact reason for every result.
    - Crypto, Random (kernel/crypto.c, kernel/random.c, kernel/memdev.c):
      BLAKE2s streaming, ChaCha20, the generator's key erasure and its
      entropy gate.
    - Net (kernel/net/net.c, arp.c, ip.c, icmp.c, udp.c): the stack under
      TCP. A datagram's round trip over the loopback, what input accepts,
      the ARP cache, and the recursion of net_poll. The driver and TCP are
      parameters.
    - Tcp, Tcprecv, Tcpseg, Tcpsend, Tcpstack, Tcplink (kernel/net/tcp.c,
      tcp.h): Tcp has every function, the parts of the long ones
      (send_data, ack_sent_data, tcp_input, tcp_timer) as definitions of
      their own. Tcprecv: the receive ring, held segments and their shared
      pool, one connection at a time. Tcpseg: segments and options, built
      and parsed back. Tcpsend: the send ring, retransmission and SACK; what
      is handed to IP is what was written, and the loops end. Tcpstack: the
      whole table of connections under any calls; the pool is consistent and
      what is read is the peer's stream. Tcplink: two ends over a network
      that loses, repeats and reorders; each reads a prefix of what the
      other wrote. IP's answer, the clock and the random numbers are
      arguments.

    - Vm, Vmtab, Vminv, Vmdesc, Vmstep, Vmput, Vmfault, Vmcalls, Vmspace,
      Vmclone, Vmoff, Vmmem, Vmflat (kernel/vm.c): address spaces. Vm has
      every function, over the classes [PageRefs], [SwapSlots] and
      [TextCache] (the cache of file pages, a parameter). Vmtab: the three
      levels of tables as words in pages, their shape, and tables added.
      Vminv: the invariant (every page and slot held once for each
      descriptor that names it), what a program sees, and what it means that
      nothing seen changes. Vmdesc, Vmstep, Vmput: descriptors, and the
      steps calls are made of. Vmfault: writing pages out, the clock hand,
      taking a page, faults. Vmcalls: mapping, unmapping, protecting, moving
      and brk. Vmspace: making and giving up a space. Vmclone: fork. Vmoff:
      swapoff. Vmmem: bytes read and written through the tables. Vmflat: the
      calls as a machine that refines a flat memory for each space, with
      calls on other spaces run at every sleep, and the properties.
    - Vmuser (kernel/uaccess.c over kernel/vm.c): the copies to and from a
      program through the walk, the page fault and the second look of
      translate(), with others at work whenever the fault sleeps; what they
      do to the flat memories.

    Clients use a component through an interface where there is one: Pipe,
    Mqueue and the Tmp files through [PageMemory], Mqueue and Klog through
    [UserMemory], Futex and Random through the wait queues of Wait, Net
    through Route, Tcp through the checksum and addresses of Net and the pages
    of Pmm, Vm through [PageRefs], [SwapSlots] and [TextCache].

    ** Bounds and fuel

    pmm_alloc's walk takes one unit per page and the pool's length is its
    fuel; the sleeping loops of pipes and queues take one unit per sleep in
    the list of events and per byte; the walks of wait queues take the length
    of the task table plus one, enough for chains without repetition, which
    the invariant gives; folding a checksum takes three rounds, enough for
    the sums of packets; a path's walk takes one unit per byte, eight links
    may be followed, and the walks to the root of tmpfs the number of nodes,
    enough for a tree. send_data's loop takes one unit per queued byte plus
    one and the skip over SACKed ranges one per range plus one, both proved
    enough (tcp_send_loops_end); the drain of held segments one round per
    entry plus one; tcp_release recurses once, since what a listener holds
    is no listener. The clock hand takes 8388609 turns, one more than two
    rounds of every page of every space (reclaim_ends), and a space's table
    pages 1048577, more than there are pages (free_tables_all). How often a
    fault sleeps for a slot being written, and how often vm_protect starts
    again, is an argument; running out of it is the result [None]. What runs
    at a sleep may sleep itself, to any depth that is given. A stream's bytes are numbered by their position, and
    the TCP theorems bound its length by 2^30, half of what sequence numbers
    can tell apart. Positions, sizes and counters keep their 32 bits, so
    their overflow is visible; the statements that need a bound state it.

    ** What is not modelled

    Sockets and DHCP; vfs.c, ext2 and FAT; mmap and the text cache; the
    MMU's registers and its translation cache, so that a missing flush would
    not show; the scheduler's switch, exec, signals and ptrace; terminals;
    event descriptors and poll; the dispatch of system calls; /proc; the
    drivers and the display; the shell, the C library and the user programs.
    Hardware access and formatting are left out on purpose; signals and the
    terminal's line discipline would come next. Where a modelled part calls
    one of these it is a parameter, or its effect is recorded (a signal sent,
    a frame on the wire) in the state. The address spaces' theorems ask that
    no other call works on a space while a call on it sleeps (as a second
    thread of the program could) or while it is being built, and that a page
    is not held 65536 times at a fork; forks and all other calls of other
    spaces may run at every sleep, swapoff apart. The writes of a shared file
    page when it is unmapped are taken not to sleep. TCP is never entered
    again from inside its own ip_output, as waiting for ARP could. *)

From stdpp Require Export prelude gmap list list_numbers.
From Stdlib Require Export ZArith Lia Btauto.

#[export] Set Default Proof Using "Type".

Declare Scope c_scope.
Delimit Scope c_scope with C.

(** ** Stores into structures

    [r <| f := v |>] is the record [r] with its field [f] replaced by [v]. A
    record type that uses it says, once, how it is put together from its
    fields ([Fields]); the update of a field is found from that. *)
Class Fields (R : Type) := rebuild : R -> R.
Class Store {R T : Type} (f : R -> T) := store : T -> R -> R.
Ltac head_of t := lazymatch t with ?f _ => head_of f | _ => t end.
Ltac find_store :=
  match goal with
  | |- Store ?f =>
      match type of f with
      | ?R -> ?T =>
          let all := eval cbv beta delta [rebuild] in (rebuild (R := R)) in
          let all := let c := head_of all in eval cbv beta delta [c] in all in
          let abs := eval pattern f in all in
          lazymatch abs with ?body _ => exact (fun (v : T) (r : R) => body (fun _ => v) r) end
      end
  end.
#[export] Hint Extern 0 (Store _) => find_store : typeclass_instances.
Notation "r <| f := v |>" := (store (f := f) v r) (at level 12, left associativity).

(** ** Machine integers *)

(** The kernel's [u8], [u16], [u32] and [s32]: a value is a [Z] and every
    arithmetic result that C stores back is reduced explicitly. *)
Definition u8 (x : Z) : Z := (x mod 256)%Z.
Definition u16 (x : Z) : Z := (x mod 65536)%Z.
Definition u32 (x : Z) : Z := (x mod 4294967296)%Z.
Definition s32 (x : Z) : Z :=
  let y := u32 x in if (y <? 2147483648)%Z then y else (y - 4294967296)%Z.

(** Signed views of 16- and 64-bit values. *)
Definition s16 (x : Z) : Z :=
  let y := u16 x in if (y <? 32768)%Z then y else (y - 65536)%Z.
Definition u64 (x : Z) : Z := (x mod 18446744073709551616)%Z.

Notation "a &' b" := (Z.land a b) (at level 46, left associativity) : c_scope.
Notation "a |' b" := (Z.lor a b) (at level 47, left associativity) : c_scope.
Notation "a >>' b" := (Z.shiftr a b) (at level 45, left associativity) : c_scope.
Notation "a <<' b" := (Z.shiftl a b) (at level 45, left associativity) : c_scope.

(** A C flag test, [x & m]: true when any bit of [m] is set in [x]. *)
Definition has (x m : Z) : bool := negb (Z.land x m =? 0)%Z.

(** ** Error numbers (kernel/errno.h); a failing call returns the negation *)
Definition EPERM : Z := 1.
Definition ENOENT : Z := 2.
Definition ESRCH : Z := 3.
Definition EINTR : Z := 4.
Definition EIO : Z := 5.
Definition ENXIO : Z := 6.
Definition EBADF : Z := 9.
Definition EAGAIN : Z := 11.
Definition ENOMEM : Z := 12.
Definition EACCES : Z := 13.
Definition EFAULT : Z := 14.
Definition EBUSY : Z := 16.
Definition EEXIST : Z := 17.
Definition EXDEV : Z := 18.
Definition ENOTDIR : Z := 20.
Definition EISDIR : Z := 21.
Definition EINVAL : Z := 22.
Definition ENFILE : Z := 23.
Definition ENOTTY : Z := 25.
Definition EFBIG : Z := 27.
Definition ENOSPC : Z := 28.
Definition EPIPE : Z := 32.
Definition EDEADLK : Z := 35.
Definition ENAMETOOLONG : Z := 36.
Definition ENOLCK : Z := 37.
Definition ENOSYS : Z := 38.
Definition ENOTEMPTY : Z := 39.
Definition ELOOP : Z := 40.
Definition EOVERFLOW : Z := 75.
Definition EMSGSIZE : Z := 90.
Definition EPROTONOSUPPORT : Z := 93.
Definition EADDRINUSE : Z := 98.
Definition EADDRNOTAVAIL : Z := 99.
Definition ENETDOWN : Z := 100.
Definition ENETUNREACH : Z := 101.
Definition ENOBUFS : Z := 105.
Definition ECONNRESET : Z := 104.
Definition EISCONN : Z := 106.
Definition ENOTCONN : Z := 107.
Definition ETIMEDOUT : Z := 110.
Definition EHOSTUNREACH : Z := 113.

(** ** Numbers of the kernel's ABI (kernel/uapi.h) *)
Definition O_ACCMODE : Z := 3.
Definition O_RDONLY : Z := 0.
Definition O_WRONLY : Z := 1.
Definition O_RDWR : Z := 2.
Definition O_NONBLOCK : Z := 2048.
Definition O_CLOEXEC : Z := 524288.
Definition POLLIN : Z := 1.
Definition POLLOUT : Z := 4.
Definition POLLERR : Z := 8.
Definition POLLHUP : Z := 16.
Definition FIONREAD : Z := 21531.
Definition FIONBIO : Z := 21537.

(** ** Tactics and hint databases *)

Create HintDb sage discriminated.
Create Rewrite HintDb sage_rw.

(** Turn boolean comparisons into arithmetic facts, case by case. *)
Ltac zcase :=
  match goal with
  | |- context [(?a =? ?b)%Z] => destruct (Z.eqb_spec a b)
  | |- context [(?a <? ?b)%Z] => destruct (Z.ltb_spec a b)
  | |- context [(?a <=? ?b)%Z] => destruct (Z.leb_spec a b)
  | |- context [(?a =? ?b)%nat] => destruct (Nat.eqb_spec a b)
  | |- context [(?a <? ?b)%nat] => destruct (Nat.ltb_spec a b)
  | |- context [(?a <=? ?b)%nat] => destruct (Nat.leb_spec a b)
  end.

Ltac zcase_in H :=
  match type of H with
  | context [(?a =? ?b)%Z] => destruct (Z.eqb_spec a b)
  | context [(?a <? ?b)%Z] => destruct (Z.ltb_spec a b)
  | context [(?a <=? ?b)%Z] => destruct (Z.leb_spec a b)
  | context [(?a =? ?b)%nat] => destruct (Nat.eqb_spec a b)
  | context [(?a <? ?b)%nat] => destruct (Nat.ltb_spec a b)
  | context [(?a <=? ?b)%nat] => destruct (Nat.leb_spec a b)
  end.

(** Reflect a conjunction/disjunction of boolean tests in the context. *)
Ltac breflect :=
  repeat match goal with
  | H : (_ && _) = true |- _ => apply andb_true_iff in H; destruct H
  | H : (_ && _) = false |- _ => apply andb_false_iff in H
  | H : (_ || _) = false |- _ => apply orb_false_iff in H; destruct H
  | H : (_ || _) = true |- _ => apply orb_true_iff in H
  | H : negb _ = true |- _ => apply negb_true_iff in H
  | H : negb _ = false |- _ => apply negb_false_iff in H
  | H : (_ =? _)%Z = true |- _ => apply Z.eqb_eq in H
  | H : (_ =? _)%Z = false |- _ => apply Z.eqb_neq in H
  | H : (_ <? _)%Z = true |- _ => apply Z.ltb_lt in H
  | H : (_ <? _)%Z = false |- _ => apply Z.ltb_ge in H
  | H : (_ <=? _)%Z = true |- _ => apply Z.leb_le in H
  | H : (_ <=? _)%Z = false |- _ => apply Z.leb_gt in H
  end.

(** ** Integer lemmas *)
Section integers.
Local Open Scope Z_scope.

Lemma u8_small x : 0 <= x < 256 -> u8 x = x.
Proof. intros. by apply Z.mod_small. Qed.
Lemma u16_small x : 0 <= x < 65536 -> u16 x = x.
Proof. intros. by apply Z.mod_small. Qed.
Lemma u32_small x : 0 <= x < 4294967296 -> u32 x = x.
Proof. intros. by apply Z.mod_small. Qed.
Lemma u8_bound x : 0 <= u8 x < 256.
Proof. by apply Z.mod_pos_bound. Qed.
Lemma u16_bound x : 0 <= u16 x < 65536.
Proof. by apply Z.mod_pos_bound. Qed.
Lemma u32_bound x : 0 <= u32 x < 4294967296.
Proof. by apply Z.mod_pos_bound. Qed.

Lemma s32_bound x : -2147483648 <= s32 x < 2147483648.
Proof. unfold s32. pose proof (u32_bound x). cbv zeta. zcase; lia. Qed.
Lemma s32_small x : -2147483648 <= x < 2147483648 -> s32 x = x.
Proof.
  intros. unfold s32, u32. destruct (Z.lt_ge_cases x 0).
  - rewrite <- (Z.mod_unique_pos x 4294967296 (-1) (x + 4294967296)) by lia. zcase; lia.
  - rewrite Z.mod_small by lia. zcase; lia.
Qed.

Lemma u32_idem x : u32 (u32 x) = u32 x.
Proof. apply u32_small, u32_bound. Qed.
Lemma u32_add_nowrap p n : 0 <= n -> u32 p + n < 4294967296 -> u32 (p + n) = u32 p + n.
Proof.
  intros Hn Hlt. unfold u32 in *. rewrite <- (Zplus_mod_idemp_l p). apply Z.mod_small.
  pose proof (Z.mod_pos_bound p 4294967296). lia.
Qed.
(** A 32-bit sum, by whether it carried. *)
Lemma u32_wrap_add a b :
  0 <= a < 4294967296 -> 0 <= b < 4294967296 ->
  u32 (a + b) = a + b - (if u32 (a + b) <? a then 4294967296 else 0).
Proof.
  intros. destruct (Z.lt_ge_cases (a + b) 4294967296).
  - rewrite u32_small by lia. zcase; lia.
  - assert (E : u32 (a + b) = a + b - 4294967296).
    { unfold u32. symmetry. apply (Z.mod_unique_pos _ _ 1); lia. }
    rewrite E. zcase; lia.
Qed.

Lemma land_bit x i : 0 <= i -> Z.land (Z.shiftr x i) 1 = Z.b2z (Z.testbit x i).
Proof.
  intros Hi. rewrite (Z.land_ones _ 1) by done.
  rewrite Z.testbit_spec', Z.shiftr_div_pow2 by done. done.
Qed.

Lemma shiftr3 i : Z.shiftr i 3 = i / 8.
Proof. by rewrite Z.shiftr_div_pow2. Qed.
Lemma land7 i : Z.land i 7 = i mod 8.
Proof. change 7 with (Z.ones 3). by rewrite Z.land_ones. Qed.

(** [x & ~(2^k - 1)] rounds down to a multiple of [2^k]. *)
Lemma land_lnot_ones x k :
  0 <= k -> Z.land x (Z.lnot (Z.ones k)) = x - x mod 2 ^ k.
Proof.
  intros Hk. rewrite <- Z.ldiff_land, Z.ldiff_ones_r, Z.shiftl_mul_pow2,
    Z.shiftr_div_pow2 by done.
  pose proof (Z.div_mod x (2 ^ k)). lia.
Qed.

Lemma u32_land x : u32 x = Z.land x (Z.ones 32).
Proof. by rewrite Z.land_ones. Qed.

(** The same mask as a 32-bit constant, [x & ~(2^k - 1)UL]. *)
Lemma land_mask32 x k :
  0 <= k -> 0 <= x < 4294967296 ->
  Z.land x (u32 (Z.lnot (Z.ones k))) = x - x mod 2 ^ k.
Proof.
  intros Hk Hx. rewrite u32_land, (Z.land_comm (Z.lnot _)), Z.land_assoc.
  rewrite (Z.land_ones x 32) by done. change (2 ^ 32) with 4294967296.
  rewrite (Z.mod_small x) by done.
  by apply land_lnot_ones.
Qed.

Lemma testbit_u8 x i : 0 <= i < 8 -> Z.testbit (u8 x) i = Z.testbit x i.
Proof.
  intros. unfold u8. change 256 with (2 ^ 8). rewrite Z.mod_pow2_bits_low by lia. done.
Qed.
End integers.

(** ** Byte-addressed memory *)

(** Physical memory as the kernel's identity map shows it: a byte at every
    address. The 68040 is big-endian, which is what [load16] says. *)
Definition ram : Type := Z -> Z.
Definition load8 (m : ram) (a : Z) : Z := m a.
Definition store8 (m : ram) (a v : Z) : ram :=
  fun x => if (x =? a)%Z then v else m x.
Definition load16 (m : ram) (a : Z) : Z := (m a * 256 + m (a + 1)%Z)%Z.
Definition store16 (m : ram) (a v : Z) : ram :=
  store8 (store8 m a (u8 (Z.shiftr v 8))) (a + 1)%Z (u8 v).
Definition memset (m : ram) (a v n : Z) : ram :=
  fun x => if ((a <=? x) && (x <? a + n))%Z then v else m x.

Section memory.
Local Open Scope Z_scope.

Lemma store8_eq m a v : store8 m a v a = v.
Proof. unfold store8. by rewrite Z.eqb_refl. Qed.
Lemma store8_ne m a v x : x <> a -> store8 m a v x = m x.
Proof. unfold store8. intros. by destruct (Z.eqb_spec x a). Qed.

Lemma load16_store8_ne m a v x :
  x <> a -> x + 1 <> a -> load16 (store8 m a v) x = load16 m x.
Proof.
  intros H1 H2. unfold load16, store8.
  by destruct (Z.eqb_spec x a), (Z.eqb_spec (x + 1) a).
Qed.

Lemma load16_store16_eq m a v : 0 <= v < 65536 -> load16 (store16 m a v) a = v.
Proof.
  intros Hv. unfold load16, store16, store8. rewrite Z.eqb_refl.
  destruct (Z.eqb_spec a (a + 1)); [lia|]. rewrite Z.eqb_refl.
  unfold u8. rewrite Z.shiftr_div_pow2 by done. change (2 ^ 8) with 256.
  rewrite (Z.mod_small (v / 256)) by (split; [apply Z.div_pos|apply Z.div_lt_upper_bound]; lia).
  pose proof (Z.div_mod v 256). lia.
Qed.

Lemma load16_store16_ne m a v x :
  x + 1 < a \/ a + 1 < x -> load16 (store16 m a v) x = load16 m x.
Proof. intros H. unfold store16. rewrite !load16_store8_ne by lia. done. Qed.

Lemma store16_ne m a v x : x <> a -> x <> a + 1 -> store16 m a v x = m x.
Proof.
  intros. unfold store16, store8.
  by destruct (Z.eqb_spec x (a + 1)), (Z.eqb_spec x a).
Qed.

Lemma memset_out m a v n x : x < a \/ a + n <= x -> memset m a v n x = m x.
Proof.
  intros H. unfold memset.
  destruct (Z.leb_spec a x), (Z.ltb_spec x (a + n)); simpl; lia || done.
Qed.
Lemma memset_in m a v n x : a <= x < a + n -> memset m a v n x = v.
Proof.
  intros H. unfold memset.
  destruct (Z.leb_spec a x), (Z.ltb_spec x (a + n)); simpl; lia || done.
Qed.
Lemma load16_memset_out m a v n x :
  x + 1 < a \/ a + n <= x -> load16 (memset m a v n) x = load16 m x.
Proof. intros. unfold load16. rewrite !memset_out by lia. done. Qed.
End memory.

(** ** Big-endian words in byte strings *)

Definition be (bs : list Z) : Z := foldl (fun acc b => (acc * 256 + b)%Z) 0%Z bs.
Fixpoint be_bytes (n : nat) (x : Z) : list Z :=
  match n with
  | O => []
  | S n' => u8 (Z.shiftr x (8 * Z.of_nat n')) :: be_bytes n' x
  end.
(** The [n] bytes from offset [a]. *)
Definition sub {A} (bs : list A) (a n : nat) : list A := take n (drop a bs).

(** Reading a two's-complement field of [n] bits. *)
Definition signed (n : Z) (x : Z) : Z :=
  if (x <? 2 ^ (n - 1))%Z then x else (x - 2 ^ n)%Z.
Definition s64 (x : Z) : Z := signed 64 (u64 x).

Section endian.
Local Open Scope Z_scope.

Lemma length_be_bytes n x : length (be_bytes n x) = n.
Proof. induction n; simpl; congruence. Qed.

Lemma be_app l1 l2 : be (l1 ++ l2) = be l1 * 256 ^ Z.of_nat (length l2) + be l2.
Proof.
  unfold be. rewrite foldl_app. generalize (foldl (fun acc b => acc * 256 + b) 0 l1).
  induction l2 as [|b l2 IH] using rev_ind; intros z; simpl; [lia|].
  rewrite !foldl_app. simpl. rewrite IH, length_app. simpl.
  rewrite Nat2Z.inj_add. change (Z.of_nat 1) with 1. rewrite Z.pow_add_r by lia.
  rewrite Z.pow_1_r. lia.
Qed.

Lemma be_be_bytes n x : be (be_bytes n x) = x mod 256 ^ Z.of_nat n.
Proof.
  induction n as [|n IH]; [simpl; by rewrite Z.mod_1_r|].
  change (be_bytes (S n) x) with ([u8 (Z.shiftr x (8 * Z.of_nat n))] ++ be_bytes n x).
  rewrite be_app, IH, length_be_bytes. unfold be; simpl.
  rewrite Z.shiftr_div_pow2 by lia. rewrite Z.pow_mul_r by lia. change (2 ^ 8) with 256.
  rewrite Nat2Z.inj_succ, Z.pow_succ_r by lia. rewrite (Z.mul_comm 256).
  rewrite Z.rem_mul_r by lia. unfold u8. lia.
Qed.

Lemma be_bytes_range n x : Forall (fun b => 0 <= b < 256) (be_bytes n x).
Proof. induction n; simpl; constructor; auto. apply u8_bound. Qed.
End endian.

(** ** Bounded loops *)

(** [for (i = 0; i < n; i++) body], the state passed explicitly. *)
Fixpoint for_upto {S : Type} (n : nat) (body : nat -> S -> S) (s : S) : S :=
  match n with
  | O => s
  | Datatypes.S k => body k (for_upto k body s)
  end.

Lemma for_upto_ind {S} (P : nat -> S -> Prop) n body s :
  P 0 s -> (forall i s', i < n -> P i s' -> P (Datatypes.S i) (body i s')) ->
  P n (for_upto n body s).
Proof.
  intros H0 Hstep. induction n as [|n IH]; simpl; [done|].
  apply Hstep; [lia|]. apply IH. intros; apply Hstep; [lia|done].
Qed.

(** At most [p] turns of a loop: a turn says whether to go on. *)
Fixpoint loop {S : Type} (p : positive) (turn : S -> bool * S) (s : S) : bool * S :=
  match p with
  | xH => turn s
  | xO q => let '(go, s) := loop q turn s in if go then loop q turn s else (false, s)
  | xI q =>
      let '(go, s) := turn s in
      if go then let '(go, s) := loop q turn s in if go then loop q turn s else (false, s) else (false, s)
  end.
Lemma loop_ind {S} (P : S -> Prop) p turn s : (forall s, P s -> P (turn s).2) -> P s -> P (loop p turn s).2.
Proof.
  intros Ht. revert s. induction p as [p IH|p IH|]; intros s Hs; cbn [loop].
  - pose proof (Ht s Hs) as H. destruct (turn s) as [[] s1]; [|done]. pose proof (IH s1 H) as H1.
    destruct (loop p turn s1) as [[] s2]; [by apply IH|done].
  - pose proof (IH s Hs) as H1. destruct (loop p turn s) as [[] s1]; [by apply IH|done].
  - by apply Ht.
Qed.
(** Each turn that goes on adds to [m]: one that has not ended has turned [p] times. *)
Lemma loop_turns {S} (P : S -> Prop) (m : S -> Z) p turn s :
  (forall s, P s -> (turn s).1 = true -> P (turn s).2 /\ (m s + 1 <= m (turn s).2)%Z) -> P s ->
  (loop p turn s).1 = true -> P (loop p turn s).2 /\ (m s + Z.pos p <= m (loop p turn s).2)%Z.
Proof.
  intros Ht. revert s. induction p as [p IH|p IH|]; intros s Hs; cbn [loop].
  - pose proof (Ht s Hs) as H. destruct (turn s) as [[] s1]; [|done]. destruct (H eq_refl) as [H1 H2]. cbn [snd] in *.
    pose proof (IH s1 H1) as H3. destruct (loop p turn s1) as [[] s2]; [|done]. destruct (H3 eq_refl) as [H4 H5]. cbn [snd] in *.
    intros Hg. destruct (IH s2 H4 Hg). split; [done|]. lia.
  - pose proof (IH s Hs) as H3. destruct (loop p turn s) as [[] s2]; [|done]. destruct (H3 eq_refl) as [H4 H5]. cbn [snd] in *.
    intros Hg. destruct (IH s2 H4 Hg). split; [done|]. lia.
  - apply (Ht s Hs).
Qed.

(** A loop over a list that stops at the first failure. *)
Fixpoint try_each {A S : Type} (f : A -> S -> bool * S) (l : list A) (s : S) : bool * S :=
  match l with
  | [] => (true, s)
  | x :: l' => let '(ok, s) := f x s in if ok then try_each f l' s else (false, s)
  end.

(** How many indices below [n] satisfy [f]. *)
Fixpoint count_upto (n : nat) (f : nat -> bool) : nat :=
  match n with
  | O => 0
  | S k => count_upto k f + (if f k then 1 else 0)
  end.

Lemma count_upto_ext n f g :
  (forall i, i < n -> f i = g i) -> count_upto n f = count_upto n g.
Proof.
  induction n as [|n IH]; intros H; simpl; [done|].
  rewrite IH, H by eauto with lia. done.
Qed.

Lemma count_upto_le n f : count_upto n f <= n.
Proof. induction n; simpl; [lia|]. destruct (f n); lia. Qed.

Lemma count_upto_set n f i b :
  i < n ->
  count_upto n (fun j => if j =? i then b else f j) + (if f i then 1 else 0) =
  count_upto n f + (if b then 1 else 0).
Proof.
  induction n as [|n IH]; intros Hi; simpl; [lia|].
  destruct (Nat.eqb_spec n i) as [->|Hne].
  - rewrite (count_upto_ext i _ f).
    + lia.
    + intros j Hj. destruct (Nat.eqb_spec j i); [lia|done].
  - specialize (IH ltac:(lia)). lia.
Qed.

Lemma count_upto_full n f : count_upto n f = n -> forall i, i < n -> f i = true.
Proof.
  induction n as [|n IH]; simpl; intros H i Hi; [lia|].
  pose proof (count_upto_le n f). destruct (f n) eqn:E; [|lia].
  destruct (decide (i = n)) as [->|]; [done|]. apply IH; lia.
Qed.

(** Whether every index below [n] satisfies [f]. *)
Fixpoint all_upto (n : nat) (f : nat -> bool) : bool :=
  match n with
  | O => true
  | S k => all_upto k f && f k
  end.

Lemma all_upto_true n f : all_upto n f = true <-> forall i, i < n -> f i = true.
Proof.
  induction n as [|n IH]; simpl; [split; [intros _ i Hi; lia|done]|].
  rewrite andb_true_iff, IH. split.
  - intros [H1 H2] i Hi. destruct (decide (i = n)) as [->|]; [done|]. apply H1. lia.
  - intros H. split; [intros; apply H; lia|apply H; lia].
Qed.

(** ** Tables: fixed arrays of structures *)

(** The first index whose entry satisfies [P], as the kernel's linear scans
    return it. *)
Fixpoint find_idx {A} (P : A -> bool) (l : list A) : option nat :=
  match l with
  | [] => None
  | x :: l' => if P x then Some 0 else S <$> find_idx P l'
  end.

Lemma find_idx_Some {A} (P : A -> bool) l i :
  find_idx P l = Some i <->
  (exists x, l !! i = Some x /\ P x = true) /\
  (forall j y, j < i -> l !! j = Some y -> P y = false).
Proof.
  revert i. induction l as [|x l IH]; intros i; simpl.
  { split; [done|]. intros [(y & H & _) _]. by rewrite lookup_nil in H. }
  destruct (P x) eqn:E.
  - split.
    + intros [= <-]. split; [by exists x|]. intros; lia.
    + intros [_ H]. destruct i as [|i]; [done|].
      specialize (H 0 x ltac:(lia) eq_refl). congruence.
  - destruct i as [|i].
    + split; [destruct (find_idx P l); by intros|].
      intros [(y & [= <-] & H) _]. congruence.
    + rewrite fmap_Some. split.
      * intros (k & Hk & [= ->]). apply IH in Hk as [Hex Hlt]. split; [done|].
        intros [|j] y Hj Hy; simpl in Hy; [by simplify_eq|]. eapply Hlt; [|done]. lia.
      * intros [Hex Hlt]. exists i. split; [|done]. apply IH. split; [done|].
        intros j y Hj Hy. apply (Hlt (S j) y); [lia|done].
Qed.

Lemma find_idx_None {A} (P : A -> bool) l :
  find_idx P l = None <-> forall j y, l !! j = Some y -> P y = false.
Proof.
  induction l as [|x l IH]; simpl; [done|].
  destruct (P x) eqn:E.
  - split; [done|]. intros H. specialize (H 0 x eq_refl). congruence.
  - rewrite fmap_None, IH. split.
    + intros H [|j] y Hy; simpl in Hy; [by simplify_eq|]. eauto.
    + intros H j y Hy. exact (H (S j) y Hy).
Qed.

Lemma find_idx_lt {A} (P : A -> bool) l i : find_idx P l = Some i -> i < length l.
Proof.
  intros H. apply find_idx_Some in H as [(x & H & _) _]. by eapply lookup_lt_Some.
Qed.

(** How many entries satisfy [P]. *)
Definition count_if {A} (P : A -> bool) (l : list A) : nat :=
  length (List.filter P l).

Lemma drop_length_take {A} n (l : list A) : drop (length (take n l)) l = drop n l.
Proof.
  rewrite length_take. destruct (Nat.le_gt_cases n (length l)); [by rewrite Nat.min_l|].
  rewrite Nat.min_r, !drop_ge by lia. done.
Qed.

Lemma count_if_cons {A} (P : A -> bool) y l :
  count_if P (y :: l) = count_if P l + (if P y then 1 else 0).
Proof. unfold count_if. simpl. destruct (P y); simpl; lia. Qed.

Lemma count_if_insert {A} (P : A -> bool) l i x y :
  l !! i = Some x ->
  count_if P (<[i:=y]> l) + (if P x then 1 else 0) =
  count_if P l + (if P y then 1 else 0).
Proof.
  unfold count_if. revert i. induction l as [|z l IH]; intros [|i] H; simpl in *; simplify_eq.
  - destruct (P x), (P y); simpl; lia.
  - specialize (IH i H). destruct (P z); simpl; lia.
Qed.

Lemma count_if_pos {A} (P : A -> bool) l :
  0 < count_if P l <-> exists i x, l !! i = Some x /\ P x = true.
Proof.
  unfold count_if. induction l as [|z l IH]; simpl.
  - split; [lia|]. intros (i & x & H & _). by rewrite lookup_nil in H.
  - destruct (P z) eqn:E; simpl.
    + split; [|lia]. intros _. by exists 0, z.
    + rewrite IH. split.
      * intros (i & x & H). by exists (S i), x.
      * intros ([|i] & x & H & Hx); simpl in H; [congruence|]. by exists i, x.
Qed.

Lemma count_if_seq {A} (P : A -> bool) (f : nat -> A) n :
  count_if P (f <$> seq 0 n) = count_upto n (fun k => P (f k)).
Proof.
  unfold count_if. induction n as [|n IH]; [done|].
  rewrite seq_S, fmap_app, List.filter_app, length_app, IH. simpl.
  by destruct (P (f n)).
Qed.

Lemma count_upto_negb n f : count_upto n (fun k => negb (f k)) + count_upto n f = n.
Proof. induction n as [|n IH]; simpl; [done|]. destruct (f n); simpl; lia. Qed.

#[export] Hint Resolve u8_bound u16_bound u32_bound : sage.
#[export] Hint Rewrite u32_small u16_small u8_small using lia : sage_rw.

Lemma sub_split {A} (l : list A) (a n m : nat) : sub l a (n + m) = sub l a n ++ sub l (a + n) m.
Proof.
  unfold sub. rewrite <- drop_drop. by rewrite <- (take_take_drop (drop a l) n m).
Qed.
Lemma sub_all {A} (l : list A) : sub l 0 (length l) = l.
Proof. unfold sub. rewrite drop_0. by rewrite take_ge. Qed.
Lemma length_sub {A} (l : list A) (a n : nat) : a + n <= length l -> length (sub l a n) = n.
Proof. intros. unfold sub. rewrite length_take, length_drop. lia. Qed.
Lemma Forall_sub {A} (P : A -> Prop) l (a n : nat) : Forall P l -> Forall P (sub l a n).
Proof. intros. by apply Forall_take, Forall_drop. Qed.

Lemma concat_insert {A B} (f : A -> list B) l i x y :
  l !! i = Some x -> f x ++ concat (f <$> <[i := y]> l) ≡ₚ f y ++ concat (f <$> l).
Proof using Type.
  revert i. induction l as [|a l IH]; intros [|i] E; simplify_eq/=.
  - by rewrite !app_assoc, (Permutation_app_comm (f x)).
  - rewrite app_assoc, (Permutation_app_comm (f x)), <- app_assoc, (IH _ E).
    by rewrite !app_assoc, (Permutation_app_comm (f a)).
Qed.

Lemma elem_of_concat_fmap {A B} (f : A -> list B) l i x y :
  l !! i = Some x -> y ∈ f x -> y ∈ concat (f <$> l).
Proof.
  rewrite !list_elem_of_In, in_concat. intros Hi Hy. exists (f x). split; [|done].
  apply list_elem_of_In, list_elem_of_fmap_2. by eapply list_elem_of_lookup_2.
Qed.

Lemma count_if_ext {A} (P Q : A -> bool) l : (forall i x, l !! i = Some x -> P x = Q x) -> count_if P l = count_if Q l.
Proof.
  induction l as [|x l IH]; intros E; [done|]. rewrite !count_if_cons, IH by (intros i y Hy; exact (E (S i) y Hy)).
  by rewrite (E 0 x).
Qed.
Lemma count_if_zero {A} (P : A -> bool) l : count_if P l = 0 <-> forall i x, l !! i = Some x -> P x = false.
Proof.
  split.
  - intros E i x Hi. destruct (P x) eqn:Ex; [|done]. assert (0 < count_if P l) by (apply count_if_pos; eauto). lia.
  - intros E. destruct (count_if P l) eqn:Ec; [done|]. assert (0 < count_if P l) as (i & x & Hi & Hx)%count_if_pos by lia.
    by rewrite (E i x Hi) in Hx.
Qed.
Lemma count_if_once {A} (P : A -> bool) l i x : l !! i = Some x -> P x = true ->
  (forall j y, l !! j = Some y -> P y = true -> j = i) -> count_if P l = 1.
Proof.
  revert i. induction l as [|y l IH]; intros [|i] Hi Hx Hu; simplify_eq/=; rewrite count_if_cons.
  - rewrite Hx. replace (count_if P l) with 0; [done|]. symmetry. apply count_if_zero. intros j z Hj.
    destruct (P z) eqn:Ez; [|done]. by specialize (Hu (S j) z Hj Ez).
  - destruct (P y) eqn:Ey; [by specialize (Hu 0 y eq_refl Ey)|].
    rewrite (IH i Hi Hx); [done|]. intros j z Hj Hz. specialize (Hu (S j) z Hj Hz). lia.
Qed.
Lemma count_one_same {A} (P : A -> bool) l i j x y :
  count_if P l = 1 -> l !! i = Some x -> l !! j = Some y -> P x = true -> P y = true -> i = j.
Proof.
  revert i j. induction l as [|z l IH]; intros [|i] [|j] Hc Hi Hj Hx Hy; simplify_eq/=; try done.
  - exfalso. rewrite count_if_cons, Hx in Hc. assert (0 < count_if P l) by (apply count_if_pos; eauto). lia.
  - exfalso. rewrite count_if_cons, Hy in Hc. assert (0 < count_if P l) by (apply count_if_pos; eauto). lia.
  - f_equal. rewrite count_if_cons in Hc. assert (0 < count_if P l) by (apply count_if_pos; eauto).
    apply IH; try done. destruct (P z); lia.
Qed.
Lemma alter_insert {A} (f : A -> A) (l : list A) (i : nat) x : l !! i = Some x -> alter f i l = <[i := f x]> l.
Proof. revert i. induction l as [|y l IH]; intros [|i] E; simplify_eq/=; [done|]. f_equal. by apply IH. Qed.
Lemma list_alter_alter {A} (f g : A -> A) (i : nat) (l : list A) : alter f i (alter g i l) = alter (fun x => f (g x)) i l.
Proof.
  apply list_eq. intros k. destruct (decide (k = i)) as [->|Hi].
  - rewrite !list_lookup_alter_eq. by destruct (l !! i).
  - by rewrite !list_lookup_alter_ne.
Qed.
Lemma list_alter_commute {A} (f g : A -> A) (i j : nat) (l : list A) :
  i <> j -> alter f i (alter g j l) = alter g j (alter f i l).
Proof.
  intros Hne. apply list_eq. intros k. destruct (decide (k = i)) as [->|Hi].
  - rewrite list_lookup_alter_eq, !(list_lookup_alter_ne g), list_lookup_alter_eq by done. done.
  - rewrite list_lookup_alter_ne by done. destruct (decide (k = j)) as [->|Hj].
    + by rewrite !list_lookup_alter_eq, list_lookup_alter_ne by done.
    + by rewrite !list_lookup_alter_ne by done.
Qed.
Lemma alter_ge {A} (f : A -> A) (l : list A) (i : nat) : length l <= i -> alter f i l = l.
Proof. revert i. induction l as [|y l IH]; intros [|i] E; simpl in *; try done; [lia|]. f_equal. apply IH. lia. Qed.
