(* ===== verification/Pmm.v ===== *)
(** * The physical page allocator (kernel/pmm.c)

    One bit per 4 KB page, and a 16-bit count of the holders beyond the first,
    both kept in the first pages of the pool they describe. The model keeps
    that layout: the bitmap and the counts are bytes of the same memory the
    allocator hands out and zeroes. *)

From S2P Require Import Prelude.
Local Open Scope Z_scope.

Module PMM.

(** ** The code *)

Definition PAGE_SIZE : Z := 4096.
Definition PAGE_MASK : Z := PAGE_SIZE - 1.
Definition PAGE_ALIGN_DOWN (x : Z) : Z := Z.land (u32 x) (u32 (Z.lnot PAGE_MASK)).
Definition PAGE_ALIGN_UP (x : Z) : Z := PAGE_ALIGN_DOWN (u32 (u32 x + PAGE_MASK)).

(** The file's static variables, and the memory they point into. *)
Record pmm := mk_pmm {
  mem : ram;
  bitmap : Z;
  refs : Z;
  base : Z;
  total : Z;
  used : Z;
}.

Definition set_mem (m : ram) (s : pmm) : pmm :=
  mk_pmm m (bitmap s) (refs s) (base s) (total s) (used s).
Definition set_used (n : Z) (s : pmm) : pmm :=
  mk_pmm (mem s) (bitmap s) (refs s) (base s) (total s) n.

(** [refs[i]], a big-endian 16-bit word. *)
Definition get_ref (s : pmm) (i : Z) : Z := load16 (mem s) (refs s + 2 * i).
Definition put_ref (i v : Z) (s : pmm) : pmm :=
  set_mem (store16 (mem s) (refs s + 2 * i) v) s.

Definition test_bit (s : pmm) (i : Z) : bool :=
  negb (Z.land (Z.shiftr (load8 (mem s) (bitmap s + Z.shiftr i 3)) (Z.land i 7)) 1 =? 0).

Definition set_bit (i : Z) (s : pmm) : pmm :=
  let a := bitmap s + Z.shiftr i 3 in
  set_mem (store8 (mem s) a
    (u8 (Z.lor (load8 (mem s) a) (u8 (Z.shiftl 1 (Z.land i 7)))))) s.

Definition clear_bit (i : Z) (s : pmm) : pmm :=
  let a := bitmap s + Z.shiftr i 3 in
  set_mem (store8 (mem s) a
    (u8 (Z.land (load8 (mem s) a) (u8 (Z.lnot (Z.shiftl 1 (Z.land i 7))))))) s.

(** The bytes of bitmap, rounded up to even so that [refs] is aligned. *)
Definition bitmap_bytes (pages : Z) : Z :=
  Z.land (u32 (u32 (pages + 7) / 8 + 1)) (u32 (Z.lnot 1)).

Definition pmm_init (first last : Z) (s : pmm) : pmm :=
  let base' := PAGE_ALIGN_UP first in
  let last' := PAGE_ALIGN_DOWN last in
  if last' <=? base' then mk_pmm (mem s) 0 (refs s) base' 0 0
  else
    let pages := u32 (last' - base') / PAGE_SIZE in
    let map_bytes := u32 (bitmap_bytes pages + u32 (pages * 2)) in
    let map_pages := u32 (map_bytes + PAGE_SIZE - 1) / PAGE_SIZE in
    if pages <=? map_pages then mk_pmm (mem s) 0 (refs s) base' 0 0
    else
      let s1 := mk_pmm (memset (mem s) base' 0 (u32 (map_pages * PAGE_SIZE)))
                       base' (u32 (base' + bitmap_bytes pages)) base' pages 0 in
      for_upto (Z.to_nat map_pages)
        (fun i s => let s := set_bit (Z.of_nat i) s in set_used (u32 (used s + 1)) s) s1.

(** [pmm_alloc]'s loop, from page [i]; [fuel] counts the pages left. *)
Fixpoint alloc_from (fuel : nat) (i : Z) (s : pmm) : Z * pmm :=
  match fuel with
  | O => (0, s)
  | S fuel' =>
      if i <? total s then
        if negb (test_bit s i) then
          let pa := u32 (base s + u32 (i * PAGE_SIZE)) in
          let s := set_bit i s in
          let s := set_used (u32 (used s + 1)) s in
          (pa, set_mem (memset (mem s) pa 0 PAGE_SIZE) s)
        else alloc_from fuel' (u32 (i + 1)) s
      else (0, s)
  end.

Definition pmm_alloc (s : pmm) : Z * pmm := alloc_from (Z.to_nat (total s)) 0 s.

Definition pmm_free (pa : Z) (s : pmm) : pmm :=
  if pa <? base s then s
  else
    let i := (pa - base s) / PAGE_SIZE in
    if (i <? total s) && test_bit s i && negb (get_ref s i =? 0)
    then put_ref i (u16 (get_ref s i - 1)) s
    else if (total s <=? i) || negb (test_bit s i) then s
    else let s := clear_bit i s in set_used (u32 (used s - 1)) s.

(** The inner loop of [pmm_alloc_pages]: how many of the [n] pages from [i]
    are free before the first that is not, [j] already known to be. *)
Fixpoint probe (fuel : nat) (i j n : Z) (s : pmm) : Z :=
  match fuel with
  | O => j
  | S fuel' =>
      if j <? n then
        if test_bit s (u32 (i + j)) then j else probe fuel' i (u32 (j + 1)) n s
      else j
  end.

Fixpoint alloc_pages_from (fuel : nat) (i n : Z) (s : pmm) : Z * pmm :=
  match fuel with
  | O => (0, s)
  | S fuel' =>
      if u32 (i + n) <=? total s then
        let j := probe (Z.to_nat n) i 0 n s in
        if j =? n then
          let pa := u32 (base s + u32 (i * PAGE_SIZE)) in
          let s := for_upto (Z.to_nat n)
                     (fun k s => set_bit (u32 (i + Z.of_nat k)) s) s in
          let s := set_used (u32 (used s + n)) s in
          (pa, set_mem (memset (mem s) pa 0 (u32 (n * PAGE_SIZE))) s)
        else alloc_pages_from fuel' (u32 (i + j + 1)) n s
      else (0, s)
  end.

Definition pmm_alloc_pages (n : Z) (s : pmm) : Z * pmm :=
  if n =? 0 then (0, s)
  else if n =? 1 then pmm_alloc s
  else alloc_pages_from (Z.to_nat (total s) + 1) 0 n s.

Definition pmm_free_pages (pa n : Z) (s : pmm) : pmm :=
  snd (for_upto (Z.to_nat n)
         (fun _ '(pa, s) => (u32 (pa + PAGE_SIZE), pmm_free pa s)) (pa, s)).

Definition pmm_ref (pa : Z) (s : pmm) : Z * pmm :=
  if pa <? base s then (0, s)
  else
    let i := (pa - base s) / PAGE_SIZE in
    if (total s <=? i) || negb (test_bit s i) || (get_ref s i =? 65535)
    then (0, s)
    else (1, put_ref i (u16 (get_ref s i + 1)) s).

Definition pmm_refcount (pa : Z) (s : pmm) : Z :=
  if pa <? base s then 0
  else
    let i := (pa - base s) / PAGE_SIZE in
    if (total s <=? i) || negb (test_bit s i) then 0
    else u32 (1 + get_ref s i).

Definition pmm_total (s : pmm) : Z := total s.
Definition pmm_available (s : pmm) : Z := u32 (total s - used s).

(** ** Layout and invariant *)

Definition meta_bytes (t : Z) : Z := bitmap_bytes t + 2 * t.
Definition meta_pages (t : Z) : Z := (meta_bytes t + PAGE_SIZE - 1) / PAGE_SIZE.

(** How many hold page [i]: none if its bit is clear. *)
Definition holders (s : pmm) (i : Z) : Z :=
  if test_bit s i then 1 + get_ref s i else 0.

Definition pages_used (s : pmm) : nat :=
  count_upto (Z.to_nat (total s)) (fun k => test_bit s (Z.of_nat k)).

(** Where the bookkeeping is, and that it fits. *)
Record pmm_layout (s : pmm) : Prop := {
  inv_total : 0 < total s;
  inv_base : 0 <= base s /\ base s mod PAGE_SIZE = 0;
  inv_top : base s + total s * PAGE_SIZE <= 4294967296;
  inv_bitmap : bitmap s = base s;
  inv_refs : refs s = base s + bitmap_bytes (total s);
  inv_meta : meta_pages (total s) < total s;
  inv_bytes : forall a, 0 <= mem s a < 256;
}.

(** What it says: the first [r] pages are taken, a free page has no extra
    holders, and [used] counts the taken pages. *)
Record pmm_books (r : Z) (s : pmm) : Prop := {
  bk_reserved : forall i, 0 <= i < r -> test_bit s i = true;
  bk_free_refs : forall i, 0 <= i < total s -> test_bit s i = false -> get_ref s i = 0;
  bk_used : used s = Z.of_nat (pages_used s);
}.

Definition pmm_inv (s : pmm) : Prop :=
  pmm_layout s /\ pmm_books (meta_pages (total s)) s.

(** *** Arithmetic of the layout *)

Lemma bitmap_bytes_bounds t :
  0 <= t <= 1048576 -> (t + 7) / 8 <= bitmap_bytes t <= (t + 7) / 8 + 1.
Proof.
  intros Ht. unfold bitmap_bytes.
  assert (0 <= (t + 7) / 8 <= 131073).
  { split; [apply Z.div_pos; lia|]. apply Z.div_le_upper_bound; lia. }
  rewrite (u32_small (t + 7)), (u32_small (_ + 1)) by lia.
  change (Z.lnot 1) with (Z.lnot (Z.ones 1)). rewrite land_mask32 by lia.
  pose proof (Z.mod_pos_bound ((t + 7) / 8 + 1) (2 ^ 1)). lia.
Qed.

Lemma meta_pages_covers t :
  0 <= t <= 1048576 -> meta_bytes t <= meta_pages t * PAGE_SIZE.
Proof.
  intros Ht. unfold meta_pages, PAGE_SIZE.
  pose proof (Z.div_mod (meta_bytes t + 4096 - 1) 4096).
  pose proof (Z.mod_pos_bound (meta_bytes t + 4096 - 1) 4096). lia.
Qed.

(** *** Bits *)

Lemma test_bit_eq s i :
  0 <= i -> test_bit s i = Z.testbit (mem s (bitmap s + i / 8)) (i mod 8).
Proof.
  intros Hi. unfold test_bit, load8. rewrite land7, shiftr3.
  pose proof (Z.mod_pos_bound i 8 ltac:(lia)).
  rewrite land_bit by lia. by destruct (Z.testbit _ _).
Qed.

Lemma set_bit_mem_ne i s a :
  a <> bitmap s + i / 8 -> mem (set_bit i s) a = mem s a.
Proof. intros. unfold set_bit; simpl. rewrite shiftr3. by apply store8_ne. Qed.
Lemma clear_bit_mem_ne i s a :
  a <> bitmap s + i / 8 -> mem (clear_bit i s) a = mem s a.
Proof. intros. unfold clear_bit; simpl. rewrite shiftr3. by apply store8_ne. Qed.

Lemma test_set_bit i j s :
  0 <= i -> 0 <= j -> test_bit (set_bit i s) j = (j =? i) || test_bit s j.
Proof.
  intros Hi Hj. rewrite !test_bit_eq by done.
  destruct (Z.eq_dec (j / 8) (i / 8)) as [E|E].
  - unfold set_bit; simpl. rewrite shiftr3, land7, E, store8_eq.
    pose proof (Z.mod_pos_bound i 8 ltac:(lia)).
    pose proof (Z.mod_pos_bound j 8 ltac:(lia)).
    rewrite testbit_u8, Z.lor_spec, testbit_u8, Z.shiftl_1_l, Z.pow2_bits_eqb by lia.
    rewrite orb_comm. f_equal.
    pose proof (Z.div_mod i 8). pose proof (Z.div_mod j 8).
    destruct (Z.eqb_spec (i mod 8) (j mod 8)), (Z.eqb_spec j i); lia || done.
  - rewrite set_bit_mem_ne by (simpl; lia).
    destruct (Z.eqb_spec j i) as [->|]; done.
Qed.

Lemma test_clear_bit i j s :
  0 <= i -> 0 <= j -> test_bit (clear_bit i s) j = negb (j =? i) && test_bit s j.
Proof.
  intros Hi Hj. rewrite !test_bit_eq by done.
  destruct (Z.eq_dec (j / 8) (i / 8)) as [E|E].
  - unfold clear_bit; simpl. rewrite shiftr3, land7, E, store8_eq.
    pose proof (Z.mod_pos_bound i 8 ltac:(lia)).
    pose proof (Z.mod_pos_bound j 8 ltac:(lia)).
    rewrite testbit_u8, Z.land_spec, testbit_u8, Z.lnot_spec, Z.shiftl_1_l,
      Z.pow2_bits_eqb by lia.
    rewrite andb_comm. f_equal. f_equal.
    pose proof (Z.div_mod i 8). pose proof (Z.div_mod j 8).
    destruct (Z.eqb_spec (i mod 8) (j mod 8)), (Z.eqb_spec j i); lia || done.
  - rewrite clear_bit_mem_ne by (simpl; lia).
    destruct (Z.eqb_spec j i) as [->|]; done.
Qed.

Lemma test_bit_mem_ext s s' i :
  0 <= i -> bitmap s' = bitmap s ->
  mem s' (bitmap s + i / 8) = mem s (bitmap s + i / 8) ->
  test_bit s' i = test_bit s i.
Proof. intros Hi Hb Hm. rewrite !test_bit_eq, Hb, Hm by done. done. Qed.

Lemma set_bit_bytes i s :
  (forall a, 0 <= mem s a < 256) -> forall a, 0 <= mem (set_bit i s) a < 256.
Proof.
  intros H a. unfold set_bit, store8; simpl. destruct (_ =? _); eauto with sage.
Qed.
Lemma clear_bit_bytes i s :
  (forall a, 0 <= mem s a < 256) -> forall a, 0 <= mem (clear_bit i s) a < 256.
Proof.
  intros H a. unfold clear_bit, store8; simpl. destruct (_ =? _); eauto with sage.
Qed.

(** *** Frames: what each kind of write leaves alone *)

Section frames.
Context (s : pmm) (Hinv : pmm_layout s).

Lemma total_bound : 0 < total s <= 1048576.
Proof using Hinv.
  pose proof (inv_total s Hinv). pose proof (inv_base s Hinv) as [? _].
  pose proof (inv_top s Hinv). unfold PAGE_SIZE in *. lia.
Qed.

(** The byte holding bit [i] lies in the bitmap, below the counts. *)
Lemma bit_byte_range i :
  0 <= i < total s -> 0 <= i / 8 < bitmap_bytes (total s).
Proof using Hinv.
  intros Hi. pose proof total_bound. pose proof (bitmap_bytes_bounds (total s)).
  split; [apply Z.div_pos; lia|].
  assert (i / 8 < (total s + 7) / 8); [|lia].
  pose proof (Z.div_mod i 8). pose proof (Z.mod_pos_bound i 8).
  pose proof (Z.div_mod (total s + 7) 8). pose proof (Z.mod_pos_bound (total s + 7) 8). lia.
Qed.

Lemma meta_room : bitmap_bytes (total s) + 2 * total s <= meta_pages (total s) * PAGE_SIZE.
Proof using Hinv. pose proof total_bound. apply meta_pages_covers. lia. Qed.

(** Setting or clearing a bit of the pool leaves every count alone. *)
Lemma get_ref_bits i j s' :
  0 <= i < total s -> 0 <= j < total s ->
  refs s' = refs s -> bitmap s' = bitmap s ->
  (forall a, a <> bitmap s + i / 8 -> mem s' a = mem s a) ->
  get_ref s' j = get_ref s j.
Proof using Hinv.
  intros Hi Hj Hr Hb Hm. unfold get_ref, load16. rewrite Hr.
  pose proof (bit_byte_range i Hi).
  rewrite !Hm by (rewrite (inv_bitmap s Hinv), (inv_refs s Hinv); lia). done.
Qed.

(** A write outside the bookkeeping leaves bits and counts alone. *)
Lemma meta_frame s' :
  refs s' = refs s -> bitmap s' = bitmap s ->
  (forall a, base s <= a < base s + meta_pages (total s) * PAGE_SIZE -> mem s' a = mem s a) ->
  forall j, 0 <= j < total s -> test_bit s' j = test_bit s j /\ get_ref s' j = get_ref s j.
Proof using Hinv.
  intros Hr Hb Hm j Hj. pose proof (bit_byte_range j Hj). pose proof meta_room.
  pose proof total_bound. split.
  - apply test_bit_mem_ext; [lia|done|]. rewrite (inv_bitmap s Hinv). apply Hm. lia.
  - unfold get_ref, load16. rewrite Hr, (inv_refs s Hinv), !Hm by lia. done.
Qed.

(** Writing one count leaves the bits and the other counts alone. *)
Lemma put_ref_frame i v :
  0 <= i < total s -> 0 <= v < 65536 ->
  forall j, 0 <= j < total s ->
  test_bit (put_ref i v s) j = test_bit s j /\
  get_ref (put_ref i v s) j = (if j =? i then v else get_ref s j).
Proof using Hinv.
  intros Hi Hv j Hj. pose proof (bit_byte_range j Hj). split.
  - apply test_bit_mem_ext; [lia|done|]. simpl.
    apply store16_ne; rewrite (inv_bitmap s Hinv), (inv_refs s Hinv); lia.
  - unfold get_ref, put_ref; simpl. destruct (Z.eqb_spec j i) as [->|].
    + by apply load16_store16_eq.
    + apply load16_store16_ne. lia.
Qed.

Lemma get_ref_bound i : 0 <= get_ref s i < 65536.
Proof using Hinv.
  unfold get_ref, load16.
  pose proof (inv_bytes s Hinv (refs s + 2 * i)).
  pose proof (inv_bytes s Hinv (refs s + 2 * i + 1)). lia.
Qed.

Lemma pages_used_set i b (f : Z -> bool) :
  0 <= i < total s ->
  (forall j, 0 <= j < total s -> f j = if j =? i then b else test_bit s j) ->
  Z.of_nat (count_upto (Z.to_nat (total s)) (fun k => f (Z.of_nat k))) +
    (if test_bit s i then 1 else 0) =
  Z.of_nat (pages_used s) + (if b then 1 else 0).
Proof using Hinv.
  intros Hi Hf.
  pose proof (count_upto_set (Z.to_nat (total s)) (fun k => test_bit s (Z.of_nat k))
    (Z.to_nat i) b ltac:(lia)) as H. cbv beta in H. rewrite Z2Nat.id in H by lia.
  unfold pages_used.
  rewrite (count_upto_ext _ _ (fun j => if (j =? Z.to_nat i)%nat then b else test_bit s (Z.of_nat j))).
  - destruct (test_bit s i), b; lia.
  - intros k Hk. rewrite Hf by lia.
    destruct (Z.eqb_spec (Z.of_nat k) i), (Nat.eqb_spec k (Z.to_nat i)); lia || done.
Qed.
End frames.

(** ** The abstract allocator: a list of holder counts *)

Definition abs (s : pmm) : list Z :=
  (fun k => holders s (Z.of_nat k)) <$> seq 0 (Z.to_nat (total s)).

Definition same_layout (s s' : pmm) : Prop :=
  bitmap s' = bitmap s /\ refs s' = refs s /\ base s' = base s /\ total s' = total s.

Lemma abs_length s : length (abs s) = Z.to_nat (total s).
Proof. unfold abs. by rewrite length_fmap, length_seq. Qed.

Lemma abs_lookup s i :
  0 <= i < total s -> abs s !! Z.to_nat i = Some (holders s i).
Proof.
  intros Hi. unfold abs. rewrite list_lookup_fmap, lookup_seq_lt by lia.
  simpl. by rewrite Z2Nat.id by lia.
Qed.

Lemma abs_ext s (l : list Z) :
  length l = Z.to_nat (total s) ->
  (forall i, 0 <= i < total s -> l !! Z.to_nat i = Some (holders s i)) -> abs s = l.
Proof.
  intros Hl H. apply list_eq. intros k.
  destruct (decide (k < Z.to_nat (total s))%nat) as [Hk|Hk].
  - specialize (H (Z.of_nat k) ltac:(lia)). rewrite Nat2Z.id in H. rewrite H.
    rewrite <- (abs_lookup s (Z.of_nat k)) by lia. by rewrite Nat2Z.id.
  - rewrite !lookup_ge_None_2; [done|lia|rewrite abs_length; lia].
Qed.

Lemma layout_transport s s' :
  pmm_layout s -> same_layout s s' -> (forall a, 0 <= mem s' a < 256) -> pmm_layout s'.
Proof.
  intros [] (H1 & H2 & H3 & H4) Hb.
  constructor; rewrite ?H1, ?H2, ?H3, ?H4; done.
Qed.

(** Every operation changes one page's bit and count: what that does to the
    invariant and to the abstract list. *)
Lemma update_page r s s' i (b : bool) v :
  pmm_layout s -> pmm_books r s -> same_layout s s' ->
  (forall a, 0 <= mem s' a < 256) ->
  0 <= i < total s -> (b = false -> r <= i /\ v = 0) -> r <= total s ->
  (forall j, 0 <= j < total s ->
     test_bit s' j = (if j =? i then b else test_bit s j) /\
     get_ref s' j = (if j =? i then v else get_ref s j)) ->
  used s' = used s + Z.b2z b - Z.b2z (test_bit s i) ->
  pmm_layout s' /\ pmm_books r s' /\
  abs s' = <[Z.to_nat i := if b then 1 + v else 0]> (abs s).
Proof.
  intros Hlay Hbk Hsame Hbytes Hi Hb Hr Hch Hu.
  pose proof Hsame as (_ & _ & _ & Ht). split_and!.
  - by eapply layout_transport.
  - constructor.
    + intros j Hj. destruct (Hch j ltac:(lia)) as [-> _].
      destruct (Z.eqb_spec j i) as [->|]; [|by apply (bk_reserved r s Hbk)].
      destruct b; [done|]. specialize (Hb eq_refl). lia.
    + rewrite Ht. intros j Hj. destruct (Hch j Hj) as [-> ->].
      destruct (Z.eqb_spec j i) as [->|].
      * intros ->. by apply Hb.
      * by apply (bk_free_refs r s Hbk).
    + unfold pages_used at 1. rewrite Ht.
      pose proof (pages_used_set s Hlay i b (test_bit s') Hi (fun j Hj => proj1 (Hch j Hj))).
      rewrite Hu, (bk_used r s Hbk). destruct b, (test_bit s i); simpl in *; lia.
  - apply abs_ext.
    + by rewrite length_insert, abs_length, Ht.
    + rewrite Ht. intros j Hj. destruct (Hch j Hj) as [E1 E2]. unfold holders at 1.
      rewrite E1, E2. destruct (Z.eqb_spec j i) as [->|].
      * rewrite list_lookup_insert_eq by (rewrite abs_length; lia). done.
      * rewrite list_lookup_insert_ne by lia. by rewrite abs_lookup by lia.
Qed.

(** *** Taking a page: [set_bit(i); used++] *)

Definition take_page (i : Z) (s : pmm) : pmm :=
  let s := set_bit i s in set_used (u32 (used s + 1)) s.

Lemma pages_used_bound s : pmm_layout s -> 0 <= Z.of_nat (pages_used s) <= 1048576.
Proof.
  intros Hl. pose proof (total_bound s Hl). unfold pages_used.
  pose proof (count_upto_le (Z.to_nat (total s)) (fun k => test_bit s (Z.of_nat k))). lia.
Qed.

Lemma take_page_spec r s i :
  pmm_layout s -> pmm_books r s -> r <= total s ->
  0 <= i < total s -> test_bit s i = false ->
  pmm_layout (take_page i s) /\ pmm_books r (take_page i s) /\
  abs (take_page i s) = <[Z.to_nat i := 1]> (abs s) /\
  (forall a, a < base s \/ base s + bitmap_bytes (total s) <= a ->
     mem (take_page i s) a = mem s a).
Proof.
  intros Hl Hbk Hr Hi Hfree.
  pose proof (bk_used r s Hbk). pose proof (pages_used_bound s Hl).
  pose proof (bit_byte_range s Hl i Hi).
  destruct (update_page r s (take_page i s) i true 0) as (? & ? & ?); try done.
  - apply set_bit_bytes, Hl.
  - intros j Hj. split.
    + change (test_bit (take_page i s) j) with (test_bit (set_bit i s) j).
      rewrite test_set_bit by lia. by destruct (j =? i).
    + rewrite (get_ref_bits s Hl i j (take_page i s)) by (done || apply set_bit_mem_ne).
      destruct (Z.eqb_spec j i) as [->|]; [|done]. by apply (bk_free_refs r s Hbk).
  - simpl. rewrite Hfree. simpl. rewrite u32_small by lia. lia.
  - split_and!; try done. intros a Ha. apply set_bit_mem_ne. rewrite (inv_bitmap s Hl). lia.
Qed.

(** *** Zeroing pages outside the bookkeeping *)

Definition zero_pages (i n : Z) (s : pmm) : pmm :=
  set_mem (memset (mem s) (base s + i * PAGE_SIZE) 0 (n * PAGE_SIZE)) s.

Lemma zero_pages_spec r s i n :
  pmm_layout s -> pmm_books r s -> r <= total s -> meta_pages (total s) <= i -> 0 <= n ->
  pmm_layout (zero_pages i n s) /\ pmm_books r (zero_pages i n s) /\
  abs (zero_pages i n s) = abs s.
Proof.
  intros Hl Hbk Hr Hi Hn.
  assert (Hf : forall j, 0 <= j < total s ->
    test_bit (zero_pages i n s) j = test_bit s j /\ get_ref (zero_pages i n s) j = get_ref s j).
  { apply meta_frame; try done. intros a Ha. apply memset_out. unfold PAGE_SIZE in *. lia. }
  split_and!.
  - apply (layout_transport s); [done..|]. intros a. simpl. unfold memset.
    destruct (_ && _); [lia|]. apply Hl.
  - constructor.
    + intros j Hj. destruct (Hf j ltac:(lia)) as [-> _]. by apply Hbk.
    + simpl. intros j Hj. destruct (Hf j Hj) as [-> ->]. by apply Hbk.
    + simpl. rewrite (bk_used r s Hbk). unfold pages_used. simpl. f_equal.
      apply count_upto_ext. intros k Hk. symmetry. by apply Hf; lia.
  - apply abs_ext; [by rewrite abs_length|]. simpl. intros j Hj.
    rewrite abs_lookup by done. unfold holders. by destruct (Hf j Hj) as [-> ->].
Qed.

(** *** [pmm_alloc] *)

Lemma meta_pages_pos s : pmm_layout s -> 1 <= meta_pages (total s).
Proof.
  intros Hl. pose proof (total_bound s Hl). pose proof (bitmap_bytes_bounds (total s)).
  assert (0 <= (total s + 7) / 8) by (apply Z.div_pos; lia).
  apply Z.div_le_lower_bound; unfold meta_bytes, PAGE_SIZE; lia.
Qed.

Lemma page_addr s i :
  pmm_layout s -> 0 <= i < total s ->
  u32 (base s + u32 (i * PAGE_SIZE)) = base s + i * PAGE_SIZE.
Proof.
  intros Hl Hi. pose proof (inv_top s Hl). pose proof (inv_base s Hl) as [? _].
  unfold PAGE_SIZE in *. rewrite (u32_small (i * 4096)), u32_small by lia. done.
Qed.

Lemma alloc_from_spec s fuel i :
  pmm_layout s -> 0 <= i -> Z.of_nat fuel = total s - i ->
  (exists f, i <= f < total s /\ test_bit s f = false /\
     (forall j, i <= j < f -> test_bit s j = true) /\
     alloc_from fuel i s = (base s + f * PAGE_SIZE, zero_pages f 1 (take_page f s))) \/
  ((forall j, i <= j < total s -> test_bit s j = true) /\ alloc_from fuel i s = (0, s)).
Proof.
  intros Hl. pose proof (total_bound s Hl). revert i.
  induction fuel as [|fuel IH]; intros i Hi Hf; cbn [alloc_from].
  { right. split; [|done]. intros; lia. }
  destruct (Z.ltb_spec i (total s)); [|lia].
  destruct (test_bit s i) eqn:E; cbn [negb].
  - rewrite u32_small by lia.
    destruct (IH (i + 1) ltac:(lia) ltac:(lia)) as [(f & Hr & Hfree & Hbelow & Heq)|[Hall Heq]].
    + left. exists f. split_and!; [lia..|done| |done].
      intros j Hj. destruct (decide (j = i)) as [->|]; [done|]. apply Hbelow. lia.
    + right. split; [|done]. intros j Hj. destruct (decide (j = i)) as [->|]; [done|].
      apply Hall. lia.
  - left. exists i. split_and!; [lia..|done| |].
    + intros; lia.
    + rewrite (page_addr s i) by (done || lia). done.
Qed.

Definition spec_alloc (b : Z) (l : list Z) : Z * list Z :=
  match find_idx (fun c => c =? 0) l with
  | Some i => (b + Z.of_nat i * PAGE_SIZE, <[i := 1]> l)
  | None => (0, l)
  end.

Lemma holders_zero s i : pmm_layout s -> (holders s i =? 0) = negb (test_bit s i).
Proof.
  intros Hl. unfold holders. pose proof (get_ref_bound s Hl i).
  destruct (test_bit s i); simpl; [|done]. apply Z.eqb_neq. lia.
Qed.

Lemma abs_lookup_Some s k c :
  abs s !! k = Some c -> (k < Z.to_nat (total s))%nat /\ c = holders s (Z.of_nat k).
Proof.
  intros H. pose proof (lookup_lt_Some _ _ _ H) as Hk. rewrite abs_length in Hk.
  split; [done|]. pose proof (abs_lookup s (Z.of_nat k) ltac:(lia)) as H'.
  rewrite Nat2Z.id in H'. congruence.
Qed.

(** [pmm_alloc] takes the lowest free page, if there is one. *)
Lemma pmm_alloc_cases s :
  pmm_inv s ->
  (exists f, meta_pages (total s) <= f < total s /\ test_bit s f = false /\
     find_idx (fun c => c =? 0) (abs s) = Some (Z.to_nat f) /\
     pmm_alloc s = (base s + f * PAGE_SIZE, zero_pages f 1 (take_page f s))) \/
  (find_idx (fun c => c =? 0) (abs s) = None /\ pmm_alloc s = (0, s)).
Proof.
  intros [Hl Hbk]. pose proof (total_bound s Hl).
  destruct (alloc_from_spec s (Z.to_nat (total s)) 0 Hl ltac:(lia) ltac:(lia))
    as [(f & Hr & Hfree & Hbelow & Heq)|[Hall Heq]].
  - left. exists f. split_and!; try done; try lia.
    + destruct (decide (f < meta_pages (total s))); [|lia].
      rewrite (bk_reserved _ s Hbk) in Hfree by lia. done.
    + apply find_idx_Some. split.
      * exists (holders s f). split; [by apply abs_lookup; lia|].
        by rewrite holders_zero, Hfree.
      * intros j y Hj [_ ->]%abs_lookup_Some. rewrite holders_zero by done.
        rewrite Hbelow by lia. done.
  - right. split; [|done]. apply find_idx_None. intros j y [? ->]%abs_lookup_Some.
    rewrite holders_zero by done. rewrite Hall by lia. done.
Qed.

Lemma pmm_alloc_refines s :
  pmm_inv s ->
  fst (pmm_alloc s) = fst (spec_alloc (base s) (abs s)) /\
  abs (snd (pmm_alloc s)) = snd (spec_alloc (base s) (abs s)) /\
  pmm_inv (snd (pmm_alloc s)) /\ same_layout s (snd (pmm_alloc s)).
Proof.
  intros Hinv. pose proof Hinv as [Hl Hbk]. unfold spec_alloc.
  pose proof (inv_meta s Hl). pose proof (meta_pages_pos s Hl).
  destruct (pmm_alloc_cases s Hinv) as [(f & Hr & Hfree & -> & ->)|[-> ->]]; cbn [fst snd].
  - destruct (take_page_spec (meta_pages (total s)) s f) as (Hl1 & Hb1 & Ha1 & _);
      try done; try lia.
    destruct (zero_pages_spec (meta_pages (total s)) (take_page f s) f 1) as (Hl2 & Hb2 & Ha2);
      try done; simpl; try lia.
    split_and!; [by rewrite Z2Nat.id by lia|by rewrite Ha2|done..].
  - by split_and!.
Qed.

(** *** [pmm_free], [pmm_ref], [pmm_refcount] *)

(** The page number an address names, and whether it is one the allocator can
    give out: the bookkeeping's own pages are nobody's to free or share. *)
Definition page_of (b pa : Z) : nat := Z.to_nat ((pa - b) / PAGE_SIZE).
Definition spec_free (b pa : Z) (l : list Z) : list Z :=
  if pa <? b then l
  else match l !! page_of b pa with
       | Some c => if c =? 0 then l else <[page_of b pa := c - 1]> l
       | None => l
       end.
Definition spec_ref (b pa : Z) (l : list Z) : Z * list Z :=
  if pa <? b then (0, l)
  else match l !! page_of b pa with
       | Some c => if (c =? 0) || (c =? 65536) then (0, l)
                   else (1, <[page_of b pa := c + 1]> l)
       | None => (0, l)
       end.
Definition spec_refcount (b pa : Z) (l : list Z) : Z :=
  if pa <? b then 0 else default 0 (l !! page_of b pa).

Lemma abs_page s pa :
  pmm_layout s -> base s <= pa ->
  let i := (pa - base s) / PAGE_SIZE in
  0 <= i /\
  abs s !! page_of (base s) pa = if i <? total s then Some (holders s i) else None.
Proof.
  intros Hl Hpa i. assert (0 <= i) by (apply Z.div_pos; unfold PAGE_SIZE; lia).
  split; [done|]. unfold page_of. fold i.
  destruct (Z.ltb_spec i (total s)); [by apply abs_lookup|].
  apply lookup_ge_None_2. rewrite abs_length. lia.
Qed.

Definition mine (s : pmm) (pa : Z) : Prop :=
  pa < base s \/ base s + meta_pages (total s) * PAGE_SIZE <= pa.

Lemma mine_page s pa :
  mine s pa -> base s <= pa -> meta_pages (total s) <= (pa - base s) / PAGE_SIZE.
Proof.
  unfold mine, PAGE_SIZE. intros [|] ?; [lia|]. apply Z.div_le_lower_bound; lia.
Qed.

Lemma put_ref_bytes i v s :
  (forall a, 0 <= mem s a < 256) -> forall a, 0 <= mem (put_ref i v s) a < 256.
Proof.
  intros H a. unfold put_ref, store16, store8; simpl.
  destruct (_ =? _); [eauto with sage|]. destruct (_ =? _); eauto with sage.
Qed.

Lemma put_ref_spec s i v :
  pmm_inv s -> 0 <= i < total s -> test_bit s i = true -> 0 <= v < 65536 ->
  abs (put_ref i v s) = <[Z.to_nat i := 1 + v]> (abs s) /\
  pmm_inv (put_ref i v s) /\ same_layout s (put_ref i v s).
Proof.
  intros [Hl Hbk] Hi Hset Hv. pose proof (inv_meta s Hl).
  destruct (update_page (meta_pages (total s)) s (put_ref i v s) i true v) as (? & ? & ?);
    try done; try lia.
  - apply put_ref_bytes, Hl.
  - intros j Hj. destruct (put_ref_frame s Hl i v Hi Hv j Hj) as [-> ->].
    destruct (Z.eqb_spec j i) as [->|]; done.
  - simpl. rewrite Hset. simpl. lia.
Qed.

Lemma clear_page_spec s i :
  pmm_inv s -> meta_pages (total s) <= i < total s -> test_bit s i = true ->
  get_ref s i = 0 ->
  let s' := set_used (u32 (used s - 1)) (clear_bit i s) in
  abs s' = <[Z.to_nat i := 0]> (abs s) /\ pmm_inv s' /\ same_layout s s'.
Proof.
  intros [Hl Hbk] Hi Hset Href s'. pose proof (inv_meta s Hl).
  pose proof (meta_pages_pos s Hl). pose proof (pages_used_bound s Hl).
  pose proof (bk_used _ s Hbk) as Hu.
  pose proof (pages_used_set s Hl i false (fun j => if j =? i then false else test_bit s j)
    ltac:(lia) ltac:(done)) as Hc. rewrite Hset in Hc.
  destruct (update_page (meta_pages (total s)) s s' i false 0) as (? & ? & ?);
    try done; try lia.
  - apply clear_bit_bytes, Hl.
  - intros j Hj. split.
    + change (test_bit s' j) with (test_bit (clear_bit i s) j).
      rewrite test_clear_bit by lia. by destruct (j =? i).
    + rewrite (get_ref_bits s Hl i j s') by (done || lia || apply clear_bit_mem_ne).
      destruct (Z.eqb_spec j i) as [->|]; done.
  - simpl. rewrite Hset. simpl. rewrite u32_small by lia. lia.
Qed.

Lemma pmm_free_refines s pa :
  pmm_inv s -> mine s pa ->
  abs (pmm_free pa s) = spec_free (base s) pa (abs s) /\
  pmm_inv (pmm_free pa s) /\ same_layout s (pmm_free pa s).
Proof.
  intros Hinv Hmine. pose proof Hinv as [Hl _]. unfold pmm_free, spec_free.
  destruct (Z.ltb_spec pa (base s)); [done|].
  pose proof (mine_page s pa Hmine ltac:(lia)).
  destruct (abs_page s pa Hl ltac:(lia)) as [Hi Hlk]. rewrite Hlk. clear Hlk.
  unfold page_of. set (i := (pa - base s) / PAGE_SIZE) in *.
  destruct (Z.ltb_spec i (total s)), (Z.leb_spec (total s) i); try lia; simpl; [|done].
  rewrite holders_zero by done. unfold holders.
  pose proof (get_ref_bound s Hl i).
  destruct (test_bit s i) eqn:E; simpl; [|done].
  destruct (Z.eqb_spec (get_ref s i) 0) as [E0|E0]; simpl.
  - rewrite E0. by apply clear_page_spec.
  - rewrite u16_small by lia.
    replace (1 + get_ref s i - 1) with (1 + (get_ref s i - 1)) by lia.
    apply put_ref_spec; (done || lia).
Qed.

Lemma pmm_ref_refines s pa :
  pmm_inv s ->
  fst (pmm_ref pa s) = fst (spec_ref (base s) pa (abs s)) /\
  abs (snd (pmm_ref pa s)) = snd (spec_ref (base s) pa (abs s)) /\
  pmm_inv (snd (pmm_ref pa s)) /\ same_layout s (snd (pmm_ref pa s)).
Proof.
  intros Hinv. pose proof Hinv as [Hl _]. unfold pmm_ref, spec_ref.
  destruct (Z.ltb_spec pa (base s)); [done|].
  destruct (abs_page s pa Hl ltac:(lia)) as [Hi Hlk]. rewrite Hlk. clear Hlk.
  unfold page_of. set (i := (pa - base s) / PAGE_SIZE) in *.
  destruct (Z.ltb_spec i (total s)), (Z.leb_spec (total s) i); try lia; simpl; [|done].
  rewrite holders_zero by done. unfold holders.
  pose proof (get_ref_bound s Hl i).
  destruct (test_bit s i) eqn:E; simpl; [|done].
  destruct (Z.eqb_spec (get_ref s i) 65535), (Z.eqb_spec (1 + get_ref s i) 65536);
    try lia; simpl; [done|].
  rewrite u16_small by lia.
  replace (1 + get_ref s i + 1) with (1 + (get_ref s i + 1)) by lia.
  split; [done|]. apply put_ref_spec; (done || lia).
Qed.

Lemma pmm_refcount_refines s pa :
  pmm_inv s -> pmm_refcount pa s = spec_refcount (base s) pa (abs s).
Proof.
  intros [Hl _]. unfold pmm_refcount, spec_refcount.
  destruct (Z.ltb_spec pa (base s)); [done|].
  destruct (abs_page s pa Hl ltac:(lia)) as [Hi Hlk]. rewrite Hlk. clear Hlk.
  set (i := (pa - base s) / PAGE_SIZE) in *.
  destruct (Z.ltb_spec i (total s)), (Z.leb_spec (total s) i); try lia; simpl; [|done].
  unfold holders. pose proof (get_ref_bound s Hl i).
  destruct (test_bit s i); simpl; [|done]. rewrite u32_small; lia.
Qed.

(** *** [pmm_alloc_pages]: the search that skips, and the plain one *)

(** [n] free pages in a row from page [i], by definition. *)
Definition free_run (l : list Z) (n i : nat) : bool :=
  (i + n <=? length l)%nat && all_upto n (fun k => default 1 (l !! (i + k)%nat) =? 0).

Definition spec_alloc_pages (b n : Z) (l : list Z) : Z * list Z :=
  if n =? 0 then (0, l)
  else match find_idx (free_run l (Z.to_nat n)) (seq 0 (length l)) with
       | Some i => (b + Z.of_nat i * PAGE_SIZE, list_inserts i (replicate (Z.to_nat n) 1) l)
       | None => (0, l)
       end.

Definition run_at (s : pmm) (n i : Z) : Prop :=
  i + n <= total s /\ forall k, 0 <= k < n -> test_bit s (i + k) = false.

Lemma free_run_iff s n i :
  pmm_layout s -> 0 <= n -> 0 <= i ->
  free_run (abs s) (Z.to_nat n) (Z.to_nat i) = true <-> run_at s n i.
Proof.
  intros Hl Hn Hi. unfold free_run, run_at. pose proof (total_bound s Hl).
  rewrite andb_true_iff, Nat.leb_le, all_upto_true, abs_length.
  assert (Hlk : forall k, 0 <= k < n -> i + n <= total s ->
    (default 1 (abs s !! (Z.to_nat i + Z.to_nat k)%nat) =? 0) = negb (test_bit s (i + k))).
  { intros k Hk Hle. rewrite <- Z2Nat.inj_add by lia. rewrite abs_lookup by lia.
    by apply holders_zero. }
  split; intros [Hle Hall]; (split; [lia|]); intros k Hk.
  - specialize (Hall (Z.to_nat k) ltac:(lia)). rewrite Hlk in Hall by lia.
    by apply negb_true_iff.
  - specialize (Hlk (Z.of_nat k) ltac:(lia) ltac:(lia)). rewrite Nat2Z.id in Hlk.
    rewrite Hlk, Hall by lia. done.
Qed.

(** A free run never reaches into the bookkeeping. *)
Lemma run_above_meta s n i :
  pmm_inv s -> 0 <= i -> 1 <= n -> run_at s n i -> meta_pages (total s) <= i.
Proof.
  intros [Hl Hbk] Hi Hn [_ Hrun]. destruct (decide (i < meta_pages (total s))); [|lia].
  specialize (Hrun 0 ltac:(lia)). rewrite Z.add_0_r in Hrun.
  rewrite (bk_reserved _ s Hbk) in Hrun by lia. done.
Qed.

Lemma probe_spec s fuel i j n :
  0 <= i -> 0 <= j <= n -> i + n <= 4294967295 -> Z.of_nat fuel = n - j ->
  let j' := probe fuel i j n s in
  j <= j' <= n /\ (forall k, j <= k < j' -> test_bit s (i + k) = false) /\
  (j' = n \/ test_bit s (i + j') = true).
Proof.
  intros Hi. revert j. induction fuel as [|fuel IH]; intros j Hj Hn Hf; cbn [probe].
  { split_and!; [lia..| |lia]. intros; lia. }
  destruct (Z.ltb_spec j n); [|lia].
  rewrite (u32_small (i + j)) by lia. destruct (test_bit s (i + j)) eqn:E.
  { split_and!; [lia..| |by right]. intros; lia. }
  rewrite u32_small by lia. destruct (IH (j + 1)) as (H1 & H2 & H3); [lia..|].
  split_and!; [lia..| |done]. intros k Hk.
  destruct (decide (k = j)) as [->|]; [done|]. apply H2. lia.
Qed.

Definition take_pages (i n : Z) (s : pmm) : pmm :=
  for_upto (Z.to_nat n) (fun k => take_page (i + Z.of_nat k)) s.

Lemma take_pages_eq s i n :
  0 <= used s -> 0 <= i -> 0 <= n -> i + n <= 1048576 -> used s <= 1048576 ->
  let s1 := for_upto (Z.to_nat n) (fun k s => set_bit (u32 (i + Z.of_nat k)) s) s in
  set_used (u32 (used s1 + n)) s1 = take_pages i n s.
Proof.
  intros Hu Hi Hn Hin Hu2 s1.
  assert (used s1 = used s) as ->.
  { by apply (for_upto_ind (fun _ s' => used s' = used s)). }
  unfold s1, take_pages.
  assert (H : forall k, (k <= Z.to_nat n)%nat ->
    for_upto k (fun k => take_page (i + Z.of_nat k)) s =
    set_used (used s + Z.of_nat k) (for_upto k (fun k s => set_bit (u32 (i + Z.of_nat k)) s) s)).
  { induction k as [|k IH]; intros Hk; cbn [for_upto].
    - rewrite Z.add_0_r. by destruct s.
    - rewrite IH by lia. rewrite (u32_small (i + Z.of_nat k)) by lia. unfold take_page.
      cbn [set_bit set_mem set_used used mem bitmap refs base total].
      unfold set_used. simpl. f_equal. rewrite u32_small; lia. }
  rewrite H by lia. rewrite Z2Nat.id, u32_small by lia. done.
Qed.

Lemma take_pages_spec r s i n :
  pmm_layout s -> pmm_books r s -> r <= total s -> 0 <= i -> 0 <= n -> run_at s n i ->
  pmm_layout (take_pages i n s) /\ pmm_books r (take_pages i n s) /\
  same_layout s (take_pages i n s) /\
  abs (take_pages i n s) = list_inserts (Z.to_nat i) (replicate (Z.to_nat n) 1) (abs s) /\
  (forall a, a < base s \/ base s + bitmap_bytes (total s) <= a ->
     mem (take_pages i n s) a = mem s a).
Proof.
  intros Hl Hbk Hr Hi Hn [Hle Hrun]. unfold take_pages.
  apply (for_upto_ind (fun k s' => pmm_layout s' /\ pmm_books r s' /\ same_layout s s' /\
    abs s' = list_inserts (Z.to_nat i) (replicate k 1) (abs s) /\
    (forall a, a < base s \/ base s + bitmap_bytes (total s) <= a -> mem s' a = mem s a))).
  { done. }
  intros k s' Hk (Hl' & Hb' & Hs & Ha & Hm). pose proof Hs as (Hs1 & Hs2 & Hs3 & Hs4).
  assert (Hfree : test_bit s' (i + Z.of_nat k) = false).
  { pose proof (abs_lookup s' (i + Z.of_nat k) ltac:(lia)) as H1.
    rewrite Ha, list_lookup_inserts_ge in H1 by (rewrite length_replicate; lia).
    rewrite abs_lookup in H1 by lia. injection H1 as H1.
    apply negb_true_iff. rewrite <- holders_zero, <- H1, holders_zero by done.
    by rewrite Hrun by lia. }
  destruct (take_page_spec r s' (i + Z.of_nat k)) as (H1 & H2 & H3 & H4); [done|done|lia..|done|].
  split_and!; try done.
  - rewrite H3, Ha, replicate_S_end, list_inserts_app_l, length_replicate. simpl.
    f_equal. lia.
  - intros a Hx. rewrite H4 by (rewrite Hs3, Hs4; done). by apply Hm.
Qed.

Lemma alloc_pages_from_spec s n fuel i :
  pmm_inv s -> 2 <= n <= total s -> 0 <= i <= total s -> total s - i < Z.of_nat fuel ->
  (exists f, i <= f /\ run_at s n f /\ (forall g, i <= g < f -> ~ run_at s n g) /\
     alloc_pages_from fuel i n s =
       (base s + f * PAGE_SIZE, zero_pages f n (take_pages f n s))) \/
  ((forall g, i <= g -> ~ run_at s n g) /\ alloc_pages_from fuel i n s = (0, s)).
Proof.
  intros [Hl Hbk] Hn. pose proof (total_bound s Hl) as Ht.
  revert i. induction fuel as [|fuel IH]; intros i Hi Hf; [lia|]. cbn [alloc_pages_from].
  rewrite (u32_small (i + n)) by lia. destruct (Z.leb_spec (i + n) (total s)) as [Hle|Hgt].
  2:{ right. split; [|done]. intros g Hg [? _]. lia. }
  destruct (probe_spec s (Z.to_nat n) i 0 n) as (Hj & Hfree & Hend); [lia..|].
  set (j := probe (Z.to_nat n) i 0 n s) in *.
  destruct (Z.eqb_spec j n) as [Ej|Ej].
  - assert (Hrun : run_at s n i) by (split; [done|]; intros k Hk; apply Hfree; lia).
    left. exists i. split_and!; [lia|done|intros; lia|].
    pose proof (run_above_meta s n i ltac:(done) ltac:(lia) ltac:(lia) Hrun).
    pose proof (meta_pages_pos s Hl). pose proof (pages_used_bound s Hl).
    rewrite take_pages_eq by (rewrite ?(bk_used _ s Hbk); lia).
    rewrite page_addr by (done || lia).
    destruct (take_pages_spec (meta_pages (total s)) s i n) as (_ & _ & (_ & _ & Hb & _) & _);
      try done; try lia.
    unfold zero_pages. rewrite Hb, (u32_small (n * PAGE_SIZE)); [done|].
    pose proof (inv_top s Hl). pose proof (inv_base s Hl) as [? _]. unfold PAGE_SIZE in *. lia.
  - destruct Hend as [|Hbit]; [lia|].
    assert (Hskip : forall g, i <= g <= i + j -> ~ run_at s n g).
    { intros g Hg [_ Hrun]. specialize (Hrun (i + j - g) ltac:(lia)).
      replace (g + (i + j - g)) with (i + j) in Hrun by lia. congruence. }
    rewrite u32_small by lia.
    destruct (IH (i + j + 1) ltac:(lia) ltac:(lia)) as [(f & H1 & H2 & H3 & H4)|[H1 H2]].
    + left. exists f. split_and!; [lia|done| |done]. intros g Hg.
      destruct (decide (g <= i + j)); [apply Hskip; lia|apply H3; lia].
    + right. split; [|done]. intros g Hg.
      destruct (decide (g <= i + j)); [apply Hskip; lia|apply H1; lia].
Qed.

Lemma free_run_one l i : free_run l 1 i = true <-> l !! i = Some 0.
Proof.
  unfold free_run. simpl. rewrite Nat.add_0_r, andb_true_iff, Nat.leb_le.
  split.
  - intros [Hle H]. destruct (l !! i) as [c|] eqn:E; simpl in H; [|done].
    apply Z.eqb_eq in H. congruence.
  - intros H. rewrite H. split; [|done]. apply lookup_lt_Some in H. lia.
Qed.

Lemma find_run_one l :
  find_idx (free_run l 1) (seq 0 (length l)) = find_idx (fun c => c =? 0) l.
Proof.
  assert (Hd : forall i, (free_run l 1 i = true) <-> (exists c, l !! i = Some c /\ (c =? 0) = true)).
  { intros i. rewrite free_run_one. split; [intros H; by exists 0|].
    intros (c & H & Hc). apply Z.eqb_eq in Hc. congruence. }
  destruct (find_idx (fun c => c =? 0) l) as [i|] eqn:E.
  - apply find_idx_Some in E as [Hex Hlt]. apply find_idx_Some. split.
    + exists i. split; [|by apply Hd]. destruct Hex as (c & H & _).
      apply lookup_lt_Some in H. by rewrite lookup_seq_lt.
    + intros j y Hj Hy. apply lookup_seq in Hy as [-> ?]. simpl.
      destruct (free_run l 1 j) eqn:F; [|done]. apply Hd in F as (c & Hlk & Hc).
      rewrite (Hlt j c Hj Hlk) in Hc. done.
  - rewrite find_idx_None in E. apply find_idx_None. intros j y Hy.
    apply lookup_seq in Hy as [-> ?]. simpl.
    destruct (free_run l 1 j) eqn:F; [|done]. apply Hd in F as (c & Hlk & Hc).
    rewrite (E j c Hlk) in Hc. done.
Qed.

Lemma find_run_Some s n f :
  pmm_layout s -> 1 <= n -> 0 <= f -> run_at s n f ->
  (forall g, 0 <= g < f -> ~ run_at s n g) ->
  find_idx (free_run (abs s) (Z.to_nat n)) (seq 0 (length (abs s))) = Some (Z.to_nat f).
Proof.
  intros Hl Hn Hf Hrun Hmin. apply find_idx_Some. split.
  - exists (Z.to_nat f). split; [|apply free_run_iff; (done || lia)].
    destruct Hrun as [? _]. rewrite lookup_seq_lt; [done|]. rewrite abs_length. lia.
  - intros j y Hj Hy. apply lookup_seq in Hy as [-> ?]. simpl.
    destruct (free_run _ _ j) eqn:F; [|done]. exfalso. apply (Hmin (Z.of_nat j)); [lia|].
    apply (free_run_iff s n (Z.of_nat j)); [done|lia|lia|]. by rewrite Nat2Z.id.
Qed.

Lemma find_run_None s n :
  pmm_layout s -> 1 <= n -> (forall g, 0 <= g -> ~ run_at s n g) ->
  find_idx (free_run (abs s) (Z.to_nat n)) (seq 0 (length (abs s))) = None.
Proof.
  intros Hl Hn Hno. apply find_idx_None. intros j y Hy.
  apply lookup_seq in Hy as [-> ?]. simpl.
  destruct (free_run _ _ j) eqn:F; [|done]. exfalso. apply (Hno (Z.of_nat j)); [lia|].
  apply (free_run_iff s n (Z.of_nat j)); [done|lia|lia|]. by rewrite Nat2Z.id.
Qed.

Lemma pmm_alloc_pages_refines s n :
  pmm_inv s -> 0 <= n < 4294967296 ->
  fst (pmm_alloc_pages n s) = fst (spec_alloc_pages (base s) n (abs s)) /\
  abs (snd (pmm_alloc_pages n s)) = snd (spec_alloc_pages (base s) n (abs s)) /\
  pmm_inv (snd (pmm_alloc_pages n s)) /\ same_layout s (snd (pmm_alloc_pages n s)).
Proof.
  intros Hinv Hn. pose proof Hinv as [Hl Hbk]. pose proof (total_bound s Hl).
  pose proof (inv_meta s Hl). unfold pmm_alloc_pages, spec_alloc_pages.
  destruct (Z.eqb_spec n 0); [done|]. destruct (Z.eqb_spec n 1) as [->|].
  { destruct (pmm_alloc_refines s Hinv) as (H1 & H2 & H3 & H4).
    change (Z.to_nat 1) with 1%nat. rewrite find_run_one.
    unfold spec_alloc in H1, H2.
    destruct (find_idx (fun c => c =? 0) (abs s)); done. }
  destruct (decide (n <= total s)) as [Hle|Hgt].
  - destruct (alloc_pages_from_spec s n (Z.to_nat (total s) + 1) 0)
      as [(f & H1 & H2 & H3 & ->)|[H1 ->]]; [done|lia..| |]; cbn [fst snd].
    + rewrite (find_run_Some s n f) by (done || lia). cbn [fst snd].
      pose proof (run_above_meta s n f Hinv H1 ltac:(lia) H2).
      destruct (take_pages_spec (meta_pages (total s)) s f n) as (A1 & A2 & A3 & A4 & _);
        try done; try lia.
      pose proof A3 as (_ & _ & _ & A5). pose proof H2 as [? _].
      destruct (zero_pages_spec (meta_pages (total s)) (take_pages f n s) f n) as (B1 & B2 & B3);
        rewrite ?A5; try done; try lia.
      split_and!; [by rewrite Z2Nat.id by lia|by rewrite B3| |done].
      split; [done|]. change (total (zero_pages f n (take_pages f n s)))
        with (total (take_pages f n s)). by rewrite A5.
    + rewrite (find_run_None s n) by (done || lia). done.
  - rewrite (find_run_None s n) by (done || lia || (intros g Hg [? _]; lia)).
    rewrite Nat.add_comm. cbn [alloc_pages_from Nat.add].
    rewrite u32_small by lia. destruct (Z.leb_spec (0 + n) (total s)); [lia|done].
Qed.

(** *** [pmm_free_pages] and [pmm_available] *)

Definition spec_free_pages (b pa n : Z) (l : list Z) : list Z :=
  for_upto (Z.to_nat n) (fun k => spec_free b (pa + Z.of_nat k * PAGE_SIZE)) l.

Lemma same_layout_trans s1 s2 s3 :
  same_layout s1 s2 -> same_layout s2 s3 -> same_layout s1 s3.
Proof. unfold same_layout. intuition congruence. Qed.

Lemma pmm_free_pages_refines s pa n :
  pmm_inv s -> 0 <= pa -> 0 <= n -> pa + n * PAGE_SIZE <= 4294967296 ->
  base s + meta_pages (total s) * PAGE_SIZE <= pa ->
  abs (pmm_free_pages pa n s) = spec_free_pages (base s) pa n (abs s) /\
  pmm_inv (pmm_free_pages pa n s) /\ same_layout s (pmm_free_pages pa n s).
Proof.
  intros Hinv Hpa Hn Htop Hmine. unfold pmm_free_pages, spec_free_pages.
  assert (Hk : forall k, (k <= Z.to_nat n)%nat ->
    let p := for_upto k (fun _ '(pa, s) => (u32 (pa + PAGE_SIZE), pmm_free pa s)) (pa, s) in
    ((k < Z.to_nat n)%nat -> fst p = pa + Z.of_nat k * PAGE_SIZE) /\
    abs (snd p) = for_upto k (fun k => spec_free (base s) (pa + Z.of_nat k * PAGE_SIZE)) (abs s) /\
    pmm_inv (snd p) /\ same_layout s (snd p)).
  { induction k as [|k IH]; intros Hk; cbn [for_upto].
    { split_and!; try done. simpl. lia. }
    destruct (IH ltac:(lia)) as (H1 & H2 & H3 & H4).
    destruct (for_upto k _ (pa, s)) as [pa' s'] eqn:E. cbn [fst snd] in *.
    specialize (H1 ltac:(lia)). subst pa'. pose proof H4 as (_ & _ & Hb & Ht).
    destruct (pmm_free_refines s' (pa + Z.of_nat k * PAGE_SIZE)) as (F1 & F2 & F3); [done| |].
    { right. rewrite Hb, Ht. unfold PAGE_SIZE in *. lia. }
    split_and!; [|by rewrite F1, H2, Hb|done|by eapply same_layout_trans].
    intros Hlt. rewrite u32_small; unfold PAGE_SIZE in *; lia. }
  destruct (Hk (Z.to_nat n) ltac:(lia)) as (_ & ? & ? & ?). done.
Qed.

(** Giving back a run just taken restores the counts. *)
Lemma spec_free_undo b (i n : nat) l :
  free_run l n i = true ->
  for_upto n (fun k => spec_free b (b + Z.of_nat i * PAGE_SIZE + Z.of_nat k * PAGE_SIZE))
    (list_inserts i (replicate n 1) l) = l.
Proof.
  intros [Hle Hz]%andb_true_iff. apply Nat.leb_le in Hle. rewrite all_upto_true in Hz.
  set (L := list_inserts i (replicate n 1) l).
  assert (HL : forall j, (i <= j < i + n)%nat -> L !! j = Some 1).
  { intros j Hj. unfold L. rewrite list_lookup_inserts by (rewrite ?length_replicate; lia).
    apply lookup_replicate. split; [done|lia]. }
  assert (G : forall j, for_upto n (fun k => spec_free b (b + Z.of_nat i * PAGE_SIZE + Z.of_nat k * PAGE_SIZE)) L !! j
    = if decide (i <= j < i + n)%nat then Some 0 else L !! j).
  { refine (for_upto_ind (fun (k : nat) (L' : list Z) => forall j : nat,
      L' !! j = if decide (i <= j < i + k)%nat then Some 0 else L !! j) n _ L _ _).
    - intros j. by rewrite decide_False by lia.
    - intros k L' Hk HL' j. unfold spec_free. rewrite (proj2 (Z.ltb_ge _ b)) by (unfold PAGE_SIZE; lia).
      assert (Ep : page_of b (b + Z.of_nat i * PAGE_SIZE + Z.of_nat k * PAGE_SIZE) = (i + k)%nat).
      { unfold page_of. replace (b + Z.of_nat i * PAGE_SIZE + Z.of_nat k * PAGE_SIZE - b)
          with ((Z.of_nat i + Z.of_nat k) * PAGE_SIZE) by lia. rewrite Z.div_mul by done. lia. }
      assert (Ek : L' !! (i + k)%nat = Some 1) by (rewrite HL', decide_False by lia; apply HL; lia).
      rewrite Ep, Ek. cbn [Z.eqb]. change (1 - 1) with 0. destruct (decide (j = (i + k)%nat)) as [->|Hne].
      + rewrite list_lookup_insert_eq by (by eapply lookup_lt_Some). by rewrite decide_True by lia.
      + rewrite list_lookup_insert_ne, HL' by done. destruct (decide (i <= j < i + k)%nat); [by rewrite decide_True by lia|].
        by rewrite decide_False by lia. }
  apply list_eq. intros j. rewrite G. destruct (decide (i <= j < i + n)%nat) as [Hj|Hj].
  - specialize (Hz (j - i)%nat ltac:(lia)). replace (i + (j - i))%nat with j in Hz by lia.
    destruct (l !! j) as [c|] eqn:E; cbn in Hz; [|done]. by apply Z.eqb_eq in Hz as ->.
  - unfold L. destruct (decide (j < i)%nat); [by apply list_lookup_inserts_lt|].
    apply list_lookup_inserts_ge. rewrite length_replicate. lia.
Qed.

Lemma alloc_free_pages s n :
  pmm_inv s -> 1 <= n < 4294967296 -> fst (pmm_alloc_pages n s) <> 0 ->
  abs (pmm_free_pages (fst (pmm_alloc_pages n s)) n (snd (pmm_alloc_pages n s))) = abs s /\
  pmm_inv (pmm_free_pages (fst (pmm_alloc_pages n s)) n (snd (pmm_alloc_pages n s))).
Proof.
  intros Hinv Hn Hne. pose proof Hinv as [Hl _].
  destruct (pmm_alloc_pages_refines s n Hinv ltac:(lia)) as (E1 & E2 & Hinv' & (_ & _ & Eb & Et)).
  rewrite E1 in *. unfold spec_alloc_pages in *. rewrite (proj2 (Z.eqb_neq n 0)) in * by lia.
  destruct (find_idx _ (seq 0 (length (abs s)))) as [k|] eqn:Ek; [|done]. cbn [fst snd] in *.
  apply find_idx_Some in Ek as [(i & Hi & Hrun) _]. apply lookup_seq in Hi as [-> _]. cbn [Nat.add] in Hrun.
  pose proof Hrun as Hr. rewrite <- (Nat2Z.id k) in Hr. apply free_run_iff in Hr; [|done|lia|lia].
  pose proof (run_above_meta s n (Z.of_nat k) Hinv ltac:(lia) ltac:(lia) Hr) as Hmeta.
  pose proof Hr as [Hfit _]. pose proof (inv_top s Hl). pose proof (inv_base s Hl) as [Hb _].
  destruct (pmm_free_pages_refines (snd (pmm_alloc_pages n s)) (base s + Z.of_nat k * PAGE_SIZE) n) as (F1 & F2 & _);
    rewrite ?Eb, ?Et; try done; try (unfold PAGE_SIZE in *; lia).
  split; [|done]. rewrite F1, E2, Eb. unfold spec_free_pages. by apply spec_free_undo.
Qed.

Lemma alloc_pages_fail s n :
  pmm_inv s -> 1 <= n < 4294967296 -> fst (pmm_alloc_pages n s) = 0 ->
  abs (snd (pmm_alloc_pages n s)) = abs s.
Proof.
  intros Hinv Hn E. pose proof Hinv as [Hl _].
  destruct (pmm_alloc_pages_refines s n Hinv ltac:(lia)) as (E1 & E2 & _ & _). rewrite E2. rewrite E in E1.
  unfold spec_alloc_pages in *. rewrite (proj2 (Z.eqb_neq n 0)) in * by lia.
  destruct (find_idx _ (seq 0 (length (abs s)))) as [k|] eqn:Ek; [|done]. cbn [fst snd] in *. exfalso.
  apply find_idx_Some in Ek as [(i & Hi & Hrun) _]. apply lookup_seq in Hi as [-> _]. cbn [Nat.add] in Hrun.
  rewrite <- (Nat2Z.id k) in Hrun. apply free_run_iff in Hrun; [|done|lia|lia].
  pose proof (run_above_meta s n (Z.of_nat k) Hinv ltac:(lia) ltac:(lia) Hrun).
  pose proof (meta_pages_pos s Hl). pose proof (inv_base s Hl) as [? _]. unfold PAGE_SIZE in *. lia.
Qed.

Definition spec_available (l : list Z) : Z := Z.of_nat (count_if (fun c => c =? 0) l).

Lemma pmm_available_refines s : pmm_inv s -> pmm_available s = spec_available (abs s).
Proof.
  intros [Hl Hbk]. unfold pmm_available, spec_available, abs. rewrite count_if_seq.
  rewrite (count_upto_ext _ _ (fun k => negb (test_bit s (Z.of_nat k))))
    by (intros; by apply holders_zero).
  pose proof (count_upto_negb (Z.to_nat (total s)) (fun k => test_bit s (Z.of_nat k))).
  pose proof (total_bound s Hl). rewrite (bk_used _ s Hbk). unfold pages_used in *.
  rewrite u32_small; lia.
Qed.

(** *** [pmm_init] *)

Lemma align_down_eq x : 0 <= x < 4294967296 -> PAGE_ALIGN_DOWN x = x - x mod PAGE_SIZE.
Proof.
  intros Hx. unfold PAGE_ALIGN_DOWN. rewrite (u32_small x) by done.
  change PAGE_MASK with (Z.ones 12). by rewrite land_mask32.
Qed.

(** The pool: the whole pages between the two addresses. *)
Definition pool_base (first : Z) : Z :=
  first + PAGE_MASK - (first + PAGE_MASK) mod PAGE_SIZE.
Definition pool_pages (first last : Z) : Z :=
  (last - last mod PAGE_SIZE - pool_base first) / PAGE_SIZE.

Definition init_state (s : pmm) (first last : Z) : pmm :=
  let b := pool_base first in let p := pool_pages first last in
  mk_pmm (memset (mem s) b 0 (meta_pages p * PAGE_SIZE)) b (b + bitmap_bytes p) b p 0.

Lemma pool_facts first last :
  0 <= first <= 4294963200 -> 0 <= last < 4294967296 ->
  pool_base first < last - last mod PAGE_SIZE ->
  let b := pool_base first in let p := pool_pages first last in
  0 <= b /\ b mod PAGE_SIZE = 0 /\ 0 < p <= 1048575 /\
  b + p * PAGE_SIZE = last - last mod PAGE_SIZE.
Proof.
  intros Hf Hla Hlt b p. unfold b, p, pool_pages, pool_base, PAGE_MASK, PAGE_SIZE in *.
  Z.div_mod_to_equations. lia.
Qed.

Lemma pmm_init_eq first last s :
  0 <= first <= 4294963200 -> 0 <= last < 4294967296 ->
  let p := pool_pages first last in
  pmm_init first last s =
    if (last - last mod PAGE_SIZE <=? pool_base first) || (p <=? meta_pages p)
    then mk_pmm (mem s) 0 (refs s) (pool_base first) 0 0
    else take_pages 0 (meta_pages p) (init_state s first last).
Proof.
  intros Hf Hla p. unfold pmm_init, PAGE_ALIGN_UP.
  rewrite (u32_small first) by lia.
  assert (PAGE_MASK = 4095) as HM by done.
  rewrite (u32_small (first + PAGE_MASK)) by lia.
  rewrite !align_down_eq by lia. fold (pool_base first).
  destruct (Z.leb_spec (last - last mod PAGE_SIZE) (pool_base first)) as [|Hlt]; [done|].
  cbn [orb]. destruct (pool_facts first last) as (Hb & Hbm & Hp & Htop); [done..|].
  set (b := pool_base first) in *.
  assert (Hsub : u32 (last - last mod PAGE_SIZE - b) / PAGE_SIZE = p).
  { rewrite u32_small; [done|]. unfold PAGE_SIZE in *.
    pose proof (Z.mod_pos_bound last 4096). lia. }
  rewrite Hsub. fold p in Hp, Htop.
  pose proof (bitmap_bytes_bounds p ltac:(lia)) as Hbb.
  assert (0 <= (p + 7) / 8 <= 131073).
  { split; [apply Z.div_pos; lia|]. apply Z.div_le_upper_bound; lia. }
  rewrite (u32_small (p * 2)), (u32_small (_ + p * 2)), (u32_small (_ - 1))
    by (unfold PAGE_SIZE; lia).
  replace (bitmap_bytes p + p * 2) with (meta_bytes p) by (unfold meta_bytes; lia).
  fold (meta_pages p).
  destruct (Z.leb_spec p (meta_pages p)) as [|Hm]; [done|].
  assert (0 <= meta_pages p) by (apply Z.div_pos; unfold meta_bytes, PAGE_SIZE; lia).
  pose proof (Z.mod_pos_bound last PAGE_SIZE ltac:(done)).
  assert ((p + 7) / 8 <= p) by (apply Z.div_le_upper_bound; lia).
  rewrite (u32_small (meta_pages p * PAGE_SIZE)), (u32_small (b + _))
    by (unfold PAGE_SIZE in *; lia). done.
Qed.

Lemma init_state_spec s first last :
  0 <= first <= 4294963200 -> 0 <= last < 4294967296 ->
  (forall a, 0 <= mem s a < 256) ->
  pool_base first < last - last mod PAGE_SIZE ->
  meta_pages (pool_pages first last) < pool_pages first last ->
  let s1 := init_state s first last in
  pmm_layout s1 /\ pmm_books 0 s1 /\
  (forall i, 0 <= i < total s1 -> test_bit s1 i = false).
Proof.
  intros Hf Hla Hbytes Hlt Hm s1.
  destruct (pool_facts first last) as (Hb & Hbm & Hp & Htop); [done..|].
  assert (Hl : pmm_layout s1).
  { constructor; try done; simpl; try lia.
    - pose proof (Z.mod_pos_bound last PAGE_SIZE ltac:(done)). lia.
    - intros a. unfold memset. destruct (_ && _); [lia|done]. }
  pose proof (meta_room s1 Hl) as Hroom. pose proof (total_bound s1 Hl).
  assert (Hz : forall i, 0 <= i < total s1 -> test_bit s1 i = false).
  { intros i Hi. rewrite test_bit_eq by lia.
    pose proof (bit_byte_range s1 Hl i Hi). simpl in *. rewrite memset_in by lia.
    apply Z.bits_0. }
  split_and!; try done. constructor.
  - intros; lia.
  - intros i Hi _. pose proof (bit_byte_range s1 Hl i Hi).
    unfold get_ref, load16. simpl in *. rewrite !memset_in by lia. done.
  - unfold pages_used. rewrite (count_upto_ext _ _ (fun _ => false)) by (intros; apply Hz; lia).
    generalize (Z.to_nat (total s1)). intros n. simpl. induction n; simpl; lia.
Qed.

Lemma pmm_init_spec first last s :
  0 <= first <= 4294963200 -> 0 <= last < 4294967296 ->
  (forall a, 0 <= mem s a < 256) ->
  let p := pool_pages first last in let m := meta_pages p in
  let s' := pmm_init first last s in
  (total s' = 0 /\ (last - last mod PAGE_SIZE <= pool_base first \/ p <= m)) \/
  (pmm_inv s' /\ total s' = p /\ base s' = pool_base first /\
   abs s' = replicate (Z.to_nat m) 1 ++ replicate (Z.to_nat (p - m)) 0).
Proof.
  intros Hf Hla Hbytes p m s'. unfold s'. rewrite pmm_init_eq by done. fold p m.
  destruct (Z.leb_spec (last - last mod PAGE_SIZE) (pool_base first)) as [|Hlt]; [left; simpl; lia|].
  destruct (Z.leb_spec p m) as [|Hm]; cbn [orb]; [left; simpl; lia|]. right.
  destruct (init_state_spec s first last) as (Hl & Hbk & Hz); try done.
  set (s1 := init_state s first last) in *.
  pose proof (meta_pages_pos s1 Hl) as Hpos. change (total s1) with p in Hpos, Hz. fold m in Hpos.
  destruct (take_pages_spec 0 s1 0 m) as (A1 & A2 & A3 & A4 & _);
    try done; try (simpl; fold p; lia).
  { unfold run_at. split; [simpl; fold p; lia|]. intros k Hk. apply Hz. lia. }
  pose proof A3 as (_ & _ & A5 & A6).
  assert (Habs : abs (take_pages 0 m s1) =
    replicate (Z.to_nat m) 1 ++ replicate (Z.to_nat (p - m)) 0).
  { rewrite A4. replace (abs s1) with (replicate (Z.to_nat m) 0 ++ replicate (Z.to_nat (p - m)) 0).
    - change (Z.to_nat 0) with 0%nat. apply list_inserts_0_r. by rewrite !length_replicate.
    - rewrite <- replicate_add. symmetry. apply abs_ext; change (total s1) with p.
      + rewrite length_replicate. lia.
      + intros i Hi. rewrite lookup_replicate_2 by lia. unfold holders.
        by rewrite Hz by done. }
  split_and!; [|done|done|done]. split; [done|]. rewrite A6. constructor; [|apply A2..].
  change (total s1) with p. fold m. intros i Hi.
  pose proof (abs_lookup (take_pages 0 m s1) i) as Hlk. rewrite A6 in Hlk.
  specialize (Hlk ltac:(simpl; lia)).
  rewrite Habs, lookup_app_l, lookup_replicate_2 in Hlk by (rewrite ?length_replicate; lia).
  injection Hlk as Hlk. apply negb_false_iff. rewrite <- holders_zero by done.
  by rewrite <- Hlk.
Qed.

(** ** Sequences of calls *)

Inductive pmm_op :=
  | OpAlloc
  | OpAllocPages (n : Z)
  | OpFree (pa : Z)
  | OpFreePages (pa n : Z)
  | OpRef (pa : Z)
  | OpRefcount (pa : Z)
  | OpAvailable.

Definition exec (o : pmm_op) (s : pmm) : Z * pmm :=
  match o with
  | OpAlloc => pmm_alloc s
  | OpAllocPages n => pmm_alloc_pages n s
  | OpFree pa => (0, pmm_free pa s)
  | OpFreePages pa n => (0, pmm_free_pages pa n s)
  | OpRef pa => pmm_ref pa s
  | OpRefcount pa => (pmm_refcount pa s, s)
  | OpAvailable => (pmm_available s, s)
  end.

Definition spec_exec (b : Z) (o : pmm_op) (l : list Z) : Z * list Z :=
  match o with
  | OpAlloc => spec_alloc b l
  | OpAllocPages n => spec_alloc_pages b n l
  | OpFree pa => (0, spec_free b pa l)
  | OpFreePages pa n => (0, spec_free_pages b pa n l)
  | OpRef pa => spec_ref b pa l
  | OpRefcount pa => (spec_refcount b pa l, l)
  | OpAvailable => (spec_available l, l)
  end.

(** What a caller may pass: any 32-bit argument, except that nobody gives
    back the bookkeeping's own pages. *)
Definition op_ok (b m : Z) (o : pmm_op) : Prop :=
  match o with
  | OpAllocPages n => 0 <= n < 4294967296
  | OpFree pa => pa < b \/ b + m * PAGE_SIZE <= pa
  | OpFreePages pa n =>
      0 <= pa /\ 0 <= n /\ pa + n * PAGE_SIZE <= 4294967296 /\ b + m * PAGE_SIZE <= pa
  | _ => True
  end.

Fixpoint run {S} (f : pmm_op -> S -> Z * S) (ops : list pmm_op) (s : S) : list Z * S :=
  match ops with
  | [] => ([], s)
  | o :: ops => let '(r, s1) := f o s in
                let '(rs, s2) := run f ops s1 in (r :: rs, s2)
  end.

Lemma exec_refines s o :
  pmm_inv s -> op_ok (base s) (meta_pages (total s)) o ->
  fst (exec o s) = fst (spec_exec (base s) o (abs s)) /\
  abs (snd (exec o s)) = snd (spec_exec (base s) o (abs s)) /\
  pmm_inv (snd (exec o s)) /\ same_layout s (snd (exec o s)).
Proof.
  intros Hinv Hok. destruct o; simpl in *.
  - by apply pmm_alloc_refines.
  - by apply pmm_alloc_pages_refines.
  - split; [done|]. by apply pmm_free_refines.
  - split; [done|]. apply pmm_free_pages_refines; (done || lia).
  - by apply pmm_ref_refines.
  - by split_and!; [apply pmm_refcount_refines|..].
  - by split_and!; [apply pmm_available_refines|..].
Qed.

Lemma run_refines ops s :
  pmm_inv s -> Forall (op_ok (base s) (meta_pages (total s))) ops ->
  fst (run exec ops s) = fst (run (spec_exec (base s)) ops (abs s)) /\
  abs (snd (run exec ops s)) = snd (run (spec_exec (base s)) ops (abs s)) /\
  pmm_inv (snd (run exec ops s)).
Proof.
  revert s. induction ops as [|o ops IH]; intros s Hinv Hok; simpl; [done|].
  inversion_clear Hok as [|? ? Ho Hok'].
  destruct (exec_refines s o Hinv Ho) as (H1 & H2 & H3 & (_ & _ & Hb & Ht)).
  destruct (exec o s) as [r s1]. destruct (spec_exec (base s) o (abs s)) as [r' l1].
  simpl in *. subst r' l1. rewrite <- Hb, <- Ht in Hok'.
  destruct (IH s1 H3 Hok') as (I1 & I2 & I3). rewrite <- Hb.
  destruct (run exec ops s1). destruct (run _ ops (abs s1)). simpl in *. by subst.
Qed.

(** ** Properties *)

(** C5: for every sequence of calls the page allocator behaves, result by
    result, as a plain list of holder counts: alloc takes the lowest unheld
    page, alloc_pages the lowest run, free and ref move one count, a page is
    reusable exactly when its count reaches zero; and the invariant of the
    bitmap, the counts and [used] holds throughout. *)
Theorem pmm_refines_counts ops s :
  pmm_inv s -> Forall (op_ok (base s) (meta_pages (total s))) ops ->
  fst (run exec ops s) = fst (run (spec_exec (base s)) ops (abs s)) /\
  abs (snd (run exec ops s)) = snd (run (spec_exec (base s)) ops (abs s)) /\
  pmm_inv (snd (run exec ops s)).
Proof. apply run_refines. Qed.

Lemma outside_meta s a :
  pmm_layout s -> a < base s \/ base s + meta_pages (total s) * PAGE_SIZE <= a ->
  a < base s \/ base s + bitmap_bytes (total s) <= a.
Proof. intros Hl [|]; [lia|]. pose proof (meta_room s Hl). pose proof (total_bound s Hl). lia. Qed.

Lemma alloc_fresh s :
  pmm_inv s ->
  let '(pa, s') := pmm_alloc s in
  (pa = 0 /\ s' = s /\ forall i, 0 <= i < total s -> 0 < holders s i) \/
  (base s + meta_pages (total s) * PAGE_SIZE <= pa < base s + total s * PAGE_SIZE /\
   pa mod PAGE_SIZE = 0 /\
   pmm_refcount pa s = 0 /\ pmm_refcount pa s' = 1 /\
   (forall a, pa <= a < pa + PAGE_SIZE -> mem s' a = 0) /\
   (forall a, ~ (pa <= a < pa + PAGE_SIZE) ->
      a < base s \/ base s + meta_pages (total s) * PAGE_SIZE <= a -> mem s' a = mem s a)).
Proof.
  intros Hinv. pose proof Hinv as [Hl Hbk]. pose proof (total_bound s Hl).
  pose proof (meta_pages_pos s Hl). pose proof (inv_meta s Hl).
  destruct (pmm_alloc_refines s Hinv) as (_ & _ & Hinv' & Hsame).
  destruct (pmm_alloc_cases s Hinv) as [(f & Hf & Hfree & _ & E)|[Hn E]];
    rewrite E in *; cbn [fst snd] in *.
  - right. pose proof (inv_base s Hl) as [? Hmod].
    destruct (take_page_spec (meta_pages (total s)) s f) as (A1 & A2 & A3 & A4);
      try done; try lia.
    set (pa := base s + f * PAGE_SIZE) in *.
    assert (Hpg : (pa - base s) / PAGE_SIZE = f).
    { unfold pa. replace (base s + f * PAGE_SIZE - base s) with (f * PAGE_SIZE) by lia.
      by apply Z.div_mul. }
    assert (base s <= pa) by (unfold pa, PAGE_SIZE; lia).
    assert (Habs : abs (zero_pages f 1 (take_page f s)) = <[Z.to_nat f := 1]> (abs s)).
    { rewrite <- A3. apply (zero_pages_spec (meta_pages (total s))); (done || simpl; lia). }
    split_and!.
    + unfold pa, PAGE_SIZE in *. lia.
    + unfold pa, PAGE_SIZE in *. lia.
    + unfold pa. rewrite Z_mod_plus_full. done.
    + rewrite pmm_refcount_refines by done. unfold spec_refcount, page_of.
      destruct (Z.ltb_spec pa (base s)); [lia|]. rewrite Hpg, abs_lookup by lia.
      simpl. unfold holders. by rewrite Hfree.
    + rewrite pmm_refcount_refines by done. destruct Hsame as (_ & _ & Hb & _).
      unfold spec_refcount, page_of. rewrite Hb.
      destruct (Z.ltb_spec pa (base s)); [lia|]. rewrite Hpg, Habs.
      rewrite list_lookup_insert_eq by (rewrite abs_length; lia). done.
    + intros a Ha. simpl. apply memset_in. simpl. fold pa. unfold PAGE_SIZE in *. lia.
    + intros a Ha Hm. simpl. rewrite memset_out by (simpl; fold pa; unfold PAGE_SIZE in *; lia).
      apply A4. by apply outside_meta.
  - left. split_and!; try done. intros i Hi. rewrite find_idx_None in Hn.
    specialize (Hn _ _ (abs_lookup s i Hi)). rewrite holders_zero in Hn by done.
    apply negb_false_iff in Hn. unfold holders. rewrite Hn.
    pose proof (get_ref_bound s Hl i). lia.
Qed.

(** C17: [pmm_alloc] either returns 0, changing nothing, when every page is
    held, or returns the address of a page nobody held, outside the
    bookkeeping, held once from then on, every byte of it zero, and with no
    byte of memory outside that page and the bookkeeping changed. *)
Theorem pmm_alloc_fresh s :
  pmm_inv s ->
  let '(pa, s') := pmm_alloc s in
  (pa = 0 /\ s' = s /\ forall i, 0 <= i < total s -> 0 < holders s i) \/
  (base s + meta_pages (total s) * PAGE_SIZE <= pa < base s + total s * PAGE_SIZE /\
   pa mod PAGE_SIZE = 0 /\
   pmm_refcount pa s = 0 /\ pmm_refcount pa s' = 1 /\
   (forall a, pa <= a < pa + PAGE_SIZE -> mem s' a = 0) /\
   (forall a, ~ (pa <= a < pa + PAGE_SIZE) ->
      a < base s \/ base s + meta_pages (total s) * PAGE_SIZE <= a -> mem s' a = mem s a)).
Proof. apply alloc_fresh. Qed.

(** [pmm_alloc_pages n] (n > 1) returns 0 only when no [n] adjacent pages
    are free; otherwise it returns the lowest such run, every byte of it zero.
    The search skips past each page it finds taken and still misses nothing. *)
Theorem pmm_alloc_pages_complete n s :
  pmm_inv s -> 2 <= n < 4294967296 ->
  let '(pa, s') := pmm_alloc_pages n s in
  (pa = 0 /\ s' = s /\ forall g, 0 <= g -> ~ run_at s n g) \/
  (exists f, pa = base s + f * PAGE_SIZE /\ meta_pages (total s) <= f /\
     run_at s n f /\ (forall g, 0 <= g < f -> ~ run_at s n g) /\
     (forall k, 0 <= k < n -> holders s' (f + k) = 1) /\
     (forall a, pa <= a < pa + n * PAGE_SIZE -> mem s' a = 0)).
Proof.
  intros Hinv Hn. pose proof Hinv as [Hl Hbk]. pose proof (total_bound s Hl).
  pose proof (inv_meta s Hl).
  destruct (pmm_alloc_pages_refines s n Hinv ltac:(lia)) as (_ & Ha & Hinv' & Hsame).
  unfold pmm_alloc_pages, spec_alloc_pages in *.
  destruct (Z.eqb_spec n 0); [lia|]. destruct (Z.eqb_spec n 1); [lia|].
  destruct (decide (n <= total s)) as [Hle|Hgt].
  - destruct (alloc_pages_from_spec s n (Z.to_nat (total s) + 1) 0)
      as [(f & H1 & H2 & H3 & E)|[H1 E]]; [done|lia..| |]; rewrite E in *; cbn [fst snd] in *.
    + right. exists f. rewrite (find_run_Some s n f) in Ha by (done || lia). cbn [snd] in Ha.
      destruct Hsame as (_ & _ & Hb & Ht). pose proof H2 as [Hfit _].
      split_and!; try done.
      * by apply (run_above_meta s n f Hinv H1 ltac:(lia) H2).
      * intros k Hk. pose proof (abs_lookup (zero_pages f n (take_pages f n s)) (f + k)) as Hlk.
        rewrite Ht in Hlk. specialize (Hlk ltac:(lia)).
        rewrite Ha, list_lookup_inserts, lookup_replicate_2 in Hlk
          by (rewrite ?length_replicate, ?abs_length; lia). by injection Hlk.
      * intros a Hx. simpl. apply memset_in.
        destruct (take_pages_spec (meta_pages (total s)) s f n) as (_ & _ & (_ & _ & B & _) & _);
          try done; try lia.
    + left. done.
  - rewrite Nat.add_comm. cbn [alloc_pages_from Nat.add].
    rewrite u32_small by lia. destruct (Z.leb_spec (0 + n) (total s)); [lia|].
    left. split_and!; try done. intros g Hg [? _]. lia.
Qed.

(** [pmm_init] either leaves an empty pool, when the whole pages between
    its two addresses would not hold even the bookkeeping, or establishes the
    allocator's invariant over exactly those pages, with the bookkeeping's own
    pages taken once and every other page free. *)
Theorem pmm_init_ready first last s :
  0 <= first <= 4294963200 -> 0 <= last < 4294967296 ->
  (forall a, 0 <= mem s a < 256) ->
  let p := pool_pages first last in let m := meta_pages p in
  let s' := pmm_init first last s in
  (total s' = 0 /\ (last - last mod PAGE_SIZE <= pool_base first \/ p <= m)) \/
  (pmm_inv s' /\ total s' = p /\ base s' = pool_base first /\
   abs s' = replicate (Z.to_nat m) 1 ++ replicate (Z.to_nat (p - m)) 0).
Proof. apply pmm_init_spec. Qed.

(** ** Witnesses: an eight-page pool at 1 MB *)

Definition blank : pmm := mk_pmm (fun _ => 0) 0 0 0 0 0.
Definition pool8 : pmm := pmm_init 1048576 1081344 blank.

Lemma pool8_inv : pmm_inv pool8.
Proof.
  destruct (pmm_init_spec 1048576 1081344 blank) as [[H _]|[H _]];
    [lia|lia|simpl; lia| |exact H].
  vm_compute in H. discriminate.
Qed.

Definition demo_ops : list pmm_op :=
  [OpAlloc; OpAllocPages 3; OpRef 1052672; OpFree 1052672; OpRefcount 1052672;
   OpFreePages 1056768 3; OpAvailable; OpAllocPages 8].

Lemma pmm_refines_counts_witness :
  fst (run exec demo_ops pool8) = [1052672; 1056768; 1; 0; 1; 0; 6; 0] /\
  pmm_inv (snd (run exec demo_ops pool8)).
Proof.
  destruct (pmm_refines_counts demo_ops pool8) as (H1 & _ & H3).
  - exact pool8_inv.
  - repeat constructor; vm_compute; intuition discriminate.
  - split; [|exact H3]. rewrite H1. vm_compute. reflexivity.
Defined.

Lemma pmm_alloc_fresh_witness :
  let '(pa, s') := pmm_alloc pool8 in
  (pa = 0 /\ s' = pool8 /\ forall i, 0 <= i < total pool8 -> 0 < holders pool8 i) \/
  (base pool8 + meta_pages (total pool8) * PAGE_SIZE <= pa
     < base pool8 + total pool8 * PAGE_SIZE /\
   pa mod PAGE_SIZE = 0 /\
   pmm_refcount pa pool8 = 0 /\ pmm_refcount pa s' = 1 /\
   (forall a, pa <= a < pa + PAGE_SIZE -> mem s' a = 0) /\
   (forall a, ~ (pa <= a < pa + PAGE_SIZE) ->
      a < base pool8 \/ base pool8 + meta_pages (total pool8) * PAGE_SIZE <= a ->
      mem s' a = mem pool8 a)).
Proof. exact (pmm_alloc_fresh pool8 pool8_inv). Defined.

Lemma pmm_alloc_pages_complete_witness :
  let '(pa, s') := pmm_alloc_pages 3 pool8 in
  (pa = 0 /\ s' = pool8 /\ forall g, 0 <= g -> ~ run_at pool8 3 g) \/
  (exists f, pa = base pool8 + f * PAGE_SIZE /\ meta_pages (total pool8) <= f /\
     run_at pool8 3 f /\ (forall g, 0 <= g < f -> ~ run_at pool8 3 g) /\
     (forall k, 0 <= k < 3 -> holders s' (f + k) = 1) /\
     (forall a, pa <= a < pa + 3 * PAGE_SIZE -> mem s' a = 0)).
Proof. apply (pmm_alloc_pages_complete 3 pool8 pool8_inv). lia. Defined.

Lemma pmm_init_ready_witness :
  pmm_inv (pmm_init 1048576 1081344 blank) /\ total (pmm_init 1048576 1081344 blank) = 8.
Proof.
  destruct (pmm_init_ready 1048576 1081344 blank) as [[H _]|(H & Ht & _)].
  - lia.
  - lia.
  - simpl. lia.
  - vm_compute in H. discriminate.
  - split; [exact H|]. rewrite Ht. reflexivity.
Defined.

End PMM.
