(* ===== verification/Pages.v ===== *)
(** * What the page allocator promises its clients

    Pipes and message queues own whole pages and read and write the bytes in
    them. They are verified against this interface, which the allocator of
    kernel/pmm.c implements. *)

From S2P Require Import Prelude Pmm.
Local Open Scope Z_scope.

Definition in_page (a x : Z) : Prop := a <= x < a + 4096.

(** Page-granular memory: taking a page, giving it back, and the bytes. *)
Class PageMemory (W : Type) := {
  pg_alloc : W -> Z * W;
  pg_free : Z -> W -> W;
  pg_load : W -> Z -> Z;
  pg_store : Z -> Z -> W -> W;
  pg_ok : W -> Prop;
  (** How many hold the page at this address, of the pages a client can have. *)
  pg_held : W -> Z -> Z;

  pg_load_byte : forall w x, pg_ok w -> 0 <= pg_load w x < 256;
  pg_held_nonneg : forall w a, pg_ok w -> 0 <= pg_held w a;
  pg_held_page : forall w a, pg_ok w -> 0 < pg_held w a -> 0 < a /\ a mod 4096 = 0;
  pg_held_u32 : forall w a, pg_ok w -> 0 < pg_held w a -> a < 4294967296;
  pg_alloc_spec : forall w, pg_ok w ->
    pg_alloc w = (0, w) \/
    exists a w', pg_alloc w = (a, w') /\ a <> 0 /\ pg_ok w' /\
      pg_held w a = 0 /\ pg_held w' a = 1 /\
      (forall b, b <> a -> pg_held w' b = pg_held w b) /\
      (forall x, in_page a x -> pg_load w' x = 0) /\
      (forall b x, 0 < pg_held w b -> in_page b x -> pg_load w' x = pg_load w x);
  pg_free_spec : forall w a, pg_ok w -> 0 < pg_held w a ->
    pg_ok (pg_free a w) /\ pg_held (pg_free a w) a = pg_held w a - 1 /\
    (forall b, b <> a -> pg_held (pg_free a w) b = pg_held w b) /\
    (forall b x, 0 < pg_held w b -> in_page b x -> pg_load (pg_free a w) x = pg_load w x);
  pg_store_spec : forall w a x v, pg_ok w -> 0 < pg_held w a -> in_page a x -> 0 <= v < 256 ->
    pg_ok (pg_store x v w) /\
    (forall b, pg_held (pg_store x v w) b = pg_held w b) /\
    (forall y, pg_load (pg_store x v w) y = if y =? x then v else pg_load w y);
}.

(** Pages with several holders. An address is foreign when it is no page of
    this memory: a device's own. *)
Class PageRefs (W : Type) `{PageMemory W} := {
  pg_ref : Z -> W -> Z * W;
  pg_refcount : Z -> W -> Z;
  pg_available : W -> Z;
  pg_foreign : W -> Z -> bool;

  pg_ref_spec : forall w a, pg_ok w -> 0 < pg_held w a ->
    (pg_ref a w = (0, w) /\ pg_held w a = 65536) \/
    exists w', pg_ref a w = (1, w') /\ pg_ok w' /\ pg_held w' a = pg_held w a + 1 /\
      (forall b, b <> a -> pg_held w' b = pg_held w b) /\
      (forall b x, 0 < pg_held w b -> in_page b x -> pg_load w' x = pg_load w x);
  pg_refcount_spec : forall w a, pg_ok w -> 0 < pg_held w a -> pg_refcount a w = pg_held w a;
  pg_foreign_spec : forall w a, pg_ok w -> pg_foreign w a = true ->
    pg_held w a = 0 /\ pg_refcount a w = 0 /\ pg_ref a w = (0, w) /\ pg_free a w = w;
  pg_foreign_alloc : forall w a, pg_ok w -> pg_foreign (snd (pg_alloc w)) a = pg_foreign w a;
  pg_foreign_free : forall w a b, pg_ok w -> 0 < pg_held w b -> pg_foreign (pg_free b w) a = pg_foreign w a;
  pg_foreign_ref : forall w a b, pg_ok w -> pg_foreign (snd (pg_ref b w)) a = pg_foreign w a;
  pg_foreign_store : forall w a x v, pg_foreign (pg_store x v w) a = pg_foreign w a;
  pg_store_foreign : forall w a x v, pg_ok w -> pg_foreign w a = true -> a mod 4096 = 0 -> in_page a x -> 0 <= v < 256 ->
    pg_ok (pg_store x v w) /\
    (forall b, pg_held (pg_store x v w) b = pg_held w b) /\
    (forall y, pg_load (pg_store x v w) y = if y =? x then v else pg_load w y);
}.

(** Two pages that share a byte are the same page. *)
Lemma in_page_same a b x : a mod 4096 = 0 -> b mod 4096 = 0 -> in_page a x -> in_page b x -> a = b.
Proof.
  unfold in_page. intros Ha Hb H1 H2.
  pose proof (Z.div_mod a 4096). pose proof (Z.div_mod b 4096). lia.
Qed.

(** ** Accounting for pages *)

(** The pages held are those in [l], each once, and those others hold. *)
Record acct {W} `{PageMemory W} (w : W) (base : Z -> Z) (l : list Z) : Prop := {
  ac_ok : pg_ok w;
  ac_base : forall a, 0 <= base a;
  ac_held : forall a, pg_held w a = base a + Z.of_nat (count_if (Z.eqb a) l);
  ac_nodup : NoDup l;
}.

Section acct.
Context {W : Type} `{PageMemory W}.

(** What every operation below leaves alone: the bytes of the pages in [l]. *)
Definition same_bytes (l : list Z) (w w' : W) : Prop :=
  forall a x, a ∈ l -> in_page a x -> pg_load w' x = pg_load w x.

Lemma same_bytes_refl l w : same_bytes l w w.
Proof using Type. done. Qed.
Lemma same_bytes_trans l w1 w2 w3 : same_bytes l w1 w2 -> same_bytes l w2 w3 -> same_bytes l w1 w3.
Proof using Type. intros H1 H2 a x Ha Hx. by rewrite (H2 a x Ha Hx), (H1 a x Ha Hx). Qed.
Lemma same_bytes_weaken l l' w w' : (forall a, a ∈ l -> a ∈ l') -> same_bytes l' w w' -> same_bytes l w w'.
Proof using Type. intros Hl Hs a x Ha. apply Hs. by apply Hl. Qed.

Lemma count_eqb_pos a l : (0 < count_if (Z.eqb a) l)%nat <-> a ∈ l.
Proof using Type.
  rewrite count_if_pos. split.
  - intros (i & y & Hi & E%Z.eqb_eq). subst. by eapply list_elem_of_lookup_2.
  - intros (i & Hi)%list_elem_of_lookup_1. exists i, a. by rewrite Z.eqb_refl.
Qed.

Lemma acct_held w base l a : acct w base l -> a ∈ l -> 0 < pg_held w a.
Proof using Type.
  intros Ha Hin%count_eqb_pos. rewrite (ac_held _ _ _ Ha). pose proof (ac_base _ _ _ Ha a). lia.
Qed.

Lemma acct_page w base l a : acct w base l -> a ∈ l -> 0 < a /\ a mod 4096 = 0.
Proof using Type. intros Ha Hin. apply (pg_held_page w); [apply Ha|by eapply acct_held]. Qed.

Lemma acct_perm w base l l' : l ≡ₚ l' -> acct w base l -> acct w base l'.
Proof using Type.
  intros Hp [H1 H2 H3 H4]. constructor; try done; [|by rewrite <- Hp].
  intros a. rewrite H3. do 2 f_equal. unfold count_if. clear -Hp.
  induction Hp; cbn [List.filter]; repeat case_match; cbn [length]; lia.
Qed.

(** A page taken is new to the client, and zero. *)
Lemma acct_alloc_zero w base l :
  acct w base l ->
  pg_alloc w = (0, w) \/
  exists a w', pg_alloc w = (a, w') /\ a <> 0 /\ acct w' base (a :: l) /\ same_bytes l w w' /\
    forall x, in_page a x -> pg_load w' x = 0.
Proof using Type.
  intros Ha. pose proof Ha as [H1 H2 H3 H4].
  destruct (pg_alloc_spec w H1) as [?|(a & w' & E & Hne & W1 & W2 & W3 & W4 & W5 & W6)]; [by left|].
  right. exists a, w'. split; [done|]. split; [done|].
  assert (Hnin : a ∉ l) by (intros Hin; pose proof (acct_held w base l a Ha Hin); lia).
  split; [constructor; try done|].
  - intros b. rewrite count_if_cons. destruct (Z.eqb_spec b a) as [E'|Hb].
    + rewrite E', W3. pose proof (H3 a). pose proof (H2 a). lia.
    + rewrite W4, H3 by done. lia.
  - by constructor.
  - split; [|done]. intros b x Hb Hx. apply (W6 b); [by eapply acct_held|done].
Qed.

Lemma acct_alloc w base l :
  acct w base l ->
  pg_alloc w = (0, w) \/
  exists a w', pg_alloc w = (a, w') /\ a <> 0 /\ acct w' base (a :: l) /\ same_bytes l w w'.
Proof using Type.
  intros [?|(a & w' & E & H1 & H2 & H3 & _)]%acct_alloc_zero; [by left|right]. by exists a, w'.
Qed.

Lemma acct_free w base a l :
  acct w base (a :: l) -> acct (pg_free a w) base l /\ same_bytes l w (pg_free a w).
Proof using Type.
  intros Ha. pose proof (acct_held w base _ a Ha ltac:(by constructor)) as Hh.
  pose proof Ha as [H1 H2 H3 H4]. destruct (pg_free_spec w a H1 Hh) as (F1 & F2 & F3 & F4).
  apply NoDup_cons in H4 as [Hnin Hnd]. split; [constructor; try done|].
  - intros b. specialize (H3 b). rewrite count_if_cons in H3. destruct (Z.eqb_spec b a) as [E'|Hb].
    + rewrite E' in *. rewrite F2. lia.
    + rewrite F3 by done. lia.
  - intros b x Hb Hx. apply (F4 b); [|done]. eapply acct_held; [done|by right].
Qed.

(** Storing bytes from the start of a page. *)
Definition store_bytes (a : Z) (bs : list Z) (w : W) : W :=
  fst (foldl (fun '(w, x) b => (pg_store x b w, x + 1)) (w, a) bs).
Definition page_bytes (a : Z) (n : nat) (w : W) : list Z :=
  (fun k => pg_load w (a + Z.of_nat k)) <$> seq 0 n.

Lemma store_bytes_loop w base l p a bs :
  acct w base l -> p ∈ l -> p <= a -> a + Z.of_nat (length bs) <= p + 4096 ->
  Forall (fun b => 0 <= b < 256) bs ->
  acct (store_bytes a bs w) base l /\
  (forall y, y < a \/ a + Z.of_nat (length bs) <= y -> pg_load (store_bytes a bs w) y = pg_load w y) /\
  page_bytes a (length bs) (store_bytes a bs w) = bs.
Proof using Type.
  unfold store_bytes. intros Ha Hp Hlo Hhi Hbs. revert w a Ha Hlo Hhi.
  induction Hbs as [|b bs Hb _ IH]; intros w a Ha Hlo Hhi; cbn [foldl length]; [done|].
  cbn [length] in Hhi. pose proof Ha as [H1 H2 H3 H4].
  destruct (pg_store_spec w p a b H1 (acct_held _ _ _ _ Ha Hp) ltac:(unfold in_page; lia) Hb)
    as (W1 & W2 & W3).
  assert (Ha' : acct (pg_store a b w) base l) by (constructor; try done; intros c; by rewrite W2).
  destruct (IH (pg_store a b w) (a + 1) Ha' ltac:(lia) ltac:(lia)) as (G1 & G2 & G3).
  set (w' := fst _) in *. split; [done|]. split.
  - intros y Hy. rewrite G2, W3 by lia. rewrite (proj2 (Z.eqb_neq y a)) by lia. done.
  - unfold page_bytes in *. cbn [seq fmap list_fmap]. f_equal.
    + rewrite Z.add_0_r, G2, W3, Z.eqb_refl by lia. done.
    + rewrite <- G3 at 2. rewrite <- (fmap_S_seq 0 (length bs)), <- list_fmap_compose.
      apply list_fmap_ext. intros i k _. cbn. f_equal. lia.
Qed.

Lemma acct_store w base l a bs :
  acct w base l -> a ∈ l -> (length bs <= 4096)%nat -> Forall (fun b => 0 <= b < 256) bs ->
  acct (store_bytes a bs w) base l /\ page_bytes a (length bs) (store_bytes a bs w) = bs /\
  forall l', a ∉ l' -> (forall b, b ∈ l' -> b ∈ l) -> same_bytes l' w (store_bytes a bs w).
Proof using Type.
  intros Ha Hin Hlen Hbs.
  destruct (store_bytes_loop w base l a a bs Ha Hin ltac:(lia) ltac:(lia) Hbs) as (G1 & G2 & G3).
  split; [done|]. split; [done|]. intros l' Hnin Hsub b x Hb Hx. apply G2.
  destruct (acct_page w base l a Ha Hin) as [_ M1]. destruct (acct_page w base l b Ha (Hsub b Hb)) as [_ M2].
  destruct (Z.lt_ge_cases x a) as [|Hge]; [by left|right].
  destruct (Z.lt_ge_cases x (a + 4096)) as [Hlt|]; [|lia].
  exfalso. apply Hnin. by rewrite (in_page_same a b x M1 M2 ltac:(unfold in_page; lia) Hx).
Qed.

Lemma page_bytes_same l a n w w' :
  same_bytes l w w' -> a ∈ l -> (n <= 4096)%nat -> page_bytes a n w' = page_bytes a n w.
Proof using Type.
  intros Hs Hin Hn. apply list_fmap_ext. intros i k Hk. apply (Hs a); [done|].
  apply lookup_seq in Hk as [-> ?]. unfold in_page. lia.
Qed.

Lemma length_page_bytes a n w : length (page_bytes a n w) = n.
Proof using Type. unfold page_bytes. by rewrite length_fmap, length_seq. Qed.

(** Giving back a list of pages. *)
Definition free_pages (ps : list Z) (w : W) : W :=
  foldl (fun w a => if a =? 0 then w else pg_free a w) w ps.

Lemma acct_free_pages ps w base l :
  acct w base (List.filter (fun a => negb (a =? 0)) ps ++ l) ->
  acct (free_pages ps w) base l /\ same_bytes l w (free_pages ps w).
Proof using Type.
  unfold free_pages. revert w. induction ps as [|a ps IH]; intros w Ha; cbn [foldl List.filter] in *; [done|].
  destruct (a =? 0); cbn [negb app] in *; [by apply IH|].
  destruct (acct_free _ _ _ _ Ha) as [Ha' Hs]. destruct (IH _ Ha') as [H1 H2]. split; [done|].
  eapply same_bytes_trans; [|exact H2]. eapply same_bytes_weaken; [|exact Hs].
  intros b Hb. apply elem_of_app. by right.
Qed.
(** ** Words in pages *)

Definition load32 (w : W) (a : Z) : Z := be (page_bytes a 4 w).
Definition store32 (a v : Z) (w : W) : W := store_bytes a (be_bytes 4 v) w.

Lemma load32_eq w w' a : (forall y, a <= y < a + 4 -> pg_load w' y = pg_load w y) -> load32 w' a = load32 w a.
Proof using Type.
  intros E. unfold load32, page_bytes. f_equal. apply list_fmap_ext. intros i k [-> ?]%lookup_seq. apply E. lia.
Qed.
Lemma load32_zero w a : (forall y, a <= y < a + 4 -> pg_load w y = 0) -> load32 w a = 0.
Proof using Type.
  intros E. unfold load32, page_bytes. cbn [seq fmap list_fmap]. rewrite !E by lia. done.
Qed.

(** The pages of [l] are as they were but for the word at [slot]. *)
Definition wrote (l : list Z) (w w' : W) (slot v : Z) : Prop :=
  load32 w' slot = v /\
  forall b y, b ∈ l -> in_page b y -> y < slot \/ slot + 4 <= y -> pg_load w' y = pg_load w y.

Lemma acct_store32 w base l x k v :
  acct w base l -> x ∈ l -> 0 <= k < 1024 -> 0 <= v < 4294967296 ->
  acct (store32 (x + 4 * k) v w) base l /\ wrote l w (store32 (x + 4 * k) v w) (x + 4 * k) v.
Proof using Type.
  intros Ha Hx Hk Hv. unfold store32.
  destruct (store_bytes_loop w base l x (x + 4 * k) (be_bytes 4 v) Ha Hx) as (G1 & G2 & G3);
    [lia|rewrite length_be_bytes; lia|apply be_bytes_range|].
  rewrite length_be_bytes in *. split; [done|]. split.
  - unfold load32. rewrite G3, be_be_bytes. by apply Z.mod_small.
  - intros b y _ _ Hy. apply G2. lia.
Qed.

Lemma wrote_word l w w' x k v y j :
  wrote l w w' (x + 4 * k) v -> x mod 4096 = 0 -> y mod 4096 = 0 -> y ∈ l -> 0 <= k < 1024 -> 0 <= j < 1024 ->
  load32 w' (y + 4 * j) = if (y =? x) && (j =? k) then v else load32 w (y + 4 * j).
Proof using Type.
  intros [E1 E2] Mx My Hy Hk Hj. destruct (Z.eqb_spec y x) as [->|Hne]; cbn [andb].
  - destruct (Z.eqb_spec j k) as [->|Hne]; [done|].
    apply load32_eq. intros z Hz. apply (E2 x); [done|unfold in_page; lia|lia].
  - apply load32_eq. intros z Hz. apply (E2 y); [done|unfold in_page; lia|].
    pose proof (Z.div_mod x 4096). pose proof (Z.div_mod y 4096). lia.
Qed.
End acct.

Module PAGES.
Import PMM.

(** ** kernel/pmm.c is one *)

(** A page of the pool above the bookkeeping. *)
Definition client_page (s : pmm) (a : Z) : bool :=
  (base s + meta_pages (total s) * PAGE_SIZE <=? a) && (a <? base s + total s * PAGE_SIZE) &&
  (a mod PAGE_SIZE =? 0).
Definition page_no (s : pmm) (a : Z) : Z := (a - base s) / PAGE_SIZE.
Definition held (s : pmm) (a : Z) : Z := if client_page s a then holders s (page_no s a) else 0.

Lemma client_page_no s a :
  pmm_layout s -> client_page s a = true ->
  meta_pages (total s) <= page_no s a < total s /\ a = base s + page_no s a * PAGE_SIZE.
Proof.
  intros Hl Hc. unfold client_page in Hc. breflect. pose proof (inv_base s Hl) as [_ Hb].
  unfold page_no, PAGE_SIZE in *.
  assert (E : (a - base s) mod 4096 = 0) by (rewrite Zminus_mod; by rewrite H0, Hb).
  pose proof (Z.div_mod (a - base s) 4096). lia.
Qed.

Lemma page_no_inj s a b :
  pmm_layout s -> client_page s a = true -> client_page s b = true ->
  page_no s a = page_no s b -> a = b.
Proof.
  intros Hl [_ Ha]%client_page_no [_ Hb]%client_page_no E; try done. by rewrite Ha, Hb, E.
Qed.

(** Counts are read off the abstract list. *)
Lemma held_abs s a :
  pmm_layout s -> held s a = if client_page s a then default 0 (abs s !! Z.to_nat (page_no s a)) else 0.
Proof.
  intros Hl. unfold held. destruct (client_page s a) eqn:E; [|done].
  destruct (client_page_no s a Hl E) as [? _]. pose proof (meta_pages_pos s Hl).
  by rewrite abs_lookup by lia.
Qed.

Lemma same_client s s' a : same_layout s s' -> client_page s' a = client_page s a /\ page_no s' a = page_no s a.
Proof. intros (_ & _ & Hb & Ht). unfold client_page, page_no. by rewrite Hb, Ht. Qed.

(** An operation that changes one entry of the list changes one page's count. *)
Lemma held_update s s' a v :
  pmm_layout s -> pmm_layout s' -> same_layout s s' -> client_page s a = true ->
  abs s' = <[Z.to_nat (page_no s a) := v]> (abs s) ->
  held s' a = v /\ forall b, b <> a -> held s' b = held s b.
Proof.
  intros Hl Hl' Hs Ha Habs. pose proof (client_page_no s a Hl Ha) as [Hn _].
  pose proof (meta_pages_pos s Hl). rewrite held_abs by done.
  destruct (same_client s s' a Hs) as [-> ->]. rewrite Ha, Habs.
  split; [by rewrite list_lookup_insert_eq by (rewrite abs_length; lia)|].
  intros b Hne. rewrite !held_abs by done. destruct (same_client s s' b Hs) as [-> ->].
  destruct (client_page s b) eqn:Hb; [|done]. rewrite Habs.
  pose proof (client_page_no s b Hl Hb) as [Hn' _].
  rewrite list_lookup_insert_ne; [done|]. intros E. apply Hne. symmetry.
  apply (page_no_inj s); try done. lia.
Qed.

Lemma held_pos s a : 0 < held s a -> client_page s a = true /\ held s a = holders s (page_no s a).
Proof. unfold held. destruct (client_page s a); [done|lia]. Qed.

(** A byte of a client's page is not bookkeeping. *)
Lemma client_byte s a x :
  client_page s a = true -> in_page a x -> base s + meta_pages (total s) * PAGE_SIZE <= x.
Proof. unfold client_page, in_page. intros H Hx. breflect. lia. Qed.

(** [pmm_free] writes only to the bookkeeping. *)
Lemma free_mem s pa x :
  pmm_inv s -> base s + meta_pages (total s) * PAGE_SIZE <= x -> mem (pmm_free pa s) x = mem s x.
Proof.
  intros [Hl _] Hx. unfold pmm_free. destruct (Z.ltb_spec pa (base s)); [done|].
  pose proof (meta_room s Hl). pose proof (total_bound s Hl).
  set (i := (pa - base s) / PAGE_SIZE) in *.
  assert (0 <= i) by (apply Z.div_pos; unfold PAGE_SIZE; lia).
  destruct (Z.ltb_spec i (total s)) as [Hi|Hi], (Z.leb_spec (total s) i); try lia; simpl; [|done].
  pose proof (bit_byte_range s Hl i ltac:(lia)).
  pose proof (inv_bitmap s Hl). pose proof (inv_refs s Hl).
  destruct (test_bit s i); simpl; [|done].
  destruct (get_ref s i =? 0); simpl.
  - rewrite shiftr3, store8_ne; [done|lia].
  - rewrite store16_ne; [done|lia..].
Qed.

Lemma pmm_store_inv s x v :
  pmm_inv s -> x < base s \/ base s + meta_pages (total s) * PAGE_SIZE <= x -> 0 <= v < 256 ->
  pmm_inv (set_mem (store8 (mem s) x v) s) /\
  forall b, held (set_mem (store8 (mem s) x v) s) b = held s b.
Proof.
  intros [Hl Hb] Hx Hv. set (s' := set_mem _ s).
  assert (Hsame : same_layout s s') by done.
  assert (Hl' : pmm_layout s').
  { apply (layout_transport s); [done..|]. intros y. simpl. unfold store8.
    pose proof (inv_bytes s Hl y). destruct (_ =? _); lia. }
  assert (Hm : forall j, 0 <= j < total s -> test_bit s' j = test_bit s j /\ get_ref s' j = get_ref s j).
  { apply meta_frame; try done. intros y Hy. simpl. apply store8_ne. lia. }
  split; [split; [done|]|].
  - constructor.
    + intros i Hi. simpl in Hi. pose proof (inv_meta s Hl).
      destruct (Hm i ltac:(lia)) as [-> _]. by apply (bk_reserved _ s Hb).
    + intros i Hi E. destruct (Hm i Hi) as [E1 E2]. rewrite E2. rewrite E1 in E.
      by apply (bk_free_refs _ s Hb).
    + simpl. rewrite (bk_used _ s Hb). f_equal. apply count_upto_ext. intros k Hk.
      symmetry. apply Hm. simpl in *. lia.
  - intros b. unfold held. destruct (same_client s s' b Hsame) as [-> ->].
    destruct (client_page s b) eqn:Eb; [|done]. pose proof (client_page_no s b Hl Eb) as [? _].
    pose proof (meta_pages_pos s Hl). unfold holders. by destruct (Hm (page_no s b) ltac:(lia)) as [-> ->].
Qed.

Lemma alloc_held s pa s' :
  pmm_inv s -> pmm_alloc s = (pa, s') -> client_page s pa = true ->
  held s pa = 0 /\ held s' pa = 1 /\ forall b, b <> pa -> held s' b = held s b.
Proof.
  intros Hi E Hc. pose proof Hi as [Hl _].
  pose proof (pmm_alloc_refines s Hi) as (_ & Ha & [Hl' _] & Hs). rewrite E in *. cbn [snd] in *.
  destruct (pmm_alloc_cases s Hi) as [(f & Hf & Hfree & Hidx & E')|[_ E']]; rewrite E' in E; simplify_eq.
  - assert (Hno : page_no s (base s + f * PAGE_SIZE) = f).
    { unfold page_no. replace (base s + f * PAGE_SIZE - base s) with (f * PAGE_SIZE) by lia.
      by apply Z.div_mul. }
    unfold spec_alloc in Ha. rewrite Hidx in Ha. simpl in Ha.
    split; [unfold held; rewrite Hc, Hno; unfold holders; by rewrite Hfree|].
    apply held_update; try done. by rewrite Hno.
  - unfold client_page in Hc. breflect. pose proof (inv_base s' Hl). pose proof (meta_pages_pos s' Hl).
    unfold PAGE_SIZE in *. lia.
Qed.

Lemma free_held s pa :
  pmm_inv s -> 0 < held s pa ->
  held (pmm_free pa s) pa = held s pa - 1 /\ forall b, b <> pa -> held (pmm_free pa s) b = held s b.
Proof.
  intros Hi Hh. pose proof Hi as [Hl _]. destruct (held_pos s pa Hh) as [Hc Hho].
  pose proof (client_page_no s pa Hl Hc) as [Hn Hpa]. pose proof (meta_pages_pos s Hl).
  assert (Hm : mine s pa) by (right; rewrite Hpa; unfold PAGE_SIZE; lia).
  destruct (pmm_free_refines s pa Hi Hm) as (Ha & [Hl' _] & Hs).
  apply held_update; try done. rewrite Ha. unfold spec_free.
  rewrite (proj2 (Z.ltb_ge pa (base s))) by (rewrite Hpa; unfold PAGE_SIZE; lia).
  unfold page_of. fold (page_no s pa). rewrite abs_lookup by lia.
  rewrite <- Hho. by rewrite (proj2 (Z.eqb_neq (held s pa) 0)) by lia.
Qed.

#[export] Instance pmm_pages : PageMemory pmm.
Proof.
  refine {| pg_alloc := pmm_alloc; pg_free := pmm_free; pg_load := fun s => load8 (mem s);
            pg_store := fun x v s => set_mem (store8 (mem s) x v) s;
            pg_ok := pmm_inv; pg_held := held |}.
  - intros s x [Hl _]. apply (inv_bytes s Hl).
  - intros s a [Hl _]. unfold held, holders. pose proof (get_ref_bound s Hl (page_no s a)).
    destruct (client_page s a), (test_bit s (page_no s a)); lia.
  - intros s a [Hl _] [Ha _]%held_pos. unfold client_page in Ha. breflect.
    pose proof (inv_base s Hl). pose proof (meta_pages_pos s Hl). unfold PAGE_SIZE in *. lia.
  - intros s a [Hl _] [Ha _]%held_pos. unfold client_page in Ha. breflect.
    pose proof (inv_top s Hl). unfold PAGE_SIZE in *. lia.
  - intros s Hi. pose proof Hi as [Hl _].
    pose proof (alloc_fresh s Hi) as Hf. pose proof (pmm_alloc_refines s Hi) as (_ & _ & Hi' & Hs).
    destruct (pmm_alloc s) as [pa s'] eqn:E. cbn [fst snd] in *.
    destruct Hf as [(-> & -> & _)|(Hr & Hmod & Hc & Hc' & Hz & Hm)]; [by left|]. right.
    exists pa, s'. pose proof (inv_base s Hl). pose proof (meta_pages_pos s Hl).
    assert (Hcl : client_page s pa = true).
    { unfold client_page. rewrite Hmod. rewrite (proj2 (Z.leb_le _ _)), (proj2 (Z.ltb_lt _ _)) by lia. done. }
    destruct (alloc_held s pa s' Hi E Hcl) as (H1 & H2 & H3).
    split_and!; try done; [unfold PAGE_SIZE in *; lia|].
    intros b x Hb Hx. destruct (held_pos s b Hb) as [Hcb _]. apply Hm.
    + intros Hx'. assert (b = pa) as ->; [|lia].
      unfold client_page in Hcb, Hcl. breflect. by eapply in_page_same.
    + right. by eapply client_byte.
  - intros s a Hi Ha. destruct (free_held s a Hi Ha) as [H1 H2].
    destruct (held_pos s a Ha) as [Hc _]. pose proof Hi as [Hl _].
    pose proof (client_page_no s a Hl Hc) as [_ Hpa]. pose proof (meta_pages_pos s Hl).
    split; [|split; [done|split; [done|]]].
    + apply pmm_free_refines; [done|]. right. unfold client_page in Hc. breflect. lia.
    + intros b x [Hcb _]%held_pos Hx. apply free_mem; [done|]. by eapply client_byte.
  - intros s a x v Hi Ha Hx Hv. destruct (held_pos s a Ha) as [Hc _].
    destruct (pmm_store_inv s x v Hi ltac:(right; by eapply client_byte) Hv) as [H1 H2].
    split; [done|]. split; [done|]. intros y. simpl. unfold load8, store8. by rewrite Z.eqb_sym.
Defined.

Definition foreign (s : pmm) (a : Z) : bool := (a <? base s) || (total s <=? (a - base s) / PAGE_SIZE).
Lemma foreign_same s s' a : same_layout s s' -> foreign s' a = foreign s a.
Proof. intros (_ & _ & Hb & Ht). unfold foreign. by rewrite Hb, Ht. Qed.
Lemma client_mine s a : pmm_inv s -> 0 < held s a -> mine s a /\ (a <? base s) = false.
Proof.
  intros [Hl _] Hh. destruct (held_pos s a Hh) as [Hc _]. pose proof (client_page_no s a Hl Hc) as [Hn Hpa].
  pose proof (meta_pages_pos s Hl). split; [right; rewrite Hpa; unfold PAGE_SIZE; lia|].
  apply Z.ltb_ge. rewrite Hpa. unfold PAGE_SIZE. lia.
Qed.
Lemma ref_held s a : pmm_inv s -> 0 < held s a ->
  (pmm_ref a s = (0, s) /\ held s a = 65536) \/
  exists s', pmm_ref a s = (1, s') /\ pmm_inv s' /\ held s' a = held s a + 1 /\ (forall b, b <> a -> held s' b = held s b) /\
    (forall b x, 0 < held s b -> in_page b x -> load8 (mem s') x = load8 (mem s) x).
Proof.
  intros Hi Ha. pose proof Hi as [Hl _]. destruct (pmm_ref_refines s a Hi) as (E1 & E2 & Hi' & Hs). pose proof Hi' as [Hl' _].
  destruct (held_pos s a Ha) as [Hc Hho]. pose proof (client_page_no s a Hl Hc) as [Hn Hpa]. pose proof (meta_pages_pos s Hl).
  destruct (client_mine s a Hi Ha) as [_ Hb]. unfold spec_ref, page_of in E1, E2. rewrite Hb in E1, E2. fold (page_no s a) in E1, E2.
  rewrite abs_lookup in E1, E2 by lia. rewrite <- Hho in E1, E2.
  assert (Hm : forall x, base s + meta_pages (total s) * PAGE_SIZE <= x -> mem (snd (pmm_ref a s)) x = mem s x).
  { intros x Hx. unfold pmm_ref. rewrite Hb. destruct (_ || _ || _); [done|]. cbn [snd]. pose proof (meta_room s Hl).
    pose proof (inv_refs s Hl). unfold put_ref. cbn [mem set_mem]. fold (page_no s a). rewrite store16_ne; [done|lia..]. }
  destruct ((held s a =? 0) || (held s a =? 65536)) eqn:E; cbn [fst snd] in E1, E2.
  - left. split; [|breflect; lia]. unfold pmm_ref in E1 |- *. rewrite Hb in *. destruct (_ || _ || _); [done|]. cbn [fst] in E1. lia.
  - right. exists (snd (pmm_ref a s)). split; [by rewrite <- E1, <- surjective_pairing|]. split; [done|].
    destruct (held_update s (snd (pmm_ref a s)) a (held s a + 1) Hl Hl' Hs Hc E2) as [H1 H2]. split; [done|]. split; [done|].
    intros b x [Hcb _]%held_pos Hx. apply Hm. by eapply client_byte.
Qed.
#[export] Instance pmm_refs : PageRefs pmm.
Proof.
  refine {| pg_ref := pmm_ref; pg_refcount := pmm_refcount; pg_available := pmm_available; pg_foreign := foreign |}.
  - intros s a Hi Ha. by apply ref_held.
  - intros s a Hi Ha. pose proof Hi as [Hl _]. rewrite pmm_refcount_refines by done. destruct (client_mine s a Hi Ha) as [_ Hb].
    destruct (held_pos s a Ha) as [Hc Hho]. pose proof (client_page_no s a Hl Hc) as [Hn _]. pose proof (meta_pages_pos s Hl).
    unfold spec_refcount, page_of. rewrite Hb. fold (page_no s a). by rewrite abs_lookup by lia.
  - intros s a [Hl _] Hf. change (held s a = 0 /\ pmm_refcount a s = 0 /\ pmm_ref a s = (0, s) /\ pmm_free a s = s).
    unfold foreign in Hf. unfold pmm_refcount, pmm_ref, pmm_free, held, client_page.
    split.
    { pose proof (meta_pages_pos s Hl). apply orb_true_iff in Hf as [Hf%Z.ltb_lt|Hf%Z.leb_le].
      - rewrite (proj2 (Z.leb_gt _ a)) by (unfold PAGE_SIZE; lia). done.
      - rewrite (proj2 (Z.ltb_ge a _)); [by rewrite andb_false_r|]. unfold PAGE_SIZE in *. pose proof (Z.div_mod (a - base s) 4096). pose proof (Z.mod_pos_bound (a - base s) 4096). lia. }
    destruct (a <? base s); [done|]. cbn [orb] in Hf. assert (Hf' : ((a - base s) / PAGE_SIZE <? total s) = false) by (breflect; lia).
    cbv zeta. by rewrite Hf, Hf'.
  - intros s a Hi. apply foreign_same. by apply pmm_alloc_refines.
  - intros s a b Hi Hb. apply foreign_same. apply pmm_free_refines; [done|]. by apply client_mine.
  - intros s a b Hi. apply foreign_same. by apply pmm_ref_refines.
  - done.
  - intros s a x v Hi Hf Hm Hx Hv. pose proof Hi as [Hl _].
    destruct (pmm_store_inv s x v Hi) as [H1 H2]; [|done|split; [done|]; split; [done|]; intros y; simpl; unfold load8, store8; by rewrite Z.eqb_sym].
    unfold foreign in Hf. unfold in_page in Hx. pose proof (inv_base s Hl) as [_ Hbm]. pose proof (inv_meta s Hl) as Hmt. unfold PAGE_SIZE in *.
    apply orb_true_iff in Hf as [Hf%Z.ltb_lt|Hf%Z.leb_le]; [left|right]; Z.div_mod_to_equations; lia.
Defined.
End PAGES.
