(* ===== verification/Uaccess.v ===== *)
(** * Reaching into a program's memory (kernel/uaccess.c, and fetch,
    sys_store and fetch_str of kernel/syscall.c)

    A user range is contiguous in the program's address space and not in
    physical memory, so every copy goes page by page through the translation
    of the current address space. Here that is a parameter, [translate]: the
    physical address of a user byte, or 0, which stays the same during the
    copy. The translate() of uaccess.c also asks the page fault for a page
    that is not there, and may sleep; that, over the state of vm.c, is in
    Vmuser. *)

From S2P Require Import Prelude Pmm.
Local Open Scope Z_scope.

Module UACCESS.
Import PMM.

Section uaccess.
(** [translate(as, uva, write)] for the current address space. *)
Variable translate : Z -> bool -> Z.

Definition chunk_len (uva len : Z) : Z :=
  let to_end := PAGE_SIZE - Z.land uva PAGE_MASK in
  if len <? to_end then len else to_end.

(** The kernel address of the first byte and how many follow it in its page. *)
Definition uaccess_chunk (has_as : bool) (uva len : Z) (write : bool) : option (Z * Z) :=
  if negb has_as || (len =? 0) then None
  else
    let pa := translate uva write in
    if pa =? 0 then None else Some (pa, chunk_len uva len).

Fixpoint check_loop (fuel : nat) (uva len : Z) (write : bool) : Z :=
  match fuel with
  | O => 0
  | S fuel' =>
      if 0 <? len then
        let n := chunk_len uva len in
        if translate uva write =? 0 then - EFAULT
        else check_loop fuel' (u32 (uva + n)) (len - n) write
      else 0
  end.

Definition uaccess_check (has_as : bool) (uva len : Z) (write : bool) : Z :=
  if negb has_as then - EFAULT
  else if len =? 0 then 0
  else if u32 (uva + len) <? uva then - EFAULT
  else check_loop (Z.to_nat len) uva len write.

(** [memcpy(out, src, n)] from physical memory. *)
Definition peek (m : ram) (pa n : Z) : list Z := (fun k => m (pa + k)) <$> seqZ 0 n.
(** [memcpy(dst, in, n)] into it. *)
Fixpoint poke (m : ram) (pa : Z) (bs : list Z) : ram :=
  match bs with
  | [] => m
  | b :: bs' => poke (store8 m pa b) (pa + 1) bs'
  end.

Fixpoint copy_in (fuel : nat) (m : ram) (uva len : Z) (out : list Z) : Z * list Z :=
  match fuel with
  | O => (0, out)
  | S fuel' =>
      if 0 <? len then
        match uaccess_chunk true uva len false with
        | None => (- EFAULT, out)
        | Some (src, n) => copy_in fuel' m (u32 (uva + n)) (len - n) (out ++ peek m src n)
        end
      else (0, out)
  end.

(** The result, and the bytes copied before it was known. *)
Definition copy_from_user (has_as : bool) (m : ram) (uva len : Z) : Z * list Z :=
  if negb has_as then (- EFAULT, [])
  else if u32 (uva + len) <? uva then (- EFAULT, [])
  else copy_in (Z.to_nat len) m uva len [].

Fixpoint copy_out (fuel : nat) (m : ram) (uva : Z) (bs : list Z) : Z * ram :=
  match fuel with
  | O => (0, m)
  | S fuel' =>
      let len := Z.of_nat (length bs) in
      if 0 <? len then
        match uaccess_chunk true uva len true with
        | None => (- EFAULT, m)
        | Some (dst, n) =>
            copy_out fuel' (poke m dst (take (Z.to_nat n) bs)) (u32 (uva + n))
              (drop (Z.to_nat n) bs)
        end
      else (0, m)
  end.

Definition copy_to_user (has_as : bool) (m : ram) (uva : Z) (bs : list Z) : Z * ram :=
  let len := Z.of_nat (length bs) in
  if negb has_as then (- EFAULT, m)
  else if u32 (uva + len) <? uva then (- EFAULT, m)
  else copy_out (length bs) m uva bs.

(** [strncpy_from_user]'s inner loop over one chunk: the string so far, and
    whether the terminator was met. *)
Fixpoint scan_chunk (bs : list Z) (out : list Z) : bool * list Z :=
  match bs with
  | [] => (false, out)
  | b :: bs' => if b =? 0 then (true, out) else scan_chunk bs' (out ++ [b])
  end.

Fixpoint strncpy_loop (fuel : nat) (m : ram) (uva max : Z) (out : list Z) : Z * list Z :=
  match fuel with
  | O => (- ENAMETOOLONG, out)
  | S fuel' =>
      let dn := Z.of_nat (length out) in
      if dn <? max then
        match uaccess_chunk true uva (max - dn) false with
        | None => (- EFAULT, out)
        | Some (src, n) =>
            let '(ended, out') := scan_chunk (peek m src n) out in
            if ended then (Z.of_nat (length out'), out')
            else strncpy_loop fuel' m (u32 (uva + n)) max out'
        end
      else (- ENAMETOOLONG, out)
  end.

(** The string's length and the string, without its terminator. *)
Definition strncpy_from_user (has_as : bool) (m : ram) (uva max : Z) : Z * list Z :=
  if negb has_as || (max =? 0) then (- EFAULT, [])
  else strncpy_loop (Z.to_nat max) m uva max [].

(** The system-call layer's wrappers: a null pointer is refused before
    anything else, and a kernel task's pointer is used as it is. *)
Definition fetch (program : bool) (has_as : bool) (m : ram) (p len : Z) : Z * list Z :=
  if p =? 0 then (- EFAULT, [])
  else if negb program then (0, peek m p len)
  else copy_from_user has_as m p len.

Definition sys_store (program : bool) (has_as : bool) (m : ram) (p : Z) (bs : list Z) : Z * ram :=
  if p =? 0 then (- EFAULT, m)
  else if negb program then (0, poke m p bs)
  else copy_to_user has_as m p bs.

(** A string at most [max] bytes long, its terminator included; [inl] is an
    error. *)
Definition fetch_str (program : bool) (has_as : bool) (m : ram) (p max : Z) : Z + list Z :=
  if p =? 0 then inl (- EFAULT)
  else if negb program then
    let '(ended, out) := scan_chunk (peek m p max) [] in
    if ended then inr out else inl (- ENAMETOOLONG)
  else
    let '(n, out) := strncpy_from_user has_as m p max in
    if n <? 0 then inl n else inr out.

(** ** What the copies mean, byte by byte *)

(** Reading one user byte, if it is mapped. *)
Definition ubyte (m : ram) (a : Z) : option Z :=
  let pa := translate a false in if pa =? 0 then None else Some (m pa).

Fixpoint read_bytes (n : nat) (m : ram) (a : Z) : option (list Z) :=
  match n with
  | O => Some []
  | S n' => b ← ubyte m a; bs ← read_bytes n' m (a + 1); Some (b :: bs)
  end.

(** Writing bytes one at a time, stopping at the first that is not mapped. *)
Fixpoint write_bytes (m : ram) (a : Z) (bs : list Z) : Z * ram :=
  match bs with
  | [] => (0, m)
  | b :: bs' =>
      let pa := translate a true in
      if pa =? 0 then (- EFAULT, m) else write_bytes (store8 m pa b) (a + 1) bs'
  end.

(** Reading up to and not including a zero byte. *)
Fixpoint read_string (max : nat) (m : ram) (a : Z) : Z + list Z :=
  match max with
  | O => inl (- ENAMETOOLONG)
  | S max' =>
      match ubyte m a with
      | None => inl (- EFAULT)
      | Some b => if b =? 0 then inr []
                  else match read_string max' m (a + 1) with
                       | inl e => inl e
                       | inr s => inr (b :: s)
                       end
      end
  end.

(** What the walk guarantees: a page is mapped whole and linearly. *)
Definition page_linear : Prop :=
  forall a w k, 0 <= a -> 0 <= k -> a mod PAGE_SIZE + k < PAGE_SIZE ->
  (translate a w = 0 -> translate (a + k) w = 0) /\
  (translate a w <> 0 -> translate (a + k) w = translate a w + k /\ translate (a + k) w <> 0).

Hypothesis linear : page_linear.

Lemma chunk_len_range uva len :
  0 <= uva -> 0 < len -> 1 <= chunk_len uva len <= len /\ uva mod PAGE_SIZE + chunk_len uva len <= PAGE_SIZE.
Proof using Type.
  intros Hu Hl. unfold chunk_len. change PAGE_MASK with (Z.ones 12).
  rewrite Z.land_ones by done. change (2 ^ 12) with PAGE_SIZE.
  pose proof (Z.mod_pos_bound uva PAGE_SIZE ltac:(done)).
  destruct (Z.ltb_spec len (PAGE_SIZE - uva mod PAGE_SIZE)); lia.
Qed.

Lemma peek_cons m pa n : 0 < n -> peek m pa n = m pa :: peek m (pa + 1) (n - 1).
Proof using Type.
  intros Hn. unfold peek. rewrite seqZ_cons by lia. rewrite fmap_cons, Z.add_0_r. f_equal.
  change (Z.succ 0) with (1 + 0). replace (Z.pred n) with (n - 1) by lia.
  rewrite <- (fmap_add_seqZ 1 0 (n - 1)). rewrite <- list_fmap_compose.
  apply list_fmap_ext. intros i x _. simpl. f_equal. lia.
Qed.

Lemma read_bytes_app m n1 n2 a :
  read_bytes (n1 + n2) m a =
  (b1 ← read_bytes n1 m a; b2 ← read_bytes n2 m (a + Z.of_nat n1); Some (b1 ++ b2)).
Proof using Type.
  revert a. induction n1 as [|n1 IH]; intros a; simpl.
  - rewrite Z.add_0_r. by destruct (read_bytes n2 m a).
  - destruct (ubyte m a) as [b|]; simpl; [|done]. rewrite IH.
    replace (a + 1 + Z.of_nat n1) with (a + Z.of_nat (S n1)) by lia.
    destruct (read_bytes n1 m (a + 1)); simpl; [|done].
    by destruct (read_bytes n2 m _).
Qed.

(** Within one page, the bytes are the chunk. *)
Lemma read_chunk m a n :
  0 <= a -> 0 <= n -> a mod PAGE_SIZE + n <= PAGE_SIZE -> translate a false <> 0 ->
  read_bytes (Z.to_nat n) m a = Some (peek m (translate a false) n).
Proof using linear.
  intros Ha Hn Hp Ht. destruct (Z.eq_dec n 0) as [->|]; [done|].
  enough (H : forall k j, Z.of_nat k = n - j -> 0 <= j ->
    read_bytes k m (a + j) = Some (peek m (translate a false + j) (n - j))).
  { rewrite <- (Z.add_0_r a) at 1. rewrite (H (Z.to_nat n) 0) by lia.
    by rewrite Z.add_0_r, Z.sub_0_r. }
  induction k as [|k IH]; intros j Hk Hj; simpl.
  { by replace (n - j) with 0 by lia. }
  unfold ubyte. destruct (linear a false j Ha Hj ltac:(lia)) as [_ Hl].
  destruct (Hl Ht) as [-> Hnz]. destruct (Z.eqb_spec (translate a false + j) 0); [lia|]. simpl.
  replace (a + j + 1) with (a + (j + 1)) by lia. rewrite IH by lia. simpl.
  rewrite (peek_cons m _ (n - j)) by lia. do 3 f_equal; lia.
Qed.

Lemma read_bytes_head_unmapped m a n :
  (0 < n)%nat -> translate a false = 0 -> read_bytes n m a = None.
Proof using Type.
  intros Hn Ht. destruct n as [|n]; [lia|]. simpl. unfold ubyte. by rewrite Ht.
Qed.

Lemma copy_in_spec m fuel uva len out :
  0 <= uva -> 0 <= len <= Z.of_nat fuel -> uva + len < 4294967296 ->
  match read_bytes (Z.to_nat len) m uva with
  | Some bs => copy_in fuel m uva len out = (0, out ++ bs)
  | None => fst (copy_in fuel m uva len out) = - EFAULT
  end.
Proof using linear.
  revert uva len out. induction fuel as [|fuel IH]; intros uva len out Hu Hl Hw; simpl.
  { replace len with 0 by lia. simpl. by rewrite app_nil_r. }
  destruct (Z.ltb_spec 0 len); [|replace len with 0 by lia; simpl; by rewrite app_nil_r].
  unfold uaccess_chunk. simpl. destruct (Z.eqb_spec len 0); [lia|].
  destruct (Z.eqb_spec (translate uva false) 0) as [Ht|Ht].
  { rewrite read_bytes_head_unmapped by (done || lia). done. }
  destruct (chunk_len_range uva len Hu ltac:(lia)) as [Hc Hp].
  set (c := chunk_len uva len) in *.
  replace (Z.to_nat len) with (Z.to_nat c + Z.to_nat (len - c))%nat by lia.
  rewrite read_bytes_app, (read_chunk m uva c) by (done || lia). simpl. rewrite Z2Nat.id by lia.
  rewrite u32_small by lia.
  specialize (IH (uva + c) (len - c) (out ++ peek m (translate uva false) c)
    ltac:(lia) ltac:(lia) ltac:(lia)).
  destruct (read_bytes (Z.to_nat (len - c)) m (uva + c)); simpl.
  - by rewrite IH, app_assoc.
  - done.
Qed.

Lemma write_bytes_app m a bs1 bs2 :
  write_bytes m a (bs1 ++ bs2) =
  let '(r, m') := write_bytes m a bs1 in
  if r =? 0 then write_bytes m' (a + Z.of_nat (length bs1)) bs2 else (r, m').
Proof using Type.
  revert m a. induction bs1 as [|b bs1 IH]; intros m a; simpl.
  - by rewrite Z.add_0_r.
  - destruct (translate a true =? 0); [done|]. rewrite IH.
    by replace (a + 1 + Z.of_nat (length bs1)) with (a + Z.of_nat (S (length bs1))) by lia.
Qed.

Lemma write_chunk m a bs :
  0 <= a -> a mod PAGE_SIZE + Z.of_nat (length bs) <= PAGE_SIZE -> translate a true <> 0 ->
  write_bytes m a bs = (0, poke m (translate a true) bs).
Proof using linear.
  intros Ha Hp Ht.
  enough (H : forall bs j m, 0 <= j ->
    a mod PAGE_SIZE + j + Z.of_nat (length bs) <= PAGE_SIZE ->
    write_bytes m (a + j) bs = (0, poke m (translate a true + j) bs)).
  { rewrite <- (Z.add_0_r a) at 1. rewrite H by lia. by rewrite Z.add_0_r. }
  clear bs m Hp. induction bs as [|b bs IH]; intros j m Hj Hp; simpl in *; [done|].
  destruct (linear a true j Ha Hj ltac:(lia)) as [_ Hl]. destruct (Hl Ht) as [-> Hnz].
  destruct (Z.eqb_spec (translate a true + j) 0); [lia|].
  replace (a + j + 1) with (a + (j + 1)) by lia. rewrite IH by lia.
  by replace (translate a true + j + 1) with (translate a true + (j + 1)) by lia.
Qed.

Lemma copy_out_spec fuel m uva bs :
  0 <= uva -> (length bs <= fuel)%nat -> uva + Z.of_nat (length bs) < 4294967296 ->
  copy_out fuel m uva bs = write_bytes m uva bs.
Proof using linear.
  revert m uva bs. induction fuel as [|fuel IH]; intros m uva bs Hu Hl Hw; simpl.
  { destruct bs; simpl in *; [done|lia]. }
  destruct (Z.ltb_spec 0 (Z.of_nat (length bs))); [|destruct bs; simpl in *; [done|lia]].
  unfold uaccess_chunk. simpl. destruct (Z.eqb_spec (Z.of_nat (length bs)) 0); [lia|].
  destruct (Z.eqb_spec (translate uva true) 0) as [Ht|Ht].
  { destruct bs as [|b bs]; simpl in *; [lia|]. by rewrite Ht. }
  destruct (chunk_len_range uva (Z.of_nat (length bs)) Hu ltac:(lia)) as [Hc Hp].
  set (c := chunk_len uva (Z.of_nat (length bs))) in *.
  rewrite <- (take_drop (Z.to_nat c) bs) at 3.
  rewrite write_bytes_app, write_chunk by (rewrite ?length_take; done || lia). simpl.
  rewrite length_take, u32_small by lia.
  replace (Z.of_nat (Z.to_nat c `min` length bs)) with c by lia.
  apply IH; rewrite ?length_drop; lia.
Qed.

Lemma scan_chunk_spec bs out :
  scan_chunk bs out =
    match find_idx (fun b => b =? 0) bs with
    | Some i => (true, out ++ take i bs)
    | None => (false, out ++ bs)
    end.
Proof using Type.
  revert out. induction bs as [|b bs IH]; intros out; simpl; [by rewrite app_nil_r|].
  destruct (b =? 0) eqn:E; [simpl; by rewrite app_nil_r|].
  rewrite IH. destruct (find_idx _ bs); simpl; by rewrite <- app_assoc.
Qed.

Lemma read_string_chunk m a n bs :
  read_bytes n m a = Some bs ->
  forall k, read_string (n + k) m a =
    match find_idx (fun b => b =? 0) bs with
    | Some i => inr (take i bs)
    | None => match read_string k m (a + Z.of_nat n) with
              | inl e => inl e
              | inr s => inr (bs ++ s)
              end
    end.
Proof using Type.
  revert a bs. induction n as [|n IH]; intros a bs H k; simpl in *.
  { injection H as <-. simpl. rewrite Z.add_0_r. by destruct (read_string k m a). }
  destruct (ubyte m a) as [b|]; simpl in H; [|done].
  destruct (read_bytes n m (a + 1)) as [bs'|] eqn:E; simpl in H; [|done].
  injection H as <-. simpl. destruct (b =? 0); [done|]. rewrite (IH _ _ E).
  replace (a + 1 + Z.of_nat n) with (a + Z.of_nat (S n)) by lia.
  destruct (find_idx _ bs'); simpl; [done|]. by destruct (read_string k m _).
Qed.

Definition string_result (out : list Z) (r : Z + list Z) : Z * list Z -> Prop :=
  match r with
  | inl e => fun x => fst x = e
  | inr s => fun x => x = (Z.of_nat (length (out ++ s)), out ++ s)
  end.

Lemma strncpy_loop_spec fuel m uva max out :
  0 <= uva -> Z.of_nat (length out) <= max ->
  max - Z.of_nat (length out) <= Z.of_nat fuel -> uva + max - Z.of_nat (length out) < 4294967296 ->
  string_result out (read_string (Z.to_nat (max - Z.of_nat (length out))) m uva)
    (strncpy_loop fuel m uva max out).
Proof using linear.
  revert uva out. induction fuel as [|fuel IH]; intros uva out Hu Hm Hf Hw; simpl.
  { replace (Z.to_nat (max - Z.of_nat (length out))) with 0%nat by lia. done. }
  destruct (Z.ltb_spec (Z.of_nat (length out)) max) as [Hlt|].
  2:{ replace (Z.to_nat (max - Z.of_nat (length out))) with 0%nat by lia. done. }
  set (len := max - Z.of_nat (length out)) in *.
  unfold uaccess_chunk. simpl. destruct (Z.eqb_spec len 0); [lia|].
  destruct (Z.eqb_spec (translate uva false) 0) as [Ht|Ht].
  { destruct (Z.to_nat len) eqn:E; [lia|]. simpl. unfold ubyte. by rewrite Ht. }
  destruct (chunk_len_range uva len Hu ltac:(lia)) as [Hc Hp].
  set (c := chunk_len uva len) in *.
  replace (Z.to_nat len) with (Z.to_nat c + Z.to_nat (len - c))%nat by lia.
  rewrite (read_string_chunk m uva (Z.to_nat c) (peek m (translate uva false) c))
    by (apply read_chunk; (done || lia)).
  rewrite scan_chunk_spec, Z2Nat.id by lia.
  destruct (find_idx _ _) as [i|] eqn:E; [done|].
  assert (Hlen : length (peek m (translate uva false) c) = Z.to_nat c)
    by (unfold peek; by rewrite length_fmap, length_seqZ).
  rewrite u32_small by lia.
  specialize (IH (uva + c) (out ++ peek m (translate uva false) c)).
  rewrite length_app, Hlen in IH.
  replace (Z.to_nat (max - Z.of_nat (length out + Z.to_nat c))) with (Z.to_nat (len - c)) in IH by lia.
  specialize (IH ltac:(lia) ltac:(lia) ltac:(lia) ltac:(lia)).
  destruct (read_string (Z.to_nat (len - c)) m (uva + c)); simpl in *; [done|].
  by rewrite app_assoc.
Qed.
End uaccess.


Lemma wrap_lt uva len :
  0 <= uva < 4294967296 -> 0 <= len < 4294967296 ->
  (u32 (uva + len) <? uva) = (4294967296 <=? uva + len).
Proof.
  intros Hu Hl. destruct (Z.leb_spec 4294967296 (uva + len)).
  - apply Z.ltb_lt. unfold u32. rewrite <- (Z_mod_plus_full _ (-1)).
    rewrite Z.mod_small; lia.
  - apply Z.ltb_ge. rewrite u32_small; lia.
Qed.

Lemma copy_to_user_eq translate m uva bs :
  page_linear translate -> 0 <= uva < 4294967296 -> Z.of_nat (length bs) < 4294967296 ->
  copy_to_user translate true m uva bs =
    if 4294967296 <=? uva + Z.of_nat (length bs) then (- EFAULT, m)
    else write_bytes translate m uva bs.
Proof.
  intros Hlin Hu Hl. unfold copy_to_user. rewrite wrap_lt by lia. simpl.
  destruct (Z.leb_spec 4294967296 (uva + Z.of_nat (length bs))); [done|].
  apply copy_out_spec; (done || lia).
Qed.

Lemma copy_from_user_eq translate m uva len :
  page_linear translate -> 0 <= uva < 4294967296 -> 0 <= len < 4294967296 ->
  match (if 4294967296 <=? uva + len then None else read_bytes translate (Z.to_nat len) m uva) with
  | Some bs => copy_from_user translate true m uva len = (0, bs)
  | None => fst (copy_from_user translate true m uva len) = - EFAULT
  end.
Proof.
  intros Hlin Hu Hl. unfold copy_from_user. rewrite wrap_lt by lia. simpl.
  destruct (Z.leb_spec 4294967296 (uva + len)); [done|].
  apply (copy_in_spec translate Hlin m (Z.to_nat len) uva len []); lia.
Qed.

(** ** The interface other components use *)

(** What a system call may rely on when it reads its arguments from a program
    and stores its results there. [None] and a non-zero result are [-EFAULT]. *)
Class UserMemory (U : Type) := {
  u_fetch : U -> Z -> nat -> option (list Z);
  u_store : U -> Z -> list Z -> Z * U;
  u_string : U -> Z -> Z -> Z + list Z;
  u_fetch_length : forall u p n bs,
    Z.of_nat n < 4294967296 -> u_fetch u p n = Some bs -> length bs = n;
  u_store_result : forall u p bs,
    Z.of_nat (length bs) < 4294967296 ->
    fst (u_store u p bs) = 0 \/ fst (u_store u p bs) = - EFAULT;
  u_fetch_store : forall u p bs u',
    Z.of_nat (length bs) < 4294967296 ->
    u_store u p bs = (0, u') -> u_fetch u' p (length bs) = Some bs;
  u_string_err : forall u p max e, u_string u p max = inl e -> e < 0;
  u_string_ok : forall u p max str, u_string u p max = inr str ->
    Z.of_nat (length str) < max /\ Forall (fun b => b <> 0) str;
  (** A copy in two parts is the copy of the whole. *)
  u_fetch_app : forall u p n1 n2,
    Z.of_nat (n1 + n2) < 4294967296 ->
    u_fetch u p (n1 + n2) =
      (b1 ← u_fetch u p n1; b2 ← u_fetch u (p + Z.of_nat n1) n2; Some (b1 ++ b2));
  u_store_app : forall u p bs1 bs2 u1 u2,
    Z.of_nat (length (bs1 ++ bs2)) < 4294967296 ->
    u_store u p bs1 = (0, u1) -> u_store u1 (p + Z.of_nat (length bs1)) bs2 = (0, u2) ->
    u_store u p (bs1 ++ bs2) = (0, u2);
  u_fetch_u32 : forall u p n, u_fetch u (u32 p) n = u_fetch u p n;
  u_store_u32 : forall u p bs, u_store u (u32 p) bs = u_store u p bs;
  (** The memory holds bytes. *)
  u_bytes : U -> Prop;
  u_fetch_bytes : forall u p n bs,
    u_bytes u -> Z.of_nat n < 4294967296 -> u_fetch u p n = Some bs ->
    Forall (fun b => 0 <= b < 256) bs;
  u_store_bytes : forall u p bs,
    u_bytes u -> Z.of_nat (length bs) < 4294967296 -> Forall (fun b => 0 <= b < 256) bs ->
    u_bytes (snd (u_store u p bs));
}.

Section instance.
Variable translate : Z -> bool -> Z.
Hypothesis linear : page_linear translate.
(** No two user bytes share a physical byte, and what may be written may be
    read at the same place. *)
Hypothesis no_alias :
  forall a b, translate a true <> 0 -> translate b true = translate a true -> a = b.
Hypothesis readable : forall a, translate a true <> 0 -> translate a false = translate a true.

Lemma write_bytes_frame m a bs m' x :
  write_bytes translate m a bs = (0, m') ->
  (forall k, a <= k < a + Z.of_nat (length bs) -> translate k true <> x) -> m' x = m x.
Proof using Type.
  revert m a. induction bs as [|b bs IH]; intros m a H Hx; simpl in *; [congruence|].
  destruct (translate a true =? 0) eqn:E; [done|].
  rewrite (IH _ _ H) by (intros; apply Hx; lia).
  apply store8_ne. intros ->. apply (Hx a); [lia|done].
Qed.

Lemma read_after_write m a bs m' :
  write_bytes translate m a bs = (0, m') -> read_bytes translate (length bs) m' a = Some bs.
Proof using no_alias readable.
  revert m a. induction bs as [|b bs IH]; intros m a H; simpl in *; [done|].
  destruct (Z.eqb_spec (translate a true) 0) as [|Hnz]; [done|].
  rewrite (IH _ _ H). unfold ubyte. rewrite readable by done.
  destruct (Z.eqb_spec (translate a true) 0); [done|]. simpl. do 2 f_equal.
  rewrite (write_bytes_frame _ _ _ _ _ H); [apply store8_eq|].
  intros k Hk Heq. apply no_alias in Heq; [lia|done].
Qed.

Lemma read_bytes_length n m a bs : read_bytes translate n m a = Some bs -> length bs = n.
Proof using Type.
  revert a bs. induction n as [|n IH]; intros a bs H; simpl in *; [by simplify_eq|].
  destruct (ubyte translate m a); simpl in H; [|done].
  destruct (read_bytes translate n m (a + 1)) eqn:E; simpl in H; [|done].
  simplify_eq. simpl. f_equal. eauto.
Qed.

Definition ram_fetch (m : ram) (p : Z) (n : nat) : option (list Z) :=
  let '(r, bs) := fetch translate true true m (u32 p) (Z.of_nat n) in
  if r =? 0 then Some bs else None.
Definition ram_store (m : ram) (p : Z) (bs : list Z) : Z * ram :=
  sys_store translate true true m (u32 p) bs.

Lemma ram_fetch_eq m p n :
  Z.of_nat n < 4294967296 ->
  ram_fetch m p n =
    if (u32 p =? 0) || (4294967296 <=? u32 p + Z.of_nat n) then None
    else read_bytes translate n m (u32 p).
Proof using linear.
  intros Hn. unfold ram_fetch, fetch. destruct (u32 p =? 0) eqn:E; [done|]. simpl.
  pose proof (copy_from_user_eq translate m (u32 p) (Z.of_nat n) linear
    (u32_bound p) ltac:(lia)) as H. rewrite Nat2Z.id in H.
  destruct (4294967296 <=? u32 p + Z.of_nat n); [|destruct (read_bytes _ _ _ _)];
    destruct (copy_from_user _ _ _ _ _); simpl in *; simplify_eq; done.
Qed.

Definition ram_string (m : ram) (p max : Z) : Z + list Z :=
  fetch_str translate true true m (u32 p) max.

Lemma scan_chunk_ok bs out ended out' :
  scan_chunk bs out = (ended, out') -> Forall (fun b => b <> 0) out ->
  Forall (fun b => b <> 0) out' /\
  (if ended then length out' < length out + length bs else length out' = length out + length bs)%nat.
Proof using Type.
  revert out. induction bs as [|b bs IH]; intros out E Ho; simpl in E; simplify_eq.
  - split; [done|]. simpl. lia.
  - destruct (Z.eqb_spec b 0); simplify_eq; [split; [done|simpl; lia]|].
    apply IH in E as [H1 H2].
    + split; [done|]. rewrite length_app in H2. simpl in *. destruct ended; lia.
    + apply Forall_app. split; [done|]. by constructor.
Qed.

Lemma strncpy_loop_ok fuel m uva max out n out' :
  strncpy_loop translate fuel m uva max out = (n, out') -> 0 <= uva ->
  Forall (fun b => b <> 0) out -> 0 <= n ->
  Forall (fun b => b <> 0) out' /\ Z.of_nat (length out') < max.
Proof using Type.
  revert uva out. induction fuel as [|fuel IH]; intros uva out E Hu Ho Hn; simpl in E; [simplify_eq; unfold ENAMETOOLONG in *; lia|].
  destruct (Z.ltb_spec (Z.of_nat (length out)) max) as [Hlt|]; [|simplify_eq; unfold ENAMETOOLONG in *; lia].
  destruct (uaccess_chunk translate true uva (max - Z.of_nat (length out)) false) as [[src k]|] eqn:Ec;
    [|simplify_eq; unfold EFAULT in *; lia].
  assert (Hk : 0 < k <= max - Z.of_nat (length out)).
  { unfold uaccess_chunk in Ec. simpl in Ec. destruct (_ =? 0) eqn:E0 in Ec; [done|].
    destruct (_ =? 0) in Ec; [done|]. simplify_eq. apply Z.eqb_neq in E0.
    destruct (chunk_len_range uva (max - Z.of_nat (length out)) Hu ltac:(lia)). lia. }
  destruct (scan_chunk (peek m src k) out) as [ended out1] eqn:Es.
  destruct (scan_chunk_ok _ _ _ _ Es Ho) as [Hz Hl].
  unfold peek in Hl. rewrite length_fmap, length_seqZ in Hl. destruct ended; simplify_eq.
  - split; [done|]. lia.
  - apply (IH _ _ E); [apply u32_bound|done|done].
Qed.

Lemma ram_string_ok m p max str :
  ram_string m p max = inr str -> Z.of_nat (length str) < max /\ Forall (fun b => b <> 0) str.
Proof using Type.
  unfold ram_string, fetch_str, strncpy_from_user. destruct (u32 p =? 0); [done|]. simpl.
  destruct (max =? 0); [done|].
  destruct (strncpy_loop translate (Z.to_nat max) m (u32 p) max []) as [n out] eqn:E.
  destruct (Z.ltb_spec n 0); intros; simplify_eq.
  destruct (strncpy_loop_ok _ _ _ _ _ _ _ E); try done. apply u32_bound.
Qed.

Lemma ram_string_err m p max e : ram_string m p max = inl e -> e < 0.
Proof using Type.
  unfold ram_string, fetch_str. destruct (u32 p =? 0); [by intros [= <-]|]. simpl.
  destruct (strncpy_from_user translate true m (u32 p) max) as [n out].
  destruct (Z.ltb_spec n 0); intros; by simplify_eq.
Qed.

Lemma ram_store_eq m p bs :
  Z.of_nat (length bs) < 4294967296 ->
  ram_store m p bs =
    if (u32 p =? 0) || (4294967296 <=? u32 p + Z.of_nat (length bs)) then (- EFAULT, m)
    else write_bytes translate m (u32 p) bs.
Proof using linear.
  intros Hn. unfold ram_store, sys_store. destruct (u32 p =? 0); [done|]. simpl.
  by rewrite copy_to_user_eq by (auto with sage).
Qed.

Lemma ram_fetch_app m p n1 n2 :
  Z.of_nat (n1 + n2) < 4294967296 ->
  ram_fetch m p (n1 + n2) =
    (b1 ← ram_fetch m p n1; b2 ← ram_fetch m (p + Z.of_nat n1) n2; Some (b1 ++ b2)).
Proof using linear.
  intros Hn. rewrite !ram_fetch_eq by lia. pose proof (u32_bound p) as Hp.
  destruct (Z.eqb_spec (u32 p) 0) as [E0|E0]; cbn [orb]; [done|].
  destruct (Z.leb_spec 4294967296 (u32 p + Z.of_nat n1)) as [H1|H1].
  { by rewrite (proj2 (Z.leb_le _ _)) by lia. }
  assert (E : u32 (p + Z.of_nat n1) = u32 p + Z.of_nat n1) by (apply u32_add_nowrap; lia).
  rewrite E, (proj2 (Z.eqb_neq (u32 p + _) 0)) by lia. cbn [orb].
  replace (u32 p + Z.of_nat (n1 + n2)) with (u32 p + Z.of_nat n1 + Z.of_nat n2) by lia.
  destruct (_ <=? _).
  - by destruct (read_bytes translate n1 m (u32 p)).
  - apply read_bytes_app.
Qed.

Lemma write_bytes_app_ok m a bs1 bs2 m1 :
  write_bytes translate m a bs1 = (0, m1) ->
  write_bytes translate m a (bs1 ++ bs2) = write_bytes translate m1 (a + Z.of_nat (length bs1)) bs2.
Proof using Type.
  revert m a. induction bs1 as [|b bs1 IH]; intros m a E; simpl in *.
  - simplify_eq. by rewrite Z.add_0_r.
  - destruct (_ =? 0); [done|]. rewrite (IH _ _ E). f_equal. lia.
Qed.

Lemma ram_store_app m p bs1 bs2 m1 m2 :
  Z.of_nat (length (bs1 ++ bs2)) < 4294967296 ->
  ram_store m p bs1 = (0, m1) -> ram_store m1 (p + Z.of_nat (length bs1)) bs2 = (0, m2) ->
  ram_store m p (bs1 ++ bs2) = (0, m2).
Proof using linear.
  rewrite length_app. intros Hn. rewrite !ram_store_eq by (rewrite ?length_app; lia).
  pose proof (u32_bound p) as Hp. rewrite length_app.
  destruct (Z.eqb_spec (u32 p) 0) as [E0|E0]; cbn [orb]; [done|].
  destruct (Z.leb_spec 4294967296 (u32 p + Z.of_nat (length bs1))) as [H1|H1]; [done|].
  assert (E : u32 (p + Z.of_nat (length bs1)) = u32 p + Z.of_nat (length bs1)) by (apply u32_add_nowrap; lia).
  rewrite E, (proj2 (Z.eqb_neq (u32 p + _) 0)) by lia. cbn [orb].
  rewrite Nat2Z.inj_add, Z.add_assoc. destruct (_ <=? _); [done|].
  intros H2 H3. by rewrite (write_bytes_app_ok _ _ _ _ _ H2).
Qed.

Definition ram_bytes (m : ram) : Prop := forall a, 0 <= m a < 256.

Lemma ram_fetch_bytes m p n bs :
  ram_bytes m -> Z.of_nat n < 4294967296 -> ram_fetch m p n = Some bs ->
  Forall (fun b => 0 <= b < 256) bs.
Proof using linear.
  intros Hm Hn. rewrite ram_fetch_eq by done. destruct (_ || _); [done|].
  generalize (u32 p). revert bs. clear Hn.
  induction n as [|n IH]; intros bs a E; simpl in E; [by simplify_eq|].
  unfold ubyte in E. destruct (_ =? 0); [done|]. simpl in E.
  destruct (read_bytes translate n m (a + 1)) eqn:E1; simplify_eq/=. constructor; [apply Hm|by eapply IH].
Qed.

Lemma ram_store_bytes m p bs :
  ram_bytes m -> Z.of_nat (length bs) < 4294967296 -> Forall (fun b => 0 <= b < 256) bs ->
  ram_bytes (snd (ram_store m p bs)).
Proof using linear.
  intros Hm Hn Hb. rewrite ram_store_eq by done. destruct (_ || _); [done|].
  generalize (u32 p). revert m Hm. clear Hn.
  induction Hb as [|b bs Hb _ IH]; intros m Hm a; simpl; [done|].
  destruct (_ =? 0); [done|]. apply IH. intros x. unfold store8. by case_match.
Qed.

#[export] Instance user_ram : UserMemory ram.
Proof using linear no_alias readable.
  refine {| u_fetch := ram_fetch; u_store := ram_store; u_string := ram_string;
            u_string_ok := ram_string_ok; u_string_err := ram_string_err;
            u_fetch_app := ram_fetch_app; u_store_app := ram_store_app; u_bytes := ram_bytes;
            u_fetch_bytes := ram_fetch_bytes; u_store_bytes := ram_store_bytes |}.
  - intros m p n bs Hn. rewrite ram_fetch_eq by done.
    destruct (_ || _); [done|]. apply read_bytes_length.
  - intros m p bs Hn. unfold ram_store, sys_store. destruct (u32 p =? 0); [by right|]. simpl.
    rewrite copy_to_user_eq by (auto with sage). destruct (_ <=? _); [by right|].
    generalize (u32 p). intros a. revert m a. clear Hn.
    induction bs as [|b bs IH]; intros m a; simpl; [by left|].
    destruct (_ =? 0); [by right|]. apply IH.
  - intros m p bs m' Hn. unfold ram_store, sys_store. destruct (u32 p =? 0) eqn:E0; [done|].
    simpl. rewrite copy_to_user_eq by (auto with sage).
    rewrite ram_fetch_eq, E0 by done. simpl.
    destruct (_ <=? _); [done|]. apply read_after_write.
  - intros m p n. unfold ram_fetch. by rewrite u32_idem.
  - intros m p bs. unfold ram_store. by rewrite u32_idem.
Defined.
End instance.

(** ** Properties *)

(** The page-at-a-time copies are byte-at-a-time copies. For a walk that
    maps pages whole and linearly: [copy_from_user] gives the bytes at the
    user's addresses, or [-EFAULT] if one of them is not mapped or the range
    wraps; [copy_to_user] stores them one by one up to the first address that
    is not writable; [strncpy_from_user] gives the bytes before the first zero
    one, [-ENAMETOOLONG] if there is none in range, [-EFAULT] if an unmapped
    byte comes before it. *)
Theorem user_copies_bytewise translate :
  page_linear translate ->
  (forall m uva len, 0 <= uva < 4294967296 -> 0 <= len < 4294967296 ->
     match (if 4294967296 <=? uva + len then None
            else read_bytes translate (Z.to_nat len) m uva) with
     | Some bs => copy_from_user translate true m uva len = (0, bs)
     | None => fst (copy_from_user translate true m uva len) = - EFAULT
     end) /\
  (forall m uva bs, 0 <= uva < 4294967296 -> Z.of_nat (length bs) < 4294967296 ->
     copy_to_user translate true m uva bs =
       if 4294967296 <=? uva + Z.of_nat (length bs) then (- EFAULT, m)
       else write_bytes translate m uva bs) /\
  (forall m uva max, 0 <= uva -> 0 < max -> uva + max < 4294967296 ->
     match read_string translate (Z.to_nat max) m uva with
     | inl e => fst (strncpy_from_user translate true m uva max) = e
     | inr s => strncpy_from_user translate true m uva max = (Z.of_nat (length s), s)
     end).
Proof.
  intros Hlin. split_and!.
  - intros. by apply copy_from_user_eq.
  - intros. by apply copy_to_user_eq.
  - intros m uva max Hu Hm Hw. unfold strncpy_from_user.
    destruct (Z.eqb_spec max 0); [lia|]. simpl.
    pose proof (strncpy_loop_spec translate Hlin (Z.to_nat max) m uva max []) as H.
    simpl in H. rewrite Z.sub_0_r in H. specialize (H Hu ltac:(lia) ltac:(lia) ltac:(lia)).
    destruct (read_string translate (Z.to_nat max) m uva); done.
Qed.

(** Two user pages side by side, their physical pages the other way round. *)
Definition swapped (a : Z) (_ : bool) : Z :=
  if (268435456 <=? a) && (a <? 268439552) then a - 268435456 + 8192
  else if (268439552 <=? a) && (a <? 268443648) then a - 268439552 + 4096
  else 0.

Lemma swapped_linear : page_linear swapped.
Proof.
  intros a w k Ha Hk Hp. unfold swapped, PAGE_SIZE in *.
  assert (a = 4096 * (a / 4096) + a mod 4096) by (apply Z.div_mod; lia).
  pose proof (Z.mod_pos_bound a 4096 ltac:(lia)).
  repeat (zcase; simpl); lia.
Qed.

Lemma swapped_no_alias a b :
  swapped a true <> 0 -> swapped b true = swapped a true -> a = b.
Proof. unfold swapped. repeat (zcase; simpl); lia. Qed.
Lemma swapped_readable a : swapped a true <> 0 -> swapped a false = swapped a true.
Proof. done. Qed.

(** A program with those two pages. *)
Definition two_pages : UserMemory ram :=
  user_ram swapped swapped_linear swapped_no_alias swapped_readable.

Lemma user_copies_bytewise_witness :
  copy_from_user swapped true (fun a => a mod 256) 268439550 4 = (0, [254; 255; 0; 1]).
Proof.
  destruct (user_copies_bytewise swapped swapped_linear) as (H & _).
  exact (H (fun a => a mod 256) 268439550 4 ltac:(lia) ltac:(lia)).
Defined.

End UACCESS.
