(* ===== verification/Reclock.v ===== *)
(** * Record locks (kernel/reclock.c)

    A lock is a byte range of a file held by an owner: a process, or an open
    file description. The model has the whole file: the fixed table of 128
    entries, the splitting and merging of ranges, the waits-for table behind
    EDEADLK, the two shapes of struct flock as bytes in a program's memory,
    and fcntl's lock commands with their sleeps. *)

From S2P Require Import Prelude Uaccess.
Local Open Scope Z_scope.

Module RECLOCK.
Import UACCESS.

(** ** The code *)

Definition RECLOCK_MAX : nat := 128.
Definition WAITER_MAX : nat := 64.
Definition TO_EOF : Z := 4294967295.

Definition F_GETLK : Z := 5.
Definition F_SETLK : Z := 6.
Definition F_SETLKW : Z := 7.
Definition F_GETLK64 : Z := 12.
Definition F_SETLK64 : Z := 13.
Definition F_SETLKW64 : Z := 14.
Definition F_OFD_GETLK : Z := 36.
Definition F_OFD_SETLK : Z := 37.
Definition F_OFD_SETLKW : Z := 38.
Definition F_RDLCK : Z := 0.
Definition F_WRLCK : Z := 1.
Definition F_UNLCK : Z := 2.
Definition SEEK_SET : Z := 0.
Definition SEEK_CUR : Z := 1.
Definition SEEK_END : Z := 2.

(** Pointers to open files are numbers, 0 the null pointer. *)
Record reclock := mk_lock {
  used : bool;
  key : Z;
  pid : Z;
  ofd : Z;
  type : Z;
  start : Z;
  end_ : Z;
}.

Definition set_lused (b : bool) (l : reclock) : reclock :=
  mk_lock b (key l) (pid l) (ofd l) (type l) (start l) (end_ l).
Definition set_start (v : Z) (l : reclock) : reclock :=
  mk_lock (used l) (key l) (pid l) (ofd l) (type l) v (end_ l).
Definition set_end (v : Z) (l : reclock) : reclock :=
  mk_lock (used l) (key l) (pid l) (ofd l) (type l) (start l) v.

Record waiter := mk_waiter { w_pid : Z; blocker : Z }.

(** The file's static variables; [lock_wait] is the queue of sleepers, as
    the pids asleep on it. *)
Record state := mk_state {
  locks : list reclock;
  waiters : list waiter;
  lock_wait : list Z;
}.

Definition same_owner (l : reclock) (p o : Z) : bool :=
  if negb (o =? 0) then ofd l =? o else (ofd l =? 0) && (pid l =? p).

Definition overlaps (l : reclock) (s e : Z) : bool :=
  (start l <=? e) && (s <=? end_ l).

Definition conflict (ls : list reclock) (k p o t s e : Z) : option nat :=
  find_idx (fun l => used l && (key l =? k) && negb (same_owner l p o) &&
                     overlaps l s e && ((t =? F_WRLCK) || (type l =? F_WRLCK))) ls.

Definition slot (ls : list reclock) : option nat := find_idx (fun l => negb (used l)) ls.
Definition free_slots (ls : list reclock) : nat := count_if (fun l => negb (used l)) ls.

(** [set_range]'s three loops. [None] is a store through a null [slot()]. *)
Definition splits (ls : list reclock) (k p o s e : Z) : nat :=
  count_if (fun l => used l && (key l =? k) && same_owner l p o &&
                     (start l <? s) && (e <? end_ l)) ls.

Definition carve_body (k p o s e : Z) (i : nat) (ls : list reclock) : option (list reclock) :=
  match ls !! i with
  | None => Some ls
  | Some l =>
      if negb (used l) || negb (key l =? k) || negb (same_owner l p o) ||
         negb (overlaps l s e) then Some ls
      else if (start l <? s) && (e <? end_ l) then
        match slot ls with
        | None => None
        | Some r => Some (<[i := set_end (u32 (s - 1)) l]>
                            (<[r := set_start (u32 (e + 1)) l]> ls))
        end
      else if start l <? s then Some (<[i := set_end (u32 (s - 1)) l]> ls)
      else if e <? end_ l then Some (<[i := set_start (u32 (e + 1)) l]> ls)
      else Some (<[i := set_lused false l]> ls)
  end.

Definition carve (k p o s e : Z) (ls : list reclock) : option (list reclock) :=
  for_upto RECLOCK_MAX (fun i st => st ≫= carve_body k p o s e i) (Some ls).

Definition merge_body (k p o t : Z) (i : nat)
    (st : list reclock * Z * Z) : list reclock * Z * Z :=
  let '(ls, s, e) := st in
  match ls !! i with
  | None => st
  | Some l =>
      if negb (used l) || negb (key l =? k) || negb (same_owner l p o) ||
         negb (type l =? t) then st
      else if (0 <? s) && (end_ l =? u32 (s - 1)) then
        (<[i := set_lused false l]> ls, start l, e)
      else if negb (e =? TO_EOF) && (start l =? u32 (e + 1)) then
        (<[i := set_lused false l]> ls, s, end_ l)
      else st
  end.

Definition merge (k p o t s e : Z) (ls : list reclock) : list reclock * Z * Z :=
  for_upto RECLOCK_MAX (merge_body k p o t) (ls, s, e).

#[global] Arguments carve : simpl never.
#[global] Arguments merge : simpl never.

Definition set_range (st : state) (k p o t s e : Z) : option (Z * state) :=
  if (free_slots (locks st) <?
      splits (locks st) k p o s e + (if negb (t =? F_UNLCK)%Z then 1 else 0))%nat
  then Some (- ENOLCK, st)
  else
    ls1 ← carve k p o s e (locks st);
    ls2 ← (if negb (t =? F_UNLCK) then
             let '(ls, s', e') := merge k p o t s e ls1 in
             n ← slot ls;
             Some (<[n := mk_lock true k (if negb (o =? 0) then 0 else p) o t s' e']> ls)
           else Some ls1);
    Some (0, mk_state ls2 (waiters st) []).          (* wake_all(&lock_wait) *)

(** [would_deadlock]'s walk along the waits-for table. *)
Definition next_blocker (ws : list waiter) (b : Z) : Z :=
  match find_idx (fun w => w_pid w =? b) ws with
  | Some i => default 0 (blocker <$> ws !! i)
  | None => 0
  end.

Fixpoint deadlock_walk (depth : nat) (ws : list waiter) (p b : Z) : bool :=
  match depth with
  | O => false
  | S depth' =>
      if b =? 0 then false
      else if b =? p then true
      else deadlock_walk depth' ws p (next_blocker ws b)
  end.
Definition would_deadlock (ws : list waiter) (p b : Z) : bool :=
  deadlock_walk WAITER_MAX ws p b.

Definition set_waiting (ws : list waiter) (p b : Z) : list waiter :=
  match find_idx (fun w => w_pid w =? p) ws with
  | Some i => <[i := mk_waiter (if b =? 0 then 0 else p) b]> ws
  | None =>
      if negb (b =? 0) then
        match find_idx (fun w => w_pid w =? 0) ws with
        | Some i => <[i := mk_waiter p b]> ws
        | None => ws
        end
      else ws
  end.

(** *** struct flock and struct flock64, as a program's bytes *)

Record lk := mk_lk {
  k_type : Z; k_whence : Z; k_pid : Z;
  start_hi : Z; k_start : Z; len_hi : Z; k_len : Z;
}.

Section user.
Context {U : Type} `{UserMemory U}.

Definition fetch_lk (u : U) (ua : Z) (wide : bool) : Z + lk :=
  if wide then
    match u_fetch u ua 24 with
    | None => inl (- EFAULT)
    | Some bs =>
        let l_start := signed 64 (be (sub bs 4 8)) in
        let l_len := signed 64 (be (sub bs 12 8)) in
        inr (mk_lk (signed 16 (be (sub bs 0 2))) (signed 16 (be (sub bs 2 2)))
                   (signed 32 (be (sub bs 20 4)))
                   (s32 (Z.shiftr (u64 l_start) 32)) (u32 l_start)
                   (s32 (Z.shiftr (u64 l_len) 32)) (u32 l_len))
    end
  else
    match u_fetch u ua 16 with
    | None => inl (- EFAULT)
    | Some bs =>
        let l_start := signed 32 (be (sub bs 4 4)) in
        let l_len := signed 32 (be (sub bs 8 4)) in
        inr (mk_lk (signed 16 (be (sub bs 0 2))) (signed 16 (be (sub bs 2 2)))
                   (signed 32 (be (sub bs 12 4)))
                   (if l_start <? 0 then -1 else 0) (u32 l_start)
                   (if l_len <? 0 then -1 else 0) (u32 l_len))
    end.

Definition store_lk (u : U) (ua : Z) (wide : bool) (t s e p : Z) : Z * U :=
  let len := if e =? TO_EOF then 0 else u32 (e - s + 1) in
  if wide then
    u_store u ua (be_bytes 2 t ++ be_bytes 2 SEEK_SET ++ be_bytes 8 s ++ be_bytes 8 len ++
                  be_bytes 4 p)
  else
    u_store u ua (be_bytes 2 t ++ be_bytes 2 SEEK_SET ++ be_bytes 4 s ++ be_bytes 4 len ++
                  be_bytes 4 p).

(** What the calls look at of a struct file: its address, its position,
    flags and lock key, and its size if vfs_file_stat() succeeds. *)
Record file := mk_file { f_addr : Z; f_pos : Z; f_flags : Z; f_key : Z; f_size : option Z }.

Definition range_of (f : file) (k : lk) : Z + Z * Z :=
  let base := if k_whence k =? SEEK_SET then Some 0
              else if k_whence k =? SEEK_CUR then Some (f_pos f)
              else if k_whence k =? SEEK_END then f_size f
              else None in
  match base with
  | None => inl (- EINVAL)
  | Some base =>
      let st := u32 (base + k_start k) in
      let st_hi := s32 (start_hi k + (if st <? base then 1 else 0)) in
      if st_hi <? 0 then inl (- EINVAL)
      else if 0 <? st_hi then inl (- EOVERFLOW)
      else if (len_hi k =? 0) && (k_len k =? 0) then inr (st, TO_EOF)
      else if 0 <=? len_hi k then
        let end' := u32 (st + k_len k - 1) in
        inr (st, if (0 <? len_hi k) || (end' <? st) then TO_EOF else end')
      else
        let back := u32 (- s32 (k_len k)) in
        if negb (len_hi k =? -1) || (st <? back) then inl (- EINVAL)
        else inr (u32 (st - back), u32 (st - 1))
  end.

(** *** reclock_fcntl *)

(** The command switch: whether it takes a flock64, asks or sets, may sleep,
    and whether the owner is the description. F_GETLK64 and its siblings set
    [wide] and fall through into the case that clears it. *)
Definition decode (cmd : Z) (wide : bool) : option (bool * bool * bool * bool) :=
  if (cmd =? F_GETLK64) || (cmd =? F_GETLK) then Some (false, true, false, false)
  else if (cmd =? F_SETLKW64) || (cmd =? F_SETLKW) then Some (false, false, true, false)
  else if (cmd =? F_SETLK64) || (cmd =? F_SETLK) then Some (false, false, false, false)
  else if cmd =? F_OFD_GETLK then Some (wide, true, false, true)
  else if cmd =? F_OFD_SETLKW then Some (wide, false, true, true)
  else if cmd =? F_OFD_SETLK then Some (wide, false, false, true)
  else None.

(** How a call ends: with a result, still asleep when the run of other tasks
    given to it is over, or in a null dereference. *)
Inductive outcome :=
  | Ret (r : Z) (st : state) (u : U)
  | Asleep (st : state) (u : U)
  | Fault.

(** One turn of the acquiring loop: [inl] is an answer, [inr] a sleep. *)
Definition setlk_turn (st : state) (p o : Z) (k : lk) (ky s e : Z) (blocking sig : bool)
    : option ((Z * state) + state) :=
  match (if k_type k =? F_UNLCK then None else conflict (locks st) ky p o (k_type k) s e) with
  | None => inl <$> set_range (mk_state (locks st) (set_waiting (waiters st) p 0) (lock_wait st))
                      ky p o (k_type k) s e
  | Some i =>
      c ← locks st !! i;
      if negb blocking then Some (inl (- EAGAIN, st))
      else if (o =? 0) && (ofd c =? 0) && would_deadlock (waiters st) p (pid c)
      then Some (inl (- EDEADLK, st))
      else if sig
      then Some (inl (- EINTR, mk_state (locks st) (set_waiting (waiters st) p 0) (lock_wait st)))
      else Some (inr (mk_state (locks st)
                        (set_waiting (waiters st) p (if negb (ofd c =? 0) then 0 else pid c))
                        (lock_wait st ++ [p])))
  end.

(** The loop. [env] says, for each turn, whether a signal is pending and what
    other tasks do while this one sleeps after it. *)
Fixpoint setlk_loop (env : list (bool * (state -> state))) (st : state) (u : U)
    (p o : Z) (k : lk) (ky s e : Z) (blocking : bool) : outcome :=
  match env with
  | [] => Asleep st u
  | (sig, others) :: env' =>
      match setlk_turn st p o k ky s e blocking sig with
      | None => Fault
      | Some (inl (r, st')) => Ret r st' u
      | Some (inr st') => setlk_loop env' (others st') u p o k ky s e blocking
      end
  end.

Definition reclock_fcntl (env : list (bool * (state -> state))) (st : state) (u : U)
    (tgid : Z) (fo : option file) (cmd uarg : Z) (wide : bool) : outcome :=
  match fo with
  | None => Ret (- EBADF) st u
  | Some f =>
      match decode cmd wide with
      | None => Ret (- EINVAL) st u
      | Some (wide, getting, blocking, by_ofd) =>
          let o := if by_ofd then f_addr f else 0 in
          match fetch_lk u uarg wide with
          | inl err => Ret err st u
          | inr k =>
              if negb (k_type k =? F_RDLCK) && negb (k_type k =? F_WRLCK) &&
                 negb (k_type k =? F_UNLCK) then Ret (- EINVAL) st u
              else if by_ofd && negb (k_pid k =? 0) then Ret (- EINVAL) st u
              else
                match range_of f k with
                | inl err => Ret err st u
                | inr (s, e) =>
                    if getting then
                      if k_type k =? F_UNLCK then Ret (- EINVAL) st u
                      else
                        match conflict (locks st) (f_key f) tgid o (k_type k) s e with
                        | None => let '(r, u') := store_lk u uarg wide F_UNLCK s e 0 in Ret r st u'
                        | Some i =>
                            match locks st !! i with
                            | None => Fault
                            | Some c =>
                                let '(r, u') := store_lk u uarg wide (type c) (start c) (end_ c)
                                  (if negb (ofd c =? 0) then -1 else pid c) in
                                Ret r st u'
                            end
                        end
                    else
                      let acc := Z.land (f_flags f) O_ACCMODE in
                      if ((k_type k =? F_RDLCK) && (acc =? O_WRONLY)) ||
                         ((k_type k =? F_WRLCK) && (acc =? O_RDONLY)) then Ret (- EBADF) st u
                      else setlk_loop env st u tgid o k (f_key f) s e blocking
                end
          end
      end
  end.
End user.

(** *** Letting go *)

Definition dropped (by_key : bool) (k p o : Z) (l : reclock) : bool :=
  used l && (negb by_key || (key l =? k)) &&
  (if negb (o =? 0) then ofd l =? o else (ofd l =? 0) && (pid l =? p)).

Definition drop (by_key : bool) (k p o : Z) (st : state) : state :=
  let ls := (fun l => if dropped by_key k p o l then set_lused false l else l) <$> locks st in
  let any := existsb (dropped by_key k p o) (locks st) in
  mk_state ls (waiters st) (if any then [] else lock_wait st).

Definition reclock_closed (fkey p : Z) (st : state) : state :=
  if existsb (fun l => used l && (ofd l =? 0) && (pid l =? p)) (locks st)
  then drop true fkey p 0 st else st.

Definition reclock_file_gone (f : Z) (st : state) : state :=
  if existsb (fun l => used l && (ofd l =? f)) (locks st)
  then drop false 0 0 f st else st.

Definition reclock_exit (p : Z) (st : state) : state :=
  let st := drop false 0 p 0 st in
  mk_state (locks st) (set_waiting (waiters st) p 0) (lock_wait st).

(** ** Who holds what *)

(** A process is an owner through the locks with no description; a
    description is one whatever process asks. *)
Definition owner (p o : Z) : Z * Z := if o =? 0 then (p, 0) else (0, o).
Definition owner_of (l : reclock) : Z * Z := owner (pid l) (ofd l).

Lemma same_owner_iff l p o : same_owner l p o = true <-> owner_of l = owner p o.
Proof.
  unfold same_owner, owner_of, owner.
  destruct (Z.eqb_spec o 0) as [->|Ho], (Z.eqb_spec (ofd l) 0) as [E|E]; simpl.
  - rewrite Z.eqb_eq. split; congruence.
  - split; [done|]. intros [=]. done.
  - rewrite Z.eqb_eq, E. split; [done|]. intros [=]. done.
  - rewrite Z.eqb_eq. split; congruence.
Qed.

Definition mine (k : Z) (o : Z * Z) (l : reclock) : Prop :=
  used l = true /\ key l = k /\ owner_of l = o.
Definition at_byte (b t : Z) (l : reclock) : Prop :=
  start l <= b <= end_ l /\ type l = t.

(** Owner [o] holds byte [b] of file [k] with type [t]. *)
Definition holds (ls : list reclock) (k : Z) (o : Z * Z) (b t : Z) : Prop :=
  exists i l, ls !! i = Some l /\ mine k o l /\ at_byte b t l.
(** The same, by an entry other than [i]. *)
Definition holds_but (i : nat) (ls : list reclock) (k : Z) (o : Z * Z) (b t : Z) : Prop :=
  exists j l, j <> i /\ ls !! j = Some l /\ mine k o l /\ at_byte b t l.

Lemma holds_at ls i l k o b t :
  ls !! i = Some l ->
  holds ls k o b t <-> (mine k o l /\ at_byte b t l) \/ holds_but i ls k o b t.
Proof.
  intros Hi. split.
  - intros (j & l' & Hj & Hm). destruct (decide (j = i)) as [->|].
    + left. by simplify_eq.
    + right. by exists j, l'.
  - intros [Hm|(j & l' & _ & Hj & Hm)]; [by exists i, l|by exists j, l'].
Qed.

Lemma holds_but_insert ls i x k o b t :
  holds_but i (<[i := x]> ls) k o b t <-> holds_but i ls k o b t.
Proof.
  split; intros (j & l & Hne & Hj & Hm); exists j, l; (split; [done|]); (split; [|done]).
  - by rewrite list_lookup_insert_ne in Hj.
  - by rewrite list_lookup_insert_ne.
Qed.

Lemma holds_insert ls i l x k o b t :
  ls !! i = Some l ->
  holds (<[i := x]> ls) k o b t <-> (mine k o x /\ at_byte b t x) \/ holds_but i ls k o b t.
Proof.
  intros Hi. rewrite <- (holds_but_insert ls i x). apply holds_at.
  apply list_lookup_insert_eq. by eapply lookup_lt_Some.
Qed.

(** ** The table's invariant *)

Definition lock_wf (l : reclock) : Prop :=
  used l = true ->
  0 <= start l <= end_ l /\ end_ l <= TO_EOF /\ (type l = F_RDLCK \/ type l = F_WRLCK).

(** Two entries of one owner on one file do not meet, and do not touch if
    they are of one type. *)
Definition apart (l l' : reclock) : Prop :=
  used l = true -> used l' = true -> key l = key l' -> owner_of l = owner_of l' ->
  (end_ l < start l' \/ end_ l' < start l) /\
  (type l = type l' -> end_ l + 1 <> start l' /\ end_ l' + 1 <> start l).

Lemma apart_sym l l' : apart l l' -> apart l' l.
Proof. unfold apart. intros H ????. destruct H; try done. intuition lia. Qed.

Record table_wf (ls : list reclock) : Prop := {
  tw_len : length ls = RECLOCK_MAX;
  tw_lock : forall i l, ls !! i = Some l -> lock_wf l;
  tw_apart : forall i j l l', i <> j -> ls !! i = Some l -> ls !! j = Some l' -> apart l l';
}.

Lemma table_wf_insert ls i x :
  table_wf ls -> lock_wf x ->
  (forall j l, j <> i -> ls !! j = Some l -> apart x l) ->
  table_wf (<[i := x]> ls).
Proof.
  intros [Hlen Hlk Hap] Hx Hxa. constructor.
  - by rewrite length_insert.
  - intros j l [(<- & <- & _)|(_ & Hj)]%list_lookup_insert_Some; [done|eauto].
  - intros j j' l l' Hne Hj Hj'.
    apply list_lookup_insert_Some in Hj as [(<- & <- & _)|(Hji & Hj)];
      apply list_lookup_insert_Some in Hj' as [(<- & <- & _)|(Hji' & Hj')].
    + done.
    + by eapply Hxa.
    + apply apart_sym. by eapply Hxa.
    + by eapply (Hap j j').
Qed.

(** A part of an entry keeps its distance from the others. *)
Definition part_of (x l : reclock) : Prop :=
  key x = key l /\ owner_of x = owner_of l /\ type x = type l /\
  (used x = true -> used l = true /\ start l <= start x /\ end_ x <= end_ l).

Lemma apart_part x l l' :
  lock_wf l' -> lock_wf x -> part_of x l -> apart l l' -> apart x l'.
Proof.
  intros Hwf' Hwfx (Hk & Ho & Ht & Hin) Hap Hux Hul' Hkk Hoo.
  destruct (Hin Hux) as (Hul & Hs & He). specialize (Hwf' Hul'). specialize (Hwfx Hux).
  destruct Hap as [Hd Hc]; try done; [congruence..|].
  split; [lia|]. intros Htt. destruct Hc; [congruence|]. lia.
Qed.

Lemma table_wf_part ls i l x :
  table_wf ls -> ls !! i = Some l -> lock_wf x -> part_of x l ->
  table_wf (<[i := x]> ls).
Proof.
  intros Hwf Hi Hx Hp. apply table_wf_insert; [done..|].
  intros j l' Hne Hj. eapply apart_part; try done; [by eapply Hwf|].
  eapply Hwf; [|done|done]. done.
Qed.

Lemma lock_wf_unused l : used l = false -> lock_wf l.
Proof. intros H Hu. congruence. Qed.
Lemma apart_unused l l' : used l = false -> apart l l'.
Proof. intros H Hu. congruence. Qed.

(** ** Carving a range out of an owner's locks *)

Section carve.
Context (k p o s e : Z).
Hypothesis Hse : 0 <= s <= e /\ e <= TO_EOF.

Let O := owner p o.

(** The tests of the loop, as propositions. *)
Definition in_way (l : reclock) : Prop := mine k O l /\ start l <= e /\ s <= end_ l.
Definition straddles (l : reclock) : Prop := mine k O l /\ start l < s /\ e < end_ l.

Lemma carve_test l :
  negb (used l) || negb (key l =? k) || negb (same_owner l p o) || negb (overlaps l s e) = false
  <-> in_way l.
Proof using Type.
  clear Hse. unfold in_way, mine, O, overlaps.
  rewrite !orb_false_iff, !negb_false_iff, andb_true_iff, same_owner_iff, Z.eqb_eq, !Z.leb_le.
  intuition.
Qed.

Lemma splits_test l :
  used l && (key l =? k) && same_owner l p o && (start l <? s) && (e <? end_ l) = true
  <-> straddles l.
Proof using Type.
  clear Hse. unfold straddles, mine, O.
  rewrite !andb_true_iff, same_owner_iff, Z.eqb_eq, !Z.ltb_lt. intuition.
Qed.

(** The loop's invariant at index [i]; [need] slots are to be left over. *)
Record carving (ls0 : list reclock) (need : nat) (i : nat) (ls : list reclock) : Prop := {
  cv_wf : table_wf ls;
  cv_done : forall j l, (j < i)%nat -> ls !! j = Some l -> ~ in_way l;
  cv_outside : forall k' o' b t, ~ (k' = k /\ o' = O /\ s <= b <= e) ->
    holds ls k' o' b t <-> holds ls0 k' o' b t;
  cv_room : (need <= free_slots ls)%nat;
  cv_split : (exists j l, (i <= j)%nat /\ ls !! j = Some l /\ straddles l) ->
    (S need <= free_slots ls)%nat;
}.

Lemma straddles_in_way l : straddles l -> in_way l.
Proof using Hse. unfold straddles, in_way. intuition lia. Qed.

(** Only one entry can be in the way if one straddles the whole range. *)
Lemma straddles_unique ls i j l l' :
  table_wf ls -> ls !! i = Some l -> ls !! j = Some l' ->
  straddles l -> in_way l' -> i = j.
Proof using Hse.
  intros Hwf Hi Hj [(U & K & W) H1] [(U' & K' & W') H2].
  destruct (decide (i = j)) as [|Hne]; [done|].
  destruct (tw_apart ls Hwf i j l l' Hne Hi Hj) as [Hd _]; try done; [congruence..|].
  specialize (tw_lock ls Hwf _ _ Hj U'). lia.
Qed.

Lemma holds_part ls i l x k' o' b t :
  ls !! i = Some l -> part_of x l ->
  (used l = true -> forall b, start l <= b <= end_ l -> ~ (s <= b <= e) ->
     used x = true /\ start x <= b <= end_ x) ->
  mine k O l -> ~ (k' = k /\ o' = O /\ s <= b <= e) ->
  holds (<[i := x]> ls) k' o' b t <-> holds ls k' o' b t.
Proof using Type.
  clear Hse. intros Hi (Hk & Ho & Ht & Hin) Hout (Hu & Hlk & Hlo) Hnot.
  rewrite (holds_insert ls i l x) by done. rewrite (holds_at ls i l) by done.
  unfold mine, at_byte. split; (intros [((A1 & A2 & A3) & A4 & A5)|A]; [left|by right]).
  - destruct (Hin A1) as (B1 & B2 & B3). split_and!; (congruence || lia).
  - assert (~ (s <= b <= e)) by (intros ?; apply Hnot; split_and!; (congruence || lia)).
    destruct (Hout A1 b A4) as (B1 & B2); [done|]. split_and!; (congruence || lia).
Qed.

Lemma free_slots_insert ls i l x :
  ls !! i = Some l -> used l = true ->
  free_slots (<[i := x]> ls) = (free_slots ls + (if used x then 0 else 1))%nat.
Proof using Type.
  clear Hse. intros Hi Hu. pose proof (count_if_insert (fun l => negb (used l)) ls i l x Hi) as H.
  cbv beta in H. unfold free_slots. rewrite Hu in H. simpl in H. destruct (used x); simpl in *; lia.
Qed.

(** One entry replaced by what is left of it outside the range. *)
Lemma carving_trim ls0 need i ls l x :
  carving ls0 need i ls -> ls !! i = Some l -> in_way l -> ~ straddles l ->
  part_of x l -> lock_wf x -> ~ in_way x ->
  (forall b, start l <= b <= end_ l -> ~ (s <= b <= e) ->
     used x = true /\ start x <= b <= end_ x) ->
  carving ls0 need (S i) (<[i := x]> ls).
Proof using Type.
  clear Hse. intros [Hwf Hdone Hout Hroom Hsplit] Hi [Hm Hov] Hns Hp Hx Hnx Hcov.
  pose proof Hm as (Hu & _).
  assert (Hfree : (free_slots ls <= free_slots (<[i := x]> ls))%nat)
    by (rewrite (free_slots_insert ls i l x) by done; lia).
  constructor.
  - by eapply table_wf_part.
  - intros j l' Hj [(<- & <- & _)|(Hne & Hl)]%list_lookup_insert_Some; [done|].
    apply (Hdone j); [lia|done].
  - intros k' o' b t Hn. rewrite <- Hout by done. by apply (holds_part ls i l x).
  - lia.
  - intros (j & l' & Hj & Hl & Hst).
    rewrite list_lookup_insert_ne in Hl by lia.
    assert (S need <= free_slots ls)%nat; [|lia].
    apply Hsplit. exists j, l'. split_and!; [lia|done..].
Qed.

Lemma carving_skip ls0 need i ls :
  carving ls0 need i ls -> (forall l, ls !! i = Some l -> ~ in_way l) ->
  carving ls0 need (S i) ls.
Proof using Type.
  clear Hse. intros [Hwf Hdone Hout Hroom Hsplit] Hn. constructor; try done.
  - intros j l Hj Hl. destruct (decide (j = i)) as [->|]; [by apply Hn|].
    apply (Hdone j); [lia|done].
  - intros (j & l & Hj & Hl & Hst). apply Hsplit. exists j, l. split_and!; [lia|done..].
Qed.

(** One entry that straddles the range becomes two. *)
Lemma carving_split ls0 need i ls l r :
  carving ls0 need i ls -> ls !! i = Some l -> straddles l -> slot ls = Some r ->
  carving ls0 need (S i) (<[i := set_end (s - 1) l]> (<[r := set_start (e + 1) l]> ls)).
Proof using Hse.
  intros [Hwf Hdone Hout Hroom Hsplit] Hi Hst Hr.
  pose proof Hst as ((Hu & Hk & Ho) & Hls & Hle).
  pose proof (tw_lock ls Hwf i l Hi Hu) as (W1 & W2 & W3).
  assert (Hfree : (S need <= free_slots ls)%nat) by (apply Hsplit; exists i, l; done).
  apply find_idx_Some in Hr as [(y & Hy & Hyu) _]. apply negb_true_iff in Hyu.
  assert (Hne : i <> r) by (intros ->; congruence).
  set (l1 := set_end (s - 1) l). set (x := set_start (e + 1) l).
  rewrite list_insert_insert_ne by done.
  assert (Hp1 : part_of l1 l) by (split_and!; try done; intros _; split_and!; simpl; (done || lia)).
  assert (Hpx : part_of x l) by (split_and!; try done; intros _; split_and!; simpl; (done || lia)).
  assert (Hw1 : lock_wf l1) by (intros _; simpl; lia).
  assert (Hwx : lock_wf x) by (intros _; simpl; lia).
  assert (Hn1 : ~ in_way l1) by (intros (_ & ? & ?); simpl in *; lia).
  assert (Hnx : ~ in_way x) by (intros (_ & ? & ?); simpl in *; lia).
  set (ls1 := <[i := l1]> ls).
  assert (Hwf1 : table_wf ls1) by (by eapply table_wf_part).
  assert (Hy1 : ls1 !! r = Some y) by (unfold ls1; by rewrite list_lookup_insert_ne).
  constructor.
  - apply table_wf_insert; [done..|]. intros j l' Hj Hl.
    apply list_lookup_insert_Some in Hl as [(<- & <- & _)|(Hji & Hl)].
    + intros _ _ _ _. simpl. lia.
    + apply (apart_part x l l'); try done; [by eapply Hwf|].
      apply (tw_apart ls Hwf i j); done.
  - intros j l' Hj Hl.
    apply list_lookup_insert_Some in Hl as [(<- & <- & _)|(Hjr & Hl)]; [done|].
    apply list_lookup_insert_Some in Hl as [(<- & <- & _)|(Hji & Hl)]; [done|].
    apply (Hdone j); [lia|done].
  - intros k' o' b t Hn. rewrite <- Hout by done.
    rewrite (holds_insert ls1 r y x) by done.
    assert (Hb : holds_but r ls1 k' o' b t <-> holds ls1 k' o' b t).
    { rewrite (holds_at ls1 r y) by done. split; [by right|].
      intros [((? & _) & _)|?]; [congruence|done]. }
    rewrite Hb. unfold ls1. rewrite (holds_insert ls i l l1), (holds_at ls i l) by done.
    unfold mine, at_byte, owner_of in *. simpl in *.
    assert (key l = k' -> owner (pid l) (ofd l) = o' -> ~ (s <= b <= e)).
    { intros ?? ?. apply Hn. split_and!; (congruence || lia). }
    split.
    + intros [((A1 & A2 & A3) & A4 & A5)|[((A1 & A2 & A3) & A4 & A5)|A]]; [left|left|by right];
        split_and!; (done || lia).
    + intros [((A1 & A2 & A3) & A4 & A5)|A]; [|by right; right].
      assert (~ (s <= b <= e)) by auto.
      destruct (decide (b < s)); [right; left|left]; split_and!; (done || lia).
  - pose proof (count_if_insert (fun l => negb (used l)) ls1 r y x Hy1) as Hc.
    cbv beta in Hc. rewrite Hyu in Hc. simpl in Hc. rewrite Hu in Hc. simpl in Hc.
    pose proof (free_slots_insert ls i l l1 Hi Hu) as Hc1. simpl in Hc1. rewrite Hu in Hc1.
    unfold free_slots, ls1 in *. lia.
  - intros (j & l' & Hj & Hl & Hst'). exfalso.
    apply list_lookup_insert_Some in Hl as [(<- & <- & _)|(Hjr & Hl)].
    { by apply Hnx, straddles_in_way. }
    unfold ls1 in Hl. rewrite list_lookup_insert_ne in Hl by lia.
    pose proof (straddles_unique ls i j l l' Hwf Hi Hl Hst (straddles_in_way _ Hst')). lia.
Qed.

Lemma carving_step ls0 need i ls :
  carving ls0 need i ls -> (i < RECLOCK_MAX)%nat ->
  exists ls', carve_body k p o s e i ls = Some ls' /\ carving ls0 need (S i) ls'.
Proof using Hse.
  intros Hc Hi. pose proof Hc as [Hwf _ _ _ Hsplit]. unfold carve_body.
  destruct (ls !! i) as [l|] eqn:El.
  2:{ exists ls. split; [done|]. apply carving_skip; [done|]. congruence. }
  destruct (negb (used l) || _ || _ || _) eqn:Et.
  { exists ls. split; [done|]. apply carving_skip; [done|]. intros l' Hl' Hw.
    simplify_eq. apply carve_test in Hw. congruence. }
  apply carve_test in Et. pose proof Et as ((Hu & Hk & Ho) & Hov1 & Hov2).
  pose proof (tw_lock ls Hwf i l El Hu) as (W1 & W2 & W3).
  destruct (Z.ltb_spec (start l) s) as [Hs|Hs], (Z.ltb_spec e (end_ l)) as [He|He]; cbn [andb].
  - assert (Hst : straddles l) by (by split_and!).
    destruct (slot ls) as [r|] eqn:Er.
    + eexists. split; [done|]. rewrite !u32_small by (unfold TO_EOF in *; lia).
      by apply carving_split.
    + exfalso. assert (S need <= free_slots ls)%nat by (apply Hsplit; by exists i, l).
      unfold slot in Er. rewrite find_idx_None in Er.
      destruct (proj1 (count_if_pos (fun l => negb (used l)) ls)) as (j & y & Hj & Hy).
      { unfold free_slots in *. lia. }
      rewrite (Er j y Hj) in Hy. done.
  - eexists. split; [done|]. rewrite u32_small by (unfold TO_EOF in *; lia).
    eapply carving_trim; try done.
    + intros (_ & ? & ?). lia.
    + split_and!; try done. intros _. split_and!; simpl; (done || lia).
    + intros _. simpl. lia.
    + intros (_ & ? & ?). simpl in *. lia.
    + intros b Hb Hnb. simpl. split; [done|lia].
  - eexists. split; [done|]. rewrite u32_small by (unfold TO_EOF in *; lia).
    eapply carving_trim; try done.
    + intros (_ & ? & ?). lia.
    + split_and!; try done. intros _. split_and!; simpl; (done || lia).
    + intros _. simpl. lia.
    + intros (_ & ? & ?). simpl in *. lia.
    + intros b Hb Hnb. simpl. split; [done|lia].
  - eexists. split; [done|]. eapply carving_trim; try done.
    + intros (_ & ? & ?). lia.
    + by intros ((? & _) & _).
    + intros b Hb Hnb. lia.
Qed.

Lemma carve_spec ls0 need :
  table_wf ls0 ->
  (splits ls0 k p o s e + need <= free_slots ls0)%nat ->
  exists ls, carve k p o s e ls0 = Some ls /\ carving ls0 need RECLOCK_MAX ls.
Proof using Hse.
  intros Hwf Hroom. unfold carve.
  apply (for_upto_ind (fun i st => exists ls, st = Some ls /\ carving ls0 need i ls)).
  - exists ls0. split; [done|]. constructor.
    + done.
    + intros j l Hj. lia.
    + done.
    + lia.
    + intros (j & l & _ & Hl & Hst). apply splits_test in Hst.
      assert (0 < splits ls0 k p o s e)%nat; [|lia].
      apply count_if_pos. by exists j, l.
  - intros i st Hi (ls & -> & Hc). simpl. by apply carving_step.
Qed.
End carve.

(** ** Merging with touching neighbours *)

Section merge.
Context (k p o t s0 e0 : Z) (ls1 : list reclock).
Hypothesis Hse : 0 <= s0 <= e0 /\ e0 <= TO_EOF.

Let O := owner p o.

(** The range still to be entered, beside what the table holds. *)
Definition pending (s e k' : Z) (o' : Z * Z) (b t' : Z) : Prop :=
  k' = k /\ o' = O /\ s <= b <= e /\ t' = t.

Record merging (i : nat) (ls : list reclock) (s e : Z) : Prop := {
  mg_wf : table_wf ls;
  mg_range : 0 <= s <= s0 /\ e0 <= e <= TO_EOF;
  mg_clear : forall j l, ls !! j = Some l -> mine k O l -> end_ l < s \/ e < start l;
  mg_touch : forall j l, (j < i)%nat -> ls !! j = Some l -> mine k O l -> type l = t ->
    end_ l + 1 <> s /\ e + 1 <> start l;
  mg_holds : forall k' o' b t',
    holds ls k' o' b t' \/ pending s e k' o' b t' <->
    holds ls1 k' o' b t' \/ pending s0 e0 k' o' b t';
  mg_room : (1 <= free_slots ls)%nat;
}.

Lemma merge_test l :
  negb (used l) || negb (key l =? k) || negb (same_owner l p o) || negb (type l =? t) = false
  <-> mine k O l /\ type l = t.
Proof using Type.
  clear Hse. unfold mine, O.
  rewrite !orb_false_iff, !negb_false_iff, same_owner_iff, !Z.eqb_eq. intuition.
Qed.

(** An entry taken out of the table and into the range. *)
Lemma merging_absorb i ls s e l s' e' :
  merging i ls s e -> ls !! i = Some l -> mine k O l -> type l = t ->
  (end_ l + 1 = s /\ s' = start l /\ e' = e) \/ (e + 1 = start l /\ s' = s /\ e' = end_ l) ->
  merging (S i) (<[i := set_lused false l]> ls) s' e'.
Proof using Hse.
  intros [Hwf Hr Hcl Hto Hho Hroom] Hi Hm Ht Hcase.
  pose proof Hm as (Hu & Hk & Ho).
  pose proof (tw_lock ls Hwf i l Hi Hu) as (W1 & W2 & _).
  assert (Hother : forall j l', j <> i -> ls !! j = Some l' -> mine k O l' ->
    start l' <= end_ l' /\ (end_ l < start l' \/ end_ l' < start l) /\
    (type l' = t -> end_ l + 1 <> start l' /\ end_ l' + 1 <> start l)).
  { intros j l' Hne Hj (Hu' & Hk' & Ho').
    pose proof (tw_lock ls Hwf j l' Hj Hu') as (? & _ & _).
    assert (Hij : i <> j) by congruence.
    destruct (tw_apart ls Hwf i j l l' Hij Hi Hj Hu Hu') as [D C]; [congruence..|].
    split_and!; [lia|done|]. intros Ht'. apply C. congruence. }
  constructor.
  - by eapply table_wf_part.
  - lia.
  - intros j l' [(<- & <- & _)|(Hne & Hj)]%list_lookup_insert_Some Hm'.
    { destruct Hm' as (? & _). done. }
    destruct (Hother j l' ltac:(done) Hj Hm') as (? & ? & _).
    specialize (Hcl j l' Hj Hm'). lia.
  - intros j l' Hlt [(<- & <- & _)|(Hne & Hj)]%list_lookup_insert_Some Hm' Ht'.
    { destruct Hm' as (? & _). done. }
    destruct (Hother j l' ltac:(done) Hj Hm') as (? & ? & HC).
    destruct (HC Ht'). destruct (Hto j l' ltac:(lia) Hj Hm' Ht'). lia.
  - intros k' o' b t'. rewrite <- Hho. rewrite (holds_insert ls i l) by done.
    rewrite (holds_at ls i l) by done. unfold pending, mine, at_byte, owner_of in *. simpl.
    split.
    + intros [[((? & _) & _)|?]|(-> & -> & ? & ->)]; [done|by left; right|].
      destruct (decide (start l <= b <= end_ l)).
      * left. left. split_and!; (done || lia).
      * right. split_and!; (done || lia).
    + intros [[((_ & <- & <-) & ? & <-)|?]|(-> & -> & ? & ->)]; [right|by left; right|right];
        split_and!; (done || lia).
  - rewrite (free_slots_insert ls i l) by done. simpl. lia.
Qed.

Lemma merging_step i ls s e :
  merging i ls s e -> (i < RECLOCK_MAX)%nat ->
  exists ls' s' e', merge_body k p o t i (ls, s, e) = (ls', s', e') /\ merging (S i) ls' s' e'.
Proof using Hse.
  intros Hm Hi. pose proof Hm as [Hwf Hr Hcl Hto Hho Hroom]. unfold merge_body.
  assert (Hskip : (forall l, ls !! i = Some l -> mine k O l -> type l = t ->
      end_ l + 1 <> s /\ e + 1 <> start l) -> merging (S i) ls s e).
  { intros Hn. constructor; try done. intros j l Hj Hl.
    destruct (decide (j = i)) as [->|]; [by apply Hn|]. apply (Hto j); [lia|done]. }
  destruct (ls !! i) as [l|] eqn:El.
  2:{ exists ls, s, e. split; [done|]. apply Hskip. congruence. }
  destruct (negb (used l) || _ || _ || _) eqn:Et.
  { exists ls, s, e. split; [done|]. apply Hskip. intros l' Hl' Hm' Ht'. simplify_eq.
    rewrite (proj2 (merge_test l') (conj Hm' Ht')) in Et. done. }
  apply merge_test in Et as [Hml Htl]. pose proof Hml as (Hu & _).
  pose proof (tw_lock ls Hwf i l El Hu) as (W1 & W2 & _).
  destruct ((0 <? s) && (end_ l =? u32 (s - 1))) eqn:E1; breflect.
  { rewrite u32_small in * by (unfold TO_EOF in *; lia).
    do 3 eexists. split; [done|]. eapply merging_absorb; try done. left. split_and!; lia. }
  destruct (negb (e =? TO_EOF) && (start l =? u32 (e + 1))) eqn:E2; breflect.
  { rewrite u32_small in * by (unfold TO_EOF in *; lia).
    do 3 eexists. split; [done|]. eapply merging_absorb; try done. right. split_and!; lia. }
  exists ls, s, e. split; [done|]. apply Hskip. intros l' Hl' _ _. simplify_eq. split; intros Heq.
  - destruct E1 as [E1|E1]; breflect; [lia|]. rewrite u32_small in E1 by (unfold TO_EOF in *; lia). lia.
  - destruct E2 as [E2|E2]; breflect; [lia|]. rewrite u32_small in E2 by (unfold TO_EOF in *; lia). lia.
Qed.

Lemma merge_spec :
  merging 0 ls1 s0 e0 ->
  exists ls s e, merge k p o t s0 e0 ls1 = (ls, s, e) /\ merging RECLOCK_MAX ls s e.
Proof using Hse.
  intros H0. unfold merge.
  apply (for_upto_ind (fun i st => exists ls s e, st = (ls, s, e) /\ merging i ls s e)).
  - by exists ls1, s0, e0.
  - intros i st Hi (ls & s & e & -> & Hm). by apply merging_step.
Qed.

(** Entering the merged range in a free slot. *)
Lemma merging_enter ls s e :
  merging RECLOCK_MAX ls s e -> (t = F_RDLCK \/ t = F_WRLCK) ->
  exists n, slot ls = Some n /\
    let ls' := <[n := mk_lock true k (if negb (o =? 0) then 0 else p) o t s e]> ls in
    table_wf ls' /\
    forall k' o' b t', holds ls' k' o' b t' <->
      holds ls1 k' o' b t' \/ pending s0 e0 k' o' b t'.
Proof using Hse.
  intros [Hwf Hr Hcl Hto Hho Hroom] Ht.
  destruct (slot ls) as [n|] eqn:En.
  2:{ exfalso. unfold slot in En. rewrite find_idx_None in En.
      destruct (proj1 (count_if_pos (fun l => negb (used l)) ls)) as (j & y & Hj & Hy).
      { unfold free_slots in *. lia. }
      rewrite (En j y Hj) in Hy. done. }
  exists n. split; [done|]. apply find_idx_Some in En as [(y & Hy & Hyu) _].
  apply negb_true_iff in Hyu. intros ls'. unfold ls'.
  set (x := mk_lock _ _ _ _ _ _ _).
  assert (Hox : owner_of x = O).
  { unfold owner_of, O, owner, x. simpl. by destruct (o =? 0). }
  split.
  - apply table_wf_insert; [done| |].
    + intros _. simpl. lia.
    + intros j l Hne Hj _ Hul Hkl Hol.
      assert (Hml : mine k O l) by (split_and!; [done|by rewrite <- Hkl|congruence]).
      specialize (Hcl j l Hj Hml). split; [simpl; lia|]. intros Htl.
      destruct (Hto j l) as [? ?]; [|done..|].
      * rewrite <- (tw_len ls Hwf). by eapply lookup_lt_Some.
      * simpl. lia.
  - intros k' o' b t'. rewrite <- Hho. rewrite (holds_insert ls n y) by done.
    rewrite (holds_at ls n y) by done. unfold pending, mine, at_byte. simpl.
    rewrite Hox. split.
    + intros [((_ & <- & <-) & ? & <-)|?]; [right|by left; right]. split_and!; (done || lia).
    + intros [[((? & _) & _)|?]|(-> & -> & ? & ->)]; [congruence|by right|left].
      split_and!; (done || lia).
Qed.
End merge.

(** ** set_range *)

(** What the table says after [set_range(key, owner, type, s, e)]. *)
Definition updated (ls : list reclock) (k : Z) (O : Z * Z) (t s e : Z)
    (k' : Z) (o' : Z * Z) (b t' : Z) : Prop :=
  if decide (k' = k /\ o' = O /\ s <= b <= e) then t' = t /\ t <> F_UNLCK
  else holds ls k' o' b t'.

Lemma set_range_spec st k p o t s e :
  table_wf (locks st) -> 0 <= s <= e -> e <= TO_EOF ->
  (t = F_RDLCK \/ t = F_WRLCK \/ t = F_UNLCK) ->
  (set_range st k p o t s e = Some (- ENOLCK, st) /\
   (free_slots (locks st) < splits (locks st) k p o s e + (if (t =? F_UNLCK)%Z then 0 else 1))%nat) \/
  (exists ls, set_range st k p o t s e = Some (0, mk_state ls (waiters st) []) /\ table_wf ls /\
   forall k' o' b t', holds ls k' o' b t' <-> updated (locks st) k (owner p o) t s e k' o' b t').
Proof.
  intros Hwf Hse He Ht. unfold set_range.
  set (need := if t =? F_UNLCK then 0%nat else 1%nat).
  replace (if negb (t =? F_UNLCK) then 1%nat else 0%nat) with need
    by (unfold need; by destruct (t =? F_UNLCK)).
  destruct (Nat.ltb_spec (free_slots (locks st)) (splits (locks st) k p o s e + need)) as [|Hroom];
    [by left|]. right.
  destruct (carve_spec k p o s e (conj Hse He) (locks st) need Hwf Hroom) as (ls1 & -> & Hc).
  destruct Hc as [Hwf1 Hdone Hout Hroom1 _]. cbn [mbind option_bind].
  assert (Hin : forall b t', s <= b <= e -> ~ holds ls1 k (owner p o) b t').
  { intros b t' Hb (j & l & Hj & Hm & Hb' & _). apply (Hdone j l); [|done|].
    - rewrite <- (tw_len ls1 Hwf1). by eapply lookup_lt_Some.
    - split; [done|]. lia. }
  unfold updated. destruct (Z.eqb_spec t F_UNLCK) as [->|Hnu]; cbn [negb mbind option_bind].
  - exists ls1. split_and!; [done..|]. intros k' o' b t'.
    destruct (decide _) as [(-> & -> & Hb)|Hn]; [|by apply Hout].
    split; [intros HH; by destruct (Hin b t' Hb)|]. by intros [_ ?].
  - assert (Htt : t = F_RDLCK \/ t = F_WRLCK) by tauto.
    assert (Hm0 : merging k p o t s e ls1 0 ls1 s e).
    { constructor.
      - done.
      - lia.
      - intros j l Hj Hm. destruct (decide (end_ l < s)); [by left|].
        destruct (decide (e < start l)); [by right|]. exfalso.
        apply (Hdone j l); [|done|split; [done|lia]].
        rewrite <- (tw_len ls1 Hwf1). by eapply lookup_lt_Some.
      - intros; lia.
      - done.
      - unfold need in *. destruct (Z.eqb_spec t F_UNLCK); [done|lia]. }
    destruct (merge_spec k p o t s e ls1 (conj Hse He) Hm0) as (ls & s' & e' & -> & Hm).
    destruct (merging_enter k p o t s e ls1 (conj Hse He) ls s' e' Hm Htt) as (n & -> & Hwf2 & Hh).
    cbn [mbind option_bind]. eexists. split_and!; [done..|]. intros k' o' b t'. rewrite Hh. unfold pending.
    destruct (decide _) as [(-> & -> & Hb)|Hn].
    + split; [intros [HH|(_ & _ & _ & ->)]; [by destruct (Hin b t' Hb)|done]|].
      intros [-> _]. right. split_and!; (done || lia).
    + rewrite <- Hout by done. split; [intros [?|(-> & -> & ? & _)]; [done|tauto]|by left].
Qed.

(** ** Mutual exclusion *)

Definition exclusive (ls : list reclock) : Prop :=
  forall k o1 o2 b t1 t2, o1 <> o2 -> holds ls k o1 b t1 -> holds ls k o2 b t2 ->
  t1 = F_RDLCK /\ t2 = F_RDLCK.

Definition lock_inv (st : state) : Prop := table_wf (locks st) /\ exclusive (locks st).

Lemma holds_type ls k o b t :
  table_wf ls -> holds ls k o b t -> t = F_RDLCK \/ t = F_WRLCK.
Proof.
  intros Hwf (i & l & Hi & (Hu & _) & _ & <-). by apply (tw_lock ls Hwf i l Hi Hu).
Qed.

(** No conflict: whatever another owner holds in the range, both are reads. *)
Lemma conflict_None ls k p o t s e o' b t' :
  conflict ls k p o t s e = None -> table_wf ls -> (t = F_RDLCK \/ t = F_WRLCK) ->
  o' <> owner p o -> s <= b <= e -> holds ls k o' b t' -> t = F_RDLCK /\ t' = F_RDLCK.
Proof.
  intros Hc Hwf Ht Hne Hb (i & l & Hi & (Hu & Hk & Ho) & Hlb & <-).
  unfold conflict in Hc. rewrite find_idx_None in Hc. specialize (Hc i l Hi).
  pose proof (tw_lock ls Hwf i l Hi Hu) as (_ & _ & Hty).
  assert (Hso : same_owner l p o = false).
  { destruct (same_owner l p o) eqn:E; [|done]. apply same_owner_iff in E. congruence. }
  rewrite Hu, Hk, Hso, Z.eqb_refl in Hc. simpl in Hc. unfold overlaps in Hc.
  rewrite (proj2 (Z.leb_le (start l) e)), (proj2 (Z.leb_le s (end_ l))) in Hc by lia.
  simpl in Hc. apply orb_false_iff in Hc as [E1 E2]. breflect. tauto.
Qed.

Lemma set_range_inv st k p o t s e r st' :
  lock_inv st -> 0 <= s <= e -> e <= TO_EOF ->
  (t = F_RDLCK \/ t = F_WRLCK \/ t = F_UNLCK) ->
  (t <> F_UNLCK -> conflict (locks st) k p o t s e = None) ->
  set_range st k p o t s e = Some (r, st') -> lock_inv st'.
Proof.
  intros [Hwf Hex] Hse He Ht Hc Heq.
  destruct (set_range_spec st k p o t s e Hwf Hse He Ht) as [[E _]|(ls & E & Hwf' & Hh)];
    rewrite E in Heq; simplify_eq; [done|]. split; [done|]. simpl.
  intros k' o1 o2 b t1 t2 Hne H1 H2. apply Hh in H1, H2. unfold updated in H1, H2.
  destruct (decide (k' = k /\ o1 = owner p o /\ s <= b <= e)) as [(Ek1 & Eo1 & Hb)|N1],
    (decide (k' = k /\ o2 = owner p o /\ s <= b <= e)) as [(Ek2 & Eo2 & Hb2)|N2]; try (subst; done).
  - destruct H1 as [-> Hnu]. subst k' o1.
    destruct (conflict_None (locks st) k p o t s e o2 b t2); try done; [by apply Hc|tauto].
  - destruct H2 as [-> Hnu]. subst k' o2.
    destruct (conflict_None (locks st) k p o t s e o1 b t1); try done; [by apply Hc|tauto].
  - by eapply Hex.
Qed.

Lemma set_range_total st k p o t s e :
  lock_inv st -> 0 <= s <= e -> e <= TO_EOF ->
  (t = F_RDLCK \/ t = F_WRLCK \/ t = F_UNLCK) ->
  is_Some (set_range st k p o t s e).
Proof.
  intros [Hwf _] Hse He Ht.
  destruct (set_range_spec st k p o t s e Hwf Hse He Ht) as [[-> _]|(ls & -> & _)]; by eexists.
Qed.

(** *** The acquiring loop *)

Definition lk_valid (k : lk) : Prop :=
  k_type k = F_RDLCK \/ k_type k = F_WRLCK \/ k_type k = F_UNLCK.

Lemma setlk_turn_inv st p o k ky s e blocking sig :
  lock_inv st -> lk_valid k -> 0 <= s <= e -> e <= TO_EOF ->
  match setlk_turn st p o k ky s e blocking sig with
  | None => False
  | Some (inl (_, st')) => lock_inv st'
  | Some (inr st') => lock_inv st'
  end.
Proof.
  intros Hinv Hk Hse He. unfold setlk_turn.
  destruct (if k_type k =? F_UNLCK then None else _) as [i|] eqn:Ec.
  - destruct (k_type k =? F_UNLCK); [done|].
    destruct (locks st !! i) as [c|] eqn:Ei.
    + simpl. destruct (negb blocking); [done|]. destruct (_ && would_deadlock _ _ _); [done|].
      by destruct sig.
    + apply find_idx_lt in Ec. apply lookup_ge_None in Ei. lia.
  - set (st1 := mk_state _ _ _).
    assert (Hinv1 : lock_inv st1) by done.
    destruct (set_range_total st1 ky p o (k_type k) s e Hinv1 Hse He Hk) as [[r st'] E].
    rewrite E. simpl. eapply set_range_inv; try done.
    intros Hnu. simpl. destruct (Z.eqb_spec (k_type k) F_UNLCK); done.
Qed.

Section user.
Context {U : Type} `{UserMemory U}.

Definition result_inv (r : outcome (U := U)) : Prop :=
  match r with
  | Ret _ st _ => lock_inv st
  | Asleep st _ => lock_inv st
  | Fault => False
  end.

Definition polite (env : list (bool * (state -> state))) : Prop :=
  Forall (fun x => forall st, lock_inv st -> lock_inv (snd x st)) env.

Lemma setlk_loop_inv env st (u : U) p o k ky s e blocking :
  polite env -> lock_inv st -> lk_valid k -> 0 <= s <= e -> e <= TO_EOF ->
  result_inv (setlk_loop env st u p o k ky s e blocking).
Proof using Type.
  intros Henv. revert st. induction Henv as [|[sig others] env Ho _ IH]; intros st Hinv Hk Hse He;
    simpl; [done|].
  pose proof (setlk_turn_inv st p o k ky s e blocking sig Hinv Hk Hse He) as Ht.
  destruct (setlk_turn _ _ _ _ _ _ _ _ _) as [[[r st']|st']|]; [done| |done].
  apply IH; try done. by apply Ho.
Qed.
End user.

(** *** Letting go *)

Lemma drop_holds by_key k p o st k' o' b t :
  holds (locks (drop by_key k p o st)) k' o' b t -> holds (locks st) k' o' b t.
Proof.
  intros (i & l & Hi & Hm & Hb). simpl in Hi. rewrite list_lookup_fmap in Hi.
  destruct (locks st !! i) as [l0|] eqn:E; simpl in Hi; [|done].
  destruct (dropped by_key k p o l0); simplify_eq.
  - by destruct Hm as [? _].
  - by exists i, l.
Qed.

Lemma drop_inv by_key k p o st : lock_inv st -> lock_inv (drop by_key k p o st).
Proof.
  intros [[Hlen Hlk Hap] Hex]. split.
  - assert (Hsub : forall i l, locks (drop by_key k p o st) !! i = Some l ->
      used l = false \/ locks st !! i = Some l).
    { intros i l Hi. simpl in Hi. rewrite list_lookup_fmap in Hi.
      destruct (locks st !! i) as [l0|] eqn:E; simpl in Hi; [|done].
      destruct (dropped by_key k p o l0); simplify_eq; [by left|by right]. }
    constructor.
    + simpl. by rewrite length_fmap.
    + intros i l Hi Hu. destruct (Hsub i l Hi); [congruence|]. by apply (Hlk i).
    + intros i j l l' Hne Hi Hj Hu Hu'.
      destruct (Hsub i l Hi), (Hsub j l' Hj); try congruence. by apply (Hap i j).
  - intros k' o1 o2 b t1 t2 Hne H1%drop_holds H2%drop_holds. by eapply Hex.
Qed.

Lemma closed_inv fkey p st : lock_inv st -> lock_inv (reclock_closed fkey p st).
Proof. intros. unfold reclock_closed. destruct (existsb _ _); [by apply drop_inv|done]. Qed.
Lemma file_gone_inv f st : lock_inv st -> lock_inv (reclock_file_gone f st).
Proof. intros. unfold reclock_file_gone. destruct (existsb _ _); [by apply drop_inv|done]. Qed.
Lemma exit_inv p st : lock_inv st -> lock_inv (reclock_exit p st).
Proof. intros. apply (drop_inv false 0 p 0 st). done. Qed.

(** ** The range a struct flock names *)

(** POSIX's reading of a base, an offset and a length, on integers: the
    bytes [lo, hi] of a file of at most 2^32 bytes. *)
Definition flock_range (base off len : Z) : Z + Z * Z :=
  let a := base + off in
  if a <? 0 then inl (- EINVAL)
  else if TO_EOF <? a then inl (- EOVERFLOW)
  else if len =? 0 then inr (a, TO_EOF)
  else if 0 <? len then inr (a, Z.min TO_EOF (a + len - 1))
  else if a + len <? 0 then inl (- EINVAL)
  else inr (a + len, a - 1).

Definition base_of (f : file) (whence : Z) : option Z :=
  if whence =? SEEK_SET then Some 0
  else if whence =? SEEK_CUR then Some (f_pos f)
  else if whence =? SEEK_END then f_size f
  else None.

Definition file_wf (f : file) : Prop :=
  0 <= f_pos f <= TO_EOF /\ forall n, f_size f = Some n -> 0 <= n <= TO_EOF.

Lemma base_of_bound f w b : file_wf f -> base_of f w = Some b -> 0 <= b <= TO_EOF.
Proof.
  intros [Hp Hs]. unfold base_of.
  intros Hb. repeat zcase_in Hb; simplify_eq; auto. unfold TO_EOF. lia.
Qed.

(** The 64-bit values the words of a [struct lk] stand for. *)
Definition lk_off (k : lk) : Z := start_hi k * 4294967296 + k_start k.
Definition lk_len (k : lk) : Z := len_hi k * 4294967296 + k_len k.

Record lk_wf (k : lk) : Prop := {
  lw_start : 0 <= k_start k < 4294967296;
  lw_len : 0 <= k_len k < 4294967296;
  lw_start_hi : -2147483648 <= start_hi k < 2147483648;
  lw_len_hi : -2147483648 <= len_hi k < 2147483648;
}.

Lemma u32_neg_s32 x : 0 < x < 4294967296 -> u32 (- s32 x) = 4294967296 - x.
Proof.
  intros. unfold s32. rewrite (u32_small x) by lia. cbv zeta. zcase.
  - unfold u32. symmetry. apply (Z.mod_unique_pos _ _ (-1)); lia.
  - rewrite u32_small; lia.
Qed.

(** [range_of]'s two-word arithmetic computes exactly [flock_range], for
    every offset and length but the length -2^32. *)
Lemma range_of_eq f k b :
  file_wf f -> lk_wf k -> base_of f (k_whence k) = Some b ->
  b + lk_off k < 9223372036854775808 -> lk_len k <> -4294967296 ->
  range_of f k = flock_range b (lk_off k) (lk_len k).
Proof.
  intros Hf [Hst Hlen Hsh Hlh] Hb Hov Hbad. pose proof (base_of_bound f _ _ Hf Hb) as Hbb.
  unfold range_of. fold (base_of f (k_whence k)). rewrite Hb. unfold flock_range.
  unfold lk_off, lk_len, TO_EOF in *.
  pose proof (u32_wrap_add b (k_start k) ltac:(lia) Hst) as Hw.
  pose proof (u32_bound (b + k_start k)).
  set (a := u32 (b + k_start k)) in *.
  rewrite s32_small by (destruct (a <? b); lia).
  set (c := if a <? b then 1 else 0).
  assert (Hb' : b + (start_hi k * 4294967296 + k_start k) = a + (start_hi k + c) * 4294967296)
    by (unfold c; destruct (a <? b); lia).
  rewrite Hb'. clear Hw Hb'. clearbody a c. generalize (start_hi k + c). intros h.
  destruct (Z.ltb_spec h 0); [by rewrite (proj2 (Z.ltb_lt _ 0)) by lia|].
  rewrite (proj2 (Z.ltb_ge _ 0)) by lia.
  destruct (Z.ltb_spec 0 h); [by rewrite (proj2 (Z.ltb_lt 4294967295 _)) by lia|].
  replace h with 0 by lia. rewrite Z.mul_0_l, Z.add_0_r.
  rewrite (proj2 (Z.ltb_ge 4294967295 a)) by lia.
  remember (len_hi k * 4294967296 + k_len k) as L eqn:HL.
  destruct (Z.eqb_spec L 0) as [E0|E0].
  { by rewrite (proj2 (Z.eqb_eq (len_hi k) 0)), (proj2 (Z.eqb_eq (k_len k) 0)) by lia. }
  replace ((len_hi k =? 0) && (k_len k =? 0)) with false by (repeat zcase; simpl; lia).
  destruct (Z.ltb_spec 0 L).
  - rewrite (proj2 (Z.leb_le 0 (len_hi k))) by lia.
    destruct (Z.ltb_spec 0 (len_hi k)); simpl; [repeat f_equal; lia|].
    pose proof (u32_wrap_add a (k_len k - 1) ltac:(lia) ltac:(lia)) as Hw.
    replace (a + k_len k - 1) with (a + (k_len k - 1)) by lia.
    pose proof (u32_bound (a + (k_len k - 1))).
    destruct (u32 (a + (k_len k - 1)) <? a); repeat f_equal; lia.
  - rewrite (proj2 (Z.leb_gt 0 (len_hi k))) by lia.
    destruct (Z.eqb_spec (len_hi k) (-1)) as [E1|E1]; simpl;
      [|by rewrite (proj2 (Z.ltb_lt _ 0)) by lia].
    rewrite u32_neg_s32 by lia.
    destruct (Z.ltb_spec a (4294967296 - k_len k));
      [by rewrite (proj2 (Z.ltb_lt _ 0)) by lia|].
    rewrite (proj2 (Z.ltb_ge _ 0)) by lia. rewrite !u32_small by lia.
    repeat f_equal; lia.
Qed.

Lemma range_of_no_base f k : base_of f (k_whence k) = None -> range_of f k = inl (- EINVAL).
Proof. intros E. unfold range_of. fold (base_of f (k_whence k)). by rewrite E. Qed.

(** Whatever the offset, the range is not empty and ends within the file
    space. *)
Lemma range_of_bounds f k s e :
  file_wf f -> lk_wf k -> lk_len k <> -4294967296 ->
  range_of f k = inr (s, e) -> 0 <= s <= e /\ e <= TO_EOF.
Proof.
  intros Hf Hk Hbad Hr. destruct (base_of f (k_whence k)) as [b|] eqn:Eb;
    [|by rewrite (range_of_no_base f k Eb) in Hr].
  destruct (Z.lt_ge_cases (b + lk_off k) 9223372036854775808) as [|Hbig].
  - rewrite (range_of_eq f k b) in Hr by done. unfold flock_range, TO_EOF in *.
    repeat zcase_in Hr; simplify_eq; lia.
  - pose proof (base_of_bound f _ _ Hf Eb) as Hbb. destruct Hk as [Hs ? Hsh ?].
    unfold lk_off, TO_EOF in *.
    pose proof (u32_wrap_add b (k_start k) ltac:(lia) Hs) as Hw.
    pose proof (u32_bound (b + k_start k)).
    unfold range_of in Hr. fold (base_of f (k_whence k)) in Hr. rewrite Eb in Hr.
    destruct (_ <? b) eqn:E; [|lia]. replace (start_hi k) with 2147483647 in Hr by lia. done.
Qed.

(** ** fcntl's lock commands *)

Section user.
Context {U : Type} `{UserMemory U}.

(** The bytes of a struct flock or a struct flock64. *)
Definition flock_bytes (wide : bool) (t w off len p : Z) : list Z :=
  let n := if wide then 8%nat else 4%nat in
  be_bytes 2 t ++ be_bytes 2 w ++ be_bytes n off ++ be_bytes n len ++ be_bytes 4 p.

Lemma fetch_lk_wf (u : U) ua w k : fetch_lk u ua w = inr k -> lk_wf k.
Proof using Type.
  unfold fetch_lk. destruct w; destruct (u_fetch _ _ _) as [bs|]; intros ?; simplify_eq.
  - constructor; cbn [k_start k_len start_hi len_hi];
      auto using u32_bound; apply s32_bound.
  - constructor; cbn [k_start k_len start_hi len_hi]; auto using u32_bound; zcase; lia.
Qed.

Lemma split64 x : -9223372036854775808 <= x < 9223372036854775808 ->
  s32 (Z.shiftr (u64 x) 32) * 4294967296 + u32 x = x.
Proof using Type.
  intros Hx. rewrite Z.shiftr_div_pow2 by lia. change (2 ^ 32) with 4294967296.
  unfold s32, u32, u64. rewrite (Z.mod_small (_ / 4294967296)) by
    (split; [apply Z.div_pos; [apply Z.mod_pos_bound|]|apply Z.div_lt_upper_bound;
      [|pose proof (Z.mod_pos_bound x 18446744073709551616)]]; lia).
  assert (E : x mod 4294967296 = (x mod 18446744073709551616) mod 4294967296).
  { rewrite (Z.div_mod x 18446744073709551616) at 1 by lia.
    change 18446744073709551616 with (4294967296 * 4294967296) at 1.
    rewrite <- Z.mul_assoc, Z.add_comm, Z.mul_comm, Z.mod_add by lia. done. }
  rewrite E.
  assert (D := Z.div_mod (x mod 18446744073709551616) 4294967296).
  destruct (Z.lt_ge_cases x 0).
  - assert (Hm : x mod 18446744073709551616 = x + 18446744073709551616)
      by (symmetry; apply (Z.mod_unique_pos _ _ (-1)); lia).
    rewrite Hm in *. rewrite (proj2 (Z.ltb_ge _ 2147483648)); [lia|].
    apply Z.div_le_lower_bound; lia.
  - rewrite (Z.mod_small x) in * by lia. rewrite (proj2 (Z.ltb_lt _ 2147483648)); [lia|].
    apply Z.div_lt_upper_bound; lia.
Qed.

Lemma split32 x : -2147483648 <= x < 2147483648 ->
  (if x <? 0 then -1 else 0) * 4294967296 + u32 x = x.
Proof using Type.
  intros Hx. unfold u32. zcase.
  - rewrite <- (Z.mod_unique_pos x 4294967296 (-1) (x + 4294967296)) by lia. lia.
  - rewrite Z.mod_small by lia. lia.
Qed.

Lemma signed_mod n x : 0 < n -> - 2 ^ (n - 1) <= x < 2 ^ (n - 1) -> signed n (x mod 2 ^ n) = x.
Proof using Type.
  intros Hn Hx. assert (E : 2 ^ n = 2 * 2 ^ (n - 1)).
  { rewrite <- Z.pow_succ_r by lia. f_equal. lia. }
  unfold signed. destruct (Z.lt_ge_cases x 0).
  - assert (Hm : x mod 2 ^ n = x + 2 ^ n) by (symmetry; apply (Z.mod_unique_pos _ _ (-1)); lia).
    rewrite Hm. zcase; lia.
  - rewrite Z.mod_small by lia. zcase; lia.
Qed.

(** Reading a flock's bytes recovers its fields. *)
Lemma fetch_lk_bytes (u : U) ua (wide : bool) t w off len p :
  let n := if wide then 64 else 32 in
  u_fetch u ua (if wide then 24 else 16)%nat = Some (flock_bytes wide t w off len p) ->
  - 32768 <= t < 32768 -> - 32768 <= w < 32768 -> - 2147483648 <= p < 2147483648 ->
  - 2 ^ (n - 1) <= off < 2 ^ (n - 1) -> - 2 ^ (n - 1) <= len < 2 ^ (n - 1) ->
  exists k, fetch_lk u ua wide = inr k /\ k_type k = t /\ k_whence k = w /\ k_pid k = p /\
    lk_off k = off /\ lk_len k = len.
Proof using Type.
  intros n Hf Ht Hw Hp Ho Hl. unfold fetch_lk.
  assert (Ht' : signed 16 (be (be_bytes 2 t)) = t)
    by (rewrite be_be_bytes; apply (signed_mod 16); lia).
  assert (Hw' : signed 16 (be (be_bytes 2 w)) = w)
    by (rewrite be_be_bytes; apply (signed_mod 16); lia).
  assert (Hp' : signed 32 (be (be_bytes 4 p)) = p)
    by (rewrite be_be_bytes; apply (signed_mod 32); lia).
  destruct wide; rewrite Hf; unfold flock_bytes, n in *.
  - assert (Ho' : signed 64 (be (be_bytes 8 off)) = off)
      by (rewrite be_be_bytes; apply (signed_mod 64); lia).
    assert (Hl' : signed 64 (be (be_bytes 8 len)) = len)
      by (rewrite be_be_bytes; apply (signed_mod 64); lia).
    eexists; split; [reflexivity|]. unfold lk_off, lk_len.
    cbn -[Z.mul Z.add be signed s32 u32 u64 u8 Z.shiftr] in *. rewrite Ht', Hw', Hp', Ho', Hl'.
    rewrite !split64 by lia. done.
  - assert (Ho' : signed 32 (be (be_bytes 4 off)) = off)
      by (rewrite be_be_bytes; apply (signed_mod 32); lia).
    assert (Hl' : signed 32 (be (be_bytes 4 len)) = len)
      by (rewrite be_be_bytes; apply (signed_mod 32); lia).
    eexists; split; [reflexivity|]. unfold lk_off, lk_len.
    cbn -[Z.mul Z.add be signed s32 u32 u64 u8 Z.shiftr] in *. rewrite Ht', Hw', Hp', Ho', Hl'.
    split_and!; try done; apply split32; lia.
Qed.

Lemma reclock_fcntl_inv env st (u : U) tgid fo cmd uarg wide :
  polite env -> lock_inv st -> (forall f, fo = Some f -> file_wf f) ->
  (forall w k, fetch_lk u uarg w = inr k -> lk_len k <> -4294967296) ->
  result_inv (reclock_fcntl env st u tgid fo cmd uarg wide).
Proof using Type.
  intros Henv Hinv Hf Hlen. unfold reclock_fcntl. destruct fo as [f|]; [|done].
  destruct (decode cmd wide) as [[[[w getting] blocking] by_ofd]|]; [|done].
  destruct (fetch_lk u uarg w) as [err|k] eqn:Ek; [done|].
  destruct (_ && negb (k_type k =? F_UNLCK)) eqn:Et; [done|].
  destruct (by_ofd && _); [done|].
  destruct (range_of f k) as [err|[s e]] eqn:Er; [done|].
  destruct (range_of_bounds f k s e (Hf _ eq_refl) (fetch_lk_wf u uarg w k Ek) (Hlen w k Ek) Er).
  destruct getting.
  - destruct (k_type k =? F_UNLCK); [done|].
    destruct (conflict _ _ _ _ _ _ _) as [i|] eqn:Ec; [|by destruct (store_lk _ _ _ _ _ _ _)].
    destruct (locks st !! i) eqn:Ei; [by destruct (store_lk _ _ _ _ _ _ _)|].
    apply find_idx_lt in Ec. apply lookup_ge_None in Ei. lia.
  - destruct (_ || _); [done|]. apply setlk_loop_inv; try done.
    unfold lk_valid. repeat zcase_in Et; try done; auto.
Qed.

(** What F_GETLK reports, read back, is the range it found. *)
Lemma store_lk_bytes (u : U) ua wide t s e p :
  store_lk u ua wide t s e p =
  u_store u ua (flock_bytes wide t SEEK_SET s (if e =? TO_EOF then 0 else u32 (e - s + 1)) p).
Proof using Type. by destruct wide. Qed.
End user.

(** ** The waits-for table *)

Record waiters_wf (ws : list waiter) : Prop := {
  ww_len : length ws = WAITER_MAX;
  ww_free : forall i w, ws !! i = Some w -> w_pid w = 0 -> blocker w = 0;
  ww_uniq : forall i j w w', ws !! i = Some w -> ws !! j = Some w' ->
    w_pid w = w_pid w' -> w_pid w <> 0 -> i = j;
}.

(** [x] is recorded as asleep behind [y]. *)
Definition waits (ws : list waiter) (x y : Z) : Prop :=
  x <> 0 /\ y <> 0 /\ exists i, ws !! i = Some (mk_waiter x y).

Lemma next_blocker_waits ws x y :
  waiters_wf ws -> waits ws x y <-> x <> 0 /\ y <> 0 /\ next_blocker ws x = y.
Proof.
  intros Hwf. unfold waits, next_blocker.
  destruct (find_idx _ ws) as [i|] eqn:E.
  - apply find_idx_Some in E as [(w & Hi & Hw) _]. apply Z.eqb_eq in Hw.
    rewrite Hi. simpl. split.
    + intros (Hx & Hy & j & Hj). split_and!; try done.
      assert (i = j) as -> by (eapply (ww_uniq ws Hwf); eauto; simpl; congruence).
      rewrite Hi in Hj. by injection Hj as ->.
    + intros (Hx & Hy & <-). split_and!; try done. exists i. rewrite Hi. by destruct w; simplify_eq/=.
  - rewrite find_idx_None in E. split; [|intuition congruence].
    intros (_ & _ & j & Hj). specialize (E j _ Hj). simpl in E. by rewrite Z.eqb_refl in E.
Qed.

Lemma next_blocker_0 ws : waiters_wf ws -> next_blocker ws 0 = 0.
Proof.
  intros Hwf. unfold next_blocker. destruct (find_idx _ ws) as [i|] eqn:E; [|done].
  apply find_idx_Some in E as [(w & Hi & Hw) _]. apply Z.eqb_eq in Hw. rewrite Hi. simpl.
  by apply (ww_free ws Hwf i).
Qed.

(** The pids met by following the table [k] times from [b]. *)
Definition hop (ws : list waiter) (b : Z) (k : nat) : Z := Nat.iter k (next_blocker ws) b.

Lemma hop_S ws b k : hop ws b (S k) = hop ws (next_blocker ws b) k.
Proof. unfold hop. induction k as [|k IH]; simpl in *; [done|]. by rewrite <- IH. Qed.
Lemma hop_add ws b i j : hop ws b (i + j) = hop ws (hop ws b j) i.
Proof. unfold hop. induction i as [|i IH]; simpl in *; [done|]. by rewrite IH. Qed.

Lemma hop_0 ws k : waiters_wf ws -> hop ws 0 k = 0.
Proof.
  intros Hwf. induction k as [|k IH]; [done|]. by rewrite hop_S, next_blocker_0.
Qed.

Lemma deadlock_walk_hop d ws p b :
  waiters_wf ws -> p <> 0 ->
  deadlock_walk d ws p b = true <-> exists k, (k < d)%nat /\ hop ws b k = p.
Proof.
  intros Hwf Hp. revert b. induction d as [|d IH]; intros b; simpl.
  { split; [done|]. intros (k & ? & _). lia. }
  destruct (Z.eqb_spec b 0) as [->|Hb].
  { split; [done|]. intros (k & _ & Hk). by rewrite hop_0 in Hk. }
  destruct (Z.eqb_spec b p) as [->|Hbp].
  { split; [|done]. intros _. exists 0%nat. split; [lia|done]. }
  rewrite IH. split.
  - intros (k & Hk & E). exists (S k). rewrite hop_S. split; [lia|done].
  - intros ([|k] & Hk & E); [done|]. exists k. rewrite hop_S in E. split; [lia|done].
Qed.

Lemma waits_hop ws b p :
  waiters_wf ws -> p <> 0 -> rtc (waits ws) b p <-> exists k, hop ws b k = p.
Proof.
  intros Hwf Hp. split.
  - induction 1 as [b|b c p Hbc _ IH]; [by exists 0%nat|].
    destruct (IH Hp) as [k Hk]. exists (S k). rewrite hop_S.
    apply next_blocker_waits in Hbc as (_ & _ & ->); done.
  - intros [k Hk]. revert b Hk. induction k as [|k IH]; intros b Hk.
    { simpl in Hk. subst. done. }
    destruct (decide (b = 0)) as [->|Hb]; [by rewrite hop_0 in Hk|]. rewrite hop_S in Hk.
    destruct (decide (next_blocker ws b = 0)) as [E|E]; [rewrite E, hop_0 in Hk; congruence|].
    apply rtc_l with (next_blocker ws b); [|by apply IH]. by apply next_blocker_waits.
Qed.

(** The first time [p] is met comes before any pid is met twice, so within
    as many steps as the table has entries of other pids. *)
Lemma hop_bound ws b p k :
  waiters_wf ws -> p <> 0 -> (exists i w, ws !! i = Some w /\ (w_pid w = 0 \/ w_pid w = p)) ->
  hop ws b k = p -> (forall j, (j < k)%nat -> hop ws b j <> p) -> (k < WAITER_MAX)%nat.
Proof.
  intros Hwf Hp (i & w & Hi & Hw) Hk Hmin.
  assert (Hlive : forall j, (j < k)%nat -> exists x, In x (delete i ws) /\ w_pid x = hop ws b j).
  { intros j Hj. assert (Hnz : next_blocker ws (hop ws b j) <> 0).
    { intros E. assert (E' : hop ws b k = 0); [|congruence].
      replace k with ((k - S j) + S j)%nat by lia. rewrite hop_add.
      change (hop ws b (S j)) with (next_blocker ws (hop ws b j)). by rewrite E, hop_0. }
    assert (H : hop ws b j <> 0) by (intros E; by rewrite E, next_blocker_0 in Hnz).
    pose proof (proj2 (next_blocker_waits ws (hop ws b j) (next_blocker ws (hop ws b j)) Hwf)
      (conj H (conj Hnz eq_refl))) as (_ & _ & n & Hn).
    assert (n <> i).
    { intros ->. rewrite Hi in Hn. injection Hn as ->. destruct Hw as [Hw|Hw]; simpl in Hw;
        [done|by apply (Hmin j)]. }
    exists (mk_waiter (hop ws b j) (next_blocker ws (hop ws b j))). split; [|done].
    apply list_elem_of_In. rewrite delete_take_drop. apply elem_of_app.
    destruct (decide (n < i)%nat); [left|right].
    - apply list_elem_of_lookup. exists n. by rewrite lookup_take_lt.
    - apply list_elem_of_lookup. exists (n - S i)%nat. rewrite lookup_drop.
      by replace (S i + (n - S i))%nat with n by lia. }
  assert (Hnd : NoDup (hop ws b <$> seq 0 k)).
  { apply NoDup_fmap_2_strong; [|apply NoDup_seq].
    assert (Hlt : forall x y, (x < y < k)%nat -> hop ws b x <> hop ws b y).
    { intros x y Hxy E. apply (Hmin (k - y + x)%nat); [lia|].
      rewrite hop_add, E, <- hop_add. by replace (k - y + y)%nat with k by lia. }
    intros x y Hx Hy E. apply elem_of_seq in Hx, Hy.
    destruct (Nat.lt_trichotomy x y) as [?|[?|?]]; [|done|].
    - exfalso. by apply (Hlt x y); [lia|].
    - exfalso. by apply (Hlt y x); [lia|]. }
  apply (NoDup_submseteq _ (w_pid <$> delete i ws)) in Hnd.
  - apply submseteq_length in Hnd. rewrite !length_fmap, length_seq in Hnd.
    pose proof (ww_len ws Hwf). pose proof (lookup_lt_Some _ _ _ Hi).
    rewrite length_delete in Hnd by (by eexists). lia.
  - intros x (j & -> & Hj)%list_elem_of_fmap. apply elem_of_seq in Hj.
    destruct (Hlive j) as (y & Hy & <-); [lia|]. apply list_elem_of_fmap_2.
    by apply list_elem_of_In.
Qed.

Lemma would_deadlock_iff ws p b :
  waiters_wf ws -> p <> 0 -> (exists i w, ws !! i = Some w /\ (w_pid w = 0 \/ w_pid w = p)) ->
  would_deadlock ws p b = true <-> rtc (waits ws) b p.
Proof.
  intros Hwf Hp Hroom. unfold would_deadlock. rewrite deadlock_walk_hop by done.
  rewrite waits_hop by done. split; [by intros (k & _ & ?); exists k|]. intros [k Hk].
  induction (lt_wf k) as [k _ IH].
  destruct (decide (Exists (fun j => hop ws b j = p) (seq 0 k))) as [Hex|Hno].
  - apply Exists_exists in Hex as (j & Hj%elem_of_seq & E). apply (IH j); [lia|done].
  - exists k. split; [|done]. apply (hop_bound ws b p); try done. intros j Hj E.
    apply Hno, Exists_exists. exists j. split; [apply elem_of_seq; lia|done].
Qed.

(** *** set_waiting *)

Lemma set_waiting_wf ws p b : waiters_wf ws -> p <> 0 -> waiters_wf (set_waiting ws p b).
Proof.
  intros [Hlen Hfree Huniq] Hp. unfold set_waiting.
  destruct (find_idx (fun w => w_pid w =? p) ws) as [i|] eqn:E.
  - apply find_idx_Some in E as [(w & Hi & Hw%Z.eqb_eq) _]. constructor.
    + by rewrite length_insert.
    + intros j w' [(<- & <- & _)|(_ & Hj)]%list_lookup_insert_Some; [|eauto].
      simpl. by zcase.
    + intros j j' x x' Hj Hj' Ex Hnz.
      apply list_lookup_insert_Some in Hj as [(-> & <- & _)|(Hji & Hj)],
        Hj' as [(-> & <- & _)|(Hji' & Hj')]; simpl in *; try done; try (by eapply Huniq).
      * destruct (b =? 0); [done|]. eapply Huniq; eauto; congruence.
      * destruct (b =? 0); [congruence|]. eapply Huniq; eauto; congruence.
  - destruct (Z.eqb_spec b 0) as [->|Hb]; simpl; [done|].
    destruct (find_idx (fun w => w_pid w =? 0) ws) as [i|] eqn:E0; [|done].
    rewrite find_idx_None in E.
    assert (Hn : forall j w, ws !! j = Some w -> w_pid w <> p)
      by (intros j w Hj; specialize (E j w Hj); by apply Z.eqb_neq).
    constructor.
    + by rewrite length_insert.
    + intros j w' [(<- & <- & _)|(_ & Hj)]%list_lookup_insert_Some; [done|eauto].
    + intros j j' x x' Hj Hj' Ex Hnz.
      apply list_lookup_insert_Some in Hj as [(-> & <- & _)|(Hji & Hj)],
        Hj' as [(-> & <- & _)|(Hji' & Hj')]; simpl in *; try done; try (by eapply Huniq).
      * by destruct (Hn j' x').
      * by destruct (Hn j x).
Qed.

(** Only the edge from [p] changes. *)
Lemma set_waiting_waits ws p b x y :
  waiters_wf ws -> p <> 0 -> waits (set_waiting ws p b) x y ->
  if decide (x = p) then y = b /\ b <> 0 else waits ws x y.
Proof.
  intros Hwf Hp (Hx & Hy & j & Hj). unfold set_waiting in Hj.
  destruct (find_idx (fun w => w_pid w =? p) ws) as [i|] eqn:E.
  - apply find_idx_Some in E as [(w & Hi & Hw%Z.eqb_eq) _].
    apply list_lookup_insert_Some in Hj as [(-> & [= E1 E2] & _)|(Hji & Hj)].
    + destruct (Z.eqb_spec b 0); [congruence|]. subst. by rewrite decide_True.
    + case_decide as Hd; [|by repeat split; eauto]. subst x. destruct Hji.
      eapply (ww_uniq ws Hwf); eauto. simpl. congruence.
  - rewrite find_idx_None in E.
    assert (Hn : forall j w, ws !! j = Some w -> w_pid w <> p)
      by (intros n w Hn; specialize (E n w Hn); by apply Z.eqb_neq).
    assert (Hold : ws !! j = Some (mk_waiter x y) ->
      if decide (x = p) then y = b /\ b <> 0 else waits ws x y).
    { intros Hj'. case_decide; [by destruct (Hn _ _ Hj')|by repeat split; eauto]. }
    destruct (Z.eqb_spec b 0) as [->|Hb]; simpl in Hj; [by apply Hold|].
    destruct (find_idx (fun w => w_pid w =? 0) ws) as [i|] eqn:E0; [|by apply Hold].
    apply list_lookup_insert_Some in Hj as [(-> & [= <- <-] & _)|(Hji & Hj)].
    + by rewrite decide_True.
    + by apply Hold.
Qed.

Definition acyclic (ws : list waiter) : Prop :=
  forall x y, waits ws x y -> ~ rtc (waits ws) y x.

(** A path of the new table follows the old one until it meets [p]. *)
Lemma set_waiting_path ws p b x y :
  waiters_wf ws -> p <> 0 -> rtc (waits (set_waiting ws p b)) x y ->
  rtc (waits ws) x y \/ (rtc (waits ws) x p /\ rtc (waits (set_waiting ws p b)) p y).
Proof.
  intros Hwf Hp. induction 1 as [x|x z y Hxz Hzy IH]; [by left|].
  destruct (decide (x = p)) as [->|Hne]; [right; split; [done|by eapply rtc_l]|].
  apply set_waiting_waits in Hxz; try done. rewrite decide_False in Hxz by done.
  destruct IH as [IH|[IH ?]]; [left|right; split; [|done]]; by eapply rtc_l.
Qed.

Lemma set_waiting_acyclic ws p b :
  waiters_wf ws -> p <> 0 -> acyclic ws -> ~ rtc (waits ws) b p ->
  acyclic (set_waiting ws p b).
Proof.
  intros Hwf Hp Hac Hnr x z Hxz Hzx. apply set_waiting_waits in Hxz; try done.
  case_decide as Hd.
  - destruct Hxz as [-> _]. subst x.
    destruct (set_waiting_path ws p b b p Hwf Hp Hzx) as [?|[? _]]; by apply Hnr.
  - destruct (set_waiting_path ws p b z x Hwf Hp Hzx) as [?|[Hzp Hpx]]; [by apply (Hac x z)|].
    apply rtc_inv in Hpx as [->|(y & Hpy & Hyx)]; [done|].
    apply set_waiting_waits in Hpy; try done. rewrite decide_True in Hpy by done.
    destruct Hpy as [-> _].
    destruct (set_waiting_path ws p b b x Hwf Hp Hyx) as [?|[? _]]; [|by apply Hnr].
    apply Hnr. etrans; [done|]. by eapply rtc_l.
Qed.

(** *** One turn of a process that may sleep *)

Lemma turn_deadlock st p k ky s e i c :
  waiters_wf (waiters st) -> p <> 0 ->
  (exists j w, waiters st !! j = Some w /\ (w_pid w = 0 \/ w_pid w = p)) ->
  k_type k <> F_UNLCK -> conflict (locks st) ky p 0 (k_type k) s e = Some i ->
  locks st !! i = Some c -> ofd c = 0 ->
  (rtc (waits (waiters st)) (pid c) p ->
   setlk_turn st p 0 k ky s e true false = Some (inl (- EDEADLK, st))) /\
  (~ rtc (waits (waiters st)) (pid c) p -> acyclic (waiters st) ->
   exists st', setlk_turn st p 0 k ky s e true false = Some (inr st') /\
     waiters st' = set_waiting (waiters st) p (pid c) /\
     waiters_wf (waiters st') /\ acyclic (waiters st')).
Proof.
  intros Hwf Hp Hroom Hk Hc Hi Ho.
  pose proof (would_deadlock_iff (waiters st) p (pid c) Hwf Hp Hroom) as Hd.
  unfold setlk_turn. rewrite (proj2 (Z.eqb_neq (k_type k) F_UNLCK) Hk), Hc, Hi. simpl. rewrite Ho. simpl.
  split.
  - intros Hr. by rewrite (proj2 Hd Hr).
  - intros Hr Hac. destruct (would_deadlock _ _ _); [tauto|]. eexists. split; [done|]. simpl.
    split; [done|]. split; [by apply set_waiting_wf|by apply set_waiting_acyclic].
Qed.

(** ** Properties *)

(** C11: [set_range] is an update of the map from bytes to locks. On a
    well-formed table it either finds too few free entries for what it may
    need, returns [-ENOLCK] and changes nothing, or returns 0, leaves a
    well-formed table (no two entries of one owner overlap, or touch with one
    type), wakes the sleepers, and afterwards the owner holds exactly the
    type asked for on exactly the bytes of the range (none of them when it is
    F_UNLCK) while every other byte, owner and file is as it was. It never
    writes through a null [slot()]. *)
Theorem set_range_refines st k p o t s e :
  table_wf (locks st) -> 0 <= s <= e -> e <= TO_EOF ->
  (t = F_RDLCK \/ t = F_WRLCK \/ t = F_UNLCK) ->
  (set_range st k p o t s e = Some (- ENOLCK, st) /\
   (free_slots (locks st) < splits (locks st) k p o s e + (if (t =? F_UNLCK)%Z then 0 else 1))%nat) \/
  (exists ls, set_range st k p o t s e = Some (0, mk_state ls (waiters st) []) /\ table_wf ls /\
   forall k' o' b t', holds ls k' o' b t' <-> updated (locks st) k (owner p o) t s e k' o' b t').
Proof. apply set_range_spec. Qed.

Definition no_lock : reclock := mk_lock false 0 0 0 0 0 0.
Definition boot : state :=
  mk_state (replicate RECLOCK_MAX no_lock) (replicate WAITER_MAX (mk_waiter 0 0)) [].

Lemma boot_inv : lock_inv boot.
Proof.
  assert (Hn : forall i l, locks boot !! i = Some l -> l = no_lock).
  { intros i l Hi. by apply (lookup_replicate_1 RECLOCK_MAX) in Hi as [-> _]. }
  split; [constructor|].
  - done.
  - intros i l ->%Hn. done.
  - intros i j l l' _ ->%Hn ->%Hn. done.
  - intros k o1 o2 b t1 t2 _ (i & l & ->%Hn & [Hu _] & _). done.
Qed.

(** Process 7 has a write lock on [10,29] of file 5. *)
Definition held : state :=
  mk_state (<[0%nat := mk_lock true 5 7 0 F_WRLCK 10 29]> (locks boot)) (waiters boot) [].

Lemma set_range_refines_witness :
  table_wf (locks held) /\
  exists ls, set_range held 5 7 0 F_UNLCK 15 19 = Some (0, mk_state ls (waiters boot) []) /\
    (forall t, ~ holds ls 5 (owner 7 0) 17 t) /\ holds ls 5 (owner 7 0) 20 F_WRLCK.
Proof.
  assert (Hwf : table_wf (locks held)).
  { destruct boot_inv as [Hb _]. apply table_wf_insert; [done|intros _; cbn; unfold TO_EOF; split_and!; try lia; by right|].
    intros j l Hj Hl. apply (lookup_replicate_1 RECLOCK_MAX) in Hl as [-> _]. done. }
  split; [done|].
  destruct (set_range_refines held 5 7 0 F_UNLCK 15 19 Hwf) as [[E _]|(ls & E & _ & Hh)];
    [lia|by vm_compute|by right; right|by vm_compute in E|].
  exists ls. split; [done|]. split.
  - intros t Ht. apply Hh in Ht. unfold updated in Ht. rewrite decide_True in Ht by (split_and!; done || lia).
    by destruct Ht as [_ []].
  - apply Hh. unfold updated. rewrite decide_False by lia.
    exists 0%nat, (mk_lock true 5 7 0 F_WRLCK 10 29). by repeat split.
Defined.

(** C10: mutual exclusion. Whatever fcntl's lock commands, the close of a
    file, the end of a description and the exit of a process do, in whatever
    order and however they interleave at the sleeps, no byte of a file is
    ever write-locked by one owner while another holds any lock on it, the
    table stays well-formed, and no call dereferences a null entry. The one
    input left out is a flock64 of length exactly -2^32. *)
Theorem reclock_mutual_exclusion {U} `{UserMemory U} env st (u : U) tgid fo cmd uarg wide :
  polite env -> lock_inv st -> (forall f, fo = Some f -> file_wf f) ->
  (forall w k, fetch_lk u uarg w = inr k -> lk_len k <> -4294967296) ->
  result_inv (reclock_fcntl env st u tgid fo cmd uarg wide) /\
  (forall fkey p, lock_inv (reclock_closed fkey p st)) /\
  (forall f, lock_inv (reclock_file_gone f st)) /\
  (forall p, lock_inv (reclock_exit p st)).
Proof.
  intros. split; [by apply reclock_fcntl_inv|].
  split_and!; intros; [by apply closed_inv|by apply file_gone_inv|by apply exit_inv].
Qed.

(** A struct flock64 {F_WRLCK, SEEK_SET, 100, 50} at 0x10000010. *)
Definition user_flock64 (a : Z) : Z :=
  default 0 (flock_bytes true F_WRLCK SEEK_SET 100 50 0 !! Z.to_nat (a - 8208)).
Definition a_file : file := mk_file 4096 0 2 5 (Some 1000).

Lemma a_file_wf : file_wf a_file.
Proof. unfold file_wf, TO_EOF; cbn. split; [lia|]. intros n [= <-]. lia. Qed.

Lemma reclock_mutual_exclusion_witness :
  result_inv (@reclock_fcntl ram two_pages [(false, reclock_exit 3)] boot user_flock64
                7 (Some a_file) F_OFD_SETLK 268435472 true) /\
  @reclock_fcntl ram two_pages [(false, reclock_exit 3)] boot user_flock64
                7 (Some a_file) F_OFD_SETLK 268435472 true =
  Ret 0 (mk_state (<[0%nat := mk_lock true 5 0 4096 F_WRLCK 100 149]> (locks boot)) (waiters boot) [])
      user_flock64.
Proof.
  split; [|by vm_compute].
  refine (proj1 (@reclock_mutual_exclusion ram two_pages [(false, reclock_exit 3)] boot user_flock64
    7 (Some a_file) F_OFD_SETLK 268435472 true _ _ _ _)).
  - constructor; [|constructor]. intros x Hx. by apply exit_inv.
  - apply boot_inv.
  - intros f [= <-]. apply a_file_wf.
  - intros [] k; vm_compute; intros [= <-]; done.
Defined.

(** A flock names the range POSIX says. The struct flock or flock64 in a
    program's memory, read by [fetch_lk] and resolved by [range_of] against
    the file's position or size, gives exactly [flock_range] of the offset
    and the length as integers: the two 32-bit words of each, with the carry
    between them, lose nothing. *)
Theorem range_of_exact {U} `{UserMemory U} (u : U) ua (wide : bool) t w off len p f b :
  let n := if wide then 64 else 32 in
  u_fetch u ua (if wide then 24 else 16)%nat = Some (flock_bytes wide t w off len p) ->
  - 32768 <= t < 32768 -> - 32768 <= w < 32768 -> - 2147483648 <= p < 2147483648 ->
  - 2 ^ (n - 1) <= off < 2 ^ (n - 1) -> - 2 ^ (n - 1) <= len < 2 ^ (n - 1) ->
  file_wf f -> base_of f w = Some b -> b + off < 2 ^ 63 -> len <> -4294967296 ->
  exists k, fetch_lk u ua wide = inr k /\ k_type k = t /\ k_pid k = p /\
    range_of f k = flock_range b off len.
Proof.
  intros n Hu Ht Hw Hp Ho Hl Hf Hb Hbig Hbad.
  destruct (fetch_lk_bytes u ua wide t w off len p Hu Ht Hw Hp Ho Hl)
    as (k & Ek & Ekt & Ekw & Ekp & Eko & Ekl).
  exists k. split_and!; try done. subst off len w. apply range_of_eq; try done.
  by eapply fetch_lk_wf.
Qed.

Lemma range_of_exact_witness :
  exists k, @fetch_lk ram two_pages user_flock64 268435472 true = inr k /\
    k_type k = F_WRLCK /\ k_pid k = 0 /\ range_of a_file k = flock_range 0 100 50.
Proof.
  refine (@range_of_exact ram two_pages user_flock64 268435472 true F_WRLCK SEEK_SET 100 50 0 a_file 0
    _ _ _ _ _ _ a_file_wf eq_refl _ _); [by vm_compute|unfold F_WRLCK, SEEK_SET; lia..].
Defined.

(** What F_GETLK stores can be read back. The range and type
    [store_lk] writes into a program's struct flock are those [fetch_lk] and
    [range_of] get from it again, whatever the file's position; for the
    32-bit struct as long as both numbers fit in 31 bits. *)
Theorem getlk_roundtrip {U} `{UserMemory U} (u u' : U) ua (wide : bool) t s e p f :
  store_lk u ua wide t s e p = (0, u') -> file_wf f ->
  - 32768 <= t < 32768 -> - 2147483648 <= p < 2147483648 ->
  0 <= s <= e -> e <= TO_EOF ->
  (wide = false -> s < 2147483648 /\ (e = TO_EOF \/ e - s + 1 < 2147483648)) ->
  exists k, fetch_lk u' ua wide = inr k /\ k_type k = t /\ k_pid k = p /\
    range_of f k = inr (s, e).
Proof.
  intros Hs Hf Ht Hp Hse He Hfit. rewrite store_lk_bytes in Hs. unfold TO_EOF in *.
  set (len := if e =? 4294967295 then 0 else u32 (e - s + 1)) in Hs.
  assert (Hlen : len = if e =? 4294967295 then 0 else e - s + 1).
  { unfold len. zcase; [done|]. rewrite u32_small; lia. }
  clearbody len.
  destruct (fetch_lk_bytes u' ua wide t SEEK_SET s len p) as (k & Ek & Ekt & Ekw & Ekp & Eko & Ekl);
    try done.
  - apply u_fetch_store in Hs; [|by destruct wide]. by destruct wide.
  - destruct wide; [lia|]. specialize (Hfit eq_refl). lia.
  - destruct wide; [destruct (e =? 4294967295); lia|]. specialize (Hfit eq_refl).
    revert Hlen. zcase; lia.
  - exists k. split_and!; try done.
    rewrite (range_of_eq f k 0); [|done|by eapply fetch_lk_wf|by rewrite Ekw| |].
    + rewrite Eko, Ekl. unfold flock_range, TO_EOF. revert Hlen. zcase; intros ->;
        repeat (zcase; try lia); repeat f_equal; lia.
    + lia.
    + revert Hlen. zcase; lia.
Qed.

Lemma getlk_roundtrip_witness :
  exists u', @store_lk ram two_pages (fun _ => 0) 268435472 true F_RDLCK 3000000000 4294967295 9 = (0, u') /\
  exists k, @fetch_lk ram two_pages u' 268435472 true = inr k /\ k_type k = F_RDLCK /\ k_pid k = 9 /\
    range_of a_file k = inr (3000000000, 4294967295).
Proof.
  eexists. split; [reflexivity|].
  refine (@getlk_roundtrip ram two_pages (fun _ => 0) _ 268435472 true F_RDLCK 3000000000 4294967295 9
    a_file eq_refl a_file_wf _ _ _ _ _); unfold F_RDLCK, TO_EOF; [lia..|done].
Defined.

(** C19: EDEADLK is exact with respect to the waits-for table. When a process
    would sleep behind another process's lock, the walk of the table, bounded by
    64 steps, answers [-EDEADLK] if and only if the waits recorded there lead
    from the other, through however many more, to this one; and a sleep that is
    allowed leaves the table with no circular wait if it had none. It is about
    POSIX locks only (an open file description's lock is waited for without the
    walk), and a recorded wait may be one that is over
    (edeadlk_keeps_edge). *)
Theorem edeadlk_exact st p k ky s e i c :
  waiters_wf (waiters st) -> p <> 0 ->
  (exists j w, waiters st !! j = Some w /\ (w_pid w = 0 \/ w_pid w = p)) ->
  k_type k <> F_UNLCK -> conflict (locks st) ky p 0 (k_type k) s e = Some i ->
  locks st !! i = Some c -> ofd c = 0 ->
  (rtc (waits (waiters st)) (pid c) p ->
   setlk_turn st p 0 k ky s e true false = Some (inl (- EDEADLK, st))) /\
  (~ rtc (waits (waiters st)) (pid c) p -> acyclic (waiters st) ->
   exists st', setlk_turn st p 0 k ky s e true false = Some (inr st') /\
     waiters st' = set_waiting (waiters st) p (pid c) /\
     waiters_wf (waiters st') /\ acyclic (waiters st')).
Proof. apply turn_deadlock. Qed.

(** Process 7, which holds [10,29], waits behind 8. *)
Definition crossed : state :=
  mk_state (locks held) (set_waiting (waiters boot) 7 8) [7].

Lemma boot_waiters : waiters_wf (waiters boot).
Proof.
  assert (Hn : forall i w, waiters boot !! i = Some w -> w = mk_waiter 0 0).
  { intros i w Hi. by apply (lookup_replicate_1 WAITER_MAX) in Hi as [-> _]. }
  constructor; [done|by intros i w ->%Hn|]. intros i j w w' ->%Hn _ _ Hp. done.
Qed.

Lemma edeadlk_exact_witness :
  setlk_turn crossed 8 0 (mk_lk F_WRLCK 0 0 0 20 0 1) 5 20 20 true false =
  Some (inl (- EDEADLK, crossed)).
Proof.
  eapply (edeadlk_exact crossed 8 (mk_lk F_WRLCK 0 0 0 20 0 1) 5 20 20 0%nat
            (mk_lock true 5 7 0 F_WRLCK 10 29)); try done.
  - by apply set_waiting_wf; [apply boot_waiters|].
  - exists 1%nat, (mk_waiter 0 0). split; [done|by left].
  - apply rtc_once. split; [done|]. split; [done|]. by exists 0%nat.
Defined.

(** ** What the code does against its own documentation *)

(** F_SETLK64 of the flock64 {F_WRLCK, SEEK_SET, 100, 50} locks [0,99]: its
    bytes are read as the 32-bit struct, whose l_start is the high word of
    the offset and whose l_len is its low word. *)
Example setlk64_reads_flock :
  @reclock_fcntl ram two_pages [(false, id)] boot user_flock64
    7 (Some a_file) F_SETLK64 268435472 true =
  Ret 0 (mk_state (<[0%nat := mk_lock true 5 7 0 F_WRLCK 0 99]> (locks boot)) (waiters boot) [])
      user_flock64.
Proof. by vm_compute. Qed.

(** The flock64 {F_WRLCK, SEEK_SET, 100, -2^32} is a lock that ends before
    it starts. *)
Definition user_flock_back (a : Z) : Z :=
  default 0 (flock_bytes true F_WRLCK SEEK_SET 100 (-4294967296) 0 !! Z.to_nat (a - 8208)).
Example ofd_len_minus_4g :
  @reclock_fcntl ram two_pages [(false, id)] boot user_flock_back
    7 (Some a_file) F_OFD_SETLK 268435472 true =
  Ret 0 (mk_state (<[0%nat := mk_lock true 5 0 4096 F_WRLCK 100 99]> (locks boot)) (waiters boot) [])
      user_flock_back.
Proof. by vm_compute. Qed.

(** Process 8 slept behind 7 for [20,20], was woken to find 9 holding it, and
    9 waits for 8: the call ends in EDEADLK with 8's old edge still there. *)
Definition stale : state :=
  mk_state (<[0%nat := mk_lock true 5 9 0 F_WRLCK 10 29]> (locks boot))
           (set_waiting (set_waiting (waiters boot) 8 7) 9 8) [].
Example edeadlk_keeps_edge :
  setlk_turn stale 8 0 (mk_lk F_WRLCK 0 0 0 20 0 1) 5 20 20 true false =
    Some (inl (- EDEADLK, stale)) /\ next_blocker (waiters stale) 8 = 7.
Proof. by vm_compute. Qed.

End RECLOCK.
