(* ===== verification/Klog.v ===== *)
(** * The kernel's log and the console it prints on (kernel/klog.c, kernel/console.c)

    Every byte the kernel prints goes into a ring that overwrites its oldest
    bytes, and to the console device. The ring's counters run freely in 32
    bits. A panic's last kilobyte is kept in the clock's NVRAM
    (kernel/drivers/m48t59.c) for the next boot to print. *)

From stdpp Require Import strings.
From S2P Require Import Prelude Uaccess.
Local Open Scope Z_scope.

Module KLOG.

(** ** The code *)

Definition KLOG_SIZE : Z := 8192.

Record klog := mk_klog {
  ring : list Z;
  head : Z;
  tail : Z;
  lost : Z;
  readers : list Z;     (* the pids asleep on the queue *)
}.

Definition klog_putc (c : Z) (k : klog) : klog :=
  let r := <[Z.to_nat (Z.land (head k) (KLOG_SIZE - 1)) := c]> (ring k) in
  let h := u32 (head k + 1) in
  if KLOG_SIZE <? u32 (h - tail k)
  then mk_klog r h (u32 (h - KLOG_SIZE)) (u32 (lost k + 1)) (readers k)
  else mk_klog r h (tail k) (lost k) (readers k).

Definition klog_write (buf : list Z) (k : klog) : klog :=
  let k := foldl (fun k c => klog_putc c k) k buf in
  match readers k with
  | [] => k
  | _ => mk_klog (ring k) (head k) (tail k) (lost k) []     (* wake_all(&readers) *)
  end.

Definition klog_lost (k : klog) : Z := lost k.
Definition klog_pending (k : klog) : Z := u32 (head k - tail k).

(** The copying loop of [klog_read]; it runs at most [len] times. *)
Fixpoint take_bytes (fuel : nat) (k : klog) (out : list Z) : klog * list Z :=
  match fuel with
  | O => (k, out)
  | S fuel' =>
      if tail k =? head k then (k, out)
      else
        let c := default 0 (ring k !! Z.to_nat (Z.land (tail k) (KLOG_SIZE - 1))) in
        take_bytes fuel' (mk_klog (ring k) (head k) (u32 (tail k + 1)) (lost k) (readers k))
                   (out ++ [c])
  end.

Inductive outcome :=
  | Ret (r : Z) (k : klog) (out : list Z)
  | Asleep (k : klog).

(** [env] says, for each sleep, what others do meanwhile and whether a signal
    is pending after it. *)
Fixpoint klog_read_loop (env : list (bool * (klog -> klog))) (k : klog) (pid flags len : Z)
    : outcome :=
  if head k =? tail k then
    if has flags O_NONBLOCK then Ret (- EAGAIN) k []
    else
      let k := mk_klog (ring k) (head k) (tail k) (lost k) (readers k ++ [pid]) in
      match env with
      | [] => Asleep k
      | (sig, others) :: env' =>
          if (sig : bool) then Ret (- EINTR) (others k) []
          else klog_read_loop env' (others k) pid flags len
      end
  else
    let '(k, out) := take_bytes (Z.to_nat len) k [] in Ret (Z.of_nat (length out)) k out.

Definition klog_read (env : list (bool * (klog -> klog))) (k : klog) (pid flags len : Z)
    : outcome :=
  if len =? 0 then Ret 0 k [] else klog_read_loop env k pid flags len.

Definition klog_dev_write (buf : list Z) (k : klog) : Z * klog :=
  (Z.of_nat (length buf), klog_write buf k).

Definition klog_poll (k : klog) : Z :=
  Z.lor POLLOUT (if negb (head k =? tail k) then POLLIN else 0).

Definition klog_ioctl {U} `{UACCESS.UserMemory U} (k : klog) (u : U) (req arg : Z) : Z * U :=
  if req =? FIONREAD then UACCESS.u_store u arg (be_bytes 4 (u32 (head k - tail k)))
  else (- EINVAL, u).

(** *** The NVRAM *)

Definition RTC_NVRAM_SIZE : Z := 8176.
Definition NVRAM_PANIC_BASE : Z := RTC_NVRAM_SIZE - 1024.
Definition PANIC_TEXT_MAX : Z := 1024 - 10.

Definition nvram_read (nv : ram) (offset : Z) : Z :=
  if RTC_NVRAM_SIZE <=? offset then 0 else nv offset.
Definition nvram_write (offset value : Z) (nv : ram) : ram :=
  if RTC_NVRAM_SIZE <=? offset then nv else store8 nv offset value.

Definition klog_panic_save (k : klog) (when : Z) (nvram_ok : bool) (nv : ram) : ram :=
  let n := if head k <? PANIC_TEXT_MAX then head k else PANIC_TEXT_MAX in
  let base := NVRAM_PANIC_BASE in
  if negb nvram_ok then nv
  else
    let n := if KLOG_SIZE <? n then KLOG_SIZE else n in
    let nv := for_upto (Z.to_nat n) (fun i =>
      nvram_write (base + 10 + Z.of_nat i)
        (u8 (default 0 (ring k !! Z.to_nat
               (Z.land (u32 (head k - n + Z.of_nat i)) (KLOG_SIZE - 1)))))) nv in
    let nv := nvram_write (base + 4) (u8 (Z.shiftr n 8)) nv in
    let nv := nvram_write (base + 5) (u8 n) nv in
    let nv := for_upto 4 (fun i =>
      nvram_write (base + 6 + Z.of_nat i) (u8 (Z.shiftr when (24 - 8 * Z.of_nat i)))) nv in
    let nv := nvram_write base 80 nv in
    let nv := nvram_write (base + 1) 65 nv in
    let nv := nvram_write (base + 2) 78 nv in
    nvram_write (base + 3) 67 nv.

(** *** The console *)

(** What the console's functions change: the log, and the bytes handed to
    the console device's write, if there is such a device. *)
Record console := mk_console { log : klog; con : bool; screen : list Z }.

Definition console_write (buf : list Z) (c : console) : console :=
  mk_console (klog_write buf (log c)) (con c)
             (if con c then screen c ++ buf else screen c).

Definition kputc (ch : Z) (c : console) : console :=
  mk_console (klog_putc ch (log c)) (con c) (if con c then screen c ++ [ch] else screen c).

(** A C string: the bytes before the first zero. *)
Fixpoint cstr (s : list Z) : list Z :=
  match s with
  | [] => []
  | b :: s' => if b =? 0 then [] else b :: cstr s'
  end.

Definition kputs (s : list Z) (c : console) : console :=
  let s := cstr s in
  mk_console (klog_write s (log c)) (con c) (if con c then screen c ++ s else screen c).

Definition kputln (s : list Z) (c : console) : console := kputc 10 (kputs s c).

Definition hexdigit (v : Z) : Z := if v <? 10 then 48 + v else 97 + (v - 10).
Definition kputhex8 (v : Z) (c : console) : console :=
  kputc (hexdigit (Z.land v 15)) (kputc (hexdigit (Z.land (Z.shiftr v 4) 15)) c).
Definition kputhex16 (v : Z) (c : console) : console :=
  kputhex8 (u8 v) (kputhex8 (u8 (Z.shiftr v 8)) c).
Definition kputhex32 (v : Z) (c : console) : console :=
  kputhex16 (u16 v) (kputhex16 (u16 (Z.shiftr v 16)) c).

(** [kputdec]'s first loop: the digits, lowest first, into a buffer of 12. A
    32-bit number has at most ten. *)
Fixpoint dec_digits (fuel : nat) (v : Z) (buf : list Z) : list Z :=
  match fuel with
  | O => buf
  | S fuel' => if 0 <? v then dec_digits fuel' (v / 10) (buf ++ [48 + v mod 10]) else buf
  end.

Definition kputdec (v : Z) (c : console) : console :=
  if v =? 0 then kputc 48 c
  else foldl (fun c ch => kputc ch c) c (rev (dec_digits 12 v [])).

Definition kput2 (v : Z) (c : console) : console :=
  kputc (48 + v mod 10) (kputc (48 + (v / 10) mod 10) c).

(** *** The record of the last panic, at boot *)

Definition panic_head : list Z := Eval cbv in
  10 :: map (fun c => Z.of_nat (Ascii.nat_of_ascii c))
    (String.list_ascii_of_string "*** the last boot ended in a panic (at "%string).
Definition panic_mid : list Z := Eval cbv in
  map (fun c => Z.of_nat (Ascii.nat_of_ascii c))
    (String.list_ascii_of_string " seconds since 1970); what it said last:"%string) ++ [10].
Definition panic_foot : list Z := Eval cbv in
  10 :: map (fun c => Z.of_nat (Ascii.nat_of_ascii c))
    (String.list_ascii_of_string "*** end of the panic record"%string) ++ [10; 10].

Definition klog_panic_report (nvram_ok : bool) (nv : ram) (c : console) : Z * ram * console :=
  let base := NVRAM_PANIC_BASE in
  if negb nvram_ok || negb (nvram_read nv base =? 80) || negb (nvram_read nv (base + 1) =? 65) ||
     negb (nvram_read nv (base + 2) =? 78) || negb (nvram_read nv (base + 3) =? 67)
  then (0, nv, c)
  else
    let n := Z.lor (Z.shiftl (nvram_read nv (base + 4)) 8) (nvram_read nv (base + 5)) in
    let n := if PANIC_TEXT_MAX <? n then PANIC_TEXT_MAX else n in
    let when := for_upto 4 (fun i w =>
      Z.lor (u32 (Z.shiftl w 8)) (nvram_read nv (base + 6 + Z.of_nat i))) 0 in
    let c := kputs panic_head c in
    let c := kputdec when c in
    let c := kputs panic_mid c in
    let c := for_upto (Z.to_nat n) (fun i => kputs [nvram_read nv (base + 10 + Z.of_nat i)]) c in
    let c := kputs panic_foot c in
    (1, nvram_write base 0 nv, c).

(** ** The log as a bounded queue *)

(** What the log promises a reader: a queue of at most 8192 bytes that drops
    from the front, and the number dropped. *)
Record queue := mk_queue { unread : list Z; missed : nat }.

Definition q_write (buf : list Z) (q : queue) : queue :=
  let all := unread q ++ buf in
  let over := (length all - Z.to_nat KLOG_SIZE)%nat in
  mk_queue (drop over all) (missed q + over).

Inductive q_outcome :=
  | QRet (r : Z) (q : queue) (out : list Z)
  | QAsleep (q : queue).

Fixpoint q_read_loop (env : list (bool * (queue -> queue))) (q : queue) (flags len : Z)
    : q_outcome :=
  match unread q with
  | [] =>
      if has flags O_NONBLOCK then QRet (- EAGAIN) q []
      else match env with
           | [] => QAsleep q
           | (sig, others) :: env' =>
               if (sig : bool) then QRet (- EINTR) (others q) []
               else q_read_loop env' (others q) flags len
           end
  | bs => let out := take (Z.to_nat len) bs in
          QRet (Z.of_nat (length out)) (mk_queue (drop (Z.to_nat len) bs) (missed q)) out
  end.

(** ** The ring holds the last bytes written *)

(** [said] is every byte ever written and [pos] how far the reader has got. *)
Record rep (k : klog) (said : list Z) (pos nlost : nat) : Prop := {
  rep_ring : length (ring k) = Z.to_nat KLOG_SIZE;
  rep_head : head k = u32 (Z.of_nat (length said));
  rep_tail : tail k = u32 (Z.of_nat pos);
  rep_lost : lost k = u32 (Z.of_nat nlost);
  rep_pos : (pos <= length said <= pos + Z.to_nat KLOG_SIZE)%nat;
  rep_bytes : forall j c, said !! j = Some c -> (length said <= j + Z.to_nat KLOG_SIZE)%nat ->
    ring k !! (j mod Z.to_nat KLOG_SIZE)%nat = Some c;
}.

Definition rep_q (k : klog) (q : queue) : Prop :=
  exists said pos, rep k said pos (missed q) /\ unread q = drop pos said.

(** The masked counter is the position modulo the size. *)
Lemma mask_mod n : Z.to_nat (Z.land (u32 (Z.of_nat n)) (KLOG_SIZE - 1)) =
  (n mod Z.to_nat KLOG_SIZE)%nat.
Proof.
  change (KLOG_SIZE - 1) with (Z.ones 13). rewrite Z.land_ones by lia. unfold u32.
  change 4294967296 with (2 ^ 13 * 2 ^ 19). rewrite Z.rem_mul_r by lia.
  rewrite Z.mul_comm, Z.mod_add, Z.mod_mod by lia.
  rewrite <- (Nat2Z.id (n mod _)), Nat2Z.inj_mod. done.
Qed.

Lemma u32_sub_counters a b :
  (b <= a <= b + Z.to_nat KLOG_SIZE)%nat ->
  u32 (u32 (Z.of_nat a) - u32 (Z.of_nat b)) = Z.of_nat (a - b).
Proof.
  intros Hab. unfold u32. rewrite <- Zminus_mod, Z.mod_small; unfold KLOG_SIZE in *; lia.
Qed.

Lemma u32_succ n : u32 (u32 (Z.of_nat n) + 1) = u32 (Z.of_nat (S n)).
Proof. unfold u32. rewrite Zplus_mod_idemp_l. f_equal. lia. Qed.

Lemma mod_inj_window (a b n : nat) :
  (0 < n -> a < b < a + n -> a mod n <> b mod n)%nat.
Proof.
  intros Hn Hab E. pose proof (Nat.div_mod a n ltac:(lia)). pose proof (Nat.div_mod b n ltac:(lia)).
  assert (a / n <> b / n)%nat by nia. assert (a / n < b / n \/ b / n < a / n)%nat as [|] by lia; nia.
Qed.

Lemma putc_rep k said pos nlost c :
  rep k said pos nlost ->
  rep (klog_putc c k) (said ++ [c])
    (if (length said - pos =? Z.to_nat KLOG_SIZE)%nat then S pos else pos)
    (if (length said - pos =? Z.to_nat KLOG_SIZE)%nat then S nlost else nlost) /\
  readers (klog_putc c k) = readers k.
Proof.
  intros [Hr Hh Ht Hl Hp Hb].
  assert (Hsz : Z.of_nat (Z.to_nat KLOG_SIZE) = KLOG_SIZE) by done.
  assert (Hd : u32 (u32 (head k + 1) - tail k) = Z.of_nat (S (length said) - pos)).
  { rewrite Hh, Ht, u32_succ. destruct (Nat.eq_dec (length said) (pos + Z.to_nat KLOG_SIZE)).
    - unfold u32. rewrite <- Zminus_mod, Z.mod_small; unfold KLOG_SIZE in *; lia.
    - apply u32_sub_counters. lia. }
  assert (Hbytes : forall j x, (said ++ [c]) !! j = Some x ->
    (length (said ++ [c]) <= j + Z.to_nat KLOG_SIZE)%nat ->
    <[Z.to_nat (Z.land (head k) (KLOG_SIZE - 1)) := c]> (ring k) !!
      (j mod Z.to_nat KLOG_SIZE)%nat = Some x).
  { intros j x Hj Hw. rewrite Hh, mask_mod. rewrite length_app in Hw. cbn [length] in Hw.
    assert (0 < Z.to_nat KLOG_SIZE)%nat by (unfold KLOG_SIZE; lia).
    destruct (decide (j = length said)) as [->|Hne].
    - rewrite lookup_app_r, Nat.sub_diag in Hj by lia. injection Hj as <-.
      apply list_lookup_insert_eq. rewrite Hr. apply Nat.mod_upper_bound. lia.
    - pose proof (lookup_lt_Some _ _ _ Hj) as Hlt. rewrite length_app in Hlt. cbn [length] in Hlt.
      rewrite lookup_app_l in Hj by lia. rewrite list_lookup_insert_ne.
      + apply Hb; [done|lia].
      + intros E. apply (mod_inj_window j (length said) (Z.to_nat KLOG_SIZE)); [lia|lia|done]. }
  unfold klog_putc. rewrite Hd. destruct (Nat.eqb_spec (length said - pos) (Z.to_nat KLOG_SIZE)) as [E|E].
  - rewrite (proj2 (Z.ltb_lt _ _)) by lia. split; [|done].
    constructor; cbn [ring head tail lost]; try exact Hbytes; rewrite ?length_insert, ?length_app; cbn [length];
      try assumption; try lia.
    + by rewrite Hh, u32_succ, Nat.add_1_r.
    + rewrite Hh, u32_succ. replace (S pos) with (S (length said) - Z.to_nat KLOG_SIZE)%nat by lia.
      unfold u32. rewrite Zminus_mod_idemp_l. f_equal. lia.
    + by rewrite Hl, u32_succ.
  - rewrite (proj2 (Z.ltb_ge _ _)) by lia. split; [|done].
    constructor; cbn [ring head tail lost]; try exact Hbytes; rewrite ?length_insert, ?length_app; cbn [length];
      try assumption; try lia.
    by rewrite Hh, u32_succ, Nat.add_1_r.
Qed.

Lemma write_rep_loop buf k said pos nlost :
  rep k said pos nlost ->
  let over := (length said - pos + length buf - Z.to_nat KLOG_SIZE)%nat in
  rep (foldl (fun k c => klog_putc c k) k buf) (said ++ buf) (pos + over) (nlost + over) /\
  readers (foldl (fun k c => klog_putc c k) k buf) = readers k.
Proof.
  revert k said pos nlost. induction buf as [|c buf IH]; intros k said pos nlost Hr over.
  - pose proof (rep_pos _ _ _ _ Hr). unfold over. cbn [length foldl].
    replace (_ - _ + 0 - _)%nat with 0%nat by lia. by rewrite app_nil_r, !Nat.add_0_r.
  - destruct (putc_rep k said pos nlost c Hr) as [Hr' Hrd]. cbn [foldl].
    destruct (IH _ _ _ _ Hr') as [Hr'' Hrd']. rewrite <- app_assoc in Hr''.
    split; [|congruence]. pose proof (rep_pos _ _ _ _ Hr). unfold over. clear IH Hr'.
    rewrite length_app in Hr''. cbn [length app] in *.
    destruct (Nat.eqb_spec (length said - pos) (Z.to_nat KLOG_SIZE)).
    + replace (pos + _)%nat with
        (S pos + (length said + 1 - S pos + length buf - Z.to_nat KLOG_SIZE))%nat by lia.
      replace (nlost + _)%nat with
        (S nlost + (length said + 1 - S pos + length buf - Z.to_nat KLOG_SIZE))%nat by lia. done.
    + replace (length said - pos + S (length buf))%nat with
        (length said + 1 - pos + length buf)%nat by lia. done.
Qed.

Lemma rep_readers k said pos n r :
  rep k said pos n -> rep (mk_klog (ring k) (head k) (tail k) (lost k) r) said pos n.
Proof. by intros []. Qed.

Lemma write_rep buf k said pos nlost :
  rep k said pos nlost ->
  let over := (length said - pos + length buf - Z.to_nat KLOG_SIZE)%nat in
  rep (klog_write buf k) (said ++ buf) (pos + over) (nlost + over).
Proof.
  intros Hr over. destruct (write_rep_loop buf k said pos nlost Hr) as [Hr' Hrd].
  unfold klog_write. destruct (readers _) eqn:E; [done|]. by apply rep_readers.
Qed.

Lemma write_q buf k q : rep_q k q -> rep_q (klog_write buf k) (q_write buf q).
Proof.
  intros (said & pos & Hr & Hq). pose proof (rep_pos _ _ _ _ Hr) as Hp.
  pose proof (write_rep buf k said pos _ Hr) as Hw. cbv zeta in Hw.
  eexists _, _. unfold q_write. cbn [missed unread].
  rewrite Hq, length_app, length_drop. split; [exact Hw|].
  rewrite <- drop_drop, (drop_app_le said) by lia. done.
Qed.

Lemma empty_iff k said pos n : rep k said pos n -> (head k =? tail k) = (length said =? pos)%nat.
Proof.
  intros [_ Hh Ht _ Hp _]. assert (E : u32 (head k - tail k) = Z.of_nat (length said - pos))
    by (rewrite Hh, Ht; by apply u32_sub_counters).
  destruct (Nat.eqb_spec (length said) pos) as [Eq|Ne].
  - rewrite Hh, Ht, Eq. apply Z.eqb_refl.
  - apply Z.eqb_neq. intros Hht. rewrite Hht, Z.sub_diag in E. unfold u32 in E.
    rewrite Z.mod_0_l in E; lia.
Qed.

Lemma take_bytes_rep fuel k said pos n out :
  rep k said pos n ->
  exists k', take_bytes fuel k out = (k', out ++ take fuel (drop pos said)) /\
    rep k' said (pos + length (take fuel (drop pos said))) n /\ readers k' = readers k.
Proof.
  revert k pos out. induction fuel as [|fuel IH]; intros k pos out Hr.
  - exists k. rewrite take_0, app_nil_r, Nat.add_0_r. done.
  - cbn [take_bytes]. rewrite Z.eqb_sym, (empty_iff k said pos n Hr).
    pose proof (rep_pos _ _ _ _ Hr) as Hp.
    destruct (Nat.eqb_spec (length said) pos) as [E|E].
    + exists k. rewrite drop_ge, take_nil, app_nil_r, Nat.add_0_r by lia. done.
    + destruct (lookup_lt_is_Some_2 said pos) as [c Hc]; [lia|].
      assert (Hat : ring k !! Z.to_nat (Z.land (tail k) (KLOG_SIZE - 1)) = Some c).
      { rewrite (rep_tail _ _ _ _ Hr), mask_mod. apply (rep_bytes _ _ _ _ Hr); [done|lia]. }
      rewrite Hat.
      set (k1 := mk_klog _ _ _ _ _).
      assert (Hr1 : rep k1 said (S pos) n).
      { destruct Hr as [H1 H2 H3 H4 H5 H6]. constructor; cbn; try assumption; [|lia].
        by rewrite H3, u32_succ. }
      destruct (IH k1 (S pos) (out ++ [c]) Hr1) as (k' & Ek & Hk' & Hrd).
      exists k'. cbn [default from_option id]. cbv zeta. rewrite Ek.
      rewrite (drop_S said c pos Hc), firstn_cons, <- app_assoc. cbn [length].
      rewrite <- Nat.add_succ_comm. done.
Qed.

Definition outcome_q (r : outcome) (rq : q_outcome) : Prop :=
  match r, rq with
  | Ret v k out, QRet v' q out' => v = v' /\ out = out' /\ rep_q k q
  | Asleep k, QAsleep q => rep_q k q
  | _, _ => False
  end.

(** What others do to the log and to the queue is the same thing. *)
Definition same_env : list (bool * (klog -> klog)) -> list (bool * (queue -> queue)) -> Prop :=
  Forall2 (fun e e' => fst e = fst e' /\ forall k q, rep_q k q -> rep_q (snd e k) (snd e' q)).

(** A read that finds something takes the front of the queue. *)
Lemma read_now_q k q pid flags len env envq :
  rep_q k q -> unread q <> [] ->
  outcome_q (klog_read_loop env k pid flags len) (q_read_loop envq q flags len).
Proof.
  intros (said & pos & Hr & Hq) Hne.
  assert (E : (head k =? tail k) = false).
  { rewrite (empty_iff _ _ _ _ Hr). apply Nat.eqb_neq. intros E. apply Hne.
    by rewrite Hq, drop_ge by lia. }
  destruct (take_bytes_rep (Z.to_nat len) k said pos _ [] Hr) as (k' & Ek & Hr' & _).
  rewrite <- Hq in *.
  assert (outcome_q (klog_read_loop env k pid flags len)
    (let out := take (Z.to_nat len) (unread q) in
     QRet (Z.of_nat (length out)) (mk_queue (drop (Z.to_nat len) (unread q)) (missed q)) out)) as H.
  { destruct env; cbn [klog_read_loop]; rewrite E, Ek; cbn [app];
      (split; [done|]; split; [done|]; exists said; eexists; split; [exact Hr'|]; cbn [unread];
       rewrite <- drop_drop, <- Hq; symmetry; apply drop_length_take). }
  destruct envq; cbn [q_read_loop]; destruct (unread q); done.
Qed.

Lemma read_loop_q env envq k q pid flags len :
  same_env env envq -> rep_q k q ->
  outcome_q (klog_read_loop env k pid flags len) (q_read_loop envq q flags len).
Proof.
  intros He. revert k q. induction He as [|[sig f] [sig' g] env envq [Hs Hfg] _ IH];
    intros k q Hkq; (destruct (unread q) as [|c bs] eqn:Eq; [|apply read_now_q; [done|congruence]]);
    pose proof Hkq as (said & pos & Hr & Hq); cbn [klog_read_loop q_read_loop];
    rewrite Eq in *; pose proof (rep_pos _ _ _ _ Hr) as Hp;
    (assert (E : (head k =? tail k) = true); [rewrite (empty_iff _ _ _ _ Hr);
      apply (f_equal length) in Hq; rewrite length_drop in Hq; cbn in Hq; apply Nat.eqb_eq; lia|]);
    rewrite E; (destruct (has flags O_NONBLOCK); [by repeat split|]);
    set (k1 := mk_klog _ _ _ _ _); assert (Hk1 : rep_q k1 q) by
      (exists said, pos; split; [by apply rep_readers|by rewrite Eq]).
  - done.
  - cbn in Hs. subst sig'. cbn [snd] in Hfg. destruct sig; [by split; [done|split; [done|apply Hfg]]|].
    by apply IH, Hfg.
Qed.

(** *** Sequences of calls *)

Inductive call :=
  | Write (buf : list Z)
  | Read (len : Z).            (* without waiting *)

Definition klog_call (c : call) (k : klog) : klog * (Z * list Z) :=
  match c with
  | Write buf => let '(r, k) := klog_dev_write buf k in (k, (r, []))
  | Read len =>
      match klog_read [] k 0 O_NONBLOCK len with
      | Ret r k out => (k, (r, out))
      | Asleep k => (k, (0, []))
      end
  end.

Definition q_read (env : list (bool * (queue -> queue))) (q : queue) (flags len : Z) : q_outcome :=
  if len =? 0 then QRet 0 q [] else q_read_loop env q flags len.

Definition q_call (c : call) (q : queue) : queue * (Z * list Z) :=
  match c with
  | Write buf => (q_write buf q, (Z.of_nat (length buf), []))
  | Read len =>
      match q_read [] q O_NONBLOCK len with
      | QRet r q out => (q, (r, out))
      | QAsleep q => (q, (0, []))
      end
  end.

Fixpoint runs {S R C} (call : C -> S -> S * R) (cs : list C) (s : S) : S * list R :=
  match cs with
  | [] => (s, [])
  | c :: cs' => let '(s1, r) := call c s in let '(s2, rs) := runs call cs' s1 in (s2, r :: rs)
  end.

Definition klog_boot : klog := mk_klog (replicate (Z.to_nat KLOG_SIZE) 0) 0 0 0 [].

Lemma boot_rep : rep klog_boot [] 0 0.
Proof.
  constructor; cbn [ring head tail lost klog_boot]; [apply length_replicate|done..|cbn [length]; lia|done].
Qed.

Lemma read_q env envq k q pid flags len :
  same_env env envq -> rep_q k q -> outcome_q (klog_read env k pid flags len) (q_read envq q flags len).
Proof.
  intros. unfold klog_read, q_read. destruct (len =? 0); [by repeat split|]. by apply read_loop_q.
Qed.

Lemma call_q c k q :
  rep_q k q ->
  rep_q (fst (klog_call c k)) (fst (q_call c q)) /\ snd (klog_call c k) = snd (q_call c q).
Proof.
  intros Hr. destruct c as [buf|len]; cbn [klog_call q_call klog_dev_write fst snd].
  - split; [by apply write_q|done].
  - pose proof (read_q [] [] k q 0 O_NONBLOCK len ltac:(constructor) Hr) as H.
    destruct (klog_read _ _ _ _ _), (q_read _ _ _ _); cbn in *; try done.
    destruct H as (-> & -> & H). done.
Qed.

Lemma runs_q cs k q :
  rep_q k q ->
  rep_q (fst (runs klog_call cs k)) (fst (runs q_call cs q)) /\
  snd (runs klog_call cs k) = snd (runs q_call cs q).
Proof.
  revert k q. induction cs as [|c cs IH]; intros k q Hr; [done|]. cbn [runs].
  destruct (call_q c k q Hr) as [H1 H2].
  destruct (klog_call c k) as [k1 r1], (q_call c q) as [q1 r1']. cbn in H1, H2. subst r1'.
  destruct (IH k1 q1 H1) as [H3 H4].
  destruct (runs klog_call cs k1), (runs q_call cs q1). cbn in *. by subst.
Qed.

Lemma rep_q_counts k q :
  rep_q k q -> klog_pending k = Z.of_nat (length (unread q)) /\
    klog_lost k = u32 (Z.of_nat (missed q)) /\ (head k =? tail k) = bool_decide (unread q = []).
Proof.
  intros (said & pos & Hr & Hq). rewrite Hq, length_drop. split_and!.
  - unfold klog_pending. rewrite (rep_head _ _ _ _ Hr), (rep_tail _ _ _ _ Hr).
    apply u32_sub_counters. apply (rep_pos _ _ _ _ Hr).
  - apply (rep_lost _ _ _ _ Hr).
  - rewrite (empty_iff _ _ _ _ Hr). pose proof (rep_pos _ _ _ _ Hr).
    assert (Hl : length (drop pos said) = (length said - pos)%nat) by apply length_drop.
    destruct (Nat.eqb_spec (length said) pos); case_bool_decide as E; try done.
    + destruct E. by rewrite drop_ge by lia.
    + rewrite E in Hl. cbn in Hl. lia.
Qed.

(** ** The panic record *)

Lemma nvram_writes n a (v : nat -> Z) nv x :
  a + Z.of_nat n <= RTC_NVRAM_SIZE ->
  for_upto n (fun i => nvram_write (a + Z.of_nat i) (v i)) nv x =
  if (a <=? x) && (x <? a + Z.of_nat n) then v (Z.to_nat (x - a)) else nv x.
Proof.
  intros Hn. cut (Z.of_nat n <= Z.of_nat n ->
    for_upto n (fun i => nvram_write (a + Z.of_nat i) (v i)) nv x =
    if (a <=? x) && (x <? a + Z.of_nat n) then v (Z.to_nat (x - a)) else nv x); [intros H; apply H; lia|].
  apply (for_upto_ind (fun i s => Z.of_nat i <= Z.of_nat n ->
    s x = if (a <=? x) && (x <? a + Z.of_nat i) then v (Z.to_nat (x - a)) else nv x)).
  - intros _. repeat (zcase; simpl); try done; lia.
  - intros i s Hi IH Hle. unfold nvram_write. rewrite (proj2 (Z.leb_gt _ _)) by lia.
    destruct (decide (x = a + Z.of_nat i)) as [->|Hne].
    + rewrite store8_eq. rewrite (proj2 (Z.leb_le _ _)), (proj2 (Z.ltb_lt _ _)) by lia.
      simpl. f_equal. lia.
    + rewrite store8_ne, IH by lia. repeat (zcase; simpl); try done; lia.
Qed.

Lemma lor_byte a b : 0 <= a -> 0 <= b < 256 -> Z.lor (Z.shiftl a 8) b = a * 256 + b.
Proof.
  intros Ha Hb. pose proof (Z.add_lor_land (Z.shiftl a 8) b) as Hs.
  assert (E : Z.land (Z.shiftl a 8) b = 0).
  { apply Z.bits_inj'. intros n Hn. rewrite Z.land_spec, Z.bits_0.
    destruct (Z.lt_ge_cases n 8).
    - by rewrite Z.shiftl_spec_low.
    - replace (Z.testbit b n) with false; [by rewrite andb_false_r|]. symmetry.
      rewrite <- (Z.mod_small b (2 ^ 8)) by (change (2 ^ 8) with 256; lia).
      apply Z.mod_pow2_bits_high. lia. }
  rewrite E, Z.shiftl_mul_pow2 in * by lia. change (2 ^ 8) with 256 in *. lia.
Qed.

(** Where [klog_panic_save] puts what. *)
Definition saved (k : klog) : Z :=
  if head k <? PANIC_TEXT_MAX then head k else PANIC_TEXT_MAX.

Lemma saved_bound k said pos n : rep k said pos n -> 0 <= saved k <= 1014.
Proof.
  intros Hr. unfold saved, PANIC_TEXT_MAX. rewrite (rep_head _ _ _ _ Hr).
  pose proof (u32_bound (Z.of_nat (length said))). zcase; lia.
Qed.

Lemma saved_le k said pos n : rep k said pos n -> saved k <= Z.of_nat (length said).
Proof.
  intros Hr. unfold saved. rewrite (rep_head _ _ _ _ Hr). unfold u32.
  pose proof (Z.mod_le (Z.of_nat (length said)) 4294967296). zcase; lia.
Qed.

Lemma panic_save_at k when nv said pos n x :
  rep k said pos n ->
  let b := NVRAM_PANIC_BASE in
  klog_panic_save k when true nv x =
  if x =? b + 3 then 67 else if x =? b + 2 then 78 else if x =? b + 1 then 65
  else if x =? b then 80
  else if (b + 6 <=? x) && (x <? b + 10) then u8 (Z.shiftr when (24 - 8 * (x - b - 6)))
  else if x =? b + 5 then u8 (saved k) else if x =? b + 4 then u8 (Z.shiftr (saved k) 8)
  else if (b + 10 <=? x) && (x <? b + 10 + saved k) then
    u8 (default 0 (ring k !! Z.to_nat
          (Z.land (u32 (head k - saved k + (x - b - 10))) (KLOG_SIZE - 1))))
  else nv x.
Proof.
  intros Hr b. pose proof (saved_bound k said pos n Hr) as Hs. unfold klog_panic_save.
  cbv zeta. fold (saved k). cbn [negb].
  rewrite (proj2 (Z.ltb_ge KLOG_SIZE (saved k))) by (unfold KLOG_SIZE; lia). fold b.
  assert (Hb : b = 7152) by done. clearbody b.
  assert (Hw : forall o v m y, o < RTC_NVRAM_SIZE -> nvram_write o v m y = if y =? o then v else m y).
  { intros o v m y Ho. unfold nvram_write. rewrite (proj2 (Z.leb_gt _ _)) by lia.
    unfold store8. by rewrite Z.eqb_sym. }
  assert (Hsz : RTC_NVRAM_SIZE = 8176) by done.
  rewrite !Hw by lia. rewrite (nvram_writes 4) by lia. rewrite !Hw by lia.
  rewrite nvram_writes by lia. rewrite (Z2Nat.id (saved k)) by lia.
  change (Z.of_nat 4) with 4. rewrite <- Z.add_assoc. change (6 + 4) with 10.
  repeat (zcase; simpl; try done); repeat f_equal; lia.
Qed.

(** The text is the last bytes said. *)
Lemma saved_byte k said pos n j :
  rep k said pos n -> (j < Z.to_nat (saved k))%nat ->
  ring k !! Z.to_nat (Z.land (u32 (head k - saved k + Z.of_nat j)) (KLOG_SIZE - 1)) =
  said !! (length said - Z.to_nat (saved k) + j)%nat.
Proof.
  intros Hr Hj. pose proof (saved_bound k said pos n Hr) as Hs.
  pose proof (saved_le k said pos n Hr) as Hle.
  set (i := (length said - Z.to_nat (saved k) + j)%nat).
  replace (u32 (head k - saved k + Z.of_nat j)) with (u32 (Z.of_nat i)).
  - rewrite mask_mod. destruct (lookup_lt_is_Some_2 said i) as [c Hc]; [unfold i; lia|].
    rewrite Hc. apply (rep_bytes _ _ _ _ Hr); [done|]. unfold i, KLOG_SIZE. lia.
  - rewrite (rep_head _ _ _ _ Hr). unfold u32.
    rewrite <- Zplus_mod_idemp_l, <- (Zminus_mod_idemp_l _ (saved k)), Z.mod_mod by lia.
    rewrite Zminus_mod_idemp_l, Zplus_mod_idemp_l. f_equal. unfold i. lia.
Qed.

(** *** Printing *)

Lemma screen_kputs s c : con c = true -> screen (kputs s c) = screen c ++ cstr s /\ con (kputs s c) = true.
Proof. intros Hc. unfold kputs. cbn. by rewrite Hc. Qed.

Lemma screen_kputc_loop s c :
  con c = true -> screen (foldl (fun c ch => kputc ch c) c s) = screen c ++ s /\
    con (foldl (fun c ch => kputc ch c) c s) = true.
Proof.
  revert c. induction s as [|b s IH]; intros c Hc; cbn [foldl]; [by rewrite app_nil_r|].
  destruct (IH (kputc b c) Hc) as [-> H]. split; [|done]. cbn. by rewrite Hc, <- app_assoc.
Qed.

Lemma screen_kputs_loop n (b : nat -> Z) c :
  con c = true ->
  screen (for_upto n (fun i => kputs [b i]) c) =
    screen c ++ List.filter (fun x => negb (x =? 0)) (b <$> seq 0 n) /\
  con (for_upto n (fun i => kputs [b i]) c) = true.
Proof.
  intros Hc. induction n as [|n [IH1 IH2]]; [cbn; by rewrite app_nil_r|].
  cbn [for_upto]. destruct (screen_kputs [b n] _ IH2) as [-> H]. split; [|done].
  rewrite IH1, seq_S, fmap_app, List.filter_app, <- app_assoc. cbn. by destruct (b n =? 0).
Qed.

(** The decimal numeral [kputdec] prints. *)
Definition decimal (v : Z) : list Z := if v =? 0 then [48] else rev (dec_digits 12 v []).
Definition numeral (ds : list Z) : Z := foldl (fun acc d => acc * 10 + (d - 48)) 0 ds.

Lemma screen_kputdec v c :
  con c = true -> screen (kputdec v c) = screen c ++ decimal v /\ con (kputdec v c) = true.
Proof.
  intros Hc. unfold kputdec, decimal. destruct (v =? 0); [cbn; by rewrite Hc|].
  by apply screen_kputc_loop.
Qed.

Lemma dec_digits_spec fuel v buf :
  0 <= v < 10 ^ Z.of_nat fuel ->
  exists ds, dec_digits fuel v buf = buf ++ ds /\ numeral (rev ds) = v /\
    Forall (fun d => 48 <= d <= 57) ds /\ (v = 0 -> ds = []) /\ (0 < v -> exists d ds', rev ds = d :: ds' /\ 48 < d).
Proof.
  revert v buf. induction fuel as [|fuel IH]; intros v buf Hv.
  - exists []. cbn in *. rewrite app_nil_r. split_and!; try done; lia.
  - rewrite Nat2Z.inj_succ, Z.pow_succ_r in Hv by lia. cbn [dec_digits].
    destruct (Z.ltb_spec 0 v).
    + destruct (IH (v / 10) (buf ++ [48 + v mod 10])) as (ds & -> & Hn & Hf & Hz & Hl).
      { split; [apply Z.div_pos; lia|apply Z.div_lt_upper_bound; lia]. }
      pose proof (Z.mod_pos_bound v 10 ltac:(lia)). pose proof (Z.div_mod v 10 ltac:(lia)).
      exists (48 + v mod 10 :: ds). rewrite <- app_assoc. split; [done|]. split.
      { cbn [rev]. unfold numeral in *. rewrite foldl_app. rewrite Hn. cbn. lia. }
      split; [constructor; [lia|done]|]. split; [lia|]. intros _. cbn [rev].
      destruct (Z.lt_ge_cases 0 (v / 10)) as [Hq|Hq].
      * destruct (Hl Hq) as (d & ds' & -> & Hd). by exists d, (ds' ++ [48 + v mod 10]).
      * assert (E : v / 10 = 0) by (pose proof (Z.div_pos v 10); lia).
        rewrite (Hz E). exists (48 + v mod 10), []. split; [done|lia].
    + exists []. rewrite app_nil_r. split_and!; try done; cbn; lia.
Qed.

Lemma decimal_spec v :
  0 <= v < 4294967296 ->
  numeral (decimal v) = v /\ Forall (fun d => 48 <= d <= 57) (decimal v) /\
  (0 < v -> exists d ds, decimal v = d :: ds /\ 48 < d).
Proof.
  intros Hv. unfold decimal. destruct (Z.eqb_spec v 0) as [->|Hne].
  - split; [done|]. split; [repeat constructor; lia|lia].
  - destruct (dec_digits_spec 12 v []) as (ds & -> & Hn & Hf & _ & Hl); [cbn; lia|].
    cbn [app]. split_and!; [done| |done]. by apply Forall_rev.
Qed.

(** *** What the next boot prints *)

Definition last_said (k : klog) (said : list Z) : list Z :=
  drop (length said - Z.to_nat (saved k)) said.

Lemma panic_text k said pos n when nv :
  rep k said pos n -> Forall (fun c => 0 <= c < 256) said ->
  (fun i => nvram_read (klog_panic_save k when true nv) (NVRAM_PANIC_BASE + 10 + Z.of_nat i))
    <$> seq 0 (Z.to_nat (saved k)) = last_said k said.
Proof.
  intros Hr Hb. pose proof (saved_bound k said pos n Hr) as Hs. unfold last_said.
  pose proof (saved_le k said pos n Hr) as Hle.
  apply list_eq. intros j. rewrite list_lookup_fmap, lookup_drop.
  destruct (Nat.lt_ge_cases j (Z.to_nat (saved k))).
  - rewrite lookup_seq_lt by lia. cbn [fmap option_fmap option_map]. rewrite Nat.add_0_l.
    assert (NVRAM_PANIC_BASE = 7152) by done. assert (RTC_NVRAM_SIZE = 8176) by done.
    unfold nvram_read. rewrite (proj2 (Z.leb_gt _ _)) by lia.
    rewrite (panic_save_at k when nv said pos n) by done.
    repeat (rewrite (proj2 (Z.eqb_neq _ _)) by lia).
    rewrite (proj2 (Z.ltb_ge _ (NVRAM_PANIC_BASE + 10))) by lia. rewrite andb_false_r.
    rewrite (proj2 (Z.leb_le _ _)), (proj2 (Z.ltb_lt _ _)) by lia. cbn [andb].
    replace (_ - NVRAM_PANIC_BASE - 10) with (Z.of_nat j) by lia.
    rewrite (saved_byte k said pos n j) by done.
    destruct (lookup_lt_is_Some_2 said (length said - Z.to_nat (saved k) + j)) as [c Hc]; [lia|].
    rewrite Hc. cbn. f_equal. apply u8_small. by apply (Forall_lookup_1 _ _ _ _ Hb Hc).
  - rewrite lookup_seq_ge by lia. symmetry. apply lookup_ge_None. lia.
Qed.

Lemma panic_word k said pos n when nv :
  rep k said pos n -> 0 <= when < 4294967296 ->
  let r i := nvram_read (klog_panic_save k when true nv) (NVRAM_PANIC_BASE + i) in
  r 0 = 80 /\ r 1 = 65 /\ r 2 = 78 /\ r 3 = 67 /\
  Z.lor (Z.shiftl (r 4) 8) (r 5) = saved k /\
  for_upto 4 (fun i w => Z.lor (u32 (Z.shiftl w 8)) (r (6 + Z.of_nat i))) 0 = when.
Proof.
  intros Hr Hw r. pose proof (saved_bound k said pos n Hr) as Hs.
  assert (Hat : forall i, 0 <= i < 10 -> r i = klog_panic_save k when true nv (NVRAM_PANIC_BASE + i)).
  { intros i Hi. unfold r, nvram_read. by rewrite (proj2 (Z.leb_gt _ _))
      by (unfold NVRAM_PANIC_BASE, RTC_NVRAM_SIZE in *; lia). }
  assert (Hsv : forall i, 0 <= i < 4 -> r (6 + i) = u8 (Z.shiftr when (24 - 8 * i))).
  { intros i Hi. rewrite Hat, (panic_save_at k when nv said pos n) by (done || lia).
    repeat (rewrite (proj2 (Z.eqb_neq _ _)) by lia).
    rewrite (proj2 (Z.leb_le (_ + 6) _)), (proj2 (Z.ltb_lt _ (_ + 10))) by lia. cbn [andb].
    repeat f_equal. lia. }
  split_and!; try (rewrite Hat, (panic_save_at k when nv said pos n) by (done || lia); done).
  - assert (E4 : r 4 = u8 (Z.shiftr (saved k) 8))
      by (rewrite Hat, (panic_save_at k when nv said pos n) by (done || lia); done).
    assert (E5 : r 5 = u8 (saved k))
      by (rewrite Hat, (panic_save_at k when nv said pos n) by (done || lia); done).
    rewrite E4, E5, lor_byte by apply u8_bound || (pose proof (u8_bound (Z.shiftr (saved k) 8)); lia).
    rewrite Z.shiftr_div_pow2 by lia. change (2 ^ 8) with 256. unfold u8.
    pose proof (Z.div_mod (saved k) 256 ltac:(lia)).
    rewrite (Z.mod_small (_ / 256)); [lia|]. split; [apply Z.div_pos|apply Z.div_lt_upper_bound]; lia.
  - cbn [for_upto]. rewrite !Hsv by lia. rewrite !Z.shiftr_div_pow2 by lia.
    assert (Hstep : forall a i, 0 <= i -> a = when / 256 ^ (i + 1) -> a < 16777216 ->
      Z.lor (u32 (Z.shiftl a 8)) (u8 (when / 256 ^ i)) = when / 256 ^ i).
    { intros a i Hi -> Ha. assert (0 <= when / 256 ^ (i + 1)) by (apply Z.div_pos; lia).
      rewrite Z.pow_add_r, Z.pow_1_r in * by lia.
      rewrite <- Z.div_div in * by (try apply Z.pow_pos_nonneg; lia).
      rewrite u32_small by (rewrite Z.shiftl_mul_pow2 by lia; change (2 ^ 8) with 256; lia).
      rewrite lor_byte by (apply u8_bound || lia). unfold u8.
      pose proof (Z.div_mod (when / 256 ^ i) 256). lia. }
    change (Z.of_nat 0) with 0; change (Z.of_nat 1) with 1; change (Z.of_nat 2) with 2;
      change (Z.of_nat 3) with 3.
    change (2 ^ (24 - 8 * 0)) with (256 ^ 3). change (2 ^ (24 - 8 * 1)) with (256 ^ 2).
    change (2 ^ (24 - 8 * 2)) with (256 ^ 1). change (2 ^ (24 - 8 * 3)) with (256 ^ 0).
    rewrite (Hstep 0 3), (Hstep _ 2), (Hstep _ 1), (Hstep _ 0); try done; try lia;
      try (apply Z.div_lt_upper_bound; cbn; lia).
    + by rewrite Z.pow_0_r, Z.div_1_r.
    + symmetry. apply Z.div_small. cbn. lia.
Qed.

Lemma panic_report_prints k said pos n when nv c :
  rep k said pos n -> Forall (fun b => 0 <= b < 256) said -> 0 <= when < 4294967296 ->
  con c = true ->
  exists c', klog_panic_report true (klog_panic_save k when true nv) c =
    (1, nvram_write NVRAM_PANIC_BASE 0 (klog_panic_save k when true nv), c') /\
  screen c' = screen c ++ panic_head ++ decimal when ++ panic_mid ++
    List.filter (fun b => negb (b =? 0)) (last_said k said) ++ panic_foot.
Proof.
  intros Hr Hb Hw Hc. destruct (panic_word k said pos n when nv Hr Hw) as (E0 & E1 & E2 & E3 & En & Ew).
  pose proof (saved_bound k said pos n Hr) as Hs.
  unfold klog_panic_report. cbv zeta. rewrite Z.add_0_r in E0.
  rewrite E0, E1, E2, E3. cbn [negb Z.eqb Pos.eqb orb]. rewrite En.
  rewrite (proj2 (Z.ltb_ge PANIC_TEXT_MAX (saved k))) by (unfold PANIC_TEXT_MAX; lia).
  assert (Ew' : for_upto 4 (fun i w => Z.lor (u32 (Z.shiftl w 8)) (nvram_read
    (klog_panic_save k when true nv) (NVRAM_PANIC_BASE + 6 + Z.of_nat i))) 0 = when).
  { etrans; [|exact Ew]. cbn [for_upto]. by rewrite !Z.add_assoc. }
  rewrite Ew'. eexists. split; [reflexivity|].
  edestruct (screen_kputs panic_foot) as [-> _].
  2: edestruct screen_kputs_loop as [-> _].
  - apply screen_kputs_loop, screen_kputs, screen_kputdec, screen_kputs, Hc.
  - apply screen_kputs, screen_kputdec, screen_kputs, Hc.
  - rewrite (panic_text k said pos n when nv Hr Hb).
    destruct (screen_kputs panic_head c Hc) as [H1 H2].
    destruct (screen_kputdec when _ H2) as [H3 H4].
    destruct (screen_kputs panic_mid _ H4) as [-> _]. rewrite H3, H1.
    rewrite <- !app_assoc. done.
Qed.

Definition written (cs : list call) : list Z :=
  concat ((fun c => match c with Write buf => buf | Read _ => [] end) <$> cs).

Lemma runs_said cs k said pos n :
  rep k said pos n -> exists pos' n', rep (fst (runs klog_call cs k)) (said ++ written cs) pos' n'.
Proof.
  revert k said pos n. induction cs as [|c cs IH]; intros k said pos n Hr.
  { exists pos, n. unfold written. cbn. by rewrite app_nil_r. }
  assert (H : exists pos' n', rep (fst (klog_call c k)) (said ++ written [c]) pos' n').
  { unfold written. destruct c as [buf|len]; cbn [fmap list_fmap concat]; rewrite ?app_nil_r.
    - eexists _, _. by apply write_rep.
    - cbn [klog_call]. unfold klog_read. destruct (len =? 0); [by eauto|]. cbn [klog_read_loop].
      destruct (head k =? tail k); [by eauto|].
      destruct (take_bytes_rep (Z.to_nat len) k said pos n [] Hr) as (k' & -> & Hr' & _). eauto. }
  destruct H as (pos1 & n1 & H). destruct (IH _ _ _ _ H) as (pos2 & n2 & H2).
  exists pos2, n2. cbn [runs]. rewrite <- app_assoc in H2.
  replace (written (c :: cs)) with (written [c] ++ written cs)
    by (unfold written; cbn; by rewrite app_nil_r).
  destruct (klog_call c k), (runs klog_call cs _). done.
Qed.

(** ** Properties *)

(** C20: the log is a bounded queue that drops its oldest bytes. Whatever
    writes and reads come from boot on, every result (the bytes each read
    gets, in order, EAGAIN included) is that of a queue of at most 8192
    bytes; [klog_pending] is its length, [klog_lost] the number of bytes
    dropped (in 32 bits), [klog_poll] says POLLIN exactly when it is not
    empty; and a read that sleeps, whatever is written and read meanwhile and
    whichever sleep a signal ends, does what the queue's does. The 32-bit
    counters may wrap. *)
Theorem klog_refines_queue (cs : list call) (env : list (bool * list call)) pid flags len :
  let '(k, rs) := runs klog_call cs klog_boot in
  let '(q, qs) := runs q_call cs (mk_queue [] 0) in
  rs = qs /\
  klog_pending k = Z.of_nat (length (unread q)) /\
  klog_lost k = u32 (Z.of_nat (missed q)) /\
  klog_poll k = (if bool_decide (unread q = []) then POLLOUT else Z.lor POLLOUT POLLIN) /\
  outcome_q
    (klog_read ((fun e => (fst e, fun k => fst (runs klog_call (snd e) k))) <$> env) k pid flags len)
    (q_read ((fun e => (fst e, fun q => fst (runs q_call (snd e) q))) <$> env) q flags len).
Proof.
  destruct (runs_q cs klog_boot (mk_queue [] 0)) as [Hr Hs].
  { exists [], 0%nat. split; [apply boot_rep|done]. }
  destruct (runs klog_call cs klog_boot) as [k rs], (runs q_call cs _) as [q qs].
  cbn [fst snd] in *. destruct (rep_q_counts k q Hr) as (Hp & Hl & He).
  split; [done|]. split; [done|]. split; [done|]. split.
  { unfold klog_poll. rewrite He. by destruct (bool_decide _). }
  apply read_q; [|done]. induction env as [|[sig es] env IH]; [constructor|].
  constructor; [|done]. split; [done|]. intros k' q' Hkq. by apply runs_q.
Qed.

(** A panic's last words survive the reboot. Whatever was written to the
    log and read from it, [klog_panic_save] and then, with nothing but the
    NVRAM kept, [klog_panic_report] prints the time and the last bytes
    written, up to 1014 of them (zero bytes are not printed), answers 1, and
    answers 0 and prints nothing the next time; no byte of the NVRAM below
    the kernel's kilobyte changes. *)
Theorem klog_panic_roundtrip (cs : list call) when nv c :
  let k := fst (runs klog_call cs klog_boot) in
  let nv' := klog_panic_save k when true nv in
  Forall (fun b => 0 <= b < 256) (written cs) -> 0 <= when < 4294967296 -> con c = true ->
  exists nv'' c',
    klog_panic_report true nv' c = (1, nv'', c') /\
    screen c' = screen c ++ panic_head ++ decimal when ++ panic_mid ++
      List.filter (fun b => negb (b =? 0)) (last_said k (written cs)) ++ panic_foot /\
    (forall c2, klog_panic_report true nv'' c2 = (0, nv'', c2)) /\
    (forall x, x < NVRAM_PANIC_BASE -> nv'' x = nv x).
Proof.
  intros k nv' Hb Hw Hc. destruct (runs_said cs klog_boot [] 0 0 boot_rep) as (pos & n & Hr).
  cbn [app] in Hr. fold k in Hr.
  destruct (panic_report_prints k (written cs) pos n when nv c Hr Hb Hw Hc) as (c' & E & Hs).
  eexists _, c'. split; [exact E|]. split; [exact Hs|].
  assert (Hbase : NVRAM_PANIC_BASE < RTC_NVRAM_SIZE) by done. split.
  - intros c2. unfold klog_panic_report, nvram_read, nvram_write.
    rewrite (proj2 (Z.leb_gt RTC_NVRAM_SIZE NVRAM_PANIC_BASE)) by done. by rewrite store8_eq.
  - intros x Hx. unfold nvram_write.
    rewrite (proj2 (Z.leb_gt RTC_NVRAM_SIZE NVRAM_PANIC_BASE)) by done.
    rewrite store8_ne by lia. unfold nv'.
    pose proof (panic_save_at k when nv (written cs) pos n x Hr) as ->. cbv zeta.
    repeat (rewrite (proj2 (Z.eqb_neq _ _)) by lia).
    rewrite !(proj2 (Z.leb_gt _ x)) by lia. done.
Qed.

Definition blank : console := mk_console klog_boot true [].

Lemma klog_panic_roundtrip_witness :
  exists nv'' c', klog_panic_report true
    (klog_panic_save (fst (runs klog_call [Write [72; 105; 10]; Read 2] klog_boot)) 1234 true (fun _ => 0))
    blank = (1, nv'', c') /\
  screen c' = panic_head ++ [49; 50; 51; 52] ++ panic_mid ++ [72; 105; 10] ++ panic_foot.
Proof.
  destruct (klog_panic_roundtrip [Write [72; 105; 10]; Read 2] 1234 (fun _ => 0) blank)
    as (nv'' & c' & H1 & H2 & _);
    [repeat constructor; lia|lia|done|].
  exists nv'', c'. split; [exact H1|]. rewrite H2. vm_compute. reflexivity.
Defined.

(** [kputdec] prints the number: the digits added to the screen are the
    decimal numeral of the value, without leading zeros. *)
Theorem kputdec_decimal v c :
  0 <= v < 4294967296 -> con c = true ->
  exists ds, screen (kputdec v c) = screen c ++ ds /\ numeral ds = v /\
    Forall (fun d => 48 <= d <= 57) ds /\ (0 < v -> exists d ds', ds = d :: ds' /\ 48 < d).
Proof.
  intros Hv Hc. exists (decimal v). split; [by apply screen_kputdec|]. by apply decimal_spec.
Qed.

Lemma kputdec_decimal_witness :
  exists ds, screen (kputdec 4294967295 blank) = ds /\ numeral ds = 4294967295.
Proof.
  destruct (kputdec_decimal 4294967295 blank) as (ds & H1 & H2 & _); [lia|done|].
  exists ds. split; [exact H1|exact H2].
Defined.

End KLOG.
