(* ===== verification/Pipe.v ===== *)
(** * Pipes, FIFOs and socket pairs (kernel/pipe.c)

    A ring of 4096 bytes in a page of its own, with counted ends. The model
    has the table of rings, the table of socket ends, the open files whose
    operations are this file's, and the memory the pages live in, which is
    any [PageMemory]. A pointer to a ring is its index in the table. *)

From S2P Require Import Prelude Pmm Pages.
Local Open Scope Z_scope.

Module PIPE.

(** ** The code *)

Definition PIPE_MAX : nat := 128.
Definition PIPE_SIZE : Z := 4096.
Definition PIPE_BUF : Z := 4096.
Definition RW_NONBLOCK : Z := 1.
Definition RW_PEEK : Z := 2.
Definition RW_NOSIGNAL : Z := 4.
Definition MSG_PEEK : Z := 2.
Definition MSG_DONTWAIT : Z := 64.
Definition MSG_WAITALL : Z := 256.
Definition MSG_NOSIGNAL : Z := 16384.
Definition SHUT_RD : Z := 0.
Definition SHUT_WR : Z := 1.
Definition SHUT_RDWR : Z := 2.
Definition SOCK_STREAM : Z := 1.
Definition S_IFIFO : Z := 4096.
Definition S_IFSOCK : Z := 49152.
Definition ST_DEV_SOCKFS : Z := 8.
Definition ST_DEV_PIPEFS : Z := 12.

Record pipe := mk_pipe {
  used : bool;
  buf : Z;
  head : Z;
  count : Z;
  readers : Z;
  writers : Z;
  rq : list Z;              (* the pids asleep on each queue *)
  wq : list Z;
  fifo_fs : Z;
  fifo_ino : Z;
  fifo_dev : Z;
  r_opens : Z;
  w_opens : Z;
}.

Definition no_pipe : pipe := mk_pipe false 0 0 0 0 0 [] [] 0 0 0 0 0.

Definition set_pused (b : bool) (p : pipe) : pipe :=
  mk_pipe b (buf p) (head p) (count p) (readers p) (writers p) (rq p) (wq p)
    (fifo_fs p) (fifo_ino p) (fifo_dev p) (r_opens p) (w_opens p).
Definition set_ring (h c : Z) (p : pipe) : pipe :=
  mk_pipe (used p) (buf p) h c (readers p) (writers p) (rq p) (wq p)
    (fifo_fs p) (fifo_ino p) (fifo_dev p) (r_opens p) (w_opens p).
Definition set_ends (r w : Z) (p : pipe) : pipe :=
  mk_pipe (used p) (buf p) (head p) (count p) r w (rq p) (wq p)
    (fifo_fs p) (fifo_ino p) (fifo_dev p) (r_opens p) (w_opens p).
Definition set_queues (r w : list Z) (p : pipe) : pipe :=
  mk_pipe (used p) (buf p) (head p) (count p) (readers p) (writers p) r w
    (fifo_fs p) (fifo_ino p) (fifo_dev p) (r_opens p) (w_opens p).
Definition set_name (fs ino dev : Z) (p : pipe) : pipe :=
  mk_pipe (used p) (buf p) (head p) (count p) (readers p) (writers p) (rq p) (wq p)
    fs ino dev (r_opens p) (w_opens p).
Definition set_opens (r w : Z) (p : pipe) : pipe :=
  mk_pipe (used p) (buf p) (head p) (count p) (readers p) (writers p) (rq p) (wq p)
    (fifo_fs p) (fifo_ino p) (fifo_dev p) r w.

(** One end of a socket pair. *)
Record uend := mk_uend {
  u_used : bool;
  rx : option nat;
  tx : option nat;
  shut_rd : bool;
  shut_wr : bool;
}.

(** An open file on one of this file's objects; [f_priv] is the index of its
    ring, or of its socket end. *)
Inductive fops := pipe_ops | fifo_ops | usock_ops.
#[export] Instance fops_eq_dec : EqDecision fops.
Proof. solve_decision. Defined.
Record file := mk_file { f_used : bool; f_ops : fops; f_priv : nat; f_flags : Z }.

Section code.
Context {W : Type} `{PageMemory W}.

(** [sigpipe] is the pids sent SIGPIPE, in order. *)
Record state := mk_state {
  pipes : list pipe;
  uends : list uend;
  files : list file;
  fifo_wait : list Z;
  sigpipe : list Z;
  mem : W;
}.

Definition set_pipe (i : nat) (p : pipe) (s : state) : state :=
  mk_state (<[i := p]> (pipes s)) (uends s) (files s) (fifo_wait s) (sigpipe s) (mem s).
Definition set_uend (i : nat) (u : uend) (s : state) : state :=
  mk_state (pipes s) (<[i := u]> (uends s)) (files s) (fifo_wait s) (sigpipe s) (mem s).
Definition set_file (i : nat) (f : file) (s : state) : state :=
  mk_state (pipes s) (uends s) (<[i := f]> (files s)) (fifo_wait s) (sigpipe s) (mem s).
Definition set_fifo_wait (q : list Z) (s : state) : state :=
  mk_state (pipes s) (uends s) (files s) q (sigpipe s) (mem s).
Definition set_mem (w : W) (s : state) : state :=
  mk_state (pipes s) (uends s) (files s) (fifo_wait s) (sigpipe s) w.
Definition signal_send (pid : Z) (s : state) : state :=
  mk_state (pipes s) (uends s) (files s) (fifo_wait s) (sigpipe s ++ [pid]) (mem s).
Definition upd_pipe (i : nat) (f : pipe -> pipe) (s : state) : state :=
  match pipes s !! i with Some p => set_pipe i (f p) s | None => s end.

Definition wake_everyone (i : nat) (s : state) : state := upd_pipe i (set_queues [] []) s.

(** What happens at each sleep of a call: whether a signal is pending before
    it, and what others do during it. *)
Definition env : Type := list (bool * (state -> state)).

(** How a call ends: with a result, the bytes read and what is left of its
    environment; asleep; or out of fuel or through a bad pointer. *)
Inductive outcome :=
  | Ret (r : Z) (out : list Z) (s : state) (e : env)
  | Asleep (s : state)
  | Stuck.

(** *** The ring's own read and write *)

(** [ring_read]'s copying loop. *)
Fixpoint copy_out (fuel : nat) (w : W) (p : pipe) (at_ n len : Z) (out : list Z) : list Z * Z :=
  match fuel with
  | O => (out, at_)
  | S fuel' =>
      if (n <? len) && (n <? count p)
      then copy_out fuel' w p ((at_ + 1) mod PIPE_SIZE) (n + 1) len
             (out ++ [pg_load w (buf p + at_)])
      else (out, at_)
  end.

Fixpoint ring_read_loop (e : env) (s : state) (i : nat) (pid len how : Z) : outcome :=
  match pipes s !! i with
  | None => Stuck
  | Some p =>
      if 0 <? count p then
        let '(out, at_) := copy_out (Z.to_nat (count p)) (mem s) p (head p) 0 len [] in
        let n := Z.of_nat (length out) in
        let s := if negb (has how RW_PEEK)
                 then wake_everyone i (set_pipe i (set_ring at_ (u32 (count p - n)) p) s) else s in
        Ret n out s e
      else if writers p =? 0 then Ret 0 [] s e
      else if has how RW_NONBLOCK then Ret (- EAGAIN) [] s e
      else
        let asleep := set_pipe i (set_queues (rq p ++ [pid]) (wq p) p) s in
        match e with
        | [] => Asleep asleep
        | (sig, others) :: e' =>
            if (sig : bool) then Ret (- EINTR) [] s e'
            else ring_read_loop e' (others asleep) i pid len how
        end
  end.

Definition ring_read (e : env) (s : state) (i : nat) (pid len how : Z) : outcome :=
  if len =? 0 then Ret 0 [] s e else ring_read_loop e s i pid len how.

(** [ring_write]'s copying loop, over the bytes it is to copy. *)
Fixpoint copy_in (bs : list Z) (p : pipe) (w : W) : pipe * W :=
  match bs with
  | [] => (p, w)
  | b :: bs' =>
      copy_in bs' (set_ring (head p) (u32 (count p + 1)) p)
        (pg_store (buf p + u32 (head p + count p) mod PIPE_SIZE) b w)
  end.

Definition done_or (done err : Z) : Z := if 0 <? done then done else err.

(** Every turn copies at least a byte or sleeps. *)
Fixpoint ring_write_loop (fuel : nat) (e : env) (s : state) (i : nat) (pid : Z) (bs : list Z)
    (done how : Z) : outcome :=
  let len := Z.of_nat (length bs) in
  match fuel with
  | O => Stuck
  | S fuel' =>
      if negb (done <? len) then Ret done [] s e
      else
        match pipes s !! i with
        | None => Stuck
        | Some p =>
            if readers p =? 0 then
              Ret (done_or done (- EPIPE)) []
                  (if negb (has how RW_NOSIGNAL) then signal_send pid s else s) e
            else
              let room := u32 (PIPE_SIZE - count p) in
              let want := len - done in
              if (if len <=? PIPE_BUF then room <? want else room =? 0) then
                if has how RW_NONBLOCK then Ret (done_or done (- EAGAIN)) [] s e
                else
                  let asleep := set_pipe i (set_queues (rq p) (wq p ++ [pid]) p) s in
                  match e with
                  | [] => Asleep asleep
                  | (sig, others) :: e' =>
                      if (sig : bool) then Ret (done_or done (- EINTR)) [] s e'
                      else ring_write_loop fuel' e' (others asleep) i pid bs done how
                  end
              else
                let want := if room <? want then room else want in
                let '(p', w') := copy_in (sub bs (Z.to_nat done) (Z.to_nat want)) p (mem s) in
                ring_write_loop fuel' e (wake_everyone i (set_pipe i p' (set_mem w' s)))
                  i pid bs (done + want) how
        end
  end.

Definition ring_write (e : env) (s : state) (i : nat) (pid : Z) (bs : list Z) (how : Z) : outcome :=
  ring_write_loop (S (length bs + length e)) e s i pid bs 0 how.

(** *** Rings: made, and dropped *)

Definition ring_alloc (s : state) : option nat * state :=
  match find_idx (fun p => negb (used p)) (pipes s) with
  | None => (None, s)
  | Some i =>
      let '(a, w) := pg_alloc (mem s) in
      let s := set_mem w s in
      if a =? 0 then (None, set_pipe i no_pipe s)
      else (Some i, set_pipe i (mk_pipe true a 0 0 1 1 [] [] 0 0 0 0 0) s)
  end.

Definition ring_free (i : nat) (s : state) : state :=
  match pipes s !! i with
  | Some p => set_pipe i (set_pused false p) (set_mem (pg_free (buf p) (mem s)) s)
  | None => s
  end.

Definition ring_put (i : nat) (reader : bool) (s : state) : state :=
  let s := upd_pipe i (fun p => if reader then set_ends (readers p - 1) (writers p) p
                                else set_ends (readers p) (writers p - 1) p) s in
  let s := wake_everyone i s in
  match pipes s !! i with
  | Some p => if (readers p =? 0) && (writers p =? 0) then ring_free i s else s
  | None => s
  end.

Definition ring_put_at (o : option nat) (reader : bool) (s : state) : state :=
  match o with Some i => ring_put i reader s | None => s end.

(** *** The descriptor layer, as these calls use it *)

(** A new open file. [err] is the error of a task with no descriptor left;
    otherwise the table of open files may be full. *)
Definition fd_install (err : option Z) (ops : fops) (priv : nat) (flags : Z) (s : state) : Z * state :=
  match err with
  | Some e => (e, s)
  | None =>
      match find_idx (fun f => negb (f_used f)) (files s) with
      | None => (- ENFILE, s)
      | Some k => (Z.of_nat k, set_file k (mk_file true ops priv (Z.ldiff flags O_CLOEXEC)) s)
      end
  end.

Definition nonblock (flags : Z) : Z := if has flags O_NONBLOCK then RW_NONBLOCK else 0.

Definition pipe_read (e : env) (s : state) (f : file) (pid len : Z) : outcome :=
  ring_read e s (f_priv f) pid len (nonblock (f_flags f)).
Definition pipe_write (e : env) (s : state) (f : file) (pid : Z) (bs : list Z) : outcome :=
  ring_write e s (f_priv f) pid bs (nonblock (f_flags f)).
Definition pipe_close (f : file) (s : state) : state :=
  ring_put (f_priv f) (negb (Z.land (f_flags f) O_ACCMODE =? O_WRONLY)) s.
Definition fifo_close (f : file) (s : state) : state :=
  let acc := Z.land (f_flags f) O_ACCMODE in
  let s := if acc =? O_RDWR
           then upd_pipe (f_priv f) (fun p => set_ends (readers p) (writers p - 1) p) s else s in
  ring_put (f_priv f) (negb (acc =? O_WRONLY)) s.

Definition usock_close_raw (j : nat) (s : state) : state :=
  match uends s !! j with
  | None => s
  | Some u =>
      let s := if negb (shut_rd u) then ring_put_at (rx u) true s else s in
      let s := if negb (shut_wr u) then ring_put_at (tx u) false s else s in
      set_uend j (mk_uend false (rx u) (tx u) (shut_rd u) (shut_wr u)) s
  end.
Definition usock_close (f : file) (s : state) : state := usock_close_raw (f_priv f) s.

(** The last reference to an open file goes. *)
Definition file_put (k : nat) (s : state) : state :=
  match files s !! k with
  | Some f =>
      if f_used f then
        let s := match f_ops f with
                 | pipe_ops => pipe_close f s
                 | fifo_ops => fifo_close f s
                 | usock_ops => usock_close f s
                 end in
        set_file k (mk_file false (f_ops f) (f_priv f) (f_flags f)) s
      else s
  | None => s
  end.

(** *** stat, ioctl and poll *)

Record stat := mk_stat { st_mode : Z; st_size : Z; st_ino : Z; st_dev : Z }.

Definition pipe_fstat (s : state) (f : file) : option stat :=
  p ← pipes s !! f_priv f;
  Some (mk_stat S_IFIFO (count p)
    (if negb (fifo_ino p =? 0) then fifo_ino p else Z.lor 1073741824 (Z.of_nat (f_priv f) + 1))
    (if fifo_ino p =? 0 then ST_DEV_PIPEFS else fifo_dev p)).

(** [arg] is what the kernel's copy of the argument holds, [None] if it is
    null; the result has what it holds after. *)
Definition fionbio (k : nat) (f : file) (v : Z) (s : state) : state :=
  set_file k (mk_file (f_used f) (f_ops f) (f_priv f)
    (if negb (v =? 0) then Z.lor (f_flags f) O_NONBLOCK else Z.ldiff (f_flags f) O_NONBLOCK)) s.

Definition pipe_ioctl (s : state) (k : nat) (request : Z) (arg : option Z) : option (Z * option Z * state) :=
  f ← files s !! k;
  if request =? FIONREAD then
    p ← pipes s !! f_priv f; Some (0, (fun _ => count p) <$> arg, s)
  else if request =? FIONBIO then v ← arg; Some (0, arg, fionbio k f v s)
  else Some (- ENOTTY, arg, s).

Definition pipe_poll (s : state) (f : file) : option Z :=
  p ← pipes s !! f_priv f;
  Some (if Z.land (f_flags f) O_ACCMODE =? O_WRONLY then
          if readers p =? 0 then POLLERR else if count p <? PIPE_SIZE then POLLOUT else 0
        else if 0 <? count p then POLLIN
        else if writers p =? 0 then POLLHUP else 0).

Definition fifo_poll (s : state) (f : file) : option Z :=
  if Z.land (f_flags f) O_ACCMODE =? O_RDWR then
    p ← pipes s !! f_priv f;
    Some (Z.lor (if negb (count p =? 0) then POLLIN else 0) (if count p <? PIPE_SIZE then POLLOUT else 0))
  else pipe_poll s f.

(** *** FIFOs *)

Definition fifo_find (s : state) (fs ino dev : Z) : option nat :=
  find_idx (fun p => used p && (fifo_ino p =? ino) && (fifo_dev p =? dev) && (fifo_fs p =? fs)) (pipes s).

(** The wait for the other end: [Ret 0] when it is over. *)
Fixpoint fifo_wait_loop (e : env) (s : state) (i : nat) (pid : Z) (reads : bool) (seen : Z) : outcome :=
  match pipes s !! i with
  | None => Stuck
  | Some p =>
      if ((if reads then writers p else readers p) =? 0) &&
         ((if reads then w_opens p else r_opens p) =? seen) then
        let asleep := set_fifo_wait (fifo_wait s ++ [pid]) s in
        match e with
        | [] => Asleep asleep
        | (sig, others) :: e' =>
            if (sig : bool) then Ret (- EINTR) [] (ring_put i reads s) e'
            else fifo_wait_loop e' (others asleep) i pid reads seen
        end
      else Ret 0 [] s e
  end.

Definition fifo_open (e : env) (s : state) (pid fs ino dev flags : Z) (err : option Z) : outcome :=
  let '(po, s) :=
    match fifo_find s fs ino dev with
    | Some i => (Some i, s)
    | None =>
        match ring_alloc s with
        | (None, s) => (None, s)
        | (Some i, s) => (Some i, upd_pipe i (fun p => set_name fs ino dev (set_ends 0 0 p)) s)
        end
    end in
  match po with
  | None => Ret (- ENFILE) [] s e
  | Some i =>
      let acc := Z.land flags O_ACCMODE in
      let reads := (acc =? O_RDONLY) || (acc =? O_RDWR) in
      let writes := (acc =? O_WRONLY) || (acc =? O_RDWR) in
      match pipes s !! i with
      | None => Stuck
      | Some p =>
          if (acc =? O_WRONLY) && (readers p =? 0) && has flags O_NONBLOCK then
            Ret (- ENXIO) [] (if writers p =? 0 then ring_free i s else s) e
          else
            let p := set_ends (readers p + Z.b2z reads) (writers p + Z.b2z writes) p in
            let p := set_opens (u32 (r_opens p + Z.b2z reads)) (u32 (w_opens p + Z.b2z writes)) p in
            let s := wake_everyone i (set_pipe i p s) in
            let s := set_fifo_wait [] s in
            let waited :=
              if negb (acc =? O_RDWR) && negb ((acc =? O_RDONLY) && has flags O_NONBLOCK)
              then fifo_wait_loop e s i pid reads (if reads then w_opens p else r_opens p)
              else Ret 0 [] s e in
            match waited with
            | Ret 0 _ s e =>
                let '(fd, s) := fd_install err fifo_ops i flags s in
                if fd <? 0 then
                  let s := if acc =? O_RDWR
                           then upd_pipe i (fun p => set_ends (readers p) (writers p - 1) p) s else s in
                  Ret fd [] (ring_put i (negb (acc =? O_WRONLY)) s) e
                else Ret fd [] s e
            | other => other
            end
      end
  end.

(** *** pipe() *)

(** The result, and the two open files of a success. *)
Definition pipe_create (s : state) (flags : Z) (err1 err2 : option Z) : Z * option (Z * Z) * state :=
  if negb (Z.ldiff flags (Z.lor O_NONBLOCK O_CLOEXEC) =? 0) then (- EINVAL, None, s)
  else
    match ring_alloc s with
    | (None, s) => (- ENFILE, None, s)
    | (Some i, s) =>
        let '(r, s) := fd_install err1 pipe_ops i (Z.lor O_RDONLY flags) s in
        if r <? 0 then (r, None, ring_free i s)
        else
          let '(w, s) := fd_install err2 pipe_ops i (Z.lor O_WRONLY flags) s in
          if w <? 0 then
            let s := upd_pipe i (fun p => set_ends (readers p) 0 p) s in
            (w, None, file_put (Z.to_nat r) s)
          else (0, Some (r, w), s)
    end.

(** *** Socket pairs *)

Definition usock_send (e : env) (s : state) (f : file) (pid : Z) (bs : list Z) (flags : Z) : outcome :=
  match uends s !! f_priv f with
  | None => Stuck
  | Some u =>
      if shut_wr u then
        Ret (- EPIPE) [] (if negb (has flags MSG_NOSIGNAL) then signal_send pid s else s) e
      else
        let how := if has (f_flags f) O_NONBLOCK || has flags MSG_DONTWAIT then RW_NONBLOCK else 0 in
        let how := if has flags MSG_NOSIGNAL then Z.lor how RW_NOSIGNAL else how in
        match tx u with Some i => ring_write e s i pid bs how | None => Stuck end
  end.

(** MSG_WAITALL's loop: every turn reads something or is the last. *)
Fixpoint recv_all (fuel : nat) (e : env) (s : state) (i : nat) (pid len how : Z) (out : list Z) : outcome :=
  let done := Z.of_nat (length out) in
  if negb (done <? len) then Ret done out s e
  else
    match fuel with
    | O => Stuck
    | S fuel' =>
        match ring_read e s i pid (len - done) how with
        | Ret n got s e =>
            if n <=? 0 then Ret (done_or done n) out s e
            else recv_all fuel' e s i pid len how (out ++ got)
        | other => other
        end
    end.

Definition usock_recv (e : env) (s : state) (f : file) (pid len flags : Z) : outcome :=
  match uends s !! f_priv f with
  | None => Stuck
  | Some u =>
      if shut_rd u then Ret 0 [] s e
      else
        let how := if has (f_flags f) O_NONBLOCK || has flags MSG_DONTWAIT then RW_NONBLOCK else 0 in
        let how := if has flags MSG_PEEK then Z.lor how RW_PEEK else how in
        match rx u with
        | None => Stuck
        | Some i =>
            if has flags MSG_WAITALL then recv_all (Z.to_nat len) e s i pid len how []
            else ring_read e s i pid len how
        end
  end.

Definition usock_read (e : env) (s : state) (f : file) (pid len : Z) : outcome :=
  usock_recv e s f pid len 0.
Definition usock_write (e : env) (s : state) (f : file) (pid : Z) (bs : list Z) : outcome :=
  usock_send e s f pid bs 0.

Definition usock_ioctl (s : state) (k : nat) (request : Z) (arg : option Z) : option (Z * option Z * state) :=
  f ← files s !! k;
  if request =? FIONREAD then
    u ← uends s !! f_priv f;
    if shut_rd u then Some (0, (fun _ => 0) <$> arg, s)
    else i ← rx u; p ← pipes s !! i; Some (0, (fun _ => count p) <$> arg, s)
  else if request =? FIONBIO then v ← arg; Some (0, arg, fionbio k f v s)
  else Some (- ENOTTY, arg, s).

Definition usock_poll (s : state) (f : file) : option Z :=
  u ← uends s !! f_priv f;
  r ← (if shut_rd u then Some POLLIN
       else i ← rx u; p ← pipes s !! i;
            Some (if 0 <? count p then POLLIN
                  else if writers p =? 0 then Z.lor POLLIN POLLHUP else 0));
  w ← (if shut_wr u then Some POLLERR
       else i ← tx u; p ← pipes s !! i;
            Some (if readers p =? 0 then POLLERR else if count p <? PIPE_SIZE then POLLOUT else 0));
  Some (Z.lor r w).

Definition usock_shutdown (s : state) (f : file) (how : Z) : Z * state :=
  if negb (how =? SHUT_RD) && negb (how =? SHUT_WR) && negb (how =? SHUT_RDWR) then (- EINVAL, s)
  else
    match uends s !! f_priv f with
    | None => (0, s)
    | Some u =>
        let '(u, s) :=
          if ((how =? SHUT_RD) || (how =? SHUT_RDWR)) && negb (shut_rd u) then
            let u' := mk_uend (u_used u) (rx u) (tx u) true (shut_wr u) in
            (u', ring_put_at (rx u) true (set_uend (f_priv f) u' s))
          else (u, s) in
        if ((how =? SHUT_WR) || (how =? SHUT_RDWR)) && negb (shut_wr u) then
          let u' := mk_uend (u_used u) (rx u) (tx u) (shut_rd u) true in
          (0, ring_put_at (tx u) false (set_uend (f_priv f) u' s))
        else (0, s)
    end.

Definition uend_alloc (s : state) : option nat * state :=
  match find_idx (fun u => negb (u_used u)) (uends s) with
  | None => (None, s)
  | Some j => (Some j, set_uend j (mk_uend true None None false false) s)
  end.

Definition put_new_ring (o : option nat) (s : state) : state :=
  match o with Some i => ring_put i false (ring_put i true s) | None => s end.
Definition put_new_uend (o : option nat) (s : state) : state :=
  match o with
  | Some j => match uends s !! j with
              | Some u => set_uend j (mk_uend false (rx u) (tx u) (shut_rd u) (shut_wr u)) s
              | None => s
              end
  | None => s
  end.

Definition usock_pair (s : state) (type : Z) (err1 err2 : option Z) : Z * option (Z * Z) * state :=
  let flags := Z.land type (Z.lor O_NONBLOCK O_CLOEXEC) in
  if negb (Z.ldiff type (Z.lor O_NONBLOCK O_CLOEXEC) =? SOCK_STREAM) then (- EPROTONOSUPPORT, None, s)
  else
    let '(ab, s) := ring_alloc s in
    let '(ba, s) := ring_alloc s in
    let '(a, s) := uend_alloc s in
    let '(b, s) := uend_alloc s in
    match ab, ba, a, b with
    | Some ab, Some ba, Some a, Some b =>
        let s := set_uend a (mk_uend true (Some ba) (Some ab) false false) s in
        let s := set_uend b (mk_uend true (Some ab) (Some ba) false false) s in
        let '(fa, s) := fd_install err1 usock_ops a (Z.lor O_RDWR flags) s in
        if fa <? 0 then (fa, None, usock_close_raw b (usock_close_raw a s))
        else
          let '(fb, s) := fd_install err2 usock_ops b (Z.lor O_RDWR flags) s in
          if fb <? 0 then (fb, None, usock_close_raw b (file_put (Z.to_nat fa) s))
          else (0, Some (fa, fb), s)
    | _, _, _, _ =>
        (- ENFILE, None, put_new_uend b (put_new_uend a (put_new_ring ba (put_new_ring ab s))))
    end.
End code.

(** ** The invariant: every end open anywhere is counted *)

Definition is_wronly (f : file) : bool := Z.land (f_flags f) O_ACCMODE =? O_WRONLY.
Definition is_rdwr (f : file) : bool := Z.land (f_flags f) O_ACCMODE =? O_RDWR.

(** The ends an open file, or a socket end, has of ring [i]. *)
Definition reads_ring (i : nat) (f : file) : bool :=
  f_used f && negb (bool_decide (f_ops f = usock_ops)) && (f_priv f =? i)%nat && negb (is_wronly f).
Definition writes_ring (i : nat) (f : file) : bool :=
  f_used f && negb (bool_decide (f_ops f = usock_ops)) && (f_priv f =? i)%nat &&
  (is_wronly f || (bool_decide (f_ops f = fifo_ops) && is_rdwr f)).
Definition points_at (i : nat) (o : option nat) : bool :=
  match o with Some j => (j =? i)%nat | None => false end.
Definition uend_reads (i : nat) (u : uend) : bool := u_used u && points_at i (rx u) && negb (shut_rd u).
Definition uend_writes (i : nat) (u : uend) : bool := u_used u && points_at i (tx u) && negb (shut_wr u).
Definition is_end (i : nat) (r : bool) (x : nat * bool) : bool := (fst x =? i)%nat && Bool.eqb (snd x) r.

Definition ring_wf (p : pipe) : Prop := 0 <= head p < 4096 /\ 0 <= count p <= 4096.

Section inv.
Context {W : Type} `{PageMemory W}.
#[local] Abbreviation state := (@state W).

Definition ring_at (s : state) (i : nat) : option pipe :=
  match pipes s !! i with Some p => if used p then Some p else None | None => None end.

(** The readers and writers of ring [i]: open files, socket ends, and the
    ends [x] held by calls still in progress. *)
Definition nread (s : state) (x : list (nat * bool)) (i : nat) : nat :=
  count_if (reads_ring i) (files s) + count_if (uend_reads i) (uends s) + count_if (is_end i true) x.
Definition nwrite (s : state) (x : list (nat * bool)) (i : nat) : nat :=
  count_if (writes_ring i) (files s) + count_if (uend_writes i) (uends s) + count_if (is_end i false) x.

Definition ends_ok (s : state) (x : list (nat * bool)) (i : nat) : Prop :=
  match ring_at s i with
  | Some p => readers p = Z.of_nat (nread s x i) /\ writers p = Z.of_nat (nwrite s x i) /\
              (0 < nread s x i + nwrite s x i)%nat
  | None => nread s x i = 0%nat /\ nwrite s x i = 0%nat
  end.

(** How many rings have the page at [a]. *)
Definition owned (s : state) (a : Z) : nat := count_if (fun p => used p && (buf p =? a)) (pipes s).

Definition is_usock (j : nat) (f : file) : bool :=
  f_used f && bool_decide (f_ops f = usock_ops) && (f_priv f =? j)%nat.
Definition usock_ok (s : state) (j : nat) : Prop :=
  (count_if (is_usock j) (files s) <= 1)%nat /\
  ((0 < count_if (is_usock j) (files s))%nat -> exists u, uends s !! j = Some u /\ u_used u = true).

(** [base] is the pages others hold. *)
Record inv (x : list (nat * bool)) (base : Z -> Z) (s : state) : Prop := {
  i_ok : pg_ok (mem s);
  i_base : forall a, 0 <= base a;
  i_pages : forall a, pg_held (mem s) a = base a + Z.of_nat (owned s a);
  i_apart : forall a, (owned s a <= 1)%nat;
  i_ring : forall i p, ring_at s i = Some p -> ring_wf p;
  i_ends : forall i, ends_ok s x i;
  i_usock : forall j, usock_ok s j;
}.

Lemma ring_at_lookup s i p : ring_at s i = Some p <-> pipes s !! i = Some p /\ used p = true.
Proof using Type.
  unfold ring_at. destruct (pipes s !! i) as [q|]; [destruct (used q) eqn:E|];
    split; intros; destruct_and?; simplify_eq; try done; congruence.
Qed.

Lemma ring_at_set s i p j :
  (i < length (pipes s))%nat ->
  ring_at (set_pipe i p s) j = if decide (j = i) then (if used p then Some p else None) else ring_at s j.
Proof using Type.
  intros Hi. unfold ring_at. cbn. case_decide as E.
  - subst. by rewrite list_lookup_insert_eq.
  - by rewrite list_lookup_insert_ne.
Qed.

Lemma owned_pos s i p : ring_at s i = Some p -> (0 < owned s (buf p))%nat.
Proof using Type.
  intros [Hi Hu]%ring_at_lookup. apply count_if_pos. exists i, p. by rewrite Hu, Z.eqb_refl.
Qed.

(** The page of a ring is held. *)
Lemma ring_held x base s i p : inv x base s -> ring_at s i = Some p -> 0 < pg_held (mem s) (buf p).
Proof using Type.
  intros Hinv Hi. rewrite (i_pages _ _ _ Hinv). pose proof (i_base _ _ _ Hinv (buf p)).
  pose proof (owned_pos s i p Hi). lia.
Qed.

Lemma owned_set (s : state) i p p' a :
  pipes s !! i = Some p ->
  (owned (set_pipe i p' s) a + (if used p && (buf p =? a)%Z then 1 else 0) =
   owned s a + (if used p' && (buf p' =? a)%Z then 1 else 0))%nat.
Proof using Type. intros Hi. apply (count_if_insert (fun p => used p && (buf p =? a)) _ _ _ _ Hi). Qed.

(** Rings at different places have different pages. *)
Lemma rings_apart x base s i j p q :
  inv x base s -> ring_at s i = Some p -> ring_at s j = Some q -> i <> j -> buf p <> buf q.
Proof using Type.
  intros Hinv Hi Hj Hne E. pose proof (i_apart _ _ _ Hinv (buf p)) as Hle.
  apply ring_at_lookup in Hi as [Hi Hu], Hj as [Hj Hu'].
  pose proof (owned_set s i p no_pipe (buf p) Hi) as H1. rewrite Hu, Z.eqb_refl in H1.
  change (used no_pipe) with false in H1. cbn [andb] in H1.
  assert (Hj' : pipes (set_pipe i no_pipe s) !! j = Some q) by (cbn; by rewrite list_lookup_insert_ne).
  assert (0 < owned (set_pipe i no_pipe s) (buf p))%nat; [|lia].
  apply count_if_pos. exists j, q. split; [done|]. by rewrite Hu', E, Z.eqb_refl.
Qed.

(** Only the tables and the memory matter. *)
Lemma inv_ext x x' base s s' :
  pipes s' = pipes s -> uends s' = uends s -> files s' = files s -> mem s' = mem s ->
  (forall i r, count_if (is_end i r) x' = count_if (is_end i r) x) ->
  inv x base s -> inv x' base s'.
Proof using Type.
  intros E1 E2 E3 E4 Ex [H1 H2 H3 H4 H5 H6 H7].
  constructor; unfold owned, ring_at, ends_ok, usock_ok, nread, nwrite in *;
    unfold ring_at in *; rewrite ?E1, ?E2, ?E3, ?E4; try done.
  intros i. rewrite !Ex. apply H6.
Qed.

(** A change to a ring that keeps its page and its ends. *)
Lemma inv_set_pipe x base s i p p' :
  ring_at s i = Some p -> used p' = true -> buf p' = buf p -> readers p' = readers p ->
  writers p' = writers p -> ring_wf p' -> inv x base s -> inv x base (set_pipe i p' s).
Proof using Type.
  intros Hi Hu Hb Hr Hw Hwf [H1 H2 H3 H4 H5 H6 H7]. pose proof Hi as [Hl Hup]%ring_at_lookup.
  pose proof (lookup_lt_Some _ _ _ Hl) as Hlt.
  assert (Hown : forall a, owned (set_pipe i p' s) a = owned s a).
  { intros a. pose proof (owned_set s i p p' a Hl) as E. rewrite Hup, Hu, Hb in E. lia. }
  constructor; try done.
  - intros a. rewrite Hown. apply H3.
  - intros a. rewrite Hown. apply H4.
  - intros j q. rewrite ring_at_set by done. case_decide; [|apply H5].
    rewrite Hu. intros [= <-]. done.
  - intros j. specialize (H6 j). unfold ends_ok in *. rewrite ring_at_set by done.
    case_decide; [|done]. subst j. rewrite Hu, Hi in *. by rewrite Hr, Hw.
Qed.

Lemma upd_pipe_eq (s : state) i f p : pipes s !! i = Some p -> upd_pipe i f s = set_pipe i (f p) s.
Proof using Type. intros E. unfold upd_pipe. by rewrite E. Qed.

(** A change to an entry that is not a ring. *)
Lemma inv_set_unused x base s i p p' :
  pipes s !! i = Some p -> used p = false -> used p' = false -> inv x base s ->
  inv x base (set_pipe i p' s).
Proof using Type.
  intros E Hu Hu' [H1 H2 H3 H4 H5 H6 H7]. pose proof (lookup_lt_Some _ _ _ E) as Hlt.
  assert (Hown : forall a, owned (set_pipe i p' s) a = owned s a).
  { intros a. pose proof (owned_set s i p p' a E) as Eo. rewrite Hu, Hu' in Eo. cbn [andb] in Eo. lia. }
  assert (Hat : forall j, ring_at (set_pipe i p' s) j = ring_at s j).
  { intros j. rewrite ring_at_set by done. case_decide; [|done]. subst. rewrite Hu'.
    unfold ring_at. by rewrite E, Hu. }
  constructor; try done.
  - intros a. rewrite Hown. apply H3.
  - intros a. rewrite Hown. apply H4.
  - intros j q. rewrite Hat. apply H5.
  - intros j. specialize (H6 j). unfold ends_ok in *. by rewrite Hat.
Qed.

Lemma inv_wake x base s i : inv x base s -> inv x base (wake_everyone i s).
Proof using Type.
  intros Hinv. unfold wake_everyone, upd_pipe. destruct (pipes s !! i) as [p|] eqn:E; [|done].
  destruct (used p) eqn:Hu; [|by apply (inv_set_unused _ _ _ _ p)].
  assert (Hat : ring_at s i = Some p) by by apply ring_at_lookup.
  apply (inv_set_pipe _ _ _ _ p); try done. exact (i_ring _ _ _ Hinv i p Hat).
Qed.

(** *** Ends come and go *)

Lemma nread_cons (s : state) i r x j :
  nread s ((i, r) :: x) j = (nread s x j + (if (i =? j)%nat && r then 1 else 0))%nat.
Proof using Type.
  unfold nread. rewrite count_if_cons. unfold is_end at 2. cbn [fst snd].
  destruct (i =? j)%nat, r; cbn [andb Bool.eqb]; lia.
Qed.
Lemma nwrite_cons (s : state) i r x j :
  nwrite s ((i, r) :: x) j = (nwrite s x j + (if (i =? j)%nat && negb r then 1 else 0))%nat.
Proof using Type.
  unfold nwrite. rewrite count_if_cons. unfold is_end at 2. cbn [fst snd].
  destruct (i =? j)%nat, r; cbn [andb negb Bool.eqb]; lia.
Qed.

(** Ring [i] replaced by one with the same page and other ends. *)
Lemma inv_ends x y base s i p p' :
  inv y base s -> ring_at s i = Some p -> used p' = true -> buf p' = buf p -> ring_wf p' ->
  readers p' = Z.of_nat (nread s x i) -> writers p' = Z.of_nat (nwrite s x i) ->
  (0 < nread s x i + nwrite s x i)%nat ->
  (forall j, j <> i -> nread s x j = nread s y j /\ nwrite s x j = nwrite s y j) ->
  inv x base (set_pipe i p' s).
Proof using Type.
  intros [H1 H2 H3 H4 H5 H6 H7] Hi Hu Hb Hwf Hr Hw Hpos Hj. pose proof Hi as [Hl Hup]%ring_at_lookup.
  pose proof (lookup_lt_Some _ _ _ Hl) as Hlt.
  assert (Hown : forall a, owned (set_pipe i p' s) a = owned s a).
  { intros a. pose proof (owned_set s i p p' a Hl) as E. rewrite Hup, Hu, Hb in E. lia. }
  constructor; try done.
  - intros a. rewrite Hown. apply H3.
  - intros a. rewrite Hown. apply H4.
  - intros j q. rewrite ring_at_set by done. case_decide; [|apply H5]. rewrite Hu. by intros [= <-].
  - intros j. specialize (H6 j). unfold ends_ok in *. rewrite ring_at_set by done.
    change (nread (set_pipe i p' s)) with (nread s). change (nwrite (set_pipe i p' s)) with (nwrite s).
    case_decide as E; [|by destruct (Hj j E) as [-> ->]]. subst j. by rewrite Hu.
Qed.

(** Ring [i] freed, its page given back. *)
Lemma inv_freed x y base s i p p' :
  inv y base s -> ring_at s i = Some p -> used p' = false ->
  nread s x i = 0%nat -> nwrite s x i = 0%nat ->
  (forall j, j <> i -> nread s x j = nread s y j /\ nwrite s x j = nwrite s y j) ->
  inv x base (set_pipe i p' (set_mem (pg_free (buf p) (mem s)) s)).
Proof using Type.
  intros Hinv Hi Hu Hr Hw Hj. pose proof (ring_held _ _ _ _ _ Hinv Hi) as Hheld.
  destruct Hinv as [H1 H2 H3 H4 H5 H6 H7]. pose proof Hi as [Hl Hup]%ring_at_lookup.
  pose proof (lookup_lt_Some _ _ _ Hl) as Hlt.
  destruct (pg_free_spec (mem s) (buf p) H1 Hheld) as (F1 & F2 & F3 & _).
  set (s1 := set_mem _ s).
  assert (Hown : forall a, (owned (set_pipe i p' s1) a + (if (buf p =? a)%Z then 1 else 0) = owned s a)%nat).
  { intros a. pose proof (owned_set s1 i p p' a Hl) as E. rewrite Hup, Hu in E. cbn [andb] in E.
    change (owned s1 a) with (owned s a) in E. lia. }
  constructor; try done.
  - intros a. specialize (Hown a). cbn [mem set_mem set_pipe s1].
    destruct (Z.eqb_spec (buf p) a) as [E|Hne].
    + rewrite <- E, F2, H3. rewrite <- E in Hown. lia.
    + rewrite F3, H3 by congruence. lia.
  - intros a. specialize (Hown a). specialize (H4 a). lia.
  - intros j q. rewrite ring_at_set by done. case_decide; [by rewrite Hu|apply H5].
  - intros j. specialize (H6 j). unfold ends_ok in *. rewrite ring_at_set by done.
    change (nread (set_pipe i p' s1)) with (nread s). change (nwrite (set_pipe i p' s1)) with (nwrite s).
    case_decide as E; [|by destruct (Hj j E) as [-> ->]]. subst j. by rewrite Hu.
Qed.

Lemma set_pipe_twice (s : state) i p q : set_pipe i p (set_pipe i q s) = set_pipe i p s.
Proof using Type. unfold set_pipe. cbn. by rewrite list_insert_insert_eq. Qed.

Lemma pipes_set_pipe (s : state) i p q : pipes s !! i = Some q -> pipes (set_pipe i p s) !! i = Some p.
Proof using Type. intros E. cbn. apply list_lookup_insert_eq. by eapply lookup_lt_Some. Qed.

Lemma ring_put_eq (s : state) i (r : bool) p :
  pipes s !! i = Some p ->
  let p' := set_queues [] [] (if r then set_ends (readers p - 1) (writers p) p
                              else set_ends (readers p) (writers p - 1) p) in
  ring_put i r s =
  if (readers p' =? 0) && (writers p' =? 0)
  then set_pipe i (set_pused false p') (set_mem (pg_free (buf p) (mem s)) s)
  else set_pipe i p' s.
Proof using Type.
  intros E p'. unfold ring_put. rewrite (upd_pipe_eq s i _ p E).
  set (s1 := set_pipe i _ s). assert (E1 := pipes_set_pipe s i _ p E : pipes s1 !! i = Some _).
  unfold wake_everyone. rewrite (upd_pipe_eq s1 i _ _ E1). unfold s1. rewrite set_pipe_twice.
  fold p'. set (s2 := set_pipe i p' s). assert (E2 := pipes_set_pipe s i p' p E : pipes s2 !! i = Some p').
  rewrite E2. destruct (_ && _); [|done]. unfold ring_free. rewrite E2.
  unfold s2, set_pipe, set_mem. cbn. rewrite list_insert_insert_eq. by destruct r.
Qed.

Lemma inv_put x base s i r : inv ((i, r) :: x) base s -> inv x base (ring_put i r s).
Proof using Type.
  intros Hinv. pose proof (i_ends _ _ _ Hinv i) as Hends. unfold ends_ok in Hends.
  rewrite nread_cons, nwrite_cons, Nat.eqb_refl in Hends. cbn [andb] in Hends.
  destruct (ring_at s i) as [p|] eqn:Hi; [|destruct r; cbn in Hends; lia].
  pose proof Hi as [Hl Hu]%ring_at_lookup.
  pose proof (i_ring _ _ _ Hinv i p Hi) as Hwf.
  rewrite (ring_put_eq s i r p Hl). cbv zeta. set (p' := set_queues _ _ _).
  assert (Hp' : used p' = true /\ buf p' = buf p /\ ring_wf p' /\
    readers p' = Z.of_nat (nread s x i) /\ writers p' = Z.of_nat (nwrite s x i)).
  { unfold p'. destruct r; cbn in *; (split; [done|split; [done|split; [exact Hwf|lia]]]). }
  destruct Hp' as (Hu' & Hb' & Hwf' & Hr' & Hw').
  assert (Hother : forall j, j <> i -> nread s x j = nread s ((i, r) :: x) j /\
    nwrite s x j = nwrite s ((i, r) :: x) j).
  { intros j Hj. rewrite nread_cons, nwrite_cons. rewrite (proj2 (Nat.eqb_neq i j)) by done. cbn. lia. }
  destruct (Z.eqb_spec (readers p') 0), (Z.eqb_spec (writers p') 0); cbn [andb].
  1: apply (inv_freed x ((i, r) :: x) base s i p); try done; lia.
  all: apply (inv_ends x ((i, r) :: x) base s i p); try done; lia.
Qed.
(** A new ring, its two ends in the caller's hands. *)
Lemma inv_alloc x base s :
  inv x base s ->
  match ring_alloc s with
  | (Some i, s') => inv ((i, true) :: (i, false) :: x) base s' /\ ring_at s i = None /\
      exists a, ring_at s' i = Some (mk_pipe true a 0 0 1 1 [] [] 0 0 0 0 0)
  | (None, s') => inv x base s'
  end.
Proof using Type.
  intros Hinv. unfold ring_alloc.
  destruct (find_idx _ (pipes s)) as [i|] eqn:Ei; [|done].
  apply find_idx_Some in Ei as [(p & Hl & Hu%negb_true_iff) _].
  pose proof (lookup_lt_Some _ _ _ Hl) as Hlt.
  destruct (pg_alloc_spec (mem s) (i_ok _ _ _ Hinv))
    as [->|(a & w' & -> & Ha & W1 & W2 & W3 & W4 & _)]; cbn [Z.eqb].
  { apply (inv_set_unused _ _ _ _ p); try done. revert Hinv. by apply inv_ext. }
  rewrite (proj2 (Z.eqb_neq a 0) Ha). set (p' := mk_pipe _ _ _ _ _ _ _ _ _ _ _ _ _).
  assert (Hnone : ring_at s i = None) by (unfold ring_at; by rewrite Hl, Hu).
  pose proof (i_ends _ _ _ Hinv i) as Hends. unfold ends_ok in Hends. rewrite Hnone in Hends.
  destruct Hinv as [H1 H2 H3 H4 H5 H6 H7]. set (s1 := set_mem w' s).
  assert (Hown : forall b, owned (set_pipe i p' s1) b = (owned s b + (if (a =? b)%Z then 1 else 0))%nat).
  { intros b. pose proof (owned_set s1 i p p' b Hl) as E. rewrite Hu in E.
    change (used p') with true in E. change (buf p') with a in E. cbn [andb] in E.
    change (owned s1 b) with (owned s b) in E. lia. }
  assert (Hat : forall j, ring_at (set_pipe i p' s1) j = if decide (j = i) then Some p' else ring_at s j).
  { intros j. by rewrite ring_at_set. }
  split; [constructor|split; [done|exists a; rewrite Hat; by rewrite decide_True]]; try done.
  - intros b. rewrite Hown. cbn [mem set_pipe set_mem s1].
    destruct (Z.eqb_spec a b) as [<-|Hne]; [rewrite W3; specialize (H3 a)|rewrite W4 by done; specialize (H3 b)]; lia.
  - intros b. rewrite Hown. specialize (H4 b). specialize (H3 b). specialize (H2 b).
    destruct (Z.eqb_spec a b) as [<-|]; lia.
  - intros j q. rewrite Hat. case_decide; [|apply H5]. intros [= <-]. unfold ring_wf. cbn. lia.
  - intros j. specialize (H6 j). unfold ends_ok in *. rewrite Hat.
    rewrite !nread_cons, !nwrite_cons.
    change (nread (set_pipe i p' s1)) with (nread s). change (nwrite (set_pipe i p' s1)) with (nwrite s).
    case_decide as E.
    + subst j. rewrite Nat.eqb_refl. cbn. lia.
    + rewrite (proj2 (Nat.eqb_neq i j)) by done. cbn [andb]. by rewrite !Nat.add_0_r.
Qed.

(** An open file, or a socket end, replaced by one with other ends. *)
Lemma inv_set_file x y base s k f f' :
  inv y base s -> files s !! k = Some f ->
  (forall i, count_if (is_end i true) x + (if reads_ring i f' then 1 else 0) =
             count_if (is_end i true) y + (if reads_ring i f then 1 else 0))%nat ->
  (forall i, count_if (is_end i false) x + (if writes_ring i f' then 1 else 0) =
             count_if (is_end i false) y + (if writes_ring i f then 1 else 0))%nat ->
  (forall j, usock_ok (set_file k f' s) j) ->
  inv x base (set_file k f' s).
Proof using Type.
  intros [H1 H2 H3 H4 H5 H6 H7] Hk Hr Hw Hus. constructor; try done.
  intros i. specialize (H6 i). unfold ends_ok in *.
  change (ring_at (set_file k f' s) i) with (ring_at s i).
  assert (En : nread (set_file k f' s) x i = nread s y i).
  { unfold nread. cbn [files uends set_file]. pose proof (count_if_insert (reads_ring i) _ _ _ f' Hk).
    specialize (Hr i). lia. }
  assert (Ew : nwrite (set_file k f' s) x i = nwrite s y i).
  { unfold nwrite. cbn [files uends set_file]. pose proof (count_if_insert (writes_ring i) _ _ _ f' Hk).
    specialize (Hw i). lia. }
  by rewrite En, Ew.
Qed.

Lemma inv_set_uend x y base s j u u' :
  inv y base s -> uends s !! j = Some u ->
  (forall i, count_if (is_end i true) x + (if uend_reads i u' then 1 else 0) =
             count_if (is_end i true) y + (if uend_reads i u then 1 else 0))%nat ->
  (forall i, count_if (is_end i false) x + (if uend_writes i u' then 1 else 0) =
             count_if (is_end i false) y + (if uend_writes i u then 1 else 0))%nat ->
  (u_used u' = true \/ count_if (is_usock j) (files s) = 0%nat) ->
  inv x base (set_uend j u' s).
Proof using Type.
  intros [H1 H2 H3 H4 H5 H6 H7] Hj Hr Hw Hus. constructor; try done.
  - intros i. specialize (H6 i). unfold ends_ok in *.
    change (ring_at (set_uend j u' s) i) with (ring_at s i).
    assert (En : nread (set_uend j u' s) x i = nread s y i).
    { unfold nread. cbn [files uends set_uend]. pose proof (count_if_insert (uend_reads i) _ _ _ u' Hj).
      specialize (Hr i). lia. }
    assert (Ew : nwrite (set_uend j u' s) x i = nwrite s y i).
    { unfold nwrite. cbn [files uends set_uend]. pose proof (count_if_insert (uend_writes i) _ _ _ u' Hj).
      specialize (Hw i). lia. }
    by rewrite En, Ew.
  - intros j'. destruct (H7 j') as [Hle Hex]. split; [done|]. cbn [files uends set_uend]. intros Hp.
    destruct (decide (j' = j)) as [->|Hne].
    + exists u'. rewrite list_lookup_insert_eq by (by eapply lookup_lt_Some). destruct Hus; [done|lia].
    + rewrite list_lookup_insert_ne by done. by apply Hex.
Qed.
(** *** Open files *)

(** The ends an open file on a ring counts for. *)
Definition file_ends (f : file) : list (nat * bool) :=
  (if negb (is_wronly f) then [(f_priv f, true)] else []) ++
  (if is_wronly f || (bool_decide (f_ops f = fifo_ops) && is_rdwr f) then [(f_priv f, false)] else []).

Lemma file_ends_count f i x :
  f_used f = true -> f_ops f <> usock_ops ->
  (count_if (is_end i true) (file_ends f ++ x) =
    count_if (is_end i true) x + (if reads_ring i f then 1 else 0))%nat /\
  (count_if (is_end i false) (file_ends f ++ x) =
    count_if (is_end i false) x + (if writes_ring i f then 1 else 0))%nat.
Proof using Type.
  intros Hu Ho. unfold file_ends, reads_ring, writes_ring. rewrite Hu.
  rewrite (bool_decide_eq_false_2 (f_ops f = usock_ops)) by done.
  cbn [andb negb]. destruct (is_wronly f), (bool_decide (f_ops f = fifo_ops) && is_rdwr f);
    cbn [negb orb app]; rewrite ?count_if_cons; unfold is_end; cbn [fst snd];
    destruct (f_priv f =? i)%nat; cbn [andb Bool.eqb]; lia.
Qed.

Lemma unused_file f i : f_used f = false -> reads_ring i f = false /\ writes_ring i f = false /\ is_usock i f = false.
Proof using Type. intros E. unfold reads_ring, writes_ring, is_usock. by rewrite E. Qed.

Lemma usock_file f i : f_ops f = usock_ops -> reads_ring i f = false /\ writes_ring i f = false.
Proof using Type.
  intros E. unfold reads_ring, writes_ring. rewrite E, bool_decide_eq_true_2 by done.
  cbn [negb]. rewrite !andb_false_r. done.
Qed.

Lemma acc_cloexec flags : Z.land (Z.ldiff flags O_CLOEXEC) O_ACCMODE = Z.land flags O_ACCMODE.
Proof using Type.
  apply Z.bits_inj'. intros n Hn. rewrite !Z.land_spec, Z.ldiff_spec.
  change O_ACCMODE with (Z.ones 2). change O_CLOEXEC with (2 ^ 19).
  destruct (Z.lt_ge_cases n 2).
  - rewrite Z.pow2_bits_false by lia. by rewrite andb_true_r.
  - rewrite (Z.ones_spec_high 2 n) by lia. by rewrite !andb_false_r.
Qed.

(** Files that are not a socket's leave the sockets alone. *)
Lemma usock_set_file s k f f' j :
  files s !! k = Some f -> (is_usock j f = true \/ is_usock j f' = false) -> usock_ok s j ->
  usock_ok (set_file k f' s) j.
Proof using Type.
  intros Hk Hor [Hle Hex]. unfold usock_ok. cbn [files uends set_file].
  pose proof (count_if_insert (is_usock j) _ _ _ f' Hk).
  destruct Hor as [E|E]; rewrite E in *; [destruct (is_usock j f')|destruct (is_usock j f)];
    (split; [lia|intros; apply Hex; lia]).
Qed.

Lemma inv_install x base s err ops i flags fd s' :
  ops <> usock_ops -> (forall e, err = Some e -> e < 0) ->
  inv (file_ends (mk_file true ops i flags) ++ x) base s ->
  fd_install err ops i flags s = (fd, s') ->
  if fd <? 0 then s' = s
  else inv x base s' /\
    files s' !! Z.to_nat fd = Some (mk_file true ops i (Z.ldiff flags O_CLOEXEC)) /\ pipes s' = pipes s.
Proof using Type.
  intros Ho He Hinv E. unfold fd_install in E. destruct err as [e|].
  { simplify_eq. by rewrite (proj2 (Z.ltb_lt fd 0) (He _ eq_refl)). }
  destruct (find_idx _ (files s)) as [k|] eqn:Ek; simplify_eq; [|done].
  apply find_idx_Some in Ek as [(f & Hk & Hu%negb_true_iff) _].
  rewrite (proj2 (Z.ltb_ge _ 0)) by lia. rewrite Nat2Z.id.
  split; [|split; [cbn; apply list_lookup_insert_eq; by eapply lookup_lt_Some|done]].
  set (f' := mk_file _ _ _ _).
  assert (Hends : file_ends (mk_file true ops i flags) = file_ends f').
  { unfold file_ends, is_wronly, is_rdwr. cbn. by rewrite acc_cloexec. }
  rewrite Hends in Hinv.
  apply (inv_set_file x _ base s k f f' Hinv Hk).
  - intros j. destruct (unused_file f j Hu) as (-> & _). destruct (file_ends_count f' j x) as [-> _]; (done || lia).
  - intros j. destruct (unused_file f j Hu) as (_ & -> & _). destruct (file_ends_count f' j x) as [_ ->]; (done || lia).
  - intros j. apply (usock_set_file s k f); [done|right|apply (i_usock _ _ _ Hinv)].
    unfold is_usock. cbn. by rewrite bool_decide_eq_false_2.
Qed.

(** Dropping the writing half of an end that also reads. *)
Lemma inv_drop_writer x base s i :
  inv ((i, true) :: (i, false) :: x) base s ->
  inv ((i, true) :: x) base (upd_pipe i (fun p => set_ends (readers p) (writers p - 1) p) s).
Proof using Type.
  intros Hinv. pose proof (i_ends _ _ _ Hinv i) as Hends. unfold ends_ok in Hends.
  rewrite !nread_cons, !nwrite_cons, Nat.eqb_refl in Hends. cbn [andb negb] in Hends.
  destruct (ring_at s i) as [p|] eqn:Hi; [|lia]. pose proof Hi as [Hl Hu]%ring_at_lookup.
  rewrite (upd_pipe_eq s i _ p Hl).
  apply (inv_ends _ ((i, true) :: (i, false) :: x) base s i p); try done;
    try (exact (i_ring _ _ _ Hinv i p Hi));
    rewrite ?nread_cons, ?nwrite_cons, ?Nat.eqb_refl; cbn [andb negb readers writers set_ends]; try lia.
  intros j Hj. rewrite !nread_cons, !nwrite_cons. rewrite (proj2 (Nat.eqb_neq i j)) by done. cbn. lia.
Qed.

Lemma ring_put_none (s : state) i r : pipes s !! i = None -> ring_put i r s = s.
Proof using Type.
  intros E. unfold ring_put, wake_everyone, upd_pipe. rewrite E. cbv beta iota. rewrite E.
  by rewrite E.
Qed.

Lemma ring_put_set_file i r k f (s : state) :
  ring_put i r (set_file k f s) = set_file k f (ring_put i r s).
Proof using Type.
  destruct (pipes s !! i) as [p|] eqn:E.
  - rewrite (ring_put_eq (set_file k f s) i r p E), (ring_put_eq s i r p E). cbv zeta. by destruct (_ && _).
  - by rewrite !ring_put_none.
Qed.

Lemma ring_put_set_uend i r k u (s : state) :
  ring_put i r (set_uend k u s) = set_uend k u (ring_put i r s).
Proof using Type.
  destruct (pipes s !! i) as [p|] eqn:E.
  - rewrite (ring_put_eq (set_uend k u s) i r p E), (ring_put_eq s i r p E). cbv zeta. by destruct (_ && _).
  - by rewrite !ring_put_none.
Qed.

Lemma ring_put_uends i r (s : state) : uends (ring_put i r s) = uends s /\ files (ring_put i r s) = files s.
Proof using Type.
  destruct (pipes s !! i) as [p|] eqn:E.
  - rewrite (ring_put_eq s i r p E). cbv zeta. by destruct (_ && _).
  - by rewrite ring_put_none.
Qed.

(** The ends of a socket end. *)
Definition end_at (o : option nat) (r : bool) : list (nat * bool) :=
  match o with Some i => [(i, r)] | None => [] end.
Definition uend_ends (u : uend) : list (nat * bool) :=
  (if negb (shut_rd u) then end_at (rx u) true else []) ++
  (if negb (shut_wr u) then end_at (tx u) false else []).

Lemma uend_ends_count u i x :
  u_used u = true ->
  (count_if (is_end i true) (uend_ends u ++ x) =
    count_if (is_end i true) x + (if uend_reads i u then 1 else 0))%nat /\
  (count_if (is_end i false) (uend_ends u ++ x) =
    count_if (is_end i false) x + (if uend_writes i u then 1 else 0))%nat.
Proof using Type.
  intros Hu. unfold uend_ends, uend_reads, uend_writes. rewrite Hu. cbn [andb].
  destruct (shut_rd u), (shut_wr u), (rx u) as [r|], (tx u) as [t|];
    cbn [negb app end_at points_at]; rewrite ?count_if_cons;
    unfold is_end; cbn [fst snd]; try destruct (r =? i)%nat; try destruct (t =? i)%nat;
    cbn [andb Bool.eqb]; lia.
Qed.

Lemma unused_uend u i : u_used u = false -> uend_reads i u = false /\ uend_writes i u = false.
Proof using Type. intros E. unfold uend_reads, uend_writes. by rewrite E. Qed.

Lemma inv_uend_close x base s j u :
  inv x base s -> uends s !! j = Some u -> u_used u = true ->
  count_if (is_usock j) (files s) = 0%nat -> inv x base (usock_close_raw j s).
Proof using Type.
  intros Hinv Hj Hu Hno. unfold usock_close_raw. rewrite Hj.
  set (u' := mk_uend false (rx u) (tx u) (shut_rd u) (shut_wr u)).
  assert (H1 : inv (uend_ends u ++ x) base (set_uend j u' s)).
  { apply (inv_set_uend _ x base s j u); try done; [| |by right]; intros i;
      pose proof (uend_ends_count u i x Hu); destruct (unused_uend u' i eq_refl) as [E1 E2];
      rewrite ?E1, ?E2; lia. }
  unfold uend_ends in H1. destruct (shut_rd u), (shut_wr u), (rx u), (tx u);
    cbn [negb app end_at ring_put_at] in *; rewrite <- ?ring_put_set_uend; try done;
    repeat apply inv_put; done.
Qed.
Lemma upd_pipe_set_file i g k f (s : state) : upd_pipe i g (set_file k f s) = set_file k f (upd_pipe i g s).
Proof using Type. unfold upd_pipe. cbn [pipes set_file]. by destruct (pipes s !! i). Qed.

Lemma wronly_not_rdwr f : is_wronly f = true -> is_rdwr f = false.
Proof using Type. unfold is_wronly, is_rdwr. rewrite Z.eqb_eq. by intros ->. Qed.

(** An open file on a ring leaves the table, its ends not yet dropped. *)
Lemma inv_forget x base s k f f0 :
  inv x base s -> files s !! k = Some f -> f_used f = true -> f_ops f <> usock_ops ->
  f_used f0 = false -> inv (file_ends f ++ x) base (set_file k f0 s).
Proof using Type.
  intros Hinv Hk Hu Ho Hu0. apply (inv_set_file _ x base s k f f0 Hinv Hk).
  - intros i. destruct (file_ends_count f i x Hu Ho) as [-> _], (unused_file f0 i Hu0) as (-> & _). lia.
  - intros i. destruct (file_ends_count f i x Hu Ho) as [_ ->], (unused_file f0 i Hu0) as (_ & -> & _). lia.
  - intros j. apply (usock_set_file s k f); [done| |apply (i_usock _ _ _ Hinv)].
    right. by destruct (unused_file f0 j Hu0) as (_ & _ & ->).
Qed.

Lemma inv_file_put x base s k : inv x base s -> inv x base (file_put k s).
Proof using Type.
  intros Hinv. unfold file_put. destruct (files s !! k) as [f|] eqn:Hk; [|done].
  destruct (f_used f) eqn:Hu; [|done]. set (f0 := mk_file false _ _ _).
  destruct (f_ops f) eqn:Ho.
  - pose proof (inv_forget x base s k f f0 Hinv Hk Hu ltac:(congruence) eq_refl) as H1.
    unfold pipe_close. fold (is_wronly f). rewrite <- ring_put_set_file. apply inv_put.
    unfold file_ends in H1. rewrite Ho in H1. rewrite (bool_decide_eq_false_2 (pipe_ops = fifo_ops)) in H1 by done.
    by destruct (is_wronly f).
  - pose proof (inv_forget x base s k f f0 Hinv Hk Hu ltac:(congruence) eq_refl) as H1.
    unfold fifo_close. fold (is_wronly f) (is_rdwr f). rewrite <- ring_put_set_file.
    unfold file_ends in H1. rewrite Ho, bool_decide_eq_true_2 in H1 by done. cbn [andb] in H1.
    destruct (is_rdwr f) eqn:Erd.
    + destruct (is_wronly f) eqn:Ew; [by rewrite (wronly_not_rdwr f Ew) in Erd|].
      cbn [orb negb app] in *. rewrite <- upd_pipe_set_file. by apply inv_put, inv_drop_writer.
    + destruct (is_wronly f); cbn [orb negb app] in *; by apply inv_put.
  - destruct (i_usock _ _ _ Hinv (f_priv f)) as [Hle Hex].
    assert (Hf : is_usock (f_priv f) f = true).
    { unfold is_usock. by rewrite Hu, Ho, Nat.eqb_refl, bool_decide_eq_true_2. }
    pose proof (count_if_insert (is_usock (f_priv f)) _ _ _ f0 Hk) as Hc. rewrite Hf in Hc.
    replace (is_usock (f_priv f) f0) with false in Hc by done.
    destruct Hex as (u & Hj & Huu); [lia|].
    assert (H1 : inv x base (set_file k f0 s)).
    { apply (inv_set_file _ x base s k f f0 Hinv Hk).
      - intros i. by destruct (usock_file f i Ho) as [-> _], (unused_file f0 i eq_refl) as (-> & _).
      - intros i. by destruct (usock_file f i Ho) as [_ ->], (unused_file f0 i eq_refl) as (_ & -> & _).
      - intros j. apply (usock_set_file s k f); [done|by right|apply (i_usock _ _ _ Hinv)]. }
    replace (set_file k f0 (usock_close f s)) with (usock_close_raw (f_priv f) (set_file k f0 s)).
    { apply (inv_uend_close _ _ _ _ u); try done. cbn [files set_file]. lia. }
    unfold usock_close, usock_close_raw. cbn [uends set_file]. rewrite Hj.
    destruct (shut_rd u), (shut_wr u), (rx u), (tx u); cbn [negb ring_put_at];
      rewrite ?ring_put_set_file; done.
Qed.

(** *** pipe(), socketpair(), shutdown() *)

Lemma acc_lor a flags :
  Z.ldiff flags (Z.lor O_NONBLOCK O_CLOEXEC) = 0 -> 0 <= a < 4 ->
  Z.land (Z.lor a flags) O_ACCMODE = a.
Proof using Type.
  intros Hf Ha. rewrite Z.land_lor_distr_l. change O_ACCMODE with (Z.ones 2).
  rewrite Z.land_ones, (Z.mod_small a) by lia. replace (Z.land flags (Z.ones 2)) with 0; [by rewrite Z.lor_0_r|].
  symmetry. apply Z.bits_inj'. intros n Hn. rewrite Z.land_spec, Z.bits_0.
  destruct (Z.lt_ge_cases n 2); [|by rewrite Z.ones_spec_high, andb_false_r by lia].
  assert (Hb : Z.testbit (Z.ldiff flags (Z.lor O_NONBLOCK O_CLOEXEC)) n = false) by by rewrite Hf, Z.bits_0.
  rewrite Z.ldiff_spec, Z.lor_spec in Hb. change O_NONBLOCK with (2 ^ 11) in Hb.
  change O_CLOEXEC with (2 ^ 19) in Hb. rewrite !Z.pow2_bits_false in Hb by lia.
  rewrite orb_false_r, andb_true_r in Hb. by rewrite Hb.
Qed.

Lemma inv_free_new x base s i :
  inv ((i, true) :: (i, false) :: x) base s -> nread s x i = 0%nat -> nwrite s x i = 0%nat ->
  inv x base (ring_free i s).
Proof using Type.
  intros Hinv Hr Hw. pose proof (i_ends _ _ _ Hinv i) as Hends. unfold ends_ok in Hends.
  rewrite !nread_cons, !nwrite_cons, Nat.eqb_refl in Hends. cbn [andb negb] in Hends.
  destruct (ring_at s i) as [p|] eqn:Hi; [|lia]. pose proof Hi as [Hl Hu]%ring_at_lookup.
  unfold ring_free. rewrite Hl.
  apply (inv_freed x ((i, true) :: (i, false) :: x) base s i p); try done.
  intros j Hj. rewrite !nread_cons, !nwrite_cons. rewrite (proj2 (Nat.eqb_neq i j)) by done. cbn. lia.
Qed.
(** The counts of a new ring are its two ends in the caller's hands. *)
Lemma new_ring_counts x base s i a :
  inv ((i, true) :: (i, false) :: x) base s ->
  ring_at s i = Some (mk_pipe true a 0 0 1 1 [] [] 0 0 0 0 0) ->
  nread s x i = 0%nat /\ nwrite s x i = 0%nat.
Proof using Type.
  intros Hinv Hi. pose proof (i_ends _ _ _ Hinv i) as Hends. unfold ends_ok in Hends. rewrite Hi in Hends.
  rewrite !nread_cons, !nwrite_cons, Nat.eqb_refl in Hends. cbn in Hends. lia.
Qed.

Definition negative (err : option Z) : Prop := forall e, err = Some e -> e < 0.

Lemma inv_pipe_create x base s flags err1 err2 :
  negative err1 -> negative err2 -> inv x base s ->
  inv x base (snd (pipe_create s flags err1 err2)).
Proof using Type.
  intros He1 He2 Hinv. unfold pipe_create.
  destruct (Z.eqb_spec (Z.ldiff flags (Z.lor O_NONBLOCK O_CLOEXEC)) 0) as [Hf|]; cbn [negb]; [|done].
  pose proof (inv_alloc x base s Hinv) as Ha. destruct (ring_alloc s) as [[i|] s1]; [|done].
  destruct Ha as (H1 & _ & a & Hi). destruct (new_ring_counts _ _ _ _ _ H1 Hi) as [Hr Hw].
  destruct (fd_install err1 pipe_ops i (Z.lor O_RDONLY flags) s1) as [r s2] eqn:E1.
  assert (Hends1 : file_ends (mk_file true pipe_ops i (Z.lor O_RDONLY flags)) = [(i, true)]).
  { unfold file_ends, is_wronly. cbn [f_flags f_priv f_ops]. by rewrite acc_lor. }
  pose proof (inv_install ((i, false) :: x) base s1 err1 pipe_ops i _ r s2 ltac:(done) He1
    ltac:(by rewrite Hends1) E1) as H2.
  destruct (r <? 0); [subst s2; by apply inv_free_new|]. destruct H2 as (H2 & _ & Hp2).
  destruct (fd_install err2 pipe_ops i (Z.lor O_WRONLY flags) s2) as [w s3] eqn:E2.
  assert (Hends2 : file_ends (mk_file true pipe_ops i (Z.lor O_WRONLY flags)) = [(i, false)]).
  { unfold file_ends, is_wronly. cbn [f_flags f_priv f_ops]. by rewrite acc_lor. }
  pose proof (inv_install x base s2 err2 pipe_ops i _ w s3 ltac:(done) He2
    ltac:(by rewrite Hends2) E2) as H3.
  destruct (w <? 0); [subst s3|by destruct H3]. cbn [snd]. apply inv_file_put.
  assert (Hi2 : ring_at s2 i = Some (mk_pipe true a 0 0 1 1 [] [] 0 0 0 0 0))
    by (unfold ring_at in *; by rewrite Hp2).
  pose proof (i_ends _ _ _ H2 i) as Hends. unfold ends_ok in Hends. rewrite Hi2 in Hends.
  rewrite nread_cons, nwrite_cons, Nat.eqb_refl in Hends. cbn in Hends.
  pose proof Hi2 as [Hl2 _]%ring_at_lookup. rewrite (upd_pipe_eq s2 i _ _ Hl2).
  apply (inv_ends x ((i, false) :: x) base s2 i _ _ H2 Hi2); try done; cbn; try lia.
  intros j Hj. rewrite nread_cons, nwrite_cons. rewrite (proj2 (Nat.eqb_neq i j)) by done. cbn. lia.
Qed.

Lemma inv_perm x y base s : x ≡ₚ y -> inv x base s -> inv y base s.
Proof using Type.
  intros Hp. apply inv_ext; try done. intros i r. unfold count_if.
  induction Hp; cbn [List.filter]; try (destruct (is_end i r _)); try (destruct (is_end i r _));
    cbn [length]; lia.
Qed.
(** Socket ends. A new one is not connected to anything. *)
Definition fresh_uend (o : option nat) (s : state) : Prop :=
  forall j, o = Some j -> uends s !! j = Some (mk_uend true None None false false) /\
    count_if (is_usock j) (files s) = 0%nat.

Definition no_ends (u : uend) : Prop := forall i, uend_reads i u = false /\ uend_writes i u = false.

Lemma inv_uend_same x base s j u u' :
  inv x base s -> uends s !! j = Some u -> no_ends u -> no_ends u' ->
  (u_used u' = true \/ count_if (is_usock j) (files s) = 0%nat) -> inv x base (set_uend j u' s).
Proof using Type.
  intros Hinv Hj Hu Hu' Hor. apply (inv_set_uend x x base s j u u' Hinv Hj); try done; intros i;
    destruct (Hu i) as [E1 E2], (Hu' i) as [E3 E4]; by rewrite ?E1, ?E2, ?E3, ?E4.
Qed.

Lemma inv_uend_alloc x base s :
  inv x base s ->
  let '(o, s') := uend_alloc s in
  inv x base s' /\ fresh_uend o s' /\
  (forall o', fresh_uend o' s -> fresh_uend o' s' /\ (o <> None -> o <> o')).
Proof using Type.
  intros Hinv. unfold uend_alloc. destruct (find_idx _ (uends s)) as [j|] eqn:Ej.
  2: { split; [done|]. split; [by intros ? [=]|]. intros o' Ho'. by split. }
  apply find_idx_Some in Ej as [(u & Hj & Hu%negb_true_iff) _].
  assert (Hno : count_if (is_usock j) (files s) = 0%nat).
  { destruct (i_usock _ _ _ Hinv j) as [_ Hex].
    destruct (Nat.eq_0_gt_0_cases (count_if (is_usock j) (files s))) as [|Hpos]; [done|].
    destruct (Hex Hpos) as (u' & Hj' & Hu'). congruence. }
  split; [|split].
  - apply (inv_uend_same x base s j u); try done; [|by left]. intros i. by apply unused_uend.
  - intros j' [= <-]. split; [|done]. cbn. apply list_lookup_insert_eq. by eapply lookup_lt_Some.
  - intros o' Ho'. assert (Hne : Some j <> o').
    { intros <-. destruct (Ho' j eq_refl) as [E _]. rewrite Hj in E. injection E as ->. done. }
    split; [|done]. intros j' ->. destruct (Ho' j' eq_refl) as [E1 E2]. split; [|done].
    cbn. rewrite list_lookup_insert_ne by congruence. done.
Qed.

Definition new_ends (o : option nat) : list (nat * bool) :=
  match o with Some i => [(i, true); (i, false)] | None => [] end.

Lemma inv_put_new x base s o :
  inv (new_ends o ++ x) base s ->
  inv x base (put_new_ring o s) /\ uends (put_new_ring o s) = uends s /\ files (put_new_ring o s) = files s.
Proof using Type.
  destruct o as [i|]; [|done]. intros Hinv. cbn [put_new_ring]. split; [by do 2 apply inv_put|].
  pose proof (ring_put_uends i true s). pose proof (ring_put_uends i false (ring_put i true s)).
  destruct_and!. split; congruence.
Qed.

Lemma inv_drop_uend x base s o :
  inv x base s -> fresh_uend o s ->
  inv x base (put_new_uend o s) /\ files (put_new_uend o s) = files s /\
  (forall o', o' <> o -> fresh_uend o' s -> fresh_uend o' (put_new_uend o s)).
Proof using Type.
  intros Hinv Hf. destruct o as [j|]; [|done]. cbn [put_new_uend].
  destruct (Hf j eq_refl) as [Hj Hno]. rewrite Hj. split; [|split; [done|]].
  - apply (inv_uend_same x base s j _ _ Hinv Hj); try done. by right.
  - intros o' Hne Ho' j' ->. destruct (Ho' j' eq_refl) as [E1 E2]. split; [|done].
    cbn. rewrite list_lookup_insert_ne by congruence. done.
Qed.

Lemma fresh_ext o s s' : uends s' = uends s -> files s' = files s -> fresh_uend o s -> fresh_uend o s'.
Proof using Type. intros E1 E2 Hf j Ho. rewrite E1, E2. by apply Hf. Qed.

(** The error path of socketpair() undoes whatever was done. *)
Lemma inv_pair_undo x base s ab ba a b :
  inv (new_ends ba ++ new_ends ab ++ x) base s -> fresh_uend a s -> fresh_uend b s ->
  (b <> None -> b <> a) ->
  inv x base (put_new_uend b (put_new_uend a (put_new_ring ba (put_new_ring ab s)))).
Proof using Type.
  intros Hinv Ha Hb Hne.
  assert (Hinv' : inv (new_ends ab ++ new_ends ba ++ x) base s).
  { revert Hinv. apply inv_perm. by rewrite !app_assoc, (Permutation_app_comm (new_ends ab)). }
  destruct (inv_put_new _ _ _ _ Hinv') as (H1 & U1 & F1).
  destruct (inv_put_new _ _ _ _ H1) as (H2 & U2 & F2).
  set (s2 := put_new_ring ba _) in *.
  assert (Ha2 : fresh_uend a s2) by (apply (fresh_ext a s); [congruence..|done]).
  assert (Hb2 : fresh_uend b s2) by (apply (fresh_ext b s); [congruence..|done]).
  destruct (inv_drop_uend x base s2 a H2 Ha2) as (H3 & _ & Hk).
  destruct b as [jb|]; [|done].
  apply (inv_drop_uend x base _ (Some jb)); [done|]. apply Hk; [by apply Hne|done].
Qed.

(** Connecting a new end: it takes over a ring's end at each side. *)
Lemma inv_uend_connect x base s j u r t :
  inv ((r, true) :: (t, false) :: x) base s -> uends s !! j = Some u -> no_ends u ->
  inv x base (set_uend j (mk_uend true (Some r) (Some t) false false) s).
Proof using Type.
  intros Hinv Hj Hu. set (u' := mk_uend true (Some r) (Some t) false false).
  apply (inv_set_uend x _ base s j u u' Hinv Hj); [| |by left]; intros i;
    destruct (Hu i) as [E1 E2]; pose proof (uend_ends_count u' i x eq_refl);
    change (uend_ends u' ++ x) with ((r, true) :: (t, false) :: x) in *; rewrite ?E1, ?E2; lia.
Qed.

Lemma inv_install_usock x base s err j flags fd s' u :
  negative err -> inv x base s -> uends s !! j = Some u -> u_used u = true ->
  count_if (is_usock j) (files s) = 0%nat -> fd_install err usock_ops j flags s = (fd, s') ->
  if fd <? 0 then s' = s
  else inv x base s' /\ uends s' = uends s /\
    files s' !! Z.to_nat fd = Some (mk_file true usock_ops j (Z.ldiff flags O_CLOEXEC)) /\
    (forall j', j' <> j -> count_if (is_usock j') (files s') = count_if (is_usock j') (files s)).
Proof using Type.
  intros He Hinv Hj Huu Hno E. unfold fd_install in E. destruct err as [e|].
  { simplify_eq. by rewrite (proj2 (Z.ltb_lt fd 0) (He _ eq_refl)). }
  destruct (find_idx _ (files s)) as [k|] eqn:Ek; simplify_eq; [|done].
  apply find_idx_Some in Ek as [(f & Hk & Hu%negb_true_iff) _].
  rewrite (proj2 (Z.ltb_ge _ 0)) by lia. rewrite Nat2Z.id. set (f' := mk_file _ _ _ _).
  assert (Hc : forall j', count_if (is_usock j') (<[k := f']> (files s)) =
    (count_if (is_usock j') (files s) + (if decide (j' = j) then 1 else 0))%nat).
  { intros j'. pose proof (count_if_insert (is_usock j') _ _ _ f' Hk) as Hc.
    destruct (unused_file f j' Hu) as (_ & _ & E). rewrite E in Hc.
    assert (Ef : is_usock j' f' = (j =? j')%nat) by (unfold is_usock; by rewrite bool_decide_eq_true_2).
    rewrite Ef in Hc. case_decide; subst; rewrite ?Nat.eqb_refl in Hc; [lia|].
    rewrite (proj2 (Nat.eqb_neq j j')) in Hc by congruence. lia. }
  split; [|split; [done|split]].
  - apply (inv_set_file x x base s k f f' Hinv Hk).
    + intros i. by destruct (unused_file f i Hu) as (-> & _), (usock_file f' i eq_refl) as [-> _].
    + intros i. by destruct (unused_file f i Hu) as (_ & -> & _), (usock_file f' i eq_refl) as [_ ->].
    + intros j'. unfold usock_ok. cbn [files uends set_file]. rewrite Hc.
      destruct (i_usock _ _ _ Hinv j') as [Hle Hex]. case_decide.
      * subst j'. split; [lia|]. intros _. by exists u.
      * split; [lia|]. intros. apply Hex. lia.
  - cbn. apply list_lookup_insert_eq. by eapply lookup_lt_Some.
  - intros j' Hne. cbn [files set_file]. rewrite Hc. rewrite decide_False by done. lia.
Qed.

Lemma close_raw_frame s j j' :
  files (usock_close_raw j s) = files s /\ (j' <> j -> uends (usock_close_raw j s) !! j' = uends s !! j').
Proof using Type.
  unfold usock_close_raw. destruct (uends s !! j) as [u|]; [|done].
  set (s1 := if negb (shut_rd u) then ring_put_at (rx u) true s else s).
  set (s2 := if negb (shut_wr u) then ring_put_at (tx u) false s1 else s1).
  assert (H1 : uends s1 = uends s /\ files s1 = files s).
  { unfold s1. destruct (shut_rd u), (rx u); try done. apply ring_put_uends. }
  clearbody s1.
  assert (H2 : uends s2 = uends s1 /\ files s2 = files s1).
  { unfold s2. destruct (shut_wr u), (tx u); try done. apply ring_put_uends. }
  clearbody s2.
  destruct_and!. cbn. split; [congruence|]. intros. rewrite list_lookup_insert_ne by done. congruence.
Qed.

Lemma inv_usock_pair x base s type err1 err2 :
  negative err1 -> negative err2 -> inv x base s ->
  inv x base (snd (usock_pair s type err1 err2)).
Proof using Type.
  intros He1 He2 Hinv. unfold usock_pair. destruct (negb _); [done|].
  pose proof (inv_alloc x base s Hinv) as H1. destruct (ring_alloc s) as [ab s1].
  assert (H1' : inv (new_ends ab ++ x) base s1) by (destruct ab; [apply H1|done]). clear H1.
  pose proof (inv_alloc _ base s1 H1') as H2. destruct (ring_alloc s1) as [ba s2].
  assert (H2' : inv (new_ends ba ++ new_ends ab ++ x) base s2) by (destruct ba; [apply H2|done]). clear H2.
  pose proof (inv_uend_alloc _ base s2 H2') as H3. destruct (uend_alloc s2) as [a s3].
  destruct H3 as (H3 & Fa & _).
  pose proof (inv_uend_alloc _ base s3 H3) as H4. destruct (uend_alloc s3) as [b s4].
  destruct H4 as (H4 & Fb & Hk). destruct (Hk a Fa) as [Fa' Hne].
  pose proof (inv_pair_undo x base s4 ab ba a b H4 Fa' Fb Hne) as Hundo.
  destruct ab as [ab|], ba as [ba|], a as [a|], b as [b|]; cbn [snd]; try exact Hundo.
  clear Hundo Hk. assert (Hab : b <> a) by (intros ->; by apply Hne).
  destruct (Fa' a eq_refl) as [Ua Na], (Fb b eq_refl) as [Ub Nb].
  set (s5 := set_uend a (mk_uend true (Some ba) (Some ab) false false) s4).
  assert (H5 : inv ((ab, true) :: (ba, false) :: x) base s5).
  { apply (inv_uend_connect _ base s4 a (mk_uend true None None false false)); [|done|done].
    revert H4. apply inv_perm. cbn [new_ends app]. apply perm_skip.
    rewrite (perm_swap (ab, true) (ba, false)). rewrite (perm_swap (ab, false) (ba, false)).
    rewrite (perm_swap (ab, false) (ab, true)). done. }
  set (s6 := set_uend b (mk_uend true (Some ab) (Some ba) false false) s5).
  assert (Ub5 : uends s5 !! b = Some (mk_uend true None None false false))
    by (cbn; by rewrite list_lookup_insert_ne).
  assert (H6 : inv x base s6).
  { apply (inv_uend_connect _ base s5 b (mk_uend true None None false false)); done. }
  assert (Ua6 : uends s6 !! a = Some (mk_uend true (Some ba) (Some ab) false false)).
  { cbn. rewrite list_lookup_insert_ne by done. apply list_lookup_insert_eq. by eapply lookup_lt_Some. }
  assert (Ub6 : uends s6 !! b = Some (mk_uend true (Some ab) (Some ba) false false)).
  { cbn. apply list_lookup_insert_eq. rewrite length_insert. by eapply lookup_lt_Some. }
  destruct (fd_install err1 usock_ops a _ s6) as [fa s7] eqn:E1.
  pose proof (inv_install_usock x base s6 err1 a _ fa s7 _ He1 H6 Ua6 eq_refl Na E1) as H7.
  destruct (fa <? 0); cbn [snd].
  { subst s7. destruct (close_raw_frame s6 a b) as [F1 F2].
    apply (inv_uend_close x base _ b (mk_uend true (Some ab) (Some ba) false false)); [|by rewrite F2|done|by rewrite F1].
    by apply (inv_uend_close x base s6 a _ H6 Ua6). }
  destruct H7 as (H7 & U7 & Fk & Fo).
  destruct (fd_install err2 usock_ops b _ s7) as [fb s8] eqn:E2.
  pose proof (inv_install_usock x base s7 err2 b _ fb s8 (mk_uend true (Some ab) (Some ba) false false)
    He2 H7 ltac:(by rewrite U7) eq_refl ltac:(by rewrite Fo) E2) as H8.
  destruct (fb <? 0); cbn [snd]; [|by destruct H8]. subst s8.
  unfold file_put. rewrite Fk. cbn [f_used f_ops]. unfold usock_close. cbn [f_priv].
  destruct (close_raw_frame s7 a b) as [F1 F2].
  apply (inv_uend_close x base _ b (mk_uend true (Some ab) (Some ba) false false)); [| |done|].
  - pose proof (inv_file_put x base s7 (Z.to_nat fa) H7) as Hfp. unfold file_put in Hfp.
    by rewrite Fk in Hfp.
  - cbn [uends set_file]. by rewrite F2, U7.
  - cbn [files set_file]. rewrite F1.
    pose proof (count_if_insert (is_usock b) _ _ _ (mk_file false usock_ops a (Z.ldiff (Z.lor O_RDWR (Z.land type (Z.lor O_NONBLOCK O_CLOEXEC))) O_CLOEXEC)) Fk) as Hc.
    rewrite Fo in Hc by done. change (files s6) with (files s4) in Hc. rewrite Nb in Hc.
    cbn [f_ops f_priv f_flags]. destruct (is_usock b (mk_file true _ _ _)); cbn in Hc; lia.
Qed.
(** *** The bytes in a ring *)

Definition content (p : pipe) (w : W) : list Z :=
  (fun k => pg_load w (buf p + (head p + Z.of_nat k) mod PIPE_SIZE)) <$> seq 0 (Z.to_nat (count p)).

Lemma content_length p w : length (content p w) = Z.to_nat (count p).
Proof using Type. unfold content. by rewrite length_fmap, length_seq. Qed.

Lemma content_lookup p w k :
  (k < Z.to_nat (count p))%nat ->
  content p w !! k = Some (pg_load w (buf p + (head p + Z.of_nat k) mod PIPE_SIZE)).
Proof using Type.
  intros Hk. unfold content. by rewrite list_lookup_fmap, lookup_seq_lt by done.
Qed.

Lemma ring_copy_out_spec w p len fuel n out :
  (Z.to_nat (count p) <= fuel + n)%nat -> (n <= Z.to_nat (count p))%nat ->
  copy_out fuel w p ((head p + Z.of_nat n) mod PIPE_SIZE) (Z.of_nat n) len out =
  (out ++ take (Z.to_nat len - n) (drop n (content p w)),
   (head p + Z.of_nat (n + length (take (Z.to_nat len - n) (drop n (content p w))))) mod PIPE_SIZE).
Proof using Type.
  revert n out. induction fuel as [|fuel IH]; intros n out Hf Hn; cbn [copy_out].
  - rewrite drop_ge by (rewrite content_length; lia). by rewrite take_nil, app_nil_r, Nat.add_0_r.
  - destruct (Z.ltb_spec (Z.of_nat n) len) as [Hl|Hl]; cbn [andb].
    2: { replace (Z.to_nat len - n)%nat with 0%nat by lia. by rewrite take_0, app_nil_r, Nat.add_0_r. }
    destruct (Z.ltb_spec (Z.of_nat n) (count p)) as [Hc|Hc].
    2: { rewrite drop_ge by (rewrite content_length; lia). by rewrite take_nil, app_nil_r, Nat.add_0_r. }
    rewrite (drop_S (content p w) _ n (content_lookup p w n ltac:(lia))).
    replace (Z.to_nat len - n)%nat with (S (Z.to_nat len - S n)) by lia. cbn [take length].
    replace (((head p + Z.of_nat n) mod PIPE_SIZE + 1) mod PIPE_SIZE) with
      ((head p + Z.of_nat (S n)) mod PIPE_SIZE).
    2: { rewrite Zplus_mod_idemp_l. f_equal. lia. }
    replace (Z.of_nat n + 1) with (Z.of_nat (S n)) by lia.
    rewrite IH by lia. rewrite <- app_assoc, Nat.add_succ_comm. done.
Qed.

Lemma content_drop p w n :
  (n <= Z.to_nat (count p))%nat ->
  content (set_ring ((head p + Z.of_nat n) mod PIPE_SIZE) (count p - Z.of_nat n) p) w =
  drop n (content p w).
Proof using Type.
  intros Hn. apply list_eq. intros k. rewrite lookup_drop.
  destruct (Nat.lt_ge_cases k (Z.to_nat (count p - Z.of_nat n))) as [Hk|Hk].
  - rewrite !content_lookup by (cbn; lia). cbn [buf head set_ring]. rewrite Zplus_mod_idemp_l.
    by rewrite Nat2Z.inj_add, Z.add_assoc.
  - rewrite !lookup_ge_None_2; [done|rewrite content_length; cbn [count set_ring]; lia..].
Qed.

(** Storing a byte at the end of a ring. *)
Lemma content_push p w b :
  pg_ok w -> 0 < pg_held w (buf p) -> ring_wf p -> count p < 4096 -> 0 <= b < 256 ->
  let w' := pg_store (buf p + u32 (head p + count p) mod PIPE_SIZE) b w in
  let p' := set_ring (head p) (u32 (count p + 1)) p in
  pg_ok w' /\ (forall a, pg_held w' a = pg_held w a) /\
  (forall y, ~ in_page (buf p) y -> pg_load w' y = pg_load w y) /\
  p' = set_ring (head p) (count p + 1) p /\ content p' w' = content p w ++ [b].
Proof using Type.
  intros Hok Hheld [Hh Hc] Hlt Hb w' p'. unfold PIPE_SIZE in *.
  assert (Ew : w' = pg_store (buf p + (head p + count p) mod 4096) b w)
    by (unfold w'; by rewrite u32_small by lia).
  clearbody w'. subst w'.
  pose proof (Z.mod_pos_bound (head p + count p) 4096 ltac:(lia)) as Hm.
  destruct (pg_store_spec w (buf p) (buf p + (head p + count p) mod 4096) b Hok Hheld
    ltac:(unfold in_page; lia) Hb) as (W1 & W2 & W3).
  assert (Ep : p' = set_ring (head p) (count p + 1) p) by (unfold p'; by rewrite u32_small by lia).
  split; [done|]. split; [done|]. split.
  { intros y Hy. rewrite W3, (proj2 (Z.eqb_neq _ _)); [done|]. unfold in_page in Hy. lia. }
  split; [done|]. rewrite Ep. apply list_eq. intros k.
  destruct (Nat.lt_trichotomy k (Z.to_nat (count p))) as [Hk|[Hk|Hk]].
  - rewrite lookup_app_l by (rewrite content_length; lia).
    rewrite !content_lookup by (cbn; lia). unfold PIPE_SIZE. cbn [buf head set_ring].
    f_equal. rewrite W3, (proj2 (Z.eqb_neq _ _)); [done|].
    intros E. apply Z.add_cancel_l in E.
    pose proof (Z.div_mod (head p + Z.of_nat k) 4096). pose proof (Z.div_mod (head p + count p) 4096). nia.
  - subst k. rewrite lookup_app_r by (rewrite content_length; lia). rewrite content_length, Nat.sub_diag.
    rewrite content_lookup by (cbn; lia). unfold PIPE_SIZE. cbn [buf head set_ring list_lookup lookup].
    f_equal. rewrite Z2Nat.id by lia. by rewrite W3, Z.eqb_refl.
  - rewrite !lookup_ge_None_2; [done|rewrite ?length_app, content_length; cbn [count set_ring length]; lia..].
Qed.

Lemma set_ring_set p h c h' c' : set_ring h c (set_ring h' c' p) = set_ring h c p.
Proof using Type. done. Qed.

Lemma ring_copy_in_spec bs p w :
  pg_ok w -> 0 < pg_held w (buf p) -> ring_wf p -> count p + Z.of_nat (length bs) <= 4096 ->
  Forall (fun b => 0 <= b < 256) bs ->
  exists w', copy_in bs p w = (set_ring (head p) (count p + Z.of_nat (length bs)) p, w') /\
    pg_ok w' /\ (forall a, pg_held w' a = pg_held w a) /\
    (forall y, ~ in_page (buf p) y -> pg_load w' y = pg_load w y) /\
    content (set_ring (head p) (count p + Z.of_nat (length bs)) p) w' = content p w ++ bs.
Proof using Type.
  intros Hok Hheld Hwf Hlen Hbs. revert p w Hok Hheld Hwf Hlen.
  induction Hbs as [|b bs Hb _ IH]; intros p w Hok Hheld Hwf Hlen; cbn [copy_in length].
  - exists w. rewrite Z.add_0_r. destruct p. split; [done|]. by rewrite app_nil_r.
  - cbn [length] in Hlen.
    destruct (content_push p w b Hok Hheld Hwf ltac:(lia) Hb) as (W1 & W2 & W3 & Ep & Ec).
    cbv zeta in *. rewrite Ep in *. set (w1 := pg_store _ b w) in *.
    destruct (IH (set_ring (head p) (count p + 1) p) w1) as (w' & E & V1 & V2 & V3 & V4); try done.
    + cbn. by rewrite W2.
    + destruct Hwf. split; cbn; lia.
    + cbn. lia.
    + exists w'. cbn [head count buf set_ring] in *. rewrite !set_ring_set in *.
      replace (count p + Z.of_nat (S (length bs))) with (count p + 1 + Z.of_nat (length bs)) by lia.
      split; [done|]. split; [done|]. split; [intros a; by rewrite V2, W2|].
      split; [intros y Hy; by rewrite V3, W3|]. by rewrite V4, Ec, <- app_assoc.
Qed.
(** *** Reading and writing a ring *)

Definition ring_bytes (s : state) (i : nat) : list Z :=
  match ring_at s i with Some p => content p (mem s) | None => [] end.

(** From [s] to [s'], [put] went in at the end of ring [i] and [got] came out
    at its front. *)
Definition moves (i : nat) (s s' : state) (put got : list Z) : Prop :=
  ring_bytes s i ++ put = got ++ ring_bytes s' i.

Lemma moves_refl i s s' : ring_bytes s' i = ring_bytes s i -> moves i s s' [] [].
Proof using Type. intros E. unfold moves. by rewrite E, app_nil_r. Qed.

Lemma moves_trans i s1 s2 s3 p1 g1 p2 g2 :
  moves i s1 s2 p1 g1 -> moves i s2 s3 p2 g2 -> moves i s1 s3 (p1 ++ p2) (g1 ++ g2).
Proof using Type. unfold moves. intros H1 H2. by rewrite app_assoc, H1, <- !app_assoc, H2. Qed.

Lemma inv_set_mem x base s w :
  pg_ok w -> (forall a, pg_held w a = pg_held (mem s) a) -> inv x base s -> inv x base (set_mem w s).
Proof using Type.
  intros Hok Hh [H1 H2 H3 H4 H5 H6 H7]. constructor; try done. intros a. cbn. rewrite Hh. apply H3.
Qed.

(** A ring's bytes are those of its own page. *)
Lemma content_frame p w w' :
  ring_wf p -> (forall y, in_page (buf p) y -> pg_load w' y = pg_load w y) -> content p w' = content p w.
Proof using Type.
  intros Hwf Hl. apply list_eq. intros k. destruct (Nat.lt_ge_cases k (Z.to_nat (count p))).
  - rewrite !content_lookup by done. f_equal. apply Hl. unfold in_page, PIPE_SIZE.
    pose proof (Z.mod_pos_bound (head p + Z.of_nat k) 4096). lia.
  - by rewrite !lookup_ge_None_2 by (rewrite content_length; lia).
Qed.

(** Changing ring [i] and only its page leaves the other rings' bytes. *)
Lemma ring_bytes_set x base s i p p' w j :
  inv x base s -> ring_at s i = Some p -> used p' = true ->
  (forall y, ~ in_page (buf p) y -> pg_load w y = pg_load (mem s) y) ->
  ring_bytes (set_pipe i p' (set_mem w s)) j =
  if decide (j = i) then content p' w else ring_bytes s j.
Proof using Type.
  intros Hinv Hi Hu Hl. pose proof Hi as [Hli _]%ring_at_lookup.
  unfold ring_bytes. rewrite ring_at_set by (cbn; by eapply lookup_lt_Some).
  case_decide as E; [by rewrite Hu|]. change (ring_at (set_mem w s) j) with (ring_at s j).
  destruct (ring_at s j) as [q|] eqn:Hj; [|done]. cbn [mem set_pipe set_mem].
  apply content_frame; [exact (i_ring _ _ _ Hinv j q Hj)|]. intros y Hy. apply Hl. intros Hy'.
  apply (rings_apart _ _ _ _ _ _ _ Hinv Hj Hi E).
  destruct (pg_held_page (mem s) (buf p) (i_ok _ _ _ Hinv) (ring_held _ _ _ _ _ Hinv Hi)) as [_ M1].
  destruct (pg_held_page (mem s) (buf q) (i_ok _ _ _ Hinv) (ring_held _ _ _ _ _ Hinv Hj)) as [_ M2].
  by apply (in_page_same _ _ y).
Qed.

Lemma set_mem_same (s : state) : set_mem (mem s) s = s.
Proof using Type. by destruct s. Qed.

(** Waking sleepers and going to sleep move no bytes. *)
Lemma ring_at_wake s i j :
  ring_at (wake_everyone i s) j = if decide (j = i) then set_queues [] [] <$> ring_at s i else ring_at s j.
Proof using Type.
  unfold wake_everyone, upd_pipe. destruct (pipes s !! i) as [p|] eqn:E.
  - rewrite ring_at_set by (by eapply lookup_lt_Some). case_decide; [|done]. unfold ring_at.
    rewrite E. cbn. by destruct (used p).
  - case_decide; [|done]. subst. unfold ring_at. by rewrite E.
Qed.

Lemma ring_bytes_wake s i j : ring_bytes (wake_everyone i s) j = ring_bytes s j.
Proof using Type.
  unfold ring_bytes. rewrite ring_at_wake.
  assert (E : mem (wake_everyone i s) = mem s)
    by (unfold wake_everyone, upd_pipe; by destruct (pipes s !! i)).
  rewrite E. case_decide; [|done]. subst. by destruct (ring_at s i).
Qed.

Section moving.
Context (x : list (nat * bool)).

Definition good (s : state) : Prop := exists base, inv x base s.

(** Queueing a sleeper. *)
Lemma asleep_ok s i p r w :
  good s -> ring_at s i = Some p ->
  let s' := set_pipe i (set_queues r w p) s in
  good s' /\ ring_at s' i <> None /\ forall j, ring_bytes s' j = ring_bytes s j.
Proof using Type.
  intros [base Hinv] Hi s'. pose proof Hi as [Hl Hu]%ring_at_lookup. split; [|split].
  - exists base. apply (inv_set_pipe _ _ _ _ p); try done. exact (i_ring _ _ _ Hinv i p Hi).
  - unfold s'. rewrite ring_at_set by (by eapply lookup_lt_Some). rewrite decide_True by done.
    cbn. by rewrite Hu.
  - intros j. unfold s'. rewrite <- (set_mem_same s) at 1.
    rewrite (ring_bytes_set x base s i p) by done. case_decide; [|done]. subst.
    unfold ring_bytes. by rewrite Hi.
Qed.

Lemma read_now s i p len how :
  good s -> ring_at s i = Some p ->
  let '(out, at_) := copy_out (Z.to_nat (count p)) (mem s) p (head p) 0 len [] in
  let s' := if negb (has how RW_PEEK)
            then wake_everyone i (set_pipe i (set_ring at_ (u32 (count p - Z.of_nat (length out))) p) s)
            else s in
  out = take (Z.to_nat len) (ring_bytes s i) /\ good s' /\
  moves i s s' [] (if has how RW_PEEK then [] else out) /\
  ring_at s' i <> None /\ forall j, j <> i -> ring_bytes s' j = ring_bytes s j.
Proof using Type.
  intros [base Hinv] Hi. pose proof Hi as [Hl Hu]%ring_at_lookup.
  pose proof (i_ring _ _ _ Hinv i p Hi) as Hwf. pose proof Hwf as [Hh Hc].
  pose proof (ring_copy_out_spec (mem s) p len (Z.to_nat (count p)) 0 [] ltac:(lia) ltac:(lia)) as E.
  change (Z.of_nat 0) with 0 in E.
  rewrite Z.add_0_r, Z.mod_small in E by (unfold PIPE_SIZE; lia). rewrite E. clear E.
  rewrite Nat.sub_0_r, drop_0, Nat.add_0_l. cbn [app].
  assert (Hb : ring_bytes s i = content p (mem s)) by (unfold ring_bytes; by rewrite Hi).
  set (out := take (Z.to_nat len) (content p (mem s))). split; [by rewrite Hb|].
  destruct (has how RW_PEEK); cbn [negb].
  { split; [by exists base|]. split; [by apply moves_refl|]. by rewrite Hi. }
  assert (Hn : (length out <= Z.to_nat (count p))%nat)
    by (unfold out; rewrite length_take, content_length; lia).
  rewrite u32_small by lia. set (p' := set_ring _ _ p).
  assert (Hwf' : ring_wf p').
  { split; cbn; [apply Z.mod_pos_bound; done|lia]. }
  assert (Hin : inv x base (set_pipe i p' s)) by (by apply (inv_set_pipe _ _ _ _ p)).
  assert (Hbytes : forall j, ring_bytes (set_pipe i p' s) j =
    if decide (j = i) then drop (length out) (content p (mem s)) else ring_bytes s j).
  { intros j. rewrite <- (set_mem_same s) at 1. rewrite (ring_bytes_set x base s i p) by done.
    case_decide; [|done]. by apply content_drop. }
  split; [exists base; by apply inv_wake|]. split; [|split].
  - unfold moves. rewrite ring_bytes_wake, Hbytes, decide_True, Hb, app_nil_r by done.
    unfold out. rewrite drop_length_take. by rewrite take_drop.
  - rewrite ring_at_wake, decide_True by done. rewrite ring_at_set by (by eapply lookup_lt_Some).
    rewrite decide_True by done. cbn. by rewrite Hu.
  - intros j Hj. rewrite ring_bytes_wake, Hbytes. by rewrite decide_False.
Qed.

(** What the tasks that run during one sleep report of ring [i], which
    depends on the state they find: the bytes they put and those they got. *)
Notation report := (state -> list Z * list Z).
(** The reports are true, and the ring is still there at the end. *)
Definition orderly (i : nat) (e : env) (gs : list report) : Prop :=
  Forall2 (fun y g => forall s, good s -> ring_at s i <> None ->
    good (snd y s) /\ ring_at (snd y s) i <> None /\ moves i s (snd y s) (fst (g s)) (snd (g s))) e gs.

(** The course of a call on ring [i] through the sleeps [e]: at each the call
    has put [own] bytes of its own at the end of the ring, and the others start
    from there. [put] is what everyone put, in the order it went in, and [got]
    what the others took out. *)
Inductive course (i : nat) : env -> list report -> state -> list Z -> list Z -> list Z -> state -> Prop :=
  | course_end s s' own :
      ring_bytes s' i = ring_bytes s i ++ own -> course i [] [] s own own [] s'
  | course_sleep y g e gs s s1 own own' put got s' :
      good s1 -> ring_at s1 i <> None -> ring_bytes s1 i = ring_bytes s i ++ own ->
      course i e gs (snd y s1) own' put got s' ->
      course i (y :: e) (g :: gs) s (own ++ own') (own ++ fst (g s1) ++ put) (snd (g s1) ++ got) s'.

Lemma course_moves i e gs s own put got s' : orderly i e gs -> course i e gs s own put got s' -> moves i s s' put got.
Proof using Type.
  intros He Hc. induction Hc as [s s' own E|y g e gs s s1 own own' put got s' Hg Hi E _ IH]; [unfold moves; by rewrite E|].
  inversion He as [|? ? ? ? Hy He']; subst. destruct (Hy s1 Hg Hi) as (_ & _ & Hm). specialize (IH He').
  unfold moves in *. by rewrite app_assoc, <- E, app_assoc, Hm, <- !app_assoc, IH.
Qed.
Lemma course_nothing i s s' : ring_bytes s' i = ring_bytes s i -> course i [] [] s [] [] [] s'.
Proof using Type. intros E. constructor. by rewrite E, app_nil_r. Qed.
Lemma course_own i e gs s s1 own own' put got s' :
  ring_bytes s1 i = ring_bytes s i ++ own -> course i e gs s1 own' put got s' ->
  course i e gs s (own ++ own') (own ++ put) got s'.
Proof using Type.
  intros E Hc. inversion Hc as [? ? ? E'|y g e' gs' ? s2 own1 own2 put' got' ? Hg Hi E' Hc']; subst.
  - constructor. by rewrite E', E, app_assoc.
  - rewrite !(app_assoc own own1). apply course_sleep; try done. by rewrite E', E, app_assoc.
Qed.
(** The first sleep of a call that has put nothing yet. *)
Lemma course_wait i y g e gs s s1 own put got s' :
  good s1 -> ring_at s1 i <> None -> ring_bytes s1 i = ring_bytes s i -> course i e gs (snd y s1) own put got s' ->
  course i (y :: e) (g :: gs) s own (fst (g s1) ++ put) (snd (g s1) ++ got) s'.
Proof using Type. intros Hg Hi E Hc. apply (course_sleep i y g e gs s s1 [] own put got s'); try done. by rewrite E, app_nil_r. Qed.

(** A read waits until the ring has bytes, its writers are gone, or it must
    not wait; [s1] is the state it then finds. *)
Definition read_spec (i : nat) (s : state) (len how : Z) (e : env) (gs : list report) (o : outcome) : Prop :=
  match o with
  | Stuck => False
  | Asleep s' => good s' /\ ring_bytes s' i = [] /\ exists put got, course i e gs s [] put got s'
  | Ret r out s' _ =>
      good s' /\ ring_at s' i <> None /\
      exists k put got s1, course i (take k e) (take k gs) s [] put got s1 /\
      ((0 < r <= len /\ r = Z.of_nat (length out) /\ out = take (Z.to_nat len) (ring_bytes s1 i) /\
        ring_bytes s' i = if has how RW_PEEK then ring_bytes s1 i else drop (Z.to_nat len) (ring_bytes s1 i)) \/
       (out = [] /\ ring_bytes s1 i = [] /\ ring_bytes s' i = [] /\
        ((r = 0 /\ exists p, ring_at s' i = Some p /\ writers p = 0) \/
         (r = - EAGAIN /\ has how RW_NONBLOCK = true) \/ r = - EINTR)))
  end.

Lemma read_spec_step i s s1 len how y g e gs o :
  good s1 -> ring_at s1 i <> None -> ring_bytes s1 i = ring_bytes s i ->
  read_spec i (snd y s1) len how e gs o -> read_spec i s len how (y :: e) (g :: gs) o.
Proof using Type.
  intros Hg Hi E. destruct o as [r out s' e'|s'|]; cbn [read_spec]; [| |done].
  - intros (Hg' & Hi' & k & put & got & s2 & Hc & Hr). split; [done|]. split; [done|].
    exists (S k), (fst (g s1) ++ put), (snd (g s1) ++ got), s2. split; [by apply course_wait|done].
  - intros (Hg' & Hb & put & got & Hc). split; [done|]. split; [done|]. exists (fst (g s1) ++ put), (snd (g s1) ++ got). by apply course_wait.
Qed.

Lemma read_now_spec e' e gs s i p len how :
  good s -> ring_at s i = Some p -> 0 < count p -> 0 < len ->
  read_spec i s len how e gs
    (let '(out, at_) := copy_out (Z.to_nat (count p)) (mem s) p (head p) 0 len [] in
     let n := Z.of_nat (length out) in
     let s := if negb (has how RW_PEEK)
              then wake_everyone i (set_pipe i (set_ring at_ (u32 (count p - n)) p) s) else s in
     Ret n out s e').
Proof using Type.
  intros Hg Hat Hc Hlen. pose proof (read_now s i p len how Hg Hat) as Hnow.
  assert (Hb : ring_bytes s i = content p (mem s)) by (unfold ring_bytes; by rewrite Hat).
  destruct (copy_out _ _ _ _ _ _ _) as [out at_]. destruct Hnow as (Ho & Hg' & Hm & Hi' & _).
  cbv zeta. set (s' := if negb _ then _ else s) in *.
  split; [exact Hg'|]. split; [exact Hi'|]. exists 0%nat, [], [], s. split; [by apply course_nothing|]. left.
  assert (Hlo : length out = Nat.min (Z.to_nat len) (Z.to_nat (count p)))
    by (by rewrite Ho, Hb, length_take, content_length).
  split; [lia|]. split; [done|]. split; [done|]. unfold moves in Hm. rewrite app_nil_r in Hm.
  destruct (has how RW_PEEK); [done|].
  rewrite Ho in Hm. rewrite <- (take_drop (Z.to_nat len) (ring_bytes s i)) in Hm at 1. by apply app_inv_head in Hm.
Qed.

Lemma ring_read_loop_spec e gs s i pid len how :
  orderly i e gs -> good s -> ring_at s i <> None -> 0 < len ->
  read_spec i s len how e gs (ring_read_loop e s i pid len how).
Proof using Type.
  intros He. revert s. induction He as [|[sig f] g e gs Hf _ IH]; intros s Hg Hi Hlen;
    cbn [ring_read_loop];
    (destruct (ring_at s i) as [p|] eqn:Hat; [|done]);
    pose proof Hat as [Hl Hu]%ring_at_lookup; rewrite Hl;
    (destruct (Z.ltb_spec 0 (count p)) as [Hc|Hc]; [by apply read_now_spec|]);
    (assert (Hempty : ring_bytes s i = []) by
       (unfold ring_bytes; rewrite Hat; apply nil_length_inv; rewrite content_length; lia));
    (assert (Hstop : forall r e0 es gs0, (r = 0 /\ writers p = 0) \/ (r = - EAGAIN /\ has how RW_NONBLOCK = true) \/ r = - EINTR ->
       read_spec i s len how es gs0 (Ret r [] s e0)) by
       (intros r e0 es gs0 Hr; split; [done|]; rewrite Hat; split; [done|]; exists 0%nat, [], [], s;
        split; [by apply course_nothing|]; right; split; [done|]; split; [done|]; split; [done|];
        destruct Hr as [[-> Hw]|Hr]; [left; split; [done|]; by exists p|by right]));
    (destruct (Z.eqb_spec (writers p) 0) as [Hw|Hw]; [by apply Hstop; left|]);
    (destruct (has how RW_NONBLOCK) eqn:Hnb; [by apply Hstop; right; left|]);
    destruct (asleep_ok s i p (rq p ++ [pid]) (wq p) Hg Hat) as (Hg' & Hi' & Hb').
  - split; [done|]. rewrite Hb'. split; [done|]. exists [], []. by apply course_nothing.
  - destruct sig; [by apply Hstop; right; right|].
    destruct (Hf _ Hg' Hi') as (Hg2 & Hi2 & _).
    apply (read_spec_step i s (set_pipe i (set_queues (rq p ++ [pid]) (wq p) p) s)); [done..|]. by apply IH.
Qed.

Lemma write_now s i p bs :
  good s -> ring_at s i = Some p -> Z.of_nat (length bs) <= 4096 - count p ->
  Forall (fun b => 0 <= b < 256) bs ->
  let '(p', w') := copy_in bs p (mem s) in
  let s' := wake_everyone i (set_pipe i p' (set_mem w' s)) in
  good s' /\ moves i s s' bs [] /\ ring_at s' i <> None /\
  forall j, j <> i -> ring_bytes s' j = ring_bytes s j.
Proof using Type.
  intros [base Hinv] Hi Hlen Hbs. pose proof Hi as [Hl Hu]%ring_at_lookup.
  pose proof (i_ring _ _ _ Hinv i p Hi) as Hwf.
  destruct (ring_copy_in_spec bs p (mem s) (i_ok _ _ _ Hinv) (ring_held _ _ _ _ _ Hinv Hi) Hwf ltac:(lia) Hbs)
    as (w' & -> & W1 & W2 & W3 & Wc). set (p' := set_ring _ _ p) in *.
  assert (Hin : inv x base (set_pipe i p' (set_mem w' s))).
  { apply (inv_set_pipe _ _ _ _ p); try done; [|by apply inv_set_mem].
    destruct Hwf. split; cbn; lia. }
  assert (Hb : forall j, ring_bytes (set_pipe i p' (set_mem w' s)) j =
    if decide (j = i) then content p (mem s) ++ bs else ring_bytes s j).
  { intros j. rewrite (ring_bytes_set x base s i p) by done. by rewrite Wc. }
  split; [exists base; by apply inv_wake|]. split; [|split].
  - unfold moves. rewrite ring_bytes_wake, Hb, decide_True by done. unfold ring_bytes. by rewrite Hi.
  - rewrite ring_at_wake, decide_True by done. rewrite ring_at_set by (by eapply lookup_lt_Some).
    rewrite decide_True by done. change (used p') with (used p). by rewrite Hu.
  - intros j Hj. rewrite ring_bytes_wake, Hb. by rewrite decide_False.
Qed.

Lemma good_signal pid s : good s -> good (signal_send pid s).
Proof using Type. intros [base Hinv]. exists base. revert Hinv. by apply inv_ext. Qed.

(** Why a write stopped short. *)
Definition write_err (i : nat) (how : Z) (s' : state) (r : Z) : Prop :=
  (r = - EPIPE /\ exists p, ring_at s' i = Some p /\ readers p = 0) \/
  (r = - EAGAIN /\ has how RW_NONBLOCK = true) \/ r = - EINTR.

(** A write of at most PIPE_BUF bytes goes in as one piece or not at all: up
    to the state [s1] its last turn finds it has put nothing. *)
Definition atomic_spec (i : nat) (s : state) (bs : list Z) (how : Z) (e : env) (gs : list report) (o : outcome) : Prop :=
  match o with
  | Stuck => False
  | Asleep s' => good s' /\ exists put got, course i e gs s [] put got s'
  | Ret r _ s' _ => good s' /\ exists k put got s1, course i (take k e) (take k gs) s [] put got s1 /\
      ((r = Z.of_nat (length bs) /\ ring_bytes s' i = ring_bytes s1 i ++ bs /\ moves i s s' (put ++ bs) got) \/
       (write_err i how s' r /\ ring_bytes s' i = ring_bytes s1 i /\ moves i s s' put got))
  end.

Lemma orderly_take i e gs k : orderly i e gs -> orderly i (take k e) (take k gs).
Proof using Type. by apply Forall2_take. Qed.

Lemma moves_more i s s1 s' put got bs :
  moves i s s1 put got -> ring_bytes s' i = ring_bytes s1 i ++ bs -> moves i s s' (put ++ bs) got.
Proof using Type. unfold moves. intros Hm ->. by rewrite !app_assoc, Hm. Qed.

Lemma atomic_step i s s1 bs how y g e gs o :
  orderly i (y :: e) (g :: gs) -> good s1 -> ring_at s1 i <> None -> ring_bytes s1 i = ring_bytes s i ->
  atomic_spec i (snd y s1) bs how e gs o -> atomic_spec i s bs how (y :: e) (g :: gs) o.
Proof using Type.
  intros He Hg Hi E. destruct o as [r out s' e'|s'|]; cbn [atomic_spec]; [| |done].
  - intros (Hg' & k & put & got & s2 & Hc & Hr). split; [done|].
    assert (Hc' : course i (take (S k) (y :: e)) (take (S k) (g :: gs)) s [] (fst (g s1) ++ put) (snd (g s1) ++ got) s2)
      by by apply course_wait.
    exists (S k), (fst (g s1) ++ put), (snd (g s1) ++ got), s2. split; [exact Hc'|].
    pose proof (course_moves _ _ _ _ _ _ _ _ (orderly_take _ _ _ (S k) He) Hc') as Hm.
    destruct Hr as [(Hr & Hb & _)|(Hr & Hb & _)]; [left|right]; (split; [done|]); (split; [done|]).
    + by eapply moves_more.
    + unfold moves in *. by rewrite Hb.
  - intros (Hg' & put & got & Hc). split; [done|]. exists (fst (g s1) ++ put), (snd (g s1) ++ got). by apply course_wait.
Qed.

Lemma ring_write_atomic_loop fuel e gs s i pid bs how :
  orderly i e gs -> good s -> ring_at s i <> None -> (0 < length bs)%nat ->
  Z.of_nat (length bs) <= PIPE_BUF -> Forall (fun b => 0 <= b < 256) bs ->
  (length e + 2 <= fuel)%nat ->
  atomic_spec i s bs how e gs (ring_write_loop fuel e s i pid bs 0 how).
Proof using Type.
  intros He. revert s fuel. induction He as [|[sig f] g e gs Hf He IH];
    intros s fuel Hg Hi Hpos Hlen Hbs Hfuel; (destruct fuel as [|fuel]; [cbn in Hfuel; lia|]);
    cbn [ring_write_loop]; cbv zeta; rewrite (proj2 (Z.ltb_lt 0 _)) by lia; cbn [negb];
    (destruct (ring_at s i) as [p|] eqn:Hat; [|done]);
    pose proof Hat as [Hl Hu]%ring_at_lookup; rewrite Hl;
    (assert (Hstop : forall r s' e0 es gs0, good s' -> ring_bytes s' i = ring_bytes s i -> write_err i how s' r ->
       atomic_spec i s bs how es gs0 (Ret r [] s' e0)) by
       (intros r s' e0 es gs0 Hg' Hb Hr; split; [done|]; exists 0%nat, [], [], s; split; [by apply course_nothing|];
        right; split; [done|]; split; [done|]; by apply moves_refl));
    (destruct (Z.eqb_spec (readers p) 0) as [Hr0|Hr0];
      [apply Hstop; [destruct (negb _); [by apply good_signal|done]|by destruct (negb _)|];
       left; split; [done|]; exists p; by destruct (negb _)|]);
    rewrite (proj2 (Z.leb_le _ _) Hlen), Z.sub_0_r;
    (assert (Hwf : ring_wf p) by (destruct Hg as [base Hinv]; exact (i_ring _ _ _ Hinv i p Hat)));
    destruct Hwf as [Hh Hc]; unfold PIPE_SIZE; rewrite (u32_small (4096 - count p)) by lia;
    (destruct (Z.ltb_spec (4096 - count p) (Z.of_nat (length bs))) as [Hroom|Hroom];
     [|pose proof (write_now s i p bs Hg Hat Hroom Hbs) as Hw;
       rewrite Nat2Z.id; change (Z.to_nat 0) with 0%nat; rewrite sub_all;
       destruct (copy_in bs p (mem s)) as [p' w']; destruct Hw as (Hg' & Hm & _ & _);
       (destruct fuel as [|fuel]; [cbn in Hfuel; lia|]); cbn [ring_write_loop]; cbv zeta;
       rewrite Z.add_0_l, Z.ltb_irrefl; cbn [negb]; split; [done|]; exists 0%nat, [], [], s;
       split; [by apply course_nothing|]; left; split; [done|]; split; [by unfold moves in Hm|done]]);
    (destruct (has how RW_NONBLOCK) eqn:Hnb; [apply Hstop; [done..|]; by right; left|]);
    destruct (asleep_ok s i p (rq p) (wq p ++ [pid]) Hg Hat) as (Hg' & Hi' & Hb').
  - split; [done|]. exists [], []. by apply course_nothing.
  - destruct sig; [apply Hstop; [done..|]; by right; right|].
    destruct (Hf _ Hg' Hi') as (Hg2 & Hi2 & _).
    apply (atomic_step i s (set_pipe i (set_queues (rq p) (wq p ++ [pid]) p) s)); [by constructor|done..|].
    apply IH; try done. cbn in Hfuel. lia.
Qed.

(** A write of any length: the bytes accepted go in in order, in pieces
    between which others' may come. *)
Definition pieces_spec (i : nat) (s : state) (bs : list Z) (done : nat) (how : Z)
    (e : env) (gs : list report) (o : outcome) : Prop :=
  match o with
  | Stuck => False
  | Asleep s' => good s' /\ exists d put got, (done <= d <= length bs)%nat /\
      course i e gs s (sub bs done (d - done)) put got s'
  | Ret r _ s' _ => good s' /\ ring_at s' i <> None /\ exists d k put got, (done <= d <= length bs)%nat /\
      course i (take k e) (take k gs) s (sub bs done (d - done)) put got s' /\ moves i s s' put got /\
      ((r = Z.of_nat d /\ (d = length bs \/ (0 < d)%nat)) \/ (d = 0%nat /\ write_err i how s' r))
  end.

Lemma pieces_step i s s1 bs done how y g e gs o :
  orderly i (y :: e) (g :: gs) -> good s1 -> ring_at s1 i <> None -> ring_bytes s1 i = ring_bytes s i ->
  pieces_spec i (snd y s1) bs done how e gs o -> pieces_spec i s bs done how (y :: e) (g :: gs) o.
Proof using Type.
  intros He Hg Hi E. destruct o as [r out s' e'|s'|]; cbn [pieces_spec]; [| |done].
  - intros (Hg' & Hi' & d & k & put & got & Hd & Hc & _ & Hr). split; [done|]. split; [done|].
    assert (Hc' : course i (take (S k) (y :: e)) (take (S k) (g :: gs)) s (sub bs done (d - done))
      (fst (g s1) ++ put) (snd (g s1) ++ got) s') by by apply course_wait.
    exists d, (S k), (fst (g s1) ++ put), (snd (g s1) ++ got). split; [done|]. split; [exact Hc'|]. split; [|done].
    exact (course_moves _ _ _ _ _ _ _ _ (orderly_take _ _ _ (S k) He) Hc').
  - intros (Hg' & d & put & got & Hd & Hc). split; [done|]. exists d, (fst (g s1) ++ put), (snd (g s1) ++ got). split; [done|]. by apply course_wait.
Qed.

Lemma pieces_own i s s1 bs done n how e gs o :
  ring_bytes s1 i = ring_bytes s i ++ sub bs done n -> pieces_spec i s1 bs (done + n) how e gs o ->
  pieces_spec i s bs done how e gs o.
Proof using Type.
  intros E.
  assert (Hsplit : forall d, (done + n <= d)%nat ->
    sub bs done (d - done) = sub bs done n ++ sub bs (done + n) (d - (done + n))).
  { intros d Hd. rewrite <- sub_split. f_equal. lia. }
  destruct o as [r out s' e'|s'|]; cbn [pieces_spec]; [| |done].
  - intros (Hg & Hi & d & k & put & got & Hd & Hc & Hm & Hr). split; [done|]. split; [done|].
    exists d, k, (sub bs done n ++ put), got. rewrite Hsplit by lia. split; [lia|].
    split; [by eapply course_own|]. split; [|done]. unfold moves in *. by rewrite app_assoc, <- E.
  - intros (Hg & d & put & got & Hd & Hc). split; [done|].
    exists d. do 2 eexists. rewrite Hsplit by lia. split; [lia|]. by eapply course_own.
Qed.

(** A write that stops with [done] bytes already in. *)
Lemma pieces_stop i s s' bs done how e gs r out e' :
  good s' -> ring_at s' i <> None -> ring_bytes s' i = ring_bytes s i -> (done <= length bs)%nat ->
  write_err i how s' r \/ done = length bs ->
  pieces_spec i s bs done how e gs (Ret (if (done =? length bs)%nat then Z.of_nat done
                                       else done_or (Z.of_nat done) r) out s' e').
Proof using Type.
  intros Hg Hi Hb Hd Hr. split; [done|]. split; [done|]. exists done, 0%nat, [], []. split; [lia|].
  rewrite Nat.sub_diag. unfold sub. rewrite take_0. split; [by apply course_nothing|].
  split; [by apply moves_refl|]. destruct (Nat.eqb_spec done (length bs)); [by left; auto|].
  unfold done_or. zcase; [left; split; [done|right; lia]|right]. destruct Hr; [|done]. split; [lia|done].
Qed.

Lemma ring_write_pieces_loop fuel e gs s i pid bs done how :
  orderly i e gs -> good s -> ring_at s i <> None -> Forall (fun b => 0 <= b < 256) bs ->
  (done <= length bs)%nat -> (length bs - done + length e + 1 <= fuel)%nat ->
  pieces_spec i s bs done how e gs (ring_write_loop fuel e s i pid bs (Z.of_nat done) how).
Proof using Type.
  revert e gs s done. induction fuel as [|fuel IH]; intros e gs s done He Hg Hi Hbs Hd Hfuel; [lia|].
  cbn [ring_write_loop]. cbv zeta.
  destruct (Z.ltb_spec (Z.of_nat done) (Z.of_nat (length bs))) as [Hlt|Hge]; cbn [negb].
  2: { pose proof (pieces_stop i s s bs done how e gs 0 [] e Hg Hi eq_refl Hd ltac:(right; lia)) as Hs.
       rewrite (proj2 (Nat.eqb_eq done (length bs))) in Hs by lia. done. }
  assert (Hstop : forall s' r e', good s' -> ring_at s' i <> None -> ring_bytes s' i = ring_bytes s i -> write_err i how s' r ->
    pieces_spec i s bs done how e gs (Ret (done_or (Z.of_nat done) r) [] s' e')).
  { intros s' r e' Hg' Hi' Hb' Hr. pose proof (pieces_stop i s s' bs done how e gs r [] e' Hg' Hi' Hb' Hd (or_introl Hr)) as Hs.
    by rewrite (proj2 (Nat.eqb_neq done (length bs))) in Hs by lia. }
  destruct (ring_at s i) as [p|] eqn:Hat; [|done].
  pose proof Hat as [Hl Hu]%ring_at_lookup. rewrite Hl.
  destruct (Z.eqb_spec (readers p) 0) as [Hr0|Hr0].
  { apply Hstop; [destruct (negb _); [by apply good_signal|done]|destruct (negb _)|by destruct (negb _)|].
    - change (ring_at (signal_send pid s) i) with (ring_at s i). by rewrite Hat.
    - by rewrite Hat.
    - left. split; [done|]. exists p. by destruct (negb _). }
  assert (Hwf : ring_wf p) by (destruct Hg as [base Hinv]; exact (i_ring _ _ _ Hinv i p Hat)).
  destruct Hwf as [Hh Hc]. unfold PIPE_SIZE. rewrite (u32_small (4096 - count p)) by lia.
  rewrite <- Hat in Hi.
  destruct (if Z.of_nat (length bs) <=? PIPE_BUF then _ else _) eqn:Hfull.
  - destruct (has how RW_NONBLOCK) eqn:Hnb; [apply Hstop; try done; by right; left|].
    destruct (asleep_ok s i p (rq p) (wq p ++ [pid]) Hg Hat) as (Hg' & Hi' & Hb').
    destruct He as [|[sig f] g e gs Hf He].
    { split; [done|]. exists done, [], []. split; [lia|]. rewrite Nat.sub_diag. unfold sub. rewrite take_0.
      by apply course_nothing. }
    destruct sig; [apply Hstop; try done; by right; right|].
    destruct (Hf _ Hg' Hi') as (Hg2 & Hi2 & _).
    apply (pieces_step i s (set_pipe i (set_queues (rq p) (wq p ++ [pid]) p) s)); [by constructor|done..|].
    apply IH; try done. cbn in Hfuel. lia.
  - set (want := if 4096 - count p <? Z.of_nat (length bs) - Z.of_nat done then 4096 - count p
                 else Z.of_nat (length bs) - Z.of_nat done).
    assert (Hwant : 0 < want <= 4096 - count p /\ want <= Z.of_nat (length bs) - Z.of_nat done).
    { unfold want, PIPE_BUF in *. repeat zcase_in Hfull; repeat zcase; lia. }
    pose proof (write_now s i p (sub bs done (Z.to_nat want)) Hg Hat) as Hw.
    rewrite length_sub in Hw by lia. specialize (Hw ltac:(lia) (Forall_sub _ _ _ _ Hbs)).
    rewrite Nat2Z.id. destruct (copy_in _ p (mem s)) as [p' w']. destruct Hw as (Hg' & Hm & Hi' & _).
    replace (Z.of_nat done + want) with (Z.of_nat (done + Z.to_nat want)) by lia.
    eapply pieces_own; [by unfold moves in Hm|]. apply IH; try done; lia.
Qed.

(** *** Other tasks' calls are orderly *)

Definition after (s : state) (o : outcome) : state :=
  match o with Ret _ _ s' _ => s' | Asleep s' => s' | Stuck => s end.
(** Another task reads what is there, up to [len] bytes, and does not wait. *)
Definition reading (i : nat) (pid len : Z) : (bool * (state -> state)) * report :=
  ((false, fun s => after s (ring_read [] s i pid len RW_NONBLOCK)),
   fun s => ([], match ring_read [] s i pid len RW_NONBLOCK with Ret _ out _ _ => out | _ => [] end)).
(** Another task writes as much of [bs] as there is room for. *)
Definition writing (i : nat) (pid : Z) (bs : list Z) : (bool * (state -> state)) * report :=
  ((false, fun s => after s (ring_write [] s i pid bs RW_NONBLOCK)),
   fun s => (match ring_write [] s i pid bs RW_NONBLOCK with Ret r _ _ _ => take (Z.to_nat r) bs | _ => [] end, [])).

Lemma course_no_sleep i s own put got s' :
  course i [] [] s own put got s' -> put = own /\ got = [] /\ ring_bytes s' i = ring_bytes s i ++ own.
Proof using Type. intros Hc. by inversion Hc; subst. Qed.
Lemma read_nonblock i s pid len s' : ring_read [] s i pid len RW_NONBLOCK <> Asleep s'.
Proof using Type.
  unfold ring_read. destruct (len =? 0); [done|]. cbn [ring_read_loop]. destruct (pipes s !! i); [|done].
  destruct (0 <? count _); [by destruct (copy_out _ _ _ _ _ _ _)|]. by destruct (writers _ =? 0).
Qed.
Lemma write_nonblock fuel i s pid bs n s' : ring_write_loop fuel [] s i pid bs n RW_NONBLOCK <> Asleep s'.
Proof using Type.
  revert s n. induction fuel as [|fuel IH]; intros s n; [done|]. cbn [ring_write_loop]. cbv zeta.
  destruct (negb _); [done|]. destruct (pipes s !! i); [|done]. destruct (readers _ =? 0); [done|].
  destruct (if _ <=? PIPE_BUF then _ else _); [done|]. by destruct (copy_in _ _ _).
Qed.

Lemma reading_orderly i pid len e gs :
  0 < len -> orderly i e gs -> orderly i (fst (reading i pid len) :: e) (snd (reading i pid len) :: gs).
Proof using Type.
  intros Hlen He. constructor; [|done]. intros s Hg Hi. cbn [reading fst snd].
  pose proof (ring_read_loop_spec [] [] s i pid len RW_NONBLOCK (Forall2_nil_2 _ _ _) Hg Hi Hlen) as Hs.
  pose proof (read_nonblock i s pid len) as Ha. unfold ring_read in *. rewrite (proj2 (Z.eqb_neq len 0)) in * by lia.
  destruct (ring_read_loop _ _ _ _ _ _) as [r out s' e'|s'|]; [|by destruct (Ha s')|done]. cbn [after].
  destruct Hs as (Hg' & Hi' & k & put & got & s1 & Hc & Hr). split; [done|]. split; [done|].
  rewrite !take_nil in Hc. apply course_no_sleep in Hc as (_ & _ & Hb). rewrite app_nil_r in Hb. unfold moves. rewrite app_nil_r.
  destruct Hr as [(_ & _ & -> & ->)|(-> & Hb1 & -> & _)]; [|by rewrite <- Hb, Hb1].
  change (has RW_NONBLOCK RW_PEEK) with false. cbv iota. by rewrite take_drop, Hb.
Qed.
Lemma writing_orderly i pid bs e gs :
  Forall (fun b => 0 <= b < 256) bs -> orderly i e gs ->
  orderly i (fst (writing i pid bs) :: e) (snd (writing i pid bs) :: gs).
Proof using Type.
  intros Hbs He. constructor; [|done]. intros s Hg Hi. cbn [writing fst snd].
  pose proof (ring_write_pieces_loop (S (length bs + 0)) [] [] s i pid bs 0 RW_NONBLOCK (Forall2_nil_2 _ _ _) Hg Hi Hbs
    ltac:(lia) ltac:(cbn [length]; lia)) as Hs.
  unfold ring_write. cbn [length]. pose proof (write_nonblock (S (length bs + 0)) i s pid bs 0) as Ha.
  change (Z.of_nat 0) with 0 in Hs.
  destruct (ring_write_loop _ _ _ _ _ _ _ _) as [r out s' e'|s'|]; [|by destruct (Ha s')|done]. cbn [after].
  destruct Hs as (Hg' & Hi' & d & k & put & got & Hd & Hc & _ & Hr). split; [done|]. split; [done|].
  rewrite !take_nil in Hc. apply course_no_sleep in Hc as (_ & _ & Hb). unfold moves. rewrite Hb. cbn [app]. f_equal.
  unfold sub. rewrite drop_0, Nat.sub_0_r. destruct Hr as [[-> _]|[-> Hr]]; [by rewrite Nat2Z.id|].
  assert (Z.to_nat r = 0%nat) as ->; [|done].
  destruct Hr as [[-> _]|[[-> _]| ->]]; done.
Qed.
Lemma write_keeps i pid bs s :
  Forall (fun b => 0 <= b < 256) bs -> good s -> ring_at s i <> None ->
  good (after s (ring_write [] s i pid bs RW_NONBLOCK)) /\ ring_at (after s (ring_write [] s i pid bs RW_NONBLOCK)) i <> None.
Proof using Type.
  intros Hbs Hg Hi. pose proof (writing_orderly i pid bs [] [] Hbs (Forall2_nil_2 _ _ _)) as He.
  inversion He as [|? ? ? ? H' _]; subst. by destruct (H' s Hg Hi) as (H1 & H2 & _).
Qed.

End moving.
(** *** FIFOs *)

(** Other tasks' calls keep the invariant, whoever else holds an end. *)
Definition polite (e : list (bool * (state -> state))) : Prop :=
  Forall (fun y => forall x s, good x s -> good x (snd y s)) e.

Definition open_ends (i : nat) (reads writes : bool) : list (nat * bool) :=
  (if reads then [(i, true)] else []) ++ (if writes then [(i, false)] else []).

Lemma nread_open (s : state) i reads writes x j :
  nread s (open_ends i reads writes ++ x) j =
    (nread s x j + (if (i =? j)%nat && reads then 1 else 0))%nat /\
  nwrite s (open_ends i reads writes ++ x) j =
    (nwrite s x j + (if (i =? j)%nat && writes then 1 else 0))%nat.
Proof using Type.
  unfold open_ends. destruct reads, writes; cbn [app]; rewrite ?nread_cons, ?nwrite_cons;
    destruct (i =? j)%nat; cbn; lia.
Qed.

(** The ring [fifo_open] goes on with: one that was there, or a new one with
    no ends yet. *)
Definition fifo_ring (x : list (nat * bool)) (base : Z -> Z) (s : state) (i : nat) (p : pipe) : Prop :=
  pipes s !! i = Some p /\ used p = true /\ ring_wf p /\
  readers p = Z.of_nat (nread s x i) /\ writers p = Z.of_nat (nwrite s x i) /\
  ((inv x base s) \/
   (nread s x i = 0%nat /\ nwrite s x i = 0%nat /\
    exists s0 p0, inv (new_ends (Some i) ++ x) base s0 /\ ring_at s0 i = Some p0 /\ buf p0 = buf p /\
      s = set_pipe i p s0)).

Lemma fifo_join x base s i p reads writes p' :
  fifo_ring x base s i p -> reads || writes = true ->
  used p' = true -> buf p' = buf p -> ring_wf p' ->
  readers p' = readers p + Z.b2z reads -> writers p' = writers p + Z.b2z writes ->
  inv (open_ends i reads writes ++ x) base (set_pipe i p' s).
Proof using Type.
  intros (Hl & Hu & Hwf & Hr & Hw & Hcase) Hrw Hu' Hb' Hwf' Hr' Hw'.
  assert (Hat : ring_at s i = Some p) by by apply ring_at_lookup.
  pose proof (nread_open s i reads writes x) as Hno.
  destruct (Hno i) as [N1 N2]. rewrite Nat.eqb_refl in N1, N2. cbn [andb] in N1, N2.
  destruct Hcase as [Hinv|(Hr0 & Hw0 & s0 & p0 & Hinv & Hat0 & Hb0 & ->)].
  - apply (inv_ends _ x base s i p); try done.
    + rewrite N1, Hr', Hr. destruct reads; cbn; lia.
    + rewrite N2, Hw', Hw. destruct writes; cbn; lia.
    + rewrite N1, N2. destruct reads, writes; cbn in *; (lia || done).
    + intros j Hj. destruct (Hno j) as [-> ->]. rewrite (proj2 (Nat.eqb_neq i j)) by done. cbn. lia.
  - rewrite set_pipe_twice.
    change (nread (set_pipe i p s0)) with (nread s0) in *. change (nwrite (set_pipe i p s0)) with (nwrite s0) in *.
    apply (inv_ends _ (new_ends (Some i) ++ x) base s0 i p0); try done; [congruence|..].
    + rewrite N1, Hr', Hr. destruct reads; cbn; lia.
    + rewrite N2, Hw', Hw. destruct writes; cbn; lia.
    + rewrite N1, N2. destruct reads, writes; cbn in *; (lia || done).
    + intros j Hj. destruct (Hno j) as [-> ->]. cbn [new_ends app].
      rewrite !nread_cons, !nwrite_cons, (proj2 (Nat.eqb_neq i j)) by done. cbn. lia.
Qed.

(** Giving up a ring nobody has an end of. *)
Lemma fifo_give_up x base s i p :
  fifo_ring x base s i p -> readers p = 0 ->
  inv x base (if writers p =? 0 then ring_free i s else s).
Proof using Type.
  intros (Hl & Hu & Hwf & Hr & Hw & Hcase) Hr0.
  destruct Hcase as [Hinv|(Hr1 & Hw1 & s0 & p0 & Hinv & Hat0 & Hb0 & ->)].
  - destruct (Z.eqb_spec (writers p) 0); [|done].
    pose proof (i_ends _ _ _ Hinv i) as Hends. unfold ends_ok in Hends.
    rewrite (proj2 (ring_at_lookup s i p) (conj Hl Hu)) in Hends. lia.
  - change (nwrite (set_pipe i p s0)) with (nwrite s0) in *. change (nread (set_pipe i p s0)) with (nread s0) in *.
    rewrite (proj2 (Z.eqb_eq _ 0)) by lia. unfold ring_free. rewrite Hl.
    replace (set_pipe i (set_pused false p) (set_mem (pg_free (buf p) (mem (set_pipe i p s0))) (set_pipe i p s0)))
      with (set_pipe i (set_pused false p) (set_mem (pg_free (buf p0) (mem s0)) s0)).
    { apply (inv_freed x (new_ends (Some i) ++ x)); try done.
      intros j Hj. cbn [new_ends app].
      rewrite !nread_cons, !nwrite_cons, (proj2 (Nat.eqb_neq i j)) by done. cbn. lia. }
    unfold set_pipe, set_mem. cbn. by rewrite Hb0, list_insert_insert_eq.
Qed.

Lemma fifo_find_ring x base s fs ino dev i :
  inv x base s -> fifo_find s fs ino dev = Some i -> exists p, fifo_ring x base s i p.
Proof using Type.
  intros Hinv Hf. apply find_idx_Some in Hf as [(p & Hl & Hp) _].
  assert (Hu : used p = true) by (by destruct (used p)).
  assert (Hat : ring_at s i = Some p) by by apply ring_at_lookup.
  exists p. pose proof (i_ends _ _ _ Hinv i) as Hends. unfold ends_ok in Hends. rewrite Hat in Hends.
  destruct Hends as (Hr & Hw & _).
  split_and!; try done; [exact (i_ring _ _ _ Hinv i p Hat)|by left].
Qed.

Lemma fifo_new_ring x base s i fs ino dev s1 :
  inv x base s -> ring_alloc s = (Some i, s1) ->
  exists p, fifo_ring x base (upd_pipe i (fun p => set_name fs ino dev (set_ends 0 0 p)) s1) i p.
Proof using Type.
  intros Hinv E. pose proof (inv_alloc x base s Hinv) as Ha. rewrite E in Ha.
  destruct Ha as (H1 & _ & a & Hi). destruct (new_ring_counts _ _ _ _ _ H1 Hi) as [Hr Hw].
  pose proof Hi as [Hl _]%ring_at_lookup. rewrite (upd_pipe_eq s1 i _ _ Hl). eexists.
  split; [by eapply pipes_set_pipe|]. split; [done|]. split; [exact (i_ring _ _ _ H1 i _ Hi)|].
  split; [change (0 = Z.of_nat (nread s1 x i)); by rewrite Hr|].
  split; [change (0 = Z.of_nat (nwrite s1 x i)); by rewrite Hw|]. right.
  split; [done|]. split; [done|]. by exists s1, (mk_pipe true a 0 0 1 1 [] [] 0 0 0 0 0).
Qed.

Lemma good_has_ring x s i r : good ((i, r) :: x) s -> exists p, ring_at s i = Some p.
Proof using Type.
  intros [base Hinv]. pose proof (i_ends _ _ _ Hinv i) as Hends. unfold ends_ok in Hends.
  rewrite nread_cons, nwrite_cons, Nat.eqb_refl in Hends.
  destruct (ring_at s i) as [p|]; [by exists p|]. destruct r; cbn in Hends; lia.
Qed.

(** The wait for the other end: it goes on with the end still held, or gives
    it back. *)
Lemma fifo_wait_good e s i pid reads seen x :
  polite e -> good ((i, reads) :: x) s ->
  match fifo_wait_loop e s i pid reads seen with
  | Ret 0 _ s' e' => good ((i, reads) :: x) s' /\ polite e'
  | Ret _ _ s' _ => good x s'
  | Asleep s' => good ((i, reads) :: x) s'
  | Stuck => False
  end.
Proof using Type.
  intros He. revert s. induction He as [|[sig f] e Hf He IH]; intros s Hg; cbn [fifo_wait_loop];
    destruct (good_has_ring x s i reads Hg) as (p & [Hl _]%ring_at_lookup); rewrite Hl;
    (destruct (_ && _); [|split; [done|by try constructor]]);
    (assert (Hg' : good ((i, reads) :: x) (set_fifo_wait (fifo_wait s ++ [pid]) s)) by
       (destruct Hg as [base Hinv]; exists base; revert Hinv; by apply inv_ext)).
  - done.
  - destruct sig; [|by apply IH, Hf]. destruct Hg as [base Hinv]. exists base. by apply inv_put.
Qed.

Definition result_good (x : list (nat * bool)) (o : outcome) : Prop :=
  match o with
  | Ret _ _ s _ => good x s
  | Asleep s => exists y, good (y ++ x) s      (* its own ends still counted *)
  | Stuck => False
  end.

Lemma fifo_ends i flags :
  Z.land flags O_ACCMODE <> O_ACCMODE ->
  let acc := Z.land flags O_ACCMODE in
  let reads := (acc =? O_RDONLY) || (acc =? O_RDWR) in
  let writes := (acc =? O_WRONLY) || (acc =? O_RDWR) in
  file_ends (mk_file true fifo_ops i flags) = open_ends i reads writes /\ reads || writes = true /\
  reads = negb (acc =? O_WRONLY).
Proof using Type.
  intros Hacc acc reads writes.
  assert (Ha : acc = 0 \/ acc = 1 \/ acc = 2).
  { assert (0 <= acc < 4).
    { unfold acc. change O_ACCMODE with (Z.ones 2). rewrite Z.land_ones by lia. apply Z.mod_pos_bound. lia. }
    assert (acc <> 3) by done. lia. }
  unfold file_ends, is_wronly, is_rdwr, open_ends, reads, writes. cbn [f_flags f_priv f_ops]. fold acc.
  rewrite bool_decide_eq_true_2 by done. cbn [andb].
  destruct Ha as [->|[->| ->]]; done.
Qed.

(** The last part of [fifo_open]: a descriptor, or the ends given back. *)
Lemma fifo_install_good x s err i flags e :
  negative err -> Z.land flags O_ACCMODE <> O_ACCMODE ->
  good (file_ends (mk_file true fifo_ops i flags) ++ x) s ->
  result_good x
    (let '(fd, s) := fd_install err fifo_ops i flags s in
     if fd <? 0 then
       let s := if Z.land flags O_ACCMODE =? O_RDWR
                then upd_pipe i (fun p => set_ends (readers p) (writers p - 1) p) s else s in
       Ret fd [] (ring_put i (negb (Z.land flags O_ACCMODE =? O_WRONLY)) s) e
     else Ret fd [] s e).
Proof using Type.
  intros He Hacc [base Hinv]. destruct (fd_install err fifo_ops i flags s) as [fd s'] eqn:E.
  pose proof (inv_install x base s err fifo_ops i flags fd s' ltac:(done) He Hinv E) as H1.
  destruct (fd <? 0); cbn [result_good]; exists base; [subst s'|by destruct H1].
  destruct (fifo_ends i flags Hacc) as (Hends & _ & Hr). rewrite Hends in Hinv. cbv zeta in *.
  rewrite Hr in Hinv. unfold open_ends in Hinv.
  destruct (Z.eqb_spec (Z.land flags O_ACCMODE) O_RDWR) as [Erd|Erd].
  - rewrite Erd in *. cbn in Hinv |- *. by apply inv_put, inv_drop_writer.
  - rewrite orb_false_r in Hinv. destruct (_ =? O_WRONLY); cbn in Hinv |- *; by apply inv_put.
Qed.

Lemma fifo_open_good x e s pid fs ino dev flags err :
  polite e -> negative err -> Z.land flags O_ACCMODE <> O_ACCMODE -> good x s ->
  result_good x (fifo_open e s pid fs ino dev flags err).
Proof using Type.
  intros He Herr Hacc [base Hinv]. unfold fifo_open.
  pose proof (fifo_ends 0 flags Hacc) as (_ & Hrw & Hreads).
  set (found := match fifo_find s fs ino dev with Some i => _ | None => _ end).
  assert (Hf : match found with (Some i, s1) => exists p, fifo_ring x base s1 i p | (None, s1) => inv x base s1 end).
  { unfold found. destruct (fifo_find s fs ino dev) as [i|] eqn:Ei; [by eapply fifo_find_ring|].
    destruct (ring_alloc s) as [[i|] s1] eqn:Ea; [by eapply fifo_new_ring|].
    pose proof (inv_alloc x base s Hinv) as Ha. by rewrite Ea in Ha. }
  clearbody found. destruct found as [[i|] s1]; [|by exists base].
  destruct Hf as (p & Hring). pose proof Hring as (Hl & Hu & Hwf & _). rewrite Hl.
  cbv zeta. set (acc := Z.land flags O_ACCMODE) in *.
  destruct ((acc =? O_WRONLY) && (readers p =? 0) && has flags O_NONBLOCK) eqn:Enx.
  { exists base. apply fifo_give_up; [done|]. breflect. done. }
  cbv zeta in Hrw, Hreads. fold acc in Hrw, Hreads.
  set (reads := (acc =? O_RDONLY) || (acc =? O_RDWR)) in *.
  set (writes := (acc =? O_WRONLY) || (acc =? O_RDWR)) in *.
  set (p1 := set_opens _ _ _). set (s2 := set_fifo_wait [] _).
  assert (Hg2 : good (open_ends i reads writes ++ x) s2).
  { exists base. apply (inv_ext (open_ends i reads writes ++ x) _ base (wake_everyone i (set_pipe i p1 s1))); try done.
    apply inv_wake. by apply (fifo_join x base s1 i p reads writes). }
  destruct (fifo_ends i flags Hacc) as (Hends & _ & _). cbv zeta in Hends. fold acc reads writes in Hends.
  assert (Hinst : forall s3 e3, good (open_ends i reads writes ++ x) s3 -> result_good x
    (let '(fd, s) := fd_install err fifo_ops i flags s3 in
     if fd <? 0 then
       Ret fd [] (ring_put i (negb (acc =? O_WRONLY))
         (if acc =? O_RDWR then upd_pipe i (fun p => set_ends (readers p) (writers p - 1) p) s else s)) e3
     else Ret fd [] s e3)).
  { intros s3 e3 Hg3. apply fifo_install_good; try done. by rewrite Hends. }
  destruct (negb (acc =? O_RDWR) && _) eqn:Ewait; [|by apply Hinst].
  assert (Hone : open_ends i reads writes = [(i, reads)]).
  { apply andb_true_iff in Ewait as [Erd _]. apply negb_true_iff in Erd.
    unfold open_ends. rewrite Hreads. unfold writes. rewrite Erd, orb_false_r. by destruct (acc =? O_WRONLY). }
  rewrite Hone in *. cbn [app] in *.
  set (seen := if reads then _ else _).
  pose proof (fifo_wait_good e s2 i pid reads seen x He Hg2) as Hw.
  destruct (fifo_wait_loop e s2 i pid reads seen) as [[|r|r] out s3 e3|s3|]; cbn [result_good]; try done.
  - apply Hinst. apply Hw.
  - exists [(i, reads)]. done.
Qed.

(** *** shutdown() *)

Lemma inv_shut x base s j u (rd : bool) :
  inv x base s -> uends s !! j = Some u -> u_used u = true ->
  (if rd then shut_rd u else shut_wr u) = false ->
  inv x base (ring_put_at (if rd then rx u else tx u) rd
    (set_uend j (if rd then mk_uend (u_used u) (rx u) (tx u) true (shut_wr u)
                 else mk_uend (u_used u) (rx u) (tx u) (shut_rd u) true) s)).
Proof using Type.
  intros Hinv Hj Hu Hs. set (u' := if rd then mk_uend _ _ _ _ _ else _). set (o := if rd then rx u else tx u).
  assert (H1 : inv (end_at o rd ++ x) base (set_uend j u' s)).
  { apply (inv_set_uend _ x base s j u u' Hinv Hj); [| |left; by destruct rd];
      intros i; unfold u', o, uend_reads, uend_writes; destruct rd; cbn; rewrite Hu, ?Hs;
      cbn [negb andb]; rewrite ?andb_true_r, ?andb_false_r;
      [destruct (rx u) as [n|]|destruct (tx u) as [n|]|destruct (rx u) as [n|]|destruct (tx u) as [n|]];
      cbn [end_at app points_at]; rewrite ?count_if_cons; unfold is_end; cbn [fst snd];
      try destruct (n =? i)%nat; cbn; lia. }
  unfold ring_put_at. destruct o as [n|]; [by apply inv_put|done].
Qed.

Lemma inv_usock_shutdown x base s k f how :
  inv x base s -> files s !! k = Some f -> f_used f = true -> f_ops f = usock_ops ->
  inv x base (snd (usock_shutdown s f how)).
Proof using Type.
  intros Hinv Hk Hu Ho. unfold usock_shutdown. destruct (_ && _); [done|].
  destruct (i_usock _ _ _ Hinv (f_priv f)) as [_ (u & Hj & Huu)].
  { apply count_if_pos. exists k, f. split; [done|]. unfold is_usock.
    by rewrite Hu, Ho, Nat.eqb_refl, bool_decide_eq_true_2. }
  rewrite Hj. set (j := f_priv f) in *.
  destruct (((how =? SHUT_RD) || (how =? SHUT_RDWR)) && negb (shut_rd u)) eqn:E1.
  - apply andb_true_iff in E1 as [_ E1%negb_true_iff].
    set (u1 := mk_uend (u_used u) (rx u) (tx u) true (shut_wr u)).
    pose proof (inv_shut x base s j u true Hinv Hj Huu E1) as H1. cbn beta iota in H1. fold u1 in H1.
    destruct (_ && negb (shut_wr u1)) eqn:E2; [|done]. cbn [snd].
    apply andb_true_iff in E2 as [_ E2%negb_true_iff].
    set (s1 := ring_put_at (rx u) true (set_uend j u1 s)) in *.
    assert (Hj1 : uends s1 !! j = Some u1).
    { unfold s1, ring_put_at. destruct (rx u) as [n|].
      - destruct (ring_put_uends n true (set_uend j u1 s)) as [-> _]. cbn.
        apply list_lookup_insert_eq. by eapply lookup_lt_Some.
      - cbn. apply list_lookup_insert_eq. by eapply lookup_lt_Some. }
    exact (inv_shut x base s1 j u1 false H1 Hj1 Huu E2).
  - destruct (_ && negb (shut_wr u)) eqn:E2; [|done]. cbn [snd].
    apply andb_true_iff in E2 as [_ E2%negb_true_iff].
    exact (inv_shut x base s j u false Hinv Hj Huu E2).
Qed.

(** *** At boot *)

Definition boot (w : W) : state :=
  mk_state (replicate PIPE_MAX no_pipe) (replicate PIPE_MAX (mk_uend false None None false false))
    (replicate 256 (mk_file false pipe_ops 0 0)) [] [] w.

Lemma count_if_replicate {A} (P : A -> bool) n y : P y = false -> count_if P (replicate n y) = 0%nat.
Proof using Type.
  intros E. induction n as [|n IH]; [done|]. cbn [replicate]. rewrite count_if_cons, E, IH. done.
Qed.

Lemma pipes_boot_inv w : pg_ok w -> inv [] (pg_held w) (boot w).
Proof using Type.
  intros Hok.
  assert (Hat : forall i, ring_at (boot w) i = None).
  { intros i. unfold ring_at. destruct (pipes (boot w) !! i) as [p|] eqn:E; [|done].
    apply (lookup_replicate_1 PIPE_MAX) in E as [-> _]. done. }
  constructor.
  - done.
  - intros a. by apply pg_held_nonneg.
  - intros a. unfold owned. cbn [pipes boot]. rewrite count_if_replicate by done. cbn. lia.
  - intros a. unfold owned. cbn [pipes boot]. rewrite count_if_replicate by done. lia.
  - intros i p. by rewrite Hat.
  - intros i. unfold ends_ok. rewrite Hat. unfold nread, nwrite. cbn [files uends boot].
    by rewrite !count_if_replicate.
  - intros j. unfold usock_ok. cbn [files boot]. rewrite count_if_replicate by done. split; lia.
Qed.

(** ** Properties *)

(** C21: every end open anywhere is counted, and every page accounted for.
    pipe(), socketpair(), the close of any file, shutdown() and the opening of
    a FIFO (with an access mode other than 3), on success and on every error
    path, keep the invariant: each ring's [readers] and [writers] are exactly
    the open files and socket ends that read and write it, a ring is in the
    table exactly as long as it has one, each has a page to itself, and the
    pages held are the rings' and those that were others' before: none leaks
    and none is given back twice. *)
Theorem pipe_ends_counted x base s err1 err2 :
  inv x base s -> negative err1 -> negative err2 ->
  (forall flags, inv x base (snd (pipe_create s flags err1 err2))) /\
  (forall type, inv x base (snd (usock_pair s type err1 err2))) /\
  (forall k, inv x base (file_put k s)) /\
  (forall k f how, files s !! k = Some f -> f_used f = true -> f_ops f = usock_ops ->
     inv x base (snd (usock_shutdown s f how))) /\
  (forall e pid fs ino dev flags, polite e -> Z.land flags O_ACCMODE <> O_ACCMODE ->
     result_good x (fifo_open e s pid fs ino dev flags err1)).
Proof using Type.
  intros Hinv He1 He2. split_and!.
  - intros. by apply inv_pipe_create.
  - intros. by apply inv_usock_pair.
  - intros. by apply inv_file_put.
  - intros. by eapply inv_usock_shutdown.
  - intros. apply fifo_open_good; try done. by exists base.
Qed.

(** Reads are first in, first out. Whatever other tasks put into and take
    out of the ring during the sleeps, a read of [len] bytes returns what is
    then at the front, at least one byte and at most [len], all there is if
    that is less, and takes exactly those out (none with RW_PEEK); or it
    returns 0, and then the ring is empty and has no writer; or EAGAIN or
    EINTR with the ring empty. It sleeps only on an empty ring. *)
Theorem ring_read_fifo x e gs s i pid len how :
  orderly x i e gs -> good x s -> ring_at s i <> None -> 0 < len ->
  read_spec x i s len how e gs (ring_read e s i pid len how).
Proof using Type.
  intros. unfold ring_read. rewrite (proj2 (Z.eqb_neq len 0)) by lia. by apply ring_read_loop_spec.
Qed.

(** C16: a write to a ring of at most PIPE_BUF bytes is atomic. Other tasks may
    read and write the ring during its sleeps ([gs] reports what they put and
    got, which depends on the state they find; they leave the ring in place):
    until its last turn the write has put nothing, and then its bytes go in
    next to each other at the end of the ring and the whole length is returned,
    or not one of them goes in and the result is EPIPE (only when there is no
    reader), EAGAIN or EINTR. All bytes put, the others' before the write's,
    come out in the order they went in. *)
Theorem pipe_write_atomic x e gs s i pid bs how :
  orderly x i e gs -> good x s -> ring_at s i <> None -> (0 < length bs)%nat ->
  Z.of_nat (length bs) <= PIPE_BUF -> Forall (fun b => 0 <= b < 256) bs ->
  atomic_spec x i s bs how e gs (ring_write e s i pid bs how).
Proof using Type. intros. apply ring_write_atomic_loop; try done. lia. Qed.

(** C22: a write of any length puts a prefix of its bytes into the ring, in
    order, between whatever others put there during its sleeps (reported as
    for the atomic write), and returns the length of that prefix: the whole,
    or less when it was stopped after some of it; an error means that none of
    it went in. What everyone put comes out in the order it went in. It needs
    no more turns than the bytes to write and the sleeps. *)
Theorem pipe_write_in_order x e gs s i pid bs how :
  orderly x i e gs -> good x s -> ring_at s i <> None -> Forall (fun b => 0 <= b < 256) bs ->
  pieces_spec x i s bs 0 how e gs (ring_write e s i pid bs how).
Proof using Type. intros. apply (ring_write_pieces_loop _ (S _) e gs s i pid bs 0); try done; lia. Qed.
End inv.

(** *** Witnesses: pipes over a pool of eight pages *)

#[local] Existing Instance PAGES.pmm_pages.

Definition boot8 : @state PMM.pmm := boot PMM.pool8.
Definition piped : @state PMM.pmm := snd (pipe_create boot8 0 None None).

Lemma boot8_inv : inv [] (PAGES.held PMM.pool8) boot8.
Proof. exact (pipes_boot_inv PMM.pool8 PMM.pool8_inv). Qed.

Lemma piped_good : good [] piped.
Proof. eexists. apply inv_pipe_create; [done|done|apply boot8_inv]. Qed.

Lemma piped_ring : ring_at piped 0 <> None.
Proof. by vm_compute. Qed.

Lemma pipe_ends_counted_witness :
  inv [] (PAGES.held PMM.pool8) (snd (pipe_create boot8 O_NONBLOCK None (Some (- ENFILE)))) /\
  result_good [] (fifo_open [] boot8 7 1 12 3 O_RDONLY None).
Proof.
  destruct (pipe_ends_counted [] (PAGES.held PMM.pool8) boot8 None (Some (- ENFILE)) boot8_inv)
    as (H1 & _ & _ & _ & H2).
  - done.
  - intros e [= <-]. done.
  - split; [apply H1|]. apply H2; [constructor|done].
Defined.

(** Another task writes "ab" while the reader sleeps. *)
Definition write_ab : @state PMM.pmm -> state := snd (fst (writing 0 8 [97; 98])).

(** The result and the bytes of a call that returned. *)
Definition reply (o : @outcome PMM.pmm) : option (Z * list Z) :=
  match o with Ret r out _ _ => Some (r, out) | _ => None end.

Lemma ab_bytes : Forall (fun b => 0 <= b < 256) [97; 98].
Proof. repeat constructor; lia. Qed.
Lemma hi_bytes : Forall (fun b => 0 <= b < 256) [104; 105].
Proof. repeat constructor; lia. Qed.

Lemma ring_read_fifo_witness :
  read_spec [] 0 piped 1 0 [fst (writing 0 8 [97; 98])] [snd (writing 0 8 [97; 98])]
    (ring_read [fst (writing 0 8 [97; 98])] piped 0 9 1 0) /\
  reply (ring_read [fst (writing 0 8 [97; 98])] piped 0 9 1 0) = Some (1, [97]).
Proof.
  split; [|vm_compute; reflexivity]. apply ring_read_fifo; [|apply piped_good|apply piped_ring|lia].
  apply writing_orderly; [apply ab_bytes|constructor].
Defined.

(** A ring with one byte of room. While the writer of two bytes sleeps another
    task fills it, and while it sleeps again a third reads three bytes. *)
Definition nearly_full : @state PMM.pmm := after piped (ring_write [] piped 0 7 (replicate 4095 120) RW_NONBLOCK).
Definition busy_env : list (bool * (@state PMM.pmm -> state)) := [fst (writing 0 8 [97]); fst (reading 0 6 3)].
Definition busy_reports : list (@state PMM.pmm -> list Z * list Z) := [snd (writing 0 8 [97]); snd (reading 0 6 3)].

Lemma busy_orderly : orderly [] 0 busy_env busy_reports.
Proof. apply writing_orderly; [repeat constructor; lia|]. apply reading_orderly; [lia|]. constructor. Qed.
Lemma nearly_full_good : good [] nearly_full /\ ring_at nearly_full 0 <> None.
Proof.
  unfold nearly_full. apply write_keeps; [apply Forall_replicate; lia|apply piped_good|apply piped_ring].
Qed.

Lemma pipe_write_atomic_witness :
  atomic_spec [] 0 nearly_full [104; 105] 0 busy_env busy_reports (ring_write busy_env nearly_full 0 9 [104; 105] 0) /\
  reply (ring_write busy_env nearly_full 0 9 [104; 105] 0) = Some (2, []) /\
  drop 4092 (ring_bytes (after boot8 (ring_write busy_env nearly_full 0 9 [104; 105] 0)) 0) = [97; 104; 105].
Proof.
  split; [|split; vm_compute; reflexivity].
  refine (pipe_write_atomic [] busy_env busy_reports nearly_full 0 9 [104; 105] 0 busy_orderly
    (proj1 nearly_full_good) (proj2 nearly_full_good) _ _ hi_bytes); [cbn; lia|unfold PIPE_BUF; cbn; lia].
Defined.

(** A write longer than PIPE_BUF: a byte goes in at once and the rest only
    after the third task has read. *)
Definition long_bytes : list Z := replicate 4098 104.
Definition long_env : list (bool * (@state PMM.pmm -> state)) := [fst (reading 0 6 3); fst (writing 0 8 [97])].
Definition long_reports : list (@state PMM.pmm -> list Z * list Z) := [snd (reading 0 6 3); snd (writing 0 8 [97])].

Lemma pipe_write_in_order_witness :
  pieces_spec [] 0 nearly_full long_bytes 0 0 long_env long_reports (ring_write long_env nearly_full 0 9 long_bytes 0).
Proof.
  apply (pipe_write_in_order [] long_env long_reports nearly_full 0 9 long_bytes 0);
    [|apply nearly_full_good|apply nearly_full_good|apply Forall_replicate; lia].
  apply reading_orderly; [lia|]. apply writing_orderly; [repeat constructor; lia|]. constructor.
Defined.

(** ** What the code does against its own documentation *)

Definition state_of : outcome -> @state PMM.pmm := after boot8.

(** A FIFO opened for reading, then once more with access mode 3, which
    counts no end; closing the second drops a reader that is still there, and
    the ring and its page are freed under it. *)
Definition fifo_reader : @state PMM.pmm :=
  state_of (fifo_open [] boot8 7 1 12 3 (Z.lor O_RDONLY O_NONBLOCK) None).
Definition fifo_both : @state PMM.pmm := state_of (fifo_open [] fifo_reader 7 1 12 3 3 None).
Example fifo_mode_3_frees_ring :
  let s := file_put 1 fifo_both in
  (used <$> pipes s !! 0%nat) = Some false /\ (f_used <$> files s !! 0%nat) = Some true /\
  (reads_ring 0 <$> files s !! 0%nat) = Some true /\
  pg_held (mem fifo_both) 1052672 = 1 /\ pg_held (mem s) 1052672 = 0.
Proof. by vm_compute. Qed.

(** A reader asleep on a pipe whose descriptors another thread closes: the
    ring is free by the time it wakes, and when it has been taken by a new
    pipe the read returns that pipe's bytes. *)
Definition close_and_reuse (s : @state PMM.pmm) : state :=
  write_ab (snd (pipe_create (file_put 1 (file_put 0 s)) 0 None None)).
Example read_through_freed_ring :
  reply (ring_read [(false, close_and_reuse)] piped 0 9 2 0) = Some (2, [97; 98]).
Proof. vm_compute. reflexivity. Qed.

(** recv() with MSG_PEEK and MSG_WAITALL of four bytes, when "ab" is there:
    the same two bytes twice. *)
Definition paired : @state PMM.pmm := snd (usock_pair boot8 SOCK_STREAM None None).
Definition a_end : file := default (mk_file false pipe_ops 0 0) (files paired !! 0%nat).
Definition b_end : file := default (mk_file false pipe_ops 0 0) (files paired !! 1%nat).
Definition paired_ab : @state PMM.pmm := state_of (usock_write [] paired a_end 8 [97; 98]).
Example peek_waitall_repeats :
  reply (usock_recv [] paired_ab b_end 9 4 (Z.lor MSG_PEEK MSG_WAITALL)) = Some (4, [97; 98; 97; 98]).
Proof. vm_compute. reflexivity. Qed.

End PIPE.
