(* ===== verification/Mqueue.v ===== *)
(** * POSIX message queues (kernel/mqueue.c)

    A queue keeps its messages highest priority first, first in first out
    within one priority; each message's bytes are in pages of its own. The
    model has the table of queues, the open files on them, the pages (any
    [PageMemory]) and the calling programs' memory (any [UserMemory]). *)

From Stdlib Require Import Sorting.Sorted.
From S2P Require Import Prelude Pmm Pages Uaccess.
Local Open Scope Z_scope.

Module MQUEUE.
Import UACCESS.

(** ** The code *)

Definition MQ_MAX : nat := 16.
Definition MQ_NAME_MAX : Z := 63.
Definition MQ_SLOTS : Z := 64.
Definition MQ_PRIO_MAX : Z := 32768.
Definition MQ_USER_MAXMSG : Z := 10.
Definition MQ_USER_MSGSIZE : Z := 8192.
Definition MQ_ROOT_MSGSIZE : Z := 65536.
Definition MQ_PAGES : nat := 16.
#[local] Abbreviation PAGE_SIZE := PMM.PAGE_SIZE.
Definition O_CREAT : Z := 64.
Definition O_EXCL : Z := 128.
Definition POLLRDNORM : Z := 64.
Definition POLLWRNORM : Z := POLLOUT.
Definition S_IFREG : Z := 32768.
Definition NSIG : Z := 32.
Definition SIGEV_SIGNAL : Z := 0.
Definition SIGEV_NONE : Z := 1.
Definition SI_MESGQ : Z := -3.
Definition HZ : Z := 100.

Record mqmsg := mk_msg { prio : Z; len : Z; page : list Z }.
Definition no_msg : mqmsg := mk_msg 0 0 (replicate MQ_PAGES 0).

(** [notify] is the pid of the task registered, if any. *)
Record mqueue := mk_queue {
  used : bool;
  linked : bool;
  refs : Z;
  name : list Z;
  uid : Z;
  gid : Z;
  mode : Z;
  maxmsg : Z;
  msgsize : Z;
  count : Z;
  msg : list mqmsg;
  ino : Z;
  rq : list Z;
  wq : list Z;
  receivers : Z;
  notify : option Z;
  notify_sig : Z;
  notify_value : Z;
}.
Definition no_queue : mqueue :=
  mk_queue false false 0 [] 0 0 0 0 0 0 (replicate (Z.to_nat MQ_SLOTS) no_msg) 0 [] [] 0 None 0 0.

Definition set_linked (b : bool) (q : mqueue) : mqueue :=
  mk_queue (used q) b (refs q) (name q) (uid q) (gid q) (mode q) (maxmsg q) (msgsize q) (count q)
    (msg q) (ino q) (rq q) (wq q) (receivers q) (notify q) (notify_sig q) (notify_value q).
Definition set_refs (n : Z) (q : mqueue) : mqueue :=
  mk_queue (used q) (linked q) n (name q) (uid q) (gid q) (mode q) (maxmsg q) (msgsize q) (count q)
    (msg q) (ino q) (rq q) (wq q) (receivers q) (notify q) (notify_sig q) (notify_value q).
Definition set_msgs (n : Z) (ms : list mqmsg) (q : mqueue) : mqueue :=
  mk_queue (used q) (linked q) (refs q) (name q) (uid q) (gid q) (mode q) (maxmsg q) (msgsize q) n
    ms (ino q) (rq q) (wq q) (receivers q) (notify q) (notify_sig q) (notify_value q).
Definition set_sleepers (r w : list Z) (q : mqueue) : mqueue :=
  mk_queue (used q) (linked q) (refs q) (name q) (uid q) (gid q) (mode q) (maxmsg q) (msgsize q) (count q)
    (msg q) (ino q) r w (receivers q) (notify q) (notify_sig q) (notify_value q).
Definition set_receivers (n : Z) (q : mqueue) : mqueue :=
  mk_queue (used q) (linked q) (refs q) (name q) (uid q) (gid q) (mode q) (maxmsg q) (msgsize q) (count q)
    (msg q) (ino q) (rq q) (wq q) n (notify q) (notify_sig q) (notify_value q).
Definition set_notify (t : option Z) (sig value : Z) (q : mqueue) : mqueue :=
  mk_queue (used q) (linked q) (refs q) (name q) (uid q) (gid q) (mode q) (maxmsg q) (msgsize q) (count q)
    (msg q) (ino q) (rq q) (wq q) (receivers q) t sig value.

(** An open file on a queue, and what the calls look at of the calling task. *)
Record file := mk_file { f_used : bool; f_priv : nat; f_flags : Z }.
Record task := mk_task { t_pid : Z; euid : Z; egid : Z; umask : Z }.

Section code.
Context {W U : Type} `{PageMemory W} `{UserMemory U}.

(** [sent] is the signals sent, as (task, signal, value). *)
Record state := mk_state {
  queues : list mqueue;
  next_ino : Z;
  files : list file;
  mem : W;
  user : U;
  sent : list (Z * Z * Z);
}.

Definition put_queue (i : nat) (q : mqueue) (s : state) : state :=
  mk_state (<[i := q]> (queues s)) (next_ino s) (files s) (mem s) (user s) (sent s).
Definition put_file (k : nat) (f : file) (s : state) : state :=
  mk_state (queues s) (next_ino s) (<[k := f]> (files s)) (mem s) (user s) (sent s).
Definition put_mem (w : W) (s : state) : state :=
  mk_state (queues s) (next_ino s) (files s) w (user s) (sent s).
Definition put_user (u : U) (s : state) : state :=
  mk_state (queues s) (next_ino s) (files s) (mem s) u (sent s).
Definition signal_send_info (t sig value : Z) (s : state) : state :=
  mk_state (queues s) (next_ino s) (files s) (mem s) (user s) (sent s ++ [(t, sig, value)]).

(** *** Messages and queues freed *)

Definition free_msg (m : mqmsg) (w : W) : W := free_pages (page m) w.

Definition mq_free (i : nat) (s : state) : state :=
  match queues s !! i with
  | None => s
  | Some q =>
      put_queue i no_queue
        (put_mem (foldl (fun w m => free_msg m w) (mem s) (take (Z.to_nat (count q)) (msg q))) s)
  end.

Definition by_name (s : state) (nm : list Z) : option nat :=
  find_idx (fun q => used q && linked q && bool_decide (name q = nm)) (queues s).

(** The last reference to an open file goes. *)
Definition mq_close (pid : Z) (k : nat) (s : state) : state :=
  match files s !! k with
  | None => s
  | Some f =>
      if negb (f_used f) then s
      else
        let s := put_file k (mk_file false (f_priv f) (f_flags f)) s in
        match queues s !! f_priv f with
        | None => s
        | Some q =>
            let q := if bool_decide (notify q = Some pid)
                     then set_notify None (notify_sig q) (notify_value q) q else q in
            let q := set_refs (refs q - 1) q in
            let s := put_queue (f_priv f) q s in
            if (refs q =? 0) && negb (linked q) then mq_free (f_priv f) s else s
        end
  end.

Record stat := mk_stat { st_mode : Z; st_uid : Z; st_gid : Z; st_ino : Z; st_nlink : Z; st_size : Z }.
Definition mq_fstat (q : mqueue) : stat :=
  mk_stat (Z.lor S_IFREG (Z.land (mode q) 511)) (uid q) (gid q) (ino q) (if linked q then 1 else 0) 0.

Definition mq_poll (q : mqueue) : Z :=
  Z.lor (if 0 <? count q then Z.lor POLLIN POLLRDNORM else 0)
        (if count q <? maxmsg q then Z.lor POLLOUT POLLWRNORM else 0).

Definition queue_of (s : state) (k : nat) : option (nat * file) :=
  f ← files s !! k; if f_used f then Some (f_priv f, f) else None.

(** *** mq_open and mq_unlink *)

Definition may (t : task) (q : mqueue) (acc : Z) : bool :=
  if euid t =? 0 then true
  else
    let bits := if euid t =? uid q then Z.shiftr (mode q) 6
                else if egid t =? gid q then Z.shiftr (mode q) 3 else mode q in
    if ((acc =? O_RDONLY) || (acc =? O_RDWR)) && negb (has bits 4) then false
    else negb (((acc =? O_WRONLY) || (acc =? O_RDWR)) && negb (has bits 2)).

(** The attributes asked for, or an error: struct mq_attr is eight longs,
    maxmsg the second and msgsize the third. *)
Definition open_attr (t : task) (u : U) (uattr : Z) : Z + Z * Z :=
  if uattr =? 0 then inr (MQ_USER_MAXMSG, MQ_USER_MSGSIZE)
  else
    match u_fetch u uattr 32 with
    | None => inl (- EFAULT)
    | Some bs =>
        let a_maxmsg := signed 32 (be (sub bs 4 4)) in
        let a_msgsize := signed 32 (be (sub bs 8 4)) in
        if (a_maxmsg <=? 0) || (a_msgsize <=? 0) then inl (- EINVAL)
        else if (if negb (euid t =? 0)
                 then (MQ_USER_MAXMSG <? a_maxmsg) || (MQ_USER_MSGSIZE <? a_msgsize)
                 else (MQ_SLOTS <? a_maxmsg) || (MQ_ROOT_MSGSIZE <? a_msgsize))
        then inl (- EINVAL)
        else inr (a_maxmsg, a_msgsize)
    end.

(** A descriptor for queue [i]: [err] is the error of a task with none left. *)
Definition fd_install (err : option Z) (i : nat) (flags : Z) (s : state) : Z * state :=
  match err with
  | Some e => (e, s)
  | None =>
      match find_idx (fun f => negb (f_used f)) (files s) with
      | None => (- ENFILE, s)
      | Some k => (Z.of_nat k, put_file k (mk_file true i (Z.ldiff flags O_CLOEXEC)) s)
      end
  end.

Definition open_fd (err : option Z) (i : nat) (oflag : Z) (s : state) : Z * state :=
  let '(fd, s) := fd_install err i (Z.land oflag (Z.lor O_ACCMODE (Z.lor O_NONBLOCK O_CLOEXEC))) s in
  match queues s !! i with
  | None => (fd, s)
  | Some q =>
      if fd <? 0 then (fd, if refs q =? 0 then mq_free i s else s)
      else (fd, put_queue i (set_refs (refs q + 1) q) s)
  end.

(** [during]: what others do while the attributes are fetched, which may
    sleep. The slot is chosen after it, the name was looked up before. *)
Definition sys_mq_open (during : state -> state) (t : task) (s : state) (uname oflag md uattr : Z) (err : option Z) :
    Z * state :=
  let acc := Z.land oflag O_ACCMODE in
  match u_string (user s) uname (MQ_NAME_MAX + 2) with
  | inl e => (e, s)
  | inr nm =>
      if MQ_NAME_MAX <? Z.of_nat (length nm) then (- ENAMETOOLONG, s)
      else if Z.of_nat (length nm) =? 0 then (- ENOENT, s)
      else if existsb (fun b => b =? 47) nm then (- EACCES, s)
      else if acc =? O_ACCMODE then (- EINVAL, s)
      else
        match by_name s nm with
        | Some i =>
            match queues s !! i with
            | None => (- EINVAL, s)
            | Some q =>
                if Z.land oflag (Z.lor O_CREAT O_EXCL) =? Z.lor O_CREAT O_EXCL then (- EEXIST, s)
                else if negb (may t q acc) then (- EACCES, s)
                else open_fd err i oflag s
            end
        | None =>
            if negb (has oflag O_CREAT) then (- ENOENT, s)
            else
              let s := if uattr =? 0 then s else during s in
              match open_attr t (user s) uattr with
              | inl e => (e, s)
              | inr (a_maxmsg, a_msgsize) =>
                  match find_idx (fun q => negb (used q)) (queues s) with
                  | None => (- ENOSPC, s)
                  | Some i =>
                      let q := mk_queue true true 0 nm (euid t) (egid t)
                        (Z.ldiff (Z.land md 511) (umask t)) a_maxmsg a_msgsize 0
                        (replicate (Z.to_nat MQ_SLOTS) no_msg) (next_ino s) [] [] 0 None 0 0 in
                      let s := put_queue i q s in
                      open_fd err i oflag
                        (mk_state (queues s) (u32 (next_ino s + 1)) (files s) (mem s) (user s) (sent s))
                  end
              end
        end
  end.

Definition sys_mq_unlink (t : task) (s : state) (uname : Z) : Z * state :=
  match u_string (user s) uname (MQ_NAME_MAX + 2) with
  | inl e => (e, s)
  | inr nm =>
      if MQ_NAME_MAX <? Z.of_nat (length nm) then (- ENAMETOOLONG, s)
      else
        match by_name s nm with
        | None => (- ENOENT, s)
        | Some i =>
            match queues s !! i with
            | None => (- ENOENT, s)
            | Some q =>
                if negb (euid t =? 0) && negb (euid t =? uid q) then (- EACCES, s)
                else
                  let s := put_queue i (set_linked false q) s in
                  (0, if refs q =? 0 then mq_free i s else s)
            end
        end
  end.

(** *** Waiting *)

(** [until]: milliseconds to an absolute time, -1 for none; [now] is the
    clock, as seconds and microseconds. *)
Definition until (u : U) (now : Z * Z) (uts : Z) (time64 : bool) : Z + Z :=
  if uts =? 0 then inr (-1)
  else
    let t := if time64
             then bs ← u_fetch u uts 16;
                  Some (signed 64 (be (sub bs 0 8)), signed 32 (be (sub bs 12 4)))
             else bs ← u_fetch u uts 8;
                  Some (u32 (be (sub bs 0 4)), signed 32 (be (sub bs 4 4))) in
    match t with
    | None => inl (- EFAULT)
    | Some (sec, nsec) =>
        if (nsec <? 0) || (1000000000 <=? nsec) then inl (- EINVAL)
        else
          let left := s64 (s64 (s64 (sec - u32 (fst now)) * 1000) +
                           (nsec ÷ 1000000 - snd now ÷ 1000)) in
          inr (if left <=? 0 then 0 else if 2147483647 <? left then 2147483647 else left)
    end.

(** What a sleep meets: a signal before it, what others do during it, how
    many clock ticks it lasts, and a signal after it. *)
Record turn := mk_turn { sig0 : bool; others : state -> state; ticks : Z; sig1 : bool }.

Inductive outcome :=
  | Ret (r : Z) (s : state)
  | Asleep (s : state)
  | Stuck.

Definition sleep (pid : Z) (on_rq : bool) (i : nat) (s : state) : state :=
  match queues s !! i with
  | Some q => put_queue i (if on_rq then set_sleepers (rq q ++ [pid]) (wq q) q
                           else set_sleepers (rq q) (wq q ++ [pid]) q) s
  | None => s
  end.

(** One [wait_turn]: the error or 0, the milliseconds left and the state. *)
Definition wait_turn (pid : Z) (on_rq : bool) (i : nat) (t : turn) (ms : Z) (s : state) : Z * Z * state :=
  if sig0 t then (- EINTR, ms, s)
  else if ms <? 0 then (if sig1 t then - EINTR else 0, ms, others t (sleep pid on_rq i s))
  else if ms =? 0 then (- ETIMEDOUT, ms, s)
  else
    let ms := s32 (ms - s32 (ticks t * (1000 / HZ))) in
    (if sig1 t then - EINTR else 0, if ms <? 0 then 0 else ms, others t (sleep pid on_rq i s)).

(** The wait of the two calls: while the queue is full, or empty. [Ret 0]
    when it is over. *)
Fixpoint mq_wait (e : list turn) (pid : Z) (sending : bool) (i : nat) (ms : Z) (s : state) : outcome :=
  match queues s !! i with
  | None => Stuck
  | Some q =>
      if (if sending then maxmsg q <=? count q else count q =? 0) then
        match e with
        | [] => Asleep (sleep pid (negb sending) i s)
        | t :: e' =>
            let '(err, ms, s) := wait_turn pid (negb sending) i t ms s in
            if err <? 0 then Ret err s else mq_wait e' pid sending i ms s
        end
      else Ret 0 s
  end.

(** *** mq_timedsend *)

(** The copying loop: the pages taken so far in [ps], the error in [inl]. *)
Fixpoint load_msg (fuel : nat) (u : U) (ubuf done ln : Z) (ps : list Z) (w : W) : (Z + list Z) * list Z * W :=
  match fuel with
  | O => (inr ps, ps, w)
  | S fuel' =>
      if done <? ln then
        let n := if ln - done <? PAGE_SIZE then ln - done else PAGE_SIZE in
        let '(a, w) := pg_alloc w in
        if a =? 0 then (inl (- ENOMEM), ps, w)
        else
          match u_fetch u (u32 (ubuf + done)) (Z.to_nat n) with
          | None => (inl (- EFAULT), ps ++ [a], w)
          | Some bs => load_msg fuel' u ubuf (done + PAGE_SIZE) ln (ps ++ [a]) (store_bytes a bs w)
          end
      else (inr ps, ps, w)
  end.

(** Where a message of priority [p] goes among [ms]. *)
Definition place (p : Z) (ms : list mqmsg) : nat :=
  default (length ms) (find_idx (fun m => prio m <? p) ms).

Definition pad_pages (ps : list Z) : list Z := take MQ_PAGES (ps ++ replicate MQ_PAGES 0).

Definition enqueue (i : nat) (q : mqueue) (m : mqmsg) (s : state) : state :=
  let n := Z.to_nat (count q) in
  let at_ := place (prio m) (take n (msg q)) in
  let ms := take at_ (msg q) ++ m :: sub (msg q) at_ (n - at_) ++ drop (S n) (msg q) in
  let q := set_msgs (u32 (count q + 1)) ms q in
  let '(q, s) :=
    if (count q =? 1) && (receivers q =? 0) then
      match notify q with
      | Some t => (set_notify None (notify_sig q) (notify_value q) q,
                   if negb (notify_sig q =? 0)
                   then signal_send_info t (notify_sig q) (notify_value q) s else s)
      | None => (q, s)
      end
    else (q, s) in
  put_queue i (set_sleepers [] (wq q) q) s.

(** The rest of the call, the message [m] being in pages of its own. *)
Definition send_msg (e : list turn) (now : Z * Z) (t : task) (fd i : nat) (m : mqmsg) (uts : Z)
    (time64 : bool) (s : state) : outcome :=
  let giving_up err s := Ret err (put_mem (free_msg m (mem s)) s) in
  match queues s !! i with
  | None => Stuck
  | Some q =>
      if maxmsg q <=? count q then
        if match files s !! fd with Some f => has (f_flags f) O_NONBLOCK | None => false end
        then giving_up (- EAGAIN) s
        else
          match until (user s) now uts time64 with
          | inl err => giving_up err s
          | inr ms =>
              match mq_wait e (t_pid t) true i ms s with
              | Ret r s =>
                  if r <? 0 then giving_up r s
                  else
                    match queues s !! i with
                    | None => Stuck
                    | Some q => Ret 0 (enqueue i q m s)
                    end
              | other => other
              end
          end
      else Ret 0 (enqueue i q m s)
  end.

(** The copy from the program can sleep: [during] is what others do then. *)
Definition sys_mq_timedsend (e : list turn) (during : state -> state) (now : Z * Z) (t : task) (s : state)
    (fd : nat) (ubuf ln p uts : Z) (time64 : bool) : outcome :=
  match queue_of s fd with
  | None => Ret (- EBADF) s
  | Some (i, f) =>
      if Z.land (f_flags f) O_ACCMODE =? O_RDONLY then Ret (- EBADF) s
      else
        match queues s !! i with
        | None => Stuck
        | Some q =>
            if msgsize q <? ln then Ret (- EMSGSIZE) s
            else if MQ_PRIO_MAX <=? p then Ret (- EINVAL) s
            else if (maxmsg q <=? count q) && has (f_flags f) O_NONBLOCK then Ret (- EAGAIN) s
            else
              let '(r, ps, w) := load_msg MQ_PAGES (user s) ubuf 0 ln [] (mem s) in
              let s := put_mem w s in
              match r with
              | inl err => Ret err (put_mem (free_pages ps w) s)
              | inr ps => send_msg e now t fd i (mk_msg p ln (pad_pages ps)) uts time64 (during s)
              end
        end
  end.

(** *** mq_timedreceive *)

(** The storing loop. *)
Fixpoint unload_msg (ps : list Z) (ubuf done ln : Z) (w : W) (u : U) : Z * U :=
  match ps with
  | [] => (0, u)
  | a :: ps' =>
      if done <? ln then
        let n := if ln - done <? PAGE_SIZE then ln - done else PAGE_SIZE in
        let '(r, u) := u_store u (u32 (ubuf + done)) (page_bytes a (Z.to_nat n) w) in
        if r <? 0 then (r, u) else unload_msg ps' ubuf (done + PAGE_SIZE) ln w u
      else (0, u)
  end.

Definition dequeue (i : nat) (q : mqueue) (s : state) : state :=
  let n := Z.to_nat (count q - 1) in
  let ms := <[n := no_msg]> (sub (msg q) 1 n ++ drop n (msg q)) in
  put_queue i (set_sleepers (rq q) [] (set_msgs (count q - 1) ms q)) s.

Definition take_msg (i : nat) (s : state) (ubuf uprio : Z) : outcome :=
  match queues s !! i with
  | None => Stuck
  | Some q =>
      match msg q with
      | [] => Stuck
      | m :: _ =>
          let s := dequeue i q s in
          let '(r, u) := unload_msg (page m) ubuf 0 (len m) (mem s) (user s) in
          let s := put_mem (free_msg m (mem s)) (put_user u s) in
          if r <? 0 then Ret (- EFAULT) s
          else if uprio =? 0 then Ret (len m) s
          else
            let '(r, u) := u_store (user s) uprio (be_bytes 4 (prio m)) in
            if r <? 0 then Ret (- EFAULT) (put_user u s) else Ret (len m) (put_user u s)
      end
  end.

Definition upd_receivers (i : nat) (d : Z) (s : state) : state :=
  match queues s !! i with
  | Some q => put_queue i (set_receivers (receivers q + d) q) s
  | None => s
  end.

Definition sys_mq_timedreceive (e : list turn) (now : Z * Z) (t : task) (s : state) (fd : nat)
    (ubuf ln uprio uts : Z) (time64 : bool) : outcome :=
  match queue_of s fd with
  | None => Ret (- EBADF) s
  | Some (i, f) =>
      if Z.land (f_flags f) O_ACCMODE =? O_WRONLY then Ret (- EBADF) s
      else
        match queues s !! i with
        | None => Stuck
        | Some q =>
            if ln <? msgsize q then Ret (- EMSGSIZE) s
            else if count q =? 0 then
              if has (f_flags f) O_NONBLOCK then Ret (- EAGAIN) s
              else
                match until (user s) now uts time64 with
                | inl err => Ret err s
                | inr ms =>
                    match mq_wait e (t_pid t) false i ms (upd_receivers i 1 s) with
                    | Ret r s =>
                        let s := upd_receivers i (-1) s in
                        if r <? 0 then Ret r s else take_msg i s ubuf uprio
                    | other => other
                    end
                end
            else take_msg i s ubuf uprio
        end
  end.

(** *** mq_notify, mq_getsetattr, and the end of a task *)

(** [during]: what others do while the event is fetched. *)
Definition sys_mq_notify (during : state -> state) (t : task) (s : state) (fd : nat) (uev : Z) : Z * state :=
  match queue_of s fd with
  | None => (- EBADF, s)
  | Some (i, _) =>
      match queues s !! i with
      | None => (- EBADF, s)
      | Some q =>
          if uev =? 0 then
            (0, if bool_decide (notify q = Some (t_pid t))
                then put_queue i (set_notify None (notify_sig q) (notify_value q) q) s else s)
          else
            let s := during s in
            match queues s !! i, u_fetch (user s) uev 64 with
            | None, _ | _, None => (- EFAULT, s)
            | Some q, Some bs =>
                let value := u32 (be (sub bs 0 4)) in
                let signo := signed 32 (be (sub bs 4 4)) in
                let how := signed 32 (be (sub bs 8 4)) in
                if negb (how =? SIGEV_SIGNAL) && negb (how =? SIGEV_NONE) then (- EINVAL, s)
                else if (how =? SIGEV_SIGNAL) && ((signo <=? 0) || (NSIG <=? signo)) then (- EINVAL, s)
                else if match notify q with Some n => negb (n =? t_pid t) | None => false end
                then (- EBUSY, s)
                else (0, put_queue i (set_notify (Some (t_pid t))
                           (if how =? SIGEV_SIGNAL then signo else 0) value q) s)
            end
      end
  end.

(** [during]: what others do while the new flags are fetched; the attributes
    given back are those before it. *)
Definition sys_mq_getsetattr (during : state -> state) (s : state) (fd : nat) (unew uold : Z) : Z * state :=
  match queue_of s fd with
  | None => (- EBADF, s)
  | Some (i, f) =>
      match queues s !! i with
      | None => (- EBADF, s)
      | Some q =>
          let attr := be_bytes 4 (Z.land (f_flags f) O_NONBLOCK) ++ be_bytes 4 (maxmsg q) ++
                      be_bytes 4 (msgsize q) ++ be_bytes 4 (count q) ++ replicate 16 0 in
          let s := if unew =? 0 then s else during s in
          let r :=
            if unew =? 0 then inr s
            else match files s !! fd, u_fetch (user s) unew 32 with
                 | None, _ | _, None => inl (- EFAULT)
                 | Some f, Some bs =>
                     let fl := signed 32 (be (sub bs 0 4)) in
                     if negb (Z.ldiff fl O_NONBLOCK =? 0) then inl (- EINVAL)
                     else inr (put_file fd (mk_file (f_used f) (f_priv f)
                       (Z.lor (Z.ldiff (f_flags f) O_NONBLOCK) (Z.land fl O_NONBLOCK))) s)
                 end in
          match r with
          | inl err => (err, s)
          | inr s =>
              if uold =? 0 then (0, s)
              else let '(r, u) := u_store (user s) uold attr in
                   (if r <? 0 then - EFAULT else 0, put_user u s)
          end
      end
  end.

Definition mq_task_exit (pid : Z) (s : state) : state :=
  mk_state ((fun q => if used q && bool_decide (notify q = Some pid)
                      then set_notify None (notify_sig q) (notify_value q) q else q) <$> queues s)
    (next_ino s) (files s) (mem s) (user s) (sent s).
End code.

(** ** What a queue holds *)

Section spec.
Context {W U : Type} `{PageMemory W} `{UserMemory U}.
#[local] Abbreviation state := (@state W U).
#[local] Abbreviation is_byte := (fun b => 0 <= b < 256).

Definition live (q : mqueue) : list mqmsg := take (Z.to_nat (count q)) (msg q).
Definition nonzero (ps : list Z) : list Z := List.filter (fun a => negb (a =? 0)) ps.
Definition msg_pages (m : mqmsg) : list Z := nonzero (page m).
Definition q_pages (q : mqueue) : list Z := concat (msg_pages <$> live q).
Definition all_pages (s : state) : list Z := concat (q_pages <$> queues s).

(** The bytes of a message whose first [rem] bytes are in the pages [ps]. *)
Fixpoint bytes_in (w : W) (ps : list Z) (rem : Z) : list Z :=
  match ps with
  | [] => []
  | a :: ps' =>
      if 0 <? rem then page_bytes a (Z.to_nat (Z.min rem 4096)) w ++ bytes_in w ps' (rem - 4096)
      else []
  end.
Definition payload (w : W) (m : mqmsg) : list Z := bytes_in w (page m) (len m).

(** The abstract queue: priorities and contents, in the order of receipt. *)
Definition contents (w : W) (q : mqueue) : list (Z * list Z) :=
  (fun m => (prio m, payload w m)) <$> live q.
Definition view (s : state) (i : nat) : list (Z * list Z) :=
  match queues s !! i with Some q => contents (mem s) q | None => [] end.

(** Sending: after every message of its priority or higher. *)
Fixpoint insert_msg (x : Z * list Z) (l : list (Z * list Z)) : list (Z * list Z) :=
  match l with
  | [] => [x]
  | y :: l' => if fst x <=? fst y then y :: insert_msg x l' else x :: l
  end.

(** Pages [ps] are as many as [rem] bytes need, then zeroes. *)
Fixpoint pages_fit (ps : list Z) (rem : Z) : Prop :=
  match ps with
  | [] => rem <= 0
  | a :: ps' => (a <> 0 <-> 0 < rem) /\ pages_fit ps' (rem - 4096)
  end.

Record msg_ok (w : W) (q : mqueue) (m : mqmsg) : Prop := {
  m_prio : 0 <= prio m < MQ_PRIO_MAX;
  m_len : 0 <= len m <= msgsize q;
  m_pages : length (page m) = MQ_PAGES;
  m_fit : pages_fit (page m) (len m);
  m_bytes : Forall is_byte (payload w m);
}.

Record queue_ok (w : W) (q : mqueue) : Prop := {
  q_slots : length (msg q) = Z.to_nat MQ_SLOTS;
  q_count : 0 <= count q <= maxmsg q;
  q_max : maxmsg q <= MQ_SLOTS;
  q_size : 0 <= msgsize q <= MQ_ROOT_MSGSIZE;
  q_msgs : Forall (msg_ok w q) (live q);
  q_sorted : StronglySorted (fun a b => prio b <= prio a) (live q);
  q_unused : used q = false -> q = no_queue;
  q_room : used q = true -> 0 < maxmsg q;
}.

Definition on_queue (i : nat) (f : file) : bool := f_used f && bool_decide (f_priv f = i).

(** The memory in balance: [x] is the pages of messages on their way in or
    out, [base] what others hold. *)
Record pool (x : list Z) (base : Z -> Z) (s : state) : Prop := {
  i_len : length (queues s) = MQ_MAX;
  i_queues : Forall (queue_ok (mem s)) (queues s);
  i_pages : acct (mem s) base (x ++ all_pages s);
}.

(** Queues, names and open files agree; the queues of [exc] may be waiting to
    be freed. *)
Record table_but (exc : nat -> Prop) (qs : list mqueue) (fs : list file) : Prop := {
  i_refs : forall i q, qs !! i = Some q -> refs q = Z.of_nat (count_if (on_queue i) fs);
  i_named : forall i q, ~ exc i -> qs !! i = Some q -> used q = true -> linked q = false -> 0 < refs q;
  i_files : forall k f, fs !! k = Some f -> f_used f = true ->
    exists q, qs !! f_priv f = Some q /\ used q = true;
  i_names : forall i j p q, qs !! i = Some p -> qs !! j = Some q ->
    used p && linked p = true -> used q && linked q = true -> name p = name q -> i = j;
}.

Definition table : list mqueue -> list file -> Prop := table_but (fun _ => False).

Definition inv (x : list Z) (base : Z -> Z) (s : state) : Prop :=
  pool x base s /\ table (queues s) (files s) /\ u_bytes (user s).

(** *** Lists *)

Lemma nonzero_app l1 l2 : nonzero (l1 ++ l2) = nonzero l1 ++ nonzero l2.
Proof using Type. unfold nonzero. induction l1; cbn [List.filter app]; [done|]. by case_match; rewrite IHl1. Qed.

Lemma nonzero_concat {A} (f : A -> list Z) l : nonzero (concat (f <$> l)) = concat ((nonzero ∘ f) <$> l).
Proof using Type. induction l as [|a l IH]; [done|]. cbn. rewrite nonzero_app. by f_equal. Qed.

Lemma free_pages_app l1 l2 w : free_pages (l1 ++ l2) w = free_pages l2 (free_pages l1 w).
Proof using Type. apply foldl_app. Qed.

Lemma free_msgs_pages ms w : foldl (fun w m => free_msg m w) w ms = free_pages (concat (page <$> ms)) w.
Proof using Type.
  revert w. induction ms as [|m ms IH]; intros w; [done|]. cbn [foldl]. rewrite IH.
  change (concat (page <$> m :: ms)) with (page m ++ concat (page <$> ms)). by rewrite free_pages_app.
Qed.

Lemma nonzero_replicate n : nonzero (replicate n 0) = [].
Proof using Type. by induction n. Qed.

Lemma bytes_in_same l w w' ps rem :
  same_bytes l w w' -> pages_fit ps rem -> (forall a, a ∈ nonzero ps -> a ∈ l) ->
  bytes_in w' ps rem = bytes_in w ps rem.
Proof using Type.
  intros Hs. revert rem. induction ps as [|a ps IH]; intros rem Hf Hin; [done|].
  destruct Hf as [Ha Hf]. cbn [bytes_in]. destruct (Z.ltb_spec 0 rem); [|done].
  unfold nonzero in Hin. cbn [List.filter] in Hin.
  rewrite (proj2 (Z.eqb_neq a 0)) in Hin by (by apply Ha). cbn [negb] in Hin. f_equal.
  - apply (page_bytes_same l); [done| |lia]. apply Hin. by left.
  - apply IH; [done|]. intros b Hb. apply Hin. by right.
Qed.

Lemma payload_same l w w' q m :
  same_bytes l w w' -> msg_ok w q m -> (forall a, a ∈ msg_pages m -> a ∈ l) ->
  payload w' m = payload w m.
Proof using Type. intros Hs Hm Hin. by eapply bytes_in_same; [done|apply Hm|]. Qed.

Lemma bytes_in_length w ps rem : pages_fit ps rem -> length (bytes_in w ps rem) = Z.to_nat rem.
Proof using Type.
  revert rem. induction ps as [|a ps IH]; intros rem Hf; cbn [bytes_in pages_fit] in *; [cbn; lia|].
  destruct Hf as [_ Hf]. destruct (Z.ltb_spec 0 rem); [|cbn; lia].
  rewrite length_app, length_page_bytes, (IH _ Hf). lia.
Qed.

Lemma msg_in_pages q m a : m ∈ live q -> a ∈ msg_pages m -> a ∈ q_pages q.
Proof using Type.
  intros Hm Ha. unfold q_pages. apply list_elem_of_In, in_concat. exists (msg_pages m).
  split; [|by apply list_elem_of_In]. apply list_elem_of_In. by apply list_elem_of_fmap_2.
Qed.

Lemma q_in_pages s i q a : queues s !! i = Some q -> a ∈ q_pages q -> a ∈ all_pages s.
Proof using Type.
  intros Hq Ha. unfold all_pages. apply list_elem_of_In, in_concat. exists (q_pages q).
  split; [|by apply list_elem_of_In]. apply list_elem_of_In, list_elem_of_fmap_2.
  by eapply list_elem_of_lookup_2.
Qed.

Lemma q_pages_none : q_pages no_queue = [].
Proof using Type. done. Qed.

(** Queues and their contents where the memory changes elsewhere. *)
Lemma queue_ok_same l w w' q :
  same_bytes l w w' -> (forall a, a ∈ q_pages q -> a ∈ l) -> queue_ok w q ->
  queue_ok w' q /\ contents w' q = contents w q.
Proof using Type.
  intros Hs Hin [H1 H2 H3 H4 H5 H6 H7 H8].
  assert (Hp : forall m, m ∈ live q -> payload w' m = payload w m).
  { intros m Hm. eapply payload_same; [done| |].
    - exact (proj1 (Forall_forall _ _) H5 m Hm).
    - intros a Ha. apply Hin. by eapply msg_in_pages. }
  split.
  - constructor; try done. apply Forall_forall. intros m Hm.
    destruct (proj1 (Forall_forall _ _) H5 m Hm). constructor; try done. by rewrite Hp.
  - apply list_fmap_ext. intros k m Hm%list_elem_of_lookup_2. by rewrite Hp.
Qed.

(** *** Changing one queue *)

Lemma all_pages_put i q q' s :
  queues s !! i = Some q ->
  q_pages q ++ all_pages (put_queue i q' s) ≡ₚ q_pages q' ++ all_pages s.
Proof using Type. intros Hq. by apply concat_insert. Qed.

(** The pages of the other queues. *)
Definition other_pages (i : nat) (s : state) : list Z := all_pages (put_queue i no_queue s).

Lemma all_pages_other i q s : queues s !! i = Some q -> all_pages s ≡ₚ q_pages q ++ other_pages i s.
Proof using Type.
  intros Hq. unfold other_pages. rewrite (all_pages_put i q no_queue s Hq). by rewrite q_pages_none.
Qed.

Lemma other_pages_put i q' s : other_pages i (put_queue i q' s) = other_pages i s.
Proof using Type.
  unfold other_pages, all_pages, put_queue. cbn [queues]. by rewrite list_insert_insert_eq.
Qed.

Lemma all_pages_put_other i q q' s :
  queues s !! i = Some q -> all_pages (put_queue i q' s) ≡ₚ q_pages q' ++ other_pages i s.
Proof using Type.
  intros Hq. rewrite (all_pages_other i q' (put_queue i q' s)), other_pages_put; [done|].
  cbn [put_queue queues]. rewrite list_lookup_insert_eq; [done|]. by eapply lookup_lt_Some.
Qed.

Lemma pages_of_other i j q s :
  queues s !! j = Some q -> j <> i -> forall a, a ∈ q_pages q -> a ∈ other_pages i s.
Proof using Type.
  intros Hq Hne a Ha. apply (q_in_pages _ j q); [|done]. cbn [put_queue queues].
  by rewrite list_lookup_insert_ne.
Qed.

Lemma pool_set x x' base s i q q' w' :
  pool x base s -> queues s !! i = Some q -> queue_ok w' q' ->
  acct w' base (x' ++ q_pages q' ++ other_pages i s) ->
  same_bytes (other_pages i s) (mem s) w' ->
  pool x' base (put_queue i q' (put_mem w' s)) /\
  forall j, j <> i -> view (put_queue i q' (put_mem w' s)) j = view s j.
Proof using Type.
  intros [H1 H2 H3] Hq Hq' Ha Hs.
  assert (Hj : forall j p, j <> i -> queues s !! j = Some p ->
    queue_ok w' p /\ contents w' p = contents (mem s) p).
  { intros j p Hne Hp. eapply queue_ok_same; [exact Hs|by eapply pages_of_other|].
    by eapply Forall_lookup_1. }
  split; [constructor|].
  - cbn. by rewrite length_insert.
  - cbn. apply Forall_lookup_2. intros j p Hp. apply list_lookup_insert_Some in Hp as [(_ & <- & _)|[Hne Hp]]; [done|].
    by destruct (Hj j p ltac:(done) Hp).
  - cbn [mem put_queue put_mem]. eapply acct_perm; [|exact Ha]. apply Permutation_app_head.
    symmetry. by apply (all_pages_put_other i q q' (put_mem w' s)).
  - intros j Hne. unfold view. cbn [queues put_queue put_mem mem].
    rewrite list_lookup_insert_ne by done. destruct (queues s !! j) as [p|] eqn:Hp; [|done].
    by destruct (Hj j p Hne Hp).
Qed.

(** Memory alone changing. *)
Lemma pool_mem x x' base s w' :
  pool x base s -> acct w' base (x' ++ all_pages s) -> same_bytes (all_pages s) (mem s) w' ->
  pool x' base (put_mem w' s) /\ forall j, view (put_mem w' s) j = view s j.
Proof using Type.
  intros [H1 H2 H3] Ha Hs.
  assert (Hj : forall j p, queues s !! j = Some p ->
    queue_ok w' p /\ contents w' p = contents (mem s) p).
  { intros j p Hp. eapply queue_ok_same; [exact Hs|intros a; by eapply q_in_pages|].
    by eapply Forall_lookup_1. }
  split; [constructor|]; try done.
  - apply Forall_lookup_2. intros j p Hp. by destruct (Hj j p Hp).
  - intros j. unfold view. cbn [queues put_mem mem]. destruct (queues s !! j) as [p|] eqn:Hp; [|done].
    by destruct (Hj j p Hp).
Qed.

Lemma pool_queue_ok x base s i q : pool x base s -> queues s !! i = Some q -> queue_ok (mem s) q.
Proof using Type. intros [_ H2 _] Hq. by eapply Forall_lookup_1. Qed.

Lemma no_queue_ok w : queue_ok w no_queue.
Proof using Type. constructor; try done. all: cbn; try constructor; unfold MQ_SLOTS, MQ_ROOT_MSGSIZE; try lia. Qed.

Lemma mq_free_pool x base s i q :
  pool x base s -> queues s !! i = Some q ->
  pool x base (mq_free i s) /\ forall j, j <> i -> view (mq_free i s) j = view s j.
Proof using Type.
  intros Hp Hq. unfold mq_free. rewrite Hq, free_msgs_pages. fold (live q).
  destruct (acct_free_pages (concat (page <$> live q)) (mem s) base (x ++ other_pages i s)) as [Ha Hs].
  { fold (nonzero (concat (page <$> live q))). rewrite nonzero_concat.
    eapply acct_perm; [|apply Hp]. rewrite (all_pages_other i q s Hq).
    by rewrite !app_assoc, (Permutation_app_comm x). }
  eapply pool_set; [done..|apply no_queue_ok|by rewrite q_pages_none|].
  eapply same_bytes_weaken; [|exact Hs]. intros a. rewrite elem_of_app. by right.
Qed.

(** *** The table *)

Lemma table_weaken (exc exc' : nat -> Prop) qs fs :
  (forall i q, exc i -> ~ exc' i -> qs !! i = Some q -> linked q = true \/ 0 < refs q) ->
  table_but exc qs fs -> table_but exc' qs fs.
Proof using Type.
  intros He [H1 H2 H3 H4]. constructor; try done. intros i q Hx Hq Hu Hl.
  destruct (decide (0 < refs q)); [done|]. apply (H2 i q); try done.
  intros Hex. destruct (He i q Hex Hx Hq) as [E|]; [by rewrite E in Hl|done].
Qed.

Lemma table_set exc qs fs i q q' :
  table_but exc qs fs -> qs !! i = Some q ->
  used q' = used q -> linked q' = linked q -> refs q' = refs q -> name q' = name q ->
  table_but exc (<[i := q']> qs) fs.
Proof using Type.
  intros [H1 H2 H3 H4] Hq Eu El Er En.
  assert (Hl : forall j p, <[i := q']> qs !! j = Some p -> exists p0, qs !! j = Some p0 /\
    used p = used p0 /\ linked p = linked p0 /\ refs p = refs p0 /\ name p = name p0).
  { intros j p Hp. apply list_lookup_insert_Some in Hp as [(<- & <- & _)|[_ Hp]]; eauto 10. }
  constructor.
  - intros j p Hp. destruct (Hl j p Hp) as (p0 & Hp0 & _ & _ & -> & _). by apply H1.
  - intros j p Hx Hp. destruct (Hl j p Hp) as (p0 & Hp0 & -> & -> & -> & _). by apply (H2 j).
  - intros k f Hf Hu. destruct (H3 k f Hf Hu) as (p & Hp & Hup).
    destruct (decide (f_priv f = i)) as [E|].
    + subst i. exists q'. rewrite list_lookup_insert_eq by (by eapply lookup_lt_Some).
      split; [done|]. congruence.
    + exists p. by rewrite list_lookup_insert_ne.
  - intros j k p r Hp Hr. destruct (Hl j p Hp) as (p0 & Hp0 & -> & -> & _ & ->).
    destruct (Hl k r Hr) as (r0 & Hr0 & -> & -> & _ & ->). by apply (H4 j k p0 r0).
Qed.

Lemma table_free qs fs i q :
  table_but (eq i) qs fs -> qs !! i = Some q -> refs q = 0 -> table (<[i := no_queue]> qs) fs.
Proof using Type.
  intros [H1 H2 H3 H4] Hq Hr. constructor.
  - intros j p Hp. apply list_lookup_insert_Some in Hp as [(<- & <- & _)|[_ Hp]]; [|by apply H1].
    rewrite <- (H1 i q Hq). by rewrite Hr.
  - intros j p _ Hp. apply list_lookup_insert_Some in Hp as [(<- & <- & _)|[Hne Hp]]; [done|by apply (H2 j)].
  - intros k f Hf Hu. destruct (H3 k f Hf Hu) as (p & Hp & Hup). exists p. split; [|done].
    rewrite list_lookup_insert_ne; [done|]. intros ->.
    enough (0 < count_if (on_queue (f_priv f)) fs)%nat by (rewrite (H1 _ _ Hq) in Hr; lia).
    apply count_if_pos. exists k, f. split; [done|]. unfold on_queue. by rewrite Hu, bool_decide_true.
  - intros j k p r Hp Hr'.
    apply list_lookup_insert_Some in Hp as [(<- & <- & _)|[_ Hp]]; [done|].
    apply list_lookup_insert_Some in Hr' as [(<- & <- & _)|[_ Hr']]; [done|]. by apply H4.
Qed.

(** An open file comes or goes on queue [i]. *)
Lemma table_file qs fs i k q f f' d :
  table qs fs -> qs !! i = Some q -> used q = true -> fs !! k = Some f ->
  (f_used f' = true -> f_priv f' = i) ->
  (forall j, j <> i -> on_queue j f' = on_queue j f) ->
  d = (if on_queue i f' then 1 else 0) - (if on_queue i f then 1 else 0) ->
  table_but (eq i) (<[i := set_refs (refs q + d) q]> qs) (<[k := f']> fs).
Proof using Type.
  intros [H1 H2 H3 H4] Hq Hu Hf Hf' Hj Hd. constructor.
  - intros j p Hp. pose proof (count_if_insert (on_queue j) fs k f f' Hf) as Hc.
    apply list_lookup_insert_Some in Hp as [(<- & <- & _)|[Hne Hp]].
    + cbn [refs set_refs]. rewrite (H1 i q Hq). revert Hc Hd. repeat case_match; lia.
    + rewrite (H1 j p Hp). rewrite (Hj j) in Hc by done. revert Hc. case_match; lia.
  - intros j p Hx Hp. apply list_lookup_insert_Some in Hp as [(<- & <- & _)|[Hne Hp]]; [done|].
    by apply (H2 j); [intros []|..].
  - intros j g Hg Hug. apply list_lookup_insert_Some in Hg as [(<- & <- & _)|[Hne Hg]].
    + rewrite (Hf' Hug). exists (set_refs (refs q + d) q).
      by rewrite list_lookup_insert_eq by (by eapply lookup_lt_Some).
    + destruct (H3 j g Hg Hug) as (p & Hp & Hup). destruct (decide (f_priv g = i)) as [->|].
      * exists (set_refs (refs q + d) q). by rewrite list_lookup_insert_eq by (by eapply lookup_lt_Some).
      * exists p. by rewrite list_lookup_insert_ne.
  - intros j l p r Hp Hr.
    assert (Hhd : forall j p, <[i := set_refs (refs q + d) q]> qs !! j = Some p -> exists p0,
      qs !! j = Some p0 /\ used p = used p0 /\ linked p = linked p0 /\ name p = name p0).
    { intros j' p' Hp'. apply list_lookup_insert_Some in Hp' as [(<- & <- & _)|[_ Hp']]; eauto 10. }
    destruct (Hhd j p Hp) as (p0 & Hp0 & -> & -> & ->).
    destruct (Hhd l r Hr) as (r0 & Hr0 & -> & -> & ->). by apply H4.
Qed.

(** *** Calls that leave the messages alone *)

(** The parts of a queue its messages depend on. *)
Definition same_msgs (q q' : mqueue) : Prop :=
  used q' = used q /\ count q' = count q /\ msg q' = msg q /\ maxmsg q' = maxmsg q /\ msgsize q' = msgsize q.
Definition same_name (q q' : mqueue) : Prop :=
  linked q' = linked q /\ refs q' = refs q /\ name q' = name q.

Lemma put_mem_id (s : state) : put_mem (mem s) s = s.
Proof using Type. by destruct s. Qed.

Lemma pool_relabel x base s i q q' :
  pool x base s -> queues s !! i = Some q -> used q = true -> same_msgs q q' ->
  pool x base (put_queue i q' s) /\ forall j, view (put_queue i q' s) j = view s j.
Proof using Type.
  intros Hp Hq Hu (E1 & E2 & E3 & E4 & E5).
  assert (El : live q' = live q) by (unfold live; by rewrite E2, E3).
  assert (Hq' : queue_ok (mem s) q').
  { destruct (pool_queue_ok _ _ _ _ _ Hp Hq) as [H1 H2 H3 H4 H5 H6 H7 H8].
    constructor; rewrite ?El, ?E3, ?E2, ?E4, ?E5, ?E1; try done; [|congruence].
    apply Forall_forall. intros m Hm. destruct (proj1 (Forall_forall _ _) H5 m Hm).
    constructor; rewrite ?E5; done. }
  destruct (pool_set x x base s i q q' (mem s) Hp Hq Hq') as [G1 G2].
  - eapply acct_perm; [|apply Hp]. apply Permutation_app_head. rewrite (all_pages_other i q s Hq).
    unfold q_pages. by rewrite El.
  - apply same_bytes_refl.
  - rewrite put_mem_id in *. split; [done|]. intros j. destruct (decide (j = i)) as [->|]; [|by apply G2].
    unfold view. cbn [put_queue queues mem]. rewrite list_lookup_insert_eq by (by eapply lookup_lt_Some).
    rewrite Hq. unfold contents. by rewrite El.
Qed.

Lemma inv_relabel x base s i q q' :
  inv x base s -> queues s !! i = Some q -> used q = true -> same_msgs q q' -> same_name q q' ->
  inv x base (put_queue i q' s) /\ forall j, view (put_queue i q' s) j = view s j.
Proof using Type.
  intros (Hp & Ht & Hub) Hq Hu Hm Hn. destruct (pool_relabel x base s i q q' Hp Hq Hu Hm) as [G1 G2].
  split; [|done]. split; [done|]. split; [|done]. destruct Hm as (E1 & _), Hn as (E2 & E3 & E4).
  by eapply table_set.
Qed.

Lemma mq_free_inv x base s i q :
  inv x base s -> queues s !! i = Some q -> refs q = 0 ->
  inv x base (mq_free i s) /\ forall j, j <> i -> view (mq_free i s) j = view s j.
Proof using Type.
  intros (Hp & Ht & Hub) Hq Hr. destruct (mq_free_pool x base s i q Hp Hq) as [G1 G2].
  split; [|done]. split; [done|]. unfold mq_free. rewrite Hq. cbn.
  split; [|done]. eapply table_free; [|done..]. eapply table_weaken; [|done]. by intros ?? [].
Qed.

Lemma queue_of_used x base s fd i f :
  inv x base s -> queue_of s fd = Some (i, f) ->
  files s !! fd = Some f /\ exists q, queues s !! i = Some q /\ used q = true.
Proof using Type.
  intros (_ & Ht & _) Hf. unfold queue_of in Hf. apply bind_Some in Hf as (g & Hg & E).
  destruct (f_used g) eqn:Eu; simplify_eq. split; [done|]. by apply (i_files _ _ _ Ht fd).
Qed.

Lemma put_queue_lookup i q q' (s : state) : queues s !! i = Some q -> queues (put_queue i q' s) !! i = Some q'.
Proof using Type. intros Hq. cbn. rewrite list_lookup_insert_eq; [done|by eapply lookup_lt_Some]. Qed.

(** A queue nothing names goes, when nothing has it open. *)
Lemma reap x base s i q :
  pool x base s -> table_but (eq i) (queues s) (files s) -> u_bytes (user s) ->
  queues s !! i = Some q ->
  inv x base (if (refs q =? 0) && negb (linked q) then mq_free i s else s).
Proof using Type.
  intros Hp Ht Hub Hq. destruct (Z.eqb_spec (refs q) 0) as [E|E]; cbn [andb].
  - destruct (linked q) eqn:El; cbn [negb].
    + split; [done|]. split; [|done]. eapply table_weaken; [|done]. intros j p <- _ Hp'. simplify_eq. by left.
    + destruct (mq_free_pool x base s i q Hp Hq) as [G1 _]. split; [done|].
      unfold mq_free. rewrite Hq. cbn. split; [by eapply table_free|done].
  - split; [done|]. split; [|done]. eapply table_weaken; [|done]. intros j p <- _ Hp'. simplify_eq. right.
    pose proof (i_refs _ _ _ Ht i q Hq). lia.
Qed.

Lemma mq_close_inv base s pid k : inv [] base s -> inv [] base (mq_close pid k s).
Proof using Type.
  intros Hi. unfold mq_close. destruct (files s !! k) as [f|] eqn:Hf; [|done].
  destruct (f_used f) eqn:Hu; cbn [negb]; [|done].
  cbn [put_file queues]. destruct Hi as (Hp & Ht & Hub).
  destruct (i_files _ _ _ Ht k f Hf Hu) as (q & Hq & Hqu). rewrite Hq.
  set (q1 := if bool_decide _ then _ else _).
  assert (E1 : same_msgs q q1) by (unfold q1; by case_match).
  assert (E2 : same_name q q1) by (unfold q1; by case_match).
  assert (Hu1 : used q1 = true) by (by destruct E1 as (-> & _)).
  destruct (inv_relabel [] base s _ q q1 ltac:(done) Hq Hqu E1 E2) as [(Hp1 & Ht1 & _) _].
  set (i := f_priv f) in *. set (f' := mk_file false i (f_flags f)).
  pose proof (put_queue_lookup i q q1 s Hq) as Hq1.
  destruct (pool_relabel [] base (put_queue i q1 s) i q1 (set_refs (refs q1 - 1) q1) Hp1 Hq1 Hu1) as [Hp2 _]; [done|].
  assert (Es : put_queue i (set_refs (refs q1 - 1) q1) (put_file k f' s) =
    put_file k f' (put_queue i (set_refs (refs q1 - 1) q1) (put_queue i q1 s))).
  { unfold put_queue, put_file. cbn. by rewrite list_insert_insert_eq. }
  rewrite Es. apply reap.
  - by destruct Hp2.
  - cbn. replace (refs q1 - 1) with (refs q1 + -1) by lia.
    apply (table_file _ _ i k q1 f f'); try done.
    + intros j Hj. unfold on_queue. cbn. rewrite Hu. by rewrite bool_decide_false.
    + unfold on_queue. subst f'. cbn [f_used f_priv andb]. rewrite Hu, bool_decide_true by done. done.
  - done.
  - cbn [put_file queues]. by eapply put_queue_lookup.
Qed.

Definition negative (err : option Z) : Prop := forall e, err = Some e -> e < 0.

(** A descriptor on a queue that is there: it names the queue, or the table
    was full. *)
Lemma open_fd_inv x base err i oflag s q fd s' :
  negative err -> inv x base s -> queues s !! i = Some q -> used q = true ->
  open_fd err i oflag s = (fd, s') ->
  inv x base s' /\ (fd < 0 \/
    (exists f, files s' !! Z.to_nat fd = Some f /\ f_used f = true /\ f_priv f = i) /\
    0 <= fd /\ queues s' = <[i := set_refs (refs q + 1) q]> (queues s) /\ mem s' = mem s).
Proof using Type.
  intros He Hi Hq Hu. unfold open_fd, fd_install.
  assert (Hfail : forall e, e < 0 ->
    match queues s !! i with
    | Some q => if e <? 0 then (e, if refs q =? 0 then mq_free i s else s)
                else (e, put_queue i (set_refs (refs q + 1) q) s)
    | None => (e, s)
    end = (fd, s') -> inv x base s' /\ fd < 0).
  { intros e Hlt. rewrite Hq, (proj2 (Z.ltb_lt _ _) Hlt). intros [= <- <-].
    destruct (Z.eqb_spec (refs q) 0); [|done]. by destruct (mq_free_inv x base s i q Hi Hq). }
  destruct err as [e|]; [intros E; destruct (Hfail e) as [? ?]; [by apply He|done|]; eauto|].
  destruct (find_idx (fun f => negb (f_used f)) (files s)) as [k|] eqn:Ek;
    [|intros E; destruct (Hfail (- ENFILE)) as [? ?]; [done..|]; eauto].
  apply find_idx_Some in Ek as [(f & Hf & Hfu%negb_true_iff) _]. cbn [put_file queues]. rewrite Hq.
  rewrite (proj2 (Z.ltb_ge _ _)) by lia. intros [= <- <-].
  set (f' := mk_file true i _). destruct Hi as (Hp & Ht & Hub).
  destruct (pool_relabel x base s i q (set_refs (refs q + 1) q) Hp Hq Hu) as [Hp1 _]; [done|].
  split; [|right].
  - split; [by destruct Hp1|]. split; [|done]. cbn. eapply table_weaken.
    2:{ apply (table_file _ _ i k q f f'); try done.
        - intros j Hj. unfold on_queue. subst f'. cbn. rewrite Hfu. by rewrite bool_decide_false.
        - unfold on_queue. subst f'. cbn [f_used f_priv andb]. rewrite Hfu, bool_decide_true by done. done. }
    intros j p <- _ Hj. rewrite list_lookup_insert_eq in Hj by (by eapply lookup_lt_Some). simplify_eq.
    right. cbn. rewrite (i_refs _ _ _ Ht i q Hq). lia.
  - split; [|cbn; auto with lia]. exists f'. cbn. rewrite Nat2Z.id.
    by rewrite list_lookup_insert_eq by (by eapply lookup_lt_Some).
Qed.

(** What a queue created holds: nothing yet. *)
Lemma fresh_ok w nm uid gid md mm ms ino :
  0 < mm <= MQ_SLOTS -> 0 < ms <= MQ_ROOT_MSGSIZE ->
  queue_ok w (mk_queue true true 0 nm uid gid md mm ms 0
    (replicate (Z.to_nat MQ_SLOTS) no_msg) ino [] [] 0 None 0 0).
Proof using Type.
  intros. constructor; cbn [used linked refs name maxmsg msgsize count msg]; try done; try lia; try constructor.
Qed.

Lemma open_attr_limits t u uattr mm ms :
  open_attr t u uattr = inr (mm, ms) ->
  0 < mm /\ 0 < ms /\
  (if euid t =? 0 then mm <= MQ_SLOTS /\ ms <= MQ_ROOT_MSGSIZE
   else mm <= MQ_USER_MAXMSG /\ ms <= MQ_USER_MSGSIZE).
Proof using Type.
  unfold open_attr. destruct (uattr =? 0).
  { intros [= <- <-]. by destruct (euid t =? 0). }
  destruct (u_fetch u uattr 32) as [bs|]; [|done]. cbv zeta.
  destruct (_ || _) eqn:E; [done|]. destruct (euid t =? 0); cbn [negb]; intros Hx.
  all: destruct (_ || _) eqn:E2 in Hx; [done|]; breflect; simplify_eq; lia.
Qed.

Lemma create_inv base s i q0 nm t md mm ms ino :
  inv [] base s -> queues s !! i = Some q0 -> used q0 = false -> by_name s nm = None ->
  0 < mm <= MQ_SLOTS -> 0 < ms <= MQ_ROOT_MSGSIZE ->
  inv [] base (mk_state (<[i := mk_queue true true 0 nm (euid t) (egid t) md mm ms 0
    (replicate (Z.to_nat MQ_SLOTS) no_msg) (next_ino s) [] [] 0 None 0 0]> (queues s))
    ino (files s) (mem s) (user s) (sent s)).
Proof using Type.
  intros (Hp & Ht & Hub) Hq Hu Hn Hmm Hms.
  pose proof (q_unused _ _ (pool_queue_ok _ _ _ _ _ Hp Hq) Hu) as ->.
  set (q := mk_queue true _ _ _ _ _ _ _ _ _ _ _ _ _ _ _ _ _).
  assert (Hq0 : count_if (on_queue i) (files s) = O).
  { pose proof (i_refs _ _ _ Ht i _ Hq) as E. cbn in E. lia. }
  destruct (pool_set [] [] base s i no_queue q (mem s) Hp Hq) as [G1 _].
  - by apply fresh_ok.
  - eapply acct_perm; [|apply Hp]. by rewrite (all_pages_other i _ s Hq).
  - apply same_bytes_refl.
  - rewrite put_mem_id in *. split; [by destruct G1|]. split; [|done]. cbn [queues files].
    destruct Ht as [H1 H2 H3 H4].
    assert (Hl : forall j p, <[i := q]> (queues s) !! j = Some p ->
      (j = i /\ p = q) \/ (j <> i /\ queues s !! j = Some p)).
    { intros j p Hj. apply list_lookup_insert_Some in Hj as [(<- & <- & _)|[? ?]]; auto. }
    assert (Hnm : forall j p, queues s !! j = Some p -> used p && linked p = true -> name p <> nm).
    { intros j p Hj E En. apply find_idx_None with (j := j) (y := p) in Hn; [|done].
      by rewrite E, bool_decide_true in Hn. }
    constructor.
    + intros j p [[-> ->]|[_ Hj]]%Hl; [cbn; lia|by apply H1].
    + intros j p _ [[-> ->]|[_ Hj]]%Hl; [done|by apply (H2 j); [intros []|..]].
    + intros k f Hf Hfu. destruct (H3 k f Hf Hfu) as (p & Hj & Hpu). exists p. split; [|done].
      rewrite list_lookup_insert_ne; [done|]. intros E. rewrite <- E in Hj. by simplify_eq.
    + intros j k p r [[-> ->]|[Hj1 Hj]]%Hl [[-> ->]|[Hk1 Hk]]%Hl; try done; [| |by apply H4].
      * intros _ E En. by destruct (Hnm k r Hk E).
      * intros E _ En. by destruct (Hnm j p Hj E).
Qed.

(** What others do while an open of the name at [uname] fetches the
    attributes: they keep the balance, and make no queue of that name. *)
Definition discreet (s : state) (uname : Z) (g : state -> state) : Prop :=
  forall nm base, u_string (user s) uname (MQ_NAME_MAX + 2) = inr nm -> inv [] base s ->
  inv [] base (g s) /\ (by_name s nm = None -> by_name (g s) nm = None).

Lemma sys_mq_open_inv during t base s uname oflag md uattr err :
  negative err -> discreet s uname during -> inv [] base s ->
  inv [] base (snd (sys_mq_open during t s uname oflag md uattr err)).
Proof using Type.
  intros He Hd Hi. unfold sys_mq_open. destruct (u_string _ _ _) as [e|nm] eqn:Es; [done|].
  destruct (Hd nm base Es Hi) as [Hi' Hn'].
  destruct (_ <? _); [done|]. destruct (_ =? 0); [done|]. destruct (existsb _ _); [done|].
  destruct (_ =? O_ACCMODE); [done|]. destruct (by_name s nm) as [i|] eqn:En.
  - pose proof En as (q & Hq & Hu)%find_idx_Some%proj1. rewrite Hq.
    destruct (_ =? Z.lor O_CREAT O_EXCL); [done|]. destruct (may _ _ _); [|done]. cbn [negb].
    destruct (open_fd err i oflag s) as [fd s'] eqn:Eo.
    apply andb_prop in Hu as [[Hu _]%andb_prop _]. by destruct (open_fd_inv _ _ _ _ _ _ _ _ _ He Hi Hq Hu Eo).
  - destruct (has oflag O_CREAT); [|done]. cbn [negb]. cbv zeta. specialize (Hn' eq_refl).
    set (s1 := if uattr =? 0 then s else during s).
    assert (Hi1 : inv [] base s1 /\ by_name s1 nm = None) by (unfold s1; by destruct (uattr =? 0)).
    clearbody s1. clear Hi Hi' Hn' En Es Hd s. rename s1 into s. destruct Hi1 as [Hi En].
    destruct (open_attr t (user s) uattr) as [e|[mm ms]] eqn:Ea; [done|].
    destruct (find_idx _ (queues s)) as [i|] eqn:Ei; [|done].
    apply find_idx_Some in Ei as [(q0 & Hq0 & Hu0%negb_true_iff) _].
    destruct (open_attr_limits _ _ _ _ _ Ea) as (Hm1 & Hm2 & Hm3).
    destruct (open_fd err i oflag _) as [fd s'] eqn:Eo. cbn [snd].
    eapply open_fd_inv in Eo as [? _]; [done|done| | |].
    + eapply (create_inv base s i q0); try done.
      all: revert Hm3; unfold MQ_USER_MAXMSG, MQ_SLOTS, MQ_USER_MSGSIZE, MQ_ROOT_MSGSIZE; case_match; lia.
    + cbn. by rewrite list_lookup_insert_eq by (by eapply lookup_lt_Some).
    + done.
Qed.

Lemma sys_mq_unlink_inv t base s uname : inv [] base s -> inv [] base (snd (sys_mq_unlink t s uname)).
Proof using Type.
  intros (Hp & Ht & Hub). unfold sys_mq_unlink. destruct (u_string _ _ _) as [e|nm]; [done|].
  destruct (_ <? _); [done|]. destruct (by_name s nm) as [i|] eqn:En; [|done].
  apply find_idx_Some, proj1 in En as (q & Hq & Hu). rewrite Hq.
  apply andb_prop in Hu as [[Hu Hl]%andb_prop _]. destruct (_ && _); [done|]. cbn [snd].
  destruct (pool_relabel [] base s i q (set_linked false q) Hp Hq Hu) as [Hp1 _]; [done|].
  assert (Hq1 := put_queue_lookup i q (set_linked false q) s Hq).
  assert (Ht1 : table_but (eq i) (queues (put_queue i (set_linked false q) s)) (files s)).
  { destruct Ht as [H1 H2 H3 H4]. cbn.
    assert (Hn : forall j p, <[i := set_linked false q]> (queues s) !! j = Some p ->
      (j = i /\ p = set_linked false q) \/ (j <> i /\ queues s !! j = Some p)).
    { intros j p Hj. apply list_lookup_insert_Some in Hj as [(<- & <- & _)|[? ?]]; auto. }
    constructor.
    - intros j p [[-> ->]|[_ Hj]]%Hn; [by apply (H1 i q)|by apply H1].
    - intros j p Hx [[-> ->]|[_ Hj]]%Hn; [done|by apply (H2 j); [intros []|..]].
    - intros k f Hf Hfu. destruct (H3 k f Hf Hfu) as (p & Hj & Hpu).
      destruct (decide (f_priv f = i)) as [->|].
      + exists (set_linked false q). by rewrite list_lookup_insert_eq by (by eapply lookup_lt_Some).
      + exists p. by rewrite list_lookup_insert_ne.
    - intros j k p r [[-> ->]|[Hj1 Hj]]%Hn [[-> ->]|[Hk1 Hk]]%Hn; cbn [linked used set_linked]; rewrite ?andb_false_r; try done.
      by apply H4. }
  pose proof (reap [] base _ i _ Hp1 Ht1 Hub Hq1) as G. cbn [refs linked set_linked negb] in G.
  by rewrite andb_true_r in G.
Qed.

(** What others do while a call on descriptor [fd] fetches: they keep the
    balance, and the queue stays, since the caller has it open. *)
Definition leaves_open (s : state) (fd : nat) (g : state -> state) : Prop :=
  forall base, inv [] base s -> inv [] base (g s) /\
  forall i f, queue_of s fd = Some (i, f) -> exists q, queues (g s) !! i = Some q /\ used q = true.

Lemma sys_mq_notify_inv during t base s fd uev :
  leaves_open s fd during -> inv [] base s -> inv [] base (snd (sys_mq_notify during t s fd uev)).
Proof using Type.
  intros Hd Hi. unfold sys_mq_notify. destruct (queue_of s fd) as [[i f]|] eqn:Ef; [|done].
  destruct (queue_of_used _ _ _ _ _ _ Hi Ef) as (_ & q & Hq & Hu). rewrite Hq.
  assert (G : forall s q n a b, inv [] base s -> queues s !! i = Some q -> used q = true ->
    inv [] base (put_queue i (set_notify n a b q) s)).
  { intros s0 q0 n a b Hi0 Hq0 Hu0. by destruct (inv_relabel [] base s0 i q0 (set_notify n a b q0) Hi0 Hq0 Hu0). }
  destruct (uev =? 0); [cbn; case_match; eauto|]. cbv zeta.
  destruct (Hd base Hi) as [Hi' Hq']. destruct (Hq' i f Ef) as (q' & Hl' & Hu'). rewrite Hl'.
  destruct (u_fetch _ _ _); [|done]. repeat case_match; cbn [snd]; by try apply G.
Qed.

Lemma attr_bytes a b c d :
  Forall is_byte (be_bytes 4 a ++ be_bytes 4 b ++ be_bytes 4 c ++ be_bytes 4 d ++ replicate 16 0).
Proof using Type.
  rewrite !Forall_app. split_and!; try apply be_bytes_range. by repeat constructor.
Qed.

Lemma sys_mq_getsetattr_inv during base s fd unew uold :
  leaves_open s fd during -> inv [] base s -> inv [] base (snd (sys_mq_getsetattr during s fd unew uold)).
Proof using Type.
  intros Hd Hi. unfold sys_mq_getsetattr. destruct (queue_of s fd) as [[i f0]|] eqn:Ef; [|done].
  destruct (queue_of_used _ _ _ _ _ _ Hi Ef) as (_ & q & Hq & Hu). rewrite Hq. cbv zeta.
  set (attr := be_bytes 4 _ ++ _). set (s1 := if unew =? 0 then s else during s).
  assert (Hi1 : inv [] base s1) by (unfold s1; destruct (unew =? 0); [done|apply (Hd base Hi)]).
  assert (Ha : length attr = 32%nat /\ Forall is_byte attr) by (split; [unfold attr; by rewrite !length_app, !length_be_bytes|apply attr_bytes]).
  clearbody s1 attr. clear Hi Hd Ef Hq Hu s. rename s1 into s, Hi1 into Hi.
  set (r := if unew =? 0 then _ else _).
  assert (Hr : match r with inl _ => True | inr s1 => inv [] base s1 end).
  { subst r. destruct (unew =? 0); [done|]. destruct (files s !! fd) as [f|] eqn:Hf; [|done].
    destruct (u_fetch _ _ _) as [bs|]; [|done]. destruct (negb _); [done|].
    destruct Hi as (Hp & Ht & Hub). split; [constructor; apply Hp|]. split; [|done]. cbn.
    set (f' := mk_file _ _ _).
    assert (E : forall j, on_queue j f' = on_queue j f) by done.
    destruct Ht as [H1 H2 H3 H4]. constructor; try done.
    - intros j p Hj. rewrite (H1 j p Hj). pose proof (count_if_insert (on_queue j) (files s) fd f f' Hf) as Hc.
      rewrite E in Hc. lia.
    - intros k g Hg. apply list_lookup_insert_Some in Hg as [(<- & <- & _)|[_ Hg]]; [exact (H3 fd f Hf)|by apply (H3 k)]. }
  destruct r as [e|s1]; [done|]. destruct (uold =? 0); [done|].
  destruct Hr as (Hp & Ht & Hub). destruct (u_store _ _ _) as [e u] eqn:Es. cbn [snd].
  split; [constructor; apply Hp|]. split; [exact Ht|]. cbn [user put_user].
  change u with (snd (e, u)). rewrite <- Es. apply u_store_bytes; [done|by rewrite (proj1 Ha)|apply Ha].
Qed.

Lemma mq_task_exit_inv x base s pid : inv x base s -> inv x base (mq_task_exit pid s).
Proof using Type.
  intros ([H1 H2 H3] & [T1 T2 T3 T4] & Hub). unfold mq_task_exit. set (g := fun q => _).
  assert (Hg : forall q, same_msgs q (g q) /\ same_name q (g q)) by (intros q; unfold g; by case_match).
  assert (Hl : forall j p, (g <$> queues s) !! j = Some p -> exists q, queues s !! j = Some q /\ p = g q).
  { intros j p Hj. rewrite list_lookup_fmap in Hj. destruct (queues s !! j); simplify_eq/=. eauto. }
  assert (Hlive : forall q, live (g q) = live q).
  { intros q. destruct (Hg q) as [(_ & E2 & E3 & _) _]. unfold live. by rewrite E2, E3. }
  split_and!; [constructor|constructor|done]; cbn [queues mem files].
  - by rewrite length_fmap.
  - apply Forall_lookup_2. intros j p (q & Hq & ->)%Hl. pose proof (Forall_lookup_1 _ _ _ _ H2 Hq) as G.
    unfold g. destruct (used q) eqn:Eu; [|done]. destruct (bool_decide _); [|done].
    destruct G as [G1 G2 G3 G4 G5 G6 G7 G8]. constructor; try done.
    + cbn [andb]. eapply Forall_impl; [exact G5|]. intros m []. by constructor.
    + cbn. congruence.
  - replace (all_pages _) with (all_pages s); [done|]. unfold all_pages. cbn [queues].
    rewrite <- list_fmap_compose. f_equal. apply list_fmap_ext. intros j q _. unfold q_pages. cbn. by rewrite Hlive.
  - intros j p (q & Hq & ->)%Hl. destruct (Hg q) as [_ (_ & -> & _)]. by apply T1.
  - intros j p _ (q & Hq & ->)%Hl. destruct (Hg q) as [(-> & _) (-> & -> & _)]. by apply (T2 j); [intros []|..].
  - intros k f Hf Hu. destruct (T3 k f Hf Hu) as (q & Hq & Hqu). exists (g q).
    rewrite list_lookup_fmap, Hq. split; [done|]. by destruct (Hg q) as [(-> & _) _].
  - intros j k p r (q & Hq & ->)%Hl (q' & Hq' & ->)%Hl.
    destruct (Hg q) as [(-> & _) (-> & _ & ->)]. destruct (Hg q') as [(-> & _) (-> & _ & ->)]. by apply T4.
Qed.

(** *** A message in and out of pages *)

(** A copy of no bytes is not attempted, so a null buffer does not matter. *)
Definition user_bytes (u : U) (p : Z) (n : Z) : option (list Z) :=
  if n <=? 0 then Some [] else u_fetch u p (Z.to_nat n).
Definition user_put (u : U) (p : Z) (bs : list Z) : Z * U :=
  match bs with [] => (0, u) | _ => u_store u p bs end.

Lemma user_put_ne u p bs : bs <> [] -> user_put u p bs = u_store u p bs.
Proof using Type. by destruct bs. Qed.

Lemma user_bytes_step u p rem bs1 bs2 :
  0 < rem < 4294967296 -> u_fetch u p (Z.to_nat (Z.min rem 4096)) = Some bs1 ->
  user_bytes u (p + 4096) (rem - 4096) = Some bs2 -> user_bytes u p rem = Some (bs1 ++ bs2).
Proof using Type.
  intros Hr H1 H2. unfold user_bytes in *. rewrite (proj2 (Z.leb_gt rem 0)) by lia.
  destruct (Z.leb_spec (rem - 4096) 0) as [Hle|Hgt].
  - simplify_eq. rewrite app_nil_r. by replace (Z.to_nat rem) with (Z.to_nat (Z.min rem 4096)) by lia.
  - replace (Z.to_nat rem) with (4096 + Z.to_nat (rem - 4096))%nat by lia.
    rewrite u_fetch_app by lia. replace (Z.to_nat (Z.min rem 4096)) with 4096%nat in H1 by lia.
    rewrite H1. cbn [mbind option_bind]. change (Z.of_nat 4096) with 4096. by rewrite H2.
Qed.

(** What the copying loop gives from [done] on: new pages, and if it went
    through, the program's bytes in them. *)
Definition loaded (f : nat) (u : U) (ubuf done ln : Z) (ps : list Z) (base : Z -> Z) (y : list Z) (w : W)
    (r : Z + list Z) (ps' : list Z) (w' : W) : Prop :=
  exists new, ps' = ps ++ new /\ acct w' base (new ++ y) /\ same_bytes y w w' /\
    Forall (fun a => a <> 0) new /\ (length new <= f)%nat /\
    match r with
    | inl e => e < 0
    | inr ps2 => ps2 = ps' /\ pages_fit new (ln - done) /\
        user_bytes u (ubuf + done) (ln - done) = Some (bytes_in w' new (ln - done)) /\
        Forall is_byte (bytes_in w' new (ln - done))
    end.

Lemma loaded_end f u ubuf done ln ps base y w :
  acct w base y -> ln - done <= 0 -> loaded f u ubuf done ln ps base y w (inr ps) ps w.
Proof using Type.
  intros Ha Hd. exists []. rewrite app_nil_r. cbn. split_and!; try done; [lia|].
  unfold user_bytes. by rewrite (proj2 (Z.leb_le _ _)) by lia.
Qed.

Lemma load_msg_ok f u ubuf done ln ps w base y r ps' w' :
  acct w base y -> u_bytes u -> 0 <= done -> ln < 4294967296 -> ln - done <= 4096 * Z.of_nat f ->
  load_msg f u ubuf done ln ps w = (r, ps', w') ->
  loaded f u ubuf done ln ps base y w r ps' w'.
Proof using Type.
  intros Ha Hu Hd0 Hln. revert done ps w y Ha Hd0.
  induction f as [|f IH]; intros done ps w y Ha Hd0 Hd E; cbn [load_msg] in E.
  { simplify_eq. apply loaded_end; [done|lia]. }
  destruct (Z.ltb_spec done ln); [|simplify_eq; apply loaded_end; [done|lia]].
  destruct (acct_alloc w base y Ha) as [Ea|(a & w1 & Ea & Hane & Ha1 & Hs1)]; rewrite Ea in E.
  { cbn in E. simplify_eq. exists []. rewrite app_nil_r. split_and!; try done. cbn. lia. }
  rewrite (proj2 (Z.eqb_neq a 0) Hane) in E. unfold PAGE_SIZE in E. rewrite u_fetch_u32 in E.
  set (n := if ln - done <? 4096 then _ else _) in E.
  assert (En : n = Z.min (ln - done) 4096) by (unfold n; destruct (Z.ltb_spec (ln - done) 4096); lia). clearbody n. subst n.
  destruct (u_fetch u (ubuf + done) _) as [bs|] eqn:Ef.
  2:{ simplify_eq. exists [a]. split_and!; try done; [by repeat constructor|cbn; lia]. }
  assert (Hb : Forall is_byte bs) by (eapply u_fetch_bytes; [exact Hu| |exact Ef]; lia).
  assert (Hl : length bs = Z.to_nat (Z.min (ln - done) 4096)) by (eapply u_fetch_length; [|exact Ef]; lia).
  destruct (acct_store w1 base (a :: y) a bs Ha1 ltac:(by left) ltac:(lia) Hb) as (Ha2 & Hpb & Hs2).
  assert (Hny : a ∉ y) by (by pose proof (ac_nodup _ _ _ Ha1) as [? _]%NoDup_cons).
  destruct (IH (done + 4096) (ps ++ [a]) _ (a :: y) Ha2 ltac:(lia) ltac:(lia) E)
    as (new & -> & Ha3 & Hs3 & Hnz & Hlen & Hr).
  exists (a :: new). rewrite <- app_assoc. split_and!; [done| | |by constructor|cbn; lia|].
  - eapply acct_perm; [|exact Ha3]. symmetry. apply Permutation_middle.
  - eapply same_bytes_trans; [exact Hs1|]. eapply same_bytes_trans.
    + apply Hs2; [done|]. intros b ?. by right.
    + eapply same_bytes_weaken; [|exact Hs3]. intros b ?. by right.
  - destruct r as [e|ps2]; [done|]. destruct Hr as (-> & Hfit & Hub & Hbb).
    replace (ln - (done + 4096)) with (ln - done - 4096) in * by lia.
    assert (Ebs : page_bytes a (Z.to_nat (Z.min (ln - done) 4096)) w' = bs).
    { rewrite <- Hpb, Hl. apply (page_bytes_same (a :: y)); [done|by left|lia]. }
    cbn [bytes_in pages_fit]. rewrite (proj2 (Z.ltb_lt 0 _)) by lia. rewrite Ebs. split_and!.
    + by rewrite <- app_assoc.
    + split; [lia|done].
    + done.
    + eapply user_bytes_step; [lia|done|]. by replace (ubuf + done + 4096) with (ubuf + (done + 4096)) by lia.
    + by apply Forall_app.
Qed.

(** The message's page table: the pages taken, then zeroes. *)
Lemma pad_pages_eq ps : (length ps <= MQ_PAGES)%nat -> pad_pages ps = ps ++ replicate (MQ_PAGES - length ps) 0.
Proof using Type.
  intros Hl. unfold pad_pages. rewrite take_app, take_ge by lia. by rewrite take_replicate, Nat.min_l by lia.
Qed.

Lemma pages_fit_pad ps rem k : pages_fit ps rem -> pages_fit (ps ++ replicate k 0) rem.
Proof using Type.
  revert rem. induction ps as [|a ps IH]; intros rem Hf; cbn [app pages_fit] in *.
  - revert rem Hf. induction k as [|k IHk]; intros rem Hf; [done|]. cbn. split; [lia|]. apply IHk. lia.
  - destruct Hf. auto.
Qed.

Lemma bytes_in_pad w ps rem k : pages_fit ps rem -> bytes_in w (ps ++ replicate k 0) rem = bytes_in w ps rem.
Proof using Type.
  revert rem. induction ps as [|a ps IH]; intros rem Hf; cbn [app pages_fit bytes_in] in *.
  - destruct k; [done|]. cbn. by rewrite (proj2 (Z.ltb_ge _ _)) by lia.
  - destruct Hf. rewrite IH by done. done.
Qed.

Lemma nonzero_all ps : Forall (fun a => a <> 0) ps -> nonzero ps = ps.
Proof using Type.
  unfold nonzero. induction 1 as [|a ps Ha _ IH]; cbn [List.filter]; [done|].
  rewrite (proj2 (Z.eqb_neq a 0)) by done. cbn. by f_equal.
Qed.

Lemma nonzero_pad ps k : Forall (fun a => a <> 0) ps -> nonzero (ps ++ replicate k 0) = ps.
Proof using Type. intros Hp. rewrite nonzero_app, nonzero_replicate, app_nil_r. by apply nonzero_all. Qed.

(** The storing loop is one store of the message's bytes. *)
Lemma unload_msg_ok w ps ubuf done ln u r u' :
  pages_fit ps (ln - done) -> 0 <= done -> ln < 4294967296 -> u_bytes u ->
  Forall is_byte (bytes_in w ps (ln - done)) ->
  unload_msg ps ubuf done ln w u = (r, u') ->
  u_bytes u' /\ (r < 0 \/ r = 0 /\ user_put u (ubuf + done) (bytes_in w ps (ln - done)) = (0, u')).
Proof using Type.
  revert done u. induction ps as [|a ps IH]; intros done u Hf Hd Hln Hu Hb E; cbn [unload_msg bytes_in] in *.
  { simplify_eq. auto. }
  destruct Hf as [Hane Hf]. destruct (Z.ltb_spec done ln) as [Hlt|Hge].
  2:{ simplify_eq. rewrite (proj2 (Z.ltb_ge 0 _)) by lia. auto. }
  rewrite (proj2 (Z.ltb_lt 0 (ln - done))) in * by lia.
  set (n := if _ <? PAGE_SIZE then _ else _) in E.
  assert (En : n = Z.min (ln - done) 4096) by (unfold n, PAGE_SIZE; destruct (Z.ltb_spec (ln - done) 4096); lia). clearbody n. subst n.
  rewrite u_store_u32 in E. set (bs := page_bytes a _ w) in *.
  assert (Hlb : length bs = Z.to_nat (Z.min (ln - done) 4096)) by apply length_page_bytes.
  apply Forall_app in Hb as [Hb1 Hb2].
  destruct (u_store u (ubuf + done) bs) as [r1 u1] eqn:Es.
  assert (Hu1 : u_bytes u1).
  { change u1 with (snd (r1, u1)). rewrite <- Es. apply u_store_bytes; [done|lia|done]. }
  assert (Hr1 : r1 = 0 \/ r1 = - EFAULT).
  { change r1 with (fst (r1, u1)). rewrite <- Es. apply u_store_result. lia. }
  destruct Hr1 as [->| ->]; [|change (- EFAULT <? 0) with true in E; cbv iota in E; simplify_eq; split; [done|]; left; done].
  cbn [Z.ltb Z.compare] in E. unfold PAGE_SIZE in E.
  replace (ln - done - 4096) with (ln - (done + 4096)) in * by lia.
  destruct (IH (done + 4096) u1 Hf ltac:(lia) Hln Hu1 Hb2 E) as [Hu2 [Hr|[-> Hp]]]; [auto|].
  split; [done|]. right. split; [done|].
  clearbody bs. assert (Hne : bs <> []) by (intros ->; cbn in Hlb; lia).
  destruct (bytes_in w ps (ln - (done + 4096))) as [|c cs] eqn:Ec.
  - cbn in Hp. simplify_eq. by rewrite app_nil_r, user_put_ne.
  - assert (Hlc : length (c :: cs) = Z.to_nat (ln - (done + 4096))) by (rewrite <- Ec; by apply bytes_in_length).
    rewrite user_put_ne by (intros [??]%app_nil; done). rewrite user_put_ne in Hp by done.
    eapply u_store_app; [|exact Es|].
    + rewrite length_app. lia.
    + rewrite Hlb. replace (ubuf + done + Z.of_nat _) with (ubuf + (done + 4096)); [done|].
      cbn [length] in Hlc. lia.
Qed.

(** *** In at its place, out at the head *)

Definition insert_at (m : mqmsg) (ms : list mqmsg) : list mqmsg :=
  take (place (prio m) ms) ms ++ m :: drop (place (prio m) ms) ms.

Lemma insert_at_cons m a ms :
  insert_at m (a :: ms) = if prio m <=? prio a then a :: insert_at m ms else m :: a :: ms.
Proof using Type.
  unfold insert_at, place. cbn [find_idx]. rewrite Z.leb_antisym.
  destruct (prio a <? prio m); cbn [negb]; [done|]. destruct (find_idx _ ms); done.
Qed.

Lemma insert_at_msg w m ms :
  (fun m => (prio m, payload w m)) <$> insert_at m ms =
  insert_msg (prio m, payload w m) ((fun m => (prio m, payload w m)) <$> ms).
Proof using Type.
  induction ms as [|a ms IH]; [done|]. rewrite insert_at_cons. cbn [fmap list_fmap insert_msg fst].
  destruct (prio m <=? prio a); [|done]. cbn [fmap list_fmap]. f_equal. exact IH.
Qed.

Lemma insert_at_perm m ms : insert_at m ms ≡ₚ m :: ms.
Proof using Type. unfold insert_at. by rewrite <- Permutation_middle, take_drop. Qed.

Lemma insert_at_sorted m ms :
  StronglySorted (fun a b => prio b <= prio a) ms ->
  StronglySorted (fun a b => prio b <= prio a) (insert_at m ms).
Proof using Type.
  induction 1 as [|a ms Hs IH Ha]; [by repeat constructor|]. rewrite insert_at_cons.
  destruct (Z.leb_spec (prio m) (prio a)) as [Hle|Hlt].
  - constructor; [done|]. rewrite insert_at_perm. by constructor.
  - constructor; [by constructor|]. constructor; [lia|]. eapply Forall_impl; [exact Ha|].
    intros b Hb. cbn in Hb. lia.
Qed.

Lemma place_le p ms : (place p ms <= length ms)%nat.
Proof using Type. unfold place. destruct (find_idx _ ms) eqn:E; cbn; [apply find_idx_lt in E|]; lia. Qed.

(** What [enqueue] stores is the queue with its message at its place. *)
Lemma enqueue_msgs (ms : list mqmsg) n m :
  (n < length ms)%nat ->
  let at_ := place (prio m) (take n ms) in
  let ms' := take at_ ms ++ m :: sub ms at_ (n - at_) ++ drop (S n) ms in
  take (S n) ms' = insert_at m (take n ms) /\ length ms' = length ms.
Proof using Type.
  intros Hn at_ ms'. pose proof (place_le (prio m) (take n ms)) as Hp.
  rewrite length_take, Nat.min_l in Hp by lia. fold at_ in Hp.
  assert (Esub : sub ms at_ (n - at_) = drop at_ (take n ms)).
  { unfold sub. rewrite take_drop_commute. by replace (at_ + (n - at_))%nat with n by lia. }
  assert (El : length (sub ms at_ (n - at_)) = (n - at_)%nat) by (apply length_sub; lia).
  split.
  - unfold ms', insert_at. fold at_. rewrite take_app_ge by (rewrite length_take; lia).
    rewrite take_take, Nat.min_l by lia. f_equal.
    rewrite length_take, Nat.min_l by lia. replace (S n - at_)%nat with (S (n - at_)) by lia.
    cbn [take]. f_equal. rewrite take_app_le, take_ge by lia. done.
  - unfold ms'. rewrite length_app. cbn [length]. rewrite length_app, El, length_take, length_drop. lia.
Qed.

Lemma page_shuffle (x a b c : list Z) : x ++ (a ++ b) ++ c ≡ₚ (a ++ x) ++ b ++ c.
Proof using Type. by rewrite <- !app_assoc, (Permutation_app_swap_app x a). Qed.

(** The queue [enqueue] leaves. *)
Lemma enqueue_shape i q m (s : state) : exists q' st,
  enqueue i q m s = mk_state (<[i := q']> (queues s)) (next_ino s) (files s) (mem s) (user s) st /\
  used q' = used q /\ same_name q q' /\ maxmsg q' = maxmsg q /\ msgsize q' = msgsize q /\
  count q' = u32 (count q + 1) /\
  msg q' = let at_ := place (prio m) (take (Z.to_nat (count q)) (msg q)) in
    take at_ (msg q) ++ m :: sub (msg q) at_ (Z.to_nat (count q) - at_) ++ drop (S (Z.to_nat (count q))) (msg q).
Proof using Type.
  unfold enqueue. cbv zeta. cbn [count set_msgs receivers notify].
  destruct (_ && _); [destruct (notify q) as [t|]|]; [destruct (negb _)| |].
  all: eexists _, _; split; [unfold put_queue, signal_send_info; cbn; reflexivity|]; done.
Qed.

Lemma enqueue_inv x base s i q m :
  inv (msg_pages m ++ x) base s -> queues s !! i = Some q -> used q = true ->
  count q < maxmsg q -> msg_ok (mem s) q m ->
  inv x base (enqueue i q m s) /\
  view (enqueue i q m s) i = insert_msg (prio m, payload (mem s) m) (view s i) /\
  forall j, j <> i -> view (enqueue i q m s) j = view s j.
Proof using Type.
  intros (Hp & Ht & Hub) Hq Hu Hroom Hm.
  destruct (enqueue_shape i q m s) as (q' & st & E & Eu & (El & Er & En) & Emm & Ems & Ec & Emsg).
  pose proof (pool_queue_ok _ _ _ _ _ Hp Hq) as [H1 H2 H3 H4 H5 H6 H7 H8].
  assert (Hc : count q' = count q + 1) by (rewrite Ec, u32_small; unfold MQ_SLOTS in *; lia).
  destruct (enqueue_msgs (msg q) (Z.to_nat (count q)) m) as [Hl Hlen]; [unfold MQ_SLOTS in *; lia|].
  cbv zeta in Hl, Hlen, Emsg. rewrite <- Emsg in Hl, Hlen.
  assert (Elive : live q' = insert_at m (live q)).
  { unfold live. rewrite Hc. by replace (Z.to_nat (count q + 1)) with (S (Z.to_nat (count q))) by lia. }
  assert (Epages : q_pages q' ≡ₚ msg_pages m ++ q_pages q).
  { unfold q_pages. rewrite Elive. by rewrite insert_at_perm. }
  assert (Hmq' : forall m0, msg_ok (mem s) q m0 -> msg_ok (mem s) q' m0).
  { intros m0 []. constructor; try done. by rewrite Ems. }
  assert (Hq' : queue_ok (mem s) q').
  { constructor; rewrite ?Elive, ?Emm, ?Ems, ?Eu; try done; try lia; try congruence.
    - rewrite insert_at_perm. constructor; [by apply Hmq'|]. eapply Forall_impl; [exact H5|exact Hmq'].
    - by apply insert_at_sorted. }
  destruct (pool_set _ x base s i q q' (mem s) Hp Hq Hq') as [G1 G2].
  { eapply acct_perm; [|apply Hp]. rewrite (all_pages_other i q s Hq), Epages.
    symmetry. apply page_shuffle. }
  { apply same_bytes_refl. }
  rewrite put_mem_id in *. rewrite E. split_and!.
  - split; [by destruct G1|]. split; [|done]. cbn. by eapply table_set.
  - unfold view. cbn [queues mem]. rewrite Hq, list_lookup_insert_eq by (by eapply lookup_lt_Some).
    unfold contents. by rewrite Elive, insert_at_msg.
  - intros j Hj. rewrite <- (G2 j Hj). done.
Qed.

Lemma dequeue_msgs (ms : list mqmsg) n :
  (n < length ms)%nat ->
  let ms' := <[n := no_msg]> (sub ms 1 n ++ drop n ms) in
  take n ms' = drop 1 (take (S n) ms) /\ length ms' = length ms.
Proof using Type.
  intros Hn ms'. assert (El : length (sub ms 1 n) = n) by (apply length_sub; lia). split.
  - unfold ms'. rewrite take_insert_ge by lia. rewrite take_app_le, take_ge by lia.
    unfold sub. by rewrite take_drop_commute.
  - unfold ms'. rewrite length_insert, length_app, El, length_drop. lia.
Qed.

Lemma dequeue_inv x base s i q :
  inv x base s -> queues s !! i = Some q -> used q = true -> 0 < count q ->
  exists m rest, live q = m :: rest /\ msg q !! 0%nat = Some m /\ msg_ok (mem s) q m /\
    inv (msg_pages m ++ x) base (dequeue i q s) /\
    view s i = (prio m, payload (mem s) m) :: view (dequeue i q s) i /\
    forall j, j <> i -> view (dequeue i q s) j = view s j.
Proof using Type.
  intros (Hp & Ht & Hub) Hq Hu Hc.
  pose proof (pool_queue_ok _ _ _ _ _ Hp Hq) as [H1 H2 H3 H4 H5 H6 H7 H8].
  destruct (dequeue_msgs (msg q) (Z.to_nat (count q - 1))) as [Hl Hlen]; [unfold MQ_SLOTS in *; lia|].
  cbv zeta in Hl, Hlen. replace (S (Z.to_nat (count q - 1))) with (Z.to_nat (count q)) in Hl by lia.
  destruct (msg q) as [|m0 ms0] eqn:Emsg; [cbn in H1; unfold MQ_SLOTS in *; lia|].
  destruct (live q) as [|m rest] eqn:El.
  { exfalso. unfold live in El. rewrite Emsg in El. destruct (Z.to_nat (count q)) eqn:E; [lia|done]. }
  assert (m0 = m) as ->.
  { unfold live in El. rewrite Emsg in El. destruct (Z.to_nat (count q)) eqn:E; [done|]. by simplify_eq/=. }
  exists m, rest. split; [done|]. split; [done|]. split; [by apply Forall_inv in H5|].
  unfold dequeue. rewrite Emsg. set (q' := set_sleepers (rq q) [] _).
  assert (El' : live q' = rest).
  { unfold live in El |- *. rewrite Emsg in El. cbn [q' count msg set_sleepers set_msgs]. by rewrite Hl, El. }
  assert (Epages : q_pages q = msg_pages m ++ q_pages q') by (unfold q_pages; by rewrite El, El').
  assert (Hq' : queue_ok (mem s) q').
  { constructor; rewrite ?El'; cbn [q' set_sleepers set_msgs used linked maxmsg msgsize count msg];
      [by rewrite Hlen|lia|lia|lia| |by apply StronglySorted_inv in H6 as [? _]|congruence|done].
    apply Forall_inv_tail in H5. eapply Forall_impl; [exact H5|]. intros m0 []. by constructor. }
  destruct (pool_set _ (msg_pages m ++ x) base s i q q' (mem s) Hp Hq Hq') as [G1 G2].
  { eapply acct_perm; [|apply Hp]. rewrite (all_pages_other i q s Hq), Epages.
    by apply page_shuffle. }
  { apply same_bytes_refl. }
  rewrite put_mem_id in *. split_and!.
  - split; [done|]. split; [|done]. cbn. by eapply table_set.
  - unfold view. cbn [queues mem put_queue]. rewrite Hq, list_lookup_insert_eq by (by eapply lookup_lt_Some).
    unfold contents. by rewrite El, El'.
  - done.
Qed.

(** *** Sleeping *)

(** What is assumed of what others do while a call sleeps: they keep the
    balance, the pages of the message on its way in are not theirs, and the
    queue stays, since the caller has it open. *)
Definition polite (x : list Z) (i : nat) (g : state -> state) : Prop :=
  forall base s q, inv x base s -> queues s !! i = Some q -> used q = true ->
  inv x base (g s) /\ same_bytes x (mem s) (mem (g s)) /\
  exists q', queues (g s) !! i = Some q' /\ used q' = true /\ msgsize q' = msgsize q.

(** The state after sleeping through the turns [e]. *)
Definition slept (pid : Z) (on_rq : bool) (i : nat) (e : list turn) (s : state) : state :=
  foldl (fun s t => others t (sleep pid on_rq i s)) s e.

Definition blocked (sending : bool) (q : mqueue) : bool :=
  if sending then maxmsg q <=? count q else count q =? 0.

Lemma sleep_inv x base pid b i s q :
  inv x base s -> queues s !! i = Some q -> used q = true ->
  inv x base (sleep pid b i s) /\ mem (sleep pid b i s) = mem s /\ (forall j, view (sleep pid b i s) j = view s j) /\
  exists q', queues (sleep pid b i s) !! i = Some q' /\ used q' = true /\ msgsize q' = msgsize q.
Proof using Type.
  intros Hi Hq Hu. unfold sleep. rewrite Hq. set (q' := if b then _ else _).
  assert (Hm : same_msgs q q') by (unfold q'; by destruct b).
  assert (Hn : same_name q q') by (unfold q'; by destruct b).
  destruct (inv_relabel x base s i q q' Hi Hq Hu Hm Hn) as [G1 G2].
  split; [done|]. split; [done|]. split; [done|]. exists q'.
  split; [by eapply put_queue_lookup|]. destruct Hm as (-> & _ & _ & _ & ->). done.
Qed.

Lemma turn_inv x base pid b i t s q :
  polite x i (others t) -> inv x base s -> queues s !! i = Some q -> used q = true ->
  let s' := others t (sleep pid b i s) in
  inv x base s' /\ same_bytes x (mem s) (mem s') /\
  exists q', queues s' !! i = Some q' /\ used q' = true /\ msgsize q' = msgsize q.
Proof using Type.
  intros Ht Hi Hq Hu. destruct (sleep_inv x base pid b i s q Hi Hq Hu) as (Hi1 & Hm & _ & q1 & Hq1 & Hu1 & Hs1).
  destruct (Ht base _ q1 Hi1 Hq1 Hu1) as (Hi2 & Hs2 & q2 & Hq2 & Hu2 & Hz2). rewrite Hm in Hs2.
  split; [done|]. split; [done|]. exists q2. split; [done|]. split; [done|congruence].
Qed.

(** A wait ends with the queue no longer blocked, or with an error; it goes
    on only while it is. *)
Definition waited (x : list Z) (base : Z -> Z) (pid : Z) (sending : bool) (i : nat) (e : list turn)
    (s : state) (q : mqueue) (o : outcome) : Prop :=
  match o with
  | Ret r s' =>
      inv x base s' /\ same_bytes x (mem s) (mem s') /\ (r = 0 \/ r < 0) /\
      (exists q', queues s' !! i = Some q' /\ used q' = true /\ msgsize q' = msgsize q /\
        (r = 0 -> blocked sending q' = false)) /\
      exists k, s' = slept pid (negb sending) i (take k e) s /\
        (forall j, (j < k)%nat -> exists p,
          queues (slept pid (negb sending) i (take j e) s) !! i = Some p /\ blocked sending p = true)
  | Asleep s' => inv x base s' /\ exists q', queues s' !! i = Some q' /\ blocked sending q' = true
  | Stuck => False
  end.

Lemma waited_now x base pid sending i e s q r :
  inv x base s -> queues s !! i = Some q -> used q = true -> (r = 0 /\ blocked sending q = false \/ r < 0) ->
  waited x base pid sending i e s q (Ret r s).
Proof using Type.
  intros Hi Hq Hu Hr. split_and!; [done|done|tauto| |].
  - exists q. split_and!; try done. destruct Hr as [[_ Hr]|]; [done|lia].
  - exists O. split; [done|lia].
Qed.

Lemma waited_turn x base pid sending i t e s q q1 o :
  queues s !! i = Some q -> blocked sending q = true ->
  same_bytes x (mem s) (mem (others t (sleep pid (negb sending) i s))) -> msgsize q1 = msgsize q ->
  waited x base pid sending i e (others t (sleep pid (negb sending) i s)) q1 o ->
  waited x base pid sending i (t :: e) s q o.
Proof using Type.
  intros Hq Hb Hs Hz. destruct o as [r s'|s'|]; try done.
  intros (G1 & G2 & G3 & (q' & G4 & G5 & G6 & G7) & k & G8 & G9).
  split_and!; [done|by eapply same_bytes_trans|done|exists q'; split_and!; try done; congruence|].
  exists (S k). split; [done|]. intros [|j] Hj; [by exists q|]. apply G9. lia.
Qed.

Lemma mq_wait_ok e pid sending i ms x base s q :
  Forall (fun t => polite x i (others t)) e -> inv x base s -> queues s !! i = Some q -> used q = true ->
  waited x base pid sending i e s q (mq_wait e pid sending i ms s).
Proof using Type.
  intros He. revert ms s q. induction He as [|t e Ht He IH]; intros ms s q Hi Hq Hu; cbn [mq_wait]; rewrite Hq.
  all: fold (blocked sending q); destruct (blocked sending q) eqn:Eb; [|apply waited_now; auto].
  - destruct (sleep_inv x base pid (negb sending) i s q Hi Hq Hu) as (Hi1 & _). split; [done|].
    unfold sleep. rewrite Hq. eexists. split; [by eapply put_queue_lookup|]. rewrite <- Eb.
    by destruct sending.
  - destruct (turn_inv x base pid (negb sending) i t s q Ht Hi Hq Hu) as (Hi1 & Hs1 & q1 & Hq1 & Hu1 & Hz1).
    assert (Hgo : forall err ms', err = 0 \/ err < 0 -> waited x base pid sending i (t :: e) s q
      (if err <? 0 then Ret err (others t (sleep pid (negb sending) i s))
       else mq_wait e pid sending i ms' (others t (sleep pid (negb sending) i s)))).
    { intros err ms' Herr. apply (waited_turn _ _ _ _ _ _ _ _ _ q1); try done.
      destruct (Z.ltb_spec err 0); [|by apply IH]. apply waited_now; try done. by right. }
    unfold wait_turn. destruct (sig0 t); [apply waited_now; [done..|by right]|].
    destruct (ms <? 0); [apply Hgo; destruct (sig1 t); [right|left]; done|].
    destruct (ms =? 0); [apply waited_now; [done..|by right]|].
    apply Hgo. destruct (sig1 t); [right|left]; done.
Qed.

(** *** Sending *)

Lemma free_msg_inv x base s m :
  inv (msg_pages m ++ x) base s ->
  inv x base (put_mem (free_msg m (mem s)) s) /\ forall j, view (put_mem (free_msg m (mem s)) s) j = view s j.
Proof using Type.
  intros (Hp & Ht & Hub). destruct (acct_free_pages (page m) (mem s) base (x ++ all_pages s)) as [Ha Hs].
  { rewrite app_assoc. apply Hp. }
  destruct (pool_mem _ x base s (free_msg m (mem s)) Hp Ha) as [G1 G2].
  { eapply same_bytes_weaken; [|exact Hs]. intros a. rewrite elem_of_app. by right. }
  split; [|done]. split; [done|]. by split.
Qed.

(** Copied in: the message is in pages of its own, and nothing else changed. *)
Lemma load_inv base s ubuf ln r ps w :
  inv [] base s -> 0 <= ln <= MQ_ROOT_MSGSIZE ->
  load_msg MQ_PAGES (user s) ubuf 0 ln [] (mem s) = (r, ps, w) ->
  inv ps base (put_mem w s) /\ (forall j, view (put_mem w s) j = view s j) /\ nonzero ps = ps /\
  match r with
  | inl e => e < 0
  | inr ps2 => ps2 = ps /\ forall q p, 0 <= p < MQ_PRIO_MAX -> ln <= msgsize q ->
      let m := mk_msg p ln (pad_pages ps) in
      msg_pages m = ps /\ msg_ok w q m /\ user_bytes (user s) ubuf ln = Some (payload w m)
  end.
Proof using Type.
  unfold MQ_ROOT_MSGSIZE. intros (Hp & Ht & Hub) Hln E.
  pose proof (i_pages _ _ _ Hp) as Ha. cbn [app] in Ha.
  destruct (load_msg_ok MQ_PAGES (user s) ubuf 0 ln [] (mem s) base _ r ps w Ha Hub
    ltac:(lia) ltac:(lia) ltac:(unfold MQ_PAGES; lia) E)
    as (new & -> & Ha1 & Hs & Hnz & Hl & Hr). cbn [app] in *.
  destruct (pool_mem [] new base s w Hp Ha1 Hs) as [G1 G2].
  split; [split; [done|by split]|]. split; [done|]. split; [by apply nonzero_all|].
  destruct r as [e|ps2]; [done|]. destruct Hr as (-> & Hf & Hu & Hb). split; [done|].
  rewrite Z.sub_0_r, Z.add_0_r in *. intros q p Hpr Hsz. set (m := mk_msg p ln (pad_pages new)).
  assert (Ep : page m = new ++ replicate (MQ_PAGES - length new) 0) by (by apply pad_pages_eq).
  assert (Epl : payload w m = bytes_in w new ln) by (unfold payload; rewrite Ep; by apply bytes_in_pad).
  split; [unfold msg_pages; rewrite Ep; by apply nonzero_pad|]. split; [|by rewrite Epl].
  constructor; try done.
  - cbn. lia.
  - rewrite Ep, length_app, length_replicate. lia.
  - rewrite Ep. by apply pages_fit_pad.
  - by rewrite Epl.
Qed.

(** The message placed at the end of a send that has slept or not. *)
Lemma msg_ok_moved w w' q q' m :
  same_bytes (msg_pages m) w w' -> msgsize q' = msgsize q -> msg_ok w q m ->
  msg_ok w' q' m /\ payload w' m = payload w m.
Proof using Type.
  intros Hs Hz Hm. assert (E : payload w' m = payload w m) by (by eapply payload_same).
  split; [|done]. destruct Hm. constructor; try done; [by rewrite Hz|by rewrite E].
Qed.

Definition courteous (s : state) (fd : nat) (g : state -> state) : Prop :=
  forall x i f, queue_of s fd = Some (i, f) -> polite x i g.

(** What a send comes to, once the message is copied in: [s1] is the state
    then, [sm] the one it is put in the queue in. *)
Definition sent_spec (e : list turn) (pid : Z) (base : Z -> Z) (i : nat) (x : Z * list Z) (s1 : state)
    (o : outcome) : Prop :=
  match o with
  | Ret r s' =>
      inv [] base s' /\ exists k, let sm := slept pid false i (take k e) s1 in
      (forall l, (l < k)%nat -> exists q,
         queues (slept pid false i (take l e) s1) !! i = Some q /\ blocked true q = true) /\
      ((r < 0 /\ forall j, view s' j = view sm j) \/
       r = 0 /\ (exists q, queues sm !! i = Some q /\ Z.of_nat (length (view sm i)) < maxmsg q) /\
         view s' i = insert_msg x (view sm i) /\ forall j, j <> i -> view s' j = view sm j)
  | Asleep s' => exists x, inv x base s' /\
      exists q, queues s' !! i = Some q /\ blocked true q = true
  | Stuck => False
  end.

Definition send_spec (e : list turn) (during : state -> state) (pid : Z) (base : Z -> Z) (s : state) (fd : nat)
    (ubuf ln p : Z) (o : outcome) : Prop :=
  (exists r s', o = Ret r s' /\ r < 0 /\ inv [] base s' /\ forall j, view s' j = view s j) \/
  exists i f s0 bs, queue_of s fd = Some (i, f) /\ (forall j, view s0 j = view s j) /\
    user_bytes (user s) ubuf ln = Some bs /\ sent_spec e pid base i (p, bs) (during s0) o.

Lemma view_length s i q : queues s !! i = Some q -> queue_ok (mem s) q -> Z.of_nat (length (view s i)) = count q.
Proof using Type.
  intros Hq [H1 H2 H3 _ _ _ _ _]. unfold view, contents, live. rewrite Hq, length_fmap, length_take, H1.
  unfold MQ_SLOTS in *. lia.
Qed.

(** The end of a send: the message goes in, the caller giving up or not. *)
Lemma send_end base s i q m :
  inv (msg_pages m) base s -> queues s !! i = Some q -> used q = true -> blocked true q = false ->
  msg_ok (mem s) q m ->
  inv [] base (enqueue i q m s) /\ Z.of_nat (length (view s i)) < maxmsg q /\
  view (enqueue i q m s) i = insert_msg (prio m, payload (mem s) m) (view s i) /\
  forall j, j <> i -> view (enqueue i q m s) j = view s j.
Proof using Type.
  intros Hi Hq Hu Hb%Z.leb_gt Hm. rewrite <- (app_nil_r (msg_pages m)) in Hi.
  destruct (enqueue_inv [] base s i q m Hi Hq Hu Hb Hm) as (G1 & G2 & G3). split; [done|]. split; [|done].
  rewrite (view_length s i q Hq); [lia|]. destruct Hi as (Hp & _). by eapply pool_queue_ok.
Qed.

Lemma until_err (u : U) now uts time64 err : until u now uts time64 = inl err -> err < 0.
Proof using Type.
  unfold until. destruct (uts =? 0); [done|]. cbv zeta. destruct time64.
  - destruct (u_fetch u uts 16); cbn [mbind option_bind]; [|by intros [= <-]].
    destruct (_ || _); [by intros [= <-]|done].
  - destruct (u_fetch u uts 8); cbn [mbind option_bind]; [|by intros [= <-]].
    destruct (_ || _); [by intros [= <-]|done].
Qed.

Lemma send_give base s1 i e pid x m err k s' :
  inv (msg_pages m) base s' -> err < 0 -> s' = slept pid false i (take k e) s1 ->
  (forall l, (l < k)%nat -> exists q,
    queues (slept pid false i (take l e) s1) !! i = Some q /\ blocked true q = true) ->
  sent_spec e pid base i x s1 (Ret err (put_mem (free_msg m (mem s')) s')).
Proof using Type.
  intros Hi Herr Es Hl. rewrite <- (app_nil_r (msg_pages m)) in Hi.
  destruct (free_msg_inv [] base s' m Hi) as [G1 G2]. split; [done|].
  exists k. cbv zeta. split; [done|]. left. by rewrite <- Es.
Qed.

Lemma send_put base s1 i e pid w q m k s' q' :
  inv (msg_pages m) base s' -> same_bytes (msg_pages m) w (mem s') -> msg_ok w q m ->
  queues s' !! i = Some q' -> used q' = true -> blocked true q' = false -> msgsize q' = msgsize q ->
  s' = slept pid false i (take k e) s1 ->
  (forall l, (l < k)%nat -> exists q,
    queues (slept pid false i (take l e) s1) !! i = Some q /\ blocked true q = true) ->
  sent_spec e pid base i (prio m, payload w m) s1 (Ret 0 (enqueue i q' m s')).
Proof using Type.
  intros Hi' Hs' Hmok Hq' Hu' Hb' Hz' Es Hl.
  destruct (msg_ok_moved w (mem s') q q' m Hs' Hz' Hmok) as [Hm' Epl].
  destruct (send_end base s' i q' m Hi' Hq' Hu' Hb' Hm') as (G1 & G2 & G3 & G4).
  split; [done|]. exists k. cbv zeta. split; [done|]. right. rewrite <- Es.
  split_and!; [done|by exists q'| |done]. by rewrite G3, Epl.
Qed.

Lemma send_msg_spec e now t base fd i m uts time64 w q s1 q1 :
  Forall (fun t => polite (msg_pages m) i (others t)) e ->
  inv (msg_pages m) base s1 -> same_bytes (msg_pages m) w (mem s1) -> msg_ok w q m ->
  queues s1 !! i = Some q1 -> used q1 = true -> msgsize q1 = msgsize q ->
  sent_spec e (t_pid t) base i (prio m, payload w m) s1 (send_msg e now t fd i m uts time64 s1).
Proof using Type.
  intros He Hi Hs Hm Hq Hu Hz. unfold send_msg. rewrite Hq. fold (blocked true q1).
  assert (Hl0 : forall l, (l < 0)%nat -> exists q,
    queues (slept (t_pid t) false i (take l e) s1) !! i = Some q /\ blocked true q = true) by lia.
  destruct (blocked true q1) eqn:Eb; [|by eapply (send_put _ _ _ _ _ _ _ _ 0%nat)].
  destruct (match files s1 !! fd with Some _ => _ | None => _ end); [by eapply (send_give _ _ _ _ _ _ _ _ 0%nat)|].
  destruct (until (user s1) now uts time64) as [err|ms] eqn:Eu.
  { apply until_err in Eu. by eapply (send_give _ _ _ _ _ _ _ _ 0%nat). }
  pose proof (mq_wait_ok e (t_pid t) true i ms _ base s1 q1 He Hi Hq Hu) as Hw.
  destruct (mq_wait e (t_pid t) true i ms s1) as [r s'|s'|]; [|by eexists|done].
  destruct Hw as (Hi' & Hs' & Hr & (q' & Hq' & Hu' & Hz' & Hb') & k & Es & Hl).
  destruct (Z.ltb_spec r 0); [by eapply send_give|]. assert (r = 0) as -> by lia.
  rewrite Hq'. eapply (send_put _ _ _ _ _ w q); try done; [by eapply same_bytes_trans|by apply Hb'|congruence].
Qed.

Lemma timedsend_spec e during now t base s fd ubuf ln p uts time64 :
  courteous s fd during -> Forall (fun t => courteous s fd (others t)) e ->
  0 <= ln -> 0 <= p -> inv [] base s ->
  send_spec e during (t_pid t) base s fd ubuf ln p
    (sys_mq_timedsend e during now t s fd ubuf ln p uts time64).
Proof using Type.
  intros Hd He Hln Hp0 Hi. unfold sys_mq_timedsend.
  assert (Hnone : forall err, err < 0 -> send_spec e during (t_pid t) base s fd ubuf ln p (Ret err s))
    by (intros err ?; left; by exists err, s).
  destruct (queue_of s fd) as [[i f]|] eqn:Ef; [|by apply Hnone].
  destruct (_ =? O_RDONLY); [by apply Hnone|].
  destruct (queue_of_used _ _ _ _ _ _ Hi Ef) as (_ & q & Hq & Hu). rewrite Hq.
  destruct (Z.ltb_spec (msgsize q) ln); [by apply Hnone|].
  destruct (Z.leb_spec MQ_PRIO_MAX p); [by apply Hnone|]. destruct (_ && _); [by apply Hnone|].
  destruct (load_msg MQ_PAGES (user s) ubuf 0 ln [] (mem s)) as [[r ps] w] eqn:El.
  assert (Hsz : ln <= MQ_ROOT_MSGSIZE).
  { destruct Hi as (Hpl & _). destruct (pool_queue_ok _ _ _ _ _ Hpl Hq). lia. }
  destruct (load_inv base s ubuf ln r ps w Hi ltac:(lia) El) as (Hi0 & Hv0 & Hnz & Hr).
  destruct r as [err|ps2].
  { destruct (free_msg_inv [] base (put_mem w s) (mk_msg 0 0 ps)) as [G1 G2].
    { unfold msg_pages. cbn [page]. by rewrite Hnz, app_nil_r. }
    left. eexists _, _. split; [done|]. split; [done|]. split; [exact G1|]. intros j. by rewrite <- Hv0, <- G2. }
  destruct Hr as [-> Hm]. destruct (Hm q p ltac:(lia) ltac:(lia)) as (Emp & Hmok & Hbs).
  destruct (Hd ps i f Ef base (put_mem w s) q Hi0 Hq Hu) as (Hi1 & Hs1 & q1 & Hq1 & Hu1 & Hz1).
  right. exists i, f, (put_mem w s), (payload w (mk_msg p ln (pad_pages ps))). split_and!; try done.
  apply (send_msg_spec _ _ _ _ _ _ (mk_msg p ln (pad_pages ps)) _ _ w q _ q1); rewrite ?Emp; try done.
  eapply Forall_impl; [exact He|]. intros t' Ht'. by apply (Ht' ps i f).
Qed.

(** *** Receiving *)

(** The head of queue [i] of [sm] taken: its bytes stored at [ubuf] and its
    priority at [uprio], the result its length. A message whose bytes cannot
    be stored is lost. *)
Definition taken (i : nat) (ubuf ln uprio : Z) (sm : state) (r : Z) (s' : state) : Prop :=
  exists p bs, view sm i = (p, bs) :: view s' i /\ (forall j, j <> i -> view s' j = view sm j) /\
    Z.of_nat (length bs) <= ln /\
    (r = - EFAULT \/
     r = Z.of_nat (length bs) /\ exists u, user_put (user sm) ubuf bs = (0, u) /\
       (if uprio =? 0 then user s' = u else u_store u uprio (be_bytes 4 p) = (0, user s'))).

(** What a receive comes to: [sm] is the state it takes a message in. *)
Definition recv_spec (e : list turn) (pid : Z) (base : Z -> Z) (s : state) (fd : nat) (ubuf ln uprio : Z)
    (o : outcome) : Prop :=
  match o with
  | Ret r s' =>
      inv [] base s' /\
      ((r < 0 /\ forall j, view s' j = view s j) \/
       exists i f k s0, queue_of s fd = Some (i, f) /\ (forall j, view s0 j = view s j) /\
         let sm := slept pid true i (take k e) s0 in
         (forall l, (l < k)%nat -> exists q,
            queues (slept pid true i (take l e) s0) !! i = Some q /\ blocked false q = true) /\
         ((r < 0 /\ forall j, view s' j = view sm j) \/ taken i ubuf ln uprio sm r s'))
  | Asleep s' => inv [] base s' /\ exists i q, queues s' !! i = Some q /\ blocked false q = true
  | Stuck => False
  end.

Lemma put_user_inv x base s u : inv x base s -> u_bytes u -> inv x base (put_user u s).
Proof using Type. intros (Hp & Ht & _) Hu. split; [by destruct Hp|]. by split. Qed.

Lemma take_msg_spec base s i q ubuf ln uprio :
  inv [] base s -> queues s !! i = Some q -> used q = true -> blocked false q = false -> msgsize q <= ln ->
  exists r s', take_msg i s ubuf uprio = Ret r s' /\ inv [] base s' /\ taken i ubuf ln uprio s r s'.
Proof using Type.
  intros Hi Hq Hu Hb%Z.eqb_neq Hln. unfold take_msg. rewrite Hq.
  assert (Hok : queue_ok (mem s) q) by (destruct Hi as (Hp & _); by eapply pool_queue_ok).
  destruct (dequeue_inv [] base s i q Hi Hq Hu) as (m & rest & _ & Hm0 & Hm & Hi1 & Hv & Hvj).
  { destruct (q_count _ _ Hok). lia. }
  destruct (msg q) as [|m' ms]; [done|]. cbn in Hm0. injection Hm0 as ->.
  set (s1 := dequeue i q s) in *. change (mem s1) with (mem s). change (user s1) with (user s).
  pose proof (m_len _ _ _ Hm) as Hlm. pose proof (q_size _ _ Hok) as Hqs. unfold MQ_ROOT_MSGSIZE in Hqs.
  destruct (unload_msg (page m) ubuf 0 (len m) (mem s) (user s)) as [r u] eqn:Eu.
  assert (Hub : u_bytes (user s)) by (by destruct Hi as (_ & _ & ?)).
  eapply unload_msg_ok in Eu as [Hub1 Hr]; rewrite ?Z.sub_0_r, ?Z.add_0_r in *;
    [|apply Hm|lia|lia|done|apply Hm]. fold (payload (mem s) m) in Hr.
  assert (Hlp : Z.of_nat (length (payload (mem s) m)) = len m).
  { unfold payload. rewrite bytes_in_length by apply Hm. lia. }
  pose proof (put_user_inv _ base s1 u Hi1 Hub1) as Hi2.
  destruct (free_msg_inv [] base (put_user u s1) m Hi2) as [Hi3 Hv3].
  cbn [mem put_user] in Hi3, Hv3. change (mem s1) with (mem s) in Hi3, Hv3.
  set (s3 := put_mem (free_msg m (mem s)) (put_user u s1)) in *.
  assert (Hview : forall u', view s i = (prio m, payload (mem s) m) :: view (put_user u' s3) i /\
    forall j, j <> i -> view (put_user u' s3) j = view s j).
  { intros u'. split; [rewrite Hv; f_equal; symmetry; apply Hv3|]. intros j Hj. rewrite <- Hvj by done. apply Hv3. }
  assert (Hdone : forall u' r', u_bytes u' -> (r' = - EFAULT \/ r' = len m /\ exists u0,
      user_put (user s) ubuf (payload (mem s) m) = (0, u0) /\
      (if uprio =? 0 then u' = u0 else u_store u0 uprio (be_bytes 4 (prio m)) = (0, u'))) ->
    inv [] base (put_user u' s3) /\ taken i ubuf ln uprio s r' (put_user u' s3)).
  { intros u' r' Hu' Hr'. split; [by apply put_user_inv|]. destruct (Hview u') as [V1 V2].
    exists (prio m), (payload (mem s) m). rewrite Hlp. split_and!; try done. lia. }
  assert (E3 : s3 = put_user u s3) by done.
  destruct (Z.ltb_spec r 0); [rewrite E3; eexists _, _; split; [done|]; apply Hdone; [done|by left]|].
  destruct Hr as [|[-> Hput]]; [lia|]. destruct (uprio =? 0) eqn:Ep.
  { rewrite E3. eexists _, _. split; [done|]. apply Hdone; [done|]. right. split; [done|]. by exists u. }
  cbn [user put_mem put_user s3]. destruct (u_store u uprio (be_bytes 4 (prio m))) as [r2 u2] eqn:Es.
  assert (Hub2 : u_bytes u2).
  { change u2 with (snd (r2, u2)). rewrite <- Es. apply u_store_bytes; [done| |apply be_bytes_range]. by rewrite length_be_bytes. }
  assert (Hr2 : r2 = 0 \/ r2 = - EFAULT).
  { change r2 with (fst (r2, u2)). rewrite <- Es. apply u_store_result. by rewrite length_be_bytes. }
  destruct (Z.ltb_spec r2 0); eexists _, _; (split; [done|]); (apply Hdone; [done|]); [by left|].
  right. split; [done|]. exists u. split; [done|]. destruct Hr2 as [->| ->]; [done|]. unfold EFAULT in *. lia.
Qed.

Lemma upd_receivers_inv x base s i q d :
  inv x base s -> queues s !! i = Some q -> used q = true ->
  inv x base (upd_receivers i d s) /\ (forall j, view (upd_receivers i d s) j = view s j) /\
  user (upd_receivers i d s) = user s /\
  exists q', queues (upd_receivers i d s) !! i = Some q' /\ used q' = true /\
    msgsize q' = msgsize q /\ blocked false q' = blocked false q.
Proof using Type.
  intros Hi Hq Hu. unfold upd_receivers. rewrite Hq. set (q' := set_receivers _ q).
  destruct (inv_relabel x base s i q q' Hi Hq Hu ltac:(done) ltac:(done)) as [G1 G2].
  split; [done|]. split; [done|]. split; [done|]. exists q'. split; [by eapply put_queue_lookup|done].
Qed.

Lemma timedreceive_spec e now t base s fd ubuf ln uprio uts time64 :
  Forall (fun t => courteous s fd (others t)) e -> inv [] base s ->
  recv_spec e (t_pid t) base s fd ubuf ln uprio
    (sys_mq_timedreceive e now t s fd ubuf ln uprio uts time64).
Proof using Type.
  intros He Hi. unfold sys_mq_timedreceive.
  assert (Hnone : forall err, err < 0 -> recv_spec e (t_pid t) base s fd ubuf ln uprio (Ret err s))
    by (intros; split; [done|by left]).
  destruct (queue_of s fd) as [[i f]|] eqn:Ef; [|by apply Hnone].
  destruct (_ =? O_WRONLY); [by apply Hnone|].
  destruct (queue_of_used _ _ _ _ _ _ Hi Ef) as (_ & q & Hq & Hu). rewrite Hq.
  destruct (Z.ltb_spec ln (msgsize q)); [by apply Hnone|].
  fold (blocked false q). destruct (blocked false q) eqn:Eb.
  2:{ destruct (take_msg_spec base s i q ubuf ln uprio Hi Hq Hu Eb) as (r & s' & -> & Hi' & Ht); [done|].
      split; [done|]. right. exists i, f, O, s. split_and!; [done|done|]. cbv zeta. split; [lia|by right]. }
  destruct (has _ _); [by apply Hnone|].
  destruct (until (user s) now uts time64) as [err|ms] eqn:Eu; [apply until_err in Eu; by apply Hnone|].
  destruct (upd_receivers_inv [] base s i q 1 Hi Hq Hu) as (Hi1 & Hv1 & Hus1 & q1 & Hq1 & Hu1 & Hz1 & Hb1).
  assert (Hp : Forall (fun t => polite [] i (others t)) e).
  { eapply Forall_impl; [exact He|]. intros t' Ht'. by apply (Ht' [] i f). }
  pose proof (mq_wait_ok e (t_pid t) false i ms _ base _ q1 Hp Hi1 Hq1 Hu1) as Hw.
  destruct (mq_wait e (t_pid t) false i ms _) as [r s'|s'|]; [|destruct Hw as (? & q' & ? & ?); split; [done|]; by exists i, q'|done].
  destruct Hw as (Hi' & _ & Hr & (q' & Hq' & Hu' & Hz' & Hb') & k & Es & Hl).
  destruct (upd_receivers_inv [] base s' i q' (-1) Hi' Hq' Hu') as (Hi2 & Hv2 & Hus2 & q2 & Hq2 & Hu2 & Hz2 & Hb2).
  destruct (Z.ltb_spec r 0).
  - split; [done|]. right. exists i, f, k, (upd_receivers i 1 s). split_and!; [done|done|]. cbv zeta.
    cbn [negb] in Es, Hl. rewrite <- Es. split; [done|]. by left.
  - assert (r = 0) as -> by lia.
    destruct (take_msg_spec base _ i q2 ubuf ln uprio Hi2 Hq2 Hu2) as (r & s2 & -> & Hi3 & Ht); [by rewrite Hb2, Hb'|lia|].
    split; [done|]. right. exists i, f, k, (upd_receivers i 1 s). split_and!; [done|done|]. cbv zeta.
    cbn [negb] in Es, Hl. rewrite <- Es. split; [done|]. right.
    destruct Ht as (p & bs & V1 & V2 & V3 & V4). exists p, bs. rewrite <- Hv2, V1, <- Hus2. split_and!; try done.
    intros j Hj. by rewrite <- Hv2, V2.
Qed.

(** *** Notification *)

Definition registered (q : mqueue) : bool := bool_decide (is_Some (notify q)).
(** Signals sent, and signals that may yet be sent. *)
Definition signals (s : state) : nat := length (sent s) + count_if registered (queues s).

Definition quiet (g : state -> state) : Prop := forall s, (signals (g s) <= signals s)%nat.
Definition quiet_result (s : state) (o : outcome) : Prop :=
  match o with Ret _ s' | Asleep s' => (signals s' <= signals s)%nat | Stuck => True end.

Lemma signals_put i q q' s :
  queues s !! i = Some q -> (registered q' = true -> registered q = true) ->
  (signals (put_queue i q' s) <= signals s)%nat.
Proof using Type.
  intros Hq Hr. unfold signals. cbn [put_queue sent queues].
  pose proof (count_if_insert registered (queues s) i q q' Hq) as Hc.
  destruct (registered q') eqn:E'; [rewrite (Hr eq_refl) in Hc; lia|]. destruct (registered q); lia.
Qed.

Lemma signals_free i s : (signals (mq_free i s) <= signals s)%nat.
Proof using Type.
  unfold mq_free. destruct (queues s !! i) as [q|] eqn:Hq; [|done].
  change (signals s) with (signals (put_mem (foldl (fun w m => free_msg m w) (mem s) (take (Z.to_nat (count q)) (msg q))) s)).
  by eapply signals_put.
Qed.

Lemma signals_close pid k s : (signals (mq_close pid k s) <= signals s)%nat.
Proof using Type.
  unfold mq_close. destruct (files s !! k) as [f|]; [|done]. destruct (negb (f_used f)); [done|].
  cbn [put_file queues]. destruct (queues s !! f_priv f) as [q|] eqn:Hq; [|done].
  set (q1 := set_refs _ _).
  enough (G : (signals (put_queue (f_priv f) q1 (put_file k (mk_file false (f_priv f) (f_flags f)) s)) <= signals s)%nat).
  { destruct (_ && _); [|done]. etrans; [apply signals_free|done]. }
  change (signals s) with (signals (put_file k (mk_file false (f_priv f) (f_flags f)) s)).
  eapply signals_put; [done|]. subst q1. by case_match.
Qed.

Lemma signals_open_fd err i oflag s : (signals (snd (open_fd err i oflag s)) <= signals s)%nat.
Proof using Type.
  unfold open_fd. destruct (fd_install err i _ s) as [fd s1] eqn:E.
  assert (Es : signals s1 = signals s).
  { unfold fd_install in E. destruct err; [by simplify_eq|]. destruct (find_idx _ _); by simplify_eq. }
  rewrite <- Es. destruct (queues s1 !! i) as [q|] eqn:Hq; [|done]. destruct (fd <? 0); cbn [snd].
  - destruct (refs q =? 0); [apply signals_free|done].
  - by eapply signals_put.
Qed.

Lemma signals_open during t s uname oflag md uattr err :
  quiet during -> (signals (snd (sys_mq_open during t s uname oflag md uattr err)) <= signals s)%nat.
Proof using Type.
  intros Hd. unfold sys_mq_open. destruct (u_string _ _ _) as [e|nm]; [done|].
  destruct (_ <? _); [done|]. destruct (_ =? 0); [done|]. destruct (existsb _ _); [done|].
  destruct (_ =? O_ACCMODE); [done|]. destruct (by_name s nm) as [i|].
  - destruct (queues s !! i); [|done]. destruct (_ =? Z.lor _ _); [done|]. destruct (negb _); [done|].
    apply signals_open_fd.
  - destruct (negb _); [done|]. cbv zeta. set (s1 := if uattr =? 0 then s else during s).
    assert (E : (signals s1 <= signals s)%nat) by (unfold s1; destruct (uattr =? 0); [done|apply Hd]).
    clearbody s1. etrans; [|exact E]. clear E s. rename s1 into s.
    destruct (open_attr _ _ _) as [|[mm ms]]; [done|].
    destruct (find_idx _ (queues s)) as [i|] eqn:Ei; [|done].
    apply find_idx_Some in Ei as [(q0 & Hq0 & _) _].
    etrans; [apply signals_open_fd|]. cbn [queues put_queue files mem user sent next_ino].
    by apply (signals_put i q0 (mk_queue true true 0 nm (euid t) (egid t) _ mm ms 0 _ (next_ino s) [] [] 0 None 0 0)).
Qed.

Lemma signals_unlink t s uname : (signals (snd (sys_mq_unlink t s uname)) <= signals s)%nat.
Proof using Type.
  unfold sys_mq_unlink. destruct (u_string _ _ _) as [e|nm]; [done|]. destruct (_ <? _); [done|].
  destruct (by_name s nm) as [i|]; [|done]. destruct (queues s !! i) as [q|] eqn:Hq; [|done].
  destruct (_ && _); [done|]. cbn [snd].
  assert (G : (signals (put_queue i (set_linked false q) s) <= signals s)%nat) by (by eapply signals_put).
  destruct (refs q =? 0); [|done]. etrans; [apply signals_free|done].
Qed.

Lemma signals_sleep pid b i s : (signals (sleep pid b i s) <= signals s)%nat.
Proof using Type.
  unfold sleep. destruct (queues s !! i) as [q|] eqn:Hq; [|done].
  eapply signals_put; [done|]. by destruct b.
Qed.

Ltac same_signals := first [done | refine (le_n _) | cbn; lia | cbn; done].

Lemma signals_wait e pid sending i ms s :
  Forall (fun t => quiet (others t)) e -> quiet_result s (mq_wait e pid sending i ms s).
Proof using Type.
  intros He. revert ms s. induction He as [|t e Ht He IH]; intros ms s; cbn [mq_wait].
  all: destruct (queues s !! i) as [q|]; [|same_signals]; destruct (if sending then _ else _); [|same_signals].
  - apply signals_sleep.
  - assert (G : (signals (others t (sleep pid (negb sending) i s)) <= signals s)%nat)
      by (etrans; [apply Ht|apply signals_sleep]).
    assert (Hgo : forall (err ms' : Z), quiet_result s
      (if err <? 0 then Ret err (others t (sleep pid (negb sending) i s))
       else mq_wait e pid sending i ms' (others t (sleep pid (negb sending) i s)))).
    { intros err ms'. destruct (err <? 0); [same_signals|]. specialize (IH ms' (others t (sleep pid (negb sending) i s))).
      destruct (mq_wait _ _ _ _ _ _); cbn in *; try same_signals; lia. }
    unfold wait_turn. destruct (sig0 t); [same_signals|]. destruct (ms <? 0); [apply Hgo|].
    destruct (ms =? 0); [same_signals|apply Hgo].
Qed.

(** A send signals by using a registration up. *)
Lemma signals_enqueue i q m s : queues s !! i = Some q -> (signals (enqueue i q m s) <= signals s)%nat.
Proof using Type.
  intros Hq. unfold enqueue. cbv zeta. cbn [count set_msgs receivers notify notify_sig notify_value].
  destruct (_ && _); [|by eapply signals_put]. destruct (notify q) as [t|] eqn:En; [|by eapply signals_put].
  unfold signals. cbn [set_notify wq set_msgs].
  set (q' := set_sleepers [] _ _). pose proof (count_if_insert registered (queues s) i q q' Hq) as Hc.
  assert (Er : registered q = true) by (unfold registered; rewrite En; by apply bool_decide_true).
  assert (Er' : registered q' = false) by done. rewrite Er, Er' in Hc.
  destruct (negb _); cbn [signal_send_info queues sent put_queue]; rewrite ?length_app; cbn [length]; lia.
Qed.

Lemma signals_send e during now t s fd ubuf ln p uts time64 :
  quiet during -> Forall (fun t => quiet (others t)) e ->
  quiet_result s (sys_mq_timedsend e during now t s fd ubuf ln p uts time64).
Proof using Type.
  intros Hd He. unfold sys_mq_timedsend. destruct (queue_of s fd) as [[i f]|]; [|same_signals].
  destruct (_ =? O_RDONLY); [same_signals|]. destruct (queues s !! i) as [q|]; [|same_signals].
  destruct (_ <? ln); [same_signals|]. destruct (_ <=? p); [same_signals|]. destruct (_ && _); [same_signals|].
  destruct (load_msg _ _ _ _ _ _ _) as [[[err|ps] ps'] w]; [same_signals|].
  unfold send_msg. cbv zeta.
  assert (G : (signals (during (put_mem w s)) <= signals s)%nat) by apply (Hd (put_mem w s)).
  set (s1 := during (put_mem w s)) in *. clearbody s1.
  destruct (queues s1 !! i) as [q1|] eqn:Hq1; [|same_signals].
  destruct (_ <=? count q1); [|cbn; etrans; [by apply signals_enqueue|done]].
  destruct (match files s1 !! fd with Some _ => _ | None => _ end); [same_signals|].
  destruct (until _ _ _ _) as [|ms]; [same_signals|]. pose proof (signals_wait e (t_pid t) true i ms s1 He) as Hw.
  destruct (mq_wait _ _ _ _ _ _) as [r s'|s'|]; cbn in Hw |- *; [|lia|same_signals].
  destruct (r <? 0); [exact (Nat.le_trans _ _ _ Hw G)|].
  destruct (queues s' !! i) as [q'|] eqn:Hq'; [|same_signals]. cbn. etrans; [by apply signals_enqueue|lia].
Qed.

Lemma signals_upd_receivers i d s : (signals (upd_receivers i d s) <= signals s)%nat.
Proof using Type.
  unfold upd_receivers. destruct (queues s !! i) eqn:Hq; [|same_signals]. by eapply signals_put.
Qed.

Lemma signals_take i s ubuf uprio : quiet_result s (take_msg i s ubuf uprio).
Proof using Type.
  unfold take_msg. destruct (queues s !! i) as [q|] eqn:Hq; [|same_signals]. destruct (msg q) as [|m ms]; [same_signals|].
  assert (G : (signals (dequeue i q s) <= signals s)%nat) by (unfold dequeue; by eapply signals_put).
  destruct (unload_msg _ _ _ _ _ _) as [r u]. destruct (r <? 0); [same_signals|]. destruct (uprio =? 0); [same_signals|].
  destruct (u_store _ _ _) as [r2 u2]. destruct (r2 <? 0); same_signals.
Qed.

Lemma signals_receive e now t s fd ubuf ln uprio uts time64 :
  Forall (fun t => quiet (others t)) e ->
  quiet_result s (sys_mq_timedreceive e now t s fd ubuf ln uprio uts time64).
Proof using Type.
  intros He. unfold sys_mq_timedreceive. destruct (queue_of s fd) as [[i f]|]; [|same_signals].
  destruct (_ =? O_WRONLY); [same_signals|]. destruct (queues s !! i) as [q|]; [|same_signals].
  destruct (ln <? _); [same_signals|]. destruct (count q =? 0); [|apply signals_take].
  destruct (has _ _); [same_signals|]. destruct (until _ _ _ _) as [|ms]; [same_signals|].
  pose proof (signals_wait e (t_pid t) false i ms (upd_receivers i 1 s) He) as Hw.
  pose proof (signals_upd_receivers i 1 s) as H1.
  destruct (mq_wait _ _ _ _ _ _) as [r s'|s'|]; cbn in Hw |- *; [|lia|same_signals].
  pose proof (signals_upd_receivers i (-1) s') as H2. destruct (r <? 0); [cbn; lia|].
  pose proof (signals_take i (upd_receivers i (-1) s') ubuf uprio) as H3.
  destruct (take_msg _ _ _ _); cbn in *; try same_signals; lia.
Qed.

Lemma signals_notify during t s fd uev :
  quiet during ->
  (signals (snd (sys_mq_notify during t s fd uev)) <=
   signals s + (if (fst (sys_mq_notify during t s fd uev) =? 0)%Z then 1 else 0))%nat.
Proof using Type.
  intros Hd. unfold sys_mq_notify. destruct (queue_of s fd) as [[i f]|]; [|cbn; lia].
  destruct (queues s !! i) as [q|] eqn:Hq; [|cbn; lia]. destruct (uev =? 0).
  { cbn. destruct (bool_decide _); [|lia]. etrans; [by eapply signals_put|lia]. }
  cbv zeta. pose proof (Hd s) as Hs. clear q Hq. generalize dependent (during s). intros s1 Hs.
  destruct (queues s1 !! i) as [q|] eqn:Hq; [|cbn; lia].
  destruct (u_fetch _ _ _) as [bs|]; [|cbn; lia]. destruct (_ && _); [cbn; lia|].
  destruct (_ && _); [cbn; lia|]. destruct (match notify q with Some _ => _ | None => _ end); [cbn; lia|].
  cbn [fst snd]. unfold signals. cbn [put_queue queues sent].
  set (q' := set_notify _ _ _ q). pose proof (count_if_insert registered (queues s1) i q q' Hq) as Hc.
  unfold signals in Hs. revert Hc. repeat case_match; try lia; done.
Qed.

Lemma signals_exit pid s : (signals (mq_task_exit pid s) <= signals s)%nat.
Proof using Type.
  unfold signals, mq_task_exit. cbn [sent queues].
  induction (queues s) as [|q qs IH]; [done|]. cbn [fmap list_fmap]. rewrite !count_if_cons.
  destruct (used q && _); [|lia]. cbn [registered notify set_notify].
  destruct (registered q); cbn; fold (@fmap list list_fmap) in *; lia.
Qed.

(** *** Time *)

Lemma s64_small x : -9223372036854775808 <= x < 9223372036854775808 -> s64 x = x.
Proof using Type.
  intros Hx. unfold s64, signed, u64. change (2 ^ (64 - 1)) with 9223372036854775808.
  change (2 ^ 64) with 18446744073709551616. destruct (Z.lt_ge_cases x 0).
  - rewrite <- (Z.mod_unique_pos x 18446744073709551616 (-1) (x + 18446744073709551616)) by lia. zcase; lia.
  - rewrite Z.mod_small by lia. zcase; lia.
Qed.

Lemma signed_be n k x :
  (0 < n)%nat -> Z.of_nat n * 8 = k -> - 2 ^ (k - 1) <= x < 2 ^ (k - 1) ->
  signed k (be (be_bytes n x)) = x.
Proof using Type.
  intros Hn Hk Hx. rewrite be_be_bytes. change 256 with (2 ^ 8). rewrite <- Z.pow_mul_r by lia.
  replace (8 * Z.of_nat n) with k by lia. unfold signed.
  assert (E : 2 ^ k = 2 * 2 ^ (k - 1)) by (rewrite <- Z.pow_succ_r by lia; f_equal; lia).
  pose proof (Z.pow_pos_nonneg 2 (k - 1)). destruct (Z.lt_ge_cases x 0).
  - rewrite <- (Z.mod_unique_pos x (2 ^ k) (-1) (x + 2 ^ k)) by lia. zcase; lia.
  - rewrite Z.mod_small by lia. zcase; lia.
Qed.

(** Milliseconds, from the clock and from a timespec. *)
Definition ms_of (sec nsec : Z) : Z := sec * 1000 + nsec / 1000000.
Definition clamp (x : Z) : Z := Z.max 0 (Z.min 2147483647 x).

(** The call's arithmetic, of a time read as [sec] and [nsec]. *)
Lemma until_arith sec nsec now_s now_us :
  - 2 ^ 53 <= sec < 2 ^ 53 -> 0 <= nsec < 1000000000 -> 0 <= now_s < 4294967296 -> 0 <= now_us < 1000000 ->
  let left := s64 (s64 (s64 (sec - u32 now_s) * 1000) + (nsec ÷ 1000000 - now_us ÷ 1000)) in
  (if left <=? 0 then 0 else if 2147483647 <? left then 2147483647 else left) =
  clamp (ms_of sec nsec - ms_of now_s (now_us * 1000)).
Proof using Type.
  intros Hs Hn Hns Hus. change (2 ^ 53) with 9007199254740992 in Hs.
  rewrite (u32_small now_s), !Z.quot_div_nonneg by lia.
  pose proof (Z.div_le_upper_bound nsec 1000000 1000 ltac:(lia) ltac:(lia)).
  pose proof (Z.div_pos nsec 1000000 ltac:(lia) ltac:(lia)).
  pose proof (Z.div_le_upper_bound now_us 1000 1000 ltac:(lia) ltac:(lia)).
  pose proof (Z.div_pos now_us 1000 ltac:(lia) ltac:(lia)).
  rewrite (s64_small (sec - now_s)), (s64_small ((sec - now_s) * 1000)), s64_small by lia.
  unfold clamp, ms_of.
  assert (E : now_us * 1000 / 1000000 = now_us / 1000)
    by (change 1000000 with (1000 * 1000); by rewrite Z.div_mul_cancel_r).
  rewrite E.   repeat zcase; lia.
Qed.

(** *** At boot *)

Definition mq_boot (w : W) (u : U) (nfiles : nat) : state :=
  mk_state (replicate MQ_MAX no_queue) 1 (replicate nfiles (mk_file false 0 0)) w u [].

Lemma lookup_boot (q : mqueue) i : replicate MQ_MAX no_queue !! i = Some q -> q = no_queue.
Proof using Type. by intros [-> _]%lookup_replicate. Qed.

Lemma mq_boot_inv w u n : pg_ok w -> u_bytes u -> inv [] (pg_held w) (mq_boot w u n).
Proof using Type.
  intros Hw Hu. split_and!; [constructor|constructor|done].
  - done.
  - apply Forall_lookup_2. intros i q ->%lookup_boot. apply no_queue_ok.
  - constructor; [done|intros; by apply pg_held_nonneg|intros a|].
    + cbn [app]. replace (all_pages _) with (@nil Z) by done. cbn. lia.
    + cbn. constructor.
  - intros i q ->%lookup_boot. cbn [files mq_boot]. enough (E : count_if (on_queue i) (replicate n (mk_file false 0 0)) = O) by (by rewrite E).
    unfold count_if. clear. induction n as [|n IH]; [done|]. cbn. exact IH.
  - by intros i q _ ->%lookup_boot.
  - by intros k f [-> _]%lookup_replicate.
  - by intros i j p q ->%lookup_boot.
Qed.

(** ** Properties *)


(** C24: a send either fails and leaves the queues as they are, or puts the
    program's [ln] bytes, with their priority, after every message of that
    priority or higher, in a queue that had room for it, and changes no other
    message. Others may use the queues while it copies and while it sleeps,
    which is only while the queue is full; the balance is kept. *)
Theorem mq_send_in_order e during now t base s fd ubuf ln p uts time64 :
  courteous s fd during -> Forall (fun t => courteous s fd (others t)) e ->
  0 <= ln -> 0 <= p -> inv [] base s ->
  send_spec e during (t_pid t) base s fd ubuf ln p
    (sys_mq_timedsend e during now t s fd ubuf ln p uts time64).
Proof using Type. apply timedsend_spec. Qed.

(** A receive takes the message at the head of the queue, stores its bytes
    (no more than the buffer has room for) and its priority in the program's
    memory and returns its length; or it fails, and then the queues are as
    they were, except that a message whose bytes could not be stored is gone.
    It sleeps only while the queue is empty; the balance is kept. *)
Theorem mq_receive_head e now t base s fd ubuf ln uprio uts time64 :
  Forall (fun t => courteous s fd (others t)) e -> inv [] base s ->
  recv_spec e (t_pid t) base s fd ubuf ln uprio
    (sys_mq_timedreceive e now t s fd ubuf ln uprio uts time64).
Proof using Type. apply timedreceive_spec. Qed.

(** A registration is used up by its signal: of signals sent and
    registrations held together, only a call of mq_notify that succeeds adds
    one. *)
Theorem mq_notify_once s t err :
  (forall during uname oflag md uattr, quiet during ->
     (signals (snd (sys_mq_open during t s uname oflag md uattr err)) <= signals s)%nat) /\
  (forall uname, (signals (snd (sys_mq_unlink t s uname)) <= signals s)%nat) /\
  (forall k, (signals (mq_close (t_pid t) k s) <= signals s)%nat) /\
  (forall e during now fd ubuf ln p uts time64, quiet during -> Forall (fun t => quiet (others t)) e ->
     quiet_result s (sys_mq_timedsend e during now t s fd ubuf ln p uts time64)) /\
  (forall e now fd ubuf ln uprio uts time64, Forall (fun t => quiet (others t)) e ->
     quiet_result s (sys_mq_timedreceive e now t s fd ubuf ln uprio uts time64)) /\
  (forall during fd uev, quiet during -> (signals (snd (sys_mq_notify during t s fd uev)) <=
     signals s + (if (fst (sys_mq_notify during t s fd uev) =? 0)%Z then 1 else 0))%nat) /\
  (signals (mq_task_exit (t_pid t) s) <= signals s)%nat.
Proof using Type.
  split_and!.
  - intros. by apply signals_open.
  - intros. apply signals_unlink.
  - intros. apply signals_close.
  - intros. by apply signals_send.
  - intros. by apply signals_receive.
  - intros. by apply signals_notify.
  - apply signals_exit.
Qed.

(** The time a call may wait is the time from now to the deadline, in
    milliseconds, cut to what an int holds, and 0 if the deadline has passed:
    of the 32-bit timespec, and of the 64-bit one for seconds below 2^53. *)
Theorem mq_deadline u uts sec nsec now_s now_us pad :
  uts <> 0 -> - 2 ^ 53 <= sec < 2 ^ 53 -> 0 <= nsec < 1000000000 ->
  0 <= now_s < 4294967296 -> 0 <= now_us < 1000000 -> length pad = 4%nat ->
  (u_fetch u uts 16 = Some (be_bytes 8 sec ++ pad ++ be_bytes 4 nsec) ->
   until u (now_s, now_us) uts true = inr (clamp (ms_of sec nsec - ms_of now_s (now_us * 1000)))) /\
  (0 <= sec < 4294967296 -> u_fetch u uts 8 = Some (be_bytes 4 sec ++ be_bytes 4 nsec) ->
   until u (now_s, now_us) uts false = inr (clamp (ms_of sec nsec - ms_of now_s (now_us * 1000)))).
Proof using Type.
  intros Hu Hs Hn Hns Hus Hp.
  assert (En : signed 32 (be (be_bytes 4 nsec)) = nsec) by (by apply signed_be; [lia| |lia]).
  split.
  - intros Hf. unfold until. rewrite (proj2 (Z.eqb_neq uts 0) Hu), Hf. cbn [mbind option_bind].
    unfold sub. rewrite drop_0, take_app_length' by (by rewrite length_be_bytes).
    rewrite app_assoc, drop_app_length' by (by rewrite length_app, length_be_bytes, Hp).
    rewrite take_ge, En, signed_be by (done || lia || by rewrite length_be_bytes).
    rewrite (proj2 (Z.ltb_ge nsec 0)), (proj2 (Z.leb_gt 1000000000 nsec)) by lia. cbn [orb].
    f_equal. by apply until_arith.
  - intros Hs' Hf. unfold until. rewrite (proj2 (Z.eqb_neq uts 0) Hu), Hf. cbn [mbind option_bind].
    unfold sub. rewrite drop_0, take_app_length' by (by rewrite length_be_bytes).
    rewrite drop_app_length' by (by rewrite length_be_bytes).
    rewrite take_ge, En, be_be_bytes by (by rewrite length_be_bytes).
    change (256 ^ Z.of_nat 4) with 4294967296. rewrite Z.mod_small, (u32_small sec) by lia.
    rewrite (proj2 (Z.ltb_ge nsec 0)), (proj2 (Z.leb_gt 1000000000 nsec)) by lia. cbn [orb].
    f_equal. by apply until_arith.
Qed.
End spec.

(** *** Witnesses: queues over a pool of eight pages, for a program with two *)

#[local] Existing Instance PAGES.pmm_pages.
#[local] Existing Instance two_pages.

Lemma polite_id {W U} `{PageMemory W} `{UserMemory U} x i : polite (W := W) (U := U) x i id.
Proof. intros base s q Hi Hq Hu. split; [done|]. split; [apply same_bytes_refl|]. by exists q. Qed.

(** The program's memory: "aaa" and a zero byte at 0x10000000, then bytes 97. *)
Definition prog : ram := fun a => if a =? 8195 then 0 else 97.
Lemma prog_bytes : u_bytes prog.
Proof. intros a. unfold prog. destruct (a =? 8195); lia. Qed.

Definition root_task : task := mk_task 5 0 0 0.
Definition boot8 : @state PMM.pmm ram := mq_boot PMM.pool8 prog 4.
Definition opened : @state PMM.pmm ram :=
  snd (sys_mq_open id root_task boot8 268435456 (Z.lor O_RDWR O_CREAT) 384 0 None).
Abbreviation base8 := (PAGES.held PMM.pool8).

Lemma mq_boot8_inv : inv [] base8 boot8.
Proof. exact (mq_boot_inv PMM.pool8 prog 4 PMM.pool8_inv prog_bytes). Qed.
Lemma opened_inv : inv [] base8 opened.
Proof. apply sys_mq_open_inv; [done|by intros|apply mq_boot8_inv]. Qed.

Definition state_of (o : outcome) : @state PMM.pmm ram :=
  match o with Ret _ s => s | Asleep s => s | Stuck => boot8 end.
Definition result (o : @outcome PMM.pmm ram) : option Z := match o with Ret r _ => Some r | _ => None end.

(** Five bytes at priority 3, then three at priority 7. *)
Definition one_sent : @state PMM.pmm ram :=
  state_of (sys_mq_timedsend [] id (0, 0) root_task opened 0 268439552 5 3 0 false).
Definition two_sent : @state PMM.pmm ram :=
  state_of (sys_mq_timedsend [] id (0, 0) root_task one_sent 0 268439552 3 7 0 false).

Lemma one_sent_inv : inv [] base8 one_sent.
Proof.
  pose proof (timedsend_spec [] id (0, 0) root_task base8 opened 0 268439552 5 3 0 false) as G.
  unfold one_sent. destruct G as [(r & s' & E & _ & Hi & _)|(i & f & s0 & bs & _ & _ & _ & G)].
  - intros x i f _. apply polite_id.
  - constructor.
  - lia.
  - lia.
  - exact opened_inv.
  - by rewrite E.
  - destruct (sys_mq_timedsend _ _ _ _ _ _ _ _ _ _ _) as [r s'|s'|] eqn:E; [by destruct G as [? _]| |done].
    exfalso. assert (result (Asleep s') = Some 0); [|done]. rewrite <- E. vm_compute. reflexivity.
Qed.

(** A queue "b" made by another task while "aaa" is created with attributes
    fetched from 0x10001000, and "aaa" unlinked again. *)
Definition prog2 : ram := fun a =>
  if a =? 8195 then 0 else if a =? 8300 then 98 else if a =? 8301 then 0
  else if a =? 4103 then 2 else if a =? 4107 then 9 else if a <? 8192 then 0 else 97.
Definition makes_b (s : @state PMM.pmm ram) : state :=
  snd (sys_mq_open id root_task s 268435564 (Z.lor O_RDWR O_CREAT) 384 0 None).
Definition two_made : @state PMM.pmm ram :=
  snd (sys_mq_open makes_b root_task (mq_boot PMM.pool8 prog2 4) 268435456 (Z.lor O_RDWR O_CREAT) 384 268439552 None).

Lemma prog2_bytes : u_bytes prog2.
Proof. intros a. unfold prog2. repeat case_match; lia. Qed.
Lemma prog2_inv : inv [] base8 (mq_boot PMM.pool8 prog2 4).
Proof. exact (mq_boot_inv PMM.pool8 prog2 4 PMM.pool8_inv prog2_bytes). Qed.
Lemma makes_b_discreet : discreet (mq_boot PMM.pool8 prog2 4) 268435456 makes_b.
Proof.
  intros nm base E Hi. split.
  - apply sys_mq_open_inv; [done|by intros|done].
  - intros _. assert (nm = [97; 97; 97]) as ->.
    { assert (E' : u_string (user (mq_boot PMM.pool8 prog2 4)) 268435456 (MQ_NAME_MAX + 2) = inr [97; 97; 97]) by (vm_compute; reflexivity).
      rewrite E' in E. by injection E. }
    vm_compute. reflexivity.
Qed.


Lemma mq_send_in_order_witness :
  send_spec [] id 5 base8 one_sent 0 268439552 3 7
    (sys_mq_timedsend [] id (0, 0) root_task one_sent 0 268439552 3 7 0 false) /\
  result (sys_mq_timedsend [] id (0, 0) root_task one_sent 0 268439552 3 7 0 false) = Some 0.
Proof.
  split; [|vm_compute; reflexivity].
  refine (mq_send_in_order [] id (0, 0) root_task base8 one_sent 0 268439552 3 7 0 false _ _ _ _ one_sent_inv).
  - intros x i f _. apply polite_id.
  - constructor.
  - lia.
  - lia.
Defined.

Lemma mq_receive_head_witness :
  recv_spec [] 5 base8 one_sent 0 268435460 8192 0
    (sys_mq_timedreceive [] (0, 0) root_task one_sent 0 268435460 8192 0 0 false) /\
  result (sys_mq_timedreceive [] (0, 0) root_task one_sent 0 268435460 8192 0 0 false) = Some 5.
Proof.
  split; [|vm_compute; reflexivity].
  refine (mq_receive_head [] (0, 0) root_task base8 one_sent 0 268435460 8192 0 0 false _ one_sent_inv).
  constructor.
Defined.

(** A program asking for a signal, and a send to the empty queue. *)
Definition asks : ram := fun a => if a =? 8195 then 0 else if a =? 4103 then 10 else if a <? 8192 then 0 else 97.
Definition told : @state PMM.pmm ram :=
  snd (sys_mq_notify id root_task
    (snd (sys_mq_open id root_task (mq_boot PMM.pool8 asks 4) 268435456 (Z.lor O_RDWR O_CREAT) 384 0 None))
    0 268439552).
Lemma mq_notify_once_witness :
  quiet_result told (sys_mq_timedsend [] id (0, 0) root_task told 0 268439552 5 3 0 false) /\
  signals told = 1%nat /\
  sent (state_of (sys_mq_timedsend [] id (0, 0) root_task told 0 268439552 5 3 0 false)) = [(5, 10, 0)].
Proof.
  destruct (mq_notify_once told root_task None) as (_ & _ & _ & H & _).
  split; [|split; vm_compute; reflexivity].
  apply (H [] id (0, 0) 0%nat 268439552 5 3 0 false); [intros s; done|constructor].
Defined.

(** A deadline of 2 seconds and 5 milliseconds at 0x10001000, at 1.5 seconds. *)
Definition deadline : ram := fun a => default 0 ((be_bytes 8 2 ++ be_bytes 4 0 ++ be_bytes 4 5000000) !! Z.to_nat (a - 4096)).
Lemma mq_deadline_witness : until deadline (1, 500000) 268439552 true = inr 505.
Proof.
  destruct (mq_deadline deadline 268439552 2 5000000 1 500000 [0; 0; 0; 0]) as [H _];
    [done|lia|lia|lia|lia|done|].
  rewrite H by (vm_compute; reflexivity). reflexivity.
Defined.

(** ** What the code does against its own documentation *)

(** A 64-bit deadline so far ahead that its milliseconds do not fit 64 bits
    has already passed. *)
Definition far : ram := fun a => default 0 ((be_bytes 8 (2 ^ 62) ++ be_bytes 8 0) !! Z.to_nat (a - 4096)).
Example far_deadline_passed : until far (1, 0) 268439552 true = inr 0.
Proof. vm_compute. reflexivity. Qed.

(** Two tasks open "aaa" with O_CREAT and O_EXCL, the second while the first
    fetches its attributes: both succeed and there are two queues of the
    name. *)
Definition makes_aaa (s : @state PMM.pmm ram) : state :=
  snd (sys_mq_open id root_task s 268435456 (Z.lor O_RDWR (Z.lor O_CREAT O_EXCL)) 384 0 None).
Example mq_open_race :
  let '(fd, s) := sys_mq_open makes_aaa root_task (mq_boot PMM.pool8 prog2 4) 268435456
    (Z.lor O_RDWR (Z.lor O_CREAT O_EXCL)) 384 268439552 None in
  (fd, (fun q => (linked q, name q)) <$> take 2 (queues s)) = (1, [(true, [97; 97; 97]); (true, [97; 97; 97])]).
Proof. vm_compute. reflexivity. Qed.

(** A queue with a message in it that nobody has open, and an open of it that
    fails for want of a descriptor: the queue and the message are gone. *)
Definition left_alone : @state PMM.pmm ram := mq_close 5 0 one_sent.
Example failed_open_frees_queue :
  (length (view left_alone 0), by_name left_alone [97; 97; 97]) = (1%nat, Some 0%nat) /\
  let s := snd (sys_mq_open id root_task left_alone 268435456 O_RDWR 0 0 (Some (-24))) in
  (length (view s 0), by_name s [97; 97; 97]) = (0%nat, None).
Proof. split; vm_compute; reflexivity. Qed.

End MQUEUE.
