(* ===== verification/Time.v ===== *)
(** * Calendar arithmetic (kernel/time.c)

    Day numbers and dates, seconds and broken-down times, the day of the week
    and the MS-DOS packed forms. C's division truncates towards zero, so it is
    [Z.quot] here. *)

From stdpp Require Import strings.
From S2P Require Import Prelude.
Local Open Scope Z_scope.

Module TIME.

(** ** The code *)

Definition SECS_PER_DAY : Z := 86400.

Definition is_leap (year : Z) : bool :=
  ((Z.rem year 4 =? 0) && negb (Z.rem year 100 =? 0)) || (Z.rem year 400 =? 0).

Definition days : list Z := [31; 28; 31; 30; 31; 30; 31; 31; 30; 31; 30; 31].
Definition days_in_month (year mon0 : Z) : Z :=
  if (mon0 <? 0) || (11 <? mon0) then 0
  else if (mon0 =? 1) && is_leap year then 29
  else nth (Z.to_nat mon0) days 0.

Definition sakamoto : list Z := [0; 3; 2; 5; 0; 3; 5; 1; 4; 6; 2; 4].
Definition weekday_of (year mon0 mday : Z) : Z :=
  if (mon0 <? 0) || (11 <? mon0) then 0
  else
    let y := if mon0 <? 2 then year - 1 else year in
    Z.rem (y + y ÷ 4 - y ÷ 100 + y ÷ 400 + nth (Z.to_nat mon0) sakamoto 0 + mday) 7.

Definition days_from_civil (y m d : Z) : Z :=
  let y := y - (if m <=? 2 then 1 else 0) in
  let era := (if 0 <=? y then y else y - 399) ÷ 400 in
  let yoe := y - era * 400 in
  let doy := (153 * (m + (if 2 <? m then -3 else 9)) + 2) ÷ 5 + d - 1 in
  let doe := yoe * 365 + yoe ÷ 4 - yoe ÷ 100 + doy in
  era * 146097 + doe - 719468.

Definition civil_from_days (z : Z) : Z * Z * Z :=
  let z := z + 719468 in
  let era := (if 0 <=? z then z else z - 146096) ÷ 146097 in
  let doe := z - era * 146097 in
  let yoe := (doe - doe ÷ 1460 + doe ÷ 36524 - doe ÷ 146096) ÷ 365 in
  let yr := yoe + era * 400 in
  let doy := doe - (365 * yoe + yoe ÷ 4 - yoe ÷ 100) in
  let mp := (5 * doy + 2) ÷ 153 in
  let d := doy - (153 * mp + 2) ÷ 5 + 1 in
  let m := mp + (if mp <? 10 then 3 else -9) in
  (yr + (if m <=? 2 then 1 else 0), m, d).

Record tm := mk_tm {
  tm_sec : Z; tm_min : Z; tm_hour : Z; tm_mday : Z; tm_mon : Z; tm_year : Z; tm_wday : Z
}.

Definition gmtime_r (secs : Z) : tm :=
  let dys := secs / SECS_PER_DAY in
  let rem := secs mod SECS_PER_DAY in
  let '(y, m, d) := civil_from_days dys in
  mk_tm (rem mod 60) ((rem / 60) mod 60) (rem / 3600) d (m - 1) (y - 1900) (weekday_of y (m - 1) d).

Definition timegm (t : tm) : Z :=
  let dys := days_from_civil (tm_year t + 1900) (tm_mon t + 1) (tm_mday t) in
  u32 (u32 dys * SECS_PER_DAY + u32 (tm_hour t) * 3600 + u32 (tm_min t) * 60 + u32 (tm_sec t)).

Definition tm_valid (t : tm) : bool :=
  let year := tm_year t + 1900 in
  if (tm_mon t <? 0) || (11 <? tm_mon t) then false
  else if (tm_mday t <? 1) || (days_in_month year (tm_mon t) <? tm_mday t) then false
  else if (tm_hour t <? 0) || (23 <? tm_hour t) then false
  else if (tm_min t <? 0) || (59 <? tm_min t) then false
  else (0 <=? tm_sec t) && (tm_sec t <=? 59).

Definition tm_to_fat_date (t : tm) : Z :=
  let year := tm_year t + 1900 in
  if (year <? 1980) || (2107 <? year) then 0
  else u16 (Z.lor (Z.lor (Z.shiftl (year - 1980) 9) (Z.shiftl (tm_mon t + 1) 5)) (tm_mday t)).

Definition tm_to_fat_time (t : tm) : Z :=
  u16 (Z.lor (Z.lor (Z.shiftl (tm_hour t) 11) (Z.shiftl (tm_min t) 5)) (tm_sec t ÷ 2)).

Definition fat_to_tm (date time : Z) : tm :=
  let year := 1980 + Z.land (Z.shiftr date 9) 127 - 1900 in
  let mon := Z.land (Z.shiftr date 5) 15 - 1 in
  let mday := Z.land date 31 in
  mk_tm (Z.land time 31 * 2) (Z.land (Z.shiftr time 5) 63) (Z.land (Z.shiftr time 11) 31)
    mday mon year (weekday_of (year + 1900) mon mday).

Definition weekday_name (wday : Z) : string :=
  if (0 <=? wday) && (wday <? 7)
  then nth (Z.to_nat wday)
    ["Sunday"; "Monday"; "Tuesday"; "Wednesday"; "Thursday"; "Friday"; "Saturday"]%string "?"%string
  else "?"%string.
Definition month_name (mon0 : Z) : string :=
  if (0 <=? mon0) && (mon0 <? 12)
  then nth (Z.to_nat mon0)
    ["January"; "February"; "March"; "April"; "May"; "June"; "July"; "August"; "September"; "October";
     "November"; "December"]%string "?"%string
  else "?"%string.

(** ** Dates and day numbers *)

(** [lia] with the definition of division. *)
Ltac dlia := Z.div_mod_to_equations; lia.

(** The first day of year [y] of an era, years beginning in March. *)
Definition start (y : Z) : Z := 365 * y + y / 4 - y / 100.
(** The day of the year month [mp] begins, March being 0. *)
Definition month_start (mp : Z) : Z := (153 * mp + 2) / 5.

Lemma quot_div a b : 0 <= a -> 0 < b -> a ÷ b = a / b.
Proof. intros. by rewrite Z.quot_div_nonneg. Qed.

(** Truncation with the correction is a floor. *)
Lemma era_floor a b : 0 < b -> (if 0 <=? a then a else a - (b - 1)) ÷ b = a / b.
Proof.
  intros Hb. destruct (Z.leb_spec 0 a); [by apply quot_div|].
  rewrite <- (Z.opp_involutive (a - (b - 1))), Z.quot_opp_l, Z.quot_div_nonneg by lia.
  pose proof (Z.div_mod a b ltac:(lia)) as E1. pose proof (Z.mod_pos_bound a b Hb) as B1.
  assert (E : - (a / b) = - (a - (b - 1)) / b) by (apply (Z.div_unique _ _ _ (b - 1 - a mod b)); lia).
  rewrite <- E. lia.
Qed.

(** The year of the era of its day [doe], as the code computes it. *)
Definition yoe_of (doe : Z) : Z := (doe - doe / 1460 + doe / 36524 - doe / 146096) / 365.

Lemma yoe_mono a b : 0 <= a <= b -> b <= 146096 -> yoe_of a <= yoe_of b.
Proof.
  intros Ha Hb. unfold yoe_of. apply Z.div_le_mono; [lia|].
  assert (H1 : a - a / 1460 <= b - b / 1460) by dlia.
  assert (H2 : a / 36524 - a / 146096 <= b / 36524 - b / 146096).
  { assert (b = 146096 \/ b / 146096 = 0) as [->|E] by dlia; [dlia|].
    assert (a / 146096 = 0) by dlia. assert (a / 36524 <= b / 36524) by (apply Z.div_le_mono; lia). lia. }
  lia.
Qed.

(** The last day of a year of the era. *)
Definition year_end (y : Z) : Z := if y =? 399 then 146096 else start (y + 1) - 1.

Lemma years_checked :
  forallb (fun y => (yoe_of (start y) =? y) && (yoe_of (year_end y) =? y) &&
                    (start y <=? year_end y) && (year_end y <=? 146096) &&
                    (year_end y - start y <=? 365)) (seqZ 0 400) = true.
Proof. vm_compute. reflexivity. Qed.

Lemma year_checked y : 0 <= y < 400 ->
  yoe_of (start y) = y /\ yoe_of (year_end y) = y /\ start y <= year_end y <= 146096 /\ year_end y - start y <= 365.
Proof.
  intros Hy. pose proof (proj1 (forallb_forall _ _) years_checked y) as H.
  assert (Hin : In y (seqZ 0 400)) by (apply list_elem_of_In, elem_of_seqZ; lia).
  specialize (H Hin). cbv beta in H. breflect. lia.
Qed.

Lemma yoe_in_year y doe : 0 <= y < 400 -> start y <= doe <= year_end y -> yoe_of doe = y.
Proof.
  intros Hy Hd. destruct (year_checked y Hy) as (H1 & H2 & H3 & H4).
  assert (0 <= start y) by (unfold start; dlia).
  pose proof (yoe_mono (start y) doe ltac:(lia) ltac:(lia)).
  pose proof (yoe_mono doe (year_end y) ltac:(lia) ltac:(lia)). lia.
Qed.

(** Every day is in a year. *)
Lemma year_of_day doe : 0 <= doe <= 146096 -> exists y, 0 <= y < 400 /\ start y <= doe <= year_end y.
Proof.
  intros Hd.
  assert (H : forall n, (n <= 399)%nat -> doe < start (Z.of_nat n) \/ Z.of_nat n = 399 ->
    exists y, 0 <= y < 400 /\ start y <= doe <= year_end y).
  { induction n as [|n IH]; intros Hn Hlt.
    - destruct Hlt as [Hlt|]; [|lia]. change (start (Z.of_nat 0)) with 0 in Hlt. lia.
    - destruct (Z.lt_ge_cases doe (start (Z.of_nat (S n)))) as [Hlt'|Hge].
      + destruct (Z.lt_ge_cases doe (start (Z.of_nat n))); [apply IH; [lia|by left]|].
        exists (Z.of_nat n). split; [lia|]. unfold year_end. rewrite (proj2 (Z.eqb_neq _ _)) by lia.
        replace (Z.of_nat n + 1) with (Z.of_nat (S n)) by lia. lia.
      + destruct Hlt as [|E]; [lia|]. exists 399. rewrite E in Hge. unfold year_end. cbn [Z.eqb Pos.eqb]. lia. }
  apply (H 399%nat); [lia|right; lia].
Qed.

(** A date as its era, year of the era, month of the year from March and day
    of the month. *)
Definition in_calendar (yoe mp d : Z) : Prop :=
  0 <= yoe < 400 /\ 0 <= mp <= 11 /\ 1 <= d /\ month_start mp + d - 1 < month_start (mp + 1) /\
  start yoe + month_start mp + d - 1 <= year_end yoe.
Definition date_of (era yoe mp d : Z) : Z * Z * Z :=
  (yoe + era * 400 + (if mp <? 10 then 0 else 1), mp + (if mp <? 10 then 3 else -9), d).
Definition day_of (era yoe mp d : Z) : Z := era * 146097 + start yoe + month_start mp + d - 1 - 719468.

Lemma civil_from_day era yoe mp d :
  in_calendar yoe mp d -> civil_from_days (day_of era yoe mp d) = date_of era yoe mp d.
Proof.
  intros (Hy & Hm & Hd & Hlt & He). destruct (year_checked yoe Hy) as (_ & _ & H3 & _).
  assert (H0 : 0 <= start yoe) by (unfold start; dlia).
  assert (Hms : 0 <= month_start mp) by (unfold month_start; dlia).
  set (doy := month_start mp + d - 1) in *. set (doe := start yoe + doy).
  unfold civil_from_days, day_of. cbv zeta.
  rewrite !(era_floor _ 146097 eq_refl : (if 0 <=? _ then _ else _ - 146096) ÷ _ = _).
  replace (era * 146097 + start yoe + month_start mp + d - 1 - 719468 + 719468) with (era * 146097 + doe) by lia.
  assert (Ed : (era * 146097 + doe) / 146097 = era) by (symmetry; apply (Z.div_unique _ _ _ doe); lia).
  rewrite Ed. replace (era * 146097 + doe - era * 146097) with doe by lia.
  rewrite !(quot_div doe) by lia.
  assert (Hge : 0 <= doe - doe / 1460 + doe / 36524 - doe / 146096) by dlia.
  rewrite (quot_div _ 365) by lia. fold (yoe_of doe). rewrite (yoe_in_year yoe doe Hy) by lia.
  rewrite !(quot_div yoe) by lia. fold (start yoe). replace (doe - start yoe) with doy by lia.
  rewrite (quot_div _ 153) by lia.
  assert (Emp : (5 * doy + 2) / 153 = mp) by (unfold doy, month_start in *; dlia).
  rewrite Emp, (quot_div _ 5) by lia. fold (month_start mp). unfold date_of.
  replace (doy - month_start mp + 1) with d by lia.
  destruct (Z.ltb_spec mp 10), (Z.leb_spec (mp + (if mp <? 10 then 3 else -9)) 2); repeat zcase; f_equal; f_equal; lia.
Qed.

Lemma day_from_civil era yoe mp d :
  in_calendar yoe mp d ->
  let '(y, m, d) := date_of era yoe mp d in days_from_civil y m d = day_of era yoe mp d.
Proof.
  intros (Hy & Hm & Hd & Hlt & He). unfold date_of, days_from_civil, day_of. cbv zeta.
  set (m := mp + (if mp <? 10 then 3 else -9)).
  assert (Ey : yoe + era * 400 + (if mp <? 10 then 0 else 1) - (if m <=? 2 then 1 else 0) = yoe + era * 400).
  { unfold m. repeat zcase; lia. }
  assert (Em : m + (if 2 <? m then -3 else 9) = mp) by (unfold m; repeat zcase; lia).
  rewrite Ey, Em. 
  rewrite !(era_floor _ 400 eq_refl : (if 0 <=? _ then _ else _ - 399) ÷ _ = _).
  assert (Ee : (yoe + era * 400) / 400 = era) by (symmetry; apply (Z.div_unique _ _ _ yoe); lia).
  rewrite Ee. replace (yoe + era * 400 - era * 400) with yoe by lia.
  rewrite !(quot_div yoe), (quot_div _ 5) by lia. unfold start, month_start. lia.
Qed.

(** Every day number is a date's. *)
Lemma day_decomposed z : exists era yoe mp d, in_calendar yoe mp d /\ z = day_of era yoe mp d.
Proof.
  set (era := (z + 719468) / 146097). set (doe := (z + 719468) mod 146097).
  assert (Hz : z + 719468 = 146097 * era + doe) by (apply Z.div_mod; lia).
  assert (Hdoe : 0 <= doe < 146097) by (apply Z.mod_pos_bound; lia).
  destruct (year_of_day doe ltac:(lia)) as (yoe & Hy & Hs). set (doy := doe - start yoe).
  destruct (year_checked yoe Hy) as (_ & _ & _ & H4).
  set (mp := (5 * doy + 2) / 153).
  exists era, yoe, mp, (doy - month_start mp + 1). split; [|unfold day_of, doy in *; lia].
  assert (Hm : 0 <= mp <= 11) by (unfold mp, doy; dlia).
  assert (Hlo : month_start mp <= doy) by (unfold month_start, mp; dlia).
  assert (Hhi : doy < month_start (mp + 1)) by (unfold month_start, mp; dlia).
  split_and!; try lia.
Qed.

Lemma rem_mod_zero y b : 0 < b -> (Z.rem y b =? 0) = (y mod b =? 0).
Proof.
  intros Hb. apply eq_true_iff_eq. rewrite !Z.eqb_eq. rewrite Z.rem_mod by lia.
  rewrite (Z.abs_eq b) by lia. rewrite Z.mod_divide by lia.
  destruct (Z.eq_dec y 0) as [->|Hy]; [cbn; rewrite Z.mod_0_l by lia; split; [intros; apply Z.divide_0_r|done]|].
  rewrite <- (Z.divide_abs_r b y), <- Z.mod_divide by lia.
  split; [|intros ->; lia]. intros E. assert (Z.sgn y = 1 \/ Z.sgn y = -1) as [E1|E1] by lia; rewrite E1 in E; lia.
Qed.

(** The leap day is the last day of the March year. *)
Lemma leap_year_end era yoe :
  0 <= yoe < 400 ->
  year_end yoe - start yoe = if is_leap (yoe + era * 400 + 1) then 365 else 364.
Proof.
  intros Hy. unfold is_leap. rewrite !rem_mod_zero by lia.
  assert (E : forall b q, 0 < b -> 400 = b * q -> (yoe + era * 400 + 1) mod b = (yoe + 1) mod b).
  { intros b q Hb Eq. rewrite Eq. replace (yoe + era * (b * q) + 1) with (yoe + 1 + era * q * b) by lia.
    apply Z.mod_add. lia. }
  rewrite (E 4 100), (E 100 4), (E 400 1) by lia. unfold year_end, start.
  destruct (Z.eqb_spec yoe 399) as [->|Hne]; [done|].
  rewrite (Z.mod_small (yoe + 1) 400), (proj2 (Z.eqb_neq (yoe + 1) 0)) by lia. rewrite orb_false_r.
  destruct (Z.eqb_spec ((yoe + 1) mod 4) 0), (Z.eqb_spec ((yoe + 1) mod 100) 0); cbn [andb negb]; dlia.
Qed.

(** Evaluate the closed terms of the calendar. *)
Ltac calendar :=
  repeat match goal with
  | |- context [month_start ?n] => let v := eval vm_compute in (month_start n) in progress change (month_start n) with v
  | |- context [nth ?n ?l 0] => let v := eval vm_compute in (nth n l 0) in change (nth n l 0) with v
  | |- context [Z.ltb ?a ?b] =>
      let v := eval vm_compute in (Z.ltb a b) in
      match v with true => change (Z.ltb a b) with true | false => change (Z.ltb a b) with false end
  | |- context [Z.eqb ?a ?b] =>
      let v := eval vm_compute in (Z.eqb a b) in
      match v with true => change (Z.eqb a b) with true | false => change (Z.eqb a b) with false end
  end; cbn [orb andb].

Lemma months mp : 0 <= mp <= 11 ->
  mp = 0 \/ mp = 1 \/ mp = 2 \/ mp = 3 \/ mp = 4 \/ mp = 5 \/ mp = 6 \/ mp = 7 \/ mp = 8 \/
  mp = 9 \/ mp = 10 \/ mp = 11.
Proof. lia. Qed.

(** The dates of the calendar are those in range. *)
Lemma date_of_valid era yoe mp d :
  0 <= yoe < 400 -> 0 <= mp <= 11 ->
  let '(y, m, _) := date_of era yoe mp d in
  0 <= m - 1 <= 11 /\ (in_calendar yoe mp d <-> 1 <= d <= days_in_month y (m - 1)).
Proof.
  intros Hy Hm. pose proof (leap_year_end era yoe Hy) as Hl.
  unfold date_of, in_calendar, days_in_month. pose proof (months mp Hm) as Hc. clear Hm.
  assert (Hge : 364 <= year_end yoe - start yoe) by (rewrite Hl; destruct (is_leap _); lia).
  destruct_or! Hc; subst mp; calendar; (split; [lia|]).
  12: revert Hl; destruct (is_leap (yoe + era * 400 + 1)); intros Hl.
  all: lia.
Qed.

Definition valid_date (y m d : Z) : Prop := 1 <= m <= 12 /\ 1 <= d <= days_in_month y (m - 1).

(** A valid date is one of the calendar. *)
Lemma date_decomposed y m d : valid_date y m d ->
  exists era yoe mp, in_calendar yoe mp d /\ date_of era yoe mp d = (y, m, d).
Proof.
  intros [Hm Hd]. set (y' := y - (if m <=? 2 then 1 else 0)).
  set (mp := m + (if 2 <? m then -3 else 9)).
  assert (Hmp : 0 <= mp <= 11) by (unfold mp; zcase; lia).
  assert (Hy : 0 <= y' mod 400 < 400) by (apply Z.mod_pos_bound; lia).
  assert (E : date_of (y' / 400) (y' mod 400) mp d = (y, m, d)).
  { unfold date_of. pose proof (Z.div_mod y' 400 ltac:(lia)).
    assert (Em : mp + (if mp <? 10 then 3 else -9) = m) by (unfold mp; repeat zcase; lia).
    rewrite Em. f_equal; f_equal. unfold y', mp in *. repeat zcase; lia. }
  exists (y' / 400), (y' mod 400), mp. split; [|done].
  pose proof (date_of_valid (y' / 400) (y' mod 400) mp d Hy Hmp) as G. rewrite E in G. by apply G.
Qed.

Lemma civil_of_day z :
  let '(y, m, d) := civil_from_days z in valid_date y m d /\ days_from_civil y m d = z.
Proof.
  destruct (day_decomposed z) as (era & yoe & mp & d & Hc & ->). rewrite civil_from_day by done.
  pose proof (day_from_civil era yoe mp d Hc) as Hd.
  destruct Hc as (Hy & Hm & Hc). pose proof (date_of_valid era yoe mp d Hy Hm) as G.
  unfold date_of in *. split; [|done]. split; [lia|]. by apply G.
Qed.

Lemma day_of_civil y m d : valid_date y m d -> civil_from_days (days_from_civil y m d) = (y, m, d).
Proof.
  intros (era & yoe & mp & Hc & E)%date_decomposed. pose proof (day_from_civil era yoe mp d Hc) as Hd.
  rewrite E in Hd. by rewrite Hd, civil_from_day, E.
Qed.

(** The day after. *)
Definition next_day (y m d : Z) : Z * Z * Z :=
  if d <? days_in_month y (m - 1) then (y, m, d + 1)
  else if m <? 12 then (y, m + 1, 1) else (y + 1, 1, 1).

Lemma month_end era yoe mp d :
  in_calendar yoe mp d -> ~ in_calendar yoe mp (d + 1) ->
  exists era' yoe' mp', in_calendar yoe' mp' 1 /\ day_of era' yoe' mp' 1 = day_of era yoe mp d + 1 /\
    date_of era' yoe' mp' 1 =
      let '(y, m, _) := date_of era yoe mp d in if m <? 12 then (y, m + 1, 1) else (y + 1, 1, 1).
Proof.
  intros Hc Hn. pose proof Hc as (Hy & Hm & Hd & Hlt & He). unfold in_calendar in Hn.
  destruct (Z.lt_ge_cases mp 11) as [Hmp|Hmp].
  - exists era, yoe, (mp + 1).
    assert (Hlen : month_start (mp + 1) < month_start (mp + 1 + 1) /\ start yoe + month_start (mp + 1) <= year_end yoe).
    { pose proof (leap_year_end era yoe Hy) as Hl. unfold month_start. destruct (is_leap _); dlia. }
    assert (E : month_start mp + d = month_start (mp + 1)).
    { pose proof (leap_year_end era yoe Hy) as Hl. lia. }
    split; [split_and!; lia|]. split; [unfold day_of; lia|].
    unfold date_of. repeat zcase; f_equal; f_equal; lia.
  - assert (mp = 11) as -> by lia. calendar.
    assert (E : start yoe + month_start 11 + d - 1 = year_end yoe).
    { change (month_start 11) with 337 in *. change (month_start (11 + 1)) with 367 in *.
      destruct (year_checked yoe Hy) as (_ & _ & _ & H4). lia. }
    unfold year_end in E. destruct (Z.eqb_spec yoe 399) as [->|Hne].
    + exists (era + 1), 0, 0. split; [by split_and!|]. split; [unfold day_of; change (start 0) with 0; change (month_start 0) with 0; lia|].
      unfold date_of. calendar. repeat zcase; f_equal; f_equal; lia.
    + exists era, (yoe + 1), 0. destruct (year_checked (yoe + 1) ltac:(lia)) as (_ & _ & H3 & _).
      split; [split_and!; change (month_start 0) with 0; change (month_start (0 + 1)) with 31; lia|].
      split; [unfold day_of; change (month_start 0) with 0; lia|].
      unfold date_of. calendar. repeat zcase; f_equal; f_equal; lia.
Qed.

Lemma next_day_succ y m d : valid_date y m d ->
  let '(y', m', d') := next_day y m d in
  valid_date y' m' d' /\ days_from_civil y' m' d' = days_from_civil y m d + 1.
Proof.
  intros Hv. destruct (date_decomposed y m d Hv) as (era & yoe & mp & Hc & E).
  pose proof (day_from_civil era yoe mp d Hc) as Hd. rewrite E in Hd. rewrite Hd.
  pose proof Hc as (Hy & Hm & _).
  assert (Hval : forall era' yoe' mp' d', in_calendar yoe' mp' d' ->
    let '(a, b, c) := date_of era' yoe' mp' d' in valid_date a b c /\ days_from_civil a b c = day_of era' yoe' mp' d').
  { intros era' yoe' mp' d' Hc'. pose proof (day_from_civil era' yoe' mp' d' Hc') as G.
    pose proof Hc' as (Hy' & Hm' & _). pose proof (date_of_valid era' yoe' mp' d' Hy' Hm') as V.
    unfold date_of in *. split; [|done]. split; [lia|by apply V]. }
  assert (Edim : in_calendar yoe mp (d + 1) <-> 1 <= d + 1 <= days_in_month y (m - 1)).
  { pose proof (date_of_valid era yoe mp (d + 1) Hy Hm) as G.
    assert (E' : date_of era yoe mp (d + 1) = (y, m, d + 1)) by (unfold date_of in *; congruence).
    rewrite E' in G. by apply G. }
  unfold next_day. destruct Hv as [Hm1 Hd1]. destruct (Z.ltb_spec d (days_in_month y (m - 1))) as [Hlt|Hge].
  - pose proof (Hval era yoe mp (d + 1) ltac:(apply Edim; lia)) as G.
    assert (E' : date_of era yoe mp (d + 1) = (y, m, d + 1)) by (unfold date_of in *; congruence).
    rewrite E' in G. destruct G as [G1 G2]. split; [done|]. rewrite G2. unfold day_of. lia.
  - destruct (month_end era yoe mp d Hc) as (era' & yoe' & mp' & Hc' & Eday & Edate).
    { intros Hn%Edim. lia. }
    rewrite E in Edate. pose proof (Hval era' yoe' mp' 1 Hc') as G. rewrite Edate in G.
    destruct (m <? 12); (destruct G as [G1 G2]; split; [done|]; by rewrite G2).
Qed.

Lemma weekday_correct y m d : 1 <= y -> valid_date y m d ->
  weekday_of y (m - 1) d = (days_from_civil y m d + 4) mod 7.
Proof.
  intros Hy0 Hv. destruct (date_decomposed y m d Hv) as (era & yoe & mp & Hc & E).
  pose proof (day_from_civil era yoe mp d Hc) as Hd. rewrite E in Hd. rewrite Hd. clear Hd.
  destruct Hc as (Hy & Hm & Hd & _ & _). destruct Hv as [Hm1 _].
  unfold weekday_of. rewrite (proj2 (Z.ltb_ge (m - 1) 0)), (proj2 (Z.ltb_ge 11 (m - 1))) by lia. cbn [orb].
  set (y' := yoe + era * 400).
  assert (Ey : (if m - 1 <? 2 then y - 1 else y) = y').
  { unfold date_of in E. simplify_eq. unfold y'. repeat zcase; lia. }
  rewrite Ey. assert (Hy' : 0 <= y') by (rewrite <- Ey; zcase; lia).
  assert (H4 : y' / 4 = yoe / 4 + era * 100) by (unfold y'; dlia).
  assert (H100 : y' / 100 = yoe / 100 + era * 4) by (unfold y'; dlia).
  assert (H400 : y' / 400 = era) by (unfold y'; dlia).
  rewrite !(quot_div y') by lia.
  assert (Ht : 0 <= nth (Z.to_nat (m - 1)) sakamoto 0 /\
    (nth (Z.to_nat (m - 1)) sakamoto 0 - month_start mp - 2) mod 7 = 0).
  { pose proof (months mp Hm) as Hmm. unfold date_of in E. simplify_eq.
    destruct_or! Hmm; subst mp; vm_compute; split; congruence. }
  rewrite Z.rem_mod_nonneg by dlia. rewrite H4, H100, H400. unfold day_of, start.
  destruct Ht as [_ Ht]. unfold y'. dlia.
Qed.

(** ** Seconds *)

(** Years the 32-bit seconds reach. *)
Lemma days_monotone y m d y' m' d' :
  valid_date y m d -> valid_date y' m' d' -> y < y' -> days_from_civil y m d < days_from_civil y' m' d'.
Proof.
  intros (era & yoe & mp & Hc & E)%date_decomposed (era' & yoe' & mp' & Hc' & E')%date_decomposed Hlt.
  pose proof (day_from_civil era yoe mp d Hc) as Hd. rewrite E in Hd. rewrite Hd.
  pose proof (day_from_civil era' yoe' mp' d' Hc') as Hd'. rewrite E' in Hd'. rewrite Hd'.
  destruct Hc as (Hy & Hm & Hd1 & Hl & He), Hc' as (Hy' & Hm' & Hd1' & Hl' & He').
  destruct (year_checked yoe Hy) as (_ & _ & (_ & Hye) & _).
  assert (Hstep : forall a b, 0 <= a < b -> b < 400 -> year_end a < start b).
  { intros a b Hab Hb. unfold year_end. rewrite (proj2 (Z.eqb_neq a 399)) by lia. unfold start. dlia. }
  assert (0 <= start yoe') by (unfold start; dlia).
  assert (0 <= month_start mp') by (unfold month_start; dlia).
  assert (Hpos : forall a, 0 <= a -> 0 <= start a) by (intros; unfold start; dlia).
  unfold date_of in E, E'. simplify_eq. unfold day_of.
  destruct (Z.lt_trichotomy era era') as [|[->|]]; [lia| |exfalso; revert Hlt; repeat zcase; lia].
  destruct (Z.lt_trichotomy yoe yoe') as [Hyy|[->|]]; [pose proof (Hstep yoe yoe' ltac:(lia) ltac:(lia)); lia| |].
  - assert (mp < mp') by (revert Hlt; repeat zcase; lia).
    assert (month_start (mp + 1) <= month_start mp') by (unfold month_start; apply Z.div_le_mono; lia). lia.
  - exfalso. revert Hlt. repeat zcase; lia.
Qed.

Lemma day_range y m d : valid_date y m d -> 1970 <= y <= 2105 -> 0 <= days_from_civil y m d <= 49672.
Proof.
  intros Hv Hy. split.
  - assert (H0 : days_from_civil 1969 12 31 = -1) by done.
    pose proof (days_monotone 1969 12 31 y m d ltac:(by split) Hv ltac:(lia)). lia.
  - assert (H0 : days_from_civil 2106 1 1 = 49673) by done.
    pose proof (days_monotone y m d 2106 1 1 Hv ltac:(by split) ltac:(lia)). lia.
Qed.

Lemma split_seconds days h mi s :
  0 <= h < 24 -> 0 <= mi < 60 -> 0 <= s < 60 ->
  let t := days * 86400 + h * 3600 + mi * 60 + s in
  t / 86400 = days /\ t mod 86400 = h * 3600 + mi * 60 + s /\
  (t mod 86400) mod 60 = s /\ ((t mod 86400) / 60) mod 60 = mi /\ (t mod 86400) / 3600 = h.
Proof.
  intros Hh Hm Hs t.
  assert (E1 : t / 86400 = days) by (symmetry; apply (Z.div_unique _ _ _ (h * 3600 + mi * 60 + s)); unfold t; lia).
  assert (E2 : t mod 86400 = h * 3600 + mi * 60 + s) by (symmetry; apply (Z.mod_unique _ _ days); unfold t; lia).
  rewrite E2. split_and!; try done; dlia.
Qed.

Lemma gmtime_valid secs :
  0 <= secs < 4294967296 ->
  let t := gmtime_r secs in
  tm_valid t = true /\ timegm t = secs /\ tm_wday t = (secs / 86400 + 4) mod 7.
Proof.
  intros Hs. unfold gmtime_r, SECS_PER_DAY. set (dys := secs / 86400). set (r := secs mod 86400).
  assert (Hd : secs = 86400 * dys + r) by (apply Z.div_mod; lia).
  assert (Hr : 0 <= r < 86400) by (apply Z.mod_pos_bound; lia).
  assert (Hdr : 0 <= dys <= 49710) by lia.
  pose proof (civil_of_day dys) as G. destruct (civil_from_days dys) as [[y m] d] eqn:Ec.
  destruct G as [Hv Ed]. pose proof Hv as [Hm Hdim].
  assert (Hy : 1970 <= y).
  { destruct (Z.lt_ge_cases y 1970) as [Hlt|]; [|done]. exfalso.
    pose proof (days_monotone y m d 1970 1 1 Hv ltac:(by split) Hlt).
    assert (days_from_civil 1970 1 1 = 0) by done. lia. }
  unfold tm_valid, timegm, SECS_PER_DAY. cbn [tm_sec tm_min tm_hour tm_mday tm_mon tm_year tm_wday].
  replace (y - 1900 + 1900) with y by lia. replace (m - 1 + 1) with m by lia. rewrite Ed. split_and!.
  - repeat (zcase; cbn [orb]); try done; dlia.
  - assert (0 <= r / 3600 < 24 /\ 0 <= (r / 60) mod 60 < 60 /\ 0 <= r mod 60 < 60) as (B1 & B2 & B3) by dlia.
    rewrite !(u32_small dys), (u32_small (r / 3600)), (u32_small ((r / 60) mod 60)), (u32_small (r mod 60)) by lia.
    assert (Er : r / 3600 * 3600 + (r / 60) mod 60 * 60 + r mod 60 = r) by dlia.
    rewrite u32_small; lia.
  - rewrite weekday_correct by (done || lia). by rewrite Ed.
Qed.

Lemma timegm_inverse t :
  tm_valid t = true -> 70 <= tm_year t <= 205 ->
  gmtime_r (timegm t) = mk_tm (tm_sec t) (tm_min t) (tm_hour t) (tm_mday t) (tm_mon t) (tm_year t)
    (weekday_of (tm_year t + 1900) (tm_mon t) (tm_mday t)).
Proof.
  intros Hv Hy. unfold tm_valid in Hv.
  destruct (_ || _) eqn:E1 in Hv; [done|]. destruct (_ || _) eqn:E2 in Hv; [done|].
  destruct (_ || _) eqn:E3 in Hv; [done|]. destruct (_ || _) eqn:E4 in Hv; [done|]. breflect.
  assert (Hd : valid_date (tm_year t + 1900) (tm_mon t + 1) (tm_mday t)).
  { split; [lia|]. replace (tm_mon t + 1 - 1) with (tm_mon t) by lia. lia. }
  pose proof (day_range _ _ _ Hd ltac:(lia)) as Hr. pose proof (day_of_civil _ _ _ Hd) as Hc.
  unfold timegm, gmtime_r, SECS_PER_DAY. set (dys := days_from_civil _ _ _) in *.
  rewrite (u32_small dys), (u32_small (tm_hour t)), (u32_small (tm_min t)), (u32_small (tm_sec t)) by lia.
  rewrite u32_small by lia.
  destruct (split_seconds dys (tm_hour t) (tm_min t) (tm_sec t) ltac:(lia) ltac:(lia) ltac:(lia))
    as (S1 & S2 & S3 & S4 & S5).
  rewrite S1, Hc. rewrite S3, S4, S5.
  replace (tm_mon t + 1 - 1) with (tm_mon t) by lia. by replace (tm_year t + 1900 - 1900) with (tm_year t) by lia.
Qed.

(** ** The packed forms *)

Lemma fat_fields a b c i j :
  0 <= i -> 0 <= j -> 0 <= c < 2 ^ j -> 0 <= b < 2 ^ i -> 0 <= a ->
  Z.lor (Z.lor (Z.shiftl a (i + j)) (Z.shiftl b j)) c = a * 2 ^ (i + j) + b * 2 ^ j + c.
Proof.
  intros Hi Hj Hc Hb Ha. rewrite !Z.shiftl_mul_pow2 by lia.
  assert (Hlor : forall x y k, 0 <= k -> 0 <= y < 2 ^ k -> Z.lor (x * 2 ^ k) y = x * 2 ^ k + y).
  { intros x y k Hk Hy. destruct (Z.eq_dec y 0) as [->|Hy0]; [rewrite Z.lor_0_r; lia|].
    rewrite <- Z.lxor_lor, <- Z.add_nocarry_lxor; [done|..].
    all: apply Z.bits_inj'; intros n Hn; rewrite Z.land_spec, Z.bits_0, Z.mul_pow2_bits by lia.
    all: destruct (Z.lt_ge_cases n k); [rewrite Z.testbit_neg_r by lia; done|].
    all: rewrite (Z.bits_above_log2 y n); [apply andb_false_r|lia|].
    all: apply Z.log2_lt_pow2; [lia|].
    all: apply Z.lt_le_trans with (2 ^ k); [lia|apply Z.pow_le_mono_r; lia]. }
  rewrite Z.pow_add_r, Z.mul_assoc by lia.
  pose proof (Z.pow_pos_nonneg 2 i). pose proof (Z.pow_pos_nonneg 2 j).
  assert (Eab : Z.lor (a * 2 ^ i * 2 ^ j) (b * 2 ^ j) = (a * 2 ^ i + b) * 2 ^ j).
  { rewrite <- !Z.shiftl_mul_pow2, <- Z.shiftl_lor, !Z.shiftl_mul_pow2 by lia. by rewrite Hlor. }
  rewrite Eab, Hlor by lia. lia.
Qed.

Lemma fat_roundtrip_date t :
  tm_valid t = true -> 80 <= tm_year t <= 207 ->
  tm_to_fat_date t = (tm_year t - 80) * 512 + (tm_mon t + 1) * 32 + tm_mday t.
Proof.
  intros Hv Hy. unfold tm_valid in Hv.
  destruct (_ || _) eqn:E1 in Hv; [done|]. destruct (_ || _) eqn:E2 in Hv; [done|]. clear Hv. breflect.
  assert (Hdim : days_in_month (tm_year t + 1900) (tm_mon t) <= 31).
  { unfold days_in_month. pose proof (months (tm_mon t) ltac:(lia)) as Hc.
    destruct_or! Hc; rewrite Hc; calendar; try lia. destruct (is_leap _); lia. }
  unfold tm_to_fat_date. rewrite (proj2 (Z.ltb_ge _ _)), (proj2 (Z.ltb_ge 2107 _)) by lia. cbn [orb].
  pose proof (fat_fields (tm_year t + 1900 - 1980) (tm_mon t + 1) (tm_mday t) 4 5) as F.
  change (4 + 5) with 9 in F. rewrite F by (change (2 ^ 4) with 16; change (2 ^ 5) with 32; lia).
  change (2 ^ 9) with 512. change (2 ^ 5) with 32. unfold u16. rewrite Z.mod_small by lia. lia.
Qed.

Lemma fat_roundtrip_time t :
  tm_valid t = true -> tm_to_fat_time t = tm_hour t * 2048 + tm_min t * 32 + tm_sec t / 2.
Proof.
  intros Hv. unfold tm_valid in Hv.
  destruct (_ || _) eqn:E1 in Hv; [done|]. destruct (_ || _) eqn:E2 in Hv; [done|].
  destruct (_ || _) eqn:E3 in Hv; [done|]. destruct (_ || _) eqn:E4 in Hv; [done|]. breflect.
  unfold tm_to_fat_time. rewrite quot_div by lia.
  assert (0 <= tm_sec t / 2 < 30) by dlia.
  pose proof (fat_fields (tm_hour t) (tm_min t) (tm_sec t / 2) 6 5) as F.
  change (6 + 5) with 11 in F. rewrite F by (change (2 ^ 6) with 64; change (2 ^ 5) with 32; lia).
  change (2 ^ 11) with 2048. change (2 ^ 5) with 32. unfold u16. by rewrite Z.mod_small by lia.
Qed.

Lemma fat_back t :
  tm_valid t = true -> 80 <= tm_year t <= 207 ->
  fat_to_tm (tm_to_fat_date t) (tm_to_fat_time t) =
    mk_tm (tm_sec t / 2 * 2) (tm_min t) (tm_hour t) (tm_mday t) (tm_mon t) (tm_year t)
      (weekday_of (tm_year t + 1900) (tm_mon t) (tm_mday t)).
Proof.
  intros Hv Hy. unfold fat_to_tm. rewrite fat_roundtrip_date, fat_roundtrip_time by done.
  unfold tm_valid in Hv.
  destruct (_ || _) eqn:E1 in Hv; [done|]. destruct (_ || _) eqn:E2 in Hv; [done|].
  destruct (_ || _) eqn:E3 in Hv; [done|]. destruct (_ || _) eqn:E4 in Hv; [done|]. breflect.
  assert (Hdim : days_in_month (tm_year t + 1900) (tm_mon t) <= 31).
  { unfold days_in_month. pose proof (months (tm_mon t) ltac:(lia)) as Hc.
    destruct_or! Hc; rewrite Hc; calendar; try lia. destruct (is_leap _); lia. }
  change 127 with (Z.ones 7). change 15 with (Z.ones 4). change 31 with (Z.ones 5). change 63 with (Z.ones 6).
  rewrite !Z.land_ones, !Z.shiftr_div_pow2 by lia.
  change (2 ^ 9) with 512. change (2 ^ 7) with 128. change (2 ^ 5) with 32. change (2 ^ 4) with 16.
  change (2 ^ 6) with 64. change (2 ^ 11) with 2048.
  assert (Ey : ((tm_year t - 80) * 512 + (tm_mon t + 1) * 32 + tm_mday t) / 512 mod 128 = tm_year t - 80) by dlia.
  assert (Em : ((tm_year t - 80) * 512 + (tm_mon t + 1) * 32 + tm_mday t) / 32 mod 16 = tm_mon t + 1) by dlia.
  assert (Ed : ((tm_year t - 80) * 512 + (tm_mon t + 1) * 32 + tm_mday t) mod 32 = tm_mday t) by dlia.
  assert (Hs2 : 0 <= tm_sec t / 2 < 30) by dlia. set (s2 := tm_sec t / 2) in *. clearbody s2.
  assert (Eh : (tm_hour t * 2048 + tm_min t * 32 + s2) / 2048 mod 32 = tm_hour t) by dlia.
  assert (Ei : (tm_hour t * 2048 + tm_min t * 32 + s2) / 32 mod 64 = tm_min t) by dlia.
  assert (Es : (tm_hour t * 2048 + tm_min t * 32 + s2) mod 32 = s2) by dlia.
  rewrite Ey, Em, Ed, Eh, Ei, Es. replace (tm_mon t + 1 - 1) with (tm_mon t) by lia.
  by replace (1980 + (tm_year t - 80) - 1900) with (tm_year t) by lia.
Qed.

(** ** Properties *)

(** The two conversions between day numbers and dates are inverse to each
    other on the valid dates of the Gregorian calendar, they put day 0 on 1
    January 1970, and the day after a date, by the lengths of the months, has
    the next day number: the loop-free arithmetic counts days. *)
Theorem civil_days_counted :
  (forall z, let '(y, m, d) := civil_from_days z in valid_date y m d /\ days_from_civil y m d = z) /\
  (forall y m d, valid_date y m d -> civil_from_days (days_from_civil y m d) = (y, m, d)) /\
  days_from_civil 1970 1 1 = 0 /\
  (forall y m d, valid_date y m d ->
    let '(y', m', d') := next_day y m d in
    valid_date y' m' d' /\ days_from_civil y' m' d' = days_from_civil y m d + 1).
Proof.
  split_and!; [apply civil_of_day|apply day_of_civil|done|apply next_day_succ].
Qed.

(** Sakamoto's day of the week is the day number's, Thursday being day 0,
    for every valid date from the year 1 on. *)
Theorem weekday_of_days y m d :
  1 <= y -> valid_date y m d -> weekday_of y (m - 1) d = (days_from_civil y m d + 4) mod 7.
Proof. apply weekday_correct. Qed.

(** C25: every 32-bit time gives a broken-down time that [tm_valid] accepts,
    with its day of the week, and [timegm] gives the time back; and of every
    valid broken-down time from 1970 to 2105 [gmtime_r] gives the fields
    back. *)
Theorem gmtime_timegm_roundtrip :
  (forall secs, 0 <= secs < 4294967296 ->
    tm_valid (gmtime_r secs) = true /\ timegm (gmtime_r secs) = secs /\
    tm_wday (gmtime_r secs) = (secs / 86400 + 4) mod 7) /\
  (forall t, tm_valid t = true -> 70 <= tm_year t <= 205 ->
    gmtime_r (timegm t) = mk_tm (tm_sec t) (tm_min t) (tm_hour t) (tm_mday t) (tm_mon t) (tm_year t)
      (weekday_of (tm_year t + 1900) (tm_mon t) (tm_mday t))).
Proof. split; [apply gmtime_valid|apply timegm_inverse]. Qed.

(** The MS-DOS date and time of a valid time from 1980 to 2107 unpack to
    the same time, but for an odd second, which becomes the even one before
    it; of any other year the date packs to 0. *)
Theorem fat_time_roundtrip t :
  tm_valid t = true ->
  (80 <= tm_year t <= 207 ->
   fat_to_tm (tm_to_fat_date t) (tm_to_fat_time t) =
     mk_tm (tm_sec t / 2 * 2) (tm_min t) (tm_hour t) (tm_mday t) (tm_mon t) (tm_year t)
       (weekday_of (tm_year t + 1900) (tm_mon t) (tm_mday t))) /\
  (tm_year t < 80 \/ 207 < tm_year t -> tm_to_fat_date t = 0).
Proof.
  intros Hv. split; [by apply fat_back|]. intros Hy. unfold tm_to_fat_date.
  destruct Hy; [rewrite (proj2 (Z.ltb_lt _ _)) by lia; done|].
  by rewrite (proj2 (Z.ltb_lt 2107 _)), orb_true_r by lia.
Qed.

Lemma civil_days_counted_witness :
  civil_from_days (days_from_civil 2000 2 29) = (2000, 2, 29) /\ next_day 1900 2 28 = (1900, 3, 1).
Proof.
  split; [|reflexivity]. destruct civil_days_counted as (_ & H & _). apply H. split; [lia|]. cbv; split; discriminate.
Defined.
Lemma weekday_of_days_witness : weekday_of 2026 (8 - 1) 1 = 6.
Proof.
  rewrite (weekday_of_days 2026 8 1); [reflexivity|lia|]. split; [lia|]. cbv; split; discriminate.
Defined.
Lemma gmtime_timegm_roundtrip_witness : timegm (gmtime_r 4294967295) = 4294967295.
Proof. destruct gmtime_timegm_roundtrip as [H _]. apply (H 4294967295). lia. Defined.
Lemma fat_time_roundtrip_witness :
  tm_sec (fat_to_tm (tm_to_fat_date (mk_tm 59 30 12 29 1 100 0)) (tm_to_fat_time (mk_tm 59 30 12 29 1 100 0))) = 58.
Proof.
  destruct (fat_time_roundtrip (mk_tm 59 30 12 29 1 100 0) eq_refl) as [H _]. rewrite H; [reflexivity|]. cbn. lia.
Defined.

End TIME.
