(* ===== verification/Route.v ===== *)
(** * The IPv4 routing table (kernel/net/route.c)

    Sixteen entries walked linearly. The table is a finite map from a network
    and its mask to a route, and the lookup the longest prefix of it. *)

From stdpp Require Import gmap strings.
From S2P Require Import Prelude.
Local Open Scope Z_scope.

Module ROUTE.

(** ** The code *)

Definition ROUTE_MAX : nat := 16.
Definition RTF_UP : Z := 1.
Definition RTF_GATEWAY : Z := 2.
Definition RTF_HOST : Z := 4.
Definition RTF_STATIC : Z := 8.

Record route := mk_route {
  dest : Z;
  mask : Z;
  gateway : Z;
  metric : Z;
  flags : Z;
  lo : Z;
  used : Z;
}.
Definition no_route : route := mk_route 0 0 0 0 0 0 0.
Definition is_used (r : route) : bool := negb (used r =? 0).

Fixpoint prefix_loop (fuel : nat) (m n : Z) : Z :=
  match fuel with
  | O => n
  | S fuel' => if m =? 0 then n else prefix_loop fuel' (Z.shiftr m 1) (n + Z.land m 1)
  end.
Definition prefix_len (m : Z) : Z := prefix_loop 32 m 0.

Definition find (table : list route) (d m : Z) : option nat :=
  find_idx (fun r => is_used r && (dest r =? d) && (mask r =? m)) table.
Definition free_slot (table : list route) : option nat := find_idx (fun r => negb (is_used r)) table.

Definition add (table : list route) (d m gw mt fl l : Z) : Z * list route :=
  let d := Z.land d m in
  match find table d m with
  | Some _ => (- EEXIST, table)
  | None =>
      match free_slot table with
      | None => (- ENOSPC, table)
      | Some i =>
          let fl := Z.lor fl RTF_UP in
          let fl := if gw =? 0 then fl else Z.lor fl RTF_GATEWAY in
          let fl := if m =? 4294967295 then Z.lor fl RTF_HOST else fl in
          (0, <[i := mk_route d m gw mt fl (u8 l) 1]> table)
      end
  end.

Definition IP4 (a b c d : Z) : Z :=
  Z.lor (Z.lor (Z.lor (Z.shiftl a 24) (Z.shiftl b 16)) (Z.shiftl c 8)) d.

Definition route_init : list route :=
  snd (add (replicate ROUTE_MAX no_route) (IP4 127 0 0 0) (IP4 255 0 0 0) 0 0 RTF_UP 1).

(** The walk of [route_lookup]: the best entry so far and its length. *)
Fixpoint best_of (dst : Z) (table : list route) (best : option route) (best_len : Z) : option route :=
  match table with
  | [] => best
  | r :: table' =>
      if negb (is_used r) || negb (has (flags r) RTF_UP) then best_of dst table' best best_len
      else if negb (Z.land dst (mask r) =? dest r) then best_of dst table' best best_len
      else
        let len := prefix_len (mask r) in
        if (best_len <? len) ||
           ((len =? best_len) && match best with Some b => metric r <? metric b | None => false end)
        then best_of dst table' (Some r) len
        else best_of dst table' best best_len
  end.

(** The result, the next hop and whether it is over loopback. *)
Definition route_lookup (table : list route) (dst : Z) : Z * option (Z * Z) :=
  match best_of dst table None (-1) with
  | None => (- ENETUNREACH, None)
  | Some b => (0, Some (gateway b, lo b))
  end.

Definition own_route (r : route) : bool := is_used r && (lo r =? 0) && negb (has (flags r) RTF_STATIC).

Definition route_iface_update (table : list route) (ip m gw : Z) : list route :=
  let table := (fun r => if own_route r then no_route else r) <$> table in
  let table := if negb (ip =? 0) && negb (m =? 0)
               then snd (add table (Z.land ip m) m 0 0 RTF_UP 0) else table in
  if gw =? 0 then table else snd (add table 0 0 gw 0 RTF_UP 0).

Definition route_add (table : list route) (d m gw mt fl : Z) : Z * list route :=
  add table d m gw mt (Z.lor fl RTF_STATIC) 0.

Definition route_del (table : list route) (d m : Z) : Z * list route :=
  match find table (Z.land d m) m with
  | None => (- ESRCH, table)
  | Some i => (0, <[i := no_route]> table)
  end.

Record routeinfo := mk_info {
  ri_dest : Z; ri_mask : Z; ri_gateway : Z; ri_metric : Z; ri_flags : Z; ri_iface : string
}.

Fixpoint get_loop (table : list route) (index seen : Z) : option routeinfo :=
  match table with
  | [] => None
  | r :: table' =>
      if negb (is_used r) then get_loop table' index seen
      else if negb (seen =? index) then get_loop table' index (seen + 1)
      else Some (mk_info (dest r) (mask r) (gateway r) (metric r) (flags r)
                   (if lo r =? 0 then "eth0"%string else "lo"%string))
  end.
Definition route_get (table : list route) (index : Z) : Z * option routeinfo :=
  match get_loop table index 0 with
  | Some i => (0, Some i)
  | None => (- ENOENT, None)
  end.

(** ** The table as a map *)

Definition key (r : route) : Z * Z := (dest r, mask r).
Definition info (r : route) : Z * Z * Z * Z := (gateway r, metric r, flags r, lo r).
Definition abs (table : list route) : gmap (Z * Z) (Z * Z * Z * Z) :=
  list_to_map ((fun r => (key r, info r)) <$> List.filter is_used table).

Record table_ok (table : list route) : Prop := {
  t_len : length table = ROUTE_MAX;
  t_masked : forall i r, table !! i = Some r -> is_used r = true ->
    Z.land (dest r) (mask r) = dest r /\ has (flags r) RTF_UP = true;
  t_once : forall i j p q, table !! i = Some p -> table !! j = Some q ->
    is_used p = true -> is_used q = true -> key p = key q -> i = j;
}.

Lemma used_nodup table :
  (forall i j p q, table !! i = Some p -> table !! j = Some q ->
    is_used p = true -> is_used q = true -> key p = key q -> i = j) ->
  NoDup (key <$> List.filter is_used table).
Proof.
  induction table as [|r table IH]; intros Ho; [constructor|]. cbn [List.filter].
  assert (IH' : NoDup (key <$> List.filter is_used table)).
  { apply IH. intros i j p q Hp Hq Up Uq E. by injection (Ho (S i) (S j) p q Hp Hq Up Uq E). }
  destruct (is_used r) eqn:Eu; [|done]. cbn. constructor; [|done].
  intros (q & Eq & Hin)%list_elem_of_fmap. apply list_elem_of_In, filter_In in Hin as [Hin Uq].
  apply list_elem_of_In, list_elem_of_lookup_1 in Hin as (j & Hj).
  specialize (Ho O (S j) r q eq_refl Hj Eu Uq Eq). done.
Qed.

(** What is in the map is what is in use in the table. *)
Lemma map_lookup table k v :
  table_ok table ->
  abs table !! k = Some v <-> exists i r, table !! i = Some r /\ is_used r = true /\ key r = k /\ info r = v.
Proof.
  intros [_ _ Ho]. unfold abs. rewrite <- elem_of_list_to_map.
  2:{ rewrite <- list_fmap_compose. by apply used_nodup. }
  rewrite list_elem_of_fmap. split.
  - intros (r & E & Hin). simplify_eq. apply list_elem_of_In, filter_In in Hin as [Hin Hu].
    apply list_elem_of_In, list_elem_of_lookup_1 in Hin as (i & Hi). by exists i, r.
  - intros (i & r & Hi & Hu & <- & <-). exists r. split; [done|].
    apply list_elem_of_In, filter_In. split; [|done]. apply list_elem_of_In. by eapply list_elem_of_lookup_2.
Qed.

Lemma abs_size table : table_ok table -> size (abs table) = count_if is_used table.
Proof.
  intros Hok. unfold abs. rewrite map_size_list_to_map.
  - by rewrite length_fmap.
  - rewrite <- list_fmap_compose. apply used_nodup. apply Hok.
Qed.

Lemma find_abs table d m : table_ok table -> (find table d m = None <-> abs table !! (d, m) = None).
Proof.
  intros Hok. unfold find. rewrite find_idx_None, eq_None_not_Some. split.
  - intros Hn [v (i & r & Hi & Hu & Ek & _)%map_lookup]; [|done]. specialize (Hn i r Hi). unfold key in Ek. simplify_eq.
    by rewrite Hu, !Z.eqb_refl in Hn.
  - intros Hn i r Hi. apply not_true_is_false. intros E. breflect. apply Hn. eexists.
    apply map_lookup; [done|]. exists i, r. unfold key. split_and!; [done|done|congruence|done].
Qed.

Lemma find_Some_key table d m i :
  find table d m = Some i -> exists r, table !! i = Some r /\ is_used r = true /\ key r = (d, m).
Proof.
  intros ((r & Hi & E) & _)%find_idx_Some. breflect. exists r. unfold key. split_and!; congruence.
Qed.

(** A free entry taken, an entry cleared. *)
Lemma set_used table i r0 r :
  table_ok table -> table !! i = Some r0 -> is_used r0 = false -> is_used r = true ->
  Z.land (dest r) (mask r) = dest r -> has (flags r) RTF_UP = true -> abs table !! key r = None ->
  table_ok (<[i := r]> table) /\ abs (<[i := r]> table) = <[key r := info r]> (abs table).
Proof.
  intros Hok Hi Hu0 Hu Hd Hf Hn.
  assert (Hne : forall j q, table !! j = Some q -> is_used q = true -> key q <> key r).
  { intros j q Hj Hq E. rewrite <- E in Hn. apply eq_None_not_Some in Hn. apply Hn. eexists.
    apply map_lookup; [done|]. by exists j, q. }
  assert (Hok' : table_ok (<[i := r]> table)).
  { destruct Hok as [H1 H2 H3]. constructor.
    - by rewrite length_insert.
    - intros j q Hj. apply list_lookup_insert_Some in Hj as [(<- & <- & _)|[_ Hj]]; [done|by eapply H2].
    - intros j k p q Hj Hk Up Uq E.
      apply list_lookup_insert_Some in Hj as [(<- & <- & _)|[Hj1 Hj]];
        apply list_lookup_insert_Some in Hk as [(<- & <- & _)|[Hk1 Hk]]; try done.
      + by destruct (Hne k q Hk Uq).
      + by destruct (Hne j p Hj Up).
      + by eapply H3. }
  split; [done|]. apply map_eq. intros k. apply option_eq. intros v. rewrite (map_lookup _ k v Hok').
  rewrite lookup_insert_Some, (map_lookup _ k v Hok). split.
  - intros (j & q & Hj & Uq & <- & <-). apply list_lookup_insert_Some in Hj as [(<- & <- & _)|[_ Hj]]; [by left|].
    right. split; [by apply not_eq_sym, (Hne j)|]. by exists j, q.
  - intros [[<- <-]|[_ (j & q & Hj & Uq & Ek & Ev)]].
    + exists i, r. split_and!; try done. apply list_lookup_insert_eq. by eapply lookup_lt_Some.
    + exists j, q. split_and!; try done. rewrite list_lookup_insert_ne; [done|]. intros ->. congruence.
Qed.

Lemma set_unused table i r0 :
  table_ok table -> table !! i = Some r0 -> is_used r0 = true ->
  table_ok (<[i := no_route]> table) /\ abs (<[i := no_route]> table) = delete (key r0) (abs table).
Proof.
  intros Hok Hi Hu.
  assert (Hok' : table_ok (<[i := no_route]> table)).
  { destruct Hok as [H1 H2 H3]. constructor.
    - by rewrite length_insert.
    - intros j q Hj. apply list_lookup_insert_Some in Hj as [(<- & <- & _)|[_ Hj]]; [done|by eapply H2].
    - intros j k p q Hj Hk Up Uq E.
      apply list_lookup_insert_Some in Hj as [(<- & <- & _)|[Hj1 Hj]]; [done|].
      apply list_lookup_insert_Some in Hk as [(<- & <- & _)|[Hk1 Hk]]; [done|]. by eapply H3. }
  split; [done|]. apply map_eq. intros k. apply option_eq. intros v. rewrite (map_lookup _ k v Hok').
  rewrite lookup_delete_Some, (map_lookup _ k v Hok). split.
  - intros (j & q & Hj & Uq & <- & <-). apply list_lookup_insert_Some in Hj as [(<- & <- & _)|[Hne Hj]]; [done|].
    split; [|by exists j, q]. intros E. apply Hne. by apply (t_once _ Hok i j r0 q).
  - intros [Hk (j & q & Hj & Uq & Ek & Ev)]. exists j, q. split_and!; try done.
    rewrite list_lookup_insert_ne; [done|]. intros ->. simplify_eq.
Qed.

(** ** The operations on the map *)

Definition flags_of (fl gw m : Z) : Z :=
  let fl := Z.lor fl RTF_UP in
  let fl := if gw =? 0 then fl else Z.lor fl RTF_GATEWAY in
  if m =? 4294967295 then Z.lor fl RTF_HOST else fl.

Definition spec_add (M : gmap (Z * Z) (Z * Z * Z * Z)) (d m gw mt fl l : Z) :=
  match M !! (Z.land d m, m) with
  | Some _ => (- EEXIST, M)
  | None =>
      if bool_decide (ROUTE_MAX <= size M)%nat then (- ENOSPC, M)
      else (0, <[(Z.land d m, m) := (gw, mt, flags_of fl gw m, u8 l)]> M)
  end.

Definition spec_del (M : gmap (Z * Z) (Z * Z * Z * Z)) (d m : Z) :=
  match M !! (Z.land d m, m) with
  | None => (- ESRCH, M)
  | Some _ => (0, delete (Z.land d m, m) M)
  end.

(** The routes an address change leaves. *)
Definition stays (i : Z * Z * Z * Z) : Prop :=
  let '(_, _, fl, l) := i in l <> 0 \/ has fl RTF_STATIC = true.
#[export] Instance stays_dec i : Decision (stays i).
Proof. destruct i as [[[gw mt] fl] l]. unfold stays. apply _. Defined.

Definition spec_update (M : gmap (Z * Z) (Z * Z * Z * Z)) (ip m gw : Z) :=
  let M := filter (fun kv => stays kv.2) M in
  let M := if negb (ip =? 0) && negb (m =? 0) then snd (spec_add M (Z.land ip m) m 0 0 RTF_UP 0) else M in
  if gw =? 0 then M else snd (spec_add M 0 0 gw 0 RTF_UP 0).

Lemma has_lor a b m : has a m = true -> has (Z.lor a b) m = true.
Proof.
  unfold has. rewrite !negb_true_iff, !Z.eqb_neq. intros Ha E. apply Ha. apply Z.bits_inj'. intros n Hn.
  assert (En : Z.testbit (Z.land (Z.lor a b) m) n = false) by (by rewrite E, Z.bits_0).
  rewrite Z.land_spec, Z.lor_spec in En. rewrite Z.land_spec, Z.bits_0.
  by destruct (Z.testbit a n), (Z.testbit m n).
Qed.

Lemma flags_up fl gw m : has (flags_of fl gw m) RTF_UP = true.
Proof.
  assert (H0 : has (Z.lor fl RTF_UP) RTF_UP = true).
  { rewrite Z.lor_comm. by apply has_lor. }
  unfold flags_of. destruct (gw =? 0), (m =? 4294967295);
    [apply has_lor, H0|exact H0|apply has_lor, has_lor, H0|apply has_lor, H0].
Qed.

Lemma free_slot_full table : table_ok table -> (free_slot table = None <-> (ROUTE_MAX <= size (abs table))%nat).
Proof.
  intros Hok. rewrite abs_size by done. rewrite <- (t_len _ Hok). unfold free_slot. rewrite find_idx_None.
  clear Hok. induction table as [|r table IH]; [split; [cbn; lia|intros _ j q Hj; by rewrite lookup_nil in Hj]|].
  rewrite count_if_cons. cbn [length].
  assert (Hle : (count_if is_used table <= length table)%nat).
  { unfold count_if. clear. induction table as [|q t IHt]; cbn; [lia|]. destruct (is_used q); cbn; lia. }
  split.
  - intros Hn. pose proof (Hn O r eq_refl) as Hr. apply negb_false_iff in Hr. rewrite Hr.
    assert (length table <= count_if is_used table)%nat; [|lia]. apply IH. intros j q Hj. by apply (Hn (S j)).
  - intros Hc. destruct (is_used r) eqn:Er; [|lia]. intros [|j] q Hj; [by simplify_eq/=; rewrite Er|].
    apply (proj2 IH ltac:(lia) j q Hj).
Qed.

Lemma add_refines table d m gw mt fl l :
  table_ok table ->
  table_ok (snd (add table d m gw mt fl l)) /\
  spec_add (abs table) d m gw mt fl l = (fst (add table d m gw mt fl l), abs (snd (add table d m gw mt fl l))).
Proof.
  intros Hok. unfold add, spec_add. destruct (find table (Z.land d m) m) as [i|] eqn:Ef.
  { destruct (abs table !! (Z.land d m, m)) eqn:E; [done|]. apply find_abs in E; [congruence|done]. }
  apply find_abs in Ef as Ea; [|done]. rewrite Ea.
  destruct (free_slot table) as [i|] eqn:Es.
  - rewrite bool_decide_false; [|rewrite <- free_slot_full by done; congruence].
    apply find_idx_Some in Es as ((r0 & Hi & Hu%negb_true_iff) & _). cbn [fst snd].
    fold (flags_of fl gw m).
    destruct (set_used table i r0 (mk_route (Z.land d m) m gw mt (flags_of fl gw m) (u8 l) 1) Hok Hi Hu) as [G1 G2].
    + done.
    + cbn. by rewrite <- Z.land_assoc, Z.land_diag.
    + apply flags_up.
    + exact Ea.
    + split; [done|]. by rewrite G2.
  - rewrite bool_decide_true; [done|]. by apply free_slot_full.
Qed.

Lemma del_refines table d m :
  table_ok table ->
  table_ok (snd (route_del table d m)) /\
  spec_del (abs table) d m = (fst (route_del table d m), abs (snd (route_del table d m))).
Proof.
  intros Hok. unfold route_del, spec_del. destruct (find table (Z.land d m) m) as [i|] eqn:Ef.
  - destruct (find_Some_key _ _ _ _ Ef) as (r & Hi & Hu & Ek).
    destruct (set_unused table i r Hok Hi Hu) as [G1 G2].
    assert (E : abs table !! (Z.land d m, m) = Some (info r)) by (apply map_lookup; [done|]; by exists i, r).
    rewrite E. cbn [fst snd]. split; [done|]. by rewrite G2, Ek.
  - apply find_abs in Ef as ->; done.
Qed.

Lemma clear_own_refines table :
  table_ok table ->
  let table' := (fun r => if own_route r then no_route else r) <$> table in
  table_ok table' /\ abs table' = filter (fun kv => stays kv.2) (abs table).
Proof.
  intros Hok table'.
  assert (Hl : forall i r, table' !! i = Some r -> is_used r = true <->
    table !! i = Some r /\ is_used r = true /\ own_route r = false).
  { intros i r. unfold table'. rewrite list_lookup_fmap. destruct (table !! i) as [q|] eqn:Hi; [|done].
    cbn. intros [= <-]. destruct (own_route q) eqn:Eo; [|by split; [intros|intros (_ & ? & _)]].
    split; [done|]. intros (E & Hu & Ho). by simplify_eq. }
  assert (Hok' : table_ok table').
  { destruct Hok as [H1 H2 H3]. constructor.
    - unfold table'. by rewrite length_fmap.
    - intros i r Hi Hu. apply (Hl i r Hi) in Hu as (Hi' & Hu & _). by eapply H2.
    - intros i j p q Hi Hj Up Uq. apply (Hl i p Hi) in Up as (Hi' & Up & _).
      apply (Hl j q Hj) in Uq as (Hj' & Uq & _). by eapply H3. }
  split; [done|]. apply map_eq. intros k. apply option_eq. intros v. rewrite (map_lookup _ k v Hok').
  rewrite map_lookup_filter_Some, (map_lookup _ k v Hok). split.
  - intros (i & r & Hi & Hu & <- & <-). pose proof Hu as (Hi' & _ & Ho)%(Hl i r Hi). split; [by exists i, r|].
    unfold own_route in Ho. rewrite Hu in Ho. cbn in *.
    destruct (Z.eqb_spec (lo r) 0); [right|by left]. cbn in Ho. by apply negb_false_iff.
  - intros [(i & r & Hi & Hu & <- & <-) Hs]. exists i, r. split_and!; try done.
    unfold table'. rewrite list_lookup_fmap, Hi. cbn. unfold own_route. rewrite Hu. cbn in *.
    destruct Hs as [Hs|Hs]; [by rewrite (proj2 (Z.eqb_neq _ _) Hs)|by rewrite Hs, andb_false_r].
Qed.

Lemma update_refines table ip m gw :
  table_ok table ->
  table_ok (route_iface_update table ip m gw) /\
  abs (route_iface_update table ip m gw) = spec_update (abs table) ip m gw.
Proof.
  intros Hok. destruct (clear_own_refines table Hok) as [Hok1 E1]. unfold route_iface_update, spec_update.
  set (t1 := _ <$> table) in *. rewrite <- E1.
  set (t2 := if negb (ip =? 0) && negb (m =? 0) then _ else t1).
  assert (H2 : table_ok t2 /\ abs t2 =
    if negb (ip =? 0) && negb (m =? 0) then snd (spec_add (abs t1) (Z.land ip m) m 0 0 RTF_UP 0) else abs t1).
  { unfold t2. destruct (negb (ip =? 0) && negb (m =? 0)); [|done].
    destruct (add_refines t1 (Z.land ip m) m 0 0 RTF_UP 0 Hok1) as [G1 G2]. split; [done|]. by rewrite G2. }
  destruct H2 as [Hok2 E2]. rewrite <- E2. destruct (gw =? 0); [done|].
  destruct (add_refines t2 0 0 gw 0 RTF_UP 0 Hok2) as [G1 G2]. split; [done|]. by rewrite G2.
Qed.

(** ** The lookup *)

Definition matches (dst : Z) (r : route) : bool :=
  is_used r && has (flags r) RTF_UP && (Z.land dst (mask r) =? dest r).
(** Entry [r] is at least as good as [q]. *)
Definition at_least (r q : route) : Prop :=
  prefix_len (mask q) < prefix_len (mask r) \/
  prefix_len (mask q) = prefix_len (mask r) /\ metric r <= metric q.

Definition best_inv (best : option route) (len : Z) : Prop :=
  match best with None => len = -1 | Some b => len = prefix_len (mask b) end.

Lemma prefix_loop_nonneg f m n : 0 <= n -> 0 <= prefix_loop f m n.
Proof.
  revert m n. induction f as [|f IH]; intros m n Hn; cbn; [done|]. destruct (m =? 0); [done|].
  apply IH. pose proof (Z.land_nonneg m 1). lia.
Qed.

Lemma at_least_trans p q r : at_least p q -> at_least q r -> at_least p r.
Proof. unfold at_least. lia. Qed.

Lemma best_of_spec dst table best len :
  best_inv best len ->
  match best_of dst table best len with
  | None => best = None /\ forall r, r ∈ table -> matches dst r = false
  | Some b => (Some b = best \/ b ∈ table /\ matches dst b = true) /\
      (forall r, r ∈ table -> matches dst r = true -> at_least b r) /\
      (forall q, best = Some q -> at_least b q)
  end.
Proof.
  revert best len. induction table as [|r table IH]; intros best len Hb; cbn [best_of].
  { destruct best as [b|]; [|split; [done|intros r Hr; by apply not_elem_of_nil in Hr]].
    split_and!; [by left|intros r Hr; by apply not_elem_of_nil in Hr|]. intros q [= <-]. unfold at_least. lia. }
  assert (Hskip : matches dst r = false \/ (exists b, best = Some b /\ at_least b r) ->
    match best_of dst table best len with
    | None => best = None /\ forall q, q ∈ r :: table -> matches dst q = false
    | Some b => (Some b = best \/ b ∈ r :: table /\ matches dst b = true) /\
        (forall q, q ∈ r :: table -> matches dst q = true -> at_least b q) /\
        (forall q, best = Some q -> at_least b q)
    end).
  { intros Hr. specialize (IH best len Hb). destruct (best_of dst table best len) as [b|].
    - destruct IH as (H1 & H2 & H3). split_and!; [|..|done].
      + destruct H1 as [?|[? ?]]; [by left|right]. split; [by right|done].
      + intros q [->|Hq]%elem_of_cons Hm; [|by apply H2]. destruct Hr as [Hr|(b' & Eb & Hb')]; [congruence|].
        eapply at_least_trans; [|exact Hb']. by apply H3.
    - destruct IH as [-> H2]. split; [done|]. intros q [->|Hq]%elem_of_cons; [|by apply H2].
      by destruct Hr as [?|(b' & ? & _)]. }
  destruct (negb (is_used r) || negb (has (flags r) RTF_UP)) eqn:E1.
  { apply Hskip. left. unfold matches. apply orb_true_iff in E1 as [->%negb_true_iff| ->%negb_true_iff]; [done|].
    by rewrite andb_false_r. }
  apply orb_false_iff in E1 as [Hu%negb_false_iff Hf%negb_false_iff].
  destruct (Z.eqb_spec (Z.land dst (mask r)) (dest r)) as [Em|Em]; cbn [negb].
  2:{ apply Hskip. left. unfold matches. by rewrite (proj2 (Z.eqb_neq _ _) Em), andb_false_r. }
  assert (Hm : matches dst r = true) by (unfold matches; by rewrite Hu, Hf, Em, Z.eqb_refl).
  pose proof (prefix_loop_nonneg 32 (mask r) 0 ltac:(lia)) as Hnn. fold (prefix_len (mask r)) in Hnn.
  destruct ((len <? prefix_len (mask r)) || _) eqn:E2.
  - specialize (IH (Some r) (prefix_len (mask r)) eq_refl).
    destruct (best_of dst table (Some r) _) as [b|]; [|by destruct IH].
    destruct IH as (H1 & H2 & H3). split_and!.
    + right. destruct H1 as [[= ->]|[? ?]]; [by split; [left|]|]. split; [by right|done].
    + intros q [->|Hq]%elem_of_cons Hq'; [by apply H3|by apply H2].
    + intros q ->. eapply at_least_trans; [by apply H3|]. cbn [best_inv] in Hb. unfold at_least. cbv beta iota in E2.
      apply orb_true_iff in E2 as [?%Z.ltb_lt|[?%Z.eqb_eq ?%Z.ltb_lt]%andb_true_iff]; lia.
  - apply Hskip. right. apply orb_false_iff in E2 as [E2%Z.ltb_ge E3].
    destruct best as [b|]; cbn [best_inv] in Hb; [|lia]. exists b. split; [done|]. unfold at_least.
    apply andb_false_iff in E3 as [?%Z.eqb_neq|?%Z.ltb_ge]; lia.
Qed.

(** A mask of [n] ones. *)
Definition contiguous (m : Z) : Prop := exists n, 0 <= n <= 32 /\ m = 2 ^ 32 - 2 ^ (32 - n).

Lemma prefix_len_contiguous n : 0 <= n <= 32 -> prefix_len (2 ^ 32 - 2 ^ (32 - n)) = n.
Proof.
  intros Hn. assert (H : forallb (fun k => prefix_len (2 ^ 32 - 2 ^ (32 - k)) =? k) (seqZ 0 33) = true)
    by (vm_compute; reflexivity).
  apply Z.eqb_eq, (proj1 (forallb_forall _ _) H n), list_elem_of_In, elem_of_seqZ. lia.
Qed.

(** With such masks the longest prefix is one route's only. *)
Lemma contiguous_unique dst r q :
  contiguous (mask r) -> contiguous (mask q) -> matches dst r = true -> matches dst q = true ->
  prefix_len (mask r) = prefix_len (mask q) -> key r = key q.
Proof.
  intros (n & Hn & En) (k & Hk & Ek) Hr Hq E. unfold matches in *. breflect. unfold key.
  rewrite En, Ek, !prefix_len_contiguous in E by done. subst k. congruence.
Qed.

(** What [prefix_len] counts. *)
Lemma prefix_loop_bits f m n :
  0 <= m < 2 ^ Z.of_nat f -> prefix_loop f m n = n + Z.of_nat (count_upto f (fun i => Z.testbit m (Z.of_nat i))).
Proof.
  revert m n. induction f as [|f IH]; intros m n Hm.
  - assert (m = 0) as -> by (cbn in Hm; lia). cbn. lia.
  - assert (Hc : forall m, count_upto (S f) (fun i => Z.testbit m (Z.of_nat i)) =
      ((if Z.testbit m 0 then 1 else 0) + count_upto f (fun i => Z.testbit (Z.shiftr m 1) (Z.of_nat i)))%nat).
    { clear. intros m. induction f as [|f IH]; [cbn; by destruct (Z.testbit m 0)|].
      cbn [count_upto] in *. rewrite IH. rewrite Z.shiftr_spec by lia.
      replace (Z.of_nat f + 1) with (Z.of_nat (S f)) by lia. lia. }
    cbn [prefix_loop]. rewrite Hc. destruct (Z.eqb_spec m 0) as [->|Hne].
    + rewrite Z.shiftr_0_l, Z.bits_0. rewrite (count_upto_ext f _ (fun _ => false)) by (intros; apply Z.bits_0).
      assert (E : count_upto f (fun _ => false) = O) by (clear; induction f; cbn; [done|by rewrite IHf]).
      rewrite E. lia.
    + assert (Hd : 0 <= Z.shiftr m 1 < 2 ^ Z.of_nat f).
      { rewrite Z.shiftr_div_pow2 by lia. change (2 ^ 1) with 2. rewrite Nat2Z.inj_succ, Z.pow_succ_r in Hm by lia.
        split; [apply Z.div_pos; lia|apply Z.div_lt_upper_bound; lia]. }
      assert (El : Z.land m 1 = m mod 2) by (apply (Z.land_ones m 1); lia).
      assert (Eb : Z.testbit m 0 = (m mod 2 =? 1)) by (rewrite <- Z.bit0_mod; by destruct (Z.testbit m 0)).
      rewrite (IH _ _ Hd), El, Eb. pose proof (Z.mod_pos_bound m 2 ltac:(lia)). assert (m mod 2 = 0 \/ m mod 2 = 1) as [E|E] by lia; rewrite E; cbn; lia.
Qed.

(** What [route_get] tells of a route. *)
Definition told (r : route) : routeinfo :=
  mk_info (dest r) (mask r) (gateway r) (metric r) (flags r) (if lo r =? 0 then "eth0"%string else "lo"%string).

Lemma get_loop_nth table index seen :
  0 <= seen <= index ->
  get_loop table index seen = told <$> List.filter is_used table !! Z.to_nat (index - seen).
Proof.
  revert seen. induction table as [|r table IH]; intros seen Hs; cbn [get_loop List.filter]; [done|].
  destruct (is_used r); cbn [negb]; [|by apply IH].
  destruct (Z.eqb_spec seen index) as [->|Hne]; cbn [negb]; [by rewrite Z.sub_diag|].
  rewrite IH by lia. replace (Z.to_nat (index - seen)) with (S (Z.to_nat (index - (seen + 1)))) by lia. done.
Qed.

Lemma route_init_ok : table_ok route_init /\ abs route_init = {[(2130706432, 4278190080) := (0, 0, 1, 1)]}.
Proof.
  assert (H0 : table_ok (replicate ROUTE_MAX no_route)).
  { constructor; [done|..].
    - by intros i r [-> _]%lookup_replicate.
    - by intros i j p q [-> _]%lookup_replicate. }
  destruct (add_refines _ (IP4 127 0 0 0) (IP4 255 0 0 0) 0 0 RTF_UP 1 H0) as [G1 _].
  split; [exact G1|]. vm_compute. reflexivity.
Qed.

(** ** Properties *)

(** C27: the table implements a finite map from a network and its mask to a
    route. It starts with the loopback route; adding keys by the masked
    address, refuses a network and mask that are there (EEXIST) and a
    seventeenth route (ENOSPC); deleting removes that one route; a change of
    address removes the interface's own routes and no loopback route and no
    static one, then adds the new ones; and [route_get] lists the entries. *)
Theorem route_table_refines_map table :
  table_ok table ->
  (table_ok route_init /\ abs route_init = {[(2130706432, 4278190080) := (0, 0, 1, 1)]}) /\
  (forall d m gw mt fl, let '(r, t') := route_add table d m gw mt fl in
     table_ok t' /\ spec_add (abs table) d m gw mt (Z.lor fl RTF_STATIC) 0 = (r, abs t')) /\
  (forall d m, let '(r, t') := route_del table d m in
     table_ok t' /\ spec_del (abs table) d m = (r, abs t')) /\
  (forall ip m gw, table_ok (route_iface_update table ip m gw) /\
     abs (route_iface_update table ip m gw) = spec_update (abs table) ip m gw) /\
  (forall i, 0 <= i -> route_get table i =
     match List.filter is_used table !! Z.to_nat i with
     | Some r => (0, Some (told r)) | None => (- ENOENT, None) end).
Proof.
  intros Hok. split_and!.
  - apply route_init_ok.
  - apply route_init_ok.
  - intros d m gw mt fl. unfold route_add. destruct (add _ _ _ _ _ _ _) as [r t'] eqn:E.
    pose proof (add_refines table d m gw mt (Z.lor fl RTF_STATIC) 0 Hok) as G. by rewrite E in G.
  - intros d m. pose proof (del_refines table d m Hok) as G. by destruct (route_del table d m).
  - intros ip m gw. by apply update_refines.
  - intros i Hi. unfold route_get. rewrite get_loop_nth by lia. rewrite Z.sub_0_r.
    by destruct (List.filter is_used table !! Z.to_nat i).
Qed.

(** C26: the lookup is the longest prefix match: [-ENETUNREACH] exactly when no
    route's network contains the destination, otherwise the next hop and
    interface of one that does, whose mask has the most ones, and the lowest
    metric among those; with contiguous masks it is the only one of its
    length. *)
Theorem route_lookup_longest table dst :
  table_ok table ->
  match route_lookup table dst with
  | (r, None) => r = - ENETUNREACH /\
      forall d m v, abs table !! (d, m) = Some v -> Z.land dst m <> d
  | (r, Some (gw, l)) => r = 0 /\
      exists d m mt fl, abs table !! (d, m) = Some (gw, mt, fl, l) /\ Z.land dst m = d /\
        forall d' m' gw' mt' fl' l', abs table !! (d', m') = Some (gw', mt', fl', l') -> Z.land dst m' = d' ->
          (prefix_len m' < prefix_len m \/ prefix_len m' = prefix_len m /\ mt <= mt') /\
          (contiguous m -> contiguous m' -> prefix_len m' = prefix_len m -> (d', m') = (d, m))
  end.
Proof.
  intros Hok. unfold route_lookup. pose proof (best_of_spec dst table None (-1) eq_refl) as G.
  assert (Hin : forall d m gw mt fl l, abs table !! (d, m) = Some (gw, mt, fl, l) -> Z.land dst m = d ->
    exists r, r ∈ table /\ matches dst r = true /\ key r = (d, m) /\ metric r = mt).
  { intros d m gw mt fl l (i & r & Hi & Hu & Ek & Ei)%map_lookup Hd; [|done].
    exists r. unfold key, info in *. injection Ek as Ed Em. injection Ei as Eg Emt Ef El.
    split; [by eapply list_elem_of_lookup_2|]. split; [|split; congruence]. rewrite <- Ed, <- Em in Hd.
    unfold matches. destruct (t_masked _ Hok i r Hi Hu) as [_ Hf]. by rewrite Hu, Hf, Hd, Z.eqb_refl. }
  destruct (best_of dst table None (-1)) as [b|].
  - destruct G as ([?|[Hb Hm]] & G2 & _); [done|]. split; [done|].
    exists (dest b), (mask b), (metric b), (flags b). pose proof Hm as Hm'. unfold matches in Hm'. breflect.
    apply list_elem_of_lookup_1 in Hb as (i & Hi). split_and!; [|done|].
    + apply map_lookup; [done|]. by exists i, b.
    + intros d' m' gw' mt' fl' l' Hk Hd. destruct (Hin _ _ _ _ _ _ Hk Hd) as (q & Hq & Hmq & Ek & <-).
      assert (Em : mask q = m') by (unfold key in Ek; congruence). rewrite <- Em.
      split; [exact (G2 q Hq Hmq)|]. intros Hc Hc' El. rewrite Em, <- Ek.
      by apply (contiguous_unique dst q b).
  - destruct G as [_ G2]. split; [done|]. intros d m [[[gw mt] fl] l] Hk Hd.
    destruct (Hin _ _ _ _ _ _ Hk Hd) as (q & Hq & Hmq & _). rewrite (G2 q Hq) in Hmq. done.
Qed.

(** The length compared is the number of ones of the mask, counted in at
    most 32 turns. *)
Theorem prefix_len_ones m :
  0 <= m < 4294967296 -> prefix_len m = Z.of_nat (count_upto 32 (fun i => Z.testbit m (Z.of_nat i))).
Proof. intros Hm. unfold prefix_len. by rewrite prefix_loop_bits. Qed.

(** *** Witnesses: loopback, 10.0.0.5/24 with a gateway, a static host route *)

Definition net24 : list route :=
  snd (route_add (route_iface_update route_init 167772165 4294967040 167772161) 167772167 4294967295 167772162 3 0).

Lemma net24_ok : table_ok net24.
Proof.
  unfold net24, route_add. apply add_refines. apply update_refines. apply route_init_ok.
Qed.

Lemma route_table_refines_map_witness :
  fst (route_add net24 167772167 4294967295 0 0 0) = - EEXIST /\
  table_ok (route_iface_update net24 0 0 0) /\
  abs (route_iface_update net24 0 0 0) = spec_update (abs net24) 0 0 0.
Proof.
  destruct (route_table_refines_map net24 net24_ok) as (_ & H1 & _ & H2 & _).
  split; [vm_compute; reflexivity|]. exact (H2 0 0 0).
Defined.

Lemma route_lookup_longest_witness :
  snd (route_lookup net24 167772167) = Some (167772162, 0) /\
  snd (route_lookup net24 134744072) = Some (167772161, 0) /\
  match route_lookup net24 167772167 with
  | (r, None) => False
  | (r, Some (gw, l)) => r = 0
  end.
Proof.
  pose proof (route_lookup_longest net24 167772167 net24_ok) as G.
  split; [vm_compute; reflexivity|]. split; [vm_compute; reflexivity|].
  assert (E : snd (route_lookup net24 167772167) = Some (167772162, 0)) by (vm_compute; reflexivity).
  destruct (route_lookup net24 167772167) as [r [[gw l]|]]; [by destruct G|done].
Defined.

Lemma prefix_len_ones_witness : prefix_len 4294967040 = 24.
Proof. rewrite prefix_len_ones by lia. vm_compute. reflexivity. Defined.

(** ** What the code does against its own documentation *)

(** A mask with holes is accepted, and its ones count as a prefix: 10.0.7.1
    goes by the mask 255.0.255.255 and not by the subnet 10.0.6.0/23. *)
Example holed_mask_wins :
  let t := snd (route_add (snd (route_add route_init 167773952 4294966784 1 0 0)) 167773953 4278255615 2 0 0) in
  ~ contiguous 4278255615 /\ snd (route_lookup t 167773953) = Some (2, 0).
Proof.
  split; [|vm_compute; reflexivity]. intros (n & Hn & E).
  assert (Ep : prefix_len 4278255615 = n) by (rewrite E; by apply prefix_len_contiguous).
  vm_compute in Ep. subst n. vm_compute in E. discriminate.
Qed.

End ROUTE.
