(* ===== verification/Swap.v ===== *)
(** * The swap file (kernel/swap.c)

    Slots of a page each in a regular file, their sectors found once, at
    swapon; a slot is held by a count, taken first fit, and written and read
    straight on the disk. The file (its descriptor, stat and bmap, of vfs.c)
    and the disk are parameters; the pages of the tables come from
    kernel/pmm.c. *)

From S2P Require Import Prelude Pmm.
Local Open Scope Z_scope.

(** What swap relies on of a disk: a page written without error is read back
    until one of its eight sectors is written again. *)
Definition apart (l l' : Z) : Prop :=
  forall k k', 0 <= k < 8 -> 0 <= k' < 8 -> u32 (l + k) <> u32 (l' + k').
Class BlockDev (D : Type) := {
  bd_write : D -> Z -> list Z -> Z * D;
  bd_read : D -> Z -> Z * list Z;
  bd_write_read : forall d l p d', bd_write d l p = (0, d') -> bd_read d' l = (0, p);
  bd_write_other : forall d l p l', apart l l' -> bd_read (snd (bd_write d l p)) l' = bd_read d l';
}.

(** What virtual memory relies on of the swap file: slots with holders, each
    with the page last written to it. *)
Class SwapSlots (S : Type) := {
  sl_on : S -> bool;
  sl_left : S -> Z;
  sl_alloc : S -> Z * S;
  sl_ref : Z -> S -> Z * S;
  sl_free : Z -> S -> S;
  sl_set_busy : Z -> bool -> S -> S;
  sl_is_busy : Z -> S -> bool;
  sl_write : Z -> list Z -> S -> Z * S;
  sl_read : Z -> S -> Z * list Z * S;
  sl_ok : S -> Prop;
  sl_held : S -> Z -> Z;
  sl_bytes : S -> Z -> list Z;

  sl_held_nonneg : forall s k, sl_ok s -> 0 <= sl_held s k;
  sl_held_slot : forall s k, sl_ok s -> 0 < sl_held s k -> 0 <= k < 1048576;
  sl_alloc_spec : forall s, sl_ok s ->
    sl_alloc s = (4294967295, s) \/
    exists k s', sl_alloc s = (k, s') /\ sl_ok s' /\ sl_held s k = 0 /\ sl_held s' k = 1 /\
      (forall j, j <> k -> sl_held s' j = sl_held s j) /\ (forall j, sl_bytes s' j = sl_bytes s j);
  sl_ref_spec : forall s k, sl_ok s -> 0 < sl_held s k ->
    sl_ref k s = (-1, s) \/
    exists s', sl_ref k s = (0, s') /\ sl_ok s' /\ sl_held s' k = sl_held s k + 1 /\
      (forall j, j <> k -> sl_held s' j = sl_held s j) /\ (forall j, sl_bytes s' j = sl_bytes s j);
  sl_free_spec : forall s k, sl_ok s -> 0 < sl_held s k ->
    sl_ok (sl_free k s) /\ sl_held (sl_free k s) k = sl_held s k - 1 /\
    (forall j, j <> k -> sl_held (sl_free k s) j = sl_held s j) /\ (forall j, sl_bytes (sl_free k s) j = sl_bytes s j);
  sl_busy_spec : forall s k b, sl_ok s ->
    sl_ok (sl_set_busy k b s) /\ (forall j, sl_held (sl_set_busy k b s) j = sl_held s j) /\
    (forall j, sl_bytes (sl_set_busy k b s) j = sl_bytes s j);
  sl_write_spec : forall s k p, sl_ok s -> 0 < sl_held s k ->
    let '(r, s') := sl_write k p s in
    sl_ok s' /\ (forall j, sl_held s' j = sl_held s j) /\ r <= 0 /\ (r = 0 -> sl_bytes s' k = p) /\
    (forall j, j <> k -> 0 < sl_held s j -> sl_bytes s' j = sl_bytes s j);
  sl_read_spec : forall s k, sl_ok s ->
    let '(r, p, s') := sl_read k s in
    sl_ok s' /\ (forall j, sl_held s' j = sl_held s j) /\ (forall j, sl_bytes s' j = sl_bytes s j) /\
    r <= 0 /\ (r = 0 -> 0 < sl_held s k -> p = sl_bytes s k);
}.

Module SWAP.

(** ** The code *)

Definition SECTORS_PER_PAGE : Z := 8.
Definition SLOT_BAD : Z := 4294967295.
Definition SWAP_NONE : Z := 4294967295.
#[local] Abbreviation PAGE_SIZE := PMM.PAGE_SIZE.

Record swapstats := mk_stats { slots : Z; s_used : Z; pageouts : Z; pageins : Z }.

Section code.
Context {D : Type} `{BlockDev D}.

(** [dev] is the number of the device, [disk] what is on it. *)
Record sw := mk_sw {
  on : bool;
  file : option Z;
  ino : Z;
  dev : option Z;
  nslots : Z;
  lba : list Z;
  refs : list Z;
  busy : list Z;
  table_pages : Z;
  table_pa : Z;
  hint : Z;
  st : swapstats;
  pool : PMM.pmm;
  disk : D;
}.
Definition set_refs (r : list Z) (s : sw) : sw :=
  mk_sw (on s) (file s) (ino s) (dev s) (nslots s) (lba s) r (busy s) (table_pages s) (table_pa s) (hint s)
    (st s) (pool s) (disk s).
Definition set_busy (b : list Z) (s : sw) : sw :=
  mk_sw (on s) (file s) (ino s) (dev s) (nslots s) (lba s) (refs s) b (table_pages s) (table_pa s) (hint s)
    (st s) (pool s) (disk s).
Definition set_hint (h : Z) (s : sw) : sw :=
  mk_sw (on s) (file s) (ino s) (dev s) (nslots s) (lba s) (refs s) (busy s) (table_pages s) (table_pa s) h
    (st s) (pool s) (disk s).
Definition set_st (t : swapstats) (s : sw) : sw :=
  mk_sw (on s) (file s) (ino s) (dev s) (nslots s) (lba s) (refs s) (busy s) (table_pages s) (table_pa s) (hint s)
    t (pool s) (disk s).
Definition set_disk (d : D) (s : sw) : sw :=
  mk_sw (on s) (file s) (ino s) (dev s) (nslots s) (lba s) (refs s) (busy s) (table_pages s) (table_pa s) (hint s)
    (st s) (pool s) d.
Definition set_used (u : Z) (s : sw) : sw := set_st (mk_stats (slots (st s)) u (pageouts (st s)) (pageins (st s))) s.

Definition at_ (l : list Z) (i : Z) : Z := default 0 (l !! Z.to_nat i).
Definition in_use (s : sw) (slot : Z) : bool := on s && (slot <? nslots s).

Definition swap_set_busy (slot : Z) (b : bool) (s : sw) : sw :=
  if negb (in_use s slot) then s else set_busy (<[Z.to_nat slot := if b then 1 else 0]> (busy s)) s.

(** Each element of [e] is what others do in a sleep; [None] if it sleeps on. *)
Fixpoint swap_wait_idle (e : list (sw -> sw)) (slot : Z) (s : sw) : option sw :=
  if in_use s slot && negb (at_ (busy s) slot =? 0) then
    match e with
    | [] => None
    | f :: e' => swap_wait_idle e' slot (f s)
    end
  else Some s.

Definition swap_holds (i : Z) (s : sw) : bool := on s && (i =? ino s).

(** The file swapon is given: the descriptor or the error of opening it, what
    it is (regular, its size and its key) or the error of fstat, the sector of
    an offset, and its device. *)
Record target := mk_target {
  t_fd : Z; t_file : Z; t_stat : Z + bool * Z * Z; t_bmap : Z -> option Z; t_dev : Z
}.

(** The inner loop: whether the page's other sectors follow the first. *)
Definition consecutive (t : target) (i first : Z) : bool :=
  forallb (fun k => match t_bmap t (i * PAGE_SIZE + k * 512) with
                    | Some l => l =? u32 (first + k) | None => false end) (seqZ 1 7).
Definition slot_lba (t : target) (i : Z) : Z :=
  match t_bmap t (i * PAGE_SIZE) with
  | None => SLOT_BAD
  | Some first => if consecutive t i first then first else SLOT_BAD
  end.
Definition slot_good (t : target) (i : Z) : bool :=
  match t_bmap t (i * PAGE_SIZE) with Some first => consecutive t i first | None => false end.
Definition some_mapped (t : target) (n : Z) : bool :=
  existsb (fun i => match t_bmap t (i * PAGE_SIZE) with Some _ => true | None => false end) (seqZ 0 n).

Definition swap_on (t : target) (s : sw) : Z * sw :=
  if on s then (- EBUSY, s)
  else if t_fd t <? 0 then (t_fd t, s)
  else
    match t_stat t with
    | inl err => (err, s)
    | inr (reg, size, key) =>
        if negb reg then (- EINVAL, s)
        else
          let n := size / PAGE_SIZE in
          if (n <? 1) || (1048575 <? n) then (- EINVAL, s)
          else
            let bytes := n * (4 + 2) in
            let pages := (bytes + PAGE_SIZE - 1) / PAGE_SIZE in
            let '(pa, pl) := PMM.pmm_alloc_pages pages (pool s) in
            if pa =? 0 then (- ENOMEM, mk_sw (on s) (file s) (ino s) (dev s) (nslots s) (lba s) (refs s)
                (busy s) (table_pages s) (table_pa s) (hint s) (st s) pl (disk s))
            else
              let lbas := slot_lba t <$> seqZ 0 n in
              let good := Z.of_nat (length (List.filter (slot_good t) (seqZ 0 n))) in
              let zeros := replicate (Z.to_nat n) 0 in
              let dv := if some_mapped t n then Some (t_dev t) else dev s in
              if (good =? 0) || match dv with None => true | Some _ => false end then
                (- EINVAL, mk_sw (on s) (file s) (ino s) dv (nslots s) lbas zeros zeros (table_pages s)
                   (table_pa s) (hint s) (st s) (PMM.pmm_free_pages pa pages pl) (disk s))
              else (good, mk_sw true (Some (t_file t)) key dv n lbas zeros zeros pages pa 0
                            (mk_stats good 0 0 0) pl (disk s))
    end.

Definition swap_release (s : sw) : sw :=
  if negb (on s) then s
  else mk_sw false None 0 (dev s) 0 (lba s) (refs s) (busy s) (table_pages s) (table_pa s) (hint s)
         (mk_stats 0 0 (pageouts (st s)) (pageins (st s)))
         (PMM.pmm_free_pages (table_pa s) (table_pages s) (pool s)) (disk s).

Definition swap_is_on (s : sw) : bool := on s.

(** [other] is what stat of the path gave, if it did not fail: its key. *)
Definition swap_matches (other : option Z) (s : sw) : bool :=
  on s && match other with Some key => key =? ino s | None => false end.

Fixpoint alloc_from (fuel : nat) (i : Z) (s : sw) : Z * sw :=
  match fuel with
  | O => (SWAP_NONE, s)
  | S fuel' =>
      if i <? nslots s then
        if negb (at_ (lba s) i =? SLOT_BAD) && (at_ (refs s) i =? 0) then
          (i, set_used (u32 (s_used (st s) + 1)) (set_hint (i + 1) (set_refs (<[Z.to_nat i := 1]> (refs s)) s)))
        else alloc_from fuel' (i + 1) s
      else (SWAP_NONE, s)
  end.
Definition swap_alloc (s : sw) : Z * sw :=
  if negb (on s) then (SWAP_NONE, s) else alloc_from (Z.to_nat (nslots s)) (hint s) s.

Definition swap_ref (slot : Z) (s : sw) : Z * sw :=
  if negb (in_use s slot) || (at_ (refs s) slot =? 0) || (at_ (refs s) slot =? 255) then (-1, s)
  else (0, set_refs (<[Z.to_nat slot := at_ (refs s) slot + 1]> (refs s)) s).

Definition swap_free (slot : Z) (s : sw) : sw :=
  if negb (in_use s slot) || (at_ (refs s) slot =? 0) then s
  else
    let s := set_refs (<[Z.to_nat slot := at_ (refs s) slot - 1]> (refs s)) s in
    if at_ (refs s) slot =? 0 then
      let s := set_used (u32 (s_used (st s) - 1)) s in
      if slot <? hint s then set_hint slot s else s
    else s.

Definition swap_refcount (slot : Z) (s : sw) : Z := if in_use s slot then at_ (refs s) slot else 0.

Definition swap_write (slot : Z) (page : list Z) (s : sw) : Z * sw :=
  if negb (in_use s slot) || (at_ (lba s) slot =? SLOT_BAD) then (- EINVAL, s)
  else
    let t := st s in
    let s := set_st (mk_stats (slots t) (s_used t) (u32 (pageouts t + 1)) (pageins t)) s in
    let '(r, d) := bd_write (disk s) (at_ (lba s) slot) page in
    (if r =? 0 then 0 else - EIO, set_disk d s).

(** The result, the page read and the state. *)
Definition swap_read (slot : Z) (s : sw) : Z * list Z * sw :=
  if negb (in_use s slot) || (at_ (lba s) slot =? SLOT_BAD) then (- EINVAL, [], s)
  else
    let t := st s in
    let '(r, p) := bd_read (disk s) (at_ (lba s) slot) in
    (if r =? 0 then 0 else - EIO, p,
     set_st (mk_stats (slots t) (s_used t) (pageouts t) (u32 (pageins t + 1))) s).

Definition swap_stats (s : sw) : swapstats := st s.
End code.

(** ** Slots *)

Section inv.
Context {D : Type} `{BlockDev D}.
#[local] Abbreviation sw := (@sw D).

Definition held (r : Z) : bool := 0 <? r.
(** A slot that can be taken. *)
Definition free_at (s : sw) (i : Z) : Prop := 0 <= i < nslots s /\ at_ (lba s) i <> SLOT_BAD /\ at_ (refs s) i = 0.

Record swap_ok (s : sw) : Prop := {
  w_n : 0 <= nslots s <= 1048575;
  w_lba : Z.of_nat (length (lba s)) = nslots s;
  w_refs : Z.of_nat (length (refs s)) = nslots s;
  w_busy : Z.of_nat (length (busy s)) = nslots s;
  w_range : Forall (fun r => 0 <= r <= 255) (refs s);
  w_good : forall i, 0 <= i < nslots s -> 0 < at_ (refs s) i -> at_ (lba s) i <> SLOT_BAD;
  w_hint : 0 <= hint s <= nslots s;
  w_below : forall i, free_at s i -> hint s <= i;
  w_used : s_used (st s) = Z.of_nat (count_if held (refs s));
}.

Lemma at_insert l i j v :
  0 <= i < Z.of_nat (length l) -> 0 <= j ->
  at_ (<[Z.to_nat i := v]> l) j = if j =? i then v else at_ l j.
Proof using Type.
  intros Hi Hj. unfold at_. destruct (Z.eqb_spec j i) as [->|Hne].
  - by rewrite list_lookup_insert_eq by lia.
  - rewrite list_lookup_insert_ne; [done|]. lia.
Qed.

Lemma at_lookup l i : 0 <= i < Z.of_nat (length l) -> l !! Z.to_nat i = Some (at_ l i).
Proof using Type.
  intros Hi. unfold at_. destruct (lookup_lt_is_Some_2 l (Z.to_nat i)) as [v E]; [lia|]. by rewrite E.
Qed.

Lemma at_range s i : swap_ok s -> 0 <= i < nslots s -> 0 <= at_ (refs s) i <= 255.
Proof using Type.
  intros Hs Hi. apply (Forall_lookup_1 _ _ _ _ (w_range _ Hs) (at_lookup (refs s) i ltac:(rewrite (w_refs _ Hs); lia))).
Qed.

Lemma used_insert s i v :
  swap_ok s -> 0 <= i < nslots s ->
  Z.of_nat (count_if held (<[Z.to_nat i := v]> (refs s))) =
    s_used (st s) + (if held v then 1 else 0) - (if held (at_ (refs s) i) then 1 else 0).
Proof using Type.
  intros Hs Hi. rewrite (w_used _ Hs).
  pose proof (count_if_insert held (refs s) _ _ v (at_lookup (refs s) i ltac:(rewrite (w_refs _ Hs); lia))) as Hc.
  destruct (held v), (held (at_ (refs s) i)); lia.
Qed.

(** Setting one count: the invariant, given the new hint and number in use. *)
Lemma set_count_ok s i v h u :
  swap_ok s -> 0 <= i < nslots s -> 0 <= v <= 255 -> (0 < v -> at_ (lba s) i <> SLOT_BAD) ->
  0 <= h <= nslots s -> (v = 0 -> h <= i) ->
  (forall j, j <> i -> free_at s j -> h <= j) ->
  u = Z.of_nat (count_if held (<[Z.to_nat i := v]> (refs s))) ->
  swap_ok (set_used u (set_hint h (set_refs (<[Z.to_nat i := v]> (refs s)) s))).
Proof using Type.
  intros Hs Hi Hv Hg Hh Hz Hj Hu. pose proof Hs as [H1 H2 H3 H4 H5 H6 H7 H8 H9].
  constructor; cbn [set_used set_st set_hint set_refs nslots lba refs busy hint st s_used]; try done.
  - by rewrite length_insert.
  - apply Forall_insert; [exact H5|exact Hv].
  - intros j Hj1. rewrite at_insert by lia. destruct (Z.eqb_spec j i) as [->|]; [done|by apply H6].
  - intros j (Hj1 & Hj2 & Hj3). cbn [set_used set_st set_hint set_refs nslots lba refs] in *.
    rewrite at_insert in Hj3 by lia. destruct (Z.eqb_spec j i) as [->|Hne]; [by apply Hz|].
    apply Hj; [done|]. split; [done|]. by split.
Qed.

(** The scan stops at the lowest slot that can be taken. *)
Lemma swap_alloc_from_spec fuel i s :
  swap_ok s -> 0 <= i -> nslots s - i <= Z.of_nat fuel -> (forall j, free_at s j -> i <= j) ->
  (fst (alloc_from fuel i s) = SWAP_NONE /\ snd (alloc_from fuel i s) = s /\ forall j, ~ free_at s j) \/
  exists k, i <= k /\ free_at s k /\ (forall j, free_at s j -> k <= j) /\
    alloc_from fuel i s =
      (k, set_used (u32 (s_used (st s) + 1)) (set_hint (k + 1) (set_refs (<[Z.to_nat k := 1]> (refs s)) s))).
Proof using Type.
  intros Hs. revert i. induction fuel as [|fuel IH]; intros i Hi Hf Hlow; cbn [alloc_from].
  { left. split_and!; try done. intros j Hj. pose proof (Hlow j Hj). destruct Hj. lia. }
  destruct (Z.ltb_spec i (nslots s)) as [Hlt|Hge].
  2:{ left. split_and!; try done. intros j Hj. pose proof (Hlow j Hj). destruct Hj. lia. }
  destruct (negb (at_ (lba s) i =? SLOT_BAD) && (at_ (refs s) i =? 0)) eqn:E.
  - right. breflect. exists i. split_and!; try done; lia.
  - assert (Hlow' : forall j, free_at s j -> i + 1 <= j).
    { intros j Hj. pose proof (Hlow j Hj). enough (j <> i) by lia. intros ->. destruct Hj as (_ & Hb & Hr).
      by rewrite (proj2 (Z.eqb_neq _ _) Hb), Hr in E. }
    destruct (IH (i + 1) ltac:(lia) ltac:(lia) Hlow') as [G|(k & G1 & G2)]; [by left|].
    right. exists k. split; [lia|done].
Qed.

Lemma swap_alloc_spec s :
  swap_ok s ->
  (fst (swap_alloc s) = SWAP_NONE /\ snd (swap_alloc s) = s /\ (on s = true -> forall j, ~ free_at s j)) \/
  exists k, fst (swap_alloc s) = k /\ on s = true /\ free_at s k /\ (forall j, free_at s j -> k <= j) /\
    refs (snd (swap_alloc s)) = <[Z.to_nat k := 1]> (refs s) /\ lba (snd (swap_alloc s)) = lba s /\
    swap_ok (snd (swap_alloc s)).
Proof using Type.
  intros Hs. unfold swap_alloc. destruct (on s) eqn:Eon; cbn [negb]; [|by left].
  pose proof (w_hint _ Hs) as Hh.
  destruct (swap_alloc_from_spec (Z.to_nat (nslots s)) (hint s) s Hs ltac:(lia) ltac:(lia) (w_below _ Hs))
    as [(G1 & G2 & G3)|(k & Hk & Hf & Hlow & ->)]; [left; by split_and!|].
  right. exists k. pose proof Hf as (Hk1 & Hk2 & Hk3). cbn [fst snd]. split_and!; try done.
  assert (Hu : s_used (st s) + 1 = Z.of_nat (count_if held (<[Z.to_nat k := 1]> (refs s)))).
  { rewrite used_insert by done. rewrite Hk3. cbn. lia. }
  assert (Hle : (count_if held (<[Z.to_nat k := 1%Z]> (refs s)) <= length (refs s))%nat).
  { rewrite <- (length_insert (refs s) (Z.to_nat k) 1). unfold count_if. apply filter_length_le. }
  rewrite u32_small by (pose proof (w_n _ Hs); pose proof (w_refs _ Hs); lia).
  apply set_count_ok; try done; try lia.
  intros j Hne Hj. pose proof (Hlow j Hj). lia.
Qed.

Lemma swap_ref_ok slot s : swap_ok s -> 0 <= slot -> swap_ok (snd (swap_ref slot s)).
Proof using Type.
  intros Hs H0. unfold swap_ref. destruct (_ || _) eqn:E; [done|]. unfold in_use in E. breflect. cbn [snd].
  pose proof (at_range s slot Hs ltac:(lia)) as Hr.
  assert (Es : forall r : list Z, set_refs r s = set_used (s_used (st s)) (set_hint (hint s) (set_refs r s))).
  { intros r. by destruct s as [? ? ? ? ? ? ? ? ? ? ? [] ? ?]. }
  rewrite Es. apply set_count_ok; try done; try lia.
  - intros _. apply (w_good _ Hs); lia.
  - apply Hs.
  - intros j _ Hj. by apply (w_below _ Hs).
  - rewrite used_insert by (done || lia). unfold held. rewrite !(proj2 (Z.ltb_lt 0 _)) by lia. lia.
Qed.

Lemma swap_free_ok slot s : swap_ok s -> 0 <= slot -> swap_ok (swap_free slot s).
Proof using Type.
  intros Hs H0. unfold swap_free. destruct (_ || _) eqn:E; [done|]. unfold in_use in E. breflect.
  pose proof (at_range s slot Hs ltac:(lia)) as Hr. pose proof (w_refs _ Hs) as Hl. pose proof (w_n _ Hs) as Hn.
  cbn [set_refs refs]. rewrite at_insert, Z.eqb_refl by lia.
  set (v := at_ (refs s) slot - 1) in *. set (s1 := set_refs (<[Z.to_nat slot := v]> (refs s)) s).
  assert (Hu : Z.of_nat (count_if held (<[Z.to_nat slot := v]> (refs s))) =
    s_used (st s) + (if 0 <? v then 1 else 0) - 1).
  { rewrite used_insert by (done || lia). unfold held. rewrite (proj2 (Z.ltb_lt 0 (at_ (refs s) slot))) by lia. lia. }
  destruct (Z.eqb_spec v 0) as [Hv|Hv].
  - rewrite (proj2 (Z.ltb_ge 0 v)) in Hu by lia.
    assert (Hle : (count_if held (refs s) <= length (refs s))%nat) by (unfold count_if; apply filter_length_le).
    pose proof (w_used _ Hs) as Hus.
    assert (Ed : u32 (s_used (st s1) - 1) = s_used (st s) - 1) by (cbn; rewrite u32_small; lia).
    rewrite Ed. change (hint (set_used _ s1)) with (hint s).
    assert (Es : forall h, set_hint h (set_used (s_used (st s) - 1) s1) = set_used (s_used (st s) - 1) (set_hint h s1)) by done.
    assert (Es0 : set_used (s_used (st s) - 1) s1 = set_used (s_used (st s) - 1) (set_hint (hint s) s1)) by done.
    pose proof (w_hint _ Hs) as Hh.
    destruct (Z.ltb_spec slot (hint s)); [rewrite Es|rewrite Es0].
    all: apply set_count_ok; try done; try lia.
    all: intros j _ Hj; pose proof (w_below _ Hs j Hj); lia.
  - assert (Es : s1 = set_used (s_used (st s)) (set_hint (hint s) s1)).
    { unfold s1. by destruct s as [? ? ? ? ? ? ? ? ? ? ? [] ? ?]. }
    rewrite Es. apply set_count_ok; try done; try lia.
    + intros _. apply (w_good _ Hs); lia.
    + apply Hs.
    + intros j _ Hj. by apply (w_below _ Hs).
    + rewrite Hu. rewrite (proj2 (Z.ltb_lt 0 v)) by lia. lia.
Qed.

(** What the counts of the slots become. *)
Lemma swap_ref_count slot s j :
  swap_ok s -> 0 <= slot -> 0 <= j ->
  let '(r, s') := swap_ref slot s in
  (r = 0 <-> 0 < swap_refcount slot s < 255) /\ (r = 0 \/ r = -1 /\ s' = s) /\
  swap_refcount j s' = swap_refcount j s + (if (j =? slot) && (r =? 0) then 1 else 0).
Proof using Type.
  intros Hs H0 Hj. unfold swap_ref, swap_refcount. destruct (in_use s slot) eqn:Eu; cbn [negb orb].
  2:{ split_and!; [lia|by right|]. rewrite andb_false_r. lia. }
  pose proof Eu as Eu'. unfold in_use in Eu'. breflect. pose proof (at_range s slot Hs ltac:(lia)) as Hr.
  destruct (Z.eqb_spec (at_ (refs s) slot) 0), (Z.eqb_spec (at_ (refs s) slot) 255); cbn [orb].
  1-3: split_and!; [lia|by right|rewrite andb_false_r; lia].
  split_and!; [lia|by left|]. cbn [Z.eqb]. rewrite andb_true_r.
  change (in_use (set_refs _ s) j) with (in_use s j). cbn [set_refs refs].
  rewrite at_insert by (rewrite ?(w_refs _ Hs); lia).
  destruct (Z.eqb_spec j slot) as [->|]; [by rewrite Eu|]. destruct (in_use s j); lia.
Qed.

Lemma swap_free_refs slot (s : sw) :
  refs (swap_free slot s) = if in_use s slot && negb (at_ (refs s) slot =? 0)
    then <[Z.to_nat slot := at_ (refs s) slot - 1]> (refs s) else refs s.
Proof using Type.
  unfold swap_free. destruct (in_use s slot), (at_ (refs s) slot =? 0); cbn [negb orb andb]; try done.
  by repeat case_match.
Qed.

Lemma swap_free_in_use slot (s : sw) j : in_use (swap_free slot s) j = in_use s j.
Proof using Type. unfold swap_free. by repeat case_match. Qed.

Lemma swap_free_count slot s j :
  swap_ok s -> 0 <= slot -> 0 <= j ->
  swap_refcount j (swap_free slot s) = Z.max 0 (swap_refcount j s - (if j =? slot then 1 else 0)).
Proof using Type.
  intros Hs H0 Hj. unfold swap_refcount. rewrite swap_free_in_use, swap_free_refs.
  destruct (in_use s j) eqn:Ej; [|destruct (j =? slot); lia]. pose proof Ej as Ej'. unfold in_use in Ej'. breflect.
  pose proof (at_range s j Hs ltac:(lia)) as Hr. pose proof (w_refs _ Hs).
  destruct (Z.eqb_spec j slot) as [->|Hne].
  - rewrite Ej. destruct (Z.eqb_spec (at_ (refs s) slot) 0) as [E|E]; cbn [andb negb]; [lia|].
    rewrite at_insert, Z.eqb_refl by lia. lia.
  - destruct (in_use s slot) eqn:Es; cbn [andb]; [|lia]. unfold in_use in Es. breflect.
    destruct (negb _); [|lia]. rewrite at_insert by lia. rewrite (proj2 (Z.eqb_neq _ _) Hne). lia.
Qed.

(** Calls that move no count. *)
Lemma swap_ok_same s s' :
  swap_ok s -> nslots s' = nslots s -> lba s' = lba s -> refs s' = refs s -> length (busy s') = length (busy s) ->
  hint s' = hint s -> s_used (st s') = s_used (st s) -> swap_ok s'.
Proof using Type.
  intros [H1 H2 H3 H4 H5 H6 H7 H8 H9] E1 E2 E3 E4 E5 E6.
  constructor; rewrite ?E1, ?E2, ?E3, ?E4, ?E5, ?E6; try done.
  intros i (Hi1 & Hi2 & Hi3). rewrite E1, E2, E3 in *. apply H8. split; [done|]. by split.
Qed.

Lemma swap_others_ok slot b page s :
  swap_ok s ->
  swap_ok (swap_set_busy slot b s) /\ swap_ok (snd (swap_write slot page s)) /\ swap_ok (snd (swap_read slot s)).
Proof using Type.
  intros Hs. split_and!.
  - unfold swap_set_busy. destruct (negb _); [done|]. eapply swap_ok_same; try done. cbn. by rewrite length_insert.
  - unfold swap_write. destruct (_ || _); [done|]. destruct (bd_write _ _ _) as [r d]. by eapply swap_ok_same.
  - unfold swap_read. destruct (_ || _); [done|]. destruct (bd_read _ _) as [r d]. by eapply swap_ok_same.
Qed.

(** ** Pages *)

(** No two slots in use share a sector. *)
Definition slots_apart (s : sw) : Prop :=
  forall i j, 0 <= i < nslots s -> 0 <= j < nslots s -> i <> j ->
  at_ (lba s) i <> SLOT_BAD -> at_ (lba s) j <> SLOT_BAD -> apart (at_ (lba s) i) (at_ (lba s) j).

(** Pages written one after the other, whatever comes of it. *)
Definition writes (l : list (Z * list Z)) (s : sw) : sw := foldl (fun s '(slot, p) => snd (swap_write slot p s)) s l.

Lemma swap_write_frame slot p s :
  let s' := snd (swap_write slot p s) in on s' = on s /\ nslots s' = nslots s /\ lba s' = lba s.
Proof using Type. unfold swap_write. destruct (_ || _); [done|]. by destruct (bd_write _ _ _). Qed.

Lemma writes_keep l slot s :
  slots_apart s -> 0 <= slot -> in_use s slot = true -> at_ (lba s) slot <> SLOT_BAD ->
  Forall (fun '(k, _) => 0 <= k /\ k <> slot) l ->
  bd_read (disk (writes l s)) (at_ (lba s) slot) = bd_read (disk s) (at_ (lba s) slot) /\
  lba (writes l s) = lba s /\ on (writes l s) = on s /\ nslots (writes l s) = nslots s.
Proof using Type.
  intros Ha H0 Hu Hb Hl. revert s Ha Hu Hb. induction Hl as [|[k p] l [Hk0 Hk] _ IH]; intros s Ha Hu Hb; [done|].
  cbn [writes foldl]. fold (writes l (snd (swap_write k p s))). set (s1 := snd (swap_write k p s)).
  destruct (swap_write_frame k p s) as (E1 & E2 & E3). fold s1 in E1, E2, E3.
  assert (Ha1 : slots_apart s1) by (intros i j; rewrite E2, E3; apply Ha).
  destruct (IH s1 Ha1) as (G1 & G2 & G3 & G4); [unfold in_use; by rewrite E1, E2|by rewrite E3|].
  rewrite E3 in G1. rewrite G1, G2, G3, G4. split_and!; try done.
  unfold s1, swap_write. destruct (negb (in_use s k) || (at_ (lba s) k =? SLOT_BAD)) eqn:E; [done|].
  unfold in_use in Hu, E. breflect.
  cbn [set_st lba disk]. destruct (bd_write (disk s) (at_ (lba s) k) p) as [r d] eqn:Ew. cbn [snd disk set_disk].
  change d with (snd (r, d)). rewrite <- Ew. apply bd_write_other. apply Ha; try done; lia.
Qed.

Lemma swap_page_back slot p s s1 l :
  slots_apart s -> 0 <= slot -> swap_write slot p s = (0, s1) ->
  Forall (fun '(k, _) => 0 <= k /\ k <> slot) l ->
  fst (swap_read slot (writes l s1)) = (0, p).
Proof using Type.
  intros Ha H0 Hw Hl. unfold swap_write in Hw.
  destruct (negb (in_use s slot) || (at_ (lba s) slot =? SLOT_BAD)) eqn:E; [done|].
  cbn [set_st lba disk] in Hw. destruct (bd_write (disk s) (at_ (lba s) slot) p) as [r d] eqn:Ew.
  destruct (Z.eqb_spec r 0) as [->|]; [|by simplify_eq]. injection Hw as <-.
  set (s1 := set_disk d _). apply orb_false_iff in E as [Eu%negb_false_iff Eb%Z.eqb_neq].
  destruct (writes_keep l slot s1) as (G1 & G2 & G3 & G4); try done.
  unfold swap_read. replace (in_use (writes l s1) slot) with true.
  2:{ unfold in_use. rewrite G3, G4. by rewrite <- Eu. }
  rewrite G2. change (lba s1) with (lba s) in *. rewrite (proj2 (Z.eqb_neq _ _) Eb). cbn [negb orb]. rewrite G1.
  change (disk s1) with d. by rewrite (bd_write_read _ _ _ _ Ew).
Qed.

(** ** What virtual memory sees *)

Definition slot_held (s : sw) (k : Z) : Z := if k <? 0 then 0 else swap_refcount k s.
Definition slot_bytes (s : sw) (k : Z) : list Z := snd (bd_read (disk s) (at_ (lba s) k)).
Lemma slot_held_pos s k : 0 < slot_held s k -> 0 <= k /\ in_use s k = true /\ slot_held s k = at_ (refs s) k.
Proof using Type. unfold slot_held, swap_refcount. destruct (Z.ltb_spec k 0); [lia|]. destruct (in_use s k); [done|lia]. Qed.
Lemma apart_same s s' : nslots s' = nslots s -> lba s' = lba s -> slots_apart s -> slots_apart s'.
Proof using Type. intros E1 E2 Ha i j. rewrite E1, E2. apply Ha. Qed.
Lemma slots_same s s' : on s' = on s -> nslots s' = nslots s -> refs s' = refs s -> forall j, slot_held s' j = slot_held s j.
Proof using Type. intros E1 E2 E3 j. unfold slot_held, swap_refcount, in_use. by rewrite E1, E2, E3. Qed.
Lemma swap_free_frame slot (s : sw) : lba (swap_free slot s) = lba s /\ nslots (swap_free slot s) = nslots s /\ disk (swap_free slot s) = disk s.
Proof using Type. unfold swap_free. by repeat case_match. Qed.

Lemma swap_alloc_frame (s : sw) : on (snd (swap_alloc s)) = on s /\ nslots (snd (swap_alloc s)) = nslots s /\ disk (snd (swap_alloc s)) = disk s.
Proof using Type.
  unfold swap_alloc. destruct (negb _); [done|]. generalize (hint s). induction (Z.to_nat (nslots s)) as [|n IH]; intros h; [done|].
  cbn [alloc_from]. destruct (_ <? _); [|done]. destruct (_ && _); [done|apply IH].
Qed.
#[export] Instance swap_slots : SwapSlots sw.
Proof using All.
  refine {| sl_on := swap_is_on; sl_left := fun s => u32 (slots (swap_stats s) - s_used (swap_stats s));
    sl_alloc := swap_alloc; sl_ref := swap_ref; sl_free := swap_free; sl_set_busy := swap_set_busy;
    sl_is_busy := fun slot s => in_use s slot && negb (at_ (busy s) slot =? 0);
    sl_write := swap_write; sl_read := swap_read;
    sl_ok := fun s => swap_ok s /\ slots_apart s; sl_held := slot_held; sl_bytes := slot_bytes |}.
  - intros s k [Hs _]. unfold slot_held, swap_refcount. destruct (Z.ltb_spec k 0); [done|]. destruct (in_use s k) eqn:E; [|done].
    unfold in_use in E. breflect. pose proof (at_range s k Hs ltac:(lia)). lia.
  - intros s k [Hs _] (H1 & H2 & _)%slot_held_pos. unfold in_use in H2. breflect. pose proof (w_n _ Hs). lia.
  - intros s [Hs Ha]. destruct (swap_alloc_spec s Hs) as [(E1 & E2 & _)|(k & E1 & Hon & (Hk1 & Hk2 & Hk3) & _ & E2 & E3 & Hs')].
    { left. by rewrite (surjective_pairing (swap_alloc s)), E1, E2. }
    right. exists k, (snd (swap_alloc s)). split; [by rewrite <- E1, <- surjective_pairing|].
    assert (Ef : on (snd (swap_alloc s)) = on s /\ nslots (snd (swap_alloc s)) = nslots s /\ disk (snd (swap_alloc s)) = disk s) by apply swap_alloc_frame.
    destruct Ef as (F1 & F2 & F3). split; [split; [done|by apply (apart_same s)]|].
    unfold slot_held, swap_refcount, in_use, slot_bytes. rewrite F1, F2, F3, E2, E3, Hon. cbn [andb]. pose proof (w_refs _ Hs).
    rewrite (proj2 (Z.ltb_ge k 0)), (proj2 (Z.ltb_lt k _)), at_insert, Z.eqb_refl by lia. split; [done|]. split; [done|]. split; [|done].
    intros j Hne. destruct (Z.ltb_spec j 0); [done|]. rewrite at_insert by lia. by rewrite (proj2 (Z.eqb_neq j k)) by done.
  - intros s k [Hs Ha] (H1 & _)%slot_held_pos. destruct (swap_ref k s) as [r s'] eqn:E. pose proof (swap_ref_ok k s Hs H1) as Hs'.
    pose proof (fun j => swap_ref_count k s j Hs H1) as Hc. rewrite E in Hs', Hc. cbn [snd] in Hs'.
    destruct (Hc 0 ltac:(lia)) as (_ & [-> |[-> ->]] & _); [right|by left]. exists s'. split; [done|].
    assert (F : nslots s' = nslots s /\ lba s' = lba s /\ disk s' = disk s).
    { unfold swap_ref in E. destruct (_ || _ || _); [done|]. by injection E as <-. }
    destruct F as (F1 & F2 & F3). split; [split; [done|by apply (apart_same s)]|].
    unfold slot_held, slot_bytes. rewrite F2, F3, (proj2 (Z.ltb_ge k 0)) by lia. split; [|split; [|done]].
    + destruct (Hc k H1) as (_ & _ & ->). by rewrite Z.eqb_refl.
    + intros j Hne. destruct (Z.ltb_spec j 0) as [|Hj]; [done|]. destruct (Hc j Hj) as (_ & _ & ->).
      rewrite (proj2 (Z.eqb_neq j k)) by done. cbn [andb]. lia.
  - intros s k [Hs Ha] Hh. pose proof (slot_held_pos s k Hh) as (H1 & _). destruct (swap_free_frame k s) as (F1 & F2 & F3).
    split; [split; [by apply swap_free_ok|by apply (apart_same s)]|]. unfold slot_held, slot_bytes in *. rewrite F1, F3.
    rewrite (proj2 (Z.ltb_ge k 0)) in * by lia. rewrite !swap_free_count, Z.eqb_refl by done. split; [lia|]. split; [|done].
    intros j Hne. destruct (Z.ltb_spec j 0) as [|Hj]; [done|]. rewrite swap_free_count by done. rewrite (proj2 (Z.eqb_neq j k)) by done.
    enough (0 <= swap_refcount j s) by lia. unfold swap_refcount. destruct (in_use s j) eqn:E; [|done]. unfold in_use in E. breflect.
    pose proof (at_range s j Hs ltac:(lia)). lia.
  - intros s k b [Hs Ha]. destruct (swap_others_ok k b [] s Hs) as [Hs' _]. split; [split; [done|]|].
    + unfold swap_set_busy. destruct (negb _); [done|]. by apply (apart_same s).
    + split; [|unfold swap_set_busy; by destruct (negb _)]. apply slots_same; unfold swap_set_busy; by destruct (negb _).
  - intros s k p [Hs Ha] Hh. destruct (slot_held_pos s k Hh) as (H1 & H2 & H3). destruct (swap_others_ok k true p s Hs) as (_ & Hs' & _).
    destruct (swap_write_frame k p s) as (F1 & F2 & F3). assert (Hg : at_ (lba s) k <> SLOT_BAD).
    { pose proof H2 as Hu. unfold in_use in Hu. breflect. apply (w_good _ Hs); lia. }
    pose proof (swap_page_back k p s) as Hb. assert (F4 : refs (snd (swap_write k p s)) = refs s).
    { unfold swap_write. destruct (_ || _); [done|]. by destruct (bd_write _ _ _). }
    pose proof (slots_same s (snd (swap_write k p s)) F1 F2 F4) as Hsl.
    assert (Hot : forall j, j <> k -> 0 < slot_held s j -> slot_bytes (snd (swap_write k p s)) j = slot_bytes s j).
    { intros j Hne Hj. destruct (slot_held_pos s j Hj) as (J1 & J2 & J3). unfold slot_bytes. rewrite F3. f_equal.
      assert (Hgj : at_ (lba s) j <> SLOT_BAD) by (unfold in_use in J2; breflect; apply (w_good _ Hs); lia).
      refine (proj1 (writes_keep [(k, p)] j s Ha J1 J2 Hgj _)). by repeat constructor. }
    assert (Hr : fst (swap_write k p s) <= 0) by (unfold swap_write; destruct (_ || _); [done|]; destruct (bd_write _ _ _) as [r ?]; cbn; by destruct (r =? 0)).
    destruct (swap_write k p s) as [r s']. cbn [snd] in *. split; [split; [done|by apply (apart_same s)]|]. split; [done|]. split; [done|]. split; [|done].
    intros ->. pose proof (Hb s' [] Ha H1 eq_refl ltac:(constructor)) as E. unfold writes, swap_read in E. cbn [foldl] in E.
    assert (Eu : in_use s' k = true) by (unfold in_use; by rewrite F1, F2).
    rewrite Eu, F3, (proj2 (Z.eqb_neq _ _) Hg) in E. cbn [negb orb] in E. unfold slot_bytes. rewrite F3.
    destruct (bd_read _ _) as [r' p']. cbn [fst snd] in *. by injection E.
  - intros s k [Hs Ha]. destruct (swap_others_ok k true [] s Hs) as (_ & _ & Hs').
    unfold swap_read in *. destruct (_ || _) eqn:E; cbn [snd] in Hs'.
    + split; [done|]. split; [done|]. split; [done|]. split; [done|intros [=]].
    + unfold slot_bytes at 3. destruct (bd_read _ _) as [r' p']. cbn [snd] in *. split; [split; [done|by apply (apart_same s)]|].
      split; [by apply slots_same|]. split; [done|]. split; [by destruct (r' =? 0)|]. done.
Defined.

(** ** swapon *)

Lemma at_fmap_seqZ (f : Z -> Z) n i : 0 <= i < n -> at_ (f <$> seqZ 0 n) i = f i.
Proof using Type.
  intros Hi. unfold at_. rewrite list_lookup_fmap.
  rewrite (proj2 (lookup_seqZ 0 n (Z.to_nat i) i)); [done|lia].
Qed.

Lemma at_zeros n i : at_ (replicate n 0) i = 0.
Proof using Type.
  unfold at_. destruct (replicate n 0 !! Z.to_nat i) eqn:E; [|done]. by apply lookup_replicate in E as [-> _].
Qed.

(** A slot found good has its eight sectors in a row. *)
Lemma slot_good_sectors t i k :
  slot_good t i = true -> 0 <= k < 8 -> (forall o l, t_bmap t o = Some l -> 0 <= l < 4294967296) ->
  t_bmap t (i * 4096 + k * 512) = Some (u32 (slot_lba t i + k)).
Proof using Type.
  unfold slot_good, slot_lba. change PMM.PAGE_SIZE with 4096. intros Hg Hk Hr.
  destruct (t_bmap t (i * 4096)) as [first|] eqn:E; [|done]. rewrite Hg.
  destruct (Z.eq_dec k 0) as [->|Hne].
  - replace (i * 4096 + 0 * 512) with (i * 4096) by lia. rewrite E, Z.add_0_r.
    by rewrite u32_small by (by eapply Hr).
  - unfold consecutive in Hg. pose proof (proj1 (forallb_forall _ _) Hg k) as Hc. cbv beta in Hc.
    change PMM.PAGE_SIZE with 4096 in Hc.
    assert (Hin : In k (seqZ 1 7)) by (apply list_elem_of_In, elem_of_seqZ; lia).
    specialize (Hc Hin). destruct (t_bmap t (i * 4096 + k * 512)) as [l|]; [|done]. by apply Z.eqb_eq in Hc as ->.
Qed.

Lemma slot_lba_good t i :
  (forall o l, t_bmap t o = Some l -> 0 <= l < SLOT_BAD) ->
  slot_good t i = negb (slot_lba t i =? SLOT_BAD).
Proof using Type.
  intros Hr. unfold slot_good, slot_lba. destruct (t_bmap t _) as [first|] eqn:E; [|done].
  destruct (consecutive t i first); [|done]. pose proof (Hr _ _ E). by rewrite (proj2 (Z.eqb_neq _ _)) by lia.
Qed.

(** Distinct offsets at distinct sectors: distinct slots share none. *)
Lemma slots_disjoint t i j :
  (forall o l, t_bmap t o = Some l -> 0 <= l < SLOT_BAD) ->
  (forall o o' l, t_bmap t o = Some l -> t_bmap t o' = Some l -> o / 512 = o' / 512) ->
  slot_good t i = true -> slot_good t j = true -> i <> j -> apart (slot_lba t i) (slot_lba t j).
Proof using Type.
  intros Hr Hinj Hi Hj Hne k k' Hk Hk' E.
  assert (Hr' : forall o l, t_bmap t o = Some l -> 0 <= l < 4294967296).
  { intros o l Ho. pose proof (Hr o l Ho). unfold SLOT_BAD in *. lia. }
  pose proof (slot_good_sectors t i k Hi Hk Hr') as Ei. pose proof (slot_good_sectors t j k' Hj Hk' Hr') as Ej.
  rewrite E in Ei. pose proof (Hinj _ _ _ Ei Ej) as Eo.
  replace (i * 4096 + k * 512) with ((i * 8 + k) * 512) in Eo by lia.
  replace (j * 4096 + k' * 512) with ((j * 8 + k') * 512) in Eo by lia.
  rewrite !Z.div_mul in Eo by lia. lia.
Qed.

Lemma swap_on_spec t s r s' :
  on s = false -> PMM.pmm_inv (pool s) -> (forall o l, t_bmap t o = Some l -> 0 <= l < SLOT_BAD) ->
  (forall e, t_stat t = inl e -> e < 0) -> swap_on t s = (r, s') ->
  (r < 0 /\ on s' = false /\ PMM.abs (pool s') = PMM.abs (pool s)) \/
  (0 < r /\ on s' = true /\ swap_ok s' /\ file s' = Some (t_file t) /\ slots (st s') = r /\
   r = Z.of_nat (length (List.filter (fun l => negb (l =? SLOT_BAD)) (lba s'))) /\
   (forall i, 0 <= i < nslots s' -> at_ (refs s') i = 0 /\ at_ (lba s') i = slot_lba t i) /\
   ((forall o o' l, t_bmap t o = Some l -> t_bmap t o' = Some l -> o / 512 = o' / 512) -> slots_apart s')).
Proof using Type.
  intros Hoff Hpool Hr Hst. unfold swap_on. rewrite Hoff. intros E.
  destruct (Z.ltb_spec (t_fd t) 0); [left; by simplify_eq|].
  destruct (t_stat t) as [e|[[reg size] key]]; [left; simplify_eq; split; [by apply Hst|done]|].
  destruct reg; cbn [negb] in E; [|left; by simplify_eq]. set (n := size / PMM.PAGE_SIZE) in *.
  destruct ((n <? 1) || (1048575 <? n)) eqn:En; [left; by simplify_eq|].
  apply orb_false_iff in En as [En1%Z.ltb_ge En2%Z.ltb_ge].
  set (pages := (_ + _ - 1) / _) in E.
  assert (Hpg : 1 <= pages < 4294967296).
  { unfold pages, PMM.PAGE_SIZE. split; [apply Z.div_le_lower_bound; lia|apply Z.div_lt_upper_bound; lia]. }
  pose proof (PMM.alloc_free_pages (pool s) pages Hpool Hpg) as Hback.
  pose proof (PMM.alloc_pages_fail (pool s) pages Hpool Hpg) as Hfail.
  destruct (PMM.pmm_alloc_pages pages (pool s)) as [pa pl]. cbn [fst snd] in *.
  destruct (Z.eqb_spec pa 0) as [Hpa|Hpa].
  { left. injection E as <- <-. split; [done|]. split; [done|]. by apply Hfail. }
  set (good := Z.of_nat _) in E.
  destruct ((good =? 0) || _) eqn:Eg; [left; simplify_eq; split; [done|split; [done|by apply Hback]]|]. apply orb_false_iff in Eg as [Eg%Z.eqb_neq _].
  injection E as <- <-. right.
  assert (Hlen : Z.of_nat (length (slot_lba t <$> seqZ 0 n)) = n) by (rewrite length_fmap, length_seqZ; lia).
  assert (Hz : Z.of_nat (length (replicate (Z.to_nat n) 0)) = n) by (rewrite length_replicate; lia).
  cbn [on file st slots nslots lba refs]. split_and!; try done; try lia.
  - constructor; cbn [nslots lba refs busy hint st s_used]; try done; try lia.
    + by apply Forall_replicate.
    + intros i _. rewrite at_zeros. lia.
    + intros i Hi. destruct Hi as ((Hi & _) & _). cbn in Hi. lia.
    + assert (Ec : forall k, count_if held (replicate k 0) = O) by (induction k as [|k IHk]; [done|exact IHk]).
      by rewrite Ec.
  - unfold good. f_equal. clear -Hr. induction (seqZ 0 n) as [|i l IH]; [done|]. cbn [List.filter fmap list_fmap].
    rewrite slot_lba_good by done. destruct (negb _); cbn [length]; [f_equal; exact IH|exact IH].
  - intros i Hi. split; [apply at_zeros|by apply at_fmap_seqZ].
  - intros Hinj i j Hi Hj Hne. cbn [nslots lba] in *. rewrite !at_fmap_seqZ by done. intros Gi Gj.
    apply slots_disjoint; try done; rewrite slot_lba_good by done; by apply negb_true_iff, Z.eqb_neq.
Qed.

(** ** Properties *)

(** First-fit slots with counts. swap_alloc takes the lowest slot that is
    good and that nobody holds, and says SWAP_NONE exactly when there is none,
    though it starts from its hint; swap_ref adds a holder unless there is none
    or 255; swap_free takes one off; no call changes another slot's count, and
    all keep the table consistent: the number in use, the hint below every
    free slot, counts only on good slots. *)
Theorem swap_slots_counted s :
  swap_ok s ->
  ((fst (swap_alloc s) = SWAP_NONE /\ snd (swap_alloc s) = s /\ (on s = true -> forall j, ~ free_at s j)) \/
   exists k, fst (swap_alloc s) = k /\ on s = true /\ free_at s k /\ (forall j, free_at s j -> k <= j) /\
     refs (snd (swap_alloc s)) = <[Z.to_nat k := 1]> (refs s) /\ lba (snd (swap_alloc s)) = lba s /\
     swap_ok (snd (swap_alloc s))) /\
  (forall slot j, 0 <= slot -> 0 <= j ->
     let '(r, s') := swap_ref slot s in
     swap_ok s' /\ (r = 0 <-> 0 < swap_refcount slot s < 255) /\ (r = 0 \/ r = -1 /\ s' = s) /\
     swap_refcount j s' = swap_refcount j s + (if (j =? slot) && (r =? 0) then 1 else 0)) /\
  (forall slot j, 0 <= slot -> 0 <= j ->
     swap_ok (swap_free slot s) /\
     swap_refcount j (swap_free slot s) = Z.max 0 (swap_refcount j s - (if j =? slot then 1 else 0))) /\
  (forall slot b page, swap_ok (swap_set_busy slot b s) /\ swap_ok (snd (swap_write slot page s)) /\
     swap_ok (snd (swap_read slot s))).
Proof using Type.
  intros Hs. split_and!.
  - by apply swap_alloc_spec.
  - intros slot j H0 Hj. pose proof (swap_ref_ok slot s Hs H0) as G1. pose proof (swap_ref_count slot s j Hs H0 Hj) as G2.
    destruct (swap_ref slot s) as [r s']. by split.
  - intros slot j H0 Hj. split; [by apply swap_free_ok|by apply swap_free_count].
  - intros slot b page. by apply swap_others_ok.
Qed.

(** Swapon finds the sectors. It turns swap on exactly when it returns a
    number of slots, which is the number of good ones; a slot is good exactly
    when its page is eight sectors in a row, and then those are its sectors;
    if the file's sectors are distinct, no two slots share one. When it fails,
    the pages of the tables are given back. *)
Theorem swap_on_maps t s r s' :
  on s = false -> PMM.pmm_inv (pool s) -> (forall o l, t_bmap t o = Some l -> 0 <= l < SLOT_BAD) ->
  (forall e, t_stat t = inl e -> e < 0) -> swap_on t s = (r, s') ->
  (r < 0 /\ on s' = false /\ PMM.abs (pool s') = PMM.abs (pool s)) \/
  (0 < r /\ on s' = true /\ swap_ok s' /\ file s' = Some (t_file t) /\ slots (st s') = r /\
   r = Z.of_nat (length (List.filter (fun l => negb (l =? SLOT_BAD)) (lba s'))) /\
   (forall i, 0 <= i < nslots s' -> at_ (refs s') i = 0 /\ at_ (lba s') i = slot_lba t i) /\
   (forall i k, 0 <= i < nslots s' -> at_ (lba s') i <> SLOT_BAD -> 0 <= k < 8 ->
     t_bmap t (i * 4096 + k * 512) = Some (u32 (at_ (lba s') i + k))) /\
   ((forall o o' l, t_bmap t o = Some l -> t_bmap t o' = Some l -> o / 512 = o' / 512) -> slots_apart s')).
Proof using Type.
  intros Hoff Hp Hr Hst E.
  destruct (swap_on_spec t s r s' Hoff Hp Hr Hst E) as [G|(G1 & G2 & G3 & G4 & G5 & G6 & G7 & G8)]; [by left|].
  right. split_and!; try done. intros i k Hi Hb Hk. destruct (G7 i Hi) as [_ El]. rewrite El in *.
  apply slot_good_sectors; [|done|].
  - rewrite slot_lba_good by done. by apply negb_true_iff, Z.eqb_neq.
  - intros o l Ho. pose proof (Hr o l Ho). unfold SLOT_BAD in *. lia.
Qed.

(** A page written to a slot without error is the page read back from it,
    whatever is written to other slots in between, on any disk. *)
Theorem swap_page_roundtrip slot p s s1 l :
  slots_apart s -> 0 <= slot -> swap_write slot p s = (0, s1) ->
  Forall (fun '(k, _) => 0 <= k /\ k <> slot) l ->
  fst (swap_read slot (writes l s1)) = (0, p).
Proof using Type. apply swap_page_back. Qed.
End inv.

(** *** Witnesses: a disk as the list of what was written to it *)

Definition overlap (l l' : Z) : bool :=
  existsb (fun k => existsb (fun k' => u32 (l + k) =? u32 (l' + k')) (seqZ 0 8)) (seqZ 0 8).
Fixpoint log_read (d : list (Z * list Z)) (l : Z) : Z * list Z :=
  match d with
  | [] => (0, [])
  | (l', p) :: d' => if l' =? l then (0, p) else if overlap l' l then (1, []) else log_read d' l
  end.
#[export] Instance log_disk : BlockDev (list (Z * list Z)).
Proof.
  refine {| bd_write := fun d l p => (0, (l, p) :: d); bd_read := log_read |}.
  - intros d l p d' [= <-]. cbn. by rewrite Z.eqb_refl.
  - intros d l p l' Ha. cbn. rewrite (proj2 (Z.eqb_neq l l')).
    2:{ intros ->. by apply (Ha 0 0). }
    replace (overlap l l') with false; [done|]. symmetry. apply not_true_is_false. intros (k & Hk & E)%existsb_exists.
    apply existsb_exists in E as (k' & Hk' & E%Z.eqb_eq).
    apply list_elem_of_In, elem_of_seqZ in Hk. apply list_elem_of_In, elem_of_seqZ in Hk'.
    by apply (Ha k k' ltac:(lia) ltac:(lia)).
Defined.

(** A file of three pages, the second of them in two pieces. *)
Definition three : target :=
  mk_target 3 3 (inr (true, 12288, 77))
    (fun o => if (0 <=? o) && (o <? 12288)
              then Some (if o <? 6144 then 100 + o / 512 else 500 + o / 512) else None) 0.
Definition off : @sw (list (Z * list Z)) :=
  mk_sw false None 0 None 0 [] [] [] 0 0 0 (mk_stats 0 0 0 0) PMM.pool8 [].
Definition swapping : @sw (list (Z * list Z)) := snd (swap_on three off).

Lemma three_sectors o l : t_bmap three o = Some l -> 0 <= l < SLOT_BAD.
Proof.
  cbn. destruct ((0 <=? o) && (o <? 12288)) eqn:E; [|done]. breflect. intros [= <-]. unfold SLOT_BAD.
  pose proof (Z.div_mod o 512 ltac:(lia)). pose proof (Z.mod_pos_bound o 512 ltac:(lia)). zcase; lia.
Qed.

Lemma three_distinct o o' l : t_bmap three o = Some l -> t_bmap three o' = Some l -> o / 512 = o' / 512.
Proof.
  cbn. destruct ((0 <=? o) && (o <? 12288)) eqn:E; [|done]. destruct ((0 <=? o') && (o' <? 12288)) eqn:E'; [|done].
  breflect. intros Hl Hl'. injection Hl as Hl. injection Hl' as Hl'. rewrite <- Hl in Hl'.
  pose proof (Z.div_mod o 512 ltac:(lia)). pose proof (Z.mod_pos_bound o 512 ltac:(lia)).
  pose proof (Z.div_mod o' 512 ltac:(lia)). pose proof (Z.mod_pos_bound o' 512 ltac:(lia)).
  destruct (Z.ltb_spec o 6144), (Z.ltb_spec o' 6144); lia.
Qed.

Lemma swapping_facts : swap_ok swapping /\ slots_apart swapping.
Proof.
  destruct (swap_on_spec three off (fst (swap_on three off)) swapping) as [(G & _)|(_ & _ & G1 & _ & _ & _ & _ & G2)].
  - done.
  - exact PMM.pool8_inv.
  - apply three_sectors.
  - done.
  - apply surjective_pairing.
  - exfalso. revert G. vm_compute. discriminate.
  - split; [done|]. apply G2. apply three_distinct.
Qed.

Lemma swap_slots_counted_witness :
  fst (swap_alloc swapping) = 0 /\ fst (swap_alloc (snd (swap_alloc swapping))) = 2 /\
  swap_ok (swap_free 0 swapping).
Proof.
  destruct (swap_slots_counted swapping (proj1 swapping_facts)) as (_ & _ & H & _).
  split; [vm_compute; reflexivity|]. split; [vm_compute; reflexivity|]. by destruct (H 0 0).
Defined.

Lemma swap_on_maps_witness : fst (swap_on three off) = 2 /\ slots_apart (snd (swap_on three off)).
Proof.
  split; [vm_compute; reflexivity|].
  destruct (swap_on_maps three off (fst (swap_on three off)) (snd (swap_on three off))) as [(G & _)|(_ & _ & _ & _ & _ & _ & _ & _ & G)].
  - done.
  - exact PMM.pool8_inv.
  - apply three_sectors.
  - done.
  - apply surjective_pairing.
  - exfalso. revert G. vm_compute. discriminate.
  - apply G. apply three_distinct.
Defined.

Lemma swap_page_roundtrip_witness :
  fst (swap_read 0 (writes [(2, [9]); (1, [8])] (snd (swap_write 0 [1; 2; 3] swapping)))) = (0, [1; 2; 3]).
Proof.
  assert (E : fst (swap_write 0 [1; 2; 3] swapping) = 0) by (vm_compute; reflexivity).
  destruct (swap_write 0 [1; 2; 3] swapping) as [r s1] eqn:Ew. cbn [fst] in E. rewrite E in Ew.
  refine (swap_page_roundtrip 0 [1; 2; 3] swapping s1 [(2, [9]); (1, [8])] (proj2 swapping_facts) _ Ew _).
  - lia.
  - repeat constructor; lia.
Defined.

End SWAP.
