(* ===== verification/Tmpfile.v ===== *)
(** * The bytes of a file in memory (kernel/fs/tmpfs.c: pages and open files)

    A file's data is a two-level table of pages: a top page of 1024 pointers
    to index pages of 1024 pointers to pages of data, 0 for a hole. The tables
    are words in pages of the same memory the data is in, so the model keeps
    them there: an entry is four bytes of a page. The pages come from any
    [PageMemory]. *)

From S2P Require Import Prelude Pmm Pages.
Local Open Scope Z_scope.

Module TMPFILE.
Import PMM.

(** ** The code *)

Definition PTRS : Z := PAGE_SIZE / 4.
Definition O_APPEND : Z := 1024.
Definition SEEK_SET : Z := 0.
Definition SEEK_CUR : Z := 1.
Definition SEEK_END : Z := 2.

Record tnode := mk_tnode {
  n_used : bool; ino : Z; mode : Z; uid : Z; gid : Z; nlink : Z; size : Z;
  mtime : Z; opens : Z; top : Z }.

Definition set_nused (b : bool) (n : tnode) : tnode :=
  mk_tnode b (ino n) (mode n) (uid n) (gid n) (nlink n) (size n) (mtime n) (opens n) (top n).
Definition set_attrs (m u g : Z) (n : tnode) : tnode :=
  mk_tnode (n_used n) (ino n) m u g (nlink n) (size n) (mtime n) (opens n) (top n).
Definition set_nlink (l : Z) (n : tnode) : tnode :=
  mk_tnode (n_used n) (ino n) (mode n) (uid n) (gid n) l (size n) (mtime n) (opens n) (top n).
Definition set_size (z : Z) (n : tnode) : tnode :=
  mk_tnode (n_used n) (ino n) (mode n) (uid n) (gid n) (nlink n) z (mtime n) (opens n) (top n).
Definition set_mtime (t : Z) (n : tnode) : tnode :=
  mk_tnode (n_used n) (ino n) (mode n) (uid n) (gid n) (nlink n) (size n) t (opens n) (top n).
Definition set_opens (o : Z) (n : tnode) : tnode :=
  mk_tnode (n_used n) (ino n) (mode n) (uid n) (gid n) (nlink n) (size n) (mtime n) o (top n).
Definition set_top (t : Z) (n : tnode) : tnode :=
  mk_tnode (n_used n) (ino n) (mode n) (uid n) (gid n) (nlink n) (size n) (mtime n) (opens n) t.
Definition no_node : tnode := mk_tnode false 0 0 0 0 0 0 0 0 0.

(** A name in a directory: the nodes are indices in the table, and directory 0
    marks a free entry. *)
Record tdent := mk_tdent { d_dir : nat; d_node : nat; d_name : list Z }.

(** What [struct file] holds for these files: priv, pos and flags. *)
Record tfile := mk_tfile { f_node : nat; f_pos : Z; f_flags : Z }.
Definition set_pos (x : Z) (f : tfile) : tfile := mk_tfile (f_node f) x (f_flags f).

Section code.
Context {W : Type} `{PageMemory W}.

(** The memory, and the counters pages_used and pages_max. *)
Record pool := mk_pool { mem : W; pages_used : Z; pages_max : Z }.
Definition set_mem (w : W) (p : pool) : pool := mk_pool w (pages_used p) (pages_max p).
Definition bump (d : Z) (p : pool) : pool := mk_pool (mem p) (u32 (pages_used p + d)) (pages_max p).

(** An empty entry of a table, filled with a new page if one is to be made. *)
Definition fill (make full : bool) (slot : Z) (p : pool) : pool :=
  if (load32 (mem p) slot =? 0) && make && negb full then
    let '(a, w) := pg_alloc (mem p) in
    let p := set_mem (store32 slot a w) p in
    if a =? 0 then p else bump 1 p
  else p.

Definition page_of (n : tnode) (off : Z) (make : bool) (p : pool) : Z * tnode * pool :=
  let k := off / PAGE_SIZE in
  let '(n, p) :=
    if (top n =? 0) && make then
      let '(a, w) := pg_alloc (mem p) in
      let p := set_mem w p in
      (set_top a n, if a =? 0 then p else bump 1 p)
    else (n, p) in
  if top n =? 0 then (0, n, p)
  else
    let slot := top n + 4 * (k / PTRS) in
    let p := fill make false slot p in
    let idx := load32 (mem p) slot in
    if idx =? 0 then (0, n, p)
    else
      let slot := idx + 4 * (k mod PTRS) in
      let p := fill make (pages_max p <=? pages_used p) slot p in
      (load32 (mem p) slot, n, p).

(** The body of the inner loop of cut, entry [j] of index page [idx], which is
    the [i]th: the page goes if it starts at [from] or after. *)
Definition cut_entry (idx : Z) (i from : Z) (j : nat) (st : pool * bool) : pool * bool :=
  let '(p, any) := st in
  let slot := idx + 4 * Z.of_nat j in
  let p :=
    if negb (load32 (mem p) slot =? 0) && (from <=? u32 (u32 (i * PTRS + Z.of_nat j) * PAGE_SIZE)) then
      bump (-1) (set_mem (store32 slot 0 (pg_free (load32 (mem p) slot) (mem p))) p)
    else p in
  (p, any || negb (load32 (mem p) slot =? 0)).

Definition cut_index (tp from : Z) (i : nat) (p : pool) : pool :=
  let slot := tp + 4 * Z.of_nat i in
  let idx := load32 (mem p) slot in
  if idx =? 0 then p
  else
    let '(p, any) := for_upto (Z.to_nat PTRS) (cut_entry idx (Z.of_nat i) from) (p, false) in
    if any then p else bump (-1) (set_mem (store32 slot 0 (pg_free idx (mem p))) p).

Definition cut (n : tnode) (from : Z) (p : pool) : tnode * pool :=
  if top n =? 0 then (n, p)
  else
    let '(from, p) :=
      if negb (from mod PAGE_SIZE =? 0) then
        let '(pa, _, _) := page_of n from false p in
        let z := PAGE_SIZE - from mod PAGE_SIZE in
        (PAGE_ALIGN_UP from,
         if pa =? 0 then p
         else set_mem (store_bytes (pa + from mod PAGE_SIZE) (replicate (Z.to_nat z) 0) (mem p)) p)
      else (from, p) in
    let p := for_upto (Z.to_nat PTRS) (cut_index (top n) from) p in
    if from =? 0 then (set_top 0 n, bump (-1) (set_mem (pg_free (top n) (mem p)) p))
    else (n, p).

(** Each turn moves at least one byte, and all but the first and the last a
    whole page. *)
Definition io_fuel (len : Z) : nat := Z.to_nat (len / PAGE_SIZE + 2).

Fixpoint read_loop (fuel : nat) (n : tnode) (pos done len : Z) (p : pool) : list Z * Z :=
  match fuel with
  | O => ([], pos)
  | S fuel' =>
      if done <? len then
        let off := pos mod PAGE_SIZE in
        let k := PAGE_SIZE - off in
        let '(pa, _, _) := page_of n pos false p in
        let k := if len - done <? k then len - done else k in
        let chunk := if pa =? 0 then replicate (Z.to_nat k) 0
                     else page_bytes (pa + off) (Z.to_nat k) (mem p) in
        let '(rest, pos) := read_loop fuel' n (u32 (pos + k)) (done + k) len p in
        (chunk ++ rest, pos)
      else ([], pos)
  end.

Definition tf_read (f : tfile) (n : tnode) (len : Z) (p : pool) : Z * list Z * tfile :=
  if size n <=? f_pos f then (0, [], f)
  else
    let len := if size n - f_pos f <? len then size n - f_pos f else len in
    let '(bs, pos) := read_loop (io_fuel len) n (f_pos f) 0 len p in
    (s32 (Z.of_nat (length bs)), bs, set_pos pos f).

Fixpoint write_loop (fuel : nat) (buf : list Z) (n : tnode) (pos done : Z) (p : pool) : Z * tnode * Z * pool :=
  let len := Z.of_nat (length buf) in
  match fuel with
  | O => (done, n, pos, p)
  | S fuel' =>
      if done <? len then
        let off := pos mod PAGE_SIZE in
        let k := PAGE_SIZE - off in
        let '(pa, n, p) := page_of n pos true p in
        if pa =? 0 then (done, n, pos, p)
        else
          let k := if len - done <? k then len - done else k in
          let p := set_mem (store_bytes (pa + off) (sub buf (Z.to_nat done) (Z.to_nat k)) (mem p)) p in
          let pos := u32 (pos + k) in
          let n := if size n <? pos then set_size pos n else n in
          write_loop fuel' buf n pos (done + k) p
      else (done, n, pos, p)
  end.

Definition tf_write (now : Z) (f : tfile) (n : tnode) (buf : list Z) (p : pool) : Z * tfile * tnode * pool :=
  let len := Z.of_nat (length buf) in
  let f := if has (f_flags f) O_APPEND then set_pos (size n) f else f in
  if u32 (f_pos f + len) <? f_pos f then (- EFBIG, f, n, p)
  else
    let '(done, n, pos, p) := write_loop (io_fuel len) buf n (f_pos f) 0 p in
    if negb (done =? 0) then (s32 done, set_pos pos f, set_mtime now n, p)
    else (if negb (len =? 0) then - ENOSPC else 0, set_pos pos f, n, p).

Definition tf_lseek (f : tfile) (n : tnode) (offset whence : Z) : Z * tfile :=
  let base := if whence =? SEEK_SET then 0
              else if whence =? SEEK_CUR then s32 (f_pos f)
              else if whence =? SEEK_END then s32 (size n) else -1 in
  if (base <? 0) || (s32 (base + offset) <? 0) then (- EINVAL, f)
  else (s32 (base + offset), set_pos (u32 (base + offset)) f).

Definition tf_truncate (now : Z) (n : tnode) (len : Z) (p : pool) : Z * tnode * pool :=
  let '(n, p) := if len <? size n then cut n len p else (n, p) in
  (0, set_mtime now (set_size len n), p).

(** The whole state: the table of nodes, that of names (Tmpfs.v), the open
    files on them, and the memory. *)
Record tmpfs := mk_tmpfs {
  nodes : list tnode; dents : list tdent; next_ino : Z; files : list (option tfile); heap : pool }.
Definition set_nodes (l : list tnode) (s : tmpfs) : tmpfs := mk_tmpfs l (dents s) (next_ino s) (files s) (heap s).
Definition set_dents (l : list tdent) (s : tmpfs) : tmpfs := mk_tmpfs (nodes s) l (next_ino s) (files s) (heap s).
Definition set_next_ino (i : Z) (s : tmpfs) : tmpfs := mk_tmpfs (nodes s) (dents s) i (files s) (heap s).
Definition set_files (l : list (option tfile)) (s : tmpfs) : tmpfs := mk_tmpfs (nodes s) (dents s) (next_ino s) l (heap s).
Definition set_heap (p : pool) (s : tmpfs) : tmpfs := mk_tmpfs (nodes s) (dents s) (next_ino s) (files s) p.

(** The operations of tmp_file_ops on open file [k], as vfs.c calls them. *)
Inductive fop :=
  | Read (len : Z)
  | Write (now : Z) (buf : list Z)
  | Seek (offset whence : Z)
  | Truncate (now len : Z).

Definition run_fop (k : nat) (o : fop) (s : tmpfs) : option (Z * list Z * tmpfs) :=
  match files s !! k with
  | Some (Some f) =>
      match nodes s !! f_node f with
      | Some n =>
          let store f n p := set_heap p (set_nodes (<[f_node f := n]> (nodes s)) (set_files (<[k := Some f]> (files s)) s)) in
          Some match o with
               | Read len => let '(r, bs, f) := tf_read f n len (heap s) in (r, bs, store f n (heap s))
               | Write now buf => let '(r, f, n, p) := tf_write now f n buf (heap s) in (r, [], store f n p)
               | Seek offset whence => let '(r, f) := tf_lseek f n offset whence in (r, [], store f n (heap s))
               | Truncate now len => let '(r, n, p) := tf_truncate now n len (heap s) in (r, [], store f n p)
               end
      | None => None
      end
  | _ => None
  end.

(** ** What the tables say *)

Definition mid (w : W) (t i : Z) : Z := if t =? 0 then 0 else load32 w (t + 4 * i).
Definition leaf (w : W) (t k : Z) : Z :=
  if mid w t (k / PTRS) =? 0 then 0 else load32 w (mid w t (k / PTRS) + 4 * (k mod PTRS)).
(** Byte [x] of the file whose top page is [t]; a hole reads as zero. *)
Definition fbyte (w : W) (t x : Z) : Z :=
  if leaf w t (x / PAGE_SIZE) =? 0 then 0 else pg_load w (leaf w t (x / PAGE_SIZE) + x mod PAGE_SIZE).

Definition nz (l : list Z) : list Z := List.filter (fun a => negb (a =? 0)) l.
(** Every page of the file: the top, the index pages and the data. *)
Definition tree (w : W) (t : Z) : list Z :=
  nz [t] ++ nz (mid w t <$> seqZ 0 1024) ++ nz (leaf w t <$> seqZ 0 1048576).

Lemma nz_app l l' : nz (l ++ l') = nz l ++ nz l'.
Proof using Type. apply List.filter_app. Qed.
Lemma elem_of_nz a l : a ∈ nz l <-> a ∈ l /\ a <> 0.
Proof using Type.
  unfold nz. rewrite !list_elem_of_In, List.filter_In, negb_true_iff, Z.eqb_neq. done.
Qed.

Lemma seqZ_split n k : 0 <= k < n -> seqZ 0 n = seqZ 0 k ++ k :: seqZ (k + 1) (n - k - 1).
Proof using Type.
  intros Hk. replace n with (k + (1 + (n - k - 1))) at 1 by lia. rewrite !seqZ_app by lia.
  by rewrite (seqZ_cons _ 1) by lia.
Qed.

(** Changing one entry of a table. *)
Lemma nz_upd (f g : Z -> Z) n k :
  0 <= k < n -> (forall j, 0 <= j < n -> j <> k -> g j = f j) ->
  nz (g <$> seqZ 0 n) ++ nz [f k] ≡ₚ nz (f <$> seqZ 0 n) ++ nz [g k].
Proof using Type.
  intros Hk Hfg. rewrite (seqZ_split n k Hk), !fmap_app, !fmap_cons.
  change (f k :: ?l) with ([f k] ++ l). change (g k :: ?l) with ([g k] ++ l). rewrite !nz_app.
  rewrite (list_fmap_ext g f (seqZ 0 k)), (list_fmap_ext g f (seqZ (k + 1) _)).
  - generalize (nz (f <$> seqZ 0 k)) (nz (f <$> seqZ (k + 1) (n - k - 1))) (nz [f k]) (nz [g k]).
    intros. solve_Permutation.
  - intros i x Hx%list_elem_of_lookup_2%elem_of_seqZ. apply Hfg; lia.
  - intros i x Hx%list_elem_of_lookup_2%elem_of_seqZ. apply Hfg; lia.
Qed.

(** Pages of a table appear once. *)
Lemma nz_inj (f : Z -> Z) n i j :
  NoDup (nz (f <$> seqZ 0 n)) -> 0 <= i < n -> 0 <= j < n -> f i <> 0 -> f i = f j -> i = j.
Proof using Type.
  intros Hnd Hi Hj Hne E. destruct (Z.eq_dec i j) as [|Hij]; [done|exfalso].
  rewrite (seqZ_split n i Hi), fmap_app, fmap_cons in Hnd.
  change (f i :: ?l) with ([f i] ++ l) in Hnd. rewrite !nz_app in Hnd.
  assert (Hin : forall l, j ∈ l -> f i ∈ nz (f <$> l)).
  { intros l Hl. apply elem_of_nz. split; [rewrite E; by apply list_elem_of_fmap_2|done]. }
  assert (Hm : f i ∈ nz [f i]) by (apply elem_of_nz; split; [by constructor|done]).
  apply NoDup_app in Hnd as (_ & Hd1 & (_ & Hd2 & _)%NoDup_app).
  destruct (Z.lt_total i j) as [Hlt|[->|Hlt]]; [|done|].
  - apply (Hd2 (f i) Hm). apply Hin, elem_of_seqZ. lia.
  - apply (Hd1 (f i)); [apply Hin, elem_of_seqZ; lia|]. apply elem_of_app. by left.
Qed.

Lemma tree_elem w t a :
  a ∈ tree w t <-> a <> 0 /\ (a = t \/ (exists i, 0 <= i < 1024 /\ a = mid w t i) \/
                             (exists k, 0 <= k < 1048576 /\ a = leaf w t k)).
Proof using Type.
  unfold tree. rewrite !elem_of_app, !elem_of_nz, list_elem_of_singleton, !list_elem_of_fmap.
  split.
  - intros [[-> ?]|[[(i & -> & Hi%elem_of_seqZ) ?]|[(k & -> & Hk%elem_of_seqZ) ?]]]; split; eauto with lia.
  - intros [Hne [->|[(i & Hi & ->)|(k & Hk & ->)]]]; [by left|right; left|right; right].
    + split; [|done]. exists i. split; [done|]. apply elem_of_seqZ. lia.
    + split; [|done]. exists k. split; [done|]. apply elem_of_seqZ. lia.
Qed.

Lemma mid_0 w i : mid w 0 i = 0.
Proof using Type. done. Qed.
Lemma leaf_0 w k : leaf w 0 k = 0.
Proof using Type. done. Qed.
Lemma leaf_mid w t k : leaf w t k <> 0 -> mid w t (k / PTRS) <> 0.
Proof using Type. unfold leaf. destruct (Z.eqb_spec (mid w t (k / PTRS)) 0); done. Qed.
Lemma mid_top w t i : mid w t i <> 0 -> t <> 0.
Proof using Type. unfold mid. destruct (Z.eqb_spec t 0); done. Qed.
Lemma nz_nil {A} (l : list A) (f : A -> Z) : (forall x, x ∈ l -> f x = 0) -> nz (f <$> l) = [].
Proof using Type.
  induction l as [|x l IH]; intros Hf; [done|]. rewrite fmap_cons.
  change (f x :: ?r) with ([f x] ++ r). rewrite nz_app, IH, (Hf x) by (constructor || (intros; apply Hf; by right)).
  done.
Qed.
Lemma tree_0 w : tree w 0 = [].
Proof using Type. unfold tree. rewrite !nz_nil; [done|..]; intros; [apply leaf_0|apply mid_0]. Qed.

Lemma index_range k : 0 <= k < 1048576 -> 0 <= k / PTRS < 1024 /\ 0 <= k mod PTRS < 1024.
Proof using Type.
  change PTRS with 1024. intros. pose proof (Z.mod_pos_bound k 1024). pose proof (Z.div_mod k 1024). lia.
Qed.

(** The pages of a file are all different, and different from the others'. *)
Record shape (w : W) (t : Z) (rest : list Z) : Prop := {
  sh_mid_top : forall i, 0 <= i < 1024 -> mid w t i <> 0 -> mid w t i <> t;
  sh_mid_inj : forall i j, 0 <= i < 1024 -> 0 <= j < 1024 -> mid w t i <> 0 -> mid w t i = mid w t j -> i = j;
  sh_leaf_top : forall k, 0 <= k < 1048576 -> leaf w t k <> 0 -> leaf w t k <> t;
  sh_leaf_mid : forall k i, 0 <= k < 1048576 -> 0 <= i < 1024 -> leaf w t k <> 0 -> leaf w t k <> mid w t i;
  sh_leaf_inj : forall k k', 0 <= k < 1048576 -> 0 <= k' < 1048576 -> leaf w t k <> 0 ->
    leaf w t k = leaf w t k' -> k = k';
  sh_rest : forall a, a ∈ tree w t -> a ∉ rest }.

Lemma acct_shape w base t rest : acct w base (tree w t ++ rest) -> shape w t rest.
Proof using Type.
  intros Ha. pose proof (ac_nodup _ _ _ Ha) as Hnd. apply NoDup_app in Hnd as (Hnd & Hr & _).
  unfold tree in Hnd. apply NoDup_app in Hnd as (_ & H1 & (H2 & H3 & H4)%NoDup_app).
  assert (Hm : forall i, 0 <= i < 1024 -> mid w t i <> 0 -> mid w t i ∈ nz (mid w t <$> seqZ 0 1024)).
  { intros i Hi Hne. apply elem_of_nz. split; [|done]. apply list_elem_of_fmap_2, elem_of_seqZ. lia. }
  assert (Hl : forall k, 0 <= k < 1048576 -> leaf w t k <> 0 -> leaf w t k ∈ nz (leaf w t <$> seqZ 0 1048576)).
  { intros k Hk Hne. apply elem_of_nz. split; [|done]. apply list_elem_of_fmap_2, elem_of_seqZ. lia. }
  assert (Ht : t <> 0 -> t ∈ nz [t]) by (intros; apply elem_of_nz; split; [by constructor|done]).
  constructor.
  - intros i Hi Hne E. apply (H1 t); [apply Ht, (mid_top w t i Hne)|]. apply elem_of_app. left.
    rewrite <- E at 1. by apply Hm.
  - intros i j Hi Hj Hne E. by apply (nz_inj (mid w t) 1024).
  - intros k Hk Hne E. apply (H1 t); [apply Ht, (mid_top w t (k / PTRS)), leaf_mid, Hne|].
    apply elem_of_app. right. rewrite <- E at 1. by apply Hl.
  - intros k i Hk Hi Hne E. apply (H3 (mid w t i)); [apply Hm; [done|congruence]|]. rewrite <- E. by apply Hl.
  - intros k k' Hk Hk' Hne E. by apply (nz_inj (leaf w t) 1048576).
  - done.
Qed.

Lemma wrote_data l w w' x k v y j :
  wrote l w w' (x + 4 * k) v -> x mod 4096 = 0 -> y mod 4096 = 0 -> y ∈ l -> y <> x -> 0 <= k < 1024 ->
  0 <= j < 4096 -> pg_load w' (y + j) = pg_load w (y + j).
Proof using Type.
  intros [E1 E2] Mx My Hy Hne Hk Hj. apply (E2 y); [done|unfold in_page; lia|].
  pose proof (Z.div_mod x 4096). pose proof (Z.div_mod y 4096). lia.
Qed.

Lemma tree_top w t : t <> 0 -> t ∈ tree w t.
Proof using Type. intros. apply tree_elem. eauto. Qed.
Lemma tree_mid w t i : 0 <= i < 1024 -> mid w t i <> 0 -> mid w t i ∈ tree w t.
Proof using Type. intros. apply tree_elem. split; [done|]. right; left. by exists i. Qed.
Lemma tree_leaf w t k : 0 <= k < 1048576 -> leaf w t k <> 0 -> leaf w t k ∈ tree w t.
Proof using Type. intros. apply tree_elem. split; [done|]. right; right. by exists k. Qed.
Hint Resolve tree_top tree_mid tree_leaf : core.

Lemma page_range x : 0 <= x < 4294967296 -> 0 <= x / PAGE_SIZE < 1048576 /\ 0 <= x mod PAGE_SIZE < 4096.
Proof using Type.
  change PAGE_SIZE with 4096. intros. pose proof (Z.mod_pos_bound x 4096). pose proof (Z.div_mod x 4096). lia.
Qed.

(** ** Frames *)

Lemma tree_same w w' t : (forall i, 0 <= i < 1024 -> mid w' t i = mid w t i) ->
  (forall k, 0 <= k < 1048576 -> leaf w' t k = leaf w t k) -> tree w' t = tree w t.
Proof using Type.
  intros Em El. unfold tree.
  rewrite (list_fmap_ext (leaf w' t) (leaf w t) (seqZ 0 1048576)), (list_fmap_ext (mid w' t) (mid w t) (seqZ 0 1024)).
  - reflexivity.
  - intros i x Hx%list_elem_of_lookup_2%elem_of_seqZ. apply Em; lia.
  - intros i x Hx%list_elem_of_lookup_2%elem_of_seqZ. apply El; lia.
Qed.

Section frame.
Context (w w' : W) (t : Z).
Hypothesis Hs : same_bytes (tree w t) w w'.

Lemma mid_frame i : 0 <= i < 1024 -> mid w' t i = mid w t i.
Proof using Hs.
  intros Hi. unfold mid. destruct (Z.eqb_spec t 0) as [|Ht]; [done|].
  apply load32_eq. intros y Hy. apply (Hs t); [auto|unfold in_page; lia].
Qed.
Lemma leaf_frame k : 0 <= k < 1048576 -> leaf w' t k = leaf w t k.
Proof using Hs.
  intros Hk. destruct (index_range k Hk) as [Hi Hj]. unfold leaf. rewrite mid_frame by done.
  destruct (Z.eqb_spec (mid w t (k / PTRS)) 0) as [|Hm]; [done|].
  apply load32_eq. intros y Hy. apply (Hs (mid w t (k / PTRS))); [auto|unfold in_page; lia].
Qed.
Lemma tree_frame : tree w' t = tree w t.
Proof using Hs. apply tree_same; [exact mid_frame|exact leaf_frame]. Qed.
Lemma fbyte_frame x : 0 <= x < 4294967296 -> fbyte w' t x = fbyte w t x.
Proof using Hs.
  intros Hx. destruct (page_range x Hx) as [Hk Ho]. unfold fbyte. rewrite leaf_frame by done.
  destruct (Z.eqb_spec (leaf w t (x / PAGE_SIZE)) 0) as [|Hl]; [done|].
  apply (Hs (leaf w t (x / PAGE_SIZE))); [auto|unfold in_page; lia].
Qed.
End frame.

(** Writing an entry of the top page. *)
Section top_entry.
Context (w w' : W) (t i v : Z) (rest l : list Z).
Hypothesis Hsh : shape w t rest.
Hypothesis Hal : forall a, a ∈ tree w t -> a mod 4096 = 0.
Hypothesis Hl : forall a, a ∈ tree w t -> a <> mid w t i -> a ∈ l.
Hypothesis Hi : 0 <= i < 1024.
Hypothesis Ht : t <> 0.
Hypothesis Hw : wrote l w w' (t + 4 * i) v.
#[local] Set Default Proof Using "Type*".

Lemma top_in : t ∈ l.
Proof. apply Hl; [auto|]. intros E. apply (sh_mid_top _ _ _ Hsh i Hi); congruence. Qed.
Lemma top_entry_mid j : 0 <= j < 1024 -> mid w' t j = if j =? i then v else mid w t j.
Proof.
  intros Hj. unfold mid. rewrite (proj2 (Z.eqb_neq t 0)) by done.
  rewrite (wrote_word l w w' t i v t j) by auto using top_in. by rewrite Z.eqb_refl.
Qed.
Lemma top_entry_leaf k : 0 <= k < 1048576 -> k / PTRS <> i -> leaf w' t k = leaf w t k.
Proof.
  intros Hk Hne. destruct (index_range k Hk) as [Hi' Hj]. unfold leaf. rewrite top_entry_mid by done.
  rewrite (proj2 (Z.eqb_neq _ i)) by done. destruct (Z.eqb_spec (mid w t (k / PTRS)) 0) as [|Hm]; [done|].
  rewrite (wrote_word l w w' t i v); auto.
  - rewrite (proj2 (Z.eqb_neq (mid w t (k / PTRS)) t)); [done|]. by apply (sh_mid_top _ _ _ Hsh).
  - apply Hl; [auto|]. intros E. apply Hne. by apply (sh_mid_inj _ _ _ Hsh).
Qed.
Lemma top_entry_leaf_here k : 0 <= k < 1048576 -> k / PTRS = i ->
  leaf w' t k = if v =? 0 then 0 else load32 w' (v + 4 * (k mod PTRS)).
Proof. intros Hk E. unfold leaf. rewrite E, top_entry_mid, Z.eqb_refl by done. done. Qed.
Lemma top_entry_byte x : 0 <= x < 4294967296 -> leaf w' t (x / PAGE_SIZE) = leaf w t (x / PAGE_SIZE) ->
  fbyte w' t x = fbyte w t x.
Proof.
  intros Hx E. destruct (page_range x Hx) as [Hk Ho]. unfold fbyte. rewrite E.
  destruct (Z.eqb_spec (leaf w t (x / PAGE_SIZE)) 0) as [|Hn]; [done|].
  apply (wrote_data l w w' t i v); auto.
  - apply Hl; [auto|]. by apply (sh_leaf_mid _ _ _ Hsh).
  - by apply (sh_leaf_top _ _ _ Hsh).
Qed.
Lemma top_entry_perm : (forall k, 0 <= k < 1048576 -> leaf w' t k = leaf w t k) ->
  tree w' t ++ nz [mid w t i] ≡ₚ tree w t ++ nz [v].
Proof.
  intros El. pose proof (nz_upd (mid w t) (mid w' t) 1024 i Hi) as P.
  rewrite (top_entry_mid i), Z.eqb_refl in P by done. unfold tree.
  rewrite (list_fmap_ext (leaf w' t) (leaf w t) (seqZ 0 1048576))
    by (intros j x Hx%list_elem_of_lookup_2%elem_of_seqZ; apply El; lia).
  assert (P' := P ltac:(intros j Hj Hne; rewrite top_entry_mid by done; by rewrite (proj2 (Z.eqb_neq j i)))).
  revert P'. generalize (nz (mid w' t <$> seqZ 0 1024)) (nz (mid w t <$> seqZ 0 1024))
    (nz [mid w t i]) (nz [v]) (nz [t]) (nz (leaf w t <$> seqZ 0 1048576)). clear. intros a b c d e f P.
  rewrite <- !(app_assoc e). apply Permutation_app_head.
  rewrite <- !app_assoc, (Permutation_app_comm f c), (Permutation_app_comm f d), !app_assoc. by rewrite P.
Qed.
End top_entry.

(** Writing an entry of an index page. *)
Section index_entry.
Context (w w' : W) (t k v : Z) (rest l : list Z).
Hypothesis Hsh : shape w t rest.
Hypothesis Hal : forall a, a ∈ tree w t -> a mod 4096 = 0.
Hypothesis Hl : forall a, a ∈ tree w t -> a <> leaf w t k -> a ∈ l.
Hypothesis Hk : 0 <= k < 1048576.
Hypothesis Hm : mid w t (k / PTRS) <> 0.
Hypothesis Hw : wrote l w w' (mid w t (k / PTRS) + 4 * (k mod PTRS)) v.
#[local] Set Default Proof Using "Type*".

Lemma index_range_k : 0 <= k / PTRS < 1024 /\ 0 <= k mod PTRS < 1024.
Proof. by apply index_range. Qed.
Lemma index_in i : 0 <= i < 1024 -> mid w t i <> 0 -> mid w t i ∈ l.
Proof.
  intros Hi Hne. apply Hl; [auto|]. intros E.
  apply (sh_leaf_mid _ _ _ Hsh k i); congruence.
Qed.
Lemma index_entry_mid i : 0 <= i < 1024 -> mid w' t i = mid w t i.
Proof.
  intros Hi. destruct index_range_k as [H1 H2]. pose proof (mid_top _ _ _ Hm) as Ht. unfold mid at 1 2.
  rewrite (proj2 (Z.eqb_neq t 0)) by done.
  rewrite (wrote_word l w w' _ _ v t i Hw); auto.
  - rewrite (proj2 (Z.eqb_neq t _)); [done|]. intros E. by apply (sh_mid_top _ _ _ Hsh (k / PTRS)).
  - apply Hl; [auto|]. intros E. apply (sh_leaf_top _ _ _ Hsh k Hk); congruence.
Qed.
Lemma index_entry_leaf k' : 0 <= k' < 1048576 -> leaf w' t k' = if k' =? k then v else leaf w t k'.
Proof.
  intros Hk'. destruct index_range_k as [H1 H2], (index_range k' Hk') as [H3 H4].
  unfold leaf at 1. rewrite index_entry_mid by done.
  destruct (Z.eqb_spec (mid w t (k' / PTRS)) 0) as [Em|Em].
  - destruct (Z.eqb_spec k' k) as [->|_]; [done|]. unfold leaf. by rewrite Em.
  - rewrite (wrote_word l w w' _ _ v _ _ Hw) by auto using index_in.
    destruct (Z.eqb_spec k' k) as [->|Hne]; [by rewrite !Z.eqb_refl|].
    replace ((_ =? _) && _) with false; [unfold leaf; by rewrite (proj2 (Z.eqb_neq _ 0) Em)|].
    symmetry. apply andb_false_iff. rewrite !Z.eqb_neq.
    destruct (Z.eq_dec (mid w t (k' / PTRS)) (mid w t (k / PTRS))) as [E|]; [right|by left].
    apply (sh_mid_inj _ _ _ Hsh) in E; [|done..]. intros E'. apply Hne.
    rewrite (Z.div_mod k' PTRS), (Z.div_mod k PTRS), E, E' by done. done.
Qed.
Lemma index_entry_byte x : 0 <= x < 4294967296 -> x / PAGE_SIZE <> k -> fbyte w' t x = fbyte w t x.
Proof.
  intros Hx Hne. destruct (page_range x Hx) as [H1 H2]. destruct index_range_k as [H3 H4].
  unfold fbyte. rewrite index_entry_leaf by done. rewrite (proj2 (Z.eqb_neq _ k)) by done.
  destruct (Z.eqb_spec (leaf w t (x / PAGE_SIZE)) 0) as [|Hn]; [done|].
  apply (wrote_data l w w' _ _ v _ _ Hw); auto.
  - apply Hl; [auto|]. intros E. apply Hne. by apply (sh_leaf_inj _ _ _ Hsh).
  - by apply (sh_leaf_mid _ _ _ Hsh).
Qed.
Lemma index_entry_perm : tree w' t ++ nz [leaf w t k] ≡ₚ tree w t ++ nz [v].
Proof.
  pose proof (nz_upd (leaf w t) (leaf w' t) 1048576 k Hk) as P.
  rewrite (index_entry_leaf k), Z.eqb_refl in P by done. unfold tree.
  rewrite (list_fmap_ext (mid w' t) (mid w t) (seqZ 0 1024))
    by (intros j x Hx%list_elem_of_lookup_2%elem_of_seqZ; apply index_entry_mid; lia).
  assert (P' := P ltac:(intros j Hj Hne; rewrite index_entry_leaf by done; by rewrite (proj2 (Z.eqb_neq j k)))).
  rewrite <- !app_assoc. by rewrite P'.
Qed.
End index_entry.

Lemma tree_fresh w t : t <> 0 -> (forall y, in_page t y -> pg_load w y = 0) ->
  tree w t = [t] /\ forall z, 0 <= z < 4294967296 -> fbyte w t z = 0.
Proof using Type.
  intros Ht Hz.
  assert (Em : forall i, 0 <= i < 1024 -> mid w t i = 0).
  { intros i Hi. unfold mid. rewrite (proj2 (Z.eqb_neq t 0)) by done. apply load32_zero.
    intros y Hy. apply Hz. unfold in_page. lia. }
  assert (El : forall k, 0 <= k < 1048576 -> leaf w t k = 0).
  { intros k Hk. unfold leaf. by rewrite Em by (by apply index_range). }
  split.
  - unfold tree. rewrite !nz_nil.
    + unfold nz. cbn [List.filter]. by rewrite (proj2 (Z.eqb_neq t 0)).
    + intros x Hx%elem_of_seqZ. apply El; lia.
    + intros x Hx%elem_of_seqZ. apply Em; lia.
  - intros z Hz'. unfold fbyte. by rewrite El by (by apply page_range).
Qed.

Lemma tree_cells w t : t <> 0 -> (forall i, 0 <= i < 1024 -> mid w t i = 0) ->
  (forall k, 0 <= k < 1048576 -> leaf w t k = 0) -> tree w t = nz [t] ++ [] ++ [].
Proof using Type.
  intros Ht Em El. unfold tree. rewrite !nz_nil; [reflexivity|..]; intros x Hx%elem_of_seqZ; [apply El|apply Em]; lia.
Qed.
(** ** A page more, or one less *)

#[local] Opaque tree.

(** What an operation on one file's tables keeps: the accounts, the others'
    pages, and the count of pages in use against the pages of the file. *)
Record evolves (base : Z -> Z) (rest : list Z) (t : Z) (p : pool) (t' : Z) (p' : pool) : Prop := {
  ev_acct : acct (mem p') base (tree (mem p') t' ++ rest);
  ev_rest : same_bytes rest (mem p) (mem p');
  ev_used : u32 (pages_used p' - Z.of_nat (length (tree (mem p') t'))) =
            u32 (pages_used p - Z.of_nat (length (tree (mem p) t)));
  ev_max : pages_max p' = pages_max p;
  ev_range : 0 <= pages_used p < 4294967296 -> 0 <= pages_used p' < 4294967296 }.

Lemma evolves_refl base rest t p : acct (mem p) base (tree (mem p) t ++ rest) -> evolves base rest t p t p.
Proof using Type. intros Ha. by constructor; try apply same_bytes_refl. Qed.
Lemma evolves_trans base rest t p t1 p1 t2 p2 :
  evolves base rest t p t1 p1 -> evolves base rest t1 p1 t2 p2 -> evolves base rest t p t2 p2.
Proof using Type.
  intros [A1 A2 A3 A4 A5] [B1 B2 B3 B4 B5]. constructor; try congruence; [by eapply same_bytes_trans|auto].
Qed.
Lemma acct_align w base t rest : acct w base (tree w t ++ rest) -> forall a, a ∈ tree w t -> a mod 4096 = 0.
Proof using Type. intros Ha a Hin. eapply acct_page; [exact Ha|]. apply elem_of_app. by left. Qed.
Lemma acct_u32 w base l a : acct w base l -> a ∈ l -> 0 <= a < 4294967296.
Proof using Type.
  intros Ha Hin. pose proof (acct_page _ _ _ _ Ha Hin). pose proof (acct_held _ _ _ _ Ha Hin).
  pose proof (pg_held_u32 w a (ac_ok _ _ _ Ha)). lia.
Qed.
Lemma bump_used p d (n n' : nat) : Z.of_nat n' = Z.of_nat n + d ->
  u32 (u32 (pages_used p + d) - Z.of_nat n') = u32 (pages_used p - Z.of_nat n).
Proof using Type.
  intros E. unfold u32. rewrite Zminus_mod_idemp_l. f_equal. lia.
Qed.
Lemma u32_shift a b (n' n : Z) c : u32 (a - n') = u32 (b - n) -> u32 b = u32 (n + c) -> u32 a = u32 (n' + c).
Proof using Type.
  unfold u32. intros E1 E2. replace a with ((a - n') + n') by lia. rewrite <- Zplus_mod_idemp_l, E1, Zplus_mod_idemp_l.
  replace (b - n + n') with (b + (n' - n)) by lia. rewrite <- Zplus_mod_idemp_l, E2, Zplus_mod_idemp_l. f_equal. lia.
Qed.
Lemma perm_length {A} (a b c d : list A) : a ++ b ≡ₚ c ++ d -> (length a + length b = length c + length d)%nat.
Proof using Type. intros E%Permutation_length. rewrite !length_app in E. done. Qed.

(** The allocator has refused a page, with the pages held as they are now. *)
Definition refused (w : W) : Prop := exists w1, pg_alloc w1 = (0, w1) /\ forall a, pg_held w1 a = pg_held w a.

Lemma acct_refused w w' base l l' : acct w base l -> acct w' base l' -> l ≡ₚ l' -> refused w -> refused w'.
Proof using Type.
  intros Ha Ha' Hp (w1 & E & Hh). exists w1. split; [done|]. intros a.
  rewrite Hh, (ac_held _ _ _ (acct_perm _ _ _ _ Hp Ha)), (ac_held _ _ _ Ha'). done.
Qed.

(** A new page, its address stored in an entry. *)
Lemma grab_spec w base l x k a w1 :
  acct w base l -> x ∈ l -> 0 <= k < 1024 -> pg_alloc w = (a, w1) ->
  let w2 := store32 (x + 4 * k) a w1 in
  0 <= a /\ acct w2 base (nz [a] ++ l) /\ wrote l w w2 (x + 4 * k) a /\ (a = 0 -> refused w2) /\
  (a <> 0 -> forall y, in_page a y -> pg_load w2 y = 0).
Proof using Type.
  intros Ha Hx Hk E w2.
  destruct (acct_alloc_zero w base l Ha) as [E'|(a' & w' & E' & Hne & Ha' & Hs & Hz)]; rewrite E in E'; simplify_eq.
  - destruct (acct_store32 w base l x k 0 Ha Hx Hk ltac:(lia)) as [A1 A2].
    split_and!; try done. intros _. exists w. split; [done|]. intros a.
    by rewrite (ac_held _ _ _ Ha), (ac_held _ _ _ A1).
  - pose proof (acct_u32 _ _ _ a' Ha' ltac:(by constructor)) as Hr.
    destruct (acct_store32 w' base (a' :: l) x k a' Ha' ltac:(by right) Hk Hr) as [A1 [A2 A3]].
    unfold nz. cbn [List.filter]. rewrite (proj2 (Z.eqb_neq a' 0)) by done. cbn [negb app].
    split_and!; try done; [lia| |].
    + split; [done|]. intros b y Hb Hy Hout. unfold w2. rewrite (A3 b y) by (done || by right). by apply (Hs b).
    + intros _ y Hy. unfold w2. rewrite (A3 a' y); [by apply Hz|by constructor|done|].
      pose proof (ac_nodup _ _ _ Ha') as [Hnin _]%NoDup_cons.
      destruct (acct_page _ _ _ a' Ha' ltac:(by constructor)) as [_ M1].
      destruct (acct_page _ _ _ x Ha' ltac:(by right)) as [_ M2].
      assert (a' <> x) by (intros ->; done). unfold in_page in *.
      pose proof (Z.div_mod a' 4096). pose proof (Z.div_mod x 4096). lia.
Qed.

Lemma wrote_rest w w' base t rest x k v :
  acct w base (tree w t ++ rest) -> x ∈ tree w t -> 0 <= k < 1024 ->
  wrote (tree w t ++ rest) w w' (x + 4 * k) v -> same_bytes rest w w'.
Proof using Type.
  intros Ha Hx Hk Hw b y Hb Hy. pose proof (acct_shape _ _ _ _ Ha) as Hsh.
  assert (Hin : b ∈ tree w t ++ rest) by (apply elem_of_app; by right).
  destruct (acct_page _ _ _ b Ha Hin) as [_ Mb].
  replace y with (b + (y - b)) by lia.
  apply (wrote_data _ w w' x k v b (y - b) Hw); auto; [by eapply acct_align| |unfold in_page in *; lia].
  intros ->. by apply (sh_rest _ _ _ Hsh x).
Qed.

Lemma fill_no_make full slot p : fill false full slot p = p.
Proof using Type. unfold fill. by destruct (load32 (mem p) slot =? 0). Qed.
Lemma fill_set full slot p : load32 (mem p) slot <> 0 -> fill true full slot p = p.
Proof using Type. intros Hn. unfold fill. by rewrite (proj2 (Z.eqb_neq _ 0)). Qed.

(** Filling an entry, given what the write does to the tables. *)
Lemma fill_evolves base rest t p x k full :
  acct (mem p) base (tree (mem p) t ++ rest) -> x ∈ tree (mem p) t -> 0 <= k < 1024 ->
  load32 (mem p) (x + 4 * k) = 0 ->
  (forall w' a, wrote (tree (mem p) t ++ rest) (mem p) w' (x + 4 * k) a ->
     (a <> 0 -> forall y, in_page a y -> pg_load w' y = 0) ->
     a ∉ tree (mem p) t ++ rest -> a mod 4096 = 0 ->
     tree w' t ≡ₚ nz [a] ++ tree (mem p) t /\
     forall z, 0 <= z < 4294967296 -> fbyte w' t z = fbyte (mem p) t z) ->
  let p' := fill true full (x + 4 * k) p in
  evolves base rest t p t p' /\ (forall z, 0 <= z < 4294967296 -> fbyte (mem p') t z = fbyte (mem p) t z) /\
  (load32 (mem p') (x + 4 * k) = 0 -> full = true \/ refused (mem p')).
Proof using Type.
  intros Ha Hx Hk E0 Hupd. unfold fill. rewrite E0, Z.eqb_refl. cbn [andb].
  destruct full; cbn [negb]; [split; [by apply evolves_refl|split; [done|by left]]|].
  destruct (pg_alloc (mem p)) as [a w1] eqn:E.
  destruct (grab_spec (mem p) base _ x k a w1 Ha ltac:(apply elem_of_app; by left) Hk E) as (G1 & G2 & G3 & G4 & G5).
  set (w2 := store32 _ _ _) in *.
  assert (Hfresh : a ∉ tree (mem p) t ++ rest /\ a mod 4096 = 0).
  { destruct (Z.eq_dec a 0) as [->|Hne].
    - split; [|done]. intros Hin. pose proof (acct_page _ _ _ _ Ha Hin). lia.
    - revert G2. unfold nz. cbn [List.filter]. rewrite (proj2 (Z.eqb_neq a 0)) by done. intros G2.
      pose proof (ac_nodup _ _ _ G2) as [? _]%NoDup_cons. split; [done|].
      eapply acct_page; [exact G2|by constructor]. }
  destruct (Hupd w2 a G3 G5 (proj1 Hfresh) (proj2 Hfresh)) as [P F].
  assert (Hacct : acct w2 base (tree w2 t ++ rest)).
  { eapply acct_perm; [|exact G2]. rewrite P. by rewrite app_assoc. }
  pose proof (Permutation_length P) as Hlen. rewrite length_app in Hlen. unfold nz in Hlen. cbn [List.filter] in Hlen.
  pose proof (wrote_rest _ _ _ _ _ _ _ _ Ha Hx Hk G3) as Hrest.
  destruct (Z.eqb_spec a 0) as [Ea|Ea]; cbn [negb length] in Hlen.
  - split; [constructor; [exact Hacct|exact Hrest| |reflexivity|done]; cbn [mem pages_used set_mem]; by rewrite Hlen|]. split; [done|]. right. by apply G4.
  - split; [constructor; [exact Hacct|exact Hrest| |reflexivity|intros _; apply u32_bound]; cbn [mem pages_used set_mem bump]; apply bump_used; lia|]. split; [done|].
    intros E'. exfalso. apply Ea. rewrite <- E'. symmetry. apply G3.
Qed.

Section page_of.
Context (base : Z -> Z) (rest : list Z).
#[local] Notation good t p := (acct (mem p) base (tree (mem p) t ++ rest)).
#[local] Notation same_data t p t' p' :=
  (forall z, 0 <= z < 4294967296 -> fbyte (mem p') t' z = fbyte (mem p) t z).

Lemma nz_0 : nz [0] = [].
Proof using Type. done. Qed.

Lemma fill_top t p i full :
  good t p -> t <> 0 -> 0 <= i < 1024 -> mid (mem p) t i = 0 ->
  let p' := fill true full (t + 4 * i) p in
  evolves base rest t p t p' /\ same_data t p t p' /\ (mid (mem p') t i = 0 -> full = true \/ refused (mem p')).
Proof using Type.
  intros Ha Ht Hi Hm. pose proof (acct_shape _ _ _ _ Ha) as Hsh. pose proof (acct_align _ _ _ _ Ha) as Hal.
  unfold mid in *. rewrite (proj2 (Z.eqb_neq t 0)) in * by done.
  apply fill_evolves; auto. intros w' a Hw Hz Hnin Hmod.
  assert (Hl : forall b, b ∈ tree (mem p) t -> b <> mid (mem p) t i -> b ∈ tree (mem p) t ++ rest)
    by (intros; apply elem_of_app; by left).
  assert (Em : mid (mem p) t i = 0) by (unfold mid; by rewrite (proj2 (Z.eqb_neq t 0))).
  assert (El : forall k, 0 <= k < 1048576 -> leaf w' t k = leaf (mem p) t k).
  { intros k Hk. destruct (Z.eq_dec (k / PTRS) i) as [E|Hne]; [|by eapply top_entry_leaf].
    rewrite (top_entry_leaf_here _ _ _ _ _ _ _ Hsh Hal Hl Hi Ht Hw k Hk E).
    unfold leaf. rewrite E, Em. destruct (Z.eqb_spec a 0) as [|Hne]; [done|]. cbn [Z.eqb].
    destruct (index_range k Hk) as [_ Hj]. apply load32_zero. intros y Hy.
    apply (Hz Hne). unfold in_page. lia. }
  split.
  - pose proof (top_entry_perm _ _ _ _ _ _ _ Hsh Hal Hl Hi Ht Hw El) as P.
    rewrite Em, nz_0, app_nil_r in P. rewrite P. apply Permutation_app_comm.
  - intros z Hz'. eapply top_entry_byte; eauto. apply El, page_range, Hz'.
Qed.

Lemma fill_index t p k full :
  good t p -> 0 <= k < 1048576 -> mid (mem p) t (k / PTRS) <> 0 -> leaf (mem p) t k = 0 ->
  let p' := fill true full (mid (mem p) t (k / PTRS) + 4 * (k mod PTRS)) p in
  evolves base rest t p t p' /\ same_data t p t p' /\ mid (mem p') t (k / PTRS) = mid (mem p) t (k / PTRS) /\
  (leaf (mem p') t k = 0 -> full = true \/ refused (mem p')).
Proof using Type.
  intros Ha Hk Hm Hlf p'. pose proof (acct_shape _ _ _ _ Ha) as Hsh. pose proof (acct_align _ _ _ _ Ha) as Hal.
  destruct (index_range k Hk) as [Hi Hj].
  assert (E0 : load32 (mem p) (mid (mem p) t (k / PTRS) + 4 * (k mod PTRS)) = 0).
  { unfold leaf in Hlf. by rewrite (proj2 (Z.eqb_neq _ 0) Hm) in Hlf. }
  assert (Hl : forall b, b ∈ tree (mem p) t -> b <> leaf (mem p) t k -> b ∈ tree (mem p) t ++ rest)
    by (intros; apply elem_of_app; by left).
  assert (Hmid : mid (mem p') t (k / PTRS) = mid (mem p) t (k / PTRS)).
  { unfold p', fill. rewrite E0, Z.eqb_refl. cbn [andb]. destruct full; cbn [negb]; [done|].
    destruct (pg_alloc (mem p)) as [a w1] eqn:E.
    destruct (grab_spec (mem p) base _ _ (k mod PTRS) a w1 Ha (proj2 (elem_of_app _ _ _) (or_introl (tree_mid _ _ _ Hi Hm))) Hj E)
      as (_ & _ & Hw & _). pose proof (index_entry_mid _ _ _ _ _ _ _ Hsh Hal Hl Hk Hm Hw _ Hi) as Em.
    by destruct (a =? 0). }
  destruct (fill_evolves base rest t p (mid (mem p) t (k / PTRS)) (k mod PTRS) full) as (E1 & E2 & E3); auto.
  - intros w' a Hw Hz Hnin Hmod. split.
    + pose proof (index_entry_perm _ _ _ _ _ _ _ Hsh Hal Hl Hk Hm Hw) as P.
      rewrite Hlf, nz_0, app_nil_r in P. rewrite P. apply Permutation_app_comm.
    + intros z Hz'. destruct (Z.eq_dec (z / PAGE_SIZE) k) as [Ez|Hne]; [|by eapply index_entry_byte].
      unfold fbyte. rewrite Ez, Hlf. cbn [Z.eqb].
      rewrite (index_entry_leaf _ _ _ _ _ _ _ Hsh Hal Hl Hk Hm Hw k Hk), Z.eqb_refl.
      destruct (Z.eqb_spec a 0) as [|Hne]; [done|]. apply (Hz Hne).
      pose proof (page_range z Hz'). unfold in_page. lia.
  - split; [done|]. split; [done|]. split; [done|]. intros E. apply E3. unfold leaf in E. rewrite Hmid in E.
    by rewrite (proj2 (Z.eqb_neq _ 0) Hm) in E.
Qed.

Lemma page_of_look n off p : page_of n off false p = (leaf (mem p) (top n) (off / PAGE_SIZE), n, p).
Proof using Type.
  unfold page_of, leaf, mid. rewrite andb_false_r. destruct (top n =? 0); [done|]. rewrite !fill_no_make.
  by destruct (load32 (mem p) (top n + 4 * (off / PAGE_SIZE / PTRS)) =? 0).
Qed.

(** What page_of with make does, whether it gets its pages or not. *)
Definition made (n : tnode) (off : Z) (p : pool) (pa : Z) (n' : tnode) (p' : pool) : Prop :=
  n' = set_top (top n') n /\ evolves base rest (top n) p (top n') p' /\ same_data (top n) p (top n') p' /\
  pa = leaf (mem p') (top n') (off / PAGE_SIZE) /\
  (pa = 0 -> pages_max p' <= pages_used p' \/ refused (mem p')).

Lemma set_top_self n : set_top (top n) n = n.
Proof using Type. by destruct n. Qed.

(** The tables below a top page that is there. *)
Lemma page_of_below n off p :
  good (top n) p -> 0 <= off < 4294967296 -> top n <> 0 ->
  let '(pa, n', p') := page_of n off true p in made n off p pa n' p'.
Proof using Type.
  intros Ha Hoff Ht. destruct (page_range off Hoff) as [Hk _]. destruct (index_range _ Hk) as [Hi Hj].
  unfold page_of. rewrite (proj2 (Z.eqb_neq (top n) 0)) by done. cbn [andb].
  rewrite (proj2 (Z.eqb_neq (top n) 0)) by done.
  set (k := off / PAGE_SIZE) in *. set (p1 := fill true false _ p).
  assert (H1 : evolves base rest (top n) p (top n) p1 /\ same_data (top n) p (top n) p1 /\
               (mid (mem p1) (top n) (k / PTRS) = 0 -> refused (mem p1))).
  { destruct (Z.eq_dec (mid (mem p) (top n) (k / PTRS)) 0) as [E|E].
    - destruct (fill_top (top n) p (k / PTRS) false Ha Ht Hi E) as (A & B & C). split_and!; try done.
      intros D. by destruct (C D).
    - assert (p1 = p) as ->; [|split; [by apply evolves_refl|done]].
      apply fill_set. unfold mid in E. by rewrite (proj2 (Z.eqb_neq (top n) 0)) in E. }
  destruct H1 as (E1 & D1 & R1). pose proof (ev_acct _ _ _ _ _ _ E1) as Ha1.
  assert (Emid : load32 (mem p1) (top n + 4 * (k / PTRS)) = mid (mem p1) (top n) (k / PTRS))
    by (unfold mid; by rewrite (proj2 (Z.eqb_neq (top n) 0))).
  rewrite Emid. destruct (Z.eqb_spec (mid (mem p1) (top n) (k / PTRS)) 0) as [Em|Em].
  - split; [by rewrite set_top_self|]. split; [done|]. split; [done|]. fold k. split; [unfold leaf; by rewrite Em|].
    intros _. right. auto.
  - assert (Eleaf : load32 (mem p1) (mid (mem p1) (top n) (k / PTRS) + 4 * (k mod PTRS)) = leaf (mem p1) (top n) k)
      by (unfold leaf; by rewrite (proj2 (Z.eqb_neq _ 0) Em)).
    destruct (Z.eq_dec (leaf (mem p1) (top n) k) 0) as [El|El].
    + destruct (fill_index (top n) p1 k (pages_max p1 <=? pages_used p1) Ha1 Hk Em El) as (E2 & D2 & M2 & R2).
      set (p2 := fill true _ _ p1) in *.
      split; [by rewrite set_top_self|]. split; [by eapply evolves_trans|].
      split; [intros z Hz; rewrite D2, D1 by done; done|].
      assert (Eq : load32 (mem p2) (mid (mem p1) (top n) (k / PTRS) + 4 * (k mod PTRS)) = leaf (mem p2) (top n) k)
        by (unfold leaf; rewrite M2; by rewrite (proj2 (Z.eqb_neq _ 0) Em)).
      fold k. split; [done|]. intros Hpa. rewrite Eq in Hpa. destruct (R2 Hpa) as [F|?]; [left|by right].
      unfold p2. rewrite F. unfold fill. rewrite andb_false_r. by apply Z.leb_le.
    + rewrite fill_set by congruence. rewrite Eleaf. split; [by rewrite set_top_self|]. split; [done|]. split; [done|].
      fold k. split; [done|]. done.
Qed.

Lemma page_of_make n off p :
  good (top n) p -> 0 <= off < 4294967296 ->
  let '(pa, n', p') := page_of n off true p in made n off p pa n' p'.
Proof using Type.
  intros Ha Hoff. destruct (Z.eq_dec (top n) 0) as [Et|Et]; [|by apply page_of_below].
  destruct (acct_alloc_zero _ _ _ Ha) as [E|(a & w1 & E & Hne & Ha1 & Hs & Hz)].
  - unfold page_of. rewrite Et, E. cbn [Z.eqb andb top set_top].
    assert (Ep : set_mem (mem p) p = p) by (by destruct p). rewrite Ep.
    split; [done|]. cbn [top set_top]. rewrite Et. rewrite Et in Ha. split; [by apply evolves_refl|].
    split; [done|]. split; [by rewrite leaf_0|]. intros _. right. by exists (mem p).
  - set (n1 := set_top a n). set (p1 := bump 1 (set_mem w1 p)).
    assert (Epo : page_of n off true p = page_of n1 off true p1).
    { unfold page_of, n1. rewrite Et, E. cbn [Z.eqb andb top set_top].
      rewrite !(proj2 (Z.eqb_neq a 0)) by done. cbv beta iota zeta. cbn [andb top set_top].
      rewrite !(proj2 (Z.eqb_neq a 0)) by done. reflexivity. }
    destruct (tree_fresh w1 a Hne Hz) as [T1 F1]. rewrite Et, tree_0 in Ha1. rewrite Et, tree_0 in Hs.
    assert (E1 : evolves base rest (top n) p (top n1) p1).
    { constructor; cbn [mem p1 bump set_mem n1 top set_top pages_used].
      - by rewrite T1.
      - exact Hs.
      - rewrite T1, Et, tree_0. apply bump_used. done.
      - done.
      - intros _. apply u32_bound. }
    assert (D1 : same_data (top n) p (top n1) p1).
    { intros z Hz'. cbn [mem p1 bump set_mem n1 top set_top]. rewrite Et, F1 by done. done. }
    pose proof (page_of_below n1 off p1 (ev_acct _ _ _ _ _ _ E1) Hoff Hne) as B. rewrite Epo.
    destruct (page_of n1 off true p1) as [[pa n'] p']. destruct B as (B1 & B2 & B3 & B4 & B5).
    split; [rewrite B1; done|]. split; [by eapply evolves_trans|]. split; [|done].
    intros z Hz'. rewrite B3, D1 by done. done.
Qed.

(** ** Cutting a file *)

(** The pages [del] says are gone, and nothing else has changed. *)
Record trims (del : Z -> bool) (t : Z) (p p' : pool) : Prop := {
  tr_ev : evolves base rest t p t p';
  tr_leaf : forall k, 0 <= k < 1048576 -> leaf (mem p') t k = if del k then 0 else leaf (mem p) t k;
  tr_byte : forall z, 0 <= z < 4294967296 ->
    fbyte (mem p') t z = if del (z / PAGE_SIZE) then 0 else fbyte (mem p) t z }.

Lemma trims_trans d1 d2 d t p p1 p2 :
  trims d1 t p p1 -> trims d2 t p1 p2 -> (forall k, 0 <= k < 1048576 -> d k = d1 k || d2 k) -> trims d t p p2.
Proof using Type.
  intros [A1 A2 A3] [B1 B2 B3] Hd. constructor; [by eapply evolves_trans|..].
  - intros k Hk. rewrite B2, A2, Hd by done. by destruct (d1 k), (d2 k).
  - intros z Hz. rewrite B3, A3, Hd by (done || by apply page_range).
    by destruct (d1 (z / PAGE_SIZE)), (d2 (z / PAGE_SIZE)).
Qed.
Lemma trims_none d t p : good t p ->
  (forall k, 0 <= k < 1048576 -> d k = true -> leaf (mem p) t k = 0) -> trims d t p p.
Proof using Type.
  intros Ha Hd. constructor; [by apply evolves_refl|..].
  - intros k Hk. destruct (d k) eqn:E; [by apply Hd|done].
  - intros z Hz. destruct (d (z / PAGE_SIZE)) eqn:E; [|done]. unfold fbyte. by rewrite Hd by (done || by apply page_range).
Qed.

(** A page given back, and its entry cleared. *)
Lemma drop_spec w l v l' x k :
  acct w base l -> l ≡ₚ v :: l' -> x ∈ l' -> 0 <= k < 1024 ->
  let w2 := store32 (x + 4 * k) 0 (pg_free v w) in acct w2 base l' /\ wrote l' w w2 (x + 4 * k) 0.
Proof using Type.
  intros Ha Hp Hx Hk w2. destruct (acct_free _ _ _ _ (acct_perm _ _ _ _ Hp Ha)) as [A1 A2].
  destruct (acct_store32 _ base l' x k 0 A1 Hx Hk ltac:(lia)) as [B1 [B2 B3]].
  split; [done|]. split; [done|]. intros b y Hb Hy Ho. unfold w2. rewrite (B3 b) by done. by apply (A2 b).
Qed.

Lemma elem_split (v : Z) (l : list Z) : v ∈ l -> exists l', l ≡ₚ v :: l'.
Proof using Type. apply elem_of_Permutation. Qed.

(** An entry of the tables cleared, given what that does to them. *)
Lemma drop_evolves t p v x k l' :
  good t p -> v ∈ tree (mem p) t -> x ∈ tree (mem p) t -> x <> v -> 0 <= k < 1024 ->
  tree (mem p) t ++ rest ≡ₚ v :: l' ->
  let w' := store32 (x + 4 * k) 0 (pg_free v (mem p)) in
  wrote l' (mem p) w' (x + 4 * k) 0 -> tree w' t ++ nz [v] ≡ₚ tree (mem p) t ->
  evolves base rest t p t (bump (-1) (set_mem w' p)).
Proof using Type.
  intros Ha Hv Hx Hne Hk Hl' w' Hw Ht. pose proof (acct_shape _ _ _ _ Ha) as Hsh.
  assert (Hv0 : v <> 0) by (by apply tree_elem in Hv as [? _]).
  assert (En : nz [v] = [v]) by (unfold nz; cbn [List.filter]; by rewrite (proj2 (Z.eqb_neq v 0))).
  rewrite En in Ht.
  assert (Hin : forall b, b ∈ tree (mem p) t ++ rest -> b <> v -> b ∈ l').
  { intros b Hb Hbv. rewrite Hl' in Hb. by apply elem_of_cons in Hb as [?|?]. }
  destruct (drop_spec (mem p) _ v l' x k Ha Hl') as [D1 D2]; [apply Hin; [apply elem_of_app; by left|done]|done|].
  fold w' in D1, D2.
  constructor; cbn [mem bump set_mem pages_used pages_max]; [| | |done|intros _; apply u32_bound].
  - eapply acct_perm; [|exact D1]. apply (Permutation_cons_inv (a := v)). rewrite <- Hl', <- Ht.
    rewrite <- app_assoc. cbn [app]. symmetry. apply Permutation_middle.
  - intros b y Hb Hy. assert (Hb' : b ∈ tree (mem p) t ++ rest) by (apply elem_of_app; by right).
    replace y with (b + (y - b)) by lia.
    apply (wrote_data l' (mem p) w' x k 0 b (y - b) Hw); auto.
    + by eapply acct_align.
    + eapply acct_page; [exact Ha|done].
    + apply Hin; [done|]. intros ->. by apply (sh_rest _ _ _ Hsh v).
    + intros ->. by apply (sh_rest _ _ _ Hsh x).
    + unfold in_page in Hy. lia.
  - apply bump_used. pose proof (Permutation_length Ht) as L. rewrite length_app in L. cbn [length] in L. lia.
Qed.

Lemma others_in t p v (l' : list Z) :
  tree (mem p) t ++ rest ≡ₚ v :: l' -> forall a, a ∈ tree (mem p) t -> a <> v -> a ∈ l'.
Proof using Type.
  intros Hl' a Ha Hne. assert (Hin : a ∈ tree (mem p) t ++ rest) by (apply elem_of_app; by left).
  rewrite Hl' in Hin. by apply elem_of_cons in Hin as [?|?].
Qed.

Lemma drop_leaf t p k :
  good t p -> 0 <= k < 1048576 -> leaf (mem p) t k <> 0 ->
  let p' := bump (-1) (set_mem (store32 (mid (mem p) t (k / PTRS) + 4 * (k mod PTRS)) 0
                                 (pg_free (leaf (mem p) t k) (mem p))) p) in
  trims (Z.eqb k) t p p' /\ forall i, 0 <= i < 1024 -> mid (mem p') t i = mid (mem p) t i.
Proof using Type.
  intros Ha Hk Hlf p'. pose proof (acct_shape _ _ _ _ Ha) as Hsh. pose proof (acct_align _ _ _ _ Ha) as Hal.
  destruct (index_range k Hk) as [Hi Hj]. pose proof (leaf_mid _ _ _ Hlf) as Hm.
  destruct (elem_split (leaf (mem p) t k) (tree (mem p) t ++ rest)) as [l' Hl'];
    [apply elem_of_app; auto|]. pose proof (others_in _ _ _ _ Hl') as Hin.
  assert (Hne : mid (mem p) t (k / PTRS) <> leaf (mem p) t k) by (intros E; by apply (sh_leaf_mid _ _ _ Hsh k (k / PTRS))).
  destruct (drop_spec (mem p) _ _ l' (mid (mem p) t (k / PTRS)) (k mod PTRS) Ha Hl') as [_ Hw]; [auto|done|].
  set (w' := store32 _ _ _) in *.
  pose proof (index_entry_perm _ _ _ _ _ _ _ Hsh Hal Hin Hk Hm Hw) as P. rewrite nz_0, app_nil_r in P.
  assert (Hleaf := index_entry_leaf _ _ _ _ _ _ _ Hsh Hal Hin Hk Hm Hw).
  split; [|exact (index_entry_mid _ _ _ _ _ _ _ Hsh Hal Hin Hk Hm Hw)]. constructor.
  - apply (drop_evolves t p (leaf (mem p) t k) (mid (mem p) t (k / PTRS)) (k mod PTRS) l'); auto.
  - intros k' Hk'. cbn [mem p' bump set_mem]. rewrite Hleaf by done. by rewrite Z.eqb_sym.
  - intros z Hz. cbn [mem p' bump set_mem]. destruct (Z.eqb_spec k (z / PAGE_SIZE)) as [E|E].
    + unfold fbyte. rewrite Hleaf, <- E, Z.eqb_refl by (by apply page_range). done.
    + eapply index_entry_byte; eauto.
Qed.

Lemma drop_mid t p i :
  good t p -> 0 <= i < 1024 -> mid (mem p) t i <> 0 ->
  (forall k, 0 <= k < 1048576 -> k / PTRS = i -> leaf (mem p) t k = 0) ->
  let p' := bump (-1) (set_mem (store32 (t + 4 * i) 0 (pg_free (mid (mem p) t i) (mem p))) p) in
  trims (fun _ => false) t p p' /\
  forall i', 0 <= i' < 1024 -> mid (mem p') t i' = if i' =? i then 0 else mid (mem p) t i'.
Proof using Type.
  intros Ha Hi Hm Hz p'. pose proof (acct_shape _ _ _ _ Ha) as Hsh. pose proof (acct_align _ _ _ _ Ha) as Hal.
  pose proof (mid_top _ _ _ Hm) as Ht.
  destruct (elem_split (mid (mem p) t i) (tree (mem p) t ++ rest)) as [l' Hl'];
    [apply elem_of_app; auto|]. pose proof (others_in _ _ _ _ Hl') as Hin.
  assert (Hne : t <> mid (mem p) t i) by (intros E; by apply (sh_mid_top _ _ _ Hsh i)).
  destruct (drop_spec (mem p) _ _ l' t i Ha Hl') as [_ Hw]; [auto|done|].
  set (w' := store32 _ _ _) in *.
  assert (Hleaf : forall k, 0 <= k < 1048576 -> leaf w' t k = leaf (mem p) t k).
  { intros k Hk. destruct (Z.eq_dec (k / PTRS) i) as [E|E]; [|by eapply top_entry_leaf].
    rewrite (top_entry_leaf_here _ _ _ _ _ _ _ Hsh Hal Hin Hi Ht Hw k Hk E). by rewrite Hz. }
  pose proof (top_entry_perm _ _ _ _ _ _ _ Hsh Hal Hin Hi Ht Hw Hleaf) as P. rewrite nz_0, app_nil_r in P.
  split; [|exact (top_entry_mid _ _ _ _ _ _ _ Hsh Hal Hin Hi Ht Hw)]. constructor.
  - apply (drop_evolves t p (mid (mem p) t i) t i l'); auto.
  - exact Hleaf.
  - intros z Hz'. cbn [mem p' bump set_mem]. eapply top_entry_byte; eauto. by apply Hleaf, page_range.
Qed.

(** One entry of an index page. *)
Lemma cut_entry_spec t from i j p any :
  good t p -> 0 <= i < 1024 -> (j < 1024)%nat -> mid (mem p) t i <> 0 ->
  let k := i * PTRS + Z.of_nat j in
  let '(p', any') := cut_entry (mid (mem p) t i) i from j (p, any) in
  trims (fun k' => (k =? k') && (from <=? k' * PAGE_SIZE)) t p p' /\
  (forall i', 0 <= i' < 1024 -> mid (mem p') t i' = mid (mem p) t i') /\
  any' = any || negb (leaf (mem p') t k =? 0).
Proof using Type.
  intros Ha Hi Hj Hm k.
  assert (Hk : 0 <= k < 1048576) by (unfold k; change PTRS with 1024; lia).
  assert (Ki : k / PTRS = i) by (unfold k; change PTRS with 1024; rewrite Z.div_add_l by lia; rewrite Z.div_small; lia).
  assert (Kj : k mod PTRS = Z.of_nat j)
    by (unfold k; change PTRS with 1024; rewrite Z.add_comm, Z.mod_add by lia; apply Z.mod_small; lia).
  assert (Hload : forall q, mid (mem q) t i = mid (mem p) t i ->
            load32 (mem q) (mid (mem p) t i + 4 * Z.of_nat j) = leaf (mem q) t k).
  { intros q E. unfold leaf. rewrite Ki, Kj, E. by rewrite (proj2 (Z.eqb_neq _ 0) Hm). }
  unfold cut_entry. fold k. rewrite (Hload p) by done.
  rewrite (u32_small k) by lia. rewrite (u32_small (k * PAGE_SIZE)) by (change PAGE_SIZE with 4096; lia).
  destruct (Z.eqb_spec (leaf (mem p) t k) 0) as [E|E]; cbn [negb andb].
  { rewrite (Hload p) by done. split; [|split; [done|done]]. apply trims_none; [done|].
    intros k' Hk' [<-%Z.eqb_eq _]%andb_true_iff. done. }
  destruct (Z.leb_spec from (k * PAGE_SIZE)) as [Hf|Hf].
  - destruct (drop_leaf t p k Ha Hk E) as [T M]. rewrite Ki, Kj in *. set (p' := bump _ _) in *.
    rewrite (Hload p') by (by apply M). split; [|split; [done|done]].
    destruct T as [T1 T2 T3]. constructor; [done|..].
    + intros k' Hk'. rewrite T2 by done. destruct (Z.eqb_spec k k') as [<-|]; [|done].
      by rewrite (proj2 (Z.leb_le _ _) Hf).
    + intros z Hz. rewrite T3 by done. destruct (Z.eqb_spec k (z / PAGE_SIZE)) as [<-|]; [|done].
      by rewrite (proj2 (Z.leb_le _ _) Hf).
  - rewrite (Hload p) by done. split; [|split; [done|done]]. apply trims_none; [done|].
    intros k' Hk' [<-%Z.eqb_eq ?%Z.leb_le]%andb_true_iff. lia.
Qed.

Lemma index_split k i : k / PTRS = i -> k = i * PTRS + k mod PTRS.
Proof using Type. intros <-. rewrite (Z.div_mod k PTRS) at 1 by done. lia. Qed.

(** The pages a whole index page loses. *)
Definition cut_in (i from : Z) (m : nat) (k : Z) : bool :=
  (k / PTRS =? i) && (k mod PTRS <? Z.of_nat m) && (from <=? k * PAGE_SIZE).

Lemma cut_entries_spec t from i p m :
  good t p -> 0 <= i < 1024 -> (m <= 1024)%nat -> mid (mem p) t i <> 0 ->
  let '(p', any) := for_upto m (cut_entry (mid (mem p) t i) i from) (p, false) in
  trims (cut_in i from m) t p p' /\
  (forall i', 0 <= i' < 1024 -> mid (mem p') t i' = mid (mem p) t i') /\
  (any = false <-> forall j, (j < m)%nat -> leaf (mem p') t (i * PTRS + Z.of_nat j) = 0).
Proof using Type.
  intros Ha Hi Hm Hne.
  apply (for_upto_ind (fun m '(p', any) => trims (cut_in i from m) t p p' /\
    (forall i', 0 <= i' < 1024 -> mid (mem p') t i' = mid (mem p) t i') /\
    (any = false <-> forall j, (j < m)%nat -> leaf (mem p') t (i * PTRS + Z.of_nat j) = 0))).
  - split; [|split; [done|split; [intros _ j Hj; lia|done]]]. apply trims_none; [done|].
    intros k Hk. unfold cut_in. destruct (index_range k Hk). rewrite (proj2 (Z.ltb_ge _ (Z.of_nat 0))) by lia.
    by rewrite andb_false_r.
  - intros j [p1 any1] Hj (T1 & M1 & A1). rewrite <- (M1 i Hi).
    pose proof (cut_entry_spec t from i j p1 any1 (ev_acct _ _ _ _ _ _ (tr_ev _ _ _ _ T1)) Hi ltac:(lia)) as S.
    rewrite M1 in S by done. specialize (S Hne). rewrite M1 by done.
    destruct (cut_entry (mid (mem p) t i) i from j (p1, any1)) as [p2 any2]. destruct S as (T2 & M2 & A2).
    split; [|split; [intros i' Hi'; rewrite M2 by done; by apply M1|]].
    + eapply trims_trans; [exact T1|exact T2|]. intros k Hk. unfold cut_in. destruct (index_range k Hk) as [_ Hkm].
      destruct (from <=? k * PAGE_SIZE); [|rewrite !andb_false_r; done]. rewrite !andb_true_r.
      destruct (Z.eqb_spec (k / PTRS) i) as [E|E]; cbn [andb orb].
      * rewrite (index_split k i E) at 3. destruct (Z.ltb_spec (k mod PTRS) (Z.of_nat (S j))),
          (Z.ltb_spec (k mod PTRS) (Z.of_nat j)), (Z.eqb_spec (i * PTRS + Z.of_nat j) (i * PTRS + k mod PTRS)); lia || done.
      * symmetry. apply Z.eqb_neq. intros <-. apply E. change PTRS with 1024.
        rewrite Z.div_add_l by lia. rewrite Z.div_small; lia.
    + subst any2. rewrite orb_false_iff, negb_false_iff, Z.eqb_eq, A1.
      assert (Hold : forall j', (j' < j)%nat ->
                leaf (mem p2) t (i * PTRS + Z.of_nat j') = leaf (mem p1) t (i * PTRS + Z.of_nat j')).
      { intros j' Hj'. rewrite (tr_leaf _ _ _ _ T2) by (change PTRS with 1024; lia).
        rewrite (proj2 (Z.eqb_neq _ _)) by lia. done. }
      split.
      * intros [B1 B2] j' Hj'. destruct (decide (j' = j)) as [->|]; [done|]. rewrite Hold by lia. apply B1. lia.
      * intros B. split; [|apply B; lia]. intros j' Hj'. rewrite <- Hold by done. apply B. lia.
Qed.

Lemma cut_index_spec t from i p :
  good t p -> t <> 0 -> (i < 1024)%nat ->
  let p' := cut_index t from i p in
  trims (cut_in (Z.of_nat i) from 1024) t p p' /\
  (forall i', 0 <= i' < 1024 -> i' <> Z.of_nat i -> mid (mem p') t i' = mid (mem p) t i') /\
  ((forall k, 0 <= k < 1048576 -> k / PTRS = Z.of_nat i -> leaf (mem p') t k = 0) -> mid (mem p') t (Z.of_nat i) = 0).
Proof using Type.
  intros Ha Ht Hi. unfold cut_index.
  assert (E : load32 (mem p) (t + 4 * Z.of_nat i) = mid (mem p) t (Z.of_nat i))
    by (unfold mid; by rewrite (proj2 (Z.eqb_neq t 0))).
  rewrite E. destruct (Z.eqb_spec (mid (mem p) t (Z.of_nat i)) 0) as [Em|Em].
  { split; [|split; [done|done]]. apply trims_none; [done|]. intros k Hk Hd. unfold cut_in in Hd.
    apply andb_true_iff in Hd as [[Hd%Z.eqb_eq _]%andb_true_iff _]. unfold leaf. by rewrite Hd, Em. }
  pose proof (cut_entries_spec t from (Z.of_nat i) p 1024 Ha ltac:(lia) ltac:(lia) Em) as S.
  change (Z.to_nat PTRS) with 1024%nat.
  destruct (for_upto 1024 _ (p, false)) as [p1 any]. destruct S as (T & M & A).
  destruct any.
  - split; [done|]. split; [intros; by apply M|]. intros Hz. exfalso.
    assert (B : true = false) by (apply A; intros j Hj; apply Hz; change PTRS with 1024;
      [lia|rewrite Z.div_add_l by lia; rewrite Z.div_small; lia]). done.
  - assert (Ha1 := ev_acct _ _ _ _ _ _ (tr_ev _ _ _ _ T)).
    assert (Em1 := M (Z.of_nat i) ltac:(lia)).
    destruct (drop_mid t p1 (Z.of_nat i) Ha1 ltac:(lia)) as [T2 M2]; [congruence| |].
    { intros k Hk Ek. destruct (index_range k Hk) as [_ Hkm]. rewrite (index_split k _ Ek).
      replace (k mod PTRS) with (Z.of_nat (Z.to_nat (k mod PTRS))) by lia. apply A; [done|lia]. }
    rewrite Em1 in T2, M2. split; [|split].
    + eapply trims_trans; [exact T|exact T2|]. intros; by rewrite orb_false_r.
    + intros i' Hi' Hne. rewrite M2 by done. rewrite (proj2 (Z.eqb_neq _ _) Hne). by apply M.
    + intros _. rewrite M2 by lia. by rewrite Z.eqb_refl.
Qed.

Lemma cut_loop_spec t from p m :
  good t p -> t <> 0 -> (m <= 1024)%nat ->
  let p' := for_upto m (cut_index t from) p in
  trims (fun k => (k / PTRS <? Z.of_nat m) && (from <=? k * PAGE_SIZE)) t p p' /\
  (forall i, 0 <= i < Z.of_nat m -> (forall k, 0 <= k < 1048576 -> k / PTRS = i -> leaf (mem p') t k = 0) ->
     mid (mem p') t i = 0).
Proof using Type.
  intros Ha Ht Hm.
  apply (for_upto_ind (fun m p' => trims (fun k => (k / PTRS <? Z.of_nat m) && (from <=? k * PAGE_SIZE)) t p p' /\
    (forall i, 0 <= i < Z.of_nat m -> (forall k, 0 <= k < 1048576 -> k / PTRS = i -> leaf (mem p') t k = 0) ->
       mid (mem p') t i = 0))).
  - split; [|intros i Hi; lia]. apply trims_none; [done|]. intros k Hk. destruct (index_range k Hk).
    by rewrite (proj2 (Z.ltb_ge _ (Z.of_nat 0))) by lia.
  - intros i p1 Hi (T1 & M1).
    destruct (cut_index_spec t from i p1 (ev_acct _ _ _ _ _ _ (tr_ev _ _ _ _ T1)) Ht ltac:(lia)) as (T2 & M2 & Z2).
    set (p2 := cut_index t from i p1) in *. split.
    + eapply trims_trans; [exact T1|exact T2|]. intros k Hk. unfold cut_in. destruct (index_range k Hk) as [_ Hkm].
      destruct (from <=? k * PAGE_SIZE); [|by rewrite !andb_false_r]. rewrite !andb_true_r.
      rewrite (proj2 (Z.ltb_lt (k mod PTRS) (Z.of_nat 1024))) by lia. rewrite andb_true_r.
      destruct (Z.ltb_spec (k / PTRS) (Z.of_nat (S i))), (Z.ltb_spec (k / PTRS) (Z.of_nat i)),
        (Z.eqb_spec (k / PTRS) (Z.of_nat i)); lia || done.
    + intros i' Hi' Hz. destruct (Z.eq_dec i' (Z.of_nat i)) as [->|Hne]; [by apply Z2|].
      rewrite M2 by lia. apply M1; [lia|]. intros k Hk Ek. rewrite <- (Hz k Hk Ek).
      rewrite (tr_leaf _ _ _ _ T2) by done. unfold cut_in. by rewrite Ek, (proj2 (Z.eqb_neq _ _) Hne).
Qed.

(** Writing bytes in a page of data. *)
Lemma poke_spec t p k off bs :
  good t p -> 0 <= k < 1048576 -> leaf (mem p) t k <> 0 -> 0 <= off -> off + Z.of_nat (length bs) <= 4096 ->
  Forall (fun b => 0 <= b < 256) bs ->
  let p' := set_mem (store_bytes (leaf (mem p) t k + off) bs (mem p)) p in
  evolves base rest t p t p' /\
  forall z, 0 <= z < 4294967296 ->
    fbyte (mem p') t z =
    if (k * PAGE_SIZE + off <=? z) && (z <? k * PAGE_SIZE + off + Z.of_nat (length bs))
    then default 0 (bs !! Z.to_nat (z - (k * PAGE_SIZE + off))) else fbyte (mem p) t z.
Proof using Type.
  intros Ha Hk Hlf Hoff Hlen Hbs p'. pose proof (acct_shape _ _ _ _ Ha) as Hsh. pose proof (acct_align _ _ _ _ Ha) as Hal.
  set (d := leaf (mem p) t k) in *.
  assert (Hd : d ∈ tree (mem p) t) by (by apply tree_leaf).
  destruct (store_bytes_loop (mem p) base _ d (d + off) bs Ha ltac:(apply elem_of_app; by left) ltac:(lia) ltac:(lia) Hbs)
    as (G1 & G2 & G3). set (w' := store_bytes _ _ _) in *.
  assert (Hpage : forall b y, b mod 4096 = 0 -> b <> d -> in_page b y -> pg_load w' y = pg_load (mem p) y).
  { intros b y Mb Hne Hy. apply G2. unfold in_page in Hy. pose proof (Hal d Hd).
    pose proof (Z.div_mod b 4096). pose proof (Z.div_mod d 4096). lia. }
  assert (Hmid : forall i, 0 <= i < 1024 -> mid w' t i = mid (mem p) t i).
  { intros i Hi. unfold mid. destruct (Z.eqb_spec t 0) as [|Ht]; [done|]. apply load32_eq. intros y Hy.
    apply (Hpage t); [auto| |unfold in_page; lia]. intros E. by apply (sh_leaf_top _ _ _ Hsh k). }
  assert (Hleaf : forall k', 0 <= k' < 1048576 -> leaf w' t k' = leaf (mem p) t k').
  { intros k' Hk'. destruct (index_range k' Hk') as [Hi Hj]. unfold leaf. rewrite Hmid by done.
    destruct (Z.eqb_spec (mid (mem p) t (k' / PTRS)) 0) as [|Hm]; [done|]. apply load32_eq. intros y Hy.
    apply (Hpage (mid (mem p) t (k' / PTRS))); [auto| |unfold in_page; lia].
    intros E. by apply (sh_leaf_mid _ _ _ Hsh k (k' / PTRS)). }
  assert (Htree : tree w' t = tree (mem p) t) by (by apply tree_same).
  split.
  - constructor; cbn [mem p' set_mem pages_used pages_max]; [by rewrite Htree| |by rewrite Htree|done|done].
    intros b y Hb Hy. apply (Hpage b); [| |done].
    + eapply acct_page; [exact Ha|]. apply elem_of_app. by right.
    + intros ->. by apply (sh_rest _ _ _ Hsh d).
  - intros z Hz. destruct (page_range z Hz) as [Hzk Hzo]. cbn [mem p' set_mem]. unfold fbyte.
    rewrite Hleaf by done. pose proof (Z.div_mod z PAGE_SIZE ltac:(done)) as Dz. change PAGE_SIZE with 4096 in *.
    destruct (Z.eq_dec (z / 4096) k) as [E|Hne].
    + rewrite E. fold d. rewrite (proj2 (Z.eqb_neq d 0)) by done.
      destruct ((k * 4096 + off <=? z) && (z <? k * 4096 + off + Z.of_nat (length bs))) eqn:B.
      * apply andb_true_iff in B as [B1%Z.leb_le B2%Z.ltb_lt].
        set (m := Z.to_nat (z - (k * 4096 + off))).
        assert (Em : (page_bytes (d + off) (length bs) w') !! m = Some (pg_load w' (d + z mod 4096))).
        { unfold page_bytes. rewrite list_lookup_fmap, lookup_seq_lt by lia. cbn [fmap option_fmap option_map].
          do 2 f_equal. unfold m. lia. }
        rewrite G3 in Em. by rewrite Em.
      * apply G2. apply andb_false_iff in B. rewrite Z.leb_gt, Z.ltb_ge in B. lia.
    + rewrite (proj2 (andb_false_iff _ _)) by (rewrite Z.leb_gt, Z.ltb_ge; lia).
      destruct (Z.eqb_spec (leaf (mem p) t (z / 4096)) 0) as [|Hn]; [done|].
      apply (Hpage (leaf (mem p) t (z / 4096))); [auto| |unfold in_page; lia].
      intros E. apply Hne. by apply (sh_leaf_inj _ _ _ Hsh).
Qed.

(** The rest of the page a cut falls in. *)
Lemma cut_tail_spec n from p :
  good (top n) p -> 0 <= from < 4294967296 -> from mod PAGE_SIZE <> 0 ->
  let '(pa, _, _) := page_of n from false p in
  let z := PAGE_SIZE - from mod PAGE_SIZE in
  let p' := if pa =? 0 then p
            else set_mem (store_bytes (pa + from mod PAGE_SIZE) (replicate (Z.to_nat z) 0) (mem p)) p in
  evolves base rest (top n) p (top n) p' /\
  forall x, 0 <= x < 4294967296 ->
    fbyte (mem p') (top n) x =
    if (from <=? x) && (x / PAGE_SIZE =? from / PAGE_SIZE) then 0 else fbyte (mem p) (top n) x.
Proof using Type.
  intros Ha Hf Hm. rewrite page_of_look. destruct (page_range from Hf) as [Hk Ho].
  pose proof (Z.div_mod from PAGE_SIZE ltac:(done)) as Df. change PAGE_SIZE with 4096 in *.
  destruct (Z.eqb_spec (leaf (mem p) (top n) (from / 4096)) 0) as [E|E].
  - split; [by apply evolves_refl|]. intros x Hx. unfold fbyte at 2. change PAGE_SIZE with 4096.
    destruct (Z.eqb_spec (x / 4096) (from / 4096)) as [Ex|Ex]; [|by rewrite andb_false_r].
    rewrite andb_true_r. unfold fbyte. change PAGE_SIZE with 4096. rewrite Ex, E. by destruct (from <=? x).
  - destruct (poke_spec (top n) p (from / 4096) (from mod 4096) (replicate (Z.to_nat (4096 - from mod 4096)) 0) Ha Hk E)
      as [P1 P2]; [lia|rewrite length_replicate; lia|by apply Forall_replicate|].
    split; [done|]. intros x Hx. rewrite P2 by done. rewrite length_replicate. change PAGE_SIZE with 4096.
    pose proof (Z.div_mod x 4096). pose proof (Z.mod_pos_bound x 4096).
    replace ((from / 4096 * 4096 + from mod 4096 <=? x) && _) with ((from <=? x) && (x / 4096 =? from / 4096)).
    + destruct (_ && _) eqn:B; [|done]. apply andb_true_iff in B as [B1%Z.leb_le B2%Z.eqb_eq].
      rewrite lookup_replicate_2 by lia. done.
    + apply eq_true_iff_eq. rewrite !andb_true_iff, !Z.leb_le, Z.ltb_lt, Z.eqb_eq. lia.
Qed.

Lemma align_up_page from : 0 <= from <= 4294963200 -> from mod PAGE_SIZE <> 0 ->
  PAGE_ALIGN_UP from = (from / PAGE_SIZE + 1) * PAGE_SIZE.
Proof using Type.
  intros Hf Hm. unfold PAGE_ALIGN_UP. rewrite (u32_small from) by lia.
  change PAGE_SIZE with 4096 in *. change PAGE_MASK with 4095.
  rewrite (u32_small (from + 4095)) by lia. rewrite align_down_eq by lia. change PAGE_SIZE with 4096.
  pose proof (Z.div_mod from 4096). pose proof (Z.mod_pos_bound from 4096).
  rewrite (Z.mod_eq (from + 4095)) by done.
  rewrite <- (Z.div_unique (from + 4095) 4096 (from / 4096 + 1) (from mod 4096 - 1)); lia.
Qed.

(** Once every page of data and every index page is gone, only the top is left. *)
Lemma tree_bare w t : t <> 0 -> (forall i, 0 <= i < 1024 -> mid w t i = 0) -> tree w t ≡ₚ [t].
Proof using Type.
  intros Ht Hm. apply Permutation_refl'. transitivity (nz [t] ++ [] ++ []).
  - apply tree_cells; [done|done|]. intros k Hk. unfold leaf. by rewrite Hm by (by apply index_range).
  - unfold nz. cbn [List.filter]. by rewrite (proj2 (Z.eqb_neq t 0)).
Qed.

Definition was_cut (n : tnode) (from : Z) (p : pool) (n' : tnode) (p' : pool) : Prop :=
  n' = set_top (top n') n /\ evolves base rest (top n) p (top n') p' /\ (from = 0 -> top n' = 0) /\
  forall x, 0 <= x < 4294967296 ->
    fbyte (mem p') (top n') x = if from <=? x then 0 else fbyte (mem p) (top n) x.

(** Cutting at a page boundary. *)
Lemma cut_pages_spec n c p :
  good (top n) p -> top n <> 0 -> 0 <= c <= 1048576 ->
  let p1 := for_upto (Z.to_nat PTRS) (cut_index (top n) (c * PAGE_SIZE)) p in
  let '(n', p') := if c * PAGE_SIZE =? 0 then (set_top 0 n, bump (-1) (set_mem (pg_free (top n) (mem p1)) p1)) else (n, p1) in
  was_cut n (c * PAGE_SIZE) p n' p'.
Proof using Type.
  intros Ha Ht Hc p1. change (Z.to_nat PTRS) with 1024%nat in p1.
  destruct (cut_loop_spec (top n) (c * PAGE_SIZE) p 1024 Ha Ht ltac:(lia)) as [T M]. fold p1 in T, M.
  assert (Hb : forall x, 0 <= x < 4294967296 ->
            fbyte (mem p1) (top n) x = if c * PAGE_SIZE <=? x then 0 else fbyte (mem p) (top n) x).
  { intros x Hx. rewrite (tr_byte _ _ _ _ T) by done. destruct (page_range x Hx) as [Hk Ho].
    destruct (index_range _ Hk) as [Hi _]. rewrite (proj2 (Z.ltb_lt _ (Z.of_nat 1024))) by lia. cbn [andb].
    pose proof (Z.div_mod x PAGE_SIZE ltac:(done)) as Dx. change PAGE_SIZE with 4096 in *.
    destruct (Z.leb_spec (c * 4096) (x / 4096 * 4096)), (Z.leb_spec (c * 4096) x); lia || done. }
  destruct (Z.eqb_spec (c * PAGE_SIZE) 0) as [E|E].
  - assert (Hm : forall i, 0 <= i < 1024 -> mid (mem p1) (top n) i = 0).
    { intros i Hi. apply M; [lia|]. intros k Hk _. rewrite (tr_leaf _ _ _ _ T) by done.
      destruct (index_range k Hk) as [Hki _]. rewrite (proj2 (Z.ltb_lt _ (Z.of_nat 1024))) by lia.
      rewrite E, (proj2 (Z.leb_le 0 _)) by (change PAGE_SIZE with 4096; lia). done. }
    pose proof (tree_bare _ _ Ht Hm) as Tb. pose proof (tr_ev _ _ _ _ T) as [V1 V2 V3 V4 _].
    destruct (acct_free (mem p1) base (top n) rest) as [F1 F2].
    { eapply acct_perm; [|exact V1]. by rewrite Tb. }
    split; [done|]. split; [|split; [done|]].
    + cbn [top set_top]. constructor; cbn [mem bump set_mem pages_used pages_max]; rewrite ?tree_0; [exact F1| | |done|intros _; apply u32_bound].
      * eapply same_bytes_trans; [exact V2|exact F2].
      * rewrite <- V3. apply bump_used. rewrite (Permutation_length Tb). done.
    + intros x Hx. rewrite E, (proj2 (Z.leb_le 0 x)) by lia. done.
  - split; [by rewrite set_top_self|]. split; [apply (tr_ev _ _ _ _ T)|]. split; [done|exact Hb].
Qed.

Lemma cut_spec n from p :
  good (top n) p -> 0 <= from <= 4294963200 ->
  let '(n', p') := cut n from p in was_cut n from p n' p'.
Proof using Type.
  intros Ha Hf. unfold cut. destruct (Z.eqb_spec (top n) 0) as [Et|Et].
  { split; [by rewrite set_top_self|]. split; [by apply evolves_refl|]. split; [done|].
    intros x Hx. rewrite Et. by destruct (from <=? x). }
  pose proof (Z.div_mod from PAGE_SIZE ltac:(done)) as Df. pose proof (page_range from ltac:(lia)) as [Hk Ho].
  destruct (Z.eqb_spec (from mod PAGE_SIZE) 0) as [Em|Em]; cbn [negb].
  - replace from with (from / PAGE_SIZE * PAGE_SIZE) by lia. apply cut_pages_spec; [done|done|lia].
  - pose proof (cut_tail_spec n from p Ha ltac:(lia) Em) as S. rewrite page_of_look in *. cbv zeta in S.
    set (p1 := if _ =? 0 then p else _) in *. destruct S as [S1 S2]. rewrite align_up_page by done.
    pose proof (cut_pages_spec n (from / PAGE_SIZE + 1) p1 (ev_acct _ _ _ _ _ _ S1) Et ltac:(lia)) as C. cbv zeta in C.
    rewrite (proj2 (Z.eqb_neq ((from / PAGE_SIZE + 1) * PAGE_SIZE) 0)) in * by (change PAGE_SIZE with 4096 in *; lia).
    set (p2 := for_upto _ _ p1) in *.
    destruct C as (C1 & C2 & _ & C4). split; [done|]. split; [by eapply evolves_trans|].
    split; [intros ->; done|]. intros x Hx. rewrite C4, S2 by done.
    pose proof (Z.div_mod x PAGE_SIZE ltac:(done)) as Dx. pose proof (page_range x Hx) as [_ Hxo].
    change PAGE_SIZE with 4096 in *.
    destruct (Z.leb_spec ((from / 4096 + 1) * 4096) x), (Z.leb_spec from x), (Z.eqb_spec (x / 4096) (from / 4096)); cbn [andb]; lia || done.
Qed.

(** ** Reading and writing *)

Definition file_bytes (w : W) (t pos : Z) (n : nat) : list Z :=
  (fun i => fbyte w t (pos + Z.of_nat i)) <$> seq 0 n.

Lemma file_bytes_app w t pos a b :
  file_bytes w t pos (a + b) = file_bytes w t pos a ++ file_bytes w t (pos + Z.of_nat a) b.
Proof using Type.
  unfold file_bytes. rewrite seq_app, fmap_app, Nat.add_0_l. f_equal.
  replace (seq a b) with (Nat.add a <$> seq 0 b) by (by rewrite fmap_add_seq, Nat.add_0_r).
  rewrite <- list_fmap_compose. apply list_fmap_ext. intros i x _. cbn. f_equal. lia.
Qed.
Lemma length_file_bytes w t pos n : length (file_bytes w t pos n) = n.
Proof using Type. unfold file_bytes. by rewrite length_fmap, length_seq. Qed.

(** Positions in one page. *)
Lemma in_one_page pos i : 0 <= i -> pos mod PAGE_SIZE + i < PAGE_SIZE ->
  (pos + i) / PAGE_SIZE = pos / PAGE_SIZE /\ (pos + i) mod PAGE_SIZE = pos mod PAGE_SIZE + i.
Proof using Type.
  change PAGE_SIZE with 4096. intros Hi Hlt. pose proof (Z.mod_pos_bound pos 4096).
  assert (E : pos + i = 4096 * (pos / 4096) + (pos mod 4096 + i)) by (pose proof (Z.div_mod pos 4096); lia).
  split; symmetry; [eapply Z.div_unique_pos|eapply Z.mod_unique_pos]; try exact E; lia.
Qed.

Lemma page_chunk w t pos k :
  0 <= k -> pos mod PAGE_SIZE + k <= PAGE_SIZE ->
  (if leaf w t (pos / PAGE_SIZE) =? 0 then replicate (Z.to_nat k) 0
   else page_bytes (leaf w t (pos / PAGE_SIZE) + pos mod PAGE_SIZE) (Z.to_nat k) w) =
  file_bytes w t pos (Z.to_nat k).
Proof using Type.
  intros Hk Hle. unfold file_bytes, page_bytes.
  destruct (Z.eqb_spec (leaf w t (pos / PAGE_SIZE)) 0) as [E|E].
  - transitivity ((fun _ => 0) <$> seq 0 (Z.to_nat k)); [symmetry; rewrite (const_fmap _ _ 0) by done; by rewrite length_seq|].
    apply list_fmap_ext.
    intros i x [-> Hi]%lookup_seq. destruct (in_one_page pos (Z.of_nat (0 + i)) ltac:(lia) ltac:(lia)) as [E1 E2].
    unfold fbyte. by rewrite E1, E.
  - apply list_fmap_ext. intros i x [-> Hi]%lookup_seq.
    destruct (in_one_page pos (Z.of_nat (0 + i)) ltac:(lia) ltac:(lia)) as [E1 E2].
    unfold fbyte. rewrite E1, E2, (proj2 (Z.eqb_neq _ 0) E). f_equal. lia.
Qed.

(** The bytes moved in a turn: to the end of the page, or all that is left. *)
Lemma turn_bounds pos rem :
  0 < rem -> let off := pos mod PAGE_SIZE in
  let k := if rem <? PAGE_SIZE - off then rem else PAGE_SIZE - off in
  0 < k <= rem /\ off + k <= PAGE_SIZE /\ (k < rem -> (pos + k) mod PAGE_SIZE = 0 /\ k = PAGE_SIZE - off).
Proof using Type.
  intros Hr off k. pose proof (Z.mod_pos_bound pos PAGE_SIZE ltac:(done)) as Ho. fold off in Ho. unfold k.
  destruct (Z.ltb_spec rem (PAGE_SIZE - off)); split_and!; try lia.
  intros _. split; [|done]. unfold off. replace (pos + (PAGE_SIZE - pos mod PAGE_SIZE)) with ((pos / PAGE_SIZE + 1) * PAGE_SIZE)
    by (pose proof (Z.div_mod pos PAGE_SIZE ltac:(done)); lia). by apply Z.mod_mul.
Qed.

Lemma read_loop_spec fuel n pos done len p :
  0 <= pos -> 0 <= done <= len -> pos + (len - done) < 4294967296 ->
  (done < len -> pos mod PAGE_SIZE + (len - done) <= PAGE_SIZE * Z.of_nat fuel) ->
  read_loop fuel n pos done len p =
    (file_bytes (mem p) (top n) pos (Z.to_nat (len - done)), pos + (len - done)).
Proof using Type.
  revert pos done. induction fuel as [|fuel IH]; intros pos done Hp Hd Hm Hf.
  { assert (done = len) as -> by (pose proof (Z.mod_pos_bound pos PAGE_SIZE ltac:(done)); lia).
    rewrite Z.sub_diag, Z.add_0_r. done. }
  cbn [read_loop]. destruct (Z.ltb_spec done len) as [Hlt|Hge].
  2: { assert (done = len) as -> by lia. by rewrite Z.sub_diag, Z.add_0_r. }
  rewrite page_of_look. destruct (turn_bounds pos (len - done) ltac:(lia)) as (Hk1 & Hk2 & Hk3).
  set (k := if len - done <? _ then _ else _) in *. rewrite page_chunk by lia. rewrite u32_small by lia.
  rewrite IH by lia. f_equal; [|lia].
  replace (Z.to_nat (len - done)) with (Z.to_nat k + Z.to_nat (len - (done + k)))%nat by lia.
  rewrite file_bytes_app. by rewrite Z2Nat.id by lia.
Qed.

Lemma io_fuel_enough pos len : 0 <= len -> pos mod PAGE_SIZE + len <= PAGE_SIZE * Z.of_nat (io_fuel len).
Proof using Type.
  intros Hl. unfold io_fuel. pose proof (Z.mod_pos_bound pos PAGE_SIZE ltac:(done)).
  pose proof (Z.div_mod len PAGE_SIZE ltac:(done)). pose proof (Z.mod_pos_bound len PAGE_SIZE ltac:(done)).
  assert (0 <= len / PAGE_SIZE) by (by apply Z.div_pos). rewrite Z2Nat.id by lia. lia.
Qed.

(** What a write that moved [d] of its bytes has done. *)
Definition wrote_bytes (buf : list Z) (n : tnode) (pos done : Z) (p : pool) (d : Z) (n' : tnode) (p' : pool) : Prop :=
  evolves base rest (top n) p (top n') p' /\
  n' = set_size (if d =? 0 then size n else Z.max (size n) (pos + d)) (set_top (top n') n) /\
  forall z, 0 <= z < 4294967296 ->
    fbyte (mem p') (top n') z =
    if (pos <=? z) && (z <? pos + d) then default 0 (buf !! Z.to_nat (done + (z - pos))) else fbyte (mem p) (top n) z.

Lemma set_size_self n : set_size (size n) n = n.
Proof using Type. by destruct n. Qed.

(** One turn of the loop, a page having been found. *)
Lemma write_turn buf n pos done k p pa n1 p1 :
  good (top n) p -> made n pos p pa n1 p1 -> pa <> 0 -> Forall (fun b => 0 <= b < 256) buf ->
  0 <= pos -> 0 <= done -> 0 < k -> pos + k < 4294967296 -> pos mod PAGE_SIZE + k <= PAGE_SIZE ->
  done + k <= Z.of_nat (length buf) -> 0 <= size n ->
  let p2 := set_mem (store_bytes (pa + pos mod PAGE_SIZE) (sub buf (Z.to_nat done) (Z.to_nat k)) (mem p1)) p1 in
  let n2 := if size n1 <? pos + k then set_size (pos + k) n1 else n1 in
  wrote_bytes buf n pos done p k n2 p2.
Proof using Type.
  intros Ha (M1 & M2 & M3 & M4 & _) Hpa Hbuf Hp Hd Hk Hr Hpg Hlen Hsz p2 n2.
  destruct (page_range pos ltac:(lia)) as [Hpk Hpo].
  set (bs := sub buf (Z.to_nat done) (Z.to_nat k)) in *.
  assert (Lbs : Z.of_nat (length bs) = k) by (unfold bs; rewrite length_sub; lia).
  rewrite M4 in Hpa. change PAGE_SIZE with 4096 in Hpg.
  destruct (poke_spec (top n1) p1 (pos / PAGE_SIZE) (pos mod PAGE_SIZE) bs (ev_acct _ _ _ _ _ _ M2) Hpk Hpa) as [P1 P2];
    [lia|change PAGE_SIZE with 4096; lia|by apply Forall_sub|]. rewrite <- M4 in P1, P2.
  assert (Et : top n2 = top n1) by (unfold n2; by destruct (size n1 <? pos + k)).
  assert (Es : size n1 = size n) by (by rewrite M1).
  split; [|split].
  - rewrite Et. eapply evolves_trans; [exact M2|exact P1].
  - rewrite Et, (proj2 (Z.eqb_neq k 0)) by lia. rewrite <- M1. unfold n2. rewrite Es.
    destruct (Z.ltb_spec (size n) (pos + k)); [by rewrite Z.max_r by lia|].
    rewrite Z.max_l by lia. by rewrite <- Es, set_size_self.
  - intros z Hz. rewrite Et. fold p2 in P2. rewrite P2, M3, Lbs by done.
    pose proof (Z.div_mod pos PAGE_SIZE ltac:(done)) as Dp. replace (pos / PAGE_SIZE * PAGE_SIZE + pos mod PAGE_SIZE) with pos by lia.
    destruct (_ && _) eqn:B; [|done]. apply andb_true_iff in B as [B1%Z.leb_le B2%Z.ltb_lt].
    unfold bs, sub. rewrite lookup_take_lt by lia. rewrite lookup_drop. do 2 f_equal. lia.
Qed.

Lemma wrote_none buf n pos done p : good (top n) p -> wrote_bytes buf n pos done p 0 n p.
Proof using Type.
  intros Ha. split; [by apply evolves_refl|]. split; [cbn [Z.eqb]; by rewrite set_top_self, set_size_self|].
  intros z Hz. rewrite (proj2 (andb_false_iff _ _)); [done|]. rewrite Z.leb_gt, Z.ltb_ge. lia.
Qed.
Lemma wrote_nothing buf n pos done p pa n1 p1 : made n pos p pa n1 p1 -> wrote_bytes buf n pos done p 0 n1 p1.
Proof using Type.
  intros (M1 & M2 & M3 & _). split; [done|]. split.
  - cbn [Z.eqb]. rewrite <- M1. rewrite <- (set_size_self n1) at 1. f_equal. by rewrite M1.
  - intros z Hz. rewrite (proj2 (andb_false_iff _ _)); [by apply M3|]. rewrite Z.leb_gt, Z.ltb_ge. lia.
Qed.

Lemma wrote_trans buf n pos done p k n1 p1 d n2 p2 :
  0 <= size n -> 0 <= pos -> 0 < k -> 0 <= d -> wrote_bytes buf n pos done p k n1 p1 ->
  wrote_bytes buf n1 (pos + k) (done + k) p1 d n2 p2 -> wrote_bytes buf n pos done p (k + d) n2 p2.
Proof using Type.
  intros Hs Hp Hk Hd (A1 & A2 & A3) (B1 & B2 & B3). split; [by eapply evolves_trans|]. split.
  - assert (Es : size n1 = Z.max (size n) (pos + k)).
    { rewrite A2. cbn [size set_size]. by rewrite (proj2 (Z.eqb_neq k 0)) by lia. }
    rewrite B2 at 1. rewrite Es, A2, (proj2 (Z.eqb_neq (k + d) 0)) by lia.
    unfold set_size, set_top. cbn. f_equal. destruct (Z.eqb_spec d 0) as [->|]; lia.
  - intros z Hz. rewrite B3, A3 by done.
    destruct (Z.leb_spec pos z), (Z.leb_spec (pos + k) z), (Z.ltb_spec z (pos + k + d)), (Z.ltb_spec z (pos + (k + d))),
      (Z.ltb_spec z (pos + k)); cbn [andb]; try lia; try done. do 2 f_equal. lia.
Qed.

Lemma write_loop_spec fuel buf n pos done p :
  good (top n) p -> Forall (fun b => 0 <= b < 256) buf ->
  let len := Z.of_nat (length buf) in
  0 <= size n -> 0 <= pos -> 0 <= done <= len -> pos + (len - done) < 4294967296 ->
  (done < len -> pos mod PAGE_SIZE + (len - done) <= PAGE_SIZE * Z.of_nat fuel) ->
  let '(done', n', pos', p') := write_loop fuel buf n pos done p in
  done <= done' <= len /\ pos' = pos + (done' - done) /\
  wrote_bytes buf n pos done p (done' - done) n' p' /\
  (done' < len -> pages_max p' <= pages_used p' \/ refused (mem p')).
Proof using Type.
  intros Ha Hbuf len. revert n pos done p Ha.
  induction fuel as [|fuel IH]; intros n pos done p Ha Hs Hp Hd Hm Hf.
  { assert (done = len) as -> by (pose proof (Z.mod_pos_bound pos PAGE_SIZE ltac:(done)); lia).
    cbn [write_loop]. rewrite Z.sub_diag. split_and!; try lia. by apply wrote_none. }
  cbn [write_loop]. fold len. destruct (Z.ltb_spec done len) as [Hlt|Hge].
  2: { assert (done = len) as -> by lia. rewrite Z.sub_diag. split_and!; try lia. by apply wrote_none. }
  pose proof (page_of_make n pos p Ha ltac:(lia)) as M. destruct (page_of n pos true p) as [[pa n1] p1].
  destruct (Z.eqb_spec pa 0) as [E|E].
  { rewrite Z.sub_diag. split_and!; try lia; [by eapply wrote_nothing|]. intros _. by apply M. }
  destruct (turn_bounds pos (len - done) ltac:(lia)) as (Hk1 & Hk2 & Hk3).
  set (k := if len - done <? _ then _ else _) in *. rewrite (u32_small (pos + k)) by lia.
  pose proof (write_turn buf n pos done k p pa n1 p1 Ha M E Hbuf Hp ltac:(lia) ltac:(lia) ltac:(lia) ltac:(lia) ltac:(lia) Hs) as T.
  cbv zeta in T. set (p2 := set_mem _ p1) in *. set (n2 := if size n1 <? _ then _ else n1) in *.
  assert (Hs2 : 0 <= size n2).
  { destruct T as (_ & T2 & _). rewrite T2. cbn [size set_size]. destruct (k =? 0); lia. }
  specialize (IH n2 (pos + k) (done + k) p2 (ev_acct _ _ _ _ _ _ (proj1 T)) Hs2 ltac:(lia) ltac:(lia) ltac:(lia) ltac:(lia)).
  destruct (write_loop fuel buf n2 (pos + k) (done + k) p2) as [[[done' n'] pos'] p']. destruct IH as (I1 & I2 & I3 & I4).
  split; [lia|]. split; [lia|]. split; [|done].
  replace (done' - done) with (k + (done' - (done + k))) by lia.
  eapply wrote_trans; [exact Hs|exact Hp| | |exact T|exact I3]; lia.
Qed.
End page_of.

(** ** All the files together *)

Definition node_pages (w : W) (n : tnode) : list Z := if n_used n then tree w (top n) else [].
Definition all_pages (s : tmpfs) : list Z := concat (node_pages (mem (heap s)) <$> nodes s).

(** A node's size is a 32-bit number and its pages are zero past it. *)
Definition node_ok (w : W) (n : tnode) : Prop :=
  n_used n = true -> 0 <= size n < 4294967296 /\
  forall z, size n <= z < 4294967296 -> fbyte w (top n) z = 0.
Definition file_ok (s : tmpfs) (f : tfile) : Prop :=
  0 <= f_pos f < 4294967296 /\ exists n, nodes s !! f_node f = Some n /\ n_used n = true.

(** The pages of the files are held once each, as are those in [lost], which
    no file has any more; pages_used counts them all. *)
Record heap_ok (base : Z -> Z) (lost : list Z) (s : tmpfs) : Prop := {
  ho_acct : acct (mem (heap s)) base (all_pages s ++ lost);
  ho_used : pages_used (heap s) = u32 (Z.of_nat (length (all_pages s ++ lost)));
  ho_nodes : forall i n, nodes s !! i = Some n -> node_ok (mem (heap s)) n;
  ho_files : forall k f, files s !! k = Some (Some f) -> file_ok s f }.

(** The pages of every file but that of node [i]. *)
Definition others (w : W) (l : list tnode) (i : nat) : list Z := concat (node_pages w <$> <[i := no_node]> l).

Lemma pages_split w l i n : l !! i = Some n ->
  concat (node_pages w <$> l) ≡ₚ node_pages w n ++ others w l i.
Proof using Type.
  intros Hi. pose proof (concat_insert (node_pages w) l i n no_node Hi) as P.
  by symmetry.
Qed.
Lemma others_insert w l i n : others w (<[i := n]> l) i = others w l i.
Proof using Type. unfold others. by rewrite list_insert_insert_eq. Qed.

Lemma in_others w l i j m a : j <> i -> l !! j = Some m -> a ∈ node_pages w m -> a ∈ others w l i.
Proof using Type.
  intros Hne Hj. apply elem_of_concat_fmap with (i := j). by rewrite list_lookup_insert_ne.
Qed.
(** A node none of whose pages was touched. *)
Lemma node_frame l w w' m : (forall a, a ∈ node_pages w m -> a ∈ l) -> same_bytes l w w' ->
  node_pages w' m = node_pages w m /\
  (n_used m = true -> forall z, 0 <= z < 4294967296 -> fbyte w' (top m) z = fbyte w (top m) z).
Proof using Type.
  unfold node_pages. destruct (n_used m); [|done]. intros Hin Hs.
  assert (Hs' : same_bytes (tree w (top m)) w w') by (by eapply same_bytes_weaken).
  split; [by apply tree_frame|]. intros _ z Hz. by apply fbyte_frame.
Qed.
Lemma others_frame w w' l i : same_bytes (others w l i) w w' -> others w' l i = others w l i.
Proof using Type.
  intros Hs. unfold others. rewrite (list_fmap_ext (node_pages w') (node_pages w)); [reflexivity|]. intros j m Hj.
  eapply node_frame; [|exact Hs]. intros a Ha. by eapply elem_of_concat_fmap.
Qed.


Lemma node_acct base lost s i n : heap_ok base lost s -> nodes s !! i = Some n -> n_used n = true ->
  acct (mem (heap s)) base (tree (mem (heap s)) (top n) ++ others (mem (heap s)) (nodes s) i ++ lost).
Proof using Type.
  intros Hok Hn Hu. eapply acct_perm; [|exact (ho_acct _ _ _ Hok)]. unfold all_pages. rewrite (pages_split _ _ _ _ Hn).
  unfold node_pages at 1. by rewrite Hu, app_assoc.
Qed.

(** A change to one node's tables, and the heap with it, keeps the rest. *)
Lemma heap_update base lost s i n n' p' :
  heap_ok base lost s -> nodes s !! i = Some n -> n_used n = true -> n_used n' = true ->
  evolves base (others (mem (heap s)) (nodes s) i ++ lost) (top n) (heap s) (top n') p' ->
  node_ok (mem p') n' ->
  let s' := set_heap p' (set_nodes (<[i := n']> (nodes s)) s) in
  heap_ok base lost s' /\
  forall j m, j <> i -> nodes s !! j = Some m -> n_used m = true ->
    forall z, 0 <= z < 4294967296 -> fbyte (mem p') (top m) z = fbyte (mem (heap s)) (top m) z.
Proof using Type.
  intros [H1 H2 H3 H4] Hi Hu Hu' [E1 E2 E3 E4 E5] Hok s'.
  assert (Hlt : (i < length (nodes s))%nat) by (by eapply lookup_lt_Some).
  assert (Hs : same_bytes (others (mem (heap s)) (nodes s) i) (mem (heap s)) (mem p')).
  { eapply same_bytes_weaken; [|exact E2]. intros a Ha. apply elem_of_app. by left. }
  assert (Hfr : forall j m, j <> i -> nodes s !! j = Some m -> n_used m = true ->
            forall z, 0 <= z < 4294967296 -> fbyte (mem p') (top m) z = fbyte (mem (heap s)) (top m) z).
  { intros j m Hne Hj Hm. eapply node_frame; [|exact Hs|done]. intros a Ha. by eapply in_others. }
  assert (Hp' : all_pages s' ≡ₚ tree (mem p') (top n') ++ others (mem (heap s)) (nodes s) i).
  { unfold all_pages. cbn [heap nodes s' set_heap set_nodes].
    rewrite (pages_split _ _ i n') by (by apply list_lookup_insert_eq).
    rewrite others_insert, (others_frame (mem (heap s)) (mem p')) by done. unfold node_pages at 1. by rewrite Hu'. }
  assert (Hp : all_pages s ≡ₚ tree (mem (heap s)) (top n) ++ others (mem (heap s)) (nodes s) i).
  { unfold all_pages. rewrite (pages_split _ _ i n) by done. unfold node_pages at 1. by rewrite Hu. }
  split; [constructor|done].
  - cbn [heap s' set_heap]. eapply acct_perm; [|exact E1]. by rewrite Hp', app_assoc.
  - cbn [heap s' set_heap]. pose proof (Permutation_length Hp') as L'. pose proof (Permutation_length Hp) as L.
    rewrite length_app in L, L'. rewrite !length_app in *.
    assert (B : 0 <= pages_used p' < 4294967296) by (apply E5; rewrite H2; apply u32_bound).
    rewrite <- (u32_small _ B).
    rewrite (u32_shift _ _ _ _ (Z.of_nat (length (others (mem (heap s)) (nodes s) i) + length lost)) E3).
    + f_equal. lia.
    + rewrite H2, u32_idem. f_equal. lia.
  - intros j m. cbn [heap nodes s' set_heap set_nodes]. destruct (decide (j = i)) as [->|Hne].
    + rewrite list_lookup_insert_eq by done. by intros [= <-].
    + rewrite list_lookup_insert_ne by done. intros Hj Hm. destruct (H3 j m Hj Hm) as [B1 B2]. split; [done|].
      intros z Hz. rewrite (Hfr j m) by (done || lia). by apply B2.
  - intros k f Hk. destruct (H4 k f Hk) as [B1 (m & B2 & B3)]. split; [done|].
    cbn [nodes s' set_heap set_nodes]. destruct (decide (f_node f = i)) as [->|Hne].
    + exists n'. by rewrite list_lookup_insert_eq.
    + exists m. by rewrite list_lookup_insert_ne.
Qed.

(** ** The specification: files as numbers of bytes *)

(** A file is a size and a byte at every offset, zero past the size. *)
Record afile := mk_afile { a_size : Z; a_data : Z -> Z }.

Definition a_bytes (d : Z -> Z) (pos : Z) (n : nat) : list Z := (fun i => d (pos + Z.of_nat i)) <$> seq 0 n.
Definition a_splice (d : Z -> Z) (pos : Z) (bs : list Z) : Z -> Z :=
  fun z => if (pos <=? z) && (z <? pos + Z.of_nat (length bs)) then default 0 (bs !! Z.to_nat (z - pos)) else d z.

(** A call on an open file at [pos], with [moved] the bytes a write could find
    pages for: the result, the bytes read, the file and the position after. *)
Definition spec_fop (o : fop) (append : bool) (moved : nat) (pos : Z) (a : afile) : Z * list Z * afile * Z :=
  match o with
  | Read len =>
      let n := Z.max 0 (Z.min len (a_size a - pos)) in
      (s32 n, a_bytes (a_data a) pos (Z.to_nat n), a, pos + n)
  | Write _ buf =>
      let len := Z.of_nat (length buf) in
      let pos := if append then a_size a else pos in
      if 4294967296 <=? pos + len then (- EFBIG, [], a, pos)
      else if (moved =? 0)%nat then (if len =? 0 then 0 else - ENOSPC, [], a, pos)
      else (s32 (Z.of_nat moved), [],
            mk_afile (Z.max (a_size a) (pos + Z.of_nat moved)) (a_splice (a_data a) pos (take moved buf)),
            pos + Z.of_nat moved)
  | Seek offset whence =>
      let from := if whence =? SEEK_SET then Some 0 else if whence =? SEEK_CUR then Some pos
                  else if whence =? SEEK_END then Some (a_size a) else None in
      match from with
      | Some b => if (b <? 2147483648) && (0 <=? b + offset) && (b + offset <? 2147483648)
                  then (b + offset, [], a, b + offset) else (- EINVAL, [], a, pos)
      | None => (- EINVAL, [], a, pos)
      end
  | Truncate _ len => (0, [], mk_afile len (fun z => if z <? len then a_data a z else 0), pos)
  end.

Definition fop_ok (o : fop) : Prop :=
  match o with
  | Read len => 0 <= len
  | Write _ buf => Forall (fun b => 0 <= b < 256) buf /\ Z.of_nat (length buf) < 4294967296
  | Seek offset _ => -2147483648 <= offset < 2147483648
  | Truncate _ len => 0 <= len <= 4294963200
  end.

(** Node [n] is file [a]. *)
Definition is_file (w : W) (n : tnode) (a : afile) : Prop :=
  size n = a_size a /\ forall z, 0 <= z < 4294967296 -> fbyte w (top n) z = a_data a z.
Definition zero_past (a : afile) : Prop :=
  0 <= a_size a < 4294967296 /\ forall z, a_size a <= z < 4294967296 -> a_data a z = 0.

Section node_ops.
Context (base : Z -> Z) (rest : list Z) (n : tnode) (a : afile) (p : pool).
Hypothesis Ha : acct (mem p) base (tree (mem p) (top n) ++ rest).
Hypothesis Hf : is_file (mem p) n a.
Hypothesis Hz : zero_past a.
#[local] Set Default Proof Using "Type*".

Lemma tf_read_ok f len : 0 <= f_pos f < 4294967296 -> 0 <= len ->
  let '(r, bs, _, pos) := spec_fop (Read len) (has (f_flags f) O_APPEND) 0 (f_pos f) a in
  tf_read f n len p = (r, bs, set_pos pos f).
Proof.
  intros Hp Hl. destruct Hf as [Fs Fd], Hz as [Z1 Z2]. unfold tf_read. cbn [spec_fop]. rewrite Fs.
  destruct (Z.leb_spec (a_size a) (f_pos f)) as [Hle|Hlt].
  - rewrite Z.max_l by lia. rewrite Z.add_0_r. by destruct f.
  - set (m := if a_size a - f_pos f <? len then _ else len).
    assert (Em : m = Z.max 0 (Z.min len (a_size a - f_pos f)))
      by (unfold m; destruct (Z.ltb_spec (a_size a - f_pos f) len); lia).
    rewrite <- Em. assert (Hm : 0 <= m <= a_size a - f_pos f) by lia.
    rewrite (read_loop_spec (io_fuel m) n (f_pos f) 0 m p) by (pose proof (io_fuel_enough (f_pos f) m); lia).
    rewrite length_file_bytes, Z.sub_0_r, Z2Nat.id by lia. do 2 f_equal.
    unfold file_bytes, a_bytes. apply list_fmap_ext. intros i x [-> Hi]%lookup_seq. apply Fd. lia.
Qed.

Lemma splice_data buf pos d : 0 <= pos -> (d <= length buf)%nat ->
  forall z, a_splice (a_data a) pos (take d buf) z =
    if (pos <=? z) && (z <? pos + Z.of_nat d) then default 0 (buf !! Z.to_nat (0 + (z - pos))) else a_data a z.
Proof.
  intros Hp Hd z. unfold a_splice. rewrite length_take, Nat.min_l by done.
  destruct (_ && _) eqn:B; [|done]. apply andb_true_iff in B as [B1%Z.leb_le B2%Z.ltb_lt].
  by rewrite lookup_take_lt by lia.
Qed.

Lemma tf_write_ok now f buf : 0 <= f_pos f < 4294967296 -> fop_ok (Write now buf) ->
  exists moved, (moved <= length buf)%nat /\
  let '(r, f', n', p') := tf_write now f n buf p in
  let '(sr, _, a', pos) := spec_fop (Write now buf) (has (f_flags f) O_APPEND) moved (f_pos f) a in
  r = sr /\ f' = set_pos pos f /\ n_used n' = n_used n /\ evolves base rest (top n) p (top n') p' /\
  is_file (mem p') n' a' /\ zero_past a' /\
  (0 <= pos < 4294967296) /\
  (r <> - EFBIG -> (moved < length buf)%nat -> pages_max p' <= pages_used p' \/ refused (mem p')).
Proof.
  intros Hp [Hb Hlen]. pose proof Hf as [Fs Fd]. pose proof Hz as [Z1 Z2]. unfold tf_write. cbn [spec_fop].
  set (len := Z.of_nat (length buf)) in *.
  set (f1 := if has (f_flags f) O_APPEND then set_pos (size n) f else f).
  assert (E1 : f_pos f1 = if has (f_flags f) O_APPEND then a_size a else f_pos f).
  { unfold f1. destruct (has _ _); [cbn; done|done]. }
  assert (E2 : forall x, set_pos x f1 = set_pos x f) by (intros x; unfold f1; by destruct (has _ _), f).
  rewrite <- E1. assert (Hp1 : 0 <= f_pos f1 < 4294967296) by (rewrite E1; destruct (has _ _); lia).
  destruct (Z.leb_spec 4294967296 (f_pos f1 + len)) as [Hbig|Hbig].
  { exists 0%nat. split; [lia|]. replace (u32 (f_pos f1 + len) <? f_pos f1) with true.
    - split_and!; try done; try lia; first [rewrite <- (E2 (f_pos f1)); by destruct f1|by apply evolves_refl].
    - symmetry. apply Z.ltb_lt. unfold u32. rewrite <- (Z.mod_unique_pos _ 4294967296 1 (f_pos f1 + len - 4294967296)); lia. }
  rewrite u32_small by lia. rewrite (proj2 (Z.ltb_ge _ _)) by lia.
  pose proof (write_loop_spec base rest (io_fuel len) buf n (f_pos f1) 0 p Ha Hb) as S. cbv zeta in S. fold len in S.
  specialize (S ltac:(lia) ltac:(lia) ltac:(lia) ltac:(lia) ltac:(intros _; pose proof (io_fuel_enough (f_pos f1) len); lia)).
  destruct (write_loop (io_fuel len) buf n (f_pos f1) 0 p) as [[[d n'] pos'] p']. destruct S as (S1 & S2 & (V1 & V2 & V3) & S4).
  exists (Z.to_nat d). split; [lia|]. rewrite Z.sub_0_r in *. subst pos'.
  assert (Hu : n_used n' = n_used n) by (by rewrite V2).
  assert (Hs' : size n' = if d =? 0 then size n else Z.max (size n) (f_pos f1 + d)) by (by rewrite V2 at 1).
  assert (Hsh : (Z.to_nat d < length buf)%nat -> pages_max p' <= pages_used p' \/ refused (mem p')) by (intros; apply S4; lia).
  destruct (Z.eqb_spec d 0) as [Ed|Ed]; cbn [negb].
  - subst d. cbn [Z.to_nat Nat.eqb]. split_and!; try done; try lia.
    + by destruct (len =? 0).
    + by rewrite E2, Z.add_0_r.
    + split; [congruence|]. intros z Hz'. rewrite V3 by done. rewrite (proj2 (andb_false_iff _ _)); [by apply Fd|].
      rewrite Z.leb_gt, Z.ltb_ge. lia.
  - rewrite (proj2 (Nat.eqb_neq (Z.to_nat d) 0)) by lia. rewrite Z2Nat.id by lia.
    split_and!; try done; try lia.
    + split; [cbn; congruence|]. intros z Hz'. cbn [a_data top set_mtime]. rewrite V3, splice_data by lia.
      rewrite Z2Nat.id by lia. destruct (_ && _); [done|by apply Fd].
    + split; cbn [a_size a_data]; [lia|]. intros z Hz'. rewrite splice_data by lia. rewrite (proj2 (andb_false_iff _ _));
        [apply Z2; lia|]. rewrite Z.leb_gt, Z.ltb_ge. lia.
Qed.

Lemma tf_lseek_ok f offset whence : 0 <= f_pos f < 4294967296 -> -2147483648 <= offset < 2147483648 ->
  let '(r, _, _, pos) := spec_fop (Seek offset whence) (has (f_flags f) O_APPEND) 0 (f_pos f) a in
  tf_lseek f n offset whence = (r, set_pos pos f) /\ 0 <= pos < 4294967296.
Proof.
  intros Hp Ho. destruct Hf as [Fs _], Hz as [Z1 _]. unfold tf_lseek. cbn [spec_fop]. rewrite Fs.
  assert (Hself : set_pos (f_pos f) f = f) by (by destruct f).
  assert (Hb : forall b, 0 <= b < 4294967296 ->
    let '(r, _, _, pos) := if (b <? 2147483648) && (0 <=? b + offset) && (b + offset <? 2147483648)
                           then (b + offset, @nil Z, a, b + offset) else (- EINVAL, [], a, f_pos f) in
    (if (s32 b <? 0) || (s32 (s32 b + offset) <? 0) then (- EINVAL, f)
     else (s32 (s32 b + offset), set_pos (u32 (s32 b + offset)) f)) = (r, set_pos pos f) /\ 0 <= pos < 4294967296).
  { intros b Hb. destruct (Z.ltb_spec b 2147483648) as [Hlt|Hge]; cbn [andb].
    - rewrite (s32_small b) by lia. rewrite (proj2 (Z.ltb_ge b 0)) by lia. cbn [orb].
      destruct (Z.leb_spec 0 (b + offset)); cbn [andb].
      + destruct (Z.ltb_spec (b + offset) 2147483648).
        * rewrite s32_small, u32_small, (proj2 (Z.ltb_ge _ 0)) by lia. split; [done|lia].
        * assert (E : s32 (b + offset) = b + offset - 4294967296).
          { unfold s32. rewrite u32_small by lia. by rewrite (proj2 (Z.ltb_ge _ _)) by lia. }
          rewrite E, (proj2 (Z.ltb_lt _ 0)) by lia. split; [by rewrite Hself|lia].
      + rewrite s32_small by lia. rewrite (proj2 (Z.ltb_lt _ 0)) by lia. split; [by rewrite Hself|lia].
    - assert (E : s32 b = b - 4294967296).
      { unfold s32. rewrite u32_small by lia. by rewrite (proj2 (Z.ltb_ge _ _)) by lia. }
      rewrite E, (proj2 (Z.ltb_lt _ 0)) by lia. cbn [orb]. split; [by rewrite Hself|lia]. }
  destruct (whence =? SEEK_SET); [exact (Hb 0 ltac:(lia))|].
  destruct (whence =? SEEK_CUR); [exact (Hb (f_pos f) Hp)|].
  destruct (whence =? SEEK_END); [exact (Hb (a_size a) Z1)|]. cbn. split; [by rewrite Hself|lia].
Qed.

Lemma tf_truncate_ok now len : 0 <= len <= 4294963200 ->
  let '(r, n', p') := tf_truncate now n len p in
  let '(sr, _, a', _) := spec_fop (Truncate now len) false 0 0 a in
  r = sr /\ n_used n' = n_used n /\ evolves base rest (top n) p (top n') p' /\
  is_file (mem p') n' a' /\ zero_past a'.
Proof.
  intros Hl. destruct Hf as [Fs Fd], Hz as [Z1 Z2]. unfold tf_truncate. cbn [spec_fop]. rewrite Fs.
  assert (Hz' : zero_past (mk_afile len (fun z => if z <? len then a_data a z else 0))).
  { split; cbn; [lia|]. intros z Hzz. by rewrite (proj2 (Z.ltb_ge z len)) by lia. }
  destruct (Z.ltb_spec len (a_size a)) as [Hlt|Hge].
  - pose proof (cut_spec base rest n len p Ha Hl) as C. destruct (cut n len p) as [n' p']. destruct C as (C1 & C2 & _ & C4).
    split; [done|]. split; [by rewrite C1|]. split; [exact C2|]. split; [|done]. split; [done|].
    intros z Hzz. cbn. rewrite C4, Fd by done. destruct (Z.leb_spec len z), (Z.ltb_spec z len); lia || done.
  - split; [done|]. split; [done|]. split; [by apply evolves_refl|]. split; [|done]. split; [done|].
    intros z Hzz. cbn. rewrite Fd by done. destruct (Z.ltb_spec z len); [done|]. apply Z2. lia.
Qed.
End node_ops.

(** The table of nodes is the list of files [as_], and each is zero past its size. *)
Definition views (s : tmpfs) (as_ : list afile) : Prop :=
  forall i n, nodes s !! i = Some n -> n_used n = true ->
    exists a, as_ !! i = Some a /\ is_file (mem (heap s)) n a /\ zero_past a.

Lemma is_file_ok w n a : is_file w n a -> zero_past a -> node_ok w n.
Proof using Type.
  intros [F1 F2] [Z1 Z2] _. rewrite F1. split; [done|]. intros z Hz. rewrite F2 by lia. by apply Z2.
Qed.

(** The store that ends every operation. *)
Lemma store_refines base lost s as_ k f n a f' n' p' a' :
  heap_ok base lost s -> views s as_ -> files s !! k = Some (Some f) -> nodes s !! f_node f = Some n ->
  n_used n = true -> as_ !! f_node f = Some a -> f_node f' = f_node f -> 0 <= f_pos f' < 4294967296 ->
  n_used n' = true ->
  evolves base (others (mem (heap s)) (nodes s) (f_node f) ++ lost) (top n) (heap s) (top n') p' ->
  is_file (mem p') n' a' -> zero_past a' ->
  let s' := set_heap p' (set_nodes (<[f_node f' := n']> (nodes s)) (set_files (<[k := Some f']> (files s)) s)) in
  heap_ok base lost s' /\ views s' (<[f_node f := a']> as_).
Proof using Type.
  intros Hok Hv Hk Hn Hu Has Hnode Hpos Hu' Hev Hf' Hz' s'. unfold s'. rewrite Hnode.
  destruct (heap_update base lost s (f_node f) n n' p' Hok Hn Hu Hu' Hev (is_file_ok _ _ _ Hf' Hz')) as [[U1 U2 U3 U4] Ufr].
  assert (Hlt : (f_node f < length (nodes s))%nat) by (by eapply lookup_lt_Some).
  split.
  - constructor; [exact U1|exact U2|exact U3|]. intros j g. cbn [files set_heap set_nodes set_files].
    destruct (decide (j = k)) as [->|Hne].
    + rewrite list_lookup_insert_eq by (by eapply lookup_lt_Some). intros [= <-]. split; [done|].
      exists n'. rewrite Hnode. cbn [nodes set_heap set_nodes]. by rewrite list_lookup_insert_eq.
    + rewrite list_lookup_insert_ne by done. apply U4.
  - intros i m. cbn [nodes heap set_heap set_nodes set_files]. destruct (decide (i = f_node f)) as [->|Hne].
    + rewrite list_lookup_insert_eq by done. intros [= <-] _. exists a'.
      rewrite list_lookup_insert_eq by (by eapply lookup_lt_Some). done.
    + rewrite !list_lookup_insert_ne by done. intros Hm Hmu. destruct (Hv i m Hm Hmu) as (b & B1 & [B2 B3] & B4).
      exists b. split; [done|]. split; [|done]. split; [done|]. intros z Hz. rewrite (Ufr i m) by done. by apply B3.
Qed.

(** Files without pages. *)
Lemma heap_ok_empty s :
  pg_ok (mem (heap s)) -> (forall i n, nodes s !! i = Some n -> top n = 0 /\ 0 <= size n < 4294967296) ->
  pages_used (heap s) = 0 -> (forall k f, files s !! k = Some (Some f) -> file_ok s f) ->
  heap_ok (pg_held (mem (heap s))) [] s.
Proof using Type.
  intros Hok Hn Hu Hf.
  assert (E : all_pages s = []).
  { unfold all_pages. apply concat_nil_Forall, Forall_fmap, Forall_lookup. intros i n Hi. cbn.
    unfold node_pages. destruct (Hn i n Hi) as [-> _]. destruct (n_used n); [apply tree_0|done]. }
  constructor; [| | |done].
  - rewrite E. constructor; [done|by intros; apply pg_held_nonneg|intros; cbn; lia|constructor].
  - by rewrite E, Hu.
  - intros i n Hi _. destruct (Hn i n Hi) as [-> Hs]. split; [done|]. done.
Qed.

(** What an operation on open file [k] does, [as_] being the files. *)
Definition fop_refines (base : Z -> Z) (lost : list Z) (s : tmpfs) (as_ : list afile) (k : nat) (f : tfile) (a : afile)
    (o : fop) : Prop :=
  exists moved r bs s', run_fop k o s = Some (r, bs, s') /\
    let '(r', bs', a', pos) := spec_fop o (has (f_flags f) O_APPEND) moved (f_pos f) a in
    r = r' /\ bs = bs' /\ heap_ok base lost s' /\ views s' (<[f_node f := a']> as_) /\
    files s' = <[k := Some (set_pos pos f)]> (files s) /\ dents s' = dents s /\
    (forall now buf, o = Write now buf -> (moved <= length buf)%nat /\
       (r <> - EFBIG -> (moved < length buf)%nat ->
        pages_max (heap s') <= pages_used (heap s') \/ refused (mem (heap s')))).

Lemma run_fop_ok base lost s as_ k f a o :
  heap_ok base lost s -> views s as_ -> files s !! k = Some (Some f) -> as_ !! f_node f = Some a -> fop_ok o ->
  fop_refines base lost s as_ k f a o.
Proof using Type.
  intros Hok Hv Hk Has Ho. destruct (ho_files _ _ _ Hok k f Hk) as [Hpos (n & Hn & Hu)].
  destruct (Hv _ _ Hn Hu) as (a0 & Has0 & Hf & Hz). rewrite Has in Has0. injection Has0 as <-.
  pose proof (node_acct base lost s _ n Hok Hn Hu) as Ha.
  assert (Hst : forall f' n' p' a', f_node f' = f_node f -> 0 <= f_pos f' < 4294967296 -> n_used n' = true ->
    evolves base (others (mem (heap s)) (nodes s) (f_node f) ++ lost) (top n) (heap s) (top n') p' ->
    is_file (mem p') n' a' -> zero_past a' ->
    let s' := set_heap p' (set_nodes (<[f_node f' := n']> (nodes s)) (set_files (<[k := Some f']> (files s)) s)) in
    heap_ok base lost s' /\ views s' (<[f_node f := a']> as_)) by (intros; eapply store_refines; eauto).
  unfold fop_refines, run_fop. rewrite Hk, Hn. pose proof Hz as [Z1 _]. destruct o as [len|now buf|offset whence|now len].
  - pose proof (tf_read_ok base _ n a (heap s) Ha Hf Hz f len Hpos Ho) as R. cbn [spec_fop] in *. rewrite R.
    exists 0%nat. do 3 eexists. split; [reflexivity|]. set (pos := f_pos f + _).
    destruct (Hst (set_pos pos f) n (heap s) a eq_refl ltac:(unfold pos; cbn; lia) Hu (evolves_refl _ _ _ _ Ha) Hf Hz) as [B1 B2].
    split_and!; done.
  - destruct (tf_write_ok base _ n a (heap s) Ha Hf Hz now f buf Hpos Ho) as (moved & Hm & S).
    destruct (tf_write now f n buf (heap s)) as [[[r f'] n'] p'] eqn:E. exists moved. do 3 eexists. split; [reflexivity|].
    destruct (spec_fop (Write now buf) _ moved (f_pos f) a) as [[[r' bs'] a'] pos] eqn:Es.
    destruct S as (-> & -> & S3 & S4 & S5 & S6 & S7 & S8).
    assert (bs' = []) as -> by (cbn [spec_fop] in Es; repeat case_match; by simplify_eq).
    rewrite Hu in S3. destruct (Hst (set_pos pos f) n' p' a' eq_refl S7 S3 S4 S5 S6) as [B1 B2].
    split_and!; try done. by intros ? ? [= <- <-].
  - pose proof (tf_lseek_ok base _ n a (heap s) Ha Hf Hz f offset whence Hpos Ho) as L.
    exists 0%nat. destruct (spec_fop (Seek offset whence) _ 0 (f_pos f) a) as [[[r' bs'] a'] pos] eqn:Es.
    destruct L as [-> L2]. do 3 eexists. split; [reflexivity|].
    assert (bs' = [] /\ a' = a) as [-> ->] by (cbn [spec_fop] in Es; repeat case_match; by simplify_eq).
    destruct (Hst (set_pos pos f) n (heap s) a eq_refl L2 Hu (evolves_refl _ _ _ _ Ha) Hf Hz) as [B1 B2]. split_and!; done.
  - pose proof (tf_truncate_ok base _ n a (heap s) Ha Hf Hz now len Ho) as T. exists 0%nat. cbn [spec_fop] in *.
    destruct (tf_truncate now n len (heap s)) as [[r n'] p']. destruct T as (-> & T2 & T3 & T4 & T5).
    rewrite Hu in T2. do 3 eexists. split; [reflexivity|].
    destruct (Hst f n' p' _ eq_refl Hpos T2 T3 T4 T5) as [B1 B2]. split_and!; try done. cbn. by destruct f.
Qed.

(** C14: an open file is a sequence of bytes. Whatever the tables of pages look
    like, a read gives the file's bytes from the position to the size, a write
    replaces bytes and moves the size if it ends past it (all the bytes, or as
    many as there were pages for), a seek goes to the position or fails, and a
    truncation drops the bytes past the length and grows with zeros. No other
    file changes, and every page is held once, by one file. *)
Theorem tmpfile_refines_bytes base lost s as_ k f a o :
  heap_ok base lost s -> views s as_ -> files s !! k = Some (Some f) -> as_ !! f_node f = Some a -> fop_ok o ->
  fop_refines base lost s as_ k f a o.
Proof using Type. apply run_fop_ok. Qed.

(** ** What the operations leave alone *)

(** [n'] is [n] but for its data and its time. *)
Definition alike (n n' : tnode) : Prop := exists t sz m, n' = set_mtime m (set_size sz (set_top t n)).

Lemma alike_refl n : alike n n.
Proof using Type. exists (top n), (size n), (mtime n). by destruct n. Qed.
Lemma alike_trans n n1 n2 : alike n n1 -> alike n1 n2 -> alike n n2.
Proof using Type. intros (t & sz & m & ->) (t' & sz' & m' & ->). by exists t', sz', m'. Qed.
Lemma alike_top n t : alike n (set_top t n).
Proof using Type. exists t, (size n), (mtime n). by destruct n. Qed.
Lemma alike_size n z : alike n (set_size z n).
Proof using Type. exists (top n), z, (mtime n). by destruct n. Qed.
Lemma alike_mtime n m : alike n (set_mtime m n).
Proof using Type. exists (top n), (size n), m. by destruct n. Qed.

Lemma page_of_alike n off make p : let '(_, n', _) := page_of n off make p in alike n n'.
Proof using Type.
  unfold page_of. destruct ((top n =? 0) && make).
  - destruct (pg_alloc (mem p)) as [a w]. repeat case_match; simplify_eq; apply alike_top.
  - repeat case_match; simplify_eq; apply alike_refl.
Qed.
Lemma cut_alike n from p : alike n (fst (cut n from p)).
Proof using Type.
  unfold cut. destruct (top n =? 0); [apply alike_refl|].
  destruct (negb (from mod PAGE_SIZE =? 0)); [destruct (page_of n from false p) as [[pa ?] ?]|];
    (case_match; [apply alike_top|apply alike_refl]).
Qed.
Lemma write_loop_alike fuel buf n pos done p :
  let '(_, n', _, _) := write_loop fuel buf n pos done p in alike n n'.
Proof using Type.
  revert n pos done p. induction fuel as [|fuel IH]; intros n pos done p; cbn [write_loop]; [apply alike_refl|].
  destruct (done <? _); [|apply alike_refl]. pose proof (page_of_alike n pos true p) as A.
  destruct (page_of n pos true p) as [[pa n1] p1]. destruct (pa =? 0); [done|]. set (n2 := if _ <? _ then _ else n1).
  assert (A2 : alike n1 n2) by (unfold n2; case_match; [apply alike_size|apply alike_refl]).
  match goal with |- context [write_loop fuel buf n2 ?x ?y ?z] =>
    specialize (IH n2 x y z); destruct (write_loop fuel buf n2 x y z) as [[[d n3] ?] ?] end.
  eapply alike_trans; [exact A|]. by eapply alike_trans.
Qed.

Lemma run_fop_alike k o s r bs s' : run_fop k o s = Some (r, bs, s') ->
  exists f n f' n', files s !! k = Some (Some f) /\ nodes s !! f_node f = Some n /\ f_node f' = f_node f /\ alike n n' /\
    nodes s' = <[f_node f := n']> (nodes s) /\ files s' = <[k := Some f']> (files s) /\ dents s' = dents s.
Proof using Type.
  unfold run_fop. destruct (files s !! k) as [[f|]|]; [|done|done]. destruct (nodes s !! f_node f) as [n|] eqn:Hn; [|done].
  intros E. exists f, n. destruct o as [len|now buf|offset whence|now len].
  - destruct (tf_read f n len (heap s)) as [[r0 b0] f'] eqn:Er. injection E as <- <- <-. exists f', n.
    assert (f_node f' = f_node f) as Ef by (unfold tf_read in Er; repeat case_match; by simplify_eq).
    cbn. rewrite Ef. split_and!; try done. apply alike_refl.
  - unfold tf_write in E. set (f1 := if has _ _ then _ else f) in E.
    assert (Ef : f_node f1 = f_node f) by (unfold f1; by destruct (has (f_flags f) O_APPEND)).
    destruct (_ <? f_pos f1); [injection E as <- <- <-; exists f1, n; cbn; rewrite Ef; split_and!; try done; apply alike_refl|].
    pose proof (write_loop_alike (io_fuel (Z.of_nat (length buf))) buf n (f_pos f1) 0 (heap s)) as A.
    destruct (write_loop _ buf n (f_pos f1) 0 (heap s)) as [[[d n1] ps] p1].
    destruct (negb (d =? 0)); injection E as <- <- <-.
    + exists (set_pos ps f1), (set_mtime now n1). cbn. rewrite Ef. split_and!; try done.
      eapply alike_trans; [exact A|apply alike_mtime].
    + exists (set_pos ps f1), n1. cbn. rewrite Ef. by split_and!.
  - destruct (tf_lseek f n offset whence) as [r0 f'] eqn:Er. injection E as <- <- <-. exists f', n.
    assert (f_node f' = f_node f) as Ef by (unfold tf_lseek in Er; repeat case_match; by simplify_eq).
    cbn. rewrite Ef. split_and!; try done. apply alike_refl.
  - unfold tf_truncate in E. exists f.
    destruct (len <? size n).
    + pose proof (cut_alike n len (heap s)) as A. destruct (cut n len (heap s)) as [n1 p1]. injection E as <- <- <-. cbn in A.
      exists (set_mtime now (set_size len n1)). cbn. split_and!; try done.
      eapply alike_trans; [exact A|]. eapply alike_trans; [apply alike_size|apply alike_mtime].
    + injection E as <- <- <-. exists (set_mtime now (set_size len n)). cbn. split_and!; try done.
      eapply alike_trans; [apply alike_size|apply alike_mtime].
Qed.
End code.

(** ** A concrete file *)

Import PAGES.

Definition plain : tnode := mk_tnode true 5 33188 0 0 1 0 0 1 0.
Definition one_file : @tmpfs pmm :=
  mk_tmpfs [no_node; plain] [] 2 [Some (mk_tfile 1 4090 0)] (mk_pool pool8 0 4).

Lemma one_file_facts :
  heap_ok (pg_held pool8) [] one_file /\
  views one_file [mk_afile 0 (fun _ => 0); mk_afile 0 (fun _ => 0)].
Proof.
  split.
  - apply (heap_ok_empty one_file).
    + exact pool8_inv.
    + intros [|[|[|i]]] n; cbn; intros E; simplify_eq; cbn; lia.
    + done.
    + intros [|k] f E; cbn in E; simplify_eq. split; [cbn; lia|]. by exists plain.
  - intros [|[|[|i]]] n E Hu; cbn in E; simplify_eq. eexists. split; [done|]. split; [split; [done|]|split; [cbn; lia|]]; done.
Qed.

Lemma tmpfile_refines_bytes_witness :
  fop_refines (pg_held pool8) [] one_file [mk_afile 0 (fun _ => 0); mk_afile 0 (fun _ => 0)] 0
    (mk_tfile 1 4090 0) (mk_afile 0 (fun _ => 0)) (Write 9 [1; 2; 3; 4; 5; 6; 7; 8]).
Proof.
  apply (tmpfile_refines_bytes (pg_held pool8) [] one_file [mk_afile 0 (fun _ => 0); mk_afile 0 (fun _ => 0)] 0
           (mk_tfile 1 4090 0) (mk_afile 0 (fun _ => 0)) (Write 9 [1; 2; 3; 4; 5; 6; 7; 8])).
  - apply one_file_facts.
  - apply one_file_facts.
  - reflexivity.
  - reflexivity.
  - split; [repeat constructor|reflexivity]; lia.
Defined.

(** Eight bytes across a page boundary, read back with the hole before them. *)
Example write_seek_read :
  match run_fop 0 (Write 9 [1; 2; 3; 4; 5; 6; 7; 8]) one_file with
  | Some (r1, _, s1) =>
      match run_fop 0 (Seek (-2) SEEK_CUR) s1 with
      | Some (r2, _, s2) =>
          match run_fop 0 (Seek 4088 SEEK_SET) s2 with
          | Some (r3, _, s3) =>
              match run_fop 0 (Read 100) s3 with
              | Some (r4, bs, s4) => (r1, r2, r3, r4, bs, pages_used (heap s4))
              | None => (0, 0, 0, 0, [], 0)
              end
          | None => (0, 0, 0, 0, [], 0)
          end
      | None => (0, 0, 0, 0, [], 0)
      end
  | None => (0, 0, 0, 0, [], 0)
  end = (8, 4096, 4088, 10, [0; 0; 1; 2; 3; 4; 5; 6; 7; 8], 4).
Proof. vm_compute. reflexivity. Qed.

(** In the last page of the 4 GB the rounding up in cut wraps to 0, and every
    page of the file goes. *)
Example cut_wraps :
  match run_fop 0 (Write 9 [1; 2; 3; 4]) one_file with
  | Some (_, _, s1) =>
      match run_fop 0 (Truncate 9 4294967295) s1 with
      | Some (_, _, s2) =>
          match run_fop 0 (Truncate 9 4294965248) s2 with
          | Some (r, _, s3) => (r, pages_used (heap s2), pages_used (heap s3), top <$> nodes s3 !! 1%nat)
          | None => (0, 0, 0, None)
          end
      | None => (0, 0, 0, None)
      end
  | None => (0, 0, 0, None)
  end = (0, 3, 0, Some 0).
Proof. vm_compute. reflexivity. Qed.
End TMPFILE.
