(* ===== verification/Tmptree.v ===== *)
(** * The tree of names (kernel/fs/tmpfs.c)

    The table of names and what the nodes say about it, apart from their
    data: a tree of directories, counted links, counted open files. The
    lemmas say what a new name, a name taken away and a name moved do to it;
    they are about functions of the node index, so that Tmpfs.v can use them
    for any change of the table of nodes. *)

From S2P Require Import Prelude Pmm Pages Tmpfile.
Local Open Scope nat_scope.

Module TMPTREE.
Import TMPFILE.

Definition TMP_NODES : nat := 1024.
Definition ROOT : nat := 1.
Definition SLASH : Z := 47.
Definition dot : list Z := [46%Z].
Definition dotdot : list Z := [46%Z; 46%Z].
(** A name a path can end in, and one that fits into the table. *)
Definition plain (nm : list Z) : Prop := nm <> [] /\ SLASH ∉ nm /\ nm <> dot /\ nm <> dotdot.
Definition name_ok (nm : list Z) : Prop := plain nm /\ (Z.of_nat (length nm) <= 255)%Z.

Definition live (d : tdent) : bool := negb (d_dir d =? 0).
(** The test of parent_of and t_dir_path: an entry that names node [n]. *)
Definition names_node (n : nat) (d : tdent) : bool := live d && (d_node d =? n).
Definition parent_of (dir : nat) (ds : list tdent) : nat :=
  if dir =? ROOT then ROOT
  else match find_idx (names_node dir) ds with
       | Some i => default ROOT (d_dir <$> ds !! i)
       | None => ROOT
       end.
Fixpoint is_under (hops : nat) (a d : nat) (ds : list tdent) : bool :=
  match hops with
  | O => false
  | S hops' => if a =? d then true else if a =? ROOT then false else is_under hops' (parent_of a ds) d ds
  end.

Definition open_on (n : nat) (o : option tfile) : bool := match o with Some f => f_node f =? n | None => false end.
Definition sub_of (D : nat -> bool) (x : nat) (d : tdent) : bool := (d_dir d =? x) && D (d_node d).

(** A directory that a chain of names leads to from the root. *)
Inductive up (ds : list tdent) : nat -> Prop :=
  | up_root : up ds ROOT
  | up_step i d : ds !! i = Some d -> live d = true -> up ds (d_dir d) -> up ds (d_node d).
(** A node at or under node [n]. *)
Inductive below (ds : list tdent) (n : nat) : nat -> Prop :=
  | below_self : below ds n n
  | below_step i d : ds !! i = Some d -> live d = true -> below ds n (d_dir d) -> below ds n (d_node d).

(** [U] which nodes are in use, [D] which are directories, [L] their link
    counts and [O] their counts of open files. *)
Record tree_ok (U D : nat -> bool) (L O : nat -> Z) (ds : list tdent) (fs : list (option tfile)) : Prop := {
  ok_bound : forall x, U x = true -> 0 < x < TMP_NODES;
  ok_root : U ROOT = true /\ D ROOT = true;
  ok_entry : forall i d, ds !! i = Some d -> live d = true ->
    U (d_dir d) = true /\ D (d_dir d) = true /\ U (d_node d) = true /\ d_node d <> ROOT /\ name_ok (d_name d);
  ok_once : forall i j d e, ds !! i = Some d -> ds !! j = Some e -> live d = true ->
    d_dir d = d_dir e -> d_name d = d_name e -> i = j;
  ok_dir_once : forall i j d e, ds !! i = Some d -> ds !! j = Some e -> live d = true -> live e = true ->
    d_node d = d_node e -> D (d_node d) = true -> i = j;
  ok_up : forall x, U x = true -> D x = true -> up ds x;
  ok_links : forall x, U x = true ->
    L x = (if D x then 2 + Z.of_nat (count_if (sub_of D x) ds) else Z.of_nat (count_if (names_node x) ds))%Z;
  ok_opens : forall x, U x = true -> O x = Z.of_nat (count_if (open_on x) fs);
  ok_files : forall k f, fs !! k = Some (Some f) -> U (f_node f) = true /\ D (f_node f) = false;
  ok_alive : forall x, U x = true -> D x = false -> (0 < L x + O x)%Z }.

Arguments ok_bound {U D L O ds fs}.
Arguments ok_root {U D L O ds fs}.
Arguments ok_entry {U D L O ds fs}.
Arguments ok_once {U D L O ds fs}.
Arguments ok_dir_once {U D L O ds fs}.
Arguments ok_up {U D L O ds fs}.
Arguments ok_links {U D L O ds fs}.
Arguments ok_opens {U D L O ds fs}.
Arguments ok_files {U D L O ds fs}.
Arguments ok_alive {U D L O ds fs}.

Lemma live_true d : live d = true <-> d_dir d <> 0.
Proof. unfold live. rewrite negb_true_iff, Nat.eqb_neq. done. Qed.

(** Only nodes in use matter. *)
Lemma tree_ok_ext U D L O ds fs U' D' L' O' :
  tree_ok U D L O ds fs -> (forall x, U' x = U x) -> (forall x, U x = true -> D' x = D x /\ L' x = L x /\ O' x = O x) ->
  tree_ok U' D' L' O' ds fs.
Proof.
  intros T EU E. constructor.
  - intros x. rewrite EU. apply T.
  - destruct (ok_root T) as [A B]. rewrite EU. split; [done|]. by rewrite (proj1 (E ROOT A)).
  - intros i d Hi Hl. destruct (ok_entry T i d Hi Hl) as (A & B & C & F). rewrite !EU.
    split_and!; try apply F; try done. by rewrite (proj1 (E _ A)).
  - apply T.
  - intros i j d e Hi Hj Hd He En. destruct (ok_entry T i d Hi Hd) as (_ & _ & C & _).
    rewrite (proj1 (E _ C)). by apply (ok_dir_once T i j d e).
  - intros x. rewrite EU. intros Hx. rewrite (proj1 (E x Hx)). by apply T.
  - intros x. rewrite EU. intros Hx. destruct (E x Hx) as (-> & -> & _). rewrite (ok_links T x Hx).
    destruct (D x); [|done]. do 2 f_equal. apply count_if_ext. intros i d Hi. unfold sub_of.
    destruct (Nat.eqb_spec (d_dir d) x) as [Ed|]; [|done]. cbn [andb].
    destruct (ok_entry T i d Hi) as (_ & _ & C & _);
      [apply live_true; pose proof (ok_bound T x Hx); lia|]. by rewrite (proj1 (E _ C)).
  - intros x. rewrite EU. intros Hx. destruct (E x Hx) as (_ & _ & ->). by apply T.
  - intros k f Hk. destruct (ok_files T k f Hk) as [A B]. rewrite EU. split; [done|].
    by rewrite (proj1 (E _ A)).
  - intros x. rewrite EU. intros Hx. destruct (E x Hx) as (-> & -> & ->). by apply T.
Qed.

Lemma live_false d : live d = false <-> d_dir d = 0.
Proof. unfold live. by rewrite negb_false_iff, Nat.eqb_eq. Qed.
Lemma names_node_dead n d : live d = false -> names_node n d = false.
Proof. unfold names_node. by intros ->. Qed.
Lemma sub_of_dead D x d : 0 < x -> live d = false -> sub_of D x d = false.
Proof. unfold sub_of. intros Hx E%live_false. rewrite E. by rewrite (proj2 (Nat.eqb_neq 0 x)) by lia. Qed.

(** ** A new entry in a free slot *)
Section adding.
Context (ds : list tdent) (i : nat) (d0 : tdent) (dir n : nat) (nm : list Z).
Hypothesis Hi : ds !! i = Some d0.
Hypothesis Hdead : live d0 = false.
Hypothesis Hdir : 0 < dir.
#[local] Notation ds' := (<[i := mk_tdent dir n nm]> ds).
#[local] Set Default Proof Using "Type*".

Lemma add_here : ds' !! i = Some (mk_tdent dir n nm).
Proof. apply list_lookup_insert_eq. by eapply lookup_lt_Some. Qed.
Lemma add_cases j e : ds' !! j = Some e -> (j = i /\ e = mk_tdent dir n nm) \/ (j <> i /\ ds !! j = Some e).
Proof.
  destruct (decide (j = i)) as [->|Hne]; [rewrite add_here; intros [= <-]; by left|].
  rewrite list_lookup_insert_ne by done. by right.
Qed.
Lemma add_old j e : ds !! j = Some e -> live e = true -> ds' !! j = Some e.
Proof. intros Hj Hl. rewrite list_lookup_insert_ne; [done|]. intros ->. congruence. Qed.
Lemma add_up x : up ds x -> up ds' x.
Proof. induction 1 as [|j e Hj Hl _ IH]; [constructor|]. eapply up_step; [by apply add_old|done|done]. Qed.
Lemma add_count (P : tdent -> bool) : P d0 = false ->
  count_if P ds' = count_if P ds + (if P (mk_tdent dir n nm) then 1 else 0).
Proof. intros E. pose proof (count_if_insert P ds i d0 (mk_tdent dir n nm) Hi). rewrite E in *. lia. Qed.
End adding.

Section create.
Context (U D : nat -> bool) (L O : nat -> Z) (ds : list tdent) (fs : list (option tfile)).
Context (i : nat) (d0 : tdent) (dir n : nat) (nm : list Z) (b : bool).
Hypothesis T : tree_ok U D L O ds fs.
Hypothesis Hi : ds !! i = Some d0.
Hypothesis Hdead : live d0 = false.
Hypothesis Hdir : U dir = true /\ D dir = true.
Hypothesis Hnm : name_ok nm.
Hypothesis Hfree : forall j e, ds !! j = Some e -> live e = true -> d_dir e = dir -> d_name e <> nm.

(** A new node, a directory if [b], with its name. *)
Lemma tree_create U' D' L' O' :
  U n = false -> 0 < n < TMP_NODES ->
  (forall x, U' x = if x =? n then true else U x) ->
  D' n = b /\ (b = true -> L' n = 2%Z) /\ (b = false -> L' n = 1%Z) /\ O' n = 0%Z ->
  (forall x, U x = true -> D' x = D x /\ O' x = O x /\ L' x = (if b && (x =? dir)%nat then L x + 1 else L x)%Z) ->
  tree_ok U' D' L' O' (<[i := mk_tdent dir n nm]> ds) fs.
Proof using All.
  intros Hun Hn EU (ED & EL2 & EL1 & EO) E. destruct Hdir as [Hdu Hdd].
  assert (Hne : forall x, U x = true -> x <> n) by (intros x Hx ->; congruence).
  assert (Hdpos : 0 < dir) by (apply (ok_bound T dir Hdu)).
  assert (HU : forall x, U x = true -> U' x = true) by (intros x Hx; rewrite EU; by destruct (x =? n)).
  assert (Hnew : forall x, U' x = true -> x = n \/ (x <> n /\ U x = true)).
  { intros x. rewrite EU. destruct (Nat.eqb_spec x n); [by left|by right]. }
  assert (HUn : U' n = true) by (rewrite EU; by rewrite Nat.eqb_refl).
  assert (Hno : forall j e, ds !! j = Some e -> live e = true -> d_node e <> n /\ d_dir e <> n).
  { intros j e Hj Hl. destruct (ok_entry T j e Hj Hl) as (A & _ & B & _). split; by apply Hne. }
  assert (HD : forall x, U x = true -> D' x = D x) by (intros x Hx; by apply E).
  constructor.
  - intros x [->|[_ Hx]]%Hnew; [done|by apply T].
  - destruct (ok_root T) as [A B]. split; [by apply HU|]. by rewrite HD.
  - intros j e Hj Hl. apply (add_cases ds i d0 dir n nm Hi Hdead Hdpos) in Hj as [[-> ->]|[_ Hj]]; cbn.
    + split_and!; try apply Hnm; try done; [by apply HU|by rewrite HD|]. intros ->. destruct (ok_root T). congruence.
    + destruct (ok_entry T j e Hj Hl) as (A & B & C & F). split_and!; try apply F; [by apply HU|by rewrite HD|by apply HU].
  - intros j k d e Hj Hk Hl Ed En.
    apply (add_cases ds i d0 dir n nm Hi Hdead Hdpos) in Hj as [[-> ->]|[Hji Hj]];
      apply (add_cases ds i d0 dir n nm Hi Hdead Hdpos) in Hk as [[-> ->]|[Hki Hk]]; cbn in *; try done.
    + exfalso. apply (Hfree k e Hk); [|done|done]. apply live_true. lia.
    + exfalso. by apply (Hfree j d Hj).
    + by apply (ok_once T j k d e).
  - intros j k d e Hj Hk Hd He En Hdd'.
    apply (add_cases ds i d0 dir n nm Hi Hdead Hdpos) in Hj as [[-> ->]|[Hji Hj]];
      apply (add_cases ds i d0 dir n nm Hi Hdead Hdpos) in Hk as [[-> ->]|[Hki Hk]]; cbn in *; try done.
    + exfalso. destruct (Hno k e Hk He). congruence.
    + exfalso. destruct (Hno j d Hj Hd). congruence.
    + destruct (ok_entry T j d Hj Hd) as (_ & _ & C & _). rewrite HD in Hdd' by done. by apply (ok_dir_once T j k d e).
  - intros x [->|[_ Hx]]%Hnew HDx.
    + eapply (up_step _ i (mk_tdent dir n nm)); [exact (add_here ds i d0 dir n nm Hi Hdead Hdpos)|apply live_true; cbn; lia|].
      cbn. apply (add_up ds i d0); auto. by apply (ok_up T).
    + apply (add_up ds i d0); auto. apply (ok_up T); [done|]. by rewrite HD in HDx.
  - intros x Hx'. pose proof (Hnew x Hx') as [->|[Hxn Hx]].
    + rewrite ED. destruct b.
      * rewrite EL2 by done. replace (count_if (sub_of D' n) _) with 0; [done|]. symmetry. apply count_if_zero.
        intros j e Hj. unfold sub_of. apply (add_cases ds i d0 dir n nm Hi Hdead Hdpos) in Hj as [[-> ->]|[_ Hj]]; cbn.
        -- by rewrite (proj2 (Nat.eqb_neq dir n)) by (by apply Hne).
        -- destruct (live e) eqn:Hl; [by rewrite (proj2 (Nat.eqb_neq _ n) (proj2 (Hno j e Hj Hl)))|].
           apply live_false in Hl as ->. by rewrite (proj2 (Nat.eqb_neq 0 n)) by lia.
      * rewrite EL1 by done. replace (count_if (names_node n) _) with 1; [done|]. symmetry.
        apply (count_if_once _ _ i (mk_tdent dir n nm)); [exact (add_here ds i d0 dir n nm Hi Hdead Hdpos)| |].
        -- unfold names_node. cbn. rewrite Nat.eqb_refl, andb_true_r. apply live_true. cbn. lia.
        -- intros j e Hj Hn'. unfold names_node in Hn'. apply andb_true_iff in Hn' as [Hl Hn'%Nat.eqb_eq].
           apply (add_cases ds i d0 dir n nm Hi Hdead Hdpos) in Hj as [[-> _]|[_ Hj]]; [done|].
           exfalso. by destruct (Hno j e Hj Hl).
    + destruct (E x Hx) as (-> & _ & ->). rewrite (ok_links T x Hx). destruct (D x) eqn:HDx.
      * rewrite (add_count ds i d0 dir n nm Hi Hdead Hdpos) by (apply sub_of_dead; [pose proof (ok_bound T x Hx); lia|done]).
        rewrite (count_if_ext (sub_of D' x) (sub_of D x)).
        -- replace (sub_of D' x (mk_tdent dir n nm)) with ((dir =? x) && b) by (unfold sub_of; cbn; by rewrite ED).
           rewrite (Nat.eqb_sym x dir). destruct (dir =? x), b; cbn [andb]; lia.
        -- intros j e Hj. unfold sub_of. destruct (Nat.eqb_spec (d_dir e) x) as [Ex|]; [|done]. cbn [andb].
           apply HD. apply (ok_entry T j e Hj). apply live_true. pose proof (ok_bound T x Hx). lia.
      * rewrite (proj2 (Nat.eqb_neq x dir)) by congruence. rewrite andb_false_r.
        rewrite (add_count ds i d0 dir n nm Hi Hdead Hdpos) by (by apply names_node_dead).
        replace (names_node x (mk_tdent dir n nm)) with false
          by (unfold names_node; cbn; rewrite (proj2 (Nat.eqb_neq n x)) by done; by rewrite andb_false_r). lia.
  - intros x [->|[Hxn Hx]]%Hnew.
    + rewrite EO. replace (count_if (open_on n) fs) with 0; [done|]. symmetry. apply count_if_zero.
      intros k [f|] Hk; [|done]. cbn. destruct (ok_files T k f Hk) as [A _]. apply Nat.eqb_neq. by apply Hne.
    + destruct (E x Hx) as (_ & -> & _). by apply T.
  - intros k f Hk. destruct (ok_files T k f Hk) as [A B]. split; [by apply HU|]. by rewrite HD.
  - intros x [->|[Hxn Hx]]%Hnew HDx.
    + rewrite ED in HDx. rewrite EL1, EO by done. lia.
    + rewrite HD in HDx by done. destruct (E x Hx) as (_ & -> & ->).
      rewrite (proj2 (Nat.eqb_neq x dir)) by congruence. rewrite andb_false_r. by apply T.
Qed.

(** Another name for a node that is not a directory. *)
Lemma tree_link L' :
  U n = true -> D n = false ->
  (forall x, U x = true -> L' x = if (x =? n)%nat then (L x + 1)%Z else L x) ->
  tree_ok U D L' O (<[i := mk_tdent dir n nm]> ds) fs.
Proof using All.
  intros Hun HDn E. destruct Hdir as [Hdu Hdd]. assert (Hdpos : 0 < dir) by (apply (ok_bound T dir Hdu)).
  pose proof (add_cases ds i d0 dir n nm Hi Hdead Hdpos) as Hc.
  constructor; try apply T.
  - intros j e [[-> ->]|[_ Hj]]%Hc Hl; [|by apply (ok_entry T j e)]. cbn. split_and!; try apply Hnm; try done.
    intros ->. destruct (ok_root T). congruence.
  - intros j k d e [[-> ->]|[Hji Hj]]%Hc [[-> ->]|[Hki Hk]]%Hc Hl Ed En; cbn in *; try done.
    + exfalso. apply (Hfree k e Hk); [|done|done]. apply live_true. lia.
    + exfalso. by apply (Hfree j d Hj).
    + by apply (ok_once T j k d e).
  - intros j k d e [[-> ->]|[Hji Hj]]%Hc [[-> ->]|[Hki Hk]]%Hc Hl He En HDd; cbn in *; try congruence.
    by apply (ok_dir_once T j k d e).
  - intros x Hx HDx. apply (add_up ds i d0); auto. by apply (ok_up T).
  - intros x Hx. rewrite (E x Hx), (ok_links T x Hx). destruct (D x) eqn:HDx.
    + rewrite (proj2 (Nat.eqb_neq x n)) by congruence.
      rewrite (add_count ds i d0 dir n nm Hi Hdead Hdpos) by (apply sub_of_dead; [pose proof (ok_bound T x Hx); lia|done]).
      replace (sub_of D x (mk_tdent dir n nm)) with false by (unfold sub_of; cbn; by rewrite HDn, andb_false_r). lia.
    + rewrite (add_count ds i d0 dir n nm Hi Hdead Hdpos) by (by apply names_node_dead).
      replace (names_node x (mk_tdent dir n nm)) with (x =? n); [destruct (x =? n); lia|].
      unfold names_node. rewrite (proj2 (live_true _)) by (cbn; lia). cbn. apply Nat.eqb_sym.
  - intros x Hx HDx. rewrite (E x Hx). pose proof (ok_alive T x Hx HDx). destruct (x =? n)%nat; lia.
Qed.
End create.

(** ** A name taken away *)
Section removing.
Context (U D : nat -> bool) (L O : nat -> Z) (ds : list tdent) (fs : list (option tfile)).
Context (i : nat) (d : tdent).
Hypothesis T : tree_ok U D L O ds fs.
Hypothesis Hi : ds !! i = Some d.
Hypothesis Hlive : live d = true.
#[local] Notation n := (d_node d).
#[local] Notation dir := (d_dir d).
#[local] Notation ds' := (alter (fun e => mk_tdent 0 (d_node e) (d_name e)) i ds).

Lemma rem_lookup j e : ds' !! j = Some e -> live e = true -> j <> i /\ ds !! j = Some e.
Proof using All.
  destruct (decide (j = i)) as [->|Hne]; [|by rewrite list_lookup_alter_ne].
  rewrite list_lookup_alter_eq, Hi. cbn. by intros [= <-].
Qed.
Lemma rem_old j e : j <> i -> ds !! j = Some e -> ds' !! j = Some e.
Proof using All. intros Hne Hj. by rewrite list_lookup_alter_ne. Qed.
Lemma rem_count (P : tdent -> bool) : (forall e, live e = false -> P e = false) ->
  count_if P ds' + (if P d then 1 else 0) = count_if P ds.
Proof using All.
  intros HP. rewrite (alter_insert _ _ _ _ Hi).
  pose proof (count_if_insert P ds i d (mk_tdent 0 (d_node d) (d_name d)) Hi) as C.
  rewrite (HP (mk_tdent 0 (d_node d) (d_name d))) in C by done. lia.
Qed.
(** What else is reachable stays so: nothing is in the directory that goes. *)
Lemma rem_up x : (D n = true -> forall j e, ds !! j = Some e -> d_dir e <> n) ->
  (D n = true -> x <> n) -> D x = true -> up ds x -> up ds' x.
Proof using All.
  intros Hempty Hx HDx Hup. revert Hx HDx. induction Hup as [|j e Hj Hl Hup IH]; intros Hx HDx; [constructor|].
  assert (Hji : j <> i) by (intros ->; assert (e = d) as -> by congruence; by apply Hx).
  destruct (ok_entry T j e Hj Hl) as (_ & B & _).
  eapply up_step; [by apply rem_old|done|]. apply IH; [|done]. intros HDn. by apply (Hempty HDn j e).
Qed.

Lemma tree_remove (freed : bool) U' L' :
  (D n = true -> freed = true /\ forall j e, ds !! j = Some e -> d_dir e <> n) ->
  (D n = false -> freed = true -> L n = 1%Z /\ O n = 0%Z) ->
  (D n = false -> freed = false -> (1 < L n + O n)%Z) ->
  (forall x, U' x = if freed && (x =? n) then false else U x) ->
  (forall x, U' x = true ->
     L' x = if (x =? n) then (L x - 1)%Z else if D n && (x =? dir) then (L x - 1)%Z else L x) ->
  tree_ok U' D L' O ds' fs.
Proof using All.
  intros Hd Hf Hk EU EL.
  destruct (ok_entry T i d Hi Hlive) as (Du & Dd & Nu & Nr & Nn).
  assert (HU : forall x, U' x = true -> U x = true) by (intros x; rewrite EU; by destruct (freed && (x =? n))).
  assert (HUn : forall x, U' x = true -> freed = true -> x <> n).
  { intros x Hx -> ->. rewrite EU, Nat.eqb_refl in Hx. done. }
  assert (Hback : forall x, U x = true -> x <> n -> U' x = true).
  { intros x Hx Hne. rewrite EU, (proj2 (Nat.eqb_neq x n)) by done. by rewrite andb_false_r. }
  (* no other entry names a node that is freed *)
  assert (Honly : freed = true -> forall j e, ds !! j = Some e -> live e = true -> j <> i -> d_node e <> n).
  { intros Hfr j e Hj Hl Hne En. destruct (D n) eqn:HDn; [by apply Hne, (ok_dir_once T j i e d); rewrite ?En|].
    destruct (Hf eq_refl Hfr) as [HL _]. pose proof (ok_links T n Nu) as HL'. rewrite HDn, HL in HL'.
    apply Hne. assert (Hall : count_if (names_node n) ds = 1) by lia. apply (count_one_same _ _ j i e d Hall Hj Hi);
      unfold names_node; [by rewrite Hl, En, Nat.eqb_refl|by rewrite Hlive, Nat.eqb_refl]. }
  constructor.
  - intros x Hx. by apply (ok_bound T), HU.
  - destruct (ok_root T) as [A B]. split; [|done]. apply Hback; congruence.
  - intros j e Hj Hl. destruct (rem_lookup j e Hj Hl) as [Hne Hj']. destruct (ok_entry T j e Hj' Hl) as (A & B & C & F).
    split_and!; try apply F; try done; rewrite EU.
    + destruct freed eqn:Ef; [|done]. destruct (Nat.eqb_spec (d_dir e) n) as [E|]; [|done]. exfalso.
      destruct (D n) eqn:HDn; [|congruence]. by apply (proj2 (Hd eq_refl) j e).
    + destruct freed eqn:Ef; [|done]. by rewrite (proj2 (Nat.eqb_neq _ n) (Honly eq_refl j e Hj' Hl Hne)).
  - intros j k e g Hj Hk' Hl Ed En. destruct (rem_lookup j e Hj Hl) as [_ Hj'].
    destruct (rem_lookup k g Hk') as [_ Hk'']; [apply live_true; apply live_true in Hl; congruence|]. by apply (ok_once T j k e g).
  - intros j k e g Hj Hk' He Hg. destruct (rem_lookup j e Hj He) as [_ Hj']. destruct (rem_lookup k g Hk' Hg) as [_ Hk''].
    by apply (ok_dir_once T j k e g).
  - intros x Hx HDx. apply rem_up; [intros HDn; by apply Hd| |done|by apply (ok_up T); [apply HU|]].
    intros HDn. apply HUn; [done|]. by apply Hd.
  - intros x Hx. rewrite (EL x Hx), (ok_links T x (HU x Hx)). pose proof (ok_bound T x (HU x Hx)) as Hb.
    destruct (D x) eqn:HDx.
    + pose proof (rem_count (sub_of D x) ltac:(intros e He; apply sub_of_dead; [lia|done])) as C.
      assert (Hxn : x = n -> D n = false) by (intros ->; destruct (D n) eqn:HDn; [|done]; exfalso; apply (HUn n Hx); [by apply Hd|done]).
      unfold sub_of at 2 in C. destruct (Nat.eqb_spec x n) as [->|Hne]; [rewrite Hxn in HDx by done; done|].
      rewrite (Nat.eqb_sym x dir). destruct (dir =? x), (D n); cbn [andb] in *; lia.
    + pose proof (rem_count (names_node x) ltac:(intros e He; by apply names_node_dead)) as C.
      unfold names_node at 2 in C. rewrite Hlive in C. cbn [andb] in C. rewrite (Nat.eqb_sym n x) in C.
      destruct (Nat.eqb_spec x n) as [->|Hne]; [lia|]. rewrite (proj2 (Nat.eqb_neq x dir)) by congruence.
      rewrite andb_false_r. lia.
  - intros x Hx. by apply T, HU.
  - intros k f Hk'. destruct (ok_files T k f Hk') as [A B]. split; [|done]. rewrite EU.
    destruct freed eqn:Ef; [|done]. destruct (Nat.eqb_spec (f_node f) n) as [E|]; [|done]. exfalso.
    destruct (Hf ltac:(congruence) eq_refl) as [_ HO]. rewrite (ok_opens T n Nu) in HO.
    assert (Hz : count_if (open_on n) fs = 0) by lia. pose proof (proj1 (count_if_zero _ _) Hz k (Some f) Hk') as C.
    cbn in C. rewrite E, Nat.eqb_refl in C. done.
  - intros x Hx HDx. rewrite (EL x Hx). pose proof (ok_alive T x (HU x Hx) HDx).
    destruct (Nat.eqb_spec x n) as [->|Hne].
    + destruct freed eqn:Ef; [exfalso; by apply (HUn n Hx)|]. specialize (Hk HDx eq_refl). lia.
    + rewrite (proj2 (Nat.eqb_neq x dir)) by congruence. rewrite andb_false_r. done.
Qed.
End removing.

(** ** Opening and closing *)
Section opening.
Context (U D : nat -> bool) (L O : nat -> Z) (ds : list tdent) (fs : list (option tfile)).
Hypothesis T : tree_ok U D L O ds fs.

Lemma tree_open k f O' :
  fs !! k = Some None -> U (f_node f) = true -> D (f_node f) = false ->
  (forall x, U x = true -> O' x = if x =? f_node f then (O x + 1)%Z else O x) ->
  tree_ok U D L O' ds (<[k := Some f]> fs).
Proof using T.
  intros Hk Hu Hd E. constructor; try apply T.
  - intros x Hx. rewrite (E x Hx), (ok_opens T x Hx).
    pose proof (count_if_insert (open_on x) fs k None (Some f) Hk) as C. cbn in C. rewrite (Nat.eqb_sym _ x) in C.
    destruct (x =? f_node f); lia.
  - intros j g Hj. destruct (decide (j = k)) as [->|Hne].
    + rewrite list_lookup_insert_eq in Hj by (by eapply lookup_lt_Some). simplify_eq. done.
    + rewrite list_lookup_insert_ne in Hj by done. by apply (ok_files T j g).
  - intros x Hx HDx. rewrite (E x Hx). pose proof (ok_alive T x Hx HDx). destruct (x =? f_node f); lia.
Qed.

(** Another position in an open file. *)
Lemma tree_reseek k f f' : fs !! k = Some (Some f) -> f_node f' = f_node f -> tree_ok U D L O ds (<[k := Some f']> fs).
Proof using T.
  intros Hk E. constructor; try apply T.
  - intros x Hx. rewrite (ok_opens T x Hx).
    pose proof (count_if_insert (open_on x) fs k (Some f) (Some f') Hk) as C. cbn in C. rewrite E in C.
    destruct (f_node f =? x); lia.
  - intros j g Hj. destruct (decide (j = k)) as [->|Hne]; [|rewrite list_lookup_insert_ne in Hj by done; by apply (ok_files T j g)].
    rewrite list_lookup_insert_eq in Hj by (by eapply lookup_lt_Some). injection Hj as <-. rewrite E. by apply (ok_files T k f).
Qed.

(** Closing, and the node freed if nothing holds it any more. *)
Lemma tree_close k f (freed : bool) U' O' :
  fs !! k = Some (Some f) ->
  (freed = true -> L (f_node f) = 0%Z /\ O (f_node f) = 1%Z) ->
  (freed = false -> (1 < L (f_node f) + O (f_node f))%Z) ->
  (forall x, U' x = if freed && (x =? f_node f) then false else U x) ->
  (forall x, U' x = true -> O' x = if x =? f_node f then (O x - 1)%Z else O x) ->
  tree_ok U' D L O' ds (<[k := None]> fs).
Proof using T.
  intros Hk Hf Hn EU E. destruct (ok_files T k f Hk) as [Hu Hd]. set (n := f_node f) in *.
  assert (HU : forall x, U' x = true -> U x = true /\ (freed = true -> x <> n)).
  { intros x. rewrite EU. destruct freed; [|done]. destruct (Nat.eqb_spec x n); [done|]. by split. }
  assert (Hno : freed = true -> forall j e, ds !! j = Some e -> live e = true -> d_node e <> n).
  { intros Hfr j e Hj Hl En. destruct (Hf Hfr) as [HL _]. pose proof (ok_links T n Hu) as HL'. rewrite Hd, HL in HL'.
    assert (Hz : count_if (names_node n) ds = 0) by lia. pose proof (proj1 (count_if_zero _ _) Hz j e Hj) as C.
    unfold names_node in C. rewrite Hl, En, Nat.eqb_refl in C. done. }
  assert (Hback : forall x, U x = true -> (freed = true -> x <> n) -> U' x = true).
  { intros x Hx Hne. rewrite EU. destruct freed; [|done]. by rewrite (proj2 (Nat.eqb_neq x n)) by auto. }
  assert (Hlook : forall j g, <[k := None]> fs !! j = Some (Some g) -> j <> k /\ fs !! j = Some (Some g)).
  { intros j g. destruct (decide (j = k)) as [->|Hne]; [by rewrite list_lookup_insert_eq by (by eapply lookup_lt_Some)|].
    by rewrite list_lookup_insert_ne. }
  assert (HDn : forall x, D x = true -> x <> n) by (intros x Hx ->; congruence).
  constructor.
  - intros x [Hx _]%HU. by apply T.
  - destruct (ok_root T). split; [|done]. apply Hback; [done|]. intros _. by apply HDn.
  - intros j e Hj Hl. destruct (ok_entry T j e Hj Hl) as (A & B & C & F). split_and!; try apply F; try done; apply Hback; auto.
    intros Hfr. by apply (Hno Hfr j e).
  - apply T.
  - apply T.
  - intros x [Hx _]%HU. by apply T.
  - intros x [Hx _]%HU. by apply T.
  - intros x Hx. rewrite (E x Hx). destruct (HU x Hx) as [Hx' _]. rewrite (ok_opens T x Hx').
    pose proof (count_if_insert (open_on x) fs k (Some f) None Hk) as C. cbn in C. fold n in C. rewrite (Nat.eqb_sym n x) in C.
    destruct (x =? n); lia.
  - intros j g [Hne Hj]%Hlook. destruct (ok_files T j g Hj) as [A B]. split; [|done]. apply Hback; [done|].
    intros Hfr En. apply Hne. destruct (Hf Hfr) as [_ HO]. rewrite (ok_opens T n Hu) in HO.
    assert (Hall : count_if (open_on n) fs = 1) by lia.
    apply (count_one_same _ _ j k _ _ Hall Hj Hk); cbn; [by rewrite En, Nat.eqb_refl|by rewrite Nat.eqb_refl].
  - intros x Hx HDx. rewrite (E x Hx). destruct (HU x Hx) as [Hx' Hne]. pose proof (ok_alive T x Hx' HDx).
    destruct (Nat.eqb_spec x n) as [->|]; [|done]. destruct freed; [by destruct Hne|]. specialize (Hn eq_refl). lia.
Qed.
End opening.

(** ** A name moved *)
Section moving.
Context (U D : nat -> bool) (L O : nat -> Z) (ds : list tdent) (fs : list (option tfile)).
Context (i : nat) (d : tdent) (q : nat) (nm : list Z).
Hypothesis T : tree_ok U D L O ds fs.
Hypothesis Hi : ds !! i = Some d.
Hypothesis Hlive : live d = true.
Hypothesis Hq : U q = true /\ D q = true.
Hypothesis Hnm : name_ok nm.
Hypothesis Hfree : forall j e, ds !! j = Some e -> live e = true -> d_dir e = q -> d_name e <> nm.
Hypothesis Hunder : D (d_node d) = true -> ~ below ds (d_node d) q.
#[local] Notation n := (d_node d).
#[local] Notation p := (d_dir d).
#[local] Notation ds' := (alter (fun e => mk_tdent q (d_node e) nm) i ds).

Lemma mv_here : ds' !! i = Some (mk_tdent q n nm).
Proof using Hi. by rewrite list_lookup_alter_eq, Hi. Qed.
Lemma mv_cases j e : ds' !! j = Some e -> (j = i /\ e = mk_tdent q n nm) \/ (j <> i /\ ds !! j = Some e).
Proof using Hi.
  destruct (decide (j = i)) as [->|Hne]; [rewrite mv_here; intros [= <-]; by left|].
  rewrite list_lookup_alter_ne by done. by right.
Qed.
Lemma mv_live : live (mk_tdent q n nm) = true.
Proof using T Hq. apply live_true. cbn. pose proof (ok_bound T q (proj1 Hq)). lia. Qed.
Lemma mv_count (P : tdent -> bool) :
  count_if P ds' + (if P d then 1 else 0) = count_if P ds + (if P (mk_tdent q n nm) then 1 else 0).
Proof using Hi. rewrite (alter_insert _ _ _ _ Hi). by apply count_if_insert. Qed.

(** The new directory's way to the root does not go through what moves. *)
Lemma mv_up_avoid x : up ds x -> ~ below ds n x -> up ds' x.
Proof using Hi.
  intros Hup. induction Hup as [|j e Hj Hl Hup IH]; intros Hb; [constructor|].
  assert (Hji : j <> i) by (intros ->; assert (e = d) as -> by congruence; apply Hb; constructor).
  eapply up_step; [by rewrite list_lookup_alter_ne|done|]. apply IH. intros B. apply Hb. by eapply below_step.
Qed.
Lemma mv_up x : D x = true -> up ds x -> up ds' x.
Proof using T Hi Hlive Hq Hunder.
  intros HDx Hup. revert HDx. induction Hup as [|j e Hj Hl Hup IH]; intros HDx; [constructor|].
  destruct (ok_entry T j e Hj Hl) as (_ & B & _). destruct (decide (j = i)) as [->|Hne].
  - assert (e = d) as -> by congruence. apply (up_step _ i (mk_tdent q n nm)); [apply mv_here|apply mv_live|].
    cbn. apply mv_up_avoid; [apply (ok_up T); apply Hq|by apply Hunder].
  - eapply up_step; [by rewrite list_lookup_alter_ne|done|by apply IH].
Qed.

Lemma tree_move L' :
  (forall x, U x = true -> L' x = if D n && negb (p =? q)
     then (L x - (if (x =? p)%nat then 1 else 0) + (if (x =? q)%nat then 1 else 0))%Z else L x) ->
  tree_ok U D L' O ds' fs.
Proof using All.
  intros E. destruct Hq as [Qu Qd]. destruct (ok_entry T i d Hi Hlive) as (Pu & Pd & Nu & Nr & _).
  constructor; try apply T.
  - intros j e [[-> ->]|[_ Hj]]%mv_cases Hl; [|by apply (ok_entry T j e)]. cbn. split_and!; first [apply Hnm|done].
  - intros j k e g [[-> ->]|[Hji Hj]]%mv_cases [[-> ->]|[Hki Hk]]%mv_cases Hl Ed En; cbn in *; try done.
    + exfalso. apply (Hfree k g Hk); [|done|done]. apply live_true. rewrite <- Ed. pose proof (ok_bound T q Qu). lia.
    + exfalso. by apply (Hfree j e Hj).
    + by apply (ok_once T j k e g).
  - intros j k e g [[-> ->]|[Hji Hj]]%mv_cases [[-> ->]|[Hki Hk]]%mv_cases Hl He En HDd; cbn in *; try done.
    + by apply (ok_dir_once T i k d g).
    + apply (ok_dir_once T j i e d); try done.
    + by apply (ok_dir_once T j k e g).
  - intros x Hx HDx. apply mv_up; [done|]. by apply (ok_up T).
  - intros x Hx. rewrite (E x Hx), (ok_links T x Hx). destruct (D x) eqn:HDx.
    + pose proof (mv_count (sub_of D x)) as C. unfold sub_of at 2 4 in C. cbn in C.
      rewrite (Nat.eqb_sym x p), (Nat.eqb_sym x q). destruct (D n); cbn [andb];
        [|rewrite !andb_false_r in C; lia]. rewrite !andb_true_r in C.
      destruct (Nat.eqb_spec p q) as [Epq|Hpq]; cbn [negb].
      * rewrite Epq in C. destruct (q =? x); lia.
      * destruct (Nat.eqb_spec p x), (Nat.eqb_spec q x); lia.
    + assert (x <> p /\ x <> q) as [Hxp Hxq] by (split; congruence).
      rewrite (proj2 (Nat.eqb_neq x p)), (proj2 (Nat.eqb_neq x q)) by done.
      pose proof (mv_count (names_node x)) as C. unfold names_node at 2 4 in C. rewrite Hlive, mv_live in C. cbn in C.
      destruct (D n && negb (p =? q)), (n =? x); lia.
  - intros x Hx HDx. rewrite (E x Hx). pose proof (ok_alive T x Hx HDx).
    rewrite (proj2 (Nat.eqb_neq x p)), (proj2 (Nat.eqb_neq x q)) by congruence.
    destruct (D n && negb (p =? q)); lia.
Qed.
End moving.

(** ** The way up *)
Section parents.
Context (U D : nat -> bool) (L O : nat -> Z) (ds : list tdent) (fs : list (option tfile)).
Hypothesis T : tree_ok U D L O ds fs.

Lemma parent_entry i d : ds !! i = Some d -> live d = true -> D (d_node d) = true ->
  find_idx (names_node (d_node d)) ds = Some i /\ parent_of (d_node d) ds = d_dir d.
Proof using T.
  intros Hi Hl HD. destruct (ok_entry T i d Hi Hl) as (_ & _ & _ & Hr & _).
  assert (Hf : find_idx (names_node (d_node d)) ds = Some i).
  { apply find_idx_Some. split; [exists d; split; [done|]; unfold names_node; by rewrite Hl, Nat.eqb_refl|].
    intros j e Hj He. destruct (names_node (d_node d) e) eqn:En; [|done]. exfalso.
    unfold names_node in En. apply andb_true_iff in En as [El En%Nat.eqb_eq].
    assert (j = i); [|lia]. apply (ok_dir_once T j i e d); congruence. }
  split; [done|]. unfold parent_of. rewrite (proj2 (Nat.eqb_neq _ ROOT)) by done. by rewrite Hf, Hi.
Qed.

(** How far a directory is from the root. *)
Inductive depth : nat -> nat -> Prop :=
  | depth_root : depth ROOT 0
  | depth_step i d k : ds !! i = Some d -> live d = true -> depth (d_dir d) k -> depth (d_node d) (S k).

Lemma up_depth x : up ds x -> exists k, depth x k.
Proof using Type. induction 1 as [|i d Hi Hl _ [k IH]]; [by exists 0; constructor|]. exists (S k). by eapply depth_step. Qed.
Lemma depth_dir x k : depth x k -> D x = true -> U x = true.
Proof using T. intros [|i d k' Hi Hl _] _; [apply (ok_root T)|]. by apply (ok_entry T i d). Qed.

Lemma depth_unique x k k' : D x = true -> depth x k -> depth x k' -> k = k'.
Proof using T.
  intros HD Hk. revert k' HD. induction Hk as [|i d k Hi Hl Hk IH]; intros k' HD Hk'.
  - inversion Hk' as [|j e m Hj He _ E]; [done|]. exfalso. by destruct (ok_entry T j e Hj He) as (_ & _ & _ & ? & _).
  - destruct (ok_entry T i d Hi Hl) as (_ & Hpd & _ & Hr & _).
    inversion Hk' as [E|j e m Hj He Hm E]; [congruence|]. f_equal.
    assert (j = i) as -> by (by apply (ok_dir_once T j i e d); rewrite ?E). assert (e = d) as -> by congruence. by apply IH.
Qed.

(** The directories on the way are all different, so the way is short. *)
Lemma depth_chain x k : D x = true -> depth x k ->
  exists l, length l = S k /\ NoDup l /\ forall y, y ∈ l -> D y = true /\ exists m, m <= k /\ depth y m.
Proof using T.
  intros HD Hk. revert HD. induction Hk as [|i d k Hi Hl Hk IH]; intros HD.
  - exists [ROOT]. split_and!; [done|apply NoDup_singleton|]. intros y ->%list_elem_of_singleton. split; [done|].
    exists 0. split; [done|constructor].
  - destruct (ok_entry T i d Hi Hl) as (_ & Hpd & _). destruct (IH Hpd) as (l & L1 & L2 & L3).
    exists (d_node d :: l). split; [cbn; lia|]. split.
    + constructor; [|done]. intros [_ (m & Hm & Hd)]%L3.
      assert (S k = m) by (eapply depth_unique; [exact HD|by eapply depth_step|done]). lia.
    + intros y [->|Hy]%elem_of_cons; [split; [done|]; exists (S k); split; [lia|by eapply depth_step]|].
      destruct (L3 y Hy) as [A (m & B & C)]. split; [done|]. exists m. split; [lia|done].
Qed.
Lemma depth_bound x k : D x = true -> depth x k -> S k <= TMP_NODES.
Proof using T.
  intros HD Hk. destruct (depth_chain x k HD Hk) as (l & L1 & L2 & L3). rewrite <- L1.
  rewrite <- (length_seq TMP_NODES 0). apply submseteq_length, NoDup_submseteq; [done|].
  intros y Hy. destruct (L3 y Hy) as [A (m & _ & B)]. apply elem_of_seq.
  pose proof (ok_bound T y (depth_dir y m B A)). lia.
Qed.

(** is_under is being at or below, with the hops it has. *)
Lemma is_under_spec a n k hops : D a = true -> depth a k -> S k <= hops ->
  (is_under hops a n ds = true <-> below ds n a).
Proof using T.
  intros HD Hk. revert hops HD. induction Hk as [|i d k Hi Hl Hk IH]; intros [|hops] HD Hh; try lia; cbn [is_under].
  - destruct (Nat.eqb_spec ROOT n) as [->|Hne]; [split; [intros _; constructor|done]|].
    rewrite (Nat.eqb_refl ROOT). split; [done|]. intros Hb. exfalso.
    inversion Hb as [E|j e Hj He _ E]; [done|]. by destruct (ok_entry T j e Hj He) as (_ & _ & _ & ? & _).
  - destruct (ok_entry T i d Hi Hl) as (_ & Hpd & _ & Hr & _).
    destruct (Nat.eqb_spec (d_node d) n) as [->|Hne]; [split; [intros _; constructor|done]|].
    rewrite (proj2 (Nat.eqb_neq _ ROOT) Hr). rewrite (proj2 (parent_entry i d Hi Hl HD)).
    rewrite IH by (done || lia). split.
    + intros Hb. by eapply below_step.
    + intros Hb. inversion Hb as [E|j e Hj He Hb' E]; [done|].
      assert (j = i) as -> by (by apply (ok_dir_once T j i e d); rewrite ?E). by assert (e = d) as -> by congruence.
Qed.

Lemma is_under_enough a n : U a = true -> D a = true -> (is_under TMP_NODES a n ds = true <-> below ds n a).
Proof using T.
  intros Ha HD. destruct (up_depth a (ok_up T a Ha HD)) as [k Hk].
  apply (is_under_spec a n k); [done|done|by apply (depth_bound a)].
Qed.
End parents.
End TMPTREE.
