(* ===== verification/Tmpfs.v ===== *)
(** * The names of the file system in memory (kernel/fs/tmpfs.c: nodes and
    names, walking a path, the operations vfs.c calls)

    One table of nodes and one of names: an entry says that a directory, by
    its node, has a name for a node. The state is that of Tmpfile. Paths are
    strings of bytes without their final zero. The current user and the time
    are arguments of the calls; vfs.c serialises them. An index of -1 in the
    table of names is a result of its own, [None]. *)

From S2P Require Import Prelude Pmm Pages Tmpfile Tmptree.
Local Open Scope Z_scope.

Module TMPFS.
Import TMPFILE TMPTREE.

(** ** The code *)

Definition TMP_DENTS : nat := 1024.
Definition TMP_INO_BASE : Z := 1879048192.
Definition NAME_MAX : Z := 255.
Definition PATH_MAX : Z := 1024.
Definition WALK_HOPS : nat := 8.
Definition S_IFMT : Z := 61440.
Definition S_IFREG : Z := 32768.
Definition S_IFDIR : Z := 16384.
Definition S_IFIFO : Z := 4096.
Definition S_IFLNK : Z := 40960.
Definition S_ISVTX : Z := 512.
Definition S_ISDIR (m : Z) : bool := Z.land m S_IFMT =? S_IFDIR.
Definition S_ISLNK (m : Z) : bool := Z.land m S_IFMT =? S_IFLNK.
Definition S_ISFIFO (m : Z) : bool := Z.land m S_IFMT =? S_IFIFO.
Definition O_CREAT : Z := 64.
Definition O_EXCL : Z := 128.
Definition O_TRUNC : Z := 512.
Definition O_NOFOLLOW : Z := 32768.
Definition ATTR_MODE : Z := 1.
Definition ATTR_UID : Z := 2.
Definition ATTR_GID : Z := 4.
Definition TMPFS_MAGIC : Z := 16914836.
Definition ST_DEV_TMPFS : Z := 21.

Definition str_tmp : list Z := [116; 109; 112].
Definition str_shm : list Z := [115; 104; 109].
Definition slash_tmp : list Z := SLASH :: str_tmp.
Definition dev_shm : list Z := [47; 100; 101; 118; 47; 115; 104; 109].

(** Who calls, and when: vfs_cred and the clock. *)
Record ctx := mk_ctx { now : Z; c_uid : Z; c_gid : Z }.

Record stat := mk_stat {
  st_mode : Z; st_size : Z; st_mtime : Z; st_ino : Z; st_dev : Z; st_uid : Z; st_gid : Z; st_nlink : Z; st_blocks : Z }.
Record dirent := mk_dirent { de_name : list Z; de_size : Z; de_mode : Z; de_mtime : Z; de_ino : Z }.

Section code.
Context {W : Type} `{PageMemory W} (pmm_total : W -> Z).
#[local] Notation tmpfs := (@tmpfs W).

Definition node (s : tmpfs) (i : nat) : tnode := default no_node (nodes s !! i).
Definition upd_node (i : nat) (f : tnode -> tnode) (s : tmpfs) : tmpfs := set_nodes (alter f i (nodes s)) s.
Definition is_dir (s : tmpfs) (i : nat) : bool := S_ISDIR (mode (node s i)).
Definition is_link (s : tmpfs) (i : nat) : bool := S_ISLNK (mode (node s i)).

(** cut on a node of the table. *)
Definition cut_node (i : nat) (from : Z) (s : tmpfs) : tmpfs :=
  let '(n, p) := cut (node s i) from (heap s) in set_heap p (upd_node i (fun _ => n) s).

Definition init_top (c : ctx) (i : nat) (nm : list Z) (s : tmpfs) : tmpfs :=
  let s := upd_node (2 + i) (fun n => set_mtime (now c) (set_nlink 2 (mk_tnode true (u32 (TMP_INO_BASE + next_ino s))
             (Z.lor S_IFDIR 1023) (uid n) (gid n) (nlink n) (size n) (mtime n) (opens n) (top n)))) s in
  let s := set_next_ino (u32 (next_ino s + 1)) s in
  set_dents (<[i := mk_tdent ROOT (2 + i) nm]> (dents s)) s.

Definition init_once (c : ctx) (s : tmpfs) : tmpfs :=
  if n_used (node s ROOT) then s
  else
    let s := set_heap (mk_pool (mem (heap s)) (pages_used (heap s)) (pmm_total (mem (heap s)) / 2)) s in
    let s := upd_node ROOT (fun n => mk_tnode true (TMP_INO_BASE + 1) (Z.lor S_IFDIR 493) (uid n) (gid n) 4
               (size n) (now c) (opens n) (top n)) s in
    init_top c 1 str_shm (init_top c 0 str_tmp s).

Definition node_alloc (c : ctx) (m : Z) (s : tmpfs) : (Z + nat) * tmpfs :=
  match find_idx (fun n => negb (n_used n)) (drop (ROOT + 1) (nodes s)) with
  | Some k =>
      let i := (ROOT + 1 + k)%nat in
      let n := mk_tnode true (u32 (TMP_INO_BASE + next_ino s)) m (c_uid c) (c_gid c) 0 0 (now c) 0 0 in
      (inr i, set_next_ino (u32 (next_ino s + 1)) (upd_node i (fun _ => n) s))
  | None => (inl (- ENOSPC), s)
  end.

Definition node_maybe_free (i : nat) (s : tmpfs) : tmpfs :=
  let n := node s i in
  if n_used n && (nlink n =? 0) && (opens n =? 0) then upd_node i (set_nused false) (cut_node i 0 s) else s.

Definition is_entry (dir : nat) (nm : list Z) (d : tdent) : bool :=
  (d_dir d =? dir)%nat && bool_decide (d_name d = nm).
Definition dent_find (dir : nat) (nm : list Z) (s : tmpfs) : option nat := find_idx (is_entry dir nm) (dents s).

Definition dent_add (c : ctx) (dir : nat) (nm : list Z) (n : nat) (s : tmpfs) : Z * tmpfs :=
  if NAME_MAX <? Z.of_nat (length nm) then (- ENAMETOOLONG, s)
  else
    match find_idx (fun d => (d_dir d =? 0)%nat) (dents s) with
    | Some i => (Z.of_nat i, upd_node dir (set_mtime (now c)) (set_dents (<[i := mk_tdent dir n nm]> (dents s)) s))
    | None => (- ENOSPC, s)
    end.

(** ** Walking a path *)

Fixpoint skip_slashes (p : list Z) : list Z :=
  match p with
  | c :: p' => if c =? SLASH then skip_slashes p' else p
  | [] => []
  end.
Fixpoint name_and_rest (p : list Z) : list Z * list Z :=
  match p with
  | c :: p' => if c =? SLASH then ([], p) else let '(nm, rest) := name_and_rest p' in (c :: nm, rest)
  | [] => ([], [])
  end.

(** What walk_from stores through its pointers: the node or the error, and,
    once it has come to the last name, that name and its directory. *)
Record walked := mk_walked { w_out : Z + nat; w_last : option (nat * list Z) }.

Fixpoint walk_loop (follow : nat -> nat -> Z + nat) (follow_last : bool) (fuel : nat) (cur : nat) (path : list Z)
    (s : tmpfs) : walked :=
  match fuel with
  | O => mk_walked (inr cur) None
  | S fuel' =>
      let '(c, path) := name_and_rest path in
      let path := skip_slashes path in
      let is_last := match path with [] => true | _ => false end in
      if bool_decide (c = []) then mk_walked (inr cur) None
      else if negb (is_dir s cur) then mk_walked (inl (- ENOTDIR)) None
      else
        let last := if is_last then Some (cur, c) else None in
        let n := if bool_decide (c = dot) then inr cur
                 else if bool_decide (c = dotdot) then inr (parent_of cur (dents s))
                 else match dent_find cur c s with
                      | None => inl (- ENOENT)
                      | Some d =>
                          let n := default 0%nat (d_node <$> dents s !! d) in
                          if is_link s n && (negb is_last || follow_last) then follow cur n else inr n
                      end in
        match n with
        | inl e => mk_walked (inl e) last
        | inr n => if is_last then mk_walked (inr n) last else walk_loop follow follow_last fuel' n path s
        end
  end.

Definition under_name (pre p : list Z) : bool :=
  bool_decide (take (length pre) p = pre) &&
  match p !! length pre with None => true | Some c => c =? SLASH end.

(** A C string ends at its first zero. *)
Fixpoint c_string (bs : list Z) : list Z :=
  match bs with
  | b :: bs' => if b =? 0 then [] else b :: c_string bs'
  | [] => []
  end.

(** follow, given the walk to do for the target. *)
Definition follow (walk_to : nat -> list Z -> Z + nat) (dir n : nat) (s : tmpfs) : Z + nat :=
  let len := size (node s n) in
  let '(pa, _, _) := page_of (node s n) 0 false (heap s) in
  if (NAME_MAX <? len) || (pa =? 0) then inl (- ENOENT)
  else
    let t := c_string (page_bytes pa (Z.to_nat len) (mem (heap s))) in
    if bool_decide (head t = Some SLASH) then
      if under_name slash_tmp t then walk_to ROOT t
      else if under_name dev_shm t then walk_to ROOT (drop 4 t)
      else inl (- EXDEV)
    else walk_to dir t.

(** [hops] is how many links may still be followed. *)
Fixpoint walk_from (hops : nat) (dir : nat) (path : list Z) (follow_last : bool) (s : tmpfs) : walked :=
  let cur := if bool_decide (head path = Some SLASH) then ROOT else dir in
  let path := skip_slashes path in
  walk_loop (fun d n => match hops with
                        | O => inl (- ELOOP)
                        | S h => follow (fun start t => w_out (walk_from h start t true s)) d n s
                        end) follow_last (S (length path)) cur path s.

Definition here (path : list Z) : list Z := if under_name dev_shm path then drop 4 path else path.

Definition walk (c : ctx) (path : list Z) (follow_last : bool) (s : tmpfs) : (Z + nat) * tmpfs :=
  let s := init_once c s in (w_out (walk_from WALK_HOPS ROOT (here path) follow_last s), s).

Definition walk_parent (c : ctx) (path : list Z) (s : tmpfs) : (Z + nat * list Z * option nat) * tmpfs :=
  let s := init_once c s in
  let w := walk_from WALK_HOPS ROOT (here path) false s in
  (match w_out w, w_last w with
   | inr n, Some (dir, nm) => inr (dir, nm, Some n)
   | inr n, None => inl (- EBUSY)
   | inl r, Some (dir, nm) => if (r =? - ENOENT) && is_dir s dir then inr (dir, nm, None) else inl r
   | inl r, None => inl r
   end, s).

Definition sticky_ok (c : ctx) (dir n : nat) (s : tmpfs) : Z :=
  if negb (has (mode (node s dir)) S_ISVTX) || (c_uid c =? 0) then 0
  else if (c_uid c =? uid (node s n)) || (c_uid c =? uid (node s dir)) then 0 else - EPERM.

(** ** The operations *)

Definition fill_stat (i : nat) (s : tmpfs) : stat :=
  let n := node s i in
  mk_stat (mode n) (if S_ISDIR (mode n) then PMM.PAGE_SIZE else size n) (mtime n) (ino n) ST_DEV_TMPFS (uid n) (gid n)
    (nlink n) (size n / 512).

Definition set_file (k : nat) (f : option tfile) (s : tmpfs) : tmpfs := set_files (<[k := f]> (files s)) s.

Definition tf_close (k : nat) (s : tmpfs) : option tmpfs :=
  match files s !! k with
  | Some (Some f) =>
      let i := f_node f in
      Some (node_maybe_free i (upd_node i (fun n => set_opens (u32 (opens n - 1)) n) (set_file k None s)))
  | _ => None
  end.
Definition tf_fstat (f : tfile) (s : tmpfs) : stat := fill_stat (f_node f) s.

(** The end of t_open: node [n] is open as file [k]. *)
Definition opened (k n : nat) (flags : Z) (s : tmpfs) : tmpfs :=
  let s := upd_node n (fun x => set_opens (u32 (opens x + 1)) x) s in
  set_file k (Some (mk_tfile n (if has flags O_APPEND then size (node s n) else 0) flags)) s.

Definition t_open (c : ctx) (k : nat) (path : list Z) (flags : Z) (s : tmpfs) : Z * tmpfs :=
  match walk_parent c path s with
  | (inl r, s) => (r, s)
  | (inr (_, _, Some n), s) =>
      if has flags O_CREAT && has flags O_EXCL then (- EEXIST, s)
      else
        let found :=
          if is_link s n then if has flags O_NOFOLLOW then inl (- ELOOP) else fst (walk c path true s) else inr n in
        match found with
        | inl r => (r, s)
        | inr n =>
            if is_dir s n then (- EISDIR, s)
            else
              let s := if has flags O_TRUNC && negb (Z.land flags O_ACCMODE =? O_RDONLY)
                       then upd_node n (fun x => set_mtime (now c) (set_size 0 x)) (cut_node n 0 s) else s in
              (0, opened k n flags s)
        end
  | (inr (dir, nm, None), s) =>
      if negb (has flags O_CREAT) then (- ENOENT, s)
      else
        match node_alloc c (Z.lor S_IFREG 420) s with
        | (inl r, s) => (r, s)
        | (inr n, s) =>
            let '(r, s) := dent_add c dir nm n s in
            if r <? 0 then (r, upd_node n (set_nused false) s)
            else (0, opened k n flags (upd_node n (set_nlink 1) s))
        end
  end.

Definition t_stat (c : ctx) (path : list Z) (s : tmpfs) : (Z + stat) * tmpfs :=
  match walk c path true s with (inl r, s) => (inl r, s) | (inr n, s) => (inr (fill_stat n s), s) end.
Definition t_lstat (c : ctx) (path : list Z) (s : tmpfs) : (Z + stat) * tmpfs :=
  match walk c path false s with (inl r, s) => (inl r, s) | (inr n, s) => (inr (fill_stat n s), s) end.

(** Has the directory a name in it? *)
Definition in_dir (dir : nat) (d : tdent) : bool := (d_dir d =? dir)%nat.
Definition has_names (dir : nat) (s : tmpfs) : bool := bool_decide (find_idx (in_dir dir) (dents s) <> None).

(** dents[i].dir = 0; with [None] the index is -1, before the table. *)
Definition clear_dent (i : option nat) (s : tmpfs) : option tmpfs :=
  match i with
  | Some i => Some (set_dents (alter (fun d => mk_tdent 0 (d_node d) (d_name d)) i (dents s)) s)
  | None => None
  end.

Definition dec_nlink (n : tnode) : tnode := set_nlink (u32 (nlink n - 1)) n.
Definition inc_nlink (n : tnode) : tnode := set_nlink (u32 (nlink n + 1)) n.

Definition t_unlink_common (c : ctx) (path : list Z) (want_dir : bool) (s : tmpfs) : option (Z * tmpfs) :=
  match walk_parent c path s with
  | (inl r, s) => Some (r, s)
  | (inr (_, _, None), s) => Some (- ENOENT, s)
  | (inr (dir, nm, Some existing), s) =>
      if (dir =? ROOT)%nat then Some (- EBUSY, s)
      else if want_dir && negb (is_dir s existing) then Some (- ENOTDIR, s)
      else if negb want_dir && is_dir s existing then Some (- EISDIR, s)
      else if sticky_ok c dir existing s <? 0 then Some (sticky_ok c dir existing s, s)
      else if want_dir && has_names existing s then Some (- ENOTEMPTY, s)
      else
        s ← clear_dent (dent_find dir nm s) s;
        let s := upd_node dir (set_mtime (now c)) s in
        let s := if want_dir then upd_node dir dec_nlink (upd_node existing (set_nlink 0) s)
                 else upd_node existing dec_nlink s in
        Some (0, node_maybe_free existing s)
  end.
Definition t_unlink (c : ctx) (path : list Z) (s : tmpfs) : option (Z * tmpfs) := t_unlink_common c path false s.
Definition t_rmdir (c : ctx) (path : list Z) (s : tmpfs) : option (Z * tmpfs) := t_unlink_common c path true s.

Definition t_mkdir (c : ctx) (path : list Z) (s : tmpfs) : Z * tmpfs :=
  match walk_parent c path s with
  | (inl r, s) => (r, s)
  | (inr (_, _, Some _), s) => (- EEXIST, s)
  | (inr (dir, nm, None), s) =>
      match node_alloc c (Z.lor S_IFDIR 493) s with
      | (inl r, s) => (r, s)
      | (inr n, s) =>
          let '(r, s) := dent_add c dir nm n s in
          if r <? 0 then (r, upd_node n (set_nused false) s)
          else (0, upd_node dir inc_nlink (upd_node n (set_nlink 2) s))
      end
  end.

Definition t_symlink (c : ctx) (target linkpath : list Z) (s : tmpfs) : Z * tmpfs :=
  let tl := Z.of_nat (length target) in
  if NAME_MAX <? tl then (- ENAMETOOLONG, s)
  else
    match walk_parent c linkpath s with
    | (inl r, s) => (r, s)
    | (inr (_, _, Some _), s) => (- EEXIST, s)
    | (inr (dir, nm, None), s) =>
        match node_alloc c (Z.lor S_IFLNK 511) s with
        | (inl r, s) => (r, s)
        | (inr n, s) =>
            let '(pa, x, p) := page_of (node s n) 0 true (heap s) in
            let s := set_heap p (upd_node n (fun _ => x) s) in
            if pa =? 0 then (- ENOSPC, upd_node n (set_nused false) s)
            else
              let s := set_heap (set_mem (store_bytes pa target (mem (heap s))) (heap s)) s in
              let s := upd_node n (set_size tl) s in
              let '(r, s) := dent_add c dir nm n s in
              if r <? 0 then (r, upd_node n (set_nused false) (cut_node n 0 s))
              else (0, upd_node n (set_nlink 1) s)
        end
    end.

Definition t_mknod (c : ctx) (path : list Z) (m : Z) (s : tmpfs) : Z * tmpfs :=
  if negb (S_ISFIFO m) then (- EPERM, s)
  else
    match walk_parent c path s with
    | (inl r, s) => (r, s)
    | (inr (_, _, Some _), s) => (- EEXIST, s)
    | (inr (dir, nm, None), s) =>
        match node_alloc c (Z.lor S_IFIFO (Z.land m 4095)) s with
        | (inl r, s) => (r, s)
        | (inr n, s) =>
            let '(r, s) := dent_add c dir nm n s in
            if r <? 0 then (r, upd_node n (set_nused false) s) else (0, upd_node n (set_nlink 1) s)
        end
    end.

Definition t_readlink (c : ctx) (path : list Z) (sz : Z) (s : tmpfs) : (Z + list Z) * tmpfs :=
  match walk c path false s with
  | (inl r, s) => (inl r, s)
  | (inr n, s) =>
      if negb (is_link s n) then (inl (- EINVAL), s)
      else if sz <=? size (node s n) then (inl (- ENAMETOOLONG), s)
      else
        let '(pa, _, _) := page_of (node s n) 0 false (heap s) in
        (inr (page_bytes pa (Z.to_nat (size (node s n))) (mem (heap s))), s)
  end.

Definition t_link (c : ctx) (from to : list Z) (s : tmpfs) : Z * tmpfs :=
  match walk c from false s with
  | (inl r, s) => (r, s)
  | (inr n, s) =>
      if is_dir s n then (- EPERM, s)
      else
        match walk_parent c to s with
        | (inl r, s) => (r, s)
        | (inr (_, _, Some _), s) => (- EEXIST, s)
        | (inr (dir, nm, None), s) =>
            let '(r, s) := dent_add c dir nm n s in
            if r <? 0 then (r, s) else (0, upd_node n inc_nlink s)
        end
  end.

(** The part of t_rename that takes an existing target out of the way. *)
Definition replace_target (tdir tn : nat) (tname : list Z) (s : tmpfs) : option tmpfs :=
  let s := if is_dir s tn then upd_node tn (set_nlink 0) (upd_node tdir dec_nlink s) else upd_node tn dec_nlink s in
  s ← clear_dent (dent_find tdir tname s) s;
  Some (node_maybe_free tn s).

(** And the part that moves the name, dents[df]. *)
Definition move_name (c : ctx) (fdir tdir fnode : nat) (fname tname : list Z) (s : tmpfs) : option (Z * tmpfs) :=
  let df := dent_find fdir fname s in
  if NAME_MAX <? Z.of_nat (length tname) then Some (- ENAMETOOLONG, s)
  else
    df ← df;
    let s := set_dents (alter (fun d => mk_tdent tdir (d_node d) tname) df (dents s)) s in
    let s := if is_dir s fnode && negb (fdir =? tdir)%nat
             then upd_node tdir inc_nlink (upd_node fdir dec_nlink s) else s in
    Some (0, upd_node fdir (set_mtime (now c)) (upd_node tdir (set_mtime (now c)) s)).

Definition t_rename (c : ctx) (from to : list Z) (s : tmpfs) : option (Z * tmpfs) :=
  match walk_parent c from s with
  | (inl r, s) => Some (r, s)
  | (inr (_, _, None), s) => Some (- ENOENT, s)
  | (inr (fdir, fname, Some fnode), s) =>
      if (fdir =? ROOT)%nat then Some (- EBUSY, s)
      else
        match walk_parent c to s with
        | (inl r, s) => Some (r, s)
        | (inr (tdir, tname, tnode_), s) =>
            if (tdir =? ROOT)%nat then Some (- EBUSY, s)
            else if bool_decide (tnode_ = Some fnode) then Some (0, s)
            else if is_dir s fnode && is_under TMP_NODES tdir fnode (dents s) then Some (- EINVAL, s)
            else if sticky_ok c fdir fnode s <? 0 then Some (sticky_ok c fdir fnode s, s)
            else
              match tnode_ with
              | Some tn =>
                  if negb (Bool.eqb (is_dir s tn) (is_dir s fnode))
                  then Some (if is_dir s tn then - EISDIR else - ENOTDIR, s)
                  else if sticky_ok c tdir tn s <? 0 then Some (sticky_ok c tdir tn s, s)
                  else if is_dir s tn && has_names tn s then Some (- ENOTEMPTY, s)
                  else s ← replace_target tdir tn tname s; move_name c fdir tdir fnode fname tname s
              | None => move_name c fdir tdir fnode fname tname s
              end
        end
  end.

Definition t_dir_ino (c : ctx) (path : list Z) (s : tmpfs) : (Z + nat) * tmpfs :=
  match walk c path true s with
  | (inl r, s) => (inl r, s)
  | (inr n, s) => if negb (is_dir s n) then (inl (- ENOTDIR), s) else (inr n, s)
  end.

(** The [k]th entry of a directory. *)
Fixpoint nth_entry (dir : nat) (k : nat) (ds : list tdent) : option tdent :=
  match ds with
  | [] => None
  | d :: ds' => if in_dir dir d then match k with O => Some d | S k' => nth_entry dir k' ds' end else nth_entry dir k ds'
  end.

Definition t_readdir_in (dir : nat) (index : Z) (s : tmpfs) : Z + dirent :=
  if (TMP_NODES <=? dir)%nat || negb (n_used (node s dir)) || negb (is_dir s dir) then inl (- ENOTDIR)
  else if index <? 2 then
    let n := node s (if index =? 0 then dir else parent_of dir (dents s)) in
    inr (mk_dirent (if index =? 0 then dot else dotdot) 0 (mode n) (mtime n) (ino n))
  else
    match nth_entry dir (Z.to_nat (index - 2)) (dents s) with
    | Some d => let n := node s (d_node d) in inr (mk_dirent (d_name d) (size n) (mode n) (mtime n) (ino n))
    | None => inl (- ENOENT)
    end.

(** The loop of t_dir_path: [tmp] is the path so far, from the end. *)
Fixpoint dir_path_loop (hops : nat) (d : nat) (tmp : list Z) (s : tmpfs) : Z + list Z :=
  match hops with
  | O => inr tmp
  | S hops' =>
      if (d =? ROOT)%nat then inr tmp
      else
        match find_idx (names_node d) (dents s) with
        | None => inl (- ENOENT)
        | Some i =>
            let e := default (mk_tdent 0 0 []) (dents s !! i) in
            if PATH_MAX <=? Z.of_nat (length tmp) + Z.of_nat (length (d_name e)) + 2 then inl (- ENAMETOOLONG)
            else dir_path_loop hops' (d_dir e) (SLASH :: d_name e ++ tmp) s
        end
  end.
Definition t_dir_path (dir : nat) (sz : Z) (s : tmpfs) : Z + list Z :=
  match dir_path_loop TMP_NODES dir [] s with
  | inl r => inl r
  | inr tmp =>
      let tmp := if bool_decide (tmp = []) then [SLASH] else tmp in
      if sz <=? Z.of_nat (length tmp) then inl (- ENAMETOOLONG) else inr tmp
  end.

Definition set_time (n : nat) (t : Z) (s : tmpfs) : tmpfs :=
  if negb (t =? 4294967295) then upd_node n (set_mtime t) s else s.
Definition t_utime (c : ctx) (path : list Z) (t : Z) (s : tmpfs) : Z * tmpfs :=
  match walk c path true s with (inl r, s) => (r, s) | (inr n, s) => (0, set_time n t s) end.
Definition t_futime (f : tfile) (t : Z) (s : tmpfs) : Z * tmpfs := (0, set_time (f_node f) t s).

Definition set_attr (n : nat) (mask m u g : Z) (s : tmpfs) : tmpfs :=
  upd_node n (fun x =>
    set_attrs (if has mask ATTR_MODE then Z.lor (Z.land (mode x) S_IFMT) (Z.land m 4095) else mode x)
      (if has mask ATTR_UID then u else uid x) (if has mask ATTR_GID then g else gid x) x) s.
Definition t_setattr (c : ctx) (path : list Z) (mask m u g : Z) (s : tmpfs) : Z * tmpfs :=
  match walk c path true s with (inl r, s) => (r, s) | (inr n, s) => (0, set_attr n mask m u g s) end.
Definition t_fsetattr (f : tfile) (mask m u g : Z) (s : tmpfs) : Z * tmpfs := (0, set_attr (f_node f) mask m u g s).

(** f_blocks, f_bfree, f_files and f_ffree of t_statfs; the rest is constant. *)
Definition t_statfs (s : tmpfs) : Z * Z * Z * Z :=
  let p := heap s in
  (pages_max p, if pages_used p <? pages_max p then pages_max p - pages_used p else 0,
   Z.of_nat TMP_NODES - 1, Z.of_nat (count_if (fun n => negb (n_used n)) (drop (ROOT + 1) (nodes s)))).
Definition tmpfs_usage (s : tmpfs) : Z * Z := (pages_used (heap s), pages_max (heap s)).
End code.

(** ** Paths as lists of names *)

Definition nonempty (nm : list Z) : list (list Z) := if bool_decide (nm = []) then [] else [nm].
Fixpoint comps (acc : list Z) (p : list Z) : list (list Z) :=
  match p with
  | [] => nonempty acc
  | c :: p' => if c =? SLASH then nonempty acc ++ comps [] p' else comps (acc ++ [c]) p'
  end.
(** The names of a path. *)
Definition components (p : list Z) : list (list Z) := comps [] p.

Lemma comps_skip p : comps [] (skip_slashes p) = comps [] p.
Proof. induction p as [|c p IH]; [done|]. cbn. destruct (c =? SLASH) eqn:E; [done|]. cbn. by rewrite E. Qed.
Lemma skip_head p : head (skip_slashes p) <> Some SLASH.
Proof. induction p as [|c p IH]; [done|]. cbn. destruct (Z.eqb_spec c SLASH); [done|]. cbn. congruence. Qed.
Lemma length_skip p : (length (skip_slashes p) <= length p)%nat.
Proof. induction p as [|c p IH]; [done|]. cbn. destruct (c =? SLASH); cbn; lia. Qed.

Lemma name_and_rest_spec p :
  let '(c, rest) := name_and_rest p in
  SLASH ∉ c /\ (length rest + length c = length p)%nat /\
  forall acc, comps acc p = nonempty (acc ++ c) ++ comps [] (skip_slashes rest).
Proof.
  induction p as [|x p IH]; cbn [name_and_rest].
  - split; [apply not_elem_of_nil|]. split; [done|]. intros acc. cbn. by rewrite !app_nil_r.
  - destruct (Z.eqb_spec x SLASH) as [->|Hne].
    + split; [apply not_elem_of_nil|]. split; [done|]. intros acc. rewrite comps_skip.
      cbn [comps]. rewrite Z.eqb_refl, app_nil_r. f_equal.
    + destruct (name_and_rest p) as [c rest]. destruct IH as (I1 & I2 & I3).
      split; [apply not_elem_of_cons; split; [congruence|done]|]. split; [cbn; lia|].
      intros acc. cbn [comps]. rewrite (proj2 (Z.eqb_neq x SLASH)) by done. rewrite I3.
      by rewrite <- app_assoc.
Qed.

Lemma comps_nonempty acc p : acc <> [] -> comps acc p <> [].
Proof.
  revert acc. induction p as [|z p IH]; intros acc Hne; cbn [comps].
  - unfold nonempty. by rewrite bool_decide_eq_false_2.
  - destruct (z =? SLASH); [|apply IH; by destruct acc]. unfold nonempty. by rewrite bool_decide_eq_false_2.
Qed.
Lemma comps_name acc p nm : SLASH ∉ acc -> nm ∈ comps acc p -> nm <> [] /\ SLASH ∉ nm.
Proof.
  revert acc. induction p as [|x p IH]; intros acc Hacc; cbn [comps].
  - unfold nonempty. case_bool_decide as E; [by intros ?%not_elem_of_nil|]. rewrite list_elem_of_singleton. by intros ->.
  - destruct (Z.eqb_spec x SLASH) as [->|Hne].
    + rewrite elem_of_app. intros [Hin|Hin]; [|by apply (IH []); [apply not_elem_of_nil|]].
      unfold nonempty in Hin. case_bool_decide; [by apply not_elem_of_nil in Hin|].
      apply list_elem_of_singleton in Hin as ->. done.
    + apply IH. rewrite not_elem_of_app, not_elem_of_cons. split; [done|]. split; [congruence|apply not_elem_of_nil].
Qed.

Section walking.
Context {W : Type} `{PageMemory W}.
#[local] Notation tmpfs := (@tmpfs W).
Context (s : tmpfs).

(** One name of a path, looked up in directory [cur]. *)
Definition step (follow : nat -> nat -> Z + nat) (through : bool) (cur : nat) (c : list Z) : Z + nat :=
  if bool_decide (c = dot) then inr cur
  else if bool_decide (c = dotdot) then inr (parent_of cur (dents s))
  else match dent_find cur c s with
       | None => inl (- ENOENT)
       | Some d =>
           let n := default 0%nat (d_node <$> dents s !! d) in
           if is_link s n && through then follow cur n else inr n
       end.

(** The walk, name by name. *)
Fixpoint walk_list (follow : nat -> nat -> Z + nat) (follow_last : bool) (cur : nat) (cs : list (list Z)) : walked :=
  match cs with
  | [] => mk_walked (inr cur) None
  | [c] => if negb (is_dir s cur) then mk_walked (inl (- ENOTDIR)) None
           else mk_walked (step follow follow_last cur c) (Some (cur, c))
  | c :: cs' => if negb (is_dir s cur) then mk_walked (inl (- ENOTDIR)) None
                else match step follow true cur c with
                     | inl e => mk_walked (inl e) None
                     | inr n => walk_list follow follow_last n cs'
                     end
  end.

(** The loop over the bytes is the walk over the names, and its fuel enough. *)
Lemma walk_loop_list fo fl fuel cur p :
  (length p < fuel)%nat -> head p <> Some SLASH ->
  walk_loop fo fl fuel cur p s = walk_list fo fl cur (components p).
Proof using Type.
  revert cur p. induction fuel as [|fuel IH]; intros cur p Hlt Hh; [lia|]. cbn [walk_loop]. unfold components.
  pose proof (name_and_rest_spec p) as S. destruct (name_and_rest p) as [c rest] eqn:E. destruct S as (S1 & S2 & S3).
  rewrite (S3 []). cbn [app]. unfold nonempty. case_bool_decide as Ec.
  - destruct p as [|x p]; [cbn in E; simplify_eq; done|]. exfalso. cbn in E, Hh.
    destruct (Z.eqb_spec x SLASH) as [->|]; [done|]. destruct (name_and_rest p). simplify_eq.
  - cbn [app]. pose proof (length_skip rest) as Hs. assert (0 < length c)%nat by (destruct c; [done|cbn; lia]).
    destruct (skip_slashes rest) as [|y q] eqn:Eq.
    + change (comps [] []) with (@nil (list Z)). cbn [walk_list].
      destruct (is_dir s cur); cbn [negb]; [|done]. unfold step. cbn [orb]. by destruct (if bool_decide (c = dot) then _ else _).
    + pose proof (skip_head rest) as Hsk. rewrite Eq in Hsk.
      assert (Hy : y <> SLASH) by (cbn in Hsk; congruence). rewrite <- Eq in *. assert (Hne : comps [] (skip_slashes rest) <> []).
      { rewrite Eq. cbn [comps]. rewrite (proj2 (Z.eqb_neq y SLASH)) by done. by apply comps_nonempty. }
      cbn [walk_list]. destruct (comps [] (skip_slashes rest)) as [|c2 cs2] eqn:Ecs; [done|].
      destruct (is_dir s cur); cbn [negb]; [|done].
      replace (if bool_decide (c = dot) then _ else _) with (step fo true cur c) by done.
      destruct (step fo true cur c) as [e|n]; [done|]. rewrite IH by (done || lia).
      unfold components. by rewrite Ecs.
Qed.

(** ** The names and the walk *)

Definition used (x : nat) : bool := n_used (node s x).
(** The table of names is a tree over the nodes in use, links and open files
    are counted, and the tables have their sizes. *)
Definition names_ok : Prop :=
  length (nodes s) = TMP_NODES /\ length (dents s) = TMP_DENTS /\ (length (files s) <= 256)%nat /\
  tree_ok used (is_dir s) (fun x => nlink (node s x)) (fun x => opens (node s x)) (dents s) (files s).

(** What a name in a directory stands for. *)
Definition entry (dir : nat) (nm : list Z) : option nat := j ← dent_find dir nm s; d_node <$> dents s !! j.

Lemma dent_find_Some dir nm j : dent_find dir nm s = Some j ->
  exists d, dents s !! j = Some d /\ d_dir d = dir /\ d_name d = nm.
Proof using Type.
  unfold dent_find. intros [(d & Hj & E) _]%find_idx_Some. exists d. split; [done|].
  unfold is_entry in E. apply andb_true_iff in E as [E1%Nat.eqb_eq E2%bool_decide_eq_true]. done.
Qed.
Lemma dent_find_None dir nm : dent_find dir nm s = None <->
  forall j d, dents s !! j = Some d -> d_dir d = dir -> d_name d <> nm.
Proof using Type.
  unfold dent_find. rewrite find_idx_None. unfold is_entry. split.
  - intros E j d Hj Ed En. specialize (E j d Hj). rewrite (proj2 (Nat.eqb_eq _ _) Ed) in E. cbn in E.
    by apply bool_decide_eq_false in E.
  - intros E j d Hj. destruct (Nat.eqb_spec (d_dir d) dir); [|done]. cbn. apply bool_decide_eq_false. by apply (E j d).
Qed.

Section sound.
Hypothesis Hok : names_ok.
#[local] Set Default Proof Using "Type*".

Lemma names_tree : tree_ok used (is_dir s) (fun x => nlink (node s x)) (fun x => opens (node s x)) (dents s) (files s).
Proof. apply Hok. Qed.
Lemma find_live dir nm j : used dir = true -> dent_find dir nm s = Some j ->
  exists d, dents s !! j = Some d /\ live d = true /\ d_dir d = dir /\ d_name d = nm /\ used (d_node d) = true.
Proof.
  intros Hu (d & Hj & Ed & En)%dent_find_Some. exists d.
  assert (Hl : live d = true) by (apply live_true; rewrite Ed; pose proof (ok_bound names_tree dir Hu); lia).
  split_and!; try done. by apply (ok_entry names_tree j d).
Qed.
Lemma entry_find dir nm j : used dir = true -> dent_find dir nm s = Some j ->
  exists d, dents s !! j = Some d /\ entry dir nm = Some (d_node d).
Proof. intros Hu Hf. destruct (find_live dir nm j Hu Hf) as (d & Hj & _). exists d. split; [done|]. unfold entry. by rewrite Hf; cbn; rewrite Hj. Qed.

Lemma parent_of_dir x : used x = true -> is_dir s x = true ->
  used (parent_of x (dents s)) = true /\ is_dir s (parent_of x (dents s)) = true.
Proof.
  intros Hu Hd. destruct (ok_root names_tree) as [R1 R2].
  pose proof (ok_up names_tree x Hu Hd) as Hup. inversion Hup as [E|i d Hi Hl _ E].
  - unfold parent_of. by rewrite Nat.eqb_refl.
  - rewrite <- E in Hd. rewrite (proj2 (parent_entry _ _ _ _ _ _ names_tree i d Hi Hl Hd)).
    destruct (ok_entry names_tree i d Hi Hl) as (A & B & _). done.
Qed.

Definition lands (r : Z + nat) : Prop := match r with inl _ => True | inr n => used n = true end.
Definition follows (fo : nat -> nat -> Z + nat) : Prop :=
  forall dir n, used dir = true -> used n = true -> lands (fo dir n).

Lemma step_lands fo th cur c : follows fo -> used cur = true -> is_dir s cur = true -> lands (step fo th cur c).
Proof.
  intros Hfo Hu Hd. unfold step. case_bool_decide; [done|]. case_bool_decide; [by apply parent_of_dir|].
  destruct (dent_find cur c s) as [j|] eqn:Hf; [|done]. destruct (find_live cur c j Hu Hf) as (d & Hj & _ & _ & _ & Hn).
  rewrite Hj. cbn. destruct (is_link s (d_node d) && th); [by apply Hfo|done].
Qed.

(** Where the walk ends, and what it says of the last name. *)
Lemma walk_list_lands fo fl cur cs : follows fo -> used cur = true ->
  lands (w_out (walk_list fo fl cur cs)) /\
  forall dir nm, w_last (walk_list fo fl cur cs) = Some (dir, nm) ->
    used dir = true /\ is_dir s dir = true /\ last cs = Some nm /\ w_out (walk_list fo fl cur cs) = step fo fl dir nm.
Proof.
  intros Hfo. revert cur. induction cs as [|c [|c2 cs] IH]; intros cur Hu; [done|..]; cbn [walk_list].
  - destruct (is_dir s cur) eqn:Hd; [|done]. cbn. split; [by apply step_lands|]. intros dir nm [= <- <-]. done.
  - destruct (is_dir s cur) eqn:Hd; [|done]. cbn [negb].
    pose proof (step_lands fo true cur c Hfo Hu Hd) as Hn. destruct (step fo true cur c) as [e|n]; [done|].
    apply (IH n Hn).
Qed.

Lemma walk_from_list hops dir path fl : exists fo cur,
  walk_from hops dir path fl s = walk_list fo fl cur (components path) /\
  (cur = dir \/ cur = ROOT) /\
  (follows fo <-> forall d n, used d = true -> used n = true ->
     match hops with O => True | S h => lands (follow (fun st t => w_out (walk_from h st t true s)) d n s) end).
Proof.
  destruct hops as [|h]; cbn [walk_from]; eexists _, _;
    (split; [rewrite walk_loop_list by (lia || apply skip_head); unfold components; by rewrite comps_skip|]);
    (split; [case_bool_decide; auto|]); unfold follows; cbn; done.
Qed.
Lemma follow_lands g d n : (forall st t, used st = true -> lands (g st t)) -> used d = true -> lands (follow g d n s).
Proof.
  intros Hg Hd. unfold follow. destruct (page_of _ _ _ _) as [[pa x] q].
  repeat case_match; try done; apply Hg; try done; by apply (ok_root names_tree).
Qed.
Lemma walk_from_lands hops dir path fl : used dir = true ->
  exists fo, follows fo /\ lands (w_out (walk_from hops dir path fl s)) /\
  forall d nm, w_last (walk_from hops dir path fl s) = Some (d, nm) ->
    used d = true /\ is_dir s d = true /\ last (components path) = Some nm /\
    w_out (walk_from hops dir path fl s) = step fo fl d nm.
Proof.
  revert dir path fl. induction hops as [|h IH]; intros dir path fl Hu.
  - destruct (walk_from_list 0 dir path fl) as (fo & cur & -> & Hcur & Hfo). exists fo. split; [by apply Hfo|].
    apply walk_list_lands; [by apply Hfo|]. destruct Hcur as [->| ->]; [done|by apply (ok_root names_tree)].
  - destruct (walk_from_list (S h) dir path fl) as (fo & cur & -> & Hcur & Hfo).
    assert (Hf : follows fo).
    { apply Hfo. intros d n Hd _. apply follow_lands; [|done]. intros st t Hst. by destruct (IH st t true Hst) as (? & _ & ? & _). }
    exists fo. split; [done|]. apply walk_list_lands; [done|]. destruct Hcur as [->| ->]; [done|by apply (ok_root names_tree)].
Qed.

(** A walk to a parent: the directory and the name, and what the name stands for. *)
Lemma walk_parent_spec pt c path :
  snd (walk_parent pt c path s) = s /\
  match fst (walk_parent pt c path s) with
  | inl r => True
  | inr (dir, nm, ex) =>
      used dir = true /\ is_dir s dir = true /\ last (components (here path)) = Some nm /\ nm <> [] /\ SLASH ∉ nm /\
      (forall n, ex = Some n -> used n = true) /\
      (nm <> dot -> nm <> dotdot -> ex = entry dir nm) /\ (ex = None -> plain nm)
  end.
Proof.
  pose proof names_tree as T. destruct (ok_root T) as [R1 R2].
  assert (Ei : init_once pt c s = s) by (unfold init_once; unfold used in R1; by rewrite R1).
  unfold walk_parent. rewrite Ei. split; [done|]. cbn [fst].
  destruct (walk_from_lands WALK_HOPS ROOT (here path) false R1) as (fo & Hfo & Hl & Hlast).
  destruct (walk_from WALK_HOPS ROOT (here path) false s) as [out lst] eqn:Ew. cbn [w_out w_last] in *.
  assert (Hnm : forall d nm, lst = Some (d, nm) -> nm <> [] /\ SLASH ∉ nm).
  { intros d nm E. destruct (Hlast d nm E) as (_ & _ & L & _). apply (comps_name [] (here path)); [apply not_elem_of_nil|].
    by apply last_Some_elem_of. }
  destruct out as [r|n], lst as [[d nm]|]; try done.
  - destruct ((r =? - ENOENT) && is_dir s d) eqn:Er; [|done]. apply andb_true_iff in Er as [->%Z.eqb_eq _].
    destruct (Hlast d nm eq_refl) as (A & B & C & E). destruct (Hnm d nm eq_refl) as [N1 N2].
    assert (Hdots : nm <> dot /\ nm <> dotdot /\ entry d nm = None).
    { unfold step in E. case_bool_decide; [done|]. case_bool_decide; [done|]. split_and!; try done. unfold entry.
      destruct (dent_find d nm s) as [j|]; [|done]. rewrite andb_false_r in E. done. }
    destruct Hdots as (D1 & D2 & D3). split_and!; try done.
  - destruct (Hlast d nm eq_refl) as (A & B & C & E). destruct (Hnm d nm eq_refl) as [N1 N2].
    split_and!; try done; [by intros m [= <-]|]. intros D1 D2. unfold step in E.
    rewrite bool_decide_eq_false_2, bool_decide_eq_false_2 in E by done.
    destruct (dent_find d nm s) as [j|] eqn:Hf; [|done]. rewrite andb_false_r in E.
    destruct (entry_find d nm j A Hf) as (e & He & ->). rewrite He in E. cbn in E. congruence.
Qed.
End sound.
End walking.

(** ** Changes of one node *)

Section changes.
Context {W : Type} `{PageMemory W}.
#[local] Notation tmpfs := (@tmpfs W).

Lemma node_upd i f (s : tmpfs) x : (i < length (nodes s))%nat ->
  node (upd_node i f s) x = if (x =? i)%nat then f (node s x) else node s x.
Proof using Type.
  intros Hi. unfold node, upd_node. cbn [nodes set_nodes]. destruct (Nat.eqb_spec x i) as [->|Hne].
  - destruct (lookup_lt_is_Some_2 _ _ Hi) as [n Hn]. by rewrite list_lookup_alter_eq, Hn.
  - by rewrite list_lookup_alter_ne.
Qed.
Lemma node_lookup (s : tmpfs) i : (i < length (nodes s))%nat -> nodes s !! i = Some (node s i).
Proof using Type. intros Hi. unfold node. by destruct (lookup_lt_is_Some_2 _ _ Hi) as [n ->]. Qed.

Lemma heap_dents base lost (s : tmpfs) ds : heap_ok base lost s -> heap_ok base lost (set_dents ds s).
Proof using Type. by intros [A B C D]. Qed.
Lemma heap_next_ino base lost (s : tmpfs) i : heap_ok base lost s -> heap_ok base lost (set_next_ino i s).
Proof using Type. by intros [A B C D]. Qed.
Lemma heap_files base lost (s : tmpfs) fs : heap_ok base lost s ->
  (forall k f, fs !! k = Some (Some f) -> file_ok s f) -> heap_ok base lost (set_files fs s).
Proof using Type. by intros [A B C D] Hf. Qed.

(** A node whose pages stay what they are. *)
Lemma heap_upd base lost (s : tmpfs) i f :
  heap_ok base lost s -> (i < length (nodes s))%nat ->
  node_pages (mem (heap s)) (f (node s i)) = node_pages (mem (heap s)) (node s i) ->
  node_ok (mem (heap s)) (f (node s i)) ->
  (n_used (f (node s i)) = true \/ forall k g, files s !! k = Some (Some g) -> f_node g <> i) ->
  heap_ok base lost (upd_node i f s).
Proof using Type.
  intros [H1 H2 H3 H4] Hi Ep Hn Hf. pose proof (node_lookup s i Hi) as Hl.
  assert (En : nodes (upd_node i f s) = <[i := f (node s i)]> (nodes s)) by (by apply alter_insert).
  assert (Ea : all_pages (upd_node i f s) = all_pages s).
  { unfold all_pages. cbn [heap upd_node set_nodes]. rewrite En, list_fmap_insert, Ep.
    rewrite list_insert_id; [done|]. rewrite list_lookup_fmap, Hl. reflexivity. }
  constructor.
  - by rewrite Ea.
  - by rewrite Ea.
  - intros j m. rewrite En. destruct (decide (j = i)) as [->|Hne].
    + rewrite list_lookup_insert_eq by done. by intros [= <-].
    + rewrite list_lookup_insert_ne by done. apply H3.
  - intros k g Hk. destruct (H4 k g Hk) as [B1 (m & B2 & B3)]. split; [done|]. rewrite En.
    destruct (decide (f_node g = i)) as [Eg|Hne]; [|exists m; by rewrite list_lookup_insert_ne].
    exists (f (node s i)). rewrite Eg. rewrite list_lookup_insert_eq by done. split; [done|].
    destruct Hf as [Hf|Hf]; [done|]. exfalso. by apply (Hf k g Hk).
Qed.

(** Changes of what is not the data: times, attributes, counts. *)
Definition touches (f : tnode -> tnode) : Prop :=
  forall n, n_used (f n) = n_used n /\ top (f n) = top n /\ size (f n) = size n.
Lemma heap_touch base lost (s : tmpfs) i f :
  touches f -> heap_ok base lost s -> heap_ok base lost (upd_node i f s).
Proof using Type.
  intros Ht Hh. destruct (decide (i < length (nodes s))%nat) as [Hi|Hi].
  - destruct (Ht (node s i)) as (E1 & E2 & E3). pose proof (ho_nodes _ _ _ Hh i _ (node_lookup s i Hi)) as Hn.
    assert (Hp : node_pages (mem (heap s)) (f (node s i)) = node_pages (mem (heap s)) (node s i))
      by (unfold node_pages; by rewrite E1, E2).
    assert (Hk : node_ok (mem (heap s)) (f (node s i))) by (unfold node_ok; by rewrite E1, E2, E3).
    destruct (n_used (node s i)) eqn:Eu.
    + apply heap_upd; auto.
    + apply heap_upd; auto. right. intros k g Hk' E. destruct (ho_files _ _ _ Hh k g Hk') as [_ (m & B2 & B3)].
      rewrite E, (node_lookup s i Hi) in B2. congruence.
  - assert (E : upd_node i f s = s); [|by rewrite E]. unfold upd_node. rewrite alter_ge by lia. by destruct s.
Qed.

(** A node nobody has any more gives back its pages. *)
Lemma heap_release base lost (s : tmpfs) i :
  heap_ok base lost s -> (i < length (nodes s))%nat -> n_used (node s i) = true ->
  (forall k g, files s !! k = Some (Some g) -> f_node g <> i) ->
  heap_ok base lost (upd_node i (set_nused false) (cut_node i 0 s)) /\
  dents (upd_node i (set_nused false) (cut_node i 0 s)) = dents s /\
  files (upd_node i (set_nused false) (cut_node i 0 s)) = files s /\
  length (nodes (upd_node i (set_nused false) (cut_node i 0 s))) = length (nodes s) /\
  forall x, node (upd_node i (set_nused false) (cut_node i 0 s)) x =
    if (x =? i)%nat then set_nused false (set_top 0 (node s x)) else node s x.
Proof using Type.
  intros Hh Hi Hu Hno. pose proof (node_lookup s i Hi) as Hl. destruct (ho_nodes _ _ _ Hh i _ Hl Hu) as [Hs Hz].
  unfold cut_node. pose proof (cut_spec base (others (mem (heap s)) (nodes s) i ++ lost) (node s i) 0 (heap s)) as C.
  destruct (cut (node s i) 0 (heap s)) as [n' p'].
  pose proof (node_acct base lost s i _ Hh Hl Hu) as Ha.
  destruct (C Ha ltac:(lia)) as (C1 & C2 & C3 & C4). specialize (C3 eq_refl). rewrite C3 in C1.
  set (s1 := set_heap p' (upd_node i (fun _ => n') s)).
  assert (E1 : s1 = set_heap p' (set_nodes (<[i := n']> (nodes s)) s)) by (unfold s1, upd_node; by rewrite (alter_insert _ _ _ _ Hl)).
  assert (Hu' : n_used n' = true) by (rewrite C1; done).
  assert (Hn' : node_ok (mem p') n') by (intros _; split; [rewrite C1; done|]; intros z Hz'; rewrite C4 by (rewrite C1 in Hz'; cbn in Hz'; lia); by rewrite (proj2 (Z.leb_le 0 z)) by (rewrite C1 in Hz'; cbn in Hz'; lia)).
  destruct (heap_update base lost s i (node s i) n' p' Hh Hl Hu Hu' C2 Hn') as [Hh1 _]. rewrite <- E1 in Hh1.
  assert (Hlen : length (nodes s1) = length (nodes s)) by (rewrite E1; cbn; apply length_insert).
  assert (Hnode : forall x, node s1 x = if (x =? i)%nat then n' else node s x).
  { intros x. transitivity (node (upd_node i (fun _ => n') s) x); [done|]. by apply node_upd. }
  split; [|split; [done|split; [done|split]]].
  - apply heap_upd; [done|lia| | |right; exact Hno].
    + rewrite Hnode, Nat.eqb_refl. unfold node_pages. cbn [n_used set_nused]. rewrite Hu', C3. by rewrite tree_0.
    + rewrite Hnode, Nat.eqb_refl. done.
  - cbn. rewrite length_alter. done.
  - intros x. rewrite node_upd by lia. rewrite Hnode. destruct (Nat.eqb_spec x i) as [->|]; [by rewrite C1|done].
Qed.

Lemma node_dents (s : tmpfs) ds x : node (set_dents ds s) x = node s x.
Proof using Type. done. Qed.
Lemma node_ino (s : tmpfs) i x : node (set_next_ino i s) x = node s x.
Proof using Type. done. Qed.
Lemma node_files (s : tmpfs) fs x : node (set_files fs s) x = node s x.
Proof using Type. done. Qed.
Lemma length_upd i f (s : tmpfs) : length (nodes (upd_node i f s)) = length (nodes s).
Proof using Type. cbn. apply length_alter. Qed.

(** An entry found is the entry there is. *)
Lemma entry_iff (s : tmpfs) x nm n : names_ok s -> (0 < x)%nat ->
  (entry s x nm = Some n <-> exists j d, dents s !! j = Some d /\ d_dir d = x /\ d_name d = nm /\ d_node d = n).
Proof using All.
  intros Hok Hx. unfold entry. destruct (dent_find x nm s) as [j|] eqn:Hf; cbn.
  - apply dent_find_Some in Hf as (d & Hj & Ed & En). rewrite Hj. cbn. split.
    + intros [= <-]. by exists j, d.
    + intros (k & e & Hk & Ee & Em & <-). do 2 f_equal.
      assert (j = k) as ->; [|congruence]. apply (ok_once (names_tree s Hok) j k d e); try congruence.
      apply live_true. lia.
  - rewrite dent_find_None in Hf. split; [done|]. intros (k & e & Hk & Ee & Em & _). by destruct (Hf k e Hk Ee).
Qed.
Lemma entry_None (s : tmpfs) x nm : entry s x nm = None ->
  forall j d, dents s !! j = Some d -> d_dir d = x -> d_name d <> nm.
Proof using All.
  unfold entry. destruct (dent_find x nm s) as [j|] eqn:Hf; cbn; [|by intros _; apply dent_find_None].
  apply dent_find_Some in Hf as (d & Hj & _). by rewrite Hj.
Qed.

(** What the names are after a call, as a map from a directory and a name. *)
Definition names_put (s s' : tmpfs) (dir : nat) (nm : list Z) (n : option nat) : Prop :=
  forall x nm', (0 < x)%nat -> entry s' x nm' = if bool_decide (x = dir /\ nm' = nm) then n else entry s x nm'.

Definition fs_ok (base : Z -> Z) (lost : list Z) (s : tmpfs) : Prop := names_ok s /\ heap_ok base lost s.

Lemma entry_option_eq (o o' : option nat) : (forall n, o = Some n <-> o' = Some n) -> o = o'.
Proof using All.
  intros E. destruct o as [n|]; [symmetry; by apply E|]. destruct o' as [n|]; [by apply E|done].
Qed.
Lemma names_add (s s' : tmpfs) i d0 dir n nm :
  names_ok s -> names_ok s' -> (0 < dir)%nat -> dents s !! i = Some d0 -> d_dir d0 = 0%nat -> entry s dir nm = None ->
  dents s' = <[i := mk_tdent dir n nm]> (dents s) -> names_put s s' dir nm (Some n).
Proof using All.
  intros Hok Hok' Hdir Hi Hd0 Hno Ed x nm' Hx. apply entry_option_eq. intros m. rewrite entry_iff by done. rewrite Ed.
  assert (Hlt : (i < length (dents s))%nat) by (by eapply lookup_lt_Some). case_bool_decide as B.
  - destruct B as [-> ->]. split.
    + intros (j & d & Hj & E1 & E2 & E3). destruct (decide (j = i)) as [->|Hne].
      * rewrite list_lookup_insert_eq in Hj by done. injection Hj as <-. cbn in *. congruence.
      * rewrite list_lookup_insert_ne in Hj by done. exfalso. by apply (entry_None s dir nm Hno j d).
    + intros [= <-]. exists i, (mk_tdent dir n nm). by rewrite list_lookup_insert_eq.
  - rewrite entry_iff by done. split; intros (j & d & Hj & E1 & E2 & E3); exists j, d.
    + destruct (decide (j = i)) as [->|Hne]; [|by rewrite list_lookup_insert_ne in Hj].
      rewrite list_lookup_insert_eq in Hj by done. injection Hj as <-. cbn in *. exfalso. by apply B.
    + rewrite list_lookup_insert_ne; [done|]. intros ->. simplify_eq/=. lia.
Qed.

(** ** Making a node with a name *)

Lemma node_alloc_spec c m (s : tmpfs) : length (nodes s) = TMP_NODES ->
  match node_alloc c m s with
  | (inl r, s') => r = - ENOSPC /\ s' = s
  | (inr n, s') => (1 < n < TMP_NODES)%nat /\ used s n = false /\
      s' = set_next_ino (u32 (next_ino s + 1)) (upd_node n (fun _ =>
             mk_tnode true (u32 (TMP_INO_BASE + next_ino s)) m (c_uid c) (c_gid c) 0 0 (now c) 0 0) s)
  end.
Proof using All.
  intros Hl. unfold node_alloc. destruct (find_idx _ _) as [k|] eqn:Hf; [|done].
  apply find_idx_Some in Hf as [(n & Hk & Hn) _]. rewrite lookup_drop in Hk.
  pose proof (lookup_lt_Some _ _ _ Hk) as Hlt. unfold TMP_NODES, ROOT in *. split; [lia|]. split; [|done].
  unfold used, node. rewrite Hk. by apply negb_true_iff in Hn.
Qed.

Lemma dent_add_spec c dir nm n (s : tmpfs) :
  let '(r, s') := dent_add c dir nm n s in
  (r = - ENAMETOOLONG \/ r = - ENOSPC) /\ s' = s \/
  0 <= r /\ Z.of_nat (length nm) <= NAME_MAX /\ exists i d0, dents s !! i = Some d0 /\ d_dir d0 = 0%nat /\
    s' = upd_node dir (set_mtime (now c)) (set_dents (<[i := mk_tdent dir n nm]> (dents s)) s).
Proof using All.
  unfold dent_add. destruct (Z.ltb_spec NAME_MAX (Z.of_nat (length nm))); [by left; split; [left|]|].
  destruct (find_idx _ _) as [i|] eqn:Hf; [|by left; split; [right|]].
  right. split; [lia|]. split; [done|]. apply find_idx_Some in Hf as [(d0 & Hi & Hd%Nat.eqb_eq) _]. by exists i, d0.
Qed.

(** A file nobody has open can go from the table without its node being looked at. *)
Lemma unused_not_open base lost (s : tmpfs) n : heap_ok base lost s -> used s n = false ->
  forall k g, files s !! k = Some (Some g) -> f_node g <> n.
Proof using All.
  intros Hh Hu k g Hk E. destruct (ho_files _ _ _ Hh k g Hk) as [_ (m & Hm & Hmu)]. rewrite E in Hm.
  unfold used, node in Hu. rewrite Hm in Hu. cbn in Hu. congruence.
Qed.
Lemma heap_fresh base lost (s : tmpfs) n x : heap_ok base lost s -> (n < length (nodes s))%nat -> used s n = false ->
  top x = 0 -> size x = 0 -> heap_ok base lost (upd_node n (fun _ => x) s).
Proof using All.
  intros Hh Hn Hu Ht Hs. apply heap_upd; [done|done| | |right; by eapply unused_not_open].
  - unfold node_pages. unfold used in Hu. rewrite Hu, Ht, tree_0. by destruct (n_used x).
  - intros _. rewrite Ht, Hs. done.
Qed.

(** [s1] is [s] but for node [n], which it has in use and nobody has open. *)
Record beside (n : nat) (s s1 : tmpfs) : Prop := {
  bs_len : length (nodes s1) = length (nodes s);
  bs_dents : dents s1 = dents s;
  bs_files : files s1 = files s;
  bs_node : forall x, x <> n -> node s1 x = node s x;
  bs_new : n_used (node s1 n) = true /\ opens (node s1 n) = 0 }.

Lemma count_if_le {A} (P : A -> bool) l : (count_if P l <= length l)%nat.
Proof using All. induction l as [|x l IH]; [done|]. rewrite count_if_cons. cbn. destruct (P x); lia. Qed.
Lemma nlink_small (s : tmpfs) x : names_ok s -> used s x = true -> 0 <= nlink (node s x) <= 2000.
Proof using All.
  intros (_ & Hd & _ & T) Hx. pose proof (ok_links T x Hx) as E. cbn in E. rewrite E.
  pose proof (count_if_le (sub_of (is_dir s) x) (dents s)). pose proof (count_if_le (names_node x) (dents s)).
  unfold TMP_DENTS in Hd. destruct (is_dir s x); lia.
Qed.
Lemma opens_small (s : tmpfs) x : names_ok s -> used s x = true -> 0 <= opens (node s x) <= 256.
Proof using All.
  intros (_ & _ & Hf & T) Hx. pose proof (ok_opens T x Hx) as E. cbn in E. rewrite E.
  pose proof (count_if_le (open_on x) (files s)). lia.
Qed.

(** The node given up again. *)
Lemma undo_names (s s' : tmpfs) n : names_ok s -> used s n = false ->
  length (nodes s') = length (nodes s) -> dents s' = dents s -> files s' = files s ->
  (forall x, x <> n -> node s' x = node s x) -> used s' n = false -> names_ok s'.
Proof using H.
  intros (L1 & L2 & L3 & T) Hu E1 E2 E3 E4 E5. split_and!; [congruence|congruence|congruence|]. rewrite E2, E3.
  apply (tree_ok_ext _ _ _ _ _ _ _ _ _ _ T).
  - intros x. destruct (decide (x = n)) as [->|Hne]; [congruence|]. unfold used. by rewrite E4.
  - intros x Hx. assert (x <> n) by congruence. unfold is_dir. by rewrite E4.
Qed.
Lemma create_undo base lost (s s1 : tmpfs) n : fs_ok base lost s -> beside n s s1 -> used s n = false ->
  heap_ok base lost s1 -> node_pages (mem (heap s1)) (node s1 n) = [] -> (n < TMP_NODES)%nat ->
  fs_ok base lost (upd_node n (set_nused false) s1).
Proof using H.
  intros [Hok Hh] [B1 B2 B3 B4 B5] Hu Hh1 Hp Hn. pose proof Hok as (L1 & _). split.
  - apply (undo_names s _ n); try done; [by rewrite length_upd| |].
    + intros x Hx. rewrite node_upd by lia. by rewrite (proj2 (Nat.eqb_neq x n)), B4 by done.
    + unfold used. rewrite node_upd by lia. by rewrite Nat.eqb_refl.
  - apply heap_upd; [done|lia| |done|right; rewrite B3; by eapply unused_not_open]. by rewrite Hp.
Qed.

Lemma create_names base lost (s s1 : tmpfs) n b dir nm i d0 t :
  names_ok s -> beside n s s1 -> used s n = false -> (1 < n < TMP_NODES)%nat ->
  used s dir = true -> is_dir s dir = true -> name_ok nm -> entry s dir nm = None ->
  dents s !! i = Some d0 -> d_dir d0 = 0%nat -> is_dir s1 n = b ->
  let s2 := upd_node dir (set_mtime t) (set_dents (<[i := mk_tdent dir n nm]> (dents s1)) s1) in
  let s3 := if b then upd_node dir inc_nlink (upd_node n (set_nlink 2) s2) else upd_node n (set_nlink 1) s2 in
  names_ok s3 /\ names_put s s3 dir nm (Some n) /\ (heap_ok base lost s1 -> heap_ok base lost s3) /\
  (forall x, used s3 x = true -> x <> n -> used s x = true).
Proof using All.
  intros Hok [B1 B2 B3 B4 [B5 B6]] Hu Hn Hdu Hdd Hnm Hno Hi Hd0 Hb s2 s3.
  pose proof Hok as (L1 & L2 & L3 & T). rewrite L1 in B1.
  pose proof (ok_bound T dir Hdu) as Hdb. assert (Hdn : dir <> n) by congruence.
  assert (Hdents : dents s3 = <[i := mk_tdent dir n nm]> (dents s)) by (unfold s3, s2; rewrite <- B2; by destruct b).
  assert (Hfiles : files s3 = files s) by (rewrite <- B3; unfold s3; by destruct b).
  assert (Hlen : length (nodes s3) = TMP_NODES) by (unfold s3, s2; destruct b; rewrite !length_upd; done).
  assert (Hnode : forall x, node s3 x =
     if (x =? n)%nat then set_nlink (if b then 2 else 1) (node s1 n)
     else if (x =? dir)%nat then (if b then inc_nlink else id) (set_mtime t (node s x)) else node s x).
  { intros x. unfold s3, s2. destruct b; rewrite !node_upd by (rewrite ?length_upd; cbn; lia); rewrite node_dents;
      destruct (Nat.eqb_spec x n) as [->|Hne]; rewrite ?(proj2 (Nat.eqb_neq n dir)) by congruence; try done;
      destruct (Nat.eqb_spec x dir) as [->|]; by rewrite ?B4 by done. }
  assert (Hused : forall x, used s3 x = if (x =? n)%nat then true else used s x).
  { intros x. unfold used. rewrite Hnode. destruct (x =? n)%nat; [done|]. destruct (x =? dir)%nat; [|done]. by destruct b. }
  assert (T3 : tree_ok (used s3) (is_dir s3) (fun x => nlink (node s3 x)) (fun x => opens (node s3 x)) (dents s3) (files s3)).
  { rewrite Hdents, Hfiles.
    apply (tree_create (used s) (is_dir s) (fun x => nlink (node s x)) (fun x => opens (node s x)) _ _ i d0 dir n nm b T Hi); auto.
    - by apply live_false.
    - intros j e Hj _ Ee. by apply (entry_None s dir nm Hno j e).
    - lia.
    - split_and!.
      + unfold is_dir. rewrite Hnode, Nat.eqb_refl. done.
      + intros ->. by rewrite Hnode, Nat.eqb_refl.
      + intros ->. by rewrite Hnode, Nat.eqb_refl.
      + by rewrite Hnode, Nat.eqb_refl.
    - intros x Hx. assert (x <> n) by congruence. unfold is_dir. rewrite Hnode, (proj2 (Nat.eqb_neq x n)) by done.
      destruct (Nat.eqb_spec x dir) as [->|]; [|by rewrite andb_false_r]. rewrite andb_true_r.
      destruct b; split_and!; try done. cbn. apply u32_small. pose proof (nlink_small s dir Hok Hdu). lia. }
  assert (Hok3 : names_ok s3) by (split_and!; [done|rewrite Hdents, length_insert; lia|rewrite Hfiles; lia|done]).
  split; [done|]. split; [by eapply names_add; eauto; lia|]. split.
  - intros Hh. assert (Hh2 : heap_ok base lost s2) by (apply heap_touch; [done|]; by apply heap_dents).
    unfold s3. destruct b; [apply heap_touch; [done|]|]; by apply heap_touch.
  - intros x Hx Hne. rewrite Hused in Hx. by rewrite (proj2 (Nat.eqb_neq x n)) in Hx.
Qed.

Lemma fresh_beside c m n (s : tmpfs) : (n < length (nodes s))%nat ->
  beside n s (set_next_ino (u32 (next_ino s + 1)) (upd_node n (fun _ =>
    mk_tnode true (u32 (TMP_INO_BASE + next_ino s)) m (c_uid c) (c_gid c) 0 0 (now c) 0 0) s)).
Proof using All.
  intros Hn. constructor; try done.
  - by rewrite <- (length_upd n (fun _ => mk_tnode true (u32 (TMP_INO_BASE + next_ino s)) m (c_uid c) (c_gid c) 0 0 (now c) 0 0) s).
  - intros x Hx. rewrite node_ino, node_upd by done. by rewrite (proj2 (Nat.eqb_neq x n)).
  - rewrite node_ino, node_upd, Nat.eqb_refl by done. done.
Qed.

(** What making a node with a name comes to, for the calls that make one. *)
Definition made_name (base : Z -> Z) (lost : list Z) (s : tmpfs) (dir : nat) (nm : list Z) (n : nat) (b : bool) (s3 : tmpfs) : Prop :=
  fs_ok base lost s3 /\ is_dir s3 n = b /\ names_put s s3 dir nm (Some n) /\ used s n = false /\ used s3 n = true /\
  files s3 = files s /\ heap s3 = heap s.

Lemma make_spec base lost (s : tmpfs) c m dir nm :
  fs_ok base lost s -> used s dir = true -> is_dir s dir = true -> plain nm -> entry s dir nm = None ->
  match node_alloc c m s with
  | (inl r, s1) => r = - ENOSPC /\ s1 = s
  | (inr n, s1) =>
      let '(r, s2) := dent_add c dir nm n s1 in
      (r = - ENAMETOOLONG \/ r = - ENOSPC) /\ fs_ok base lost (upd_node n (set_nused false) s2) /\ dents s2 = dents s \/
      0 <= r /\
      made_name base lost s dir nm n (S_ISDIR m)
        (if S_ISDIR m then upd_node dir inc_nlink (upd_node n (set_nlink 2) s2) else upd_node n (set_nlink 1) s2)
  end.
Proof using All.
  intros Hok Hdu Hdd Hnm Hno. pose proof Hok as [Hn Hh]. pose proof Hn as (L1 & _).
  pose proof (node_alloc_spec c m s L1) as A. destruct (node_alloc c m s) as [[r|n] s1]; [done|].
  destruct A as (A1 & A2 & A3). pose proof (fresh_beside c m n s ltac:(lia)) as Hb. rewrite <- A3 in Hb.
  assert (Hh1 : heap_ok base lost s1) by (rewrite A3; apply heap_next_ino, heap_fresh; auto; lia).
  assert (En : node s1 n = mk_tnode true (u32 (TMP_INO_BASE + next_ino s)) m (c_uid c) (c_gid c) 0 0 (now c) 0 0)
    by (rewrite A3, node_ino, node_upd, Nat.eqb_refl by lia; done).
  pose proof (dent_add_spec c dir nm n s1) as B. destruct (dent_add c dir nm n s1) as [r s2].
  destruct B as [[B1 ->]|(B1 & Bl & i & d0 & B2 & B3 & ->)]; [left|right]; (split; [done|]).
  - split; [|apply Hb]. apply (create_undo base lost s s1); auto; [|lia]. rewrite En. unfold node_pages. cbn [n_used top]. apply tree_0.
  - rewrite (bs_dents _ _ _ Hb) in B2.
    destruct (create_names base lost s s1 n (S_ISDIR m) dir nm i d0 (now c) Hn Hb A2 A1 Hdu Hdd (conj Hnm Bl) Hno B2 B3) as (C1 & C2 & C3 & C4);
      [unfold is_dir; by rewrite En|]. set (s3 := if S_ISDIR m then _ else _) in *.
    assert (E3 : node s3 n = set_nlink (if S_ISDIR m then 2 else 1) (node s1 n)).
    { pose proof (ok_bound (names_tree s Hn) dir Hdu) as Hdb. assert (dir <> n) by congruence. unfold s3.
      destruct (S_ISDIR m); rewrite !node_upd by (rewrite ?length_upd; cbn; rewrite (bs_len _ _ _ Hb); lia);
        rewrite ?(proj2 (Nat.eqb_neq n dir)) by congruence; by rewrite Nat.eqb_refl. }
    split; [split; [done|by apply C3]|]. split; [unfold is_dir; rewrite E3, En; done|]. split; [done|]. split; [done|].
    split; [unfold used; by rewrite E3, En|].
    + rewrite <- (bs_files _ _ _ Hb). assert (Eh : heap s1 = heap s) by (by rewrite A3).
      rewrite <- Eh. unfold s3. by destruct (S_ISDIR m).
Qed.

Context (pmm_total : W -> Z).
#[local] Notation target c path s := (fst (walk_parent pmm_total c path s)).
#[local] Notation same_names s s' := (forall x nm, (0 < x)%nat -> entry s' x nm = entry s x nm).

Lemma same_dents (s s' : tmpfs) : dents s' = dents s -> same_names s s'.
Proof using H. intros E x nm _. unfold entry, dent_find. by rewrite E. Qed.

(** The calls that make a name: what they return and what they do to the names. *)
Definition create_effect (s : tmpfs) (tg : Z + nat * list Z * option nat) (r : Z) (s' : tmpfs) : Prop :=
  match tg with
  | inl e => r = e /\ s' = s
  | inr (dir, nm, Some _) => r = - EEXIST /\ s' = s
  | inr (dir, nm, None) =>
      r = 0 /\ (exists n, used s n = false /\ used s' n = true /\ names_put s s' dir nm (Some n)) \/
      (r = - ENOSPC \/ r = - ENAMETOOLONG) /\ same_names s s'
  end.

Lemma target_facts base lost (s : tmpfs) c path : fs_ok base lost s ->
  walk_parent pmm_total c path s = (target c path s, s) /\
  forall dir nm ex, target c path s = inr (dir, nm, ex) ->
    used s dir = true /\ is_dir s dir = true /\ last (components (here path)) = Some nm /\
    (forall n, ex = Some n -> used s n = true) /\
    (nm <> dot -> nm <> dotdot -> ex = entry s dir nm) /\ (ex = None -> plain nm /\ entry s dir nm = None).
Proof using All.
  intros [Hn _]. destruct (walk_parent_spec s Hn pmm_total c path) as [E S].
  split; [rewrite <- E at 3; by destruct (walk_parent pmm_total c path s)|]. intros dir nm ex Et. rewrite Et in S.
  destruct S as (S1 & S2 & S3 & _ & _ & S6 & S7 & S8). split_and!; try done.
  intros ->. specialize (S8 eq_refl). split; [done|]. symmetry. by apply S7; apply S8.
Qed.

Lemma mkdir_ok base lost (s : tmpfs) c path : fs_ok base lost s ->
  let '(r, s') := t_mkdir pmm_total c path s in fs_ok base lost s' /\ create_effect s (target c path s) r s'.
Proof using All.
  intros Hok. destruct (target_facts base lost s c path Hok) as [E F]. unfold t_mkdir. rewrite E.
  destruct (target c path s) as [e|[[dir nm] [n0|]]]; [done|done|].
  destruct (F dir nm None eq_refl) as (F1 & F2 & _ & _ & _ & F6). destruct (F6 eq_refl) as [F7 F8].
  pose proof (make_spec base lost s c (Z.lor S_IFDIR 493) dir nm Hok F1 F2 F7 F8) as M.
  destruct (node_alloc c (Z.lor S_IFDIR 493) s) as [[r|n] s1]; [destruct M as [-> ->]; split; [done|right]; auto|].
  destruct (dent_add c dir nm n s1) as [r s2].
  destruct M as [([-> | ->] & M2 & M3)|(M1 & (N1 & _ & N2 & N3 & N4 & _))].
  - split; [done|right]. split; [by right|]. by apply same_dents.
  - split; [done|right]. split; [by left|]. by apply same_dents.
  - rewrite (proj2 (Z.ltb_ge r 0)) by lia. split; [done|left]. split; [done|]. by exists n.
Qed.

(** The names do not depend on anything else a node has. *)
Lemma names_keep (s s' : tmpfs) :
  names_ok s -> length (nodes s') = length (nodes s) -> dents s' = dents s -> files s' = files s ->
  (forall x, n_used (node s' x) = n_used (node s x)) ->
  (forall x, used s x = true -> is_dir s' x = is_dir s x /\ nlink (node s' x) = nlink (node s x) /\
     opens (node s' x) = opens (node s x)) ->
  names_ok s'.
Proof using H.
  intros (L1 & L2 & L3 & T) E1 E2 E3 Eu E. split_and!; [congruence|congruence|congruence|].
  rewrite E2, E3. by apply (tree_ok_ext _ _ _ _ _ _ _ _ _ _ T).
Qed.

Lemma fifo_mode m : S_ISDIR (Z.lor S_IFIFO (Z.land m 4095)) = false.
Proof using H.
  unfold S_ISDIR. rewrite Z.land_lor_distr_l, <- Z.land_assoc. change (Z.land 4095 S_IFMT) with 0.
  by rewrite Z.land_0_r, Z.lor_0_r.
Qed.

Lemma mknod_ok base lost (s : tmpfs) c path m : fs_ok base lost s ->
  let '(r, s') := t_mknod pmm_total c path m s in
  fs_ok base lost s' /\
  if S_ISFIFO m then create_effect s (target c path s) r s' else r = - EPERM /\ s' = s.
Proof using All.
  intros Hok. unfold t_mknod. destruct (S_ISFIFO m); [|done]. cbn [negb].
  destruct (target_facts base lost s c path Hok) as [E F]. rewrite E.
  destruct (target c path s) as [e|[[dir nm] [n0|]]]; [done|done|].
  destruct (F dir nm None eq_refl) as (F1 & F2 & _ & _ & _ & F6). destruct (F6 eq_refl) as [F7 F8].
  pose proof (make_spec base lost s c (Z.lor S_IFIFO (Z.land m 4095)) dir nm Hok F1 F2 F7 F8) as M. rewrite fifo_mode in M.
  destruct (node_alloc c (Z.lor S_IFIFO (Z.land m 4095)) s) as [[r|n] s1]; [destruct M as [-> ->]; split; [done|right]; auto|].
  destruct (dent_add c dir nm n s1) as [r s2].
  destruct M as [([-> | ->] & M2 & M3)|(M1 & (N1 & _ & N2 & N3 & N4 & _))].
  - split; [done|right]. split; [by right|]. by apply same_dents.
  - split; [done|right]. split; [by left|]. by apply same_dents.
  - rewrite (proj2 (Z.ltb_ge r 0)) by lia. split; [done|left]. split; [done|]. by exists n.
Qed.

(** Opening a node that is there. *)
Lemma opened_ok base lost (s : tmpfs) k n flags :
  fs_ok base lost s -> used s n = true -> is_dir s n = false -> files s !! k = Some None ->
  fs_ok base lost (opened k n flags s) /\ dents (opened k n flags s) = dents s.
Proof using H.
  intros [Hn Hh] Hu Hd Hk. pose proof Hn as (L1 & L2 & L3 & T). split; [|done].
  pose proof (ok_bound T n Hu) as Hb. pose proof (opens_small s n Hn Hu) as Ho.
  set (s1 := upd_node n (fun x => set_opens (u32 (opens x + 1)) x) s).
  assert (Hnode : forall x, node s1 x = if (x =? n)%nat then set_opens (opens (node s x) + 1) (node s x) else node s x).
  { intros x. unfold s1. rewrite node_upd by lia. destruct (Nat.eqb_spec x n) as [->|]; [|done]. by rewrite u32_small by lia. }
  assert (Hh1 : heap_ok base lost s1) by (apply heap_touch; done).
  set (f := mk_tfile n (if has flags O_APPEND then size (node s1 n) else 0) flags).
  change (opened k n flags s) with (set_file k (Some f) s1).
  assert (Hu1 : forall x, used s1 x = used s x) by (intros x; unfold used; rewrite Hnode; by destruct (x =? n)%nat).
  split.
  - split_and!; [by cbn; rewrite length_alter|done|by cbn; rewrite length_insert|].
    apply (tree_open (used s1) (is_dir s1) (fun x => nlink (node s1 x)) (fun x => opens (node s x))).
    + apply (tree_ok_ext _ _ _ _ _ _ _ _ _ _ T); [done|]. intros x Hx. unfold is_dir. rewrite Hnode. by destruct (x =? n)%nat.
    + done.
    + cbn. by rewrite Hu1.
    + cbn. unfold is_dir. by rewrite Hnode, Nat.eqb_refl.
    + intros x Hx. change (opens (node s1 x) = if (x =? n)%nat then opens (node s x) + 1 else opens (node s x)).
      rewrite Hnode. by destruct (x =? n)%nat.
  - apply heap_files; [done|]. intros j g Hj. destruct (decide (j = k)) as [->|Hne].
    + rewrite list_lookup_insert_eq in Hj by (by eapply lookup_lt_Some). injection Hj as <-.
      assert (Hl1 : nodes s1 !! n = Some (node s1 n)) by (apply node_lookup; unfold s1; rewrite length_upd; lia).
      assert (Hun : n_used (node s1 n) = true) by (pose proof (Hu1 n) as E; unfold used in *; congruence).
      split; [|by exists (node s1 n)]. cbn. destruct (has flags O_APPEND); [|lia].
      by apply (ho_nodes _ _ _ Hh1 n).
    + rewrite list_lookup_insert_ne in Hj by done. by apply (ho_files _ _ _ Hh1 j g).
Qed.

(** O_TRUNC: the file is emptied. *)
Lemma emptied_ok base lost (s : tmpfs) n t :
  fs_ok base lost s -> used s n = true ->
  let s' := upd_node n (fun x => set_mtime t (set_size 0 x)) (cut_node n 0 s) in
  fs_ok base lost s' /\ dents s' = dents s /\ files s' = files s /\ used s' n = true /\ is_dir s' n = is_dir s n.
Proof using H.
  intros [Hn Hh] Hu s'. pose proof Hn as (L1 & L2 & L3 & T). pose proof (ok_bound T n Hu) as Hb.
  pose proof (node_lookup s n ltac:(lia)) as Hl. unfold used in Hu.
  pose proof (node_acct base lost s n _ Hh Hl Hu) as Ha.
  unfold s', cut_node. pose proof (cut_spec base (others (mem (heap s)) (nodes s) n ++ lost) (node s n) 0 (heap s) Ha ltac:(lia)) as C.
  destruct (cut (node s n) 0 (heap s)) as [n' p']. destruct C as (C1 & C2 & C3 & C4). rewrite (C3 eq_refl) in *.
  set (n2 := set_mtime t (set_size 0 n')).
  set (s2 := set_heap p' (set_nodes (<[n := n2]> (nodes s)) s)).
  assert (E : upd_node n (fun x => set_mtime t (set_size 0 x)) (set_heap p' (upd_node n (fun _ => n') s)) = s2).
  { unfold s2, upd_node, set_heap, set_nodes. cbn. f_equal. rewrite (alter_insert _ _ _ _ Hl).
    rewrite (alter_insert _ _ n n') by (rewrite list_lookup_insert_eq; [done|lia]). by rewrite list_insert_insert_eq. }
  rewrite E. assert (E2 : n2 = set_mtime t (set_size 0 (set_top 0 (node s n)))) by (unfold n2; by rewrite C1).
  destruct (heap_update base lost s n (node s n) n2 p' Hh Hl Hu) as [Hh2 _].
  - by rewrite E2.
  - assert (top n2 = 0) as -> by (by rewrite E2). done.
  - intros _. rewrite E2. cbn. split; [lia|]. intros z Hz. done.
  - assert (Hnode : forall x, node s2 x = if (x =? n)%nat then n2 else node s x).
    { intros x. unfold node, s2. cbn. destruct (Nat.eqb_spec x n) as [->|]; [|by rewrite list_lookup_insert_ne].
      by rewrite list_lookup_insert_eq by lia. }
    assert (Hk : forall x, n_used (node s2 x) = n_used (node s x) /\ is_dir s2 x = is_dir s x /\
                   nlink (node s2 x) = nlink (node s x) /\ opens (node s2 x) = opens (node s x)).
    { intros x. unfold is_dir. rewrite Hnode. destruct (Nat.eqb_spec x n) as [->|]; [by rewrite E2|done]. }
    split; [split; [|exact Hh2]|split; [done|split; [done|split]]].
    + apply (names_keep s); try done; [by cbn; rewrite length_insert|intros x; by apply Hk|intros x _; by apply Hk].
    + unfold used. by rewrite (proj1 (Hk n)).
    + by apply Hk.
Qed.

(** t_open: a file that is there, or a new one. *)
Definition open_effect (s : tmpfs) (tg : Z + nat * list Z * option nat) (flags r : Z) (s' : tmpfs) : Prop :=
  match tg with
  | inl e => r = e /\ s' = s
  | inr (_, _, Some _) => same_names s s' /\ (has flags O_CREAT && has flags O_EXCL = true -> r = - EEXIST)
  | inr (dir, nm, None) =>
      if has flags O_CREAT then create_effect s tg r s' else r = - ENOENT /\ s' = s
  end.

Lemma walk_ok base lost (s : tmpfs) c path fl : fs_ok base lost s ->
  snd (walk pmm_total c path fl s) = s /\ lands s (fst (walk pmm_total c path fl s)).
Proof using All.
  intros [Hn _]. destruct (ok_root (names_tree s Hn)) as [R1 R2]. unfold walk, init_once. unfold used in R1. rewrite R1.
  split; [done|]. destruct (walk_from_lands s Hn WALK_HOPS ROOT (here path) fl R1) as (? & _ & ? & _). done.
Qed.

Lemma open_ok base lost (s : tmpfs) c k path flags : fs_ok base lost s -> files s !! k = Some None ->
  let '(r, s') := t_open pmm_total c k path flags s in fs_ok base lost s' /\ open_effect s (target c path s) flags r s'.
Proof using All.
  intros Hok Hk. destruct (target_facts base lost s c path Hok) as [E F]. unfold t_open. rewrite E.
  destruct (target c path s) as [e|[[dir nm] [n0|]]]; [done|..].
  - destruct (F dir nm (Some n0) eq_refl) as (F1 & F2 & _ & F4 & _). cbn [open_effect].
    destruct (has flags O_CREAT && has flags O_EXCL) eqn:Ex; [by split; [|split; [|done]]|].
    set (found := if is_link s n0 then _ else _).
    assert (Hf : lands s found).
    { unfold found. destruct (is_link s n0); [|by apply F4]. destruct (has flags O_NOFOLLOW); [done|].
      exact (proj2 (walk_ok base lost s c path true Hok)). }
    destruct found as [e|n]; [split; [done|]; split; [done|congruence]|]. cbn in Hf.
    destruct (is_dir s n) eqn:Hd; [split; [done|]; split; [done|congruence]|].
    destruct (has flags O_TRUNC && negb (Z.land flags O_ACCMODE =? O_RDONLY)).
    + destruct (emptied_ok base lost s n (now c) Hok Hf) as (T1 & T2 & T3 & T4 & T5). set (s1 := upd_node n _ _) in *.
      destruct (opened_ok base lost s1 k n flags T1 T4 ltac:(congruence) ltac:(congruence)) as [O1 O2].
      split; [done|]. split; [|congruence]. apply same_dents. congruence.
    + destruct (opened_ok base lost s k n flags Hok Hf Hd Hk) as [O1 O2]. split; [done|]. split; [|congruence]. by apply same_dents.
  - destruct (F dir nm None eq_refl) as (F1 & F2 & _ & _ & _ & F6). destruct (F6 eq_refl) as [F7 F8].
    unfold open_effect. destruct (has flags O_CREAT); [|done]. cbn [negb].
    pose proof (make_spec base lost s c (Z.lor S_IFREG 420) dir nm Hok F1 F2 F7 F8) as M.
    destruct (node_alloc c (Z.lor S_IFREG 420) s) as [[r|n] s1]; [destruct M as [-> ->]; split; [done|right]; auto|].
    destruct (dent_add c dir nm n s1) as [r s2].
    destruct M as [([-> | ->] & M2 & M3)|(M1 & (N1 & N2 & N3 & N4 & N5 & N6 & _))].
    + split; [done|right]. split; [by right|]. by apply same_dents.
    + split; [done|right]. split; [by left|]. by apply same_dents.
    + rewrite (proj2 (Z.ltb_ge r 0)) by lia. change (S_ISDIR (Z.lor S_IFREG 420)) with false in *. cbv iota in *.
      set (s3 := upd_node n (set_nlink 1) s2) in *.
      destruct (opened_ok base lost s3 k n flags N1 N5 N2 ltac:(congruence)) as [O1 O2].
      split; [done|left]. split; [done|]. exists n. split; [done|]. split.
      * unfold used, opened, set_file. rewrite node_files. pose proof N1 as [(L1 & _ & _ & T) _]. pose proof (ok_bound T n N5).
        rewrite node_upd by lia. rewrite Nat.eqb_refl. exact N5.
      * intros x nm' Hx. rewrite (same_dents s3 (opened k n flags s3) O2) by done. by apply N3.
Qed.

(** t_link: another name for a file. *)
Definition link_effect (s : tmpfs) (from : Z + nat) (tg : Z + nat * list Z * option nat) (r : Z) (s' : tmpfs) : Prop :=
  match from with
  | inl e => r = e /\ s' = s
  | inr n =>
      if is_dir s n then r = - EPERM /\ s' = s
      else match tg with
           | inl e => r = e /\ s' = s
           | inr (_, _, Some _) => r = - EEXIST /\ s' = s
           | inr (dir, nm, None) =>
               r = 0 /\ names_put s s' dir nm (Some n) \/ (r = - ENOSPC \/ r = - ENAMETOOLONG) /\ s' = s
           end
  end.

Lemma link_ok base lost (s : tmpfs) c from to : fs_ok base lost s ->
  let '(r, s') := t_link pmm_total c from to s in
  fs_ok base lost s' /\ link_effect s (fst (walk pmm_total c from false s)) (target c to s) r s'.
Proof using All.
  intros Hok. destruct (walk_ok base lost s c from false Hok) as [Ew Hw]. unfold t_link, link_effect.
  destruct (walk pmm_total c from false s) as [o s0]. cbn [fst snd] in *. subst s0.
  destruct (target_facts base lost s c to Hok) as [E F].
  destruct o as [e|n]; [done|]. cbn in Hw. destruct (is_dir s n) eqn:Hd; [done|].
  rewrite E. destruct (target c to s) as [e|[[dir nm] [n0|]]]; [done|done|].
  destruct (F dir nm None eq_refl) as (F1 & F2 & _ & _ & _ & F6). destruct (F6 eq_refl) as [F7 F8].
  pose proof Hok as [Hn Hh]. pose proof Hn as (L1 & L2 & L3 & T). pose proof (ok_bound T n Hw) as Hnb.
  pose proof (dent_add_spec c dir nm n s) as B. destruct (dent_add c dir nm n s) as [r s2].
  destruct B as [[B1 ->]|(B1 & Bl & i & d0 & B2 & B3 & ->)].
  - assert (r < 0) by (destruct B1 as [-> | ->]; unfold ENAMETOOLONG, ENOSPC; lia).
    rewrite (proj2 (Z.ltb_lt r 0)) by done. split; [done|]. right. split; [tauto|done].
  - rewrite (proj2 (Z.ltb_ge r 0)) by done. set (s2 := upd_node dir _ _). set (s3 := upd_node n inc_nlink s2).
    pose proof (ok_bound T dir F1) as Hdb. assert (Hdn : dir <> n) by congruence.
    assert (Hnode : forall x, node s3 x = if (x =? n)%nat then inc_nlink (node s x)
                                          else if (x =? dir)%nat then set_mtime (now c) (node s x) else node s x).
    { intros x. unfold s3, s2. rewrite !node_upd by (rewrite ?length_upd; cbn; lia). rewrite node_dents.
      destruct (Nat.eqb_spec x n) as [->|]; [|done]. by rewrite (proj2 (Nat.eqb_neq n dir)) by congruence. }
    assert (Hok3 : names_ok s3).
    { split_and!; [unfold s3, s2; by rewrite !length_upd|cbn; by rewrite length_insert|done|].
      apply (tree_ok_ext (used s) (is_dir s) (fun x => if (x =? n)%nat then nlink (node s x) + 1 else nlink (node s x))
               (fun x => opens (node s x))).
      - apply (tree_link _ _ (fun x => nlink (node s x)) _ _ _ i d0 dir n nm false T B2); auto; [by apply live_false|done|].
        intros j e Hj _ Ee. by apply (entry_None s dir nm F8 j e).
      - intros x. unfold used. rewrite Hnode. by repeat case_match.
      - intros x Hx. unfold is_dir. rewrite Hnode. pose proof (nlink_small s x Hn Hx).
        destruct (x =? n)%nat; [|by case_match]. cbn. rewrite u32_small by lia. done. }
    split; [split; [done|]|].
    + apply heap_touch; [done|]. apply heap_touch; [done|]. by apply heap_dents.
    + left. split; [done|]. by eapply names_add; eauto; lia.
Qed.

End changes.
End TMPFS.
