(* ===== verification/Tmpops.v ===== *)
(** * Taking names away, moving them, and whole runs (kernel/fs/tmpfs.c)

    What t_unlink, t_rmdir, t_rename, t_symlink and the calls on open files
    do to the tables of Tmpfs, and the theorems about any sequence of calls. *)

From S2P Require Import Prelude Pmm Pages Tmpfile Tmptree Tmpfs.
Local Open Scope Z_scope.

Module TMPOPS.
Import TMPFILE TMPTREE TMPFS.

Section taking.
Context {W : Type} `{PageMemory W}.
#[local] Notation tmpfs := (@tmpfs W).
Context (pmm_total : W -> Z).
#[local] Notation target c path s := (fst (walk_parent pmm_total c path s)).
#[local] Notation same_names s s' := (forall x nm, (0 < x)%nat -> entry s' x nm = entry s x nm).

Lemma maybe_free_spec base lost (s : tmpfs) i :
  heap_ok base lost s -> (i < length (nodes s))%nat ->
  let gone := n_used (node s i) && (nlink (node s i) =? 0) && (opens (node s i) =? 0) in
  (gone = true -> forall k g, files s !! k = Some (Some g) -> f_node g <> i) ->
  let s' := node_maybe_free i s in
  heap_ok base lost s' /\ dents s' = dents s /\ files s' = files s /\ length (nodes s') = length (nodes s) /\
  forall x, node s' x = if gone && (x =? i)%nat then set_nused false (set_top 0 (node s x)) else node s x.
Proof using H.
  intros Hh Hi gone Hno s'. unfold s', node_maybe_free. fold gone. destruct gone eqn:Eg; [|done].
  apply andb_true_iff in Eg as [[Hu _]%andb_true_iff _]. exact (heap_release base lost s i Hh Hi Hu (Hno eq_refl)).
Qed.

Lemma names_clear (s s' : tmpfs) j d :
  names_ok s -> names_ok s' -> dents s !! j = Some d -> live d = true ->
  dents s' = alter (fun e => mk_tdent 0 (d_node e) (d_name e)) j (dents s) -> names_put s s' (d_dir d) (d_name d) None.
Proof using H.
  intros Hok Hok' Hj Hl Ed x nm' Hx. apply entry_option_eq. intros m. rewrite entry_iff by done. rewrite Ed.
  assert (Hat : alter (fun e => mk_tdent 0 (d_node e) (d_name e)) j (dents s) !! j = Some (mk_tdent 0 (d_node d) (d_name d)))
    by (by rewrite list_lookup_alter_eq, Hj).
  case_bool_decide as B.
  - destruct B as [-> ->]. split; [|done]. intros (k & e & Hk & E1 & E2 & E3). exfalso.
    destruct (decide (k = j)) as [->|Hne]; [rewrite Hat in Hk; injection Hk as <-; cbn in *; lia|].
    rewrite list_lookup_alter_ne in Hk by done. apply Hne.
    apply (ok_once (names_tree s Hok) k j e d); try done. apply live_true. lia.
  - rewrite entry_iff by done. split; intros (k & e & Hk & E1 & E2 & E3); exists k, e.
    + destruct (decide (k = j)) as [->|Hne]; [rewrite Hat in Hk; injection Hk as <-; cbn in *; lia|].
      by rewrite list_lookup_alter_ne in Hk.
    + rewrite list_lookup_alter_ne; [done|]. intros ->. rewrite Hj in Hk. injection Hk as ->. by apply B.
Qed.

(** Taking a name away, the counts having been changed: what t_unlink, t_rmdir
    and the replacement in t_rename end with. *)
Lemma take_name base lost (s s1 : tmpfs) j d :
  let n := d_node d in
  fs_ok base lost s -> dents s !! j = Some d -> live d = true ->
  (is_dir s n = true -> forall k e, dents s !! k = Some e -> d_dir e <> n) ->
  heap_ok base lost s1 -> length (nodes s1) = length (nodes s) ->
  dents s1 = alter (fun e => mk_tdent 0 (d_node e) (d_name e)) j (dents s) -> files s1 = files s ->
  (forall x, n_used (node s1 x) = n_used (node s x) /\ mode (node s1 x) = mode (node s x) /\
             opens (node s1 x) = opens (node s x)) ->
  (forall x, used s x = true -> nlink (node s1 x) =
     if (x =? n)%nat then if is_dir s n then 0 else nlink (node s x) - 1
     else if is_dir s n && (x =? d_dir d)%nat then nlink (node s x) - 1 else nlink (node s x)) ->
  let s' := node_maybe_free n s1 in
  fs_ok base lost s' /\ names_put s s' (d_dir d) (d_name d) None /\ dents s' = dents s1 /\ files s' = files s /\
  (forall x, x <> n -> node s' x = node s1 x).
Proof using H.
  intros n [Hn Hh] Hj Hl Hempty Hh1 Elen Ed Ef Ek El s'. pose proof Hn as (L1 & L2 & L3 & T).
  destruct (ok_entry T j d Hj Hl) as (Du & Dd & Nu & Nr & _). fold n in Nu, Nr. pose proof (ok_bound T n Nu) as Hnb.
  assert (Hnames : is_dir s n = false -> 1 <= nlink (node s n)).
  { intros Hd. pose proof (ok_links T n Nu) as E. cbn in E. rewrite Hd in E. rewrite E.
    assert (0 < count_if (names_node n) (dents s))%nat; [|lia]. apply count_if_pos. exists j, d. split; [done|].
    unfold names_node. fold n. by rewrite Hl, Nat.eqb_refl. }
  assert (Hdopens : is_dir s n = true -> opens (node s n) = 0).
  { intros Hd. pose proof (ok_opens T n Nu) as E. cbn in E. rewrite E.
    replace (count_if (open_on n) (files s)) with 0%nat; [done|]. symmetry. apply count_if_zero. intros k [f|] Hk; [|done].
    cbn. apply Nat.eqb_neq. intros Ef'. destruct (ok_files T k f Hk) as [_ Hfd]. congruence. }
  set (gone := n_used (node s1 n) && (nlink (node s1 n) =? 0) && (opens (node s1 n) =? 0)).
  assert (Eg : gone = is_dir s n || ((nlink (node s n) =? 1) && (opens (node s n) =? 0))).
  { unfold gone. destruct (Ek n) as (-> & _ & ->). rewrite (El n Nu), Nat.eqb_refl. unfold used in Nu. rewrite Nu. cbn [andb].
    destruct (is_dir s n) eqn:Hd; [by rewrite Hdopens|]. cbn [orb]. f_equal.
    destruct (Z.eqb_spec (nlink (node s n) - 1) 0), (Z.eqb_spec (nlink (node s n)) 1); lia || done. }
  destruct (maybe_free_spec base lost s1 n Hh1 ltac:(lia)) as (M1 & M2 & M3 & M4 & M5).
  { fold gone. rewrite Ef. intros Hg k g Hk E. pose proof (ok_opens T n Nu) as Eo. cbn in Eo.
    assert (0 < count_if (open_on n) (files s))%nat by (apply count_if_pos; exists k, (Some g); split; [done|]; cbn; rewrite E; apply Nat.eqb_refl).
    unfold gone in Hg. apply andb_true_iff in Hg as [_ Hg%Z.eqb_eq]. rewrite (proj2 (proj2 (Ek n))) in Hg. lia. }
  fold gone s' in M1, M2, M3, M4, M5.
  assert (Hnode : forall x, x <> n -> node s' x = node s1 x)
    by (intros x Hx; rewrite M5, (proj2 (Nat.eqb_neq x n)) by done; by rewrite andb_false_r).
  assert (Hus : forall x, used s' x = if gone && (x =? n)%nat then false else used s x).
  { intros x. unfold used. rewrite M5. destruct (gone && (x =? n)%nat); [done|]. apply Ek. }
  assert (T' : tree_ok (used s') (is_dir s') (fun x => nlink (node s' x)) (fun x => opens (node s' x)) (dents s') (files s')).
  { rewrite M2, Ed, M3, Ef.
    apply (tree_ok_ext (used s') (is_dir s) (fun x => nlink (node s' x)) (fun x => opens (node s x))); [|done|].
    - apply (tree_remove _ _ (fun x => nlink (node s x)) _ _ _ j d T Hj Hl gone); fold n.
      + intros Hd. split; [by rewrite Eg, Hd|]. by apply Hempty.
      + intros Hd. rewrite Eg, Hd. cbn [orb]. intros [?%Z.eqb_eq ?%Z.eqb_eq]%andb_true_iff. done.
      + intros Hd. rewrite Eg, Hd. cbn [orb]. specialize (Hnames Hd). pose proof (opens_small s n Hn Nu).
        intros [?%Z.eqb_neq|?%Z.eqb_neq]%andb_false_iff; lia.
      + done.
      + intros x Hx. assert (Hxu : used s x = true) by (rewrite Hus in Hx; by destruct (gone && (x =? n)%nat)).
        rewrite M5. destruct (gone && (x =? n)%nat) eqn:Eb; [rewrite Hus, Eb in Hx; done|]. rewrite (El x Hxu).
        destruct (Nat.eqb_spec x n) as [->|]; [|done]. rewrite andb_true_r in Eb. rewrite Eg in Eb.
        by destruct (is_dir s n).
    - intros x Hx. unfold is_dir. rewrite M5. destruct (gone && (x =? n)%nat) eqn:Eb; [rewrite Hus, Eb in Hx; done|].
      destruct (Ek x) as (_ & -> & ->). done. }
  assert (Hok' : names_ok s').
  { split_and!; [by rewrite M4, Elen|rewrite M2, Ed; by rewrite length_alter|by rewrite M3, Ef|done]. }
  split; [done|]. split; [apply (names_clear s s' j d); try done; by rewrite M2|]. split; [done|]. split; [by rewrite M3|done].
Qed.

(** In a sticky directory, whose names this user may take away. *)
Definition may_take (c : ctx) (s : tmpfs) (dir n : nat) : bool :=
  negb (has (mode (node s dir)) S_ISVTX) || (c_uid c =? 0) || (c_uid c =? uid (node s n)) || (c_uid c =? uid (node s dir)).
Lemma sticky_may c dir n (s : tmpfs) : sticky_ok c dir n s = if may_take c s dir n then 0 else - EPERM.
Proof using H.
  unfold sticky_ok, may_take. destruct (negb _), (c_uid c =? 0), (c_uid c =? uid (node s n)), (c_uid c =? uid (node s dir)); done.
Qed.

Definition unlink_effect (want_dir : bool) (c : ctx) (s : tmpfs) (tg : Z + nat * list Z * option nat) (r : Z) (s' : tmpfs) : Prop :=
  match tg with
  | inl e => r = e /\ s' = s
  | inr (_, _, None) => r = - ENOENT /\ s' = s
  | inr (dir, nm, Some n) =>
      if (dir =? ROOT)%nat then r = - EBUSY /\ s' = s
      else if negb (Bool.eqb want_dir (is_dir s n)) then r = (if want_dir then - ENOTDIR else - EISDIR) /\ s' = s
      else if negb (may_take c s dir n) then r = - EPERM /\ s' = s
      else if want_dir && has_names n s then r = - ENOTEMPTY /\ s' = s
      else r = 0 /\ names_put s s' dir nm None
  end.

Lemma no_names (s : tmpfs) n : has_names n s = false -> forall k e, dents s !! k = Some e -> d_dir e <> n.
Proof using H.
  unfold has_names. rewrite bool_decide_eq_false. intros E k e Hk Ee.
  destruct (find_idx (in_dir n) (dents s)) eqn:Hf; [by apply E|]. rewrite find_idx_None in Hf.
  specialize (Hf k e Hk). unfold in_dir in Hf. by apply Nat.eqb_neq in Hf.
Qed.

(** The entry a target names. *)
Lemma target_entry base lost (s : tmpfs) c path dir nm n :
  fs_ok base lost s -> target c path s = inr (dir, nm, Some n) -> nm <> dot -> nm <> dotdot ->
  exists j d, dent_find dir nm s = Some j /\ dents s !! j = Some d /\ live d = true /\
    d_dir d = dir /\ d_name d = nm /\ d_node d = n /\ used s n = true /\ used s dir = true /\ is_dir s dir = true.
Proof using All.
  intros Hok Et D1 D2. destruct (target_facts pmm_total base lost s c path Hok) as [_ F].
  destruct (F dir nm (Some n) Et) as (F1 & F2 & _ & F4 & F5 & _). specialize (F5 D1 D2). unfold entry in F5.
  destruct (dent_find dir nm s) as [j|] eqn:Hf; [|done]. cbn in F5.
  destruct (find_live s (proj1 Hok) dir nm j F1 Hf) as (d & Hj & Hl & Ed & En & Hu). rewrite Hj in F5. cbn in F5.
  exists j, d. split_and!; try done; [congruence|by apply F4].
Qed.

Definition plain_name (path : list Z) : Prop :=
  last (components (here path)) <> Some dot /\ last (components (here path)) <> Some dotdot.
#[export] Instance plain_name_dec path : Decision (plain_name path).
Proof. unfold plain_name. apply _. Defined.
Lemma plain_target base lost (s : tmpfs) c path dir nm ex : fs_ok base lost s -> plain_name path ->
  target c path s = inr (dir, nm, ex) -> nm <> dot /\ nm <> dotdot.
Proof using All.
  intros Hok [P1 P2] Et. destruct (target_facts pmm_total base lost s c path Hok) as [_ F].
  destruct (F dir nm ex Et) as (_ & _ & L & _). rewrite L in P1, P2. split; congruence.
Qed.

(** The last name of such a path is a dot or two, and no entry has that name. *)
Lemma dotted_target base lost (s : tmpfs) c path dir nm ex : fs_ok base lost s -> ~ plain_name path ->
  target c path s = inr (dir, nm, ex) -> (nm = dot \/ nm = dotdot) /\ dent_find dir nm s = None /\ ex <> None.
Proof using All.
  intros Hok Hp Et. destruct (target_facts pmm_total base lost s c path Hok) as [_ F].
  destruct (F dir nm ex Et) as (Du & Dd & L & _ & _ & F6). pose proof (names_tree s (proj1 Hok)) as T.
  pose proof (ok_bound T dir Du) as Hb. unfold plain_name in Hp. rewrite L in Hp.
  assert (Hd : nm = dot \/ nm = dotdot).
  { destruct (decide (nm = dot)); [by left|]. destruct (decide (nm = dotdot)); [by right|]. exfalso. apply Hp. split; congruence. }
  split; [done|]. split.
  - apply dent_find_None. intros j d Hj Ed En. destruct (ok_entry T j d Hj) as (_ & _ & _ & _ & [(_ & _ & P1 & P2) _]).
    { apply live_true. lia. }
    rewrite En in P1, P2. by destruct Hd.
  - intros ->. destruct (F6 eq_refl) as [(_ & _ & P1 & P2) _]. by destruct Hd.
Qed.

(** The link count of a node that has a name, or is a directory, can go down. *)
Lemma nlink_pos (s : tmpfs) j d : names_ok s -> dents s !! j = Some d -> live d = true ->
  1 <= nlink (node s (d_node d)) <= 2000 /\ 1 <= nlink (node s (d_dir d)) <= 2000.
Proof using H.
  intros Hn Hj Hl. pose proof (names_tree s Hn) as T. destruct (ok_entry T j d Hj Hl) as (Du & Dd & Nu & _).
  pose proof (nlink_small s _ Hn Nu) as S1. pose proof (nlink_small s _ Hn Du) as S2.
  pose proof (ok_links T _ Nu) as E1. pose proof (ok_links T _ Du) as E2. cbn in E1, E2. rewrite Dd in E2.
  split; [|lia]. split; [|lia]. rewrite E1. destruct (is_dir s (d_node d)); [lia|].
  assert (0 < count_if (names_node (d_node d)) (dents s))%nat; [|lia]. apply count_if_pos. exists j, d. split; [done|].
  unfold names_node. by rewrite Hl, Nat.eqb_refl.
Qed.
Lemma dec_small x : 1 <= nlink x <= 2000 -> dec_nlink x = set_nlink (nlink x - 1) x.
Proof using H. intros Hx. unfold dec_nlink. by rewrite u32_small by lia. Qed.

(** The counts changed for a name that goes. *)
Definition counted_out (d : tdent) (b : bool) (x : tmpfs) : tmpfs :=
  if b then upd_node (d_dir d) dec_nlink (upd_node (d_node d) (set_nlink 0) x) else upd_node (d_node d) dec_nlink x.
Lemma entry_apart (s : tmpfs) j d : names_ok s -> dents s !! j = Some d -> live d = true ->
  (is_dir s (d_node d) = true -> forall k e, dents s !! k = Some e -> d_dir e <> d_node d) -> d_dir d <> d_node d.
Proof using H.
  intros Hn Hj Hl He E. destruct (ok_entry (names_tree s Hn) j d Hj Hl) as (_ & Dd & _).
  apply (He ltac:(congruence) j d Hj E).
Qed.

(** With the name out of the table and the counts changed, the node goes if nothing holds it. *)
Lemma take_counted base lost (s s0 : tmpfs) j d :
  fs_ok base lost s -> dents s !! j = Some d -> live d = true ->
  (is_dir s (d_node d) = true -> forall k e, dents s !! k = Some e -> d_dir e <> d_node d) ->
  heap_ok base lost s0 -> length (nodes s0) = length (nodes s) ->
  dents s0 = alter (fun e => mk_tdent 0 (d_node e) (d_name e)) j (dents s) -> files s0 = files s ->
  (forall x, n_used (node s0 x) = n_used (node s x) /\ mode (node s0 x) = mode (node s x) /\
             opens (node s0 x) = opens (node s x) /\ nlink (node s0 x) = nlink (node s x)) ->
  let s1 := counted_out d (is_dir s (d_node d)) s0 in let s' := node_maybe_free (d_node d) s1 in
  fs_ok base lost s' /\ names_put s s' (d_dir d) (d_name d) None /\ dents s' = dents s0 /\ files s' = files s /\
  (forall x, x <> d_node d -> node s' x = node s1 x).
Proof using H.
  intros Hok Hj Hl He Hh0 El Ed Ef Ek s1. pose proof (entry_apart s j d (proj1 Hok) Hj Hl He) as Hne.
  destruct (nlink_pos s j d (proj1 Hok) Hj Hl) as [P1 P2]. pose proof Hok as [(L1 & _ & _ & T) _].
  destruct (ok_entry T j d Hj Hl) as (Du & _ & Nu & _). pose proof (ok_bound T _ Du). pose proof (ok_bound T _ Nu).
  assert (Hnode : forall x, node s1 x =
    if (x =? d_node d)%nat then set_nlink (if is_dir s (d_node d) then 0 else nlink (node s x) - 1) (node s0 x)
    else if is_dir s (d_node d) && (x =? d_dir d)%nat then set_nlink (nlink (node s x) - 1) (node s0 x) else node s0 x).
  { intros x. unfold s1, counted_out. destruct (is_dir s (d_node d)); cbn [andb];
      rewrite !node_upd by (rewrite ?length_upd; lia).
    - destruct (Nat.eqb_spec x (d_node d)) as [->|]; [by rewrite (proj2 (Nat.eqb_neq _ (d_dir d))) by congruence|].
      destruct (Nat.eqb_spec x (d_dir d)) as [->|]; [|done]. destruct (Ek (d_dir d)) as (_ & _ & _ & <-). apply dec_small.
      by destruct (Ek (d_dir d)) as (_ & _ & _ & ->).
    - destruct (Nat.eqb_spec x (d_node d)) as [->|]; [|done]. destruct (Ek (d_node d)) as (_ & _ & _ & <-). apply dec_small.
      by destruct (Ek (d_node d)) as (_ & _ & _ & ->). }
  assert (Hs1 : dents s1 = dents s0 /\ files s1 = files s0 /\ length (nodes s1) = length (nodes s0)).
  { unfold s1, counted_out. destruct (is_dir s (d_node d)); rewrite ?length_upd; done. }
  destruct Hs1 as (S1 & S2 & S3). rewrite <- S1. apply (take_name base lost s s1 j d); try congruence; auto.
  - unfold s1, counted_out. destruct (is_dir s (d_node d)); by repeat (apply heap_touch; [done|]).
  - intros x. rewrite Hnode. destruct (Ek x) as (E1 & E2 & E3 & _). destruct (x =? d_node d)%nat; [done|]. by destruct (_ && _).
  - intros x Hx. rewrite Hnode. destruct (Ek x) as (_ & _ & _ & E4). destruct (Nat.eqb_spec x (d_node d)) as [->|]; [done|].
    by destruct (_ && _).
Qed.

Lemma unlink_ok base lost (s : tmpfs) c path wd : fs_ok base lost s -> plain_name path ->
  exists r s', t_unlink_common pmm_total c path wd s = Some (r, s') /\
    fs_ok base lost s' /\ unlink_effect wd c s (target c path s) r s'.
Proof using All.
  intros Hok Hp. destruct (target_facts pmm_total base lost s c path Hok) as [E F]. unfold t_unlink_common. rewrite E. cbn [fst].
  destruct (target c path s) as [e|[[dir nm] [n|]]] eqn:Et; [by exists e, s|..]; [|by exists (- ENOENT), s].
  unfold unlink_effect. destruct (Nat.eqb_spec dir ROOT) as [->|Hdr]; [by exists (- EBUSY), s|].
  rewrite sticky_may. destruct (Bool.eqb wd (is_dir s n)) eqn:Hw; cbn [negb].
  2: { destruct wd, (is_dir s n); try done; cbn [andb negb]; [by exists (- ENOTDIR), s|by exists (- EISDIR), s]. }
  apply eqb_prop in Hw. rewrite (proj2 (andb_false_iff wd _)) by (destruct wd; rewrite <- Hw; auto).
  rewrite (proj2 (andb_false_iff (negb wd) _)) by (destruct wd; rewrite <- Hw; auto).
  destruct (may_take c s dir n); cbn [negb]; [|by exists (- EPERM), s]. change (0 <? 0) with false. cbv iota.
  destruct (wd && has_names n s) eqn:Hnames; [by exists (- ENOTEMPTY), s|].
  destruct (plain_target base lost s c path dir nm (Some n) Hok Hp Et) as [D1 D2].
  destruct (target_entry base lost s c path dir nm n Hok Et D1 D2) as (j & d & Hf & Hj & Hl & Ed & En & Em & Nu & Du & Dd).
  rewrite Hf. cbn [clear_dent mbind option_bind].
  assert (He : is_dir s (d_node d) = true -> forall k e, dents s !! k = Some e -> d_dir e <> d_node d).
  { rewrite Em, <- Hw. intros ->. by apply no_names. }
  set (s0 := upd_node dir (set_mtime (now c)) _).
  rewrite Hw. replace (if is_dir s n then upd_node dir dec_nlink (upd_node n (set_nlink 0) s0) else upd_node n dec_nlink s0)
    with (counted_out d (is_dir s (d_node d)) s0) by (unfold counted_out; by rewrite Ed, Em).
  destruct (take_counted base lost s s0 j d Hok Hj Hl He) as (A1 & A2 & _).
  - apply heap_touch; [done|]. by apply heap_dents, Hok.
  - by unfold s0; rewrite length_upd.
  - done.
  - done.
  - intros x. unfold s0. pose proof (ok_bound (names_tree s (proj1 Hok)) dir Du). pose proof Hok as [(L1 & _) _].
    rewrite node_upd by (cbn; lia). by destruct (x =? dir)%nat.
  - rewrite Em in *. rewrite Ed, En in A2. eexists _, _. split; [reflexivity|]. split; [exact A1|]. by split.
Qed.
(** By a path that ends in a dot or two: it fails and changes nothing, or it
    writes through the index of an entry that is not there. *)
Lemma unlink_dotted base lost (s : tmpfs) c path wd : fs_ok base lost s -> ~ plain_name path ->
  t_unlink_common pmm_total c path wd s = None \/
  exists r, t_unlink_common pmm_total c path wd s = Some (r, s) /\ unlink_effect wd c s (target c path s) r s.
Proof using All.
  intros Hok Hp. destruct (target_facts pmm_total base lost s c path Hok) as [E _]. unfold t_unlink_common. rewrite E. cbn [fst].
  destruct (target c path s) as [e|[[dir nm] [n|]]] eqn:Et; [right; by exists e|..]; [|right; by exists (- ENOENT)].
  unfold unlink_effect. destruct (Nat.eqb_spec dir ROOT) as [->|Hdr]; [right; by exists (- EBUSY)|].
  rewrite sticky_may. destruct (Bool.eqb wd (is_dir s n)) eqn:Hw; cbn [negb].
  2: { right. destruct wd, (is_dir s n); try done; cbn [andb negb]; [by exists (- ENOTDIR)|by exists (- EISDIR)]. }
  apply eqb_prop in Hw. rewrite (proj2 (andb_false_iff wd _)) by (destruct wd; rewrite <- Hw; auto).
  rewrite (proj2 (andb_false_iff (negb wd) _)) by (destruct wd; rewrite <- Hw; auto).
  destruct (may_take c s dir n); cbn [negb]; [|right; by exists (- EPERM)]. change (0 <? 0) with false. cbv iota.
  destruct (wd && has_names n s) eqn:Hnames; [right; by exists (- ENOTEMPTY)|]. left.
  destruct (dotted_target base lost s c path dir nm (Some n) Hok Hp Et) as (_ & -> & _). done.
Qed.
(** Closing: the node goes with its last name and its last open file. *)
Lemma close_ok base lost (s : tmpfs) k f : fs_ok base lost s -> files s !! k = Some (Some f) ->
  exists s', tf_close k s = Some s' /\ fs_ok base lost s' /\ dents s' = dents s /\ files s' = <[k := None]> (files s) /\
    forall x, x <> f_node f -> node s' x = node s x.
Proof using H.
  intros [Hn Hh] Hk. pose proof Hn as (L1 & L2 & L3 & T). unfold tf_close. rewrite Hk. eexists. split; [reflexivity|].
  set (n := f_node f). destruct (ok_files T k f Hk) as [Nu Nd]. fold n in Nu, Nd. pose proof (ok_bound T n Nu) as Hb.
  pose proof (opens_small s n Hn Nu) as Ho. pose proof (ok_opens T n Nu) as Eo. cbn in Eo.
  assert (Hpos : (0 < count_if (open_on n) (files s))%nat)
    by (apply count_if_pos; exists k, (Some f); split; [done|]; cbn; apply Nat.eqb_refl).
  set (s1 := upd_node n _ (set_file k None s)).
  assert (Hnode : forall x, node s1 x = if (x =? n)%nat then set_opens (opens (node s x) - 1) (node s x) else node s x).
  { intros x. unfold s1. rewrite node_upd by (cbn; lia). change (node (set_file k None s) x) with (node s x).
    destruct (Nat.eqb_spec x n) as [->|]; [|done]. by rewrite u32_small by lia. }
  assert (Hh1 : heap_ok base lost s1).
  { apply heap_touch; [done|]. apply heap_files; [done|]. intros j g Hj. apply (ho_files _ _ _ Hh j g).
    destruct (decide (j = k)) as [->|Hne]; [|by rewrite list_lookup_insert_ne in Hj].
    by rewrite list_lookup_insert_eq in Hj by (by eapply lookup_lt_Some). }
  set (gone := n_used (node s1 n) && (nlink (node s1 n) =? 0) && (opens (node s1 n) =? 0)).
  assert (Eg : gone = (nlink (node s n) =? 0) && (opens (node s n) =? 1)).
  { unfold gone. rewrite Hnode, Nat.eqb_refl. unfold used in Nu. cbn. rewrite Nu. cbn [andb]. f_equal.
    destruct (Z.eqb_spec (opens (node s n) - 1) 0), (Z.eqb_spec (opens (node s n)) 1); lia || done. }
  pose proof (ok_alive T n Nu Nd) as Hal. pose proof (nlink_small s n Hn Nu) as Hnl.
  destruct (maybe_free_spec base lost s1 n Hh1) as (M1 & M2 & M3 & M4 & M5); [unfold s1; rewrite length_upd; cbn; lia|..].
  { fold gone. rewrite Eg. intros [_ E1%Z.eqb_eq]%andb_true_iff j g Hj E.
    assert (Hone : count_if (open_on n) (files s) = 1%nat) by lia. cbn in Hj.
    destruct (decide (j = k)) as [->|Hne]; [by rewrite list_lookup_insert_eq in Hj by (by eapply lookup_lt_Some)|].
    rewrite list_lookup_insert_ne in Hj by done. apply Hne.
    apply (count_one_same _ _ j k _ _ Hone Hj Hk); cbn; [rewrite E|]; apply Nat.eqb_refl. }
  fold gone in M5. set (s' := node_maybe_free n s1) in *.
  assert (Hnode' : forall x, x <> n -> node s' x = node s x)
    by (intros x Hx; rewrite M5, Hnode, (proj2 (Nat.eqb_neq x n)), andb_false_r by done; done).
  split; [split; [|done]|split; [done|split; [done|done]]].
  split_and!; [rewrite M4; unfold s1; by rewrite length_upd|by rewrite M2|rewrite M3; cbn; by rewrite length_insert|].
  rewrite M2, M3. change (dents s1) with (dents s). change (files s1) with (<[k := None]> (files s)).
  assert (Hus : forall x, used s' x = if gone && (x =? n)%nat then false else used s x).
  { intros x. unfold used. rewrite M5. destruct (gone && (x =? n)%nat); [done|]. rewrite Hnode. by destruct (x =? n)%nat. }
  apply (tree_ok_ext (used s') (is_dir s) (fun x => nlink (node s x)) (fun x => opens (node s' x))); [|done|].
  - apply (tree_close _ _ (fun x => nlink (node s x)) (fun x => opens (node s x)) _ _ T k f gone); fold n; auto.
    + rewrite Eg. by intros [?%Z.eqb_eq ?%Z.eqb_eq]%andb_true_iff.
    + rewrite Eg. intros [?%Z.eqb_neq|?%Z.eqb_neq]%andb_false_iff; lia.
    + intros x Hx. rewrite M5, Hnode. destruct (gone && (x =? n)%nat) eqn:Eb; [rewrite Hus, Eb in Hx; done|].
      by destruct (x =? n)%nat.
  - intros x Hx. unfold is_dir. rewrite M5, Hnode. destruct (gone && (x =? n)%nat) eqn:Eb; [rewrite Hus, Eb in Hx; done|].
    by destruct (x =? n)%nat.
Qed.
(** ** Moving a name *)

Definition names_moved (s s' : tmpfs) (fdir : nat) (fname : list Z) (tdir : nat) (tname : list Z) (n : nat) : Prop :=
  forall x nm, (0 < x)%nat ->
    entry s' x nm = if bool_decide (x = tdir /\ nm = tname) then Some n
                    else if bool_decide (x = fdir /\ nm = fname) then None else entry s x nm.

Lemma names_move (s s' : tmpfs) j d tdir tname :
  names_ok s -> names_ok s' -> dents s !! j = Some d -> live d = true ->
  entry s tdir tname = None ->
  dents s' = alter (fun e => mk_tdent tdir (d_node e) tname) j (dents s) ->
  names_moved s s' (d_dir d) (d_name d) tdir tname (d_node d).
Proof using H.
  intros Hok Hok' Hj Hl Hno Ed x nm Hx. apply entry_option_eq. intros m. rewrite entry_iff by done. rewrite Ed.
  assert (Hat : alter (fun e => mk_tdent tdir (d_node e) tname) j (dents s) !! j = Some (mk_tdent tdir (d_node d) tname))
    by (by rewrite list_lookup_alter_eq, Hj).
  case_bool_decide as B; [|case_bool_decide as B2].
  - destruct B as [-> ->]. split.
    + intros (k & e & Hk & E1 & E2 & E3). destruct (decide (k = j)) as [->|Hne].
      * rewrite Hat in Hk. injection Hk as <-. cbn in *. congruence.
      * rewrite list_lookup_alter_ne in Hk by done. exfalso. by apply (entry_None s tdir tname Hno k e).
    + intros [= <-]. by exists j, (mk_tdent tdir (d_node d) tname).
  - destruct B2 as [-> ->]. split; [|done]. intros (k & e & Hk & E1 & E2 & E3). exfalso.
    destruct (decide (k = j)) as [->|Hne]; [rewrite Hat in Hk; injection Hk as <-; cbn in *; by apply B|].
    rewrite list_lookup_alter_ne in Hk by done. apply Hne.
    apply (ok_once (names_tree s Hok) k j e d); try done. apply live_true. lia.
  - rewrite entry_iff by done. split; intros (k & e & Hk & E1 & E2 & E3); exists k, e.
    + destruct (decide (k = j)) as [->|Hne]; [rewrite Hat in Hk; injection Hk as <-; cbn in *; exfalso; by apply B|].
      by rewrite list_lookup_alter_ne in Hk.
    + rewrite list_lookup_alter_ne; [done|]. intros ->. rewrite Hj in Hk. injection Hk as ->. by apply B2.
Qed.

(** move_name, with nothing in its way. *)
Lemma move_ok base lost (s : tmpfs) c fdir fname tdir tname fnode j d :
  fs_ok base lost s -> dent_find fdir fname s = Some j -> dents s !! j = Some d -> live d = true ->
  d_dir d = fdir -> d_name d = fname -> d_node d = fnode ->
  used s tdir = true -> is_dir s tdir = true -> plain tname -> entry s tdir tname = None ->
  (is_dir s fnode = true -> ~ below (dents s) fnode tdir) ->
  exists r s', move_name c fdir tdir fnode fname tname s = Some (r, s') /\ fs_ok base lost s' /\
    if NAME_MAX <? Z.of_nat (length tname) then r = - ENAMETOOLONG /\ s' = s
    else r = 0 /\ names_moved s s' fdir fname tdir tname fnode.
Proof using H.
  intros [Hn Hh] Hf Hj Hl Ed En Em Tu Td Hp Hno Hb. unfold move_name. rewrite Hf.
  destruct (Z.ltb_spec NAME_MAX (Z.of_nat (length tname))) as [|Hlen]; [by exists (- ENAMETOOLONG), s|].
  cbn [mbind option_bind]. pose proof Hn as (L1 & L2 & L3 & T).
  destruct (ok_entry T j d Hj Hl) as (Du & Dd & Nu & Nr & _). rewrite Ed in Du, Dd. rewrite Em in Nu, Nr.
  pose proof (ok_bound T _ Du) as B1. pose proof (ok_bound T _ Tu) as B2.
  destruct (nlink_pos s j d Hn Hj Hl) as [_ P]. rewrite Ed in P. pose proof (nlink_small s tdir Hn Tu) as P2.
  set (s0 := set_dents _ s). set (s1 := if _ && _ then _ else _). set (s2 := upd_node fdir _ _).
  change (is_dir s0 fnode) with (is_dir s fnode) in s1.
  assert (Hlen1 : length (nodes s1) = TMP_NODES) by (unfold s1; destruct (_ && _); rewrite ?length_upd; done).
  assert (Hnode : forall x, exists t, node s2 x = set_mtime t (set_nlink (
      if is_dir s fnode && negb (fdir =? tdir)%nat
      then nlink (node s x) - (if (x =? fdir)%nat then 1 else 0) + (if (x =? tdir)%nat then 1 else 0)
      else nlink (node s x)) (node s x))).
  { intros x. assert (E1 : exists t, node s2 x = set_mtime t (node s1 x)).
    { unfold s2. rewrite !node_upd by (rewrite ?length_upd; lia).
      destruct (x =? fdir)%nat; [by exists (now c); destruct (x =? tdir)%nat|].
      destruct (x =? tdir)%nat; [by exists (now c)|]. exists (mtime (node s1 x)). by destruct (node s1 x). }
    destruct E1 as [t ->]. exists t. f_equal. unfold s1. destruct (is_dir s fnode); cbn [andb]; [|by destruct (node s x) eqn:En'; unfold s0; rewrite node_dents, En'].
    destruct (Nat.eqb_spec fdir tdir) as [Hft|Hft]; cbn [negb]; [by unfold s0; rewrite node_dents; destruct (node s x)|].
    rewrite !node_upd by (rewrite ?length_upd; cbn; lia). unfold s0. rewrite node_dents.
    destruct (Nat.eqb_spec x tdir) as [->|]; [rewrite (proj2 (Nat.eqb_neq tdir fdir)) by congruence; unfold inc_nlink; rewrite u32_small by lia; f_equal; lia|].
    destruct (Nat.eqb_spec x fdir) as [->|]; [rewrite dec_small by done; f_equal; lia|]. rewrite Z.sub_0_r, Z.add_0_r. by destruct (node s x). }
  assert (Hd2 : dents s2 = dents s0 /\ files s2 = files s /\ length (nodes s2) = TMP_NODES).
  { unfold s2. rewrite !length_upd. split; [|split; [|done]]; unfold s1; by destruct (_ && _). }
  destruct Hd2 as (E1 & E2 & E3).
  assert (Hok2 : names_ok s2).
  { split_and!; [done|rewrite E1; cbn; by rewrite length_alter|by rewrite E2|]. rewrite E1, E2.
    apply (tree_ok_ext (used s) (is_dir s) (fun x => nlink (node s2 x)) (fun x => opens (node s x))).
    - apply (tree_move _ _ (fun x => nlink (node s x)) _ _ _ j d tdir tname T Hj Hl); auto.
      + by split.
      + intros k e Hk _ Ee. by apply (entry_None s tdir tname Hno k e).
      + by rewrite Em.
      + intros x _. destruct (Hnode x) as [t ->]. rewrite Ed, Em. done.
    - intros x. unfold used. by destruct (Hnode x) as [t ->].
    - intros x _. unfold is_dir. destruct (Hnode x) as [t ->]. done. }
  exists 0, s2. split; [done|]. split; [split; [done|]|].
  - do 2 (apply heap_touch; [done|]). unfold s1. destruct (_ && _); repeat (apply heap_touch; [done|]); by apply heap_dents.
  - split; [done|]. rewrite <- Ed, <- En, <- Em. by apply (names_move s s2 j d).
Qed.
Lemma below_less (ds ds' : list tdent) n x :
  (forall j e, ds' !! j = Some e -> live e = true -> ds !! j = Some e) -> below ds' n x -> below ds n x.
Proof using Type. intros Hs. induction 1 as [|j e Hj Hl _ IH]; [constructor|]. eapply below_step; [by apply Hs|done|done]. Qed.

(** replace_target takes the target's name away; the rest of the tree stays. *)
Lemma replace_ok base lost (s : tmpfs) tdir tname tn j d :
  fs_ok base lost s -> dent_find tdir tname s = Some j -> dents s !! j = Some d -> live d = true ->
  d_dir d = tdir -> d_name d = tname -> d_node d = tn -> is_dir s tn && has_names tn s = false ->
  exists s', replace_target tdir tn tname s = Some s' /\ fs_ok base lost s' /\ names_put s s' tdir tname None /\
    dents s' = alter (fun e => mk_tdent 0 (d_node e) (d_name e)) j (dents s) /\
    (forall x, x <> tn -> used s' x = used s x /\ is_dir s' x = is_dir s x).
Proof using H.
  intros Hok Hf Hj Hl Ed En Em Hemp. unfold replace_target.
  assert (He : is_dir s (d_node d) = true -> forall k e, dents s !! k = Some e -> d_dir e <> d_node d).
  { rewrite Em. intros Hd. rewrite Hd in Hemp. by apply no_names. }
  pose proof (entry_apart s j d (proj1 Hok) Hj Hl He) as Hne. rewrite Ed, Em in Hne.
  set (s0 := set_dents (alter (fun e => mk_tdent 0 (d_node e) (d_name e)) j (dents s)) s).
  destruct (take_counted base lost s s0 j d Hok Hj Hl He) as (A1 & A2 & A3 & A4 & A5); try done; [by apply heap_dents, Hok|].
  set (sc := if is_dir s tn then _ else _).
  assert (Ec : clear_dent (dent_find tdir tname sc) sc = Some (counted_out d (is_dir s (d_node d)) s0)).
  { assert (Ef : dent_find tdir tname sc = Some j) by (rewrite <- Hf; unfold sc; by destruct (is_dir s tn)).
    rewrite Ef. cbn [clear_dent]. f_equal. unfold sc, counted_out. rewrite Em, Ed. destruct (is_dir s tn); [|done].
    unfold s0, upd_node, set_dents, set_nodes. cbn. f_equal. by apply list_alter_commute. }
  rewrite Ec. cbn [mbind option_bind]. eexists. split; [reflexivity|]. rewrite <- Em, <- Ed, <- En.
  split; [done|]. split; [done|]. split; [done|]. intros x Hx.
  pose proof Hok as [(L1 & _ & _ & T) _]. destruct (ok_entry T j d Hj Hl) as (Du & _ & Nu & _).
  pose proof (ok_bound T _ Du). pose proof (ok_bound T _ Nu).
  assert (Ex : node (counted_out d (is_dir s (d_node d)) s0) x = node s x \/
               node (counted_out d (is_dir s (d_node d)) s0) x = dec_nlink (node s x)).
  { unfold counted_out. destruct (is_dir s (d_node d)); rewrite !node_upd by (rewrite ?length_upd; cbn; lia);
      rewrite (proj2 (Nat.eqb_neq x (d_node d))) by done; [|by left]. by destruct (x =? d_dir d)%nat; [right|left]. }
  assert (Q : forall y y' : tmpfs, node y' x = node y x \/ node y' x = dec_nlink (node y x) ->
                used y' x = used y x /\ is_dir y' x = is_dir y x)
    by (intros y y'; unfold used, is_dir; by intros [-> | ->]).
  apply Q. by rewrite A5.
Qed.

Definition rename_effect (c : ctx) (s : tmpfs) (from to : Z + nat * list Z * option nat) (r : Z) (s' : tmpfs) : Prop :=
  match from, to with
  | inl e, _ => r = e /\ s' = s
  | inr (_, _, None), _ => r = - ENOENT /\ s' = s
  | inr (fdir, fname, Some n), to =>
      if (fdir =? ROOT)%nat then r = - EBUSY /\ s' = s
      else
        match to with
        | inl e => r = e /\ s' = s
        | inr (tdir, tname, t) =>
            let kind := match t with Some tn => negb (Bool.eqb (is_dir s tn) (is_dir s n)) | None => false end in
            let full := match t with Some tn => is_dir s tn && has_names tn s | None => false end in
            let taken := may_take c s fdir n in
            let free := match t with Some tn => may_take c s tdir tn | None => true end in
            if (tdir =? ROOT)%nat then r = - EBUSY /\ s' = s
            else if bool_decide (t = Some n) then r = 0 /\ s' = s
            else
              is_dir s n = true /\ below (dents s) n tdir /\ r = - EINVAL /\ s' = s \/
              ~ (is_dir s n = true /\ below (dents s) n tdir) /\
              if negb taken then r = - EPERM /\ s' = s
              else if kind then r = (if is_dir s n then - ENOTDIR else - EISDIR) /\ s' = s
              else if negb free then r = - EPERM /\ s' = s
              else if full then r = - ENOTEMPTY /\ s' = s
              else if NAME_MAX <? Z.of_nat (length tname) then r = - ENAMETOOLONG /\ s' = s
              else r = 0 /\ names_moved s s' fdir fname tdir tname n
        end
  end.
(** The target out of the way, then the name moved. *)
Lemma replace_move_ok base lost (s : tmpfs) c fdir fname n j d tdir tname tn jt dt :
  fs_ok base lost s ->
  dents s !! j = Some d -> live d = true -> d_dir d = fdir -> d_name d = fname -> d_node d = n -> used s fdir = true ->
  dent_find tdir tname s = Some jt -> dents s !! jt = Some dt -> live dt = true ->
  d_dir dt = tdir -> d_name dt = tname -> d_node dt = tn -> used s tdir = true -> is_dir s tdir = true ->
  is_dir s tn && has_names tn s = false -> n <> tn -> ~ (is_dir s n = true /\ below (dents s) n tdir) ->
  exists s', (s1 ← replace_target tdir tn tname s; move_name c fdir tdir n fname tname s1) = Some (0, s') /\
    fs_ok base lost s' /\ names_moved s s' fdir fname tdir tname n /\ Z.of_nat (length tname) <= NAME_MAX.
Proof using H.
  intros Hok Hj Hl Ed En Em Du Hft Hjt Hlt Edt Ent Emt Tu Td Eh Hntn Hnb.
  destruct (replace_ok base lost s tdir tname tn jt dt) as (s1 & R1 & R2 & R3 & R4 & R5); auto.
  rewrite R1. cbn [mbind option_bind].
  assert (Htd : tdir <> tn).
  { intros ->. rewrite Td in Eh. cbn in Eh. by apply (no_names s tn Eh jt dt). }
  assert (Hjj : j <> jt) by congruence.
  assert (Hj1 : dents s1 !! j = Some d) by (by rewrite R4, list_lookup_alter_ne).
  assert (Hfdir : (0 < fdir)%nat) by (pose proof (ok_bound (names_tree s (proj1 Hok)) fdir Du); lia).
  assert (Hd1 : dent_find fdir fname s1 = Some j).
  { destruct (dent_find fdir fname s1) as [k|] eqn:Hk.
    - apply dent_find_Some in Hk as (e & Hk & E1 & E2). f_equal.
      apply (ok_once (names_tree s1 (proj1 R2)) k j e d); try congruence. apply live_true. lia.
    - rewrite dent_find_None in Hk. by destruct (Hk j d Hj1 Ed). }
  destruct (R5 tdir Htd) as [V1 V2]. destruct (R5 n Hntn) as [V3 V4].
  assert (Hs : entry s1 tdir tname = None).
  { rewrite R3 by (pose proof (ok_bound (names_tree s (proj1 Hok)) tdir Tu); lia). by rewrite bool_decide_eq_true_2. }
  assert (Hplain : plain tname).
  { destruct (ok_entry (names_tree s (proj1 Hok)) jt dt Hjt Hlt) as (_ & _ & _ & _ & [Hp _]). by rewrite <- Ent. }
  assert (Hshort : Z.of_nat (length tname) <= NAME_MAX).
  { destruct (ok_entry (names_tree s (proj1 Hok)) jt dt Hjt Hlt) as (_ & _ & _ & _ & [_ Hp]). by rewrite <- Ent. }
  destruct (move_ok base lost s1 c fdir fname tdir tname n j d R2 Hd1 Hj1 Hl Ed En Em
    ltac:(congruence) ltac:(congruence) Hplain Hs) as (r & s' & A1 & A2 & A3).
  { rewrite V4. intros U1 U2. apply Hnb. split; [done|]. revert U2. apply below_less. intros k e Hk Hle. rewrite R4 in Hk.
    destruct (decide (k = jt)) as [->|Hne]; [|by rewrite list_lookup_alter_ne in Hk].
    rewrite list_lookup_alter_eq, Hjt in Hk. injection Hk as <-. done. }
  rewrite (proj2 (Z.ltb_ge _ _) Hshort) in *. destruct A3 as [-> A3]. exists s'. split; [done|]. split; [done|]. split; [|done].
  intros x nm Hx. rewrite A3 by done. case_bool_decide; [done|]. case_bool_decide; [done|].
  rewrite R3 by done. by rewrite bool_decide_eq_false_2.
Qed.

Lemma rename_ok base lost (s : tmpfs) c from to : fs_ok base lost s -> plain_name from -> plain_name to ->
  exists r s', t_rename pmm_total c from to s = Some (r, s') /\ fs_ok base lost s' /\
    rename_effect c s (target c from s) (target c to s) r s'.
Proof using All.
  intros Hok Pf Pt. destruct (target_facts pmm_total base lost s c from Hok) as [Ef _].
  destruct (target_facts pmm_total base lost s c to Hok) as [Et Ft]. unfold t_rename. rewrite Ef. cbn [fst].
  destruct (target c from s) as [e|[[fdir fname] [n|]]] eqn:Etf; [by exists e, s|..]; [|by exists (- ENOENT), s].
  cbn [rename_effect]. destruct (fdir =? ROOT)%nat; [by exists (- EBUSY), s|]. rewrite Et. cbn [fst].
  destruct (target c to s) as [e|[[tdir tname] t]] eqn:Ett; [by exists e, s|].
  destruct (tdir =? ROOT)%nat; [by exists (- EBUSY), s|]. case_bool_decide as Bt; [by exists 0, s|].
  destruct (plain_target base lost s c from fdir fname (Some n) Hok Pf Etf) as [D1 D2].
  destruct (target_entry base lost s c from fdir fname n Hok Etf D1 D2) as (j & d & Hf & Hj & Hl & Ed & En & Em & Nu & Du & Dd).
  destruct (plain_target base lost s c to tdir tname t Hok Pt Ett) as [D3 D4].
  destruct (Ft tdir tname t eq_refl) as (Tu & Td & Tc & T4 & T5 & T6).
  pose proof (is_under_enough _ _ _ _ _ _ (names_tree s (proj1 Hok)) tdir n Tu Td) as Hun.
  destruct (is_dir s n && is_under TMP_NODES tdir n (dents s)) eqn:Eu.
  { apply andb_true_iff in Eu as [U1 U2%Hun]. exists (- EINVAL), s. split; [done|]. split; [done|]. by left. }
  assert (Hnb : ~ (is_dir s n = true /\ below (dents s) n tdir))
    by (intros [U1 U2%Hun]; rewrite U1, U2 in Eu; done).
  rewrite !sticky_may. destruct (may_take c s fdir n); cbn [negb];
    [change (0 <? 0) with false; cbv iota|by exists (- EPERM), s; split; [done|split; [done|right]]].
  destruct t as [tn|].
  2: { destruct (T6 eq_refl) as [T7 T8].
       destruct (move_ok base lost s c fdir fname tdir tname n j d Hok Hf Hj Hl Ed En Em Tu Td T7 T8)
         as (r & s' & A1 & A2 & A3); [by intros U1 U2; apply Hnb|].
       exists r, s'. split; [done|]. split; [done|]. by right. }
  destruct (negb (Bool.eqb (is_dir s tn) (is_dir s n))) eqn:Ek.
  { eexists _, s. split; [reflexivity|]. split; [done|]. right. split; [done|]. split; [|done].
    by destruct (is_dir s tn), (is_dir s n). }
  rewrite sticky_may. destruct (may_take c s tdir tn); cbn [negb];
    [change (0 <? 0) with false; cbv iota|by exists (- EPERM), s; split; [done|split; [done|right]]].
  destruct (is_dir s tn && has_names tn s) eqn:Eh; [by exists (- ENOTEMPTY), s; split; [done|split; [done|right]]|].
  destruct (target_entry base lost s c to tdir tname tn Hok Ett D3 D4) as (jt & dt & Hft & Hjt & Hlt & Edt & Ent & Emt & _).
  destruct (replace_move_ok base lost s c fdir fname n j d tdir tname tn jt dt) as (s' & A1 & A2 & A3 & A4); try done; try congruence.
  exists 0, s'. split; [done|]. split; [done|]. right. split; [done|]. by rewrite (proj2 (Z.ltb_ge _ _) A4).
Qed.
Lemma rename_dotted base lost (s : tmpfs) c from to : fs_ok base lost s -> ~ (plain_name from /\ plain_name to) ->
  t_rename pmm_total c from to s = None \/
  exists r, t_rename pmm_total c from to s = Some (r, s) /\ rename_effect c s (target c from s) (target c to s) r s.
Proof using All.
  intros Hok Hp. destruct (target_facts pmm_total base lost s c from Hok) as [Ef Ff].
  destruct (target_facts pmm_total base lost s c to Hok) as [Et Ft]. unfold t_rename. rewrite Ef. cbn [fst].
  destruct (target c from s) as [e|[[fdir fname] [n|]]] eqn:Etf; [right; by exists e|..]; [|right; by exists (- ENOENT)].
  cbn [rename_effect]. destruct (fdir =? ROOT)%nat; [right; by exists (- EBUSY)|]. rewrite Et. cbn [fst].
  destruct (target c to s) as [e|[[tdir tname] t]] eqn:Ett; [right; by exists e|].
  destruct (tdir =? ROOT)%nat; [right; by exists (- EBUSY)|]. case_bool_decide as Bt; [right; by exists 0|].
  destruct (Ff fdir fname (Some n) eq_refl) as (Fu & _). destruct (Ft tdir tname t eq_refl) as (Tu & Td & _).
  pose proof (names_tree s (proj1 Hok)) as T. pose proof (ok_bound T fdir Fu) as Hb.
  pose proof (is_under_enough _ _ _ _ _ _ T tdir n Tu Td) as Hun.
  destruct (is_dir s n && is_under TMP_NODES tdir n (dents s)) eqn:Eu.
  { apply andb_true_iff in Eu as [U1 U2%Hun]. right. exists (- EINVAL). split; [done|]. by left. }
  assert (Hnb : ~ (is_dir s n = true /\ below (dents s) n tdir))
    by (intros [U1 U2%Hun]; rewrite U1, U2 in Eu; done).
  rewrite !sticky_may. destruct (may_take c s fdir n); cbn [negb];
    [change (0 <? 0) with false; cbv iota|by right; exists (- EPERM); split; [done|right]].
  destruct t as [tn|].
  2: { assert (Pf : ~ plain_name from).
       { intros Pf. apply Hp. split; [done|]. destruct (decide (plain_name to)) as [|Pt]; [done|].
         by destruct (dotted_target base lost s c to tdir tname None Hok Pt Ett) as (_ & _ & ?). }
       destruct (dotted_target base lost s c from fdir fname (Some n) Hok Pf Etf) as (_ & Hf & _).
       unfold move_name. rewrite Hf. destruct (NAME_MAX <? Z.of_nat (length tname)) eqn:El; [|by left].
       right. exists (- ENAMETOOLONG). split; [done|]. right. split; [done|]. done. }
  destruct (negb (Bool.eqb (is_dir s tn) (is_dir s n))) eqn:Ek.
  { right. eexists. split; [reflexivity|]. right. split; [done|]. split; [|done].
    by destruct (is_dir s tn), (is_dir s n). }
  rewrite sticky_may. destruct (may_take c s tdir tn); cbn [negb];
    [change (0 <? 0) with false; cbv iota|by right; exists (- EPERM); split; [done|right]].
  destruct (is_dir s tn && has_names tn s) eqn:Eh; [by right; exists (- ENOTEMPTY); split; [done|right]|]. left.
  destruct (decide (plain_name to)) as [Pt|Pt].
  - destruct (plain_target base lost s c to tdir tname (Some tn) Hok Pt Ett) as [D3 D4].
    destruct (target_entry base lost s c to tdir tname tn Hok Ett D3 D4) as (jt & dt & Hft & Hjt & Hlt & Edt & Ent & Emt & _).
    destruct (replace_ok base lost s tdir tname tn jt dt Hok Hft Hjt Hlt Edt Ent Emt Eh) as (s1 & -> & _ & _ & R4 & _).
    cbn [mbind option_bind]. unfold move_name.
    destruct (ok_entry T jt dt Hjt Hlt) as (_ & _ & _ & _ & [_ Hshort]). rewrite Ent in Hshort.
    destruct (Z.ltb_spec NAME_MAX (Z.of_nat (length tname))); [unfold NAME_MAX in *; lia|]. assert (Hf1 : dent_find fdir fname s1 = None); [|by rewrite Hf1].
    destruct (dotted_target base lost s c from fdir fname (Some n) Hok ltac:(tauto) Etf) as (_ & Hf & _).
    rewrite dent_find_None in Hf. apply dent_find_None. intros k e Hk E1 E2. rewrite R4 in Hk.
    destruct (decide (k = jt)) as [->|Hne]; [|rewrite list_lookup_alter_ne in Hk by done; by eapply Hf].
    rewrite list_lookup_alter_eq, Hjt in Hk. injection Hk as <-. cbn in E1. lia.
  - destruct (dotted_target base lost s c to tdir tname (Some tn) Hok Pt Ett) as (_ & Hf & _).
    unfold replace_target. set (sc := if is_dir s tn then _ else _).
    assert (Hfc : dent_find tdir tname sc = None) by (rewrite <- Hf; unfold sc; by destruct (is_dir s tn)).
    by rewrite Hfc.
Qed.
(** ** Symbolic links *)

(** A node marked free without its pages being given back: they are lost. *)
Lemma heap_leak base lost (s : tmpfs) n : heap_ok base lost s -> (n < length (nodes s))%nat -> used s n = true ->
  (forall k g, files s !! k = Some (Some g) -> f_node g <> n) ->
  heap_ok base (tree (mem (heap s)) (top (node s n)) ++ lost) (upd_node n (set_nused false) s).
Proof using H.
  intros [H1 H2 H3 H4] Hn Hu Hno. pose proof (node_lookup s n Hn) as Hl.
  assert (En : nodes (upd_node n (set_nused false) s) = <[n := set_nused false (node s n)]> (nodes s)) by (by apply alter_insert).
  assert (Hp : all_pages (upd_node n (set_nused false) s) ++ tree (mem (heap s)) (top (node s n)) ++ lost ≡ₚ all_pages s ++ lost).
  { rewrite app_assoc. apply Permutation_app_tail. unfold all_pages. cbn [heap upd_node set_nodes]. rewrite En.
    rewrite (pages_split _ (nodes s) n _ Hl), (pages_split _ (<[n := _]> (nodes s)) n (set_nused false (node s n)))
      by (by apply list_lookup_insert_eq).
    rewrite others_insert. unfold node_pages at 1 2. unfold used in Hu. rewrite Hu. cbn [n_used set_nused].
    apply Permutation_app_comm. }
  constructor.
  - eapply acct_perm; [|exact H1]. by symmetry.
  - by rewrite (Permutation_length Hp).
  - intros j m. rewrite En. destruct (decide (j = n)) as [->|Hne].
    + rewrite list_lookup_insert_eq by done. by intros [= <-].
    + rewrite list_lookup_insert_ne by done. apply H3.
  - intros k g Hk. destruct (H4 k g Hk) as [B1 (m & B2 & B3)]. split; [done|]. exists m. rewrite En.
    by rewrite list_lookup_insert_ne by (specialize (Hno k g Hk); congruence).
Qed.

(** The text of a link. *)
Definition link_text (s : tmpfs) (n : nat) : list Z :=
  file_bytes (mem (heap s)) (top (node s n)) 0 (Z.to_nat (size (node s n))).

Lemma link_mode : S_ISDIR (Z.lor S_IFLNK 511) = false /\ S_ISLNK (Z.lor S_IFLNK 511) = true.
Proof using Type. done. Qed.

(** A page for the text, and the text in it. *)
Lemma text_page base lost (s : tmpfs) n x pa p :
  heap_ok base lost s -> nodes s !! n = Some (node s n) -> used s n = true -> top (node s n) = 0 -> size (node s n) = 0 ->
  page_of (node s n) 0 true (heap s) = (pa, x, p) ->
  x = set_top (top x) (node s n) /\ pa = leaf (mem p) (top x) 0 /\
  heap_ok base lost (set_heap p (upd_node n (fun _ => x) s)) /\
  forall text, pa <> 0 -> Forall (fun b => 0 <= b < 256) text -> Z.of_nat (length text) <= 4096 ->
    let p' := set_mem (store_bytes pa text (mem p)) p in
    heap_ok base lost (set_heap p' (upd_node n (fun _ => set_size (Z.of_nat (length text)) x) s)) /\
    file_bytes (mem p') (top x) 0 (length text) = text.
Proof using H.
  intros Hh Hl Hu Ht Hs Ep. unfold used in Hu. pose proof (node_acct base lost s n _ Hh Hl Hu) as Ha.
  pose proof (page_of_make base (others (mem (heap s)) (nodes s) n ++ lost) (node s n) 0 (heap s) Ha ltac:(lia)) as M.
  rewrite Ep in M. destruct M as (M1 & M2 & M3 & M4 & _). change (0 / PMM.PAGE_SIZE) with 0 in M4.
  assert (Hux : n_used x = true /\ size x = 0) by (rewrite M1; done). destruct Hux as [Hux Hsx].
  assert (Hzero : forall z, 0 <= z < 4294967296 -> fbyte (mem p) (top x) z = 0).
  { intros z Hz. rewrite M3 by done. apply (ho_nodes _ _ _ Hh n _ Hl Hu). lia. }
  split; [done|]. split; [done|]. split.
  - unfold upd_node. rewrite (alter_insert _ _ _ _ Hl). apply (heap_update base lost s n (node s n) x p Hh Hl Hu Hux M2).
    intros _. split; [lia|]. intros z Hz. apply Hzero. lia.
  - intros text Hpa Hb Hlen p'. rewrite M4 in Hpa.
    destruct (poke_spec base (others (mem (heap s)) (nodes s) n ++ lost) (top x) p 0 0 text (ev_acct _ _ _ _ _ _ M2)
                ltac:(lia) Hpa ltac:(lia) ltac:(lia) Hb) as [P1 P2].
    rewrite Z.add_0_r, <- M4 in P1. rewrite Z.add_0_r, <- M4 in P2. fold p' in P1, P2. change (0 * PMM.PAGE_SIZE + 0) with 0 in P2.
    split.
    + unfold upd_node. rewrite (alter_insert _ _ _ _ Hl).
      apply (heap_update base lost s n (node s n) (set_size (Z.of_nat (length text)) x) p' Hh Hl Hu Hux).
      * exact (evolves_trans _ _ _ _ _ _ _ _ M2 P1).
      * intros _. cbn [size set_size top]. split; [lia|]. intros z Hz. rewrite P2 by lia.
        rewrite (proj2 (Z.ltb_ge z _)) by lia. rewrite andb_false_r. apply Hzero. lia.
    + apply list_eq. intros i. destruct (decide (i < length text)%nat) as [Hi|Hi].
      * unfold file_bytes. rewrite list_lookup_fmap, lookup_seq_lt by lia. cbn [fmap option_fmap option_map].
        rewrite P2 by lia. rewrite (proj2 (Z.leb_le 0 _)), (proj2 (Z.ltb_lt _ _)) by lia. cbn [andb].
        replace (Z.to_nat _) with i by lia. by destruct (lookup_lt_is_Some_2 _ _ Hi) as [b ->].
      * rewrite !lookup_ge_None_2; [done|lia|]. rewrite length_file_bytes. lia.
Qed.
Definition symlink_effect (s : tmpfs) (text : list Z) (tg : Z + nat * list Z * option nat) (r : Z) (s' : tmpfs) : Prop :=
  if NAME_MAX <? Z.of_nat (length text) then r = - ENAMETOOLONG /\ s' = s
  else match tg with
       | inl e => r = e /\ s' = s
       | inr (dir, nm, Some _) => r = - EEXIST /\ s' = s
       | inr (dir, nm, None) =>
           r = 0 /\ (exists n, used s n = false /\ used s' n = true /\ names_put s s' dir nm (Some n) /\
                       is_link s' n = true /\ link_text s' n = text) \/
           (r = - ENOSPC \/ r = - ENAMETOOLONG) /\ same_names s s'
       end.

(** The node with its text, without a name yet. *)
Lemma text_node c n text (s s1 : tmpfs) base lost :
  heap_ok base lost s -> names_ok s -> used s n = false -> (n < TMP_NODES)%nat ->
  Forall (fun b => 0 <= b < 256) text -> Z.of_nat (length text) <= NAME_MAX ->
  s1 = set_next_ino (u32 (next_ino s + 1)) (upd_node n (fun _ =>
         mk_tnode true (u32 (TMP_INO_BASE + next_ino s)) (Z.lor S_IFLNK 511) (c_uid c) (c_gid c) 0 0 (now c) 0 0) s) ->
  let '(pa, x, p) := page_of (node s1 n) 0 true (heap s1) in
  let s2 := set_heap p (upd_node n (fun _ => x) s1) in
  let s4 := upd_node n (set_size (Z.of_nat (length text))) (set_heap (set_mem (store_bytes pa text (mem p)) p) s2) in
  (pa = 0 -> beside n s s2 /\ heap_ok base lost s2) /\
  (pa <> 0 -> beside n s s4 /\ heap_ok base lost s4 /\ mode (node s4 n) = Z.lor S_IFLNK 511 /\ link_text s4 n = text).
Proof using H.
  intros Hh Hok Hu Hn Hb Hlen E1. pose proof Hok as (L1 & _). unfold NAME_MAX in Hlen.
  set (fresh := mk_tnode true _ _ _ _ _ _ _ _ _) in E1.
  assert (Hl1 : length (nodes s1) = TMP_NODES) by (rewrite E1; cbn; by rewrite length_alter).
  assert (Hnode1 : forall y, node s1 y = if (y =? n)%nat then fresh else node s y)
    by (intros y; rewrite E1, node_ino, node_upd by lia; done).
  assert (En : node s1 n = fresh) by (by rewrite Hnode1, Nat.eqb_refl).
  assert (Hh1 : heap_ok base lost s1) by (rewrite E1; apply heap_next_ino, heap_fresh; auto; lia).
  destruct (page_of (node s1 n) 0 true (heap s1)) as [[pa x] p] eqn:Ep.
  destruct (text_page base lost s1 n x pa p Hh1 (node_lookup s1 n ltac:(lia))) as (X1 & X2 & X3 & X4);
    [unfold used; by rewrite En|by rewrite En|by rewrite En|done|].
  rewrite En in X1.
  assert (Hbes : forall (y : tnode) q (s' : tmpfs), s' = set_heap q (upd_node n (fun _ => y) s1) ->
    n_used y = true -> opens y = 0 -> beside n s s').
  { intros y q s' -> Y1 Y2. constructor.
    - cbn. rewrite length_alter. lia.
    - cbn. by rewrite E1.
    - cbn. by rewrite E1.
    - intros z Hz. change (node (upd_node n (fun _ => y) s1) z = node s z). rewrite node_upd by lia.
      rewrite (proj2 (Nat.eqb_neq z n)) by done. rewrite Hnode1. by rewrite (proj2 (Nat.eqb_neq z n)).
    - change (node (set_heap q (upd_node n (fun _ => y) s1)) n) with (node (upd_node n (fun _ => y) s1) n).
      rewrite node_upd, Nat.eqb_refl by lia. done. }
  intros s2 s4. split.
  - intros _. split; [|done]. apply (Hbes x p); [done|by rewrite X1|by rewrite X1].
  - intros Hpa. destruct (X4 text Hpa Hb ltac:(lia)) as [X5 X6]. set (p' := set_mem _ p) in *.
    assert (E4 : s4 = set_heap p' (upd_node n (fun _ => set_size (Z.of_nat (length text)) x) s1)).
    { unfold s4, s2, upd_node, set_heap, set_nodes. cbn. f_equal. apply list_alter_alter. }
    assert (Ex : node s4 n = set_size (Z.of_nat (length text)) x).
    { rewrite E4. change (node (upd_node n (fun _ => set_size (Z.of_nat (length text)) x) s1) n = set_size (Z.of_nat (length text)) x).
      rewrite node_upd by lia. by rewrite Nat.eqb_refl. }
    split; [apply (Hbes (set_size (Z.of_nat (length text)) x) p'); [done|by rewrite X1|by rewrite X1]|].
    split; [by rewrite E4|]. split; [by rewrite Ex, X1|].
    unfold link_text. rewrite Ex. cbn [size set_size top]. rewrite Nat2Z.id. rewrite E4. exact X6.
Qed.
Lemma symlink_ok base lost (s : tmpfs) c text path : fs_ok base lost s -> Forall (fun b => 0 <= b < 256) text ->
  let '(r, s') := t_symlink pmm_total c text path s in
  (exists more, fs_ok base (more ++ lost) s' /\ (r <> - ENOSPC -> more = [])) /\
  symlink_effect s text (target c path s) r s'.
Proof using All.
  intros Hok Hb. unfold t_symlink, symlink_effect. destruct (Z.ltb_spec NAME_MAX (Z.of_nat (length text))) as [|Hlen].
  { split; [by exists []|done]. }
  destruct (target_facts pmm_total base lost s c path Hok) as [E F]. rewrite E. cbn [fst].
  destruct (target c path s) as [e|[[dir nm] [n0|]]]; [by split; [exists []|]|by split; [exists []|]|].
  destruct (F dir nm None eq_refl) as (F1 & F2 & _ & _ & _ & F6). destruct (F6 eq_refl) as [F7 F8].
  pose proof Hok as [Hn Hh]. pose proof Hn as (L1 & L2 & L3 & T).
  pose proof (node_alloc_spec c (Z.lor S_IFLNK 511) s L1) as A.
  destruct (node_alloc c (Z.lor S_IFLNK 511) s) as [[r|n] s1];
    [destruct A as [-> ->]; split; [by exists []|right]; by split; [left|]|].
  destruct A as (A1 & A2 & A3). pose proof (text_node c n text s s1 base lost Hh Hn A2 ltac:(lia) Hb Hlen A3) as N.
  destruct (page_of (node s1 n) 0 true (heap s1)) as [[pa x] p]. cbv zeta in N. destruct N as [N0 N1].
  assert (Hno : forall k g, files s !! k = Some (Some g) -> f_node g <> n) by (by eapply unused_not_open).
  destruct (Z.eqb_spec pa 0) as [Epa|Epa].
  - destruct (N0 Epa) as [Hbs Hh2]. set (s2 := set_heap p _) in *. clearbody s2. pose proof Hbs as [B1 B2 B3 B4 [B5 B6]].
    split; [|right; split; [by left|]; by apply same_dents].
    exists (tree (mem (heap s2)) (top (node s2 n))). split; [|done]. split.
    + apply (undo_names s _ n); try done; [by rewrite length_upd| |].
      * intros y Hy. rewrite node_upd by lia. rewrite (proj2 (Nat.eqb_neq y n)) by done. by apply B4.
      * unfold used. rewrite node_upd by lia. by rewrite Nat.eqb_refl.
    + apply heap_leak; [done|lia|done|by rewrite B3].
  - destruct (N1 Epa) as (Hbs & Hh4 & Hm & Htx). cbv zeta.
    match type of Hbs with beside _ _ ?z => set (s4 := z) in * end.
    match goal with |- context [dent_add c dir nm n ?y] => change y with s4 end. clearbody s4. pose proof Hbs as [B1 B2 B3 B4 [B5 B6]].
    pose proof (dent_add_spec c dir nm n s4) as D. destruct (dent_add c dir nm n s4) as [r s5].
    destruct D as [[D1 ->]|(D1 & Dl & i & d0 & D2 & D3 & ->)].
    + assert (Hr : r < 0) by (destruct D1 as [-> | ->]; unfold ENAMETOOLONG, ENOSPC; lia). rewrite (proj2 (Z.ltb_lt r 0) Hr).
      destruct (heap_release base lost s4 n Hh4 ltac:(lia) B5) as (R1 & R2 & R3 & R4 & R5); [by rewrite B3|].
      split; [|right; split; [tauto|]; apply same_dents; by rewrite R2]. exists []. split; [|done]. split; [|done].
      apply (undo_names s _ n); try congruence.
      * intros y Hy. rewrite R5, (proj2 (Nat.eqb_neq y n)) by done. by apply B4.
      * unfold used. by rewrite R5, Nat.eqb_refl.
    + rewrite (proj2 (Z.ltb_ge r 0)) by lia. rewrite B2 in D2.
      destruct (create_names base lost s s4 n false dir nm i d0 (now c) Hn Hbs A2 A1 F1 F2 (conj F7 Dl) F8 D2 D3)
        as (C1 & C2 & C3 & C4); [unfold is_dir; rewrite Hm; done|]. specialize (C3 Hh4). cbv zeta iota in C1, C2, C3, C4.
      rewrite B2 in C1, C2, C3, C4. rewrite B2. set (s6 := upd_node n (set_nlink 1) _) in *.
      assert (En : node s6 n = set_nlink 1 (node s4 n)).
      { pose proof (ok_bound T dir F1). assert (n <> dir) by congruence. unfold s6.
        rewrite !node_upd by (rewrite ?length_upd; cbn; lia). rewrite Nat.eqb_refl. by rewrite (proj2 (Nat.eqb_neq n dir)). }
      split; [exists []; by split|]. left. split; [done|]. exists n. split; [done|].
      split; [unfold used; by rewrite En|]. split; [done|]. split; [unfold is_link; rewrite En; cbn; rewrite Hm; done|].
      unfold link_text in *. by rewrite En.
Qed.
(** Reading a link. *)
Lemma text_read (s : tmpfs) n : 0 <= size (node s n) <= 4096 ->
  let '(pa, _, _) := page_of (node s n) 0 false (heap s) in
  pa <> 0 -> page_bytes pa (Z.to_nat (size (node s n))) (mem (heap s)) = link_text s n.
Proof using H.
  intros Hs. rewrite page_of_look. change (0 / PMM.PAGE_SIZE) with 0. intros Hp. unfold link_text.
  rewrite <- (page_chunk _ _ 0 (size (node s n))) by (change PMM.PAGE_SIZE with 4096; change (0 mod 4096) with 0; lia).
  change (0 / PMM.PAGE_SIZE) with 0. change (0 mod PMM.PAGE_SIZE) with 0. rewrite Z.add_0_r.
  by rewrite (proj2 (Z.eqb_neq _ 0)).
Qed.

(** ** Open files, times and attributes *)

Lemma fop_names base lost (s : tmpfs) k f o : fs_ok base lost s -> files s !! k = Some (Some f) -> fop_ok o ->
  exists r bs s', run_fop k o s = Some (r, bs, s') /\ fs_ok base lost s' /\ dents s' = dents s.
Proof using H.
  intros [Hn Hh] Hk Ho. pose proof Hn as (L1 & L2 & L3 & T).
  set (as_ := (fun n => mk_afile (size n) (fun z => if z <? size n then fbyte (mem (heap s)) (top n) z else 0)) <$> nodes s).
  assert (Hv : views s as_).
  { intros i n Hi Hu. eexists. unfold as_. rewrite list_lookup_fmap, Hi. split; [reflexivity|].
    destruct (ho_nodes _ _ _ Hh i n Hi Hu) as [N1 N2]. split.
    - split; [done|]. intros z Hz. cbn. destruct (Z.ltb_spec z (size n)); [done|]. apply N2. lia.
    - split; [done|]. intros z Hz. cbn in *. by rewrite (proj2 (Z.ltb_ge z (size n))) by lia. }
  destruct (ho_files _ _ _ Hh k f Hk) as [_ (n & Hl & Hu)]. destruct (Hv _ n Hl Hu) as (a & Ha & _).
  destruct (run_fop_ok base lost s as_ k f a o Hh Hv Hk Ha Ho) as (mv & r & bs & s' & E & S).
  destruct (spec_fop o _ mv (f_pos f) a) as [[[r' bs'] a'] pos]. destruct S as (_ & _ & Hh' & _ & _ & Ed & _).
  exists r, bs, s'. split; [done|]. split; [split; [|done]|done].
  destruct (run_fop_alike k o s r bs s' E) as (f0 & n0 & f' & n' & R1 & R2 & R3 & (t & sz & m & R4) & R5 & R6 & R7).
  assert (Hnode : forall x, exists t sz m, node s' x = set_mtime m (set_size sz (set_top t (node s x)))).
  { intros x. unfold node. rewrite R5. destruct (decide (x = f_node f0)) as [->|Hne].
    - rewrite list_lookup_insert_eq, R2 by (by eapply lookup_lt_Some). exists t, sz, m. by rewrite R4.
    - rewrite list_lookup_insert_ne by done. exists (top (node s x)), (size (node s x)), (mtime (node s x)).
      unfold node. by destruct (default no_node (nodes s !! x)). }
  split_and!; [by rewrite R5, length_insert|by rewrite R7|by rewrite R6, length_insert|]. rewrite R7, R6.
  apply (tree_ok_ext (used s) (is_dir s) (fun x => nlink (node s x)) (fun x => opens (node s x))).
  - by apply (tree_reseek _ _ _ _ _ _ T k f0 f').
  - intros x. unfold used. by destruct (Hnode x) as (? & ? & ? & ->).
  - intros x _. unfold is_dir. by destruct (Hnode x) as (? & ? & ? & ->).
Qed.

Lemma touched_ok base lost (s : tmpfs) n f : fs_ok base lost s -> used s n = true -> touches f ->
  (forall x, S_ISDIR (mode (f x)) = S_ISDIR (mode x) /\ nlink (f x) = nlink x /\ opens (f x) = opens x) ->
  fs_ok base lost (upd_node n f s) /\ dents (upd_node n f s) = dents s.
Proof using H.
  intros [Hn Hh] Hu Ht Hf. split; [|done]. split; [|by apply heap_touch].
  pose proof Hn as (L1 & _ & _ & T). pose proof (ok_bound T n Hu).
  apply (names_keep s); try done; [by rewrite length_upd|..].
  - intros x. rewrite node_upd by lia. destruct (x =? n)%nat; [apply Ht|done].
  - intros x _. unfold is_dir. rewrite node_upd by lia. destruct (x =? n)%nat; [apply Hf|done].
Qed.
Lemma time_ok base lost (s : tmpfs) n t : fs_ok base lost s -> used s n = true ->
  fs_ok base lost (set_time n t s) /\ dents (set_time n t s) = dents s.
Proof using H. intros Hok Hu. unfold set_time. case_match; [|done]. by apply touched_ok. Qed.
Lemma attr_ok base lost (s : tmpfs) n mask m u g : fs_ok base lost s -> used s n = true ->
  fs_ok base lost (set_attr n mask m u g s) /\ dents (set_attr n mask m u g s) = dents s.
Proof using H.
  intros Hok Hu. apply touched_ok; try done. intros x. split; [|done]. cbn. destruct (has mask ATTR_MODE); [|done].
  unfold S_ISDIR. rewrite Z.land_lor_distr_l, <- !Z.land_assoc. change (Z.land 4095 S_IFMT) with 0.
  change (Z.land S_IFMT S_IFMT) with S_IFMT. by rewrite Z.land_0_r, Z.lor_0_r.
Qed.
(** ** The start, and whole runs *)

(** The tables before the first call: zeroed memory, and [nf] files the kernel can have open. *)
Definition boot (w : W) (nf : nat) : tmpfs :=
  mk_tmpfs (replicate TMP_NODES no_node) (replicate TMP_DENTS (mk_tdent 0 0 [])) 2 (replicate nf None) (mk_pool w 0 0).

Definition tops : list tdent := [mk_tdent ROOT 2 str_tmp; mk_tdent ROOT 3 str_shm].
Lemma boot_dents c w nf : dents (init_once pmm_total c (boot w nf)) = tops ++ replicate 1022 (mk_tdent 0 0 []).
Proof using Type. done. Qed.
Lemma boot_nodes c w nf : exists a b d, nodes (init_once pmm_total c (boot w nf)) = [no_node; a; b; d] ++ replicate 1020 no_node /\
  Forall (fun n => n_used n = true /\ S_ISDIR (mode n) = true /\ opens n = 0 /\ top n = 0 /\ size n = 0) [a; b; d] /\
  nlink a = 4 /\ nlink b = 2 /\ nlink d = 2.
Proof using Type. do 3 eexists. split; [reflexivity|]. by repeat constructor. Qed.

Lemma top_names : name_ok str_tmp /\ name_ok str_shm.
Proof using Type.
  unfold name_ok, plain, SLASH, str_tmp, str_shm. split; (split; [split_and!; try done|done]);
    rewrite !elem_of_cons, elem_of_nil; intros [?|[?|[?|?]]]; done.
Qed.
Lemma init_ok c w nf : pg_ok w -> (nf <= 256)%nat -> fs_ok (pg_held w) [] (init_once pmm_total c (boot w nf)).
Proof using Type.
  intros Hw Hnf. destruct (boot_nodes c w nf) as (a & b & d & En & Hall & La & Lb & Ld).
  pose proof (boot_dents c w nf) as Ed.
  assert (Ef : files (init_once pmm_total c (boot w nf)) = replicate nf None) by done.
  assert (Eh : mem (heap (init_once pmm_total c (boot w nf))) = w /\ pages_used (heap (init_once pmm_total c (boot w nf))) = 0) by done.
  set (s := init_once pmm_total c (boot w nf)) in *. clearbody s.
  inversion_clear Hall as [|? ? Ha H1]. inversion_clear H1 as [|? ? Hb H2]. inversion_clear H2 as [|? ? Hd _].
  destruct Ha as (A1 & A2 & A3 & A4 & A5), Hb as (B1 & B2 & B3 & B4 & B5), Hd as (D1 & D2 & D3 & D4 & D5).
  assert (Hlive : forall i e, dents s !! i = Some e -> live e = true -> (i, e) = (0%nat, mk_tdent ROOT 2 str_tmp) \/ (i, e) = (1%nat, mk_tdent ROOT 3 str_shm)).
  { intros [|[|i]] e; rewrite Ed; cbn [tops app lookup list_lookup]; [intros [= <-]; by left|intros [= <-]; by right|].
    intros [-> _]%lookup_replicate_1. done. }
  assert (Hnode : forall x, node s x = if (x =? 1)%nat then a else if (x =? 2)%nat then b else if (x =? 3)%nat then d else no_node).
  { intros [|[|[|[|x]]]]; unfold node; rewrite En; cbn [app lookup list_lookup]; try done.
    destruct (replicate 1020 no_node !! x) as [y|] eqn:Ex; [|done]. by apply lookup_replicate_1 in Ex as [-> _]. }
  assert (Hused : forall x, used s x = true -> (x = 1 \/ x = 2 \/ x = 3)%nat).
  { intros x. unfold used. rewrite Hnode. destruct (Nat.eqb_spec x 1), (Nat.eqb_spec x 2), (Nat.eqb_spec x 3); auto. done. }
  assert (Hcount : forall P, P (mk_tdent 0 0 []) = false -> count_if P (dents s) = count_if P tops).
  { intros P HP. rewrite Ed. unfold tops. cbn [app]. rewrite !count_if_cons.
    replace (count_if P (replicate 1022 _)) with 0%nat; [done|]. symmetry.
    apply count_if_zero. intros i e [-> _]%lookup_replicate_1. done. }
  assert (HU : forall x, (x = 1 \/ x = 2 \/ x = 3)%nat -> used s x = true /\ is_dir s x = true /\ opens (node s x) = 0).
  { intros x Hx. unfold used, is_dir. rewrite Hnode. by destruct Hx as [->|[->| ->]]; cbn [Nat.eqb]. }
  assert (Hup : forall i e, dents s !! i = Some e -> live e = true -> up (dents s) (d_node e)).
  { intros i e Hi Hl. apply (up_step _ i e Hi Hl). destruct (Hlive i e Hi Hl) as [[= -> ->]|[= -> ->]]; constructor. }
  split.
  - split_and!; [by rewrite En|by rewrite Ed|by rewrite Ef, length_replicate|]. constructor.
    + intros x Hx. unfold TMP_NODES. destruct (Hused x Hx) as [->|[->| ->]]; lia.
    + destruct (HU ROOT ltac:(auto)) as (? & ? & _). done.
    + intros i e Hi Hl. destruct (HU 1%nat ltac:(auto)) as (U1 & U2 & _).
      destruct (Hlive i e Hi Hl) as [[= -> ->]|[= -> ->]]; cbn [d_dir d_node d_name];
        (split; [done|split; [done|split; [apply HU; auto|split; [done|]]]]); apply top_names.
    + intros i j e g Hi Hj Hl Edir Enm. assert (Hl' : live g = true) by (apply live_true; apply live_true in Hl; congruence).
      destruct (Hlive i e Hi Hl) as [[= -> ->]|[= -> ->]], (Hlive j g Hj Hl') as [[= -> ->]|[= -> ->]]; done.
    + intros i j e g Hi Hj Hl Hl' Enode _.
      destruct (Hlive i e Hi Hl) as [[= -> ->]|[= -> ->]], (Hlive j g Hj Hl') as [[= -> ->]|[= -> ->]]; done.
    + intros x Hx _. destruct (Hused x Hx) as [->|[->| ->]]; [constructor|..].
      * apply (Hup 0%nat (mk_tdent ROOT 2 str_tmp)); [by rewrite Ed|done].
      * apply (Hup 1%nat (mk_tdent ROOT 3 str_shm)); [by rewrite Ed|done].
    + intros x Hx. pose proof (Hused x Hx) as Hx'. rewrite (proj1 (proj2 (HU x Hx'))).
      rewrite Hcount by (unfold sub_of; cbn; destruct Hx' as [->|[->| ->]]; done).
      unfold tops. rewrite !count_if_cons. unfold sub_of. cbn [d_dir d_node].
      rewrite (proj1 (proj2 (HU 2%nat ltac:(auto)))), (proj1 (proj2 (HU 3%nat ltac:(auto)))), Hnode.
      destruct Hx' as [->|[->| ->]]; cbn; lia.
    + intros x Hx. rewrite (proj2 (proj2 (HU x (Hused x Hx)))). replace (count_if (open_on x) (files s)) with 0%nat; [done|].
      symmetry. apply count_if_zero. rewrite Ef. by intros k f [-> _]%lookup_replicate_1.
    + rewrite Ef. by intros k f [? _]%lookup_replicate_1.
    + intros x Hx Hdx. by rewrite (proj1 (proj2 (HU x (Hused x Hx)))) in Hdx.
  - rewrite <- (proj1 Eh). apply heap_ok_empty; [by rewrite (proj1 Eh)| |apply Eh|].
    + intros i n Hi. assert (E : node s i = n) by (unfold node; by rewrite Hi). rewrite <- E, Hnode.
      repeat case_match; cbn; lia.
    + rewrite Ef. by intros k f [? _]%lookup_replicate_1.
Qed.
(** The calls of vfs.c. [k] is the kernel's open file the call is made on, or
    for t_open the free one it is given. *)
Inductive call :=
  | Mkdir (c : ctx) (path : list Z)
  | Mknod (c : ctx) (path : list Z) (m : Z)
  | Symlink (c : ctx) (text path : list Z)
  | Link (c : ctx) (from to : list Z)
  | Open (c : ctx) (k : nat) (path : list Z) (flags : Z)
  | Close (k : nat)
  | File (k : nat) (o : fop)
  | Unlink (c : ctx) (path : list Z)
  | Rmdir (c : ctx) (path : list Z)
  | Rename (c : ctx) (from to : list Z)
  | Utime (c : ctx) (path : list Z) (t : Z)
  | Setattr (c : ctx) (path : list Z) (mask m u g : Z)
  | Futime (k : nat) (t : Z)
  | Fsetattr (k : nat) (mask m u g : Z).

Definition file_at (k : nat) (s : tmpfs) : option tfile := f ← files s !! k; f.
Definition run_call (o : call) (s : tmpfs) : option (Z * tmpfs) :=
  match o with
  | Mkdir c path => Some (t_mkdir pmm_total c path s)
  | Mknod c path m => Some (t_mknod pmm_total c path m s)
  | Symlink c text path => Some (t_symlink pmm_total c text path s)
  | Link c from to => Some (t_link pmm_total c from to s)
  | Open c k path flags => Some (t_open pmm_total c k path flags s)
  | Close k => s ← tf_close k s; Some (0, s)
  | File k o => '(r, _, s) ← run_fop k o s; Some (r, s)
  | Unlink c path => t_unlink pmm_total c path s
  | Rmdir c path => t_rmdir pmm_total c path s
  | Rename c from to => t_rename pmm_total c from to s
  | Utime c path t => Some (t_utime pmm_total c path t s)
  | Setattr c path mask m u g => Some (t_setattr pmm_total c path mask m u g s)
  | Futime k t => f ← file_at k s; Some (t_futime f t s)
  | Fsetattr k mask m u g => f ← file_at k s; Some (t_fsetattr f mask m u g s)
  end.

(** What vfs.c sees to: a free file to open, an open one to use, bytes that
    are bytes. *)
Definition call_ok (o : call) (s : tmpfs) : Prop :=
  match o with
  | Open _ k _ _ => files s !! k = Some None
  | Close k | Futime k _ | Fsetattr k _ _ _ _ => file_at k s <> None
  | File k o => file_at k s <> None /\ fop_ok o
  | Symlink _ text _ => Forall (fun b => 0 <= b < 256) text
  | _ => True
  end.
(** A call that takes a name away and is given one that ends in a dot or two,
    which vfs.c passes on. *)
Definition dotted (o : call) : Prop :=
  match o with
  | Unlink _ path | Rmdir _ path => ~ plain_name path
  | Rename _ from to => ~ (plain_name from /\ plain_name to)
  | _ => False
  end.

(** What each call returns and what it does to the names. *)
Definition call_effect (o : call) (s : tmpfs) (r : Z) (s' : tmpfs) : Prop :=
  match o with
  | Mkdir c path => create_effect s (target c path s) r s'
  | Mknod c path m => if S_ISFIFO m then create_effect s (target c path s) r s' else r = - EPERM /\ s' = s
  | Symlink c text path => symlink_effect s text (target c path s) r s'
  | Link c from to => link_effect s (fst (walk pmm_total c from false s)) (target c to s) r s'
  | Open c k path flags => open_effect s (target c path s) flags r s'
  | Unlink c path => unlink_effect false c s (target c path s) r s'
  | Rmdir c path => unlink_effect true c s (target c path s) r s'
  | Rename c from to => rename_effect c s (target c from s) (target c to s) r s'
  | Utime c path _ | Setattr c path _ _ _ _ =>
      match fst (walk pmm_total c path true s) with inl e => r = e /\ s' = s | inr _ => r = 0 /\ same_names s s' end
  | Close _ | Futime _ _ | Fsetattr _ _ _ _ _ => r = 0 /\ same_names s s'
  | File _ _ => same_names s s'
  end.

Lemma file_at_Some k (s : tmpfs) : file_at k s <> None -> exists f, files s !! k = Some (Some f) /\ file_at k s = Some f.
Proof using Type. unfold file_at. destruct (files s !! k) as [[f|]|]; [by exists f|done|done]. Qed.
Lemma open_used base lost (s : tmpfs) k f : fs_ok base lost s -> files s !! k = Some (Some f) -> used s (f_node f) = true.
Proof using H. intros [(_ & _ & _ & T) _] Hk. by destruct (ok_files T k f Hk). Qed.

(** The calls that set something of the node a path leads to. *)
Lemma walk_change base lost (s : tmpfs) c path (g : nat -> tmpfs -> tmpfs) r s' : fs_ok base lost s ->
  (forall n, used s n = true -> fs_ok base lost (g n s) /\ dents (g n s) = dents s) ->
  match walk pmm_total c path true s with (inl r, s) => (r, s) | (inr n, s) => (0, g n s) end = (r, s') ->
  fs_ok base lost s' /\
  match fst (walk pmm_total c path true s) with inl e => r = e /\ s' = s | inr _ => r = 0 /\ same_names s s' end.
Proof using H.
  intros Hok Hg. destruct (walk_ok pmm_total base lost s c path true Hok) as [W1 W2].
  destruct (walk pmm_total c path true s) as [[e|n] s0]; cbn in W1, W2; subst s0; intros [= <- <-]; [done|].
  destruct (Hg n W2) as [G1 G2]. split; [done|]. split; [done|]. by apply same_dents.
Qed.

#[export] Instance dotted_dec o : Decision (dotted o).
Proof. destruct o; cbn [dotted]; apply _. Defined.

(** Every call keeps the tables, and does what it says; only one given a
    dotted name may write outside them instead. *)
Lemma call_step base lost (s : tmpfs) o : fs_ok base lost s -> call_ok o s ->
  run_call o s = None /\ dotted o \/
  exists r s' more, run_call o s = Some (r, s') /\ fs_ok base (more ++ lost) s' /\ call_effect o s r s' /\
    (more = [] \/ exists c text path, o = Symlink c text path /\ r = - ENOSPC).
Proof using All.
  intros Hok Hc.
  assert (Hdot : dotted o ->
    run_call o s = None /\ dotted o \/ exists r, run_call o s = Some (r, s) /\ call_effect o s r s).
  { destruct o; cbn [dotted run_call call_effect]; try done; intros Hd;
      [destruct (unlink_dotted base lost s c path false Hok Hd)|destruct (unlink_dotted base lost s c path true Hok Hd)|
       destruct (rename_dotted base lost s c from to Hok Hd)]; auto. }
  destruct (decide (dotted o)) as [Hd|Hd].
  { destruct (Hdot Hd) as [|(r & E1 & E2)]; [by left|right]. exists r, s, []. split_and!; auto. }
  clear Hdot. right.
  destruct o as [c path|c path m|c text path|c from to|c k path flags|k|k o|c path|c path|c from to|c path t|c path mask m u g|k t|k mask m u g];
    cbn [run_call call_ok call_effect dotted] in *.
  - pose proof (mkdir_ok pmm_total base lost s c path Hok) as M. destruct (t_mkdir _ _ _ _) as [r s']. exists r, s', [].
    destruct M. split_and!; auto.
  - pose proof (mknod_ok pmm_total base lost s c path m Hok) as M. destruct (t_mknod _ _ _ _ _) as [r s']. exists r, s', [].
    destruct M. split_and!; auto.
  - pose proof (symlink_ok base lost s c text path Hok Hc) as M. destruct (t_symlink _ _ _ _ _) as [r s'].
    destruct M as [(more & M1 & M2) M3]. exists r, s', more. split_and!; auto.
    destruct (Z.eq_dec r (- ENOSPC)); [right; by exists c, text, path|left; auto].
  - pose proof (link_ok pmm_total base lost s c from to Hok) as M. destruct (t_link _ _ _ _ _) as [r s']. exists r, s', [].
    destruct M. split_and!; auto.
  - pose proof (open_ok pmm_total base lost s c k path flags Hok Hc) as M. destruct (t_open _ _ _ _ _ _) as [r s']. exists r, s', [].
    destruct M. split_and!; auto.
  - destruct (file_at_Some k s Hc) as (f & Hf & _). destruct (close_ok base lost s k f Hok Hf) as (s' & C1 & C2 & C3 & _).
    exists 0, s', []. rewrite C1. split_and!; auto. by apply same_dents.
  - destruct Hc as [Hc Ho]. destruct (file_at_Some k s Hc) as (f & Hf & _).
    destruct (fop_names base lost s k f o Hok Hf Ho) as (r & bs & s' & C1 & C2 & C3).
    exists r, s', []. rewrite C1. split_and!; auto. by apply same_dents.
  - destruct (unlink_ok base lost s c path false Hok (dec_stable Hd)) as (r & s' & U1 & U2 & U3). exists r, s', []. split_and!; auto.
  - destruct (unlink_ok base lost s c path true Hok (dec_stable Hd)) as (r & s' & U1 & U2 & U3). exists r, s', []. split_and!; auto.
  - destruct (dec_stable Hd) as [Hf Ht]. destruct (rename_ok base lost s c from to Hok Hf Ht) as (r & s' & U1 & U2 & U3).
    exists r, s', []. split_and!; auto.
  - destruct (t_utime pmm_total c path t s) as [r s'] eqn:E. exists r, s', [].
    destruct (walk_change base lost s c path (fun n => set_time n t) r s' Hok ltac:(intros n; by apply time_ok) E). split_and!; auto.
  - destruct (t_setattr pmm_total c path mask m u g s) as [r s'] eqn:E. exists r, s', [].
    destruct (walk_change base lost s c path (fun n => set_attr n mask m u g) r s' Hok ltac:(intros n; by apply attr_ok) E).
    split_and!; auto.
  - destruct (file_at_Some k s Hc) as (f & Hf & E). rewrite E. destruct (time_ok base lost s (f_node f) t Hok (open_used _ _ _ _ _ Hok Hf)).
    eexists _, _, []. split; [reflexivity|]. split_and!; auto. by apply same_dents.
  - destruct (file_at_Some k s Hc) as (f & Hf & E). rewrite E.
    destruct (attr_ok base lost s (f_node f) mask m u g Hok (open_used _ _ _ _ _ Hok Hf)).
    eexists _, _, []. split; [reflexivity|]. split_and!; auto.
Qed.

(** The states the calls can come to, from the start; [leaked] counts the
    symlinks that found no page for their text. *)
Inductive reach (c : ctx) (w : W) (nf : nat) : nat -> tmpfs -> Prop :=
  | reach_boot : reach c w nf 0 (init_once pmm_total c (boot w nf))
  | reach_call leaked o s r s' : reach c w nf leaked s -> call_ok o s -> run_call o s = Some (r, s') ->
      reach c w nf (match o with Symlink _ _ _ => if r =? - ENOSPC then S leaked else leaked | _ => leaked end) s'.
(** ** The path of a directory *)

Lemma comps_app acc nm p : SLASH ∉ nm -> comps acc (nm ++ p) = comps (acc ++ nm) p.
Proof using Type.
  revert acc. induction nm as [|x nm IH]; intros acc Hn; cbn [app comps]; [by rewrite app_nil_r|].
  apply not_elem_of_cons in Hn as [H1 H2]. rewrite (proj2 (Z.eqb_neq x SLASH)) by congruence.
  rewrite IH by done. by rewrite <- app_assoc.
Qed.
Definition from_root (p : list Z) : Prop := p = [] \/ head p = Some SLASH.
Lemma components_cons nm p : nm <> [] -> SLASH ∉ nm -> from_root p ->
  components (SLASH :: nm ++ p) = nm :: components p.
Proof using Type.
  intros Hne Hs Hp. assert (En : nonempty nm = [nm]) by (unfold nonempty; by rewrite bool_decide_eq_false_2).
  unfold components. cbn [comps]. rewrite Z.eqb_refl. change (nonempty []) with (@nil (list Z)). cbn [app].
  rewrite comps_app by done. cbn [app]. destruct Hp as [->|Hp]; [exact En|].
  destruct p as [|x p]; [done|]. injection Hp as ->. cbn [comps]. rewrite Z.eqb_refl, En. done.
Qed.

Lemma walk_first (s : tmpfs) fo i d cs : names_ok s -> dents s !! i = Some d -> live d = true -> is_dir s (d_node d) = true ->
  w_out (walk_list s fo true (d_dir d) (d_name d :: cs)) = w_out (walk_list s fo true (d_node d) cs).
Proof using H.
  intros Hn Hi Hl Hd. pose proof (names_tree s Hn) as T.
  destruct (ok_entry T i d Hi Hl) as (Du & Dd & Nu & Nr & [(_ & _ & P1 & P2) _]).
  assert (Hlk : is_link s (d_node d) = false).
  { unfold is_link, is_dir, S_ISDIR, S_ISLNK in *. apply Z.eqb_eq in Hd. by rewrite Hd. }
  assert (Hf : dent_find (d_dir d) (d_name d) s = Some i).
  { destruct (dent_find (d_dir d) (d_name d) s) as [j|] eqn:Hf.
    - apply dent_find_Some in Hf as (e & Hj & E1 & E2). f_equal. symmetry. by apply (ok_once T i j d e).
    - rewrite dent_find_None in Hf. by destruct (Hf i d Hi). }
  assert (Hstep : forall th, step s fo th (d_dir d) (d_name d) = inr (d_node d)).
  { intros th. unfold step. rewrite !bool_decide_eq_false_2 by done. rewrite Hf, Hi. cbv zeta.
    change (default 0%nat (d_node <$> Some d)) with (d_node d). by rewrite Hlk. }
  cbn [walk_list]. rewrite Dd. cbn [negb]. rewrite !Hstep. by destruct cs.
Qed.

(** The loop of t_dir_path puts the names of the directories above before
    [tmp], and its hops are enough; it fails only for want of room. *)
Lemma dir_path_spec (s : tmpfs) hops d k tmp x : names_ok s -> depth (dents s) d k -> (S k <= hops)%nat -> is_dir s d = true ->
  from_root tmp -> (forall fo, w_out (walk_list s fo true d (components tmp)) = inr x) ->
  match dir_path_loop hops d tmp s with
  | inl e => e = - ENAMETOOLONG
  | inr p => from_root p /\ forall fo, w_out (walk_list s fo true ROOT (components p)) = inr x
  end.
Proof using H.
  intros Hn Hk. pose proof (names_tree s Hn) as T. revert hops tmp.
  induction Hk as [|i d k Hi Hl Hk IH]; intros [|hops] tmp Hh Hd Ht Hw; try lia; cbn [dir_path_loop].
  - by rewrite Nat.eqb_refl.
  - destruct (ok_entry T i d Hi Hl) as (_ & Dd & _ & Nr & [(P1 & P2 & _) _]).
    rewrite (proj2 (Nat.eqb_neq _ ROOT) Nr). rewrite (proj1 (parent_entry _ _ _ _ _ _ T i d Hi Hl Hd)), Hi. cbn [default].
    destruct (PATH_MAX <=? _); [done|]. apply IH; [lia|done|by right|].
    intros fo. rewrite components_cons by done. by rewrite (walk_first s fo i).
Qed.
Lemma reach_ok c w nf leaked (s : tmpfs) : pg_ok w -> (nf <= 256)%nat -> reach c w nf leaked s ->
  exists lost, fs_ok (pg_held w) lost s /\ (leaked = 0%nat -> lost = []).
Proof using All.
  intros Hw Hnf. induction 1 as [|leaked o s r s' _ (lost & IH & Hl) Hc Ho]; [exists []; split; [by apply init_ok|done]|].
  destruct (call_step _ lost s o IH Hc) as [[E _]|(r' & s1 & more & E & Hok & _ & Hm)]; rewrite E in Ho; [done|]. injection Ho as <- <-.
  exists (more ++ lost). split; [done|]. destruct Hm as [->|(c' & text & path & -> & ->)]; [|done]. cbn [app].
  intros Hz. apply Hl. destruct o; try done. by destruct (r' =? - ENOSPC).
Qed.

(** ** The properties *)

(** C3: from the zeroed tables of the start, through any calls, whatever fails
    on the way: the names form one tree over the nodes in use, with every
    directory reachable from the root, no name twice in a directory, the link
    counts and the counts of open files exact, and no node kept that has
    neither a name nor an open file; every page of every file is held once and
    counted in pages_used; and no call writes outside the tables, except that
    rmdir and rename of a path whose last name is a dot or two may ([None], the
    write through dents[-1] of dot_has_no_entry below; the run ends there).
    Pages are lost only by a symlink that failed for want of space. *)
Theorem tmpfs_always_ok c w nf leaked (s : tmpfs) :
  pg_ok w -> (nf <= 256)%nat -> reach c w nf leaked s ->
  (exists lost, fs_ok (pg_held w) lost s /\ (leaked = 0%nat -> lost = [])) /\
  forall o, call_ok o s -> (exists r s', run_call o s = Some (r, s')) \/ run_call o s = None /\ dotted o.
Proof using All.
  intros Hw Hnf Hr. destruct (reach_ok c w nf leaked s Hw Hnf Hr) as (lost & Hok & Hl). split; [by exists lost|].
  intros o Hc. destruct (call_step _ lost s o Hok Hc) as [?|(r & s' & _ & E & _)]; [by right|left]. by exists r, s'.
Qed.

(** C13: the names are a map from a directory and a name to a node, and each
    call does to it what it should, with its error for every other case: a
    creation adds one name for a node that was free, or fails with EEXIST,
    ENOSPC, ENAMETOOLONG or the error of the walk; unlink and rmdir take one
    name away, or fail with EBUSY, ENOTDIR, EISDIR, EPERM or ENOTEMPTY; link
    adds a name for the node there is; rename moves a name, replacing an
    empty or plain target, and fails with EINVAL exactly when a directory
    would go below itself. A call that fails leaves the names as they were.
    This is of every call that stays inside the tables: rmdir and rename of a
    path that ends in a dot or two need not, and then have no result here. *)
Theorem tmpfs_calls_refine_names c w nf leaked (s : tmpfs) o r s' :
  pg_ok w -> (nf <= 256)%nat -> reach c w nf leaked s -> call_ok o s -> run_call o s = Some (r, s') -> call_effect o s r s'.
Proof using All.
  intros Hw Hnf Hr Hc E. destruct (reach_ok c w nf leaked s Hw Hnf Hr) as (lost & Hok & _).
  destruct (call_step _ lost s o Hok Hc) as [[E' _]|(r' & s1 & _ & E' & _ & He & _)]; rewrite E in E'; [done|].
  by injection E' as -> ->.
Qed.

(** The path t_dir_path gives for a directory leads back to that
    directory, and fits into the caller's buffer with its final zero; it
    gives none only when the path is too long for one of the two buffers. *)
Theorem dir_path_leads_back base lost (s : tmpfs) x sz : fs_ok base lost s -> used s x = true -> is_dir s x = true ->
  match t_dir_path x sz s with
  | inl e => e = - ENAMETOOLONG
  | inr p => Z.of_nat (length p) < sz /\ w_out (walk_from WALK_HOPS ROOT p true s) = inr x
  end.
Proof using H.
  intros [Hn _] Hu Hd. pose proof (names_tree s Hn) as T. destruct (up_depth _ _ (ok_up T x Hu Hd)) as [k Hk].
  pose proof (dir_path_spec s TMP_NODES x k [] x Hn Hk (depth_bound _ _ _ _ _ _ T x k Hd Hk) Hd ltac:(by left) ltac:(done)) as S.
  unfold t_dir_path. destruct (dir_path_loop TMP_NODES x [] s) as [e|p]; [done|]. destruct S as [S1 S2].
  set (q := if bool_decide (p = []) then [SLASH] else p).
  assert (Hq : head q = Some SLASH /\ components q = components p)
    by (unfold q; case_bool_decide as B; [by subst p|by destruct S1]).
  destruct (Z.leb_spec sz (Z.of_nat (length q))); [done|]. split; [lia|].
  destruct (walk_from_list s Hn WALK_HOPS ROOT q true) as (fo & cur & E & [->| ->] & _); rewrite E, (proj2 Hq); apply S2.
Qed.

(** Rmdir of a directory by a path that ends in a dot, and rename from
    such a path, look for an entry named by a dot, find none, and write
    through index -1, before the table of names. *)
Theorem dot_has_no_entry base lost (s : tmpfs) c path dir :
  fs_ok base lost s -> target c path s = inr (dir, dot, Some dir) -> dir <> ROOT -> may_take c s dir dir = true ->
  (has_names dir s = false -> t_rmdir pmm_total c path s = None) /\
  (forall to tdir tname, target c to s = inr (tdir, tname, None) -> tdir <> ROOT -> ~ below (dents s) dir tdir ->
     Z.of_nat (length tname) <= NAME_MAX -> t_rename pmm_total c path to s = None).
Proof using All.
  intros Hok Et Hr Hm. destruct (target_facts pmm_total base lost s c path Hok) as [E F].
  destruct (F dir dot (Some dir) Et) as (Du & Dd & _). pose proof (names_tree s (proj1 Hok)) as T.
  pose proof (ok_bound T dir Du) as Hb.
  assert (Hf : dent_find dir dot s = None).
  { apply dent_find_None. intros j d Hj Ed En. destruct (ok_entry T j d Hj) as (_ & _ & _ & _ & [(_ & _ & P & _) _]); [|done].
    apply live_true. lia. }
  split.
  - intros Hno. unfold t_rmdir, t_unlink_common. rewrite E, Et. rewrite (proj2 (Nat.eqb_neq dir ROOT)), Dd, sticky_may, Hm, Hno by done.
    cbn [andb negb]. change (0 <? 0) with false. cbv iota. by rewrite Hf.
  - intros to tdir tname Ett Htr Hnb Hlen. destruct (target_facts pmm_total base lost s c to Hok) as [E' F'].
    destruct (F' tdir tname None Ett) as (Tu & Td & _).
    unfold t_rename. rewrite E, Et. rewrite (proj2 (Nat.eqb_neq dir ROOT)) by done. rewrite E', Ett.
    rewrite (proj2 (Nat.eqb_neq tdir ROOT)) by done. rewrite bool_decide_eq_false_2, Dd by done.
    destruct (is_under TMP_NODES tdir dir (dents s)) eqn:Eu.
    { exfalso. apply Hnb. by apply (is_under_enough _ _ _ _ _ _ T tdir dir Tu Td). }
    cbn [andb]. rewrite sticky_may, Hm. change (0 <? 0) with false. cbv iota. unfold move_name.
    rewrite (proj2 (Z.ltb_ge _ _)) by done. by rewrite Hf.
Qed.
(** Where a link leads: what follow makes of its text. *)
Definition leads (walk_to : nat -> list Z -> Z + nat) (dir : nat) (text : list Z) : Z + nat :=
  if negb (bool_decide (head text = Some SLASH)) then walk_to dir text
  else if under_name slash_tmp text then walk_to ROOT text
  else if under_name dev_shm text then walk_to ROOT (drop 4 text) else inl (- EXDEV).

Lemma c_string_all (bs : list Z) : Forall (fun b => 0 < b < 256) bs -> c_string bs = bs.
Proof using Type.
  induction 1 as [|b bs Hb _ IH]; [done|]. cbn. rewrite (proj2 (Z.eqb_neq b 0)) by lia. by rewrite IH.
Qed.
(** A text without zero bytes is in a page. *)
Lemma text_there (s : tmpfs) n text : link_text s n = text -> text <> [] -> Forall (fun b => 0 < b < 256) text ->
  leaf (mem (heap s)) (top (node s n)) 0 <> 0.
Proof using H.
  intros E Hne Hb El. destruct text as [|b text]; [done|]. unfold link_text, file_bytes in E.
  destruct (Z.to_nat (size (node s n))) as [|m]; [done|]. cbn [seq fmap list_fmap] in E. injection E as E _.
  inversion_clear Hb as [|? ? H1 _]. unfold fbyte in E. change ((0 + Z.of_nat 0) / PMM.PAGE_SIZE) with 0 in E.
  rewrite El in E. cbn in E. lia.
Qed.

(** A symbolic link made by t_symlink reads back: the new name stands for
    a link, t_readlink gives its text by any path that leads to it, if the
    buffer has room for it and the zero after it, and a walk through the link
    goes where its text says. *)
Theorem symlink_reads_back base lost (s : tmpfs) c text path dir nm s' :
  fs_ok base lost s -> text <> [] -> Forall (fun b => 0 < b < 256) text ->
  target c path s = inr (dir, nm, None) -> t_symlink pmm_total c text path s = (0, s') ->
  exists n, entry s' dir nm = Some n /\
    (forall c' p sz, fst (walk pmm_total c' p false s') = inr n ->
       fst (t_readlink pmm_total c' p sz s') =
         if sz <=? Z.of_nat (length text) then inl (- ENAMETOOLONG) else inr text) /\
    forall walk_to d, follow walk_to d n s' = leads walk_to d text.
Proof using All.
  intros Hok Hne Hb Et E. pose proof (symlink_ok base lost s c text path Hok) as S. rewrite E in S.
  destruct S as [(more & Hok' & _) S]; [eapply Forall_impl; [exact Hb|]; cbn; lia|]. unfold symlink_effect in S.
  destruct (Z.ltb_spec NAME_MAX (Z.of_nat (length text))) as [|Hlen]; [by destruct S as [? _]|].
  destruct (target_facts pmm_total base lost s c path Hok) as [_ F]. destruct (F dir nm None Et) as (F1 & _). rewrite Et in S.
  destruct S as [(_ & n & Hu & Hu' & Hput & Hlk & Htx)|[[?|?] _]]; [|done|done].
  pose proof (ok_bound (names_tree s (proj1 Hok)) dir F1) as Hdb.
  exists n. split; [rewrite Hput by lia; by rewrite bool_decide_eq_true_2|].
  assert (Hsz : size (node s' n) = Z.of_nat (length text)).
  { pose proof (ok_bound (names_tree s' (proj1 Hok')) n Hu') as Hb'. pose proof Hok' as [(L1 & _) Hh'].
    destruct (ho_nodes _ _ _ Hh' n (node s' n) (node_lookup s' n ltac:(lia)) Hu') as [Hs _].
    rewrite <- Htx. unfold link_text. rewrite length_file_bytes. lia. }
  unfold NAME_MAX in Hlen. pose proof (text_read s' n ltac:(lia)) as R. pose proof (text_there s' n text Htx Hne Hb) as Hp.
  rewrite page_of_look in R. change (0 / PMM.PAGE_SIZE) with 0 in R. specialize (R Hp). rewrite Htx in R. split.
  - intros c' p sz Hw. destruct (walk_ok pmm_total base _ s' c' p false Hok') as [W1 _]. unfold t_readlink.
    destruct (walk pmm_total c' p false s') as [o s1]. cbn in W1, Hw. subst s1 o. rewrite Hlk, Hsz. cbn [negb].
    destruct (sz <=? Z.of_nat (length text)); [done|]. rewrite page_of_look. change (0 / PMM.PAGE_SIZE) with 0.
    rewrite Hsz in R. by rewrite R.
  - intros walk_to d. unfold follow, leads. rewrite page_of_look. change (0 / PMM.PAGE_SIZE) with 0.
    rewrite (proj2 (Z.eqb_neq _ 0) Hp), (proj2 (Z.ltb_ge _ _)) by (unfold NAME_MAX; lia). cbn [orb]. rewrite R, c_string_all by done.
    by destruct (bool_decide (head text = Some SLASH)).
Qed.
End taking.

(** ** Witnesses: a file system on the eight-page pool *)

Import PAGES.

Definition as_root : ctx := mk_ctx 7 0 0.
Definition booted : @tmpfs PMM.pmm := init_once PMM.pmm_total as_root (boot PMM.pool8 4).
(** "/tmp/d", "/tmp/d/.", "/tmp/e" *)
Definition tmp_d : list Z := slash_tmp ++ [47; 100].
Definition tmp_d_dot : list Z := tmp_d ++ [47; 46].
Definition tmp_e : list Z := slash_tmp ++ [47; 101].
Definition made_d : @tmpfs PMM.pmm := snd (t_mkdir PMM.pmm_total as_root tmp_d booted).

Lemma pair_fst {A B} (p : A * B) a : fst p = a -> p = (a, snd p).
Proof. destruct p. by intros <-. Qed.
Lemma some_fst {A B} (o : option (A * B)) a d :
  fst <$> o = Some a -> o = Some (a, match o with Some (_, b) => b | None => d end).
Proof. destruct o as [[x y]|]; [|done]. by intros [= <-]. Qed.
Lemma booted_ok : fs_ok (pg_held PMM.pool8) [] booted.
Proof. exact (init_ok PMM.pmm_total as_root PMM.pool8 4 PMM.pool8_inv ltac:(lia)). Qed.
Lemma made_d_ok : fs_ok (pg_held PMM.pool8) [] made_d.
Proof.
  pose proof (mkdir_ok PMM.pmm_total _ _ booted as_root tmp_d booted_ok) as M. unfold made_d.
  destruct (t_mkdir PMM.pmm_total as_root tmp_d booted) as [r s]. exact (proj1 M).
Qed.
Lemma made_d_reach : reach PMM.pmm_total as_root PMM.pool8 4 0 made_d.
Proof.
  apply (reach_call _ _ _ _ 0 (Mkdir as_root tmp_d) booted 0 made_d (reach_boot _ _ _ _) I).
  cbn [run_call]. apply (f_equal Some). unfold made_d.
  exact (pair_fst (t_mkdir PMM.pmm_total as_root tmp_d booted) 0 ltac:(vm_compute; reflexivity)).
Qed.

Lemma tmpfs_always_ok_witness :
  (exists lost, fs_ok (pg_held PMM.pool8) lost made_d /\ (0%nat = 0%nat -> lost = [])) /\
  forall o, call_ok o made_d ->
    (exists r s', run_call PMM.pmm_total o made_d = Some (r, s')) \/ run_call PMM.pmm_total o made_d = None /\ dotted o.
Proof.
  apply (tmpfs_always_ok PMM.pmm_total as_root PMM.pool8 4 0 made_d); [exact PMM.pool8_inv|lia|exact made_d_reach].
Defined.

(** A directory renamed: the name has moved. *)
Definition moved_e : @tmpfs PMM.pmm :=
  match t_rename PMM.pmm_total as_root tmp_d tmp_e made_d with Some (_, s') => s' | None => made_d end.
Lemma tmpfs_calls_refine_names_witness :
  exists r s', run_call PMM.pmm_total (Rename as_root tmp_d tmp_e) made_d = Some (r, s') /\ r = 0 /\
    entry s' 2 [101] = Some 4%nat /\
    call_effect PMM.pmm_total (Rename as_root tmp_d tmp_e) made_d r s'.
Proof.
  assert (E : run_call PMM.pmm_total (Rename as_root tmp_d tmp_e) made_d = Some (0, moved_e)).
  { exact (some_fst (t_rename PMM.pmm_total as_root tmp_d tmp_e made_d) 0 made_d ltac:(vm_compute; reflexivity)). }
  exists 0, moved_e. split; [exact E|]. split; [reflexivity|]. split; [vm_compute; reflexivity|].
  apply (tmpfs_calls_refine_names PMM.pmm_total as_root PMM.pool8 4 0 made_d);
    [exact PMM.pool8_inv|lia|exact made_d_reach|exact I|exact E].
Defined.

Lemma dir_path_leads_back_witness :
  t_dir_path 4 100 made_d = inr tmp_d /\
  match t_dir_path 4 100 made_d with
  | inl e => e = - ENAMETOOLONG
  | inr p => Z.of_nat (length p) < 100 /\ w_out (walk_from WALK_HOPS ROOT p true made_d) = inr 4%nat
  end.
Proof.
  split; [vm_compute; reflexivity|].
  apply (dir_path_leads_back (pg_held PMM.pool8) [] made_d 4 100); [exact made_d_ok|reflexivity|reflexivity].
Defined.

Lemma dot_has_no_entry_witness : t_rmdir PMM.pmm_total as_root tmp_d_dot made_d = None.
Proof.
  exact (proj1 (dot_has_no_entry PMM.pmm_total (pg_held PMM.pool8) [] made_d as_root tmp_d_dot 4 made_d_ok
    ltac:(vm_compute; reflexivity) ltac:(discriminate) ltac:(vm_compute; reflexivity)) ltac:(vm_compute; reflexivity)).
Defined.

(** A link "/tmp/d" to "e" in an empty file system. *)
Definition linked : @tmpfs PMM.pmm := snd (t_symlink PMM.pmm_total as_root [101] tmp_d booted).
Lemma linked_made : t_symlink PMM.pmm_total as_root [101] tmp_d booted = (0, linked).
Proof.
  assert (E : fst (t_symlink PMM.pmm_total as_root [101] tmp_d booted) = 0) by (vm_compute; reflexivity).
  exact (pair_fst _ 0 E).
Qed.
Lemma symlink_reads_back_witness :
  exists n, entry linked 2 [100] = Some n /\
    (forall c' p sz, fst (walk PMM.pmm_total c' p false linked) = inr n ->
       fst (t_readlink PMM.pmm_total c' p sz linked) =
         if sz <=? Z.of_nat (length [101]) then inl (- ENAMETOOLONG) else inr [101]) /\
    forall walk_to d, follow walk_to d n linked = leads walk_to d [101].
Proof.
  apply (symlink_reads_back PMM.pmm_total (pg_held PMM.pool8) [] booted as_root [101] tmp_d 2 [100] linked);
    [exact booted_ok|discriminate|repeat constructor|vm_compute; reflexivity|].
  exact linked_made.
Defined.

(** With one page left, a symlink fails for its text's page and the two pages
    of its table stay taken. *)
Example failed_symlink_leaks :
  let full := set_heap (mk_pool (mem (heap booted)) 2 4) booted in
  let '(r, s') := t_symlink PMM.pmm_total as_root [101] tmp_d full in (r, pages_used (heap s')) = (- ENOSPC, 4).
Proof. vm_compute. reflexivity. Qed.
End TMPOPS.
