(* ===== verification/Wait.v ===== *)
(** * Wait queues, semaphores and mutexes (kernel/wait.c, and the expiry of
    sleeps in task_timeouts of kernel/task.c)

    A queue is a pointer to a task and the tasks on it are linked through
    their own [wait_next]. The model keeps the pointers: a state is the table
    of tasks and the heads of the queues, and the functions walk and cut the
    chains as the code does. What runs while interrupts are masked is one
    step; other tasks run where the code calls [schedule]. *)

From stdpp Require Import functions.
From S2P Require Import Prelude.
Local Open Scope Z_scope.

Module WAIT.

(** ** The code *)

Inductive tstate := TASK_UNUSED | TASK_READY | TASK_RUNNING | TASK_BLOCKED | TASK_STOPPED | TASK_ZOMBIE | TASK_TRACED.
#[export] Instance tstate_eq_dec : EqDecision tstate.
Proof. solve_decision. Defined.

Definition HZ : Z := 100.

Record task := mk_task {
  t_state : tstate;
  wait_next : option nat;
  queue : option nat;
  woken : bool;
  wake_at : Z;
}.
Definition set_next (p : option nat) (t : task) : task :=
  mk_task (t_state t) p (queue t) (woken t) (wake_at t).
Definition set_queue (q : option nat) (t : task) : task :=
  mk_task (t_state t) (wait_next t) q (woken t) (wake_at t).
Definition set_state (x : tstate) (t : task) : task :=
  mk_task x (wait_next t) (queue t) (woken t) (wake_at t).
Definition set_woken (b : bool) (t : task) : task :=
  mk_task (t_state t) (wait_next t) (queue t) b (wake_at t).
Definition set_wake_at (a : Z) (t : task) : task :=
  mk_task (t_state t) (wait_next t) (queue t) (woken t) a.

(** Tasks and queues are named by their places in the tables. *)
Record state := mk_state { tasks : list task; heads : list (option nat) }.
Definition upd (i : nat) (f : task -> task) (s : state) : state := mk_state (alter f i (tasks s)) (heads s).
Definition set_head (q : nat) (p : option nat) (s : state) : state := mk_state (tasks s) (<[q := p]> (heads s)).

(** A [struct task **]: the head of a queue or the link of a task. *)
Inductive tptr := Head (q : nat) | Next (i : nat).
Definition load (s : state) (p : tptr) : option nat :=
  match p with
  | Head q => default None (heads s !! q)
  | Next i => t ← tasks s !! i; wait_next t
  end.
Definition store (p : tptr) (v : option nat) (s : state) : state :=
  match p with
  | Head q => set_head q v s
  | Next i => upd i (set_next v) s
  end.

(** The slot at the end of the chain, where a newcomer is stored. *)
Fixpoint tail_slot (fuel : nat) (s : state) (p : tptr) : tptr :=
  match fuel with
  | O => p
  | S fuel' => match load s p with None => p | Some i => tail_slot fuel' s (Next i) end
  end.

Definition walk_fuel (s : state) : nat := S (length (tasks s)).

Definition enqueue (q t : nat) (s : state) : state :=
  let p := tail_slot (walk_fuel s) s (Head q) in
  upd t (set_queue (Some q)) (upd t (set_next None) (store p (Some t) s)).

Fixpoint dequeue_loop (fuel : nat) (p : tptr) (t : nat) (s : state) : state :=
  match fuel with
  | O => s
  | S fuel' =>
      match load s p with
      | None => s
      | Some i =>
          if decide (i = t)
          then upd t (set_queue None) (upd t (set_next None) (store p (load s (Next t)) s))
          else dequeue_loop fuel' (Next i) t s
      end
  end.
Definition dequeue (q t : nat) (s : state) : state := dequeue_loop (walk_fuel s) (Head q) t s.

Definition queue_is (s : state) (t q : nat) : bool :=
  match tasks s !! t with Some x => bool_decide (queue x = Some q) | None => false end.

(** [sleep_on] by task [me]: [others] is what happens in [schedule]. *)
Definition fall_asleep (q me : nat) (s : state) : state := upd me (set_state TASK_BLOCKED) (enqueue q me s).
Definition back_again (q me : nat) (s : state) : state := if queue_is s me q then dequeue q me s else s.
Definition sleep_on (others : state -> state) (q me : nat) (s : state) : state :=
  back_again q me (others (fall_asleep q me s)).

(** The tick a sleep of [ms] milliseconds begun at tick [now] ends at. *)
Definition deadline_of (now ms : Z) : Z := u32 (now + u32 (u32 (ms * HZ) + 999) / 1000).

Definition is_woken (s : state) (t : nat) : bool := match tasks s !! t with Some x => woken x | None => false end.

(** Each turn: what others do, and the tick it is afterwards. [None] when
    still asleep after the last. *)
Fixpoint timeout_loop (e : list ((state -> state) * Z)) (deadline : Z) (q me : nat) (s : state) : option (bool * state) :=
  match e with
  | [] => None
  | (others, now) :: e' =>
      let s := upd me (set_wake_at deadline) (fall_asleep q me (upd me (set_woken false) s)) in
      let s := upd me (set_wake_at 0) (back_again q me (others s)) in
      if is_woken s me then Some (true, upd me (set_woken false) s)
      else if 0 <=? s32 (now - deadline) then Some (false, s)
      else timeout_loop e' deadline q me s
  end.
Definition sleep_on_timeout (e : list ((state -> state) * Z)) (now ms : Z) (q me : nat) (s : state) :
    option (bool * state) :=
  timeout_loop e (deadline_of now ms) q me s.

Definition wake_task (t : nat) (s : state) : state :=
  upd t (set_woken true)
    (upd t (fun x => if decide (t_state x = TASK_BLOCKED) then set_state TASK_READY x else x) s).

Definition wake_signalled (t : nat) (s : state) : state :=
  let s := match tasks s !! t with
           | Some x => match queue x with Some q => dequeue q t s | None => s end
           | None => s
           end in
  wake_task t s.

Definition wake_one (q : nat) (s : state) : state :=
  match load s (Head q) with
  | None => s
  | Some t =>
      wake_task t (upd t (set_queue None) (upd t (set_next None) (set_head q (load s (Next t)) s)))
  end.

Fixpoint wake_loop (fuel : nat) (p : option nat) (s : state) : state :=
  match fuel, p with
  | S fuel', Some t =>
      let nxt := load s (Next t) in
      wake_loop fuel' nxt (wake_task t (upd t (set_queue None) (upd t (set_next None) s)))
  | _, _ => s
  end.
Definition wake_all (q : nat) (s : state) : state :=
  wake_loop (length (tasks s)) (load s (Head q)) (set_head q None s).

(** The expiry of one task's sleep, from the tick: off its queue by hand. *)
Fixpoint unlink_loop (fuel : nat) (q : nat) (prev : option nat) (p : option nat) (t : nat) (s : state) : state :=
  match fuel, p with
  | S fuel', Some i =>
      if decide (i = t) then
        match prev with
        | Some j => upd j (set_next (load s (Next t))) s
        | None => set_head q (load s (Next t)) s
        end
      else unlink_loop fuel' q (Some i) (load s (Next i)) t s
  | _, _ => s
  end.
Definition expire (now : Z) (t : nat) (s : state) : state :=
  match tasks s !! t with
  | None => s
  | Some x =>
      if bool_decide (t_state x = TASK_BLOCKED) && negb (wake_at x =? 0) && (0 <=? s32 (now - wake_at x)) then
        let s := match queue x with
                 | Some q =>
                     upd t (set_next None) (upd t (set_queue None)
                       (unlink_loop (walk_fuel s) q None (load s (Head q)) t s))
                 | None => s
                 end in
        upd t (set_state TASK_READY) (upd t (set_wake_at 0) s)
      else s
  end.

(** The two halves of the tick's walk over the table. *)
Definition task_timeouts (now : Z) (s : state) : state :=
  foldl (fun s i => expire now i s) s (seq 0 (length (tasks s))).

(** *** Semaphores and mutexes

    Both keep their own queue; [q] is its place among the heads. *)
Record semaphore := mk_sem { count : Z; s_wait : nat }.
Definition sem_init (c : Z) (q : nat) (s : state) : semaphore * state := (mk_sem c q, set_head q None s).

(** One turn of sem_wait up to the sleep: has it taken a permit. *)
Definition sem_take (m : semaphore) : bool * semaphore :=
  if 0 <? count m then (true, mk_sem (count m - 1) (s_wait m)) else (false, m).
Definition sem_trywait (m : semaphore) : bool * semaphore := sem_take m.
Definition sem_post (m : semaphore) (s : state) : semaphore * state :=
  (mk_sem (s32 (count m + 1)) (s_wait m), wake_one (s_wait m) s).

Record mutex := mk_mutex { locked : bool; owner : option nat; m_wait : nat }.
Definition mutex_init (q : nat) (s : state) : mutex * state := (mk_mutex false None q, set_head q None s).

(** One turn of mutex_lock up to the sleep. *)
Inductive lock_turn := Taken (m : mutex) | Panic | MustSleep.
Definition mutex_lock_turn (me : nat) (m : mutex) : lock_turn :=
  if negb (locked m) then Taken (mk_mutex true (Some me) (m_wait m))
  else if decide (owner m = Some me) then Panic
  else MustSleep.
Definition mutex_trylock (me : nat) (m : mutex) : bool * mutex :=
  if negb (locked m) then (true, mk_mutex true (Some me) (m_wait m)) else (false, m).
Definition mutex_unlock (m : mutex) (s : state) : mutex * state :=
  (mk_mutex false None (m_wait m), wake_one (m_wait m) s).

(** ** What a queue promises

    First come, first served: every queue is a list of tasks. The links are
    gone; what is left of a task is its state, its flag and its alarm. *)
Definition attrs (t : task) : tstate * bool * Z := (t_state t, woken t, wake_at t).
Record fifo := mk_fifo { line : nat -> list nat; who : list (tstate * bool * Z) }.

Definition f_state (x : tstate) (a : tstate * bool * Z) : tstate * bool * Z := (x, snd (fst a), snd a).
Definition f_wake (a : tstate * bool * Z) : tstate * bool * Z :=
  (if decide (fst (fst a) = TASK_BLOCKED) then TASK_READY else fst (fst a), true, snd a).
Definition without (t : nat) (l : list nat) : list nat := filter (.≠ t) l.

Inductive op :=
  | Sleep (q t : nat) | Back (q t : nat) | WakeOne (q : nat) | WakeAll (q : nat)
  | Signal (t : nat) | Expire (now : Z) (t : nat).

Definition due (now : Z) (a : tstate * bool * Z) : bool :=
  bool_decide (fst (fst a) = TASK_BLOCKED) && negb (snd a =? 0) && (0 <=? s32 (now - snd a)).

Definition f_op (o : op) (a : fifo) : fifo :=
  match o with
  | Sleep q t => mk_fifo (<[q := line a q ++ [t]]> (line a)) (alter (f_state TASK_BLOCKED) t (who a))
  | Back q t => mk_fifo (<[q := without t (line a q)]> (line a)) (who a)
  | WakeOne q =>
      match line a q with
      | [] => a
      | t :: l => mk_fifo (<[q := l]> (line a)) (alter f_wake t (who a))
      end
  | WakeAll q => mk_fifo (<[q := []]> (line a)) (foldl (fun w t => alter f_wake t w) (who a) (line a q))
  | Signal t => mk_fifo (fun q => without t (line a q)) (alter f_wake t (who a))
  | Expire now t =>
      match who a !! t with
      | Some x =>
          if due now x
          then mk_fifo (fun q => without t (line a q)) (alter (fun x => (TASK_READY, snd (fst x), 0)) t (who a))
          else a
      | None => a
      end
  end.

Definition run_op (o : op) (s : state) : state :=
  match o with
  | Sleep q t => fall_asleep q t s
  | Back q t => back_again q t s
  | WakeOne q => wake_one q s
  | WakeAll q => wake_all q s
  | Signal t => wake_signalled t s
  | Expire now t => expire now t s
  end.

(** Only a task that is on no queue goes to sleep. *)
Definition op_ok (o : op) (s : state) : Prop :=
  match o with
  | Sleep q t => (q < length (heads s))%nat /\ exists x, tasks s !! t = Some x /\ queue x = None
  | _ => True
  end.

(** ** The chains are the lists *)

Fixpoint path (s : state) (p : tptr) (l : list nat) : Prop :=
  match l with
  | [] => load s p = None
  | i :: l' => load s p = Some i /\ path s (Next i) l'
  end.
Definition on_queue (s : state) (i : nat) : option nat := t ← tasks s !! i; queue t.

Record wq_ok (s : state) (Q : nat -> list nat) : Prop := mk_wq_ok {
  wq_path : forall q, path s (Head q) (Q q);
  wq_nodup : forall q, NoDup (Q q);
  wq_member : forall q i, i ∈ Q q <-> on_queue s i = Some q;
  wq_off : forall i, on_queue s i = None -> load s (Next i) = None;
}.
Definition refines (s : state) (a : fifo) : Prop := wq_ok s (line a) /\ attrs <$> tasks s = who a.

Definition last_slot (p : tptr) (l : list nat) : tptr := match last l with None => p | Some i => Next i end.
(** Task [t] taken out of the chain at slot [p]. *)
Definition cut (p : tptr) (t : nat) (s : state) : state :=
  upd t (set_queue None) (upd t (set_next None) (store p (load s (Next t)) s)).

Definition valid (s : state) (p : tptr) : Prop :=
  match p with Head q => (q < length (heads s))%nat | Next i => (i < length (tasks s))%nat end.

#[export] Instance tptr_eq_dec : EqDecision tptr.
Proof. solve_decision. Defined.

Lemma load_store s p v p' : valid s p -> load (store p v s) p' = if decide (p' = p) then v else load s p'.
Proof.
  destruct p as [q|i], p' as [q'|i']; cbn [load store set_head upd tasks heads valid]; intros Hv.
  - destruct (decide (q = q')) as [->|Hn].
    + rewrite list_lookup_insert_eq by done. by rewrite decide_True.
    + rewrite list_lookup_insert_ne by done. rewrite decide_False; [done|congruence].
  - by rewrite decide_False.
  - by rewrite decide_False.
  - destruct (decide (i = i')) as [->|Hn].
    + rewrite list_lookup_alter_eq. apply lookup_lt_is_Some_2 in Hv as [x ->]. by rewrite decide_True.
    + rewrite list_lookup_alter_ne by done. rewrite decide_False; [done|congruence].
Qed.
Lemma load_upd_queue s t q p : load (upd t (set_queue q) s) p = load s p.
Proof.
  destruct p as [q'|i]; cbn [load upd tasks heads]; [done|].
  destruct (decide (t = i)) as [->|Hn]; [|by rewrite list_lookup_alter_ne].
  rewrite list_lookup_alter_eq. by destruct (tasks s !! i).
Qed.
Lemma queue_of_upd s t f i :
  on_queue (upd t f s) i = if decide (i = t) then x ← tasks s !! t; queue (f x) else on_queue s i.
Proof.
  unfold on_queue. cbn [upd tasks]. case_decide as E; [subst|by rewrite list_lookup_alter_ne].
  rewrite list_lookup_alter_eq. by destruct (tasks s !! t).
Qed.
Lemma queue_of_store s p v i : on_queue (store p v s) i = on_queue s i.
Proof.
  destruct p as [q|j]; [done|]. cbn [store]. rewrite queue_of_upd. case_decide as E; [subst|done].
  unfold on_queue. by destruct (tasks s !! j).
Qed.
Lemma queue_of_lt s i q : on_queue s i = Some q -> (i < length (tasks s))%nat.
Proof. unfold on_queue. destruct (tasks s !! i) eqn:E; [|done]. intros _. by eapply lookup_lt_Some. Qed.
Lemma store_shape s p v : length (tasks (store p v s)) = length (tasks s) /\ length (heads (store p v s)) = length (heads s).
Proof. destruct p; cbn [store set_head upd tasks heads]; by rewrite ?length_alter, ?length_insert. Qed.

(** What both halves of a change of chain leave: [t]'s own link and queue set,
    one slot stored to. *)
Definition relink (p : tptr) (v : option nat) (t : nat) (q : option nat) (s : state) : state :=
  upd t (set_queue q) (upd t (set_next None) (store p v s)).

Lemma relink_load s p v t q p' :
  valid s p -> (t < length (tasks s))%nat ->
  load (relink p v t q s) p' = if decide (p' = Next t) then None else if decide (p' = p) then v else load s p'.
Proof.
  intros Hv Ht. unfold relink. rewrite load_upd_queue.
  change (upd t (set_next None) ?x) with (store (Next t) None x).
  rewrite load_store by (cbn [valid]; by rewrite (proj1 (store_shape _ _ _))).
  case_decide; [done|]. by apply load_store.
Qed.
Lemma relink_queue_of s p v t q i :
  (t < length (tasks s))%nat -> on_queue (relink p v t q s) i = if decide (i = t) then q else on_queue s i.
Proof.
  intros Ht. unfold relink. change (upd t (set_next None) ?x) with (store (Next t) None x).
  rewrite queue_of_upd. case_decide; [|by rewrite !queue_of_store].
  assert (is_Some (tasks (store (Next t) None (store p v s)) !! t)) as [x ->]; [|done].
  apply lookup_lt_is_Some_2. by rewrite !(proj1 (store_shape _ _ _)).
Qed.
Lemma attrs_upd s t f g :
  (forall x, attrs (f x) = g (attrs x)) -> attrs <$> tasks (upd t f s) = alter g t (attrs <$> tasks s).
Proof. intros H. cbn [upd tasks]. apply list_fmap_alter. by apply Forall_true. Qed.
Lemma attrs_upd_same s t f : (forall x, attrs (f x) = attrs x) -> attrs <$> tasks (upd t f s) = attrs <$> tasks s.
Proof. intros H. rewrite (attrs_upd _ _ _ id); [|done]. apply list_alter_id. done. Qed.
Lemma relink_attrs s p v t q : attrs <$> tasks (relink p v t q s) = attrs <$> tasks s.
Proof.
  unfold relink. rewrite !attrs_upd_same by done. destruct p; [done|]. cbn [store]. by rewrite attrs_upd_same.
Qed.

Lemma path_frame s s' p l :
  (forall p', p' = p \/ (exists i, i ∈ l /\ p' = Next i) -> load s' p' = load s p') -> path s p l -> path s' p l.
Proof.
  revert p. induction l as [|i l IH]; intros p H; cbn [path]; [by rewrite H; auto|].
  intros [H1 H2]. rewrite H by auto. split; [done|]. apply IH; [|done].
  intros p' [->|(j & Hj & ->)]; apply H; right; [exists i|exists j]; split; auto; constructor; auto.
Qed.
Lemma last_slot_cons p i l : last_slot p (i :: l) = last_slot (Next i) l.
Proof. unfold last_slot. rewrite last_cons. by destruct (last l). Qed.
Lemma last_slot_in p l : last_slot p l = p \/ exists i, i ∈ l /\ last_slot p l = Next i.
Proof.
  unfold last_slot. destruct (last l) as [i|] eqn:E; [|by left]. right. exists i. split; [|done].
  rewrite last_lookup in E. by apply list_elem_of_lookup_2 in E.
Qed.

Lemma cut_path s s' p t l1 l2 :
  (forall p', load s' p' = if decide (p' = Next t) then None
              else if decide (p' = last_slot p l1) then load s (Next t) else load s p') ->
  path s p (l1 ++ t :: l2) -> NoDup (l1 ++ t :: l2) -> (forall i, i ∈ l1 ++ t :: l2 -> p <> Next i) ->
  path s' p (l1 ++ l2).
Proof.
  revert p. induction l1 as [|i l1 IH]; intros p HL HP HN Hp.
  - cbn [app] in *. destruct HP as [H1 H2]. apply NoDup_cons in HN as [HN1 HN2].
    assert (HL0 : load s' p = load s (Next t)).
    { rewrite HL. rewrite decide_False by (apply Hp; constructor). by rewrite decide_True. }
    destruct l2 as [|j l2]; cbn [path] in *; rewrite HL0; [done|]. destruct H2 as [H2 H3]. split; [done|].
    eapply path_frame; [|exact H3]. intros p' Hp'. rewrite HL.
    assert (exists x, x ∈ j :: l2 /\ p' = Next x) as (x & Hx & ->).
    { destruct Hp' as [->|(y & Hy & ->)]; eauto; eexists; (split; [|done]); constructor; auto. }
    rewrite decide_False by congruence. rewrite decide_False; [done|]. cbn [last_slot last].
    intros E. symmetry in E. revert E. apply Hp. by constructor.
  - cbn [app path] in *. destruct HP as [H1 H2]. apply NoDup_cons in HN as [HN1 HN2]. rewrite last_slot_cons in HL.
    split.
    + rewrite HL, decide_False by (apply Hp; rewrite elem_of_cons, elem_of_app, elem_of_cons; auto).
      rewrite decide_False; [done|]. destruct (last_slot_in (Next i) l1) as [->|(j & Hj & ->)]; apply Hp.
      * constructor.
      * rewrite elem_of_cons, elem_of_app. auto.
    + apply IH; [done..|]. intros j Hj [= ->]. done.
Qed.
Lemma app_path s s' p t l :
  (forall p', load s' p' = if decide (p' = Next t) then None
              else if decide (p' = last_slot p l) then Some t else load s p') ->
  path s p l -> NoDup l -> t ∉ l -> (forall i, i ∈ t :: l -> p <> Next i) -> path s' p (l ++ [t]).
Proof.
  revert p. induction l as [|i l IH]; intros p HL HP HN Ht Hp.
  - cbn [app path]. rewrite !HL. rewrite decide_False by (apply Hp; constructor). rewrite decide_True by done.
    by rewrite decide_True.
  - cbn [app path] in *. destruct HP as [H1 H2]. apply NoDup_cons in HN as [HN1 HN2]. rewrite last_slot_cons in HL.
    apply not_elem_of_cons in Ht as [Ht1 Ht2]. split.
    + rewrite HL, decide_False by (apply Hp; constructor). rewrite decide_False; [done|].
      destruct (last_slot_in (Next i) l) as [->|(j & Hj & ->)]; apply Hp; rewrite !elem_of_cons; auto.
    + apply IH; try done. intros j [->|Hj]%elem_of_cons [= ->]; done.
Qed.

Lemma wq_ok_ext s Q Q' : (forall q, Q q = Q' q) -> wq_ok s Q -> wq_ok s Q'.
Proof.
  intros E [H1 H2 H3 H4]. constructor; [..|done].
  - intros q. rewrite <- E. apply H1.
  - intros q. rewrite <- E. apply H2.
  - intros q i. rewrite <- E. apply H3.
Qed.
(** The state outside the links and queues does not matter. *)
Lemma wq_ok_upd s Q t f :
  (forall x, wait_next (f x) = wait_next x /\ queue (f x) = queue x) -> wq_ok s Q -> wq_ok (upd t f s) Q.
Proof.
  intros Hf [H1 H2 H3 H4].
  assert (HL : forall p, load (upd t f s) p = load s p).
  { intros [q|i]; [done|]. cbn [load upd tasks]. destruct (decide (t = i)) as [->|Hn];
      [rewrite list_lookup_alter_eq|by rewrite list_lookup_alter_ne].
    destruct (tasks s !! i) as [x|]; [|done]. apply (Hf x). }
  assert (HQ : forall i, on_queue (upd t f s) i = on_queue s i).
  { intros i. rewrite queue_of_upd. case_decide; [subst|done]. unfold on_queue.
    destruct (tasks s !! t) as [x|]; [|done]. apply (Hf x). }
  constructor; [..|by intros i; rewrite HQ, HL; apply H4]; [|done|by intros q i; rewrite HQ].
  intros q. by eapply path_frame; [|apply H1].
Qed.
Lemma member_lt s Q q i : wq_ok s Q -> i ∈ Q q -> (i < length (tasks s))%nat.
Proof. intros H Hi. eapply queue_of_lt. by apply (wq_member _ _ H). Qed.
Lemma member_head s Q q i : wq_ok s Q -> i ∈ Q q -> (q < length (heads s))%nat.
Proof.
  intros H Hi. pose proof (wq_path _ _ H q) as HP. destruct (Q q) as [|j l]; [by apply elem_of_nil in Hi|].
  destruct HP as [HP _]. cbn [load] in HP. destruct (heads s !! q) eqn:E; [|done]. by eapply lookup_lt_Some.
Qed.
Lemma line_length s Q q : wq_ok s Q -> (length (Q q) <= length (tasks s))%nat.
Proof.
  intros H. transitivity (length (seq 0 (length (tasks s)))); [|by rewrite length_seq].
  apply submseteq_length, NoDup_submseteq.
  - apply H.
  - intros i Hi. apply elem_of_seq. pose proof (member_lt _ _ _ _ H Hi). lia.
Qed.
Lemma last_slot_valid s Q q l :
  wq_ok s Q -> (q < length (heads s))%nat -> (forall i, i ∈ l -> i ∈ Q q) -> valid s (last_slot (Head q) l).
Proof.
  intros H Hq Hl. destruct (last_slot_in (Head q) l) as [->|(i & Hi & ->)]; [done|].
  eapply member_lt; [done|]. by apply Hl.
Qed.
(** A change to the chain of one queue leaves the others' alone. *)
Lemma other_path s s' Q q q' t p v l :
  wq_ok s Q -> q' <> q -> (forall p', load s' p' = if decide (p' = Next t) then None
              else if decide (p' = p) then v else load s p') ->
  p = last_slot (Head q) l -> (forall i, i ∈ l -> i ∈ Q q) -> t ∉ Q q' -> path s' (Head q') (Q q').
Proof.
  intros H Hne HL -> Hl Ht. eapply path_frame; [|apply H]. intros p' Hp'. rewrite HL.
  rewrite decide_False; [|by destruct Hp' as [->|(i & Hi & ->)]; [|congruence]].
  rewrite decide_False; [done|]. intros ->.
  destruct (last_slot_in (Head q) l) as [E|(i & Hi & E)]; rewrite E in Hp';
    destruct Hp' as [E'|(j & Hj & E')]; try congruence. injection E' as <-.
  apply Hl, (wq_member _ _ H) in Hi. apply (wq_member _ _ H) in Hj. congruence.
Qed.

Lemma cut_ok s Q q t l1 l2 :
  wq_ok s Q -> Q q = l1 ++ t :: l2 ->
  wq_ok (relink (last_slot (Head q) l1) (load s (Next t)) t None s) (<[q := l1 ++ l2]> Q).
Proof.
  intros H E.
  assert (Ht : t ∈ Q q) by (rewrite E, elem_of_app, elem_of_cons; auto).
  assert (Hl : forall i, i ∈ l1 -> i ∈ Q q) by (intros i; rewrite E, elem_of_app; auto).
  pose proof (wq_nodup _ _ H q) as HN. rewrite E in HN. pose proof (member_lt _ _ _ _ H Ht) as Hlt.
  pose proof (last_slot_valid _ _ _ _ H (member_head _ _ _ _ H Ht) Hl) as Hv.
  pose proof (fun p' => relink_load s (last_slot (Head q) l1) (load s (Next t)) t None p' Hv Hlt) as HL.
  assert (HN' : NoDup (l1 ++ l2) /\ t ∉ l1 ++ l2).
  { apply NoDup_app in HN as (N1 & N2 & N3). apply NoDup_cons in N3 as [N3 N4]. split.
    - apply NoDup_app. split; [done|]. split; [|done]. intros x Hx Hx2. apply (N2 x Hx). by constructor.
    - rewrite elem_of_app. intros [Hx|Hx]; [|done]. apply (N2 t Hx). constructor. }
  destruct HN' as [HN1 HN2]. constructor.
  - intros q'. destruct (decide (q' = q)) as [->|Hne].
    + rewrite fn_lookup_insert. eapply cut_path; [exact HL| |done|done].
      rewrite <- E. apply H.
    + rewrite fn_lookup_insert_ne by done. eapply other_path; [done|done|exact HL|done|done|].
      intros Ht'. apply (wq_member _ _ H) in Ht, Ht'. congruence.
  - intros q'. destruct (decide (q' = q)) as [->|Hne]; [by rewrite fn_lookup_insert|].
    rewrite fn_lookup_insert_ne by done. apply H.
  - intros q' i. rewrite relink_queue_of by done. destruct (decide (q' = q)) as [->|Hne].
    + rewrite fn_lookup_insert. case_decide; [subst; split; [by intros ?%HN2|done]|].
      rewrite <- (wq_member _ _ H), E, !elem_of_app, elem_of_cons. tauto.
    + rewrite fn_lookup_insert_ne by done. case_decide; [subst|by apply H].
      split; [|done]. intros Ht'. apply (wq_member _ _ H) in Ht, Ht'. congruence.
  - intros i. rewrite relink_queue_of, HL by done. case_decide as E1; [subst; by rewrite decide_True|].
    rewrite decide_False by congruence. intros Hi. rewrite decide_False; [by apply H|].
    intros E2. destruct (last_slot_in (Head q) l1) as [E'|(j & Hj & E')]; rewrite E' in E2; [done|].
    injection E2 as ->. apply Hl, (wq_member _ _ H) in Hj. congruence.
Qed.

Lemma append_ok s Q q t :
  wq_ok s Q -> (q < length (heads s))%nat -> (t < length (tasks s))%nat -> on_queue s t = None ->
  wq_ok (relink (last_slot (Head q) (Q q)) (Some t) t (Some q) s) (<[q := Q q ++ [t]]> Q).
Proof.
  intros H Hq Hlt Hoff.
  assert (Ht : forall q', t ∉ Q q') by (intros q' Hi; apply (wq_member _ _ H) in Hi; congruence).
  pose proof (last_slot_valid _ _ _ _ H Hq (fun i Hi => Hi)) as Hv.
  pose proof (fun p' => relink_load s (last_slot (Head q) (Q q)) (Some t) t (Some q) p' Hv Hlt) as HL.
  constructor.
  - intros q'. destruct (decide (q' = q)) as [->|Hne].
    + rewrite fn_lookup_insert. eapply app_path; [exact HL|apply H|apply H|done|done].
    + rewrite fn_lookup_insert_ne by done. by eapply other_path; [done|done|exact HL|..].
  - intros q'. destruct (decide (q' = q)) as [->|Hne].
    + rewrite fn_lookup_insert. apply NoDup_app. split; [apply H|]. split; [|apply NoDup_singleton].
      intros x Hx ->%list_elem_of_singleton. by apply (Ht q).
    + rewrite fn_lookup_insert_ne by done. apply H.
  - intros q' i. rewrite relink_queue_of by done. destruct (decide (q' = q)) as [->|Hne].
    + rewrite fn_lookup_insert, elem_of_app, list_elem_of_singleton. case_decide; [naive_solver|].
      rewrite <- (wq_member _ _ H). tauto.
    + rewrite fn_lookup_insert_ne by done. case_decide; [subst|by apply H]. split; [by intros ?%Ht|congruence].
  - intros i. rewrite relink_queue_of, HL by done. case_decide as E1; [done|].
    rewrite decide_False by congruence. intros Hi. rewrite decide_False; [by apply H|].
    intros E2. destruct (last_slot_in (Head q) (Q q)) as [E'|(j & Hj & E')]; rewrite E' in E2; [done|].
    injection E2 as ->. apply (wq_member _ _ H) in Hj. congruence.
Qed.

(** ** The walks *)

Lemma tail_slot_end s p l fuel : path s p l -> (length l < fuel)%nat -> tail_slot fuel s p = last_slot p l.
Proof.
  revert p fuel. induction l as [|i l IH]; intros p [|fuel] HP Hf; try (cbn in Hf; lia); cbn [tail_slot path] in *.
  - by rewrite HP.
  - destruct HP as [-> HP]. rewrite last_slot_cons. apply IH; [done|cbn in Hf; lia].
Qed.
Lemma dequeue_loop_found s p t l1 l2 fuel :
  path s p (l1 ++ t :: l2) -> t ∉ l1 -> (length l1 < fuel)%nat ->
  dequeue_loop fuel p t s = relink (last_slot p l1) (load s (Next t)) t None s.
Proof.
  revert p fuel. induction l1 as [|i l1 IH]; intros p [|fuel] HP Ht Hf; try (cbn in Hf; lia);
    cbn [dequeue_loop path app] in *; destruct HP as [-> HP].
  - by rewrite decide_True.
  - apply not_elem_of_cons in Ht as [Ht1 Ht2]. rewrite decide_False by done. rewrite last_slot_cons.
    apply IH; [done..|]. cbn in Hf. lia.
Qed.
Lemma dequeue_loop_absent s p t l fuel : path s p l -> t ∉ l -> dequeue_loop fuel p t s = s.
Proof.
  revert p fuel. induction l as [|i l IH]; intros p [|fuel] HP Ht; try done; cbn [dequeue_loop path] in *.
  - by rewrite HP.
  - apply not_elem_of_cons in Ht as [Ht1 Ht2]. destruct HP as [-> HP]. rewrite decide_False by done. by apply IH.
Qed.
Definition prev_slot (q : nat) (prev : option nat) : tptr := match prev with Some j => Next j | None => Head q end.
Lemma unlink_loop_found s q prev p t l1 l2 fuel :
  path s (prev_slot q prev) (l1 ++ t :: l2) -> t ∉ l1 -> (length l1 < fuel)%nat -> p = load s (prev_slot q prev) ->
  unlink_loop fuel q prev p t s = store (last_slot (prev_slot q prev) l1) (load s (Next t)) s.
Proof.
  revert prev p fuel. induction l1 as [|i l1 IH]; intros prev p [|fuel] HP Ht Hf ->; try (cbn in Hf; lia);
    cbn [unlink_loop path app] in *; destruct HP as [-> HP].
  - rewrite decide_True by done. by destruct prev.
  - apply not_elem_of_cons in Ht as [Ht1 Ht2]. rewrite decide_False by done. rewrite last_slot_cons.
    apply (IH (Some i)); [done..| |done]. cbn in Hf. lia.
Qed.

Lemma upd_comm s t f g : (forall x, f (g x) = g (f x)) -> upd t f (upd t g s) = upd t g (upd t f s).
Proof. intros H. unfold upd. cbn [tasks heads]. f_equal. rewrite !list_alter_alter_eq. apply list_alter_ext; [|done]. intros x _. apply H. Qed.

Lemma without_absent t l : t ∉ l -> without t l = l.
Proof.
  induction l as [|i l IH]; [done|]. intros [H1 H2]%not_elem_of_cons. unfold without in *.
  rewrite filter_cons_True by done. by rewrite IH.
Qed.
Lemma without_split t l1 l2 : NoDup (l1 ++ t :: l2) -> without t (l1 ++ t :: l2) = l1 ++ l2.
Proof.
  intros (N1 & N2 & N3)%NoDup_app. apply NoDup_cons in N3 as [N3 N4]. unfold without. rewrite filter_app.
  rewrite filter_cons_False by naive_solver. f_equal; apply without_absent; [|done].
  intros Hx. apply (N2 t Hx). constructor.
Qed.
Lemma split_first t (l : list nat) : t ∈ l -> exists l1 l2, l = l1 ++ t :: l2 /\ t ∉ l1.
Proof. apply list_elem_of_split_l. Qed.

(** ** Every operation does what the list does *)

Lemma fn_insert_id (f : nat -> list nat) q l q' : f q = l -> (<[q := l]> f) q' = f q'.
Proof.
  intros <-. destruct (decide (q' = q)) as [->|Hne]; [by rewrite fn_lookup_insert|by rewrite fn_lookup_insert_ne].
Qed.

Lemma refines_ext s a a' : (forall q, line a q = line a' q) -> who a = who a' -> refines s a -> refines s a'.
Proof. intros E1 E2 [H1 H2]. split; [by eapply wq_ok_ext|congruence]. Qed.
Lemma refines_upd s a t f g :
  (forall x, wait_next (f x) = wait_next x /\ queue (f x) = queue x) -> (forall x, attrs (f x) = g (attrs x)) ->
  refines s a -> refines (upd t f s) (mk_fifo (line a) (alter g t (who a))).
Proof. intros Hf Hg [H1 H2]. split; [by apply wq_ok_upd|]. rewrite (attrs_upd _ _ _ g); [by rewrite H2|done]. Qed.
Lemma wake_task_refines s a t : refines s a -> refines (wake_task t s) (mk_fifo (line a) (alter f_wake t (who a))).
Proof.
  intros H. unfold wake_task.
  assert (E : upd t (set_woken true)
                (upd t (fun x => if decide (t_state x = TASK_BLOCKED) then set_state TASK_READY x else x) s)
              = upd t (fun x => set_woken true
                  (if decide (t_state x = TASK_BLOCKED) then set_state TASK_READY x else x)) s).
  { unfold upd. cbn [tasks heads]. by rewrite list_alter_alter_eq. }
  rewrite E. apply refines_upd; [..|done]; intros x; unfold attrs, f_wake; cbn [fst snd]; by case_decide.
Qed.

(** Off a queue by either walk. *)
Lemma cut_refines s a q t l1 l2 :
  refines s a -> line a q = l1 ++ t :: l2 ->
  refines (relink (last_slot (Head q) l1) (load s (Next t)) t None s) (mk_fifo (<[q := l1 ++ l2]> (line a)) (who a)).
Proof. intros [H1 H2] E. split; [by apply cut_ok|]. by rewrite relink_attrs. Qed.
Lemma found_fuel s Q q l1 t l2 : wq_ok s Q -> Q q = l1 ++ t :: l2 -> (length l1 < walk_fuel s)%nat.
Proof. intros H E. pose proof (line_length _ _ q H) as HL. rewrite E, length_app in HL. unfold walk_fuel. lia. Qed.
Lemma dequeue_refines s a q t :
  refines s a -> refines (dequeue q t s) (mk_fifo (<[q := without t (line a q)]> (line a)) (who a)).
Proof.
  intros H. destruct (decide (t ∈ line a q)) as [Ht|Ht].
  - destruct (split_first _ _ Ht) as (l1 & l2 & E & Hl1). unfold dequeue.
    rewrite (dequeue_loop_found _ _ _ l1 l2); [|rewrite <- E; apply H|done|by eapply found_fuel; [apply H|]].
    rewrite E, without_split by (rewrite <- E; apply H). by apply cut_refines.
  - unfold dequeue. rewrite (dequeue_loop_absent _ _ _ (line a q)); [|apply H|done].
    rewrite without_absent by done. eapply refines_ext; [| |exact H]; [|done].
    intros q'. cbn [line]. by rewrite fn_insert_id.
Qed.
(** A task is on one queue at most, so taking it off that one is taking it
    off all. *)
Lemma off_all s a t q q' :
  refines s a -> on_queue s t = Some q -> (<[q := without t (line a q)]> (line a)) q' = without t (line a q').
Proof.
  intros [H _] Hq. destruct (decide (q' = q)) as [->|Hne]; [by rewrite fn_lookup_insert|].
  rewrite fn_lookup_insert_ne, without_absent; [done| |done]. intros Hi. apply (wq_member _ _ H) in Hi. congruence.
Qed.
Lemma off_none s a t q' : refines s a -> on_queue s t = None -> line a q' = without t (line a q').
Proof. intros [H _] Hq. rewrite without_absent; [done|]. intros Hi. apply (wq_member _ _ H) in Hi. congruence. Qed.

Lemma sleep_refines s a q t :
  refines s a -> op_ok (Sleep q t) s -> refines (fall_asleep q t s) (f_op (Sleep q t) a).
Proof.
  intros H (Hq & x & Hx & Hoff). unfold fall_asleep, enqueue.
  rewrite (tail_slot_end _ _ (line a q));
    [|apply H|pose proof (line_length _ _ q (proj1 H)); unfold walk_fuel; lia].
  apply (refines_upd _ (mk_fifo (<[q := line a q ++ [t]]> (line a)) (who a))); [done..|].
  destruct H as [H1 H2]. split; [|etransitivity; [apply (relink_attrs s _ (Some t) t (Some q))|done]].
  apply append_ok; [done|done|by eapply lookup_lt_Some|]. unfold on_queue. by rewrite Hx.
Qed.
Lemma back_refines s a q t : refines s a -> refines (back_again q t s) (f_op (Back q t) a).
Proof.
  intros H. unfold back_again. destruct (queue_is s t q) eqn:E; [by apply dequeue_refines|].
  eapply refines_ext; [| |exact H]; [|done]. intros q'. cbn [f_op line].
  rewrite without_absent, fn_insert_id; [done..|]. intros Hi. apply (wq_member _ _ (proj1 H)) in Hi.
  unfold on_queue in Hi. unfold queue_is in E. destruct (tasks s !! t) as [x|]; [|done]. cbn in Hi.
  by rewrite bool_decide_true in E.
Qed.
Lemma wake_one_refines s a q : refines s a -> refines (wake_one q s) (f_op (WakeOne q) a).
Proof.
  intros H. unfold wake_one, f_op. pose proof (wq_path _ _ (proj1 H) q) as HP. destruct (line a q) as [|t l] eqn:E.
  - cbn [path] in HP. by rewrite HP.
  - destruct HP as [-> _]. pose proof (wake_task_refines _ _ t (cut_refines s a q t [] l H E)) as HC.
    cbn [line who app] in HC. exact HC.
Qed.
Lemma wake_loop_refines q l s a fuel :
  refines s a -> line a q = l -> (length l <= fuel)%nat ->
  refines (wake_loop fuel (load s (Head q)) (set_head q None s)) (f_op (WakeAll q) a).
Proof.
  revert s a fuel. induction l as [|t l IH]; intros s a fuel H E Hf.
  - pose proof (wq_path _ _ (proj1 H) q) as HP. rewrite E in HP. cbn [path] in HP. rewrite HP.
    assert (Es : set_head q None s = s).
    { destruct s as [ts hs]. unfold set_head. cbn [load tasks heads] in *. f_equal. destruct (hs !! q) as [h|] eqn:Eh.
      - apply list_insert_id. rewrite Eh. cbn in HP. congruence.
      - apply list_insert_ge. by apply lookup_ge_None. }
    rewrite Es. assert (wake_loop fuel None s = s) as -> by (by destruct fuel).
    eapply refines_ext; [| |exact H]; cbn [f_op line who]; [|by rewrite E]. intros q'. rewrite <- E. by rewrite fn_insert_id.
  - destruct fuel as [|fuel]; [cbn in Hf; lia|].
    pose proof (wake_one_refines s a q H) as H1. pose proof (wq_path _ _ (proj1 H) q) as HP.
    rewrite E in HP. destruct HP as [HP _].
    assert (Ew : wake_loop (S fuel) (load s (Head q)) (set_head q None s)
                 = wake_loop fuel (load (wake_one q s) (Head q)) (set_head q None (wake_one q s))).
    { assert (Hq : (q < length (heads s))%nat) by (eapply member_head; [apply H|rewrite E; constructor]).
      unfold wake_one. rewrite HP. cbn [wake_loop]. f_equal.
      - cbn [load wake_task upd set_head tasks heads]. by rewrite list_lookup_insert_eq.
      - unfold wake_task, upd, set_head. cbn [tasks heads]. by rewrite list_insert_insert_eq. }
    rewrite Ew. cbn [f_op] in H1. rewrite E in H1.
    eapply refines_ext; [| |apply (IH _ _ fuel H1)]; cbn [f_op line who].
    + intros q'. destruct (decide (q' = q)) as [->|Hne]; [by rewrite !fn_lookup_insert|by rewrite !fn_lookup_insert_ne].
    + by rewrite fn_lookup_insert, E.
    + by rewrite fn_lookup_insert.
    + cbn in Hf. lia.
Qed.
Lemma signal_refines s a t : refines s a -> refines (wake_signalled t s) (f_op (Signal t) a).
Proof.
  intros H. unfold wake_signalled, f_op.
  assert (Hw : forall s', refines s' (mk_fifo (fun q => without t (line a q)) (who a)) ->
            refines (wake_task t s') (mk_fifo (fun q => without t (line a q)) (alter f_wake t (who a)))).
  { intros s' H'. by apply (wake_task_refines _ (mk_fifo (fun q => without t (line a q)) (who a))). }
  apply Hw. destruct (on_queue s t) as [q|] eqn:E; unfold on_queue in E; destruct (tasks s !! t) as [x|] eqn:Ex;
    cbn in E; rewrite ?E; try done.
  - eapply refines_ext; [| |by apply (dequeue_refines _ _ q t H)]; [|done]. intros q'. cbn [line].
    eapply off_all; [done|]. unfold on_queue. by rewrite Ex.
  - eapply refines_ext; [| |exact H]; [|done]. intros q'. cbn [line]. eapply off_none; [done|]. unfold on_queue. by rewrite Ex.
  - eapply refines_ext; [| |exact H]; [|done]. intros q'. cbn [line]. eapply off_none; [done|]. unfold on_queue. by rewrite Ex.
Qed.
Lemma expire_refines s a now t : refines s a -> refines (expire now t s) (f_op (Expire now t) a).
Proof.
  intros H. unfold expire, f_op. pose proof (proj2 H) as HW.
  rewrite <- HW, list_lookup_fmap. destruct (tasks s !! t) as [x|] eqn:Ex; cbn [fmap option_fmap option_map]; [|done].
  unfold due. cbn [attrs fst snd]. destruct (bool_decide _ && negb _ && _); [|done]. rewrite HW.
  assert (Hw : forall s', refines s' (mk_fifo (fun q => without t (line a q)) (who a)) ->
            refines (upd t (set_state TASK_READY) (upd t (set_wake_at 0) s'))
              (mk_fifo (fun q => without t (line a q)) (alter (fun x => (TASK_READY, snd (fst x), 0)) t (who a)))).
  { intros s' H'. unfold upd. cbn [tasks heads]. rewrite list_alter_alter_eq.
    by apply (refines_upd _ (mk_fifo (fun q => without t (line a q)) (who a))
      t (set_state TASK_READY ∘ set_wake_at 0)). }
  apply Hw. destruct (queue x) as [q|] eqn:Eq.
  - assert (Hq : on_queue s t = Some q) by (unfold on_queue; by rewrite Ex).
    pose proof (proj2 (wq_member _ _ (proj1 H) q t) Hq) as Ht.
    destruct (split_first _ _ Ht) as (l1 & l2 & E & Hl1).
    rewrite (unlink_loop_found _ q None _ t l1 l2);
      [|cbn [prev_slot]; rewrite <- E; apply H|done|by eapply found_fuel; [apply H|]|done].
    rewrite upd_comm by done. eapply refines_ext; [| |by eapply cut_refines]; [|done].
    intros q'. cbn [line]. rewrite <- (off_all _ _ _ _ q' H Hq), E, without_split; [done|]. rewrite <- E. apply H.
  - eapply refines_ext; [| |exact H]; [|done]. intros q'. cbn [line]. eapply off_none; [done|]. unfold on_queue. by rewrite Ex.
Qed.

Lemma run_op_refines s a o : refines s a -> op_ok o s -> refines (run_op o s) (f_op o a).
Proof.
  intros H Ho. destruct o; cbn [run_op].
  - by apply sleep_refines.
  - by apply back_refines.
  - by apply wake_one_refines.
  - unfold wake_all. eapply wake_loop_refines; [done..|]. apply (line_length _ _ _ (proj1 H)).
  - by apply signal_refines.
  - by apply expire_refines.
Qed.

Lemma heads_length_upd s t f : length (heads (upd t f s)) = length (heads s).
Proof. done. Qed.
Lemma heads_length_relink s p v t q : length (heads (relink p v t q s)) = length (heads s).
Proof. unfold relink. rewrite !heads_length_upd. apply store_shape. Qed.
Lemma heads_length_dequeue s q t : length (heads (dequeue q t s)) = length (heads s).
Proof.
  unfold dequeue. generalize (walk_fuel s) (Head q). intros fuel. induction fuel as [|fuel IH]; intros p; [done|].
  cbn [dequeue_loop]. destruct (load s p) as [i|]; [|done]. case_decide; [|apply IH]. apply (heads_length_relink s p _ t None).
Qed.
Lemma heads_length_run_op o s :
  match o with WakeAll _ | Expire _ _ => False | _ => True end -> length (heads (run_op o s)) = length (heads s).
Proof.
  destruct o as [q t|q t|q|q|t|now t]; cbn [run_op]; intros Ho; try done.
  - unfold fall_asleep, enqueue. apply (heads_length_relink s _ (Some t) t (Some q)).
  - unfold back_again. destruct (queue_is s t q); [apply heads_length_dequeue|done].
  - unfold wake_one. destruct (load s (Head q)) as [t|]; [|done]. apply (heads_length_relink s (Head q) _ t None).
  - unfold wake_signalled. cbn [wake_task]. unfold wake_task. rewrite !heads_length_upd.
    destruct (tasks s !! t) as [x|]; [|done]. destruct (queue x); [apply heads_length_dequeue|done].
Qed.
Lemma heads_length_unlink fuel q prev p t s : length (heads (unlink_loop fuel q prev p t s)) = length (heads s).
Proof.
  revert prev p. induction fuel as [|fuel IH]; intros prev p; [done|]. cbn [unlink_loop]. destruct p as [i|]; [|done].
  case_decide; [|apply IH]. destruct prev; [done|]. cbn [set_head heads]. apply length_insert.
Qed.
Lemma heads_length_expire now t s : length (heads (expire now t s)) = length (heads s).
Proof.
  unfold expire. destruct (tasks s !! t) as [x|]; [|done]. destruct (_ && _); [|done]. rewrite !heads_length_upd.
  destruct (queue x) as [q|]; [|done]. rewrite !heads_length_upd. apply heads_length_unlink.
Qed.
Lemma expire_not_due s a now t x : refines s a -> who a !! t = Some x -> due now x = false -> expire now t s = s.
Proof.
  intros [_ HA] Hx Hd. unfold expire. rewrite <- HA, list_lookup_fmap in Hx. destruct (tasks s !! t) as [y|]; [|done].
  injection Hx as <-. unfold due in Hd. cbn [attrs fst snd] in Hd. by rewrite Hd.
Qed.

Fixpoint run_ops (os : list op) (s : state) : state :=
  match os with [] => s | o :: os' => run_ops os' (run_op o s) end.
Fixpoint f_ops (os : list op) (a : fifo) : fifo :=
  match os with [] => a | o :: os' => f_ops os' (f_op o a) end.
Fixpoint ops_ok (os : list op) (s : state) : Prop :=
  match os with [] => True | o :: os' => op_ok o s /\ ops_ok os' (run_op o s) end.

Lemma run_ops_refines os s a : refines s a -> ops_ok os s -> refines (run_ops os s) (f_ops os a).
Proof.
  revert s a. induction os as [|o os IH]; intros s a H Ho; [done|]. destruct Ho as [Ho1 Ho2].
  cbn [run_ops f_ops]. apply IH; [|done]. by apply run_op_refines.
Qed.

(** Tasks on no queue, queues empty. *)
Definition idle_task : task := mk_task TASK_READY None None false 0.
Definition boot (n m : nat) : state := mk_state (replicate n idle_task) (replicate m None).
Lemma boot_refines n m : refines (boot n m) (mk_fifo (fun _ => []) (replicate n (attrs idle_task))).
Proof.
  assert (HQ : forall i, on_queue (boot n m) i = None).
  { intros i. unfold on_queue, boot. cbn [tasks]. destruct (replicate n idle_task !! i) as [x|] eqn:E; [|done].
    by apply lookup_replicate in E as [-> _]. }
  split; [|cbn [boot tasks who]; by rewrite fmap_replicate]. constructor; cbn [line].
  - intros q. cbn [path load boot heads]. destruct (replicate m None !! q) as [x|] eqn:E; [|done].
    by apply lookup_replicate in E as [-> _].
  - intros q. constructor.
  - intros q i. rewrite HQ. by split; intros ?%elem_of_nil || done.
  - intros i _. cbn [load boot tasks]. destruct (replicate n idle_task !! i) as [x|] eqn:E; [|done].
    by apply lookup_replicate in E as [-> _].
Qed.

(** ** Sleeps that end by the clock *)

Lemma deadline_exact now ms :
  0 <= ms -> ms * HZ + 999 < 4294967296 -> deadline_of now ms = u32 (now + (ms * HZ + 999) / 1000).
Proof.
  intros Hms Hb. unfold deadline_of. unfold HZ in *. rewrite (u32_small (ms * 100)) by lia.
  by rewrite (u32_small (ms * 100 + 999)) by lia.
Qed.
Lemma s32_u32_sub x y : s32 (u32 x - u32 y) = s32 (x - y).
Proof. unfold s32. assert (u32 (u32 x - u32 y) = u32 (x - y)) as ->; [|done]. unfold u32. by rewrite <- Zminus_mod. Qed.
Lemma s32_pos_iff d : -2147483648 <= d < 2147483648 -> (0 <=? s32 d) = (0 <=? d).
Proof. intros H. by rewrite s32_small. Qed.

(** The turn a timed sleep gives up at: [ticks] are the ticks as they are,
    of which the code sees the low 32 bits. *)
Lemma timeout_loop_gives_up e deadline q me s s' :
  timeout_loop e deadline q me s = Some (false, s') ->
  exists k others now, e !! k = Some (others, now) /\ 0 <= s32 (now - deadline) /\
    forall j o t, (j < k)%nat -> e !! j = Some (o, t) -> s32 (t - deadline) < 0.
Proof.
  revert s. induction e as [|[others now] e IH]; intros s; cbn [timeout_loop]; [done|].
  destruct (is_woken _ me); [by intros [=]|]. zcase.
  - intros _. exists 0%nat, others, now. split; [done|]. split; [done|]. intros j o t Hj. lia.
  - intros (k & o & t & Hk & Hd & Hb)%IH. exists (S k), o, t. split; [done|]. split; [done|].
    intros [|j] o' t' Hj Hl; [|by eapply (Hb j); [lia|]]. cbn in Hl. by injection Hl as <- <-.
Qed.

End WAIT.

(** * Waiting at a gate: the loops of sem_wait and mutex_lock as steps of many
    tasks *)
Module GATE.
Import WAIT.

(** What a semaphore and a mutex have in common: a number of times it may
    still be passed, a turn of the loop that passes or must sleep ([None] is
    the panic), the attempt that never sleeps, and the way out. *)
Class Gate (R : Type) := {
  g_ok : R -> Prop;
  g_queue : R -> nat;
  g_avail : R -> Z;
  g_take : nat -> R -> option (bool * R);
  g_try : nat -> R -> bool * R;
  g_give : R -> state -> R * state;
  g_take_spec : forall me r b r', g_ok r -> g_take me r = Some (b, r') -> g_ok r' /\ g_queue r' = g_queue r /\
    if b then 0 < g_avail r /\ g_avail r' = g_avail r - 1 else g_avail r <= 0 /\ r' = r;
  g_try_spec : forall me r b r', g_ok r -> g_try me r = (b, r') -> g_ok r' /\ g_queue r' = g_queue r /\
    if b then 0 < g_avail r /\ g_avail r' = g_avail r - 1 else g_avail r <= 0 /\ r' = r;
  g_give_spec : forall r s r' s', g_ok r -> g_give r s = (r', s') ->
    g_ok r' /\ g_queue r' = g_queue r /\ g_avail r' <= g_avail r + 1 /\ s' = wake_one (g_queue r) s;
}.

Definition is_int (x : Z) : Prop := -2147483648 <= x < 2147483648.
Lemma sem_take_spec m b r' :
  is_int (count m) -> sem_take m = (b, r') -> is_int (count r') /\ s_wait r' = s_wait m /\
  if b then 0 < count m /\ count r' = count m - 1 else count m <= 0 /\ r' = m.
Proof.
  unfold sem_take, is_int. intros H E. destruct (Z.ltb_spec 0 (count m)); injection E as <- <-; cbn [count s_wait];
    repeat split; lia || done.
Qed.
#[export] Program Instance sem_gate : Gate semaphore := {
  g_ok m := is_int (count m);
  g_queue := s_wait;
  g_avail := count;
  g_take _ m := Some (sem_take m);
  g_try _ := sem_trywait;
  g_give := sem_post;
}.
Next Obligation. cbn. intros _ m b r' H [= E]. by apply sem_take_spec. Qed.
Next Obligation. cbn. intros _ m b r' H E. by apply sem_take_spec. Qed.
Next Obligation.
  cbn. intros m s r' s' H E. injection E as <- <-. cbn [count s_wait]. split; [apply s32_bound|]. split; [done|].
  split; [|done]. unfold is_int in H. destruct (decide (count m + 1 < 2147483648)).
  - rewrite s32_small; lia.
  - pose proof (s32_bound (count m + 1)). lia.
Qed.

#[export] Program Instance mutex_gate : Gate mutex := {
  g_ok _ := True;
  g_queue := m_wait;
  g_avail m := if locked m then 0 else 1;
  g_take me m := match mutex_lock_turn me m with Taken m' => Some (true, m') | MustSleep => Some (false, m) | Panic => None end;
  g_try := mutex_trylock;
  g_give := mutex_unlock;
}.
Next Obligation.
  cbn. intros me m b r' _. unfold mutex_lock_turn. destruct (locked m) eqn:E; cbn [negb].
  - case_decide; [done|]. intros [= <- <-]. by rewrite ?E.
  - by intros [= <- <-].
Qed.
Next Obligation.
  cbn. intros me m b r' _. unfold mutex_trylock. destruct (locked m) eqn:E; cbn [negb]; intros [= <- <-]; by rewrite ?E.
Qed.
Next Obligation. cbn. intros m s r' s' _ [= <- <-]. cbn. split; [done|]. split; [done|]. split; [by destruct (locked m)|done]. Qed.

(** Where a task stands. [Window]: its turn of the loop found nothing and it
    has not yet entered sleep_on, interrupts being unmasked. *)
Inductive pc := Idle | Trying | Window | Asleep | Inside.
#[export] Instance pc_eq_dec : EqDecision pc.
Proof. solve_decision. Defined.

Record sys {R} := mk_sys { mem : state; gate : R; pcs : list pc }.
Arguments sys : clear implicits.
Arguments mk_sys {R}.

(** [Post] is a way out taken by a task that need not be inside, [IrqPost] by
    an interrupt handler; [Kill] is a signal. *)
Inductive event :=
  | Enter (i : nat) | Turn (i : nat) | FallAsleep (i : nat) | Resume (i : nat)
  | TryIt (i : nat) | Leave (i : nat) | Post (i : nat) | IrqPost | Kill (i : nat).

Section gate.
Context {R : Type} `{Gate R}.
#[local] Abbreviation sys := (sys R).

(** Tasks are not preempted in the kernel: a task in its window goes on
    before any other does. *)
Definition quiet (g : sys) (i : nat) : bool :=
  bool_decide (Forall (fun p => p <> Window) (<[i := Idle]> (pcs g))).
Definition at_pc (g : sys) (i : nat) (p : pc) : bool := bool_decide (pcs g !! i = Some p).
Definition blocked (s : state) (i : nat) : bool :=
  match tasks s !! i with Some x => bool_decide (t_state x = TASK_BLOCKED) | None => false end.
Definition goto (i : nat) (p : pc) (g : sys) : sys := mk_sys (mem g) (gate g) (<[i := p]> (pcs g)).
Definition runs (g : sys) (i : nat) (p : pc) : bool := at_pc g i p && negb (blocked (mem g) i) && quiet g i.

Definition step (e : event) (g : sys) : option sys :=
  match e with
  | Enter i => if runs g i Idle then Some (goto i Trying g) else None
  | Turn i =>
      if runs g i Trying then
        match g_take i (gate g) with
        | Some (b, r) => Some (mk_sys (mem g) r (<[i := if b then Inside else Window]> (pcs g)))
        | None => None
        end
      else None
  | FallAsleep i =>
      if runs g i Window then Some (mk_sys (fall_asleep (g_queue (gate g)) i (mem g)) (gate g) (<[i := Asleep]> (pcs g)))
      else None
  | Resume i =>
      if runs g i Asleep then Some (mk_sys (back_again (g_queue (gate g)) i (mem g)) (gate g) (<[i := Trying]> (pcs g)))
      else None
  | TryIt i =>
      if runs g i Idle then
        let '(b, r) := g_try i (gate g) in Some (mk_sys (mem g) r (<[i := if b then Inside else Idle]> (pcs g)))
      else None
  | Leave i =>
      if runs g i Inside then
        let '(r, s) := g_give (gate g) (mem g) in Some (mk_sys s r (<[i := Idle]> (pcs g)))
      else None
  | Post i =>
      if runs g i Idle then let '(r, s) := g_give (gate g) (mem g) in Some (mk_sys s r (pcs g)) else None
  | IrqPost => let '(r, s) := g_give (gate g) (mem g) in Some (mk_sys s r (pcs g))
  | Kill i => Some (mk_sys (wake_signalled i (mem g)) (gate g) (pcs g))
  end.
Fixpoint steps (es : list event) (g : sys) : option sys :=
  match es with [] => Some g | e :: es' => match step e g with Some g' => steps es' g' | None => None end end.

(** No interrupt gives a permit while a task is in its window. *)
Definition polite (e : event) (g : sys) : Prop := e = IrqPost -> Forall (fun p => p <> Window) (pcs g).
Fixpoint all_polite (es : list event) (g : sys) : Prop :=
  match es with
  | [] => True
  | e :: es' => polite e g /\ match step e g with Some g' => all_polite es' g' | None => True end
  end.

(** Awake and about to look (again). *)
Definition eager (x : pc * (tstate * bool * Z)) : bool :=
  match fst x with Trying => true | Asleep => negb (bool_decide (fst (fst (snd x)) = TASK_BLOCKED)) | _ => false end.
Definition eagers (g : sys) (a : fifo) : nat := count_if eager (zip (pcs g) (who a)).

Record gate_inv (g : sys) (a : fifo) : Prop := mk_gate_inv {
  gi_refines : refines (mem g) a;
  gi_gate : g_ok (gate g);
  gi_queue : (g_queue (gate g) < length (heads (mem g)))%nat;
  gi_length : length (pcs g) = length (who a);
  gi_lines : forall i x, who a !! i = Some x ->
    (i ∈ line a (g_queue (gate g)) <-> fst (fst x) = TASK_BLOCKED) /\
    (fst (fst x) = TASK_BLOCKED -> pcs g !! i = Some Asleep);
  gi_others : forall q i, q <> g_queue (gate g) -> i ∉ line a q;
  gi_window : forall i, pcs g !! i = Some Window -> g_avail (gate g) <= 0;
  gi_awake : line a (g_queue (gate g)) <> [] -> g_avail (gate g) <= Z.of_nat (eagers g a);
}.

Lemma blocked_spec s a i x : refines s a -> who a !! i = Some x -> blocked s i = bool_decide (fst (fst x) = TASK_BLOCKED).
Proof.
  intros [_ H2] Hx. unfold blocked. rewrite <- H2, list_lookup_fmap in Hx. destruct (tasks s !! i); [|done]. by injection Hx as <-.
Qed.
Lemma pc_who (g : sys) a i p : gate_inv g a -> pcs g !! i = Some p -> exists x, who a !! i = Some x.
Proof. intros HI Hp. apply lookup_lt_is_Some. rewrite <- (gi_length _ _ HI). by eapply lookup_lt_Some. Qed.
Lemma runs_spec (g : sys) a i p :
  gate_inv g a -> runs g i p = true ->
  pcs g !! i = Some p /\ (exists x, who a !! i = Some x /\ fst (fst x) <> TASK_BLOCKED) /\
  Forall (fun p => p <> Window) (<[i := Idle]> (pcs g)).
Proof.
  intros HI Hr. unfold runs, at_pc, quiet in Hr. breflect.
  match goal with E : bool_decide (_ !! _ = _) = true |- _ => apply bool_decide_eq_true in E; rename E into Hp end.
  split; [done|]. split; [|by eapply bool_decide_eq_true_1].
  destruct (pc_who _ _ _ _ HI Hp) as [x Hx]. exists x. split; [done|].
  rewrite (blocked_spec _ _ _ _ (gi_refines _ _ HI) Hx) in *. by eapply bool_decide_eq_false_1.
Qed.
Lemma no_window (g : sys) i p : Forall (fun p => p <> Window) (<[i := Idle]> (pcs g)) -> p <> Window ->
  forall j, <[i := p]> (pcs g) !! j <> Some Window.
Proof.
  intros HF Hp j Hj. destruct (decide (i = j)) as [->|Hne].
  - apply list_lookup_insert_Some in Hj as [(_ & -> & _)|[? _]]; done.
  - rewrite list_lookup_insert_ne in Hj by done. eapply Forall_lookup_1 in HF; [|by rewrite list_lookup_insert_ne]. done.
Qed.
Lemma zip_insert_l {A B} (l : list A) (k : list B) i p x :
  k !! i = Some x -> zip (<[i := p]> l) k = <[i := (p, x)]> (zip l k).
Proof. intros Hx. rewrite <- (list_insert_id k i x Hx) at 1. apply eq_sym, insert_zip_with. Qed.
Lemma zip_alter_r {A B} (l : list A) (k : list B) i p x f :
  l !! i = Some p -> k !! i = Some x -> zip l (alter f i k) = <[i := (p, f x)]> (zip l k).
Proof.
  intros Hp Hx. assert (alter f i k = <[i := f x]> k) as ->.
  { apply list_eq. intros j. destruct (decide (i = j)) as [<-|Hne].
    - rewrite list_lookup_alter_eq, Hx, list_lookup_insert_eq; [done|by eapply lookup_lt_Some].
    - by rewrite list_lookup_alter_ne, list_lookup_insert_ne. }
  rewrite <- (list_insert_id l i p Hp) at 1. apply eq_sym, insert_zip_with.
Qed.
Lemma zip_at {A B} (l : list A) (k : list B) i p x : l !! i = Some p -> k !! i = Some x -> zip l k !! i = Some (p, x).
Proof. intros Hp Hx. by rewrite lookup_zip_with, Hp, Hx. Qed.

(** A task that is not blocked moves on, the gate changing with it. *)
Lemma gate_inv_move (g : sys) a i p p' x s' r :
  gate_inv g a -> pcs g !! i = Some p -> who a !! i = Some x -> fst (fst x) <> TASK_BLOCKED ->
  refines s' a -> length (heads s') = length (heads (mem g)) -> g_ok r -> g_queue r = g_queue (gate g) ->
  (forall j, <[i := p']> (pcs g) !! j = Some Window -> g_avail r <= 0) ->
  (g_avail r <= 0 \/
   g_avail r + (if eager (p, x) then 1 else 0) <= g_avail (gate g) + (if eager (p', x) then 1 else 0)) ->
  gate_inv (mk_sys s' r (<[i := p']> (pcs g))) a.
Proof.
  intros [H1 H2 H3 H4 H5 H6 H7 H8] Hp Hx Hnb Href Hh Hok Hq Hw Ha.
  constructor; cbn [mem gate pcs]; rewrite ?Hq, ?length_insert, ?Hh; try done.
  - intros j y Hy. destruct (H5 j y Hy) as [H9 H10]. split; [done|]. intros Hb. rewrite list_lookup_insert_ne; [by apply H10|].
    intros <-. congruence.
  - intros Hl. specialize (H8 Hl). unfold eagers in *. cbn [pcs]. rewrite (zip_insert_l _ _ _ _ x) by done.
    pose proof (count_if_insert eager _ i (p, x) (p', x) (zip_at _ _ _ _ _ Hp Hx)) as HC.
    destruct Ha as [Ha|Ha]; [lia|]. destruct (eager (p, x)), (eager (p', x)); lia.
Qed.

(** A task is woken, by a permit or a signal. *)
Lemma gate_inv_wake (g : sys) a a' t s' r :
  gate_inv g a -> refines s' a' -> (forall q, line a' q = without t (line a q)) -> who a' = alter f_wake t (who a) ->
  length (heads s') = length (heads (mem g)) -> g_ok r -> g_queue r = g_queue (gate g) ->
  (forall j, pcs g !! j = Some Window -> g_avail r <= 0) ->
  g_avail r <= g_avail (gate g) + (if decide (t ∈ line a (g_queue (gate g))) then 1 else 0) ->
  gate_inv (mk_sys s' r (pcs g)) a'.
Proof.
  intros [H1 H2 H3 H4 H5 H6 H7 H8] Href HL HW Hh Hok Hq Hw Ha.
  assert (HU : forall i y, who a' !! i = Some y -> exists x, who a !! i = Some x /\ y = if decide (i = t) then f_wake x else x).
  { intros i y. rewrite HW. destruct (decide (i = t)) as [->|E].
    - rewrite list_lookup_alter_eq. destruct (who a !! t) as [x|]; [|done]. intros [= <-]. by exists x.
    - rewrite list_lookup_alter_ne by done. intros Hy. by exists y. }
  constructor; cbn [mem gate pcs]; rewrite ?Hq, ?Hh; try done.
  - by rewrite HW, length_alter.
  - intros i y Hy. destruct (HU i y Hy) as (x & Hx & ->). destruct (H5 i x Hx) as [H9 H10]. rewrite HL. unfold without.
    rewrite list_elem_of_filter. destruct (decide (i = t)) as [E|E].
    + subst i. assert (Hnb : fst (fst (f_wake x)) <> TASK_BLOCKED) by (unfold f_wake; cbn [fst snd]; by destruct (decide (fst (fst x) = TASK_BLOCKED))).
      split; [split; [by intros [? _]|done]|done].
    + split; [|done]. rewrite H9. tauto.
  - intros q i Hne. rewrite HL. unfold without. rewrite list_elem_of_filter. intros [_ Hi]. by apply (H6 q i).
  - rewrite HL. intros Hl. assert (Hl' : line a (g_queue (gate g)) <> []) by (intros E; by rewrite E in Hl).
    specialize (H8 Hl'). unfold eagers in *. cbn [pcs]. rewrite HW.
    destruct (decide (t ∈ line a (g_queue (gate g)))) as [E|E].
    + assert (exists x, who a !! t = Some x) as [x Hx].
      { destruct H1 as [HWQ HA]. pose proof (member_lt _ _ _ _ HWQ E) as Hlt.
        rewrite <- HA. rewrite list_lookup_fmap. apply lookup_lt_is_Some_2 in Hlt as [y ->]. by eexists. }
      destruct (H5 t x Hx) as [H9 H10]. apply H9 in E. rewrite (zip_alter_r _ _ _ Asleep x) by auto.
      pose proof (count_if_insert eager _ t (Asleep, x) (Asleep, f_wake x) (zip_at _ _ _ _ _ (H10 E) Hx)) as HC.
      unfold eager in HC. cbn [fst snd f_wake] in HC. rewrite (decide_True _ _ E), bool_decide_true in HC by done.
      cbn [negb bool_decide] in HC. rewrite bool_decide_false in HC by done. cbn [negb] in HC. fold eager in HC. lia.
    + enough (count_if eager (zip (pcs g) (alter f_wake t (who a))) = count_if eager (zip (pcs g) (who a))) by lia.
      destruct (who a !! t) as [x|] eqn:Hx.
      * assert (is_Some (pcs g !! t)) as [p Hp].
        { apply lookup_lt_is_Some. rewrite H4. by eapply lookup_lt_Some. }
        destruct (H5 t x Hx) as [H9 H10]. rewrite (zip_alter_r _ _ _ p x) by auto.
        pose proof (count_if_insert eager _ t (p, x) (p, f_wake x) (zip_at _ _ _ _ _ Hp Hx)) as HC.
        assert (Hsame : eager (p, f_wake x) = eager (p, x)).
        { unfold eager, f_wake. cbn [fst snd]. rewrite decide_False; [done|]. intros ?%H9. done. }
        rewrite Hsame in HC. destruct (eager (p, x)); lia.
      * f_equal. f_equal. apply list_eq. intros j. destruct (decide (t = j)) as [<-|Hne];
          [by rewrite list_lookup_alter_eq, Hx|by rewrite list_lookup_alter_ne].
Qed.

Lemma gate_inv_give (g : sys) a r s' :
  gate_inv g a -> g_give (gate g) (mem g) = (r, s') -> (forall j, pcs g !! j <> Some Window) ->
  gate_inv (mk_sys s' r (pcs g)) (f_op (WakeOne (g_queue (gate g))) a).
Proof.
  intros HI HG Hw. destruct (g_give_spec _ _ _ _ (gi_gate _ _ HI) HG) as (Hok & Hq & Ha & ->).
  pose proof (run_op_refines _ _ (WakeOne (g_queue (gate g))) (gi_refines _ _ HI) I) as HR. cbn [run_op] in HR.
  pose proof (heads_length_run_op (WakeOne (g_queue (gate g))) (mem g) I) as Hh. cbn [run_op] in Hh.
  destruct (line a (g_queue (gate g))) as [|t l] eqn:E.
  - cbn [f_op] in *. rewrite E in *. destruct HI as [H1 H2 H3 H4 H5 H6 H7 H8].
    constructor; cbn [mem gate pcs]; rewrite ?Hq, ?Hh; try done. intros j Hj. by apply Hw in Hj.
  - pose proof (wq_nodup _ _ (proj1 (gi_refines _ _ HI)) (g_queue (gate g))) as HN. rewrite E in HN.
    apply (gate_inv_wake g a _ t); try done.
    + intros q. cbn [f_op]. rewrite E. cbn [line]. destruct (decide (q = g_queue (gate g))) as [->|Hne].
      * rewrite fn_lookup_insert, E. symmetry. by apply (without_split t [] l).
      * rewrite fn_lookup_insert_ne by done. rewrite without_absent; [done|]. by apply (gi_others _ _ HI).
    + cbn [f_op]. by rewrite E.
    + intros j Hj. by apply Hw in Hj.
    + rewrite decide_True; [lia|]. rewrite E. constructor.
Qed.
Lemma gate_inv_sleep (g : sys) a i x :
  gate_inv g a -> pcs g !! i = Some Window -> who a !! i = Some x -> fst (fst x) <> TASK_BLOCKED ->
  gate_inv (mk_sys (fall_asleep (g_queue (gate g)) i (mem g)) (gate g) (<[i := Asleep]> (pcs g)))
    (f_op (Sleep (g_queue (gate g)) i) a).
Proof.
  intros HI Hp Hx Hnb.
  assert (Hoff : forall q, i ∉ line a q).
  { intros q Hi. destruct (decide (q = g_queue (gate g))) as [->|Hne]; [|by apply (gi_others _ _ HI) in Hi].
    by apply (gi_lines _ _ HI i x Hx) in Hi. }
  assert (Hop : op_ok (Sleep (g_queue (gate g)) i) (mem g)).
  { split; [apply HI|]. destruct (gi_refines _ _ HI) as [HWQ HA]. pose proof Hx as Hx'.
    rewrite <- HA, list_lookup_fmap in Hx'. destruct (tasks (mem g) !! i) as [y|] eqn:Ey; [|done]. exists y. split; [done|].
    destruct (queue y) as [q|] eqn:Eq; [|done]. exfalso. apply (Hoff q), (wq_member _ _ HWQ). unfold on_queue. by rewrite Ey. }
  pose proof (run_op_refines _ _ _ (gi_refines _ _ HI) Hop) as HR. cbn [run_op] in HR.
  pose proof (heads_length_run_op (Sleep (g_queue (gate g)) i) (mem g) I) as Hh. cbn [run_op] in Hh.
  pose proof (gi_window _ _ HI _ Hp) as Hw. destruct HI as [H1 H2 H3 H4 H5 H6 H7 H8].
  constructor; cbn [mem gate pcs]; rewrite ?length_insert, ?Hh; try done; cbn [f_op line who].
  - by rewrite length_alter.
  - intros j y. rewrite fn_lookup_insert, elem_of_app, list_elem_of_singleton. destruct (decide (j = i)) as [->|Hne].
    + rewrite list_lookup_alter_eq, Hx. intros [= <-]. split; [tauto|]. intros _. apply list_lookup_insert_eq.
      by eapply lookup_lt_Some.
    + rewrite list_lookup_alter_ne by done. intros Hy. rewrite list_lookup_insert_ne by done.
      destruct (H5 j y Hy) as [H9 H10]. split; [|done]. rewrite <- H9. tauto.
  - intros q j Hne. rewrite fn_lookup_insert_ne by done. by apply H6.
  - intros _. lia.
Qed.

Lemma gate_inv_resume (g : sys) a i x :
  gate_inv g a -> pcs g !! i = Some Asleep -> who a !! i = Some x -> fst (fst x) <> TASK_BLOCKED ->
  (forall j, <[i := Trying]> (pcs g) !! j <> Some Window) ->
  gate_inv (mk_sys (back_again (g_queue (gate g)) i (mem g)) (gate g) (<[i := Trying]> (pcs g))) a.
Proof.
  intros HI Hp Hx Hnb Hw. pose proof (back_refines _ _ (g_queue (gate g)) i (gi_refines _ _ HI)) as HR.
  eapply gate_inv_move; try done; try apply HI.
  - eapply refines_ext; [| |exact HR]; [|done]. intros q. cbn [f_op line].
    rewrite without_absent, fn_insert_id; [done..|]. intros Hi. by apply (gi_lines _ _ HI i x Hx) in Hi.
  - apply (heads_length_run_op (Back (g_queue (gate g)) i) (mem g) I).
  - intros j Hj. by apply Hw in Hj.
  - right. unfold eager. cbn [fst snd]. rewrite bool_decide_false by done. cbn [negb]. lia.
Qed.

(** Every step keeps the invariant, with no permit given inside a window. *)
Lemma gate_inv_step e g g' a : gate_inv g a -> polite e g -> step e g = Some g' -> exists a', gate_inv g' a'.
Proof.
  intros HI Hpol Hs. destruct e as [i|i|i|i|i|i|i| |i]; cbn [step] in Hs;
    try (destruct (runs g i _) eqn:Er; [|done];
         destruct (runs_spec _ _ _ _ HI Er) as (Hp & (x & Hx & Hnb) & Hq)).
  - injection Hs as <-. exists a. eapply gate_inv_move; try done; try apply HI.
    + intros j Hj. by apply (no_window _ _ _ Hq) in Hj.
    + cbn [eager fst]. lia.
  - destruct (g_take i (gate g)) as [[b r]|] eqn:Et; [|done]. injection Hs as <-.
    destruct (g_take_spec _ _ _ _ (gi_gate _ _ HI) Et) as (Hok & Hqr & Hb). exists a.
    eapply gate_inv_move; try done; try apply HI.
    + destruct b; [intros j Hj; by apply (no_window _ _ _ Hq) in Hj|]. destruct Hb as [Hb ->]. done.
    + destruct b; cbn [eager fst]; [lia|]. destruct Hb as [Hb ->]. lia.
  - injection Hs as <-. eexists. by eapply gate_inv_sleep.
  - injection Hs as <-. exists a. eapply gate_inv_resume; try done.
    intros j Hj. by apply (no_window _ _ _ Hq) in Hj.
  - destruct (g_try i (gate g)) as [b r] eqn:Et. injection Hs as <-.
    destruct (g_try_spec _ _ _ _ (gi_gate _ _ HI) Et) as (Hok & Hqr & Hb). exists a.
    eapply gate_inv_move; try done; try apply HI.
    + intros j Hj. apply (no_window _ _ _ Hq) in Hj; [done|by destruct b].
    + destruct b; cbn [eager fst]; [lia|]. destruct Hb as [Hb ->]. lia.
  - destruct (g_give (gate g) (mem g)) as [r s'] eqn:Eg. injection Hs as <-.
    assert (Hw : forall j, pcs g !! j <> Some Window).
    { intros j. rewrite <- (list_insert_id _ _ _ Hp). by apply no_window. }
    pose proof (gate_inv_give _ _ _ _ HI Eg Hw) as HI'. eexists.
    destruct (g_give_spec _ _ _ _ (gi_gate _ _ HI) Eg) as (Hok & Hqr & Ha & _).
    destruct (pc_who _ _ _ _ HI' Hp) as [y Hy].
    assert (Hnb' : fst (fst y) <> TASK_BLOCKED).
    { intros Hb. apply (gi_lines _ _ HI' i y Hy) in Hb. cbn [pcs] in Hb. congruence. }
    apply (gate_inv_move _ _ i Inside Idle y s' r HI'); try done; try apply HI'.
    + intros j Hj. cbn [pcs] in Hj. by apply (no_window _ _ _ Hq) in Hj.
    + right. cbn [eager fst gate]. lia.
  - destruct (g_give (gate g) (mem g)) as [r s'] eqn:Eg. injection Hs as <-. eexists.
    eapply gate_inv_give; [done..|]. intros j. rewrite <- (list_insert_id _ _ _ Hp). by apply no_window.
  - destruct (g_give (gate g) (mem g)) as [r s'] eqn:Eg. injection Hs as <-. eexists.
    eapply gate_inv_give; [done..|]. intros j Hj. by eapply Forall_lookup_1 in Hj; [|apply Hpol].
  - injection Hs as <-. exists (f_op (Signal i) a). apply (gate_inv_wake g a _ i); try done; try apply HI.
    + apply signal_refines, HI.
    + apply (heads_length_run_op (Signal i) (mem g) I).
    + case_decide; lia.
Qed.
Lemma gate_inv_steps es g g' a :
  gate_inv g a -> all_polite es g -> steps es g = Some g' -> exists a', gate_inv g' a'.
Proof.
  revert g a. induction es as [|e es IH]; intros g a HI Hp; cbn [steps all_polite] in *; [intros [= <-]; by exists a|].
  destruct Hp as [Hp1 Hp2]. destruct (step e g) as [g1|] eqn:E; [|done].
  destruct (gate_inv_step _ _ _ _ HI Hp1 E) as [a1 HI1]. by apply IH with a1.
Qed.
Lemma gate_inv_init (r : R) n m :
  g_ok r -> (g_queue r < m)%nat ->
  gate_inv (mk_sys (boot n m) r (replicate n Idle)) (mk_fifo (fun _ => []) (replicate n (attrs idle_task))).
Proof.
  intros Hok Hq. constructor; cbn [mem gate pcs line who]; try done.
  - apply boot_refines.
  - cbn [boot heads]. by rewrite length_replicate.
  - by rewrite !length_replicate.
  - intros i x Hx. apply lookup_replicate in Hx as [-> _]. cbn [attrs idle_task fst snd t_state woken wake_at].
    split; [|done]. split; [by intros ?%elem_of_nil|done].
  - intros q i _. apply not_elem_of_nil.
  - intros i Hi. by apply lookup_replicate in Hi as [? _].
Qed.

Lemma runs_true (g : sys) a i p x :
  gate_inv g a -> pcs g !! i = Some p -> who a !! i = Some x -> fst (fst x) <> TASK_BLOCKED ->
  Forall (fun p => p <> Window) (pcs g) -> runs g i p = true.
Proof.
  intros HI Hp Hx Hnb HW. unfold runs, at_pc, quiet. rewrite (blocked_spec _ _ _ _ (gi_refines _ _ HI) Hx).
  rewrite (bool_decide_true (_ = Some p)), (bool_decide_false (_ = TASK_BLOCKED)) by done. cbn [andb negb].
  apply bool_decide_eq_true_2. by apply Forall_insert.
Qed.
Lemma turn_takes (g : sys) a i x :
  gate_inv g a -> pcs g !! i = Some Trying -> who a !! i = Some x -> fst (fst x) <> TASK_BLOCKED ->
  Forall (fun p => p <> Window) (pcs g) -> 0 < g_avail (gate g) -> g_take i (gate g) <> None ->
  exists g', step (Turn i) g = Some g' /\ pcs g' !! i = Some Inside /\ g_avail (gate g') = g_avail (gate g) - 1.
Proof.
  intros HI Hp Hx Hnb HW Ha Hnp. cbn [step]. rewrite (runs_true _ _ _ _ _ HI Hp Hx Hnb HW).
  destruct (g_take i (gate g)) as [[b r]|] eqn:Et; [|done].
  destruct (g_take_spec _ _ _ _ (gi_gate _ _ HI) Et) as (_ & _ & Hb). destruct b; [|lia].
  eexists. split; [done|]. cbn [pcs gate]. split; [|lia]. apply list_lookup_insert_eq. by eapply lookup_lt_Some.
Qed.
Lemma resume_ready (g : sys) a i x :
  gate_inv g a -> pcs g !! i = Some Asleep -> who a !! i = Some x -> fst (fst x) <> TASK_BLOCKED ->
  Forall (fun p => p <> Window) (pcs g) ->
  exists g1, step (Resume i) g = Some g1 /\ gate_inv g1 a /\ gate g1 = gate g /\ pcs g1 !! i = Some Trying /\
    Forall (fun p => p <> Window) (pcs g1).
Proof.
  intros HI Hp Hx Hnb HW. cbn [step]. rewrite (runs_true _ _ _ _ _ HI Hp Hx Hnb HW). eexists. split; [done|].
  split; [|cbn [gate pcs]; split; [done|]; split; [|by apply Forall_insert]].
  - apply gate_inv_resume with x; try done. intros j Hj.
    assert (HW' : Forall (fun p => p <> Window) (<[i := Trying]> (pcs g))) by by apply Forall_insert.
    by eapply Forall_lookup_1 in HW'; [|exact Hj].
  - apply list_lookup_insert_eq. by eapply lookup_lt_Some.
Qed.

(** The steps task [i] takes by itself: its turn of the loop, after coming
    back from sleep_on when it was woken there. No other task, no interrupt
    and no signal has a part in them. *)
Definition own_steps (g : sys) (i : nat) (es : list event) : Prop :=
  (pcs g !! i = Some Trying /\ es = [Turn i]) \/
  (pcs g !! i = Some Asleep /\ blocked (mem g) i = false /\ es = [Resume i; Turn i]).

(** With the gate open and a task on its queue, some task is awake and its
    own next steps take it in. *)
Lemma gate_progress g a :
  gate_inv g a -> 0 < g_avail (gate g) -> load (mem g) (Head (g_queue (gate g))) <> None ->
  (forall i, g_take i (gate g) <> None) ->
  exists i es g', own_steps g i es /\ steps es g = Some g' /\
    pcs g' !! i = Some Inside /\ g_avail (gate g') = g_avail (gate g) - 1.
Proof.
  intros HI Ha Hq Hnp.
  assert (Hl : line a (g_queue (gate g)) <> []).
  { intros E. pose proof (wq_path _ _ (proj1 (gi_refines _ _ HI)) (g_queue (gate g))) as HP. by rewrite E in HP. }
  pose proof (gi_awake _ _ HI Hl) as Haw.
  assert (HW : Forall (fun p => p <> Window) (pcs g)).
  { apply Forall_lookup_2. intros i p Hp ->. apply (gi_window _ _ HI) in Hp. lia. }
  destruct (proj1 (count_if_pos eager (zip (pcs g) (who a)))) as (i & [p x] & Hz & He); [unfold eagers in Haw; lia|].
  rewrite lookup_zip_with in Hz. destruct (pcs g !! i) as [p'|] eqn:Hp; [|done]. cbn in Hz.
  destruct (who a !! i) as [x'|] eqn:Hx; [|done]. cbn in Hz. injection Hz as -> ->.
  assert (Hnb : fst (fst x) <> TASK_BLOCKED).
  { intros Hb. pose proof (proj2 (gi_lines _ _ HI i x Hx) Hb) as Hp'. rewrite Hp in Hp'. injection Hp' as ->.
    unfold eager in He. cbn [fst snd] in He. by rewrite bool_decide_true in He. }
  destruct (decide (p = Trying)) as [->|Hn].
  - by destruct (turn_takes g a i x HI Hp Hx Hnb HW Ha (Hnp i)) as (g' & Hg & Hi & Hav); exists i, [Turn i], g'; split; [by left|]; cbn [steps]; rewrite Hg.
  - assert (p = Asleep) as -> by by destruct p.
    destruct (resume_ready g a i x HI Hp Hx Hnb HW) as (g1 & Hg1 & HI1 & Hgate & Hp1 & HW1).
    assert (Hown : own_steps g i [Resume i; Turn i]).
    { right. rewrite (blocked_spec _ _ _ _ (gi_refines _ _ HI) Hx), bool_decide_false by done. done. }
    rewrite <- Hgate in *. destruct (turn_takes g1 a i x HI1 Hp1 Hx Hnb HW1 Ha (Hnp i)) as (g' & Hg & Hi & Hav).
    exists i, [Resume i; Turn i], g'. split; [done|]. cbn [steps]. by rewrite Hg1, Hg.
Qed.
End gate.

(** ** Semaphores *)
Definition sem_start (n k q : nat) (c : Z) : sys semaphore :=
  let '(m, s) := sem_init c q (boot n k) in mk_sys s m (replicate n Idle).
Definition mutex_start (n k q : nat) : sys mutex :=
  let '(m, s) := mutex_init q (boot n k) in mk_sys s m (replicate n Idle).

Lemma set_head_boot n k q : set_head q None (boot n k) = boot n k.
Proof.
  unfold set_head, boot. cbn [tasks heads]. f_equal. destruct (decide (q < k)%nat).
  - apply list_insert_id. by apply lookup_replicate.
  - apply list_insert_ge. rewrite length_replicate. lia.
Qed.
Lemma sem_start_inv n k q c : is_int c -> (q < k)%nat -> exists a, gate_inv (sem_start n k q c) a.
Proof. intros Hc Hq. unfold sem_start, sem_init. rewrite set_head_boot. eexists. by apply gate_inv_init. Qed.
Lemma mutex_start_inv n k q : (q < k)%nat -> exists a, gate_inv (mutex_start n k q) a.
Proof. intros Hq. unfold mutex_start, mutex_init. rewrite set_head_boot. eexists. by apply gate_inv_init. Qed.

Definition posted (e : event) : Z := match e with Post _ | IrqPost => 1 | _ => 0 end.
Fixpoint posts (es : list event) : Z := match es with [] => 0 | e :: es' => posted e + posts es' end.
Definition inside (p : pc) : bool := match p with Inside => true | _ => false end.
Definition permits (g : sys semaphore) : Z := count (gate g) + Z.of_nat (count_if inside (pcs g)).

Lemma count_idle n : count_if inside (replicate n Idle) = 0%nat.
Proof. by induction n. Qed.
Lemma posts_nonneg es : 0 <= posts es.
Proof. induction es as [|e es IH]; cbn [posts]; [done|]. destruct e; cbn [posted]; lia. Qed.
Lemma count_goto (l : list pc) i p p' :
  l !! i = Some p ->
  Z.of_nat (count_if inside (<[i := p']> l)) + (if inside p then 1 else 0)
  = Z.of_nat (count_if inside l) + (if inside p' then 1 else 0).
Proof. intros Hp. pose proof (count_if_insert inside l i p p' Hp). destruct (inside p), (inside p'); lia. Qed.
Lemma runs_at {R} (g : sys R) i p : runs g i p = true -> pcs g !! i = Some p.
Proof. unfold runs, at_pc. intros Hr. breflect. by eapply bool_decide_eq_true_1. Qed.

Lemma permits_step e g g' :
  is_int (count (gate g)) -> permits g + posted e < 2147483648 -> step e g = Some g' ->
  is_int (count (gate g')) /\ permits g' = permits g + posted e.
Proof.
  intros Hi Hb Hs. unfold permits in *.
  assert (Hgive : posted e = 1 \/ (exists i, e = Leave i /\ runs g i Inside = true) ->
                  s32 (count (gate g) + 1) = count (gate g) + 1).
  { intros He. apply s32_small. unfold is_int in Hi. destruct He as [He|(i & -> & Hr%runs_at)]; [lia|].
    pose proof (count_goto _ _ _ Idle Hr) as HC. cbn [posted inside] in *. lia. }
  destruct e as [i|i|i|i|i|i|i| |i]; cbn [step posted g_take g_try g_give sem_gate] in *;
    try (destruct (runs g i _) eqn:Er; [pose proof (count_goto _ _ _ Trying (runs_at _ _ _ Er)) as HT;
      pose proof (count_goto _ _ _ Inside (runs_at _ _ _ Er)) as HI; pose proof (count_goto _ _ _ Window (runs_at _ _ _ Er)) as HW;
      pose proof (count_goto _ _ _ Idle (runs_at _ _ _ Er)) as HD; pose proof (count_goto _ _ _ Asleep (runs_at _ _ _ Er)) as HA;
      cbn [inside] in HT, HI, HW, HD, HA|done]);
    unfold sem_post, sem_trywait in Hs; try (destruct (sem_take (gate g)) as [b r] eqn:Et;
      destruct (sem_take_spec _ _ _ Hi Et) as (Hr1 & Hr2 & Hr3)); injection Hs as <-; cbn [gate pcs goto count s_wait];
    try rewrite Hgive by eauto; try (destruct b; [|destruct Hr3 as [? ->]]); unfold is_int in *; try lia.
Qed.

Lemma permits_steps es g g' :
  is_int (count (gate g)) -> permits g + posts es < 2147483648 -> steps es g = Some g' ->
  permits g' = permits g + posts es.
Proof.
  revert g. induction es as [|e es IH]; intros g Hi Hb; cbn [steps posts] in *; [intros [= <-]; lia|].
  destruct (step e g) as [g1|] eqn:E; [|done]. pose proof (posts_nonneg es).
  destruct (permits_step e g g1 Hi ltac:(lia) E) as [Hi1 Hp1]. intros Hs. rewrite (IH g1) by (done || lia). lia.
Qed.

(** ** Mutexes: the owner is the task inside, and there is one. *)
Record mutex_inv (g : sys mutex) : Prop := mk_mutex_inv {
  mi_inside : forall i, pcs g !! i = Some Inside <-> owner (gate g) = Some i;
  mi_locked : locked (gate g) = bool_decide (owner (gate g) <> None);
}.
Lemma mutex_inv_goto (g : sys mutex) s i p p' :
  mutex_inv g -> pcs g !! i = Some p -> p <> Inside -> p' <> Inside ->
  mutex_inv (mk_sys s (gate g) (<[i := p']> (pcs g))).
Proof.
  intros [H1 H2] Hp Hn Hn'. constructor; cbn [gate pcs]; [|done]. intros j. rewrite <- H1.
  destruct (decide (i = j)) as [<-|Hne]; [|by rewrite list_lookup_insert_ne].
  rewrite list_lookup_insert_eq by (by eapply lookup_lt_Some). rewrite Hp. split; congruence.
Qed.
Lemma mutex_inv_taken (g : sys mutex) s i p q :
  mutex_inv g -> pcs g !! i = Some p -> locked (gate g) = false ->
  mutex_inv (mk_sys s (mk_mutex true (Some i) q) (<[i := Inside]> (pcs g))).
Proof.
  intros [H1 H2] Hp Hl. rewrite Hl in H2. symmetry in H2. apply bool_decide_eq_false in H2.
  constructor; cbn [gate pcs owner locked]; [|by rewrite bool_decide_true]. intros j.
  destruct (decide (i = j)) as [<-|Hne].
  - rewrite list_lookup_insert_eq by (by eapply lookup_lt_Some). done.
  - rewrite list_lookup_insert_ne by done. rewrite H1. split; [|congruence]. intros E. rewrite E in H2. exfalso. by apply H2.
Qed.
Lemma mutex_inv_step e g g' : mutex_inv g -> posted e = 0 -> step e g = Some g' -> mutex_inv g'.
Proof.
  intros HI He Hs. destruct e as [i|i|i|i|i|i|i| |i]; cbn [posted] in He; try lia;
    cbn [step g_take g_try g_give mutex_gate] in Hs;
    try (destruct (runs g i _) eqn:Er; [pose proof (runs_at _ _ _ Er) as Hp|done]).
  - injection Hs as <-. by eapply mutex_inv_goto.
  - unfold mutex_lock_turn in Hs. destruct (locked (gate g)) eqn:El; cbn [negb] in Hs.
    + case_decide; [done|]. injection Hs as <-. by eapply mutex_inv_goto.
    + injection Hs as <-. by eapply mutex_inv_taken.
  - injection Hs as <-. by eapply mutex_inv_goto.
  - injection Hs as <-. by eapply mutex_inv_goto.
  - unfold mutex_trylock in Hs. destruct (locked (gate g)) eqn:El; cbn [negb] in Hs; injection Hs as <-.
    + by eapply mutex_inv_goto.
    + by eapply mutex_inv_taken.
  - injection Hs as <-. destruct HI as [H1 H2]. constructor; cbn [gate pcs owner locked]; [|done]. intros j. split; [|done].
    intros Hj. exfalso. destruct (decide (i = j)) as [<-|Hne].
    + by rewrite list_lookup_insert_eq in Hj by (by eapply lookup_lt_Some).
    + rewrite list_lookup_insert_ne in Hj by done. apply H1 in Hj. apply H1 in Hp. congruence.
  - injection Hs as <-. by destruct HI.
Qed.
Lemma mutex_inv_steps es g g' : mutex_inv g -> posts es = 0 -> steps es g = Some g' -> mutex_inv g'.
Proof.
  revert g. induction es as [|e es IH]; intros g HI Hp; cbn [steps posts] in *; [by intros [= <-]|].
  destruct (step e g) as [g1|] eqn:E; [|done]. pose proof (posts_nonneg es).
  assert (0 <= posted e) by (by destruct e). apply IH; [|lia]. eapply mutex_inv_step; [done| |done]. lia.
Qed.
Lemma mutex_start_mutex_inv n k q : mutex_inv (mutex_start n k q).
Proof.
  constructor; cbn [mutex_start mutex_init gate pcs owner locked]; [|done]. intros i. split; [|done].
  intros Hi. by apply lookup_replicate in Hi as [? _].
Qed.
Lemma no_posts_polite {R} `{Gate R} es (g : sys R) : posts es = 0 -> all_polite es g.
Proof.
  revert g. induction es as [|e es IH]; intros g Hp; [done|]. cbn [posts all_polite] in *.
  pose proof (posts_nonneg es). assert (0 <= posted e) by (by destruct e).
  split; [intros ->; cbn in Hp; lia|]. destruct (step e g); [|done]. apply IH. lia.
Qed.
End GATE.

(** ** The claims *)
Module WAIT_CLAIMS.
Import WAIT GATE.

(** C9: a wait queue is first come, first served. Whatever sleeps, returns,
    wakes, signals and expiries happen, in any order and on any number of
    queues, the chains of links the code builds and cuts are the lists of the
    specification: a sleeper goes to the end of its line, wake_one takes the
    first, wake_all takes all, a signal or an expiry takes exactly its task off
    whichever line it is on; the tasks' states, flags and alarms follow the
    specification too. The walks run to their end in every state reached. *)
Theorem waitq_refines_fifo os s a : refines s a -> ops_ok os s -> refines (run_ops os s) (f_ops os a).
Proof. apply run_ops_refines. Qed.

(** C31: a timed sleep never reports a timeout early. When it returns 0, the
    turn it gives up at is a tick at which at least the asked number of
    milliseconds has passed, rounded up to ticks, and at no earlier turn had
    it; for timeouts whose ticks are computed without wrapping, and counting
    the ticks as they are ([ticks]) rather than as the 32-bit clock shows
    them. *)
Theorem sleep_on_timeout_not_early e ticks start ms q me s s' :
  0 <= ms -> ms * HZ + 999 < 4294967296 ->
  map snd e = map u32 ticks -> Forall (fun t => start <= t < start + 2147483648) ticks ->
  sleep_on_timeout e (u32 start) ms q me s = Some (false, s') ->
  exists k t, ticks !! k = Some t /\ ms <= 1000 / HZ * (t - start) /\
    forall j u, (j < k)%nat -> ticks !! j = Some u -> u - start < (ms * HZ + 999) / 1000.
Proof.
  intros Hms Hb Ht Hr Hs. unfold sleep_on_timeout in Hs.
  apply timeout_loop_gives_up in Hs as (k & others & now & Hk & Hd & Hearly).
  assert (Htick : forall j o v, e !! j = Some (o, v) -> exists t, ticks !! j = Some t /\ v = u32 t).
  { intros j o v Hj. pose proof (f_equal (lookup j) Ht) as E. rewrite !list_lookup_fmap, Hj in E. cbn in E.
    destruct (ticks !! j) as [t|]; [|done]. cbn in E. injection E as ->. by exists t. }
  assert (Hdl : forall t, start <= t < start + 2147483648 ->
            (0 <=? s32 (u32 t - deadline_of (u32 start) ms)) = (0 <=? t - (start + (ms * HZ + 999) / 1000))).
  { intros t Hrange. rewrite deadline_exact by done.
    assert (u32 (u32 start + (ms * HZ + 999) / 1000) = u32 (start + (ms * HZ + 999) / 1000)) as ->.
    { unfold u32. by rewrite Zplus_mod_idemp_l. }
    rewrite s32_u32_sub. apply s32_pos_iff.
    assert (0 <= (ms * HZ + 999) / 1000 <= 4294968) by (unfold HZ in *; split; [apply Z.div_pos|apply Z.div_le_upper_bound]; lia).
    lia. }
  destruct (Htick _ _ _ Hk) as (t & Htk & ->). exists k, t. split; [done|]. split.
  - apply Z.leb_le in Hd. rewrite Hdl in Hd by (by eapply Forall_lookup_1 in Hr). apply Z.leb_le in Hd.
    change (1000 / HZ) with 10. unfold HZ in *. Z.div_mod_to_equations. lia.
  - intros j u Hj Hu. assert (exists o v, e !! j = Some (o, v)) as (o & v & Hev).
    { pose proof (f_equal (lookup j) Ht) as E. rewrite !list_lookup_fmap, Hu in E. destruct (e !! j) as [[o v]|]; [|done]. by exists o, v. }
    pose proof (Hearly _ _ _ Hj Hev) as Hlt. destruct (Htick _ _ _ Hev) as (u' & Hu' & ->). rewrite Hu in Hu'. injection Hu' as <-.
    apply Z.leb_gt in Hlt. rewrite Hdl in Hlt by (by eapply Forall_lookup_1 in Hr). apply Z.leb_gt in Hlt. lia.
Qed.

(** C29: no wake-up of a semaphore is lost. After any run of tasks entering,
    sleeping, being woken by permits or killed by signals, trying, leaving and
    posting, in which no interrupt handler posts while a task is between its
    look at the count and its sleep: if a permit is free and a task is on the
    queue, then a task is awake, trying or back from its sleep, and its own
    next turn, with no signal, post or other task's step before it, takes a
    permit. *)
Theorem sem_no_lost_wakeup n k q c es g :
  is_int c -> (q < k)%nat -> all_polite es (sem_start n k q c) -> steps es (sem_start n k q c) = Some g ->
  0 < count (gate g) -> load (mem g) (Head (s_wait (gate g))) <> None ->
  exists i es' g', own_steps g i es' /\ steps es' g = Some g' /\
    pcs g' !! i = Some Inside /\ count (gate g') = count (gate g) - 1.
Proof.
  intros Hc Hq Hp Hs Hpos Hw. destruct (sem_start_inv n k q c Hc Hq) as [a HI].
  destruct (gate_inv_steps _ _ _ _ HI Hp Hs) as [a' HI'].
  refine (gate_progress g a' HI' Hpos Hw _). done.
Qed.

(** An interrupt handler's sem_post can be lost. With one task and no
    permits there is a run in which the handler posts while the task is
    between its look at the count and its sleep, after which the count is one
    and the task is blocked on the queue, and nothing but another post or a
    signal can happen. *)
Theorem sem_post_in_window_lost :
  exists es g, steps es (sem_start 1 1 0 0) = Some g /\ es = [Enter 0; Turn 0; IrqPost; FallAsleep 0] /\
    count (gate g) = 1 /\ blocked (mem g) 0 = true /\ load (mem g) (Head 0) = Some 0%nat /\
    forall e, step e g <> None -> e = IrqPost \/ exists i, e = Kill i.
Proof.
  exists [Enter 0; Turn 0; IrqPost; FallAsleep 0]. eexists. split; [vm_compute; reflexivity|]. split; [done|]. split; [done|]. split; [done|]. split; [done|].
  intros e He. destruct e as [[|i]|[|i]|[|i]|[|i]|[|i]|[|i]|[|i]| |i]; auto; [by exfalso..|by right; exists i].
Qed.

(** Permits are conserved. After any run whatever, interrupts included,
    the count and the number of tasks inside add up to the initial count and
    the posts made. *)
Theorem sem_permits_counted n k q c es g :
  0 <= c -> c + posts es < 2147483648 -> steps es (sem_start n k q c) = Some g ->
  count (gate g) + Z.of_nat (count_if inside (pcs g)) = c + posts es.
Proof.
  intros Hc Hb Hs. pose proof (posts_nonneg es).
  assert (Hp : permits (sem_start n k q c) = c).
  { unfold permits. cbn [sem_start sem_init gate pcs count].
    rewrite count_idle. lia. }
  change (permits g = c + posts es). rewrite (permits_steps es (sem_start n k q c) g), Hp; [done| |lia|done].
  unfold is_int. cbn [sem_start sem_init gate count]. lia.
Qed.

(** C30: a mutex excludes. After any run in which only a task inside unlocks,
    at most one task is inside, it is the recorded owner, no task that is not
    inside gets the panic for locking twice, and if the mutex is free and a
    task is on its queue then a task is awake whose own next turn, with no
    signal and no other task's step before it, locks it. *)
Theorem mutex_excludes n k q es g :
  (q < k)%nat -> posts es = 0 -> steps es (mutex_start n k q) = Some g ->
  (forall i, pcs g !! i = Some Inside <-> owner (gate g) = Some i) /\
  (forall i, pcs g !! i <> Some Inside -> mutex_lock_turn i (gate g) <> Panic) /\
  (locked (gate g) = false -> load (mem g) (Head (m_wait (gate g))) <> None ->
   exists i es' g', own_steps g i es' /\ steps es' g = Some g' /\ pcs g' !! i = Some Inside).
Proof.
  intros Hq Hp Hs. pose proof (mutex_inv_steps _ _ _ (mutex_start_mutex_inv n k q) Hp Hs) as [H1 H2].
  split; [done|]. split.
  - intros i Hi. unfold mutex_lock_turn. destruct (locked (gate g)); cbn [negb]; [|done]. rewrite H1 in Hi. by case_decide.
  - intros Hl Hw. destruct (mutex_start_inv n k q Hq) as [a HI].
    destruct (gate_inv_steps _ _ _ _ HI (no_posts_polite _ _ Hp) Hs) as [a' HI'].
    destruct (gate_progress g a' HI') as (i & es' & g' & Ho & Hg & Hi & _); [by cbn; rewrite Hl|done| |by exists i, es', g'].
    intros i. cbn [g_take mutex_gate]. unfold mutex_lock_turn. by rewrite Hl.
Qed.

(** *** The claims at work *)

Lemma waitq_refines_fifo_witness :
  refines (run_ops [Sleep 0 1; Sleep 0 0; WakeOne 0] (boot 2 1))
    (f_ops [Sleep 0 1; Sleep 0 0; WakeOne 0] (mk_fifo (fun _ => []) (replicate 2 (attrs idle_task)))) /\
  line (f_ops [Sleep 0 1; Sleep 0 0; WakeOne 0] (mk_fifo (fun _ => []) (replicate 2 (attrs idle_task)))) 0%nat = [0%nat].
Proof.
  split; [|reflexivity]. apply waitq_refines_fifo; [apply boot_refines|]. cbn [ops_ok op_ok].
  split; [split; [vm_compute; lia|by eexists]|]. split; [|done]. split; [vm_compute; lia|by eexists].
Defined.
Lemma sleep_on_timeout_not_early_witness :
  exists k t, [4294967300; 4294967310] !! k = Some t /\ 200 <= 1000 / HZ * (t - 4294967290) /\
    forall j u, (j < k)%nat -> [4294967300; 4294967310] !! j = Some u -> u - 4294967290 < (200 * HZ + 999) / 1000.
Proof.
  eapply (sleep_on_timeout_not_early [(id, 4); (id, 14)] [4294967300; 4294967310] 4294967290 200 0 0 (boot 1 1)).
  - lia.
  - vm_compute. reflexivity.
  - reflexivity.
  - apply Forall_cons. split; [lia|]. apply Forall_cons. split; [lia|]. by apply Forall_nil.
  - vm_compute. reflexivity.
Defined.
Lemma sem_no_lost_wakeup_witness :
  exists g, steps [Enter 0; Turn 0; FallAsleep 0; Enter 1; Turn 1; FallAsleep 1; IrqPost] (sem_start 2 1 0 0) = Some g /\
  exists i es' g', own_steps g i es' /\ steps es' g = Some g' /\
    pcs g' !! i = Some Inside /\ count (gate g') = count (gate g) - 1.
Proof.
  eexists. split; [vm_compute; reflexivity|].
  eapply (sem_no_lost_wakeup 2 1 0 0 [Enter 0; Turn 0; FallAsleep 0; Enter 1; Turn 1; FallAsleep 1; IrqPost]).
  - unfold is_int. lia.
  - lia.
  - vm_compute. repeat (split; [by intros [=]|]). split; [|done]. intros _. by repeat constructor.
  - vm_compute. reflexivity.
  - vm_compute. reflexivity.
  - by vm_compute.
Defined.
Lemma sem_permits_counted_witness :
  exists g, steps [Enter 0; Turn 0; IrqPost] (sem_start 2 1 0 2) = Some g /\
  count (gate g) + Z.of_nat (count_if inside (pcs g)) = 2 + posts [Enter 0; Turn 0; IrqPost].
Proof.
  eexists. split; [vm_compute; reflexivity|]. apply (sem_permits_counted 2 1 0 2 [Enter 0; Turn 0; IrqPost]);
    [lia|vm_compute; reflexivity|vm_compute; reflexivity].
Defined.
Lemma mutex_excludes_witness :
  exists g, steps [Enter 0; Turn 0; Enter 1; Turn 1; FallAsleep 1; Leave 0] (mutex_start 2 1 0) = Some g /\
  ((forall i, pcs g !! i = Some Inside <-> owner (gate g) = Some i) /\
   (forall i, pcs g !! i <> Some Inside -> mutex_lock_turn i (gate g) <> Panic) /\
   (locked (gate g) = false -> load (mem g) (Head (m_wait (gate g))) <> None ->
    exists i es' g', own_steps g i es' /\ steps es' g = Some g' /\ pcs g' !! i = Some Inside)).
Proof.
  eexists. split; [vm_compute; reflexivity|].
  apply (mutex_excludes 2 1 0 [Enter 0; Turn 0; Enter 1; Turn 1; FallAsleep 1; Leave 0]);
    [lia|reflexivity|vm_compute; reflexivity].
Defined.

(** A timeout of 43,000 seconds, in milliseconds, wraps: it ends after 50. *)
Example long_timeout_is_short : deadline_of 0 43000000 = 5033.
Proof. reflexivity. Qed.
End WAIT_CLAIMS.
