(* ===== verification/Futex.v ===== *)
(** * Futexes (kernel/futex.c)

    A table of the addresses somebody is asleep on, each with a wait queue of
    its own ([Wait]). A call to wait runs without interruption up to its
    sleep; the task then lies on the queue until it is woken, signalled or its
    time runs out, and goes on from there: [enter] is the first part,
    [resume] one return from [schedule]. Queue [b] of the wait queues is that
    of entry [b]. *)

From stdpp Require Import functions.
From S2P Require Import Prelude Uaccess Wait.
Local Open Scope Z_scope.

Module FUTEX.
Import UACCESS.

Definition FUTEX_BUCKETS : nat := 32.
Definition FUTEX_WAIT : Z := 0.
Definition FUTEX_WAKE : Z := 1.
Definition FUTEX_REQUEUE : Z := 3.
Definition FUTEX_CMP_REQUEUE : Z := 4.
Definition FUTEX_WAIT_BITSET : Z := 9.
Definition FUTEX_WAKE_BITSET : Z := 10.
Definition FUTEX_PRIVATE_FLAG : Z := 128.
Definition FUTEX_CLOCK_REALTIME : Z := 256.
Definition FUTEX_CMD_MASK : Z := Z.lnot (Z.lor FUTEX_PRIVATE_FLAG FUTEX_CLOCK_REALTIME).

(** Address spaces are named by a number; [None] is a task without one. *)
Record futex_bucket := mk_bucket { b_as : nat; b_uaddr : Z; b_waiters : Z }.

(** What a sleeping futex_wait has in its locals: its entry, and its deadline
    if it has one. *)
Record local := mk_local { l_bucket : nat; l_deadline : option Z }.

Record state := mk_state {
  wq : WAIT.state;
  buckets : list futex_bucket;
  inside : list (option local);
}.

Definition is_key (k : nat * Z) (b : futex_bucket) : bool :=
  (0 <? b_waiters b) && (b_as b =? fst k)%nat && (b_uaddr b =? snd k).
Definition find (s : state) (k : nat * Z) : option nat := find_idx (is_key k) (buckets s).

Definition find_or_make (s : state) (k : nat * Z) : option (nat * state) :=
  match find s k with
  | Some b => Some (b, s)
  | None =>
      match find_idx (fun b => b_waiters b =? 0) (buckets s) with
      | Some b => Some (b, mk_state (WAIT.set_head b None (wq s))
                                    (<[b := mk_bucket (fst k) (snd k) 0]> (buckets s)) (inside s))
      | None => None
      end
  end.

(** [while (woken < n && head)]: every turn takes a task off the queue. *)
Fixpoint wake_upto (fuel : nat) (b : nat) (n woken : Z) (w : WAIT.state) : Z * WAIT.state :=
  match fuel with
  | O => (woken, w)
  | S fuel' =>
      if (woken <? n) && bool_decide (WAIT.load w (WAIT.Head b) <> None)
      then wake_upto fuel' b n (woken + 1) (WAIT.wake_one b w)
      else (woken, w)
  end.
Definition futex_wake_at (k : nat * Z) (n : Z) (s : state) : Z * state :=
  match find s k with
  | None => (0, s)
  | Some b =>
      let '(r, w) := wake_upto (length (WAIT.tasks (wq s))) b n 0 (wq s) in
      (r, mk_state w (buckets s) (inside s))
  end.

Definition add_waiters (b : nat) (d : Z) (s : state) : state :=
  mk_state (wq s) (alter (fun x => mk_bucket (b_as x) (b_uaddr x) (b_waiters x + d)) b (buckets s)) (inside s).
Definition set_inside (me : nat) (l : option local) (s : state) : state :=
  mk_state (wq s) (buckets s) (<[me := l]> (inside s)).
Definition set_wq (w : WAIT.state) (s : state) : state := mk_state w (buckets s) (inside s).

Section user.
Context {U : Type} `{UserMemory U}.

Definition read_word (u : U) (uaddr : Z) : Z + Z :=
  if negb (Z.land uaddr 3 =? 0) then inl (- EINVAL)
  else match u_fetch u uaddr 4 with None => inl (- EFAULT) | Some bs => inr (be bs) end.

Definition read_timeout (u : U) (timeout_uva : Z) : Z + Z :=
  if timeout_uva =? 0 then inr 0
  else
    match u_fetch u timeout_uva 8 with
    | None => inl (- EFAULT)
    | Some bs =>
        let tv_sec := be (sub bs 0 4) in
        let tv_nsec := be (sub bs 4 4) in
        if 1000000000 <=? tv_nsec then inl (- EINVAL)
        else
          let ms := u32 (u32 (tv_sec * 1000) + u32 (tv_nsec + 999999) / 1000000) in
          inr (if ms =? 0 then 1 else ms)
    end.

(** One sleep of task [me] in entry [b]: sleep_on, or a turn of
    sleep_on_timeout. *)
Definition lie_down (me b : nat) (deadline : option Z) (w : WAIT.state) : WAIT.state :=
  match deadline with
  | None => WAIT.fall_asleep b me w
  | Some d => WAIT.upd me (WAIT.set_wake_at d) (WAIT.fall_asleep b me (WAIT.upd me (WAIT.set_woken false) w))
  end.

(** [pending]: signal_pending(current); [now]: the tick. *)
Definition enter (me : nat) (asp : option nat) (u : U) (pending : bool) (now uaddr val timeout_uva : Z) (s : state) :
    Z + state :=
  match asp with
  | None => inl (- EFAULT)
  | Some a =>
      match read_timeout u timeout_uva with
      | inl err => inl err
      | inr ms =>
          match read_word u uaddr with
          | inl err => inl err
          | inr word =>
              if negb (word =? val) then inl (- EAGAIN)
              else if pending then inl (- EINTR)
              else
                match find_or_make s (a, uaddr) with
                | None => inl (- ENOMEM)
                | Some (b, s) =>
                    let s := add_waiters b 1 s in
                    let d := if ms =? 0 then None else Some (WAIT.deadline_of now ms) in
                    inr (set_inside me (Some (mk_local b d)) (set_wq (lie_down me b d (wq s)) s))
                end
          end
      end
  end.

(** Back from schedule: the wait is over with a result, or sleeps again. *)
Definition resume (me : nat) (pending : bool) (now : Z) (l : local) (s : state) : option Z * state :=
  let b := l_bucket l in
  let over (r : Z) (s : state) := (Some r, set_inside me None (add_waiters b (-1) s)) in
  let w := WAIT.back_again b me (wq s) in
  match l_deadline l with
  | None => over (if pending then - EINTR else 0) (set_wq w s)
  | Some d =>
      let w := WAIT.upd me (WAIT.set_wake_at 0) w in
      if WAIT.is_woken w me
      then over (if pending then - EINTR else 0) (set_wq (WAIT.upd me (WAIT.set_woken false) w) s)
      else if 0 <=? s32 (now - d) then over (- ETIMEDOUT) (set_wq w s)
      else (None, set_wq (lie_down me b (Some d) w) s)
  end.

(** [inl] is a result, [inr] a sleep. *)
Definition futex_call (me : nat) (asp : option nat) (u : U) (pending : bool) (now uaddr op val timeout_uva val3 : Z)
    (s : state) : (Z * state) + state :=
  let cmd := Z.land op FUTEX_CMD_MASK in
  let wait tuva := match enter me asp u pending now uaddr val tuva s with inl r => inl (r, s) | inr s' => inr s' end in
  match asp with
  | None => inl (- EFAULT, s)
  | Some a =>
      if cmd =? FUTEX_WAIT then wait timeout_uva
      else if cmd =? FUTEX_WAIT_BITSET then
        if negb (timeout_uva =? 0) then inl (- ENOSYS, s) else wait 0
      else if (cmd =? FUTEX_WAKE) || (cmd =? FUTEX_WAKE_BITSET) then
        if negb (Z.land uaddr 3 =? 0) then inl (- EINVAL, s)
        else
          match u_fetch u uaddr 4 with
          | None => inl (- EFAULT, s)
          | Some _ => inl (futex_wake_at (a, uaddr) (if 0 <? s32 val then s32 val else 0) s)
          end
      else if (cmd =? FUTEX_REQUEUE) || (cmd =? FUTEX_CMP_REQUEUE) then
        let wake := inl (futex_wake_at (a, uaddr) 2147483647 s) in
        if cmd =? FUTEX_CMP_REQUEUE then
          match read_word u uaddr with
          | inl err => inl (err, s)
          | inr word => if negb (word =? val3) then inl (- EAGAIN, s) else wake
          end
        else wake
      else inl (- ENOSYS, s)
  end.
End user.

(** ** What the table promises

    A line of sleepers per address: [asleep a k] is read off the entry for
    [k], if there is one. *)
Definition asleep (s : state) (a : WAIT.fifo) (k : nat * Z) : list nat :=
  match find s k with Some b => WAIT.line a b | None => [] end.

Definition within (b : nat) (l : option local) : bool :=
  match l with Some l => (l_bucket l =? b)%nat | None => false end.

Definition keys_distinct (bs : list futex_bucket) : Prop :=
  forall b1 b2 x1 x2, bs !! b1 = Some x1 -> bs !! b2 = Some x2 ->
    0 < b_waiters x1 -> 0 < b_waiters x2 -> b_as x1 = b_as x2 -> b_uaddr x1 = b_uaddr x2 -> b1 = b2.

Record finv (s : state) (a : WAIT.fifo) : Prop := mk_finv {
  fi_refines : WAIT.refines (wq s) a;
  fi_heads : length (WAIT.heads (wq s)) = FUTEX_BUCKETS;
  fi_buckets : length (buckets s) = FUTEX_BUCKETS;
  fi_inside : length (inside s) = length (WAIT.tasks (wq s));
  fi_waiters : forall b x, buckets s !! b = Some x -> b_waiters x = Z.of_nat (count_if (within b) (inside s));
  fi_lines : forall b i, i ∈ WAIT.line a b -> exists l, inside s !! i = Some (Some l) /\ l_bucket l = b;
  fi_keys : keys_distinct (buckets s);
  fi_local : forall i l, inside s !! i = Some (Some l) -> (l_bucket l < FUTEX_BUCKETS)%nat;
}.

(** ** The table *)

Lemma is_key_spec k x : is_key k x = true <-> 0 < b_waiters x /\ b_as x = fst k /\ b_uaddr x = snd k.
Proof. unfold is_key. rewrite !andb_true_iff, Z.ltb_lt, Nat.eqb_eq, Z.eqb_eq. tauto. Qed.

Lemma find_iff bs k b :
  keys_distinct bs -> find_idx (is_key k) bs = Some b <-> exists x, bs !! b = Some x /\ is_key k x = true.
Proof.
  intros HK. split.
  - intros [(x & Hx & Hkey) _]%find_idx_Some. by exists x.
  - intros (x & Hx & Hkey). destruct (find_idx (is_key k) bs) as [b'|] eqn:E.
    + apply find_idx_Some in E as [(x' & Hx' & Hkey') _]. apply is_key_spec in Hkey as (H1 & H2 & H3), Hkey' as (H1' & H2' & H3').
      f_equal. eapply HK; [done|done|done|done|congruence|congruence].
    + rewrite find_idx_None in E. eapply E in Hx. congruence.
Qed.
Lemma find_ext bs bs' k :
  keys_distinct bs -> keys_distinct bs' ->
  (forall b, (exists x, bs !! b = Some x /\ is_key k x = true) <-> (exists x, bs' !! b = Some x /\ is_key k x = true)) ->
  find_idx (is_key k) bs = find_idx (is_key k) bs'.
Proof. intros H1 H2 E. apply option_eq. intros b. by rewrite !find_iff. Qed.

Lemma count_within_pos b l i x : l !! i = Some (Some x) -> l_bucket x = b -> (0 < count_if (within b) l)%nat.
Proof. intros Hi <-. apply count_if_pos. exists i, (Some x). split; [done|]. apply Nat.eqb_refl. Qed.

(** Nobody is on the queue of a free entry. *)
Lemma free_line s a b x : finv s a -> buckets s !! b = Some x -> b_waiters x = 0 -> WAIT.line a b = [].
Proof.
  intros HI Hx H0. destruct (WAIT.line a b) as [|i l] eqn:E; [done|]. exfalso.
  destruct (fi_lines _ _ HI b i) as (lo & Hi & Hb); [rewrite E; constructor|].
  pose proof (count_within_pos _ _ _ _ Hi Hb). rewrite (fi_waiters _ _ HI b x Hx) in H0. lia.
Qed.
Lemma set_head_empty s a b : WAIT.refines s a -> WAIT.line a b = [] -> WAIT.set_head b None s = s.
Proof.
  intros HR E. pose proof (WAIT.wq_path _ _ (proj1 HR) b) as HP. rewrite E in HP.
  destruct s as [ts hs]. unfold WAIT.set_head. cbn [WAIT.path WAIT.load WAIT.tasks WAIT.heads] in *. f_equal.
  destruct (hs !! b) as [h|] eqn:Eh.
  - apply list_insert_id. rewrite Eh. cbn in HP. congruence.
  - apply list_insert_ge. by apply lookup_ge_None.
Qed.

(** The entry a wait gets: it has the address, and no other entry in use
    does. Making one changes no line. *)
Definition entry_for (s : state) (k : nat * Z) (b : nat) (x : futex_bucket) : Prop :=
  buckets s !! b = Some x /\ b_as x = fst k /\ b_uaddr x = snd k /\
  forall b' x', buckets s !! b' = Some x' -> is_key k x' = true -> b' = b.
Lemma find_or_make_spec s a k b s' :
  finv s a -> find_or_make s k = Some (b, s') ->
  finv s' a /\ (exists x, entry_for s' k b x) /\ (forall k', asleep s' a k' = asleep s a k') /\
  WAIT.line a b = asleep s a k /\ inside s' = inside s /\ wq s' = wq s.
Proof.
  intros HI. unfold find_or_make. destruct (find s k) as [b0|] eqn:Ef.
  - intros [= <- <-]. split; [done|]. split; [|unfold asleep; by rewrite Ef].
    apply find_iff in Ef as (x & Hx & Hk); [|apply HI]. exists x. pose proof Hk as (H1 & H2 & H3)%is_key_spec.
    split; [done|]. split; [done|]. split; [done|]. intros b' x' Hx' (H1' & H2' & H3')%is_key_spec.
    eapply (fi_keys _ _ HI); [done|done|done|done|congruence|congruence].
  - destruct (find_idx (fun b => b_waiters b =? 0) (buckets s)) as [b0|] eqn:Eb; [|done]. intros [= <- <-].
    apply find_idx_Some in Eb as [(y & Hy & H0) _]. apply Z.eqb_eq in H0.
    pose proof (free_line _ _ _ _ HI Hy H0) as Hl. rewrite (set_head_empty _ _ _ (fi_refines _ _ HI) Hl).
    assert (Hlt : (b0 < length (buckets s))%nat) by (by eapply lookup_lt_Some).
    assert (Hlive : forall b x, <[b0 := mk_bucket (fst k) (snd k) 0]> (buckets s) !! b = Some x -> 0 < b_waiters x ->
              b <> b0 /\ buckets s !! b = Some x).
    { intros b x Hb Hpos. destruct (decide (b = b0)) as [->|Hne].
      - rewrite list_lookup_insert_eq in Hb by done. injection Hb as <-. cbn in Hpos. lia.
      - by rewrite list_lookup_insert_ne in Hb by done. }
    assert (HI' : finv (mk_state (wq s) (<[b0 := mk_bucket (fst k) (snd k) 0]> (buckets s)) (inside s)) a).
    { destruct HI as [H1 H2 H3 H4 H5 H6 H7 H8]. constructor; cbn [wq buckets inside]; try done.
      - by rewrite length_insert.
      - intros b x Hb. destruct (decide (b = b0)) as [->|Hne].
        + rewrite list_lookup_insert_eq in Hb by done. injection Hb as <-. cbn [b_waiters]. by rewrite <- (H5 b0 y).
        + rewrite list_lookup_insert_ne in Hb by done. by apply H5.
      - intros b1 b2 x1 x2 Hb1 Hb2 Hp1 Hp2. apply Hlive in Hb1 as [_ Hb1], Hb2 as [_ Hb2]; [|done..]. by eapply H7. }
    assert (Hnone : forall b x, buckets s !! b = Some x -> is_key k x = true -> False).
    { intros b x Hx Hk. unfold find in Ef. rewrite find_idx_None in Ef. eapply Ef in Hx. congruence. }
    split; [done|]. split; [|split; [|split; [|done]]].
    + eexists. split; [cbn [buckets]; by apply list_lookup_insert_eq|]. split; [done|]. split; [done|].
      intros b x Hb Hk. cbn [buckets] in Hb. pose proof Hk as (Hp & _)%is_key_spec. apply Hlive in Hb as [_ Hb]; [|done].
      exfalso. by eapply Hnone.
    + intros k'. unfold asleep, find. cbn [buckets]. rewrite (find_ext _ (buckets s) k'); [done|apply HI'|apply HI|].
      intros b. split; intros (x & Hb & Hk); exists x; pose proof Hk as (Hp & _)%is_key_spec.
      * by apply Hlive in Hb as [_ Hb].
      * rewrite list_lookup_insert_ne; [done|]. intros <-. rewrite Hy in Hb. injection Hb as <-. lia.
    + unfold asleep. by rewrite Ef.
Qed.

Lemma who_length w a : WAIT.refines w a -> length (WAIT.who a) = length (WAIT.tasks w).
Proof. intros [_ <-]. by rewrite length_fmap. Qed.
Lemma off_line w a i :
  WAIT.refines w a -> (i < length (WAIT.tasks w))%nat -> (forall q, i ∉ WAIT.line a q) ->
  exists x, WAIT.tasks w !! i = Some x /\ WAIT.queue x = None.
Proof.
  intros [HW _] [x Hx]%lookup_lt_is_Some_2 Hoff. exists x. split; [done|]. destruct (WAIT.queue x) as [q|] eqn:E; [|done].
  exfalso. apply (Hoff q), (WAIT.wq_member _ _ HW). unfold WAIT.on_queue. by rewrite Hx.
Qed.

Lemma asleep_at s a k b x : finv s a -> entry_for s k b x -> asleep s a k = WAIT.line a b.
Proof.
  intros HI (Hx & H1 & H2 & Hu). unfold asleep. destruct (find s k) as [b'|] eqn:E.
  - apply find_iff in E as (y & Hy & Hk); [|apply HI]. by rewrite (Hu b' y Hy Hk).
  - symmetry. eapply free_line; [done..|]. unfold find in E. rewrite find_idx_None in E. apply E in Hx as Hk.
    rewrite (fi_waiters _ _ HI b x Hx) in *.
    destruct (decide (b_waiters x = 0)); [by rewrite <- (fi_waiters _ _ HI b x Hx)|]. exfalso.
    assert (is_key k x = true); [|congruence]. apply is_key_spec. rewrite (fi_waiters _ _ HI b x Hx) in *. split; [lia|done].
Qed.
Lemma found_entry s a k b : finv s a -> find s k = Some b -> exists x, entry_for s k b x /\ 0 < b_waiters x.
Proof.
  intros HI E. apply find_iff in E as (x & Hx & Hk); [|apply HI]. exists x. pose proof Hk as (H1 & H2 & H3)%is_key_spec.
  split; [|done]. split; [done|]. split; [done|]. split; [done|]. intros b' y Hy (H1' & H2' & H3')%is_key_spec.
  eapply (fi_keys _ _ HI); [done|done|done|done|congruence|congruence].
Qed.

(** Lines that only lose tasks, in a table whose entries only lose waiters. *)
Lemma asleep_shrink s s' a a' f k :
  finv s a -> finv s' a' -> f [] = [] -> (forall b, WAIT.line a' b = f (WAIT.line a b)) ->
  (forall b x', buckets s' !! b = Some x' -> exists x, buckets s !! b = Some x /\
     b_as x' = b_as x /\ b_uaddr x' = b_uaddr x /\ b_waiters x' <= b_waiters x) ->
  asleep s' a' k = f (asleep s a k).
Proof.
  intros HI HI' Hf Hl Hb.
  assert (Hback : forall b x', buckets s' !! b = Some x' -> is_key k x' = true ->
            exists x, buckets s !! b = Some x /\ is_key k x = true).
  { intros b x' Hx' (H1 & H2 & H3)%is_key_spec. destruct (Hb b x' Hx') as (x & Hx & E1 & E2 & E3). exists x.
    split; [done|]. apply is_key_spec. split; [lia|]. split; congruence. }
  destruct (find s k) as [b|] eqn:E.
  - destruct (found_entry _ _ _ _ HI E) as (x & Hent & _). rewrite (asleep_at _ _ _ _ _ HI Hent), <- Hl.
    assert (is_Some (buckets s' !! b)) as [x' Hx'].
    { apply lookup_lt_is_Some. rewrite (fi_buckets _ _ HI'), <- (fi_buckets _ _ HI). eapply lookup_lt_Some, Hent. }
    destruct (Hb b x' Hx') as (y & Hy & E1 & E2 & E3). destruct Hent as (Hx & E4 & E5 & Hu).
    rewrite Hy in Hx. injection Hx as ->. eapply (asleep_at _ _ _ _ x' HI'). split; [done|]. split; [congruence|].
    split; [congruence|]. intros b' y' Hy' Hk'. destruct (Hback _ _ Hy' Hk') as (z & Hz & Hkz). by eapply Hu.
  - unfold asleep at 2. rewrite E, Hf. unfold asleep. destruct (find s' k) as [b|] eqn:E'; [|done].
    apply find_iff in E' as (x' & Hx' & Hk'); [|apply HI']. destruct (Hback _ _ Hx' Hk') as (x & Hx & Hk).
    unfold find in E. rewrite find_idx_None in E. apply E in Hx. congruence.
Qed.

(** *** The parts of a wait *)

Lemma lookup_add_waiters s b d b' x' :
  buckets (add_waiters b d s) !! b' = Some x' ->
  exists x, buckets s !! b' = Some x /\ b_as x' = b_as x /\ b_uaddr x' = b_uaddr x /\
    b_waiters x' = b_waiters x + if decide (b' = b) then d else 0.
Proof.
  cbn [add_waiters buckets]. destruct (decide (b' = b)) as [->|Hne].
  - rewrite list_lookup_alter_eq. destruct (buckets s !! b) as [x|]; [|done]. intros [= <-]. by exists x.
  - rewrite list_lookup_alter_ne by done. intros Hx. exists x'. split; [done|]. split; [done|]. split; [done|]. lia.
Qed.
Lemma count_within_set l i o o' b :
  l !! i = Some o ->
  Z.of_nat (count_if (within b) (<[i := o']> l)) + (if within b o then 1 else 0)
  = Z.of_nat (count_if (within b) l) + (if within b o' then 1 else 0).
Proof. intros Hi. pose proof (count_if_insert (within b) l i o o' Hi). destruct (within b o), (within b o'); lia. Qed.

Lemma finv_join s a k b x me d :
  finv s a -> entry_for s k b x -> inside s !! me = Some None ->
  let s' := set_inside me (Some (mk_local b d)) (add_waiters b 1 s) in
  finv s' a /\ (exists x', entry_for s' k b x' /\ 0 < b_waiters x') /\ forall k', asleep s' a k' = asleep s a k'.
Proof.
  intros HI Hent Hme s'. pose proof Hent as (Hx & E1 & E2 & Hu).
  assert (Hlive : forall b' x', buckets s' !! b' = Some x' -> 0 < b_waiters x' -> b' = b \/
            (b' <> b /\ buckets s !! b' = Some x')).
  { intros b' x' Hx' Hpos. destruct (decide (b' = b)); [by left|right]. split; [done|]. cbn [s' set_inside buckets] in Hx'.
    cbn [add_waiters buckets] in Hx'. by rewrite list_lookup_alter_ne in Hx'. }
  assert (Hb' : exists x', buckets s' !! b = Some x' /\ b_as x' = fst k /\ b_uaddr x' = snd k /\ 0 < b_waiters x').
  { cbn [s' set_inside add_waiters buckets]. rewrite list_lookup_alter_eq, Hx. eexists. split; [done|]. cbn [b_as b_uaddr b_waiters].
    split; [done|]. split; [done|]. rewrite (fi_waiters _ _ HI b x Hx). lia. }
  destruct Hb' as (x' & Hx' & E1' & E2' & Hpos').
  assert (Hkey : forall b1 x1, buckets s' !! b1 = Some x1 -> is_key k x1 = true -> b1 = b).
  { intros b1 x1 Hb1 Hk1. pose proof Hk1 as (Hp & _)%is_key_spec. destruct (Hlive _ _ Hb1 Hp) as [->|[_ Hb1']]; [done|].
    by eapply Hu. }
  assert (HI' : finv s' a).
  { constructor; cbn [s' set_inside wq inside]; rewrite ?length_insert; try apply HI.
    - cbn [s' set_inside buckets add_waiters]. rewrite length_alter. apply HI.
    - intros b1 x1 Hb1. apply lookup_add_waiters in Hb1 as (y & Hy & _ & _ & ->). cbn [add_waiters inside].
      pose proof (count_within_set _ _ _ (Some (mk_local b d)) b1 Hme) as HC. cbn [within l_bucket] in HC.
      rewrite (fi_waiters _ _ HI b1 y Hy). destruct (decide (b1 = b)) as [->|Hne].
      + rewrite Nat.eqb_refl in HC. lia.
      + rewrite (proj2 (Nat.eqb_neq b b1)) in HC by done. lia.
    - intros b1 i Hi. destruct (fi_lines _ _ HI b1 i Hi) as (l & Hl & Hlb). exists l. split; [|done].
      cbn [add_waiters inside]. rewrite list_lookup_insert_ne; [done|]. intros <-. congruence.
    - intros b1 b2 x1 x2 Hb1 Hb2 Hp1 Hp2 A1 A2. destruct (Hlive _ _ Hb1 Hp1) as [->|[N1 Hb1']].
      + rewrite Hx' in Hb1. injection Hb1 as <-. symmetry. apply (Hkey b2 x2); [done|]. apply is_key_spec.
        split; [done|]. split; congruence.
      + destruct (Hlive _ _ Hb2 Hp2) as [->|[N2 Hb2']]; [|by eapply (fi_keys _ _ HI)].
        rewrite Hx' in Hb2. injection Hb2 as <-. apply (Hkey b1 x1); [done|]. apply is_key_spec. split; [done|]. split; congruence.
    - cbn [add_waiters inside]. intros i l [(_ & [= <-] & _)|[_ Hi]]%list_lookup_insert_Some; [|by eapply (fi_local _ _ HI)].
      cbn [l_bucket]. rewrite <- (fi_buckets _ _ HI). by eapply lookup_lt_Some. }
  assert (Hent' : entry_for s' k b x') by (split; [done|]; split; [done|]; split; [done|]; exact Hkey).
  split; [done|]. split; [by exists x'|]. intros k'. destruct (decide (k' = k)) as [->|Hne].
  - by rewrite (asleep_at _ _ _ _ _ HI Hent), (asleep_at _ _ _ _ _ HI' Hent').
  - unfold asleep, find. rewrite (find_ext (buckets s') (buckets s) k'); [done|apply HI'|apply HI|].
    assert (Hoth : forall y, b_as y = fst k -> b_uaddr y = snd k -> is_key k' y = true -> False).
    { intros y A1 A2 (_ & A3 & A4)%is_key_spec. apply Hne. destruct k, k'. cbn in *. congruence. }
    intros b1. split; intros (y & Hy & Hk); exists y; split; try done.
    + pose proof Hk as (Hp & _)%is_key_spec. destruct (Hlive _ _ Hy Hp) as [->|[_ Hb1]]; [|done].
      rewrite Hx' in Hy. injection Hy as <-. exfalso. by apply (Hoth x').
    + cbn [s' set_inside add_waiters buckets]. rewrite list_lookup_alter_ne; [done|]. intros <-.
      rewrite Hx in Hy. injection Hy as <-. by apply (Hoth x).
Qed.

(** What lying down does to a task: with a deadline its flag is cleared and
    its alarm set. *)
Definition f_lie (d : option Z) (x : WAIT.tstate * bool * Z) : WAIT.tstate * bool * Z :=
  match d with
  | None => WAIT.f_state WAIT.TASK_BLOCKED x
  | Some d => (WAIT.TASK_BLOCKED, false, d)
  end.
(** What the end of a wait does to it: a timed one clears both. *)
Definition f_up (d : option Z) (x : WAIT.tstate * bool * Z) : WAIT.tstate * bool * Z :=
  match d with
  | None => x
  | Some _ => (fst (fst x), false, 0)
  end.

(** What becomes of the lines when one task lies down, or gets up. *)
Lemma lie_down_refines w a me b d :
  WAIT.refines w a -> (b < length (WAIT.heads w))%nat -> (me < length (WAIT.tasks w))%nat ->
  (forall q, me ∉ WAIT.line a q) ->
  exists a', WAIT.refines (lie_down me b d w) a' /\ WAIT.line a' = <[b := WAIT.line a b ++ [me]]> (WAIT.line a) /\
    WAIT.who a' = alter (f_lie d) me (WAIT.who a) /\ length (WAIT.heads (lie_down me b d w)) = length (WAIT.heads w).
Proof.
  intros HR Hb Hme Hoff. destruct d as [d|]; cbn [lie_down].
  - pose proof (WAIT.refines_upd w a me (WAIT.set_woken false) (fun x => (fst (fst x), false, snd x))
      (fun _ => conj eq_refl eq_refl) (fun _ => eq_refl) HR) as HR1.
    assert (Hop : WAIT.op_ok (WAIT.Sleep b me) (WAIT.upd me (WAIT.set_woken false) w)).
    { split; [done|]. eapply off_line; [exact HR1| |done]. cbn [WAIT.upd WAIT.tasks]. by rewrite length_alter. }
    pose proof (WAIT.sleep_refines _ _ _ _ HR1 Hop) as HR2.
    pose proof (WAIT.refines_upd _ _ me (WAIT.set_wake_at d) (fun x => (fst (fst x), snd (fst x), d))
      (fun _ => conj eq_refl eq_refl) (fun _ => eq_refl) HR2) as HR3.
    eexists. split; [exact HR3|]. cbn [WAIT.f_op WAIT.line WAIT.who]. split; [done|]. split; [by rewrite !list_alter_alter|].
    rewrite WAIT.heads_length_upd. apply (WAIT.heads_length_run_op (WAIT.Sleep b me) (WAIT.upd me (WAIT.set_woken false) w) I).
  - assert (Hop : WAIT.op_ok (WAIT.Sleep b me) w) by (split; [done|by eapply off_line]).
    eexists. split; [exact (WAIT.sleep_refines _ _ _ _ HR Hop)|]. cbn [WAIT.f_op WAIT.line WAIT.who].
    split; [done|]. split; [done|]. apply (WAIT.heads_length_run_op (WAIT.Sleep b me) w I).
Qed.

Lemma finv_lie s a k b x me l d :
  finv s a -> entry_for s k b x -> 0 < b_waiters x -> inside s !! me = Some (Some l) -> l_bucket l = b ->
  (forall q, me ∉ WAIT.line a q) ->
  exists a', finv (set_wq (lie_down me b d (wq s)) s) a' /\ WAIT.who a' = alter (f_lie d) me (WAIT.who a) /\
    forall k', asleep (set_wq (lie_down me b d (wq s)) s) a' k' = asleep s a k' ++ if decide (k' = k) then [me] else [].
Proof.
  intros HI Hent Hpos Hme Hlb Hoff. pose proof Hent as (Hx & E1 & E2 & Hu).
  assert (Hb : (b < length (WAIT.heads (wq s)))%nat).
  { rewrite (fi_heads _ _ HI), <- (fi_buckets _ _ HI). by eapply lookup_lt_Some. }
  assert (Hlt : (me < length (WAIT.tasks (wq s)))%nat) by (rewrite <- (fi_inside _ _ HI); by eapply lookup_lt_Some).
  destruct (lie_down_refines (wq s) a me b d (fi_refines _ _ HI) Hb Hlt Hoff) as (a' & HR & Hl & Hw & Hh).
  exists a'. split; [|split; [done|]].
  - constructor; cbn [set_wq wq buckets inside]; try apply HI; try done.
    + by rewrite Hh; apply HI.
    + rewrite <- (who_length _ _ HR), Hw, length_alter, (who_length _ _ (fi_refines _ _ HI)). apply HI.
    + intros b1 i. rewrite Hl. destruct (decide (b1 = b)) as [->|Hne].
      * rewrite fn_lookup_insert, elem_of_app, list_elem_of_singleton. intros [Hi| ->]; [by apply (fi_lines _ _ HI)|].
        by exists l.
      * rewrite fn_lookup_insert_ne by done. by apply (fi_lines _ _ HI).
  - intros k'. unfold asleep. change (find (set_wq (lie_down me b d (wq s)) s) k') with (find s k').
    rewrite Hl. destruct (decide (k' = k)) as [->|Hne].
    + assert (find s k = Some b) as ->; [|by rewrite fn_lookup_insert]. apply find_iff; [apply HI|]. exists x.
      split; [done|]. by apply is_key_spec.
    + rewrite app_nil_r. destruct (find s k') as [b'|] eqn:E; [|done]. rewrite fn_lookup_insert_ne; [done|]. intros ->.
      apply find_iff in E as (y & Hy & Hk); [|apply HI]. rewrite Hx in Hy. injection Hy as <-.
      apply is_key_spec in Hk as (_ & A1 & A2). apply Hne. destruct k, k'. cbn in *. congruence.
Qed.

Lemma finv_sub s a w' a' :
  finv s a -> WAIT.refines w' a' -> (forall q i, i ∈ WAIT.line a' q -> i ∈ WAIT.line a q) ->
  length (WAIT.who a') = length (WAIT.who a) -> length (WAIT.heads w') = length (WAIT.heads (wq s)) ->
  finv (set_wq w' s) a'.
Proof.
  intros HI HR Hl Hw Hh. constructor; cbn [set_wq wq buckets inside]; try apply HI; try done.
  - rewrite Hh. apply HI.
  - rewrite <- (who_length _ _ HR), Hw, (who_length _ _ (fi_refines _ _ HI)). apply HI.
  - intros b i Hi. by apply (fi_lines _ _ HI), Hl.
Qed.

(** Lines that lose a task, everything else as it was. *)
Lemma finv_lose s a w' a' t :
  finv s a -> WAIT.refines w' a' -> (forall q, WAIT.line a' q = WAIT.without t (WAIT.line a q)) ->
  length (WAIT.who a') = length (WAIT.who a) -> length (WAIT.heads w') = length (WAIT.heads (wq s)) ->
  finv (set_wq w' s) a' /\ (forall k, asleep (set_wq w' s) a' k = WAIT.without t (asleep s a k)) /\
  (forall q, t ∉ WAIT.line a' q).
Proof.
  intros HI HR Hl Hw Hh.
  assert (HI' : finv (set_wq w' s) a').
  { apply finv_sub with a; try done. intros q i. rewrite Hl. unfold WAIT.without. rewrite list_elem_of_filter. by intros [_ ?]. }
  split; [done|]. split.
  - intros k. apply (asleep_shrink s (set_wq w' s) a a'); try done. intros b x' Hx'. by exists x'.
  - intros q. rewrite Hl. unfold WAIT.without. rewrite list_elem_of_filter. by intros [? _].
Qed.

(** The end of a wait: off the table, on no line already. *)
Lemma finv_part s a me l :
  finv s a -> inside s !! me = Some (Some l) -> (forall q, me ∉ WAIT.line a q) ->
  let s' := set_inside me None (add_waiters (l_bucket l) (-1) s) in
  finv s' a /\ forall k, asleep s' a k = asleep s a k.
Proof.
  intros HI Hme Hoff s'.
  assert (HI' : finv s' a).
  { constructor; cbn [s' set_inside wq inside]; rewrite ?length_insert; try apply HI.
    - cbn [s' set_inside buckets add_waiters]. rewrite length_alter. apply HI.
    - intros b x' Hx'. apply lookup_add_waiters in Hx' as (x & Hx & _ & _ & ->). cbn [add_waiters inside].
      pose proof (count_within_set _ _ _ None b Hme) as HC. cbn [within] in HC. rewrite (fi_waiters _ _ HI b x Hx).
      destruct (decide (b = l_bucket l)) as [->|Hne].
      + rewrite Nat.eqb_refl in HC. lia.
      + rewrite (proj2 (Nat.eqb_neq (l_bucket l) b)) in HC by done. lia.
    - intros b i Hi. destruct (fi_lines _ _ HI b i Hi) as (l' & Hl' & Hlb). exists l'. split; [|done].
      cbn [add_waiters inside]. rewrite list_lookup_insert_ne; [done|]. intros <-. by apply (Hoff b).
    - intros b1 b2 x1 x2 Hb1 Hb2 Hp1 Hp2 A1 A2.
      apply lookup_add_waiters in Hb1 as (y1 & Hy1 & B1 & B2 & B3), Hb2 as (y2 & Hy2 & C1 & C2 & C3).
      eapply (fi_keys _ _ HI); [exact Hy1|exact Hy2| | |congruence|congruence]; repeat case_decide; lia.
    - cbn [add_waiters inside]. intros i l' [(_ & [=] & _)|[_ Hi]]%list_lookup_insert_Some. by eapply (fi_local _ _ HI). }
  split; [done|]. intros k. apply (asleep_shrink s s' a a id); try done.
  intros b x' Hx'. apply lookup_add_waiters in Hx' as (x & Hx & E1 & E2 & E3). exists x. split; [done|]. split; [done|].
  split; [done|]. case_decide; lia.
Qed.

(** *** Waking *)

Definition wake_them (ts : list nat) (w : list (WAIT.tstate * bool * Z)) : list (WAIT.tstate * bool * Z) :=
  foldl (fun w t => alter WAIT.f_wake t w) w ts.
Lemma wake_them_length ts w : length (wake_them ts w) = length w.
Proof. revert w. induction ts as [|t ts IH]; intros w; [done|]. cbn [wake_them foldl]. etransitivity; [apply IH|]. apply length_alter. Qed.

Lemma wake_upto_spec fuel b n r w a :
  WAIT.refines w a -> (length (WAIT.line a b) <= fuel)%nat ->
  let m := Z.to_nat (Z.min (Z.max 0 (n - r)) (Z.of_nat (length (WAIT.line a b)))) in
  exists w' a', wake_upto fuel b n r w = (r + Z.of_nat m, w') /\ WAIT.refines w' a' /\
    (forall q, WAIT.line a' q = (<[b := drop m (WAIT.line a b)]> (WAIT.line a)) q) /\
    WAIT.who a' = wake_them (take m (WAIT.line a b)) (WAIT.who a) /\
    length (WAIT.heads w') = length (WAIT.heads w).
Proof.
  revert r w a. induction fuel as [|fuel IH]; intros r w a HR Hf m.
  { exists w, a. assert (m = 0%nat) as E by (subst m; lia). rewrite E. cbn [wake_upto].
    split; [f_equal; lia|]. split; [done|]. split; [|done]. intros q. by rewrite WAIT.fn_insert_id. }
  cbn [wake_upto]. pose proof (WAIT.wq_path _ _ (proj1 HR) b) as HP.
  destruct (WAIT.line a b) as [|t l] eqn:El.
  - cbn [WAIT.path] in HP. rewrite HP, bool_decide_false, andb_false_r by tauto. exists w, a.
    assert (m = 0%nat) as E by (subst m; cbn [length]; lia). rewrite E. split; [f_equal; lia|]. split; [done|]. split; [|done].
    intros q. by rewrite WAIT.fn_insert_id.
  - destruct HP as [HP _]. rewrite HP, bool_decide_true, andb_true_r by done. destruct (Z.ltb_spec r n) as [Hlt|Hge].
    + pose proof (WAIT.wake_one_refines w a b HR) as HR1. cbn [WAIT.f_op] in HR1. rewrite El in HR1.
      destruct (IH (r + 1) _ _ HR1) as (w' & a' & Ew & HR' & Hl' & Hw' & Hh').
      { cbn [WAIT.line]. rewrite fn_lookup_insert. cbn in Hf. lia. }
      cbn [WAIT.line WAIT.who] in *. rewrite fn_lookup_insert in *.
      assert (Em : m = S (Z.to_nat (Z.min (Z.max 0 (n - (r + 1))) (Z.of_nat (length l))))) by (subst m; cbn [length]; lia).
      exists w', a'. rewrite Em. split; [rewrite Ew; f_equal; lia|]. split; [done|]. split; [|split].
      * intros q. rewrite Hl'. cbn [drop]. destruct (decide (q = b)) as [->|Hne];
          [by rewrite !fn_lookup_insert|by rewrite !fn_lookup_insert_ne].
      * cbn [take]. by rewrite Hw'.
      * rewrite Hh'. apply (WAIT.heads_length_run_op (WAIT.WakeOne b) w I).
    + exists w, a. assert (m = 0%nat) as E by (subst m; lia). rewrite E. split; [f_equal; lia|]. split; [done|]. split; [|done].
      intros q. by rewrite WAIT.fn_insert_id.
Qed.

(** As many as asked for, from the front of the line, or all there are. *)
Lemma futex_wake_at_spec s a k n :
  finv s a -> 0 <= n ->
  let m := Z.to_nat (Z.min n (Z.of_nat (length (asleep s a k)))) in
  exists s' a', futex_wake_at k n s = (Z.of_nat m, s') /\ finv s' a' /\
    (forall k', asleep s' a' k' = drop (if decide (k' = k) then m else 0) (asleep s a k')) /\
    WAIT.who a' = wake_them (take m (asleep s a k)) (WAIT.who a).
Proof.
  intros HI Hn m. unfold futex_wake_at. destruct (find s k) as [b|] eqn:E.
  - assert (Ek : asleep s a k = WAIT.line a b) by (unfold asleep; by rewrite E). subst m. rewrite Ek. set (m := Z.to_nat _).
    destruct (wake_upto_spec (length (WAIT.tasks (wq s))) b n 0 (wq s) a (fi_refines _ _ HI)) as (w' & a' & Ew & HR & Hl & Hw & Hh).
    { apply (WAIT.line_length _ _ _ (proj1 (fi_refines _ _ HI))). }
    rewrite Ew. replace (Z.max 0 (n - 0)) with n in * by lia. fold m in Hl, Hw |- *.
    exists (set_wq w' s), a'. split; [done|]. split; [|split].
    + apply finv_sub with a; try done; [|rewrite Hw; apply wake_them_length]. intros q i. rewrite Hl.
      destruct (decide (q = b)) as [->|Hne]; [|by rewrite fn_lookup_insert_ne].
      rewrite fn_lookup_insert. intros Hi. rewrite <- (take_drop m (WAIT.line a b)). apply elem_of_app. by right.
    + intros k'. unfold asleep. change (find (set_wq w' s) k') with (find s k'). destruct (find s k') as [b'|] eqn:E'; [|by rewrite drop_nil].
      rewrite Hl. destruct (decide (k' = k)) as [->|Hne].
      * rewrite E in E'. injection E' as <-. by rewrite fn_lookup_insert.
      * rewrite fn_lookup_insert_ne; [done|]. intros ->. destruct (found_entry _ _ _ _ HI E) as (x & (Hx & A1 & A2 & _) & _).
        destruct (found_entry _ _ _ _ HI E') as (y & (Hy & B1 & B2 & _) & _). rewrite Hx in Hy. injection Hy as <-.
        apply Hne. destruct k, k'. cbn in *. congruence.
    + by rewrite Hw.
  - assert (Ek : asleep s a k = []) by (unfold asleep; by rewrite E). subst m. rewrite Ek. set (m := Z.to_nat _).
    exists s, a. assert (m = 0%nat) as Em by (subst m; cbn [length]; lia). rewrite Em. split; [done|]. split; [done|].
    split; [|done]. intros k'. by case_decide.
Qed.

(** ** Events and what each may do to the lines *)

Lemma outside_off s a me : finv s a -> inside s !! me = Some None -> forall q, me ∉ WAIT.line a q.
Proof. intros HI Hme q Hi. destruct (fi_lines _ _ HI q me Hi) as (l & Hl & _). congruence. Qed.

Section events.
Context {U : Type} `{UserMemory U}.

(** Every entry of the table is in use, and none is for [k]. *)
Definition table_full (s : state) (k : nat * Z) : Prop :=
  find s k = None /\ forall b x, buckets s !! b = Some x -> b_waiters x <> 0.
Definition bad_timeout (u : U) (tuva : Z) : Prop :=
  exists bs, tuva <> 0 /\ u_fetch u tuva 8 = Some bs /\ 1000000000 <= be (sub bs 4 4).
(** Why a wait does not even sleep, error by error. *)
Definition wait_refused (asp : option nat) (u : U) (pending : bool) (uaddr val tuva : Z) (s : state) (e : Z) : Prop :=
  e = - EFAULT /\ (asp = None \/ u_fetch u uaddr 4 = None \/ tuva <> 0 /\ u_fetch u tuva 8 = None) \/
  e = - EINVAL /\ (Z.land uaddr 3 <> 0 \/ bad_timeout u tuva) \/
  e = - EAGAIN /\ (exists word, read_word u uaddr = inr word /\ word <> val) \/
  e = - EINTR /\ pending = true /\ read_word u uaddr = inr val \/
  e = - ENOMEM /\ pending = false /\ read_word u uaddr = inr val /\ exists a, asp = Some a /\ table_full s (a, uaddr).

Lemma read_word_error (u : U) uaddr e :
  read_word u uaddr = inl e -> e = - EINVAL /\ Z.land uaddr 3 <> 0 \/ e = - EFAULT /\ u_fetch u uaddr 4 = None.
Proof.
  unfold read_word. destruct (Z.eqb_spec (Z.land uaddr 3) 0); cbn [negb]; [|intros [= <-]; by left].
  destruct (u_fetch u uaddr 4) eqn:E; intros [= <-]. by right.
Qed.
Lemma read_timeout_error (u : U) tuva e :
  read_timeout u tuva = inl e -> e = - EINVAL /\ bad_timeout u tuva \/ e = - EFAULT /\ tuva <> 0 /\ u_fetch u tuva 8 = None.
Proof.
  unfold read_timeout. destruct (Z.eqb_spec tuva 0); [done|]. destruct (u_fetch u tuva 8) as [bs|] eqn:E; [|intros [= <-]; by right].
  destruct (Z.leb_spec 1000000000 (be (sub bs 4 4))); intros [= <-]. left. split; [done|]. by exists bs.
Qed.

Definition deadline_for (now ms : Z) : option Z := if ms =? 0 then None else Some (WAIT.deadline_of now ms).

(** The address a waiting task waits at. *)
Definition key_of (s : state) (me : nat) : option (nat * Z) :=
  l ← mjoin (inside s !! me); x ← buckets s !! l_bucket l; Some (b_as x, b_uaddr x).

Lemma inside_bucket s a me l : finv s a -> inside s !! me = Some (Some l) ->
  exists k x, key_of s me = Some k /\ entry_for s k (l_bucket l) x /\ 0 < b_waiters x.
Proof.
  intros HI Hme. pose proof (fi_local _ _ HI _ _ Hme) as Hlt. rewrite <- (fi_buckets _ _ HI) in Hlt. apply lookup_lt_is_Some_2 in Hlt as [x Hx].
  assert (Hpos : 0 < b_waiters x).
  { rewrite (fi_waiters _ _ HI _ x Hx). pose proof (count_within_pos _ _ _ _ Hme eq_refl). lia. }
  exists (b_as x, b_uaddr x), x. split; [unfold key_of; rewrite Hme; cbn; by rewrite Hx|]. split; [|done].
  split; [done|]. split; [done|]. split; [done|]. intros b' x' Hx' (H1 & H2 & H3)%is_key_spec. by eapply (fi_keys _ _ HI).
Qed.

Lemma find_or_make_full s k : find_or_make s k = None -> table_full s k.
Proof.
  unfold find_or_make, table_full. destruct (find s k); [done|].
  destruct (find_idx _ (buckets s)) eqn:E; [done|]. intros _. split; [done|].
  intros b x Hx H0. rewrite find_idx_None in E. apply E in Hx. by rewrite H0 in Hx.
Qed.

(** Task [me] went to sleep at [k] until [d]. *)
Definition lies_at (me : nat) (k : nat * Z) (d : option Z) (s s' : state) (a a' : WAIT.fifo) : Prop :=
  (forall k', asleep s' a' k' = asleep s a k' ++ if decide (k' = k) then [me] else []) /\
  WAIT.who a' = alter (f_lie d) me (WAIT.who a) /\ key_of s' me = Some k /\
  exists l, inside s' !! me = Some (Some l) /\ l_deadline l = d.

Lemma enter_spec me asp (u : U) pending now uaddr val tuva s a :
  finv s a -> inside s !! me = Some None ->
  match enter me asp u pending now uaddr val tuva s with
  | inl e => wait_refused asp u pending uaddr val tuva s e
  | inr s' => exists asn ms a', asp = Some asn /\ read_timeout u tuva = inr ms /\ read_word u uaddr = inr val /\
      pending = false /\ finv s' a' /\ lies_at me (asn, uaddr) (deadline_for now ms) s s' a a'
  end.
Proof.
  intros HI Hme. unfold enter, wait_refused. destruct asp as [asn|]; [|by left; auto].
  destruct (read_timeout u tuva) as [e|ms] eqn:Et; [apply read_timeout_error in Et; tauto|].
  destruct (read_word u uaddr) as [e|word] eqn:Ew; [apply read_word_error in Ew; tauto|].
  destruct (Z.eqb_spec word val) as [->|]; cbn [negb]; [|right; right; left; split; [done|by exists word]].
  destruct pending; [by right; right; right; left|].
  destruct (find_or_make s (asn, uaddr)) as [[b s1]|] eqn:Ef; fold (deadline_for now ms).
  2: { apply find_or_make_full in Ef. do 4 right. split; [done|]. split; [done|]. split; [done|]. by exists asn. }
  destruct (find_or_make_spec _ _ _ _ _ HI Ef) as (HI1 & (x & Hent) & Has1 & _ & Hin1 & Hw1).
  rewrite <- Hin1 in Hme. set (d := deadline_for now ms).
  destruct (finv_join _ _ _ _ _ me d HI1 Hent Hme) as (HI2 & (x' & Hent' & Hpos') & Has2).
  assert (Hin : inside (set_inside me (Some (mk_local b d)) (add_waiters b 1 s1)) !! me = Some (Some (mk_local b d))).
  { cbn [set_inside inside add_waiters]. apply list_lookup_insert_eq. by eapply lookup_lt_Some. }
  destruct (finv_lie _ _ _ _ _ me (mk_local b d) d HI2 Hent' Hpos' Hin eq_refl) as (a' & HI3 & Hw3 & Has3).
  { by apply outside_off with s1. }
  exists asn, ms, a'. split; [done|]. split; [done|]. split; [done|]. split; [done|]. split; [exact HI3|].
  split; [intros k; etransitivity; [apply Has3|]; by rewrite Has2, Has1|]. split; [exact Hw3|]. split.
  - destruct Hent' as (Hb' & A1 & A2 & _). unfold key_of.
    change (inside (set_inside me (Some (mk_local b d)) (set_wq (lie_down me b d (wq (add_waiters b 1 s1))) (add_waiters b 1 s1))))
      with (inside (set_inside me (Some (mk_local b d)) (add_waiters b 1 s1))). rewrite Hin. cbn [mjoin option_join mbind option_bind l_bucket].
    change (buckets (set_inside me (Some (mk_local b d)) (set_wq (lie_down me b d (wq (add_waiters b 1 s1))) (add_waiters b 1 s1))))
      with (buckets (set_inside me (Some (mk_local b d)) (add_waiters b 1 s1))). rewrite Hb'. cbn [mbind option_bind]. by rewrite A1, A2.
  - by exists (mk_local b d).
Qed.

(** How a wait whose task is back from its sleep ends, or that it does not:
    [woken] is the flag a wake and a signal set. *)
Definition ending (pending : bool) (now : Z) (d : option Z) (woken : bool) : option Z :=
  let over := Some (if pending then - EINTR else 0) in
  match d with
  | None => over
  | Some d => if woken then over else if 0 <=? s32 (now - d) then Some (- ETIMEDOUT) else None
  end.
(** The flag of task [me]. *)
Definition flagged (a : WAIT.fifo) (me : nat) : bool :=
  match WAIT.who a !! me with Some x => snd (fst x) | None => false end.
Lemma is_woken_spec w a me : WAIT.refines w a -> WAIT.is_woken w me = flagged a me.
Proof. intros [_ HA]. unfold WAIT.is_woken, flagged. rewrite <- HA, list_lookup_fmap. by destruct (WAIT.tasks w !! me). Qed.
Lemma flagged_alter a me f q :
  (forall x, snd (fst (f x)) = snd (fst x)) -> flagged (WAIT.mk_fifo q (alter f me (WAIT.who a))) me = flagged a me.
Proof. intros Hf. unfold flagged. cbn [WAIT.who]. rewrite list_lookup_alter_eq. destruct (WAIT.who a !! me); cbn; auto. Qed.
Lemma up_not_flagged a me d : flagged a me = false ->
  alter (fun x => (fst (fst x), snd (fst x), 0)) me (WAIT.who a) = alter (f_up (Some d)) me (WAIT.who a).
Proof.
  unfold flagged. intros Hf. apply list_eq. intros i. destruct (decide (i = me)) as [->|]; [|by rewrite !list_lookup_alter_ne].
  rewrite !list_lookup_alter_eq. destruct (WAIT.who a !! me) as [x|]; [|done]. cbn [fmap option_fmap option_map f_up]. by rewrite Hf.
Qed.

Lemma resume_spec me pending now l s a :
  finv s a -> inside s !! me = Some (Some l) ->
  exists a', finv (snd (resume me pending now l s)) a' /\
  fst (resume me pending now l s) = ending pending now (l_deadline l) (flagged a me) /\
  match fst (resume me pending now l s) with
  | Some _ => (forall k, asleep (snd (resume me pending now l s)) a' k = WAIT.without me (asleep s a k)) /\
      WAIT.who a' = alter (f_up (l_deadline l)) me (WAIT.who a) /\ inside (snd (resume me pending now l s)) !! me = Some None
  | None => WAIT.who a' = alter (f_lie (l_deadline l)) me (WAIT.who a) /\
      inside (snd (resume me pending now l s)) = inside s /\ exists k0, key_of s me = Some k0 /\ forall k,
      asleep (snd (resume me pending now l s)) a' k = WAIT.without me (asleep s a k) ++ if decide (k = k0) then [me] else []
  end.
Proof.
  intros HI Hme.
  set (w1 := WAIT.back_again (l_bucket l) me (wq s)).
  assert (Hoff : forall q, (<[l_bucket l := WAIT.without me (WAIT.line a (l_bucket l))]> (WAIT.line a)) q = WAIT.without me (WAIT.line a q)).
  { intros q. destruct (decide (q = l_bucket l)) as [->|Hne]; [by rewrite fn_lookup_insert|]. rewrite fn_lookup_insert_ne by done.
    rewrite WAIT.without_absent; [done|]. intros Hi. destruct (fi_lines _ _ HI q me Hi) as (l' & Hl' & Hb'). congruence. }
  assert (Hstep : forall w' a', WAIT.refines w' a' -> WAIT.line a' = <[l_bucket l := WAIT.without me (WAIT.line a (l_bucket l))]> (WAIT.line a) ->
            length (WAIT.who a') = length (WAIT.who a) -> length (WAIT.heads w') = length (WAIT.heads (wq s)) ->
            finv (set_wq w' s) a' /\ (forall k, asleep (set_wq w' s) a' k = WAIT.without me (asleep s a k)) /\ (forall q, me ∉ WAIT.line a' q)).
  { intros w' a' HR Hl Hw Hh. apply finv_lose; try done. intros q. rewrite Hl. apply Hoff. }
  assert (Hend : forall w' a' r, finv (set_wq w' s) a' /\ (forall k, asleep (set_wq w' s) a' k = WAIT.without me (asleep s a k)) /\
              (forall q, me ∉ WAIT.line a' q) ->
            Some r = ending pending now (l_deadline l) (flagged a me) -> WAIT.who a' = alter (f_up (l_deadline l)) me (WAIT.who a) ->
            let s' := set_inside me None (add_waiters (l_bucket l) (-1) (set_wq w' s)) in
            exists a', finv s' a' /\ Some r = ending pending now (l_deadline l) (flagged a me) /\
              (forall k, asleep s' a' k = WAIT.without me (asleep s a k)) /\
              WAIT.who a' = alter (f_up (l_deadline l)) me (WAIT.who a) /\ inside s' !! me = Some None).
  { intros w' a' r (H1 & H2 & H3) Hr Hw s'. exists a'. destruct (finv_part _ _ me l H1 Hme H3) as [H4 H5]. split; [done|].
    split; [done|]. split; [intros k; by rewrite <- H2; apply H5|]. split; [done|]. apply list_lookup_insert_eq. by eapply lookup_lt_Some. }
  pose proof (WAIT.back_refines _ _ (l_bucket l) me (fi_refines _ _ HI)) as HR1. fold w1 in HR1.
  pose proof (WAIT.heads_length_run_op (WAIT.Back (l_bucket l) me) (wq s) I) as Hh1. cbn [WAIT.run_op] in Hh1. fold w1 in Hh1.
  unfold resume. fold w1. destruct (l_deadline l) as [d|] eqn:Ed; cbn [fst snd].
  - pose proof (WAIT.refines_upd _ _ me (WAIT.set_wake_at 0) (fun x => (fst (fst x), snd (fst x), 0))
      (fun _ => conj eq_refl eq_refl) (fun _ => eq_refl) HR1) as HR2.
    assert (Ew : WAIT.is_woken (WAIT.upd me (WAIT.set_wake_at 0) w1) me = flagged a me).
    { rewrite (is_woken_spec _ _ _ HR2). exact (flagged_alter a me (fun x => (fst (fst x), snd (fst x), 0)) _ (fun _ => eq_refl)). }
    destruct (WAIT.is_woken _ me) eqn:Ew'; [|destruct (0 <=? s32 (now - d)) eqn:Et]; cbn [fst snd].
    + pose proof (WAIT.refines_upd _ _ me (WAIT.set_woken false) (fun x => (fst (fst x), false, snd x))
        (fun _ => conj eq_refl eq_refl) (fun _ => eq_refl) HR2) as HR3.
      eapply Hend; [|by rewrite <- Ew|].
      * apply (Hstep _ _ HR3); cbn [WAIT.f_op WAIT.line WAIT.who]; [done|by rewrite !length_alter|done].
      * cbn [WAIT.f_op WAIT.who]. by rewrite list_alter_alter.
    + eapply Hend; [|by cbn [ending]; rewrite <- Ew, Et|].
      * apply (Hstep _ _ HR2); cbn [WAIT.f_op WAIT.line WAIT.who]; [done|by rewrite !length_alter|done].
      * cbn [WAIT.f_op WAIT.who]. by apply (up_not_flagged a me d).
    + destruct (Hstep _ _ HR2) as (HI2 & Has2 & Hoff2); cbn [WAIT.f_op WAIT.line WAIT.who]; [done|by rewrite !length_alter|done|].
      destruct (inside_bucket _ _ _ _ HI Hme) as (k0 & x & Hk0 & Hent & Hpos).
      destruct (finv_lie _ _ k0 _ x me l (Some d) HI2 Hent Hpos Hme eq_refl Hoff2) as (a' & HI3 & Hw3 & Has3).
      exists a'. split; [exact HI3|]. split; [by cbn [ending]; rewrite <- Ew, Et|]. split; [|split; [done|]].
      * rewrite Hw3. cbn [WAIT.f_op WAIT.who]. by rewrite list_alter_alter.
      * exists k0. split; [done|]. intros k. etransitivity; [apply Has3|]. by rewrite Has2.
  - eapply Hend; [|done|]; [by apply (Hstep _ _ HR1)|]. cbn [f_up WAIT.f_op WAIT.who]. symmetry. by apply list_alter_id.
Qed.

(** A task calls, comes back from its sleep, is signalled, or its alarm is
    looked at. A task that is blocked does not come back. *)
Inductive event :=
  | Call (me : nat) (asp : option nat) (u : U) (pending : bool) (now uaddr op val timeout_uva val3 : Z)
  | Return (me : nat) (pending : bool) (now : Z)
  | Signal (t : nat)
  | Expire (now : Z) (t : nat).

(** The result, if the event makes a call return, and the state after. *)
Definition step (e : event) (s : state) : option (option Z * state) :=
  match e with
  | Call me asp u pending now uaddr op val tuva val3 =>
      match inside s !! me with
      | Some None =>
          match futex_call me asp u pending now uaddr op val tuva val3 s with
          | inl (r, s') => Some (Some r, s')
          | inr s' => Some (None, s')
          end
      | _ => None
      end
  | Return me pending now =>
      match inside s !! me with
      | Some (Some l) => if GATE.blocked (wq s) me then None else Some (resume me pending now l s)
      | _ => None
      end
  | Signal t => Some (None, set_wq (WAIT.wake_signalled t (wq s)) s)
  | Expire now t => Some (None, set_wq (WAIT.expire now t (wq s)) s)
  end.

Definition same (f f' : nat * Z -> list nat) : Prop := forall k, f' k = f k.
(** [n] tasks from the front of the line at [k] are woken. *)
Definition woke (k : nat * Z) (limit n : Z) (f f' : nat * Z -> list nat) (a a' : WAIT.fifo) : Prop :=
  n = Z.min limit (Z.of_nat (length (f k))) /\ f' k = drop (Z.to_nat n) (f k) /\ (forall k', k' <> k -> f' k' = f k') /\
  WAIT.who a' = wake_them (take (Z.to_nat n) (f k)) (WAIT.who a).

(** A call that went to sleep found the word as expected, with no signal
    pending, and is at the end of the line, with the alarm its timeout asks
    for. *)
Definition slept (cmd : Z) (asp : option nat) (u : U) (pending : bool) (now uaddr val tuva : Z) (me : nat)
    (s s' : state) (a a' : WAIT.fifo) : Prop :=
  (cmd = FUTEX_WAIT \/ cmd = FUTEX_WAIT_BITSET /\ tuva = 0) /\
  exists asn ms, asp = Some asn /\ read_timeout u tuva = inr ms /\ read_word u uaddr = inr val /\ pending = false /\
    lies_at me (asn, uaddr) (deadline_for now ms) s s' a a'.
(** Why a call fails, error by error. *)
Definition refused (cmd : Z) (asp : option nat) (u : U) (pending : bool) (uaddr val tuva val3 : Z) (s : state) (e : Z) : Prop :=
  e = - EFAULT /\ asp = None \/
  (cmd = FUTEX_WAIT \/ cmd = FUTEX_WAIT_BITSET /\ tuva = 0) /\ wait_refused asp u pending uaddr val tuva s e \/
  (cmd = FUTEX_WAKE \/ cmd = FUTEX_WAKE_BITSET \/ cmd = FUTEX_CMP_REQUEUE) /\
    (e = - EINVAL /\ Z.land uaddr 3 <> 0 \/ e = - EFAULT /\ u_fetch u uaddr 4 = None) \/
  cmd = FUTEX_CMP_REQUEUE /\ e = - EAGAIN /\ (exists word, read_word u uaddr = inr word /\ word <> val3) \/
  e = - ENOSYS /\ (cmd = FUTEX_WAIT_BITSET /\ tuva <> 0 \/
    cmd ∉ [FUTEX_WAIT; FUTEX_WAIT_BITSET; FUTEX_WAKE; FUTEX_WAKE_BITSET; FUTEX_REQUEUE; FUTEX_CMP_REQUEUE]).
(** A call that returned failed, for its reason, and did nothing, or woke. *)
Definition returned (cmd : Z) (asp : option nat) (u : U) (pending : bool) (uaddr val tuva val3 n : Z)
    (s s' : state) (a a' : WAIT.fifo) : Prop :=
  refused cmd asp u pending uaddr val tuva val3 s n /\ s' = s /\ a' = a \/
  exists asn, asp = Some asn /\
    ((cmd = FUTEX_WAKE \/ cmd = FUTEX_WAKE_BITSET) /\ Z.land uaddr 3 = 0 /\ u_fetch u uaddr 4 <> None /\
       woke (asn, uaddr) (Z.max 0 (s32 val)) n (asleep s a) (asleep s' a') a a' \/
     (cmd = FUTEX_REQUEUE \/ cmd = FUTEX_CMP_REQUEUE /\ read_word u uaddr = inr val3) /\
       woke (asn, uaddr) 2147483647 n (asleep s a) (asleep s' a') a a').

Definition spec (e : event) (s : state) (r : option Z) (s' : state) (a a' : WAIT.fifo) : Prop :=
  let f := asleep s a in
  let f' := asleep s' a' in
  match e with
  | Call me asp u pending now uaddr op val tuva val3 =>
      let cmd := Z.land op FUTEX_CMD_MASK in
      match r with
      | None => slept cmd asp u pending now uaddr val tuva me s s' a a'
      | Some n => returned cmd asp u pending uaddr val tuva val3 n s s' a a'
      end
  | Return me pending now =>
      exists l, inside s !! me = Some (Some l) /\ r = ending pending now (l_deadline l) (flagged a me) /\
      match r with
      | Some _ => (forall k, f' k = WAIT.without me (f k)) /\
          WAIT.who a' = alter (f_up (l_deadline l)) me (WAIT.who a) /\ inside s' !! me = Some None
      | None => WAIT.who a' = alter (f_lie (l_deadline l)) me (WAIT.who a) /\ inside s' = inside s /\
          exists k0, key_of s me = Some k0 /\ forall k, f' k = WAIT.without me (f k) ++ if decide (k = k0) then [me] else []
      end
  | Signal t => (forall k, f' k = WAIT.without t (f k)) /\ WAIT.who a' = alter WAIT.f_wake t (WAIT.who a)
  | Expire now t =>
      match WAIT.who a !! t with
      | Some x =>
          if WAIT.due now x
          then (forall k, f' k = WAIT.without t (f k)) /\
            WAIT.who a' = alter (fun x => (WAIT.TASK_READY, snd (fst x), 0)) t (WAIT.who a)
          else s' = s /\ a' = a
      | None => s' = s /\ a' = a
      end
  end.

Lemma wake_event s a k n :
  finv s a -> 0 <= n ->
  exists a', finv (snd (futex_wake_at k n s)) a' /\
    woke k n (fst (futex_wake_at k n s)) (asleep s a) (asleep (snd (futex_wake_at k n s)) a') a a'.
Proof.
  intros HI Hn. destruct (futex_wake_at_spec s a k n HI Hn) as (s' & a' & Ew & HI' & Has & Hw). rewrite Ew. cbn [fst snd].
  exists a'. split; [done|]. unfold woke. rewrite Nat2Z.id. split; [lia|]. split; [by rewrite Has, decide_True|].
  split; [|done]. intros k' Hne. by rewrite Has, decide_False.
Qed.
Lemma wait_call_spec cmd me asp (u : U) pending now uaddr val tuva val3 s a :
  finv s a -> inside s !! me = Some None -> cmd = FUTEX_WAIT \/ cmd = FUTEX_WAIT_BITSET /\ tuva = 0 ->
  match enter me asp u pending now uaddr val tuva s with
  | inl n => returned cmd asp u pending uaddr val tuva val3 n s s a a
  | inr s' => exists a', finv s' a' /\ slept cmd asp u pending now uaddr val tuva me s s' a a'
  end.
Proof.
  intros HI Hme Hc. pose proof (enter_spec me asp u pending now uaddr val tuva s a HI Hme) as He.
  destruct (enter _ _ _ _ _ _ _ _ _) as [e|s'].
  - left. split; [|done]. right. by left.
  - destruct He as (asn & ms & a' & E & Ht & Hr & Hp & HI' & Hl). exists a'. split; [done|]. split; [done|]. by exists asn, ms.
Qed.
Lemma call_spec me asp (u : U) pending now uaddr op val tuva val3 s a :
  finv s a -> inside s !! me = Some None ->
  match futex_call me asp u pending now uaddr op val tuva val3 s with
  | inl (n, s') => exists a', finv s' a' /\ spec (Call me asp u pending now uaddr op val tuva val3) s (Some n) s' a a'
  | inr s' => exists a', finv s' a' /\ spec (Call me asp u pending now uaddr op val tuva val3) s None s' a a'
  end.
Proof.
  intros HI Hme. unfold futex_call. cbn [spec]. set (cmd := Z.land op FUTEX_CMD_MASK).
  assert (Herr : forall n, refused cmd asp u pending uaddr val tuva val3 s n ->
    exists a', finv s a' /\ returned cmd asp u pending uaddr val tuva val3 n s s a a').
  { intros n Hn. exists a. split; [done|]. by left. }
  destruct asp as [asn|]; [|by apply (Herr (- EFAULT)); left].
  assert (Hwake : forall n, 0 <= n ->
    (cmd = FUTEX_WAKE \/ cmd = FUTEX_WAKE_BITSET) /\ Z.land uaddr 3 = 0 /\ u_fetch u uaddr 4 <> None /\ n = Z.max 0 (s32 val) \/
    (cmd = FUTEX_REQUEUE \/ cmd = FUTEX_CMP_REQUEUE /\ read_word u uaddr = inr val3) /\ n = 2147483647 ->
    let '(r, s') := futex_wake_at (asn, uaddr) n s in
    exists a', finv s' a' /\ returned cmd (Some asn) u pending uaddr val tuva val3 r s s' a a').
  { intros n Hn Hc. destruct (wake_event s a (asn, uaddr) n HI Hn) as (a' & HI' & Hw).
    destruct (futex_wake_at (asn, uaddr) n s) as [r s']. cbn [fst snd] in *. exists a'. split; [done|]. right. exists asn.
    split; [done|]. destruct Hc as [(Hc & H2 & H3 & ->)|[Hc ->]]; [by left|by right]. }
  pose proof (fun tu => wait_call_spec cmd me (Some asn) u pending now uaddr val tu val3 s a HI Hme) as Hwait.
  destruct (Z.eqb_spec cmd FUTEX_WAIT) as [E1|N1].
  { specialize (Hwait tuva (or_introl E1)). destruct (enter _ _ _ _ _ _ _ _ _); [by exists a|done]. }
  destruct (Z.eqb_spec cmd FUTEX_WAIT_BITSET) as [E2|N2].
  { destruct (Z.eqb_spec tuva 0) as [->|]; cbn [negb].
    - specialize (Hwait 0 (or_intror (conj E2 eq_refl))). destruct (enter _ _ _ _ _ _ _ _ _); [by exists a|done].
    - apply (Herr (- ENOSYS)). do 4 right. split; [done|]. by left. }
  destruct ((cmd =? FUTEX_WAKE) || (cmd =? FUTEX_WAKE_BITSET)) eqn:E3.
  { apply orb_true_iff in E3. rewrite !Z.eqb_eq in E3. destruct (Z.eqb_spec (Z.land uaddr 3) 0); cbn [negb].
    2: { apply (Herr (- EINVAL)). right. right. left. split; [tauto|by left]. }
    destruct (u_fetch u uaddr 4) eqn:Ef; [|apply (Herr (- EFAULT)); right; right; left; split; [tauto|by right]].
    replace (if 0 <? s32 val then s32 val else 0) with (Z.max 0 (s32 val)) by (destruct (Z.ltb_spec 0 (s32 val)); lia).
    apply Hwake; [lia|]. left. split; [tauto|]. split; [done|]. by split; [congruence|]. }
  apply orb_false_iff in E3. rewrite !Z.eqb_neq in E3.
  destruct ((cmd =? FUTEX_REQUEUE) || (cmd =? FUTEX_CMP_REQUEUE)) eqn:E4.
  2: { apply orb_false_iff in E4. rewrite !Z.eqb_neq in E4. apply (Herr (- ENOSYS)). do 4 right. split; [done|]. right.
       rewrite !not_elem_of_cons. repeat (split; [tauto|]). apply not_elem_of_nil. }
  apply orb_true_iff in E4. rewrite !Z.eqb_eq in E4. destruct (Z.eqb_spec cmd FUTEX_CMP_REQUEUE) as [E5|N5].
  - destruct (read_word u uaddr) as [e|word] eqn:Er.
    + apply Herr. right. right. left. split; [tauto|]. by apply read_word_error.
    + destruct (Z.eqb_spec word val3) as [->|]; cbn [negb].
      * apply Hwake; [lia|]. right. by split; [right|].
      * apply (Herr (- EAGAIN)). right. right. right. left. split; [done|]. split; [done|]. by exists word.
  - apply Hwake; [lia|]. right. split; [left|done]. tauto.
Qed.

Lemma expire_line s a now t x :
  finv s a -> WAIT.who a !! t = Some x -> WAIT.due now x = true ->
  finv (set_wq (WAIT.expire now t (wq s)) s) (WAIT.f_op (WAIT.Expire now t) a) /\
  forall k, asleep (set_wq (WAIT.expire now t (wq s)) s) (WAIT.f_op (WAIT.Expire now t) a) k = WAIT.without t (asleep s a k).
Proof.
  intros HI Hx Hd. pose proof (WAIT.expire_refines _ _ now t (fi_refines _ _ HI)) as HR.
  destruct (finv_lose s a _ _ t HI HR) as (H1 & H2 & _); [..|done].
  - intros q. cbn [WAIT.f_op]. by rewrite Hx, Hd.
  - cbn [WAIT.f_op]. rewrite Hx, Hd. cbn [WAIT.who]. apply length_alter.
  - apply WAIT.heads_length_expire.
Qed.

Lemma event_spec e s a r s' :
  finv s a -> step e s = Some (r, s') -> exists a', finv s' a' /\ spec e s r s' a a'.
Proof.
  intros HI Hs. destruct e as [me asp u pending now uaddr op val tuva val3|me pending now|t|now t]; cbn [step] in Hs.
  - destruct (inside s !! me) as [[l|]|] eqn:Hme; [done| |done].
    pose proof (call_spec me asp u pending now uaddr op val tuva val3 s a HI Hme) as Hc.
    destruct (futex_call _ _ _ _ _ _ _ _ _ _ _) as [[n s1]|s1]; by injection Hs as <- <-.
  - destruct (inside s !! me) as [[l|]|] eqn:Hme; [|done..]. destruct (GATE.blocked (wq s) me); [done|].
    destruct (resume_spec me pending now l s a HI Hme) as (a' & HI' & Hr). exists a'. injection Hs as Hs.
    rewrite Hs in HI', Hr. cbn [fst snd] in HI', Hr. split; [done|]. cbn [spec]. by exists l.
  - injection Hs as <- <-. destruct (finv_lose s a (WAIT.wake_signalled t (wq s)) (WAIT.f_op (WAIT.Signal t) a) t) as (H1 & H2 & _);
      [done|apply WAIT.signal_refines, HI|done|cbn [WAIT.f_op WAIT.who]; apply length_alter| |by eexists].
    apply (WAIT.heads_length_run_op (WAIT.Signal t) (wq s) I).
  - injection Hs as <- <-. cbn [spec]. destruct (WAIT.who a !! t) as [x|] eqn:Hx; [destruct (WAIT.due now x) eqn:Hd|].
    + destruct (expire_line s a now t x HI Hx Hd) as [H1 H2]. eexists. split; [exact H1|]. split; [exact H2|].
      cbn [WAIT.f_op]. by rewrite Hx, Hd.
    + exists a. rewrite (WAIT.expire_not_due _ _ _ _ _ (fi_refines _ _ HI) Hx Hd). by destruct s.
    + exists a. assert (WAIT.expire now t (wq s) = wq s) as ->; [|by destruct s]. unfold WAIT.expire.
      destruct (WAIT.tasks (wq s) !! t) as [y|] eqn:Hy; [|done]. exfalso.
      pose proof (proj2 (fi_refines _ _ HI)) as HA. rewrite <- HA, list_lookup_fmap, Hy in Hx. done.
Qed.

Fixpoint steps (es : list event) (s : state) : option (list (option Z) * state) :=
  match es with
  | [] => Some ([], s)
  | e :: es' =>
      match step e s with
      | Some (r, s1) => match steps es' s1 with Some (rs, s2) => Some (r :: rs, s2) | None => None end
      | None => None
      end
  end.
Fixpoint specs (es : list event) (rs : list (option Z)) (s : state) (a : WAIT.fifo) (s' : state) (a' : WAIT.fifo) : Prop :=
  match es, rs with
  | [], [] => s' = s /\ a' = a
  | e :: es', r :: rs' => exists s1 a1, step e s = Some (r, s1) /\ finv s1 a1 /\
      spec e s r s1 a a1 /\ specs es' rs' s1 a1 s' a'
  | _, _ => False
  end.
Lemma events_spec es s a rs s' :
  finv s a -> steps es s = Some (rs, s') -> exists a', finv s' a' /\ specs es rs s a s' a'.
Proof.
  revert s a rs. induction es as [|e es IH]; intros s a rs HI Hs; cbn [steps] in Hs; [injection Hs as <- <-; by exists a|].
  destruct (step e s) as [[r s1]|] eqn:E; [|done]. destruct (steps es s1) as [[rs2 s2]|] eqn:E2; [|done]. injection Hs as <- <-.
  destruct (event_spec _ _ _ _ _ HI E) as (a1 & HI1 & Hsp). destruct (IH s1 a1 rs2 HI1 E2) as (a' & HI' & Hrest).
  exists a'. split; [done|]. by exists s1, a1.
Qed.

(** Nobody waits at first. *)
Definition start (n : nat) : state :=
  mk_state (WAIT.boot n FUTEX_BUCKETS) (replicate FUTEX_BUCKETS (mk_bucket 0 0 0)) (replicate n None).
Lemma start_inv n : finv (start n) (WAIT.mk_fifo (fun _ => []) (replicate n (WAIT.attrs WAIT.idle_task))).
Proof.
  constructor; cbn [start wq buckets inside].
  - apply WAIT.boot_refines.
  - done.
  - done.
  - cbn [WAIT.boot WAIT.tasks]. by rewrite !length_replicate.
  - intros b x [-> _]%lookup_replicate. cbn [b_waiters]. assert (count_if (within b) (replicate n None) = 0%nat) as ->; [|done].
    by induction n.
  - intros b i Hi. by apply elem_of_nil in Hi.
  - intros b1 b2 x1 x2 [-> _]%lookup_replicate _ Hp. by cbn in Hp.
  - intros i l [? _]%lookup_replicate. done.
Qed.

(** C6: futexes are lines of sleepers, one per address. Through any run of
    futex calls, returns from sleeps, signals and alarms: a FUTEX_WAIT that
    sleeps read the expected value at the address, with no signal pending, and
    put the task at the end of that address's line; a wake takes as many tasks
    as asked for (or all there are) from the front of the line and of no other,
    marks them woken and ready, and returns how many; calls that fail change
    nothing, and each error has its own reason (-ENOMEM only when all 32
    entries are in use by other addresses); a task back from its sleep returns
    -EINTR if a signal is pending and 0 otherwise, except that a timed wait
    whose flag nobody set since it lay down returns -ETIMEDOUT when its
    deadline is reached and lies down again before; a wait that ends leaves its
    line; the table of 32 entries with its counts of waiters, and the linked
    queues, implement this, whichever entries are reused. *)
Theorem futex_refines_lines es s a rs s' :
  finv s a -> steps es s = Some (rs, s') -> exists a', finv s' a' /\ specs es rs s a s' a'.
Proof. apply events_spec. Qed.
End events.

(** Two tasks of one program wait at 0x10000000, whose word is 0, the
    second with a timeout; the first is woken and comes back, the second times
    out. *)
#[local] Existing Instance two_pages.
Definition wait_at (me : nat) : event := Call (U := ram) me (Some 7%nat) (fun _ => 0) false 0 268435456 128 0 0 0.
Definition wake_at (me : nat) (n : Z) : event := Call (U := ram) me (Some 7%nat) (fun _ => 0) false 0 268435456 129 n 0 0.
Definition timed_at (me : nat) : event := Call (U := ram) me (Some 7%nat) (fun _ => 0) false 0 268435456 128 0 268435456 0.
Definition two_wait : list event := [wait_at 1; timed_at 0; wake_at 2 1; Return 1 false 0; Expire 1 0; Return 0 false 1].

Lemma futex_refines_lines_witness :
  exists rs s' a', steps two_wait (start 3) = Some (rs, s') /\ rs = [None; None; Some 1; Some 0; None; Some (- ETIMEDOUT)] /\ finv s' a' /\
    specs two_wait rs (start 3) (WAIT.mk_fifo (fun _ => []) (replicate 3 (WAIT.attrs WAIT.idle_task))) s' a'.
Proof.
  assert (E : steps two_wait (start 3) = Some ([None; None; Some 1; Some 0; None; Some (- ETIMEDOUT)],
    match steps two_wait (start 3) with Some (_, s) => s | None => start 3 end)) by (vm_compute; reflexivity).
  destruct (futex_refines_lines two_wait (start 3) _ _ _ (start_inv 3) E) as (a' & H1 & H2).
  eexists _, _, a'. split; [exact E|]. split; [reflexivity|]. split; [exact H1|exact H2].
Defined.

(** A timeout of 5,000,000 seconds (about eight weeks) is taken as under nine
    days. *)
Example futex_timeout_wraps :
  read_timeout (U := ram) (fun a => nth (Z.to_nat (a - 8192)) [0; 76; 75; 64] 0) 268435456 = inr 705032704.
Proof. vm_compute. reflexivity. Qed.
End FUTEX.
