(* ===== verification/Crypto.v ===== *)
(** * BLAKE2s-256 and the ChaCha20 block function (kernel/crypto.c)

    Words are 32-bit [Z]s, byte arrays are lists. The hash is checked against
    a reference that takes the whole message; both primitives are evaluated at
    the RFCs' test vectors. *)

From Equations Require Import Equations.
From S2P Require Import Prelude.
Local Open Scope Z_scope.

Module CRYPTO.

(** ** The code *)

Definition rotr (x n : Z) : Z := u32 (Z.lor (Z.shiftr x n) (Z.shiftl x (32 - n))).
Definition rotl (x n : Z) : Z := u32 (Z.lor (Z.shiftl x n) (Z.shiftr x (32 - n))).

(** An array read, and a store into it. *)
Definition at_ (v : list Z) (i : nat) : Z := nth i v 0.
Definition put (v : list Z) (i : nat) (x : Z) : list Z := <[i := u32 x]> v.

Definition ld32 (p : list Z) (off : nat) : Z :=
  Z.lor (Z.lor (Z.lor (at_ p off) (Z.shiftl (at_ p (off + 1)) 8)) (Z.shiftl (at_ p (off + 2)) 16))
        (Z.shiftl (at_ p (off + 3)) 24).
Definition st32 (v : Z) : list Z := [u8 v; u8 (Z.shiftr v 8); u8 (Z.shiftr v 16); u8 (Z.shiftr v 24)].

Definition b2s_iv : list Z :=
  [1779033703; 3144134277; 1013904242; 2773480762; 1359893119; 2600822924; 528734635; 1541459225].
Definition b2s_sigma : list (list nat) := [
  [ 0; 1; 2; 3; 4; 5; 6; 7; 8; 9; 10; 11; 12; 13; 14; 15 ];
  [ 14; 10; 4; 8; 9; 15; 13; 6; 1; 12; 0; 2; 11; 7; 5; 3 ];
  [ 11; 8; 12; 0; 5; 2; 15; 13; 10; 14; 3; 6; 7; 1; 9; 4 ];
  [ 7; 9; 3; 1; 13; 12; 11; 14; 2; 6; 5; 10; 4; 0; 15; 8 ];
  [ 9; 0; 5; 7; 2; 4; 10; 15; 14; 1; 11; 12; 6; 8; 3; 13 ];
  [ 2; 12; 6; 10; 0; 11; 8; 3; 4; 13; 7; 5; 15; 14; 1; 9 ];
  [ 12; 5; 1; 15; 14; 13; 4; 10; 0; 7; 6; 3; 9; 2; 8; 11 ];
  [ 13; 11; 7; 14; 12; 1; 3; 9; 5; 0; 15; 4; 8; 6; 2; 10 ];
  [ 6; 15; 14; 9; 11; 3; 0; 8; 12; 2; 13; 7; 1; 4; 10; 5 ];
  [ 10; 2; 8; 4; 7; 6; 1; 5; 15; 11; 9; 14; 3; 12; 13; 0 ] ]%nat.

Definition B2S_G (a b c d : nat) (x y : Z) (v : list Z) : list Z :=
  let v := put v a (at_ v a + at_ v b + x) in
  let v := put v d (rotr (Z.lxor (at_ v d) (at_ v a)) 16) in
  let v := put v c (at_ v c + at_ v d) in
  let v := put v b (rotr (Z.lxor (at_ v b) (at_ v c)) 12) in
  let v := put v a (at_ v a + at_ v b + y) in
  let v := put v d (rotr (Z.lxor (at_ v d) (at_ v a)) 8) in
  let v := put v c (at_ v c + at_ v d) in
  put v b (rotr (Z.lxor (at_ v b) (at_ v c)) 7).

Record blake2s := mk_blake2s { h : list Z; t0 : Z; t1 : Z; buf : list Z; buflen : nat }.

Definition b2s_round (m : list Z) (sg : list nat) (v : list Z) : list Z :=
  let w i := at_ m (nth i sg 0%nat) in
  let v := B2S_G 0 4 8 12 (w 0%nat) (w 1%nat) v in
  let v := B2S_G 1 5 9 13 (w 2%nat) (w 3%nat) v in
  let v := B2S_G 2 6 10 14 (w 4%nat) (w 5%nat) v in
  let v := B2S_G 3 7 11 15 (w 6%nat) (w 7%nat) v in
  let v := B2S_G 0 5 10 15 (w 8%nat) (w 9%nat) v in
  let v := B2S_G 1 6 11 12 (w 10%nat) (w 11%nat) v in
  let v := B2S_G 2 7 8 13 (w 12%nat) (w 13%nat) v in
  B2S_G 3 4 9 14 (w 14%nat) (w 15%nat) v.

Definition b2s_compress (s : blake2s) (block : list Z) (last : bool) : blake2s :=
  let m := map (fun i => ld32 block (4 * i)) (seq 0 16) in
  let v := h s ++ b2s_iv in
  let v := put v 12 (Z.lxor (at_ v 12) (t0 s)) in
  let v := put v 13 (Z.lxor (at_ v 13) (t1 s)) in
  let v := if last then put v 14 (Z.lnot (at_ v 14)) else v in
  let v := foldl (fun v sg => b2s_round m sg v) v b2s_sigma in
  let h' := map (fun i => Z.lxor (at_ (h s) i) (Z.lxor (at_ v i) (at_ v (i + 8)))) (seq 0 8) in
  mk_blake2s h' (t0 s) (t1 s) (buf s) (buflen s).

(** The buffer of an uninitialised structure holds anything; [junk] is it. *)
Definition blake2s_init (junk : list Z) : blake2s :=
  mk_blake2s (put b2s_iv 0 (Z.lxor (at_ b2s_iv 0) (Z.lor 16842752 32))) 0 0 junk 0.

(** [t[0] += n; if (t[0] < n) t[1]++]. *)
Definition count_bytes (n : Z) (s : blake2s) : blake2s :=
  let a := u32 (t0 s + n) in
  mk_blake2s (h s) a (if a <? n then u32 (t1 s + 1) else t1 s) (buf s) (buflen s).
Definition set_buf (b : list Z) (n : nat) (s : blake2s) : blake2s := mk_blake2s (h s) (t0 s) (t1 s) b n.

(** Bytes written into a buffer at an offset. *)
Definition blit (b : list Z) (off : nat) (bs : list Z) : list Z := take off b ++ bs ++ drop (off + length bs) b.

Fixpoint update_loop (fuel : nat) (s : blake2s) (p : list Z) : blake2s :=
  match fuel with
  | O => s
  | S fuel' =>
      if (length p =? 0)%nat then s
      else
        let s := if (buflen s =? 64)%nat
                 then let s := b2s_compress (count_bytes 64 s) (buf s) false in set_buf (buf s) 0 s
                 else s in
        let n := Nat.min (64 - buflen s) (length p) in
        update_loop fuel' (set_buf (blit (buf s) (buflen s) (take n p)) (buflen s + n) s) (drop n p)
  end.
(** Every turn takes a byte. *)
Definition blake2s_update (s : blake2s) (p : list Z) : blake2s := update_loop (length p) s p.

Definition blake2s_final (s : blake2s) : list Z :=
  let s := count_bytes (Z.of_nat (buflen s)) s in
  let b := blit (buf s) (buflen s) (replicate (64 - buflen s) 0) in
  let s := b2s_compress (set_buf b (buflen s) s) b true in
  concat (map st32 (h s)).

Definition QR (a b c d : nat) (x : list Z) : list Z :=
  let x := put x a (at_ x a + at_ x b) in
  let x := put x d (rotl (Z.lxor (at_ x d) (at_ x a)) 16) in
  let x := put x c (at_ x c + at_ x d) in
  let x := put x b (rotl (Z.lxor (at_ x b) (at_ x c)) 12) in
  let x := put x a (at_ x a + at_ x b) in
  let x := put x d (rotl (Z.lxor (at_ x d) (at_ x a)) 8) in
  let x := put x c (at_ x c + at_ x d) in
  put x b (rotl (Z.lxor (at_ x b) (at_ x c)) 7).

Definition double_round (x : list Z) : list Z :=
  QR 3 4 9 14 (QR 2 7 8 13 (QR 1 6 11 12 (QR 0 5 10 15
    (QR 3 7 11 15 (QR 2 6 10 14 (QR 1 5 9 13 (QR 0 4 8 12 x))))))).
Fixpoint rounds (n : nat) (x : list Z) : list Z := match n with O => x | S n' => rounds n' (double_round x) end.

Definition chacha20_block (key : list Z) (counter : Z) (nonce : list Z) : list Z :=
  let inp := [1634760805; 857760878; 2036477234; 1797285236]
             ++ map (fun i => ld32 key (4 * i)) (seq 0 8) ++ [counter]
             ++ map (fun i => ld32 nonce (4 * i)) (seq 0 3) in
  let x := rounds 10 inp in
  concat (map (fun i => st32 (u32 (at_ x i + at_ inp i))) (seq 0 16)).

(** ** The reference: the whole message, 64 bytes at a time (RFC 7693, 3.3) *)

(** One compression, the byte count as one number. *)
Definition comp (hs : list Z) (n : Z) (block : list Z) (last : bool) : list Z :=
  h (b2s_compress (mk_blake2s hs (u32 n) (u32 (n / 4294967296)) block 0) block last).
Definition pad (bs : list Z) : list Z := bs ++ replicate (64 - length bs) 0.

Equations? ref_from (hs : list Z) (n : Z) (msg : list Z) : list Z by wf (length msg) lt :=
  ref_from hs n msg with decide (length msg <= 64)%nat => {
    | left _ => comp hs (n + Z.of_nat (length msg)) (pad msg) true;
    | right _ => ref_from (comp hs (n + 64) (take 64 msg) false) (n + 64) (drop 64 msg) }.
Proof. rewrite length_drop. lia. Qed.

Definition blake2s_ref (msg : list Z) : list Z := concat (map st32 (ref_from (h (blake2s_init [])) 0 msg)).

Lemma ref_from_short hs n msg : (length msg <= 64)%nat -> ref_from hs n msg = comp hs (n + Z.of_nat (length msg)) (pad msg) true.
Proof. intros Hl. simp ref_from. destruct (decide _); [|lia]. by simp ref_from. Qed.
Lemma ref_from_long hs n msg :
  (64 < length msg)%nat -> ref_from hs n msg = ref_from (comp hs (n + 64) (take 64 msg) false) (n + 64) (drop 64 msg).
Proof. intros Hl. simp ref_from. destruct (decide _); [lia|]. by simp ref_from. Qed.

(** ** Streaming *)

(** What the structure holds after the message so far. *)
Record holds (s : blake2s) (msg : list Z) (n : Z) : Prop := mk_holds {
  ho_buf : length (buf s) = 64%nat;
  ho_len : (buflen s <= 64)%nat;
  ho_count : t0 s = u32 n /\ t1 s = u32 (n / 4294967296);
  ho_total : n + Z.of_nat (buflen s) = Z.of_nat (length msg) /\ 0 <= n;
  ho_ref : forall rest, ref_from (h (blake2s_init [])) 0 (msg ++ rest)
                      = ref_from (h s) n (take (buflen s) (buf s) ++ rest);
}.

Lemma count_bytes_spec s n d :
  t0 s = u32 n -> t1 s = u32 (n / 4294967296) -> 0 <= d <= 64 ->
  t0 (count_bytes d s) = u32 (n + d) /\ t1 (count_bytes d s) = u32 ((n + d) / 4294967296).
Proof.
  intros H0 H1 Hd. unfold count_bytes. cbn [t0 t1]. rewrite H0, H1. clear H0 H1. unfold u32.
  rewrite Zplus_mod_idemp_l. split; [done|]. destruct (Z.ltb_spec ((n + d) mod 4294967296) d); [|];
    rewrite ?Zplus_mod_idemp_l; f_equal; Z.div_mod_to_equations; lia.
Qed.
Lemma compress_comp s n block last :
  t0 s = u32 n -> t1 s = u32 (n / 4294967296) -> h (b2s_compress s block last) = comp (h s) n block last.
Proof. intros H0 H1. unfold comp, b2s_compress. cbn [h t0 t1]. by rewrite H0, H1. Qed.
Lemma compress_t0 s block last : t0 (b2s_compress s block last) = t0 s.
Proof. reflexivity. Qed.
Lemma compress_t1 s block last : t1 (b2s_compress s block last) = t1 s.
Proof. reflexivity. Qed.
Lemma length_blit b off bs : (off + length bs <= length b)%nat -> length (blit b off bs) = length b.
Proof. intros Hl. unfold blit. rewrite !length_app, length_take, length_drop. lia. Qed.
Lemma take_blit b off bs : (off + length bs <= length b)%nat -> take (off + length bs) (blit b off bs) = take off b ++ bs.
Proof.
  intros Hl. unfold blit. rewrite app_assoc, take_app_length'; [done|]. rewrite length_app, length_take. lia.
Qed.

(** One turn of the loop, before which at least a byte is left. *)
Definition flush (s : blake2s) : blake2s :=
  if (buflen s =? 64)%nat then let s := b2s_compress (count_bytes 64 s) (buf s) false in set_buf (buf s) 0 s else s.
Definition absorb (s : blake2s) (bs : list Z) : blake2s :=
  set_buf (blit (buf s) (buflen s) bs) (buflen s + length bs) s.

Lemma flush_ref s msg n bs :
  holds s msg n -> bs <> [] -> exists n', length (buf (flush s)) = 64%nat /\ (buflen (flush s) < 64)%nat /\
    t0 (flush s) = u32 n' /\ t1 (flush s) = u32 (n' / 4294967296) /\
    n' + Z.of_nat (buflen (flush s)) = Z.of_nat (length msg) /\ 0 <= n' /\
    forall rest, ref_from (h (blake2s_init [])) 0 (msg ++ bs ++ rest)
               = ref_from (h (flush s)) n' (take (buflen (flush s)) (buf (flush s)) ++ bs ++ rest).
Proof.
  intros [H1 H2 [H3 H4] [H5 H6] H7] Hbs. unfold flush. destruct (Nat.eqb_spec (buflen s) 64) as [E|E].
  - destruct (count_bytes_spec s n 64 H3 H4 ltac:(lia)) as [C0 C1]. exists (n + 64).
    change (buf (b2s_compress (count_bytes 64 s) (buf s) false)) with (buf s). cbv zeta. cbn [set_buf buf buflen t0 t1 h].
    rewrite compress_t0, compress_t1. split; [done|]. split; [lia|]. split; [exact C0|]. split; [exact C1|]. split; [lia|]. split; [lia|].
    intros rest. rewrite H7, E. rewrite take_ge by lia. rewrite ref_from_long.
    + rewrite take_app_length' by done. rewrite drop_app_length' by done. cbn [take app].
      by rewrite (compress_comp (count_bytes 64 s) (n + 64) (buf s) false C0 C1).
    + rewrite !length_app. destruct bs; [done|]. cbn [length]. lia.
  - exists n. split; [done|]. split; [lia|]. do 4 (split; [done|]). intros rest. apply H7.
Qed.
Lemma absorb_holds s msg n bs :
  holds s msg n -> bs <> [] -> (length bs <= 64 - buflen (flush s))%nat -> exists n', holds (absorb (flush s) bs) (msg ++ bs) n'.
Proof.
  intros HH Hbs Hl. destruct (flush_ref s msg n bs HH Hbs) as (n' & H1 & H2 & H3 & H4 & H5 & H6 & H7).
  exists n'. constructor; cbn [absorb set_buf buf buflen t0 t1 h].
  - rewrite length_blit; lia.
  - lia.
  - done.
  - rewrite length_app. lia.
  - intros rest. rewrite <- app_assoc, H7, take_blit by lia. by rewrite app_assoc.
Qed.
Lemma update_loop_holds fuel s p msg n :
  holds s msg n -> (length p <= fuel)%nat -> exists n', holds (update_loop fuel s p) (msg ++ p) n'.
Proof.
  revert s p msg n. induction fuel as [|fuel IH]; intros s p msg n HH Hf.
  { destruct p; [|cbn in Hf; lia]. exists n. by rewrite app_nil_r. }
  cbn [update_loop]. destruct (Nat.eqb_spec (length p) 0) as [E|E].
  { destruct p; [|done]. exists n. by rewrite app_nil_r. }
  fold (flush s). set (m := Nat.min (64 - buflen (flush s)) (length p)).
  assert (Hne : p <> []) by (by intros ->).
  destruct (flush_ref s msg n p HH Hne) as (_ & _ & Hlt & _).
  assert (Hm : length (take m p) = m) by (rewrite length_take; lia).
  assert (Hne' : take m p <> []) by (intros E'; rewrite E' in Hm; cbn in Hm; lia).
  destruct (absorb_holds s msg n (take m p) HH Hne' ltac:(lia)) as [n1 HH1]. unfold absorb in HH1. rewrite Hm in HH1.
  destruct (IH _ (drop m p) _ n1 HH1) as [n2 HH2]; [rewrite length_drop; lia|]. exists n2.
  by rewrite <- app_assoc, take_drop in HH2.
Qed.
Lemma init_holds junk : length junk = 64%nat -> holds (blake2s_init junk) [] 0.
Proof.
  intros Hj. constructor; cbn [blake2s_init buf buflen t0 t1 length]; [done|lia|done|lia|].
  intros rest. reflexivity.
Qed.
Lemma final_holds s msg n : holds s msg n -> blake2s_final s = blake2s_ref msg.
Proof.
  intros [H1 H2 [H3 H4] [H5 H6] H7]. unfold blake2s_final, blake2s_ref. do 2 f_equal.
  specialize (H7 []). rewrite !app_nil_r in H7. rewrite H7, ref_from_short by (rewrite length_take; lia).
  destruct (count_bytes_spec s n (Z.of_nat (buflen s)) H3 H4 ltac:(lia)) as [C0 C1].
  cbn [count_bytes buf buflen]. unfold pad. rewrite length_take. replace (Nat.min (buflen s) (length (buf s))) with (buflen s) by lia.
  assert (E : blit (buf s) (buflen s) (replicate (64 - buflen s) 0) = take (buflen s) (buf s) ++ replicate (64 - buflen s) 0).
  { unfold blit. rewrite length_replicate, drop_ge, app_nil_r by lia. done. }
  rewrite E. rewrite (compress_comp _ (n + Z.of_nat (buflen s))); [done|exact C0|exact C1].
Qed.

(** ** Bytes *)

Definition is_byte (x : Z) : Prop := 0 <= x < 256.
Lemma st32_bytes v : length (st32 v) = 4%nat /\ Forall is_byte (st32 v).
Proof. split; [done|]. unfold st32. repeat (apply Forall_cons; split; [apply u8_bound|]). by apply Forall_nil. Qed.
Lemma concat_st32 {A} (f : A -> Z) l :
  length (concat (map (fun i => st32 (f i)) l)) = (4 * length l)%nat /\ Forall is_byte (concat (map (fun i => st32 (f i)) l)).
Proof.
  induction l as [|x l [IH1 IH2]]; [done|]. cbn [map concat length]. split.
  - rewrite length_app, IH1. rewrite (proj1 (st32_bytes _)). lia.
  - apply Forall_app. split; [apply st32_bytes|done].
Qed.
Lemma digest_bytes s : length (blake2s_final s) = 32%nat /\ Forall is_byte (blake2s_final s).
Proof.
  unfold blake2s_final. match goal with |- context [map st32 ?l] => pose proof (concat_st32 (fun x => x) l) as [H1 H2] end.
  split; [|exact H2]. etransitivity; [exact H1|]. cbn [b2s_compress h]. by rewrite length_map, length_seq.
Qed.
Lemma block_bytes key counter nonce :
  length (chacha20_block key counter nonce) = 64%nat /\ Forall is_byte (chacha20_block key counter nonce).
Proof.
  unfold chacha20_block. match goal with |- context [map (fun i => st32 (@?f i)) ?l] => pose proof (concat_st32 f l) as [H1 H2] end.
  split; [|exact H2]. etransitivity; [exact H1|]. by rewrite length_seq.
Qed.
Definition feed (s : blake2s) (chunks : list (list Z)) : blake2s := foldl blake2s_update s chunks.
Lemma feed_holds chunks s msg n : holds s msg n -> exists n', holds (feed s chunks) (msg ++ concat chunks) n'.
Proof.
  revert s msg n. induction chunks as [|c cs IH]; intros s msg n HH; cbn [feed foldl concat].
  - exists n. by rewrite app_nil_r.
  - destruct (update_loop_holds (length c) s c msg n HH (le_n _)) as [n1 H1]. rewrite app_assoc. by apply (IH _ _ n1).
Qed.

(** C32: hashing a message in pieces is hashing it whole. However the input is
    cut into updates, whatever its length (the byte count is kept in two words
    with a carry), and whatever was in the buffer of the structure before, the
    digest is that of the reference, which takes the concatenated message 64
    bytes at a time and pads the last block. *)
Theorem blake2s_streams junk chunks :
  length junk = 64%nat -> blake2s_final (feed (blake2s_init junk) chunks) = blake2s_ref (concat chunks).
Proof.
  intros Hj. destruct (feed_holds chunks _ [] 0 (init_holds junk Hj)) as [n HH]. exact (final_holds _ _ n HH).
Qed.

(** The digests and the blocks are bytes, 32 and 64 of them, whatever the
    state, key, counter and nonce; and at the RFCs' test vectors (RFC 7693
    appendix B and the empty message; RFC 8439, 2.3.2) they are the published
    ones. *)
Theorem crypto_outputs :
  (forall s, length (blake2s_final s) = 32%nat /\ Forall is_byte (blake2s_final s)) /\
  (forall key counter nonce, length (chacha20_block key counter nonce) = 64%nat /\ Forall is_byte (chacha20_block key counter nonce)) /\
  be (blake2s_final (blake2s_update (blake2s_init (replicate 64 0)) [97; 98; 99]))
    = 0x508c5e8c327c14e2e1a72ba34eeb452f37458b209ed63a294d999b4c86675982 /\
  be (blake2s_final (blake2s_init (replicate 64 0)))
    = 0x69217a3079908094e11121d042354a7c1f55b6482ca1a51e1b250dfd1ed0eef9 /\
  be (chacha20_block (seqZ 0 32) 1 [0; 0; 0; 9; 0; 0; 0; 74; 0; 0; 0; 0])
    = 0x10f1e7e4d13b5915500fdd1fa32071c4c7d1f4c733c068030422aa9ac3d46c4ed2826446079faa0914c2d705d98b02a2b5129cd1de164eb9cbd083e8a2503c4e.
Proof.
  split; [exact digest_bytes|]. split; [exact block_bytes|]. split; [vm_compute; reflexivity|].
  split; vm_compute; reflexivity.
Qed.

(** The test program's five pieces of a thousand bytes. *)
Lemma blake2s_streams_witness :
  blake2s_final (feed (blake2s_init (replicate 64 170)) [replicate 1 1; replicate 63 2; replicate 64 3; replicate 500 4; replicate 372 5])
  = blake2s_ref (concat [replicate 1 1; replicate 63 2; replicate 64 3; replicate 500 4; replicate 372 5]).
Proof. apply blake2s_streams. reflexivity. Defined.
End CRYPTO.
