(* ===== verification/Random.v ===== *)
(** * The random number generator and the memory devices (kernel/random.c,
    kernel/memdev.c)

    A BLAKE2s pool fed by interrupts, and ChaCha20 output with fast key
    erasure. Interrupts come where the code does not mask them: the reseeding
    takes the list of those that arrive between its two masked parts. *)

From stdpp Require Import functions.
From S2P Require Import Prelude Crypto Wait.
Local Open Scope Z_scope.

Module RANDOM.
Import CRYPTO.

(** ** The code *)

Definition READY_BITS : Z := 128.
Definition RESEED_BITS : Z := 64.

Record rnd := mk_rnd {
  pool : blake2s;
  key : list Z;
  credit_x8 : Z;
  since_reseed_x8 : Z;
  ready : bool;
  ready_wait : WAIT.state;      (** the wait queues; the pool's is number 0 *)
  fast : list (list Z);
  nfast : nat;
  words : list Z;               (** random_u32's own *)
  left_ : nat;
}.
Definition set_pool (p : blake2s) (s : rnd) : rnd :=
  mk_rnd p (key s) (credit_x8 s) (since_reseed_x8 s) (ready s) (ready_wait s) (fast s) (nfast s) (words s) (left_ s).
Definition set_key (k : list Z) (s : rnd) : rnd :=
  mk_rnd (pool s) k (credit_x8 s) (since_reseed_x8 s) (ready s) (ready_wait s) (fast s) (nfast s) (words s) (left_ s).
Definition set_since (n : Z) (s : rnd) : rnd :=
  mk_rnd (pool s) (key s) (credit_x8 s) n (ready s) (ready_wait s) (fast s) (nfast s) (words s) (left_ s).
Definition set_credit (n : Z) (s : rnd) : rnd :=
  mk_rnd (pool s) (key s) n (since_reseed_x8 s) (ready s) (ready_wait s) (fast s) (nfast s) (words s) (left_ s).
Definition set_fast (f : list (list Z)) (n : nat) (s : rnd) : rnd :=
  mk_rnd (pool s) (key s) (credit_x8 s) (since_reseed_x8 s) (ready s) (ready_wait s) f n (words s) (left_ s).
Definition set_words (w : list Z) (n : nat) (s : rnd) : rnd :=
  mk_rnd (pool s) (key s) (credit_x8 s) (since_reseed_x8 s) (ready s) (ready_wait s) (fast s) (nfast s) w n.
Definition become_ready (s : rnd) : rnd :=
  mk_rnd (pool s) (key s) (credit_x8 s) (since_reseed_x8 s) true (WAIT.wake_all 0 (ready_wait s)) (fast s) (nfast s) (words s) (left_ s).

(** An interrupt, with the tick it came at. *)
Record irq := mk_irq { i_where : Z; i_what : Z; i_bits_x8 : Z; i_jiffies : Z }.

Definition random_interrupt (i : irq) (s : rnd) : rnd :=
  let s := set_fast (<[nfast s := [i_where i; i_what i; i_jiffies i; credit_x8 s]]> (fast s)) (nfast s + 1) s in
  let s := if (nfast s =? 16)%nat
           then set_fast (fast s) 0 (set_pool (blake2s_update (pool s) (concat (map (be_bytes 4) (concat (fast s))))) s)
           else s in
  let s := set_since (u32 (since_reseed_x8 s + i_bits_x8 i)) (set_credit (u32 (credit_x8 s + i_bits_x8 i)) s) in
  if negb (ready s) && (READY_BITS * 8 <=? credit_x8 s) then become_ready s else s.
Definition interrupts (irqs : list irq) (s : rnd) : rnd := foldl (fun s i => random_interrupt i s) s irqs.

Definition reseed (irqs : list irq) (s : rnd) : rnd :=
  let fresh := blake2s_final (blake2s_update (pool s) (key s)) in
  set_since 0 (set_key fresh (interrupts irqs s)).

(** [clock] is what the real-time clock says, if there is one that answers;
    [mac] the first network card's address; [self] the pool's own address. *)
Definition random_init (junk : list Z) (clock : option Z) (mac : option (list Z)) (jiffies self : Z) (s : rnd) : rnd :=
  let p := blake2s_init junk in
  let p := match clock with Some now => blake2s_update p (be_bytes 4 now) | None => p end in
  let p := blake2s_update p (be_bytes 4 jiffies) in
  let p := match mac with Some m => blake2s_update p (take 6 m) | None => p end in
  let p := blake2s_update p (be_bytes 4 self) in
  reseed [] (set_pool p s).

Fixpoint write_loop (fuel : nat) (buf : list Z) (s : rnd) : rnd :=
  match fuel with
  | O => s
  | S fuel' =>
      if (length buf =? 0)%nat then s
      else let n := if (length buf <? 256)%nat then length buf else 256%nat in
           write_loop fuel' (drop n buf) (set_pool (blake2s_update (pool s) (take n buf)) s)
  end.
Definition random_write (buf : list Z) (s : rnd) : rnd := write_loop (length buf) buf s.

Definition random_ready (s : rnd) : bool := ready s.

Definition nonce0 : list Z := replicate 12 0.
Fixpoint get_loop (fuel : nat) (k : list Z) (counter : Z) (len : nat) : list Z :=
  match fuel with
  | O => []
  | S fuel' =>
      if (len =? 0)%nat then []
      else let n := if (len <? 64)%nat then len else 64%nat in
           take n (chacha20_block k counter nonce0) ++ get_loop fuel' k (u32 (counter + 1)) (len - n)
  end.
Definition random_get (irqs : list irq) (len : nat) (s : rnd) : list Z * rnd :=
  let s := if RESEED_BITS * 8 <=? since_reseed_x8 s then reseed irqs s else s in
  let k := key s in
  let block := chacha20_block k 0 nonce0 in
  let s := set_key (take 32 block) s in
  let n := if (len <? 32)%nat then len else 32%nat in
  (take n (drop 32 block) ++ get_loop (len - n) k 1 (len - n), s).

(** Each turn: a signal pending, and what happens during the sleep. *)
Fixpoint random_wait (e : list (bool * (rnd -> rnd))) (nonblock : bool) (s : rnd) : option (Z * rnd) :=
  if ready s then Some (0, s)
  else if nonblock then Some (- EAGAIN, s)
  else
    match e with
    | [] => None
    | (pending, during) :: e' => if pending then Some (- EINTR, s) else random_wait e' nonblock (during s)
    end.

Definition be_words (bs : list Z) : list Z := map (fun i => be (sub bs (4 * i) 4)) (seq 0 16).
Definition random_u32 (irqs : list irq) (s : rnd) : Z * rnd :=
  let s := if (left_ s =? 0)%nat then let '(bs, s) := random_get irqs 64 s in set_words (be_words bs) 16 s else s in
  let i := (left_ s - 1)%nat in
  (nth i (words s) 0, set_words (<[i := 0]> (words s)) i s).

(** *** The memory devices: the result, and what is put in the buffer *)
Definition null_read (len : nat) : Z * list Z := (0, []).
Definition zero_read (len : nat) : Z * list Z := (Z.of_nat len, replicate len 0).
Definition sink_write (buf : list Z) : Z := Z.of_nat (length buf).
Definition full_write (buf : list Z) : Z := - ENOSPC.
Definition urandom_read (irqs : list irq) (len : nat) (s : rnd) : Z * list Z * rnd :=
  let '(bs, s) := random_get irqs len s in (Z.of_nat len, bs, s).
Definition random_read (e : list (bool * (rnd -> rnd))) (irqs : list irq) (flags : Z) (len : nat) (s : rnd) :
    option (Z * list Z * rnd) :=
  match random_wait e (has flags O_NONBLOCK) s with
  | None => None
  | Some (err, s) => if err <? 0 then Some (err, [], s) else Some (urandom_read irqs len s)
  end.
Definition random_dev_write (buf : list Z) (s : rnd) : Z * rnd := (Z.of_nat (length buf), random_write buf s).

(** ** The stream *)

(** [n] blocks of ChaCha20 keystream from block [c] on. *)
Fixpoint keystream (k : list Z) (c : Z) (n : nat) : list Z :=
  match n with O => [] | S n' => chacha20_block k c nonce0 ++ keystream k (c + 1) n' end.

Lemma block_length k c : length (chacha20_block k c nonce0) = 64%nat.
Proof. apply block_bytes. Qed.
Lemma keystream_bytes k c n : length (keystream k c n) = (64 * n)%nat /\ Forall is_byte (keystream k c n).
Proof.
  revert c. induction n as [|n IH]; intros c; [done|]. destruct (IH (c + 1)) as [IH1 IH2]. cbn [keystream].
  rewrite length_app, block_length, IH1. split; [lia|]. apply Forall_app. split; [apply block_bytes|done].
Qed.
Lemma get_loop_stream fuel k c len n :
  (len <= fuel)%nat -> (len <= 64 * n)%nat -> 0 <= c -> c + Z.of_nat n < 4294967296 ->
  get_loop fuel k c len = take len (keystream k c n).
Proof.
  revert c len n. induction fuel as [|fuel IH]; intros c len n Hf Hn Hc Hb.
  { assert (len = 0%nat) as -> by lia. by rewrite take_0. }
  cbn [get_loop]. destruct (Nat.eqb_spec len 0) as [->|Hne]; [by rewrite take_0|].
  destruct n as [|n]; [lia|]. cbn [keystream]. rewrite u32_small by lia.
  destruct (Nat.ltb_spec len 64) as [Hlt|Hge].
  - rewrite (IH _ (len - len)%nat 0%nat), Nat.sub_diag, take_0, app_nil_r by lia.
    by rewrite take_app_le by (rewrite block_length; lia).
  - rewrite (IH _ (len - 64)%nat n) by lia. rewrite take_app_ge by (rewrite block_length; lia).
    by rewrite block_length, (take_ge (chacha20_block _ _ _)) by (rewrite block_length; lia).
Qed.

(** The state a request draws from: reseeded if enough has come in. *)
Definition drawn (irqs : list irq) (s : rnd) : rnd :=
  if RESEED_BITS * 8 <=? since_reseed_x8 s then reseed irqs s else s.
Definition blocks_for (len : nat) : nat := S ((len + 32) / 64).

Lemma random_get_stream irqs len s :
  Z.of_nat len < 4294967296 ->
  random_get irqs len s =
    (take len (drop 32 (keystream (key (drawn irqs s)) 0 (blocks_for len))),
     set_key (take 32 (keystream (key (drawn irqs s)) 0 (blocks_for len))) (drawn irqs s)).
Proof.
  intros Hl. unfold random_get. fold (drawn irqs s). set (k := key (drawn irqs s)). unfold blocks_for.
  pose proof (Nat.div_mod_eq (len + 32) 64). pose proof (Nat.mod_upper_bound (len + 32) 64).
  cbn [keystream]. rewrite (take_app_le _ _ 32) by (rewrite block_length; lia). f_equal.
  rewrite drop_app_le by (rewrite block_length; lia).
  assert (Hd : length (drop 32 (chacha20_block k 0 nonce0)) = 32%nat) by (rewrite length_drop, block_length; done).
  rewrite (get_loop_stream _ _ _ _ ((len + 32) / 64)); [|done|destruct (Nat.ltb_spec len 32); lia|lia|lia].
  destruct (Nat.ltb_spec len 32).
  - rewrite Nat.sub_diag, take_0, app_nil_r. by rewrite take_app_le by lia.
  - rewrite (take_app_ge (drop _ _)) by lia. rewrite Hd. by rewrite (take_ge (drop _ _)) by lia.
Qed.

(** ** Words: each is handed out once *)

Lemma random_u32_stored irqs s :
  (0 < left_ s)%nat -> random_u32 irqs s = (nth (left_ s - 1) (words s) 0, set_words (<[(left_ s - 1)%nat := 0]> (words s)) (left_ s - 1) s).
Proof. intros Hl. unfold random_u32. by destruct (Nat.eqb_spec (left_ s) 0); [lia|]. Qed.
Fixpoint draw_words (n : nat) (s : rnd) : list Z * rnd :=
  match n with
  | O => ([], s)
  | S n' => let '(v, s) := random_u32 [] s in let '(vs, s) := draw_words n' s in (v :: vs, s)
  end.
Lemma draw_stored n s :
  left_ s = n -> length (words s) = 16%nat -> (n <= 16)%nat ->
  draw_words n s = (rev (take n (words s)), set_words (replicate n 0 ++ drop n (words s)) 0 s).
Proof.
  revert s. induction n as [|n IH]; intros s Hl Hw Hn.
  { cbn [draw_words take drop replicate app rev]. f_equal. destruct s. cbn in *. by subst. }
  cbn [draw_words]. rewrite random_u32_stored by lia. rewrite Hl. replace (S n - 1)%nat with n by lia.
  rewrite IH; [|done|by cbn [set_words words]; rewrite length_insert|lia]. cbn [set_words words].
  destruct (lookup_lt_is_Some_2 (words s) n ltac:(lia)) as [x Hx].
  f_equal.
  - rewrite (take_S_r _ _ _ Hx), rev_app_distr. cbn [rev app]. f_equal.
    + apply nth_lookup_Some. done.
    + f_equal. by rewrite take_insert_ge.
  - unfold set_words. cbn [pool key credit_x8 since_reseed_x8 ready ready_wait fast nfast words left_]. f_equal.
    rewrite drop_insert_ge, Nat.sub_diag, (drop_S _ _ _ Hx), replicate_S_end, <- app_assoc by lia. done.
Qed.

(** ** Entropy *)

Definition total_bits (irqs : list irq) : Z := foldr (fun i t => i_bits_x8 i + t) 0 irqs.

Lemma random_interrupt_spec i s a :
  0 <= i_bits_x8 i -> 0 <= credit_x8 s -> credit_x8 s + i_bits_x8 i < 4294967296 -> WAIT.refines (ready_wait s) a ->
  ready s = (READY_BITS * 8 <=? credit_x8 s) ->
  let s' := random_interrupt i s in
  credit_x8 s' = credit_x8 s + i_bits_x8 i /\ ready s' = (READY_BITS * 8 <=? credit_x8 s') /\
  exists a', WAIT.refines (ready_wait s') a' /\
    (ready s = false -> ready s' = true -> WAIT.line a' 0 = []) /\ (ready s = true -> ready_wait s' = ready_wait s).
Proof.
  intros Hb Hc Hlt HR Hrd s'.
  assert (E : exists s1, credit_x8 s1 = credit_x8 s + i_bits_x8 i /\ ready s1 = ready s /\ ready_wait s1 = ready_wait s /\
    s' = if negb (ready s1) && (READY_BITS * 8 <=? credit_x8 s1) then become_ready s1 else s1).
  { subst s'. unfold random_interrupt. match goal with |- context [negb (ready ?x) && _] => exists x end.
    cbn [set_since set_credit credit_x8 ready ready_wait]. rewrite u32_small; [destruct (_ =? 16)%nat; done|].
    destruct (_ =? 16)%nat; cbn [set_fast set_pool credit_x8]; lia. }
  destruct E as (s1 & E1 & E2 & E3 & ->). rewrite E1, E2. unfold READY_BITS in *.
  destruct (Z.leb_spec (128 * 8) (credit_x8 s)); rewrite Hrd; cbn [negb andb].
  - rewrite E1, E2, E3, Hrd. split; [done|]. split; [symmetry; apply Z.leb_le; lia|]. by exists a.
  - destruct (Z.leb_spec (128 * 8) (credit_x8 s + i_bits_x8 i)); cbn [become_ready credit_x8 ready ready_wait];
      rewrite ?E1, ?E2, ?E3, ?Hrd.
    + split; [done|]. split; [symmetry; apply Z.leb_le; lia|]. exists (WAIT.f_op (WAIT.WakeAll 0) a).
      split; [by apply (WAIT.run_op_refines _ _ (WAIT.WakeAll 0))|]. split; [|done]. intros _ _. cbn [WAIT.f_op WAIT.line].
      by rewrite fn_lookup_insert.
    + split; [done|]. split; [symmetry; apply Z.leb_gt; lia|]. by exists a.
Qed.
Lemma total_bits_nonneg irqs : Forall (fun i => 0 <= i_bits_x8 i) irqs -> 0 <= total_bits irqs.
Proof. induction 1 as [|x l Hx _ IH]; cbn [total_bits foldr]; [done|]. fold (total_bits l). lia. Qed.
Lemma interrupts_spec irqs s a :
  Forall (fun i => 0 <= i_bits_x8 i) irqs -> 0 <= credit_x8 s -> credit_x8 s + total_bits irqs < 4294967296 ->
  WAIT.refines (ready_wait s) a -> ready s = (READY_BITS * 8 <=? credit_x8 s) ->
  credit_x8 (interrupts irqs s) = credit_x8 s + total_bits irqs /\
  ready (interrupts irqs s) = (READY_BITS * 8 <=? credit_x8 s + total_bits irqs) /\
  exists a', WAIT.refines (ready_wait (interrupts irqs s)) a' /\
    (ready s = false -> ready (interrupts irqs s) = true -> WAIT.line a' 0 = []) /\
    (ready s = true -> ready_wait (interrupts irqs s) = ready_wait s).
Proof.
  revert s a. induction irqs as [|i irqs IH]; intros s a Hb Hc Hlt HR Hrd.
  { cbn [interrupts foldl total_bits foldr]. rewrite Z.add_0_r. split; [done|]. split; [done|]. exists a. split; [done|]. split; [congruence|done]. }
  apply Forall_cons in Hb as [Hb1 Hb2]. pose proof (total_bits_nonneg _ Hb2) as Ht.
  change (total_bits (i :: irqs)) with (i_bits_x8 i + total_bits irqs) in *.
  change (interrupts (i :: irqs) s) with (interrupts irqs (random_interrupt i s)).
  destruct (random_interrupt_spec i s a Hb1 Hc ltac:(lia) HR Hrd) as (E1 & E2 & a1 & HR1 & Hl1 & Hsame).
  destruct (IH (random_interrupt i s) a1 Hb2 ltac:(lia) ltac:(lia) HR1 E2) as (E3 & E4 & a2 & HR2 & Hl2 & Hsame2).
  rewrite E1 in E3, E4. rewrite Z.add_assoc. split; [done|]. split; [done|].
  destruct (ready (random_interrupt i s)) eqn:Er.
  - rewrite Hsame2 by done. exists a1. split; [done|]. split; [intros Hf _; by apply Hl1|]. done.
  - exists a2. split; [done|]. split; [by intros _; apply Hl2|]. intros Ht'. exfalso.
    rewrite Ht' in Hrd. symmetry in Hrd. apply Z.leb_le in Hrd. symmetry in E2. apply Z.leb_gt in E2. lia.
Qed.
Lemma random_wait_spec e nonblock s r s' :
  random_wait e nonblock s = Some (r, s') ->
  r = 0 /\ ready s' = true \/ ready s' = false /\ (r = - EAGAIN /\ nonblock = true \/ r = - EINTR /\ nonblock = false).
Proof.
  revert s. induction e as [|[pending during] e IH]; intros s; cbn [random_wait].
  - destruct (ready s) eqn:E; [intros [= <- <-]; by left|]. destruct nonblock; [intros [= <- <-]|done]. auto.
  - destruct (ready s) eqn:E; [intros [= <- <-]; by left|]. destruct nonblock; [intros [= <- <-]; auto|].
    destruct pending; [intros [= <- <-]; auto|]. apply IH.
Qed.

(** ** The claims *)

(** Requests erase the key they are answered from. What random_get returns
    and the key it leaves behind are disjoint parts of one ChaCha20 stream: the
    stream's first 32 bytes become the key, the bytes after them are the
    output, as many as asked for, and the key the stream was made with is
    nowhere in the state after. The words random_u32 hands out are taken from
    such an output in turn, each once, and the word is zeroed as it goes. *)
Theorem random_get_erases irqs len s :
  Z.of_nat len < 4294967296 -> length (words s) = 16%nat -> (left_ s <= 16)%nat ->
  (exists stream s', stream = keystream (key (drawn irqs s)) 0 (blocks_for len) /\
    random_get irqs len s = (take len (drop 32 stream), s') /\ key s' = take 32 stream /\
    length (key s') = 32%nat /\ length (take len (drop 32 stream)) = len /\
    Forall is_byte (key s') /\ Forall is_byte (take len (drop 32 stream))) /\
  draw_words (left_ s) s = (rev (take (left_ s) (words s)), set_words (replicate (left_ s) 0 ++ drop (left_ s) (words s)) 0 s).
Proof.
  intros Hl Hw Hn. split; [|by apply draw_stored]. eexists _, _. split; [reflexivity|]. split; [by apply random_get_stream|].
  cbn [set_key key]. destruct (keystream_bytes (key (drawn irqs s)) 0 (blocks_for len)) as [H1 H2]. unfold blocks_for in *.
  pose proof (Nat.div_mod_eq (len + 32) 64). pose proof (Nat.mod_upper_bound (len + 32) 64).
  split; [done|]. split; [rewrite length_take; lia|]. split; [rewrite length_take, length_drop; lia|].
  split; [by apply Forall_take|]. by apply Forall_take, Forall_drop.
Qed.

(** Nothing that asks to wait gets output before 128 bits are credited.
    From a pool with nothing credited, through any interrupts that credit fewer
    than 2^29 bits in all, the pool is ready exactly when 1024 eighths have been
    credited; at the interrupt that makes it ready every task waiting for it is
    taken off the queue; and a read of /dev/random that returns data left the
    pool ready, one that fails with -EAGAIN was nonblocking, one with -EINTR
    blocking, and both left it not ready and gave no bytes. *)
Theorem random_waits_for_entropy irqs s a e irqs' flags len r bs s' :
  Forall (fun i => 0 <= i_bits_x8 i) irqs -> total_bits irqs < 4294967296 ->
  credit_x8 s = 0 -> ready s = false -> WAIT.refines (ready_wait s) a ->
  random_read e irqs' flags len (interrupts irqs s) = Some (r, bs, s') ->
  (ready (interrupts irqs s) = true <-> 128 * 8 <= total_bits irqs) /\
  (exists a', WAIT.refines (ready_wait (interrupts irqs s)) a' /\ (ready (interrupts irqs s) = true -> WAIT.line a' 0 = [])) /\
  (r < 0 -> ready s' = false /\ bs = [] /\ (r = - EAGAIN /\ has flags O_NONBLOCK = true \/ r = - EINTR /\ has flags O_NONBLOCK = false)) /\
  (0 <= r -> r = Z.of_nat len /\
     exists s1, random_wait e (has flags O_NONBLOCK) (interrupts irqs s) = Some (0, s1) /\ ready s1 = true /\
       (bs, s') = random_get irqs' len s1).
Proof.
  intros Hb Ht Hc Hrd HR Hread.
  destruct (interrupts_spec irqs s a Hb ltac:(lia) ltac:(lia) HR) as (E1 & E2 & a' & HR' & Hl & _); [by rewrite Hrd, Hc|].
  split; [rewrite E2, Hc; apply Z.leb_le|]. split; [exists a'; auto|]. unfold random_read in Hread.
  destruct (random_wait e _ _) as [[err s1]|] eqn:Ew; [|done].
  destruct (random_wait_spec _ _ _ _ _ Ew) as [[-> Hr1]|[Hr1 Herr]].
  - cbn [Z.ltb Z.compare] in Hread. unfold urandom_read in Hread. destruct (random_get irqs' len s1) as [bs1 s2] eqn:Eg.
    injection Hread as <- <- <-. split; [lia|]. intros _. split; [done|]. by exists s1.
  - assert (err < 0) as Hneg by (destruct Herr as [[-> _]|[-> _]]; done). rewrite (proj2 (Z.ltb_lt err 0) Hneg) in Hread.
    injection Hread as <- <- <-. split; [done|]. lia.
Qed.


(** *** The claims at work: a generator nobody has asked anything of yet *)
Definition asleep_one : WAIT.state := WAIT.fall_asleep 0 0 (WAIT.boot 1 1).
Definition fresh_rnd : rnd :=
  mk_rnd (blake2s_init (replicate 64 0)) (replicate 32 0) 0 0 false asleep_one (replicate 16 [0; 0; 0; 0]) 0 (seqZ 100 16) 2.
Lemma random_get_erases_witness :
  (exists stream s', stream = keystream (key (drawn [] fresh_rnd)) 0 (blocks_for 100) /\
    random_get [] 100 fresh_rnd = (take 100 (drop 32 stream), s') /\ key s' = take 32 stream /\
    length (key s') = 32%nat /\ length (take 100 (drop 32 stream)) = 100%nat /\
    Forall is_byte (key s') /\ Forall is_byte (take 100 (drop 32 stream))) /\
  draw_words (left_ fresh_rnd) fresh_rnd = (rev (take (left_ fresh_rnd) (words fresh_rnd)),
    set_words (replicate (left_ fresh_rnd) 0 ++ drop (left_ fresh_rnd) (words fresh_rnd)) 0 fresh_rnd).
Proof. apply random_get_erases; [vm_compute; reflexivity|reflexivity|cbn [fresh_rnd left_]; lia]. Defined.

(** 128 keys pressed. *)
Definition keys_pressed : list irq := replicate 128 (mk_irq 7 6 8 1000).
Lemma random_waits_for_entropy_witness :
  exists a', WAIT.refines (ready_wait (interrupts keys_pressed fresh_rnd)) a' /\
    (ready (interrupts keys_pressed fresh_rnd) = true -> WAIT.line a' 0 = []).
Proof.
  refine (proj1 (proj2 (random_waits_for_entropy keys_pressed fresh_rnd _ [(false, fun s => s)] [] O_NONBLOCK 0
    0 [] _ _ _ _ _ _ _))).
  - apply Forall_replicate. done.
  - vm_compute. reflexivity.
  - reflexivity.
  - reflexivity.
  - refine (WAIT.sleep_refines _ _ 0 0 (WAIT.boot_refines 1 1) _). split; [cbn; lia|]. by eexists.
  - vm_compute. reflexivity.
Defined.
End RANDOM.
