(* ===== verification/Net.v ===== *)
(** * The network stack under TCP (kernel/net/net.c, ip.c, icmp.c, udp.c, arp.c)

    Frames are lists of bytes, built and taken apart field by field at the
    offsets of the packed structures. The stack is one state; a frame sent to
    the wire is appended to [wire], a datagram handed to a bound handler to
    [delivered].

    What runs while the stack waits for a packet (net_wait: the polling of
    arriving frames, by this same code, and the clock) is [world], an arbitrary
    change of the state. The driver ([dev_send]) and TCP ([tcp_input]) are
    parameters. *)

From S2P Require Import Prelude Route.
Local Open Scope Z_scope.

Module NET.

(** ** The state *)

Definition NET_MTU : nat := 1514.
Definition ETH_HDR_LEN : nat := 14.
Definition ETH_P_IP : Z := 2048.
Definition ETH_P_ARP : Z := 2054.
Definition IP_HDR_LEN : nat := 20.
Definition IPPROTO_ICMP : Z := 1.
Definition IPPROTO_TCP : Z := 6.
Definition IPPROTO_UDP : Z := 17.
Definition IP4_BROADCAST : Z := 4294967295.
Definition IP4_IS_LOOPBACK (a : Z) : bool := Z.shiftr a 24 =? 127.
Definition HZ : Z := 100.

Record netif := mk_netif {
  n_mac : list Z; n_ip : Z; n_netmask : Z; n_gateway : Z; n_up : bool;
  rx_packets : Z; tx_packets : Z; rx_dropped : Z; tx_errors : Z;
}.
Definition count_rx (n : netif) : netif :=
  mk_netif (n_mac n) (n_ip n) (n_netmask n) (n_gateway n) (n_up n) (u32 (rx_packets n + 1)) (tx_packets n) (rx_dropped n) (tx_errors n).
Definition count_tx (n : netif) : netif :=
  mk_netif (n_mac n) (n_ip n) (n_netmask n) (n_gateway n) (n_up n) (rx_packets n) (u32 (tx_packets n + 1)) (rx_dropped n) (tx_errors n).
Definition count_drop (n : netif) : netif :=
  mk_netif (n_mac n) (n_ip n) (n_netmask n) (n_gateway n) (n_up n) (rx_packets n) (tx_packets n) (u32 (rx_dropped n + 1)) (tx_errors n).
Definition count_txerr (n : netif) : netif :=
  mk_netif (n_mac n) (n_ip n) (n_netmask n) (n_gateway n) (n_up n) (rx_packets n) (tx_packets n) (rx_dropped n) (u32 (tx_errors n + 1)).

Record arp_entry_ := mk_arp { a_addr : Z; a_mac : list Z; a_stamp : Z; a_valid : bool }.

(** A ring of frames, with the two indices. *)
Record ring := mk_ring { slots : list (list Z); head : nat; tail : nat }.

Record net := mk_net {
  iface : netif;
  has_dev : bool;
  lo_if : netif;
  rx : ring;
  lo : ring;
  wire : list (list Z);
  routes : list ROUTE.route;
  cache : list arp_entry_;
  got_reply : bool;
  waiting_for : Z;
  bound : list (option (Z * nat));              (** a port and its handler *)
  delivered : list (nat * Z * Z * list Z);      (** handler, from, sport, data *)
  next_id : Z;
  reply_seen : bool; ping_peer : Z; ping_id : Z; ping_seq : Z; ping_sent_at : Z; ping_rtt_ms : Z;
  jiffies : Z;
}.

Definition RX_RING : nat := 16.
Definition LO_RING : nat := 32.
Definition UDP_BINDINGS : nat := 8.
Definition ARP_ENTRIES : nat := 16.
Definition ARP_TTL_MS : Z := 120000.

Definition set_iface (n : netif) (s : net) : net :=
  mk_net n (has_dev s) (lo_if s) (rx s) (lo s) (wire s) (routes s) (cache s) (got_reply s) (waiting_for s) (bound s)
    (delivered s) (next_id s) (reply_seen s) (ping_peer s) (ping_id s) (ping_seq s) (ping_sent_at s) (ping_rtt_ms s) (jiffies s).
Definition set_lo_if (n : netif) (s : net) : net :=
  mk_net (iface s) (has_dev s) n (rx s) (lo s) (wire s) (routes s) (cache s) (got_reply s) (waiting_for s) (bound s)
    (delivered s) (next_id s) (reply_seen s) (ping_peer s) (ping_id s) (ping_seq s) (ping_sent_at s) (ping_rtt_ms s) (jiffies s).
Definition set_rx (r : ring) (s : net) : net :=
  mk_net (iface s) (has_dev s) (lo_if s) r (lo s) (wire s) (routes s) (cache s) (got_reply s) (waiting_for s) (bound s)
    (delivered s) (next_id s) (reply_seen s) (ping_peer s) (ping_id s) (ping_seq s) (ping_sent_at s) (ping_rtt_ms s) (jiffies s).
Definition set_lo (r : ring) (s : net) : net :=
  mk_net (iface s) (has_dev s) (lo_if s) (rx s) r (wire s) (routes s) (cache s) (got_reply s) (waiting_for s) (bound s)
    (delivered s) (next_id s) (reply_seen s) (ping_peer s) (ping_id s) (ping_seq s) (ping_sent_at s) (ping_rtt_ms s) (jiffies s).
Definition set_wire (w : list (list Z)) (s : net) : net :=
  mk_net (iface s) (has_dev s) (lo_if s) (rx s) (lo s) w (routes s) (cache s) (got_reply s) (waiting_for s) (bound s)
    (delivered s) (next_id s) (reply_seen s) (ping_peer s) (ping_id s) (ping_seq s) (ping_sent_at s) (ping_rtt_ms s) (jiffies s).
Definition set_routes (t : list ROUTE.route) (s : net) : net :=
  mk_net (iface s) (has_dev s) (lo_if s) (rx s) (lo s) (wire s) t (cache s) (got_reply s) (waiting_for s) (bound s)
    (delivered s) (next_id s) (reply_seen s) (ping_peer s) (ping_id s) (ping_seq s) (ping_sent_at s) (ping_rtt_ms s) (jiffies s).
Definition set_cache (c : list arp_entry_) (s : net) : net :=
  mk_net (iface s) (has_dev s) (lo_if s) (rx s) (lo s) (wire s) (routes s) c (got_reply s) (waiting_for s) (bound s)
    (delivered s) (next_id s) (reply_seen s) (ping_peer s) (ping_id s) (ping_seq s) (ping_sent_at s) (ping_rtt_ms s) (jiffies s).
Definition set_reply (b : bool) (w : Z) (s : net) : net :=
  mk_net (iface s) (has_dev s) (lo_if s) (rx s) (lo s) (wire s) (routes s) (cache s) b w (bound s)
    (delivered s) (next_id s) (reply_seen s) (ping_peer s) (ping_id s) (ping_seq s) (ping_sent_at s) (ping_rtt_ms s) (jiffies s).
Definition set_bound (b : list (option (Z * nat))) (s : net) : net :=
  mk_net (iface s) (has_dev s) (lo_if s) (rx s) (lo s) (wire s) (routes s) (cache s) (got_reply s) (waiting_for s) b
    (delivered s) (next_id s) (reply_seen s) (ping_peer s) (ping_id s) (ping_seq s) (ping_sent_at s) (ping_rtt_ms s) (jiffies s).
Definition set_delivered (d : list (nat * Z * Z * list Z)) (s : net) : net :=
  mk_net (iface s) (has_dev s) (lo_if s) (rx s) (lo s) (wire s) (routes s) (cache s) (got_reply s) (waiting_for s) (bound s)
    d (next_id s) (reply_seen s) (ping_peer s) (ping_id s) (ping_seq s) (ping_sent_at s) (ping_rtt_ms s) (jiffies s).
Definition set_next_id (i : Z) (s : net) : net :=
  mk_net (iface s) (has_dev s) (lo_if s) (rx s) (lo s) (wire s) (routes s) (cache s) (got_reply s) (waiting_for s) (bound s)
    (delivered s) i (reply_seen s) (ping_peer s) (ping_id s) (ping_seq s) (ping_sent_at s) (ping_rtt_ms s) (jiffies s).
Definition set_ping (seen : bool) (peer pid seq sent rtt : Z) (s : net) : net :=
  mk_net (iface s) (has_dev s) (lo_if s) (rx s) (lo s) (wire s) (routes s) (cache s) (got_reply s) (waiting_for s) (bound s)
    (delivered s) (next_id s) seen peer pid seq sent rtt (jiffies s).

(** ** The internet checksum (ip.c) *)

Fixpoint sum_words (p : list Z) (sum : Z) : Z :=
  match p with
  | a :: b :: p' => sum_words p' (u32 (sum + Z.lor (Z.shiftl a 8) b))
  | [a] => u32 (sum + Z.shiftl a 8)
  | [] => sum
  end.
(** [while (sum >> 16)]: a 32-bit sum is folded within three turns. *)
Fixpoint fold_sum (fuel : nat) (sum : Z) : Z :=
  match fuel with
  | O => sum
  | S fuel' =>
      if Z.shiftr sum 16 =? 0 then sum else fold_sum fuel' (u32 (Z.land sum 65535 + Z.shiftr sum 16))
  end.
Definition net_checksum (data : list Z) (start : Z) : Z := u16 (Z.lnot (fold_sum 3 (sum_words data start))).

(** ** Frames (net.c) *)

Definition bcast : list Z := replicate 6 255.
Definition net_eth_hdr (s : net) (dst : option (list Z)) (type : Z) : list Z :=
  take 6 (default bcast dst) ++ take 6 (n_mac (iface s)) ++ be_bytes 2 type.

Definition next_of (n i : nat) : nat := ((i + 1) mod n)%nat.

Definition net_loopback (frame : list Z) (s : net) : Z * net :=
  let next := next_of LO_RING (head (lo s)) in
  if negb (n_up (lo_if s)) then (- ENETUNREACH, s)
  else if (next =? tail (lo s))%nat then (- ENOBUFS, set_lo_if (count_txerr (lo_if s)) s)
  else if (NET_MTU <? length frame)%nat then (- EMSGSIZE, s)
  else
    let s := set_lo (mk_ring (<[head (lo s) := frame]> (slots (lo s))) next (tail (lo s))) s in
    (0, set_lo_if (count_tx (lo_if s)) s).

Definition net_is_local (s : net) (addr : Z) : bool :=
  if n_netmask (iface s) =? 0 then false
  else Z.land addr (n_netmask (iface s)) =? Z.land (n_ip (iface s)) (n_netmask (iface s)).
Definition net_set_addr (ip mask gw : Z) (s : net) : net :=
  let n := iface s in
  let s := set_iface (mk_netif (n_mac n) ip mask gw (n_up n) (rx_packets n) (tx_packets n) (rx_dropped n) (tx_errors n)) s in
  set_routes (ROUTE.route_iface_update (routes s) ip mask gw) s.

Section stack.
Variable dev_send : list Z -> net -> Z.
Variable tcp_input : Z -> Z -> list Z -> net -> net.
Variable world : net -> net.

Definition net_tx (frame : list Z) (s : net) : Z * net :=
  if negb (n_up (iface s)) || negb (has_dev s) then (- ENETDOWN, s)
  else
    let err := dev_send frame s in
    if err <? 0 then (err, set_iface (count_txerr (iface s)) s)
    else let s := set_wire (wire s ++ [frame]) s in (0, set_iface (count_tx (iface s)) s).

(** ** ARP (arp.c) *)

Definition ARP_HRD_ETHER : Z := 1.
Definition ARP_OP_REQUEST : Z := 1.
Definition ARP_OP_REPLY : Z := 2.
Definition ARP_LEN : nat := 42.
Definition ARP_TRIES : nat := 3.

Definition no_arp : arp_entry_ := mk_arp 0 (replicate 6 0) 0 false.
Definition arp_init (s : net) : net := set_reply false 0 (set_cache (replicate ARP_ENTRIES no_arp) s).
Definition age_ms (now : Z) (e : arp_entry_) : Z := u32 (u32 (now - a_stamp e) * (1000 / HZ)).
Definition invalid (e : arp_entry_) : arp_entry_ := mk_arp (a_addr e) (a_mac e) (a_stamp e) false.

Definition lookup_at (c : list arp_entry_) (addr : Z) : option nat :=
  find_idx (fun e => a_valid e && (a_addr e =? addr)) c.
(** The entry, unless it has grown too old: then it is thrown out. *)
Definition lookup (addr : Z) (s : net) : option (nat * arp_entry_) * net :=
  match lookup_at (cache s) addr with
  | None => (None, s)
  | Some i =>
      match cache s !! i with
      | None => (None, s)
      | Some e => if ARP_TTL_MS <? age_ms (jiffies s) e
                  then (None, set_cache (<[i := invalid e]> (cache s)) s)
                  else (Some (i, e), s)
      end
  end.
Definition arp_delete (addr : Z) (s : net) : Z * net :=
  let '(r, s) := lookup addr s in
  match r with
  | None => (- ENOENT, s)
  | Some (i, e) => (0, set_cache (<[i := invalid e]> (cache s)) s)
  end.
Definition arp_flush (s : net) : net := set_cache (replicate ARP_ENTRIES no_arp) s.

(** The slot a new address takes: the first free one, or the least recent. *)
Fixpoint oldest_from (c : list arp_entry_) (i oldest : nat) (stamp : Z) : nat :=
  match c with
  | [] => oldest
  | e :: c' => if a_stamp e <? stamp then oldest_from c' (i + 1) i (a_stamp e) else oldest_from c' (i + 1) oldest stamp
  end.
Definition victim (c : list arp_entry_) : nat :=
  match find_idx (fun e => negb (a_valid e)) c with
  | Some i => i
  | None => oldest_from c 0 0 (match c with e :: _ => a_stamp e | [] => 0 end)
  end.
Definition learn (addr : Z) (mac : list Z) (s : net) : net :=
  let '(r, s) := lookup addr s in
  let i := match r with Some (i, _) => i | None => victim (cache s) end in
  set_cache (<[i := mk_arp addr (take 6 mac) (jiffies s) true]> (cache s)) s.

Fixpoint entry_from (now : Z) (c : list arp_entry_) (n : nat) : option (Z * list Z * Z) :=
  match c with
  | [] => None
  | e :: c' =>
      if negb (a_valid e) then entry_from now c' n
      else match n with
           | O => Some (a_addr e, a_mac e, age_ms now e)
           | S n' => entry_from now c' n'
           end
  end.
Definition arp_entry (index : nat) (s : net) : option (Z * list Z * Z) := entry_from (jiffies s) (cache s) index.

Definition send_arp (op target : Z) (target_mac eth_dst : option (list Z)) (s : net) : Z * net :=
  let frame :=
    net_eth_hdr s eth_dst ETH_P_ARP ++ be_bytes 2 ARP_HRD_ETHER ++ be_bytes 2 ETH_P_IP ++ [6; 4] ++ be_bytes 2 op
    ++ take 6 (n_mac (iface s)) ++ be_bytes 4 (n_ip (iface s))
    ++ take 6 (default (replicate 6 0) target_mac) ++ be_bytes 4 target in
  net_tx frame s.
Definition arp_request (addr : Z) (s : net) : Z * net := send_arp ARP_OP_REQUEST addr None None s.

Definition arp_input (frame : list Z) (s : net) : net :=
  let field a n := be (sub frame (ETH_HDR_LEN + a) n) in
  if (length frame <? ARP_LEN)%nat then s
  else if negb (field 0%nat 2%nat =? ARP_HRD_ETHER) || negb (field 2%nat 2%nat =? ETH_P_IP)
       || negb (field 4%nat 1%nat =? 6) || negb (field 5%nat 1%nat =? 4) then s
  else
    let op := field 6%nat 2%nat in
    let sha := sub frame (ETH_HDR_LEN + 8) 6 in
    let spa := field 14%nat 4%nat in
    let tpa := field 24%nat 4%nat in
    let s := if negb (spa =? 0) && (tpa =? n_ip (iface s)) then
               let s := learn spa sha s in
               if (op =? ARP_OP_REPLY) && (spa =? waiting_for s) then set_reply true (waiting_for s) s else s
             else s in
    if (op =? ARP_OP_REQUEST) && negb (n_ip (iface s) =? 0) && (tpa =? n_ip (iface s))
    then snd (send_arp ARP_OP_REPLY spa (Some sha) (Some sha) s)
    else s.

(** The tries of arp_resolve: ask, wait, look. *)
Fixpoint arp_tries (n : nat) (addr : Z) (s : net) : (Z + list Z) * net :=
  match n with
  | O => (inl (- EHOSTUNREACH), s)
  | S n' =>
      let s := set_reply false addr s in
      let '(r, s) := arp_request addr s in
      if r <? 0 then (inl (- EIO), s)
      else
        let s := world s in
        let s := set_reply (got_reply s) 0 s in
        match lookup addr s with
        | (Some (_, e), s) => (inr (a_mac e), s)
        | (None, s) => arp_tries n' addr s
        end
  end.
Definition arp_resolve (addr : Z) (s : net) : (Z + list Z) * net :=
  if (addr =? IP4_BROADCAST) || (addr =? 0) then (inr bcast, s)
  else
    match ROUTE.route_lookup (routes s) addr with
    | (r, None) => (inl r, s)
    | (_, Some (nexthop, _)) =>
        let addr := if nexthop =? 0 then addr else nexthop in
        match lookup addr s with
        | (Some (_, e), s) => (inr (a_mac e), s)
        | (None, s) => arp_tries ARP_TRIES addr s
        end
    end.

(** ** IP (ip.c) *)

Definition ip_header (tot id proto check saddr daddr : Z) : list Z :=
  [69; 0] ++ be_bytes 2 tot ++ be_bytes 2 id ++ [0; 0; 64; proto] ++ be_bytes 2 check ++ be_bytes 4 saddr ++ be_bytes 4 daddr.
Definition MAX_PAYLOAD : nat := NET_MTU - ETH_HDR_LEN - IP_HDR_LEN.

(** The datagram, with a fresh identifier and its checksum filled in. *)
Definition ip_datagram (saddr daddr proto : Z) (payload : list Z) (s : net) : list Z * net :=
  let tot := Z.of_nat (IP_HDR_LEN + length payload) in
  let hdr check := ip_header tot (next_id s) proto check saddr daddr in
  (hdr (net_checksum (hdr 0) 0) ++ payload, set_next_id (u16 (next_id s + 1)) s).

Definition ip_output (dst proto : Z) (payload : list Z) (s : net) : Z * net :=
  let n := iface s in
  if IP4_IS_LOOPBACK dst || (negb (n_ip n =? 0) && (dst =? n_ip n)) then
    if (MAX_PAYLOAD <? length payload)%nat then (- EMSGSIZE, s)
    else
      let eth := net_eth_hdr s (Some (n_mac n)) ETH_P_IP in
      let '(dg, s) := ip_datagram (if IP4_IS_LOOPBACK dst then dst else n_ip n) dst proto payload s in
      net_loopback (eth ++ dg) s
  else if negb (n_up n) then (- ENETDOWN, s)
  else if (n_ip n =? 0) && negb (dst =? IP4_BROADCAST) then (- EADDRNOTAVAIL, s)
  else if (MAX_PAYLOAD <? length payload)%nat then (- EMSGSIZE, s)
  else
    match arp_resolve dst s with
    | (inl err, s) => (err, s)
    | (inr mac, s) =>
        let eth := net_eth_hdr s (Some mac) ETH_P_IP in
        let '(dg, s) := ip_datagram (n_ip (iface s)) dst proto payload s in
        net_tx (eth ++ dg) s
    end.

(** ** ICMP (icmp.c) *)

Definition ICMP_ECHO_REPLY : Z := 0.
Definition ICMP_ECHO_REQUEST : Z := 8.
Definition ICMP_HDR_LEN : nat := 8.
Definition PING_MAX_DATA : nat := 64.

(** A message with its type and checksum rewritten. *)
Definition icmp_fill (type : Z) (buf : list Z) : list Z :=
  let b0 := type :: sub buf 1 1 ++ [0; 0] ++ drop 4 buf in
  type :: sub buf 1 1 ++ be_bytes 2 (net_checksum b0 0) ++ drop 4 buf.

Definition icmp_input (from : Z) (data : list Z) (s : net) : net :=
  if (length data <? ICMP_HDR_LEN)%nat then s
  else if negb (net_checksum data 0 =? 0) then s
  else
    let type := be (sub data 0 1) in
    if type =? ICMP_ECHO_REQUEST then
      let buf := take (ICMP_HDR_LEN + PING_MAX_DATA) data in
      snd (ip_output from IPPROTO_ICMP (icmp_fill ICMP_ECHO_REPLY buf) s)
    else if type =? ICMP_ECHO_REPLY then
      if (from =? ping_peer s) && (be (sub data 4 2) =? ping_id s) && (be (sub data 6 2) =? ping_seq s)
      then set_ping true (ping_peer s) (ping_id s) (ping_seq s) (ping_sent_at s)
             (u32 (u32 (jiffies s - ping_sent_at s) * (1000 / HZ))) s
      else s
    else s.

(** [inr rtt] is the answer; [world] is the wait for it. *)
Definition icmp_ping (to : Z) (s : net) : (Z + Z) * net :=
  if to =? 0 then (inl (- EINVAL), s)
  else
    let seq := u16 (ping_seq s + 1) in
    let body := map (fun i => u8 (97 + Z.of_nat i mod 26)) (List.seq 0 32) in
    let buf := icmp_fill ICMP_ECHO_REQUEST ([8; 0; 0; 0] ++ be_bytes 2 23056 ++ be_bytes 2 seq ++ body) in
    let s := set_ping false to 23056 seq (jiffies s) (ping_rtt_ms s) s in
    let '(err, s) := ip_output to IPPROTO_ICMP buf s in
    if err <? 0 then (inl err, s)
    else
      let s := world s in
      if reply_seen s then (inr (ping_rtt_ms s), s) else (inl (- ETIMEDOUT), s).

(** ** UDP (udp.c) *)

Definition UDP_HDR_LEN : nat := 8.
Definition port_is (port : Z) (b : option (Z * nat)) : bool := match b with Some (p, _) => p =? port | None => false end.
Definition is_free (b : option (Z * nat)) : bool := match b with None => true | Some _ => false end.

Definition udp_bind (port : Z) (h : nat) (s : net) : Z * net :=
  match find_idx (port_is port) (bound s) with
  | Some _ => (- EADDRINUSE, s)
  | None =>
      match find_idx is_free (bound s) with
      | None => (- ENOSPC, s)
      | Some i => (0, set_bound (<[i := Some (port, h)]> (bound s)) s)
      end
  end.
Definition udp_port_in_use (port : Z) (s : net) : bool := bool_decide (find_idx (port_is port) (bound s) <> None).
Definition udp_unbind (port : Z) (s : net) : net :=
  set_bound (map (fun b => if port_is port b then None else b) (bound s)) s.

Definition pseudo_sum (src dst udp_len : Z) : Z :=
  u32 (Z.shiftr src 16 + Z.land src 65535 + Z.shiftr dst 16 + Z.land dst 65535 + IPPROTO_UDP + udp_len).

Definition udp_packet (sport dport check : Z) (data : list Z) : list Z :=
  be_bytes 2 sport ++ be_bytes 2 dport ++ be_bytes 2 (Z.of_nat (UDP_HDR_LEN + length data)) ++ be_bytes 2 check ++ data.
Definition udp_output (dst dport sport : Z) (data : list Z) (s : net) : Z * net :=
  if (MAX_PAYLOAD - UDP_HDR_LEN <? length data)%nat then (- EMSGSIZE, s)
  else
    let src := if IP4_IS_LOOPBACK dst then dst else n_ip (iface s) in
    let total := Z.of_nat (UDP_HDR_LEN + length data) in
    let check := net_checksum (udp_packet sport dport 0 data) (pseudo_sum src dst total) in
    let check := if check =? 0 then 65535 else check in
    ip_output dst IPPROTO_UDP (udp_packet sport dport check data) s.

Definition udp_input (from to : Z) (data : list Z) (s : net) : net :=
  if (length data <? UDP_HDR_LEN)%nat then s
  else
    let ulen := be (sub data 4 2) in
    if (ulen <? Z.of_nat UDP_HDR_LEN) || (Z.of_nat (length data) <? ulen) then s
    else if negb (be (sub data 6 2) =? 0)
            && negb (net_checksum (take (Z.to_nat ulen) data) (pseudo_sum from to ulen) =? 0) then s
    else
      match find_idx (port_is (be (sub data 2 2))) (bound s) with
      | Some i =>
          match bound s !! i with
          | Some (Some (_, h)) =>
              set_delivered (delivered s ++ [(h, from, be (sub data 0 2), sub data UDP_HDR_LEN (Z.to_nat ulen - UDP_HDR_LEN))]) s
          | _ => s
          end
      | None => s
      end.

(** ** Input *)

(** What ip_input hands to a protocol: the protocol, the two addresses and
    the payload; or nothing, with the frame counted as dropped or not. *)
Inductive verdict := Ignore | Martian | Accept (proto saddr daddr : Z) (payload : list Z).
Definition ip_check (frame : list Z) (from_lo : bool) (s : net) : verdict :=
  let n := iface s in
  let ip := drop ETH_HDR_LEN frame in
  let field a k := be (sub ip a k) in
  if (length ip <? IP_HDR_LEN)%nat then Ignore
  else if negb (Z.shiftr (field 0%nat 1%nat) 4 =? 4) then Ignore
  else if negb (Z.land (field 0%nat 1%nat) 15 * 4 =? Z.of_nat IP_HDR_LEN) then Ignore
  else
    let tot := field 2%nat 2%nat in
    if (tot <? Z.of_nat IP_HDR_LEN) || (Z.of_nat (length ip) <? tot) then Ignore
    else if negb (net_checksum (take IP_HDR_LEN ip) 0 =? 0) then Ignore
    else if negb (Z.land (field 6%nat 2%nat) (Z.lor 8192 8191) =? 0) then Ignore
    else
      let saddr := field 12%nat 4%nat in
      let daddr := field 16%nat 4%nat in
      if negb from_lo && (IP4_IS_LOOPBACK daddr || IP4_IS_LOOPBACK saddr) then Martian
      else if negb (daddr =? n_ip n) && negb (IP4_IS_LOOPBACK daddr) && negb (daddr =? IP4_BROADCAST)
              && negb (negb (n_netmask n =? 0) && (daddr =? Z.lor (n_ip n) (u32 (Z.lnot (n_netmask n))))) then Ignore
      else Accept (field 9%nat 1%nat) saddr daddr (sub ip IP_HDR_LEN (Z.to_nat tot - IP_HDR_LEN)).
Definition ip_input (frame : list Z) (from_lo : bool) (s : net) : net :=
  match ip_check frame from_lo s with
  | Ignore => s
  | Martian => set_iface (count_drop (iface s)) s
  | Accept proto saddr daddr payload =>
      if proto =? IPPROTO_ICMP then icmp_input saddr payload s
      else if proto =? IPPROTO_UDP then udp_input saddr daddr payload s
      else if proto =? IPPROTO_TCP then tcp_input saddr daddr payload s
      else s
  end.

(** An interface's counters: eth0's or lo's. *)
Definition on_if (is_lo : bool) (f : netif -> netif) (s : net) : net :=
  if is_lo then set_lo_if (f (lo_if s)) s else set_iface (f (iface s)) s.
Definition net_input (is_lo : bool) (frame : list Z) (s : net) : net :=
  if (length frame <? ETH_HDR_LEN)%nat then on_if is_lo count_drop s
  else
    let s := on_if is_lo count_rx s in
    let type := be (sub frame 12 2) in
    if type =? ETH_P_ARP then if is_lo then on_if true count_drop s else arp_input frame s
    else if type =? ETH_P_IP then ip_input frame is_lo s
    else on_if is_lo count_drop s.

(** Off the card, until it has none or the ring is full: the frames the
    driver gives are [frames], in order. *)
Fixpoint net_drain (frames : list (list Z)) (s : net) : list (list Z) * net :=
  if negb (n_up (iface s)) || negb (has_dev s) then (frames, s)
  else
    let next := next_of RX_RING (head (rx s)) in
    if (next =? tail (rx s))%nat then (frames, s)
    else
      match frames with
      | [] => ([], s)
      | f :: frames' =>
          if (length f =? 0)%nat then (frames', s)
          else net_drain frames' (set_rx (mk_ring (<[head (rx s) := take NET_MTU f]> (slots (rx s))) next (tail (rx s))) s)
      end.

(** The frames this machine sent itself, up to where the ring stood. *)
Fixpoint poll_lo (fuel endp handled : nat) (s : net) : nat * net :=
  match fuel with
  | O => (handled, s)
  | S fuel' =>
      if (tail (lo s) =? endp)%nat then (handled, s)
      else
        let t := tail (lo s) in
        let s := set_lo (mk_ring (slots (lo s)) (head (lo s)) (next_of LO_RING t)) s in
        let frame := default [] (slots (lo s) !! t) in
        poll_lo fuel' endp (handled + 1) (net_input true frame s)
  end.
Fixpoint poll_rx (fuel handled : nat) (s : net) : nat * net :=
  match fuel with
  | O => (handled, s)
  | S fuel' =>
      if (handled <? RX_RING)%nat && negb (tail (rx s) =? head (rx s))%nat then
        let frame := default [] (slots (rx s) !! tail (rx s)) in
        let s := net_input false frame s in
        let s := set_rx (mk_ring (slots (rx s)) (head (rx s)) (next_of RX_RING (tail (rx s)))) s in
        poll_rx fuel' (handled + 1) s
      else (handled, s)
  end.
Definition net_poll (s : net) : nat * net :=
  let '(handled, s) := poll_lo LO_RING (head (lo s)) 0 s in
  poll_rx RX_RING handled s.
End stack.

(** ** The checksum as one's complement arithmetic *)

Definition is_byte (x : Z) : Prop := 0 <= x < 256.
(** The sum of the 16-bit words, an odd last byte being a high half. *)
Fixpoint words_sum (p : list Z) : Z :=
  match p with
  | a :: b :: p' => a * 256 + b + words_sum p'
  | [a] => a * 256
  | [] => 0
  end.
(** A sum folded to 16 bits: 0 only for 0, and otherwise modulo 65535. *)
Definition ones (x : Z) : Z := if x =? 0 then 0 else (x - 1) mod 65535 + 1.

Lemma shl8 a : 0 <= a < 256 -> Z.shiftl a 8 = a * 256.
Proof. intros _. by rewrite Z.shiftl_mul_pow2. Qed.
Lemma lor_word a b : is_byte a -> is_byte b -> Z.lor (Z.shiftl a 8) b = a * 256 + b.
Proof.
  unfold is_byte. intros Ha Hb. rewrite <- Z.add_lor_land, (Z.shiftl_mul_pow2 a 8) by lia. change (2 ^ 8) with 256.
  enough (Z.land (a * 256) b = 0) by lia. apply Z.bits_inj'. intros n Hn. rewrite Z.land_spec, Z.bits_0.
  destruct (Z.ltb_spec n 8).
  - change 256 with (2 ^ 8). rewrite Z.mul_pow2_bits_low by lia. done.
  - rewrite <- (Z.mod_small b (2 ^ 8)) by lia. by rewrite Z.mod_pow2_bits_high, andb_false_r by lia.
Qed.
Lemma pairs_ind (P : list Z -> Prop) :
  P [] -> (forall a, P [a]) -> (forall a b p, P p -> P (a :: b :: p)) -> forall p, P p.
Proof.
  intros H0 H1 H2. fix IH 1. intros [|a [|b p]]; [exact H0|apply H1|apply H2, IH].
Qed.
Lemma words_sum_bound p : Forall is_byte p -> 0 <= words_sum p <= 65535 * Z.of_nat (length p).
Proof.
  induction p as [|a|a b p IH] using pairs_ind; cbn [words_sum length]; intros Hp; [lia| |].
  - apply Forall_cons in Hp as [Ha _]. unfold is_byte in Ha. lia.
  - apply Forall_cons in Hp as [Ha Hp]. apply Forall_cons in Hp as [Hb Hp]. specialize (IH Hp). unfold is_byte in *. lia.
Qed.
Lemma words_sum_app p q : Nat.even (length p) = true -> words_sum (p ++ q) = words_sum p + words_sum q.
Proof.
  induction p as [|a|a b p IH] using pairs_ind; intros He; [done|done|]. cbn [app words_sum]. rewrite IH by done. lia.
Qed.
Lemma words_sum_be2 c q : 0 <= c < 65536 -> words_sum (be_bytes 2 c ++ q) = c + words_sum q.
Proof.
  intros Hc. pose proof (be_be_bytes 2 c) as E. change (256 ^ Z.of_nat 2) with 65536 in E. rewrite Z.mod_small in E by lia.
  rewrite words_sum_app by done. rewrite <- E at 2. cbn [be_bytes words_sum]. unfold be. cbn [foldl]. lia.
Qed.
Lemma sum_words_spec p start :
  Forall is_byte p -> 0 <= start -> start + words_sum p < 4294967296 -> sum_words p start = start + words_sum p.
Proof.
  revert start. induction p as [|a|a b p IH] using pairs_ind; intros start Hp Hs Hb; cbn [sum_words words_sum] in *; [lia| |].
  - apply Forall_cons in Hp as [Ha _]. unfold is_byte in Ha. rewrite shl8 by done. apply u32_small. lia.
  - apply Forall_cons in Hp as [Ha Hp]. apply Forall_cons in Hp as [Hb' Hp]. rewrite lor_word by done.
    pose proof (words_sum_bound p Hp). unfold is_byte in *. rewrite u32_small by lia. rewrite IH by (done || lia). lia.
Qed.
Lemma fold_once x : 65536 <= x < 4294967296 ->
  u32 (Z.land x 65535 + Z.shiftr x 16) = x mod 65536 + x / 65536.
Proof.
  intros Hx. rewrite Z.shiftr_div_pow2 by lia. change (2 ^ 16) with 65536. change 65535 with (Z.ones 16).
  rewrite Z.land_ones by lia. change (2 ^ 16) with 65536. apply u32_small. Z.div_mod_to_equations. lia.
Qed.
Lemma fold_sum_spec x : 0 <= x < 4294967296 -> fold_sum 3 x = ones x.
Proof.
  assert (Hsmall : forall fuel y, 0 <= y < 65536 -> fold_sum fuel y = y).
  { intros [|fuel] y Hy; cbn [fold_sum]; [done|]. rewrite Z.shiftr_div_pow2 by lia. change (2 ^ 16) with 65536.
    by rewrite Z.div_small by lia. }
  assert (Hstep : forall fuel y, 65536 <= y < 4294967296 -> fold_sum (S fuel) y = fold_sum fuel (y mod 65536 + y / 65536)).
  { intros fuel y Hy. cbn [fold_sum]. rewrite fold_once by done. rewrite Z.shiftr_div_pow2 by lia. change (2 ^ 16) with 65536.
    destruct (Z.eqb_spec (y / 65536) 0); [|done]. Z.div_mod_to_equations. lia. }
  assert (Hones : forall y, 65536 <= y < 4294967296 -> ones (y mod 65536 + y / 65536) = ones y).
  { intros y Hy. unfold ones. destruct (Z.eqb_spec y 0); [lia|].
    destruct (Z.eqb_spec (y mod 65536 + y / 65536) 0); [Z.div_mod_to_equations; lia|]. f_equal.
    pose proof (Z.div_mod y 65536 ltac:(lia)).
    replace (y - 1) with (y mod 65536 + y / 65536 - 1 + y / 65536 * 65535) by lia. by rewrite Z_mod_plus_full. }
  assert (Hid : forall y, 0 <= y < 65536 -> ones y = y).
  { intros y Hy. unfold ones. destruct (Z.eqb_spec y 0); [done|]. rewrite Z.mod_small by lia. lia. }
  intros Hx. destruct (decide (x < 65536)); [rewrite Hsmall, Hid; lia|].
  rewrite Hstep, <- (Hones x) by lia. set (y := x mod 65536 + x / 65536).
  assert (0 <= y < 131071) by (subst y; Z.div_mod_to_equations; lia).
  destruct (decide (y < 65536)); [rewrite Hsmall, Hid; lia|].
  rewrite Hstep, <- (Hones y) by lia. set (z := y mod 65536 + y / 65536).
  assert (0 <= z < 65536) by (subst z; Z.div_mod_to_equations; lia). rewrite Hsmall, Hid; lia.
Qed.
Lemma net_checksum_spec p start :
  Forall is_byte p -> 0 <= start -> start + words_sum p < 4294967296 ->
  net_checksum p start = 65535 - ones (start + words_sum p).
Proof.
  intros Hp Hs Hb. pose proof (words_sum_bound p Hp). unfold net_checksum. rewrite sum_words_spec, fold_sum_spec by (done || lia).
  assert (0 <= ones (start + words_sum p) < 65536).
  { unfold ones. zcase; [lia|]. pose proof (Z.mod_pos_bound (start + words_sum p - 1) 65535). lia. }
  unfold u16, Z.lnot. rewrite <- (Z_mod_plus_full _ 1). rewrite Z.mod_small; lia.
Qed.

(** A field filled with the checksum makes the whole sum to zero, and one that
    is all ones instead of zero does too. *)
Lemma checksum_fills x c :
  0 <= x -> c = 65535 - ones x \/ (ones x = 65535 /\ c = 65535) -> ones (x + c) = 65535.
Proof.
  intros Hx Hc. assert (Hm : exists k, x + c = 65535 * k /\ 0 < k).
  { unfold ones in Hc. destruct (Z.eqb_spec x 0) as [->|Hne].
    - exists 1. destruct Hc as [->|[? _]]; lia.
    - pose proof (Z.div_mod (x - 1) 65535 ltac:(lia)). pose proof (Z.mod_pos_bound (x - 1) 65535 ltac:(lia)).
      pose proof (Z.div_pos (x - 1) 65535 ltac:(lia) ltac:(lia)).
      destruct Hc as [->|[Hm ->]]; [exists ((x - 1) / 65535 + 1)|exists ((x - 1) / 65535 + 2)]; lia. }
  destruct Hm as (k & -> & Hk). unfold ones. destruct (Z.eqb_spec (65535 * k) 0); [lia|].
  replace (65535 * k - 1) with (65534 + (k - 1) * 65535) by lia. by rewrite Z_mod_plus_full.
Qed.

(** ** What is built is what is parsed *)

Definition is_u16 (x : Z) : Prop := 0 <= x < 65536.
Definition is_u32 (x : Z) : Prop := 0 <= x < 4294967296.

Lemma be_bytes_bytes n x : Forall is_byte (be_bytes n x).
Proof. apply be_bytes_range. Qed.
Lemma be2 x : is_u16 x -> be (be_bytes 2 x) = x.
Proof. intros Hx. rewrite be_be_bytes. apply Z.mod_small, Hx. Qed.
Lemma be4 x : is_u32 x -> be (be_bytes 4 x) = x.
Proof. intros Hx. rewrite be_be_bytes. apply Z.mod_small, Hx. Qed.

Lemma ip_header_bytes tot id proto check saddr daddr : is_byte proto -> Forall is_byte (ip_header tot id proto check saddr daddr).
Proof.
  intros Hp. unfold ip_header. repeat (apply Forall_app; split); try apply be_bytes_bytes;
    repeat (apply Forall_cons; split); try apply Forall_nil; unfold is_byte in *; (done || lia).
Qed.
Lemma length_ip_header tot id proto check saddr daddr : length (ip_header tot id proto check saddr daddr) = 20%nat.
Proof. reflexivity. Qed.

Lemma ip_header_checks tot id proto saddr daddr :
  is_byte proto -> net_checksum (ip_header tot id proto (net_checksum (ip_header tot id proto 0 saddr daddr) 0) saddr daddr) 0 = 0.
Proof.
  intros Hp.
  assert (Hsum : forall c, is_u16 c -> words_sum (ip_header tot id proto c saddr daddr) = words_sum (ip_header tot id proto 0 saddr daddr) + c).
  { intros c Hc. set (A := [69; 0] ++ be_bytes 2 tot ++ be_bytes 2 id ++ [0; 0; 64; proto]).
    set (B := be_bytes 4 saddr ++ be_bytes 4 daddr).
    assert (E : forall c, ip_header tot id proto c saddr daddr = A ++ be_bytes 2 c ++ B) by (intros; reflexivity).
    rewrite !E, !(words_sum_app A) by reflexivity. rewrite !words_sum_be2 by (unfold is_u16 in *; lia). lia. }
  set (x := words_sum (ip_header tot id proto 0 saddr daddr)).
  assert (Hx : 0 <= x <= 65535 * 20).
  { pose proof (words_sum_bound _ (ip_header_bytes tot id proto 0 saddr daddr Hp)) as H. rewrite length_ip_header in H. subst x. lia. }
  rewrite (net_checksum_spec (ip_header tot id proto 0 saddr daddr)) by (try apply ip_header_bytes; try lia; done).
  change (0 + words_sum (ip_header tot id proto 0 saddr daddr)) with (0 + x). rewrite Z.add_0_l.
  assert (Hc : is_u16 (65535 - ones x)).
  { unfold is_u16, ones. zcase; [lia|]. pose proof (Z.mod_pos_bound (x - 1) 65535). lia. }
  rewrite net_checksum_spec; [|by apply ip_header_bytes|lia|].
  - rewrite Z.add_0_l, Hsum by done. fold x. rewrite checksum_fills; [done|lia|by left].
  - rewrite Hsum by done. fold x. unfold is_u16 in Hc. lia.
Qed.

Lemma ip_check_built eth saddr daddr proto payload s s0 from_lo :
  length eth = 14%nat -> is_byte proto -> is_u32 saddr -> is_u32 daddr -> (length payload <= MAX_PAYLOAD)%nat ->
  (from_lo = true \/ IP4_IS_LOOPBACK daddr = false /\ IP4_IS_LOOPBACK saddr = false) ->
  IP4_IS_LOOPBACK daddr = true \/ daddr = n_ip (iface s) ->
  ip_check (eth ++ fst (ip_datagram saddr daddr proto payload s0)) from_lo s = Accept proto saddr daddr payload.
Proof.
  intros He Hp Hsa Hda Hl Hlo Hus. unfold ip_datagram. cbn [fst].
  set (tot := Z.of_nat (IP_HDR_LEN + length payload)). set (c := net_checksum _ 0).
  set (hdr := ip_header tot (next_id s0) proto c saddr daddr). unfold ip_check.
  assert (Ed : drop ETH_HDR_LEN (eth ++ hdr ++ payload) = hdr ++ payload) by (rewrite drop_app_length' by done; done).
  rewrite Ed. rewrite length_app. change (length hdr) with 20%nat.
  destruct (Nat.ltb_spec (20 + length payload) IP_HDR_LEN) as [?|_]; [unfold IP_HDR_LEN in *; lia|].
  change (sub (hdr ++ payload) 0 1) with [69]. change (be [69]) with 69.
  change (negb (Z.shiftr 69 4 =? 4)) with false. change (negb (Z.land 69 15 * 4 =? Z.of_nat IP_HDR_LEN)) with false. cbv iota.
  change (sub (hdr ++ payload) 2 2) with (be_bytes 2 tot).
  assert (Htot : is_u16 tot) by (unfold is_u16, tot, MAX_PAYLOAD, NET_MTU, ETH_HDR_LEN, IP_HDR_LEN in *; lia).
  rewrite (be2 tot Htot). replace (tot <? Z.of_nat IP_HDR_LEN) with false by (symmetry; apply Z.ltb_ge; unfold tot; lia).
  replace (Z.of_nat (20 + length payload) <? tot) with false by (symmetry; apply Z.ltb_ge; unfold tot, IP_HDR_LEN; lia).
  cbn [orb]. change (take IP_HDR_LEN (hdr ++ payload)) with hdr.
  replace (net_checksum hdr 0 =? 0) with true by (symmetry; apply Z.eqb_eq; by apply ip_header_checks). cbn [negb].
  change (sub (hdr ++ payload) 6 2) with [0; 0]. change (be [0; 0]) with 0. change (Z.land 0 (Z.lor 8192 8191)) with 0. cbn [Z.eqb negb].
  change (sub (hdr ++ payload) 12 4) with (be_bytes 4 saddr). change (sub (hdr ++ payload) 16 4) with (be_bytes 4 daddr).
  change (sub (hdr ++ payload) 9 1) with [proto]. rewrite !be4 by done.
  assert (Em : negb from_lo && (IP4_IS_LOOPBACK daddr || IP4_IS_LOOPBACK saddr) = false).
  { destruct Hlo as [->|[-> ->]]; [done|]. by destruct from_lo. }
  rewrite Em.
  assert (Eu : negb (daddr =? n_ip (iface s)) && negb (IP4_IS_LOOPBACK daddr) = false).
  { destruct Hus as [->| ->]; [by rewrite andb_false_r|]. by rewrite Z.eqb_refl. }
  rewrite Eu. cbn [andb]. change (be [proto]) with proto. f_equal. unfold tot. rewrite Nat2Z.id.
  replace (IP_HDR_LEN + length payload - IP_HDR_LEN)%nat with (length payload) by lia.
  unfold sub. change (drop IP_HDR_LEN (hdr ++ payload)) with payload. by apply take_ge.
Qed.

Lemma pseudo_sum_bound src dst n :
  is_u32 src -> is_u32 dst -> 0 <= n < 65536 -> 0 <= pseudo_sum src dst n < 400000.
Proof.
  unfold is_u32, pseudo_sum, IPPROTO_UDP. intros Hs Hd Hn. rewrite !Z.shiftr_div_pow2 by lia. change (2 ^ 16) with 65536.
  change 65535 with (Z.ones 16). rewrite !Z.land_ones by lia. change (2 ^ 16) with 65536.
  assert (0 <= src / 65536 + src mod 65536 + dst / 65536 + dst mod 65536 + 17 + n < 400000) by (Z.div_mod_to_equations; lia).
  rewrite u32_small; lia.
Qed.
Lemma udp_packet_bytes sport dport check data : Forall is_byte data -> Forall is_byte (udp_packet sport dport check data).
Proof. intros Hd. unfold udp_packet. repeat (apply Forall_app; split); try apply be_bytes_bytes. done. Qed.
Lemma length_udp_packet sport dport check data : length (udp_packet sport dport check data) = (8 + length data)%nat.
Proof. reflexivity. Qed.

Definition udp_check (src dst sport dport : Z) (data : list Z) : Z :=
  let check := net_checksum (udp_packet sport dport 0 data) (pseudo_sum src dst (Z.of_nat (UDP_HDR_LEN + length data))) in
  if check =? 0 then 65535 else check.
Lemma udp_check_spec src dst sport dport data :
  is_u32 src -> is_u32 dst -> Forall is_byte data -> (length data <= MAX_PAYLOAD - UDP_HDR_LEN)%nat ->
  let c := udp_check src dst sport dport data in
  is_u16 c /\ c <> 0 /\
  net_checksum (udp_packet sport dport c data) (pseudo_sum src dst (Z.of_nat (UDP_HDR_LEN + length data))) = 0.
Proof.
  intros Hs Hd Hb Hl c. unfold MAX_PAYLOAD, NET_MTU, ETH_HDR_LEN, IP_HDR_LEN, UDP_HDR_LEN in Hl.
  set (n := Z.of_nat (UDP_HDR_LEN + length data)). assert (Hn : 8 <= n <= 1480) by (unfold n, UDP_HDR_LEN; lia).
  pose proof (pseudo_sum_bound src dst n Hs Hd ltac:(lia)) as Hps.
  set (A := be_bytes 2 sport ++ be_bytes 2 dport ++ be_bytes 2 n).
  assert (E : forall c, udp_packet sport dport c data = A ++ be_bytes 2 c ++ data) by (intros; reflexivity).
  assert (Hsum : forall c, is_u16 c -> words_sum (udp_packet sport dport c data) = words_sum (udp_packet sport dport 0 data) + c).
  { intros c' Hc'. rewrite !E, !(words_sum_app A) by reflexivity. rewrite !words_sum_be2 by (unfold is_u16 in *; lia). lia. }
  set (x := pseudo_sum src dst n + words_sum (udp_packet sport dport 0 data)).
  pose proof (words_sum_bound _ (udp_packet_bytes sport dport 0 data Hb)) as Hw. rewrite length_udp_packet in Hw.
  assert (Hx : 0 <= x < 100000000) by (unfold x; lia).
  assert (Hc0 : net_checksum (udp_packet sport dport 0 data) (pseudo_sum src dst n) = 65535 - ones x).
  { apply net_checksum_spec; [by apply udp_packet_bytes|lia|fold x; lia]. }
  assert (Ho : 0 <= ones x <= 65535).
  { unfold ones. zcase; [lia|]. pose proof (Z.mod_pos_bound (x - 1) 65535). lia. }
  assert (Hc : c = 65535 - ones x \/ (ones x = 65535 /\ c = 65535)).
  { unfold c, udp_check. fold n. rewrite Hc0. destruct (Z.eqb_spec (65535 - ones x) 0); [right; split; lia|by left]. }
  assert (Hcr : is_u16 c /\ c <> 0).
  { unfold is_u16. unfold c, udp_check. fold n. rewrite Hc0. destruct (Z.eqb_spec (65535 - ones x) 0); lia. }
  destruct Hcr as [Hcr Hcz]. split; [done|]. split; [done|].
  rewrite net_checksum_spec; [|by apply udp_packet_bytes|lia|].
  - rewrite Hsum by done. rewrite Z.add_assoc. fold x. rewrite checksum_fills; [done|lia|done].
  - rewrite Hsum by done. unfold is_u16 in Hcr. unfold x in Hx. lia.
Qed.

Lemma udp_input_built s from to sport dport data i h :
  is_u32 from -> is_u32 to -> is_u16 sport -> is_u16 dport -> Forall is_byte data ->
  (length data <= MAX_PAYLOAD - UDP_HDR_LEN)%nat ->
  find_idx (port_is dport) (bound s) = Some i -> bound s !! i = Some (Some (dport, h)) ->
  udp_input from to (udp_packet sport dport (udp_check from to sport dport data) data) s
  = set_delivered (delivered s ++ [(h, from, sport, data)]) s.
Proof.
  intros Hf Ht Hsp Hdp Hb Hl Hi Hbi. destruct (udp_check_spec from to sport dport data Hf Ht Hb Hl) as (Hc & Hcz & Hck).
  set (c := udp_check from to sport dport data) in *. set (p := udp_packet sport dport c data) in *.
  unfold udp_input. change (length p) with (8 + length data)%nat.
  destruct (Nat.ltb_spec (8 + length data) UDP_HDR_LEN) as [?|_]; [unfold UDP_HDR_LEN in *; lia|].
  set (n := Z.of_nat (UDP_HDR_LEN + length data)) in *.
  change (sub p 4 2) with (be_bytes 2 n). change (sub p 6 2) with (be_bytes 2 c). change (sub p 2 2) with (be_bytes 2 dport).
  change (sub p 0 2) with (be_bytes 2 sport). unfold MAX_PAYLOAD, NET_MTU, ETH_HDR_LEN, IP_HDR_LEN, UDP_HDR_LEN in Hl.
  assert (Hn : n = 8 + Z.of_nat (length data)) by (unfold n, UDP_HDR_LEN; lia).
  rewrite !be2 by (unfold is_u16 in *; lia || done).
  replace (n <? Z.of_nat UDP_HDR_LEN) with false by (symmetry; apply Z.ltb_ge; unfold UDP_HDR_LEN; lia).
  replace (Z.of_nat (8 + length data) <? n) with false by (symmetry; apply Z.ltb_ge; lia). cbn [orb].
  replace (take (Z.to_nat n) p) with p by (rewrite take_ge; [done|]; unfold p; rewrite length_udp_packet; lia).
  rewrite Hck. cbn [Z.eqb negb]. rewrite andb_false_r. rewrite Hi, Hbi. do 4 f_equal.
  unfold sub. change (drop UDP_HDR_LEN p) with data. rewrite take_ge; [done|]. unfold UDP_HDR_LEN. lia.
Qed.

Lemma eth_type (m1 m2 rest : list Z) type :
  length m1 = 6%nat -> length m2 = 6%nat -> is_u16 type -> be (sub ((m1 ++ m2 ++ be_bytes 2 type) ++ rest) 12 2) = type.
Proof.
  intros H1 H2 Ht. unfold sub. rewrite !(app_assoc m1), <- app_assoc, drop_app_length' by (rewrite length_app; lia).
  change (take 2 (be_bytes 2 type ++ rest)) with (be_bytes 2 type). by apply be2.
Qed.
Lemma next_of_ne n i : (1 < n)%nat -> (i < n)%nat -> next_of n i <> i /\ (next_of n i < n)%nat.
Proof.
  intros Hn Hi. unfold next_of. destruct (decide (i + 1 < n)%nat); [rewrite Nat.mod_small by lia; lia|].
  replace (i + 1)%nat with n by lia. rewrite Nat.Div0.mod_same. lia.
Qed.

Section delivery.
Variable dev_send : list Z -> net -> Z.
Variable tcp_input : Z -> Z -> list Z -> net -> net.
Variable world : net -> net.

(** A datagram to this machine goes on the loopback ring. *)
Definition local_dst (s : net) (dst : Z) : Prop :=
  IP4_IS_LOOPBACK dst = true \/ (n_ip (iface s) <> 0 /\ dst = n_ip (iface s)).
Definition local_src (s : net) (dst : Z) : Z := if IP4_IS_LOOPBACK dst then dst else n_ip (iface s).
Definition local_frame (s : net) (dst proto : Z) (payload : list Z) : list Z :=
  net_eth_hdr s (Some (n_mac (iface s))) ETH_P_IP ++ fst (ip_datagram (local_src s dst) dst proto payload s).
Definition queued (s : net) (frame : list Z) : net :=
  let s := set_next_id (u16 (next_id s + 1)) s in
  let s := set_lo (mk_ring (<[head (lo s) := frame]> (slots (lo s))) (next_of LO_RING (head (lo s))) (tail (lo s))) s in
  set_lo_if (count_tx (lo_if s)) s.

Lemma ip_output_local s dst proto payload :
  local_dst s dst -> (length payload <= MAX_PAYLOAD)%nat -> n_up (lo_if s) = true -> length (n_mac (iface s)) = 6%nat ->
  next_of LO_RING (head (lo s)) <> tail (lo s) ->
  ip_output dev_send world dst proto payload s = (0, queued s (local_frame s dst proto payload)).
Proof.
  intros Hd Hl Hup Hmac Hroom. unfold ip_output.
  assert (E : IP4_IS_LOOPBACK dst || (negb (n_ip (iface s) =? 0) && (dst =? n_ip (iface s))) = true).
  { destruct Hd as [->|[Hne ->]]; [done|]. rewrite Z.eqb_refl. destruct (Z.eqb_spec (n_ip (iface s)) 0); [done|]. by rewrite orb_true_r. }
  rewrite E. destruct (Nat.ltb_spec MAX_PAYLOAD (length payload)); [lia|].
  change (if IP4_IS_LOOPBACK dst then dst else n_ip (iface s)) with (local_src s dst). cbn [ip_datagram].
  unfold net_loopback. cbn [set_next_id lo lo_if]. rewrite Hup. cbn [negb].
  destruct (Nat.eqb_spec (next_of LO_RING (head (lo s))) (tail (lo s))); [done|].
  match goal with |- context [(NET_MTU <? ?n)%nat] => assert (Hn : (n <= NET_MTU)%nat); [|destruct (Nat.ltb_spec NET_MTU n); [lia|done]] end.
  rewrite !length_app, length_ip_header. unfold net_eth_hdr. cbn [default]. rewrite !length_app, !length_take, length_be_bytes.
  unfold MAX_PAYLOAD, NET_MTU, ETH_HDR_LEN, IP_HDR_LEN in *. lia.
Qed.

Lemma poll_lo_step fuel endp handled s :
  tail (lo s) <> endp ->
  poll_lo dev_send tcp_input world (S fuel) endp handled s =
    let t := tail (lo s) in
    let s := set_lo (mk_ring (slots (lo s)) (head (lo s)) (next_of LO_RING t)) s in
    poll_lo dev_send tcp_input world fuel endp (handled + 1)
      (net_input dev_send tcp_input world true (default [] (slots (lo s) !! t)) s).
Proof. intros Hne. cbn [poll_lo]. by destruct (Nat.eqb_spec (tail (lo s)) endp). Qed.
Lemma poll_lo_stop fuel endp handled s :
  tail (lo s) = endp -> poll_lo dev_send tcp_input world fuel endp handled s = (handled, s).
Proof. intros <-. destruct fuel; [done|]. cbn [poll_lo]. by rewrite Nat.eqb_refl. Qed.
Lemma poll_rx_stop fuel handled s :
  tail (rx s) = head (rx s) -> poll_rx dev_send tcp_input world fuel handled s = (handled, s).
Proof. intros E. destruct fuel; [done|]. cbn [poll_rx]. by rewrite E, Nat.eqb_refl, andb_false_r. Qed.

(** Taking a frame off the loopback ring, when it is the only one. *)
Lemma poll_local s frame :
  head (lo s) = tail (lo s) -> (tail (lo s) < LO_RING)%nat -> length (slots (lo s)) = LO_RING -> head (rx s) = tail (rx s) ->
  (forall g, iface g = iface s -> bound g = bound s ->
     lo (net_input dev_send tcp_input world true frame g) = lo g /\ rx (net_input dev_send tcp_input world true frame g) = rx g) ->
  exists g, net_poll dev_send tcp_input world (queued s frame) = (1%nat, net_input dev_send tcp_input world true frame g) /\
    iface g = iface s /\ bound g = bound s /\ delivered g = delivered s /\ wire g = wire s.
Proof.
  intros Hh Ht Hsl Hrx Hkeep. destruct (next_of_ne LO_RING (tail (lo s)) ltac:(unfold LO_RING; lia) Ht) as [Hne Hlt].
  unfold net_poll. set (q := queued s frame).
  assert (Eh : head (lo q) = next_of LO_RING (tail (lo s))) by (unfold q, queued; cbn; by rewrite Hh).
  assert (Et : tail (lo q) = tail (lo s)) by reflexivity.
  assert (Es : slots (lo q) !! tail (lo s) = Some frame).
  { unfold q, queued. cbn [set_lo_if set_lo set_next_id lo slots]. rewrite Hh. apply list_lookup_insert_eq. lia. }
  set (g := set_lo (mk_ring (slots (lo q)) (head (lo q)) (next_of LO_RING (tail (lo q)))) q).
  assert (Ep : poll_lo dev_send tcp_input world LO_RING (head (lo q)) 0 q = (1%nat, net_input dev_send tcp_input world true frame g)).
  { change LO_RING with (S 31) at 1. rewrite poll_lo_step by congruence. cbv zeta. fold g.
    change (slots (lo g)) with (slots (lo q)). rewrite Et, Es. cbn [default]. apply poll_lo_stop.
    destruct (Hkeep g eq_refl eq_refl) as [-> _]. unfold g. cbn [set_lo lo tail]. by rewrite Et, Eh. }
  rewrite Ep. exists g. split; [|done]. apply poll_rx_stop. destruct (Hkeep g eq_refl eq_refl) as [_ ->]. by change (rx g) with (rx s).
Qed.

(** A frame made by ip_output for this machine, taken in by it. *)
Lemma net_input_local s g dst proto payload :
  local_dst s dst -> is_u32 dst -> is_u32 (n_ip (iface s)) -> is_byte proto -> (length payload <= MAX_PAYLOAD)%nat ->
  length (n_mac (iface s)) = 6%nat -> iface g = iface s ->
  net_input dev_send tcp_input world true (local_frame s dst proto payload) g =
    let g := on_if true count_rx g in
    if proto =? IPPROTO_ICMP then icmp_input dev_send world (local_src s dst) payload g
    else if proto =? IPPROTO_UDP then udp_input (local_src s dst) dst payload g
    else if proto =? IPPROTO_TCP then tcp_input (local_src s dst) dst payload g
    else g.
Proof.
  intros Hd Hu Hip Hp Hl Hmac Hg. unfold net_input.
  assert (He : length (net_eth_hdr s (Some (n_mac (iface s))) ETH_P_IP) = 14%nat).
  { unfold net_eth_hdr. change (default bcast (Some (n_mac (iface s)))) with (n_mac (iface s)).
    rewrite !length_app, !length_take, length_be_bytes. lia. }
  assert (Hlen : (ETH_HDR_LEN <= length (local_frame s dst proto payload))%nat).
  { unfold local_frame. rewrite length_app, He. unfold ETH_HDR_LEN. lia. }
  destruct (Nat.ltb_spec (length (local_frame s dst proto payload)) ETH_HDR_LEN); [lia|].
  assert (Et : be (sub (local_frame s dst proto payload) 12 2) = ETH_P_IP).
  { unfold local_frame, net_eth_hdr. change (default bcast (Some (n_mac (iface s)))) with (n_mac (iface s)).
    apply eth_type; [rewrite length_take; lia..|]. unfold is_u16, ETH_P_IP. lia. }
  rewrite Et. change (ETH_P_IP =? ETH_P_ARP) with false. change (ETH_P_IP =? ETH_P_IP) with true. cbv iota zeta.
  unfold ip_input, local_frame. rewrite (ip_check_built _ (local_src s dst) dst proto payload); try done.
  - unfold local_src. by destruct (IP4_IS_LOOPBACK dst).
  - by left.
  - cbn [on_if set_lo_if iface]. rewrite Hg. destruct Hd as [Hd|[_ Hd]]; auto.
Qed.

(** C33: a datagram to this machine arrives. udp_output to a loopback address or
    the machine's own, of at most 1472 bytes, succeeds and puts nothing on the
    wire; the next poll takes the frame through the Ethernet, IP and UDP layers
    (lengths, header checksum, addresses, pseudo-header checksum) and hands the
    handler bound to the port exactly the bytes sent, from the right address
    and port. *)
Theorem udp_loopback_roundtrip s dst dport sport data i h :
  local_dst s dst -> is_u32 dst -> is_u32 (n_ip (iface s)) -> is_u16 sport -> is_u16 dport -> Forall is_byte data ->
  (length data <= 1472)%nat -> length (n_mac (iface s)) = 6%nat -> n_up (lo_if s) = true ->
  head (lo s) = tail (lo s) -> (tail (lo s) < LO_RING)%nat -> length (slots (lo s)) = LO_RING -> head (rx s) = tail (rx s) ->
  find_idx (port_is dport) (bound s) = Some i -> bound s !! i = Some (Some (dport, h)) ->
  exists s1 s2, udp_output dev_send world dst dport sport data s = (0, s1) /\
    net_poll dev_send tcp_input world s1 = (1%nat, s2) /\
    delivered s2 = delivered s ++ [(h, local_src s dst, sport, data)] /\ wire s2 = wire s.
Proof.
  intros Hd Hu Hip Hsp Hdp Hb Hl Hmac Hup Hh Ht Hsl Hrx Hi Hbi.
  assert (Hls : is_u32 (local_src s dst)) by (unfold local_src; by destruct (IP4_IS_LOOPBACK dst)).
  set (payload := udp_packet sport dport (udp_check (local_src s dst) dst sport dport data) data).
  assert (Hpl : (length payload <= MAX_PAYLOAD)%nat).
  { unfold payload. rewrite length_udp_packet. unfold MAX_PAYLOAD, NET_MTU, ETH_HDR_LEN, IP_HDR_LEN. lia. }
  exists (queued s (local_frame s dst IPPROTO_UDP payload)).
  assert (Hin : forall g, iface g = iface s -> bound g = bound s ->
    net_input dev_send tcp_input world true (local_frame s dst IPPROTO_UDP payload) g
    = set_delivered (delivered g ++ [(h, local_src s dst, sport, data)]) (on_if true count_rx g)).
  { intros g Hg Hbg. rewrite net_input_local by (done || (unfold is_byte, IPPROTO_UDP; lia)).
    change (IPPROTO_UDP =? IPPROTO_ICMP) with false. change (IPPROTO_UDP =? IPPROTO_UDP) with true. cbv iota zeta.
    unfold payload. rewrite (udp_input_built _ _ _ sport dport data i h); try done.
    - by cbn [on_if set_lo_if bound]; rewrite Hbg.
    - by cbn [on_if set_lo_if bound]; rewrite Hbg. }
  destruct (poll_local s (local_frame s dst IPPROTO_UDP payload) Hh Ht Hsl Hrx) as (g & Hpoll & Hgi & Hgb & Hgd & Hgw).
  { intros g Hg Hbg. by rewrite Hin. }
  exists (net_input dev_send tcp_input world true (local_frame s dst IPPROTO_UDP payload) g). split; [|split; [done|]].
  - unfold udp_output. destruct (Nat.ltb_spec (MAX_PAYLOAD - UDP_HDR_LEN) (length data)) as [Hlt|_].
    { unfold MAX_PAYLOAD, NET_MTU, ETH_HDR_LEN, IP_HDR_LEN, UDP_HDR_LEN in Hlt. lia. }
    cbv zeta. fold (local_src s dst). fold (udp_check (local_src s dst) dst sport dport data). fold payload.
    apply ip_output_local; try done. rewrite Hh. apply next_of_ne; [unfold LO_RING; lia|done].
  - rewrite Hin by done. cbn [set_delivered delivered wire on_if set_lo_if]. by rewrite Hgd.
Qed.

(** What the wire can reach. A frame from the wire that ip_input hands to a
    protocol is an IPv4 datagram without options that fits in the frame, with a
    correct header checksum and no part of a larger one, addressed to this
    machine or to a broadcast, neither from nor to a loopback address; and what
    is handed on is the bytes after the header up to the datagram's own
    length, all of them inside the frame. *)
Theorem ip_input_guards frame s proto saddr daddr payload :
  ip_check frame false s = Accept proto saddr daddr payload ->
  let ip := drop ETH_HDR_LEN frame in
  let tot := Z.to_nat (be (sub ip 2 2)) in
  (IP_HDR_LEN <= tot <= length frame - ETH_HDR_LEN)%nat /\
  length payload = (tot - IP_HDR_LEN)%nat /\ payload = sub frame (ETH_HDR_LEN + IP_HDR_LEN) (length payload) /\
  net_checksum (take IP_HDR_LEN ip) 0 = 0 /\ Z.land (be (sub ip 6 2)) 16383 = 0 /\
  IP4_IS_LOOPBACK saddr = false /\ IP4_IS_LOOPBACK daddr = false /\
  (daddr = n_ip (iface s) \/ daddr = IP4_BROADCAST \/
   n_netmask (iface s) <> 0 /\ daddr = Z.lor (n_ip (iface s)) (u32 (Z.lnot (n_netmask (iface s))))).
Proof.
  intros H. unfold ip_check in H. cbv zeta in *. set (ip := drop ETH_HDR_LEN frame) in *.
  set (tot := Z.to_nat (be (sub ip 2 2))).
  change (negb false) with true in H. rewrite andb_true_l in H.
  repeat match type of H with (if ?b then _ else _) = _ => destruct b eqn:?; [done|] end. injection H as <- <- <- <-.
  breflect. apply Nat.ltb_ge in Heqb. unfold sub in *. fold ip.
  assert (Hlen : length ip = (length frame - ETH_HDR_LEN)%nat) by (unfold ip; apply length_drop).
  unfold IP_HDR_LEN, ETH_HDR_LEN in *. unfold tot. rewrite length_take, length_drop, Hlen.
  match goal with H : Z.of_nat 20 <= be _ |- _ => rename H into Hlo end.
  match goal with H : be _ <= Z.of_nat (length ip) |- _ => rename H into Hhi end.
  set (t := be (take 2 (drop 2 ip))) in *. split; [lia|]. split; [lia|]. split.
  { rewrite Nat.min_l by lia. unfold ip. by rewrite drop_drop. }
  split; [done|]. split; [by change 16383 with (Z.lor 8192 8191)|]. split; [done|]. split; [done|].
  match goal with H : _ \/ _ |- _ => destruct H as [H|H] end; breflect; [|by right; right].
  match goal with H : _ \/ _ |- _ => destruct H as [H|H] end; breflect; [|by right; left].
  match goal with H : _ \/ _ |- _ => destruct H as [H|H] end; breflect; [by left|congruence].
Qed.

(** ** Polling inside polling

    net_wait polls: the [world] of a request is this same code. [nested n] is
    a wait that polls, [n] polls deep. *)
Fixpoint nested (n : nat) (s : net) : net :=
  match n with O => s | S n' => snd (net_poll dev_send tcp_input (nested n') s) end.
End delivery.

Definition grows (s s' : net) : Prop := (length (wire s) <= length (wire s'))%nat.
#[export] Instance grows_preorder : PreOrder grows.
Proof. split; [intros s; unfold grows; lia|intros a b c; unfold grows; lia]. Qed.

(** Steps that leave the wire alone. *)
Ltac same_wire := unfold grows; cbn [snd on_if set_iface set_lo_if set_lo set_next_id set_delivered set_ping wire]; lia.

Section growing.
#[local] Set Default Proof Using "Type*".
Variable dev_send : list Z -> net -> Z.
Variable tcp_input : Z -> Z -> list Z -> net -> net.
Variable world : net -> net.
Hypothesis tcp_grows : forall a b p s, grows s (tcp_input a b p s).
Hypothesis world_grows : forall s, grows s (world s).

Lemma net_tx_grows frame s : grows s (snd (net_tx dev_send frame s)).
Proof.
  unfold net_tx, grows. destruct (_ || _); [done|]. destruct (dev_send frame s <? 0); [done|].
  cbn [snd set_iface set_wire wire]. rewrite length_app. lia.
Qed.
Lemma lookup_wire addr s : wire (snd (lookup addr s)) = wire s.
Proof.
  unfold lookup. destruct (lookup_at (cache s) addr) as [i|]; [|done]. destruct (cache s !! i) as [e|]; [|done]. by destruct (_ <? _).
Qed.
Lemma lookup_grows addr s : grows s (snd (lookup addr s)).
Proof. unfold grows. by rewrite lookup_wire. Qed.
Lemma learn_grows addr mac s : grows s (learn addr mac s).
Proof.
  unfold learn. pose proof (lookup_grows addr s) as H. destruct (lookup addr s) as [r s']. exact H.
Qed.
Lemma arp_tries_grows n addr s : grows s (snd (arp_tries dev_send world n addr s)).
Proof.
  revert s. induction n as [|n IH]; intros s; [done|]. cbn [arp_tries].
  pose proof (net_tx_grows : forall f g, grows g (snd (net_tx dev_send f g))) as Htx.
  unfold arp_request, send_arp. match goal with |- context [net_tx dev_send ?f ?g] => specialize (Htx f g); destruct (net_tx dev_send f g) as [r s1] end.
  cbn [snd] in Htx. destruct (r <? 0); [exact Htx|].
  pose proof (world_grows s1) as Hw. pose proof (lookup_grows addr (set_reply (got_reply (world s1)) 0 (world s1))) as Hl.
  destruct (lookup addr _) as [[[i e]|] s2]; cbn [snd] in *; unfold grows in *; cbn [set_reply wire] in *; [lia|].
  specialize (IH s2). lia.
Qed.
Lemma arp_resolve_grows addr s : grows s (snd (arp_resolve dev_send world addr s)).
Proof.
  unfold arp_resolve. destruct (_ || _); [done|]. destruct (ROUTE.route_lookup (routes s) addr) as [r [[nh l]|]]; [|done].
  match goal with |- context [lookup ?a s] => pose proof (lookup_grows a s) as Hl; destruct (lookup a s) as [[[i e]|] s1]; [exact Hl|];
    pose proof (arp_tries_grows ARP_TRIES a s1) end. cbn [snd] in *. unfold grows in *. lia.
Qed.
Lemma ip_output_grows dst proto payload s : grows s (snd (ip_output dev_send world dst proto payload s)).
Proof.
  unfold ip_output. destruct (_ || _).
  - destruct (_ <? _)%nat; [done|]. cbn [ip_datagram]. unfold net_loopback.
    repeat case_match; same_wire.
  - do 3 (match goal with |- context [if ?b then _ else _] => destruct b; [done|] end).
    pose proof (arp_resolve_grows dst s) as Hr. destruct (arp_resolve dev_send world dst s) as [[err|mac] s1]; [exact Hr|].
    cbn [ip_datagram]. match goal with |- context [net_tx dev_send ?f ?g] => pose proof (net_tx_grows f g) as Ht end.
    unfold grows in *. cbn [snd set_next_id wire] in *. lia.
Qed.
Lemma icmp_input_grows from data s : grows s (icmp_input dev_send world from data s).
Proof.
  unfold icmp_input. do 2 (match goal with |- context [if ?b then _ else _] => destruct b; [done|] end).
  destruct (_ =? ICMP_ECHO_REQUEST); [apply ip_output_grows|]. destruct (_ =? ICMP_ECHO_REPLY); [|done]. destruct (_ && _); same_wire.
Qed.
Lemma udp_input_grows from to data s : grows s (udp_input from to data s).
Proof. unfold udp_input. repeat case_match; same_wire. Qed.
Lemma arp_input_grows frame s : grows s (arp_input dev_send frame s).
Proof.
  unfold arp_input. do 2 (match goal with |- context [if ?b then _ else _] => destruct b; [done|] end).
  match goal with |- grows s (if _ then snd (send_arp _ _ _ _ _ ?g) else _) => assert (Hg : grows s g) end.
  { destruct (_ && _); [|done]. destruct (_ && _); [|apply learn_grows]. unfold grows. cbn [set_reply wire]. apply learn_grows. }
  match type of Hg with grows _ ?g => generalize dependent g end. intros g Hg.
  destruct (_ && _); [|exact Hg]. etransitivity; [exact Hg|]. apply net_tx_grows.
Qed.
Lemma net_input_grows b frame s : grows s (net_input dev_send tcp_input world b frame s).
Proof.
  unfold net_input. destruct (_ <? _)%nat; [destruct b; same_wire|].
  assert (Hg : grows s (on_if b count_rx s)) by (destruct b; same_wire). etransitivity; [exact Hg|]. clear Hg.
  destruct (_ =? ETH_P_ARP); [destruct b; [same_wire|apply arp_input_grows]|]. destruct (_ =? ETH_P_IP); [|destruct b; same_wire].
  unfold ip_input. destruct (ip_check _ _ _) as [| |proto sa da p]; [same_wire|same_wire|].
  destruct (_ =? _); [apply icmp_input_grows|]. destruct (_ =? _); [apply udp_input_grows|].
  destruct (_ =? _); [apply tcp_grows|done].
Qed.
Lemma poll_lo_grows fuel endp handled s : grows s (snd (poll_lo dev_send tcp_input world fuel endp handled s)).
Proof.
  revert handled s. induction fuel as [|fuel IH]; intros handled s; [done|]. cbn [poll_lo]. destruct (_ =? _)%nat; [done|].
  etransitivity; [|apply IH]. match goal with |- grows s (net_input _ _ _ _ ?f ?g) => pose proof (net_input_grows true f g) as H end. exact H.
Qed.
Lemma poll_rx_grows fuel handled s : grows s (snd (poll_rx dev_send tcp_input world fuel handled s)).
Proof.
  revert handled s. induction fuel as [|fuel IH]; intros handled s; [done|]. cbn [poll_rx]. destruct (_ && _); [|done].
  etransitivity; [|apply IH]. match goal with |- grows s (set_rx _ (net_input _ _ _ _ ?f ?g)) => pose proof (net_input_grows false f g) as H end. exact H.
Qed.
Lemma net_poll_grows s : grows s (snd (net_poll dev_send tcp_input world s)).
Proof.
  unfold net_poll. pose proof (poll_lo_grows LO_RING (head (lo s)) 0 s) as H.
  destruct (poll_lo _ _ _ _ _ _ s) as [k s1]. etransitivity; [exact H|]. apply poll_rx_grows.
Qed.
#[local] Set Default Proof Using "Type".
End growing.

(** An echo request at the front of the card's ring, from a neighbour whose
    hardware address is not known. *)
Record pinged (frame : list Z) (from : Z) (s : net) : Prop := mk_pinged {
  pi_lo : head (lo s) = tail (lo s);
  pi_rx : slots (rx s) !! tail (rx s) = Some frame /\ tail (rx s) <> head (rx s);
  pi_eth : (ETH_HDR_LEN <= length frame)%nat /\ be (sub frame 12 2) = ETH_P_IP;
  pi_ip : exists daddr payload, ip_check frame false s = Accept IPPROTO_ICMP from daddr payload /\
    (ICMP_HDR_LEN <= length payload)%nat /\ net_checksum payload 0 = 0 /\ be (sub payload 0 1) = ICMP_ECHO_REQUEST;
  pi_up : n_up (iface s) = true /\ has_dev s = true /\ n_ip (iface s) <> 0;
  pi_from : from <> n_ip (iface s) /\ from <> 0 /\ from <> IP4_BROADCAST /\ IP4_IS_LOOPBACK from = false;
  pi_route : exists l, ROUTE.route_lookup (routes s) from = (0, Some (0, l));
  pi_unknown : lookup_at (cache s) from = None;
}.

Lemma ip_check_same frame b s s' :
  n_ip (iface s') = n_ip (iface s) -> n_netmask (iface s') = n_netmask (iface s) -> ip_check frame b s' = ip_check frame b s.
Proof. intros E1 E2. unfold ip_check. by rewrite E1, E2. Qed.

Section reentry.
#[local] Set Default Proof Using "Type*".
Variable dev_send : list Z -> net -> Z.
Variable tcp_input : Z -> Z -> list Z -> net -> net.
Hypothesis card_works : forall f s, 0 <= dev_send f s.
Hypothesis tcp_grows : forall a b p s, grows s (tcp_input a b p s).

(** The state in which the request's answer is first waited for. *)
Definition asking (from : Z) (s : net) : net :=
  snd (arp_request dev_send from (set_reply false from (on_if false count_rx s))).

Lemma net_tx_ok frame s :
  n_up (iface s) = true -> has_dev s = true -> net_tx dev_send frame s = (0, set_iface (count_tx (iface s)) (set_wire (wire s ++ [frame]) s)).
Proof.
  intros Hu Hd. unfold net_tx. rewrite Hu, Hd. cbn [negb orb]. pose proof (card_works frame s).
  destruct (Z.ltb_spec (dev_send frame s) 0); [lia|done].
Qed.
Lemma asking_pinged frame from s :
  pinged frame from s -> pinged frame from (asking from s) /\ length (wire (asking from s)) = S (length (wire s)).
Proof.
  intros [H1 H2 H3 H4 [H5 [H6 H7]] H8 H9 H10]. unfold asking, arp_request, send_arp.
  rewrite net_tx_ok by done. cbn [snd]. split.
  - by constructor.
  - cbn [set_iface set_wire wire]. rewrite length_app. cbn [set_reply on_if set_iface wire length]. lia.
Qed.

Lemma arp_tries_asks world n addr s :
  n_up (iface s) = true -> has_dev s = true ->
  arp_tries dev_send world (S n) addr s =
    let s := world (snd (arp_request dev_send addr (set_reply false addr s))) in
    match lookup addr (set_reply (got_reply s) 0 s) with
    | (Some (_, e), s) => (inr (a_mac e), s)
    | (None, s) => arp_tries dev_send world n addr s
    end.
Proof. intros Hu Hd. cbn [arp_tries]. unfold arp_request, send_arp. by rewrite net_tx_ok. Qed.

Lemma poll_rx_step world fuel handled s :
  (handled < RX_RING)%nat -> tail (rx s) <> head (rx s) ->
  poll_rx dev_send tcp_input world (S fuel) handled s =
    let g := net_input dev_send tcp_input world false (default [] (slots (rx s) !! tail (rx s))) s in
    poll_rx dev_send tcp_input world fuel (handled + 1) (set_rx (mk_ring (slots (rx g)) (head (rx g)) (next_of RX_RING (tail (rx g)))) g).
Proof.
  intros Hh Hne. cbn [poll_rx]. destruct (Nat.ltb_spec handled RX_RING); [|lia].
  by destruct (Nat.eqb_spec (tail (rx s)) (head (rx s))).
Qed.

(** The poll that takes the request in polls again, in that state. *)
Lemma poll_reenters world frame from s :
  (forall g, grows g (world g)) -> pinged frame from s ->
  grows (world (asking from s)) (snd (net_poll dev_send tcp_input world s)).
Proof.
  intros Hw [H1 [H2 H2'] [H3 H3'] (d & p & Hc & Hp1 & Hp2 & Hp3) [H5 [H6 H7]] [F1 [F2 [F3 F4]]] [l H9] H10].
  set (s0 := on_if false count_rx s).
  assert (Htries : grows (world (asking from s)) (snd (arp_tries dev_send world ARP_TRIES from s0))).
  { change ARP_TRIES with (S 2). rewrite arp_tries_asks by done. change s0 with (on_if false count_rx s).
    fold (asking from s). cbv zeta. set (s1 := world (asking from s)).
    pose proof (lookup_grows from (set_reply (got_reply s1) 0 s1)) as Hl.
    destruct (lookup from _) as [[[i e]|] s2]; cbn [snd] in *; unfold grows in *; cbn [set_reply wire] in *; [lia|].
    pose proof (arp_tries_grows dev_send world Hw 2 from s2) as Ht. unfold grows in Ht. lia. }
  assert (Hres : grows (world (asking from s)) (snd (arp_resolve dev_send world from s0))).
  { unfold arp_resolve. destruct (Z.eqb_spec from IP4_BROADCAST); [done|]. destruct (Z.eqb_spec from 0); [done|]. cbn [orb].
    change (routes s0) with (routes s). rewrite H9. cbn [Z.eqb]. unfold lookup. change (cache s0) with (cache s). rewrite H10. exact Htries. }
  assert (Hout : grows (world (asking from s)) (snd (ip_output dev_send world from IPPROTO_ICMP
            (icmp_fill ICMP_ECHO_REPLY (take (ICMP_HDR_LEN + PING_MAX_DATA) p)) s0))).
  { unfold ip_output. change (n_ip (iface s0)) with (n_ip (iface s)). change (n_up (iface s0)) with (n_up (iface s)).
    rewrite F4, H5. destruct (Z.eqb_spec from (n_ip (iface s))); [done|]. rewrite andb_false_r. cbn [orb negb].
    destruct (Z.eqb_spec (n_ip (iface s)) 0); [done|]. cbn [andb].
    match goal with |- context [(MAX_PAYLOAD <? length ?b)%nat] => assert (Hlen : (length b <= 80)%nat) end.
    { unfold icmp_fill, sub, ICMP_HDR_LEN, PING_MAX_DATA. cbn [length]. rewrite !length_app, !length_take, !length_drop, length_be_bytes, !length_take. lia. }
    match goal with |- context [(?m <? ?n)%nat] => destruct (Nat.ltb_spec m n) end.
    { unfold MAX_PAYLOAD, NET_MTU, ETH_HDR_LEN, IP_HDR_LEN in *. lia. }
    destruct (arp_resolve dev_send world from s0) as [[err|mac] s1]; [exact Hres|]. cbn [ip_datagram].
    match goal with |- context [net_tx dev_send ?f ?g] => pose proof (net_tx_grows dev_send f g) as Ht end.
    unfold grows in *. cbn [snd set_next_id wire] in *. lia. }
  assert (Hin : grows (world (asking from s)) (net_input dev_send tcp_input world false frame s)).
  { unfold net_input. destruct (Nat.ltb_spec (length frame) ETH_HDR_LEN); [lia|]. rewrite H3'.
    change (ETH_P_IP =? ETH_P_ARP) with false. change (ETH_P_IP =? ETH_P_IP) with true. cbv iota zeta. fold s0.
    unfold ip_input. rewrite (ip_check_same frame false s s0) by done. rewrite Hc.
    change (IPPROTO_ICMP =? IPPROTO_ICMP) with true. cbv iota. unfold icmp_input.
    destruct (Nat.ltb_spec (length p) ICMP_HDR_LEN); [lia|]. rewrite Hp2, Hp3. cbn [Z.eqb negb].
    change (ICMP_ECHO_REQUEST =? ICMP_ECHO_REQUEST) with true. exact Hout. }
  unfold net_poll. rewrite poll_lo_stop by done. change RX_RING with (S 15) at 1.
  rewrite poll_rx_step by (done || (unfold RX_RING; lia)). cbv zeta. rewrite H2. cbn [default]. etransitivity; [exact Hin|].
  match goal with |- grows _ (snd (poll_rx _ _ _ _ _ ?g)) => pose proof (poll_rx_grows dev_send tcp_input world tcp_grows Hw 15 (0 + 1) g) as Hg end.
  exact Hg.
Qed.

(** C34: polling does not end. net_poll moves the card ring's tail on only after
    the frame has been dealt with, and dealing with an echo request from a
    neighbour that is not in the ARP cache waits for an ARP reply, by polling:
    the inner poll finds the same frame and does the same. However deep the
    polls may nest, they nest that deep: a wait that allows [n] nested polls
    sends at least [n] ARP requests before it returns, and the reply to none of
    them is reached behind the frame. *)
Theorem net_poll_reenters frame from s n :
  pinged frame from s -> (length (wire s) + n <= length (wire (nested dev_send tcp_input n s)))%nat.
Proof using card_works tcp_grows.
  assert (Hgrow : forall n g, grows g (nested dev_send tcp_input n g)).
  { intros k. induction k as [|k IH]; intros g; [done|]. cbn [nested]. by apply net_poll_grows. }
  revert s. induction n as [|n IH]; intros s Hp; [cbn [nested]; lia|]. cbn [nested].
  destruct (asking_pinged _ _ _ Hp) as [Hp' Hl]. specialize (IH _ Hp').
  pose proof (poll_reenters (nested dev_send tcp_input n) frame from s (Hgrow n) Hp) as Hg. unfold grows in Hg. lia.
Qed.
#[local] Set Default Proof Using "Type".
End reentry.

(** ** The ARP cache *)

Definition arp_inv (c : list arp_entry_) : Prop :=
  length c = ARP_ENTRIES /\
  forall i j e f, c !! i = Some e -> c !! j = Some f -> a_valid e = true -> a_valid f = true -> a_addr e = a_addr f -> i = j.

Lemma arp_inv_invalidate c i e : arp_inv c -> c !! i = Some e -> arp_inv (<[i := invalid e]> c).
Proof.
  intros [Hl Hu] He. split; [by rewrite length_insert|]. intros j k f g Hj Hk Hf Hg Ha.
  apply list_lookup_insert_Some in Hj as [(<- & <- & _)|[Hj1 Hj2]]; [done|].
  apply list_lookup_insert_Some in Hk as [(<- & <- & _)|[Hk1 Hk2]]; [done|]. by eapply Hu.
Qed.
Lemma arp_inv_store c i addr mac now :
  arp_inv c -> (forall j e, c !! j = Some e -> a_valid e = true -> a_addr e = addr -> j = i) ->
  arp_inv (<[i := mk_arp addr mac now true]> c).
Proof.
  intros [Hl Hu] Hat. split; [by rewrite length_insert|]. intros j k f g Hj Hk Hf Hg Ha.
  apply list_lookup_insert_Some in Hj as [(-> & <- & _)|[Hj1 Hj2]];
    apply list_lookup_insert_Some in Hk as [(-> & <- & _)|[Hk1 Hk2]]; cbn [a_addr] in *.
  - done.
  - symmetry. by eapply Hat.
  - by eapply Hat.
  - by eapply Hu.
Qed.

(** What a look leaves: the cache, less an entry for the address that has grown
    too old; if it finds nothing, no entry for the address is left. *)
Lemma lookup_spec addr s :
  arp_inv (cache s) ->
  let '(r, s') := lookup addr s in
  arp_inv (cache s') /\ jiffies s' = jiffies s /\
  (forall j e, cache s !! j = Some e -> a_addr e <> addr -> cache s' !! j = Some e) /\
  match r with
  | Some (i, e) => s' = s /\ cache s !! i = Some e /\ a_valid e = true /\ a_addr e = addr /\ age_ms (jiffies s) e <= ARP_TTL_MS
  | None => forall j e, cache s' !! j = Some e -> a_valid e = true -> a_addr e <> addr
  end.
Proof.
  intros HI. unfold lookup. destruct (lookup_at (cache s) addr) as [i|] eqn:E.
  - apply find_idx_Some in E as [(e & He & Hv) _]. apply andb_true_iff in Hv as [Hv Ha]. apply Z.eqb_eq in Ha. rewrite He.
    destruct (Z.ltb_spec ARP_TTL_MS (age_ms (jiffies s) e)).
    + cbn [set_cache cache jiffies]. split; [by apply arp_inv_invalidate|]. split; [done|]. split.
      * intros j f Hf Hne. rewrite list_lookup_insert_ne; [done|]. intros <-. congruence.
      * intros j f Hf Hvf Haf. apply list_lookup_insert_Some in Hf as [(<- & <- & _)|[Hne Hf]]; [done|].
        apply Hne. eapply (proj2 HI); [done..|congruence].
    + done.
  - split; [done|]. split; [done|]. split; [done|]. intros j e He Hv Ha. unfold lookup_at in E. rewrite find_idx_None in E.
    apply E in He. rewrite Hv, Ha, Z.eqb_refl in He. done.
Qed.

Lemma oldest_from_spec c i oldest stamp :
  (forall k e, c !! k = Some e -> stamp <= a_stamp e) /\ oldest_from c i oldest stamp = oldest \/
  exists k e, c !! k = Some e /\ oldest_from c i oldest stamp = (i + k)%nat /\ a_stamp e < stamp /\
    forall k' e', c !! k' = Some e' -> a_stamp e <= a_stamp e'.
Proof.
  revert i oldest stamp. induction c as [|x c IH]; intros i oldest stamp; cbn [oldest_from]; [by left|].
  destruct (Z.ltb_spec (a_stamp x) stamp) as [Hlt|Hge].
  - right. destruct (IH (i + 1)%nat i (a_stamp x)) as [[Hall ->]|(k & e & Hk & -> & Hlt' & Hmin)].
    + exists 0%nat, x. split; [done|]. split; [lia|]. split; [done|]. intros [|k] e' He'; [injection He' as <-; lia|by eapply Hall].
    + exists (S k), e. split; [done|]. split; [lia|]. split; [lia|]. intros [|k'] e' He'; [injection He' as <-; lia|by eapply Hmin].
  - destruct (IH (i + 1)%nat oldest stamp) as [[Hall ->]|(k & e & Hk & -> & Hlt' & Hmin)].
    + left. split; [|done]. intros [|k] e' He'; [injection He' as <-; lia|by eapply Hall].
    + right. exists (S k), e. split; [done|]. split; [lia|]. split; [done|]. intros [|k'] e' He'; [injection He' as <-; lia|by eapply Hmin].
Qed.
Lemma victim_spec c :
  length c = ARP_ENTRIES -> exists e, c !! victim c = Some e /\
    (a_valid e = false \/ (Forall (fun f => a_valid f = true) c /\ forall k f, c !! k = Some f -> a_stamp e <= a_stamp f)).
Proof.
  intros Hl. unfold victim. destruct (find_idx _ c) as [i|] eqn:E.
  - apply find_idx_Some in E as [(e & He & Hv) _]. exists e. split; [done|]. left. by apply negb_true_iff.
  - destruct c as [|x c]; [done|]. rewrite find_idx_None in E.
    assert (HF : Forall (fun f => a_valid f = true) (x :: c)).
    { apply Forall_lookup_2. intros k f Hf. apply E in Hf. by apply negb_false_iff. }
    destruct (oldest_from_spec (x :: c) 0 0 (a_stamp x)) as [[Hall ->]|(k & e & Hk & -> & Hlt & Hmin)].
    + exists x. split; [done|]. right. split; [done|]. exact Hall.
    + exists e. split; [exact Hk|]. by right.
Qed.

Lemma learn_spec addr mac s :
  arp_inv (cache s) ->
  exists i, learn addr mac s = set_cache (cache (learn addr mac s)) s /\ arp_inv (cache (learn addr mac s)) /\
    cache (learn addr mac s) !! i = Some (mk_arp addr (take 6 mac) (jiffies s) true) /\
    forall j e, cache s !! j = Some e -> a_valid e = true -> a_addr e <> addr ->
      cache (learn addr mac s) !! j = Some e \/
      (j = i /\ forall k f, cache s !! k = Some f -> a_addr f <> addr -> a_stamp e <= a_stamp f).
Proof.
  intros HI. unfold learn. pose proof (lookup_spec addr s HI) as HL.
  assert (Hset : exists c, snd (lookup addr s) = set_cache c s).
  { unfold lookup. destruct (lookup_at (cache s) addr) as [i|]; [|exists (cache s); by destruct s].
    destruct (cache s !! i) as [e|]; [|exists (cache s); by destruct s]. destruct (_ <? _); [by eexists|exists (cache s); by destruct s]. }
  destruct (lookup addr s) as [r s1]. cbn [snd] in Hset. destruct Hset as [c1 Hs1]. destruct HL as (HI1 & Hj & Hkeep & Hr).
  assert (Hlen : length (cache s1) = ARP_ENTRIES) by apply HI1.
  set (i := match r with Some (i, _) => i | None => victim (cache s1) end). exists i.
  assert (Hi : (i < length (cache s1))%nat).
  { unfold i. destruct r as [[k e]|]; [destruct Hr as (-> & Hk & _); by eapply lookup_lt_Some|].
    destruct (victim_spec (cache s1) Hlen) as (e & He & _). by eapply lookup_lt_Some. }
  split; [by rewrite Hs1|]. cbn [set_cache cache]. split; [|split].
  - apply arp_inv_store; [done|]. intros j e He Hv Ha. unfold i. destruct r as [[k f]|].
    + destruct Hr as (-> & Hk & Hvk & Hak & _). eapply (proj2 HI1); [done..|congruence].
    + by apply (Hr j e) in He.
  - rewrite list_lookup_insert_eq by done. by rewrite Hj.
  - intros j e He Hv Hne. destruct (decide (j = i)) as [->|Hji].
    + right. split; [done|]. intros k f Hf Hfa. pose proof (Hkeep _ _ He Hne) as He1. unfold i in He1, He. destruct r as [[k' f']|].
      * destruct Hr as (-> & Hk & _ & Ha & _). congruence.
      * destruct (victim_spec (cache s1) Hlen) as (e' & He' & [Hinv|[_ Hmin]]); rewrite He1 in He'; injection He' as <-; [congruence|].
        apply (Hmin k). by apply Hkeep.
    + left. rewrite list_lookup_insert_ne by done. by apply Hkeep.
Qed.

Lemma lookup_fresh c addr mac i s :
  arp_inv (cache s) -> cache s !! i = Some (mk_arp addr mac c true) -> jiffies s = c ->
  lookup addr s = (Some (i, mk_arp addr mac c true), s).
Proof.
  intros HI Hi Hj. unfold lookup. assert (lookup_at (cache s) addr = Some i) as ->.
  { unfold lookup_at. destruct (find_idx _ _) as [k|] eqn:E.
    - apply find_idx_Some in E as [(e & He & Hv) _]. apply andb_true_iff in Hv as [Hv Ha]. apply Z.eqb_eq in Ha.
      f_equal. by eapply (proj2 HI).
    - rewrite find_idx_None in E. apply E in Hi. cbn [a_valid a_addr] in Hi. by rewrite Z.eqb_refl in Hi. }
  rewrite Hi. unfold age_ms. cbn [a_stamp]. by rewrite Hj, Z.sub_diag.
Qed.

Section resolving.
Variable dev_send : list Z -> net -> Z.
Variable world : net -> net.
Hypothesis world_inv : forall s, arp_inv (cache s) -> arp_inv (cache (world s)).

(** An answer comes from an entry for the address that is not too old. *)
Definition answers (addr : Z) (mac : list Z) (s : net) : Prop :=
  exists i e, cache s !! i = Some e /\ a_valid e = true /\ a_addr e = addr /\ a_mac e = mac /\ age_ms (jiffies s) e <= ARP_TTL_MS.
Lemma net_tx_cache frame s : cache (snd (net_tx dev_send frame s)) = cache s.
Proof. unfold net_tx. destruct (_ || _); [done|]. by destruct (dev_send frame s <? 0). Qed.
Lemma arp_tries_sound n addr s :
  arp_inv (cache s) ->
  let '(r, s') := arp_tries dev_send world n addr s in
  arp_inv (cache s') /\ match r with inl e => e = - EHOSTUNREACH \/ e = - EIO | inr mac => answers addr mac s' end.
Proof using world_inv.
  revert s. induction n as [|n IH]; intros s HI; cbn [arp_tries]; [auto|].
  unfold arp_request, send_arp. match goal with |- context [net_tx dev_send ?f ?g] => pose proof (net_tx_cache f g) as Hc; destruct (net_tx dev_send f g) as [r s1] end.
  cbn [snd set_reply cache] in Hc. destruct (r <? 0); [rewrite Hc; auto|].
  assert (HI1 : arp_inv (cache (set_reply (got_reply (world s1)) 0 (world s1)))) by (cbn [set_reply cache]; apply world_inv; by rewrite Hc).
  pose proof (lookup_spec addr _ HI1) as HL. destruct (lookup addr _) as [[[i e]|] s2]; destruct HL as (HI2 & _ & _ & Hr).
  - split; [done|]. destruct Hr as (-> & He & Hv & Ha & Hage). by exists i, e.
  - by apply IH.
Qed.

(** The ARP cache gives the hardware address it was last told. It never has
    two live entries for one address; an answer or a request from a neighbour
    is stored where the next look finds it, and puts out no live entry but, when
    there is no free one, the one learned longest ago; and an address that
    arp_resolve gives for a destination is the broadcast address, or that of a
    live entry for the route's next hop, no older than two minutes; every
    failure is -ENETUNREACH, -EIO or -EHOSTUNREACH. *)
Theorem arp_cache_sound addr mac dst s :
  arp_inv (cache s) ->
  (exists i, learn addr mac s = set_cache (cache (learn addr mac s)) s /\ arp_inv (cache (learn addr mac s)) /\
    lookup addr (learn addr mac s) = (Some (i, mk_arp addr (take 6 mac) (jiffies s) true), learn addr mac s) /\
    forall j e, cache s !! j = Some e -> a_valid e = true -> a_addr e <> addr ->
      cache (learn addr mac s) !! j = Some e \/
      (j = i /\ forall k f, cache s !! k = Some f -> a_addr f <> addr -> a_stamp e <= a_stamp f)) /\
  let '(r, s') := arp_resolve dev_send world dst s in
  arp_inv (cache s') /\
  match r with
  | inl e => e = - ENETUNREACH \/ e = - EIO \/ e = - EHOSTUNREACH
  | inr m => m = bcast \/ exists gw l, ROUTE.route_lookup (routes s) dst = (0, Some (gw, l)) /\ answers (if gw =? 0 then dst else gw) m s'
  end.
Proof using world_inv.
  intros HI. split.
  - destruct (learn_spec addr mac s HI) as (i & Hset & HI' & Hi & Hrest). exists i. split; [done|]. split; [done|]. split; [|done].
    apply lookup_fresh; [done|done|]. rewrite Hset. done.
  - unfold arp_resolve. destruct (_ || _); [auto|].
    destruct (ROUTE.route_lookup (routes s) dst) as [r [[gw l]|]] eqn:Er.
    + assert (r = 0) as -> by (unfold ROUTE.route_lookup in Er; by destruct (ROUTE.best_of dst (routes s) None (-1)); injection Er as <-).
      set (hop := if gw =? 0 then dst else gw). pose proof (lookup_spec hop s HI) as HL.
      destruct (lookup hop s) as [[[i e]|] s1]; destruct HL as (HI1 & _ & _ & Hr).
      * split; [done|]. right. exists gw, l. split; [done|]. destruct Hr as (-> & He & Hv & Ha & Hage). by exists i, e.
      * pose proof (arp_tries_sound ARP_TRIES hop s1 HI1) as Ht. destruct (arp_tries _ _ _ _ _) as [[err|m] s2]; destruct Ht as [HI2 Ht].
        -- split; [done|]. tauto.
        -- split; [done|]. right. by exists gw, l.
    + split; [done|]. left. unfold ROUTE.route_lookup in Er. destruct (ROUTE.best_of dst (routes s) None (-1)); by injection Er as <-.
Qed.
End resolving.

(** ** The claims at work: 192.168.1.2, a handler on port 7 *)

Definition card (f : list Z) (s : net) : Z := 0.
Definition no_tcp (a b : Z) (p : list Z) (s : net) : net := s.
Definition eth0 : netif := mk_netif [2; 0; 0; 0; 0; 1] (ROUTE.IP4 192 168 1 2) (ROUTE.IP4 255 255 255 0) (ROUTE.IP4 192 168 1 1) true 0 0 0 0.
Definition lo0 : netif := mk_netif (replicate 6 0) (ROUTE.IP4 127 0 0 1) (ROUTE.IP4 255 0 0 0) 0 true 0 0 0 0.
Definition host : net :=
  mk_net eth0 true lo0 (mk_ring (replicate 16 []) 3 3) (mk_ring (replicate 32 []) 31 31) []
    (ROUTE.route_iface_update ROUTE.route_init (ROUTE.IP4 192 168 1 2) (ROUTE.IP4 255 255 255 0) (ROUTE.IP4 192 168 1 1))
    (replicate 16 no_arp) false 0 [None; Some (7, 4%nat); None; None; None; None; None; None] [] 9 false 0 0 0 0 0 1000.

Lemma udp_loopback_roundtrip_witness :
  exists s1 s2, udp_output card id (ROUTE.IP4 127 0 0 1) 7 1024 [104; 105] host = (0, s1) /\
    net_poll card no_tcp id s1 = (1%nat, s2) /\
    delivered s2 = delivered host ++ [(4%nat, local_src host (ROUTE.IP4 127 0 0 1), 1024, [104; 105])] /\ wire s2 = wire host.
Proof.
  apply (udp_loopback_roundtrip card no_tcp id host (ROUTE.IP4 127 0 0 1) 7 1024 [104; 105] 1 4);
    try reflexivity; try (vm_compute; split; congruence).
  - by left.
  - repeat (apply Forall_cons; split; [unfold is_byte; lia|]). by apply Forall_nil.
  - cbn [length]. lia.
  - vm_compute. lia.
Defined.

(** A frame for the host from 192.168.1.9, an echo request with four bytes. *)
Definition echo_payload : list Z := icmp_fill ICMP_ECHO_REQUEST [8; 0; 0; 0; 0; 1; 0; 2; 1; 2; 3; 4].
Definition echo_frame : list Z :=
  [2; 0; 0; 0; 0; 1; 2; 0; 0; 0; 0; 9; 8; 0] ++
  fst (ip_datagram (ROUTE.IP4 192 168 1 9) (ROUTE.IP4 192 168 1 2) IPPROTO_ICMP echo_payload host).
Lemma ip_input_guards_witness :
  IP4_IS_LOOPBACK (ROUTE.IP4 192 168 1 9) = false /\
  length echo_payload = (Z.to_nat (be (sub (drop ETH_HDR_LEN echo_frame) 2 2)) - IP_HDR_LEN)%nat.
Proof.
  assert (E : ip_check echo_frame false host = Accept IPPROTO_ICMP (ROUTE.IP4 192 168 1 9) (ROUTE.IP4 192 168 1 2) echo_payload)
    by (vm_compute; reflexivity).
  destruct (ip_input_guards _ _ _ _ _ _ E) as (_ & H2 & _ & _ & _ & H6 & _). split; [exact H6|exact H2].
Defined.

Definition pinged_host : net :=
  set_rx (mk_ring (<[3%nat := echo_frame]> (replicate 16 [])) 4 3) host.
Lemma net_poll_reenters_witness :
  pinged echo_frame (ROUTE.IP4 192 168 1 9) pinged_host /\ (1000 <= length (wire (nested card no_tcp 1000 pinged_host)))%nat.
Proof.
  assert (Hp : pinged echo_frame (ROUTE.IP4 192 168 1 9) pinged_host).
  { constructor.
    - reflexivity.
    - split; [vm_compute; reflexivity|vm_compute; congruence].
    - split; [vm_compute; lia|vm_compute; reflexivity].
    - exists (ROUTE.IP4 192 168 1 2), echo_payload. split; [vm_compute; reflexivity|]. split; [vm_compute; lia|].
      split; vm_compute; reflexivity.
    - split; [reflexivity|]. split; [reflexivity|vm_compute; congruence].
    - split; [vm_compute; congruence|]. split; [vm_compute; congruence|]. split; [vm_compute; congruence|vm_compute; reflexivity].
    - exists 0. vm_compute. reflexivity.
    - vm_compute. reflexivity. }
  split; [exact Hp|].
  exact (net_poll_reenters card no_tcp (fun _ _ => Z.le_refl 0) (fun _ _ _ _ => le_n _) echo_frame (ROUTE.IP4 192 168 1 9) pinged_host 1000 Hp).
Defined.

Lemma arp_cache_sound_witness :
  exists i, lookup 5 (learn 5 [1; 2; 3; 4; 5; 6] host) = (Some (i, mk_arp 5 [1; 2; 3; 4; 5; 6] 1000 true), learn 5 [1; 2; 3; 4; 5; 6] host).
Proof.
  assert (HI : arp_inv (cache host)).
  { split; [reflexivity|]. intros i j e f [-> _]%lookup_replicate _ Hv. done. }
  destruct (proj1 (arp_cache_sound card id (fun s H => H) 5 [1; 2; 3; 4; 5; 6] 0 host HI)) as (i & _ & _ & H & _). exists i. exact H.
Defined.

(** An entry learned 49.7 days ago is four milliseconds old. *)
Example arp_age_wraps : age_ms 429496730 (mk_arp 5 [1; 2; 3; 4; 5; 6] 0 true) = 4.
Proof. reflexivity. Qed.
(** An echo of 100 bytes comes back with 64. *)
Example echo_truncated :
  map (fun f => (length f - 42)%nat)
    (wire (icmp_input card id (ROUTE.IP4 192 168 1 1) (icmp_fill ICMP_ECHO_REQUEST ([8; 0; 0; 0; 0; 1; 0; 2] ++ replicate 100 7))
      (learn (ROUTE.IP4 192 168 1 1) [9; 9; 9; 9; 9; 9] host))) = [64%nat].
Proof. vm_compute. reflexivity. Qed.
End NET.
