(* ===== verification/Tcp.v ===== *)
(** * TCP: the code (kernel/net/tcp.c)

    One record per connection with the fields of struct tcpcb, and one for
    what the connections share: the pool of segments held out of order, the
    knobs, the page allocator, the clock, and the segments handed to IP.
    A pointer to a connection is its index in the table. The contents of the
    two rings of a connection are functions of the offset, kept beside the
    address of their pages: the pages of a connection are its own, as
    Pmm.v shows of the allocator. What IP answers for a segment, the random
    numbers and the address of the interface are parameters; a call of
    ip_output does not come back into TCP (see net_poll in Net.v for when the
    code does). The clock stands still during a call. *)

From S2P Require Import Prelude Pmm Route Net.
Local Open Scope Z_scope.

Module TCP.

Definition TCP_FIN : Z := 1.
Definition TCP_SYN : Z := 2.
Definition TCP_RST : Z := 4.
Definition TCP_PSH : Z := 8.
Definition TCP_ACK : Z := 16.
Definition TCP_HDR_LEN : Z := 20.
Definition TCP_MSS : Z := 1400.
Definition RTO_MIN_MS : Z := 200.
Definition RTO_MAX_MS : Z := 8000.
Definition RTO_INITIAL_MS : Z := 1000.
Definition REXMIT_LIMIT : Z := 6.
Definition TIMEWAIT_MS : Z := 60000.
Definition DELACK_MS : Z := 200.
Definition IW : Z := 2 * TCP_MSS.
Definition TCP_SNDBUF : Z := 65536.
Definition TCP_RCVBUF : Z := 131072.
Definition TCP_MAX_CONNS : nat := 32.
Definition TCP_WSCALE : Z := 2.
Definition TCP_SACK_MAX : nat := 8.
Definition TCP_OOO_SLOTS : nat := 64.
Definition TCP_OOO_PER_CB : nat := 24.
Definition ORPHAN_LIMIT_MS : Z := 60000.
Definition TCPOPT_NO_WS : Z := 1.
Definition TCPOPT_NO_TS : Z := 2.
Definition TCPOPT_NO_SACK : Z := 4.
Definition POLLIN : Z := 1.
Definition POLLOUT : Z := 4.
Definition POLLERR : Z := 8.
Definition POLLHUP : Z := 16.
Definition HZ : Z := NET.HZ.

Inductive tcp_state :=
  | CLOSED | LISTEN | SYN_SENT | SYN_RECEIVED | ESTABLISHED | FIN_WAIT_1 | FIN_WAIT_2 | CLOSE_WAIT | CLOSING
  | LAST_ACK | TIME_WAIT.
#[export] Instance tcp_state_eq_dec : EqDecision tcp_state.
Proof. solve_decision. Defined.

(** An entry of the reassembly queue. *)
Record held := mk_held { o_used : bool; o_slot : nat; o_seq : Z; o_len : Z; o_when : Z }.

Record tcpcb := mk_tcpcb {
  used : bool; state : tcp_state;
  local_ip : Z; local_port : Z; remote_ip : Z; remote_port : Z;
  snd_una : Z; snd_nxt : Z; snd_wnd : Z;
  cwnd : Z; ssthresh : Z; dupacks : Z; recover : Z; in_recovery : bool;
  srtt_ms : Z; rttvar_ms : Z; rtt_seq : Z; rtt_start : Z; rtt_timing : bool; rtt_valid : bool;
  rcv_nxt : Z;
  sndbuf : Z; sndring : Z -> Z; sndstart : Z; sndlen : Z; snd_max : Z;
  rcvbuf : Z; rcvring : Z -> Z; rcvhead : Z; rcvtail : Z;
  snd_wscale : Z; rcv_wscale : Z; ts_ok : bool; ts_recent : Z; sack_ok : bool;
  ws_ok : bool; peer_ws : bool; peer_ts : bool; peer_sack : bool;
  sacked : list (Z * Z); high_rxt : Z;
  keepalive : bool; keep_idle_s : Z; keep_intvl_s : Z; keep_cnt : Z; last_rcv : Z; keep_next : Z; keep_probes : Z;
  rexmit_segs : Z; rexmit_bytes : Z; max_snd_wnd : Z; keep_sent : Z;
  rto_ms : Z; rexmit_at : Z; rexmits : Z; timewait_at : Z;
  ooo : list held; unacked_segs : Z; delack_at : Z;
  fin_sent : bool; fin_pending : bool; fin_rcvd : bool; reset : bool; timed_out : bool;
  orphan : bool; orphan_since : Z;
  listener : option nat; pending : bool }.

#[export] Instance tcpcb_fields : Fields tcpcb := fun t => mk_tcpcb
  (used t) (state t) (local_ip t) (local_port t) (remote_ip t) (remote_port t)
  (snd_una t) (snd_nxt t) (snd_wnd t) (cwnd t) (ssthresh t) (dupacks t) (recover t) (in_recovery t)
  (srtt_ms t) (rttvar_ms t) (rtt_seq t) (rtt_start t) (rtt_timing t) (rtt_valid t) (rcv_nxt t)
  (sndbuf t) (sndring t) (sndstart t) (sndlen t) (snd_max t) (rcvbuf t) (rcvring t) (rcvhead t) (rcvtail t)
  (snd_wscale t) (rcv_wscale t) (ts_ok t) (ts_recent t) (sack_ok t) (ws_ok t) (peer_ws t) (peer_ts t) (peer_sack t)
  (sacked t) (high_rxt t) (keepalive t) (keep_idle_s t) (keep_intvl_s t) (keep_cnt t) (last_rcv t) (keep_next t)
  (keep_probes t) (rexmit_segs t) (rexmit_bytes t) (max_snd_wnd t) (keep_sent t) (rto_ms t) (rexmit_at t) (rexmits t)
  (timewait_at t) (ooo t) (unacked_segs t) (delack_at t) (fin_sent t) (fin_pending t) (fin_rcvd t) (reset t)
  (timed_out t) (orphan t) (orphan_since t) (listener t) (pending t).

Definition no_held : held := mk_held false 0 0 0 0.
(** A connection set to zero by memset. *)
Definition zeroed : tcpcb := mk_tcpcb false CLOSED 0 0 0 0 0 0 0 0 0 0 0 false 0 0 0 0 false false 0
  0 (fun _ => 0) 0 0 0 0 (fun _ => 0) 0 0 0 0 false 0 false false false false false [] 0 false 0 0 0 0 0 0 0 0 0 0
  0 0 0 0 (replicate TCP_OOO_PER_CB no_held) 0 0 false false false false false false 0 None false.

(** What the connections share. [sent] is what was handed to IP, oldest
    first: where to, what IP answered, and the segment. *)
Record shared := mk_shared {
  ooo_pool : list (list Z); ooo_used : list bool; ooo_clock : Z;
  loss_every : Z; loss_count : Z; opts_disabled : Z; next_port : Z;
  pages : PMM.pmm; now : Z; sent : list (Z * Z * list Z) }.
#[export] Instance shared_fields : Fields shared := fun g => mk_shared
  (ooo_pool g) (ooo_used g) (ooo_clock g) (loss_every g) (loss_count g) (opts_disabled g) (next_port g) (pages g) (now g)
  (sent g).
Record tcp := mk_tcp { conns : list tcpcb; sh : shared }.

Record tcphdr := mk_tcphdr { h_sport : Z; h_dport : Z; h_seq : Z; h_ack : Z; h_offset : Z; h_flags : Z; h_window : Z }.
Definition is_state (t : tcpcb) (x : tcp_state) : bool := bool_decide (state t = x).
Definition conn (s : tcp) (i : nat) : tcpcb := default zeroed (conns s !! i).
Definition put (i : nat) (t : tcpcb) (g : shared) (s : tcp) : tcp := mk_tcp (<[i := t]> (conns s)) g.

(** ** Sequence numbers *)

Definition seq_le (a b : Z) : bool := s32 (a - b) <=? 0.
Definition seq_ge (a b : Z) : bool := 0 <=? s32 (a - b).
Definition seq_gt (a b : Z) : bool := 0 <? s32 (a - b).
(** (s32)(now - at) >= 0 *)
Definition reached (g : shared) (at_ : Z) : bool := 0 <=? s32 (now g - at_).
Definition ts_now (g : shared) : Z := u32 (now g * (1000 / HZ)).
Definition in_ms (ms : Z) (g : shared) : Z := u32 (now g + u32 (ms * HZ) / 1000).

(** ** Buffers *)

Definition rcv_used (t : tcpcb) : Z := u32 (rcvhead t - rcvtail t) mod TCP_RCVBUF.
Definition rcv_free (t : tcpcb) : Z := TCP_RCVBUF - 1 - rcv_used t.
Definition tcp_available (t : tcpcb) : Z := rcv_used t.
Definition poke (a v : Z) (m : Z -> Z) : Z -> Z := fun x => if x =? a then v else m x.
Fixpoint rcv_put (bs : list Z) (t : tcpcb) : tcpcb :=
  match bs with
  | [] => t
  | b :: bs' =>
      if 0 <? rcv_free t then
        rcv_put bs' (t <| rcvring := poke (rcvhead t) b (rcvring t) |> <| rcvhead := (rcvhead t + 1) mod TCP_RCVBUF |>)
      else t
  end.

(** ** The table *)

Definition tcp_nth (s : tcp) (index : nat) : option nat :=
  omap (fun '(i, t) => if used t then Some i else None) (imap pair (conns s)) !! index.

Definition ooo_release (n : nat) (t : tcpcb) (g : shared) : tcpcb * shared :=
  match ooo t !! n with
  | Some o =>
      if o_used o then
        (t <| ooo := <[n := mk_held false (o_slot o) (o_seq o) (o_len o) (o_when o)]> (ooo t) |>,
         g <| ooo_used := <[o_slot o := false]> (ooo_used g) |>)
      else (t, g)
  | None => (t, g)
  end.
Definition ooo_flush (t : tcpcb) (g : shared) : tcpcb * shared :=
  for_upto TCP_OOO_PER_CB (fun i '(t, g) => ooo_release i t g) (t, g).

Definition tcp_init (s : tcp) : tcp := mk_tcp (replicate TCP_MAX_CONNS zeroed) (sh s).

Definition tcp_alloc (s : tcp) : option nat * tcp :=
  match find_idx (fun t => negb (used t)) (conns s) with
  | Some i =>
      let g := sh s in
      let '(a, p) := PMM.pmm_alloc_pages (TCP_SNDBUF / PMM.PAGE_SIZE) (pages g) in
      let '(b, p) := if a =? 0 then (0, p) else PMM.pmm_alloc_pages (TCP_RCVBUF / PMM.PAGE_SIZE) p in
      if b =? 0 then
        (None, mk_tcp (conns s) (g <| pages := if a =? 0 then p else PMM.pmm_free_pages a (TCP_SNDBUF / PMM.PAGE_SIZE) p |>))
      else
        let t := zeroed <| used := true |> <| rto_ms := RTO_INITIAL_MS |> <| cwnd := IW |> <| ssthresh := 262144 |>
                        <| sndbuf := a |> <| rcvbuf := b |> <| keep_idle_s := 7200 |> <| keep_intvl_s := 75 |>
                        <| keep_cnt := 9 |> in
        (Some i, put i t (g <| pages := p |>) s)
  | None => (None, s)
  end.

Definition tcp_free (t : tcpcb) (g : shared) : tcpcb * shared :=
  let '(t, g) := ooo_flush t g in
  let g := if sndbuf t =? 0 then g
           else g <| pages := PMM.pmm_free_pages (sndbuf t) (TCP_SNDBUF / PMM.PAGE_SIZE) (pages g) |> in
  let g := if rcvbuf t =? 0 then g
           else g <| pages := PMM.pmm_free_pages (rcvbuf t) (TCP_RCVBUF / PMM.PAGE_SIZE) (pages g) |> in
  (t <| sndbuf := 0 |> <| rcvbuf := 0 |> <| used := false |> <| state := CLOSED |>, g).

Definition find (raddr rport lport : Z) (s : tcp) : option nat :=
  match find_idx (fun t => used t && negb (is_state t LISTEN) && (local_port t =? lport) &&
                           (remote_port t =? rport) && (remote_ip t =? raddr)) (conns s) with
  | Some i => Some i
  | None => find_idx (fun t => used t && is_state t LISTEN && (local_port t =? lport)) (conns s)
  end.

(** ** Round trips and the congestion window *)

Definition rtt_update (measured_ms : Z) (t : tcpcb) : tcpcb :=
  let t :=
    if negb (rtt_valid t) then
      t <| srtt_ms := measured_ms |> <| rttvar_ms := measured_ms / 2 |> <| rtt_valid := true |>
    else
      let delta := if measured_ms <? srtt_ms t then srtt_ms t - measured_ms else measured_ms - srtt_ms t in
      t <| rttvar_ms := u32 (3 * rttvar_ms t + delta) / 4 |> <| srtt_ms := u32 (7 * srtt_ms t + measured_ms) / 8 |> in
  let rto := u32 (srtt_ms t + 4 * rttvar_ms t) in
  let rto := if rto <? RTO_MIN_MS then RTO_MIN_MS else rto in
  t <| rto_ms := if RTO_MAX_MS <? rto then RTO_MAX_MS else rto |>.

Definition usable_window (t : tcpcb) : Z := if cwnd t <? snd_wnd t then cwnd t else snd_wnd t.

Definition cwnd_on_ack (acked : Z) (t : tcpcb) : tcpcb :=
  let c :=
    if cwnd t <? ssthresh t then u32 (cwnd t + (if acked <? TCP_MSS then acked else TCP_MSS))
    else
      let inc := TCP_MSS * TCP_MSS / cwnd t in
      u32 (cwnd t + (if inc =? 0 then 1 else inc)) in
  t <| cwnd := if 262144 <? c then 262144 else c |>.

Definition cwnd_on_loss (timeout : bool) (t : tcpcb) : tcpcb :=
  let half := u32 (snd_nxt t - snd_una t) / 2 in
  let t := t <| ssthresh := if half <? 2 * TCP_MSS then 2 * TCP_MSS else half |> in
  if timeout then t <| cwnd := TCP_MSS |> <| in_recovery := false |> <| dupacks := 0 |> else t.

(** ** Segments out of order *)

Definition ooo_get_slot (g : shared) : option nat * shared :=
  match find_idx negb (ooo_used g) with
  | Some i => (Some i, g <| ooo_used := <[i := true]> (ooo_used g) |>)
  | None => (None, g)
  end.

Definition ooo_queue (seq : Z) (data : list Z) (t : tcpcb) (g : shared) : tcpcb * shared :=
  let len := Z.of_nat (length data) in
  if (len =? 0) || (TCP_MSS <? len) then (t, g)
  else if bool_decide (find_idx (fun o => o_used o && (o_seq o =? seq)) (ooo t) <> None) then (t, g)
  else
    match find_idx (fun o => negb (o_used o)) (ooo t) with
    | None => (t, g)
    | Some i =>
        match ooo_get_slot g with
        | (None, g) => (t, g)
        | (Some slot, g) =>
            let old := default [] (ooo_pool g !! slot) in
            let clock := u32 (ooo_clock g + 1) in
            (t <| ooo := <[i := mk_held true slot seq len clock]> (ooo t) |>,
             g <| ooo_pool := <[slot := data ++ drop (length data) old]> (ooo_pool g) |> <| ooo_clock := clock |>)
        end
    end.

(** ** Selective acknowledgements to report *)

(** A run of held data: its start, its end and its latest arrival. *)
Definition run := (Z * Z * Z)%type.
Definition merge_into (r b : run) : run :=
  let '(st, en, wh) := r in
  let '(bs, be, bw) := b in
  (if seq_gt bs st then st else bs, if seq_gt en be then en else be, if bw <? wh then wh else bw).
Definition touches (r b : run) : bool :=
  let '(st, en, _) := r in
  let '(bs, be, _) := b in seq_le st be && seq_ge en bs.

(** The first pass: each segment joins the first run it touches, or is one. *)
Fixpoint add_run (r : run) (blk : list run) : list run :=
  match blk with
  | [] => [r]
  | b :: blk' => if touches r b then merge_into r b :: blk' else b :: add_run r blk'
  end.
Definition runs_of (os : list held) : list run :=
  foldl (fun blk o => if o_used o then add_run (o_seq o, u32 (o_seq o + o_len o), o_when o) blk else blk) [] os.

(** The second pass, over [blk] from [i] and [j]; the last run takes the place
    of one that is merged. *)
Fixpoint merge_runs (fuel : nat) (i j : nat) (blk : list run) : list run :=
  match fuel with
  | O => blk
  | S fuel' =>
      if (length blk <=? i)%nat then blk
      else if (length blk <=? j)%nat then merge_runs fuel' (S i) (S (S i)) blk
      else
        match blk !! i, blk !! j with
        | Some bi, Some bj =>
            if touches bj bi then
              let blk := <[i := merge_into bj bi]> blk in
              let n := (length blk - 1)%nat in
              let blk := take n (match blk !! n with Some l => <[j := l]> blk | None => blk end) in
              merge_runs fuel' i (S i) blk
            else merge_runs fuel' i (S j) blk
        | _, _ => blk
        end
  end.
Definition latest (blk : list run) : nat :=
  fst (foldl (fun '(k, w) '(i, (_, _, wh)) => if w <? wh then (i, wh) else (k, w))
         (0%nat, match blk with (_, _, w) :: _ => w | [] => 0 end) (imap pair blk)).

Definition sack_blocks (t : tcpcb) (max : nat) : list (Z * Z) :=
  let blk := runs_of (ooo t) in
  let n := length blk in
  let blk := merge_runs (S n * S n * S n) 0 1 blk in
  let first := latest blk in
  let span '(st, en, _) := (st, en) in
  take max (match blk !! first with Some b => [span b] | None => [] end ++
            omap (fun '(i, b) => if (i =? first)%nat then None else Some (span b)) (imap pair blk)).

(** ** Sending *)

Definition pseudo_sum (src dst len : Z) : Z :=
  u32 (Z.shiftr src 16 + Z.land src 65535 + Z.shiftr dst 16 + Z.land dst 65535 + NET.IPPROTO_TCP + len).

Definition tcp_header (h : tcphdr) (check : Z) : list Z :=
  be_bytes 2 (h_sport h) ++ be_bytes 2 (h_dport h) ++ be_bytes 4 (h_seq h) ++ be_bytes 4 (h_ack h) ++
  [u8 (h_offset h); u8 (h_flags h)] ++ be_bytes 2 (h_window h) ++ be_bytes 2 check ++ be_bytes 2 0.

(** The options of a SYN, and of every other segment. *)
Definition syn_opts (t : tcpcb) (synack : bool) (g : shared) : list Z :=
  let ws := negb (has (opts_disabled g) TCPOPT_NO_WS) && (negb synack || peer_ws t) in
  let ts := negb (has (opts_disabled g) TCPOPT_NO_TS) && (negb synack || peer_ts t) in
  let sk := negb (has (opts_disabled g) TCPOPT_NO_SACK) && (negb synack || peer_sack t) in
  let opt := [2; 4] ++ be_bytes 2 TCP_MSS ++
    (if sk then [4; 2] else if ts then [1; 1] else []) ++
    (if ts then [8; 10] ++ be_bytes 4 (ts_now g) ++ be_bytes 4 (if synack then ts_recent t else 0) else []) ++
    (if ws then [1; 3; 3; TCP_WSCALE] else []) in
  opt ++ replicate (match (length opt mod 4)%nat with O => 0 | r => 4 - r end) 1.
Definition ack_opts (t : tcpcb) (flags : Z) (g : shared) : list Z :=
  (if ts_ok t then [1; 1; 8; 10] ++ be_bytes 4 (ts_now g) ++ be_bytes 4 (ts_recent t) else []) ++
  (if sack_ok t && has flags TCP_ACK then
     match sack_blocks t (if ts_ok t then 3 else 4) with
     | [] => []
     | blocks => [1; 1; 5; u8 (2 + 8 * Z.of_nat (length blocks))] ++
                 concat ((fun '(st, en) => be_bytes 4 st ++ be_bytes 4 en) <$> blocks)
     end
   else []).

(** The bytes of a segment, its checksum filled in. *)
Definition segment (src dst : Z) (h : tcphdr) (opt data : list Z) : list Z :=
  let bytes check := tcp_header h check ++ opt ++ data in
  bytes (NET.net_checksum (bytes 0) (pseudo_sum src dst (Z.of_nat (length (bytes 0))))).

Section code.
Variable ip_output : Z -> list Z -> shared -> Z.
Variable random_u32 : shared -> Z.
Variable if_ip : Z.

Definition to_ip (dst : Z) (seg : list Z) (g : shared) : Z * shared :=
  (ip_output dst seg g, g <| sent := sent g ++ [(dst, ip_output dst seg g, seg)] |>).

Definition tcp_isn (g : shared) : Z := u32 (random_u32 g + now g * 64).

Definition send_seg (t : tcpcb) (seq flags : Z) (data : list Z) (g : shared) : Z * shared :=
  let len := Z.of_nat (length data) in
  if TCP_MSS <? len then (- EMSGSIZE, g)
  else
    let knob := negb (loss_every g =? 0) && ((0 <? len) || (loss_every g =? 1)) && NET.IP4_IS_LOOPBACK (remote_ip t) in
    let g := if knob then g <| loss_count := u32 (loss_count g + 1) |> else g in
    if knob && (loss_count g mod loss_every g =? 0) then (0, g)
    else
      let syn := has flags TCP_SYN in
      let opt := if syn then syn_opts t (has flags TCP_ACK) g else ack_opts t flags g in
      let win := if syn then rcv_free t else Z.shiftr (rcv_free t) (rcv_wscale t) in
      let h := mk_tcphdr (local_port t) (remote_port t) seq (rcv_nxt t)
                 (Z.shiftl ((TCP_HDR_LEN + Z.of_nat (length opt)) / 4) 4) flags (if 65535 <? win then 65535 else win) in
      to_ip (remote_ip t) (segment (local_ip t) (remote_ip t) h opt data) g.

(** The bytes at [offset] in the send ring; the two copies of snd_copy. *)
Definition snd_copy (t : tcpcb) (offset n : Z) : list Z :=
  let at_ := u32 (sndstart t + offset) mod TCP_SNDBUF in
  let first := if n <? TCP_SNDBUF - at_ then n else TCP_SNDBUF - at_ in
  ((fun k => sndring t (at_ + Z.of_nat k)) <$> seq 0 (Z.to_nat first)) ++
  ((fun k => sndring t (Z.of_nat k)) <$> seq 0 (Z.to_nat (n - first))).

Definition send_range (seq n : Z) (t : tcpcb) (g : shared) : Z * tcpcb * shared :=
  let seg := snd_copy t (u32 (seq - snd_una t)) n in
  let '(err, g) := send_seg t seq (Z.lor TCP_ACK TCP_PSH) seg g in
  let t := if (err =? 0) && seq_gt (snd_max t) seq
           then t <| rexmit_segs := u32 (rexmit_segs t + 1) |> <| rexmit_bytes := u32 (rexmit_bytes t + n) |> else t in
  let t := if (err =? 0) && seq_gt (u32 (seq + n)) (snd_max t) then t <| snd_max := u32 (seq + n) |> else t in
  (err, t, g).

Definition sacked_until (t : tcpcb) (seq : Z) : Z :=
  match find_idx (fun '(st, en) => seq_ge seq st && seq_gt en seq) (sacked t) with
  | Some i => default seq (snd <$> sacked t !! i)
  | None => seq
  end.
(** [n] bytes from [seq], cut before the SACKed ranges. *)
Definition before_sacked (seq n : Z) (t : tcpcb) : Z :=
  foldl (fun n '(st, _) => if seq_gt st seq && seq_gt (u32 (seq + n)) st then u32 (st - seq) else n) n (sacked t).

Definition arm_rexmit (t : tcpcb) (g : shared) : tcpcb :=
  if rexmit_at t =? 0 then t <| rexmit_at := in_ms (rto_ms t) g |> else t.

(** The states in which there may be data to send. *)
Definition may_send (t : tcpcb) : bool :=
  match state t with ESTABLISHED | CLOSE_WAIT | FIN_WAIT_1 | CLOSING | LAST_ACK => true | _ => false end.

Fixpoint send_loop (fuel : nat) (t : tcpcb) (g : shared) : tcpcb * shared :=
  match fuel with
  | O => (t, g)
  | S fuel' =>
      let inflight := u32 (snd_nxt t - snd_una t) in
      if sndlen t <=? inflight then (t, g)
      else
        let window := usable_window t in
        let window := if sndlen t <? window then sndlen t else window in
        if window <=? inflight then (t, g)
        else
          let skip := sacked_until t (snd_nxt t) in
          if negb (skip =? snd_nxt t) then
            let skip := if seq_gt skip (u32 (snd_una t + sndlen t)) then u32 (snd_una t + sndlen t) else skip in
            send_loop fuel' (t <| snd_nxt := skip |>) g
          else
            let n := window - inflight in
            let n := if TCP_MSS <? n then TCP_MSS else n in
            let n := before_sacked (snd_nxt t) n t in
            let '(err, t, g) := send_range (snd_nxt t) n t g in
            if err <? 0 then (arm_rexmit t g, g)
            else
              let t := if negb (ts_ok t) && negb (rtt_timing t)
                       then t <| rtt_timing := true |> <| rtt_seq := u32 (snd_nxt t + n) |> <| rtt_start := now g |> else t in
              let t := t <| snd_nxt := u32 (snd_nxt t + n) |> in
              send_loop fuel' (arm_rexmit t g) g
  end.

Definition send_fin (t : tcpcb) (g : shared) : tcpcb * shared :=
  if (fin_pending t || fin_sent t) && (u32 (snd_nxt t - snd_una t) =? sndlen t) then
    let '(err, g) := send_seg t (snd_nxt t) (Z.lor TCP_ACK TCP_FIN) [] g in
    if err =? 0
    then (arm_rexmit (t <| snd_nxt := u32 (snd_nxt t + 1) |> <| fin_sent := true |> <| fin_pending := false |>) g, g)
    else (t, g)
  else (t, g).

(** Each turn of the loop moves snd_nxt on, within the bytes held. *)
Definition send_data (t : tcpcb) (g : shared) : tcpcb * shared :=
  if negb (may_send t) then (t, g)
  else let '(t, g) := send_loop (S (Z.to_nat (sndlen t))) t g in send_fin t g.

Definition send_ack (t : tcpcb) (g : shared) : shared := snd (send_seg t (snd_nxt t) TCP_ACK [] g).

Definition send_rst (dst self : Z) (h : tcphdr) (seglen : Z) (g : shared) : shared :=
  if has (h_flags h) TCP_RST then g
  else
    let r :=
      if has (h_flags h) TCP_ACK then mk_tcphdr (h_dport h) (h_sport h) (h_ack h) 0 (Z.shiftl (TCP_HDR_LEN / 4) 4) TCP_RST 0
      else mk_tcphdr (h_dport h) (h_sport h) 0
             (u32 (h_seq h + seglen + (if has (h_flags h) TCP_SYN then 1 else 0) + (if has (h_flags h) TCP_FIN then 1 else 0)))
             (Z.shiftl (TCP_HDR_LEN / 4) 4) (Z.lor TCP_RST TCP_ACK) 0 in
    snd (to_ip dst (segment self dst r [] []) g).

(** ** Receiving *)

Record tcpopts := mk_tcpopts { p_ws : Z; p_sack_perm : bool; p_ts : bool; p_tsval : Z; p_tsecr : Z; p_sack : list (Z * Z) }.
#[export] Instance tcpopts_fields : Fields tcpopts := fun o => mk_tcpopts
  (p_ws o) (p_sack_perm o) (p_ts o) (p_tsval o) (p_tsecr o) (p_sack o).

Definition get32 (opt : list Z) (i : nat) : Z := be (sub opt i 4).

(** One option, [opt] being the block from its kind on. *)
Definition parse_opt (kind olen : Z) (opt : list Z) (o : tcpopts) : tcpopts :=
  if (kind =? 3) && (olen =? 3) then
    let v := default 0 (opt !! 2%nat) in o <| p_ws := if 14 <? v then 14 else v |>
  else if (kind =? 4) && (olen =? 2) then o <| p_sack_perm := true |>
  else if (kind =? 5) && (10 <=? olen) && ((olen - 2) mod 8 =? 0) then
    o <| p_sack := (fun k => (get32 opt (2 + 8 * k), get32 opt (6 + 8 * k))) <$> seq 0 (Nat.min 4 (Z.to_nat ((olen - 2) / 8))) |>
  else if (kind =? 8) && (olen =? 10) then
    o <| p_ts := true |> <| p_tsval := get32 opt 2 |> <| p_tsecr := get32 opt 6 |>
  else o.
Fixpoint parse_loop (fuel : nat) (opt : list Z) (o : tcpopts) : tcpopts :=
  match fuel, opt with
  | S fuel', kind :: rest =>
      if kind =? 0 then o
      else if kind =? 1 then parse_loop fuel' rest o
      else
        match rest with
        | olen :: _ =>
            if (olen <? 2) || (Z.of_nat (length opt) <? olen) then o
            else parse_loop fuel' (drop (Z.to_nat olen) opt) (parse_opt kind olen opt o)
        | [] => o
        end
  | _, _ => o
  end.
Definition parse_opts (opt : list Z) : tcpopts :=
  parse_loop (length opt) opt (mk_tcpopts (-1) false false 0 0 []).

Definition agree_opts (o : tcpopts) (t : tcpcb) (g : shared) : tcpcb :=
  let ws := (0 <=? p_ws o) && negb (has (opts_disabled g) TCPOPT_NO_WS) in
  let t := t <| peer_ws := 0 <=? p_ws o |> <| peer_ts := p_ts o |> <| peer_sack := p_sack_perm o |>
             <| ws_ok := ws |> <| ts_ok := p_ts o && negb (has (opts_disabled g) TCPOPT_NO_TS) |>
             <| sack_ok := p_sack_perm o && negb (has (opts_disabled g) TCPOPT_NO_SACK) |>
             <| snd_wscale := if ws then p_ws o else 0 |> <| rcv_wscale := if ws then TCP_WSCALE else 0 |> in
  if p_ts o then t <| ts_recent := p_tsval o |> else t.

(** ** The scoreboard of what the peer has *)

Definition sack_add (st en : Z) (t : tcpcb) : tcpcb :=
  if negb (seq_gt en st) || negb (seq_gt en (snd_una t)) || seq_gt en (snd_max t) then t
  else
    let st := if seq_gt (snd_una t) st then snd_una t else st in
    match find_idx (fun '(s0, e0) => seq_le st e0 && seq_ge en s0) (sacked t) with
    | Some i =>
        t <| sacked := alter (fun '(s0, e0) => (if seq_gt s0 st then st else s0, if seq_gt en e0 then en else e0)) i (sacked t) |>
    | None => if (length (sacked t) <? TCP_SACK_MAX)%nat then t <| sacked := sacked t ++ [(st, en)] |> else t
    end.

(** The loop of sack_trim from entry [i]: the last entry takes the place of
    one that is dropped. *)
Fixpoint trim_loop (fuel i : nat) (una : Z) (l : list (Z * Z)) : list (Z * Z) :=
  match fuel with
  | O => l
  | S fuel' =>
      match l !! i with
      | None => l
      | Some (st, en) =>
          if seq_le en una then
            let n := (length l - 1)%nat in
            trim_loop fuel' i una (take n (match l !! n with Some x => <[i := x]> l | None => l end))
          else trim_loop fuel' (S i) una (if seq_gt una st then <[i := (una, en)]> l else l)
      end
  end.
Definition sack_trim (t : tcpcb) : tcpcb :=
  t <| sacked := trim_loop (length (sacked t)) 0 (snd_una t) (sacked t) |>.

Fixpoint skip_sacked (fuel : nat) (t : tcpcb) (seq : Z) : Z :=
  match fuel with
  | O => seq
  | S fuel' => let skip := sacked_until t seq in if skip =? seq then seq else skip_sacked fuel' t skip
  end.
Definition sack_top (t : tcpcb) : Z :=
  foldl (fun top '(_, en) => if seq_gt en top then en else top) (snd_una t) (sacked t).
Definition sack_rexmit_hole (t : tcpcb) (g : shared) : bool * tcpcb * shared :=
  let top := sack_top t in
  let seq := if seq_gt (high_rxt t) (snd_una t) then high_rxt t else snd_una t in
  let seq := skip_sacked (S (length (sacked t))) t seq in
  if negb (seq_gt top seq) then (false, t, g)
  else
    let n := before_sacked seq (u32 (top - seq)) t in
    let n := if TCP_MSS <? n then TCP_MSS else n in
    if n =? 0 then (false, t, g)
    else
      let '(err, t, g) := send_range seq n t g in
      if err <? 0 then (false, t, g) else (true, t <| high_rxt := u32 (seq + n) |>, g).

(** A duplicate acknowledgement: the third one resends, further ones send. *)
Definition dup_ack (t : tcpcb) (g : shared) : tcpcb * shared :=
  let t := t <| dupacks := u32 (dupacks t + 1) |> in
  if (dupacks t =? 3) && negb (in_recovery t) then
    let t := cwnd_on_loss false t in
    let t := t <| in_recovery := true |> <| recover := snd_nxt t |> <| cwnd := u32 (ssthresh t + 3 * TCP_MSS) |>
               <| rtt_timing := false |> <| high_rxt := snd_una t |> in
    let '(hole, t, g) := if sack_ok t then sack_rexmit_hole t g else (false, t, g) in
    if hole then (t, g)
    else
      let n := if TCP_MSS <? sndlen t then TCP_MSS else sndlen t in
      if 0 <? n then
        let '(_, t, g) := send_range (snd_una t) n t g in (t <| high_rxt := u32 (snd_una t + n) |>, g)
      else (t, g)
  else if in_recovery t then
    let t := t <| cwnd := u32 (cwnd t + TCP_MSS) |> in
    let '(hole, t, g) := if sack_ok t then sack_rexmit_hole t g else (false, t, g) in
    if hole then (t, g) else send_data t g
  else (t, g).

(** What an acknowledgement of new data says about the round trip. *)
Definition measure (ack : Z) (o : tcpopts) (t : tcpcb) (g : shared) : tcpcb :=
  if ts_ok t && p_ts o && negb (p_tsecr o =? 0) then
    let ms := u32 (ts_now g - p_tsecr o) in
    if (0 <=? s32 ms) && (ms <? 60000) then rtt_update (if ms =? 0 then 1 else ms) t else t
  else if rtt_timing t && seq_ge ack (rtt_seq t) then
    let ms := u32 (u32 (now g - rtt_start t) * (1000 / HZ)) in
    rtt_update (if ms =? 0 then 1 else ms) t <| rtt_timing := false |>
  else t.

Definition new_ack (ack : Z) (o : tcpopts) (t : tcpcb) (g : shared) : tcpcb * shared :=
  let t := measure ack o (t <| dupacks := 0 |>) g in
  let acked := u32 (ack - snd_una t) in
  let t :=
    if in_recovery t
    then if seq_ge ack (recover t) then t <| in_recovery := false |> <| cwnd := ssthresh t |> else t
    else cwnd_on_ack acked t in
  let acked := if sndlen t <? acked then sndlen t else acked in
  let t := if 0 <? acked
           then t <| sndstart := u32 (sndstart t + acked) mod TCP_SNDBUF |> <| sndlen := sndlen t - acked |> else t in
  let t := sack_trim (t <| snd_una := ack |> <| rexmits := 0 |>) in
  let '(t, g) := if in_recovery t && sack_ok t then let '(_, t, g) := sack_rexmit_hole t g in (t, g) else (t, g) in
  (t <| rexmit_at := if snd_una t =? snd_nxt t then 0 else in_ms (rto_ms t) g |>, g).

Definition ack_sent_data (ack : Z) (datalen window : Z) (o : tcpopts) (t : tcpcb) (g : shared) : tcpcb * shared :=
  let t := if sack_ok t then foldl (fun t '(st, en) => sack_add st en t) t (p_sack o) else t in
  if negb (seq_gt ack (snd_una t)) then
    if (ack =? snd_una t) && (datalen =? 0) && (window =? snd_wnd t) && negb (snd_nxt t =? snd_una t)
    then dup_ack t g else (t, g)
  else new_ack ack o t g.

(** One held segment, if the data before it has come. *)
Definition drain_one (i : nat) (st : tcpcb * shared * bool) : tcpcb * shared * bool :=
  let '(t, g, progressed) := st in
  match ooo t !! i with
  | Some h =>
      if o_used h && seq_le (o_seq h) (rcv_nxt t) then
        let skip := u32 (rcv_nxt t - o_seq h) in
        let t :=
          if skip <? o_len h then
            let n := o_len h - skip in
            let n := if rcv_free t <? n then rcv_free t else n in
            let t' := rcv_put (sub (default [] (ooo_pool g !! o_slot h)) (Z.to_nat skip) (Z.to_nat n)) t in
            t' <| rcv_nxt := u32 (rcv_nxt t' + n) |>
          else t in
        let '(t, g) := ooo_release i t g in (t, g, true)
      else st
  | None => st
  end.
(** Every round but the last releases an entry. *)
Fixpoint drain (fuel : nat) (t : tcpcb) (g : shared) : tcpcb * shared :=
  match fuel with
  | O => (t, g)
  | S fuel' =>
      let '(t, g, progressed) := for_upto TCP_OOO_PER_CB drain_one (t, g, false) in
      if progressed then drain fuel' t g else (t, g)
  end.

Definition take_data (seq : Z) (data : list Z) (t : tcpcb) (g : shared) : tcpcb * shared :=
  if seq =? rcv_nxt t then
    let take := if rcv_free t <? Z.of_nat (length data) then rcv_free t else Z.of_nat (length data) in
    let t := rcv_put (firstn (Z.to_nat take) data) t in
    let '(t, g) := drain (S TCP_OOO_PER_CB) (t <| rcv_nxt := u32 (rcv_nxt t + take) |>) g in
    let t := t <| unacked_segs := unacked_segs t + 1 |> in
    if 2 <=? unacked_segs t then (t <| unacked_segs := 0 |> <| delack_at := 0 |>, send_ack t g)
    else if delack_at t =? 0 then (t <| delack_at := in_ms DELACK_MS g |>, g) else (t, g)
  else if seq_gt seq (rcv_nxt t) then
    let '(t, g) := ooo_queue seq data t g in
    (t <| unacked_segs := 0 |> <| delack_at := 0 |>, send_ack t g)
  else (t, send_ack t g).

Definition enter_time_wait (t : tcpcb) (g : shared) : tcpcb :=
  t <| state := TIME_WAIT |> <| timewait_at := in_ms TIMEWAIT_MS g |>.

Definition take_fin (t : tcpcb) (g : shared) : tcpcb * shared :=
  let '(t, g) :=
    if negb (fin_rcvd t) then
      let t := t <| fin_rcvd := true |> <| rcv_nxt := u32 (rcv_nxt t + 1) |> in (t, send_ack t g)
    else (t, g) in
  match state t with
  | ESTABLISHED => (t <| state := CLOSE_WAIT |>, g)
  | FIN_WAIT_1 => (t <| state := CLOSING |>, g)
  | FIN_WAIT_2 => (enter_time_wait t g, g)
  | TIME_WAIT => (t <| timewait_at := in_ms TIMEWAIT_MS g |>, send_ack t g)
  | _ => (t, g)
  end.

Definition fin_acked (t : tcpcb) (g : shared) : tcpcb :=
  if fin_sent t && (snd_una t =? snd_nxt t) then
    match state t with
    | FIN_WAIT_1 => if fin_rcvd t then enter_time_wait t g else t <| state := FIN_WAIT_2 |>
    | CLOSING => enter_time_wait t g
    | LAST_ACK => t <| state := CLOSED |>
    | _ => t
    end
  else t.

(** Our SYN answered. *)
Definition syn_sent_input (src dst : Z) (h : tcphdr) (o : tcpopts) (datalen : Z) (t : tcpcb) (g : shared) : tcpcb * shared :=
  if negb (has (h_flags h) TCP_SYN) then (t, g)
  else if has (h_flags h) TCP_ACK then
    if negb (h_ack h =? snd_nxt t) then (t, send_rst src dst h datalen g)
    else
      let t := agree_opts o (t <| snd_una := h_ack h |> <| rcv_nxt := u32 (h_seq h + 1) |> <| snd_wnd := h_window h |>
                 <| max_snd_wnd := h_window h |> <| state := ESTABLISHED |> <| rexmit_at := 0 |> <| last_rcv := now g |>) g in
      (t, send_ack t g)
  else
    let t := agree_opts o (t <| rcv_nxt := u32 (h_seq h + 1) |> <| state := SYN_RECEIVED |>) g in
    (t, snd (send_seg t (snd_una t) (Z.lor TCP_SYN TCP_ACK) [] g)).

(** The data of a segment, or the answer to an old one, then its FIN. *)
Definition data_input (h : tcphdr) (data : list Z) (t : tcpcb) (g : shared) : tcpcb * shared :=
  if 0 <? Z.of_nat (length data) then take_data (h_seq h) data t g
  else if seq_gt (rcv_nxt t) (h_seq h) && negb (has (h_flags h) (Z.lor TCP_SYN TCP_FIN)) then (t, send_ack t g)
  else (t, g).
Definition fin_input (h : tcphdr) (t : tcpcb) (g : shared) : tcpcb * shared :=
  if has (h_flags h) TCP_FIN && seq_le (h_seq h) (rcv_nxt t) then take_fin t g else (t, g).

(** The rest of tcp_input, once the segment's acknowledgement counts. *)
Definition ack_input (h : tcphdr) (o : tcpopts) (data : list Z) (t : tcpcb) (g : shared) : tcpcb * shared :=
  let t := t <| last_rcv := now g |> <| keep_probes := 0 |> in
  let wnd := u32 (Z.shiftl (h_window h) (snd_wscale t)) in
  let t := t <| snd_wnd := wnd |> <| max_snd_wnd := if max_snd_wnd t <? wnd then wnd else max_snd_wnd t |> in
  if is_state t SYN_RECEIVED && negb (h_ack h =? snd_nxt t) then (t, g)
  else
    let t := if is_state t SYN_RECEIVED
             then t <| snd_una := h_ack h |> <| state := ESTABLISHED |> <| rexmit_at := 0 |>
                    <| pending := match listener t with Some _ => true | None => pending t end |>
             else t in
    let '(t, g) := ack_sent_data (h_ack h) (Z.of_nat (length data)) wnd o t g in
    let '(t, g) := data_input h data t g in
    let '(t, g) := fin_input h t g in
    send_data (fin_acked t g) g.

(** A segment for a connection that is not a listener. *)
Definition conn_input (src dst : Z) (h : tcphdr) (o : tcpopts) (data : list Z) (t : tcpcb) (g : shared) : tcpcb * shared :=
  if has (h_flags h) TCP_RST then
    if is_state t TIME_WAIT then (t, g) else (t <| reset := true |> <| state := CLOSED |>, g)
  else if is_state t SYN_SENT then syn_sent_input src dst h o (Z.of_nat (length data)) t g
  else if negb (has (h_flags h) TCP_ACK) then (t, g)
  else if ts_ok t && p_ts o && negb (ts_recent t =? 0) && (s32 (p_tsval o - ts_recent t) <? 0) then (t, send_ack t g)
  else
    let t := if ts_ok t && p_ts o && seq_le (h_seq h) (rcv_nxt t) then t <| ts_recent := p_tsval o |> else t in
    ack_input h o data t g.

(** A SYN for a listener makes a connection. *)
Definition listen_input (src dst : Z) (h : tcphdr) (o : tcpopts) (datalen : Z) (i : nat) (s : tcp) : tcp :=
  let refuse s := mk_tcp (conns s) (send_rst src dst h datalen (sh s)) in
  if negb (has (h_flags h) TCP_SYN) then refuse s
  else
    match tcp_alloc s with
    | (None, s) => refuse s
    | (Some k, s) =>
        let t := conn s i in
        let g := sh s in
        let isn := tcp_isn g in
        let c := conn s k <| state := SYN_RECEIVED |> <| local_ip := dst |> <| local_port := local_port t |>
                   <| remote_ip := src |> <| remote_port := h_sport h |> <| rcv_nxt := u32 (h_seq h + 1) |>
                   <| snd_una := isn |> <| snd_nxt := isn |> <| snd_wnd := h_window h |> <| listener := Some i |> in
        let c := agree_opts o c g in
        let c := c <| keepalive := keepalive t |> <| keep_idle_s := keep_idle_s t |> <| keep_intvl_s := keep_intvl_s t |>
                   <| keep_cnt := keep_cnt t |> <| last_rcv := now g |> in
        let '(_, g) := send_seg c (snd_nxt c) (Z.lor TCP_SYN TCP_ACK) [] g in
        let c := c <| snd_nxt := u32 (snd_nxt c + 1) |> <| snd_max := u32 (snd_nxt c + 1) |>
                   <| rexmit_at := in_ms (rto_ms c) g |> in
        put k c g s
    end.

Definition header_of (seg : list Z) : tcphdr :=
  mk_tcphdr (be (sub seg 0 2)) (be (sub seg 2 2)) (be (sub seg 4 4)) (be (sub seg 8 4)) (be (sub seg 12 1))
    (be (sub seg 13 1)) (be (sub seg 14 2)).

Definition tcp_input (src dst : Z) (seg : list Z) (s : tcp) : tcp :=
  let len := Z.of_nat (length seg) in
  if len <? TCP_HDR_LEN then s
  else if negb (NET.net_checksum seg (pseudo_sum src dst len) =? 0) then s
  else
    let h := header_of seg in
    let hlen := Z.shiftr (h_offset h) 4 * 4 in
    if (hlen <? TCP_HDR_LEN) || (len <? hlen) then s
    else
      let data := drop (Z.to_nat hlen) seg in
      let datalen := Z.of_nat (length data) in
      match find src (h_sport h) (h_dport h) s with
      | None => mk_tcp (conns s) (send_rst src dst h datalen (sh s))
      | Some i =>
          let o := parse_opts (sub seg (Z.to_nat TCP_HDR_LEN) (Z.to_nat (hlen - TCP_HDR_LEN))) in
          if is_state (conn s i) LISTEN then listen_input src dst h o datalen i s
          else let '(t, g) := conn_input src dst h o data (conn s i) (sh s) in put i t g s
      end.

(** ** Timers *)

(** Keepalive; [true] when the peer is given up. *)
Definition keep_timer (t : tcpcb) (g : shared) : bool * tcpcb * shared :=
  if keepalive t && (is_state t ESTABLISHED || is_state t CLOSE_WAIT) && (snd_una t =? snd_nxt t) &&
     (s32 (keep_idle_s t * HZ) <=? s32 (now g - last_rcv t)) then
    let t := if (keep_probes t =? 0) && (keep_next t =? 0) then t <| keep_next := now g |> else t in
    if reached g (keep_next t) then
      if keep_cnt t <=? keep_probes t then (true, t, g)
      else
        let '(_, g) := send_seg t (u32 (snd_una t - 1)) TCP_ACK [] g in
        (false, t <| keep_probes := u32 (keep_probes t + 1) |> <| keep_sent := u32 (keep_sent t + 1) |>
                  <| keep_next := u32 (now g + keep_intvl_s t * HZ) |>, g)
    else (false, t, g)
  else (false, t <| keep_next := 0 |>, g).

Definition declare_dead (t : tcpcb) : tcpcb := t <| state := CLOSED |> <| reset := true |> <| timed_out := true |>.

Definition rexmit_timer (t : tcpcb) (g : shared) : tcpcb * shared :=
  if (rexmit_at t =? 0) || negb (reached g (rexmit_at t)) then (t, g)
  else
    let t := t <| rexmits := rexmits t + 1 |> in
    if REXMIT_LIMIT <? rexmits t then (declare_dead t <| rexmit_at := 0 |>, g)
    else
      let t := cwnd_on_loss true t <| rtt_timing := false |> in
      let rto := u32 (rto_ms t * 2) in
      let t := t <| rto_ms := if RTO_MAX_MS <? rto then RTO_MAX_MS else rto |> in
      let t := t <| rexmit_at := in_ms (rto_ms t) g |> in
      match state t with
      | SYN_SENT => (t, snd (send_seg t (snd_una t) TCP_SYN [] g))
      | SYN_RECEIVED => (t, snd (send_seg t (snd_una t) (Z.lor TCP_SYN TCP_ACK) [] g))
      | _ => send_data (t <| snd_nxt := snd_una t |>) g
      end.

Definition timer_one (t : tcpcb) (g : shared) : tcpcb * shared :=
  if negb (used t) then (t, g)
  else if orphan t && (is_state t CLOSED || (s32 (ORPHAN_LIMIT_MS * HZ / 1000) <=? s32 (now g - orphan_since t)))
  then tcp_free t g
  else if is_state t TIME_WAIT then (if reached g (timewait_at t) then t <| state := CLOSED |> else t, g)
  else
    let '(dead, t, g) := keep_timer t g in
    if dead : bool then (declare_dead t, g)
    else
      let '(t, g) := if negb (delack_at t =? 0) && reached g (delack_at t)
                     then (t <| unacked_segs := 0 |> <| delack_at := 0 |>, send_ack t g) else (t, g) in
      rexmit_timer t g.
Definition tcp_timer (s : tcp) : tcp :=
  for_upto TCP_MAX_CONNS (fun i s => let '(t, g) := timer_one (conn s i) (sh s) in put i t g s) s.

(** ** What the socket layer calls *)

Fixpoint pick_loop (fuel : nat) (s : tcp) : Z * tcp :=
  match fuel with
  | O => (0, s)
  | S fuel' =>
      let p := next_port (sh s) in
      let n := u16 (p + 1) in
      let s' := mk_tcp (conns s) (sh s <| next_port := if n <? 32768 then 32768 else n |>) in
      if bool_decide (find_idx (fun t => used t && (local_port t =? p)) (conns s) = None) then (p, s')
      else pick_loop fuel' s'
  end.
Definition tcp_pick_port (s : tcp) : Z * tcp := pick_loop 4096 s.

Definition tcp_connect (i : nat) (addr port : Z) (s : tcp) : Z * tcp :=
  let t := conn s i in
  if negb (is_state t CLOSED) then (- EISCONN, s)
  else if negb (NET.IP4_IS_LOOPBACK addr) && (if_ip =? 0) then (- EADDRNOTAVAIL, s)
  else
    let t := t <| local_ip := if NET.IP4_IS_LOOPBACK addr then addr else if_ip |> in
    let s := put i t (sh s) s in
    let '(p, s) := if local_port t =? 0 then tcp_pick_port s else (local_port t, s) in
    let t := t <| local_port := p |> in
    if p =? 0 then (- EADDRINUSE, put i t (sh s) s)
    else
      let g := sh s in
      let isn := tcp_isn g in
      let t := t <| remote_ip := addr |> <| remote_port := port |> <| snd_una := isn |> <| snd_nxt := isn |>
                 <| snd_wnd := 1 |> <| state := SYN_SENT |> in
      let '(err, g) := send_seg t (snd_nxt t) TCP_SYN [] g in
      if err <? 0 then (- EIO, put i (t <| state := CLOSED |>) g s)
      else
        let nxt := u32 (snd_nxt t + 1) in
        (0, put i (t <| snd_nxt := nxt |> <| snd_max := nxt |> <| last_rcv := now g |>
                     <| rexmit_at := in_ms (rto_ms t) g |>) g s).

Definition other_listener (i : nat) (port : Z) (s : tcp) : bool :=
  existsb (fun '(k, t) => used t && negb (k =? i)%nat && is_state t LISTEN && (local_port t =? port)) (imap pair (conns s)).
Definition tcp_listen (i : nat) (port : Z) (s : tcp) : Z * tcp :=
  if other_listener i port s then (- EADDRINUSE, s)
  else (0, put i (conn s i <| local_port := port |> <| state := LISTEN |>) (sh s) s).

Definition waiting_for (i : nat) (t : tcpcb) : bool := used t && bool_decide (listener t = Some i) && pending t.
Definition tcp_poll (i : nat) (s : tcp) : Z :=
  let t := conn s i in
  if is_state t LISTEN then if existsb (waiting_for i) (conns s) then POLLIN else 0
  else if reset t then Z.lor (Z.lor POLLIN POLLERR) POLLHUP
  else
    Z.lor (if (0 <? tcp_available t) || fin_rcvd t || is_state t CLOSED then POLLIN else 0)
   (Z.lor (if (is_state t ESTABLISHED || is_state t CLOSE_WAIT) && negb (fin_sent t) && negb (fin_pending t) &&
              (sndlen t <? TCP_SNDBUF) then POLLOUT else 0)
          (if is_state t CLOSED || (fin_rcvd t && fin_sent t) then POLLHUP else 0)).

Definition tcp_accept (i : nat) (s : tcp) : option nat * tcp :=
  match find_idx (waiting_for i) (conns s) with
  | Some k => (Some k, put k (conn s k <| pending := false |> <| listener := None |>) (sh s) s)
  | None => (None, s)
  end.

Definition ring_write (at_ : Z) (bs : list Z) (m : Z -> Z) : Z -> Z :=
  fun x => if (at_ <=? x) && (x <? at_ + Z.of_nat (length bs)) then default 0 (bs !! Z.to_nat (x - at_)) else m x.
Definition reset_error (t : tcpcb) : Z := if timed_out t then - ETIMEDOUT else - ECONNRESET.
Definition tcp_send (data : list Z) (t : tcpcb) (g : shared) : Z * tcpcb * shared :=
  if is_state t CLOSED || reset t then (reset_error t, t, g)
  else if negb (is_state t ESTABLISHED) && negb (is_state t CLOSE_WAIT) then (- ENOTCONN, t, g)
  else if fin_sent t || fin_pending t then (- EPIPE, t, g)
  else
    let room := TCP_SNDBUF - sndlen t in
    if room =? 0 then (0, t, g)
    else
      let len := if room <? Z.of_nat (length data) then room else Z.of_nat (length data) in
      let at_ := u32 (sndstart t + sndlen t) mod TCP_SNDBUF in
      let first := if len <? TCP_SNDBUF - at_ then len else TCP_SNDBUF - at_ in
      let m := ring_write at_ (firstn (Z.to_nat first) data) (sndring t) in
      let m := ring_write 0 (sub data (Z.to_nat first) (Z.to_nat (len - first))) m in
      let '(t, g) := send_data (t <| sndring := m |> <| sndlen := sndlen t + len |>) g in
      (s32 len, t, g).

(** What there is to read when there are no bytes. *)
Definition no_bytes (t : tcpcb) : Z :=
  if reset t then reset_error t else if fin_rcvd t then 0 else if is_state t CLOSED then - ENOTCONN else - EAGAIN.
Fixpoint peek_loop (len : nat) (n at_ : Z) (t : tcpcb) : list Z :=
  match len with
  | O => []
  | S len' => if n <? rcv_used t then rcvring t at_ :: peek_loop len' (n + 1) ((at_ + 1) mod TCP_RCVBUF) t else []
  end.
Definition tcp_peek (len : nat) (t : tcpcb) : Z * list Z :=
  match peek_loop len 0 (rcvtail t) t with
  | [] => (no_bytes t, [])
  | out => (s32 (Z.of_nat (length out)), out)
  end.
Fixpoint recv_loop (len : nat) (t : tcpcb) : list Z * tcpcb :=
  match len with
  | O => ([], t)
  | S len' =>
      if 0 <? rcv_used t then
        let '(out, t') := recv_loop len' (t <| rcvtail := (rcvtail t + 1) mod TCP_RCVBUF |>) in
        (rcvring t (rcvtail t) :: out, t')
      else ([], t)
  end.
Definition tcp_recv (len : nat) (t : tcpcb) (g : shared) : Z * list Z * tcpcb * shared :=
  match recv_loop len t with
  | ([], t) => (no_bytes t, [], t, g)
  | (out, t) => (s32 (Z.of_nat (length out)), out, t, send_ack t g)
  end.

Definition tcp_port_in_use (port : Z) (s : tcp) : bool := existsb (fun t => used t && (local_port t =? port)) (conns s).

Definition tcp_close (t : tcpcb) (g : shared) : tcpcb * shared :=
  match state t with
  | CLOSED | LISTEN | SYN_SENT => tcp_free (t <| state := CLOSED |>) g
  | ESTABLISHED | SYN_RECEIVED => send_data (t <| state := FIN_WAIT_1 |> <| fin_pending := true |>) g
  | CLOSE_WAIT => send_data (t <| state := LAST_ACK |> <| fin_pending := true |>) g
  | _ => (t, g)
  end.

Definition close_and_orphan (i : nat) (s : tcp) : tcp :=
  let '(t, g) := tcp_close (conn s i) (sh s) in
  put i (if used t then t <| orphan := true |> <| orphan_since := now g |> else t) g s.
(** A connection a listener holds is not a listener. *)
Fixpoint tcp_release (fuel : nat) (i : nat) (s : tcp) : tcp :=
  match fuel with
  | O => s
  | S fuel' =>
      let s :=
        if is_state (conn s i) LISTEN then
          for_upto TCP_MAX_CONNS (fun k s =>
            let c := conn s k in
            if used c && bool_decide (listener c = Some i)
            then tcp_release fuel' k (put k (c <| listener := None |> <| pending := false |>) (sh s) s) else s) s
        else s in
      close_and_orphan i s
  end.

Definition tcp_set_loss (every : Z) (g : shared) : shared := g <| loss_every := every |> <| loss_count := 0 |>.
Definition tcp_loss_every (g : shared) : Z := loss_every g.
Definition tcp_set_disabled (mask : Z) (g : shared) : shared := g <| opts_disabled := mask |>.
End code.
End TCP.
