(* ===== verification/Tcprecv.v ===== *)
(** * TCP: what is received (kernel/net/tcp.c)

    The receive ring, the reassembly queue and the end of the stream. A
    position is the number of a byte in the peer's stream; sequence number
    [base] is that of the first. *)

From S2P Require Import Prelude Pmm Route Net Tcp.
Local Open Scope Z_scope.

Module TCPRECV.
Import TCP.

(** ** Sequence numbers and positions *)

Lemma s32_u32_diff b x y : -2147483648 <= x - y < 2147483648 -> s32 (u32 (b + x) - u32 (b + y)) = x - y.
Proof.
  intros Hd. unfold s32. replace (u32 (u32 (b + x) - u32 (b + y))) with (u32 (x - y)).
  - unfold u32. zcase; Z.div_mod_to_equations; lia.
  - unfold u32. rewrite Zminus_mod_idemp_l, Zminus_mod_idemp_r. f_equal. lia.
Qed.
Lemma u32_diff b x y : 0 <= x - y < 4294967296 -> u32 (u32 (b + x) - u32 (b + y)) = x - y.
Proof.
  intros Hd. unfold u32. rewrite Zminus_mod_idemp_l, Zminus_mod_idemp_r.
  replace (b + x - (b + y)) with (x - y) by lia. by apply Z.mod_small.
Qed.
Lemma u32_eq b x y : -4294967296 < x - y < 4294967296 -> u32 (b + x) = u32 (b + y) -> x = y.
Proof. unfold u32. intros Hd E. Z.div_mod_to_equations. lia. Qed.
Lemma u32_plus b x n : u32 (u32 (b + x) + n) = u32 (b + (x + n)).
Proof. unfold u32. rewrite Zplus_mod_idemp_l. f_equal. lia. Qed.

Section seqs.
Context (b x y : Z).
Hypothesis Hd : -2147483648 <= x - y < 2147483648.
Lemma seq_le_pos : seq_le (u32 (b + x)) (u32 (b + y)) = (x <=? y).
Proof using Hd. unfold seq_le. rewrite s32_u32_diff by done. destruct (Z.leb_spec (x - y) 0), (Z.leb_spec x y); lia || done. Qed.
Lemma seq_ge_pos : seq_ge (u32 (b + x)) (u32 (b + y)) = (y <=? x).
Proof using Hd. unfold seq_ge. rewrite s32_u32_diff by done. destruct (Z.leb_spec 0 (x - y)), (Z.leb_spec y x); lia || done. Qed.
Lemma seq_gt_pos : seq_gt (u32 (b + x)) (u32 (b + y)) = (y <? x).
Proof using Hd. unfold seq_gt. rewrite s32_u32_diff by done. destruct (Z.ltb_spec 0 (x - y)), (Z.ltb_spec y x); lia || done. Qed.
End seqs.

(** ** The ring *)

Definition span (S : Z -> Z) (q : Z) (n : nat) : list Z := (fun k => S (q + Z.of_nat k)) <$> seq 0 n.
Lemma length_span S q n : length (span S q n) = n.
Proof. unfold span. by rewrite length_fmap, length_seq. Qed.
Lemma span_lookup S q n k : (k < n)%nat -> span S q n !! k = Some (S (q + Z.of_nat k)).
Proof. intros Hk. unfold span. by rewrite list_lookup_fmap, lookup_seq_lt. Qed.
Lemma span_S S q n : span S q (Datatypes.S n) = S q :: span S (q + 1) n.
Proof.
  unfold span. cbn [seq]. rewrite fmap_cons. f_equal; [f_equal; lia|]. rewrite <- fmap_S_seq, <- list_fmap_compose.
  apply list_fmap_ext. intros i k _. cbn. f_equal. lia.
Qed.
Lemma span_sub S q n a m : (a + m <= n)%nat -> sub (span S q n) a m = span S (q + Z.of_nat a) m.
Proof.
  intros Hle. apply list_eq. intros k. unfold sub. destruct (decide (k < m)%nat) as [Hk|Hk].
  - rewrite lookup_take_lt, lookup_drop by done. rewrite !span_lookup by lia. do 2 f_equal. lia.
  - rewrite !lookup_ge_None_2; [done|rewrite length_span; lia|]. rewrite length_take. lia.
Qed.
Lemma span_app S q n m : span S q (n + m) = span S q n ++ span S (q + Z.of_nat n) m.
Proof.
  apply list_eq. intros k. destruct (decide (k < n)%nat) as [Hk|Hk].
  - rewrite lookup_app_l by (rewrite length_span; lia). by rewrite !span_lookup by lia.
  - rewrite lookup_app_r by (rewrite length_span; lia). rewrite length_span.
    destruct (decide (k < n + m)%nat) as [Hk2|Hk2].
    + rewrite !span_lookup by lia. do 2 f_equal. lia.
    + rewrite !lookup_ge_None_2; [done|rewrite length_span; lia..].
Qed.

(** The ring holds the [rcv_used] bytes of the stream before position [K]. *)
Record ring_ok (S : Z -> Z) (K : Z) (t : tcpcb) : Prop := {
  rg_head : 0 <= rcvhead t < TCP_RCVBUF;
  rg_tail : 0 <= rcvtail t < TCP_RCVBUF;
  rg_bytes : forall j, 0 <= j < rcv_used t -> rcvring t ((rcvtail t + j) mod TCP_RCVBUF) = S (K - rcv_used t + j) }.

Lemma rcv_used_eq t : 0 <= rcvhead t < TCP_RCVBUF -> 0 <= rcvtail t < TCP_RCVBUF ->
  rcv_used t = (rcvhead t - rcvtail t) mod TCP_RCVBUF.
Proof. unfold rcv_used, TCP_RCVBUF, u32. intros Hh Ht. Z.div_mod_to_equations. lia. Qed.
Lemma rcv_used_range t : 0 <= rcv_used t < TCP_RCVBUF.
Proof. unfold rcv_used. apply Z.mod_pos_bound. done. Qed.

(** One byte in. *)
Lemma ring_push S K t : ring_ok S K t -> 0 < rcv_free t ->
  let t' := t <| rcvring := poke (rcvhead t) (S K) (rcvring t) |> <| rcvhead := (rcvhead t + 1) mod TCP_RCVBUF |> in
  ring_ok S (K + 1) t' /\ rcv_used t' = rcv_used t + 1.
Proof.
  intros [Hh Ht Hb] Hf t'. pose proof (rcv_used_eq t Hh Ht) as Eu. unfold rcv_free in Hf.
  assert (Hh' : 0 <= rcvhead t' < TCP_RCVBUF) by (cbn; apply Z.mod_pos_bound; done).
  assert (Eu' : rcv_used t' = rcv_used t + 1).
  { rewrite rcv_used_eq by done. cbn [t' store rcvhead rcvtail]. rewrite Eu in *. unfold TCP_RCVBUF in *. Z.div_mod_to_equations. lia. }
  split; [|done]. constructor; [done|done|]. intros j Hj. rewrite Eu' in Hj. rewrite Eu'.
  change (rcvtail t') with (rcvtail t). change (rcvring t') with (poke (rcvhead t) (S K) (rcvring t)). unfold poke.
  destruct (decide (j = rcv_used t)) as [->|Hne].
  - replace ((rcvtail t + rcv_used t) mod TCP_RCVBUF) with (rcvhead t); [rewrite Z.eqb_refl; f_equal; lia|].
    rewrite Eu. unfold TCP_RCVBUF in *. Z.div_mod_to_equations. lia.
  - destruct (Z.eqb_spec ((rcvtail t + j) mod TCP_RCVBUF) (rcvhead t)) as [E|_].
    + exfalso. rewrite Eu in *. unfold TCP_RCVBUF in *. Z.div_mod_to_equations. lia.
    + rewrite Hb by lia. f_equal. lia.
Qed.

Lemma ring_put S K t n : ring_ok S K t -> Z.of_nat n <= rcv_free t ->
  let t' := rcv_put (span S K n) t in
  ring_ok S (K + Z.of_nat n) t' /\ rcv_used t' = rcv_used t + Z.of_nat n /\
  rcv_nxt t' = rcv_nxt t /\ ooo t' = ooo t /\ fin_rcvd t' = fin_rcvd t /\ rcvtail t' = rcvtail t.
Proof.
  revert K t. induction n as [|n IH]; intros K t Hr Hn.
  - cbn [span seq fmap list_fmap rcv_put]. rewrite !Z.add_0_r. done.
  - rewrite span_S. cbn [rcv_put]. rewrite (proj2 (Z.ltb_lt 0 (rcv_free t))) by lia.
    destruct (ring_push S K t Hr ltac:(lia)) as [Hr' Hu']. set (t1 := t <| rcvring := _ |> <| rcvhead := _ |>) in *.
    destruct (IH (K + 1) t1 Hr') as (A & B & C & D & E & F); [unfold rcv_free in *; lia|].
    split; [replace (K + Z.of_nat (Datatypes.S n)) with (K + 1 + Z.of_nat n) by lia; done|]. split; [lia|]. done.
Qed.

(** ** What the sending side leaves alone *)

Definition opening (t : tcpcb) : bool := match state t with LISTEN | SYN_SENT => true | _ => false end.
(** The fields of the receiving side, and the pool of held segments. *)
Definition names (t : tcpcb) : Z * Z * Z * Z := (local_ip t, local_port t, remote_ip t, remote_port t).
Definition rcv_part (t : tcpcb) : bool * tcp_state * Z * (Z -> Z) * Z * Z * list held * bool * (Z * Z * Z * Z) :=
  (used t, state t, rcv_nxt t, rcvring t, rcvhead t, rcvtail t, ooo t, fin_rcvd t, names t).
Definition pool_part (g : shared) : list (list Z) * list bool := (ooo_pool g, ooo_used g).
Definition quiet (p p' : tcpcb * shared) : Prop := rcv_part p'.1 = rcv_part p.1 /\ pool_part p'.2 = pool_part p.2.

#[export] Instance quiet_preorder : PreOrder quiet.
Proof. split; [done|]. intros p q r [A B] [C D]. unfold quiet. by rewrite C, D. Qed.

Section quiet.
Variable ip_output : Z -> list Z -> shared -> Z.
Variable random_u32 : shared -> Z.

Lemma to_ip_pool dst seg g : pool_part (to_ip ip_output dst seg g).2 = pool_part g.
Proof. done. Qed.
Lemma send_seg_pool t seq flags data g : pool_part (send_seg ip_output t seq flags data g).2 = pool_part g.
Proof.
  unfold send_seg. destruct (_ <? _); [done|]. set (knob := negb _ && _ && _).
  destruct knob; cbn [andb]; [|apply to_ip_pool]. destruct (_ =? _); [done|]. by rewrite to_ip_pool.
Qed.
Lemma send_ack_pool t g : pool_part (send_ack ip_output t g) = pool_part g.
Proof. apply send_seg_pool. Qed.
Lemma send_rst_pool src dst h n g : pool_part (send_rst ip_output src dst h n g) = pool_part g.
Proof. unfold send_rst. by destruct (has _ _). Qed.

Lemma send_range_quiet seq n t g : let '(_, t', g') := send_range ip_output seq n t g in quiet (t, g) (t', g').
Proof.
  unfold send_range. pose proof (send_seg_pool t seq (Z.lor TCP_ACK TCP_PSH) (snd_copy t (u32 (seq - snd_una t)) n) g) as Hp.
  destruct (send_seg _ _ _ _ _ _) as [err g']. split; [|done]. cbn [fst].
  destruct ((err =? 0) && seq_gt (snd_max t) seq), (_ && _); done.
Qed.
Lemma arm_rexmit_rcv t g : rcv_part (arm_rexmit t g) = rcv_part t.
Proof. unfold arm_rexmit. by destruct (_ =? _). Qed.

Lemma send_loop_quiet fuel t g : quiet (t, g) (send_loop ip_output fuel t g).
Proof.
  revert t g. induction fuel as [|fuel IH]; intros t g; [done|]. cbn [send_loop].
  destruct (_ <=? _); [done|]. destruct (_ <=? _); [done|]. destruct (negb _).
  - set (t1 := t <| snd_nxt := _ |>). transitivity (t1, g); [done|]. apply IH.
  - set (n := before_sacked _ _ _). pose proof (send_range_quiet (snd_nxt t) n t g) as Hq.
    destruct (send_range _ _ _ _ _) as [[err t1] g1]. destruct (err <? 0).
    + split; [cbn [fst]; rewrite arm_rexmit_rcv|]; apply Hq.
    + match goal with |- quiet _ (send_loop _ _ (arm_rexmit ?x _) _) => set (t2 := x) end.
      assert (E : rcv_part t2 = rcv_part t1) by (unfold t2; by destruct (negb (ts_ok t1) && _)).
      transitivity (arm_rexmit t2 g1, g1); [|apply IH]. split; [cbn [fst]; rewrite arm_rexmit_rcv, E|]; apply Hq.
Qed.
Lemma send_fin_quiet t g : quiet (t, g) (send_fin ip_output t g).
Proof.
  unfold send_fin. destruct (_ && _); [|done].
  pose proof (send_seg_pool t (snd_nxt t) (Z.lor TCP_ACK TCP_FIN) [] g) as Hp.
  destruct (send_seg _ _ _ _ _ _) as [err g']. destruct (err =? 0); [|done].
  split; [cbn [fst]; by rewrite arm_rexmit_rcv|done].
Qed.
Lemma send_data_quiet t g : quiet (t, g) (send_data ip_output t g).
Proof.
  unfold send_data. destruct (negb _); [done|].
  pose proof (send_loop_quiet (S (Z.to_nat (sndlen t))) t g) as Hq.
  destruct (send_loop _ _ _ _) as [t1 g1]. etransitivity; [exact Hq|apply send_fin_quiet].
Qed.

Lemma sack_add_rcv st en t : rcv_part (sack_add st en t) = rcv_part t.
Proof.
  unfold sack_add. destruct (_ || _); [done|]. destruct (find_idx _ _); [done|]. by destruct (_ <? _)%nat.
Qed.
Lemma sack_adds_rcv bl t : rcv_part (foldl (fun t '(st, en) => sack_add st en t) t bl) = rcv_part t.
Proof. revert t. induction bl as [|[st en] bl IH]; intros t; [done|]. cbn [foldl]. by rewrite IH, sack_add_rcv. Qed.
Lemma sack_rexmit_hole_quiet t g : let '(_, t', g') := sack_rexmit_hole ip_output t g in quiet (t, g) (t', g').
Proof.
  unfold sack_rexmit_hole. set (seq := skip_sacked _ _ _). destruct (negb _); [done|]. set (n := if TCP_MSS <? _ then _ else _).
  destruct (n =? 0); [done|]. pose proof (send_range_quiet seq n t g) as Hq.
  destruct (send_range _ _ _ _ _) as [[err t1] g1]. by destruct (err <? 0).
Qed.
(** A hole is resent only when the peer reports what it holds. *)
Lemma maybe_hole_quiet (b : bool) t g :
  let '(_, t', g') := if b then sack_rexmit_hole ip_output t g else (false, t, g) in quiet (t, g) (t', g').
Proof. destruct b; [apply sack_rexmit_hole_quiet|done]. Qed.

Lemma dup_ack_quiet t g : quiet (t, g) (dup_ack ip_output t g).
Proof.
  unfold dup_ack. set (t0 := t <| dupacks := _ |>). destruct (_ && _).
  - set (t1 := cwnd_on_loss false t0 <| in_recovery := _ |> <| recover := _ |> <| cwnd := _ |> <| rtt_timing := _ |> <| high_rxt := _ |>).
    assert (H1 : quiet (t, g) (t1, g)) by done. pose proof (maybe_hole_quiet (sack_ok t1) t1 g) as Hq.
    destruct (if sack_ok t1 then _ else _) as [[hole t2] g2]. destruct hole; [by etransitivity|].
    set (n := if TCP_MSS <? _ then _ else _). destruct (0 <? n); [|by etransitivity].
    pose proof (send_range_quiet (snd_una t2) n t2 g2) as Hr. destruct (send_range _ _ _ _ _) as [[err t3] g3].
    transitivity (t3, g3); [|done]. etransitivity; [exact H1|]. by etransitivity.
  - destruct (in_recovery t0); [|done]. set (t1 := t0 <| cwnd := _ |>). assert (H1 : quiet (t, g) (t1, g)) by done.
    pose proof (maybe_hole_quiet (sack_ok t1) t1 g) as Hq.
    destruct (if sack_ok t1 then _ else _) as [[hole t2] g2]. etransitivity; [exact H1|].
    destruct hole; [done|]. etransitivity; [exact Hq|]. apply send_data_quiet.
Qed.
Lemma rtt_update_rcv ms t : rcv_part (rtt_update ms t) = rcv_part t.
Proof. unfold rtt_update. by destruct (negb _). Qed.
Lemma measure_rcv ack o t g : rcv_part (measure ack o t g) = rcv_part t.
Proof.
  unfold measure. destruct (_ && _).
  - destruct (_ && _); [apply rtt_update_rcv|done].
  - destruct (_ && _); [|done]. match goal with |- rcv_part (?x <| rtt_timing := _ |>) = _ => transitivity (rcv_part x); [done|] end.
    apply rtt_update_rcv.
Qed.
Lemma new_ack_quiet ack o t g : quiet (t, g) (new_ack ip_output ack o t g).
Proof.
  unfold new_ack. pose proof (measure_rcv ack o (t <| dupacks := 0 |>) g) as H0. set (t0 := measure _ _ _ _) in *.
  set (t1 := if in_recovery t0 then _ else _).
  assert (H1 : rcv_part t1 = rcv_part t0).
  { unfold t1. destruct (in_recovery t0); [by destruct (seq_ge _ _)|done]. }
  set (a := if sndlen t1 <? _ then _ else _). set (t2 := if 0 <? a then _ else _).
  assert (H2 : rcv_part t2 = rcv_part t1) by (unfold t2; by destruct (0 <? a)).
  set (t3 := sack_trim _). assert (H3 : rcv_part t3 = rcv_part t2) by done.
  pose proof (maybe_hole_quiet (in_recovery t3 && sack_ok t3) t3 g) as Hq.
  assert (Hp : quiet (t, g) (t3, g)) by (split; [cbn [fst]; by rewrite H3, H2, H1, H0|done]).
  destruct (in_recovery t3 && sack_ok t3).
  - destruct (sack_rexmit_hole _ _ _) as [[hole t4] g4]. transitivity (t4, g4); [etransitivity; [exact Hp|exact Hq]|by split].
  - transitivity (t3, g); [exact Hp|]. by split.
Qed.
Lemma ack_sent_data_quiet ack n w o t g : quiet (t, g) (ack_sent_data ip_output ack n w o t g).
Proof.
  unfold ack_sent_data. set (t1 := if sack_ok t then _ else _).
  assert (H1 : quiet (t, g) (t1, g)) by (split; [cbn [fst]; unfold t1; destruct (sack_ok t); [apply sack_adds_rcv|done]|done]).
  etransitivity; [exact H1|]. destruct (negb _); [|apply new_ack_quiet]. destruct (_ && _); [apply dup_ack_quiet|done].
Qed.
Lemma agree_opts_rcv o t g : rcv_part (agree_opts o t g) = rcv_part t.
Proof. unfold agree_opts. by destruct (p_ts o). Qed.
Lemma tcp_send_quiet data t g : let '(_, t', g') := tcp_send ip_output data t g in quiet (t, g) (t', g').
Proof.
  unfold tcp_send. destruct (_ || _); [done|]. destruct (_ && _); [done|]. destruct (_ || _); [done|]. destruct (_ =? 0); [done|].
  set (t1 := t <| sndring := _ |> <| sndlen := _ |>). pose proof (send_data_quiet t1 g) as Hq.
  destruct (send_data _ _ _) as [t2 g2]. by transitivity (t1, g).
Qed.
Lemma keep_timer_quiet t g : let '(_, t', g') := keep_timer ip_output t g in quiet (t, g) (t', g').
Proof.
  unfold keep_timer. destruct (_ && _); [|done]. set (t1 := if _ && _ then _ else _).
  assert (H1 : rcv_part t1 = rcv_part t) by (unfold t1; by destruct (_ && _)). destruct (reached _ _); [|done].
  destruct (_ <=? _); [done|]. pose proof (send_seg_pool t1 (u32 (snd_una t1 - 1)) TCP_ACK [] g) as Hp.
  destruct (send_seg _ _ _ _ _ _) as [e g1]. done.
Qed.
End quiet.

(** ** Slots of the pool

    The pool belongs to all connections. A slot in use is held by one entry
    of one connection; what one connection does leaves the slots of the
    others alone. *)

Definition holds (t : tcpcb) (k : nat) : Prop := exists i o, ooo t !! i = Some o /\ o_used o = true /\ o_slot o = k.
Definition taken (g : shared) (k : nat) : Prop := ooo_used g !! k = Some true.

Record slots_ok (t : tcpcb) (g : shared) : Prop := {
  so_len : length (ooo t) = TCP_OOO_PER_CB;
  so_pool : length (ooo_pool g) = TCP_OOO_SLOTS;
  so_used : length (ooo_used g) = TCP_OOO_SLOTS;
  so_taken : forall k, holds t k -> taken g k;
  so_once : forall i j o o', ooo t !! i = Some o -> ooo t !! j = Some o' -> o_used o = true -> o_used o' = true ->
    o_slot o = o_slot o' -> i = j }.

(** From [(t, g)] to [(t', g')] nothing of another connection changes, and no
    slot is taken that nobody holds. *)
Record frame (t : tcpcb) (g : shared) (t' : tcpcb) (g' : shared) : Prop := {
  fr_keep : forall k, taken g k -> ~ holds t k -> taken g' k /\ ooo_pool g' !! k = ooo_pool g !! k /\ ~ holds t' k;
  fr_back : forall k, taken g' k -> holds t' k \/ (taken g k /\ ~ holds t k) }.
Definition pooled (p p' : tcpcb * shared) : Prop :=
  slots_ok p.1 p.2 -> slots_ok p'.1 p'.2 /\ frame p.1 p.2 p'.1 p'.2.

#[export] Instance holds_dec t k : Decision (holds t k).
Proof.
  destruct (find_idx (fun o => o_used o && (o_slot o =? k)%nat) (ooo t)) as [i|] eqn:E.
  - left. apply find_idx_Some in E as [(o & Ho & Hp) _]. apply andb_true_iff in Hp as [Hu Hs]. apply Nat.eqb_eq in Hs. by exists i, o.
  - right. intros (i & o & Ho & Hu & Hs). pose proof (proj1 (find_idx_None _ _) E i o Ho) as Hn. cbn in Hn.
    rewrite Hu, Hs, Nat.eqb_refl in Hn. done.
Qed.

#[export] Instance pooled_preorder : PreOrder pooled.
Proof.
  split.
  - intros [t g] Hs. split; [done|]. cbn. split; [done|]. intros k Hk. destruct (decide (holds t k)); auto.
  - intros [t g] [t1 g1] [t2 g2] H1 H2 Hs. destruct (H1 Hs) as [Hs1 [K1 B1]]. destruct (H2 Hs1) as [Hs2 [K2 B2]]. cbn in *.
    split; [done|]. split.
    + intros k Hk Hn. destruct (K1 k Hk Hn) as (A & B & C). destruct (K2 k A C) as (A2 & B2' & C2). by rewrite B2'.
    + intros k Hk. destruct (B2 k Hk) as [|[A B]]; [by left|]. destruct (B1 k A) as [|[A' B']]; [done|by right].
Qed.

(** Only the entries and the pool matter. *)
Lemma pooled_same t g t' g' : ooo t' = ooo t -> pool_part g' = pool_part g -> pooled (t, g) (t', g').
Proof.
  intros Et Eg Hs. injection Eg as Ep Eu. cbn in *.
  assert (Hh : forall k, holds t' k <-> holds t k) by (intros k; unfold holds; by rewrite Et).
  assert (Ht : forall k, taken g' k <-> taken g k) by (intros k; unfold taken; by rewrite Eu).
  destruct Hs as [A B C D E]. split.
  - constructor; rewrite ?Et, ?Ep, ?Eu; try done. intros k Hk. apply Ht, D, Hh, Hk.
  - split; intros k Hk; rewrite ?Ht, ?Hh, ?Ep in *; [done|]. destruct (decide (holds t k)); auto.
Qed.
Lemma quiet_pooled p p' : quiet p p' -> pooled p p'.
Proof. destruct p as [t g], p' as [t' g']. intros [E1 E2]. injection E1 as _ _ _ _ _ _ Eo _ _ _ _ _. by apply pooled_same. Qed.

Definition cleared (o : held) : held := mk_held false (o_slot o) (o_seq o) (o_len o) (o_when o).
Lemma ooo_release_eq i o t g : ooo t !! i = Some o -> o_used o = true ->
  ooo_release i t g = (t <| ooo := <[i := cleared o]> (ooo t) |>, g <| ooo_used := <[o_slot o := false]> (ooo_used g) |>).
Proof. intros Ho Hu. unfold ooo_release. by rewrite Ho, Hu. Qed.

Lemma release_holds i o t g k : slots_ok t g -> ooo t !! i = Some o -> o_used o = true ->
  holds (t <| ooo := <[i := cleared o]> (ooo t) |>) k <-> holds t k /\ k <> o_slot o.
Proof.
  intros Hs Ho Hu. unfold holds. cbn [ooo store]. split.
  - intros (j & o' & Hj & Hu' & Hk). destruct (decide (i = j)) as [->|Hne].
    + rewrite list_lookup_insert_eq in Hj by (by eapply lookup_lt_Some). injection Hj as <-. done.
    + rewrite list_lookup_insert_ne in Hj by done. split; [by exists j, o'|]. intros ->.
      apply Hne. eapply (so_once t g Hs); [exact Ho|exact Hj|done|done|done].
  - intros [(j & o' & Hj & Hu' & Hk) Hne]. exists j, o'. rewrite list_lookup_insert_ne; [done|].
    intros ->. congruence.
Qed.
Lemma ooo_release_pooled i t g : pooled (t, g) (ooo_release i t g).
Proof.
  destruct (ooo t !! i) as [o|] eqn:Ho; [|by unfold ooo_release; rewrite Ho].
  destruct (o_used o) eqn:Hu; [|by unfold ooo_release; rewrite Ho, Hu].
  rewrite (ooo_release_eq i o) by done. intros Hs. cbn [fst snd] in *.
  assert (Hsl : taken g (o_slot o)) by (apply (so_taken _ _ Hs); by exists i, o).
  assert (Hlt : (o_slot o < length (ooo_used g))%nat) by (by eapply lookup_lt_Some).
  set (t' := t <| ooo := _ |>). set (g' := g <| ooo_used := _ |>).
  assert (Ht : forall k, taken g' k <-> taken g k /\ k <> o_slot o).
  { intros k. unfold taken, g'. cbn [ooo_used store]. destruct (decide (k = o_slot o)) as [->|Hne].
    - rewrite list_lookup_insert_eq by done. naive_solver.
    - rewrite list_lookup_insert_ne by done. naive_solver. }
  split; [constructor|split].
  - cbn. rewrite length_insert. apply Hs.
  - apply Hs.
  - cbn. rewrite length_insert. apply Hs.
  - intros k Hk. apply (release_holds i o t g) in Hk as [Hk Hne]; [|done..]. apply Ht. split; [by apply (so_taken _ _ Hs)|done].
  - intros a b oa ob. unfold t'. cbn [ooo store]. rewrite !list_lookup_insert. intros Ha Hb Hua Hub.
    repeat case_decide; simplify_eq; try done. by apply (so_once _ _ Hs a b oa ob).
  - intros k Hk Hn. rewrite Ht. assert (k <> o_slot o) by (intros ->; apply Hn; by exists i, o).
    split; [done|]. split; [done|]. intros Hh. apply (release_holds i o t g) in Hh as [Hh _]; done.
  - intros k Hk. apply Ht in Hk as [Hk Hne]. destruct (decide (holds t k)) as [Hh|Hh]; [left|by right].
    by apply (release_holds i o t g).
Qed.
Lemma ooo_flush_pooled t g : pooled (t, g) (ooo_flush t g).
Proof.
  unfold ooo_flush. apply (for_upto_ind (fun _ p => pooled (t, g) p)); [done|].
  intros k [t1 g1] _ IH. etransitivity; [exact IH|apply ooo_release_pooled].
Qed.
(** A connection that was flushed holds nothing. *)
Lemma ooo_flush_none t g k : slots_ok t g -> ~ holds (ooo_flush t g).1 k.
Proof.
  intros Hs.
  assert (H : slots_ok (ooo_flush t g).1 (ooo_flush t g).2 /\
              forall i o, (i < TCP_OOO_PER_CB)%nat -> ooo (ooo_flush t g).1 !! i = Some o -> o_used o = false).
  { unfold ooo_flush.
    apply (for_upto_ind (fun n p => slots_ok p.1 p.2 /\ forall i o, (i < n)%nat -> ooo p.1 !! i = Some o -> o_used o = false)).
    { split; [done|lia]. }
    intros n [t1 g1] _ [Hs1 IH]. split; [by apply ooo_release_pooled|]. intros i o Hi. unfold ooo_release. cbn [fst snd] in *.
    destruct (ooo t1 !! n) as [x|] eqn:Hx.
    - destruct (o_used x) eqn:Hu.
      + cbn [fst ooo store]. rewrite list_lookup_insert. case_decide as Hd; [by intros [= <-]|]. intros Ho. apply (IH i o); [|done].
        assert (n < length (ooo t1))%nat by (by eapply lookup_lt_Some). lia.
      + cbn [fst]. intros Ho. destruct (decide (i = n)) as [->|]; [congruence|]. apply (IH i o); [lia|done].
    - cbn [fst]. intros Ho. destruct (decide (i = n)) as [->|]; [congruence|]. apply (IH i o); [lia|done]. }
  destruct H as [Hs1 Hf]. intros (i & o & Ho & Hu & _). rewrite (Hf i o) in Hu; [done| |done].
  rewrite <- (so_len _ _ Hs1). by eapply lookup_lt_Some.
Qed.

(** What ooo_queue does when it keeps a segment. *)
Definition queued (i slot : nat) (seq : Z) (data : list Z) (t : tcpcb) (g : shared) : tcpcb * shared :=
  let clock := u32 (ooo_clock g + 1) in
  (t <| ooo := <[i := mk_held true slot seq (Z.of_nat (length data)) clock]> (ooo t) |>,
   g <| ooo_used := <[slot := true]> (ooo_used g) |>
     <| ooo_pool := <[slot := data ++ drop (length data) (default [] (ooo_pool g !! slot))]> (ooo_pool g) |> <| ooo_clock := clock |>).
Lemma ooo_queue_cases seq data t g :
  ooo_queue seq data t g = (t, g) \/
  exists i slot x, ooo t !! i = Some x /\ o_used x = false /\ ooo_used g !! slot = Some false /\
    0 < Z.of_nat (length data) <= TCP_MSS /\ ooo_queue seq data t g = queued i slot seq data t g.
Proof.
  unfold ooo_queue. destruct ((_ =? 0) || (_ <? _)) eqn:El; [by left|]. case_bool_decide; [by left|].
  destruct (find_idx (fun o => negb (o_used o)) (ooo t)) as [i|] eqn:Ei; [|by left].
  apply find_idx_Some in Ei as [(x & Hx & Hu) _]. unfold ooo_get_slot.
  destruct (find_idx negb (ooo_used g)) as [slot|] eqn:Es; [|by left].
  apply find_idx_Some in Es as [(b & Hb & Hn) _]. destruct b; [done|]. right. exists i, slot, x.
  split; [done|]. split; [by destruct (o_used x)|]. split; [done|]. split; [|done].
  apply orb_false_iff in El as [E1 E2]. apply Z.eqb_neq in E1. apply Z.ltb_ge in E2. lia.
Qed.
Lemma queued_pooled i slot x seq data t g : ooo t !! i = Some x -> o_used x = false -> ooo_used g !! slot = Some false ->
  pooled (t, g) (queued i slot seq data t g).
Proof.
  intros Hx Hu Hf Hs. unfold queued. cbn [fst snd] in *. set (o := mk_held _ _ _ _ _). set (t' := t <| ooo := _ |>).
  set (g' := g <| ooo_used := _ |> <| ooo_pool := _ |> <| ooo_clock := _ |>).
  assert (Hi : (i < length (ooo t))%nat) by (by eapply lookup_lt_Some).
  assert (Hsl : (slot < length (ooo_used g))%nat) by (by eapply lookup_lt_Some).
  assert (Hns : ~ holds t slot) by (intros Hh; pose proof (so_taken _ _ Hs _ Hh) as Ht; unfold taken in Ht; congruence).
  assert (Hh : forall k, holds t' k <-> k = slot \/ holds t k).
  { intros k. unfold holds, t'. cbn [ooo store]. split.
    - intros (j & y & Hj & Huy & Hk). rewrite list_lookup_insert in Hj. case_decide; [left; by simplify_eq|right; by exists j, y].
    - intros [->|(j & y & Hj & Huy & Hk)]; [exists i, o; by rewrite list_lookup_insert_eq|].
      exists j, y. rewrite list_lookup_insert_ne by congruence. done. }
  assert (Ht : forall k, taken g' k <-> k = slot \/ taken g k).
  { intros k. unfold taken, g'. cbn [ooo_used store]. rewrite list_lookup_insert. case_decide as Hd.
    - destruct Hd as [<- _]. naive_solver.
    - split; [by right|]. intros [->|]; [tauto|done]. }
  split; [constructor|split].
  - cbn. rewrite length_insert. apply Hs.
  - cbn. rewrite length_insert. apply Hs.
  - cbn. rewrite length_insert. apply Hs.
  - intros k Hk. apply Ht. apply Hh in Hk as [->|Hk]; [by left|right; by apply (so_taken _ _ Hs)].
  - intros a b oa ob. unfold t'. cbn [ooo store]. rewrite !list_lookup_insert. intros Ha Hb Hua Hub Es.
    case_decide as Da; case_decide as Db.
    + destruct Da, Db. congruence.
    + exfalso. apply Hns. exists a, oa. split; [done|]. split; [done|]. by injection Hb as <-.
    + exfalso. apply Hns. exists b, ob. split; [done|]. split; [done|]. by injection Ha as <-.
    + by apply (so_once _ _ Hs a b oa ob).
  - intros k Hk Hn. assert (k <> slot) by (intros ->; unfold taken in Hk; congruence).
    rewrite Ht, Hh. split; [by right|]. split; [|tauto]. cbn. by rewrite list_lookup_insert_ne.
  - intros k Hk. rewrite Hh. apply Ht in Hk as [->|Hk]; [by left; left|]. destruct (decide (holds t k)); auto.
Qed.
Lemma ooo_queue_pooled seq data t g : pooled (t, g) (ooo_queue seq data t g).
Proof.
  destruct (ooo_queue_cases seq data t g) as [->|(i & slot & x & Hx & Hu & Hf & _ & ->)]; [done|].
  by eapply queued_pooled.
Qed.
Lemma rcv_put_ooo bs t : ooo (rcv_put bs t) = ooo t.
Proof. revert t. induction bs as [|b bs IH]; intros t; [done|]. cbn [rcv_put]. destruct (_ <? _); [by rewrite IH|done]. Qed.

Lemma drain_one_pooled i t g b : let '(t', g', _) := drain_one i (t, g, b) in pooled (t, g) (t', g').
Proof.
  unfold drain_one. destruct (ooo t !! i) as [h|] eqn:Eh; [|done]. destruct (_ && _); [|done].
  set (t1 := if _ <? o_len h then _ else t).
  assert (H1 : pooled (t, g) (t1, g)).
  { apply pooled_same; [|done]. unfold t1. destruct (_ <? _); [|done]. cbn [ooo store]. by rewrite rcv_put_ooo. }
  pose proof (ooo_release_pooled i t1 g) as H2. destruct (ooo_release i t1 g) as [t2 g2]. by etransitivity.
Qed.
Lemma drain_pooled fuel t g : pooled (t, g) (drain fuel t g).
Proof.
  revert t g. induction fuel as [|fuel IH]; intros t g; [done|]. cbn [drain].
  assert (H : let '(t', g', _) := for_upto TCP_OOO_PER_CB drain_one (t, g, false) in pooled (t, g) (t', g')).
  { apply (for_upto_ind (fun _ s => let '(t', g', _) := s in pooled (t, g) (t', g'))); [done|].
    intros k [[t1 g1] b1] _ H1. pose proof (drain_one_pooled k t1 g1 b1) as H2. destruct (drain_one k _) as [[t2 g2] b2].
    by etransitivity. }
  destruct (for_upto _ _ _) as [[t1 g1] b1]. destruct b1; [|done]. etransitivity; [exact H|apply IH].
Qed.

(** ** The stream

    The peer sends the bytes [S 0], [S 1], .. up to [total]; the first has
    sequence number [base]. *)
Section stream.
Context (S : Z -> Z) (base total : Z).

(** An entry holds bytes of the stream from a position past [lo]. *)
Definition entry_ok (K lo : Z) (g : shared) (o : held) : Prop :=
  exists q, o_seq o = u32 (base + q) /\ lo < q /\ q - K < 2147483647 /\ q + o_len o <= total /\ 0 < o_len o <= TCP_MSS /\
    take (Z.to_nat (o_len o)) (default [] (ooo_pool g !! o_slot o)) = span S q (Z.to_nat (o_len o)).

(** [K] bytes have arrived in order. *)
Record recv_inv (lo K : Z) (t : tcpcb) (g : shared) : Prop := {
  ri_K : 0 <= K <= total;
  ri_nxt : rcv_nxt t = u32 (base + (K + Z.b2z (fin_rcvd t)));
  ri_fin : fin_rcvd t = true -> K = total;
  ri_ring : ring_ok S K t;
  ri_slots : slots_ok t g;
  ri_held : forall i o, ooo t !! i = Some o -> o_used o = true -> entry_ok K lo g o }.

Definition rcv_data (t : tcpcb) : Z * (Z -> Z) * Z * Z * list held * bool :=
  (rcv_nxt t, rcvring t, rcvhead t, rcvtail t, ooo t, fin_rcvd t).

Lemma recv_inv_same lo K t g t' g' : rcv_data t' = rcv_data t -> pool_part g' = pool_part g ->
  recv_inv lo K t g -> recv_inv lo K t' g'.
Proof.
  intros Et Eg [A B C [R1 R2 R3] E F]. assert (Es := pooled_same t g t' g').
  injection Et as E1 E2 E3 E4 E5 E6. injection Eg as Ep Eu.
  assert (Hu : rcv_used t' = rcv_used t) by (unfold rcv_used; by rewrite E3, E4).
  constructor; rewrite ?E1, ?E5, ?E6; try done.
  - constructor; rewrite ?E3, ?E4, ?Hu, ?E2; done.
  - apply Es; [done| |done]. unfold pool_part. by rewrite Ep, Eu.
  - intros i o Ho Hou. unfold entry_ok. rewrite Ep. by apply (F i o).
Qed.
Lemma quiet_data p p' : quiet p p' -> rcv_data p'.1 = rcv_data p.1.
Proof. intros [E _]. unfold rcv_data. injection E. intros. congruence. Qed.
Lemma recv_inv_quiet lo K p p' : quiet p p' -> recv_inv lo K p.1 p.2 -> recv_inv lo K p'.1 p'.2.
Proof. intros Hq. apply recv_inv_same; [by apply quiet_data|apply Hq]. Qed.

(** Lowering the bound. *)
Lemma recv_inv_weaken lo lo' K t g : lo' <= lo -> recv_inv lo K t g -> recv_inv lo' K t g.
Proof.
  intros Hlo [A B C D E F]. constructor; try done. intros i o Ho Hu. destruct (F i o Ho Hu) as (q & Q1 & Q2 & Q3).
  exists q. split; [done|]. split; [lia|done].
Qed.

(** Bytes of the stream enter in order. *)
Lemma recv_inv_put lo K t g n : recv_inv lo K t g -> fin_rcvd t = false -> Z.of_nat n <= rcv_free t -> K + Z.of_nat n <= total ->
  let t1 := rcv_put (span S K n) t in
  let t' := t1 <| rcv_nxt := u32 (rcv_nxt t1 + Z.of_nat n) |> in
  recv_inv lo (K + Z.of_nat n) t' g /\ fin_rcvd t' = false /\ rcv_free t' = rcv_free t - Z.of_nat n /\ ooo t' = ooo t.
Proof.
  intros [A B C D E F] Hf Hn Ht t1 t'. destruct (ring_put S K t n D Hn) as (R & U & N & O & G & _). fold t1 in R, U, N, O, G.
  split; [|split; [by change (fin_rcvd t') with (fin_rcvd t1); rewrite G|split; [|done]]].
  - constructor; try (change (ooo t') with (ooo t1); rewrite O).
    + lia.
    + change (fin_rcvd t') with (fin_rcvd t1). cbn [t' rcv_nxt store]. rewrite N, G, B, Hf. cbn [Z.b2z].
      rewrite u32_plus. f_equal. lia.
    + change (fin_rcvd t') with (fin_rcvd t1). by rewrite G, Hf.
    + destruct R as [R1 R2 R3]. constructor; done.
    + apply (pooled_same t g t' g); done.
    + intros i o Ho Hu. destruct (F i o Ho Hu) as (q & Q1 & Q2 & Q3 & Q4). exists q.
      split; [done|]. split; [done|]. split; [lia|done].
  - unfold rcv_free. change (rcv_used t') with (rcv_used t1). lia.
Qed.
Lemma recv_inv_release lo K t g i : recv_inv lo K t g -> let '(t', g') := ooo_release i t g in recv_inv lo K t' g'.
Proof.
  intros [A B C D E F]. pose proof (ooo_release_pooled i t g E) as [Hs _]. unfold ooo_release in *.
  destruct (ooo t !! i) as [o|] eqn:Ho; [|done]. destruct (o_used o) eqn:Hu; [|done]. cbn [fst snd] in Hs.
  constructor; try done; [by destruct D|].
  intros j x Hj Hx. cbn [ooo store] in Hj. rewrite list_lookup_insert in Hj. case_decide; [by simplify_eq|]. by apply (F j x).
Qed.

Lemma o_due K lo t g o : recv_inv lo K t g -> fin_rcvd t = false -> K - 2147483648 <= lo -> entry_ok K lo g o ->
  exists q, lo < q /\ q + o_len o <= total /\ 0 < o_len o <= TCP_MSS /\ seq_le (o_seq o) (rcv_nxt t) = (q <=? K) /\
    (q <= K -> u32 (rcv_nxt t - o_seq o) = K - q) /\
    take (Z.to_nat (o_len o)) (default [] (ooo_pool g !! o_slot o)) = span S q (Z.to_nat (o_len o)).
Proof.
  intros [A B C _ _ _] Hf Hlo (q & Q1 & Q2 & Q3 & Q4 & Q5 & Q6). exists q. rewrite B, Hf, Q1. cbn [Z.b2z]. rewrite Z.add_0_r.
  split; [done|]. split; [done|]. split; [done|]. split; [apply seq_le_pos; lia|]. split; [|done].
  intros Hq. apply u32_diff. lia.
Qed.

(** The number of entries in use; each turn of the loop over them that finds
    one due lets it go. *)
Definition in_use (t : tcpcb) : nat := length (filter (fun o => o_used o = true) (ooo t)).
Lemma in_use_release i o t g : ooo t !! i = Some o -> o_used o = true -> in_use t = Datatypes.S (in_use (ooo_release i t g).1).
Proof.
  intros Ho Hu. rewrite (ooo_release_eq i o) by done. unfold in_use. cbn [fst ooo store].
  rewrite insert_take_drop by (by eapply lookup_lt_Some).
  rewrite <- (take_drop_middle (ooo t) i o) at 1 by done. rewrite !filter_app, !length_app, filter_cons_True by done.
  rewrite filter_cons_False by done. cbn [length]. lia.
Qed.

Definition draining (K : Z) (t : tcpcb) (g : shared) : Prop := recv_inv (K + rcv_free t - TCP_RCVBUF) K t g /\ fin_rcvd t = false.
Definition not_due (t : tcpcb) (i : nat) : Prop := forall o, ooo t !! i = Some o -> o_used o = true -> seq_le (o_seq o) (rcv_nxt t) = false.

(** What is left of a held segment, from [K] on. *)
Lemma held_span K q len n pool : q <= K -> 0 <= n -> K - q + n <= len -> take (Z.to_nat len) pool = span S q (Z.to_nat len) ->
  sub pool (Z.to_nat (K - q)) (Z.to_nat n) = span S K (Z.to_nat n).
Proof.
  intros Hq Hn Hl E. transitivity (sub (span S q (Z.to_nat len)) (Z.to_nat (K - q)) (Z.to_nat n)).
  - rewrite <- E. unfold sub. rewrite skipn_firstn_comm, take_take. f_equal. lia.
  - rewrite span_sub by lia. f_equal. lia.
Qed.

(** Bytes came in and none was read: what is free went down by as much. *)
Definition moved (K : Z) (t : tcpcb) (K' : Z) (t' : tcpcb) : Prop := K <= K' /\ K' + rcv_free t' = K + rcv_free t.
Lemma moved_refl K t t' : rcv_free t' = rcv_free t -> moved K t K t'.
Proof. unfold moved. lia. Qed.
Lemma moved_trans K t K1 t1 K2 t2 : moved K t K1 t1 -> moved K1 t1 K2 t2 -> moved K t K2 t2.
Proof. unfold moved. lia. Qed.
Lemma data_free t t' : rcv_data t' = rcv_data t -> rcv_free t' = rcv_free t.
Proof. intros E. injection E as _ _ Eh Et _ _. unfold rcv_free, rcv_used. by rewrite Eh, Et. Qed.

Lemma drain_one_ok i K t g b : draining K t g ->
  let '(t', g', b') := drain_one i (t, g, b) in
  exists K', moved K t K' t' /\ draining K' t' g' /\
    ((t' = t /\ g' = g /\ b' = b /\ K' = K /\ not_due t i) \/ (b' = true /\ (in_use t' < in_use t)%nat)).
Proof.
  intros [Hi Hf]. pose proof (rcv_used_range t) as Hu. assert (Hfr : 0 <= rcv_free t < TCP_RCVBUF) by (unfold rcv_free; lia).
  unfold drain_one. destruct (ooo t !! i) as [o|] eqn:Eo.
  2:{ exists K. split; [by apply moved_refl|]. split; [done|]. left. unfold not_due. rewrite Eo. naive_solver. }
  destruct (o_used o) eqn:Eu; cbn [andb].
  2:{ exists K. split; [by apply moved_refl|]. split; [done|]. left. unfold not_due. rewrite Eo. do 4 (split; [done|]). intros ? [= <-]. congruence. }
  destruct (o_due K (K + rcv_free t - TCP_RCVBUF) t g o Hi Hf) as (q & Q1 & Q2 & Q3 & Q4 & Q5 & Q6).
  { unfold TCP_RCVBUF in *. lia. }
  { by apply (ri_held _ _ _ _ Hi i). }
  rewrite Q4. destruct (Z.leb_spec q K) as [Hq|Hq].
  2:{ exists K. split; [by apply moved_refl|]. split; [done|]. left. do 4 (split; [done|]). intros x Hx _. rewrite Hx in Eo. injection Eo as ->.
      done. }
  rewrite Q5 by done.
  (* the bytes it brings *)
  set (t1 := if _ <? o_len o then _ else t).
  assert (H1 : exists K', moved K t K' t1 /\ draining K' t1 g /\ ooo t1 = ooo t).
  { unfold t1. destruct (Z.ltb_spec (K - q) (o_len o)) as [Hl|Hl]; [|by exists K; split; [apply moved_refl|]].
    set (n := if rcv_free t <? o_len o - (K - q) then rcv_free t else o_len o - (K - q)).
    assert (Hn : 0 <= n <= rcv_free t /\ n <= o_len o - (K - q)) by (unfold n; zcase; lia).
    rewrite (held_span K q (o_len o) n) by (done || lia).
    destruct (recv_inv_put (K + rcv_free t - TCP_RCVBUF) K t g (Z.to_nat n)) as (P1 & P2 & P3 & P4); [done|done|lia|lia|].
    rewrite Z2Nat.id in P1, P2, P3, P4 by lia. exists (K + n). split; [unfold moved; lia|]. split; [|done].
    unfold draining. rewrite P3. split; [|done]. by replace (K + n + (rcv_free t - n) - TCP_RCVBUF) with (K + rcv_free t - TCP_RCVBUF) by lia. }
  destruct H1 as (K' & HK & [Hd1 Hd2] & Ho1). pose proof (recv_inv_release _ K' t1 g i Hd1) as Hr.
  pose proof (in_use_release i o t1 g) as Hc. rewrite Ho1 in Hc. specialize (Hc Eo Eu).
  assert (Hsame : rcv_free (ooo_release i t1 g).1 = rcv_free t1 /\ fin_rcvd (ooo_release i t1 g).1 = fin_rcvd t1).
  { rewrite (ooo_release_eq i o); [done|by rewrite Ho1|done]. }
  destruct (ooo_release i t1 g) as [t2 g2]. cbn [fst] in *. destruct Hsame as [S1 S2]. exists K'. split; [by unfold moved in *; rewrite S1|].
  split; [by unfold draining; rewrite S1, S2|]. right. split; [done|].
  replace (in_use t) with (in_use t1) by (unfold in_use; by rewrite Ho1). lia.
Qed.

Lemma drain_round K t g : draining K t g ->
  let '(t', g', b) := for_upto TCP_OOO_PER_CB drain_one (t, g, false) in
  exists K', moved K t K' t' /\ draining K' t' g' /\
    if b then (in_use t' < in_use t)%nat else K' = K /\ t' = t /\ g' = g /\ forall i, not_due t i.
Proof.
  intros Hd.
  assert (H : let '(t', g', b) := for_upto TCP_OOO_PER_CB drain_one (t, g, false) in
    exists K', moved K t K' t' /\ draining K' t' g' /\
      if b then (in_use t' < in_use t)%nat else K' = K /\ t' = t /\ g' = g /\ forall i, (i < TCP_OOO_PER_CB)%nat -> not_due t i).
  { apply (for_upto_ind (fun n '(t', g', b) => exists K', moved K t K' t' /\ draining K' t' g' /\
      if b : bool then (in_use t' < in_use t)%nat else K' = K /\ t' = t /\ g' = g /\ forall i, (i < n)%nat -> not_due t i)).
    { exists K. split; [by apply moved_refl|]. split; [done|]. do 3 (split; [done|]). lia. }
    intros n [[t1 g1] b1] _ (K1 & HK1 & Hd1 & Hb1). pose proof (drain_one_ok n K1 t1 g1 b1 Hd1) as Ho.
    destruct (drain_one n _) as [[t2 g2] b2]. destruct Ho as (K2 & HK2 & Hd2 & [(-> & -> & -> & -> & Hn)|[-> Hlt]]).
    - exists K1. split; [done|]. split; [done|]. destruct b1; [done|]. destruct Hb1 as (-> & -> & -> & Hall).
      do 3 (split; [done|]). intros i Hi. destruct (decide (i = n)) as [->|]; [done|]. apply Hall. lia.
    - exists K2. split; [by eapply moved_trans|]. split; [done|]. destruct b1; [lia|]. destruct Hb1 as (_ & -> & _). done. }
  destruct (for_upto _ _ _) as [[t1 g1] b1]. destruct H as (K' & HK & Hd' & Hb). exists K'. split; [done|]. split; [done|].
  destruct b1; [done|]. destruct Hb as (-> & -> & -> & Hall). do 3 (split; [done|]). intros i o Ho Hu.
  apply (Hall i); [|done|done]. rewrite <- (so_len _ _ (ri_slots _ _ _ _ (proj1 Hd))). by eapply lookup_lt_Some.
Qed.

(** With a round for each entry and one more, nothing due is left. *)
Lemma drain_ok fuel K t g : draining K t g -> (in_use t < fuel)%nat ->
  let '(t', g') := drain fuel t g in exists K', moved K t K' t' /\ recv_inv K' K' t' g' /\ fin_rcvd t' = false.
Proof.
  revert K t g. induction fuel as [|fuel IH]; intros K t g Hd Hf; [lia|]. cbn [drain].
  pose proof (drain_round K t g Hd) as Hr. destruct (for_upto _ _ _) as [[t1 g1] b1].
  destruct Hr as (K1 & HK & Hd1 & Hb). destruct b1.
  - pose proof (IH K1 t1 g1 Hd1 ltac:(lia)) as H2. destruct (drain fuel t1 g1) as [t2 g2]. destruct H2 as (K2 & HK2 & H2).
    exists K2. split; [by eapply moved_trans|done].
  - destruct Hb as (-> & -> & -> & Hn). exists K. split; [by apply moved_refl|]. destruct Hd as [Hi Hf0]. split; [|done].
    destruct Hi as [A B C D E F]. constructor; try done. intros i o Ho Hu.
    pose proof (rcv_used_range t) as Hru.
    destruct (F i o Ho Hu) as (q & Q1 & Q2 & Q3 & Q4 & Q5). exists q. split; [done|]. split; [|split; done].
    pose proof (Hn i o Ho Hu) as Hs. rewrite B, Hf0, Q1 in Hs. cbn [Z.b2z] in Hs. rewrite Z.add_0_r in Hs.
    rewrite seq_le_pos in Hs; [by apply Z.leb_gt|]. unfold rcv_free, TCP_RCVBUF in *. lia.
Qed.
Lemma in_use_le t g : slots_ok t g -> (in_use t <= TCP_OOO_PER_CB)%nat.
Proof. intros Hs. unfold in_use. rewrite <- (so_len _ _ Hs). apply length_filter. Qed.

(** A segment of the stream at position [q]. *)
Record from_stream (K q seq : Z) (data : list Z) : Prop := {
  fs_seq : seq = u32 (base + q);
  fs_near : -2147483647 <= q - K < 2147483647;
  fs_pos : 0 <= q /\ q + Z.of_nat (length data) <= total;
  fs_data : data = span S q (length data) }.

(** The next bytes, and what was held behind them. *)
Lemma take_next K data t g : recv_inv K K t g -> fin_rcvd t = false -> from_stream K K (rcv_nxt t) data ->
  let take := if rcv_free t <? Z.of_nat (length data) then rcv_free t else Z.of_nat (length data) in
  let t1 := rcv_put (firstn (Z.to_nat take) data) t in
  let '(t', g') := drain (Datatypes.S TCP_OOO_PER_CB) (t1 <| rcv_nxt := u32 (rcv_nxt t1 + take) |>) g in
  exists K', moved K t K' t' /\ recv_inv K' K' t' g' /\ fin_rcvd t' = false /\
    (Z.of_nat (length data) <= rcv_free t -> K + Z.of_nat (length data) <= K').
Proof.
  intros Hi Hf [_ _ Ep Ed] n. pose proof (rcv_used_range t) as Hru.
  assert (Hn : 0 <= n <= rcv_free t /\ n <= Z.of_nat (length data) /\ (Z.of_nat (length data) <= rcv_free t -> n = Z.of_nat (length data)))
    by (unfold n, rcv_free in *; zcase; lia).
  assert (Et : firstn (Z.to_nat n) data = span S K (Z.to_nat n)).
  { rewrite Ed. change (firstn ?a ?l) with (sub l 0 a). rewrite span_sub by lia. f_equal. lia. }
  rewrite Et. destruct (recv_inv_put K K t g (Z.to_nat n)) as (P1 & P2 & P3 & P4); [done|done|lia|lia|].
  rewrite Z2Nat.id in P1, P2, P3, P4 by lia. cbv zeta. set (t1 := rcv_put _ _ <| rcv_nxt := _ |>) in *.
  assert (Hd : draining (K + n) t1 g).
  { split; [|done]. eapply recv_inv_weaken; [|exact P1]. rewrite P3. unfold rcv_free in *. lia. }
  pose proof (drain_ok (Datatypes.S TCP_OOO_PER_CB) (K + n) t1 g Hd) as Hdr.
  destruct (drain _ t1 g) as [t2 g2]. destruct Hdr as (K2 & HK2 & Hi2 & Hf2).
  { pose proof (in_use_le t1 g (ri_slots _ _ _ _ P1)). lia. }
  exists K2. split; [unfold moved in *; lia|]. split; [done|]. split; [done|]. unfold moved in *; lia.
Qed.
(** A segment held for later. *)
Lemma recv_inv_queue K q seq data t g : recv_inv K K t g -> from_stream K q seq data -> K < q ->
  recv_inv K K (ooo_queue seq data t g).1 (ooo_queue seq data t g).2 /\ fin_rcvd (ooo_queue seq data t g).1 = fin_rcvd t /\
  rcv_free (ooo_queue seq data t g).1 = rcv_free t.
Proof.
  intros Hi [Es En Ep Ed] Hq. pose proof (ooo_queue_pooled seq data t g (ri_slots _ _ _ _ Hi)) as [Hso Hfr].
  destruct (ooo_queue_cases seq data t g) as [E|(i & slot & x & Hx & Hu & Hfree & Hlen & E)]; rewrite E in *; [done|].
  split; [|done]. destruct Hi as [A B C D F G]. constructor; try done; [by destruct D|].
  intros j o Hj Huo. unfold queued in Hj. cbn [fst ooo store] in Hj. rewrite list_lookup_insert in Hj. case_decide as Hd.
  - injection Hj as <-. exists q. cbn [o_seq o_len o_slot snd queued ooo_pool store]. split; [done|]. split; [done|].
    split; [lia|]. split; [lia|]. split; [lia|].
    rewrite list_lookup_insert_eq by (rewrite (so_pool _ _ F), <- (so_used _ _ F); by eapply lookup_lt_Some).
    rewrite Nat2Z.id. cbn [from_option id]. by rewrite take_app_length.
  - destruct (G j o Hj Huo) as (p & Q). exists p. cbn [snd queued ooo_pool store].
    rewrite list_lookup_insert_ne; [done|]. intros ->.
    assert (Ht : taken g (o_slot o)) by (apply (so_taken _ _ F); by exists j, o). unfold taken in Ht. congruence.
Qed.

Lemma take_data_ok ip_output K q seq data t g : recv_inv K K t g -> from_stream K q seq data -> data <> [] ->
  let '(t', g') := take_data ip_output seq data t g in
  exists K', moved K t K' t' /\ recv_inv K' K' t' g' /\ fin_rcvd t' = fin_rcvd t /\
    (q = K -> Z.of_nat (length data) <= rcv_free t -> K + Z.of_nat (length data) <= K') /\ (q <> K -> K' = K).
Proof.
  intros Hi Hfs Hne. assert (Hl : 0 < Z.of_nat (length data)) by (destruct data; cbn [length]; done || lia).
  pose proof (ri_nxt _ _ _ _ Hi) as Enx. pose proof (ri_fin _ _ _ _ Hi) as Hfin. pose proof Hfs as [Es En Ep Ed]. unfold take_data.
  assert (Hb : 0 <= Z.b2z (fin_rcvd t) <= 1) by (destruct (fin_rcvd t); cbn; lia).
  destruct (Z.eqb_spec seq (rcv_nxt t)) as [Eq|Nq].
  - assert (q = K /\ fin_rcvd t = false) as [-> Hf].
    { rewrite Es, Enx in Eq. apply u32_eq in Eq; [|lia].
      destruct (fin_rcvd t); cbn in Eq; [specialize (Hfin eq_refl); lia|split; [lia|done]]. }
    rewrite Eq in Hfs. pose proof (take_next K data t g Hi Hf Hfs) as Hd. cbv zeta in Hd. cbv zeta.
    destruct (drain _ _ g) as [t2 g2]. destruct Hd as (K2 & HK2 & Hi2 & Hf2 & Hfit).
    assert (Hgoal : forall t3 g3, rcv_data t3 = rcv_data t2 -> pool_part g3 = pool_part g2 ->
      exists K', moved K t K' t3 /\ recv_inv K' K' t3 g3 /\ fin_rcvd t3 = fin_rcvd t /\
        (K = K -> Z.of_nat (length data) <= rcv_free t -> K + Z.of_nat (length data) <= K') /\ (K <> K -> K' = K)).
    { intros t3 g3 E1 E2. exists K2. split; [apply data_free in E1; unfold moved in *; lia|]. split; [by apply (recv_inv_same K2 K2 t2 g2)|].
      split; [injection E1 as _ _ _ _ _ ->; by rewrite Hf, Hf2|]. split; [lia|done]. }
    destruct (2 <=? _); [apply Hgoal; [done|apply send_ack_pool]|]. destruct (_ =? 0); by apply Hgoal.
  - assert (Hqk : q = K -> K = total).
    { intros ->. destruct (fin_rcvd t) eqn:Ef; [by apply Hfin|]. exfalso. apply Nq. rewrite Es, Enx. f_equal. cbn. lia. }
    assert (Hgoal : forall t3 g3, recv_inv K K t3 g3 -> fin_rcvd t3 = fin_rcvd t -> rcv_free t3 = rcv_free t ->
      exists K', moved K t K' t3 /\ recv_inv K' K' t3 g3 /\ fin_rcvd t3 = fin_rcvd t /\
        (q = K -> Z.of_nat (length data) <= rcv_free t -> K + Z.of_nat (length data) <= K') /\ (q <> K -> K' = K)).
    { intros t3 g3 Hi3 Hf3 Hr3. exists K. split; [by apply moved_refl|]. split; [done|]. split; [done|]. split; [lia|done]. }
    destruct (seq_gt seq (rcv_nxt t)) eqn:Eg.
    + rewrite Es, Enx, seq_gt_pos in Eg by lia. apply Z.ltb_lt in Eg.
      destruct (recv_inv_queue K q seq data t g Hi Hfs ltac:(lia)) as (Hi1 & Hf1 & Hr1).
      destruct (ooo_queue seq data t g) as [t1 g1]. apply Hgoal; [|done|done].
      apply (recv_inv_same K K t1 g1); [done|apply send_ack_pool|done].
    + apply Hgoal; [|done|done]. apply (recv_inv_same K K t g); [done|apply send_ack_pool|done].
Qed.

(** What an operation on an open connection does to the receiving side. *)
Record advance (K : Z) (t : tcpcb) (K' : Z) (t' : tcpcb) (g' : shared) : Prop := {
  ad_moved : moved K t K' t';
  ad_inv : recv_inv K' K' t' g';
  ad_open : opening t' = false;
  ad_used : used t' = used t }.
Lemma advance_quiet K t K' t1 g1 t2 g2 : advance K t K' t1 g1 -> quiet (t1, g1) (t2, g2) -> advance K t K' t2 g2.
Proof.
  intros [A B C D] Hq. pose proof (quiet_data _ _ Hq) as Ed. cbn [fst] in Ed. pose proof Hq as [E _].
  injection E as E1 E2 _ _ _ _ _ _ _ _ _ _.
  constructor; [|by apply (recv_inv_quiet K' K' (t1, g1) (t2, g2))|unfold opening in *; by rewrite E2|congruence].
  apply data_free in Ed. unfold moved in *. lia.
Qed.
Lemma advance_step K t K1 t1 g1 K2 t2 g2 : advance K t K1 t1 g1 -> advance K1 t1 K2 t2 g2 -> advance K t K2 t2 g2.
Proof. intros [A B C D] [A' B' C' D']. constructor; [by eapply moved_trans|done|done|congruence]. Qed.
Lemma advance_refl K t g : recv_inv K K t g -> opening t = false -> advance K t K t g.
Proof. intros Hi Ho. constructor; [by apply moved_refl|done|done|done]. Qed.
(** A change of the state alone. *)
Lemma advance_state K t g t' : recv_inv K K t g -> rcv_data t' = rcv_data t -> opening t' = false -> used t' = used t ->
  advance K t K t' g.
Proof.
  intros Hi Ed Ho Hu. constructor; [by apply moved_refl, data_free|by eapply recv_inv_same|done|done].
Qed.

Lemma rcv_put_same bs t : used (rcv_put bs t) = used t /\ state (rcv_put bs t) = state t.
Proof. revert t. induction bs as [|b bs IH]; intros t; [done|]. cbn [rcv_put]. destruct (_ <? _); [exact (IH _)|done]. Qed.
Lemma ooo_release_same i t g : used (ooo_release i t g).1 = used t /\ state (ooo_release i t g).1 = state t.
Proof. unfold ooo_release. destruct (ooo t !! i) as [o|]; [|done]. by destruct (o_used o). Qed.
Lemma drain_one_same i t g b : used (drain_one i (t, g, b)).1.1 = used t /\ state (drain_one i (t, g, b)).1.1 = state t.
Proof.
  unfold drain_one. destruct (ooo t !! i) as [h|]; [|done]. destruct (_ && _); [|done].
  set (t1 := if _ <? o_len h then _ else t).
  assert (H1 : used t1 = used t /\ state t1 = state t).
  { unfold t1. destruct (_ <? _); [|done]. cbn [used state store]. apply rcv_put_same. }
  pose proof (ooo_release_same i t1 g) as H2. destruct (ooo_release i t1 g) as [t2 g2]. cbn [fst] in *.
  destruct H1 as [E1 E2]. by rewrite E1, E2 in H2.
Qed.
Lemma drain_same fuel t g : used (drain fuel t g).1 = used t /\ state (drain fuel t g).1 = state t.
Proof.
  revert t g. induction fuel as [|fuel IH]; intros t g; [done|]. cbn [drain].
  assert (H : used (for_upto TCP_OOO_PER_CB drain_one (t, g, false)).1.1 = used t /\
              state (for_upto TCP_OOO_PER_CB drain_one (t, g, false)).1.1 = state t).
  { apply (for_upto_ind (fun _ s => used s.1.1 = used t /\ state s.1.1 = state t)); [done|].
    intros k [[t1 g1] b1] _ [H1 H2]. destruct (drain_one_same k t1 g1 b1) as [H3 H4]. cbn in *. by rewrite H3, H4. }
  destruct (for_upto _ _ _) as [[t1 g1] b1]. cbn [fst] in H. destruct b1; [|done]. destruct (IH t1 g1) as [E1 E2]. by rewrite E1, E2.
Qed.
Lemma ooo_queue_same seq data t g : used (ooo_queue seq data t g).1 = used t /\ state (ooo_queue seq data t g).1 = state t.
Proof. destruct (ooo_queue_cases seq data t g) as [->|(i & slot & x & _ & _ & _ & _ & ->)]; done. Qed.
Lemma take_data_same ip_output seq data t g :
  used (take_data ip_output seq data t g).1 = used t /\ state (take_data ip_output seq data t g).1 = state t.
Proof.
  unfold take_data. destruct (_ =? _).
  - cbv zeta. set (n := if _ <? _ then _ else _). set (t1 := rcv_put (firstn (Z.to_nat n) data) t).
    pose proof (drain_same (Datatypes.S TCP_OOO_PER_CB) (t1 <| rcv_nxt := u32 (rcv_nxt t1 + n) |>) g) as H.
    destruct (drain _ _ _) as [t2 g2]. cbn [fst used state store] in H.
    pose proof (rcv_put_same (firstn (Z.to_nat n) data) t) as H1. fold t1 in H1. destruct H1 as [E1 E2]. rewrite E1, E2 in H.
    destruct (2 <=? _); [done|]. by destruct (_ =? 0).
  - destruct (seq_gt _ _); [|done]. pose proof (ooo_queue_same seq data t g) as H. by destruct (ooo_queue seq data t g) as [t1 g1].
Qed.

Section open.
Context (ip_output : Z -> list Z -> shared -> Z).

Lemma take_fin_ok t g : recv_inv total total t g -> opening t = false ->
  advance total t total (take_fin ip_output t g).1 (take_fin ip_output t g).2.
Proof.
  intros Hi Ho. unfold take_fin.
  set (p := if negb (fin_rcvd t) then _ else (t, g)).
  assert (H1 : advance total t total p.1 p.2).
  { unfold p. destruct (fin_rcvd t) eqn:Ef; cbn [negb]; [by apply advance_refl|]. cbn [fst snd].
    set (t1 := t <| fin_rcvd := _ |> <| rcv_nxt := _ |>). apply (advance_quiet _ _ _ t1 g); [|by split; [|apply send_ack_pool]].
    destruct Hi as [A B C D E F]. constructor; [by apply moved_refl| |done|done].
    constructor; try done; [|by destruct D|by apply (pooled_same t g)].
    cbn [t1 rcv_nxt fin_rcvd store Z.b2z]. rewrite B, Ef, u32_plus. f_equal. cbn. lia. }
  destruct p as [t1 g1]. cbn [fst snd] in H1. destruct H1 as [M1 I1 O1 U1].
  assert (Hg : forall t2, rcv_data t2 = rcv_data t1 -> opening t2 = false -> used t2 = used t1 -> advance total t total t2 g1).
  { intros t2 E2 O2 U2. eapply advance_step; [by constructor|by apply advance_state]. }
  unfold opening in O1. destruct (state t1) eqn:Es; try done; cbn [fst snd]; try (apply Hg; try done; unfold opening; by rewrite Es).
  eapply advance_quiet; [apply (Hg t1); try done; unfold opening; by rewrite Es|]. split; [done|apply send_ack_pool].
Qed.
Lemma fin_acked_ok K t g : recv_inv K K t g -> opening t = false -> advance K t K (fin_acked t g) g.
Proof.
  intros Hi Ho. unfold fin_acked. destruct (_ && _); [|by apply advance_refl].
  unfold opening in Ho. destruct (state t) eqn:Es; try done; try (apply advance_state; try done; unfold opening; by rewrite Es).
  destruct (fin_rcvd t); by apply advance_state.
Qed.

(** What is asked of a segment of the peer: its bytes are those of the
    stream at its sequence number, and a FIN stands at the end of the stream,
    or past it, with no data that could be left out. *)
Definition near (K q : Z) : Prop := -2147483647 <= q - K < 2147483647.
Record honest (K : Z) (t : tcpcb) (h : tcphdr) (data : list Z) (q : Z) : Prop := {
  hn_data : data <> [] -> from_stream K q (h_seq h) data;
  hn_fin : has (h_flags h) TCP_FIN = true ->
    h_seq h = u32 (base + q) /\ near K q /\ total <= q + Z.of_nat (length data) /\
    (data = [] \/ K = total \/ (K <= q /\ Z.of_nat (length data) <= rcv_free t)) }.

Lemma not_ahead K q seq t g : recv_inv K K t g -> seq = u32 (base + q) -> -2147483647 <= q - K < 2147483647 ->
  seq_le seq (rcv_nxt t) = true -> q <= K \/ K = total.
Proof.
  intros Hi Es En Hle. rewrite (ri_nxt _ _ _ _ Hi), Es, seq_le_pos in Hle by (destruct (fin_rcvd t); cbn; lia).
  apply Z.leb_le in Hle. destruct (fin_rcvd t) eqn:Ef; [right; by apply (ri_fin _ _ _ _ Hi)|left]. cbn in Hle. lia.
Qed.
(** The data of a segment; when its FIN counts, the stream is complete. *)
Lemma data_input_ok K q h data t g : recv_inv K K t g -> opening t = false -> honest K t h data q ->
  let p := data_input ip_output h data t g in
  exists K', advance K t K' p.1 p.2 /\ (has (h_flags h) TCP_FIN && seq_le (h_seq h) (rcv_nxt p.1) = true -> K' = total).
Proof.
  intros Hi Ho [Hs Hf] p. pose proof (ri_K _ _ _ _ Hi) as HK.
  unfold p, data_input. clear p. destruct (Z.ltb_spec 0 (Z.of_nat (length data))) as [Hl|Hl].
  - assert (Hne : data <> []) by (intros ->; cbn in Hl; lia).
    pose proof (Hs Hne) as [Es En Ep Ed]. pose proof (take_data_ok ip_output K q (h_seq h) data t g Hi (Hs Hne) Hne) as Ht.
    destruct (take_data_same ip_output (h_seq h) data t g) as [Eu Est].
    destruct (take_data _ _ _ _ _) as [t' g']. destruct Ht as (K' & M & I & F & T1 & T2). exists K'. cbn [fst snd] in *.
    split; [constructor; [done|done|unfold opening in *; by rewrite Est|congruence]|].
    pose proof (ri_K _ _ _ _ I) as HK'. destruct M as [M _].
    intros Hc. apply andb_true_iff in Hc as [Hc1 Hc2]. destruct (Hf Hc1) as (_ & _ & Hend & [->|[->|[Hq Hfit]]]); [done|lia|].
    destruct (decide (q = K)) as [->|Hqk]; [specialize (T1 eq_refl Hfit); lia|]. specialize (T2 Hqk). subst K'.
    destruct (not_ahead K q (h_seq h) t' g' I Es En Hc2); lia.
  - exists K. split.
    + destruct (_ && _); [|by apply advance_refl]. eapply advance_quiet; [by apply advance_refl|]. split; [done|apply send_ack_pool].
    + assert (Hp : forall p : tcpcb * shared, p = (if seq_gt (rcv_nxt t) (h_seq h) && negb (has (h_flags h) (Z.lor TCP_SYN TCP_FIN))
                     then (t, send_ack ip_output t g) else (t, g)) -> p.1 = t) by (intros p ->; by destruct (_ && _)).
      rewrite (Hp _ eq_refl). intros Hc. apply andb_true_iff in Hc as [Hc1 Hc2]. destruct (Hf Hc1) as (Es & En & Hend & _). assert (data = []) as -> by (destruct data; [done|cbn [length] in Hl; lia]).
      cbn [length] in Hend. destruct (not_ahead K q (h_seq h) t g Hi Es En Hc2); lia.
Qed.

Lemma fin_input_ok K h t g : recv_inv K K t g -> opening t = false ->
  (has (h_flags h) TCP_FIN && seq_le (h_seq h) (rcv_nxt t) = true -> K = total) ->
  advance K t K (fin_input ip_output h t g).1 (fin_input ip_output h t g).2.
Proof.
  intros Hi Ho Hf. unfold fin_input. destruct (_ && _); [|by apply advance_refl]. rewrite (Hf eq_refl) in *. by apply take_fin_ok.
Qed.
(** Data and FIN: what the segment may change of the receiving side. *)
Lemma segment_ok K q h data t g : recv_inv K K t g -> opening t = false -> honest K t h data q ->
  let p := data_input ip_output h data t g in
  let p' := fin_input ip_output h p.1 p.2 in
  exists K', advance K t K' p.1 p.2 /\ advance K t K' p'.1 p'.2.
Proof.
  intros Hi Ho Hh p p'. destruct (data_input_ok K q h data t g Hi Ho Hh) as (K' & A & F). exists K'. split; [done|].
  eapply advance_step; [exact A|]. apply fin_input_ok; [apply A|apply A|done].
Qed.
Lemma ack_input_ok K q h o data t g : recv_inv K K t g -> opening t = false -> honest K t h data q ->
  exists K', advance K t K' (ack_input ip_output h o data t g).1 (ack_input ip_output h o data t g).2.
Proof.
  intros Hi Ho [Hs Hf]. unfold ack_input. set (wnd := u32 _). set (t0 := t <| last_rcv := _ |> <| keep_probes := _ |>).
  set (t1 := t0 <| snd_wnd := _ |> <| max_snd_wnd := _ |>).
  assert (H1 : advance K t K t1 g) by (by apply advance_state).
  destruct (_ && _); [by exists K|]. set (t2 := if is_state t1 SYN_RECEIVED then _ else t1).
  assert (H2 : advance K t K t2 g) by (unfold t2; destruct (is_state t1 SYN_RECEIVED); [by apply advance_state|done]).
  pose proof (ack_sent_data_quiet ip_output (h_ack h) (Z.of_nat (length data)) wnd o t2 g) as Hq.
  destruct (ack_sent_data _ _ _ _ _ _ _) as [t3 g3].
  assert (H3 : advance K t K t3 g3) by (by eapply advance_quiet). clear Hq H1 H2.
  destruct (segment_ok K q h data t3 g3 (ad_inv _ _ _ _ _ H3) (ad_open _ _ _ _ _ H3)) as (K' & _ & A).
  { destruct H3 as [[_ M3] _ _ _]. split; [done|]. by replace (rcv_free t3) with (rcv_free t) by lia. }
  destruct (data_input _ _ _ _ _) as [t4 g4]. cbn [fst snd] in A. destruct (fin_input _ _ _ _) as [t5 g5]. cbn [fst snd] in A.
  pose proof (advance_step _ _ _ _ _ _ _ _ H3 A) as H5.
  pose proof (fin_acked_ok K' t5 g5 (ad_inv _ _ _ _ _ H5) (ad_open _ _ _ _ _ H5)) as H6.
  pose proof (send_data_quiet ip_output (fin_acked t5 g5) g5) as Hq. exists K'.
  destruct (send_data _ _ _) as [t7 g7]. eapply advance_quiet; [|exact Hq]. by eapply advance_step.
Qed.

(** A reset may come from anybody: it ends the connection and changes
    nothing that was received. *)
Lemma conn_input_ok K q src dst h o data t g : recv_inv K K t g -> opening t = false ->
  (has (h_flags h) TCP_RST = false -> honest K t h data q) ->
  exists K', advance K t K' (conn_input ip_output src dst h o data t g).1 (conn_input ip_output src dst h o data t g).2.
Proof.
  intros Hi Ho Hh. unfold conn_input. destruct (has (h_flags h) TCP_RST).
  { exists K. destruct (is_state t TIME_WAIT); [by apply advance_refl|by apply advance_state]. }
  specialize (Hh eq_refl).
  assert (Hss : is_state t SYN_SENT = false) by (unfold is_state, opening in *; case_bool_decide as E; [by rewrite E in Ho|done]).
  rewrite Hss. destruct (negb _); [exists K; by apply advance_refl|]. destruct (_ && _ && _ && _).
  { exists K. eapply advance_quiet; [by apply advance_refl|]. split; [done|apply send_ack_pool]. }
  set (t1 := if ts_ok t && p_ts o && seq_le (h_seq h) (rcv_nxt t) then t <| ts_recent := p_tsval o |> else t).
  assert (H1 : advance K t K t1 g) by (unfold t1; destruct (_ && _); [by apply advance_state|by apply advance_refl]).
  destruct (ack_input_ok K q h o data t1 g (ad_inv _ _ _ _ _ H1) (ad_open _ _ _ _ _ H1)) as (K' & H2).
  { destruct Hh as [Hs Hf]. destruct H1 as [[_ M] _ _ _]. split; [done|]. by replace (rcv_free t1) with (rcv_free t) by lia. }
  exists K'. by eapply advance_step.
Qed.

Lemma rexmit_timer_ok K t g : recv_inv K K t g -> opening t = false ->
  advance K t K (rexmit_timer ip_output t g).1 (rexmit_timer ip_output t g).2.
Proof.
  intros Hi Ho. unfold rexmit_timer. destruct (_ || _); [by apply advance_refl|]. set (t1 := t <| rexmits := _ |>).
  destruct (_ <? _); [by apply advance_state|].
  set (t2 := cwnd_on_loss true t1 <| rtt_timing := false |>). set (t3 := t2 <| rto_ms := _ |>). set (t4 := t3 <| rexmit_at := _ |>).
  assert (H4 : advance K t K t4 g) by (by apply advance_state).
  assert (Hd : advance K t K (send_data ip_output (t4 <| snd_nxt := snd_una t4 |>) g).1
                 (send_data ip_output (t4 <| snd_nxt := snd_una t4 |>) g).2).
  { pose proof (send_data_quiet ip_output (t4 <| snd_nxt := snd_una t4 |>) g) as Hq. destruct (send_data _ _ _) as [t5 g5].
    eapply advance_quiet; [exact H4|]. etransitivity; [|exact Hq]. by split. }
  assert (Hs : forall seq f, advance K t K t4 (send_seg ip_output t4 seq f [] g).2).
  { intros seq f. eapply advance_quiet; [exact H4|]. split; [done|apply send_seg_pool]. }
  destruct (state t4); first [exact Hd|apply Hs].
Qed.
(** The timer, while it does not free the connection. *)
Lemma timer_one_ok K t g : recv_inv K K t g -> opening t = false -> used (timer_one ip_output t g).1 = true ->
  advance K t K (timer_one ip_output t g).1 (timer_one ip_output t g).2.
Proof.
  intros Hi Ho. unfold timer_one. destruct (used t) eqn:Eu; cbn [negb]; [|cbn [fst]; congruence].
  destruct (orphan t && _).
  { unfold tcp_free. destruct (ooo_flush t g) as [t1 g1]. done. }
  intros _. destruct (is_state t TIME_WAIT).
  { destruct (reached _ _); [by apply advance_state|by apply advance_refl]. }
  pose proof (keep_timer_quiet ip_output t g) as Hk. destruct (keep_timer _ t g) as [[dead t1] g1].
  assert (H1 : advance K t K t1 g1) by (eapply advance_quiet; [by apply advance_refl|done]).
  destruct dead. { eapply advance_step; [exact H1|]. apply advance_state; [apply H1|done..]. }
  set (p := if _ && _ then _ else (t1, g1)).
  assert (H2 : advance K t K p.1 p.2).
  { unfold p. destruct (_ && _); [|done]. eapply advance_quiet; [exact H1|]. split; [done|apply send_ack_pool]. }
  destruct p as [t2 g2]. eapply advance_step; [exact H2|]. apply rexmit_timer_ok; apply H2.
Qed.

End open.

(** Reading takes the oldest bytes of the ring. *)
Lemma ring_pop K t : ring_ok S K t -> 0 < rcv_used t ->
  let t' := t <| rcvtail := (rcvtail t + 1) mod TCP_RCVBUF |> in
  ring_ok S K t' /\ rcv_used t' = rcv_used t - 1 /\ rcvring t (rcvtail t) = S (K - rcv_used t).
Proof.
  intros [Hh Ht Hb] Hu t'. pose proof (rcv_used_eq t Hh Ht) as Eu.
  assert (Ht' : 0 <= rcvtail t' < TCP_RCVBUF) by (cbn; apply Z.mod_pos_bound; done).
  assert (Eu' : rcv_used t' = rcv_used t - 1).
  { rewrite rcv_used_eq by done. cbn [t' store rcvhead rcvtail]. rewrite Eu in *. unfold TCP_RCVBUF in *. Z.div_mod_to_equations. lia. }
  split; [|split; [done|]].
  - constructor; [done|done|]. intros j Hj. rewrite Eu' in *. cbn [t' rcvring rcvtail store].
    replace (((rcvtail t + 1) mod TCP_RCVBUF + j) mod TCP_RCVBUF) with ((rcvtail t + (1 + j)) mod TCP_RCVBUF)
      by (rewrite Zplus_mod_idemp_l; f_equal; lia).
    rewrite Hb by lia. f_equal. lia.
  - specialize (Hb 0 ltac:(lia)). rewrite Z.add_0_r, Z.mod_small in Hb by done. rewrite Hb. f_equal. lia.
Qed.
Lemma recv_loop_ok K len t : ring_ok S K t ->
  let '(out, t') := recv_loop len t in
  let n := Nat.min len (Z.to_nat (rcv_used t)) in
  out = span S (K - rcv_used t) n /\ ring_ok S K t' /\ rcv_used t' = rcv_used t - Z.of_nat n /\
  rcv_nxt t' = rcv_nxt t /\ ooo t' = ooo t /\ fin_rcvd t' = fin_rcvd t /\ used t' = used t /\ state t' = state t /\
  reset t' = reset t /\ timed_out t' = timed_out t.
Proof.
  revert t. induction len as [|len IH]; intros t Hr.
  { cbn [recv_loop]. cbn. rewrite Z.sub_0_r. done. }
  cbn [recv_loop]. pose proof (rcv_used_range t) as Hru. destruct (Z.ltb_spec 0 (rcv_used t)) as [Hu|Hu].
  - destruct (ring_pop K t Hr Hu) as (R & U & B). specialize (IH _ R). cbv zeta in *.
    destruct (recv_loop len _) as [out t']. rewrite U in IH. destruct IH as (E1 & E2 & E3 & E4).
    replace (Nat.min (Datatypes.S len) (Z.to_nat (rcv_used t))) with (Datatypes.S (Nat.min len (Z.to_nat (rcv_used t - 1)))) by lia.
    rewrite span_S. split; [rewrite B, E1; do 2 f_equal; lia|]. split; [done|]. split; [lia|]. done.
  - replace (Nat.min (Datatypes.S len) (Z.to_nat (rcv_used t))) with 0%nat by lia. cbn. rewrite Z.sub_0_r. done.
Qed.

(** What tcp_recv returns: the next bytes, or, when there are none, why. *)
Lemma tcp_recv_ok ip_output K len t g : recv_inv K K t g ->
  let '(r, out, t', g') := tcp_recv ip_output len t g in
  let n := Nat.min len (Z.to_nat (rcv_used t)) in
  out = span S (K - rcv_used t) n /\ rcv_used t' = rcv_used t - Z.of_nat n /\ recv_inv K K t' g' /\
  opening t' = opening t /\ used t' = used t /\ r = if (n =? 0)%nat then no_bytes t else Z.of_nat n.
Proof.
  intros Hi. pose proof (rcv_used_range t) as Hru. pose proof (recv_loop_ok K len t (ri_ring _ _ _ _ Hi)) as H.
  unfold tcp_recv. destruct (recv_loop len t) as [out t'] eqn:El. cbv zeta in *. set (n := Nat.min len _) in *.
  destruct H as (Eo & Er & Eu & En & Eoo & Ef & Eus & Est & Ers & Et).
  assert (Hi' : recv_inv K K t' g).
  { destruct Hi as [A B C D E F]. constructor; rewrite ?En, ?Eoo, ?Ef; try done. by apply (pooled_same t g). }
  assert (Hop : opening t' = opening t) by (unfold opening; by rewrite Est).
  assert (Hln : length out = n) by (rewrite Eo; apply length_span).
  destruct out as [|b out].
  - assert (n = 0%nat) as En0 by (by rewrite <- Hln). rewrite En0 in *. cbn [Nat.eqb].
    split; [done|]. split; [done|]. split; [done|]. split; [done|]. split; [done|].
    unfold no_bytes, reset_error, is_state. rewrite Ers, Ef, Est.
    by rewrite Et.
  - split; [done|]. split; [done|]. split; [by apply (recv_inv_same K K t' g); [|apply send_ack_pool|]|]. split; [done|]. split; [done|].
    destruct (Nat.eqb_spec n 0) as [E0|E0]; [rewrite E0 in Hln; done|]. rewrite Hln. unfold s32, u32. unfold TCP_RCVBUF in Hru.
    rewrite Z.mod_small by lia. destruct (Z.ltb_spec (Z.of_nat n) 2147483648); lia.
Qed.

(** Nothing of the connection changes when others use the pool. *)
Lemma recv_inv_frame lo K t g g' : recv_inv lo K t g -> slots_ok t g' -> (forall k, holds t k -> ooo_pool g' !! k = ooo_pool g !! k) ->
  recv_inv lo K t g'.
Proof.
  intros [A B C D E F] Hs Hp. constructor; try done. intros i o Ho Hu. destruct (F i o Ho Hu) as (q & Q). exists q.
  rewrite Hp by (by exists i, o). done.
Qed.
End stream.

(** ** The slots of one connection through each operation *)
Section slots.
Context (ip_output : Z -> list Z -> shared -> Z).

(** The connection stays in the table and its slots are its own. *)
Definition kept (p p' : tcpcb * shared) : Prop := pooled p p' /\ used p'.1 = used p.1.
#[export] Instance kept_preorder : PreOrder kept.
Proof. split; [done|]. intros p q r [A B] [C D]. split; [by etransitivity|congruence]. Qed.
Lemma quiet_kept p p' : quiet p p' -> kept p p'.
Proof. intros Hq. split; [by apply quiet_pooled|]. destruct Hq as [E _]. by injection E. Qed.
Lemma same_kept t g t' g' : ooo t' = ooo t -> used t' = used t -> pool_part g' = pool_part g -> kept (t, g) (t', g').
Proof. intros E1 E2 E3. split; [by apply pooled_same|done]. Qed.

Lemma take_data_kept seq data t g : kept (t, g) (take_data ip_output seq data t g).
Proof.
  split; [|apply take_data_same]. unfold take_data. destruct (_ =? _).
  - cbv zeta. set (n := if _ <? _ then _ else _). set (t1 := rcv_put _ t).
    assert (H1 : pooled (t, g) (t1 <| rcv_nxt := u32 (rcv_nxt t1 + n) |>, g)).
    { apply pooled_same; [|done]. cbn [ooo store]. apply rcv_put_ooo. }
    pose proof (drain_pooled (S TCP_OOO_PER_CB) (t1 <| rcv_nxt := u32 (rcv_nxt t1 + n) |>) g) as H2.
    destruct (drain _ _ _) as [t2 g2]. assert (H3 : pooled (t, g) (t2, g2)) by (by etransitivity).
    destruct (2 <=? _); [etransitivity; [exact H3|]; apply pooled_same; [done|apply send_ack_pool]|].
    destruct (_ =? 0); (etransitivity; [exact H3|by apply pooled_same]).
  - destruct (seq_gt _ _).
    + pose proof (ooo_queue_pooled seq data t g) as H1. destruct (ooo_queue seq data t g) as [t1 g1].
      etransitivity; [exact H1|]. apply pooled_same; [done|apply send_ack_pool].
    + apply pooled_same; [done|apply send_ack_pool].
Qed.
Lemma take_fin_kept t g : kept (t, g) (take_fin ip_output t g).
Proof.
  unfold take_fin. set (p := if negb (fin_rcvd t) then _ else (t, g)).
  assert (H1 : kept (t, g) p) by (unfold p; destruct (negb _); [apply same_kept; [done..|apply send_ack_pool]|done]).
  destruct p as [t1 g1]. etransitivity; [exact H1|].
  destruct (state t1); first [by apply same_kept|apply same_kept; [done..|apply send_ack_pool]].
Qed.
Lemma fin_acked_kept t g : kept (t, g) (fin_acked t g, g).
Proof.
  apply same_kept; [..|done]; unfold fin_acked; destruct (_ && _); try done; destruct (state t); try done; by destruct (fin_rcvd t).
Qed.
Lemma data_input_kept h data t g : kept (t, g) (data_input ip_output h data t g).
Proof.
  unfold data_input. destruct (0 <? _); [apply take_data_kept|]. destruct (_ && _); [|done]. apply same_kept; [done..|apply send_ack_pool].
Qed.
Lemma ack_input_kept h o data t g : kept (t, g) (ack_input ip_output h o data t g).
Proof.
  unfold ack_input. set (wnd := u32 _). set (t0 := t <| last_rcv := _ |> <| keep_probes := _ |>).
  set (t1 := t0 <| snd_wnd := _ |> <| max_snd_wnd := _ |>). assert (H1 : kept (t, g) (t1, g)) by (by apply same_kept).
  destruct (_ && _); [done|]. set (t2 := if is_state t1 SYN_RECEIVED then _ else t1).
  assert (H2 : kept (t, g) (t2, g)) by (unfold t2; destruct (is_state t1 SYN_RECEIVED); [by apply same_kept|done]).
  pose proof (quiet_kept _ _ (ack_sent_data_quiet ip_output (h_ack h) (Z.of_nat (length data)) wnd o t2 g)) as H3.
  destruct (ack_sent_data _ _ _ _ _ _ _) as [t3 g3]. etransitivity; [exact H2|]. etransitivity; [exact H3|]. clear H1 H2 H3.
  pose proof (data_input_kept h data t3 g3) as H4. destruct (data_input _ _ _ _ _) as [t4 g4]. etransitivity; [exact H4|].
  assert (H5 : kept (t4, g4) (fin_input ip_output h t4 g4)) by (unfold fin_input; destruct (_ && _); [apply take_fin_kept|done]).
  destruct (fin_input _ _ _ _) as [t5 g5]. etransitivity; [exact H5|]. etransitivity; [apply fin_acked_kept|]. apply quiet_kept, send_data_quiet.
Qed.
Lemma syn_sent_input_kept src dst h o n t g : kept (t, g) (syn_sent_input ip_output src dst h o n t g).
Proof.
  unfold syn_sent_input. destruct (negb _); [done|]. destruct (has _ TCP_ACK).
  - destruct (negb _); [apply same_kept; [done..|apply send_rst_pool]|].
    set (t1 := agree_opts _ _ _). pose proof (agree_opts_rcv o) as Ha.
    apply same_kept; [| |apply send_ack_pool]; unfold t1, agree_opts; by destruct (p_ts o).
  - apply same_kept; [| |apply send_seg_pool]; unfold agree_opts; by destruct (p_ts o).
Qed.
Lemma conn_input_kept src dst h o data t g : kept (t, g) (conn_input ip_output src dst h o data t g).
Proof.
  unfold conn_input. destruct (has _ TCP_RST); [destruct (is_state _ _); [done|by apply same_kept]|].
  destruct (is_state t SYN_SENT); [apply syn_sent_input_kept|]. destruct (negb _); [done|].
  destruct (_ && _ && _ && _); [apply same_kept; [done..|apply send_ack_pool]|].
  etransitivity; [|apply ack_input_kept]. apply same_kept; [| |done]; by destruct (_ && _).
Qed.
Lemma rexmit_timer_kept t g : kept (t, g) (rexmit_timer ip_output t g).
Proof.
  unfold rexmit_timer. destruct (_ || _); [done|]. set (t1 := t <| rexmits := _ |>).
  destruct (_ <? _); [by apply same_kept|].
  set (t2 := cwnd_on_loss true t1 <| rtt_timing := false |>). set (t3 := t2 <| rto_ms := _ |>). set (t4 := t3 <| rexmit_at := _ |>).
  assert (H4 : kept (t, g) (t4, g)) by (by apply same_kept). etransitivity; [exact H4|].
  assert (Hd : kept (t4, g) (send_data ip_output (t4 <| snd_nxt := snd_una t4 |>) g)).
  { etransitivity; [|apply quiet_kept, send_data_quiet]. by apply same_kept. }
  destruct (state t4); first [exact Hd|apply same_kept; [done..|apply send_seg_pool]].
Qed.
(** Freeing lets every slot go. *)
Lemma tcp_free_pooled t g : pooled (t, g) (tcp_free t g) /\ used (tcp_free t g).1 = false /\
  (slots_ok t g -> forall k, ~ holds (tcp_free t g).1 k).
Proof.
  unfold tcp_free. pose proof (ooo_flush_pooled t g) as H1. pose proof (ooo_flush_none t g) as H2.
  destruct (ooo_flush t g) as [t1 g1]. cbn [fst] in H2. split; [|split; [done|]].
  - etransitivity; [exact H1|]. apply pooled_same; [done|]. by destruct (_ =? 0), (_ =? 0).
  - intros Hs k. exact (H2 k Hs).
Qed.
Definition tidy (p p' : tcpcb * shared) : Prop :=
  kept p p' \/ (pooled p p' /\ (slots_ok p.1 p.2 -> forall k, ~ holds p'.1 k)).
Lemma kept_tidy p q r : kept p q -> tidy q r -> tidy p r.
Proof.
  intros H [H2|[H2 H3]]; [left; by etransitivity|right]. split; [etransitivity; [apply H|done]|].
  intros Hs. apply H3. by apply H.
Qed.
Lemma free_tidy t g : tidy (t, g) (tcp_free t g).
Proof. right. split; [apply tcp_free_pooled|]. intros Hs. by apply tcp_free_pooled. Qed.
Lemma timer_one_tidy t g : tidy (t, g) (timer_one ip_output t g).
Proof.
  unfold timer_one. destruct (negb _); [by left|]. destruct (orphan t && _); [apply free_tidy|]. left.
  destruct (is_state t TIME_WAIT); [by destruct (reached _ _); apply same_kept|].
  pose proof (keep_timer_quiet ip_output t g) as Hk. destruct (keep_timer _ t g) as [[dead t1] g1].
  etransitivity; [apply quiet_kept; exact Hk|]. destruct dead; [by apply same_kept|].
  set (p := if _ && _ then _ else (t1, g1)).
  assert (H2 : kept (t1, g1) p) by (unfold p; destruct (_ && _); [apply same_kept; [done..|apply send_ack_pool]|done]).
  destruct p as [t2 g2]. etransitivity; [exact H2|apply rexmit_timer_kept].
Qed.
Lemma tcp_close_tidy t g : tidy (t, g) (tcp_close ip_output t g).
Proof.
  unfold tcp_close.
  assert (Hf : tidy (t, g) (tcp_free (t <| state := CLOSED |>) g)) by (eapply kept_tidy; [|apply free_tidy]; by apply same_kept).
  assert (Hd : forall x, tidy (t, g) (send_data ip_output (t <| state := x |> <| fin_pending := true |>) g)).
  { intros x. left. etransitivity; [|apply quiet_kept, send_data_quiet]. by apply same_kept. }
  destruct (state t); first [exact Hf|apply Hd|by left].
Qed.
End slots.
End TCPRECV.
