(* ===== verification/Tcpseg.v ===== *)
(** * TCP: segments (kernel/net/tcp.c)

    A segment that send_seg builds is one that tcp_input takes: its
    checksum holds, its header reads back, and its options end where its
    data begins. *)

From S2P Require Import Prelude Pmm Route Net Tcp.
Local Open Scope Z_scope.

Module TCPSEG.
Import TCP.

Record hdr_ok (h : tcphdr) : Prop := {
  ho_sport : NET.is_u16 (h_sport h); ho_dport : NET.is_u16 (h_dport h);
  ho_seq : NET.is_u32 (h_seq h); ho_ack : NET.is_u32 (h_ack h);
  ho_offset : NET.is_byte (h_offset h); ho_flags : NET.is_byte (h_flags h); ho_window : NET.is_u16 (h_window h) }.

Lemma length_tcp_header h c : length (tcp_header h c) = 20%nat.
Proof. reflexivity. Qed.
Lemma tcp_header_bytes h c : Forall NET.is_byte (tcp_header h c).
Proof.
  unfold tcp_header. repeat (apply Forall_app; split); try apply NET.be_bytes_bytes.
  repeat (apply Forall_cons; split); first [apply u8_bound|done|by apply Forall_nil].
Qed.
Lemma pseudo_bound src dst n : NET.is_u32 src -> NET.is_u32 dst -> 0 <= n < 65536 -> 0 <= pseudo_sum src dst n < 400000.
Proof.
  unfold NET.is_u32, pseudo_sum, NET.IPPROTO_TCP. intros Hs Hd Hn. rewrite !Z.shiftr_div_pow2 by lia. change (2 ^ 16) with 65536.
  change 65535 with (Z.ones 16). rewrite !Z.land_ones by lia. change (2 ^ 16) with 65536.
  assert (0 <= src / 65536 + src mod 65536 + dst / 65536 + dst mod 65536 + 6 + n < 400000) by (Z.div_mod_to_equations; lia).
  rewrite u32_small; lia.
Qed.

(** The checksum that was filled in is the one tcp_input looks for. *)
Lemma segment_checks src dst h opt data : NET.is_u32 src -> NET.is_u32 dst -> Forall NET.is_byte opt -> Forall NET.is_byte data ->
  Z.of_nat (length opt + length data) < 60000 ->
  NET.net_checksum (segment src dst h opt data) (pseudo_sum src dst (Z.of_nat (length (segment src dst h opt data)))) = 0.
Proof.
  intros Hs Hd Ho Hb Hl. unfold segment. set (body c := tcp_header h c ++ opt ++ data).
  assert (Hbody : forall c, Forall NET.is_byte (body c)).
  { intros c. apply Forall_app. split; [apply tcp_header_bytes|by apply Forall_app]. }
  assert (Hlen : forall c, length (body c) = (20 + (length opt + length data))%nat).
  { intros c. unfold body. by rewrite !length_app, length_tcp_header. }
  change (NET.net_checksum (body (NET.net_checksum (body 0) (pseudo_sum src dst (Z.of_nat (length (body 0))))))
    (pseudo_sum src dst (Z.of_nat (length (body (NET.net_checksum (body 0) (pseudo_sum src dst (Z.of_nat (length (body 0)))))))))= 0).
  rewrite !Hlen. set (n := Z.of_nat (20 + (length opt + length data))). assert (Hn : 20 <= n < 60020) by (unfold n; lia). pose proof (pseudo_bound src dst n Hs Hd ltac:(lia)) as Hps.
  set (A := be_bytes 2 (h_sport h) ++ be_bytes 2 (h_dport h) ++ be_bytes 4 (h_seq h) ++ be_bytes 4 (h_ack h) ++
            [u8 (h_offset h); u8 (h_flags h)] ++ be_bytes 2 (h_window h)).
  assert (E : forall c, body c = A ++ be_bytes 2 c ++ be_bytes 2 0 ++ opt ++ data) by (intros; reflexivity).
  assert (Hsum : forall c, NET.is_u16 c -> NET.words_sum (body c) = NET.words_sum (body 0) + c).
  { intros c Hc. rewrite !E, !(NET.words_sum_app A) by reflexivity. rewrite !(NET.words_sum_be2 _ (be_bytes 2 0 ++ _)) by (unfold NET.is_u16 in *; lia). lia. }
  set (x := pseudo_sum src dst n + NET.words_sum (body 0)).
  pose proof (NET.words_sum_bound _ (Hbody 0)) as Hw. rewrite Hlen in Hw. fold n in Hw.
  assert (Hx : 0 <= x < 4294900000) by (unfold x; lia).
  assert (Hc0 : NET.net_checksum (body 0) (pseudo_sum src dst n) = 65535 - NET.ones x).
  { apply NET.net_checksum_spec; [done|lia|fold x; lia]. }
  assert (Hon : 0 <= NET.ones x <= 65535).
  { unfold NET.ones. zcase; [lia|]. pose proof (Z.mod_pos_bound (x - 1) 65535). lia. }
  rewrite Hc0. set (c := 65535 - NET.ones x). assert (Hc : NET.is_u16 c) by (unfold NET.is_u16, c; lia).
  rewrite NET.net_checksum_spec; [|done|lia|].
  - rewrite Hsum by done. rewrite Z.add_assoc. fold x. rewrite NET.checksum_fills; [done|lia|by left].
  - rewrite Hsum by done. unfold x, NET.is_u16 in *. lia.
Qed.

(** The header reads back, each field at its width. *)
Definition trunc (h : tcphdr) : tcphdr :=
  mk_tcphdr (u16 (h_sport h)) (u16 (h_dport h)) (u32 (h_seq h)) (u32 (h_ack h)) (u8 (h_offset h)) (u8 (h_flags h)) (u16 (h_window h)).
Lemma header_of_segment src dst h opt data : header_of (segment src dst h opt data) = trunc h.
Proof.
  unfold segment. set (c := NET.net_checksum _ _). set (body := opt ++ data). unfold header_of.
  change (sub (tcp_header h c ++ body) 0 2) with (be_bytes 2 (h_sport h)).
  change (sub (tcp_header h c ++ body) 2 2) with (be_bytes 2 (h_dport h)).
  change (sub (tcp_header h c ++ body) 4 4) with (be_bytes 4 (h_seq h)).
  change (sub (tcp_header h c ++ body) 8 4) with (be_bytes 4 (h_ack h)).
  change (sub (tcp_header h c ++ body) 12 1) with [u8 (h_offset h)].
  change (sub (tcp_header h c ++ body) 13 1) with [u8 (h_flags h)].
  change (sub (tcp_header h c ++ body) 14 2) with (be_bytes 2 (h_window h)).
  rewrite !be_be_bytes. unfold be. cbn [foldl]. done.
Qed.
Lemma trunc_ok h : hdr_ok h -> trunc h = h.
Proof.
  intros [A B C D E F G]. unfold trunc, u16, u32, u8, NET.is_u16, NET.is_u32, NET.is_byte in *. rewrite !Z.mod_small by lia. by destruct h.
Qed.

(** Options come in fours, and there are at most forty bytes of them. *)
Definition opts_ok (opt : list Z) : Prop := (length opt mod 4 = 0)%nat /\ (length opt <= 40)%nat /\ Forall NET.is_byte opt.

Ltac all_bytes :=
  repeat first [apply NET.be_bytes_bytes | apply Forall_nil_2 | apply Forall_app; split
               | apply Forall_cons_2; [first [apply u8_bound|unfold NET.is_byte, TCP_WSCALE; cbn; lia]|] | apply Forall_replicate; unfold NET.is_byte; lia].
Lemma offset_of opt : opts_ok opt -> Z.shiftr (Z.shiftl ((TCP_HDR_LEN + Z.of_nat (length opt)) / 4) 4) 4 * 4 = 20 + Z.of_nat (length opt) /\
  NET.is_byte (Z.shiftl ((TCP_HDR_LEN + Z.of_nat (length opt)) / 4) 4).
Proof.
  intros (Hm & Hl & _). apply Nat.Div0.div_exact in Hm. unfold TCP_HDR_LEN, NET.is_byte.
  rewrite Z.shiftr_shiftl_l by lia. rewrite !Z.shiftl_mul_pow2 by lia. change (2 ^ (4 - 4)) with 1. change (2 ^ 4) with 16.
  set (k := (length opt / 4)%nat) in *. replace (20 + Z.of_nat (length opt)) with ((5 + Z.of_nat k) * 4) by lia.
  rewrite Z.div_mul by lia. lia.
Qed.
Lemma syn_opts_ok t synack g : opts_ok (syn_opts t synack g).
Proof.
  unfold syn_opts, opts_ok. destruct (negb (has (opts_disabled g) TCPOPT_NO_WS) && _), (negb (has (opts_disabled g) TCPOPT_NO_TS) && _),
    (negb (has (opts_disabled g) TCPOPT_NO_SACK) && _); (split; [done|split; [cbn; lia|cbv iota; all_bytes]]).
Qed.

(** The blocks of a SACK option: at most [max] of them. *)
Lemma sack_blocks_max t max : (length (sack_blocks t max) <= max)%nat.
Proof. unfold sack_blocks. rewrite length_take. lia. Qed.
Lemma sack_block_bytes (bl : list (Z * Z)) :
  let l := concat ((fun '(st, en) => be_bytes 4 st ++ be_bytes 4 en) <$> bl) in
  length l = (8 * length bl)%nat /\ Forall NET.is_byte l.
Proof.
  induction bl as [|[st en] bl [IH1 IH2]]; [done|]. cbn [fmap list_fmap concat]. rewrite !length_app, !length_be_bytes, IH1.
  split; [cbn [length]; lia|]. all_bytes. exact IH2.
Qed.
Lemma ack_opts_ok t flags g : opts_ok (ack_opts t flags g).
Proof.
  unfold ack_opts, opts_ok. set (max := if ts_ok t then 3%nat else 4%nat).
  set (ts := if ts_ok t then _ else []).
  assert (H1 : (length ts = if ts_ok t then 12 else 0)%nat /\ Forall NET.is_byte ts) by (unfold ts; destruct (ts_ok t); split; [done|all_bytes|done|constructor]).
  destruct H1 as [L1 B1]. set (sk := if sack_ok t && _ then _ else []).
  assert (H2 : exists n, (n <= max)%nat /\ length sk = (match n with O => 0 | _ => 4 + 8 * n end)%nat /\ Forall NET.is_byte sk).
  { unfold sk. destruct (sack_ok t && _); [|by exists 0%nat; split; [lia|]].
    pose proof (sack_blocks_max t max) as Hm. destruct (sack_blocks t max) as [|b bl] eqn:Eb; [by exists 0%nat; split; [lia|]|].
    destruct (sack_block_bytes (b :: bl)) as [Lb Bb]. exists (length (b :: bl)). split; [done|].
    rewrite length_app, Lb. split; [done|]. apply Forall_app. split; [all_bytes|exact Bb]. }
  destruct H2 as (n & Hn & L2 & B2). rewrite length_app, L1, L2. unfold max in Hn.
  split; [|split; [|by apply Forall_app]].
  - destruct (ts_ok t), n as [|n]; try done.
    + replace (12 + (4 + 8 * S n))%nat with ((6 + 2 * n) * 4)%nat by lia. by apply Nat.Div0.mod_mul.
    + replace (0 + (4 + 8 * S n))%nat with ((3 + 2 * n) * 4)%nat by lia. by apply Nat.Div0.mod_mul.
  - destruct (ts_ok t), n; lia.
Qed.

(** Where tcp_input finds the options and the data. *)
Definition hlen_of (seg : list Z) : Z := Z.shiftr (h_offset (header_of seg)) 4 * 4.
Definition data_of (seg : list Z) : list Z := drop (Z.to_nat (hlen_of seg)) seg.
Definition opts_of (seg : list Z) : list Z := sub seg (Z.to_nat TCP_HDR_LEN) (Z.to_nat (hlen_of seg - TCP_HDR_LEN)).

Lemma parts_of_segment src dst h opt data : opts_ok opt -> h_offset h = Z.shiftl ((TCP_HDR_LEN + Z.of_nat (length opt)) / 4) 4 ->
  data_of (segment src dst h opt data) = data /\ opts_of (segment src dst h opt data) = opt.
Proof.
  intros Ho Eo. unfold data_of, opts_of, hlen_of. rewrite header_of_segment. cbn [trunc h_offset]. rewrite Eo.
  destruct (offset_of opt Ho) as [E Hb]. unfold u8. rewrite Z.mod_small by exact Hb. rewrite E. unfold TCP_HDR_LEN.
  replace (Z.to_nat (20 + Z.of_nat (length opt))) with (20 + length opt)%nat by lia.
  replace (Z.to_nat (20 + Z.of_nat (length opt) - 20)) with (length opt) by lia. change (Z.to_nat 20) with 20%nat. unfold segment, sub.
  set (c := NET.net_checksum _ _). split.
  - rewrite <- drop_drop, (drop_app_length' (tcp_header h c)) by reflexivity. by rewrite drop_app_length.
  - rewrite (drop_app_length' (tcp_header h c)) by reflexivity. by rewrite take_app_length.
Qed.
Lemma length_segment src dst h opt data : length (segment src dst h opt data) = (20 + (length opt + length data))%nat.
Proof. unfold segment. by rewrite !length_app. Qed.

(** The header and the options that send_seg sends. *)
Definition seg_opts (t : tcpcb) (flags : Z) (g : shared) : list Z :=
  if has flags TCP_SYN then syn_opts t (has flags TCP_ACK) g else ack_opts t flags g.
Definition seg_hdr (t : tcpcb) (seq flags : Z) (g : shared) : tcphdr :=
  let win := if has flags TCP_SYN then rcv_free t else Z.shiftr (rcv_free t) (rcv_wscale t) in
  mk_tcphdr (local_port t) (remote_port t) seq (rcv_nxt t)
    (Z.shiftl ((TCP_HDR_LEN + Z.of_nat (length (seg_opts t flags g))) / 4) 4) flags (if 65535 <? win then 65535 else win).
Definition seg_bytes (t : tcpcb) (seq flags : Z) (data : list Z) (g : shared) : list Z :=
  segment (local_ip t) (remote_ip t) (seg_hdr t seq flags g) (seg_opts t flags g) data.
Lemma seg_opts_ok t flags g : opts_ok (seg_opts t flags g).
Proof. unfold seg_opts. destruct (has _ _); [apply syn_opts_ok|apply ack_opts_ok]. Qed.

(** One segment goes out, or none. *)
Lemma send_seg_sent ip_output t seq flags data g :
  let '(err, g') := send_seg ip_output t seq flags data g in
  sent g' = sent g \/
  (sent g' = sent g ++ [(remote_ip t, err, seg_bytes t seq flags data g)] /\ Z.of_nat (length data) <= TCP_MSS).
Proof.
  unfold send_seg. destruct (Z.ltb_spec TCP_MSS (Z.of_nat (length data))) as [Hl|Hl]; [by left|]. set (knob := negb _ && _ && _).
  set (g1 := if knob then _ else g). assert (E : sent g1 = sent g /\ opts_disabled g1 = opts_disabled g /\ now g1 = now g)
    by (unfold g1; by destruct knob). destruct (knob && _); [by left; apply E|]. unfold to_ip. right. split; [|done].
  destruct E as (E1 & E2 & E3). cbn [sent store]. rewrite E1. unfold seg_bytes, seg_hdr, seg_opts.
  assert (Es : forall b, syn_opts t b g1 = syn_opts t b g) by (intros b; unfold syn_opts, ts_now; by rewrite E2, E3).
  assert (Ea : ack_opts t flags g1 = ack_opts t flags g) by (unfold ack_opts, ts_now; by rewrite E3).
  by rewrite Es, Ea.
Qed.

(** ** Options read back *)

Definition wide (b : Z * Z) : Z * Z := (u32 b.1, u32 b.2).
Lemma be4_u32 x : be (be_bytes 4 x) = u32 x.
Proof. apply be_be_bytes. Qed.
(** The parser on the blocks of a SACK option. *)
Lemma parse_blocks fuel o (bl : list (Z * Z)) : (length bl <= 4)%nat -> (0 < length bl)%nat -> (3 <= fuel)%nat ->
  parse_loop fuel ([1; 1; 5; u8 (2 + 8 * Z.of_nat (length bl))] ++ concat ((fun '(st, en) => be_bytes 4 st ++ be_bytes 4 en) <$> bl)) o =
  o <| p_sack := wide <$> bl |>.
Proof.
  intros Hl Hp Hf. destruct fuel as [|[|[|fuel]]]; try lia. clear Hf.
  destruct bl as [|[a b] [|[c d] [|[e f] [|[h i] [|? ?]]]]]; cbn [length] in *; try lia.
  all: cbn [fmap list_fmap concat]; rewrite ?app_nil_r; unfold wide; cbn [fst snd]; rewrite <- !be4_u32; destruct fuel; reflexivity.
Qed.
Definition sack_opt (bl : list (Z * Z)) : list Z :=
  match bl with
  | [] => []
  | _ => [1; 1; 5; u8 (2 + 8 * Z.of_nat (length bl))] ++ concat ((fun '(st, en) => be_bytes 4 st ++ be_bytes 4 en) <$> bl)
  end.
Definition reported (t : tcpcb) (flags : Z) : list (Z * Z) :=
  if sack_ok t && has flags TCP_ACK then sack_blocks t (if ts_ok t then 3 else 4) else [].
Lemma ack_opts_eq t flags g : ack_opts t flags g =
  (if ts_ok t then [1; 1; 8; 10] ++ be_bytes 4 (ts_now g) ++ be_bytes 4 (ts_recent t) else []) ++ sack_opt (reported t flags).
Proof. unfold ack_opts, reported. destruct (sack_ok t && _); [|done]. by destruct (sack_blocks t _). Qed.
Lemma reported_max t flags : (length (reported t flags) <= if ts_ok t then 3 else 4)%nat.
Proof. unfold reported. destruct (_ && _); [apply sack_blocks_max|cbn; destruct (ts_ok t); lia]. Qed.
Lemma parse_sack_opt bl fuel o : (length bl <= 4)%nat -> (length (sack_opt bl) <= fuel)%nat -> p_sack o = [] ->
  parse_loop fuel (sack_opt bl) o = o <| p_sack := wide <$> bl |>.
Proof.
  intros Hl Hf Ho. unfold sack_opt in *. destruct bl as [|b bl]; [destruct fuel; destruct o; cbn in *; by rewrite Ho|].
  apply parse_blocks; [done|cbn; lia|]. rewrite length_app in Hf. cbn [length] in Hf. lia.
Qed.
Lemma parse_stamp n a b tl o :
  parse_loop (12 + n) (([1; 1; 8; 10] ++ be_bytes 4 a ++ be_bytes 4 b) ++ tl) o =
  parse_loop (9 + n) tl (o <| p_ts := true |> <| p_tsval := u32 a |> <| p_tsecr := u32 b |>).
Proof.
  set (opt := 8 :: 10 :: be_bytes 4 a ++ be_bytes 4 b ++ tl).
  transitivity (if (10 <? 2) || (Z.of_nat (length opt) <? 10) then o else parse_loop (9 + n) (drop 10 opt) (parse_opt 8 10 opt o)).
  { reflexivity. }
  rewrite (proj2 (Z.ltb_ge (Z.of_nat (length opt)) 10)) by (unfold opt; cbn [length]; rewrite ?length_app, ?length_be_bytes; lia).
  rewrite <- !be4_u32. reflexivity.
Qed.
Lemma parse_ack_opts t flags g :
  parse_opts (ack_opts t flags g) =
    mk_tcpopts (-1) false (ts_ok t) (if ts_ok t then ts_now g else 0) (if ts_ok t then u32 (ts_recent t) else 0) (wide <$> reported t flags).
Proof.
  assert (Et : u32 (ts_now g) = ts_now g) by (unfold ts_now, u32; apply Z.mod_small, Z.mod_pos_bound; done).
  unfold parse_opts. rewrite ack_opts_eq. pose proof (reported_max t flags) as Hm. set (bl := reported t flags) in *. clearbody bl.
  pose proof (parse_sack_opt bl) as Hp. set (tl := sack_opt bl) in *. clearbody tl. destruct (ts_ok t).
  - rewrite (length_app _ tl). change (length ([1; 1; 8; 10] ++ be_bytes 4 (ts_now g) ++ be_bytes 4 (ts_recent t))) with 12%nat.
    rewrite parse_stamp, Hp, Et; [done|lia|lia|done].
  - cbn [app]. rewrite Hp; [done|lia|done|done].
Qed.
Lemma parse_syn_opts t synack g :
  let ws := negb (has (opts_disabled g) TCPOPT_NO_WS) && (negb synack || peer_ws t) in
  let ts := negb (has (opts_disabled g) TCPOPT_NO_TS) && (negb synack || peer_ts t) in
  let sk := negb (has (opts_disabled g) TCPOPT_NO_SACK) && (negb synack || peer_sack t) in
  parse_opts (syn_opts t synack g) =
    mk_tcpopts (if ws then TCP_WSCALE else -1) sk ts (if ts then ts_now g else 0)
      (if ts then u32 (if synack then ts_recent t else 0) else 0) [].
Proof.
  intros ws ts sk. assert (Et : u32 (ts_now g) = ts_now g) by (unfold ts_now, u32; apply Z.mod_small, Z.mod_pos_bound; done).
  unfold syn_opts, parse_opts. fold ws ts sk. set (echo := if synack then ts_recent t else 0).
  transitivity (mk_tcpopts (if ws then TCP_WSCALE else -1) sk ts (if ts then be (be_bytes 4 (ts_now g)) else 0)
    (if ts then be (be_bytes 4 echo) else 0) []); [|by rewrite !be4_u32, Et].
  clearbody ws ts sk echo. generalize (ts_now g). intros a. destruct ws, ts, sk; reflexivity.
Qed.

(** What the options of a segment say. *)
Definition meant_opts (t : tcpcb) (flags : Z) (g : shared) : tcpopts :=
  if has flags TCP_SYN then
    let synack := has flags TCP_ACK in
    let ws := negb (has (opts_disabled g) TCPOPT_NO_WS) && (negb synack || peer_ws t) in
    let ts := negb (has (opts_disabled g) TCPOPT_NO_TS) && (negb synack || peer_ts t) in
    let sk := negb (has (opts_disabled g) TCPOPT_NO_SACK) && (negb synack || peer_sack t) in
    mk_tcpopts (if ws then TCP_WSCALE else -1) sk ts (if ts then ts_now g else 0)
      (if ts then u32 (if synack then ts_recent t else 0) else 0) []
  else
    mk_tcpopts (-1) false (ts_ok t) (if ts_ok t then ts_now g else 0) (if ts_ok t then u32 (ts_recent t) else 0)
      (wide <$> reported t flags).
Lemma parse_seg_opts t flags g : parse_opts (seg_opts t flags g) = meant_opts t flags g.
Proof. unfold seg_opts, meant_opts. destruct (has flags TCP_SYN); [apply parse_syn_opts|apply parse_ack_opts]. Qed.

(** C36: a segment that send_seg hands to IP is one that tcp_input takes: its
    checksum is right for the two addresses, its header fits and reads back
    field by field, its data is the data sent, and its options parse to the
    timestamp, the window scale and the SACK blocks that were meant. *)
Theorem tcp_segment_roundtrip ip_output t seq flags data g p :
  sent (send_seg ip_output t seq flags data g).2 = sent g ++ [p] ->
  NET.is_u32 (local_ip t) -> NET.is_u32 (remote_ip t) -> Forall NET.is_byte data ->
  let seg := p.2 in
  p.1.1 = remote_ip t /\
  NET.net_checksum seg (pseudo_sum (local_ip t) (remote_ip t) (Z.of_nat (length seg))) = 0 /\
  TCP_HDR_LEN <= hlen_of seg <= Z.of_nat (length seg) /\
  header_of seg = trunc (seg_hdr t seq flags g) /\ data_of seg = data /\
  parse_opts (opts_of seg) = meant_opts t flags g.
Proof.
  intros Es Hl Hr Hd. pose proof (send_seg_sent ip_output t seq flags data g) as H. destruct (send_seg _ _ _ _ _ _) as [err g']. cbn [snd] in Es.
  rewrite Es in H. destruct H as [H|[H Hm]].
  { apply (f_equal length) in H. rewrite length_app in H. cbn in H. lia. }
  apply app_inv_head in H. injection H as ->. cbn [fst snd]. unfold seg_bytes.
  pose proof (seg_opts_ok t flags g) as Ho. pose proof Ho as (_ & Ho2 & Ho3).
  destruct (parts_of_segment (local_ip t) (remote_ip t) (seg_hdr t seq flags g) (seg_opts t flags g) data Ho eq_refl) as [Ed Eo].
  split; [done|]. split; [apply segment_checks; try done; unfold TCP_MSS in Hm; lia|]. split.
  { unfold hlen_of. rewrite header_of_segment, length_segment. cbn [trunc h_offset seg_hdr].
    destruct (offset_of (seg_opts t flags g) Ho) as [E Hb]. unfold u8. rewrite Z.mod_small by exact Hb. rewrite E. unfold TCP_HDR_LEN. lia. }
  split; [apply header_of_segment|]. split; [done|]. rewrite Eo. apply parse_seg_opts.
Qed.

(** An IP layer that takes everything, for the examples. *)
Definition out_ok (dst : Z) (seg : list Z) (g : shared) : Z := 0.

(** A segment with data out of order to report. *)
Definition holding : tcpcb := zeroed <| local_ip := 167772161 |> <| remote_ip := 167772162 |> <| local_port := 32768 |>
  <| remote_port := 80 |> <| rcv_nxt := 5000 |> <| ts_ok := true |> <| sack_ok := true |> <| ts_recent := 77 |>
  <| ooo := mk_held true 0 6000 100 1 :: replicate 23 no_held |>.
Definition quiet_net : shared := mk_shared [] [] 0 0 0 0 32768 (PMM.pmm_init 0 0 PMM.blank) 1000 [].
Definition one_sent : Z * Z * list Z := default (0, 0, []) (sent (send_seg out_ok holding 7000 24 [1; 2; 3] quiet_net).2 !! 0%nat).
Lemma tcp_segment_roundtrip_witness :
  data_of one_sent.2 = [1; 2; 3] /\ p_sack (parse_opts (opts_of one_sent.2)) = [(6000, 6100)].
Proof.
  assert (E : sent (send_seg out_ok holding 7000 24 [1; 2; 3] quiet_net).2 = sent quiet_net ++ [one_sent]) by (vm_compute; reflexivity).
  assert (Hb : Forall NET.is_byte [1; 2; 3]) by all_bytes.
  assert (Hl : NET.is_u32 (local_ip holding)) by (unfold NET.is_u32; vm_compute; split; congruence).
  assert (Hr : NET.is_u32 (remote_ip holding)) by (unfold NET.is_u32; vm_compute; split; congruence).
  assert (Em : p_sack (meant_opts holding 24 quiet_net) = [(6000, 6100)]) by (vm_compute; reflexivity).
  pose proof (tcp_segment_roundtrip out_ok holding 7000 24 [1; 2; 3] quiet_net one_sent E Hl Hr Hb) as H. cbv zeta in H.
  split; [exact (proj1 (proj2 (proj2 (proj2 (proj2 H)))))|].
  rewrite (proj2 (proj2 (proj2 (proj2 (proj2 H))))). exact Em.
Defined.
End TCPSEG.
