(* ===== verification/Tcpsend.v ===== *)
(** * TCP: what is sent (kernel/net/tcp.c)

    The send ring, the scoreboard of what the peer reports, and every place
    that sends data, resends it or closes: a data segment always carries the
    program's bytes at its sequence number. *)

From S2P Require Import Prelude Pmm Route Net Tcp Tcprecv Tcpseg.
Local Open Scope Z_scope.

Module TCPSEND.
Import TCP TCPRECV TCPSEG.

(** ** What was handed to IP *)

Definition logs (P : Z * Z * list Z -> Prop) (g g' : shared) : Prop := exists l, sent g' = sent g ++ l /\ Forall P l.
Lemma logs_same (P : Z * Z * list Z -> Prop) g g' : sent g' = sent g -> logs P g g'.
Proof. intros E. exists []. by rewrite app_nil_r. Qed.
Lemma logs_trans P g1 g2 g3 : logs P g1 g2 -> logs P g2 g3 -> logs P g1 g3.
Proof.
  intros (l1 & E1 & F1) (l2 & E2 & F2). exists (l1 ++ l2). split; [by rewrite E2, E1, app_assoc|by apply Forall_app].
Qed.
Lemma logs_weaken (P Q : Z * Z * list Z -> Prop) g g' : (forall s, P s -> Q s) -> logs P g g' -> logs Q g g'.
Proof. intros H (l & E & F). exists l. split; [done|]. by eapply Forall_impl. Qed.

Section sender.
(** The program writes [W 0], [W 1], ..; the first has sequence number [sb]. *)
Context (sb : Z).
Definition pos (x : Z) : Z := u32 (sb + x).

(** Sequence numbers of the stream compare as their positions do. *)
Lemma pos_gt x y : -2147483648 <= x - y < 2147483648 -> seq_gt (pos x) (pos y) = (y <? x).
Proof. apply seq_gt_pos. Qed.
Lemma pos_ge x y : -2147483648 <= x - y < 2147483648 -> seq_ge (pos x) (pos y) = (y <=? x).
Proof. apply seq_ge_pos. Qed.
Lemma pos_le x y : -2147483648 <= x - y < 2147483648 -> seq_le (pos x) (pos y) = (x <=? y).
Proof. apply seq_le_pos. Qed.
Lemma pos_eqb x y : -4294967296 < x - y < 4294967296 -> (pos x =? pos y) = (x =? y).
Proof.
  intros H. destruct (Z.eqb_spec x y) as [->|Hne]; [by apply Z.eqb_eq|]. apply Z.eqb_neq. intros E. exact (Hne (u32_eq sb x y H E)).
Qed.
Lemma pos_sub x y : 0 <= x - y < 4294967296 -> u32 (pos x - pos y) = x - y.
Proof. apply u32_diff. Qed.
Lemma pos_sub_neg x y : -4294967296 <= x - y < 0 -> u32 (pos x - pos y) = x - y + 4294967296.
Proof.
  intros Hd. unfold pos, u32. rewrite Zminus_mod_idemp_l, Zminus_mod_idemp_r. replace (sb + x - (sb + y)) with (x - y) by lia.
  Z.div_mod_to_equations. lia.
Qed.
Lemma pos_add x n : u32 (pos x + n) = pos (x + n).
Proof. apply u32_plus. Qed.
Lemma u32_pos x : u32 (pos x) = pos x.
Proof. unfold pos, u32. apply Z.mod_small, Z.mod_pos_bound. done. Qed.

Context (W : Z -> Z).

(** What the acknowledgements it sends may say: the number they
    acknowledge, and the blocks they report. *)
Context (V : Z -> list (Z * Z) -> Prop).
Definition speaks (t : tcpcb) : Prop := forall max, V (u32 (rcv_nxt t)) (wide <$> sack_blocks t max).

(** A segment of the stream: an acknowledgement, with the program's bytes at
    its sequence number or none. A FIN that IP took comes with no data, after
    the last byte, and only when the program has closed. *)
Record carries (N : Z) (F : bool) (p : Z * Z * list Z) : Prop := {
  ca_flags : has (h_flags (header_of p.2)) (Z.lor TCP_RST TCP_SYN) = false;
  ca_ack : V (h_ack (header_of p.2)) (p_sack (parse_opts (opts_of p.2)));
  ca_data : data_of p.2 = [] \/
    exists q, h_seq (header_of p.2) = pos q /\ 0 <= q /\ q + Z.of_nat (length (data_of p.2)) <= N /\
      data_of p.2 = span W q (length (data_of p.2));
  ca_fin : has (h_flags (header_of p.2)) TCP_FIN = true -> p.1.2 = 0 ->
    F = true /\ data_of p.2 = [] /\ exists q, h_seq (header_of p.2) = pos q /\ N <= q <= N + 1 }.
Lemma carries_more N N' (F F' : bool) p : N <= N' -> (F = true -> F' = true /\ N' = N) -> carries N F p -> carries N' F' p.
Proof.
  intros H HF [A B C D]. constructor; [done|done| |].
  - destruct C as [?|(q & C1 & C2 & C3 & C4)]; [by left|right]. exists q. split; [done|]. split; [done|]. split; [lia|done].
  - intros H1 H2. destruct (D H1 H2) as (EF & Ed & q & Eq & Hq). destruct (HF EF) as [-> ->]. split; [done|]. split; [done|]. by exists q.
Qed.

(** [N] bytes were written; all before [A] are acknowledged; the oldest
    unacknowledged sequence number is [U], the FIN's after its own has come;
    [X] is the next to send and [M] the highest ever sent. *)
Record send_ok (N A U X M : Z) (t : tcpcb) : Prop := {
  sn_N : 0 <= A <= N /\ N < 1073741824;
  sn_len : sndlen t = N - A;
  sn_room : N - A <= TCP_SNDBUF;
  sn_U : U = A \/ (U = N + 1 /\ A = N /\ fin_sent t = true);
  sn_X : 0 <= X <= N + 2;
  sn_M : 0 <= M <= N;
  sn_una : snd_una t = pos U;
  sn_nxt : snd_nxt t = pos X;
  sn_max : snd_max t = pos M;
  sn_start : 0 <= sndstart t < TCP_SNDBUF;
  sn_ring : forall j, 0 <= j < N - A -> sndring t ((sndstart t + j) mod TCP_SNDBUF) = W (A + j);
  sn_sacked : Forall (fun '(st, en) => exists x y, st = pos x /\ en = pos y /\ U <= x < y /\ y <= M) (sacked t);
  sn_high : in_recovery t = true -> exists h, high_rxt t = pos h /\ 0 <= h <= N + 1;
  sn_speaks : speaks t }.

Definition snd_part (t : tcpcb) : Z * Z * Z * Z * Z * (Z -> Z) * list (Z * Z) * bool * Z * Z * list held * bool :=
  (sndlen t, snd_una t, snd_nxt t, snd_max t, sndstart t, sndring t, sacked t, in_recovery t, high_rxt t, rcv_nxt t, ooo t, fin_sent t).
(** The sender's own fields. *)
Definition snd_core (t : tcpcb) : Z * Z * Z * Z * Z * (Z -> Z) * list (Z * Z) * bool * Z * bool :=
  (sndlen t, snd_una t, snd_nxt t, snd_max t, sndstart t, sndring t, sacked t, in_recovery t, high_rxt t, fin_sent t).
Lemma speaks_same t t' : rcv_nxt t' = rcv_nxt t -> ooo t' = ooo t -> speaks t -> speaks t'.
Proof. intros E1 E2 H max. unfold sack_blocks in *. rewrite E1, E2. apply H. Qed.
Lemma send_ok_same N A U X M t t' : snd_part t' = snd_part t -> send_ok N A U X M t -> send_ok N A U X M t'.
Proof.
  intros E [S1 S2 S3 S4 S5 S6 S7 S8 S9 S10 S11 S12 S13 S14]. injection E as E1 E2 E3 E4 E5 E6 E7 E8 E9 E10 E11 E12.
  constructor; rewrite ?E1, ?E2, ?E3, ?E4, ?E5, ?E6, ?E7, ?E8, ?E9, ?E12; try done. by apply (speaks_same t).
Qed.

Section ops.
Context (ip_output : Z -> list Z -> shared -> Z).

Lemma parsed_seg t seq flags data g : let seg := seg_bytes t seq flags data g in
  header_of seg = trunc (seg_hdr t seq flags g) /\ data_of seg = data /\ parse_opts (opts_of seg) = meant_opts t flags g.
Proof.
  cbv zeta. unfold seg_bytes. destruct (parts_of_segment (local_ip t) (remote_ip t) (seg_hdr t seq flags g) (seg_opts t flags g) data
    (seg_opts_ok t flags g) eq_refl) as [Ed Eo]. split; [apply header_of_segment|]. split; [done|]. rewrite Eo. apply parse_seg_opts.
Qed.
(** What an acknowledgement says is what the connection may say. *)
Lemma speaks_opts t flags g : speaks t -> has flags TCP_SYN = false -> V (u32 (rcv_nxt t)) (p_sack (meant_opts t flags g)).
Proof.
  intros Hv Hf. unfold meant_opts. rewrite Hf. cbn [p_sack]. unfold reported. destruct (_ && _); [apply Hv|apply (Hv 0%nat)].
Qed.
Lemma send_seg_logs N F t seq flags data g : speaks t -> flags = TCP_ACK \/ flags = Z.lor TCP_ACK TCP_PSH ->
  data = [] \/ (exists q, u32 seq = pos q /\ 0 <= q /\ q + Z.of_nat (length data) <= N /\ data = span W q (length data)) ->
  logs (carries N F) g (send_seg ip_output t seq flags data g).2.
Proof.
  intros Hv Hfl Hd. pose proof (send_seg_sent ip_output t seq flags data g) as Hs.
  destruct (send_seg _ _ _ _ _ _) as [err g']. destruct Hs as [E|[E _]]; [by apply logs_same|].
  exists [(remote_ip t, err, seg_bytes t seq flags data g)]. split; [done|]. constructor; [|constructor].
  destruct (parsed_seg t seq flags data g) as (Eh & Ed & Eo). constructor; cbn [snd]; rewrite Eh, ?Ed, ?Eo; cbn [trunc h_flags h_ack h_seq seg_hdr].
  - by destruct Hfl as [->| ->].
  - apply speaks_opts; [done|by destruct Hfl as [->| ->]].
  - done.
  - by destruct Hfl as [->| ->].
Qed.
Lemma send_fin_logs N t seq g : speaks t -> (exists q, u32 seq = pos q /\ N <= q <= N + 1) ->
  let '(err, g') := send_seg ip_output t seq (Z.lor TCP_ACK TCP_FIN) [] g in logs (carries N (err =? 0)) g g'.
Proof.
  intros Hv Hq. pose proof (send_seg_sent ip_output t seq (Z.lor TCP_ACK TCP_FIN) [] g) as Hs.
  destruct (send_seg _ _ _ _ _ _) as [err g']. destruct Hs as [E|[E _]]; [by apply logs_same|].
  exists [(remote_ip t, err, seg_bytes t seq (Z.lor TCP_ACK TCP_FIN) [] g)]. split; [done|]. constructor; [|constructor].
  destruct (parsed_seg t seq (Z.lor TCP_ACK TCP_FIN) [] g) as (Eh & Ed & Eo).
  constructor; cbn [snd fst]; rewrite Eh, ?Ed, ?Eo; cbn [trunc h_flags h_ack h_seq seg_hdr].
  - done.
  - by apply speaks_opts.
  - by left.
  - intros _ ->. done.
Qed.
Lemma empty_logs N F t seq g : speaks t -> logs (carries N F) g (send_seg ip_output t seq TCP_ACK [] g).2.
Proof. intros Hv. apply send_seg_logs; [done|by left|by left]. Qed.

(** The bytes of the send ring. *)
Lemma snd_copy_ok N A X M t q n : send_ok N A A X M t -> A <= q -> 0 <= n -> q + n <= N ->
  snd_copy t (u32 (pos q - snd_una t)) n = span W q (Z.to_nat n).
Proof.
  intros Hi Hq Hn Hl. pose proof (sn_N _ _ _ _ _ _ Hi). pose proof (sn_room _ _ _ _ _ _ Hi) as Hr. pose proof (sn_start _ _ _ _ _ _ Hi) as Hst.
  rewrite (sn_una _ _ _ _ _ _ Hi), pos_sub by (unfold TCP_SNDBUF in *; lia). unfold snd_copy, TCP_SNDBUF in *.
  rewrite u32_small by lia. set (at_ := (sndstart t + (q - A)) mod 65536). assert (Ha : 0 <= at_ < 65536) by (apply Z.mod_pos_bound; done).
  set (first := if n <? 65536 - at_ then n else 65536 - at_).
  assert (Hf : 0 <= first <= n /\ first <= 65536 - at_ /\ (first = n \/ first = 65536 - at_)) by (unfold first; zcase; lia).
  assert (Hb : forall j, 0 <= j < n -> sndring t ((at_ + j) mod 65536) = W (q + j)).
  { intros j Hj. unfold at_. rewrite Zplus_mod_idemp_l. replace (sndstart t + (q - A) + j) with (sndstart t + (q - A + j)) by lia.
    change 65536 with TCP_SNDBUF. rewrite (sn_ring _ _ _ _ _ _ Hi) by lia. f_equal. lia. }
  replace (Z.to_nat n) with (Z.to_nat first + Z.to_nat (n - first))%nat by lia. rewrite span_app. f_equal.
  - unfold span. apply list_fmap_ext. intros i k Hk. apply lookup_seq in Hk as [-> Hk]. cbn [Nat.add].
    rewrite <- Hb by lia. f_equal. rewrite Z.mod_small; lia.
  - unfold span. apply list_fmap_ext. intros i k Hk. apply lookup_seq in Hk as [-> Hk]. cbn [Nat.add].
    rewrite Z2Nat.id by lia. replace (q + first + Z.of_nat i) with (q + (first + Z.of_nat i)) by lia. rewrite <- Hb by lia. f_equal.
    destruct Hf as (_ & _ & [->| ->]); [lia|]. replace (at_ + (65536 - at_ + Z.of_nat i)) with (Z.of_nat i + 1 * 65536) by lia.
    rewrite Z_mod_plus_full. symmetry. apply Z.mod_small. lia.
Qed.

(** Raising the highest sequence number sent. *)
Lemma send_ok_max N A U X M M' t : M <= M' <= N -> send_ok N A U X M t -> send_ok N A U X M' (t <| snd_max := pos M' |>).
Proof.
  intros HM [S1 S2 S3 S4 S5 S6 S7 S8 S9 S10 S11 S12 S13 S14]. constructor; try done; [lia|].
  eapply Forall_impl; [exact S12|]. intros [st en] (x & y & -> & -> & H1 & H2). exists x, y. do 3 (split; [done|]). lia.
Qed.
Lemma send_range_ok N A X M q n t g : send_ok N A A X M t -> A <= q -> 0 <= n -> q + n <= N ->
  let '(err, t', g') := send_range ip_output (pos q) n t g in
  (exists M', M <= M' <= N /\ send_ok N A A X M' t') /\ (forall F, logs (carries N F) g g') /\ fin_sent t' = fin_sent t.
Proof.
  intros Hi Hq Hn Hl. pose proof (sn_N _ _ _ _ _ _ Hi) as HN. pose proof (sn_M _ _ _ _ _ _ Hi) as HM. unfold send_range.
  rewrite (snd_copy_ok N A X M t q n) by done.
  pose proof (fun F => send_seg_logs N F t (pos q) (Z.lor TCP_ACK TCP_PSH) (span W q (Z.to_nat n)) g) as Hlog.
  destruct (send_seg _ _ _ _ _ _) as [err g']. cbn [snd] in Hlog.
  set (t1 := if (err =? 0) && seq_gt (snd_max t) (pos q) then _ else t).
  assert (E1 : snd_part t1 = snd_part t) by (unfold t1; by destruct (_ && _)).
  pose proof (send_ok_same _ _ _ _ _ _ _ E1 Hi) as Hi1. assert (Ef : fin_sent t1 = fin_sent t) by exact (f_equal snd E1). clearbody t1.
  split; [|split; [intros F; apply Hlog; [apply Hi|by right|]; right; exists q; rewrite u32_pos, length_span; split; [done|]; split; [lia|]; split; [lia|done]|]].
  - rewrite (sn_max _ _ _ _ _ _ Hi1), pos_add, pos_gt by lia. destruct (err =? 0); cbn [andb]; [|exists M; split; [lia|done]].
    destruct (Z.ltb_spec M (q + n)); [|exists M; split; [lia|done]].
    exists (q + n). split; [lia|]. apply (send_ok_max N A A X M); [lia|done].
  - destruct (_ && _); exact Ef.
Qed.

(** Moving the next sequence number to send. *)
Lemma send_ok_next N A U X X' M t : 0 <= X' <= N + 2 -> send_ok N A U X M t -> send_ok N A U X' M (t <| snd_nxt := pos X' |>).
Proof. intros HX [S1 S2 S3 S4 S5 S6 S7 S8 S9 S10 S11 S12 S13 S14]. by constructor. Qed.

(** ** The scoreboard *)

(** Past the SACKed ranges that follow [x]: strictly forward, to the end of
    one of them, or not at all. *)
Lemma sacked_until_ok N A U X M t x : send_ok N A U X M t -> 0 <= x <= N + 2 ->
  exists y, sacked_until t (pos x) = pos y /\ (y = x \/ (x < y <= M /\ exists st, (st, pos y) ∈ sacked t)).
Proof.
  intros Hi Hx. pose proof (sn_N _ _ _ _ _ _ Hi). pose proof (sn_M _ _ _ _ _ _ Hi). unfold sacked_until.
  destruct (find_idx _ (sacked t)) as [i|] eqn:E; [|exists x; split; [done|by left]].
  apply find_idx_Some in E as [([st en] & Hlk & Hp) _]. pose proof (sn_sacked _ _ _ _ _ _ Hi) as Hs. rewrite Forall_lookup in Hs.
  destruct (Hs i _ Hlk) as (a & b & -> & -> & Ha & Hb). rewrite Hlk. cbn. exists b. split; [done|]. right.
  pose proof (sn_U _ _ _ _ _ _ Hi) as HU.
  apply andb_true_iff in Hp as [_ Hp]. rewrite pos_gt in Hp by lia. apply Z.ltb_lt in Hp. split; [lia|]. exists (pos a).
  by eapply list_elem_of_lookup_2.
Qed.
(** Cut before the SACKed ranges: shorter, but not empty. *)
Lemma before_sacked_ok N A U X M t x n : send_ok N A U X M t -> 0 <= x -> 0 < n -> x + n <= N -> 
  0 < before_sacked (pos x) n t <= n.
Proof.
  intros Hi Hx. pose proof (sn_sacked _ _ _ _ _ _ Hi) as Hs. pose proof (sn_N _ _ _ _ _ _ Hi) as HN. pose proof (sn_M _ _ _ _ _ _ Hi) as HM.
  pose proof (sn_U _ _ _ _ _ _ Hi) as HU.
  unfold before_sacked. revert n. induction (sacked t) as [|[st en] l IH]; intros n Hn Hl; [cbn; lia|]. cbn [foldl].
  apply Forall_cons in Hs as [(a & b & -> & -> & Ha & Hb) Hs]. specialize (IH Hs).
  rewrite pos_add, !pos_gt by lia. destruct (Z.ltb_spec x a); cbn [andb]; [|by apply IH].
  destruct (Z.ltb_spec a (x + n)); [|by apply IH]. rewrite pos_sub by lia. specialize (IH (a - x) ltac:(lia) ltac:(lia)). lia.
Qed.

(** ** Sending *)

Lemma arm_rexmit_snd t g : snd_part (arm_rexmit t g) = snd_part t.
Proof. unfold arm_rexmit. by destruct (_ =? _). Qed.
Lemma arm_rexmit_fin t g : fin_sent (arm_rexmit t g) = fin_sent t.
Proof. unfold arm_rexmit. by destruct (_ =? _). Qed.
Lemma send_ok_arm N A U X M t g : send_ok N A U X M t -> send_ok N A U X M (arm_rexmit t g).
Proof. apply send_ok_same, arm_rexmit_snd. Qed.

(** What one turn of the loop does: stop, step over a range the peer has, or
    send the next bytes. *)
Lemma inflight_ok N A U X M t : send_ok N A U X M t -> u32 (snd_nxt t - snd_una t) < sndlen t ->
  U = A /\ A <= X < N /\ u32 (snd_nxt t - snd_una t) = X - A.
Proof.
  intros Hi. pose proof (sn_N _ _ _ _ _ _ Hi). pose proof (sn_room _ _ _ _ _ _ Hi) as Hr. pose proof (sn_X _ _ _ _ _ _ Hi).
  rewrite (sn_una _ _ _ _ _ _ Hi), (sn_nxt _ _ _ _ _ _ Hi), (sn_len _ _ _ _ _ _ Hi). unfold TCP_SNDBUF in Hr.
  pose proof (sn_U _ _ _ _ _ _ Hi) as HU. destruct (Z.le_gt_cases U X).
  - rewrite pos_sub by lia. lia.
  - rewrite pos_sub_neg by lia. lia.
Qed.
Lemma timed_snd (b : bool) t a c : snd_part (if b then t <| rtt_timing := true |> <| rtt_seq := a |> <| rtt_start := c |> else t) = snd_part t.
Proof. by destruct b. Qed.
Lemma send_loop_ok N A U X M fuel t g : send_ok N A U X M t ->
  let '(t', g') := send_loop ip_output fuel t g in
  (exists X' M', M <= M' /\ send_ok N A U X' M' t') /\ (forall F, logs (carries N F) g g') /\ fin_sent t' = fin_sent t.
Proof.
  revert X M t g. induction fuel as [|fuel IH]; intros X M t g Hi; [split; [exists X, M; by split|split; [intros F; by apply logs_same|done]]|]. cbn [send_loop].
  assert (Hstop : (exists X' M', M <= M' /\ send_ok N A U X' M' t) /\ (forall F, logs (carries N F) g g) /\ fin_sent t = fin_sent t)
    by (split; [exists X, M; by split|split; [intros F; by apply logs_same|done]]).
  pose proof (sn_N _ _ _ _ _ _ Hi) as HN. pose proof (sn_M _ _ _ _ _ _ Hi) as HM.
  destruct (Z.leb_spec (sndlen t) (u32 (snd_nxt t - snd_una t))) as [|Hin]; [done|].
  destruct (inflight_ok N A U X M t Hi Hin) as (-> & HX & Ei). rewrite Ei.
  set (window := if sndlen t <? _ then _ else _). destruct (Z.leb_spec window (X - A)) as [|Hw]; [done|].
  assert (Hwin : window <= N - A) by (unfold window; rewrite (sn_len _ _ _ _ _ _ Hi); zcase; lia).
  rewrite (sn_nxt _ _ _ _ _ _ Hi), (sn_una _ _ _ _ _ _ Hi), pos_add, (sn_len _ _ _ _ _ _ Hi).
  replace (A + (N - A)) with N by lia.
  destruct (sacked_until_ok N A A X M t X Hi) as (y & Ey & Hy); [lia|]. rewrite Ey, pos_eqb by lia.
  destruct (Z.eqb_spec y X) as [->|Hne]; cbn [negb].
  - set (n0 := if TCP_MSS <? window - (X - A) then TCP_MSS else window - (X - A)).
    assert (Hn0 : 0 < n0 /\ n0 <= window - (X - A)) by (unfold n0, TCP_MSS; zcase; lia).
    destruct (before_sacked_ok N A A X M t X n0 Hi) as [Hn1 Hn2]; [lia..|]. set (n := before_sacked (pos X) n0 t) in *.
    pose proof (send_range_ok N A X M X n t g Hi) as Hr.
    destruct (send_range _ _ _ _ _) as [[err t1] g1]. destruct Hr as [(M1 & HM1 & H1) [Hlog Ef]]; [lia..|]. destruct (err <? 0).
    + split; [|split; [done|by rewrite arm_rexmit_fin]]. exists X, M1. split; [lia|]. by apply send_ok_arm.
    + match goal with |- context [send_loop _ fuel (arm_rexmit (?a <| snd_nxt := _ |>) _) _] => set (t2 := a) end.
      assert (E2 : snd_part t2 = snd_part t1) by apply timed_snd. pose proof (send_ok_same _ _ _ _ _ _ _ E2 H1) as H2. assert (Ef2 : fin_sent t2 = fin_sent t1) by exact (f_equal snd E2). clearbody t2.
      rewrite (sn_nxt _ _ _ _ _ _ H2), pos_add.
      pose proof (send_ok_arm _ _ _ _ _ _ g1 (send_ok_next N A A X (X + n) M1 t2 ltac:(lia) H2)) as H3.
      pose proof (IH _ _ _ g1 H3) as H4. destruct (send_loop _ _ _ _) as [t4 g4]. destruct H4 as [(X4 & M4 & HM4 & H4) [Hlog4 Ef4]].
      split; [exists X4, M4; split; [lia|done]|split; [intros F; by eapply logs_trans|]]. rewrite Ef4, arm_rexmit_fin. cbn [fin_sent store]. congruence.
  - destruct Hy as [?|[Hy _]]; [done|]. rewrite pos_gt by lia. rewrite (proj2 (Z.ltb_ge N y)) by lia.
    pose proof (IH y M _ g (send_ok_next N A A X y M t ltac:(lia) Hi)) as H4. by destruct (send_loop _ _ _ _) as [t4 g4].
Qed.

(** The loop ends by itself: with one turn for each byte left and one more,
    a further turn makes no difference. *)
Lemma send_loop_fuel N A U X M fuel t g : send_ok N A U X M t -> (0 < fuel)%nat -> (A <= X -> N - X < Z.of_nat fuel) ->
  send_loop ip_output (S fuel) t g = send_loop ip_output fuel t g.
Proof.
  revert X M t g. induction fuel as [|fuel IH]; intros X M t g Hi Hf Hx; [lia|].
  pose proof (sn_N _ _ _ _ _ _ Hi) as HN. pose proof (sn_M _ _ _ _ _ _ Hi) as HM.
  assert (E : forall f, send_loop ip_output (S f) t g =
    ltac:(let b := eval cbn [send_loop] in (send_loop ip_output (S f) t g) in exact b)) by reflexivity.
  rewrite (E (S fuel)), (E fuel). clear E.
  destruct (Z.leb_spec (sndlen t) (u32 (snd_nxt t - snd_una t))) as [|Hin]; [done|].
  destruct (inflight_ok N A U X M t Hi Hin) as (-> & HX & Ei). rewrite Ei.
  set (window := if sndlen t <? _ then _ else _). destruct (Z.leb_spec window (X - A)) as [|Hw]; [done|].
  assert (Hwin : window <= N - A) by (unfold window; rewrite (sn_len _ _ _ _ _ _ Hi); zcase; lia).
  rewrite (sn_nxt _ _ _ _ _ _ Hi), (sn_una _ _ _ _ _ _ Hi), pos_add, (sn_len _ _ _ _ _ _ Hi).
  replace (A + (N - A)) with N by lia.
  destruct (sacked_until_ok N A A X M t X Hi) as (y & Ey & Hy); [lia|]. rewrite Ey, pos_eqb by lia.
  destruct (Z.eqb_spec y X) as [->|Hne]; cbn [negb].
  - set (n0 := if TCP_MSS <? window - (X - A) then TCP_MSS else window - (X - A)).
    assert (Hn0 : 0 < n0 /\ n0 <= window - (X - A)) by (unfold n0, TCP_MSS; zcase; lia).
    destruct (before_sacked_ok N A A X M t X n0 Hi) as [Hn1 Hn2]; [lia..|]. set (n := before_sacked (pos X) n0 t) in *.
    pose proof (send_range_ok N A X M X n t g Hi) as Hr.
    destruct (send_range _ _ _ _ _) as [[err t1] g1]. destruct Hr as [(M1 & HM1 & H1) _]; [lia..|]. destruct (err <? 0); [done|].
    match goal with |- send_loop _ _ (arm_rexmit (?a <| snd_nxt := _ |>) _) _ = _ => set (t2 := a) end.
    assert (E2 : snd_part t2 = snd_part t1) by apply timed_snd. pose proof (send_ok_same _ _ _ _ _ _ _ E2 H1) as H2. clearbody t2.
    rewrite (sn_nxt _ _ _ _ _ _ H2), pos_add.
    apply (IH (X + n) M1); [apply send_ok_arm, (send_ok_next N A A X); [lia|done]|lia|lia].
  - destruct Hy as [?|[Hy _]]; [done|]. rewrite pos_gt by lia. rewrite (proj2 (Z.ltb_ge N y)) by lia.
    apply (IH y M); [by apply (send_ok_next N A A X); [lia|]|lia|lia].
Qed.

Lemma send_fin_ok N A U X M t g : send_ok N A U X M t ->
  let '(t', g') := send_fin ip_output t g in
  (exists X', send_ok N A U X' M t') /\ (fin_sent t = true -> fin_sent t' = true) /\ logs (carries N (fin_sent t')) g g'.
Proof.
  intros Hi. unfold send_fin.
  assert (Hstop : (exists X', send_ok N A U X' M t) /\ (fin_sent t = true -> fin_sent t = true) /\ logs (carries N (fin_sent t)) g g)
    by (split; [by exists X|split; [done|by apply logs_same]]).
  destruct (_ || _); cbn [andb]; [|done]. destruct (Z.eqb_spec (u32 (snd_nxt t - snd_una t)) (sndlen t)) as [E|]; [|done].
  pose proof (sn_N _ _ _ _ _ _ Hi) as HN. pose proof (sn_room _ _ _ _ _ _ Hi) as Hr. pose proof (sn_X _ _ _ _ _ _ Hi) as HX.
  pose proof (sn_U _ _ _ _ _ _ Hi) as HU. unfold TCP_SNDBUF in Hr.
  assert (HX1 : N <= X <= N + 1).
  { rewrite (sn_una _ _ _ _ _ _ Hi), (sn_nxt _ _ _ _ _ _ Hi), (sn_len _ _ _ _ _ _ Hi) in E. destruct (Z.le_gt_cases U X).
    - rewrite pos_sub in E by lia. lia.
    - rewrite pos_sub_neg in E by lia. lia. }
  pose proof (send_fin_logs N t (snd_nxt t) g (sn_speaks _ _ _ _ _ _ Hi)) as Hlog.
  destruct (send_seg _ _ _ _ _ _) as [err g'].
  specialize (Hlog ltac:(exists X; by rewrite (sn_nxt _ _ _ _ _ _ Hi), u32_pos)). destruct (err =? 0).
  - split; [|split; [by rewrite arm_rexmit_fin|by rewrite arm_rexmit_fin]]. exists (X + 1). rewrite (sn_nxt _ _ _ _ _ _ Hi), pos_add. apply send_ok_arm.
    pose proof (send_ok_next N A U X (X + 1) M t ltac:(lia) Hi) as [S1 S2 S3 S4 S5 S6 S7 S8 S9 S10 S11 S12 S13 S14].
    constructor; try done. destruct S4 as [->|(? & ? & ?)]; [by left|by right].
  - split; [by exists X|]. split; [done|]. eapply logs_weaken; [|exact Hlog]. intros p. by apply carries_more.
Qed.

(** The sender goes on, and what went out is the stream. *)
Definition sender (N : Z) (t : tcpcb) : Prop := exists A U X M, send_ok N A U X M t.
Record sends (N : Z) (c p : tcpcb * shared) : Prop := {
  se_sender : sender N p.1;
  se_fin : fin_sent c.1 = true -> fin_sent p.1 = true;
  se_logs : logs (carries N (fin_sent p.1)) c.2 p.2 }.
Lemma sender_same N t t' : snd_part t' = snd_part t -> sender N t -> sender N t'.
Proof. intros E (A & U & X & M & H). exists A, U, X, M. by eapply send_ok_same. Qed.
Lemma sender_core N t t' : snd_core t' = snd_core t -> speaks t' -> sender N t -> sender N t'.
Proof.
  intros E Hv (A & U & X & M & [S1 S2 S3 S4 S5 S6 S7 S8 S9 S10 S11 S12 S13 S14]). exists A, U, X, M. injection E as E1 E2 E3 E4 E5 E6 E7 E8 E9 E10.
  constructor; rewrite ?E1, ?E2, ?E3, ?E4, ?E5, ?E6, ?E7, ?E8, ?E9, ?E10; done.
Qed.
Lemma sender_speaks N t : sender N t -> speaks t.
Proof. intros (A & U & X & M & H). apply H. Qed.
Lemma sends_refl N t g : sender N t -> sends N (t, g) (t, g).
Proof. intros H. split; [done|done|by apply logs_same]. Qed.
Lemma sends_trans N c1 c2 c3 : sends N c1 c2 -> sends N c2 c3 -> sends N c1 c3.
Proof.
  intros [A B C] [A' B' C']. split; [done|auto|]. eapply logs_trans; [|exact C']. eapply logs_weaken; [|exact C].
  intros p. apply carries_more; [lia|auto].
Qed.
Lemma sends_same N t t' g g' : snd_part t' = snd_part t -> sent g' = sent g -> sender N t -> sends N (t, g) (t', g').
Proof.
  intros E1 E2 H. split; [by eapply sender_same| |by apply logs_same]. cbn [fst]. by rewrite (f_equal snd E1 : fin_sent t' = fin_sent t).
Qed.
Lemma sends_empty N t t' seq g : snd_part t' = snd_part t -> sender N t -> sends N (t, g) (t', (send_seg ip_output t' seq TCP_ACK [] g).2).
Proof.
  intros E H. pose proof (sender_same N t t' E H) as H'. split; [done| |by apply empty_logs, (sender_speaks N)].
  cbn [fst]. by rewrite (f_equal snd E : fin_sent t' = fin_sent t).
Qed.
(** A step that sends no FIN. *)
Lemma sends_plain N t t' g g' : sender N t' -> fin_sent t' = fin_sent t -> (forall F, logs (carries N F) g g') -> sends N (t, g) (t', g').
Proof. intros A B C. split; [done|cbn [fst]; by rewrite B|apply C]. Qed.

Lemma send_data_ok N t g : sender N t -> sends N (t, g) (send_data ip_output t g).
Proof.
  intros (A & U & X & M & Hi). assert (Hs : sender N t) by (by exists A, U, X, M). unfold send_data. destruct (negb _); [by apply sends_refl|].
  pose proof (send_loop_ok N A U X M (S (Z.to_nat (sndlen t))) t g Hi) as H. destruct (send_loop _ _ _ _) as [t1 g1].
  destruct H as [(X1 & M1 & _ & H1) [Hl1 Ef]]. apply (sends_trans N _ (t1, g1)).
  { apply sends_plain; [by exists A, U, X1, M1|done|done]. }
  pose proof (send_fin_ok N A U X1 M1 t1 g1 H1) as H2. destruct (send_fin _ _ _) as [t2 g2].
  destruct H2 as ([X2 H2] & Hf & Hl2). split; [by exists A, U, X2, M1|done|done].
Qed.

(** *** Reports of the peer *)

Definition in_stream (N : Z) (b : Z * Z) : Prop := exists x y, b = (pos x, pos y) /\ 0 <= x <= N + 1 /\ 0 <= y <= N + 1.
Lemma send_ok_sacked N A U X M l t : send_ok N A U X M t ->
  Forall (fun '(st, en) => exists x y, st = pos x /\ en = pos y /\ U <= x < y /\ y <= M) l -> send_ok N A U X M (t <| sacked := l |>).
Proof. intros [S1 S2 S3 S4 S5 S6 S7 S8 S9 S10 S11 S12 S13 S14] Hl. by constructor. Qed.
Lemma sack_add_ok N A U X M b t : in_stream N b -> send_ok N A U X M t -> send_ok N A U X M (sack_add b.1 b.2 t).
Proof.
  intros (x & y & -> & Hx & Hy) Hi. cbn [fst snd]. unfold sack_add.
  pose proof (sn_N _ _ _ _ _ _ Hi) as HN. pose proof (sn_M _ _ _ _ _ _ Hi) as HM. pose proof (sn_U _ _ _ _ _ _ Hi) as HU.
  pose proof (sn_sacked _ _ _ _ _ _ Hi) as Hs.
  rewrite (sn_una _ _ _ _ _ _ Hi), (sn_max _ _ _ _ _ _ Hi), !pos_gt by lia.
  destruct (Z.ltb_spec x y), (Z.ltb_spec U y), (Z.ltb_spec M y); cbn [negb orb]; try done.
  set (st := if x <? U then pos U else pos x).
  assert (Est : exists x', st = pos x' /\ U <= x' < y) by (unfold st; destruct (Z.ltb_spec x U); [exists U|exists x]; split; done || lia).
  clearbody st. destruct Est as (x' & -> & Hx').
  destruct (find_idx _ (sacked t)) as [i|].
  - apply send_ok_sacked; [done|]. apply Forall_alter; [done|]. intros [s0 e0] _ (a & b & -> & -> & Ha & Hb).
    rewrite !pos_gt by lia. exists (if x' <? a then x' else a), (if b <? y then y else b).
    destruct (Z.ltb_spec x' a), (Z.ltb_spec b y); (split; [done|]); (split; [done|]); lia.
  - destruct (_ <? _)%nat; [|done]. apply send_ok_sacked; [done|]. apply Forall_app. split; [done|]. constructor; [|constructor].
    exists x', y. split; [done|]. split; [done|]. lia.
Qed.
Lemma sack_adds_ok N A U X M bl t : Forall (in_stream N) bl -> send_ok N A U X M t ->
  send_ok N A U X M (foldl (fun t '(st, en) => sack_add st en t) t bl).
Proof.
  intros Hb. revert t. induction Hb as [|[st en] bl Hb _ IH]; intros t Hi; [done|]. cbn [foldl]. apply IH.
  by apply (sack_add_ok N A U X M (st, en)).
Qed.

(** Trimming to the new oldest sequence number. *)
Lemma trim_loop_ok N U M fuel i l : 0 <= U <= N + 1 -> M <= N -> N < 1073741824 -> (length l - i <= fuel)%nat ->
  Forall (fun '(st, en) => exists x y, st = pos x /\ en = pos y /\ 0 <= x < y /\ y <= M) l ->
  (forall k st en, (k < i)%nat -> l !! k = Some (st, en) -> exists x y, st = pos x /\ en = pos y /\ U <= x < y /\ y <= M) ->
  Forall (fun '(st, en) => exists x y, st = pos x /\ en = pos y /\ U <= x < y /\ y <= M) (trim_loop fuel i (pos U) l).
Proof using V W ip_output.
  intros HU HM HN. revert i l. induction fuel as [|fuel IH]; intros i l Hf Hl Hd; cbn [trim_loop].
  - apply Forall_lookup. intros k [st en] Hk. apply (Hd k); [|done]. apply lookup_lt_Some in Hk. lia.
  - destruct (l !! i) as [[st en]|] eqn:Ei.
    2:{ apply Forall_lookup. intros k [st en] Hk. apply (Hd k); [|done]. apply lookup_lt_Some in Hk. apply lookup_ge_None in Ei. lia. }
    pose proof Hl as Hl0. rewrite Forall_lookup in Hl0. destruct (Hl0 i _ Ei) as (x & y & -> & -> & Hx & Hy).
    assert (Hi : (i < length l)%nat) by (by eapply lookup_lt_Some).
    rewrite pos_le, pos_gt by lia. destruct (Z.leb_spec y U).
    + set (n := (length l - 1)%nat). destruct (l !! n) as [last|] eqn:En; [|apply lookup_ge_None in En; lia].
      apply IH.
      * rewrite length_take, length_insert. lia.
      * apply Forall_take, Forall_insert; [done|]. by apply (Hl0 n).
      * intros k s e Hk. rewrite lookup_take_Some. intros [Hlk _]. rewrite list_lookup_insert_ne in Hlk by lia. by apply (Hd k).
    + apply IH.
      * destruct (x <? U); rewrite ?length_insert; lia.
      * destruct (x <? U); [|done]. apply Forall_insert; [done|]. exists U, y. split; [done|]. split; [done|]. lia.
      * intros k s e Hk Hlk. destruct (Z.ltb_spec x U).
        -- rewrite list_lookup_insert in Hlk. case_decide as Hd0; [|apply (Hd k); [|done]; destruct (decide (k = i)) as [->|]; [tauto|lia]].
           injection Hlk as <- <-. exists U, y. split; [done|]. split; [done|]. lia.
        -- destruct (decide (k = i)) as [->|]; [|apply (Hd k); [lia|done]]. rewrite Ei in Hlk. injection Hlk as <- <-.
           exists x, y. split; [done|]. split; [done|]. lia.
Qed.

(** The first position from [x] that no range covers; the scan ends. *)
Lemma skip_sacked_ok N A U X M fuel t x : send_ok N A U X M t -> 0 <= x <= N + 2 ->
  exists y, skip_sacked fuel t (pos x) = pos y /\ x <= y <= N + 2.
Proof.
  intros Hi. revert x. induction fuel as [|fuel IH]; intros x Hx; [exists x; split; [done|lia]|]. cbn [skip_sacked].
  pose proof (sn_N _ _ _ _ _ _ Hi). pose proof (sn_M _ _ _ _ _ _ Hi).
  destruct (sacked_until_ok N A U X M t x Hi Hx) as (y & Ey & Hy). rewrite Ey, pos_eqb by lia.
  destruct (Z.eqb_spec y x) as [->|Hne]; [exists x; split; [done|lia]|].
  destruct (IH y) as (z & Ez & Hz); [lia|]. exists z. split; [done|lia].
Qed.
(** How many reported ranges end past [x]: each turn of the scan leaves one behind. *)
Definition past (t : tcpcb) (x : Z) : nat := length (filter (fun p : Z * Z => seq_gt p.2 (pos x) = true) (sacked t)).
Lemma past_decreases N A U X M t x y : send_ok N A U X M t -> 0 <= x < y -> y <= M -> (exists st, (st, pos y) ∈ sacked t) ->
  (past t y < past t x)%nat.
Proof.
  intros Hi Hx Hy [st Hin]. pose proof (sn_N _ _ _ _ _ _ Hi). pose proof (sn_M _ _ _ _ _ _ Hi). pose proof (sn_U _ _ _ _ _ _ Hi) as HU.
  pose proof (sn_sacked _ _ _ _ _ _ Hi) as Hs. unfold past.
  assert (Hle : forall l, Forall (fun '(st, en) => exists x y, st = pos x /\ en = pos y /\ U <= x < y /\ y <= M) l ->
    (length (filter (fun p : Z * Z => seq_gt p.2 (pos y) = true) l) <= length (filter (fun p : Z * Z => seq_gt p.2 (pos x) = true) l))%nat).
  { induction 1 as [|[s e] l (a & b & -> & -> & Ha & Hb) _ IH]; [done|]. rewrite !filter_cons. cbn [snd]. rewrite !pos_gt by lia.
    destruct (Z.ltb_spec y b), (Z.ltb_spec x b); cbn [decide]; repeat case_decide; cbn [length]; done || lia. }
  induction Hs as [|[s e] l (a & b & -> & -> & Ha & Hb) Hs IH]; [by apply elem_of_nil in Hin|].
  rewrite !filter_cons. cbn [snd]. specialize (Hle l Hs). apply elem_of_cons in Hin as [E|Hin].
  - injection E as _ E. rewrite <- E, !pos_gt by lia. rewrite (proj2 (Z.ltb_ge y y)), (proj2 (Z.ltb_lt x y)) by lia.
    repeat case_decide; try done. cbn [length]. lia.
  - specialize (IH Hin). rewrite !pos_gt by lia. destruct (Z.ltb_spec y b), (Z.ltb_spec x b); repeat case_decide; try done; cbn [length]; lia.
Qed.
Lemma skip_sacked_fuel N A U X M fuel t x : send_ok N A U X M t -> 0 <= x <= N + 2 -> (past t x < fuel)%nat ->
  sacked_until t (skip_sacked fuel t (pos x)) = skip_sacked fuel t (pos x).
Proof.
  intros Hi. revert x. induction fuel as [|fuel IH]; intros x Hx Hp; [lia|]. cbn [skip_sacked].
  pose proof (sn_N _ _ _ _ _ _ Hi). pose proof (sn_M _ _ _ _ _ _ Hi).
  destruct (sacked_until_ok N A U X M t x Hi Hx) as (y & Ey & Hy). rewrite Ey, pos_eqb by lia.
  destruct (Z.eqb_spec y x) as [->|Hne]; [done|]. destruct Hy as [?|[Hy Hin]]; [done|]. apply IH; [lia|].
  pose proof (past_decreases N A U X M t x y Hi ltac:(lia) ltac:(lia) Hin). lia.
Qed.
Lemma sack_top_ok N A U X M t : send_ok N A U X M t -> exists z, sack_top t = pos z /\ U <= z /\ (z = U \/ z <= M).
Proof.
  intros Hi. pose proof (sn_N _ _ _ _ _ _ Hi). pose proof (sn_M _ _ _ _ _ _ Hi). pose proof (sn_U _ _ _ _ _ _ Hi) as HU.
  unfold sack_top. rewrite (sn_una _ _ _ _ _ _ Hi). pose proof (sn_sacked _ _ _ _ _ _ Hi) as Hs.
  assert (H1 : forall z, U <= z -> z = U \/ z <= M ->
    exists z', foldl (fun top '(_, en) => if seq_gt en top then en else top) (pos z) (sacked t) = pos z' /\ U <= z' /\ (z' = U \/ z' <= M)).
  { induction Hs as [|[s e] l (a & b & -> & -> & Ha & Hb) _ IH]; intros z Hz Hm; [by exists z|]. cbn [foldl].
    rewrite pos_gt by lia. destruct (Z.ltb_spec z b); apply IH; lia. }
  apply H1; [lia|by left].
Qed.
Lemma send_ok_high N A U X M h t : send_ok N A U X M t -> 0 <= h <= N + 1 -> send_ok N A U X M (t <| high_rxt := pos h |>).
Proof. intros [S1 S2 S3 S4 S5 S6 S7 S8 S9 S10 S11 S12 S13 S14] Hh. constructor; try done. intros _. by exists h. Qed.

(** The next hole the peer reports is resent from the ring. *)
Lemma sack_rexmit_hole_ok N A U X M t g : send_ok N A U X M t -> in_recovery t = true ->
  let '(_, t', g') := sack_rexmit_hole ip_output t g in
  (exists M', M <= M' /\ send_ok N A U X M' t') /\ (forall F, logs (carries N F) g g') /\ fin_sent t' = fin_sent t.
Proof.
  intros Hi Hrec. pose proof (sn_N _ _ _ _ _ _ Hi) as HN. pose proof (sn_M _ _ _ _ _ _ Hi) as HM. pose proof (sn_U _ _ _ _ _ _ Hi) as HU.
  assert (Hstop : (exists M', M <= M' /\ send_ok N A U X M' t) /\ (forall F, logs (carries N F) g g) /\ fin_sent t = fin_sent t)
    by (split; [exists M; by split|split; [intros F; by apply logs_same|done]]).
  destruct (sn_high _ _ _ _ _ _ Hi Hrec) as (h & Eh & Hh). destruct (sack_top_ok N A U X M t Hi) as (z & Ez & Hz & Hz').
  unfold sack_rexmit_hole. rewrite Ez, Eh, (sn_una _ _ _ _ _ _ Hi), pos_gt by lia.
  set (x0 := if U <? h then h else U). replace (if U <? h then pos h else pos U) with (pos x0) by (unfold x0; by destruct (U <? h)).
  assert (Hx0 : U <= x0 <= N + 1) by (unfold x0; zcase; lia).
  destruct (skip_sacked_ok N A U X M (S (length (sacked t))) t x0 Hi) as (x & Ex & Hx); [lia|]. rewrite Ex, pos_gt by lia.
  destruct (Z.ltb_spec x z) as [Hxz|]; cbn [negb]; [|done]. rewrite pos_sub by lia. assert (U = A) as -> by lia.
  destruct (before_sacked_ok N A A X M t x (z - x) Hi) as [Hn1 Hn2]; [lia..|]. set (n0 := before_sacked (pos x) (z - x) t) in *.
  set (n := if TCP_MSS <? n0 then TCP_MSS else n0). assert (Hn : 0 < n <= n0) by (unfold n, TCP_MSS; zcase; lia).
  destruct (Z.eqb_spec n 0); [lia|]. pose proof (send_range_ok N A X M x n t g Hi) as Hr.
  destruct (send_range _ _ _ _ _) as [[err t1] g1]. destruct Hr as [(M1 & HM1 & H1) [Hlog Ef]]; [lia..|].
  destruct (err <? 0); (split; [|done]); exists M1; (split; [lia|]); [done|]. rewrite pos_add. apply send_ok_high; [done|lia].
Qed.

(** A duplicate acknowledgement. *)
Lemma maybe_hole_ok N A U X M (b : bool) t g : send_ok N A U X M t -> in_recovery t = true ->
  let '(_, t', g') := if b then sack_rexmit_hole ip_output t g else (false, t, g) in
  (exists M', M <= M' /\ send_ok N A U X M' t') /\ (forall F, logs (carries N F) g g') /\ fin_sent t' = fin_sent t.
Proof.
  intros Hi Hr. destruct b; [by apply sack_rexmit_hole_ok|]. split; [exists M; by split|split; [intros F; by apply logs_same|done]].
Qed.
Lemma dup_ack_ok N t g : sender N t -> sends N (t, g) (dup_ack ip_output t g).
Proof.
  intros (A & U & X & M & Hi). unfold dup_ack. set (t0 := t <| dupacks := _ |>).
  assert (H0 : send_ok N A U X M t0) by (by apply (send_ok_same N A U X M t)).
  pose proof (sn_N _ _ _ _ _ _ Hi) as HN. pose proof (sn_U _ _ _ _ _ _ Hi) as HU.
  destruct (_ && _).
  - set (t1 := cwnd_on_loss false t0 <| in_recovery := _ |> <| recover := _ |> <| cwnd := _ |> <| rtt_timing := _ |> <| high_rxt := _ |>).
    assert (H1 : send_ok N A U X M t1).
    { destruct H0 as [S1 S2 S3 S4 S5 S6 S7 S8 S9 S10 S11 S12 S13 S14]. constructor; try done. intros _. exists U. split; [done|lia]. }
    assert (Hr1 : in_recovery t1 = true) by done. pose proof (maybe_hole_ok N A U X M (sack_ok t1) t1 g H1 Hr1) as Hh.
    destruct (if sack_ok t1 then _ else _) as [[hole t2] g2]. destruct Hh as [(M2 & HM2 & H2) [Hl2 Ef2]].
    assert (Hs2 : sends N (t, g) (t2, g2)) by (apply sends_plain; [by exists A, U, X, M2|done|done]).
    destruct hole; [done|]. set (n := if TCP_MSS <? sndlen t2 then TCP_MSS else sndlen t2).
    destruct (Z.ltb_spec 0 n); [|done].
    assert (Hn : n <= N - A) by (unfold n; rewrite (sn_len _ _ _ _ _ _ H2); zcase; lia).
    assert (U = A) as -> by lia. rewrite (sn_una _ _ _ _ _ _ H2).
    pose proof (send_range_ok N A X M2 A n t2 g2 H2) as Hr. destruct (send_range _ _ _ _ _) as [[err t3] g3].
    destruct Hr as [(M3 & HM3 & H3) [Hl3 Ef3]]; [lia..|]. eapply sends_trans; [exact Hs2|]. apply sends_plain; [|done|done]. exists A, A, X, M3.
    rewrite (sn_una _ _ _ _ _ _ H3), pos_add. apply send_ok_high; [done|lia].
  - destruct (in_recovery t0) eqn:Er; [|apply (sends_same N t); try done; by exists A, U, X, M]. set (t1 := t0 <| cwnd := _ |>).
    assert (H1 : send_ok N A U X M t1) by (by apply (send_ok_same N A U X M t0)).
    pose proof (maybe_hole_ok N A U X M (sack_ok t1) t1 g H1 Er) as Hh.
    destruct (if sack_ok t1 then _ else _) as [[hole t2] g2]. destruct Hh as [(M2 & HM2 & H2) [Hl2 Ef2]].
    assert (Hs2 : sends N (t, g) (t2, g2)) by (apply sends_plain; [by exists A, U, X, M2|done|done]).
    destruct hole; [done|]. eapply sends_trans; [exact Hs2|]. apply send_data_ok. by exists A, U, X, M2.
Qed.

(** *** New acknowledgements *)

Lemma rtt_update_snd ms t : snd_part (rtt_update ms t) = snd_part t.
Proof. unfold rtt_update. by destruct (negb _). Qed.
Lemma measure_snd ack o t g : snd_part (measure ack o t g) = snd_part t.
Proof.
  unfold measure. destruct (_ && _); [destruct (_ && _); [apply rtt_update_snd|done]|]. destruct (_ && _); [|done].
  match goal with |- snd_part (?x <| rtt_timing := _ |>) = _ => transitivity (snd_part x); [done|] end. apply rtt_update_snd.
Qed.
Lemma send_ok_recovered N A U X M c t : send_ok N A U X M t -> send_ok N A U X M (t <| in_recovery := false |> <| cwnd := c |>).
Proof. intros [S1 S2 S3 S4 S5 S6 S7 S8 S9 S10 S11 S12 S13 S14]. by constructor. Qed.

(** The acknowledged bytes leave the ring. *)
Lemma send_ok_acked N A U X M a t : send_ok N A U X M t -> U < a <= N + Z.b2z (fin_sent t) ->
  let n := if sndlen t <? u32 (pos a - snd_una t) then sndlen t else u32 (pos a - snd_una t) in
  let t1 := if 0 <? n then t <| sndstart := u32 (sndstart t + n) mod TCP_SNDBUF |> <| sndlen := sndlen t - n |> else t in
  send_ok N (A + n) a X M (sack_trim (t1 <| snd_una := pos a |> <| rexmits := 0 |>)).
Proof using ip_output.
  intros Hi Ha. pose proof (sn_N _ _ _ _ _ _ Hi) as HN. pose proof (sn_U _ _ _ _ _ _ Hi) as HU. pose proof (sn_room _ _ _ _ _ _ Hi) as Hr.
  assert (Hb : 0 <= Z.b2z (fin_sent t) <= 1) by (destruct (fin_sent t); cbn; lia). assert (U = A) as -> by lia. clear HU.
  rewrite (sn_una _ _ _ _ _ _ Hi), pos_sub, (sn_len _ _ _ _ _ _ Hi) by lia. intros n.
  assert (Hn : 0 <= n <= N - A /\ (a <= N -> A + n = a) /\ (a = N + 1 -> A + n = N)) by (unfold n; zcase; lia).
  pose proof (sn_start _ _ _ _ _ _ Hi) as Hst. unfold TCP_SNDBUF in *.
  set (t1 := if 0 <? n then _ else t).
  assert (E1 : sndlen t1 = N - (A + n) /\ sndstart t1 = (sndstart t + n) mod 65536 /\
    snd_nxt t1 = snd_nxt t /\ snd_max t1 = snd_max t /\ sndring t1 = sndring t /\ sacked t1 = sacked t /\
    in_recovery t1 = in_recovery t /\ high_rxt t1 = high_rxt t /\ fin_sent t1 = fin_sent t /\ rcv_nxt t1 = rcv_nxt t /\ ooo t1 = ooo t).
  { unfold t1. pose proof (sn_len _ _ _ _ _ _ Hi) as El. destruct (Z.ltb_spec 0 n).
    - cbn [sndlen sndstart snd_nxt snd_max sndring sacked in_recovery high_rxt fin_sent rcv_nxt ooo store]. rewrite u32_small by lia.
      split; [lia|done].
    - assert (n = 0) as -> by lia. rewrite !Z.add_0_r, Z.mod_small by lia. split; [lia|done]. }
  clearbody t1. destruct E1 as (E1 & E2 & E3 & E4 & E5 & E6 & E7 & E8 & E9 & E10 & E11).
  destruct Hi as [S1 S2 S3 S4 S5 S6 S7 S8 S9 S10 S11 S12 S13 S14].
  unfold sack_trim. constructor; cbn [sndlen sndstart snd_nxt snd_una snd_max sndring sacked in_recovery high_rxt fin_sent store];
    rewrite ?E1, ?E2, ?E3, ?E4, ?E5, ?E6, ?E7, ?E8, ?E9; try done.
  - lia.
  - lia.
  - destruct (decide (a <= N)); [left; lia|right]. destruct (fin_sent t); cbn in Ha; [|lia]. split; [lia|]. split; [lia|done].
  - apply Z.mod_pos_bound. done.
  - intros j Hj. rewrite Zplus_mod_idemp_l. replace (sndstart t + n + j) with (sndstart t + (n + j)) by lia.
    unfold TCP_SNDBUF in S11. rewrite S11 by lia. f_equal. lia.
  - apply (trim_loop_ok N); [lia|lia|lia|lia| |lia]. eapply Forall_impl; [exact S12|].
    intros [st en] (x & y & -> & -> & Hx & Hy). exists x, y. split; [done|]. split; [done|]. lia.
  - by apply (speaks_same t).
Qed.

(** An acknowledgement of the stream: of bytes that were written, or of the
    FIN that was sent. *)
Definition ack_ok (N : Z) (t : tcpcb) (ack : Z) : Prop := exists a, ack = pos a /\ 0 <= a <= N + Z.b2z (fin_sent t).
Lemma new_ack_ok N ack o t g : sender N t -> ack_ok N t ack -> seq_gt ack (snd_una t) = true ->
  sends N (t, g) (new_ack ip_output ack o t g).
Proof.
  intros (A & U & X & M & Hi) (a & -> & Ha) Hgt. unfold new_ack.
  pose proof (sn_N _ _ _ _ _ _ Hi) as HN. pose proof (sn_U _ _ _ _ _ _ Hi) as HU.
  assert (Hb : 0 <= Z.b2z (fin_sent t) <= 1) by (destruct (fin_sent t); cbn; lia).
  rewrite (sn_una _ _ _ _ _ _ Hi), pos_gt in Hgt by lia. apply Z.ltb_lt in Hgt.
  set (t0 := measure (pos a) o (t <| dupacks := 0 |>) g). assert (E0 : snd_part t0 = snd_part t) by exact (measure_snd (pos a) o (t <| dupacks := 0 |>) g). clearbody t0.
  pose proof (send_ok_same _ _ _ _ _ _ _ E0 Hi) as H0. assert (Ef : fin_sent t0 = fin_sent t) by exact (f_equal snd E0).
  set (acked := u32 (pos a - snd_una t0)).
  set (t1 := if in_recovery t0 then _ else _).
  assert (H1 : send_ok N A U X M t1 /\ snd_una t1 = snd_una t0 /\ fin_sent t1 = fin_sent t0).
  { unfold t1. destruct (in_recovery t0); [|by split; [apply (send_ok_same N A U X M t0)|]].
    destruct (seq_ge _ _); [|done]. split; [by apply send_ok_recovered|done]. }
  destruct H1 as (H1 & Eu & Ef1). clearbody t1. unfold acked. rewrite <- Eu. clear acked.
  pose proof (send_ok_acked N A U X M a t1 H1) as H2. cbv zeta in H2. specialize (H2 ltac:(rewrite Ef1, Ef; lia)).
  set (n := if sndlen t1 <? _ then _ else _) in *. set (t3 := sack_trim _) in *.
  assert (Ef3 : fin_sent t3 = fin_sent t1) by (unfold t3, sack_trim; cbn [fin_sent store]; by destruct (0 <? n)). clearbody t3.
  assert (H4 : forall t4 g4 M4, send_ok N (A + n) a X M4 t4 -> (forall F, logs (carries N F) g g4) -> fin_sent t4 = fin_sent t3 ->
    sends N (t, g) (t4 <| rexmit_at := if snd_una t4 =? snd_nxt t4 then 0 else in_ms (rto_ms t4) g4 |>, g4)).
  { intros t4 g4 M4 Hs Hl Ef4. apply sends_plain; [|cbn [fin_sent store]; congruence|done]. exists (A + n), a, X, M4.
    by apply (send_ok_same _ _ _ _ _ t4). }
  destruct (in_recovery t3 && sack_ok t3) eqn:Er.
  - apply andb_true_iff in Er as [Er _]. pose proof (sack_rexmit_hole_ok N (A + n) a X M t3 g H2 Er) as Hh.
    destruct (sack_rexmit_hole _ _ _) as [[hole t4] g4]. destruct Hh as [(M4 & _ & H5) [Hl Ef4]]. by apply (H4 t4 g4 M4).
  - apply (H4 t3 g M); [done|intros F; by apply logs_same|done].
Qed.
Lemma ack_sent_data_ok N ack n w o t g : sender N t -> ack_ok N t ack -> Forall (in_stream N) (p_sack o) ->
  sends N (t, g) (ack_sent_data ip_output ack n w o t g).
Proof.
  intros Hs Ha Ho. unfold ack_sent_data. set (t1 := if sack_ok t then _ else t).
  assert (H1 : sender N t1 /\ snd_una t1 = snd_una t /\ fin_sent t1 = fin_sent t).
  { unfold t1. destruct (sack_ok t); [|done]. destruct Hs as (A & U & X & M & Hi). split; [exists A, U, X, M; by apply sack_adds_ok|].
    clear. revert t. induction (p_sack o) as [|[st en] bl IH]; intros t; [done|]. cbn [foldl]. destruct (IH (sack_add st en t)) as [E1 E2].
    rewrite E1, E2. unfold sack_add. destruct (_ || _); [done|]. destruct (find_idx _ _); [done|]. by destruct (_ <? _)%nat. }
  destruct H1 as (H1 & E1 & E2). clearbody t1. apply (sends_trans N _ (t1, g)); [apply sends_plain; [done|done|intros F; by apply logs_same]|].
  destruct (seq_gt ack (snd_una t1)) eqn:Eg; cbn [negb].
  - apply new_ack_ok; [done| |done]. destruct Ha as (a & -> & Ha). exists a. by rewrite E2.
  - destruct (_ && _); [by apply dup_ack_ok|by apply sends_refl].
Qed.

(** *** Receiving sends only acknowledgements *)

Lemma rcv_put_snd bs t : snd_core (rcv_put bs t) = snd_core t.
Proof. revert t. induction bs as [|b bs IH]; intros t; [done|]. cbn [rcv_put]. destruct (_ <? _); [exact (IH _)|done]. Qed.
Lemma ooo_release_snd i t g : snd_core (ooo_release i t g).1 = snd_core t /\ sent (ooo_release i t g).2 = sent g.
Proof. unfold ooo_release. destruct (ooo t !! i) as [o|]; [|done]. by destruct (o_used o). Qed.
Lemma drain_one_snd i t g b : snd_core (drain_one i (t, g, b)).1.1 = snd_core t /\ sent (drain_one i (t, g, b)).1.2 = sent g.
Proof.
  unfold drain_one. destruct (ooo t !! i) as [h|]; [|done]. destruct (_ && _); [|done].
  set (t1 := if _ <? o_len h then _ else t).
  assert (H1 : snd_core t1 = snd_core t).
  { unfold t1. destruct (_ <? _); [|done]. match goal with |- snd_core (?x <| rcv_nxt := _ |>) = _ => exact (rcv_put_snd _ t) end. }
  pose proof (ooo_release_snd i t1 g) as H2. destruct (ooo_release i t1 g) as [t2 g2]. cbn [fst snd] in *. by rewrite <- H1.
Qed.
Lemma drain_snd fuel t g : snd_core (drain fuel t g).1 = snd_core t /\ sent (drain fuel t g).2 = sent g.
Proof.
  revert t g. induction fuel as [|fuel IH]; intros t g; [done|]. cbn [drain].
  assert (H : snd_core (for_upto TCP_OOO_PER_CB drain_one (t, g, false)).1.1 = snd_core t /\
              sent (for_upto TCP_OOO_PER_CB drain_one (t, g, false)).1.2 = sent g).
  { apply (for_upto_ind (fun _ s => snd_core s.1.1 = snd_core t /\ sent s.1.2 = sent g)); [done|].
    intros k [[t1 g1] b1] _ [H1 H2]. destruct (drain_one_snd k t1 g1 b1) as [H3 H4]. cbn [fst snd] in *. by rewrite H3, H4. }
  destruct (for_upto _ _ _) as [[t1 g1] b1]. cbn [fst snd] in H. destruct b1; [|done]. destruct (IH t1 g1) as [E1 E2]. by rewrite E1, E2.
Qed.
Lemma ooo_queue_snd seq data t g : snd_core (ooo_queue seq data t g).1 = snd_core t /\ sent (ooo_queue seq data t g).2 = sent g.
Proof. destruct (ooo_queue_cases seq data t g) as [->|(i & slot & x & _ & _ & _ & _ & ->)]; done. Qed.

(** Receiving leaves the sender alone; it may send an acknowledgement, of
    what was received when it did. *)
Definition answers (t : tcpcb) (g : shared) (p : tcpcb * shared) : Prop :=
  snd_core p.1 = snd_core t /\ (speaks p.1 -> forall N F, logs (carries N F) g p.2).
Lemma answers_send t g t' g' seq : snd_core t' = snd_core t -> sent g' = sent g -> answers t g (t', (send_seg ip_output t' seq TCP_ACK [] g').2).
Proof.
  intros E1 E2. split; [done|]. cbn [fst snd]. intros Hv N F. eapply logs_trans; [by apply logs_same|]. by apply empty_logs.
Qed.
Lemma answers_same t g t' g' : snd_core t' = snd_core t -> sent g' = sent g -> answers t g (t', g').
Proof. intros E1 E2. split; [done|]. intros _ N F. by apply logs_same. Qed.
Lemma speaks_rcv t t' : rcv_nxt t' = rcv_nxt t -> ooo t' = ooo t -> speaks t' -> speaks t.
Proof. intros E1 E2. by apply speaks_same. Qed.
Lemma take_data_answers seq data t g : answers t g (take_data ip_output seq data t g).
Proof.
  unfold take_data. destruct (_ =? _).
  - cbv zeta. set (n := if _ <? _ then _ else _). set (t1 := rcv_put (firstn (Z.to_nat n) data) t <| rcv_nxt := _ |>).
    assert (E1 : snd_core t1 = snd_core t) by exact (rcv_put_snd (firstn (Z.to_nat n) data) t).
    destruct (drain_snd (S TCP_OOO_PER_CB) t1 g) as [E2 E3]. destruct (drain _ t1 g) as [t2 g2]. cbn [fst snd] in *. rewrite E1 in E2. clearbody t1.
    set (t3 := t2 <| unacked_segs := _ |>). destruct (2 <=? _).
    + split; [exact E2|]. cbn [fst snd]. intros Hv N F. eapply logs_trans; [apply logs_same; exact E3|].
      change (logs (carries N F) g2 (send_seg ip_output t3 (snd_nxt t3) TCP_ACK [] g2).2). by apply empty_logs.
    + destruct (_ =? 0); by apply answers_same.
  - destruct (seq_gt _ _); [|by apply answers_send].
    destruct (ooo_queue_snd seq data t g) as [E1 E2]. destruct (ooo_queue seq data t g) as [t1 g1]. cbn [fst snd] in *.
    split; [done|]. cbn [fst snd]. intros Hv N F. eapply logs_trans; [by apply logs_same|]. by apply (empty_logs N F t1).
Qed.
Lemma data_input_answers h data t g : answers t g (data_input ip_output h data t g).
Proof.
  unfold data_input. destruct (0 <? _); [apply take_data_answers|]. destruct (_ && _); [by apply answers_send|by apply answers_same].
Qed.
Lemma fin_input_answers h t g : answers t g (fin_input ip_output h t g).
Proof.
  unfold fin_input. destruct (_ && _); [|by apply answers_same]. unfold take_fin.
  set (p := if negb (fin_rcvd t) then _ else (t, g)).
  assert (H1 : answers t g p) by (unfold p; destruct (negb _); [by apply answers_send|by apply answers_same]).
  destruct p as [t1 g1]. destruct H1 as [E1 L1]. cbn [fst snd] in *.
  assert (Hg : forall t2 g2, snd_core t2 = snd_core t1 -> rcv_nxt t2 = rcv_nxt t1 -> ooo t2 = ooo t1 ->
    (speaks t1 -> forall N F, logs (carries N F) g1 g2) -> answers t g (t2, g2)).
  { intros t2 g2 Ec En Eo Hl. split; [cbn [fst]; congruence|]. cbn [fst snd]. intros Hv N F.
    assert (Hv1 : speaks t1) by (by apply (speaks_rcv t1 t2)). eapply logs_trans; [by apply L1|by apply Hl]. }
  destruct (state t1); (apply Hg; [done|done|done|]); intros Hv N F; first [by apply logs_same|by apply empty_logs].
Qed.
Lemma answers_sends N t g p : answers t g p -> speaks p.1 -> sender N t -> sends N (t, g) p.
Proof.
  intros [E L] Hv Hs. destruct p as [t' g']. cbn [fst snd] in *. apply sends_plain; [by apply (sender_core N t)|exact (f_equal snd E)|].
  intros F. by apply L.
Qed.
Lemma fin_acked_snd t g : snd_part (fin_acked t g) = snd_part t.
Proof. unfold fin_acked. destruct (_ && _); [|done]. destruct (state t); try done. by destruct (fin_rcvd t). Qed.

(** What is asked of a segment: its acknowledgement and the ranges it
    reports are of the stream. *)
Record peer_ok (N : Z) (t : tcpcb) (h : tcphdr) (o : tcpopts) : Prop := {
  po_ack : ack_ok N t (h_ack h);
  po_sack : Forall (in_stream N) (p_sack o) }.
(** After its data and its FIN the connection says what it may say. *)
Definition said (h : tcphdr) (data : list Z) (t : tcpcb) (g : shared) : Prop := forall t' g', quiet (t, g) (t', g') ->
  let p := data_input ip_output h data t' g' in speaks p.1 /\ speaks (fin_input ip_output h p.1 p.2).1.
Definition synced (t : tcpcb) : Prop := match state t with LISTEN | SYN_SENT | SYN_RECEIVED => False | _ => True end.

Lemma ack_input_sends N h o data t g : sender N t -> synced t -> peer_ok N t h o -> said h data t g ->
  sends N (t, g) (ack_input ip_output h o data t g).
Proof.
  intros Hs Hy [Ha Ho] Hsd. unfold ack_input. set (wnd := u32 _). set (t0 := t <| last_rcv := _ |> <| keep_probes := _ |>).
  set (t1 := t0 <| snd_wnd := _ |> <| max_snd_wnd := _ |>).
  assert (Ey : is_state t1 SYN_RECEIVED = false).
  { unfold is_state. change (state t1) with (state t). unfold synced in Hy. case_bool_decide as E; [by rewrite E in Hy|done]. }
  rewrite Ey. cbn [andb]. assert (H1 : sends N (t, g) (t1, g)) by (by apply (sends_same N t)).
  pose proof (ack_sent_data_ok N (h_ack h) (Z.of_nat (length data)) wnd o t1 g (se_sender _ _ _ H1) Ha Ho) as H3.
  pose proof (ack_sent_data_quiet ip_output (h_ack h) (Z.of_nat (length data)) wnd o t1 g) as Hq.
  destruct (ack_sent_data _ _ _ _ _ _ _) as [t3 g3]. pose proof (sends_trans _ _ _ _ H1 H3) as H3'.
  destruct (Hsd t3 g3) as [V4 V5]; [transitivity (t1, g); [by split|exact Hq]|].
  pose proof (answers_sends N t3 g3 _ (data_input_answers h data t3 g3) V4 (se_sender _ _ _ H3)) as H4.
  destruct (data_input _ _ _ _ _) as [t4 g4]. cbn [fst snd] in V4, V5.
  pose proof (answers_sends N t4 g4 _ (fin_input_answers h t4 g4) V5 (se_sender _ _ _ H4)) as H5.
  destruct (fin_input _ _ _ _) as [t5 g5].
  pose proof (sends_trans _ _ _ _ (sends_trans _ _ _ _ H3' H4) H5) as H5'. apply (sends_trans N _ (fin_acked t5 g5, g5)).
  { eapply sends_trans; [exact H5'|]. apply (sends_same N t5); [apply fin_acked_snd|done|apply H5]. }
  apply send_data_ok. apply (sender_same N t5); [apply fin_acked_snd|apply H5].
Qed.
Lemma conn_input_sends N src dst h o data t g : sender N t -> synced t ->
  (has (h_flags h) TCP_RST = false -> has (h_flags h) TCP_ACK = true -> peer_ok N t h o /\ said h data t g) ->
  sends N (t, g) (conn_input ip_output src dst h o data t g).
Proof.
  intros Hs Hy Hp. unfold conn_input. destruct (has (h_flags h) TCP_RST).
  { destruct (is_state _ _); [by apply sends_refl|by apply (sends_same N t)]. }
  assert (Ey : is_state t SYN_SENT = false) by (unfold is_state, synced in *; case_bool_decide as E; [by rewrite E in Hy|done]).
  rewrite Ey. destruct (has (h_flags h) TCP_ACK); cbn [negb]; [|by apply sends_refl]. destruct (_ && _ && _ && _); [by apply (sends_empty N t)|].
  set (t1 := if ts_ok t && p_ts o && seq_le (h_seq h) (rcv_nxt t) then t <| ts_recent := p_tsval o |> else t).
  assert (E1 : snd_part t1 = snd_part t /\ state t1 = state t /\ quiet (t, g) (t1, g)) by (unfold t1; by destruct (_ && _)).
  clearbody t1. destruct E1 as (E1 & E2 & E3). destruct (Hp eq_refl eq_refl) as [[(a & Ea & Ha) Ho] Hsd].
  apply (sends_trans N _ (t1, g)); [by apply (sends_same N t)|].
  apply ack_input_sends; [by apply (sender_same N t)|unfold synced; by rewrite E2| |].
  - split; [|done]. exists a. by rewrite (f_equal snd E1 : fin_sent t1 = fin_sent t).
  - intros t' g' Hq. apply Hsd. by etransitivity.
Qed.

(** *** Timers, closing and writing *)

Lemma rexmit_timer_sends N t g : sender N t -> synced t -> sends N (t, g) (rexmit_timer ip_output t g).
Proof.
  intros Hs Hy. unfold rexmit_timer. destruct (_ || _); [by apply sends_refl|]. set (t1 := t <| rexmits := _ |>).
  destruct (_ <? _); [by apply (sends_same N t)|].
  set (t2 := cwnd_on_loss true t1 <| rtt_timing := false |>). set (t3 := t2 <| rto_ms := _ |>). set (t4 := t3 <| rexmit_at := _ |>).
  set (t5 := t4 <| snd_nxt := snd_una t4 |>).
  assert (H4 : sender N t5).
  { destruct Hs as (A & U & X & M & Hi). pose proof (sn_N _ _ _ _ _ _ Hi). pose proof (sn_U _ _ _ _ _ _ Hi) as HU.
    destruct Hi as [S1 S2 S3 S4 S5 S6 S7 S8 S9 S10 S11 S12 S13 S14]. exists A, U, U, M. constructor; try done. lia. }
  assert (H5 : sends N (t, g) (send_data ip_output t5 g)).
  { apply (sends_trans N _ (t5, g)); [|by apply send_data_ok]. apply sends_plain; [done|done|]. intros F. by apply logs_same. }
  change (state t4) with (state t). unfold synced in Hy. by destruct (state t).
Qed.
Lemma keep_timer_sends N t g : sender N t ->
  let '(_, t1, g1) := keep_timer ip_output t g in sends N (t, g) (t1, g1) /\ state t1 = state t.
Proof.
  intros Hs. unfold keep_timer. destruct (_ && _); [|split; [by apply (sends_same N t)|done]]. set (t1 := if _ && _ then _ else t).
  assert (E1 : snd_part t1 = snd_part t /\ state t1 = state t) by (unfold t1; by destruct (_ && _)). clearbody t1. destruct E1 as [E1 E2].
  assert (H1 : sender N t1) by (by apply (sender_same N t)).
  destruct (reached _ _); [|split; [by apply (sends_same N t)|done]]. destruct (_ <=? _); [split; [by apply (sends_same N t)|done]|].
  pose proof (fun F => empty_logs N F t1 (u32 (snd_una t1 - 1)) g (sender_speaks N t1 H1)) as L.
  destruct (send_seg _ _ _ _ _ _) as [e g1]. cbn [snd] in L. split; [|done].
  apply sends_plain; [by apply (sender_same N t1)|exact (f_equal snd E1)|done].
Qed.
Lemma timer_one_sends N t g : sender N t -> synced t -> used (timer_one ip_output t g).1 = true -> sends N (t, g) (timer_one ip_output t g).
Proof.
  intros Hs Hy. unfold timer_one. destruct (negb _); [intros _; by apply sends_refl|].
  destruct (orphan t && _). { unfold tcp_free. by destruct (ooo_flush t g) as [t1 g1]. }
  intros _. destruct (is_state t TIME_WAIT). { destruct (reached _ _); [by apply (sends_same N t)|by apply sends_refl]. }
  pose proof (keep_timer_sends N t g Hs) as Hk. destruct (keep_timer _ t g) as [[dead t1] g1]. destruct Hk as [H1 E2].
  destruct dead; [eapply sends_trans; [exact H1|]; apply (sends_same N t1); try done; apply H1|]. set (p := if _ && _ then _ else (t1, g1)).
  assert (H2 : sends N (t1, g1) p /\ state p.1 = state t1).
  { unfold p. destruct (_ && _); [|split; [apply sends_refl, H1|done]]. split; [|done].
    apply sends_plain; [apply (sender_same N t1); [done|apply H1]|done|]. intros F. apply empty_logs, (sender_speaks N), H1. }
  destruct p as [t2 g2]. destruct H2 as [H2 E3]. cbn [fst] in E3. eapply sends_trans; [exact H1|]. eapply sends_trans; [exact H2|].
  apply rexmit_timer_sends; [apply H2|]. unfold synced. by rewrite E3, E2.
Qed.
(** Closing. In SYN_RECEIVED the SYN is not acknowledged yet, which is left out here. *)
Lemma tcp_close_sends N t g : sender N t -> synced t -> used (tcp_close ip_output t g).1 = true -> sends N (t, g) (tcp_close ip_output t g).
Proof.
  intros Hs Hy. unfold tcp_close, synced in *.
  assert (Hd : forall x, sends N (t, g) (send_data ip_output (t <| state := x |> <| fin_pending := true |>) g)).
  { intros x. set (t1 := t <| state := x |> <| fin_pending := true |>). apply (sends_trans N _ (t1, g)); [by apply (sends_same N t)|].
    apply send_data_ok. by apply (sender_same N t). }
  destruct (state t) eqn:Es; try done; try (intros _; first [apply Hd|by apply sends_refl]).
  unfold tcp_free. by destruct (ooo_flush _ g) as [t1 g1].
Qed.
Lemma recv_loop_snd len t : snd_part (recv_loop len t).2 = snd_part t.
Proof.
  revert t. induction len as [|len IH]; intros t; [done|]. cbn [recv_loop]. destruct (_ <? _); [|done].
  pose proof (IH (t <| rcvtail := (rcvtail t + 1) mod TCP_RCVBUF |>)) as H. by destruct (recv_loop len _) as [out t'].
Qed.
Lemma tcp_recv_sends N len t g : sender N t -> let '(_, _, t', g') := tcp_recv ip_output len t g in sends N (t, g) (t', g').
Proof.
  intros Hs. unfold tcp_recv. pose proof (recv_loop_snd len t) as E. destruct (recv_loop len t) as [[|b out] t']; cbn [snd] in E.
  - by apply (sends_same N t).
  - by apply sends_empty.
Qed.

(** Bytes enter the send ring behind those that wait. *)
Lemma ring_write_in at_ bs m j : 0 <= j < Z.of_nat (length bs) -> ring_write at_ bs m (at_ + j) = default 0 (bs !! Z.to_nat j).
Proof.
  intros Hj. unfold ring_write. rewrite (proj2 (Z.leb_le at_ (at_ + j))), (proj2 (Z.ltb_lt _ _)) by lia. cbn [andb].
  by replace (at_ + j - at_) with j by lia.
Qed.
Lemma ring_write_out at_ bs m x : x < at_ \/ at_ + Z.of_nat (length bs) <= x -> ring_write at_ bs m x = m x.
Proof. intros Hx. unfold ring_write. destruct (Z.leb_spec at_ x), (Z.ltb_spec x (at_ + Z.of_nat (length bs))); done || lia. Qed.

Lemma ring_append N A X M n data t : send_ok N A A X M t -> 0 <= n -> n <= TCP_SNDBUF - (N - A) -> N + n < 1073741824 ->
  firstn (Z.to_nat n) data = span W N (Z.to_nat n) ->
  let at_ := u32 (sndstart t + sndlen t) mod TCP_SNDBUF in
  let first := if n <? TCP_SNDBUF - at_ then n else TCP_SNDBUF - at_ in
  let m := ring_write at_ (firstn (Z.to_nat first) data) (sndring t) in
  let m := ring_write 0 (sub data (Z.to_nat first) (Z.to_nat (n - first))) m in
  send_ok (N + n) A A X M (t <| sndring := m |> <| sndlen := sndlen t + n |>).
Proof using ip_output.
  intros Hi Hn Hroom Hbig Hd at_ first m m2. pose proof (sn_N _ _ _ _ _ _ Hi) as HN. pose proof (sn_start _ _ _ _ _ _ Hi) as Hst.
  pose proof (sn_len _ _ _ _ _ _ Hi) as El. pose proof (sn_ring _ _ _ _ _ _ Hi) as Hring. pose proof (sn_room _ _ _ _ _ _ Hi) as Hr.
  unfold TCP_SNDBUF in *. assert (Ea : at_ = (sndstart t + (N - A)) mod 65536) by (unfold at_; rewrite El, u32_small by lia; done).
  assert (Ha : 0 <= at_ < 65536) by (rewrite Ea; apply Z.mod_pos_bound; done).
  assert (Hf : 0 <= first <= n /\ first <= 65536 - at_ /\ (first < n -> first = 65536 - at_)) by (unfold first; zcase; lia).
  assert (Hlen : (Z.to_nat n <= length data)%nat).
  { apply (f_equal length) in Hd. rewrite length_span, length_take in Hd. lia. }
  assert (Hbyte : forall k, 0 <= k < n -> data !! Z.to_nat k = Some (W (N + k))).
  { intros k Hk. rewrite <- (lookup_take_lt data (Z.to_nat n)) by lia. change (take (Z.to_nat n) data) with (firstn (Z.to_nat n) data).
    rewrite Hd, span_lookup by lia. do 2 f_equal. lia. }
  assert (L1 : length (firstn (Z.to_nat first) data) = Z.to_nat first) by (rewrite length_take; lia).
  assert (L2 : length (sub data (Z.to_nat first) (Z.to_nat (n - first))) = Z.to_nat (n - first)).
  { unfold sub. rewrite length_take, length_drop. lia. }
  destruct Hi as [S1 S2 S3 S4 S5 S6 S7 S8 S9 S10 S11 S12 S13 S14]. constructor; try done; try lia; cbn [sndlen sndring sndstart store in_recovery high_rxt].
  - lia.
  - unfold TCP_SNDBUF. lia.
  - intros j Hj. unfold TCP_SNDBUF. set (p := (sndstart t + j) mod 65536).
    assert (Hp : 0 <= p < 65536) by (apply Z.mod_pos_bound; done). destruct (Z.lt_ge_cases j (N - A)) as [Hold|Hnew].
    + (* a byte that was there *)
      unfold m2, m. rewrite !ring_write_out; [apply (Hring j); lia| |]; rewrite ?L1, ?L2; unfold p in *; Z.div_mod_to_equations; lia.
    + set (k := j - (N - A)). assert (Hk : 0 <= k < n) by (unfold k; lia). destruct (Z.lt_ge_cases k first) as [Hk1|Hk1].
      * assert (Ep : p = at_ + k) by (unfold p, k in *; Z.div_mod_to_equations; lia).
        unfold m2. rewrite ring_write_out by (rewrite L2, Ep; Z.div_mod_to_equations; lia).
        unfold m. rewrite Ep, ring_write_in by (rewrite L1; lia). rewrite lookup_take_lt by lia. rewrite Hbyte by lia. cbn. f_equal. unfold k. lia.
      * assert (Ep : p = 0 + (k - first)) by (unfold p, k in *; Z.div_mod_to_equations; lia).
        unfold m2. rewrite Ep, ring_write_in by (rewrite L2; lia). unfold sub. rewrite lookup_take_lt by lia. rewrite lookup_drop.
        replace (Z.to_nat first + Z.to_nat (k - first))%nat with (Z.to_nat k) by lia. rewrite Hbyte by lia. cbn. f_equal. unfold k. lia.
  - intros Hrec. destruct (S13 Hrec) as (h & E & Hh). exists h. split; [done|lia].
Qed.
(** More was written: what went out before still carries the stream. *)
Lemma tcp_send_ok N data t g : sender N t ->
  let '(r, t', g') := tcp_send ip_output data t g in
  (0 < r -> fin_sent t = false) /\
  (N + Z.max 0 r < 1073741824 -> firstn (Z.to_nat r) data = span W N (Z.to_nat r) -> sends (N + Z.max 0 r) (t, g) (t', g')).
Proof.
  intros Hs.
  assert (Herr : forall e, e <= 0 -> (0 < e -> fin_sent t = false) /\
    (N + Z.max 0 e < 1073741824 -> firstn (Z.to_nat e) data = span W N (Z.to_nat e) -> sends (N + Z.max 0 e) (t, g) (t, g))).
  { intros e He. split; [lia|]. intros _ _. rewrite Z.max_l, Z.add_0_r by lia. by apply sends_refl. }
  unfold tcp_send. destruct (_ || _); [apply Herr; unfold reset_error; by destruct (timed_out t)|].
  destruct (_ && _); [by apply Herr|]. destruct (fin_sent t) eqn:Ef; cbn [orb]; [by apply Herr|]. destruct (fin_pending t); [by apply Herr|].
  destruct Hs as (A & U & X & M & Hi). pose proof (sn_N _ _ _ _ _ _ Hi) as HN. pose proof (sn_len _ _ _ _ _ _ Hi) as El.
  pose proof (sn_room _ _ _ _ _ _ Hi) as Hr. pose proof (sn_U _ _ _ _ _ _ Hi) as [->|(_ & _ & ?)]; [|congruence].
  destruct (_ =? 0); [by apply Herr|].
  set (n := if TCP_SNDBUF - sndlen t <? Z.of_nat (length data) then TCP_SNDBUF - sndlen t else Z.of_nat (length data)).
  assert (Hn : 0 <= n <= TCP_SNDBUF - (N - A)) by (unfold n; rewrite El; zcase; lia).
  assert (Es : s32 n = n) by (unfold s32; rewrite u32_small by (unfold TCP_SNDBUF in *; lia); unfold TCP_SNDBUF in *; zcase; lia).
  pose proof (fun H1 H2 => ring_append N A X M n data t Hi (proj1 Hn) (proj2 Hn) H1 H2) as Hap. cbv zeta in Hap.
  set (t1 := t <| sndring := _ |> <| sndlen := _ |>) in *.
  destruct (send_data ip_output t1 g) as [t2 g2] eqn:Esd. split; [done|]. rewrite Es, Z.max_r by lia. intros Hbig Hd.
  assert (H1 : sender (N + n) t1) by (exists A, A, X, M; by apply Hap).
  rewrite <- Esd. apply (sends_trans _ _ (t1, g)); [|by apply send_data_ok]. apply sends_plain; [done|done|]. intros F. by apply logs_same.
Qed.

(** *** The handshake is not gone back to *)

Lemma synced_state t t' : state t' = state t -> synced t -> synced t'.
Proof. unfold synced. by intros ->. Qed.
Lemma quiet_synced p p' : quiet p p' -> synced p.1 -> synced p'.1.
Proof. intros [E _]. apply synced_state. by injection E. Qed.
Lemma conn_input_synced src dst h o data t g : synced t -> synced (conn_input ip_output src dst h o data t g).1.
Proof.
  intros Hy. unfold conn_input. destruct (has (h_flags h) TCP_RST); [by destruct (is_state _ _)|].
  assert (Ey : is_state t SYN_SENT = false) by (unfold is_state, synced in *; case_bool_decide as E; [by rewrite E in Hy|done]).
  rewrite Ey. destruct (negb _); [done|]. destruct (_ && _ && _ && _); [done|].
  set (t0 := if _ && _ then _ else t). assert (H0 : synced t0) by (apply (synced_state t); [unfold t0; by destruct (_ && _)|done]).
  clearbody t0. clear t Hy Ey. unfold ack_input. set (wnd := u32 _). set (t1 := t0 <| last_rcv := _ |> <| keep_probes := _ |> <| snd_wnd := _ |> <| max_snd_wnd := _ |>).
  assert (Ey : is_state t1 SYN_RECEIVED = false).
  { unfold is_state. change (state t1) with (state t0). unfold synced in H0. case_bool_decide as E; [by rewrite E in H0|done]. }
  rewrite Ey. cbn [andb]. assert (H1 : synced t1) by done.
  pose proof (quiet_synced _ _ (ack_sent_data_quiet ip_output (h_ack h) (Z.of_nat (length data)) wnd o t1 g) H1) as H3.
  destruct (ack_sent_data _ _ _ _ _ _ _) as [t3 g3]. cbn [fst] in H3.
  assert (H4 : synced (data_input ip_output h data t3 g3).1).
  { unfold data_input. destruct (0 <? _); [|by destruct (_ && _)]. apply (synced_state t3); [apply take_data_same|done]. }
  destruct (data_input _ _ _ _ _) as [t4 g4]. cbn [fst] in H4.
  assert (H5 : synced (fin_input ip_output h t4 g4).1).
  { unfold fin_input. destruct (_ && _); [|done]. unfold take_fin. set (r := if negb (fin_rcvd t4) then _ else (t4, g4)).
    assert (Er : state r.1 = state t4) by (unfold r; by destruct (negb _)). destruct r as [t5 g5]. cbn [fst] in Er.
    unfold synced in *. rewrite <- Er in H4. destruct (state t5) eqn:Es; cbn [fst state store]; try done; by rewrite Es. }
  destruct (fin_input _ _ _ _) as [t5 g5]. cbn [fst] in H5. eapply (quiet_synced (fin_acked t5 g5, g5)); [apply send_data_quiet|]. cbn [fst].
  unfold fin_acked. destruct (_ && _); [|done]. unfold synced in *. destruct (state t5) eqn:Es; try done; rewrite ?Es; try done.
  by destruct (fin_rcvd t5).
Qed.
Lemma timer_one_synced t g : synced t -> synced (timer_one ip_output t g).1.
Proof.
  intros Hy. unfold timer_one. destruct (negb _); [done|].
  destruct (orphan t && _). { unfold tcp_free. by destruct (ooo_flush t g) as [t1 g1]. }
  destruct (is_state t TIME_WAIT); [by destruct (reached _ _)|].
  pose proof (keep_timer_quiet ip_output t g) as Hk. destruct (keep_timer _ t g) as [[dead t1] g1].
  pose proof (quiet_synced _ _ Hk Hy) as H1. cbn [fst] in H1. destruct dead; [done|]. set (p := if _ && _ then _ else (t1, g1)).
  assert (H2 : synced p.1) by (unfold p; by destruct (_ && _)). destruct p as [t2 g2]. cbn [fst] in H2. clear - H2.
  unfold rexmit_timer. destruct (_ || _); [done|]. set (t3 := t2 <| rexmits := _ |>). destruct (_ <? _); [done|].
  set (t4 := cwnd_on_loss true t3 <| rtt_timing := false |>). set (t5 := t4 <| rto_ms := _ |>). set (t6 := t5 <| rexmit_at := _ |>).
  set (t7 := t6 <| snd_nxt := _ |>). assert (H6 : synced t7) by exact H2.
  pose proof (quiet_synced _ _ (send_data_quiet ip_output t7 g2) H6) as H7.
  destruct (state t6) eqn:Es; done.
Qed.
Lemma tcp_close_synced t g : synced t -> synced (tcp_close ip_output t g).1.
Proof.
  intros Hy. unfold tcp_close.
  assert (Hd : forall x, synced (t <| state := x |>) -> synced (send_data ip_output (t <| state := x |> <| fin_pending := true |>) g).1).
  { intros x Hx. set (t1 := t <| state := x |> <| fin_pending := true |>). assert (H1 : synced t1) by exact Hx.
    exact (quiet_synced _ _ (send_data_quiet ip_output t1 g) H1). }
  pose proof Hy as Hy'. unfold synced in Hy'. destruct (state t); try done; try (by apply Hd).
  unfold tcp_free. by destruct (ooo_flush _ g) as [t1 g1].
Qed.
End ops.
End sender.

(** ** The life of a connection *)

Section life.
Context (ip_output : Z -> list Z -> shared -> Z) (sb : Z).

Inductive event :=
  | Segment (src dst : Z) (h : tcphdr) (o : tcpopts) (data : list Z)
  | Tick
  | Write (data : list Z)
  | Read (len : nat)
  | Shut.
(** What happens, and the bytes taken from the program. *)
Definition act (e : event) (t : tcpcb) (g : shared) : list Z * tcpcb * shared :=
  match e with
  | Segment src dst h o data => let '(t, g) := conn_input ip_output src dst h o data t g in ([], t, g)
  | Tick => let '(t, g) := timer_one ip_output t g in ([], t, g)
  | Write data => let '(r, t, g) := tcp_send ip_output data t g in (firstn (Z.to_nat r) data, t, g)
  | Read len => let '(_, _, t, g) := tcp_recv ip_output len t g in ([], t, g)
  | Shut => let '(t, g) := tcp_close ip_output t g in ([], t, g)
  end.
(** Segments without a reset acknowledge, and report, only what was written. *)
Definition fair (e : event) (t : tcpcb) (written : list Z) : Prop :=
  match e with
  | Segment _ _ h o _ => has (h_flags h) TCP_RST = false -> peer_ok sb (Z.of_nat (length written)) t h o
  | _ => True
  end.

Record opened (t : tcpcb) : Prop := {
  op_state : synced t;
  op_seqs : snd_una t = u32 sb /\ snd_nxt t = u32 sb /\ snd_max t = u32 sb;
  op_ring : sndlen t = 0 /\ sndstart t = 0;
  op_sack : sacked t = [] /\ in_recovery t = false }.

(** The connection, what the program wrote, and what was handed to IP for
    it. Between two events the rest of the kernel does what it likes. *)
Inductive lives : tcpcb -> list Z -> list (Z * Z * list Z) -> Prop :=
  | lives_open t : opened t -> lives t [] []
  | lives_event t w l e g acc t' g' l' : lives t w l -> fair e t w -> act e t g = (acc, t', g') -> used t' = true ->
      sent g' = sent g ++ l' -> lives t' (w ++ acc) (l ++ l').

(** The acknowledgements it sends are [V]. *)
Section acks.
Context (W : Z -> Z) (V : Z -> list (Z * Z) -> Prop).
Lemma opened_sender t : opened t -> speaks V t -> sender sb W V 0 t.
Proof.
  intros [A (B1 & B2 & B3) [C1 C2] [D1 D2]] Hv. exists 0, 0, 0, 0.
  constructor; rewrite ?B1, ?B2, ?B3, ?C1, ?C2, ?D1; unfold pos; rewrite ?Z.add_0_r; try done; try lia; congruence.
Qed.
Lemma logs_app (P : Z * Z * list Z -> Prop) g g' l' : sent g' = sent g ++ l' -> logs P g g' -> Forall P l'.
Proof. intros E (l & E' & F). rewrite E in E'. by apply app_inv_head in E' as ->. Qed.
Lemma tcp_send_len N data t g : sender sb W V N t -> let '(r, _, _) := tcp_send ip_output data t g in (Z.to_nat r <= length data)%nat.
Proof.
  intros Hs. unfold tcp_send, ENOTCONN, EPIPE.
  destruct (_ || _); [unfold reset_error, ETIMEDOUT, ECONNRESET; destruct (timed_out t); lia|].
  destruct (_ && _); [lia|]. destruct (_ || _); [lia|]. destruct (_ =? 0); [lia|]. destruct (send_data _ _ _) as [t1 g1].
  set (n := if _ <? Z.of_nat (length data) then _ else _). assert (0 <= n <= Z.of_nat (length data)).
  { destruct Hs as (A & U & X & M & Hi). pose proof (sn_len _ _ _ _ _ _ _ _ _ Hi). pose proof (sn_room _ _ _ _ _ _ _ _ _ Hi).
    unfold n; zcase; lia. }
  unfold s32, u32. zcase; Z.div_mod_to_equations; lia.
Qed.
Lemma recv_loop_state len t : state (recv_loop len t).2 = state t.
Proof.
  revert t. induction len as [|len IH]; intros t; [done|]. cbn [recv_loop]. destruct (_ <? _); [|done].
  pose proof (IH (t <| rcvtail := (rcvtail t + 1) mod TCP_RCVBUF |>)) as H. by destruct (recv_loop len _) as [out t'].
Qed.
Lemma act_ok N e t g : synced t -> sender sb W V N t ->
  match e with Segment _ _ h o data => has (h_flags h) TCP_RST = false -> has (h_flags h) TCP_ACK = true -> peer_ok sb N t h o /\ said V ip_output h data t g | _ => True end ->
  let '(acc, t', g') := act e t g in
  used t' = true -> N + Z.of_nat (length acc) < 1073741824 -> acc = span W N (length acc) ->
  synced t' /\ sends sb W V (N + Z.of_nat (length acc)) (t, g) (t', g') /\ (acc <> [] -> fin_sent t = false).
Proof.
  intros Hy Hs Hf. destruct e as [src dst h o data| |data|len|]; cbn [act].
  - pose proof (conn_input_sends sb W V ip_output N src dst h o data t g Hs Hy Hf) as H1.
    pose proof (conn_input_synced ip_output src dst h o data t g Hy) as H2.
    destruct (conn_input _ _ _ _ _ _ _ _) as [t' g']. intros _ _ _. cbn [length]. by rewrite Z.add_0_r.
  - pose proof (timer_one_sends sb W V ip_output N t g Hs Hy) as H1. pose proof (timer_one_synced ip_output t g Hy) as H2.
    destruct (timer_one _ _ _) as [t' g']. intros Hu _ _. cbn [length]. rewrite Z.add_0_r. split; [done|]. split; [by apply H1|done].
  - pose proof (tcp_send_ok sb W V ip_output N data t g Hs) as H1. pose proof (tcp_send_quiet ip_output data t g) as H2.
    pose proof (tcp_send_len N data t g Hs) as Hlen. destruct (tcp_send _ _ _ _) as [[r t'] g']. intros _. destruct H1 as [H1 H3].
    assert (El : length (firstn (Z.to_nat r) data) = Z.to_nat r) by (rewrite length_take; lia).
    rewrite El. replace (Z.of_nat (Z.to_nat r)) with (Z.max 0 r) by lia. intros Hb Ha. split; [by apply (quiet_synced _ _ H2)|].
    split; [by apply H3|]. intros Hne. apply H1. destruct (decide (0 < r)); [done|]. exfalso. apply Hne. by replace (Z.to_nat r) with 0%nat by lia.
  - pose proof (tcp_recv_sends sb W V ip_output N len t g Hs) as H1. pose proof (recv_loop_state len t) as H2.
    unfold tcp_recv in *. destruct (recv_loop len t) as [[|b out] t']; cbn [snd] in H2; intros _ _ _; cbn [length]; rewrite Z.add_0_r;
      (split; [by apply (synced_state t)|done]).
  - pose proof (tcp_close_sends sb W V ip_output N t g Hs Hy) as H1. pose proof (tcp_close_synced ip_output t g Hy) as H2.
    destruct (tcp_close _ _ _) as [t' g']. intros Hu _ _. cbn [length]. rewrite Z.add_0_r. split; [done|]. split; [by apply H1|done].
Qed.
End acks.
Definition any_ack (ack : Z) (blocks : list (Z * Z)) : Prop := True.
Lemma lives_ok W t w l : lives t w l -> Z.of_nat (length w) < 1073741824 -> w = span W 0 (length w) ->
  synced t /\ sender sb W any_ack (Z.of_nat (length w)) t /\ Forall (carries sb W any_ack (Z.of_nat (length w)) (fin_sent t)) l.
Proof.
  induction 1 as [t Ho|t w l e g acc t' g' l' _ IH Hf Ea Hu Es]; intros Hb Hw.
  - split; [apply Ho|]. split; [by apply opened_sender|constructor].
  - rewrite length_app in *. rewrite span_app in Hw. apply app_inj_1 in Hw as [Hw Hacc]; [|by rewrite length_span].
    destruct (IH ltac:(lia) Hw) as (Hy & Hs & Hl). pose proof (act_ok W any_ack _ e t g Hy Hs) as H. rewrite Ea in H.
    rewrite Z.add_0_l in Hacc. destruct H as [Hy' [[Hs' Hfin Hl'] Hacc']]; [by destruct e; [intros HR _; split; [by apply Hf|]|..]|done|lia|done|].
    cbn [fst snd] in *. rewrite Nat2Z.inj_add. split; [done|]. split; [done|]. apply Forall_app. split; [|by eapply logs_app].
    eapply Forall_impl; [exact Hl|]. intros p. apply carries_more; [lia|]. intros EF. split; [by apply Hfin|].
    destruct acc; [cbn; lia|]. rewrite Hacc' in EF; [done|done].
Qed.

Lemma span_of (w : list Z) : w = span (fun k => default 0 (w !! Z.to_nat k)) 0 (length w).
Proof.
  apply list_eq. intros k. destruct (decide (k < length w)%nat) as [Hk|Hk].
  - rewrite span_lookup by done. destruct (lookup_lt_is_Some_2 w k Hk) as [x Hx]. rewrite Hx. by rewrite Z.add_0_l, Nat2Z.id, Hx.
  - rewrite !lookup_ge_None_2; [done|rewrite length_span; lia|lia].
Qed.

(** C15: whatever is lost, repeated or timed out, and however the peer
    acknowledges, selectively or not, bytes that the program has written, every
    data segment handed to IP, first sent or resent, carries exactly the bytes
    the program wrote at the place its sequence number names, while it has
    written under 2^30. A peer that acknowledges bytes never written is outside
    this: the code believes it (unsent_bytes_acknowledged below). *)
Theorem tcp_sends_what_was_written t w l p : lives t w l -> Z.of_nat (length w) < 1073741824 -> p ∈ l -> data_of p.2 <> [] ->
  exists q : nat, h_seq (header_of p.2) = u32 (sb + Z.of_nat q) /\ (q + length (data_of p.2) <= length w)%nat /\
    data_of p.2 = sub w q (length (data_of p.2)).
Proof.
  intros Hl Hb Hp Hd. pose proof (span_of w) as Hw. set (W k := default 0 (w !! Z.to_nat k)) in Hw.
  destruct (lives_ok W t w l Hl Hb Hw) as (_ & _ & Hf). rewrite Forall_forall in Hf.
  destruct (ca_data _ _ _ _ _ _ (Hf p Hp)) as [?|(q & E1 & E2 & E3 & E4)]; [done|]. exists (Z.to_nat q). rewrite Z2Nat.id by done. split; [done|].
  split; [lia|]. clearbody W. transitivity (span W q (length (data_of p.2))); [exact E4|].
  rewrite Hw at 1. rewrite span_sub by lia. f_equal. lia.
Qed.

(** C35: the loops of the sender end: the fuel the definitions pass is enough,
    since each turn of send_data's loop moves snd_nxt on, and each turn of the
    scan over the SACKed ranges leaves one behind. *)
Theorem tcp_send_loops_end t w l : lives t w l -> Z.of_nat (length w) < 1073741824 ->
  (forall n g, send_loop ip_output (S (Z.to_nat (sndlen t)) + n) t g = send_loop ip_output (S (Z.to_nat (sndlen t))) t g) /\
  (in_recovery t = true -> let seq := if seq_gt (high_rxt t) (snd_una t) then high_rxt t else snd_una t in
     let x := skip_sacked (S (length (sacked t))) t seq in sacked_until t x = x).
Proof.
  intros Hl Hb. destruct (lives_ok _ t w l Hl Hb (span_of w)) as (_ & (A & U & X & M & Hi) & _).
  pose proof (sn_N _ _ _ _ _ _ _ _ _ Hi) as HN. pose proof (sn_len _ _ _ _ _ _ _ _ _ Hi) as El. pose proof (sn_U _ _ _ _ _ _ _ _ _ Hi) as HU. split.
  - intros n g. induction n as [|n IH]; [by rewrite Nat.add_0_r|]. rewrite <- IH, Nat.add_succ_r.
    eapply send_loop_fuel; [exact Hi|lia|lia].
  - intros Hr sq. destruct (sn_high _ _ _ _ _ _ _ _ _ Hi Hr) as (h & Eh & Hh). cbv zeta.
    assert (Eseq : exists x, sq = pos sb x /\ 0 <= x <= Z.of_nat (length w) + 2).
    { unfold sq. rewrite Eh, (sn_una _ _ _ _ _ _ _ _ _ Hi). destruct (seq_gt (pos sb h) (pos sb U)); [exists h|exists U]; (split; [reflexivity|lia]). }
    destruct Eseq as (x & -> & Hx). eapply skip_sacked_fuel; [exact Hi|done|]. unfold past. pose proof (length_filter (fun p : Z * Z => seq_gt p.2 (pos sb x) = true) (sacked t)). lia.
Qed.
End life.

(** ** A segment that is lost and sent again *)

Definition idle : tcpcb := zeroed <| used := true |> <| state := ESTABLISHED |> <| snd_una := 7000 |> <| snd_nxt := 7000 |>
  <| snd_max := 7000 |> <| snd_wnd := 10000 |> <| cwnd := IW |> <| ssthresh := 262144 |> <| rto_ms := RTO_INITIAL_MS |>.
Definition at_time (clock : Z) : shared := mk_shared [] [] 0 0 0 0 32768 (PMM.pmm_init 0 0 PMM.blank) clock [].
Definition wrote := act out_ok (Write [104; 105]) idle (at_time 1000).
Definition rewrote := act out_ok Tick wrote.1.2 (at_time 2000).

Lemma triple_eq {A B C} (x : A * B * C) a : x.1.1 = a -> x = (a, x.1.2, x.2).
Proof. destruct x as [[a' b] c]. by intros <-. Qed.
Lemma idle_lives : lives out_ok 7000 idle [] [].
Proof. apply lives_open. by constructor. Qed.
Lemma lives_next sb t w l e g r acc : lives out_ok sb t w l -> fair sb e t w -> r = act out_ok e t g -> r.1.1 = acc -> used r.1.2 = true ->
  sent g = [] -> lives out_ok sb r.1.2 (w ++ acc) (l ++ sent r.2).
Proof.
  intros Hl Hf Er Ea Hu Eg. eapply lives_event; [exact Hl|exact Hf| |exact Hu|].
  - rewrite <- Er. by apply triple_eq.
  - by rewrite Eg.
Qed.
Lemma wrote_lives : lives out_ok 7000 wrote.1.2 ([] ++ [104; 105]) ([] ++ sent wrote.2).
Proof.
  assert (E : wrote.1.1 = [104; 105]) by (vm_compute; reflexivity). assert (U : used wrote.1.2 = true) by (vm_compute; reflexivity).
  assert (R : wrote = act out_ok (Write [104; 105]) idle (at_time 1000)) by (unfold wrote; reflexivity).
  exact (lives_next 7000 idle [] [] (Write [104; 105]) (at_time 1000) wrote [104; 105] idle_lives I R E U eq_refl).
Qed.
Lemma rewrote_lives : lives out_ok 7000 rewrote.1.2 (([] ++ [104; 105]) ++ []) (([] ++ sent wrote.2) ++ sent rewrote.2).
Proof.
  assert (E : rewrote.1.1 = []) by (vm_compute; reflexivity). assert (U : used rewrote.1.2 = true) by (vm_compute; reflexivity).
  assert (R : rewrote = act out_ok Tick wrote.1.2 (at_time 2000)) by (unfold rewrote; reflexivity).
  exact (lives_next 7000 wrote.1.2 _ _ Tick (at_time 2000) rewrote [] wrote_lives I R E U eq_refl).
Qed.
Lemma tcp_sends_what_was_written_witness : exists p, p ∈ sent rewrote.2 /\
  exists q : nat, h_seq (header_of p.2) = u32 (7000 + Z.of_nat q) /\ (q + length (data_of p.2) <= 2)%nat /\
    data_of p.2 = sub [104; 105] q (length (data_of p.2)).
Proof.
  set (p := default (0, 0, []) (sent rewrote.2 !! 0%nat)).
  assert (Hp : p ∈ sent rewrote.2) by (apply (list_elem_of_lookup_2 _ 0); vm_compute; reflexivity).
  exists p. split; [exact Hp|].
  refine (tcp_sends_what_was_written out_ok 7000 rewrote.1.2 _ _ p rewrote_lives _ _ _).
  - done.
  - apply elem_of_app. right. exact Hp.
  - vm_compute. discriminate.
Defined.
Lemma tcp_send_loops_end_witness :
  send_loop out_ok (S (Z.to_nat (sndlen rewrote.1.2)) + 5) rewrote.1.2 (at_time 0) =
  send_loop out_ok (S (Z.to_nat (sndlen rewrote.1.2))) rewrote.1.2 (at_time 0).
Proof.
  exact (proj1 (tcp_send_loops_end out_ok 7000 rewrote.1.2 _ _
    rewrote_lives ltac:(done)) 5%nat (at_time 0)).
Defined.

(** ** Where the code does not do what it means to *)

Definition quick (es : list (Z * event)) (t : tcpcb) : tcpcb := foldl (fun t '(clock, e) => (act out_ok e t (at_time clock)).1.2) t es.
Definition bare : tcpopts := mk_tcpopts (-1) false false 0 0 [].
Definition ack_of (n window : Z) : event := Segment 0 0 (mk_tcphdr 80 32768 0 (7000 + n) 80 TCP_ACK window) bare [].

(** An acknowledgement that covers more than what was resent after a
    timeout leaves the retransmission timer running with nothing to resend;
    if the program writes nothing more, a connection whose every byte was
    acknowledged is given up as timed out. *)
Theorem acknowledged_connection_times_out :
  let t := quick [(1000, Write (replicate 2800 65)); (1200, Tick); (1210, ack_of 2800 10000)] idle in
  let t' := quick [(1500, Tick); (2000, Tick); (3000, Tick); (5000, Tick); (7000, Tick); (9000, Tick); (11000, Tick)] t in
  (state t, sndlen t, reset t) = (ESTABLISHED, 0, false) /\ (state t', sndlen t', reset t', timed_out t') = (CLOSED, 0, true, true).
Proof. by vm_compute. Qed.

(** A window update is counted as a duplicate acknowledgement: the test that
    the window did not change compares it with itself. *)
Example window_updates_count_as_duplicates :
  let t := quick [(1000, Write (replicate 2800 65)); (1001, ack_of 0 9000); (1002, ack_of 0 8000); (1003, ack_of 0 7000)] idle in
  (dupacks t, in_recovery t) = (3, true).
Proof. by vm_compute. Qed.

(** A FIN is taken although the data of its segment did not fit the
    receive ring: with room for two bytes, a segment of five bytes and the
    FIN gives the program two bytes and then the end of the file. *)
Theorem fin_taken_before_its_data :
  let t := idle <| rcv_nxt := 500 |> <| rcvhead := TCP_RCVBUF - 3 |> <| rcvtail := 0 |> in
  let t' := quick [(1000, Segment 0 0 (mk_tcphdr 80 32768 500 7000 80 (Z.lor TCP_ACK TCP_FIN) 10000) bare [1; 2; 3; 4; 5])] t in
  rcv_free t = 2 /\ rcv_nxt t' = 503 /\ fin_rcvd t' = true /\ state t' = CLOSE_WAIT.
Proof. by vm_compute. Qed.

(** An acknowledgement of bytes that were never sent is taken, and the bytes
    are dropped. *)
Example unsent_bytes_acknowledged :
  let t := quick [(1000, Write (replicate 2800 65)); (1001, Write (replicate 1000 66))] idle in
  let t' := quick [(1002, ack_of 3800 10000)] t in
  (u32 (snd_max t - 7000), sndlen t, sndlen t') = (2800, 3800, 0).
Proof. by vm_compute. Qed.

(** Closing before the handshake is over: the timer sends the FIN with the
    sequence number of the SYN. *)
Example fin_at_the_syn :
  let t := idle <| state := SYN_RECEIVED |> <| snd_una := 6999 |> <| rexmit_at := 1100 |> in
  let g := (act out_ok Tick (quick [(1000, Shut)] t) (at_time 1200)).2 in
  (fun p => (h_seq (header_of p.2), h_flags (header_of p.2))) <$> sent g = [(6999, 17)].
Proof. by vm_compute. Qed.

(** A reset is taken whatever its sequence number. *)
Example any_reset_counts :
  state (quick [(1000, Segment 0 0 (mk_tcphdr 80 32768 123456789 0 80 TCP_RST 0) bare [])] (idle <| rcv_nxt := 500 |>)) = CLOSED.
Proof. by vm_compute. Qed.
End TCPSEND.
