(* ===== verification/Tcpstack.v ===== *)
(** * TCP: the whole stack (kernel/net/tcp.c)

    Every call of the table of connections, in any order: the pool of held
    segments stays consistent, and what a program reads from a connection is
    the peer's stream. *)

From S2P Require Import Prelude Pmm Route Net Tcp Tcprecv Tcpseg.
Local Open Scope Z_scope.

Module TCPSTACK.
Import TCP TCPRECV TCPSEG.

(** Each slot in use is held by one entry of one connection, and a
    connection that is not in use holds none. *)
Record pool_ok (s : tcp) : Prop := {
  po_conns : length (conns s) = TCP_MAX_CONNS;
  po_slots : forall i t, conns s !! i = Some t -> slots_ok t (sh s);
  po_apart : forall i j t t' k, conns s !! i = Some t -> conns s !! j = Some t' -> holds t k -> holds t' k -> i = j;
  po_held : forall k, taken (sh s) k -> exists i t, conns s !! i = Some t /\ holds t k;
  po_free : forall i t k, conns s !! i = Some t -> used t = false -> ~ holds t k }.

Lemma conn_lookup s i t : conns s !! i = Some t -> conn s i = t.
Proof. intros E. unfold conn. by rewrite E. Qed.
Lemma used_lookup s i : used (conn s i) = true -> conns s !! i = Some (conn s i).
Proof. unfold conn. destruct (conns s !! i) eqn:E; [done|]. cbn. done. Qed.
Lemma conn_put_eq i t g s : (i < length (conns s))%nat -> conn (put i t g s) i = t.
Proof. intros Hi. unfold conn, put. cbn [conns]. by rewrite list_lookup_insert_eq. Qed.
Lemma conn_put_ne i j t g s : i <> j -> conn (put i t g s) j = conn s j.
Proof. intros Hi. unfold conn, put. cbn [conns]. by rewrite list_lookup_insert_ne. Qed.

(** One connection changes. *)
Lemma pool_put i t t' g' s : pool_ok s -> conns s !! i = Some t -> pooled (t, sh s) (t', g') ->
  (used t' = false -> forall k, ~ holds t' k) -> pool_ok (put i t' g' s).
Proof.
  intros [A B C D E] Ht Hp Hf. destruct (Hp (B i t Ht)) as [Hs [Fk Fb]]. cbn [fst snd] in *.
  assert (Hi : (i < length (conns s))%nat) by (by eapply lookup_lt_Some).
  assert (Hl : forall j x, conns (put i t' g' s) !! j = Some x -> (j = i /\ x = t') \/ (j <> i /\ conns s !! j = Some x)).
  { intros j x. unfold put. cbn [conns]. rewrite list_lookup_insert. case_decide as Hd; [left; naive_solver|].
    intros Hx. right. split; [|done]. intros ->. tauto. }
  assert (Hoth : forall j x k, j <> i -> conns s !! j = Some x -> holds x k -> taken (sh s) k /\ ~ holds t k).
  { intros j x k Hj Hx Hk. split; [by apply (so_taken _ _ (B j x Hx))|]. intros Hk'. apply Hj. by apply (C j i x t k). }
  constructor.
  - unfold put. cbn. by rewrite length_insert.
  - intros j x Hx. apply Hl in Hx as [[-> ->]|[Hj Hx]]; [done|]. destruct (B j x Hx) as [L1 L2 L3 L4 L5]. cbn [sh put].
    destruct Hs as [_ P1 P2 _ _]. constructor; try done. intros k Hk. destruct (Hoth j x k Hj Hx Hk) as [Hk1 Hk2]. by apply Fk.
  - intros a b x y k Hx Hy Hkx Hky. apply Hl in Hx as [[-> ->]|[Ha Hx]]; apply Hl in Hy as [[-> ->]|[Hb Hy]].
    + done.
    + exfalso. destruct (Hoth b y k Hb Hy Hky) as [K1 K2]. by apply (Fk k K1 K2).
    + exfalso. destruct (Hoth a x k Ha Hx Hkx) as [K1 K2]. by apply (Fk k K1 K2).
    + by apply (C a b x y k).
  - intros k Hk. cbn [sh put] in Hk. destruct (Fb k Hk) as [Hh|[Hk1 Hk2]].
    + exists i, t'. split; [|done]. unfold put. cbn. by apply list_lookup_insert_eq.
    + destruct (D k Hk1) as (j & x & Hx & Hh). exists j, x. split; [|done]. unfold put. cbn.
      rewrite list_lookup_insert_ne; [done|]. intros <-. congruence.
  - intros j x k Hx Hu. apply Hl in Hx as [[-> ->]|[Hj Hx]]; [by apply Hf|by apply (E j x k)].
Qed.
Lemma pool_put_tidy i t t' g' s : pool_ok s -> conns s !! i = Some t -> used t = true -> tidy (t, sh s) (t', g') ->
  pool_ok (put i t' g' s).
Proof.
  intros Hp Ht Hu [[H1 H2]|[H1 H2]]; (eapply pool_put; [done|done|done|]).
  - cbn [fst] in H2. congruence.
  - intros _. apply H2. cbn. by apply (po_slots _ Hp i).
Qed.
Lemma pool_same cs g g' : pool_part g' = pool_part g -> pool_ok (mk_tcp cs g) -> pool_ok (mk_tcp cs g').
Proof.
  intros E [A B C D F]. cbn [conns sh] in *. injection E as Ep Eu. constructor; try done.
  - intros i t Ht. destruct (B i t Ht) as [L1 L2 L3 L4 L5]. cbn [sh] in *.
    constructor; rewrite ?Ep, ?Eu; try done. intros k Hk. unfold taken. rewrite Eu. by apply L4.
  - intros k. unfold taken. cbn [sh]. rewrite Eu. apply D.
Qed.

(** Nothing held anywhere: the state tcp_init leaves. *)
Lemma zeroed_holds k : ~ holds zeroed k.
Proof. intros (i & o & Ho & Hu & _). change (ooo zeroed) with (replicate TCP_OOO_PER_CB no_held) in Ho. apply lookup_replicate in Ho as [-> _]. done. Qed.
Lemma zeroed_slots g : length (ooo_pool g) = TCP_OOO_SLOTS -> length (ooo_used g) = TCP_OOO_SLOTS -> slots_ok zeroed g.
Proof.
  intros A B. constructor; try done.
  - intros k Hk. by destruct (zeroed_holds k).
  - intros i j o o' Hi Hj Hu. change (ooo zeroed) with (replicate TCP_OOO_PER_CB no_held) in Hi. apply lookup_replicate in Hi as [-> _]. done.
Qed.
Lemma pool_init s : length (ooo_pool (sh s)) = TCP_OOO_SLOTS -> ooo_used (sh s) = replicate TCP_OOO_SLOTS false -> pool_ok (tcp_init s).
Proof.
  intros A B.
  assert (Hz : forall i t, conns (tcp_init s) !! i = Some t -> t = zeroed).
  { intros i t Ht. unfold tcp_init in Ht. cbn [conns] in Ht. by apply lookup_replicate in Ht as [-> _]. }
  constructor.
  - apply length_replicate.
  - intros i t Ht. rewrite (Hz i t Ht). apply zeroed_slots; [done|]. cbn [sh tcp_init]. by rewrite B, length_replicate.
  - intros i j t t' k Ht _ Hk. rewrite (Hz i t Ht) in Hk. by destruct (zeroed_holds k).
  - intros k Hk. unfold taken in Hk. cbn [sh tcp_init] in Hk. rewrite B in Hk. by apply lookup_replicate in Hk as [? _].
  - intros i t k Ht _. rewrite (Hz i t Ht). apply zeroed_holds.
Qed.

(** ** Watching one connection *)
Section watch.
Context (S : Z -> Z) (base total : Z) (i : nat).

(** [out] is what was read so far; the bytes in the ring come next. *)
Definition watched (s : tcp) (out : list Z) : Prop :=
  let t := conn s i in
  let K := Z.of_nat (length out) + rcv_used t in
  used t = true /\ opening t = false /\ recv_inv S base total K K t (sh s) /\ out = span S 0 (length out).

(** Another connection changes. *)
Lemma watched_other j t t' g' s out : pool_ok s -> conns s !! j = Some t -> j <> i -> pooled (t, sh s) (t', g') ->
  watched s out -> watched (put j t' g' s) out.
Proof.
  intros Hp Ht Hj Hpo (U & O & R & E). unfold watched. rewrite conn_put_ne by done. split; [done|]. split; [done|].
  split; [|done]. pose proof (used_lookup s i U) as Hi. destruct (Hpo (po_slots _ Hp j t Ht)) as [Hs [Fk Fb]]. cbn [fst snd sh put] in *.
  assert (Hoth : forall k, holds (conn s i) k -> taken (sh s) k /\ ~ holds t k).
  { intros k Hk. split; [by apply (so_taken _ _ (po_slots _ Hp i _ Hi))|]. intros Hk'. apply Hj. by apply (po_apart _ Hp j i t (conn s i) k). }
  eapply recv_inv_frame; [exact R| |].
  - destruct (po_slots _ Hp i _ Hi) as [L1 L2 L3 L4 L5]. destruct Hs as [_ P1 P2 _ _]. constructor; try done.
    intros k Hk. destruct (Hoth k Hk) as [K1 K2]. by apply Fk.
  - intros k Hk. destruct (Hoth k Hk) as [K1 K2]. by apply Fk.
Qed.
(** The connection itself changes. *)
Lemma watched_self t' g' s out : watched s out ->
  (forall K, recv_inv S base total K K (conn s i) (sh s) -> K = Z.of_nat (length out) + rcv_used (conn s i) ->
     exists K', advance S base total K (conn s i) K' t' g') ->
  watched (put i t' g' s) out.
Proof.
  intros (U & O & R & E) H. destruct (H _ R eq_refl) as (K' & [[_ M] I O' U']). unfold watched.
  pose proof (used_lookup s i U) as Hi. rewrite conn_put_eq by (by eapply lookup_lt_Some). split; [congruence|]. split; [done|].
  split; [|done]. cbn [sh put]. unfold rcv_free in M. by replace (Z.of_nat (length out) + rcv_used t') with K' by lia.
Qed.
Lemma watched_same cs g g' out : pool_part g' = pool_part g -> watched (mk_tcp cs g) out -> watched (mk_tcp cs g') out.
Proof.
  intros E (U & O & R & Eo). split; [done|]. split; [done|]. split; [|done]. by eapply recv_inv_same; [..|exact R].
Qed.
End watch.

(** ** Steps that bring no new connection

    The pool stays consistent, a free connection stays free, and a watched
    one stays watched, unless it is freed. *)
Record stays (s s' : tcp) : Prop := {
  st_pool : pool_ok s';
  st_free : forall i, used (conn s i) = false -> used (conn s' i) = false;
  st_watch : forall S base total i out, watched S base total i s out -> used (conn s' i) = true -> watched S base total i s' out }.
Lemma stays_refl s : pool_ok s -> stays s s.
Proof. by constructor. Qed.
Lemma stays_trans s1 s2 s3 : stays s1 s2 -> stays s2 s3 -> stays s1 s3.
Proof.
  intros [A B C] [A' B' C']. constructor; [done|auto|]. intros S base total i out Hw Hu. apply C'; [|done]. apply C; [done|].
  destruct (used (conn s2 i)) eqn:E; [done|]. rewrite B' in Hu by done. done.
Qed.
Lemma stays_loop n f s : pool_ok s -> (forall k s', (k < n)%nat -> pool_ok s' -> stays s' (f k s')) -> stays s (for_upto n f s).
Proof.
  intros Hp Hf. apply (for_upto_ind (fun _ s' => stays s s')); [by apply stays_refl|].
  intros k s' Hk Hs. eapply stays_trans; [exact Hs|]. apply Hf; [done|apply Hs].
Qed.
Lemma stays_shared cs g g' : pool_ok (mk_tcp cs g) -> pool_part g' = pool_part g -> stays (mk_tcp cs g) (mk_tcp cs g').
Proof. intros Hp E. constructor; [by eapply pool_same|done|]. intros S base total i out Hw _. by eapply watched_same. Qed.

(** A step of one connection that neither opens nor receives. *)
Lemma stays_put j t t' g' s : pool_ok s -> conns s !! j = Some t -> pooled (t, sh s) (t', g') ->
  (used t' = false -> forall k, ~ holds t' k) -> (used t = false -> used t' = false) ->
  (forall S base total K, recv_inv S base total K K t (sh s) -> opening t = false -> used t' = true ->
     advance S base total K t K t' g') ->
  stays s (put j t' g' s).
Proof.
  intros Hp Ht Hpo Hf Hu Ha. assert (Hj : (j < length (conns s))%nat) by (by eapply lookup_lt_Some). constructor.
  - by eapply pool_put.
  - intros i. destruct (decide (j = i)) as [->|Hne]; [|by rewrite conn_put_ne].
    rewrite conn_put_eq, (conn_lookup s i t) by done. exact Hu.
  - intros S base total i out Hw Hu'. destruct (decide (j = i)) as [->|Hne]; [|by eapply watched_other].
    rewrite conn_put_eq in Hu' by done. pose proof (conn_lookup s i t Ht) as Ec. apply watched_self; [done|].
    destruct Hw as (_ & O & _). rewrite Ec in *. intros K HK _. exists K. by apply Ha.
Qed.
Lemma stays_quiet j t t' g' s : pool_ok s -> conns s !! j = Some t -> used t = true -> quiet (t, sh s) (t', g') -> stays s (put j t' g' s).
Proof.
  intros Hp Ht Hu Hq. assert (Eu : used t' = used t) by (destruct Hq as [E _]; by injection E).
  eapply stays_put; [done|done|by apply quiet_pooled|congruence|congruence|].
  intros S base total K HK Ho _. eapply advance_quiet; [by apply advance_refl|done].
Qed.
(** Fields that are neither the receiver's nor the slots change. *)
Lemma stays_fields j t t' g' s : pool_ok s -> conns s !! j = Some t -> used t = true -> rcv_data t' = rcv_data t -> used t' = used t ->
  pool_part g' = pool_part (sh s) -> (opening t = false -> opening t' = false) -> stays s (put j t' g' s).
Proof.
  intros Hp Ht Hu Ed Eu Eg Ho. eapply stays_put; [done|done| |congruence|congruence|].
  - apply pooled_same; [by injection Ed|done].
  - intros S base total K HK Hop _. eapply advance_quiet; [by apply advance_state; [exact HK|exact Ed|auto|done]|]. by split.
Qed.

Section calls.
Variable ip_output : Z -> list Z -> shared -> Z.
Variable random_u32 : shared -> Z.
Variable if_ip : Z.

Lemma timer_stays s : pool_ok s -> stays s (tcp_timer ip_output s).
Proof.
  intros Hp. apply stays_loop; [done|]. clear s Hp. intros k s Hk Hp.
  assert (exists t, conns s !! k = Some t) as [t Ht] by (apply lookup_lt_is_Some; rewrite (po_conns _ Hp); done).
  rewrite (conn_lookup s k t Ht). pose proof (timer_one_tidy ip_output t (sh s)) as Hd.
  pose proof (fun S base total K Hi Ho => timer_one_ok S base total ip_output K t (sh s) Hi Ho) as Ho.
  assert (Hun : used t = false -> timer_one ip_output t (sh s) = (t, sh s)) by (intros E; unfold timer_one; by rewrite E).
  destruct (timer_one ip_output t (sh s)) as [t' g']. cbn [fst snd] in *.
  eapply stays_put; [done|done| | |intros E; by injection (Hun E) as -> ->|].
  - destruct Hd as [[H _]|[H _]]; done.
  - intros E j. destruct Hd as [[_ H]|[_ H]]; [|by apply H, (po_slots _ Hp k)]. cbn [fst] in H. rewrite E in H. symmetry in H.
    injection (Hun H) as -> _. by apply (po_free _ Hp k).
  - intros S base total K HK Hop Hu. by apply Ho.
Qed.
Lemma send_stays j data s : pool_ok s -> used (conn s j) = true ->
  let '(_, t, g) := tcp_send ip_output data (conn s j) (sh s) in stays s (put j t g s).
Proof.
  intros Hp Hu. pose proof (tcp_send_quiet ip_output data (conn s j) (sh s)) as Hq.
  destruct (tcp_send _ _ _ _) as [[r t] g]. by eapply stays_quiet; [|apply used_lookup|..].
Qed.

(** Closing: the FIN, or the end of the connection. *)
Lemma close_ooo t g : slots_ok t g ->
  (ooo (tcp_close ip_output t g).1 = ooo t /\ rcv_data (tcp_close ip_output t g).1 = rcv_data t /\
   used (tcp_close ip_output t g).1 = used t /\ pool_part (tcp_close ip_output t g).2 = pool_part g /\
   (opening t = false -> opening (tcp_close ip_output t g).1 = false)) \/
  (used (tcp_close ip_output t g).1 = false /\ forall k, ~ holds (tcp_close ip_output t g).1 k).
Proof.
  intros Hs. unfold tcp_close.
  assert (Hf : used (tcp_free (t <| state := CLOSED |>) g).1 = false /\ forall k, ~ holds (tcp_free (t <| state := CLOSED |>) g).1 k).
  { destruct (tcp_free_pooled (t <| state := CLOSED |>) g) as (_ & A & B). split; [done|]. apply B.
    assert (H : pooled (t, g) (t <| state := CLOSED |>, g)) by (by apply pooled_same). exact (proj1 (H Hs)). }
  assert (Hd : forall x, opening (t <| state := x |>) = false ->
    let p := send_data ip_output (t <| state := x |> <| fin_pending := true |>) g in
    ooo p.1 = ooo t /\ rcv_data p.1 = rcv_data t /\ used p.1 = used t /\ pool_part p.2 = pool_part g /\
    (opening t = false -> opening p.1 = false)).
  { intros x Hx p. pose proof (send_data_quiet ip_output (t <| state := x |> <| fin_pending := true |>) g) as Hq. fold p in Hq.
    pose proof (quiet_data _ _ Hq) as Ed. destruct Hq as [E Ep]. injection E as E1 E2 E3 E4 E5 E6 E7 E8 _ _ _ _.
    split; [done|]. split; [done|]. split; [done|]. split; [done|]. intros _. assert (E2' : state p.1 = x) by exact E2. unfold opening. rewrite E2'. exact Hx. }
  destruct (state t); first [by right; apply Hf|left; apply Hd; done|by left].
Qed.
Lemma closed_stays j t t1 g1 t2 s : pool_ok s -> conns s !! j = Some t -> tcp_close ip_output t (sh s) = (t1, g1) ->
  rcv_data t2 = rcv_data t1 -> used t2 = used t1 -> opening t2 = opening t1 -> stays s (put j t2 g1 s).
Proof.
  intros Hp Ht Ec F2 F3 F4. pose proof (po_slots _ Hp j t Ht) as Hs. assert (F1 : ooo t2 = ooo t1) by (by injection F2).
  pose proof (tcp_close_tidy ip_output t (sh s)) as Htd. pose proof (close_ooo t (sh s) Hs) as Hc. rewrite Ec in Htd, Hc.
  cbn [fst snd] in Hc. assert (Hh : forall k, holds t2 k <-> holds t1 k) by (intros k; unfold holds; by rewrite F1).
  eapply stays_put; [done|done| | | |].
  - transitivity (t1, g1); [destruct Htd as [[? _]|[? _]]; done|by apply pooled_same].
  - intros E k. rewrite Hh. rewrite F3 in E. destruct Hc as [(C1 & _ & C3 & _)|[_ H]]; [|apply H].
    unfold holds. rewrite C1. apply (po_free _ Hp j t); [done|congruence].
  - intros E. rewrite F3. destruct Hc as [(_ & _ & C3 & _)|[H _]]; congruence.
  - intros S base total K HK Ho Hu. destruct Hc as [(C1 & C2 & C3 & C4 & C5)|[H _]]; [|congruence].
    eapply advance_quiet; [apply (advance_state S base total K t (sh s) t2); [done|congruence|rewrite F4; auto|congruence]|].
    by split.
Qed.
Lemma close_stays j t s : pool_ok s -> conns s !! j = Some t ->
  let '(t1, g1) := tcp_close ip_output t (sh s) in stays s (put j t1 g1 s).
Proof. intros Hp Ht. destruct (tcp_close ip_output t (sh s)) as [t1 g1] eqn:Ec. by eapply closed_stays. Qed.
Lemma orphan_stays j s : pool_ok s -> (j < TCP_MAX_CONNS)%nat -> stays s (close_and_orphan ip_output j s).
Proof.
  intros Hp Hj. assert (exists t, conns s !! j = Some t) as [t Ht] by (apply lookup_lt_is_Some; rewrite (po_conns _ Hp); done).
  unfold close_and_orphan. rewrite (conn_lookup s j t Ht). destruct (tcp_close ip_output t (sh s)) as [t1 g1] eqn:Ec.
  eapply closed_stays; [done|done|exact Ec|..]; destruct (used t1) eqn:E; done || exact E.
Qed.
Lemma release_stays fuel j s : pool_ok s -> (j < TCP_MAX_CONNS)%nat -> stays s (tcp_release ip_output fuel j s).
Proof.
  revert j s. induction fuel as [|fuel IH]; intros j s Hp Hj; [by apply stays_refl|]. cbn [tcp_release].
  set (s1 := if is_state (conn s j) LISTEN then _ else s).
  assert (H1 : stays s s1).
  { unfold s1. destruct (is_state _ _); [|by apply stays_refl]. apply stays_loop; [done|]. clear s1 Hp s.
    intros k s Hk Hp. destruct (used (conn s k)) eqn:Eu; cbn [andb]; [|by apply stays_refl]. case_bool_decide; [|by apply stays_refl].
    match goal with |- stays _ (tcp_release _ _ _ ?x) => assert (H2 : stays s x) end.
    { apply (stays_fields k (conn s k)); [done|by apply used_lookup|done..]. }
    eapply stays_trans; [exact H2|]. apply IH; [apply H2|done]. }
  eapply stays_trans; [exact H1|]. apply orphan_stays; [apply H1|done].
Qed.
Lemma accept_stays j s : pool_ok s -> stays s (tcp_accept j s).2.
Proof.
  intros Hp. unfold tcp_accept. destruct (find_idx _ _) as [k|] eqn:E; [|by apply stays_refl]. cbn [snd].
  apply find_idx_Some in E as [(t & Ht & Hw) _]. unfold waiting_for in Hw. rewrite (conn_lookup s k t Ht).
  apply (stays_fields k t); try done. by destruct (used t).
Qed.

(** ** Steps that open a connection *)

Lemma fresh_pooled t g t' g' : (forall k, ~ holds t k) -> ooo t' = ooo zeroed -> pool_part g' = pool_part g -> pooled (t, g) (t', g').
Proof.
  intros Hn Eo Ep [_ L2 L3 _ _]. cbn [fst snd] in *. injection Ep as Ep Eu.
  assert (Hz : forall k, ~ holds t' k) by (intros k; unfold holds; rewrite Eo; apply zeroed_holds).
  assert (Hs : slots_ok t' g').
  { destruct (zeroed_slots g' ltac:(congruence) ltac:(congruence)) as [Z1 Z2 Z3 Z4 Z5].
    constructor; rewrite ?Eo; try done. intros k Hk. by destruct (Hz k). }
  split; [done|]. split.
  - intros k Hk _. unfold taken. rewrite Eu, Ep. done.
  - intros k Hk. right. unfold taken in *. rewrite Eu in Hk. done.
Qed.
(** Of a step on connection [j] another one notices nothing. *)
Definition around (j : nat) (s s' : tcp) : Prop :=
  pool_ok s' /\ forall S base total i out, i <> j -> watched S base total i s out -> watched S base total i s' out.
Lemma around_put j t t' g' s : pool_ok s -> conns s !! j = Some t -> pooled (t, sh s) (t', g') ->
  (used t' = false -> forall k, ~ holds t' k) -> around j s (put j t' g' s).
Proof.
  intros Hp Ht Hpo Hf. split; [by eapply pool_put|]. intros S base total i out Hi Hw. by eapply watched_other.
Qed.
Lemma around_trans j s1 s2 s3 : around j s1 s2 -> around j s2 s3 -> around j s1 s3.
Proof. intros [_ A] [B C]. split; [done|]. auto. Qed.
Lemma around_shared j cs g g' : pool_ok (mk_tcp cs g) -> pool_part g' = pool_part g -> around j (mk_tcp cs g) (mk_tcp cs g').
Proof. intros Hp E. split; [by eapply pool_same|]. intros S base total i out _ Hw. by eapply watched_same. Qed.
Lemma around_fields j t t' g' s : pool_ok s -> conns s !! j = Some t -> used t = true -> ooo t' = ooo t -> used t' = used t ->
  pool_part g' = pool_part (sh s) -> around j s (put j t' g' s).
Proof. intros Hp Ht Hu Eo Eu Ep. eapply around_put; [done|done|by apply pooled_same|congruence]. Qed.

(** A step no open connection notices. *)
Definition undisturbed (s s' : tcp) : Prop :=
  pool_ok s' /\ forall S base total i out, watched S base total i s out -> watched S base total i s' out.
Lemma undisturbed_shared s g' : pool_ok s -> pool_part g' = pool_part (sh s) -> undisturbed s (mk_tcp (conns s) g').
Proof.
  destruct s as [cs g]. intros Hp E. split; [by eapply pool_same|]. intros S base total i out Hw. by eapply watched_same.
Qed.
Lemma undisturbed_trans s1 s2 s3 : undisturbed s1 s2 -> undisturbed s2 s3 -> undisturbed s1 s3.
Proof. intros [_ A] [B C]. split; [done|]. auto. Qed.
Lemma around_free k s s' : used (conn s k) = false -> around k s s' -> undisturbed s s'.
Proof.
  intros Hu [Hp Hw]. split; [done|]. intros S base total i out Hi. apply Hw; [|done]. intros ->. destruct Hi as [Hi _]. congruence.
Qed.

Lemma alloc_around s : pool_ok s ->
  match tcp_alloc s with
  | (Some k, s') => used (conn s k) = false /\ used (conn s' k) = true /\ ooo (conn s' k) = ooo zeroed /\ around k s s'
  | (None, s') => undisturbed s s'
  end.
Proof.
  intros Hp. unfold tcp_alloc. destruct (find_idx _ _) as [k|] eqn:E; [|by split].
  apply find_idx_Some in E as [(t & Ht & Hu) _]. assert (Hu' : used t = false) by (by destruct (used t)).
  destruct (PMM.pmm_alloc_pages _ _) as [a p]. destruct (if a =? 0 then _ else _) as [b p']. destruct s as [cs g]. cbn [conns sh] in *.
  destruct (b =? 0); [by apply (undisturbed_shared (mk_tcp cs g))|].
  rewrite conn_put_eq by (by eapply lookup_lt_Some). rewrite (conn_lookup (mk_tcp cs g) k t Ht).
  split; [done|]. split; [done|]. split; [done|]. eapply around_put; [done|exact Ht| |done].
  apply fresh_pooled; [|done|done]. intros j. by apply (po_free _ Hp k t).
Qed.
Lemma pick_loop_same fuel s : conns (pick_loop fuel s).2 = conns s /\ pool_part (sh (pick_loop fuel s).2) = pool_part (sh s).
Proof.
  revert s. induction fuel as [|fuel IH]; intros s; [done|]. cbn [pick_loop]. case_bool_decide; [done|].
  destruct (IH (mk_tcp (conns s) (sh s <| next_port := if u16 (next_port (sh s) + 1) <? 32768 then 32768 else u16 (next_port (sh s) + 1) |>)))
    as [A B]. rewrite A, B. done.
Qed.
Lemma connect_around j addr port s : pool_ok s -> used (conn s j) = true ->
  around j s (tcp_connect ip_output random_u32 if_ip j addr port s).2.
Proof.
  intros Hp Hu. pose proof (used_lookup s j Hu) as Hj. assert (Hl : (j < length (conns s))%nat) by (by eapply lookup_lt_Some).
  assert (Hrefl : around j s s) by (by split).
  unfold tcp_connect. destruct (negb _); [done|]. destruct (_ && _); [done|]. set (t0 := conn s j <| local_ip := _ |>).
  assert (H0 : around j s (put j t0 (sh s) s)) by (by eapply around_fields).
  set (p := if local_port t0 =? 0 then _ else _).
  assert (H1 : around j s p.2 /\ conn p.2 j = t0 /\ (j < length (conns p.2))%nat).
  { unfold p. destruct (_ =? 0); [|split; [done|split; [by apply conn_put_eq|by cbn; rewrite length_insert]]].
    unfold tcp_pick_port. pose proof (pick_loop_same 4096 (put j t0 (sh s) s)) as [A B].
    destruct (pick_loop 4096 (put j t0 (sh s) s)) as [v [cs g]] eqn:Epl. cbn [snd conns sh] in *. rewrite A.
    split; [|split; [unfold conn; cbn [conns put]; by rewrite list_lookup_insert_eq|cbn; by rewrite length_insert]].
    eapply around_trans; [exact H0|]. by apply around_shared; [apply H0|]. }
  destruct p as [v s1]. destruct H1 as (H1 & E1 & L1). cbn [snd] in *.
  assert (Hu1 : used (conn s1 j) = true) by (by rewrite E1).
  assert (Hput : forall t2 g2, ooo t2 = ooo t0 -> used t2 = true -> pool_part g2 = pool_part (sh s1) -> around j s (put j t2 g2 s1)).
  { intros t2 g2 Eo Eu Eg. eapply around_trans; [exact H1|]. apply (around_fields j (conn s1 j)); [apply H1|by apply used_lookup|done|..];
      [congruence|congruence|done]. }
  destruct (v =? 0); [by apply Hput|]. set (t2 := t0 <| local_port := v |> <| remote_ip := _ |> <| remote_port := _ |> <| snd_una := _ |>
    <| snd_nxt := _ |> <| snd_wnd := _ |> <| state := _ |>).
  pose proof (send_seg_pool ip_output t2 (snd_nxt t2) TCP_SYN [] (sh s1)) as Hg.
  destruct (send_seg _ _ _ _ _ _) as [err g2]. destruct (err <? 0); by apply Hput.
Qed.
Lemma listen_around j port s : pool_ok s -> used (conn s j) = true -> around j s (tcp_listen j port s).2.
Proof.
  intros Hp Hu. unfold tcp_listen. destruct (other_listener _ _ _); [by split|]. by eapply around_fields; [|apply used_lookup|..].
Qed.

(** A segment for a listener: a new connection, or none. *)

(** A segment for a listener: a new connection, or none. *)
Lemma listen_input_ok src dst h o n j s : pool_ok s ->
  undisturbed s (listen_input ip_output random_u32 src dst h o n j s).
Proof.
  intros Hp. unfold listen_input.
  destruct (negb _); [apply undisturbed_shared; [done|apply send_rst_pool]|].
  pose proof (alloc_around s Hp) as Ha. destruct (tcp_alloc s) as [[k|] s1].
  2:{ eapply undisturbed_trans; [exact Ha|]. apply undisturbed_shared; [apply Ha|apply send_rst_pool]. }
  destruct Ha as (Hu & Hu1 & Eo & Ha). set (c0 := conn s1 k <| state := _ |> <| local_ip := _ |> <| local_port := _ |> <| remote_ip := _ |>
    <| remote_port := _ |> <| rcv_nxt := _ |> <| snd_una := _ |> <| snd_nxt := _ |> <| snd_wnd := _ |> <| listener := _ |>).
  pose proof (agree_opts_rcv o c0 (sh s1)) as Hag. set (c1 := agree_opts o c0 (sh s1)) in *.
  set (c2 := c1 <| keepalive := _ |> <| keep_idle_s := _ |> <| keep_intvl_s := _ |> <| keep_cnt := _ |> <| last_rcv := _ |>).
  pose proof (send_seg_pool ip_output c2 (snd_nxt c2) (Z.lor TCP_SYN TCP_ACK) [] (sh s1)) as Hg.
  destruct (send_seg _ _ _ _ _ _) as [err g2]. cbv zeta. apply (around_free k); [done|]. eapply around_trans; [exact Ha|].
  injection Hag as E1 _ _ _ _ _ E7 _ _ _ _ _.
  apply (around_fields k (conn s1 k)); [apply Ha|by apply used_lookup|done|exact E7|exact E1|done].
Qed.

(** ** Every call *)

Inductive call :=
  | Input (src dst : Z) (seg : list Z)
  | Timer
  | Alloc
  | Free (j : nat)
  | Connect (j : nat) (addr port : Z)
  | Listen (j : nat) (port : Z)
  | Accept (j : nat)
  | Send (j : nat) (data : list Z)
  | Recv (j : nat) (len : nat)
  | Close (j : nat)
  | Release (j : nat)
  | Tune (j : nat) (keep : bool) (idle intvl cnt port : Z)
  | Knobs (every mask : Z)
  | Elsewhere (clock : Z) (p : PMM.pmm).

(** A call, and the bytes it gives its caller. [Tune] is what the socket
    layer stores in a connection; [Elsewhere] what the rest of the kernel
    changes. *)
Definition do_call (c : call) (s : tcp) : tcp * list Z :=
  match c with
  | Input src dst seg => (tcp_input ip_output random_u32 src dst seg s, [])
  | Timer => (tcp_timer ip_output s, [])
  | Alloc => ((tcp_alloc s).2, [])
  | Free j => let '(t, g) := tcp_free (conn s j) (sh s) in (put j t g s, [])
  | Connect j addr port => ((tcp_connect ip_output random_u32 if_ip j addr port s).2, [])
  | Listen j port => ((tcp_listen j port s).2, [])
  | Accept j => ((tcp_accept j s).2, [])
  | Send j data => let '(_, t, g) := tcp_send ip_output data (conn s j) (sh s) in (put j t g s, [])
  | Recv j len => let '(_, out, t, g) := tcp_recv ip_output len (conn s j) (sh s) in (put j t g s, out)
  | Close j => let '(t, g) := tcp_close ip_output (conn s j) (sh s) in (put j t g s, [])
  | Release j => (tcp_release ip_output 2 j s, [])
  | Tune j keep idle intvl cnt port =>
      (put j (conn s j <| keepalive := keep |> <| keep_idle_s := idle |> <| keep_intvl_s := intvl |> <| keep_cnt := cnt |>
                <| local_port := port |>) (sh s) s, [])
  | Knobs every mask => (mk_tcp (conns s) (tcp_set_disabled mask (tcp_set_loss every (sh s))), [])
  | Elsewhere clock p => (mk_tcp (conns s) (sh s <| now := clock |> <| pages := p |>), [])
  end.
Definition subject (c : call) : option nat :=
  match c with
  | Free j | Connect j _ _ | Listen j _ | Accept j | Send j _ | Recv j _ | Close j | Release j | Tune j _ _ _ _ _ => Some j
  | _ => None
  end.
(** The caller has the connection it names. *)
Definition live (c : call) (s : tcp) : Prop := forall j, subject c = Some j -> used (conn s j) = true.

(** The segment passes the checks of tcp_input, and is for [i]. *)
Definition arrives (i : nat) (src dst : Z) (seg : list Z) (s : tcp) : Prop :=
  NET.net_checksum seg (pseudo_sum src dst (Z.of_nat (length seg))) = 0 /\
  find src (h_sport (header_of seg)) (h_dport (header_of seg)) s = Some i.

Section one.
Context (S : Z -> Z) (base total : Z) (i : nat).
(** What is asked of a call for the sake of connection [i], of which [out]
    was read: segments that reach it are honest, resets apart, and it is not
    opened again. *)
Definition allowed (c : call) (s : tcp) (out : list Z) : Prop :=
  live c s /\
  match c with
  | Input src dst seg => arrives i src dst seg s -> has (h_flags (header_of seg)) TCP_RST = false ->
      exists q, honest S base total (Z.of_nat (length out) + rcv_used (conn s i)) (conn s i) (header_of seg) (data_of seg) q
  | Connect j _ _ | Listen j _ => j <> i
  | _ => True
  end.
Definition heard (c : call) (out : list Z) : list Z := match c with Recv j _ => if (j =? i)%nat then out else [] | _ => [] end.

(** Runs of calls while connection [i] is there. *)
Inductive runs : tcp * list Z -> tcp * list Z -> Prop :=
  | runs_refl s out : runs (s, out) (s, out)
  | runs_call s0 out0 s out c : runs (s0, out0) (s, out) -> allowed c s out -> used (conn (do_call c s).1 i) = true ->
      runs (s0, out0) ((do_call c s).1, out ++ heard c (do_call c s).2).
End one.

Lemma find_used src sport dport s j : find src sport dport s = Some j -> used (conn s j) = true.
Proof.
  unfold find. destruct (find_idx _ (conns s)) as [k|] eqn:E.
  - intros [= <-]. apply find_idx_Some in E as [(t & Ht & H) _]. rewrite (conn_lookup s k t Ht). by destruct (used t).
  - intros E2. apply find_idx_Some in E2 as [(t & Ht & H) _]. rewrite (conn_lookup s j t Ht). by destruct (used t).
Qed.

(** What tcp_input does with a segment. *)
Lemma tcp_input_cases src dst seg s :
  tcp_input ip_output random_u32 src dst seg s = s \/
  (exists n, tcp_input ip_output random_u32 src dst seg s = mk_tcp (conns s) (send_rst ip_output src dst (header_of seg) n (sh s))) \/
  exists j, arrives j src dst seg s /\
    let o := parse_opts (sub seg (Z.to_nat TCP_HDR_LEN) (Z.to_nat (Z.shiftr (h_offset (header_of seg)) 4 * 4 - TCP_HDR_LEN))) in
    tcp_input ip_output random_u32 src dst seg s =
      if is_state (conn s j) LISTEN
      then listen_input ip_output random_u32 src dst (header_of seg) o (Z.of_nat (length (data_of seg))) j s
      else let '(t, g) := conn_input ip_output src dst (header_of seg) o (data_of seg) (conn s j) (sh s) in put j t g s.
Proof.
  unfold tcp_input. destruct (_ <? _); [by left|].
  destruct (Z.eqb_spec (NET.net_checksum seg (pseudo_sum src dst (Z.of_nat (length seg)))) 0) as [Ec|]; cbn [negb]; [|by left].
  destruct (_ || _); [by left|]. fold (data_of seg). destruct (find _ _ _ s) as [j|] eqn:Ef.
  - right. right. by exists j.
  - right. left. by eexists.
Qed.

Lemma input_pool src dst seg s : pool_ok s -> pool_ok (tcp_input ip_output random_u32 src dst seg s).
Proof.
  intros Hp. destruct (tcp_input_cases src dst seg s) as [->|[[n ->]|(j & [Hc Hf] & E)]]; [done| |].
  - apply undisturbed_shared; [done|apply send_rst_pool].
  - cbv zeta in E. rewrite E. set (o := parse_opts _). clearbody o. clear E. destruct (is_state _ _); [by apply listen_input_ok|].
    pose proof (find_used _ _ _ _ _ Hf) as Hu.
    pose proof (conn_input_kept ip_output src dst (header_of seg) o (data_of seg) (conn s j) (sh s)) as Hk.
    destruct (conn_input _ _ _ _ _ _ _ _) as [t g]. eapply pool_put_tidy; [done|by apply used_lookup|done|by left].
Qed.
Lemma recv_kept len t g : let '(_, _, t', g') := tcp_recv ip_output len t g in kept (t, g) (t', g').
Proof.
  unfold tcp_recv. assert (H : ooo (recv_loop len t).2 = ooo t /\ used (recv_loop len t).2 = used t).
  { revert t. induction len as [|len IH]; intros t; [done|]. cbn [recv_loop]. destruct (_ <? _); [|done].
    pose proof (IH (t <| rcvtail := (rcvtail t + 1) mod TCP_RCVBUF |>)) as H. by destruct (recv_loop len _) as [out t']. }
  destruct (recv_loop len t) as [[|b out] t']; cbn [snd] in H; destruct H as [E1 E2].
  - by apply same_kept.
  - apply same_kept; [done|done|apply send_ack_pool].
Qed.

(** Every call keeps the pool consistent. *)
Lemma call_pool c s : pool_ok s -> live c s -> pool_ok (do_call c s).1.
Proof.
  intros Hp Hl. assert (Hput : forall j t g, subject c = Some j -> tidy (conn s j, sh s) (t, g) -> pool_ok (put j t g s)).
  { intros j t g Hj Ht. eapply pool_put_tidy; [done|apply used_lookup, Hl, Hj|by apply Hl|done]. }
  assert (Hlt : forall j, subject c = Some j -> (j < TCP_MAX_CONNS)%nat).
  { intros j Hj. rewrite <- (po_conns _ Hp). eapply lookup_lt_Some, used_lookup, Hl, Hj. }
  destruct c as [src dst seg| | |j|j addr port|j port|j|j data|j len|j|j|j keep idle intvl cnt port|every mask|clock p];
    cbn [do_call fst].
  - by apply input_pool.
  - by apply timer_stays.
  - pose proof (alloc_around s Hp) as Ha. destruct (tcp_alloc s) as [[k|] s']; [|apply Ha]. destruct Ha as (_ & _ & _ & Ha). apply Ha.
  - pose proof (free_tidy (conn s j) (sh s)) as Ht. destruct (tcp_free _ _) as [t g]. by apply Hput.
  - apply connect_around; [done|by apply Hl].
  - apply listen_around; [done|by apply Hl].
  - by apply accept_stays.
  - pose proof (tcp_send_quiet ip_output data (conn s j) (sh s)) as Hq. destruct (tcp_send _ _ _ _) as [[r t] g].
    apply Hput; [done|left; by apply quiet_kept].
  - pose proof (recv_kept len (conn s j) (sh s)) as Hk. destruct (tcp_recv _ _ _ _) as [[[r out] t] g]. apply Hput; [done|by left].
  - pose proof (tcp_close_tidy ip_output (conn s j) (sh s)) as Hk. destruct (tcp_close _ _ _) as [t g]. by apply Hput.
  - apply release_stays; [done|by apply Hlt].
  - apply Hput; [done|]. left. by apply same_kept.
  - by apply undisturbed_shared.
  - by apply undisturbed_shared.
Qed.

Section one_proofs.
Context (S : Z -> Z) (base total : Z) (i : nat).
Notation watched := (watched S base total i).

Lemma input_watched src dst seg s out : pool_ok s -> watched s out -> allowed S base total i (Input src dst seg) s out ->
  watched (tcp_input ip_output random_u32 src dst seg s) out.
Proof.
  intros Hp Hw [_ Hh]. destruct (tcp_input_cases src dst seg s) as [->|[[n ->]|(j & Harr & E)]]; [done| |].
  - apply undisturbed_shared; [done|apply send_rst_pool|done].
  - cbv zeta in E. rewrite E. set (o := parse_opts _). clearbody o. clear E.
    pose proof (find_used _ _ _ _ _ (proj2 Harr)) as Hu. destruct (decide (j = i)) as [->|Hne].
    + assert (Hnl : is_state (conn s i) LISTEN = false).
      { destruct Hw as (_ & Ho & _). unfold is_state, opening in *. case_bool_decide as El; [by rewrite El in Ho|done]. }
      rewrite Hnl. pose proof (fun K q => conn_input_ok S base total ip_output K q src dst (header_of seg) o (data_of seg) (conn s i) (sh s)) as Hc.
      destruct (conn_input _ _ _ _ _ _ _ _) as [t g]. apply watched_self; [done|]. intros K HK ->.
      destruct (has (h_flags (header_of seg)) TCP_RST) eqn:Er.
      * apply (Hc _ 0 HK); [apply Hw|done].
      * destruct (Hh Harr eq_refl) as [q Hq]. apply (Hc _ q HK); [apply Hw|done].
    + destruct (is_state _ _); [by apply listen_input_ok|].
      pose proof (conn_input_kept ip_output src dst (header_of seg) o (data_of seg) (conn s j) (sh s)) as Hk.
      destruct (conn_input _ _ _ _ _ _ _ _) as [t g]. eapply watched_other; [done|by apply used_lookup|done|apply Hk|done].
Qed.
(** Reading moves the bytes of the ring to the reader. *)
Lemma recv_watched len s out : watched s out ->
  let '(r, got, t, g) := tcp_recv ip_output len (conn s i) (sh s) in
  watched (put i t g s) (out ++ got) /\
  (r = 0 -> (0 < len)%nat -> got = [] /\ Z.of_nat (length out) = total) /\
  (got <> [] -> r = Z.of_nat (length got)).
Proof.
  intros (Hu & Ho & Hi & Eo). pose proof (tcp_recv_ok S base total ip_output _ len _ _ Hi) as H.
  destruct (tcp_recv _ _ _ _) as [[[r got] t] g]. cbv zeta in H. set (n := Nat.min len _) in *.
  pose proof (rcv_used_range (conn s i)) as Hr.
  destruct H as (Eg & Eus & Hi' & Eop & Eu & Er). assert (Hn : length got = n) by (rewrite Eg; apply length_span).
  split; [|split].
  - unfold TCPSTACK.watched. rewrite conn_put_eq by (eapply lookup_lt_Some, used_lookup, Hu). rewrite length_app, Hn, Eus.
    split; [congruence|]. split; [congruence|]. split.
    + cbn [sh put]. by replace (Z.of_nat (length out + n) + (rcv_used (conn s i) - Z.of_nat n))
        with (Z.of_nat (length out) + rcv_used (conn s i)) by lia.
    + rewrite span_app, <- Eo, Eg. do 2 f_equal. lia.
  - intros -> Hlen. destruct (Nat.eqb_spec n 0) as [En|En]; [|lia].
    split; [by apply length_zero_iff_nil; rewrite Hn|]. unfold no_bytes, reset_error in Er.
    destruct (reset (conn s i)); [by destruct (timed_out _)|]. destruct (fin_rcvd (conn s i)) eqn:Ef; [|by destruct (is_state _ _)].
    pose proof (ri_fin _ _ _ _ _ _ _ Hi Ef). lia.
  - intros Hne. destruct (Nat.eqb_spec n 0) as [En|En]; [|by rewrite Hn]. rewrite En in Hn. by apply length_zero_iff_nil in Hn.
Qed.

Lemma call_watched c s out : pool_ok s -> watched s out -> allowed S base total i c s out -> used (conn (do_call c s).1 i) = true ->
  watched (do_call c s).1 (out ++ heard i c (do_call c s).2).
Proof.
  intros Hp Hw Hal. pose proof Hal as [Hl Hc].
  assert (Hst : forall s', stays s s' -> used (conn s' i) = true -> watched s' (out ++ [])).
  { intros s' Hs Hu. rewrite app_nil_r. by apply (st_watch _ _ Hs). }
  assert (Hund : forall s', undisturbed s s' -> watched s' (out ++ [])) by (intros s' Hs; rewrite app_nil_r; by apply Hs).
  assert (Hlt : forall j, subject c = Some j -> (j < TCP_MAX_CONNS)%nat).
  { intros j Hj. rewrite <- (po_conns _ Hp). eapply lookup_lt_Some, used_lookup, Hl, Hj. }
  assert (Hs : forall j, subject c = Some j -> conns s !! j = Some (conn s j) /\ used (conn s j) = true).
  { intros j Hj. split; [apply used_lookup|]; by apply Hl. }
  destruct c as [src dst seg| | |j|j addr port|j port|j|j data|j len|j|j|j keep idle intvl cnt port|every mask|clock p];
    cbn [do_call fst snd heard].
  - intros _. rewrite app_nil_r. by apply input_watched.
  - apply Hst. by apply timer_stays.
  - intros _. pose proof (alloc_around s Hp) as Ha. destruct (tcp_alloc s) as [[k|] s']; apply Hund; [|done].
    destruct Ha as (Hu & _ & _ & Ha). by eapply around_free.
  - destruct (Hs j eq_refl) as [Hj Hu]. pose proof (tcp_free_pooled (conn s j) (sh s)) as (Ht & Hf & _). destruct (tcp_free _ _) as [t g].
    cbn [fst snd]. intros Hu'. rewrite app_nil_r. destruct (decide (j = i)) as [->|Hne].
    + rewrite conn_put_eq in Hu' by (by eapply lookup_lt_Some). cbn [fst] in Hf. congruence.
    + by eapply watched_other.
  - intros _. rewrite app_nil_r. apply connect_around; [done|by apply Hl|congruence|done].
  - intros _. rewrite app_nil_r. apply listen_around; [done|by apply Hl|congruence|done].
  - apply Hst. by apply accept_stays.
  - destruct (Hs j eq_refl) as [Hj Hu]. pose proof (send_stays j data s Hp Hu) as H. destruct (tcp_send _ _ _ _) as [[r t] g]. by apply Hst.
  - destruct (Hs j eq_refl) as [Hj Hu]. destruct (Nat.eqb_spec j i) as [->|Hne].
    + pose proof (recv_watched len s out Hw) as H. destruct (tcp_recv _ _ _ _) as [[[r got] t] g]. intros _. apply H.
    + pose proof (recv_kept len (conn s j) (sh s)) as Hk. destruct (tcp_recv _ _ _ _) as [[[r got] t] g]. intros _.
      rewrite app_nil_r. eapply watched_other; [done|exact Hj|done|apply Hk|done].
  - destruct (Hs j eq_refl) as [Hj Hu]. pose proof (close_stays j _ s Hp Hj) as H. destruct (tcp_close _ _ _) as [t g]. by apply Hst.
  - apply Hst. apply release_stays; [done|by apply Hlt].
  - apply Hst. destruct (Hs j eq_refl) as [Hj Hu]. by apply (stays_fields j (conn s j)).
  - intros _. apply Hund. by apply undisturbed_shared.
  - intros _. apply Hund. by apply undisturbed_shared.
Qed.
End one_proofs.

(** Everything a run of calls can reach. *)
Inductive reachable : tcp -> Prop :=
  | reachable_init s : length (ooo_pool (sh s)) = TCP_OOO_SLOTS -> ooo_used (sh s) = replicate TCP_OOO_SLOTS false ->
      reachable (tcp_init s)
  | reachable_call c s : reachable s -> live c s -> reachable (do_call c s).1.
Lemma reachable_pool s : reachable s -> pool_ok s.
Proof. induction 1; [by apply pool_init|by apply call_pool]. Qed.

(** A connection that is open and has received nothing. *)
Record starts (base : Z) (t : tcpcb) : Prop := {
  sa_used : used t = true;
  sa_open : opening t = false;
  sa_nxt : rcv_nxt t = u32 base;
  sa_ring : rcvhead t = 0 /\ rcvtail t = 0;
  sa_fin : fin_rcvd t = false;
  sa_held : Forall (fun o => o_used o = false) (ooo t) }.
Lemma starts_watched S base total i s : pool_ok s -> starts base (conn s i) -> 0 <= total -> watched S base total i s [].
Proof.
  intros Hp [A B C [D1 D2] E F] Ht. assert (Hu : rcv_used (conn s i) = 0) by (unfold rcv_used; by rewrite D1, D2).
  unfold watched. rewrite Hu. split; [done|]. split; [done|]. split; [|done]. constructor.
  - done.
  - by rewrite C, E, Z.add_0_r.
  - congruence.
  - constructor; rewrite ?D1, ?D2, ?Hu; [done|done|]. intros j Hj. lia.
  - apply (po_slots _ Hp i). by apply used_lookup.
  - intros j o Ho Huo. rewrite Forall_lookup in F. by rewrite (F j o Ho) in Huo.
Qed.
Lemma runs_watched S base total i c c' : runs S base total i c c' -> pool_ok c.1 -> watched S base total i c.1 c.2 ->
  pool_ok c'.1 /\ watched S base total i c'.1 c'.2.
Proof.
  induction 1 as [|s0 out0 s out c _ IH Ha Hu]; [done|]. intros Hp Hw. cbn [fst snd] in *. destruct (IH Hp Hw) as [Hp' Hw'].
  split; [apply call_pool; [done|apply Ha]|by apply call_watched].
Qed.

(** C37: Whatever calls are made and whatever segments arrive, each slot of
    the pool of held segments that is marked is held by exactly one entry of
    one connection, and a connection that is free holds none: no slot is
    lost or shared. *)
Theorem tcp_pool_consistent s : reachable s -> pool_ok s.
Proof. apply reachable_pool. Qed.


(** When a read with room for bytes returns 0, the end of the file, the
    program has been given the whole of the stream. *)
Theorem tcp_eof_is_the_end S base total i s s' out len : reachable s -> starts base (conn s i) -> 0 <= total ->
  runs S base total i (s, []) (s', out) -> (0 < len)%nat ->
  (tcp_recv ip_output len (conn s' i) (sh s')).1.1.1 = 0 -> Z.of_nat (length out) = total.
Proof.
  intros Hr Hs Ht Hru Hlen. pose proof (reachable_pool s Hr) as Hp.
  destruct (runs_watched S base total i _ _ Hru Hp (starts_watched S base total i s Hp Hs Ht)) as [_ Hw].
  cbn [fst snd] in Hw. pose proof (recv_watched S base total i len s' out Hw) as H.
  destruct (tcp_recv _ _ _ _) as [[[r got] t] g]. cbn [fst]. intros ->. destruct H as (_ & H & _). by apply H.
Qed.
End calls.

(** ** A connection from its first segment to its last *)

Definition four_thousand (g : shared) : Z := 4000.
Definition pool80 : PMM.pmm := PMM.pmm_init 1048576 1376256 PMM.blank.
Definition boot : tcp :=
  tcp_init (mk_tcp [] (mk_shared (replicate TCP_OOO_SLOTS []) (replicate TCP_OOO_SLOTS false) 0 0 0 0 32768 pool80 1000 [])).
Definition here : Z := 167772161.
Definition peer : Z := 167772162.
(** A segment of the peer with sequence number 5000 + [q]. *)
Definition from_peer (q flags : Z) (data : list Z) : list Z :=
  segment peer here (mk_tcphdr 80 32768 (5000 + q) 68001 80 flags 1000) [] data.
Definition step_of := do_call out_ok four_thousand here.
Definition s_open : tcp :=
  (step_of (Input peer here (from_peer (-1) 18 []))
     (step_of (Connect 0 peer 80) (step_of Alloc boot).1).1).1.
Definition hello (k : Z) : Z := default 0 ([104; 101; 108; 108; 111] !! Z.to_nat k).
Lemma live_none c s : subject c = None -> live c s.
Proof. intros E j. congruence. Qed.
Lemma s_open_reachable : reachable out_ok four_thousand here s_open.
Proof.
  unfold s_open. apply reachable_call; [|by apply live_none]. apply reachable_call.
  - apply reachable_call; [|by apply live_none]. by apply reachable_init.
  - intros j [= <-]. by vm_compute.
Qed.
Lemma s_open_starts : starts 5000 (conn s_open 0).
Proof.
  assert (E : ooo (conn s_open 0) = replicate TCP_OOO_PER_CB no_held) by (by vm_compute).
  apply Build_starts; [vm_compute; reflexivity|vm_compute; reflexivity|vm_compute; reflexivity|vm_compute; split; reflexivity|
    vm_compute; reflexivity|]. rewrite E. by apply Forall_replicate.
Qed.

(** The second half arrives first; the FIN last. *)
Definition s_late : tcp := (step_of (Input peer here (from_peer 3 24 [108; 111])) s_open).1.
Definition s_all : tcp := (step_of (Input peer here (from_peer 0 24 [104; 101; 108])) s_late).1.
Definition s_fin : tcp := (step_of (Input peer here (from_peer 5 17 [])) s_all).1.
Definition s_read : tcp := (step_of (Recv 0 10) s_fin).1.

Lemma peer_allowed q flags data s u out : rcv_used (conn s 0) = u ->
  let seg := from_peer q flags data in
  header_of seg = mk_tcphdr 80 32768 (u32 (5000 + q)) 68001 80 flags 1000 -> data_of seg = data ->
  data = span hello q (length data) -> 0 <= q -> q + Z.of_nat (length data) <= 5 -> Z.of_nat (length out) + u <= 5 -> 0 <= u ->
  (has flags TCP_FIN = true -> q = 5 /\ data = []) ->
  allowed hello 5000 5 0 (Input peer here seg) s out.
Proof.
  intros Eu seg Eh Ed Esp Hq Hl Hu Hu0 Hf. split; [by apply live_none|]. intros _ _. exists q. rewrite Eh, Ed, Eu.
  split; [intros _; constructor; [done|lia|lia|done]|]. cbn [h_flags h_seq]. intros HF. destruct (Hf HF) as [-> ->].
  split; [done|]. split; [unfold near; lia|]. split; [done|by left].
Qed.
Definition hello_run := runs out_ok four_thousand here hello 5000 5 0 (s_open, []).
Lemma hello_step c s s' out got : hello_run (s, out) -> s' = (step_of c s).1 -> allowed hello 5000 5 0 c s out ->
  used (conn s' 0) = true -> heard 0 c (step_of c s).2 = got -> hello_run (s', out ++ got).
Proof. intros H -> Ha Hu <-. by apply runs_call. Qed.
Lemma hello_late : hello_run (s_late, []).
Proof.
  apply (hello_step (Input peer here (from_peer 3 24 [108; 111])) s_open s_late [] []); [constructor|reflexivity| |vm_compute; reflexivity|reflexivity].
  apply (peer_allowed 3 24 [108; 111] s_open 0); try (vm_compute; done); lia || (vm_compute; congruence).
Qed.
Lemma hello_all : hello_run (s_all, []).
Proof.
  apply (hello_step (Input peer here (from_peer 0 24 [104; 101; 108])) s_late s_all [] []); [apply hello_late|reflexivity| |vm_compute; reflexivity|reflexivity].
  apply (peer_allowed 0 24 [104; 101; 108] s_late 0); try (vm_compute; done); lia || (vm_compute; congruence).
Qed.
Lemma hello_fin : hello_run (s_fin, []).
Proof.
  apply (hello_step (Input peer here (from_peer 5 17 [])) s_all s_fin [] []); [apply hello_all|reflexivity| |vm_compute; reflexivity|reflexivity].
  apply (peer_allowed 5 17 [] s_all 5); try (vm_compute; done); lia || (vm_compute; congruence).
Qed.
Lemma hello_runs : runs out_ok four_thousand here hello 5000 5 0 (s_open, []) (s_read, [104; 101; 108; 108; 111]).
Proof.
  apply (hello_step (Recv 0 10) s_fin s_read [] [104; 101; 108; 108; 111]); [apply hello_fin|reflexivity| |vm_compute; reflexivity|vm_compute; reflexivity].
  split; [|done]. intros j [= <-]. vm_compute. reflexivity.
Qed.
Lemma tcp_pool_consistent_witness : pool_ok s_open.
Proof. exact (tcp_pool_consistent out_ok four_thousand here s_open s_open_reachable). Defined.
Lemma tcp_eof_is_the_end_witness : Z.of_nat (length [104; 101; 108; 108; 111]) = 5.
Proof.
  assert (E : (tcp_recv out_ok 1 (conn s_read 0) (sh s_read)).1.1.1 = 0) by (by vm_compute).
  exact (tcp_eof_is_the_end out_ok four_thousand here hello 5000 5 0 s_open s_read [104; 101; 108; 108; 111] 1
    s_open_reachable s_open_starts ltac:(done) hello_runs ltac:(lia) E).
Defined.
End TCPSTACK.
