(* ===== verification/Tcplink.v ===== *)
(** * TCP: two ends (kernel/net/tcp.c)

    Two connections of this stack, each other's peer, over a network that
    loses, delays, repeats and reorders what IP takes. What one program
    reads is a prefix of what the other wrote, in both directions at once. *)

From S2P Require Import Prelude Pmm Route Net Tcp Tcprecv Tcpseg Tcpsend Tcpstack.
Local Open Scope Z_scope.

Module TCPLINK.
Import TCP TCPRECV TCPSEG TCPSEND.

(** ** When a FIN counts *)
Section fins.
Context (ip_output : Z -> list Z -> shared -> Z).

Lemma quiet_fin p p' : quiet p p' -> fin_rcvd p'.1 = fin_rcvd p.1.
Proof. intros [E _]. by injection E. Qed.
Lemma rcv_put_fin bs t : fin_rcvd (rcv_put bs t) = fin_rcvd t.
Proof. revert t. induction bs as [|b bs IH]; intros t; [done|]. cbn [rcv_put]. destruct (_ <? _); [exact (IH _)|done]. Qed.
Lemma ooo_release_fin i t g : fin_rcvd (ooo_release i t g).1 = fin_rcvd t.
Proof. unfold ooo_release. destruct (ooo t !! i) as [o|]; [|done]. by destruct (o_used o). Qed.
Lemma drain_one_fin i t g b : fin_rcvd (drain_one i (t, g, b)).1.1 = fin_rcvd t.
Proof.
  unfold drain_one. destruct (ooo t !! i) as [h|]; [|done]. destruct (_ && _); [|done].
  set (t1 := if _ <? o_len h then _ else t).
  assert (H1 : fin_rcvd t1 = fin_rcvd t).
  { unfold t1. destruct (_ <? _); [|done]. match goal with |- fin_rcvd (?x <| rcv_nxt := _ |>) = _ => exact (rcv_put_fin _ t) end. }
  pose proof (ooo_release_fin i t1 g) as H2. destruct (ooo_release i t1 g) as [t2 g2]. cbn [fst] in *. congruence.
Qed.
Lemma drain_fin fuel t g : fin_rcvd (drain fuel t g).1 = fin_rcvd t.
Proof.
  revert t g. induction fuel as [|fuel IH]; intros t g; [done|]. cbn [drain].
  assert (H : fin_rcvd (for_upto TCP_OOO_PER_CB drain_one (t, g, false)).1.1 = fin_rcvd t).
  { apply (for_upto_ind (fun _ s => fin_rcvd s.1.1 = fin_rcvd t)); [done|].
    intros k [[t1 g1] b1] _ H1. pose proof (drain_one_fin k t1 g1 b1) as H2. cbn [fst] in *. congruence. }
  destruct (for_upto _ _ _) as [[t1 g1] b1]. cbn [fst] in H. destruct b1; [|done]. by rewrite IH.
Qed.
Lemma data_input_fin h data t g : fin_rcvd (data_input ip_output h data t g).1 = fin_rcvd t.
Proof.
  unfold data_input. destruct (0 <? _); [|by destruct (_ && _)]. unfold take_data. destruct (_ =? _).
  - cbv zeta. set (n := if _ <? _ then _ else _). set (t1 := rcv_put (firstn (Z.to_nat n) data) t <| rcv_nxt := _ |>).
    assert (E1 : fin_rcvd t1 = fin_rcvd t) by exact (rcv_put_fin (firstn (Z.to_nat n) data) t).
    pose proof (drain_fin (S TCP_OOO_PER_CB) t1 g) as E2. destruct (drain _ t1 g) as [t2 g2]. cbn [fst] in E2. rewrite <- E1, <- E2.
    destruct (2 <=? _); [done|]. by destruct (_ =? 0).
  - destruct (seq_gt _ _); [|done]. destruct (ooo_queue_cases (h_seq h) data t g) as [->|(i & slot & x & _ & _ & _ & _ & ->)]; done.
Qed.
(** A FIN is received from a segment that has one. *)
Lemma conn_input_fin src dst h o data t g : synced t ->
  fin_rcvd (conn_input ip_output src dst h o data t g).1 = true -> fin_rcvd t = true \/ has (h_flags h) TCP_FIN = true.
Proof.
  intros Hy. destruct (has (h_flags h) TCP_FIN) eqn:Ef; [by right|]. intros H. left. rewrite <- H. symmetry. clear H.
  unfold conn_input. destruct (has (h_flags h) TCP_RST); [by destruct (is_state _ _)|].
  assert (Ey : is_state t SYN_SENT = false) by (unfold is_state, synced in *; case_bool_decide as E; [by rewrite E in Hy|done]).
  rewrite Ey. destruct (negb _); [done|]. destruct (_ && _ && _ && _); [done|].
  set (t0 := if _ && _ then _ else t). assert (E0 : fin_rcvd t0 = fin_rcvd t) by (unfold t0; by destruct (_ && _)). clearbody t0.
  unfold ack_input. set (wnd := u32 _). set (t1 := t0 <| last_rcv := _ |> <| keep_probes := _ |> <| snd_wnd := _ |> <| max_snd_wnd := _ |>).
  destruct (_ && _); [exact E0|]. set (t2 := if is_state t1 SYN_RECEIVED then _ else t1).
  assert (E2 : fin_rcvd t2 = fin_rcvd t) by (unfold t2; destruct (is_state t1 SYN_RECEIVED); exact E0). clearbody t2.
  pose proof (quiet_fin _ _ (ack_sent_data_quiet ip_output (h_ack h) (Z.of_nat (length data)) wnd o t2 g)) as E3.
  destruct (ack_sent_data _ _ _ _ _ _ _) as [t3 g3]. cbn [fst] in E3.
  pose proof (data_input_fin h data t3 g3) as E4. destruct (data_input _ _ _ _ _) as [t4 g4]. cbn [fst] in E4.
  unfold fin_input. rewrite Ef. cbn [andb]. rewrite (quiet_fin _ _ (send_data_quiet ip_output (fin_acked t4 g4) g4)). cbn [fst].
  transitivity (fin_rcvd t4); [|congruence]. unfold fin_acked. destruct (_ && _); [|done]. destruct (state t4); try done.
  by destruct (fin_rcvd t4) eqn:E5.
Qed.
Lemma timer_one_fin t g : used (timer_one ip_output t g).1 = true -> fin_rcvd (timer_one ip_output t g).1 = fin_rcvd t.
Proof.
  unfold timer_one. destruct (negb _); [done|]. destruct (orphan t && _). { unfold tcp_free. by destruct (ooo_flush t g) as [t1 g1]. }
  intros _. destruct (is_state t TIME_WAIT); [by destruct (reached _ _)|].
  pose proof (keep_timer_quiet ip_output t g) as Hk. destruct (keep_timer _ t g) as [[dead t1] g1]. pose proof (quiet_fin _ _ Hk) as E1. cbn [fst] in E1.
  destruct dead; [exact E1|]. set (p := if _ && _ then _ else (t1, g1)).
  assert (E2 : fin_rcvd p.1 = fin_rcvd t) by (unfold p; destruct (_ && _); exact E1). destruct p as [t2 g2]. cbn [fst] in E2. clear - E2.
  unfold rexmit_timer. destruct (_ || _); [done|]. set (t3 := t2 <| rexmits := _ |>). destruct (_ <? _); [exact E2|].
  set (t4 := cwnd_on_loss true t3 <| rtt_timing := false |>). set (t5 := t4 <| rto_ms := _ |>). set (t6 := t5 <| rexmit_at := _ |>).
  set (t7 := t6 <| snd_nxt := _ |>).
  pose proof (quiet_fin _ _ (send_data_quiet ip_output t7 g2)) as H7. change (fin_rcvd (t7, g2).1) with (fin_rcvd t2) in H7.
  destruct (state t6); first [exact E2|by rewrite H7].
Qed.
Lemma close_fin t g : synced t -> used (tcp_close ip_output t g).1 = true -> fin_rcvd (tcp_close ip_output t g).1 = fin_rcvd t.
Proof.
  intros Hy. unfold tcp_close.
  assert (Hd : forall x, fin_rcvd (send_data ip_output (t <| state := x |> <| fin_pending := true |>) g).1 = fin_rcvd t).
  { intros x. by rewrite (quiet_fin _ _ (send_data_quiet ip_output (t <| state := x |> <| fin_pending := true |>) g)). }
  unfold synced in Hy. destruct (state t); try done; first [intros _; apply Hd|unfold tcp_free; by destruct (ooo_flush _ g) as [t1 g1]].
Qed.
End fins.

(** ** What a receiver says *)

(** Of the peer's stream, of which [N] bytes are written and, with [F], the
    FIN was sent: it acknowledges and reports nothing beyond. *)
Definition of_stream (sb N : Z) (F : bool) (ack : Z) (blocks : list (Z * Z)) : Prop :=
  (exists a, ack = pos sb a /\ 0 <= a <= N + Z.b2z F) /\ Forall (in_stream sb N) blocks.
Lemma of_stream_more sb N N' (F F' : bool) ack bl : N <= N' -> (F = true -> F' = true) -> of_stream sb N F ack bl -> of_stream sb N' F' ack bl.
Proof.
  intros HN HF [(a & Ea & Ha) Hb]. split.
  - exists a. split; [done|]. destruct F; [rewrite HF by done|destruct F']; cbn in *; lia.
  - eapply Forall_impl; [exact Hb|]. intros b (x & y & E & Hx & Hy). exists x, y. split; [done|]. lia.
Qed.

Section reports.
Context (sb N : Z).
Definition run_in (r : run) : Prop := let '(st, en, _) := r in in_stream sb N (st, en).
Lemma merge_into_in r b : run_in r -> run_in b -> run_in (merge_into r b).
Proof.
  destruct r as [[st en] wh], b as [[bs be] bw]. intros (x & y & E & Hx & Hy) (a & c & E' & Ha & Hc). injection E as -> ->. injection E' as -> ->.
  unfold run_in, merge_into. destruct (seq_gt _ _), (seq_gt _ _); [exists x, y|exists x, c|exists a, y|exists a, c]; done.
Qed.
Lemma add_run_in r bl : run_in r -> Forall run_in bl -> Forall run_in (add_run r bl).
Proof.
  intros Hr. induction 1 as [|b bl Hb Hbl IH]; cbn [add_run]; [by constructor|]. destruct (touches r b); constructor; try done. by apply merge_into_in.
Qed.
Lemma merge_runs_in fuel i j bl : Forall run_in bl -> Forall run_in (merge_runs fuel i j bl).
Proof.
  revert i j bl. induction fuel as [|fuel IH]; intros i j bl Hb; [done|]. cbn [merge_runs].
  destruct (_ <=? _)%nat; [done|]. destruct (_ <=? _)%nat; [by apply IH|].
  destruct (bl !! i) as [bi|] eqn:Ei; [|done]. destruct (bl !! j) as [bj|] eqn:Ej; [|done]. destruct (touches bj bi); [|by apply IH].
  apply IH, Forall_take. pose proof (Forall_lookup_1 _ _ _ _ Hb Ei) as Hi. pose proof (Forall_lookup_1 _ _ _ _ Hb Ej) as Hj.
  assert (H1 : Forall run_in (<[i:=merge_into bj bi]> bl)) by (apply Forall_insert; [done|by apply merge_into_in]).
  destruct (<[i:=merge_into bj bi]> bl !! _) as [l|] eqn:El; [|done]. apply Forall_insert; [done|]. by eapply Forall_lookup_1.
Qed.
Lemma sack_blocks_in t max :
  (forall o, o ∈ ooo t -> o_used o = true -> in_stream sb N (o_seq o, u32 (o_seq o + o_len o))) -> Forall (in_stream sb N) (sack_blocks t max).
Proof.
  intros Ho. unfold sack_blocks. set (bl := merge_runs _ _ _ _).
  assert (Hb : Forall run_in bl).
  { apply merge_runs_in. unfold runs_of. assert (H : forall os acc, (forall o, o ∈ os -> o ∈ ooo t) -> Forall run_in acc ->
      Forall run_in (foldl (fun blk o => if o_used o then add_run (o_seq o, u32 (o_seq o + o_len o), o_when o) blk else blk) acc os)).
    { induction os as [|o os IH]; intros acc Hin Hacc; [done|]. cbn [foldl]. apply IH; [intros; apply Hin; by right|].
      destruct (o_used o) eqn:Eu; [|done]. apply add_run_in; [|done]. apply Ho; [apply Hin; by left|done]. }
    apply H; [done|constructor]. }
  clearbody bl. apply Forall_take, Forall_app. split.
  - destruct (bl !! latest bl) as [[[st en] wh]|] eqn:El; [|constructor]. constructor; [|constructor]. exact (Forall_lookup_1 _ _ _ _ Hb El).
  - apply Forall_forall. intros b Hin. apply list_elem_of_omap in Hin as ([i [[st en] wh]] & Hin & E). destruct (_ =? _)%nat; [done|].
    injection E as <-. apply elem_of_lookup_imap in Hin as (k & x & E & Hk). injection E as -> <-. exact (Forall_lookup_1 _ _ _ _ Hb Hk).
Qed.
End reports.

(** A receiver of [K] bytes speaks of the stream. *)
Lemma recv_speaks W sb N F lo K t g : recv_inv W sb N lo K t g -> -1 <= lo -> (fin_rcvd t = true -> F = true) -> N < 1073741824 ->
  speaks (of_stream sb N F) t.
Proof.
  intros Hi Hlo HF HN max. pose proof (ri_K _ _ _ _ _ _ _ Hi) as HK. split.
  - exists (K + Z.b2z (fin_rcvd t)). rewrite (ri_nxt _ _ _ _ _ _ _ Hi). split; [by apply (u32_pos sb)|].
    destruct (fin_rcvd t); [rewrite HF by done|destruct F]; cbn; lia.
  - apply Forall_fmap. eapply Forall_impl; [apply (sack_blocks_in sb N)|].
    + intros o Ho Hu. apply list_elem_of_lookup in Ho as [i Ho]. destruct (ri_held _ _ _ _ _ _ _ Hi i o Ho Hu) as (q & Q1 & Q2 & Q3 & Q4 & Q5 & _).
      exists q, (q + o_len o). rewrite Q1. split; [f_equal; apply pos_add|lia].
    + intros b (x & y & -> & Hx & Hy). exists x, y. split; [|done]. unfold wide. cbn [fst snd]. by rewrite !u32_pos.
Qed.

(** The peer wrote more. *)
Lemma recv_inv_more W sb N N' lo K t g : recv_inv W sb N lo K t g -> N <= N' -> (fin_rcvd t = true -> N' = N) -> recv_inv W sb N' lo K t g.
Proof.
  intros [A B C D E F] HN HF. constructor; try done; [lia|intros Hf; rewrite HF by done; auto|].
  intros i o Ho Hu. destruct (F i o Ho Hu) as (q & Q1 & Q2 & Q3 & Q4 & Q5). exists q. do 3 (split; [done|]). split; [lia|done].
Qed.
Lemma sender_more sb W (V V' : Z -> list (Z * Z) -> Prop) N t : (forall a b, V a b -> V' a b) -> sender sb W V N t -> sender sb W V' N t.
Proof.
  intros HV (A & U & X & M & [S1 S2 S3 S4 S5 S6 S7 S8 S9 S10 S11 S12 S13 S14]). exists A, U, X, M. constructor; try done.
  intros max. apply HV, S14.
Qed.
Lemma carries_of sb W (V V' : Z -> list (Z * Z) -> Prop) N F p : (forall a b, V a b -> V' a b) -> carries sb W V N F p -> carries sb W V' N F p.
Proof. intros HV [A B C D]. constructor; try done. by apply HV. Qed.

(** ** The link *)

(** One end: its connection, what its host's stack shares, what its program
    wrote and read, and what was handed to IP. *)
Record side := mk_side { cb : tcpcb; host : shared; written : list Z; heard : list Z; log : list (Z * Z * list Z) }.
Section link.
Context (ip_output : Z -> list Z -> shared -> Z).

Definition segment_event (src dst : Z) (p : Z * Z * list Z) : event :=
  Segment src dst (header_of p.2) (parse_opts (opts_of p.2)) (data_of p.2).
Definition read_by (e : event) (t : tcpcb) (g : shared) : list Z :=
  match e with Read len => let '(_, out, _, _) := tcp_recv ip_output len t g in out | _ => [] end.
(** What an event does to one end. *)
Definition happens (e : event) (x : side) : side :=
  let '(acc, t, g) := act ip_output e (cb x) (host x) in
  mk_side t g (written x ++ acc) (heard x ++ read_by e (cb x) (host x)) (log x ++ drop (length (sent (host x))) (sent g)).
(** The rest of the host leaves alone the slots the connection holds. *)
Definition spared (t : tcpcb) (g g' : shared) : Prop :=
  slots_ok t g' /\ forall k, holds t k -> ooo_pool g' !! k = ooo_pool g !! k.

(** A reset from anybody, a segment that acknowledges nothing, or a late one
    of the handshake, [sb] being the number of the first byte. *)
Definition stray (sb : Z) (h : tcphdr) (o : tcpopts) (data : list Z) : Prop :=
  has (h_flags h) TCP_RST = true \/
  (has (h_flags h) TCP_FIN = false /\ data = [] /\ (has (h_flags h) TCP_ACK = true -> h_ack h = u32 sb /\ p_sack o = [])).

(** [x] acts, [y] being the other end: a segment of [y] that IP took may
    arrive at any time, any number of times. *)
Inductive acts (sb : Z) (y x : side) : side -> Prop :=
  | acts_deliver k p src dst : log y !! k = Some p -> p.1.2 = 0 -> acts sb y x (happens (segment_event src dst p) x)
  | acts_local e : match e with Segment _ _ h o data => stray sb h o data | _ => True end -> acts sb y x (happens e x)
  | acts_others g : spared (cb x) (host x) g -> acts sb y x (mk_side (cb x) g (written x) (heard x) (log x)).
(** An end whose handshake is over. *)
Record fresh_end (sb sb' : Z) (x : side) : Prop := {
  fe_opened : opened sb (cb x);
  fe_starts : TCPSTACK.starts sb' (cb x);
  fe_slots : slots_ok (cb x) (host x);
  fe_none : written x = [] /\ heard x = [] /\ log x = [] }.
Section joined.
Context (sbl sbr : Z).
Inductive link : side -> side -> Prop :=
  | link_open x y : fresh_end sbl sbr x -> fresh_end sbr sbl y -> link x y
  | link_left x y x' : link x y -> acts sbl y x x' -> used (cb x') = true -> link x' y
  | link_right x y y' : link x y -> acts sbr x y y' -> used (cb y') = true -> link x y'.
End joined.

(** *** The invariant *)

(** [x], whose stream [W] starts at [sb], when [N] bytes of the other
    stream [W'], which starts at [sb'], are written and its FIN sent if
    [F]. *)
Definition arrived (x : side) : Z := Z.of_nat (length (heard x)) + rcv_used (cb x).
Definition total (x : side) : Z := Z.of_nat (length (written x)).
Record end_ok (W W' : Z -> Z) (sb sb' N : Z) (F : bool) (x : side) : Prop := {
  en_synced : synced (cb x);
  en_sender : sender sb W (of_stream sb' N F) (total x) (cb x);
  en_log : Forall (carries sb W (of_stream sb' N F) (total x) (fin_sent (cb x))) (log x);
  en_recv : recv_inv W' sb' N (arrived x) (arrived x) (cb x) (host x);
  en_heard : heard x = span W' 0 (length (heard x));
  en_fin : fin_rcvd (cb x) = true -> F = true }.
Lemma synced_opening t : synced t -> opening t = false.
Proof. unfold synced, opening. by destruct (state t). Qed.

Section pair.
Context (W W' : Z -> Z) (sb sb' : Z).

(** The other end goes on. *)
Lemma end_more N N' (F F' : bool) x : N <= N' -> (F = true -> F' = true /\ N' = N) -> end_ok W W' sb sb' N F x -> end_ok W W' sb sb' N' F' x.
Proof.
  intros HN HF [A B C D E G]. assert (HV : forall a b, of_stream sb' N F a b -> of_stream sb' N' F' a b).
  { intros a b. apply of_stream_more; [done|]. intros H. by apply HF. }
  constructor; try done.
  - by apply (sender_more _ _ _ _ _ _ HV).
  - eapply Forall_impl; [exact C|]. intros p. by apply carries_of.
  - apply (recv_inv_more _ _ N); [done|done|]. intros H. by apply HF, G.
  - intros H. by apply HF, G.
Qed.
Lemma fresh_end_ok x : fresh_end sb sb' x -> end_ok W W' sb sb' 0 false x.
Proof.
  intros [A [B1 B2 B3 [B4 B5] B6 B7] C (D1 & D2 & D3)].
  assert (Hu : rcv_used (cb x) = 0) by (unfold rcv_used; by rewrite B4, B5).
  assert (HR : recv_inv W' sb' 0 0 0 (cb x) (host x)).
  { constructor; try done.
    - by rewrite B3, B6, Z.add_0_r.
    - constructor; rewrite ?B4, ?B5, ?Hu; [done|done|]. intros j Hj. lia.
    - intros j o Ho Huo. rewrite Forall_lookup in B7. by rewrite (B7 j o Ho) in Huo. }
  assert (HF : fin_rcvd (cb x) = true -> false = true) by (rewrite B6; done).
  unfold total, arrived. constructor; unfold total, arrived; rewrite ?D1, ?D2, ?D3, ?Hu; try done; [apply A|].
  apply opened_sender; [done|]. by eapply recv_speaks.
Qed.

(** *** What arrives *)

Record comes (N : Z) (F : bool) (x : side) (h : tcphdr) (o : tcpopts) (data : list Z) : Prop := {
  co_honest : exists q, honest W' sb' N (arrived x) (cb x) h data q;
  co_fin : has (h_flags h) TCP_FIN = true -> F = true;
  co_peer : has (h_flags h) TCP_ACK = true -> peer_ok sb (total x) (cb x) h o }.
Lemma carried_comes N F x p : end_ok W W' sb sb' N F x -> N < 1073741824 -> 
  carries sb' W' (of_stream sb (total x) (fin_sent (cb x))) N F p -> p.1.2 = 0 ->
  comes N F x (header_of p.2) (parse_opts (opts_of p.2)) (data_of p.2).
Proof.
  intros Hx HN [C1 C2 C3 C4] Hp. pose proof (ri_K _ _ _ _ _ _ _ (en_recv _ _ _ _ _ _ _ Hx)) as HK. constructor.
  - destruct C3 as [Ed|(q & D1 & D2 & D3 & D4)].
    + destruct (has (h_flags (header_of p.2)) TCP_FIN) eqn:Ef.
      * destruct (C4 eq_refl Hp) as (_ & _ & q & Eq & Hq). exists q. rewrite Ed. constructor; [done|]. intros _.
        split; [done|]. split; [unfold near; lia|]. split; [cbn; lia|by left].
      * exists 0. rewrite Ed. by constructor; [|rewrite Ef].
    + exists q. constructor.
      * intros _. constructor; [done|lia|lia|done].
      * intros Ef. destruct (C4 Ef Hp) as (_ & Ed & q' & Eq' & Hq'). rewrite Ed in *. cbn [length Z.of_nat] in D3.
        assert (q = q' \/ q <> q') as [->|Hne] by lia; [split; [done|]; split; [unfold near; lia|]; split; [cbn; lia|by left]|].
        exfalso. assert (E : (pos sb' q =? pos sb' q') = true) by (apply Z.eqb_eq; congruence). rewrite pos_eqb in E by lia. lia.
  - intros Ef. by destruct (C4 Ef Hp) as [? _].
  - intros _. destruct C2 as [Ha Hb]. by split.
Qed.
Lemma stray_comes N F x h o data : stray sb h o data -> has (h_flags h) TCP_RST = false -> 
  comes N F x h o data.
Proof.
  intros [->|(Ef & -> & Ha)] Hr; [done|]. constructor.
  - exists 0. by constructor; [|rewrite Ef].
  - by rewrite Ef.
  - intros HA. destruct (Ha HA) as [E1 E2]. split; [|by rewrite E2]. exists 0. unfold pos. rewrite Z.add_0_r. split; [done|].
    unfold total. destruct (fin_sent (cb x)); cbn; lia.
Qed.
Lemma comes_said N F x h o data : end_ok W W' sb sb' N F x -> N < 1073741824 -> comes N F x h o data ->
  said (of_stream sb' N F) ip_output h data (cb x) (host x).
Proof.
  intros [Hy _ _ HR _ HF] HN [[q Hq] Hfin _] t g Hqu.
  assert (Ho : opening t = false) by (apply synced_opening; exact (quiet_synced _ _ Hqu Hy)).
  assert (Hh : honest W' sb' N (arrived x) t h data q).
  { destruct Hq as [H1 H2]. constructor; [done|]. pose proof (data_free _ _ (quiet_data _ _ Hqu)) as E. cbn [fst] in E. by rewrite E. }
  pose proof (recv_inv_quiet _ _ _ _ _ _ _ Hqu HR) as Hi. cbn [fst snd] in Hi.
  destruct (segment_ok W' sb' N ip_output (arrived x) q h data t g Hi Ho Hh) as (K' & A1 & A2). cbv zeta.
  pose proof (data_input_fin ip_output h data t g) as F1. pose proof (quiet_fin _ _ Hqu) as F0. cbn [fst] in F0. rewrite F0 in F1.
  assert (HF1 : fin_rcvd (data_input ip_output h data t g).1 = true -> F = true) by (rewrite F1; exact HF).
  pose proof (ri_K _ _ _ _ _ _ _ (ad_inv _ _ _ _ _ _ _ _ A1)).
  split; [eapply recv_speaks; [apply A1|lia|exact HF1|done]|]. eapply recv_speaks; [apply A2|lia| |done].
  destruct (data_input _ _ _ _ _) as [t1 g1]. cbn [fst snd] in *. destruct (has (h_flags h) TCP_FIN) eqn:Ef; [intros _; by apply Hfin|].
  unfold fin_input. by rewrite Ef.
Qed.

(** *** What is heard *)

Record hearing (N : Z) (F : bool) (x : side) : Prop := {
  he_recv : recv_inv W' sb' N (arrived x) (arrived x) (cb x) (host x);
  he_heard : heard x = span W' 0 (length (heard x));
  he_fin : fin_rcvd (cb x) = true -> F = true }.
Lemma advance_hearing N F x K t g w l : hearing N F x -> advance W' sb' N (arrived x) (cb x) K t g -> (fin_rcvd t = true -> F = true) ->
  hearing N F (mk_side t g w (heard x ++ []) l).
Proof.
  intros [A B C] [[M1 M2] I _ _] HF. rewrite app_nil_r.
  assert (E : arrived (mk_side t g w (heard x) l) = K) by (unfold arrived, rcv_free in *; cbn [cb heard] in *; lia).
  by constructor; rewrite ?E.
Qed.
Lemma quiet_hearing N F x t g w l : hearing N F x -> synced (cb x) -> quiet (cb x, host x) (t, g) -> hearing N F (mk_side t g w (heard x ++ []) l).
Proof.
  intros Hh Hy Hq. eapply (advance_hearing N F x (arrived x)); [done| |].
  - eapply advance_quiet; [|exact Hq]. apply advance_refl; [apply Hh|by apply synced_opening].
  - pose proof (quiet_fin _ _ Hq) as E. cbn [fst] in E. rewrite E. apply Hh.
Qed.
Lemma read_hearing N F x len t g out r w l : hearing N F x -> tcp_recv ip_output len (cb x) (host x) = (r, out, t, g) ->
  hearing N F (mk_side t g w (heard x ++ out) l).
Proof.
  intros [A B C] E. pose proof (tcp_recv_ok W' sb' N ip_output (arrived x) len (cb x) (host x) A) as H. rewrite E in H. cbv zeta in H.
  set (n := Nat.min len (Z.to_nat (rcv_used (cb x)))) in *. destruct H as (-> & Hu & Hi & _). pose proof (rcv_used_range (cb x)) as Hr.
  assert (Ea : arrived (mk_side t g w (heard x ++ span W' (arrived x - rcv_used (cb x)) n) l) = arrived x).
  { unfold arrived. cbn [cb heard]. rewrite length_app, length_span, Hu. lia. }
  constructor; rewrite ?Ea; cbn [cb host heard]; [done| |].
  - rewrite length_app, length_span, span_app, <- B. f_equal. f_equal. unfold arrived. lia.
  - unfold tcp_recv in E. pose proof (recv_loop_ok W' (arrived x) len (cb x) (ri_ring _ _ _ _ _ _ _ A)) as Hl.
    destruct (recv_loop len (cb x)) as [o t1]. cbv zeta in Hl. destruct Hl as (_ & _ & _ & _ & _ & Ef & _).
    destruct o as [|b o]; injection E as _ _ <- _; rewrite Ef; exact C.
Qed.
Lemma happens_hearing N F x e : hearing N F x -> synced (cb x) ->
  match e with Segment _ _ h o data => has (h_flags h) TCP_RST = false -> comes N F x h o data | _ => True end ->
  used (cb (happens e x)) = true -> hearing N F (happens e x).
Proof.
  intros Hh Hy He. pose proof (synced_opening _ Hy) as Ho. pose proof (he_recv _ _ _ Hh) as HR.
  destruct e as [src dst h o data| |data|len|]; unfold happens, read_by; cbn [act].
  - assert (Hq : exists q, has (h_flags h) TCP_RST = false -> honest W' sb' N (arrived x) (cb x) h data q).
    { destruct (has (h_flags h) TCP_RST); [by exists 0|]. destruct (He eq_refl) as [[q Hq] _ _]. by exists q. }
    destruct Hq as [q Hq]. destruct (conn_input_ok W' sb' N ip_output (arrived x) q src dst h o data (cb x) (host x) HR Ho Hq) as [K' HA].
    pose proof (conn_input_fin ip_output src dst h o data (cb x) (host x) Hy) as HF.
    assert (HFR : has (h_flags h) TCP_RST = true -> fin_rcvd (conn_input ip_output src dst h o data (cb x) (host x)).1 = fin_rcvd (cb x)).
    { intros Hr. unfold conn_input. rewrite Hr. by destruct (is_state _ _). }
    destruct (conn_input _ _ _ _ _ _ _ _) as [t g]. cbn [fst snd] in *. intros _. apply (advance_hearing N F x K'); [done|done|].
    intros H. destruct (has (h_flags h) TCP_RST); [apply Hh; by rewrite <- HFR|]. destruct (HF H) as [?|?]; [by apply Hh|by apply He].
  - pose proof (timer_one_ok W' sb' N ip_output (arrived x) (cb x) (host x) HR Ho) as HA.
    pose proof (timer_one_fin ip_output (cb x) (host x)) as HF. destruct (timer_one _ _ _) as [t g]. cbn [fst snd cb] in *. intros Hu.
    apply (advance_hearing N F x (arrived x)); [done|by apply HA|]. rewrite (HF Hu). apply Hh.
  - pose proof (tcp_send_quiet ip_output data (cb x) (host x)) as Hq. destruct (tcp_send _ _ _ _) as [[r t] g]. intros _. by apply quiet_hearing.
  - destruct (tcp_recv _ _ _ _) as [[[r out] t] g] eqn:E. intros _. by eapply read_hearing.
  - pose proof (TCPSTACK.close_ooo ip_output (cb x) (host x) (ri_slots _ _ _ _ _ _ _ HR)) as Hc.
    pose proof (close_fin ip_output (cb x) (host x) Hy) as HF. destruct (tcp_close _ _ _) as [t g]. cbn [fst snd cb] in *. intros Hu.
    destruct Hc as [(E1 & E2 & E3 & E4 & E5)|[Hf _]]; [|congruence].
    apply (advance_hearing N F x (arrived x)); [done| |rewrite (HF Hu); apply Hh].
    constructor; [apply moved_refl; by apply data_free|by eapply recv_inv_same|by apply E5|done].
Qed.

(** *** A step *)

(** The end goes on: it writes no more after its FIN. *)
Definition onward (x x' : side) : Prop :=
  total x <= total x' /\ (fin_sent (cb x) = true -> fin_sent (cb x') = true /\ total x' = total x).
Lemma happens_ok N F x e : end_ok W W' sb sb' N F x -> N < 1073741824 ->
  match e with Segment _ _ h o data => has (h_flags h) TCP_RST = false -> comes N F x h o data | _ => True end ->
  let x' := happens e x in
  used (cb x') = true -> total x' < 1073741824 -> written x' = span W 0 (length (written x')) ->
  end_ok W W' sb sb' N F x' /\ onward x x'.
Proof.
  intros Hx HN He x' Hu. destruct (Hx) as [A B C D E G].
  assert (Hh : hearing N F x') by (apply happens_hearing; [by constructor|done|done|done]). revert Hu Hh.
  pose proof (act_ok ip_output sb W (of_stream sb' N F) (total x) e (cb x) (host x) A B) as H.
  unfold x', happens, total in *. clear x'. destruct (act ip_output e (cb x) (host x)) as [[acc t] g]. cbn [cb written]. intros Hu Hh HT HW.
  rewrite length_app in HT, HW. rewrite span_app in HW. apply app_inj_1 in HW as [_ HW]; [|by rewrite length_span]. rewrite Z.add_0_l in HW.
  destruct H as (A' & [B' Bf Bl] & Hacc); [|done|lia|done|].
  { destruct e; try done. intros HR HA. split; [by apply (He HR)|]. by eapply comes_said; [|done|apply He]. }
  cbn [fst snd] in *. assert (Hon : fin_sent (cb x) = true -> acc = []).
  { intros HF. destruct acc; [done|]. by rewrite Hacc in HF. }
  destruct Hh as [D' E' G']. split.
  - unfold total. constructor; try done; cbn [cb host written log]; unfold total; cbn [written]; rewrite length_app, Nat2Z.inj_add; [done|].
    apply Forall_app. split.
    + eapply Forall_impl; [exact C|]. intros p. apply carries_more; [unfold total; lia|]. intros HF. split; [by apply Bf|].
      rewrite Hon by done. cbn. unfold total. lia.
    + destruct Bl as (l & -> & Hl). by rewrite drop_app_length.
  - unfold onward, total. cbn [cb written]. rewrite length_app. split; [lia|]. intros HF. split; [by apply Bf|]. rewrite Hon by done. cbn. lia.
Qed.
Lemma acts_ok x y x' : end_ok W W' sb sb' (total y) (fin_sent (cb y)) x -> end_ok W' W sb' sb (total x) (fin_sent (cb x)) y ->
  total y < 1073741824 -> acts sb y x x' ->
  used (cb x') = true -> total x' < 1073741824 -> written x' = span W 0 (length (written x')) ->
  end_ok W W' sb sb' (total y) (fin_sent (cb y)) x' /\ onward x x'.
Proof.
  intros Hx Hy HN Ha Hu HT HW. destruct Ha as [k p src dst Hk Hp|e He|g [Hs Hpool]].
  - apply happens_ok; try done. intros _. apply carried_comes; [done|done| |done].
    exact (Forall_lookup_1 _ _ _ _ (en_log _ _ _ _ _ _ _ Hy) Hk).
  - apply happens_ok; try done. destruct e; try done. intros HR. by apply stray_comes.
  - destruct Hx as [A B C D E G]. split; [|done]. constructor; try done. by apply (recv_inv_frame _ _ _ _ _ _ (host x)).
Qed.
End pair.
Definition both (W W' : Z -> Z) (sb sb' : Z) (x y : side) : Prop :=
  end_ok W W' sb sb' (total y) (fin_sent (cb y)) x /\ end_ok W' W sb' sb (total x) (fin_sent (cb x)) y.
Lemma both_step W W' sb sb' x y x' : both W W' sb sb' x y -> total y < 1073741824 -> acts sb y x x' ->
  used (cb x') = true -> total x' < 1073741824 -> written x' = span W 0 (length (written x')) -> both W W' sb sb' x' y.
Proof.
  intros [Hx Hy] HN Ha Hu HT HW. destruct (acts_ok W W' sb sb' x y x' Hx Hy HN Ha Hu HT HW) as [Hx' [O1 O2]].
  split; [done|]. by apply (end_more _ _ _ _ (total x) _ (fin_sent (cb x))).
Qed.
Lemma acts_grows sb x y x' : acts sb y x x' -> exists w, written x' = written x ++ w.
Proof.
  assert (Hh : forall e, exists w, written (happens e x) = written x ++ w).
  { intros e. unfold happens. destruct (act ip_output e (cb x) (host x)) as [[acc t] g]. by exists acc. }
  intros [k p src dst _ _|e _|g _]; [apply Hh|apply Hh|]. exists []. by rewrite app_nil_r.
Qed.
Lemma grown_span W (w v : list Z) : w ++ v = span W 0 (length (w ++ v)) -> w = span W 0 (length w).
Proof. rewrite length_app, span_app. intros H. apply app_inj_1 in H as [H _]; [done|by rewrite length_span]. Qed.
Lemma link_both sbl sbr W W' x y : link sbl sbr x y -> total x < 1073741824 -> total y < 1073741824 ->
  written x = span W 0 (length (written x)) -> written y = span W' 0 (length (written y)) -> both W W' sbl sbr x y.
Proof.
  induction 1 as [x y Hx Hy|x y x' Hl IH Ha Hu|x y y' Hl IH Ha Hu]; intros Tx Ty Wx Wy.
  - split.
    + eapply end_more; [| |by apply fresh_end_ok]; [unfold total; lia|done].
    + eapply end_more; [| |by apply fresh_end_ok]; [unfold total; lia|done].
  - destruct (acts_grows _ _ _ _ Ha) as [w Ew]. eapply both_step; [apply IH|..]; try done.
    + unfold total in *. rewrite Ew, length_app in Tx. lia.
    + apply (grown_span W _ w). by rewrite <- Ew.
  - destruct (acts_grows _ _ _ _ Ha) as [w Ew]. assert (H : both W W' sbl sbr x y).
    { apply IH; try done.
      - unfold total in *. rewrite Ew, length_app in Ty. lia.
      - apply (grown_span W' _ w). by rewrite <- Ew. }
    destruct H as [H1 H2]. assert (H : both W' W sbr sbl y x) by done. destruct (both_step _ _ _ _ _ _ _ H Tx Ha Hu Ty Wy) as [H3 H4]. done.
Qed.
Lemma heard_prefix W W' sb sb' x y : end_ok W W' sb sb' (total y) (fin_sent (cb y)) x -> written y = span W' 0 (length (written y)) ->
  heard x `prefix_of` written y /\ (fin_rcvd (cb x) = true -> rcv_used (cb x) = 0 -> heard x = written y).
Proof.
  intros [_ _ _ [HK _ HF _ _ _] HH _] HW. unfold arrived, total in *. pose proof (rcv_used_range (cb x)) as Hr. split.
  - rewrite HH, HW. set (n := length (heard x)) in *. replace (length (written y)) with (n + (length (written y) - n))%nat by lia.
    rewrite span_app. by eexists.
  - intros Hf Hu. rewrite HH, HW. f_equal. specialize (HF Hf). lia.
Qed.

(** C2: two connections of this stack, each other's peer, over a network
    that loses, delays, repeats and reorders segments and adds resets and
    late segments of the handshake: at every moment, what each program has
    read is a prefix of what the other one wrote, and when an end has seen
    the FIN and has nothing left to read, it has read everything. *)
Theorem tcp_link_delivers sbl sbr x y : link sbl sbr x y -> total x < 1073741824 -> total y < 1073741824 ->
  (heard x `prefix_of` written y /\ (fin_rcvd (cb x) = true -> rcv_used (cb x) = 0 -> heard x = written y)) /\
  (heard y `prefix_of` written x /\ (fin_rcvd (cb y) = true -> rcv_used (cb y) = 0 -> heard y = written x)).
Proof.
  intros Hl Tx Ty. destruct (link_both sbl sbr _ _ x y Hl Tx Ty (span_of _) (span_of _)) as [Hx Hy].
  split; [by apply (heard_prefix _ _ _ _ _ _ Hx), span_of|by apply (heard_prefix _ _ _ _ _ _ Hy), span_of].
Qed.
End link.

(** *** A run *)

Definition met (sb sb' : Z) : tcpcb := idle <| snd_una := sb |> <| snd_nxt := sb |> <| snd_max := sb |> <| rcv_nxt := sb' |>.
Definition home : shared :=
  mk_shared (replicate TCP_OOO_SLOTS []) (replicate TCP_OOO_SLOTS false) 0 0 0 0 32768 (PMM.pmm_init 0 0 PMM.blank) 1000 [].
Definition l0 : side := mk_side (met 7000 4294967290) home [] [] [].
Definition r0 : side := mk_side (met 4294967290 7000) home [] [] [].
Definition l1 : side := happens out_ok (Write [104; 105]) l0.
Definition p1 : Z * Z * list Z := default (0, 1, []) (log l1 !! 0%nat).
Definition r1 : side := happens out_ok (segment_event 0 0 p1) r0.
Definition r2 : side := happens out_ok (Read 10) r1.
Definition l2 : side := happens out_ok Shut l1.
Definition p2 : Z * Z * list Z := default (0, 1, []) (log l2 !! 1%nat).
Definition r3 : side := happens out_ok (segment_event 0 0 p2) r2.
Lemma fresh_met sb sb' : u32 sb = sb -> u32 sb' = sb' -> fresh_end sb sb' (mk_side (met sb sb') home [] [] []).
Proof.
  intros E E'. apply Build_fresh_end; cbn [cb host written heard log].
  - apply Build_opened; [done|by rewrite E|done|done].
  - apply TCPSTACK.Build_starts; [done|done|by rewrite E'|done|done|]. change (ooo (met sb sb')) with (replicate TCP_OOO_PER_CB no_held).
    by apply Forall_replicate.
  - assert (Hn : forall i o, ooo (met sb sb') !! i = Some o -> o_used o = true -> False).
    { intros i o Ho. change (ooo (met sb sb')) with (replicate TCP_OOO_PER_CB no_held) in Ho. apply lookup_replicate in Ho as [-> _]. done. }
    constructor; [done|done|done| |]; [intros k (i & o & Ho & Hu & _)|intros i j o o' Ho _ Hu]; exfalso; by eapply Hn.
  - done.
Qed.
Lemma link_l1 : link out_ok 7000 4294967290 l1 r0.
Proof.
  eapply link_left; [apply link_open; by apply fresh_met| |vm_compute; reflexivity].
  exact (acts_local out_ok 7000 r0 l0 (Write [104; 105]) I).
Qed.
Lemma link_r1 : link out_ok 7000 4294967290 l1 r1.
Proof.
  assert (E : log l1 !! 0%nat = Some p1) by (vm_compute; reflexivity). assert (Ep : p1.1.2 = 0) by (vm_compute; reflexivity).
  assert (U : used (cb r1) = true) by (vm_compute; reflexivity).
  exact (link_right out_ok 7000 4294967290 l1 r0 r1 link_l1 (acts_deliver out_ok 4294967290 l1 r0 0 p1 0 0 E Ep) U).
Qed.
Lemma link_r2 : link out_ok 7000 4294967290 l1 r2.
Proof.
  assert (U : used (cb r2) = true) by (vm_compute; reflexivity).
  exact (link_right out_ok 7000 4294967290 l1 r1 r2 link_r1 (acts_local out_ok 4294967290 l1 r1 (Read 10) I) U).
Qed.
Lemma link_l2 : link out_ok 7000 4294967290 l2 r2.
Proof.
  assert (U : used (cb l2) = true) by (vm_compute; reflexivity).
  exact (link_left out_ok 7000 4294967290 l1 r2 l2 link_r2 (acts_local out_ok 7000 r2 l1 Shut I) U).
Qed.
Lemma link_r3 : link out_ok 7000 4294967290 l2 r3.
Proof.
  assert (E : log l2 !! 1%nat = Some p2) by (vm_compute; reflexivity). assert (Ep : p2.1.2 = 0) by (vm_compute; reflexivity).
  assert (U : used (cb r3) = true) by (vm_compute; reflexivity).
  exact (link_right out_ok 7000 4294967290 l2 r2 r3 link_l2 (acts_deliver out_ok 4294967290 l2 r2 1 p2 0 0 E Ep) U).
Qed.
(** Two bytes, then the FIN: the other end read them and saw the end. *)
Lemma tcp_link_delivers_witness : heard r3 = written l2 /\ heard r3 = [104; 105].
Proof.
  assert (Tx : total l2 < 1073741824) by (vm_compute; reflexivity). assert (Ty : total r3 < 1073741824) by (vm_compute; reflexivity).
  assert (EF : fin_rcvd (cb r3) = true) by (vm_compute; reflexivity). assert (EU : rcv_used (cb r3) = 0) by (vm_compute; reflexivity).
  assert (EH : heard r3 = [104; 105]) by (vm_compute; reflexivity).
  exact (conj (proj2 (proj2 (tcp_link_delivers out_ok 7000 4294967290 l2 r3 link_r3 Tx Ty)) EF EU) EH).
Defined.
End TCPLINK.
