(* ===== verification/Vm.v ===== *)
(** * Address spaces (kernel/vm.c): the code

    The three levels of the 68040's tables, kept as words in pages of the
    memory that programs' pages come from; pages made on first touch, shared
    copy-on-write after a fork, and written to the swap file by a clock hand
    when memory is short. The page allocator (kernel/pmm.c), the swap file
    (kernel/swap.c) and the cache of file pages (kernel/textcache.c) are
    interfaces. The registers and the translation cache are not modelled:
    a flush does nothing here. *)

From S2P Require Import Prelude Pmm Pages Swap.
Local Open Scope Z_scope.

(** What address spaces need of the cache of file pages: it holds pages of
    its own, gives up some when asked, and is told of shared mappings. *)
Class TextCache (T W : Type) `{PageRefs W} := {
  tc_shrink : Z -> T -> W -> Z * T * W;
  tc_idle : T -> W -> Z;
  tc_release : Z -> T -> W -> T * W;
  tc_dup : Z -> T -> T;
  tc_dirty : Z -> T -> T;
  tc_ok : T -> Prop;
  tc_held : T -> Z -> Z;

  tc_held_nonneg : forall t a, tc_ok t -> 0 <= tc_held t a;
  tc_shrink_spec : forall n t w, tc_ok t -> pg_ok w -> (forall a, tc_held t a <= pg_held w a) ->
    let '(_, t', w') := tc_shrink n t w in
    tc_ok t' /\ pg_ok w' /\ (forall a, tc_held t' a <= tc_held t a) /\
    (forall a, pg_held w' a - tc_held t' a = pg_held w a - tc_held t a) /\
    (forall a x, 0 < pg_held w' a -> in_page a x -> pg_load w' x = pg_load w x) /\
    (forall a, pg_foreign w' a = pg_foreign w a);
  tc_release_spec : forall p t w, tc_ok t -> pg_ok w -> (forall a, tc_held t a <= pg_held w a) ->
    let '(t', w') := tc_release p t w in
    tc_ok t' /\ pg_ok w' /\ (forall a, tc_held t' a = tc_held t a) /\ (forall a, pg_held w' a = pg_held w a) /\
    (forall a x, 0 < pg_held w' a -> in_page a x -> pg_load w' x = pg_load w x) /\
    (forall a, pg_foreign w' a = pg_foreign w a);
  tc_dup_spec : forall p t, tc_ok t -> tc_ok (tc_dup p t) /\ forall a, tc_held (tc_dup p t) a = tc_held t a;
  tc_dirty_spec : forall p t, tc_ok t -> tc_ok (tc_dirty p t) /\ forall a, tc_held (tc_dirty p t) a = tc_held t a;
}.

Module VM.
#[local] Abbreviation PAGE_SIZE := PMM.PAGE_SIZE.
#[local] Abbreviation PAGE_MASK := PMM.PAGE_MASK.

(** ** Descriptors *)

Definition PAGE_SHIFT : Z := 12.
Definition UDT_RESIDENT : Z := 2.
Definition PDT_RESIDENT : Z := 1.
Definition DESC_WP : Z := 4.
Definition DESC_CM_CB : Z := 32.
Definition DESC_CM_NC : Z := 96.
Definition DESC_CM_MASK : Z := 96.
Definition DESC_SUPER : Z := 128.
Definition DESC_SW_NONE : Z := 2048.
Definition DESC_SW_LAZY : Z := 1024.
Definition DESC_SW_SWAP : Z := 512.
Definition DESC_SW_COW : Z := 2048.
Definition DESC_USED : Z := 8.
Definition DESC_SW_SHARED : Z := 256.
Definition PTR_TABLE_MASK : Z := 4294966784.
Definition PAGE_TABLE_MASK : Z := 4294967040.
Definition PAGE_ADDR_MASK : Z := 4294963200.
Definition ROOT_INDEX (va : Z) : Z := Z.land (Z.shiftr va 25) 127.
Definition PTR_INDEX (va : Z) : Z := Z.land (Z.shiftr va 18) 127.
Definition PAGE_INDEX (va : Z) : Z := Z.land (Z.shiftr va 12) 63.
Definition ROOT_ENTRIES : nat := 128.
Definition PTR_ENTRIES : nat := 128.
Definition PAGE_ENTRIES : nat := 64.
Definition USER_VA_BASE : Z := 268435456.
Definition USER_VA_SIZE : Z := 268435456.
Definition USER_VA_END : Z := USER_VA_BASE + USER_VA_SIZE.
Definition USER_STACK_PAGES : Z := 256.
Definition USER_BRK_LIMIT : Z := USER_VA_END - (USER_STACK_PAGES + 1) * PAGE_SIZE.
Definition VM_USER : Z := 1.
Definition VM_WRITE : Z := 2.
Definition VM_NOCACHE : Z := 4.
Definition VM_NONE : Z := 8.
Definition VM_SHARED : Z := 16.
Definition VM_FAULT_NOCHANGE : Z := 1.
Definition RESERVE_PAGES : Z := 24.
Definition RECLAIM_BATCH : Z := 32.
Definition AS_SLOT : Z := 512.
Definition MAX_SPACES : nat := 64.
(** The bytes one page table covers. *)
Definition TABLE_SPAN : Z := 64 * PAGE_SIZE.

Definition not32 (x : Z) : Z := u32 (Z.lnot x).
Definition page_of (d : Z) : Z := Z.land d PAGE_ADDR_MASK.
Definition slot_of (d : Z) : Z := Z.shiftr d PAGE_SHIFT.
Definition desc_owned (d : Z) : bool :=
  has d PDT_RESIDENT || has d (Z.lor (Z.lor DESC_SW_NONE DESC_SW_LAZY) DESC_SW_SWAP).
Definition desc_has_page (d : Z) : bool :=
  has d PDT_RESIDENT || (has d DESC_SW_NONE && negb (has d (Z.lor DESC_SW_LAZY DESC_SW_SWAP))).
Definition page_bits (flags : Z) : Z :=
  let d := PDT_RESIDENT in
  let d := if has flags VM_SHARED then Z.lor d DESC_SW_SHARED else d in
  let d := if has flags VM_USER then d else Z.lor d DESC_SUPER in
  let d := if has flags VM_WRITE then d else Z.lor d DESC_WP in
  Z.lor d (if has flags VM_NOCACHE then DESC_CM_NC else DESC_CM_CB).
Definition desc_prot (d : Z) : Z :=
  if negb (desc_owned d) then -1
  else if has d PDT_RESIDENT then (if negb (has d DESC_WP) || has d DESC_SW_COW then VM_WRITE else 0)
  else if has d DESC_SW_NONE then VM_NONE
  else if has d DESC_WP then 0 else VM_WRITE.

(** ** The state *)

(** What exec leaves for /proc; kept, copied and cleared as a whole here. *)
Record as_image := mk_image { ranges : list Z; exe : list Z; interp : list Z }.
Definition no_image : as_image := mk_image [] [] [].
Record addrspace := mk_space {
  root : Z; tables : Z; slot_page : Z; slot_off : Z; brk_start : Z; brk_cur : Z;
  used : bool; refs : Z; busy : bool; img : as_image }.
#[export] Instance addrspace_fields : Fields addrspace := fun a => mk_space
  (root a) (tables a) (slot_page a) (slot_off a) (brk_start a) (brk_cur a) (used a) (refs a) (busy a) (img a).
Definition no_space : addrspace := mk_space 0 0 0 0 0 0 false 0 false no_image.
Record vm_stats := mk_stats { faults_zero : Z; faults_cow : Z; faults_swapin : Z; evicted : Z }.
#[export] Instance stats_fields : Fields vm_stats := fun t => mk_stats (faults_zero t) (faults_cow t) (faults_swapin t) (evicted t).

Section state.
Context {W S T : Type} `{TextCache T W} `{SwapSlots S}.
(** [sleeps] counts the times a call has slept, and [lost] the pages that
    could not be written out. *)
Record vm := mk_vm {
  mm : W; sw : S; tc : T; spaces : list addrspace; kernel_root : Z; ktbl_page : Z; ktbl_off : Z;
  hand_space : Z; hand_va : Z; stats : vm_stats; lost : Z; sleeps : nat }.
#[export] Instance vm_fields : Fields vm := fun s => mk_vm
  (mm s) (sw s) (tc s) (spaces s) (kernel_root s) (ktbl_page s) (ktbl_off s) (hand_space s) (hand_va s) (stats s) (lost s) (sleeps s).

(** A null pointer to an address space is an index past the table. *)
Definition space (s : vm) (i : nat) : addrspace := default no_space (spaces s !! i).
Definition set_space (i : nat) (a : addrspace) (s : vm) : vm := s <| spaces := <[i := a]> (spaces s) |>.
Definition word (s : vm) (table i : Z) : Z := load32 (mm s) (table + 4 * i).
Definition set_word (table i v : Z) (s : vm) : vm := s <| mm := store32 (table + 4 * i) v (mm s) |>.
Definition pfree (pa : Z) (s : vm) : vm := s <| mm := pg_free pa (mm s) |>.
Definition pref (pa : Z) (s : vm) : bool * vm := let '(r, w) := pg_ref pa (mm s) in (negb (r =? 0), s <| mm := w |>).
Definition palloc (s : vm) : Z * vm := let '(a, w) := pg_alloc (mm s) in (a, s <| mm := w |>).
Definition page_copy (to from : Z) (s : vm) : vm := s <| mm := store_bytes to (page_bytes from 4096 (mm s)) (mm s) |>.
Definition count_stat (f : vm_stats -> vm_stats) (s : vm) : vm := s <| stats := f (stats s) |>.

(** ** The kernel's own map *)

Definition kset_cachemode (pa cm : Z) (s : vm) : Z * vm :=
  if kernel_root s =? 0 then (-1, s)
  else
    let rd := word s (kernel_root s) (ROOT_INDEX pa) in
    if negb (has rd UDT_RESIDENT) then (-1, s)
    else
      let pd := word s (Z.land rd PTR_TABLE_MASK) (PTR_INDEX pa) in
      if negb (has pd UDT_RESIDENT) then (-1, s)
      else
        let pt := Z.land pd PAGE_TABLE_MASK in
        let d := word s pt (PAGE_INDEX pa) in
        if negb (has d PDT_RESIDENT) then (-1, s)
        else (0, set_word pt (PAGE_INDEX pa) (Z.lor (Z.land d (not32 DESC_CM_MASK)) cm) s).
Definition vm_table_nocache (pa : Z) (s : vm) : vm := snd (kset_cachemode (Z.land pa (not32 PAGE_MASK)) DESC_CM_NC s).

Definition ktable_alloc (s : vm) : Z * vm :=
  let '(ok, s) :=
    if (ktbl_page s =? 0) || (PAGE_SIZE <? ktbl_off s + 512) then
      let '(pg, s) := palloc s in
      if pg =? 0 then (false, s <| ktbl_page := 0 |>)
      else (true, vm_table_nocache pg (s <| ktbl_page := pg |> <| ktbl_off := 0 |>))
    else (true, s) in
  if negb (ok : bool) then (0, s)
  else (ktbl_page s + ktbl_off s, s <| ktbl_off := ktbl_off s + 512 |>).

Definition kmap_page (va pa flags : Z) (s : vm) : Z * vm :=
  let root := kernel_root s in
  let '(ok, s) :=
    if negb (has (word s root (ROOT_INDEX va)) UDT_RESIDENT) then
      let '(p, s) := ktable_alloc s in
      if p =? 0 then (false, s) else (true, set_word root (ROOT_INDEX va) (Z.lor p UDT_RESIDENT) s)
    else (true, s) in
  if negb (ok : bool) then (-1, s)
  else
    let ptr := Z.land (word s root (ROOT_INDEX va)) PTR_TABLE_MASK in
    let '(ok, s) :=
      if negb (has (word s ptr (PTR_INDEX va)) UDT_RESIDENT) then
        let '(p, s) := ktable_alloc s in
        if p =? 0 then (false, s) else (true, set_word ptr (PTR_INDEX va) (Z.lor p UDT_RESIDENT) s)
      else (true, s) in
    if negb (ok : bool) then (-1, s)
    else
      let pt := Z.land (word s ptr (PTR_INDEX va)) PAGE_TABLE_MASK in
      (0, set_word pt (PAGE_INDEX va) (Z.lor (Z.land pa PAGE_ADDR_MASK) (page_bits flags)) s).

(** Start-up: the tables, and the sweep that makes them uncached; the state
    is lost when the machine halts. *)
Definition sweep_ptr (ptr : Z) (s : vm) : vm :=
  foldl (fun s pi =>
    let pd := word s ptr (Z.of_nat pi) in
    if has pd UDT_RESIDENT then vm_table_nocache (Z.land pd PAGE_TABLE_MASK) s else s) s (seq 0 PTR_ENTRIES).
Definition sweep_root (s : vm) : vm :=
  foldl (fun s ri =>
    let rd := word s (kernel_root s) (Z.of_nat ri) in
    if has rd UDT_RESIDENT then
      sweep_ptr (Z.land rd PTR_TABLE_MASK) (vm_table_nocache (Z.land rd PTR_TABLE_MASK) s)
    else s) (vm_table_nocache (kernel_root s) s) (seq 0 ROOT_ENTRIES).
Definition vm_init (ram_bytes : Z) (s : vm) : option vm :=
  let '(r, s) := ktable_alloc s in
  if r =? 0 then None
  else
    let '(ok, s) := try_each (fun k s =>
      let va := Z.of_nat k * PAGE_SIZE in
      let '(err, s) := kmap_page va va VM_WRITE s in (negb (err <? 0), s))
      (seq 0 (Z.to_nat ((ram_bytes + PAGE_SIZE - 1) / PAGE_SIZE))) (s <| kernel_root := r |>) in
    if ok then Some (sweep_root s) else None.

Definition vm_kernel_present (va : Z) (present : bool) (s : vm) : vm :=
  let rd := word s (kernel_root s) (ROOT_INDEX va) in
  if negb (has rd UDT_RESIDENT) then s
  else
    let pd := word s (Z.land rd PTR_TABLE_MASK) (PTR_INDEX va) in
    if negb (has pd UDT_RESIDENT) then s
    else set_word (Z.land pd PAGE_TABLE_MASK) (PAGE_INDEX va)
           (if present then Z.lor (Z.land va PAGE_ADDR_MASK) (page_bits VM_WRITE) else 0) s.

Definition walk_desc (root_pa va : Z) (s : vm) : Z :=
  let d := word s root_pa (ROOT_INDEX va) in
  if negb (has d UDT_RESIDENT) then 0
  else
    let d := word s (Z.land d PTR_TABLE_MASK) (PTR_INDEX va) in
    if negb (has d UDT_RESIDENT) then 0
    else word s (Z.land d PAGE_TABLE_MASK) (PAGE_INDEX va).
End state.

(** ** Address spaces *)

Section code.
Context {W S T : Type} `{TextCache T W} `{SwapSlots S}.
#[local] Abbreviation vm := (@vm W S T).

(** What the others do while a call sleeps, the [n]th time one does; and how
    often a call sleeps for a slot being written before it is given up. *)
Context (others : nat -> vm -> vm) (patience : nat).
Definition sleep (s : vm) : vm := others (sleeps s) (s <| sleeps := Datatypes.S (sleeps s) |>).

Definition as_table_alloc (i : nat) (s : vm) : Z * vm :=
  let a := space s i in
  let '(ok, s) :=
    if (slot_page a =? 0) || (PAGE_SIZE <? slot_off a + AS_SLOT) then
      let '(pg, s) := palloc s in
      if pg =? 0 then (false, s)
      else
        let s := set_word pg 0 (tables a) s in
        (true, vm_table_nocache pg (set_space i (a <| tables := pg |> <| slot_page := pg |> <| slot_off := AS_SLOT |>) s))
    else (true, s) in
  if negb (ok : bool) then (0, s)
  else
    let a := space s i in
    (slot_page a + slot_off a, set_space i (a <| slot_off := slot_off a + AS_SLOT |>) s).

(** A table's entry, with a new table if there is none and one is to be made. *)
Definition next_table (i : nat) (table idx mask : Z) (create : bool) (s : vm) : Z * vm :=
  let d := word s table idx in
  if negb (has d UDT_RESIDENT) then
    if negb create then (0, s)
    else
      let '(p, s) := as_table_alloc i s in
      if p =? 0 then (0, s)
      else let s := set_word table idx (Z.lor p UDT_RESIDENT) s in (Z.land (word s table idx) mask, s)
  else (Z.land (word s table idx) mask, s).
Definition as_pagetable (i : nat) (va : Z) (create : bool) (s : vm) : Z * vm :=
  match spaces s !! i with
  | None => (0, s)
  | Some a =>
      if (va <? USER_VA_BASE) || (USER_VA_END <=? va) then (0, s)
      else
        let '(ptr, s) := next_table i (root a) (ROOT_INDEX va) PTR_TABLE_MASK create s in
        if ptr =? 0 then (0, s) else next_table i ptr (PTR_INDEX va) PAGE_TABLE_MASK create s
  end.
(** The lookup of a table, which makes none. *)
Definition pagetable (i : nat) (va : Z) (s : vm) : Z := fst (as_pagetable i va false s).

Definition vm_create (s : vm) : option nat * vm :=
  match find_idx (fun a => negb (used a)) (spaces s) with
  | None => (None, s)
  | Some i =>
      let a := space s i in
      let s := set_space i (a <| tables := 0 |> <| slot_page := 0 |> <| slot_off := 0 |> <| brk_start := 0 |>
                              <| brk_cur := 0 |> <| img := no_image |>) s in
      let '(r, s) := as_table_alloc i s in
      let s := set_space i (space s i <| root := r |>) s in
      if r =? 0 then (None, s)
      else (Some i, set_space i (space s i <| used := true |> <| refs := 1 |> <| busy := true |>) s)
  end.

(** *** Writing pages out *)

Definition evict (pt idx : Z) (s : vm) : Z * vm :=
  let d := word s pt idx in
  let pa := page_of d in
  let ro := has d DESC_WP && negb (has d DESC_SW_COW) in
  let '(slot, w) := sl_alloc (sw s) in
  let s := s <| sw := w |> in
  if slot =? SWAP.SWAP_NONE then (-1, s)
  else
    let s := s <| sw := sl_set_busy slot true (sw s) |> in
    let s := set_word pt idx (Z.lor (Z.lor (u32 (Z.shiftl slot PAGE_SHIFT)) DESC_SW_SWAP) (if ro then DESC_WP else 0)) s in
    let '(r, w) := sl_write slot (page_bytes pa 4096 (mm s)) (sw s) in
    let s := sleep (s <| sw := w |>) in
    let s := if r <? 0 then s <| lost := lost s + 1 |> else s in
    let s := s <| sw := sl_set_busy slot false (sw s) |> in
    let s := pfree pa s in
    (0, count_stat (fun t => t <| evicted := u32 (evicted t + 1) |>) s).

(** One step of the hand; the pages freed and the steps taken go with it. *)
Definition reclaim_turn (want : Z) (st : Z * Z * vm) : bool * (Z * Z * vm) :=
  let '(freed, steps, s) := st in
  let limit := 2 * Z.of_nat MAX_SPACES * (USER_VA_SIZE / PAGE_SIZE) in
  if negb ((steps <? limit) && (freed <? want)) then (false, st)
  else
    let i := Z.to_nat (hand_space s) in
    let a := space s i in
    if negb (used a) || busy a || (USER_VA_END <=? hand_va s) then
      (true, (freed, steps + USER_VA_SIZE / PAGE_SIZE,
         s <| hand_space := (hand_space s + 1) mod Z.of_nat MAX_SPACES |> <| hand_va := USER_VA_BASE |>))
    else
      let pt := pagetable i (hand_va s) s in
      if pt =? 0 then
        let next := Z.land (hand_va s) (not32 (TABLE_SPAN - 1)) + TABLE_SPAN in
        (true, (freed, steps + (next - hand_va s) / PAGE_SIZE, s <| hand_va := next |>))
      else
        let idx := PAGE_INDEX (hand_va s) in
        let d := word s pt idx in
        let held := if has d PDT_RESIDENT then pg_refcount (page_of d) (mm s) else 0 in
        let '(go, freed, s) :=
          if has d PDT_RESIDENT && negb (has d DESC_SUPER) && negb (has d DESC_SW_SHARED) &&
             ((held =? 1) || has d DESC_SW_COW) then
            if has d DESC_USED then (true, freed, set_word pt idx (Z.land d (not32 DESC_USED)) s)
            else
              let '(err, s) := evict pt idx s in
              if err =? 0 then (true, if held =? 1 then freed + 1 else freed, s) else (false, freed, s)
          else (true, freed, s) in
        if go then (true, (freed, steps + 1, s <| hand_va := u32 (hand_va s + PAGE_SIZE) |>)) else (false, (freed, steps, s)).
Definition vm_reclaim (want : Z) (s : vm) : Z * vm :=
  let '(freed, t, w) := tc_shrink want (tc s) (mm s) in
  let s := s <| tc := t |> <| mm := w |> in
  if (want <=? freed) || negb (sl_on (sw s)) then (freed, s)
  else let '(freed, _, s) := snd (loop 8388609 (reclaim_turn want) (freed, 0, s)) in (freed, s).

Definition page_alloc_user (s : vm) : Z * vm :=
  let s := if pg_available (mm s) <=? RESERVE_PAGES + 1 then snd (vm_reclaim RECLAIM_BATCH s) else s in
  if pg_available (mm s) <=? RESERVE_PAGES then (0, s) else palloc s.

Definition vm_commit_ok (pages : Z) (s : vm) : bool :=
  let have := u32 (pg_available (mm s) + tc_idle (tc s) (mm s)) in
  u32 (pages + RESERVE_PAGES) <=? u32 (have + sl_left (sw s)).

(** *** Mapping *)

Definition vm_map (i : nat) (va pa flags : Z) (s : vm) : Z * vm :=
  let '(pt, s) := as_pagetable i va true s in
  if pt =? 0 then (0, s)
  else
    let '(pt, pa, s) :=
      if pa =? 0 then
        let '(pa, s) := page_alloc_user s in
        if pa =? 0 then (0, 0, s)
        else let '(pt, s) := as_pagetable i va true s in if pt =? 0 then (0, 0, pfree pa s) else (pt, pa, s)
      else (pt, pa, s) in
    if pa =? 0 then (0, s)
    else (pa, set_word pt (PAGE_INDEX va) (Z.lor (Z.land pa PAGE_ADDR_MASK) (page_bits (Z.lor flags VM_USER))) s).

Definition vm_may_write (i : nat) (va : Z) (s : vm) : bool :=
  let pt := pagetable i va s in
  if pt =? 0 then false
  else
    let d := word s pt (PAGE_INDEX va) in
    if has d PDT_RESIDENT then negb (has d DESC_SUPER) && (negb (has d DESC_WP) || has d DESC_SW_COW)
    else has d (Z.lor DESC_SW_LAZY DESC_SW_SWAP) && negb (has d (Z.lor DESC_WP DESC_SW_NONE)).

Definition vm_ready (i : nat) (s : vm) : vm :=
  match spaces s !! i with Some a => set_space i (a <| busy := false |>) s | None => s end.

Definition vm_map_lazy (i : nat) (va flags : Z) (s : vm) : Z * vm :=
  let '(pt, s) := as_pagetable i va true s in
  if pt =? 0 then (-1, s)
  else
    let d := DESC_SW_LAZY in
    let d := if has flags VM_WRITE then d else Z.lor d DESC_WP in
    let d := if has flags VM_NONE then Z.lor d DESC_SW_NONE else d in
    (0, set_word pt (PAGE_INDEX va) d s).

(** *** Faults *)

(** Sleeping until the slot is not being written; not, if it takes longer
    than the patience there is. *)
Fixpoint swap_wait_idle (n : nat) (slot : Z) (s : vm) : bool * vm :=
  if sl_is_busy slot (sw s) then
    match n with O => (false, s) | Datatypes.S n' => swap_wait_idle n' slot (sleep s) end
  else (true, s).

(** A page read from its slot: the bytes come now, and the caller sleeps. *)
Definition page_image (p : list Z) : list Z := (fun k => u8 (default 0 (p !! k))) <$> seq 0 4096.
Definition swap_in (slot pa : Z) (s : vm) : Z * vm :=
  let '(r, p, w) := sl_read slot (sw s) in
  let s := s <| sw := w |> in
  (r, sleep (if r <? 0 then s else s <| mm := store_bytes pa (page_image p) (mm s) |>)).

Definition fault_cow (pt idx d : Z) (s : vm) : option Z * vm :=
  let pa := page_of d in
  let '(r, pa, s) :=
    if 1 <? pg_refcount pa (mm s) then
      let '(copy, s) := page_alloc_user s in
      if copy =? 0 then (Some (- ENOMEM), pa, s)
      else if negb (word s pt idx =? d) then (Some 0, pa, pfree copy s)
      else (None, copy, pfree pa (page_copy copy pa s))
    else (None, pa, s) in
  match r with
  | Some r => (Some r, s)
  | None =>
      let s := set_word pt idx (Z.lor (Z.lor pa (page_bits (Z.lor VM_USER VM_WRITE))) DESC_USED) s in
      (Some 0, count_stat (fun t => t <| faults_cow := u32 (faults_cow t + 1) |>) s)
  end.
Definition fault_absent (pt idx d : Z) (s : vm) : option Z * vm :=
  let '(idle, s) := if has d DESC_SW_SWAP then swap_wait_idle patience (slot_of d) s else (true, s) in
  if negb (idle : bool) then (None, s)
  else
    let '(pa, s) := page_alloc_user s in
    if pa =? 0 then (Some (- ENOMEM), s)
    else if negb (word s pt idx =? d) then (Some 0, pfree pa s)
    else
      let '(r, s) :=
        if has d DESC_SW_SWAP then
          let slot := slot_of d in
          let '(err, s) := swap_in slot pa s in
          if err <? 0 then (Some (- EFAULT), pfree pa s)
          else if negb (word s pt idx =? d) then (Some 0, pfree pa s)
          else (None, count_stat (fun t => t <| faults_swapin := u32 (faults_swapin t + 1) |>) (s <| sw := sl_free slot (sw s) |>))
        else (None, count_stat (fun t => t <| faults_zero := u32 (faults_zero t + 1) |>) s) in
      match r with
      | Some r => (Some r, s)
      | None =>
          (Some 0, set_word pt idx (Z.lor (Z.lor pa (page_bits (Z.lor VM_USER (if has d DESC_WP then 0 else VM_WRITE)))) DESC_USED) s)
      end.
(** [None] if it waits for a slot for good. *)
Definition vm_fault (i : nat) (va : Z) (write : bool) (s : vm) : option Z * vm :=
  let pt := pagetable i va s in
  if pt =? 0 then (Some (- EFAULT), s)
  else
    let idx := PAGE_INDEX va in
    let d := word s pt idx in
    if has d PDT_RESIDENT then
      if has d DESC_SUPER then (Some (- EFAULT), s)
      else if negb write || negb (has d DESC_WP) then (Some VM_FAULT_NOCHANGE, s)
      else if negb (has d DESC_SW_COW) then (Some (- EFAULT), s)
      else fault_cow pt idx d s
    else if has d DESC_SW_NONE || negb (has d (Z.lor DESC_SW_LAZY DESC_SW_SWAP)) then (Some (- EFAULT), s)
    else if write && has d DESC_WP then (Some (- EFAULT), s)
    else fault_absent pt idx d s.

Definition vm_translate (i : nat) (va : Z) (write : bool) (s : vm) : Z :=
  let pt := pagetable i va s in
  if pt =? 0 then 0
  else
    let d := word s pt (PAGE_INDEX va) in
    if negb (has d PDT_RESIDENT) then 0
    else if write && has d DESC_WP then 0
    else if has d DESC_SUPER then 0
    else Z.lor (page_of d) (Z.land va PAGE_MASK).

(** *** Looking *)

Definition table_va (n : nat) : Z := USER_VA_BASE + Z.of_nat n * TABLE_SPAN.
Definition USER_TABLES : nat := 1024.
Definition vm_mapped_pages (i : nat) (s : vm) : Z :=
  foldl (fun n k =>
    let pt := pagetable i (table_va k) s in
    if pt =? 0 then n
    else foldl (fun n e => if desc_has_page (word s pt (Z.of_nat e)) then u32 (n + 1) else n) n (seq 0 PAGE_ENTRIES))
    0 (seq 0 USER_TABLES).
Definition vm_shared_page (i : nat) (va : Z) (s : vm) : Z :=
  let pt := pagetable i va s in
  if pt =? 0 then 0
  else let d := word s pt (PAGE_INDEX va) in if has d DESC_SW_SHARED && desc_has_page d then page_of d else 0.
Definition vm_is_mapped (i : nat) (va : Z) (s : vm) : bool :=
  let pt := pagetable i va s in negb (pt =? 0) && desc_owned (word s pt (PAGE_INDEX va)).
Definition vm_page_prot (i : nat) (va : Z) (s : vm) : Z :=
  let pt := pagetable i va s in if pt =? 0 then -1 else desc_prot (word s pt (PAGE_INDEX va)).

(** The runs of pages that may be used alike, handed in order to [fn], which
    may stop the walk. *)
Section regions.
Context {A : Type} (fn : Z -> Z -> Z -> bool -> A -> bool * A).
Record walk := mk_walk { stopped : bool; start : Z; cur : Z; cur_shared : bool; acc : A }.
Definition region_page (va d : Z) (s : vm) (k : walk) : walk :=
  let prot := desc_prot d in
  let shared := (0 <=? prot) && (has d DESC_SW_SHARED || (has d PDT_RESIDENT && (pg_refcount (page_of d) (mm s) =? 0))) in
  if negb (prot =? cur k) || negb (Bool.eqb shared (cur_shared k)) then
    let '(stop, x) := if 0 <=? cur k then fn (start k) va (cur k) (cur_shared k) (acc k) else (false, acc k) in
    if stop : bool then mk_walk true (start k) (cur k) (cur_shared k) x else mk_walk false va prot shared x
  else k.
Fixpoint region_entries (n e : nat) (va pt : Z) (s : vm) (k : walk) : walk :=
  match n with
  | O => k
  | Datatypes.S n' =>
      let k := region_page (va + Z.of_nat e * PAGE_SIZE) (if pt =? 0 then 0 else word s pt (Z.of_nat e)) s k in
      if stopped k || ((pt =? 0) && (cur k <? 0)) then k else region_entries n' (Datatypes.S e) va pt s k
  end.
Definition vm_regions (i : nat) (a : A) (s : vm) : A :=
  let k := foldl (fun k n =>
      if stopped k then k else region_entries PAGE_ENTRIES 0 (table_va n) (pagetable i (table_va n) s) s k)
    (mk_walk false 0 (-1) false a) (seq 0 USER_TABLES) in
  if negb (stopped k) && (0 <=? cur k) then snd (fn (start k) USER_VA_END (cur k) (cur_shared k) (acc k)) else acc k.
End regions.

(** *** Changing and removing *)

(** Recursion where C starts again; [None] if it never ends. *)
Fixpoint vm_protect (n : nat) (i : nat) (va flags : Z) (s : vm) : option Z * vm :=
  let pt := pagetable i va s in
  if pt =? 0 then (Some (-1), s)
  else
    let idx := PAGE_INDEX va in
    let d := word s pt idx in
    if negb (desc_owned d) then (Some (-1), s)
    else if negb (desc_has_page d) then
      let nd := Z.land d (not32 (Z.lor DESC_WP DESC_SW_NONE)) in
      let nd := if has flags VM_WRITE then nd else Z.lor nd DESC_WP in
      let nd := if has flags VM_NONE then Z.lor nd DESC_SW_NONE else nd in
      (Some 0, set_word pt idx nd s)
    else
      let pa := page_of d in
      let finish (pa flags : Z) (s : vm) : option Z * vm :=
        (Some 0, set_word pt idx
           (if has flags VM_NONE then Z.lor (Z.lor pa DESC_SW_NONE) (if has flags VM_SHARED then DESC_SW_SHARED else 0)
            else Z.lor pa (page_bits (Z.lor flags VM_USER))) s) in
      let grant := has flags VM_WRITE && negb (has flags VM_NONE) in
      if has d DESC_SW_SHARED then
        finish pa (Z.lor flags VM_SHARED) (if grant then s <| tc := tc_dirty pa (tc s) |> else s)
      else if grant && (1 <? pg_refcount pa (mm s)) then
        let '(copy, s) := page_alloc_user s in
        if copy =? 0 then (Some (-1), s)
        else if negb (word s pt idx =? d) then
          match n with O => (None, pfree copy s) | Datatypes.S n' => vm_protect n' i va flags (pfree copy s) end
        else finish copy flags (pfree pa (page_copy copy pa s))
      else finish pa flags s.

Definition desc_release (d : Z) (s : vm) : vm :=
  if desc_has_page d then
    let s := if has d DESC_SW_SHARED
             then let '(t, w) := tc_release (page_of d) (tc s) (mm s) in s <| tc := t |> <| mm := w |> else s in
    pfree (page_of d) s
  else if has d DESC_SW_SWAP then s <| sw := sl_free (slot_of d) (sw s) |>
  else s.

Definition vm_move (i : nat) (from to : Z) (s : vm) : Z * vm :=
  let '(to_pt, s) := as_pagetable i to true s in
  let from_pt := pagetable i from s in
  if to_pt =? 0 then (-1, s)
  else if from_pt =? 0 then (0, s)
  else
    let d := word s from_pt (PAGE_INDEX from) in
    if negb (desc_owned d) then (0, s)
    else (1, set_word from_pt (PAGE_INDEX from) 0 (set_word to_pt (PAGE_INDEX to) d s)).

Definition vm_unmap (i : nat) (va : Z) (s : vm) : vm :=
  let pt := pagetable i va s in
  if pt =? 0 then s
  else
    let d := word s pt (PAGE_INDEX va) in
    if negb (desc_owned d) then s else desc_release d (set_word pt (PAGE_INDEX va) 0 s).

(** The pages from [lo] up to [hi]. *)
Definition pages_between (lo hi : Z) : list Z := (fun k => lo + Z.of_nat k * PAGE_SIZE) <$> seq 0 (Z.to_nat ((hi - lo) / PAGE_SIZE)).
(** All of the pages made lazy, or none. *)
Definition map_all_lazy (i : nat) (flags lo hi : Z) (s : vm) : bool * vm :=
  let '(ok, (done, s)) := try_each (fun va '(done, s) =>
      let '(r, s) := vm_map_lazy i va flags s in if r <? 0 then (false, (done, s)) else (true, (va :: done, s)))
    (pages_between lo hi) ([], s) in
  if ok then (true, s) else (false, foldl (fun s va => vm_unmap i va s) s done).
Definition vm_brk (i : nat) (addr : Z) (s : vm) : Z * vm :=
  match spaces s !! i with
  | None => (0, s)
  | Some a =>
      if (addr <? brk_start a) || (USER_BRK_LIMIT <? addr) then (brk_cur a, s)
      else
        let old_end := PMM.PAGE_ALIGN_UP (brk_cur a) in
        let new_end := PMM.PAGE_ALIGN_UP addr in
        let '(ok, s) :=
          if old_end <? new_end then
            let pages := (new_end - old_end) / PAGE_SIZE in
            if negb (vm_commit_ok pages s) || (pg_available (mm s) <? pages / 448 + 2) then (false, s)
            else if existsb (fun va => vm_is_mapped i va s) (pages_between old_end new_end) then (false, s)
            else map_all_lazy i (Z.lor VM_USER VM_WRITE) old_end new_end s
          else (true, foldl (fun s va => vm_unmap i va s) s (pages_between new_end old_end)) in
        if ok then (addr, set_space i (space s i <| brk_cur := addr |>) s) else (brk_cur a, s)
  end.

(** *** Sharing, copying and giving back *)

Definition vm_share (i : nat) (s : vm) : vm :=
  match spaces s !! i with Some a => set_space i (a <| refs := refs a + 1 |>) s | None => s end.

Definition free_tables (pg : Z) (s : vm) : vm :=
  snd (snd (loop 1048577 (fun '(pg, s) =>
    if pg =? 0 then (false, (pg, s)) else let next := word s pg 0 in (true, (next, pfree pg s))) (pg, s))).
Definition destroy_table (pt : Z) (s : vm) : vm :=
  foldl (fun s e =>
    let d := word s pt (Z.of_nat e) in
    if desc_owned d then set_word pt (Z.of_nat e) 0 (desc_release d s) else s) s (seq 0 PAGE_ENTRIES).
Definition vm_destroy (i : nat) (s : vm) : vm :=
  match spaces s !! i with
  | None => s
  | Some a =>
      if negb (used a) then s
      else if 1 <? refs a then set_space i (a <| refs := refs a - 1 |>) s
      else
        let s := foldl (fun s n =>
          let pt := pagetable i (table_va n) s in if pt =? 0 then s else destroy_table pt s) s (seq 0 USER_TABLES) in
        let s := free_tables (tables (space s i)) s in
        set_space i (space s i <| used := false |> <| tables := 0 |> <| slot_page := 0 |> <| slot_off := 0 |>
                       <| brk_start := 0 |> <| brk_cur := 0 |> <| root := 0 |>) s
  end.

(** One entry of the parent's table; not, when memory runs out. *)
Definition clone_entry (i : nat) (pt : Z) (va : Z) (e : nat) (s : vm) : bool * vm :=
  let d := word s pt (Z.of_nat e) in
  if negb (desc_owned d) then (true, s)
  else
    let '(dst, s) := as_pagetable i va true s in
    if dst =? 0 then (false, s)
    else
      let put (d : Z) (s : vm) : bool * vm := (true, set_word dst (PAGE_INDEX va) d s) in
      if has d DESC_SW_LAZY then put d s
      else if has d DESC_SW_SWAP then
        let '(r, w) := sl_ref (slot_of d) (sw s) in
        let s := s <| sw := w |> in if r <? 0 then (false, s) else put d s
      else
        let pa := page_of d in
        let '(shared, s) := if has d DESC_SW_SHARED && desc_has_page d then pref pa s else (false, s) in
        if shared : bool then put (Z.land d (not32 DESC_USED)) (s <| tc := tc_dup pa (tc s) |>)
        else if has d PDT_RESIDENT && (pg_refcount pa (mm s) =? 0) then put d s
        else
          let '(more, s) := pref pa s in
          if more : bool then
            if has d PDT_RESIDENT && (negb (has d DESC_WP) || has d DESC_SW_COW) then
              let d := Z.land (Z.lor (Z.lor d DESC_WP) DESC_SW_COW) (not32 DESC_USED) in
              put d (set_word pt (Z.of_nat e) d s)
            else put d s
          else
            let '(copy, s) := page_alloc_user s in
            if copy =? 0 then (false, s)
            else put (Z.lor copy (Z.land d (not32 (Z.lor PAGE_ADDR_MASK DESC_SW_COW)))) (page_copy copy pa s).
Definition clone_table (src i n : nat) (s : vm) : bool * vm :=
  let va := table_va n in
  let pt := pagetable src va s in
  if pt =? 0 then (true, s)
  else try_each (fun e s => clone_entry i pt (va + Z.of_nat e * PAGE_SIZE) e s) (seq 0 PAGE_ENTRIES) s.
Definition vm_clone (src : nat) (s : vm) : option nat * vm :=
  let pages := vm_mapped_pages src s in
  if pg_available (mm s) <? pages / 448 + 4 then (None, s)
  else
    let '(r, s) := vm_create s in
    match r with
    | None => (None, s)
    | Some i =>
        let '(ok, s) := try_each (clone_table src i) (seq 0 USER_TABLES) s in
        if ok then
          let p := space s src in
          (Some i, set_space i (space s i <| brk_start := brk_start p |> <| brk_cur := brk_cur p |> <| img := img p |> <| busy := false |>) s)
        else (None, vm_destroy i s)
    end.

(** *** Bringing everything back *)

(** The result is there when the walk has ended early. *)
Definition swapoff_entry (i n : nat) (pt : Z) (e : nat) (s : vm) : option Z * bool * vm :=
  let d := word s pt (Z.of_nat e) in
  if negb (has d DESC_SW_SWAP) then (None, true, s)
  else
    let '(pa, s) := if RESERVE_PAGES <? pg_available (mm s) then palloc s else (0, s) in
    if pa =? 0 then (Some (- ENOMEM), false, s)
    else
      let slot := slot_of d in
      let '(idle, s) := swap_wait_idle patience slot s in
      if negb (idle : bool) then (None, false, s)
      else
        let '(err, s) := swap_in slot pa s in
        if err <? 0 then (Some (- EIO), false, pfree pa s)
        else if negb (used (space s i)) || negb (pagetable i (table_va n + Z.of_nat e * PAGE_SIZE) s =? pt) || negb (word s pt (Z.of_nat e) =? d)
        then (None, true, pfree pa s)
        else
          let s := s <| sw := sl_free slot (sw s) |> in
          (None, true, set_word pt (Z.of_nat e)
             (if has d DESC_SW_NONE then Z.lor pa DESC_SW_NONE
              else Z.lor pa (page_bits (Z.lor VM_USER (if has d DESC_WP then 0 else VM_WRITE)))) s).
Definition swapoff_table (i n : nat) (st : option Z * vm) : bool * (option Z * vm) :=
  let pt := pagetable i (table_va n) (snd st) in
  if pt =? 0 then (true, st)
  else try_each (fun e '(_, s) => let '(r, go, s) := swapoff_entry i n pt e s in (go, (r, s))) (seq 0 PAGE_ENTRIES) st.
Definition vm_swapoff (s : vm) : option Z * vm :=
  let '(go, (r, s)) := try_each (fun i st =>
      if used (space (snd st) i) then try_each (swapoff_table i) (seq 0 USER_TABLES) st else (true, st))
    (seq 0 MAX_SPACES) (None, s) in
  if go then (Some 0, s) else (r, s).
End code.
End VM.
