(* ===== verification/Vmtab.v ===== *)
(** * Address spaces: the tables (kernel/vm.c)

    The tables of the kernel's map and of each address space as trees of
    512-byte blocks in pages of their own, and what reading, writing and
    adding a table does to the descriptors the walk finds. *)

From S2P Require Import Prelude Pmm Pages Swap Vm.
Local Open Scope Z_scope.

Module VMTAB.
Import VM.

(** ** Bytes and words of held pages *)

Section words.
Context {W : Type} `{PageRefs W}.

(** What a store into a held page leaves alone. *)
Record stored (w w' : W) (lo hi : Z) : Prop := {
  st_ok : pg_ok w';
  st_held : forall a, pg_held w' a = pg_held w a;
  st_foreign : forall a, pg_foreign w' a = pg_foreign w a;
  st_other : forall y, y < lo \/ hi <= y -> pg_load w' y = pg_load w y }.
Lemma store_bytes_ok w p a bs : pg_ok w -> 0 < pg_held w p -> p <= a -> a + Z.of_nat (length bs) <= p + 4096 ->
  Forall (fun b => 0 <= b < 256) bs ->
  stored w (store_bytes a bs w) a (a + Z.of_nat (length bs)) /\ page_bytes a (length bs) (store_bytes a bs w) = bs.
Proof.
  unfold store_bytes. intros Hw Hp Hlo Hhi Hbs. revert w a Hw Hp Hlo Hhi.
  induction Hbs as [|b bs Hb _ IH]; intros w a Hw Hp Hlo Hhi; cbn [foldl length]; [by split; [constructor|]|].
  cbn [length] in Hhi. destruct (pg_store_spec w p a b Hw Hp ltac:(unfold in_page; lia) Hb) as (W1 & W2 & W3).
  destruct (IH (pg_store a b w) (a + 1) W1 ltac:(by rewrite W2) ltac:(lia) ltac:(lia)) as [[G1 G2 G3 G4] G5].
  set (w' := fst _) in *. split; [constructor; try done|].
  - intros c. by rewrite G2, W2.
  - intros c. by rewrite G3, pg_foreign_store.
  - intros y Hy. rewrite G4, W3 by lia. by rewrite (proj2 (Z.eqb_neq y a)) by lia.
  - unfold page_bytes in *. cbn [seq fmap list_fmap]. f_equal.
    + rewrite Z.add_0_r, G4, W3, Z.eqb_refl by lia. done.
    + rewrite <- G5 at 2. rewrite <- (fmap_S_seq 0 (length bs)), <- list_fmap_compose.
      apply list_fmap_ext. intros i k _. cbn. f_equal. lia.
Qed.
Lemma store32_ok w p a v : pg_ok w -> 0 < pg_held w p -> p <= a -> a + 4 <= p + 4096 -> 0 <= v < 4294967296 ->
  stored w (store32 a v w) a (a + 4) /\ load32 (store32 a v w) a = v.
Proof.
  intros Hw Hp Hlo Hhi Hv. pose proof (store_bytes_ok w p a (be_bytes 4 v) Hw Hp Hlo) as G. rewrite length_be_bytes in G.
  destruct (G ltac:(lia) (be_bytes_range 4 v)) as [G1 G2]. split; [done|].
  unfold load32, store32. rewrite G2, be_be_bytes. by apply Z.mod_small.
Qed.
Lemma load32_other w w' lo hi a : stored w w' lo hi -> a + 4 <= lo \/ hi <= a -> load32 w' a = load32 w a.
Proof. intros Hs Ha. apply load32_eq. intros y Hy. apply (st_other _ _ _ _ Hs). lia. Qed.
Lemma load32_range w a : pg_ok w -> 0 <= load32 w a < 4294967296.
Proof.
  intros Hw. unfold load32, page_bytes, be. cbn [seq fmap list_fmap foldl].
  pose proof (pg_load_byte w (a + Z.of_nat 0) Hw). pose proof (pg_load_byte w (a + Z.of_nat 1) Hw).
  pose proof (pg_load_byte w (a + Z.of_nat 2) Hw). pose proof (pg_load_byte w (a + Z.of_nat 3) Hw). lia.
Qed.
End words.

(** ** Bits *)

Lemma has_or a b m : has (Z.lor a b) m = has a m || has b m.
Proof.
  unfold has. rewrite Z.land_lor_distr_l. destruct (Z.eqb_spec (Z.land a m) 0) as [->|Ha]; [by rewrite Z.lor_0_l|].
  cbn [negb orb]. apply negb_true_iff, Z.eqb_neq. intros E. apply Z.lor_eq_0_iff in E as [E _]. done.
Qed.
Lemma has_mask_or a m n : has a (Z.lor m n) = has a m || has a n.
Proof. unfold has. rewrite !(Z.land_comm a). apply (has_or m n a). Qed.
Lemma has_0 m : has 0 m = false.
Proof. unfold has. by rewrite Z.land_0_l. Qed.
(** Clearing bits. *)
Lemma has_clear a c m : has (Z.land a c) m = has a (Z.land c m).
Proof. unfold has. by rewrite Z.land_assoc. Qed.
Definition is_u32 (x : Z) : Prop := 0 <= x < 4294967296.
Lemma u32_bits x : is_u32 x <-> x = Z.land x (Z.ones 32).
Proof. unfold is_u32. rewrite Z.land_ones by lia. change (2 ^ 32) with 4294967296. pose proof (Z.mod_pos_bound x 4294967296). split; [intros Hx; by rewrite Z.mod_small|lia]. Qed.
Lemma lor_u32 a b : is_u32 a -> is_u32 b -> is_u32 (Z.lor a b).
Proof. rewrite !u32_bits. intros Ha Hb. by rewrite Z.land_lor_distr_l, <- Ha, <- Hb. Qed.
Lemma land_u32 a b : is_u32 a \/ is_u32 b -> is_u32 (Z.land a b).
Proof.
  rewrite !u32_bits. intros [Ha|Hb]; [|by rewrite <- Z.land_assoc, <- Hb].
  by rewrite <- Z.land_assoc, (Z.land_comm b), Z.land_assoc, <- Ha.
Qed.
Lemma testbit_high m k n : 0 <= m < 2 ^ k -> 0 <= k <= n -> Z.testbit m n = false.
Proof.
  intros Hm Hn. apply Z.testbit_false; [lia|]. rewrite Z.div_small; [done|]. split; [lia|].
  apply (Z.lt_le_trans _ (2 ^ k)); [lia|]. apply Z.pow_le_mono_r; lia.
Qed.
(** The low bits of an aligned address. *)
Lemma land_low a m k : 0 <= k -> a mod 2 ^ k = 0 -> 0 <= m < 2 ^ k -> Z.land a m = 0.
Proof.
  intros Hk Ha Hm. apply Z.bits_inj'. intros n Hn. rewrite Z.land_spec, Z.bits_0.
  destruct (Z.lt_ge_cases n k) as [Hlt|Hge].
  - replace (Z.testbit a n) with false; [done|]. symmetry. rewrite <- (Z.mod_pow2_bits_low a k n) by lia. by rewrite Ha, Z.bits_0.
  - by rewrite (testbit_high m k n), andb_false_r by lia.
Qed.
Lemma has_aligned a m : a mod 4096 = 0 -> 0 <= m < 4096 -> has a m = false.
Proof. intros Ha Hm. unfold has. by rewrite (land_low a m 12). Qed.
Lemma lor_add a m k : 0 <= k -> a mod 2 ^ k = 0 -> 0 <= m < 2 ^ k -> Z.lor a m = a + m.
Proof. intros Hk Ha Hm. rewrite <- Z.lxor_lor by (by apply (land_low a m k)). symmetry. apply Z.add_nocarry_lxor. by apply (land_low a m k). Qed.
(** An address and the bits under it, taken apart again. *)
Lemma land_high a k : 0 <= k <= 32 -> 0 <= a < 4294967296 -> Z.land a (4294967296 - 2 ^ k) = a - a mod 2 ^ k.
Proof.
  intros Hk Ha. replace (4294967296 - 2 ^ k) with (Z.shiftl (Z.ones (32 - k)) k).
  2:{ rewrite Z.shiftl_mul_pow2, Z.ones_equiv by lia. assert (E : 2 ^ (32 - k) * 2 ^ k = 4294967296).
      { rewrite <- Z.pow_add_r by lia. by replace (32 - k + k) with 32 by lia. } lia. }
  replace (a - a mod 2 ^ k) with (Z.shiftl (Z.shiftr a k) k).
  2:{ rewrite Z.shiftl_mul_pow2, Z.shiftr_div_pow2 by lia. pose proof (Z.div_mod a (2 ^ k) ltac:(apply Z.pow_nonzero; lia)). lia. }
  apply Z.bits_inj'. intros n Hn. rewrite Z.land_spec, !Z.shiftl_spec by lia.
  destruct (Z.lt_ge_cases n k) as [Hlt|Hge]; [by rewrite !(Z.testbit_neg_r _ (n - k)), andb_false_r by lia|].
  rewrite Z.shiftr_spec by lia. replace (n - k + k) with n by lia.
  destruct (Z.lt_ge_cases n 32) as [Hlt|Hge']; [by rewrite Z.ones_spec_low, andb_true_r by lia|].
  rewrite Z.ones_spec_high, andb_false_r by lia. symmetry. apply (testbit_high a 32); lia.
Qed.

(** ** Trees of tables *)

(** The root, the pointer table of a root entry, the page table of a pointer entry. *)
Inductive key := KRoot | KPtr (r : Z) | KPage (r p : Z).
#[export] Instance key_eq_dec : EqDecision key.
Proof. solve_decision. Defined.
Definition tabs_of := key -> option Z.
Definition add_tab (k : key) (t : Z) (tabs : tabs_of) : tabs_of := fun k' => if decide (k' = k) then Some t else tabs k'.

(** A table's entry: the walk's test, and the address it takes from it. The
    processor's own marks may be set in it. *)
Definition ent (mask e : Z) (o : option Z) : Prop :=
  match o with
  | Some b => has e UDT_RESIDENT = true /\ Z.land e mask = b
  | None => has e UDT_RESIDENT = false
  end.
Definition blk_page (t : Z) : Z := t - t mod 4096.
Lemma blk_in t y : t mod 512 = 0 -> t <= y < t + 512 -> in_page (blk_page t) y.
Proof. unfold in_page, blk_page. intros. Z.div_mod_to_equations. lia. Qed.
Lemma ent_fresh t mask : t mod 512 = 0 -> 0 <= t < 4294967296 -> mask = PTR_TABLE_MASK \/ mask = PAGE_TABLE_MASK ->
  0 <= Z.lor t UDT_RESIDENT < 4294967296 /\ ent mask (Z.lor t UDT_RESIDENT) (Some t).
Proof.
  intros Ht Hr Hm. rewrite (lor_add t UDT_RESIDENT 9) by done. unfold UDT_RESIDENT.
  assert (Hb : 0 <= t + 2 < 4294967296) by (Z.div_mod_to_equations; lia). split; [done|]. split.
  - rewrite <- (lor_add t 2 9) by done. rewrite has_or. unfold has at 2. cbn. by rewrite orb_true_r.
  - destruct Hm as [-> | ->]; [change PTR_TABLE_MASK with (4294967296 - 2 ^ 9)|change PAGE_TABLE_MASK with (4294967296 - 2 ^ 8)];
      rewrite land_high by lia; cbn [Z.pow Z.pow_pos Pos.iter Z.mul Pos.mul]; Z.div_mod_to_equations; lia.
Qed.

Section tree.
Context {W : Type} `{PageRefs W}.
Record tree (w : W) (pgs : list Z) (tabs : tabs_of) : Prop := {
  tr_root : is_Some (tabs KRoot);
  tr_inj : forall k k' t, tabs k = Some t -> tabs k' = Some t -> k = k';
  tr_block : forall k t, tabs k = Some t -> 0 < t < 4294967296 /\ t mod 512 = 0 /\ blk_page t ∈ pgs;
  tr_orphan : forall r p, tabs (KPtr r) = None -> tabs (KPage r p) = None;
  tr_rootw : forall t r, tabs KRoot = Some t -> 0 <= r < 128 -> ent PTR_TABLE_MASK (load32 w (t + 4 * r)) (tabs (KPtr r));
  tr_ptrw : forall t r p, tabs (KPtr r) = Some t -> 0 <= p < 128 -> ent PAGE_TABLE_MASK (load32 w (t + 4 * p)) (tabs (KPage r p)) }.
(** The descriptor the walk ends at. *)
Definition tdesc (w : W) (tabs : tabs_of) (r p e : Z) : Z :=
  match tabs (KPage r p) with Some t => load32 w (t + 4 * e) | None => 0 end.

Lemma blocks_apart w pgs tabs k k' t t' y : tree w pgs tabs -> tabs k = Some t -> tabs k' = Some t' -> k <> k' ->
  t <= y < t + 512 -> y < t' \/ t' + 512 <= y.
Proof.
  intros Ht H1 H2 Hk Hy. destruct (tr_block _ _ _ Ht k t H1) as (A1 & A2 & _). destruct (tr_block _ _ _ Ht k' t' H2) as (B1 & B2 & _).
  destruct (Z.eq_dec t t') as [->|Hne]; [by pose proof (tr_inj _ _ _ Ht k k' t' H1 H2)|]. Z.div_mod_to_equations. lia.
Qed.
Lemma tabs_frame w w' pgs tabs : tree w pgs tabs ->
  (forall k t y, tabs k = Some t -> t <= y < t + 512 -> pg_load w' y = pg_load w y) ->
  tree w' pgs tabs /\ forall r p e, 0 <= e < 64 -> tdesc w' tabs r p e = tdesc w tabs r p e.
Proof.
  intros [A B C D E F] Hw. split.
  - constructor; try done.
    + intros t r Ht Hr. rewrite (load32_eq w w'); [by apply E|]. intros y Hy. apply (Hw KRoot t); [done|lia].
    + intros t r p Ht Hp. rewrite (load32_eq w w'); [by apply F|]. intros y Hy. apply (Hw (KPtr r) t); [done|lia].
  - intros r p e He. unfold tdesc. destruct (tabs (KPage r p)) as [t|] eqn:Et; [|done]. apply load32_eq. intros y Hy.
    apply (Hw (KPage r p) t); [done|lia].
Qed.
Lemma tree_more w pgs pgs' tabs : (forall a, a ∈ pgs -> a ∈ pgs') -> tree w pgs tabs -> tree w pgs' tabs.
Proof. intros Hp [A B C D E F]. constructor; try done. intros k t Hk. destruct (C k t Hk) as (C1 & C2 & C3). auto. Qed.

Lemma tree_set w w' pgs tabs r p t e v : tree w pgs tabs -> tabs (KPage r p) = Some t -> 0 <= e < 64 ->
  stored w w' (t + 4 * e) (t + 4 * e + 4) -> load32 w' (t + 4 * e) = v ->
  tree w' pgs tabs /\ forall r' p' e', 0 <= e' < 64 ->
    tdesc w' tabs r' p' e' = if decide (r' = r /\ p' = p /\ e' = e) then v else tdesc w tabs r' p' e'.
Proof.
  intros Ht Hk He Hs Hv. pose proof Ht as [A B C D E F]. assert (Ho : forall k t' y, tabs k = Some t' -> k <> KPage r p -> t' <= y < t' + 512 ->
    pg_load w' y = pg_load w y).
  { intros k t' y Hk' Hne Hy. apply (st_other _ _ _ _ Hs). pose proof (blocks_apart w pgs tabs k (KPage r p) t' t y Ht Hk' Hk Hne Hy). lia. }
  split.
  - constructor; try done.
    + intros t' r' Ht' Hr'. rewrite (load32_eq w w'); [by apply E|]. intros y Hy. apply (Ho KRoot t'); [done|done|lia].
    + intros t' r' p' Ht' Hp'. rewrite (load32_eq w w'); [by apply F|]. intros y Hy. apply (Ho (KPtr r') t'); [done|done|lia].
  - intros r' p' e' He'. unfold tdesc. destruct (decide (KPage r' p' = KPage r p)) as [Ek|Ek].
    + injection Ek as -> ->. rewrite Hk. case_decide as Ed; [by destruct Ed as (_ & _ & ->)|].
      apply (load32_other _ _ _ _ _ Hs). assert (e' <> e) by (intros ->; by apply Ed). lia.
    + rewrite decide_False by (intros (-> & -> & _); by apply Ek). destruct (tabs (KPage r' p')) as [t'|] eqn:Et; [|done].
      apply load32_eq. intros y Hy. apply (Ho (KPage r' p') t'); [done|done|lia].
Qed.

(** A new table, cleared, linked from its parent. *)
Record fresh_block (w' : W) (pgs : list Z) (tabs : tabs_of) (t : Z) : Prop := {
  fb_range : 0 < t < 4294967296 /\ t mod 512 = 0 /\ blk_page t ∈ pgs;
  fb_new : forall k, tabs k <> Some t;
  fb_zero : forall y, t <= y < t + 512 -> pg_load w' y = 0 }.
Lemma tree_add w w' pgs tabs k parent idx mask t : tree w pgs tabs -> fresh_block w' pgs tabs t ->
  match k with
  | KRoot => False
  | KPtr r => tabs KRoot = Some parent /\ idx = r /\ mask = PTR_TABLE_MASK
  | KPage r p => tabs (KPtr r) = Some parent /\ idx = p /\ mask = PAGE_TABLE_MASK
  end -> 0 <= idx < 128 -> tabs k = None ->
  stored w w' (parent + 4 * idx) (parent + 4 * idx + 4) -> load32 w' (parent + 4 * idx) = Z.lor t UDT_RESIDENT ->
  tree w' pgs (add_tab k t tabs) /\ forall r p e, 0 <= e < 64 -> tdesc w' (add_tab k t tabs) r p e = tdesc w tabs r p e.
Proof.
  intros Ht [(T1 & T2 & T3) Tn Tz] Hp Hi Hk Hs Hv. pose proof Ht as [A B C D E F]. unfold add_tab.
  assert (Hpar : exists kp, tabs kp = Some parent /\ forall r p, kp <> KPage r p).
  { destruct k as [|r|r p]; [done|exists KRoot|exists (KPtr r)]; (split; [apply Hp|done]). }
  destruct Hpar as (kp & Hkp & Hnp).
  assert (Ho : forall k' t' y, tabs k' = Some t' -> t' <= y < t' + 512 -> y < parent + 4 * idx \/ parent + 4 * idx + 4 <= y -> pg_load w' y = pg_load w y).
  { intros k' t' y _ _ Hy. by apply (st_other _ _ _ _ Hs). }
  assert (Hw : forall k' t' j, tabs k' = Some t' -> 0 <= j < 128 -> k' <> kp \/ j <> idx -> load32 w' (t' + 4 * j) = load32 w (t' + 4 * j)).
  { intros k' t' j Hk' Hj Hd. apply load32_eq. intros y Hy. apply (Ho k' t'); [done|lia|].
    destruct (decide (k' = kp)) as [->|Hne]; [rewrite Hkp in Hk'; injection Hk' as ->; destruct Hd; [done|lia]|].
    pose proof (blocks_apart w pgs tabs k' kp t' parent y Ht Hk' Hkp Hne). lia. }
  assert (Hz : forall j, 0 <= j < 128 -> load32 w' (t + 4 * j) = 0) by (intros j Hj; apply load32_zero; intros y Hy; apply Tz; lia).
  assert (Hent : forall m, m = PTR_TABLE_MASK \/ m = PAGE_TABLE_MASK -> ent m (load32 w' (parent + 4 * idx)) (Some t)).
  { intros m Hm. rewrite Hv. by apply ent_fresh; [|lia|]. }
  split; [constructor|].
  - case_decide; [done|exact A].
  - intros k1 k2 t'. case_decide as E1; case_decide as E2; intros H1 H2; [congruence| | |by apply (B _ _ t')].
    + injection H1 as <-. by apply Tn in H2.
    + injection H2 as <-. by apply Tn in H1.
  - intros k1 t'. case_decide; [intros [= <-]; auto|apply C].
  - intros r p. case_decide as E1; [done|]. intros Hr. case_decide as E2; [|by apply D]. subst k. destruct Hp as [Hp _]. congruence.
  - intros t' r. case_decide as E1; [by subst k|]. intros Ht' Hr. case_decide as E2.
    + subst k. destruct Hp as (Hp & -> & _). rewrite Hp in Ht'. injection Ht' as ->. apply Hent. by left.
    + rewrite (Hw KRoot t' r); [by apply E|done|done|]. destruct (decide (KRoot = kp)) as [<-|]; [right|by left].
      destruct k as [|r'|r' p']; [done| |destruct Hp as [Hp _]; by pose proof (B _ _ _ Hp Hkp)].
      destruct Hp as (_ & -> & _). intros ->. done.
  - intros t' r p. case_decide as E1.
    + subst k. intros [= <-] Hp'. rewrite Hz by done. case_decide; [done|]. rewrite D by done. unfold ent. apply has_0.
    + intros Ht' Hp'. case_decide as E2.
      * subst k. destruct Hp as (Hp & -> & _). rewrite Hp in Ht'. injection Ht' as ->. apply Hent. by right.
      * rewrite (Hw (KPtr r) t' p); [by apply F|done|done|]. destruct (decide (KPtr r = kp)) as [<-|]; [right|by left].
        destruct k as [|r'|r' p']; [done|destruct Hp as [Hp _]; by pose proof (B _ _ _ Hp Hkp)|].
        destruct Hp as (Hp & -> & _). pose proof (B _ _ _ Hp Hkp) as Er. injection Er as ->. intros ->. done.
  - intros r p e He. unfold tdesc. case_decide as E1.
    + subst k. rewrite Hk. apply Hz. lia.
    + destruct (tabs (KPage r p)) as [t'|] eqn:Et; [|done]. apply (Hw (KPage r p)); [done|lia|]. left. intros E2. by apply (Hnp r p).
Qed.
End tree.

(** ** The tables of a state *)

(** Pages of a space by number, from the first. *)
Definition vpn (va : Z) : Z := (va - USER_VA_BASE) / 4096.
Definition ri (v : Z) : Z := 8 + v / 8192.
Definition pi (v : Z) : Z := (v / 64) mod 128.
Definition ei (v : Z) : Z := v mod 64.
Definition user_va (va : Z) : Prop := USER_VA_BASE <= va < USER_VA_END.
Lemma shift_land va k n : 0 <= k -> 0 <= n -> Z.land (Z.shiftr va k) (Z.ones n) = (va / 2 ^ k) mod 2 ^ n.
Proof. intros Hk Hn. by rewrite Z.land_ones, Z.shiftr_div_pow2 by lia. Qed.
Lemma va_index va : user_va va ->
  0 <= vpn va < 65536 /\ ROOT_INDEX va = ri (vpn va) /\ PTR_INDEX va = pi (vpn va) /\ PAGE_INDEX va = ei (vpn va).
Proof.
  unfold user_va, USER_VA_BASE, USER_VA_END, USER_VA_SIZE, ROOT_INDEX, PTR_INDEX, PAGE_INDEX, ri, pi, ei, vpn, USER_VA_BASE. intros Hva.
  change 127 with (Z.ones 7). change 63 with (Z.ones 6). rewrite !shift_land by lia.
  change (2 ^ 25) with 33554432. change (2 ^ 18) with 262144. change (2 ^ 12) with 4096. change (2 ^ 7) with 128. change (2 ^ 6) with 64.
  Z.div_mod_to_equations. lia.
Qed.
Lemma index_inj v v' : 0 <= v < 65536 -> 0 <= v' < 65536 -> ri v = ri v' -> pi v = pi v' -> ei v = ei v' -> v = v'.
Proof. unfold ri, pi, ei. intros. Z.div_mod_to_equations. lia. Qed.
Lemma vpn_range v : 0 <= v < 65536 -> 0 <= ri v < 128 /\ 0 <= pi v < 128 /\ 0 <= ei v < 64.
Proof. unfold ri, pi, ei. intros. Z.div_mod_to_equations. lia. Qed.

Section tables.
Context {W S T : Type} `{TextCache T W} `{SwapSlots S}.
#[local] Abbreviation vm := (@vm W S T).

Definition KERNEL : nat := 64.
Definition root_of (s : vm) (i : nat) : Z := if decide (i = KERNEL) then kernel_root s else root (space s i).
Fixpoint chain (w : W) (x : Z) (pgs : list Z) : Prop :=
  match pgs with [] => x = 0 | p :: ps => x = p /\ chain w (load32 w p) ps end.
(** Where the next table of a space goes: cleared, and past those it has. *)
Record bump (w : W) (a : addrspace) (pgs : list Z) (tabs : tabs_of) : Prop := {
  bu_chain : chain w (tables a) pgs;
  bu_page : slot_page a = hd 0 pgs;
  bu_off : pgs <> [] -> 512 <= slot_off a <= 4096 /\ slot_off a mod 512 = 0;
  bu_zero : forall y, pgs <> [] -> slot_page a + slot_off a <= y < slot_page a + 4096 -> pg_load w y = 0;
  bu_below : forall k t, tabs k = Some t -> blk_page t = slot_page a -> t < slot_page a + slot_off a;
  bu_link : forall k t, tabs k = Some t -> 512 <= t mod 4096 }.

Record tables_ok (L : nat -> bool) (pgs : nat -> list Z) (tabs : nat -> tabs_of) (s : vm) : Prop := {
  to_mm : pg_ok (mm s);
  to_len : length (spaces s) = KERNEL;
  to_dom : forall i, L i = true -> (i <= KERNEL)%nat;
  to_tree : forall i, L i = true -> tree (mm s) (pgs i) (tabs i) /\ tabs i KRoot = Some (root_of s i);
  to_none : forall i k, L i = false -> tabs i k = None;
  to_bump : forall i, i <> KERNEL -> bump (mm s) (space s i) (pgs i) (tabs i);
  to_held : forall i a, a ∈ pgs i -> pg_held (mm s) a = 1;
  to_apart : forall i j a, a ∈ pgs i -> a ∈ pgs j -> i = j;
  to_out : forall i a, a ∈ pgs i -> (i <= KERNEL)%nat;
  to_nodup : forall i, NoDup (pgs i);
  to_kernel : L KERNEL = false -> kernel_root s = 0 /\ pgs KERNEL = [] }.
Definition desc (s : vm) (tabs : nat -> tabs_of) (i : nat) (v : Z) : Z := tdesc (mm s) (tabs i) (ri v) (pi v) (ei v).

(** No byte of a table changes. *)
Lemma chain_frame w w' x pgs : (forall a y, a ∈ pgs -> a <= y < a + 4 -> pg_load w' y = pg_load w y) -> chain w x pgs -> chain w' x pgs.
Proof.
  revert x. induction pgs as [|p ps IH]; intros x Hb; [done|]. cbn [chain]. intros [-> Hc]. split; [done|].
  rewrite (load32_eq w w') by (intros y Hy; apply (Hb p); [by left|lia]). apply IH; [|done].
  intros a y Ha. apply Hb. by right.
Qed.
Lemma hd_elem (ps : list Z) : ps <> [] -> hd 0 ps ∈ ps.
Proof. destruct ps; [done|by left]. Qed.
Definition links (a : addrspace) : Z * Z * Z * Z := (root a, tables a, slot_page a, slot_off a).
Lemma bump_frame w w' a a' pgs tabs : (forall p y, p ∈ pgs -> in_page p y -> pg_load w' y = pg_load w y) ->
  links a' = links a -> bump w a pgs tabs -> bump w' a' pgs tabs.
Proof.
  intros Hb E1 [D1 D2 D3 D4 D5 D6]. injection E1 as E1 E2 E3 E4. constructor; rewrite ?E2, ?E3, ?E4; try done.
  - apply (chain_frame w); [|done]. intros p y Hp Hy. apply (Hb p); [done|unfold in_page; lia].
  - intros y Hne Hy. rewrite (Hb (slot_page a)); [by apply D4| |unfold in_page; destruct (D3 Hne); lia]. rewrite D2. by apply hd_elem.
Qed.
Lemma tree_page w w' pgs tabs : tree w pgs tabs -> (forall a y, a ∈ pgs -> in_page a y -> pg_load w' y = pg_load w y) ->
  tree w' pgs tabs /\ forall r p e, 0 <= e < 64 -> tdesc w' tabs r p e = tdesc w tabs r p e.
Proof.
  intros Ht Hb. apply tabs_frame; [done|]. intros k t y Hkt Hy. destruct (tr_block _ _ _ Ht k t Hkt) as (_ & T2 & T3).
  apply (Hb (blk_page t)); [done|by apply blk_in].
Qed.
Lemma tables_frame L pgs tabs s s' : tables_ok L pgs tabs s -> pg_ok (mm s') ->
  (forall i a y, a ∈ pgs i -> in_page a y -> pg_load (mm s') y = pg_load (mm s) y) ->
  (forall i a, a ∈ pgs i -> pg_held (mm s') a = pg_held (mm s) a) ->
  length (spaces s') = length (spaces s) ->
  (forall i, links (space s' i) = links (space s i)) -> kernel_root s' = kernel_root s ->
  tables_ok L pgs tabs s' /\ forall i v, 0 <= v < 65536 -> desc s' tabs i v = desc s tabs i v.
Proof.
  intros [A Al Ad B C D E F Fo G K] Hw Hb Hh Hn Hl Hk. split; [constructor; try done|].
  - by rewrite Hn.
  - intros i Hi. destruct (B i Hi) as [Ht Hr]. split; [by apply (tree_page (mm s)); [|apply Hb]|]. rewrite Hr. f_equal. unfold root_of.
    pose proof (Hl i) as E1. injection E1 as -> _ _ _. by rewrite Hk.
  - intros i Hi. apply (bump_frame (mm s) _ (space s i)); [apply Hb|apply Hl|by apply D].
  - intros i a Ha. rewrite (Hh i a Ha). by apply (E i).
  - intros Hki. rewrite Hk. by apply K.
  - intros i v Hv. unfold desc. destruct (vpn_range v Hv) as (_ & _ & He). destruct (L i) eqn:Ei; [|unfold tdesc; by rewrite C].
    destruct (B i Ei) as [Ht _]. by apply (tree_page (mm s) (mm s') (pgs i)); [|apply Hb|].
Qed.

(** ** Reading *)

Lemma space_lookup L pgs tabs s i : tables_ok L pgs tabs s -> (i < KERNEL)%nat -> spaces s !! i = Some (space s i).
Proof.
  intros Ht Hi. unfold space. destruct (spaces s !! i) eqn:E; [done|]. apply lookup_ge_None in E. pose proof (to_len _ _ _ _ Ht). lia.
Qed.
Lemma tree_walk w pgs tabs r p : tree w pgs tabs -> 0 <= r < 128 -> 0 <= p < 128 ->
  default 0 (tabs (KPage r p)) =
    let d := load32 w (default 0 (tabs KRoot) + 4 * r) in
    if negb (has d UDT_RESIDENT) then 0
    else let t := Z.land d PTR_TABLE_MASK in
      if t =? 0 then 0
      else let d := load32 w (t + 4 * p) in if negb (has d UDT_RESIDENT) then 0 else Z.land d PAGE_TABLE_MASK.
Proof.
  intros Ht Hr Hp. destruct (tr_root _ _ _ Ht) as [t0 E0]. rewrite E0. cbn [default id].
  pose proof (tr_rootw _ _ _ Ht t0 r E0 Hr) as Q1. destruct (tabs (KPtr r)) as [t1|] eqn:E1; cbn [ent] in Q1.
  - destruct Q1 as [-> ->]. cbn [negb]. destruct (tr_block _ _ _ Ht _ _ E1) as (B1 & _). rewrite (proj2 (Z.eqb_neq t1 0)) by lia.
    pose proof (tr_ptrw _ _ _ Ht t1 r p E1 Hp) as Q2. destruct (tabs (KPage r p)) as [t2|] eqn:E2; cbn [ent] in Q2.
    + destruct Q2 as [-> ->]. done.
    + by rewrite Q2.
  - rewrite Q1. cbn [negb]. by rewrite (tr_orphan _ _ _ Ht r p E1).
Qed.
Lemma pagetable_tab L pgs tabs s i va : tables_ok L pgs tabs s -> L i = true -> (i < KERNEL)%nat -> user_va va ->
  pagetable i va s = default 0 (tabs i (KPage (ri (vpn va)) (pi (vpn va)))).
Proof.
  intros Ht Hi Hlt Hva. unfold pagetable, as_pagetable. rewrite (space_lookup _ _ _ _ _ Ht Hlt).
  destruct (to_tree _ _ _ _ Ht i Hi) as [Htr Hr]. unfold root_of in Hr. rewrite decide_False in Hr by lia.
  destruct (va_index va Hva) as (Hv & E1 & E2 & _). destruct (vpn_range _ Hv) as (R1 & R2 & _).
  unfold user_va in Hva. rewrite (proj2 (Z.ltb_ge va _)), (proj2 (Z.leb_gt _ va)) by lia. cbn [orb].
  rewrite (tree_walk (mm s) (pgs i) (tabs i) (ri (vpn va)) (pi (vpn va))), Hr, E1, E2 by done. cbn [default id].
  unfold next_table, word. cbn [negb]. destruct (has _ UDT_RESIDENT); cbn [negb]; [|done]. destruct (_ =? 0); [done|].
  by destruct (has _ UDT_RESIDENT).
Qed.

(** ** Writing a descriptor *)

Lemma page_held L pgs tabs s i a : tables_ok L pgs tabs s -> a ∈ pgs i -> pg_held (mm s) a = 1 /\ 0 < a < 4294967296 /\ a mod 4096 = 0.
Proof.
  intros Ht Ha. pose proof (to_held _ _ _ _ Ht i a Ha) as Hh. pose proof (to_mm _ _ _ _ Ht) as Hw.
  pose proof (pg_held_page (mm s) a Hw ltac:(lia)). pose proof (pg_held_u32 (mm s) a Hw ltac:(lia)). split; [done|lia].
Qed.
(** A byte of a table lies in no page of another space. *)
Lemma table_byte L pgs tabs s i k t y j a : tables_ok L pgs tabs s -> tabs i k = Some t -> t <= y < t + 512 -> a ∈ pgs j -> in_page a y ->
  j = i /\ a = blk_page t.
Proof.
  intros Ht Hk Hy Ha Hin. assert (Hi : L i = true) by (destruct (L i) eqn:E; [done|]; by rewrite (to_none _ _ _ _ Ht i k E) in Hk).
  destruct (to_tree _ _ _ _ Ht i Hi) as [Htr _]. destruct (tr_block _ _ _ Htr k t Hk) as (_ & T2 & T3).
  destruct (page_held _ _ _ _ _ _ Ht Ha) as (_ & _ & M1). destruct (page_held _ _ _ _ _ _ Ht T3) as (_ & _ & M2).
  assert (a = blk_page t) as -> by (apply (in_page_same _ _ y); [done|done|done|by apply blk_in]).
  by split; [apply (to_apart _ _ _ _ Ht j i (blk_page t))|].
Qed.
Lemma bump_set w w' a pgs tabs k t e : bump w a pgs tabs -> tabs k = Some t -> t mod 512 = 0 -> blk_page t ∈ pgs -> 0 <= e < 128 ->
  (forall p, p ∈ pgs -> p mod 4096 = 0) -> stored w w' (t + 4 * e) (t + 4 * e + 4) -> bump w' a pgs tabs.
Proof.
  intros [D1 D2 D3 D4 D5 D6] Hk Ht Hp He Hm Hs. pose proof (D6 k t Hk) as Hl. constructor; try done.
  - apply (chain_frame w); [|done]. intros p y Hpp Hy. apply (st_other _ _ _ _ Hs). pose proof (Hm p Hpp). Z.div_mod_to_equations. lia.
  - intros y Hne Hy. rewrite (st_other _ _ _ _ Hs); [by apply D4|]. destruct (Z.eq_dec (blk_page t) (slot_page a)) as [E|E].
    + pose proof (D5 k t Hk E). destruct (D3 Hne) as [_ M]. unfold blk_page in E. assert (slot_page a mod 4096 = 0) by (apply Hm; rewrite D2; by apply hd_elem).
      Z.div_mod_to_equations. lia.
    + assert (slot_page a mod 4096 = 0) by (apply Hm; rewrite D2; by apply hd_elem). destruct (D3 Hne) as [? _].
      unfold blk_page in E. Z.div_mod_to_equations. lia.
Qed.
Lemma set_entry L pgs tabs s i r p t e d : tables_ok L pgs tabs s -> tabs i (KPage r p) = Some t -> 0 <= e < 64 -> 0 <= d < 4294967296 ->
  tables_ok L pgs tabs (set_word t e d s) /\ stored (mm s) (mm (set_word t e d s)) (t + 4 * e) (t + 4 * e + 4) /\
  (exists a, a ∈ pgs i /\ a <= t + 4 * e /\ t + 4 * e + 4 <= a + 4096) /\
  forall j r' p' e', 0 <= e' < 64 -> tdesc (mm (set_word t e d s)) (tabs j) r' p' e' =
    if decide (j = i /\ r' = r /\ p' = p /\ e' = e) then d else tdesc (mm s) (tabs j) r' p' e'.
Proof.
  intros Ht Hk He Hd. assert (Hi : L i = true) by (destruct (L i) eqn:E; [done|]; by rewrite (to_none _ _ _ _ Ht i _ E) in Hk).
  destruct (to_tree _ _ _ _ Ht i Hi) as [Htr Hroot]. destruct (tr_block _ _ _ Htr _ t Hk) as (T1 & T2 & T3).
  destruct (page_held _ _ _ _ _ _ Ht T3) as (P1 & P2 & P3). pose proof (to_mm _ _ _ _ Ht) as Hw.
  assert (Hin : blk_page t <= t + 4 * e /\ t + 4 * e + 4 <= blk_page t + 4096) by (unfold blk_page in *; Z.div_mod_to_equations; lia).
  destruct (store32_ok (mm s) (blk_page t) (t + 4 * e) d Hw ltac:(lia) ltac:(lia) ltac:(lia) Hd) as [Hs Hl].
  change (store32 (t + 4 * e) d (mm s)) with (mm (set_word t e d s)) in *. set (s' := set_word t e d s) in *.
  assert (Esp : forall j, space s' j = space s j) by done. assert (Er : forall j, root_of s' j = root_of s j) by done.
  assert (Ek : kernel_root s' = kernel_root s) by done. assert (El : length (spaces s') = length (spaces s)) by done.
  clearbody s'. set (w' := mm s') in *.
  destruct (tree_set (mm s) w' (pgs i) (tabs i) r p t e d Htr Hk He Hs Hl) as [Htr' Hd'].
  assert (Hb : forall j a y, j <> i -> a ∈ pgs j -> in_page a y -> pg_load w' y = pg_load (mm s) y).
  { intros j a y Hj Ha Hy. apply (st_other _ _ _ _ Hs). destruct (Z.lt_ge_cases y (t + 4 * e)); [by left|].
    destruct (Z.lt_ge_cases y (t + 4 * e + 4)) as [Hlt|]; [|by right]. destruct (table_byte _ _ _ _ i _ t y j a Ht Hk ltac:(lia) Ha Hy) as [-> _]. done. }
  pose proof Ht as [A Al Ad B C D E F Fo G K]. split; [constructor; try done|].
  - apply (st_ok _ _ _ _ Hs).
  - by rewrite El.
  - intros j Hj. destruct (B j Hj) as [Bt Br]. rewrite Er. split; [|done]. destruct (decide (j = i)) as [->|Hne]; [done|].
    apply (tree_page (mm s)); [done|]. intros a y. by apply Hb.
  - intros j Hj. rewrite Esp. destruct (decide (j = i)) as [->|Hne].
    + apply (bump_set (mm s) _ _ _ _ (KPage r p) t e); [by apply D|done|done|done|lia| |done]. intros q Hq. by apply (page_held _ _ _ _ _ _ Ht Hq).
    + apply (bump_frame (mm s) _ (space s j)); [intros a y; by apply Hb|done|by apply D].
  - intros j a Ha. fold w'. rewrite (st_held _ _ _ _ Hs). by apply (E j).
  - by rewrite Ek.
  - split; [done|]. split; [by exists (blk_page t)|]. intros j r' p' e' He'. destruct (decide (j = i)) as [->|Hne].
    + rewrite Hd' by done. repeat case_decide; naive_solver.
    + rewrite decide_False by naive_solver. destruct (L j) eqn:Ej; [|unfold tdesc; by rewrite C].
      destruct (B j Ej) as [Bt _]. apply (tree_page (mm s) w' (pgs j)); [done| |done]. intros a y. by apply Hb.
Qed.

(** ** Adding tables *)

(** Only the space's own record changes. *)
Lemma nocache_spaces pa (s : vm) : spaces (vm_table_nocache pa s) = spaces s.
Proof. unfold vm_table_nocache, kset_cachemode. destruct (_ =? 0); [done|]. destruct (negb _); [done|]. destruct (negb _); [done|]. by destruct (negb _). Qed.
Lemma set_space_other i j a (s : vm) : j <> i -> space (set_space i a s) j = space s j.
Proof. intros Hne. unfold space, set_space. cbn [spaces store]. by rewrite list_lookup_insert_ne. Qed.
Lemma table_alloc_spaces i (s : vm) j : j <> i -> space (snd (as_table_alloc i s)) j = space s j.
Proof.
  intros Hne. unfold as_table_alloc, palloc. destruct (pg_alloc (mm s)) as [pg w]. destruct (_ || _).
  - destruct (pg =? 0); cbn [negb snd]; [done|]. rewrite set_space_other by done. unfold space at 1. rewrite nocache_spaces. cbn. by rewrite list_lookup_insert_ne.
  - cbn [negb snd]. etransitivity; [by apply set_space_other|done].
Qed.
Lemma next_table_spaces i table idx mask create (s : vm) j : j <> i -> space (snd (next_table i table idx mask create s)) j = space s j.
Proof.
  intros Hne. unfold next_table. destruct (negb _); [|done]. destruct (negb create); [done|]. pose proof (table_alloc_spaces i s j Hne) as E.
  destruct (as_table_alloc i s) as [p s1]. by destruct (p =? 0).
Qed.
Lemma as_pagetable_spaces i va create (s : vm) j : j <> i -> space (snd (as_pagetable i va create s)) j = space s j.
Proof.
  intros Hne. unfold as_pagetable. destruct (spaces s !! i) as [a|]; [|done]. destruct (_ || _); [done|]. pose proof (next_table_spaces i (root a) (ROOT_INDEX va) PTR_TABLE_MASK create s j Hne) as E.
  destruct (next_table _ _ _ _ _ s) as [ptr s1]. destruct (ptr =? 0); [done|]. rewrite next_table_spaces by done. done.
Qed.

Definition rest (s : vm) : S * T * Z * (Z * Z) * vm_stats * Z * nat :=
  (sw s, tc s, kernel_root s, (hand_space s, hand_va s), stats s, lost s, sleeps s).
Definition about (a : addrspace) : Z * Z * bool * Z * bool * as_image := (brk_start a, brk_cur a, used a, refs a, busy a, img a).
(** More tables, and the same descriptors in them. *)
Record grows (s s' : vm) (pgs pgs' : nat -> list Z) (tabs tabs' : nat -> tabs_of) : Prop := {
  gr_held : forall a, (forall i, a ∉ pgs' i) -> pg_held (mm s') a = pg_held (mm s) a;
  gr_new : forall i a, a ∈ pgs' i -> a ∈ pgs i \/ pg_held (mm s) a = 0;
  gr_pgs : forall i a, a ∈ pgs i -> a ∈ pgs' i;
  gr_load : forall a y, 0 < pg_held (mm s) a -> (forall i, a ∉ pgs i) -> in_page a y -> pg_load (mm s') y = pg_load (mm s) y;
  gr_foreign : forall a, pg_foreign (mm s') a = pg_foreign (mm s) a;
  gr_tabs : forall i k t, tabs i k = Some t -> tabs' i k = Some t;
  gr_rest : rest s' = rest s;
  gr_about : forall i, about (space s' i) = about (space s i);
  gr_desc : forall i v, i <> KERNEL -> 0 <= v < 65536 -> desc s' tabs' i v = desc s tabs i v }.
Lemma grows_refl s pgs tabs : grows s s pgs pgs tabs tabs.
Proof. constructor; auto. Qed.
Lemma grows_trans L1 s s1 s2 p p1 p2 t t1 t2 : tables_ok L1 p1 t1 s1 ->
  grows s s1 p p1 t t1 -> grows s1 s2 p1 p2 t1 t2 -> grows s s2 p p2 t t2.
Proof.
  intros Ht [A1 B1 C1 D1 E1 F1 G1 I1 K1] [A2 B2 C2 D2 E2 F2 G2 I2 K2].
  assert (Hsub : forall a, (forall i, a ∉ p2 i) -> forall i, a ∉ p1 i) by (intros a Ha i Hi; by apply (Ha i), C2).
  assert (Hnone : forall a, pg_held (mm s1) a = 0 -> forall i, a ∉ p1 i) by (intros a Ha i Hi; rewrite (to_held _ _ _ _ Ht i a Hi) in Ha; done).
  constructor.
  - intros a Ha. rewrite A2, A1; auto.
  - intros i a Ha. destruct (B2 i a Ha) as [Hi|Hz]; [by apply B1|]. right. rewrite <- A1; auto.
  - auto.
  - intros a y Hh Hn Hy. assert (Hn1 : forall i, a ∉ p1 i) by (intros i Hi; destruct (B1 i a Hi); [by apply (Hn i)|lia]).
    rewrite (D2 a y), (D1 a y); auto. by rewrite A1.
  - intros a. by rewrite E2.
  - auto.
  - by rewrite G2.
  - intros i. by rewrite I2.
  - intros i v Hi Hv. by rewrite K2, K1.
Qed.
Lemma index_land x n : 0 <= n -> 0 <= Z.land x (Z.ones n) < 2 ^ n.
Proof. intros Hn. rewrite Z.land_ones by done. apply Z.mod_pos_bound. lia. Qed.
(** Making a page uncached touches the kernel's own tables. *)
Lemma nocache_ok L pgs tabs s pa : tables_ok L pgs tabs s ->
  tables_ok L pgs tabs (vm_table_nocache pa s) /\ grows s (vm_table_nocache pa s) pgs pgs tabs tabs /\
  spaces (vm_table_nocache pa s) = spaces s /\
  forall y, (forall a, a ∈ pgs KERNEL -> ~ in_page a y) -> pg_load (mm (vm_table_nocache pa s)) y = pg_load (mm s) y.
Proof.
  intros Ht. unfold vm_table_nocache. set (pa' := Z.land pa _). clearbody pa'. unfold kset_cachemode.
  destruct (Z.eqb_spec (kernel_root s) 0) as [Ez|Ez]; [by split; [|split; [apply grows_refl|]]|].
  destruct (L KERNEL) eqn:Ek; [|by rewrite (proj1 (to_kernel _ _ _ _ Ht Ek)) in Ez].
  destruct (to_tree _ _ _ _ Ht KERNEL Ek) as [Htr Hr]. unfold root_of in Hr. rewrite decide_True in Hr by done.
  pose proof (index_land (Z.shiftr pa' 25) 7 ltac:(lia)) as R1. pose proof (index_land (Z.shiftr pa' 18) 7 ltac:(lia)) as R2.
  pose proof (index_land (Z.shiftr pa' 12) 6 ltac:(lia)) as R3.
  change (Z.land (Z.shiftr pa' 25) (Z.ones 7)) with (ROOT_INDEX pa') in R1. change (Z.land (Z.shiftr pa' 18) (Z.ones 7)) with (PTR_INDEX pa') in R2.
  change (Z.land (Z.shiftr pa' 12) (Z.ones 6)) with (PAGE_INDEX pa') in R3. cbn [Z.pow Z.pow_pos Pos.iter Z.mul Pos.mul] in R1, R2, R3.
  unfold word. pose proof (tr_rootw _ _ _ Htr _ (ROOT_INDEX pa') Hr R1) as Q1. destruct (has (load32 _ _) UDT_RESIDENT) eqn:Eh; cbn [negb snd];
    [|by split; [|split; [apply grows_refl|]]].
  destruct (tabs KERNEL (KPtr _)) as [t1|] eqn:Et1; cbn [ent] in Q1; [|by rewrite Eh in Q1]. destruct Q1 as [_ ->].
  pose proof (tr_ptrw _ _ _ Htr _ _ (PTR_INDEX pa') Et1 R2) as Q2. destruct (has (load32 (mm s) (t1 + _)) UDT_RESIDENT) eqn:Eh2; cbn [negb snd];
    [|by split; [|split; [apply grows_refl|]]].
  destruct (tabs KERNEL (KPage _ _)) as [t2|] eqn:Et2; cbn [ent] in Q2; [|by rewrite Eh2 in Q2]. destruct Q2 as [_ ->].
  destruct (negb _); cbn [snd]; [by split; [|split; [apply grows_refl|]]|].
  set (d := Z.lor _ _). assert (Hd : 0 <= d < 4294967296).
  { apply lor_u32; [|done]. apply land_u32. left. apply load32_range, (to_mm _ _ _ _ Ht). }
  destruct (set_entry L pgs tabs s KERNEL _ _ t2 (PAGE_INDEX pa') d Ht Et2 R3 Hd) as (S1 & S2 & (a & Sa & Slo & Shi) & S4).
  split; [done|]. split; [|split; [done|]].
  - constructor; try done.
    + intros b _. apply (st_held _ _ _ _ S2).
    + auto.
    + intros b y Hb Hn Hy. apply (st_other _ _ _ _ S2). destruct (page_held _ _ _ _ _ _ Ht Sa) as (_ & _ & Ma).
      destruct (pg_held_page _ _ (to_mm _ _ _ _ Ht) Hb) as [_ Mb]. assert (b <> a) by (intros ->; by apply (Hn KERNEL)).
      unfold in_page in Hy. Z.div_mod_to_equations. lia.
    + intros b. apply (st_foreign _ _ _ _ S2).
    + intros i v Hi Hv. unfold desc. destruct (vpn_range v Hv) as (_ & _ & He). rewrite S4 by done. by rewrite decide_False by naive_solver.
  - intros y Hy. apply (st_other _ _ _ _ S2). pose proof (Hy a Sa). unfold in_page in *. lia.
Qed.
Definition add_page (i : nat) (p : Z) (pgs : nat -> list Z) : nat -> list Z := fun j => if decide (j = i) then p :: pgs i else pgs j.
Lemma add_page_elem i p pgs j a : a ∈ add_page i p pgs j <-> (j = i /\ a = p) \/ a ∈ pgs j.
Proof. unfold add_page. case_decide as E; [subst j; rewrite elem_of_cons; naive_solver|naive_solver]. Qed.
Lemma space_set (s : vm) i j a : length (spaces s) = KERNEL -> (i < KERNEL)%nat ->
  space (set_space i a s) j = if decide (j = i) then a else space s j.
Proof.
  intros Hl Hi. unfold space, set_space. cbn [spaces store]. case_decide as E.
  - subst j. rewrite list_lookup_insert_eq by lia. done.
  - by rewrite list_lookup_insert_ne by done.
Qed.
(** A page for the tables of a space. *)
Lemma table_page_ok L pgs tabs s i pg w : tables_ok L pgs tabs s -> (i < KERNEL)%nat ->
  pg_alloc (mm s) = (pg, w) -> pg <> 0 ->
  let a := space s i in
  let s' := set_space i (a <| tables := pg |> <| slot_page := pg |> <| slot_off := AS_SLOT |>) (set_word pg 0 (tables a) (s <| mm := w |>)) in
  tables_ok L (add_page i pg pgs) tabs s' /\ grows s s' pgs (add_page i pg pgs) tabs tabs /\
  (forall y, in_page pg y -> pg + 4 <= y -> pg_load (mm s') y = 0).
Proof.
  intros Ht Hi Ea Hpg a s'. pose proof Ht as [A Al Ad B C D E F Fo G K].
  destruct (pg_alloc_spec (mm s) A) as [Ez|(a0 & w0 & Ea' & _ & W1 & W2 & W3 & W4 & W5 & W6)]; [rewrite Ez in Ea; congruence|].
  rewrite Ea in Ea'. injection Ea' as <- <-.
  destruct (pg_held_page w pg W1 ltac:(lia)) as [Hp1 Hp2]. destruct (D i ltac:(lia)) as [D1 D2 D3 D4 D5 D6]. fold a in D1, D2, D3, D4, D5.
  assert (Hta : 0 <= tables a < 4294967296).
  { destruct (pgs i) as [|q qs] eqn:Eq; cbn [chain] in D1; [rewrite D1; lia|]. destruct D1 as [-> _].
    destruct (page_held _ _ _ _ i q Ht ltac:(rewrite Eq; by left)). lia. }
  destruct (store32_ok w pg (pg + 4 * 0) (tables a) W1 ltac:(lia) ltac:(lia) ltac:(lia) Hta) as [Hs Hl].
  change (store32 _ _ w) with (mm s') in *.
  assert (Hsp : forall j, space s' j = if decide (j = i) then a <| tables := pg |> <| slot_page := pg |> <| slot_off := AS_SLOT |> else space s j).
  { intros j. unfold s'. rewrite space_set by done. done. }
  assert (Hlen : length (spaces s') = length (spaces s)) by (unfold s', set_space; cbn [spaces store]; apply length_insert).
  assert (Hro : forall j, root_of s' j = root_of s j) by (intros j; unfold root_of; rewrite Hsp; case_decide; [done|]; case_decide; [by subst j|done]).
  assert (Hre : rest s' = rest s) by done. assert (Hkr : kernel_root s' = kernel_root s) by done. clearbody s'. set (w' := mm s') in *.
  assert (Hnew : forall j q, q ∈ pgs j -> q <> pg) by (intros j q Hq ->; by rewrite (E j pg Hq) in W2).
  assert (Hb : forall q y, 0 < pg_held (mm s) q -> in_page q y -> pg_load w' y = pg_load (mm s) y).
  { intros q y Hq Hy. rewrite (st_other _ _ _ _ Hs); [by apply (W6 q)|]. destruct (pg_held_page (mm s) q A Hq) as [_ M1].
    assert (q <> pg) by (intros ->; lia). unfold in_page in Hy. Z.div_mod_to_equations. lia. }
  assert (Hbt : forall j q y, q ∈ pgs j -> in_page q y -> pg_load w' y = pg_load (mm s) y) by (intros j q y Hq; apply Hb; rewrite (E j q Hq); lia).
  assert (Htr : forall j, L j = true -> tree w' (pgs j) (tabs j) /\ forall r p e, 0 <= e < 64 -> tdesc w' (tabs j) r p e = tdesc (mm s) (tabs j) r p e).
  { intros j Hj. destruct (B j Hj) as [Bt _]. by apply (tree_page (mm s)); [|apply Hbt]. }
  assert (Hz : forall y, in_page pg y -> pg + 4 <= y -> pg_load w' y = 0).
  { intros y Hy Hy4. rewrite (st_other _ _ _ _ Hs) by lia. by apply W5. }
  split; [constructor; try done|split; [constructor|done]].
  - apply (st_ok _ _ _ _ Hs).
  - by rewrite Hlen.
  - intros j Hj. rewrite Hro. split; [|by apply B]. eapply tree_more; [|by apply Htr]. intros q Hq. apply add_page_elem. by right.
  - intros j Hj. rewrite Hsp. unfold add_page. case_decide as Ej; [subst j|apply (bump_frame (mm s) _ (space s j)); [apply Hbt|done|by apply D]].
    constructor; cbn [tables slot_page slot_off store].
    + cbn [chain]. split; [done|]. replace (load32 w' pg) with (tables a) by (rewrite <- Hl; f_equal; lia).
      apply (chain_frame (mm s)); [|done]. intros q y Hq Hy. apply (Hbt i q); [done|unfold in_page; lia].
    + done.
    + unfold AS_SLOT. done.
    + intros y _ Hy. apply Hz; unfold in_page, AS_SLOT in *; lia.
    + intros k t Hk Hpt. destruct (L i) eqn:Eli; [|by rewrite (C i k Eli) in Hk]. destruct (B i Eli) as [Bt _].
      destruct (tr_block _ _ _ Bt k t Hk) as (_ & _ & Bp). rewrite Hpt in Bp. by apply Hnew in Bp.
    + done.
  - intros j q [[-> ->]|Hq]%add_page_elem; fold w'; rewrite (st_held _ _ _ _ Hs); [done|]. rewrite W4; [by apply (E j)|by apply (Hnew j)].
  - intros j j' q [[-> ->]|Hq]%add_page_elem [[-> Eq]|Hq']%add_page_elem; try done; [by apply Hnew in Hq'|subst; by apply Hnew in Hq|by apply (F j j' q)].
  - intros j q [[-> ->]|Hq]%add_page_elem; [lia|by apply (Fo j q)].
  - intros j. unfold add_page. case_decide as Ej; [|done]. subst j. constructor; [|done]. intros Hin. by apply Hnew in Hin.
  - rewrite Hkr. unfold add_page. by rewrite decide_False by lia.
  - intros q Hq. fold w'. rewrite (st_held _ _ _ _ Hs). apply W4. intros ->. apply (Hq i), add_page_elem. by left.
  - intros j q [[-> ->]|Hq]%add_page_elem; auto.
  - intros j q Hq. apply add_page_elem. by right.
  - intros q y Hq _ Hy. by apply (Hb q).
  - intros q. fold w'. rewrite (st_foreign _ _ _ _ Hs). pose proof (pg_foreign_alloc (mm s) q A) as Ef. by rewrite Ea in Ef.
  - done.
  - done.
  - intros j. rewrite Hsp. case_decide; [by subst j|done].
  - intros j v Hj Hv. unfold desc. destruct (vpn_range v Hv) as (_ & _ & He). destruct (L j) eqn:Ej; [by apply Htr|]. unfold tdesc. by rewrite C.
Qed.
(** The next block of a space's last page. *)
Record next_block (s' : vm) (pgs' : nat -> list Z) (tabs : nat -> tabs_of) (i : nat) (t : Z) : Prop := {
  nb_fresh : fresh_block (mm s') (pgs' i) (tabs i) t;
  nb_off : t + 512 = slot_page (space s' i) + slot_off (space s' i);
  nb_link : 512 <= t mod 4096 }.
Lemma table_step_ok L pgs tabs s i : tables_ok L pgs tabs s -> (i < KERNEL)%nat -> pgs i <> [] -> slot_off (space s i) <= 3584 ->
  let a := space s i in
  let s' := set_space i (a <| slot_off := slot_off a + AS_SLOT |>) s in
  tables_ok L pgs tabs s' /\ grows s s' pgs pgs tabs tabs /\ next_block s' pgs tabs i (slot_page a + slot_off a).
Proof.
  intros Ht Hi Hne Hoff a s'. pose proof Ht as [A Al Ad B C D E F Fo G K]. destruct (D i ltac:(lia)) as [D1 D2 D3 D4 D5 D6].
  fold a in D1, D2, D3, D4, D5, Hoff. destruct (D3 Hne) as [O1 O2].
  assert (Hpg : slot_page a ∈ pgs i) by (rewrite D2; by apply hd_elem). destruct (page_held _ _ _ _ _ _ Ht Hpg) as (P1 & P2 & P3).
  assert (Hsp : forall j, space s' j = if decide (j = i) then a <| slot_off := slot_off a + AS_SLOT |> else space s j) by (intros j; by apply space_set).
  assert (Hsa : space s' i = a <| slot_off := slot_off a + AS_SLOT |>) by (by rewrite Hsp, decide_True).
  split; [constructor; try done|split; [constructor; auto|constructor]].
  - unfold s', set_space. cbn [spaces store]. by rewrite length_insert.
  - intros j Hj. destruct (B j Hj) as [Bt Br]. split; [done|]. rewrite Br. f_equal. unfold root_of. rewrite Hsp. case_decide; [done|]. case_decide; [by subst j|done].
  - intros j Hj. rewrite Hsp. case_decide as Ej; [subst j|by apply D]. constructor; cbn [tables slot_page slot_off store]; unfold AS_SLOT; try done.
    + intros _. Z.div_mod_to_equations. lia.
    + intros y _ Hy. apply D4; [done|lia].
    + intros k t Hk Hpt. specialize (D5 k t Hk Hpt). lia.
  - intros j. rewrite Hsp. case_decide; [by subst j|done].
  - rewrite <- P3 in O2 at 1. constructor; [|..].
    + split; [|split]; [Z.div_mod_to_equations; lia|Z.div_mod_to_equations; lia|].
      replace (blk_page _) with (slot_page a); [done|]. unfold blk_page. Z.div_mod_to_equations. lia.
    + intros k Hk. destruct (L i) eqn:Eli; [|by rewrite (C i k Eli) in Hk]. specialize (D5 k _ Hk). unfold blk_page in D5.
      assert (slot_page a + slot_off a < slot_page a + slot_off a); [|lia]. apply D5. Z.div_mod_to_equations. lia.
    + intros y Hy. apply D4; [done|lia].
  - rewrite Hsa. cbn [slot_page slot_off store]. unfold AS_SLOT. lia.
  - Z.div_mod_to_equations. lia.
Qed.
Lemma table_alloc_ok L pgs tabs s i : tables_ok L pgs tabs s -> (i < KERNEL)%nat ->
  let '(t, s') := as_table_alloc i s in
  (t = 0 /\ s' = s) \/ exists pgs', tables_ok L pgs' tabs s' /\ grows s s' pgs pgs' tabs tabs /\ next_block s' pgs' tabs i t.
Proof.
  intros Ht Hi. unfold as_table_alloc, palloc. destruct (pg_alloc (mm s)) as [pg w] eqn:Ea. destruct (_ || _) eqn:Eo.
  - destruct (Z.eqb_spec pg 0) as [->|Hpg]; cbn [negb].
    { left. split; [done|]. destruct (pg_alloc_spec (mm s) (to_mm _ _ _ _ Ht)) as [Ez|(? & ? & Ez & ? & _)]; [|congruence].
      rewrite Ez in Ea. injection Ea as <-. by destruct s. }
    right. destruct (table_page_ok L pgs tabs s i pg w Ht Hi Ea Hpg) as (T1 & G1 & _). cbn zeta in T1, G1.
    set (s1 := set_space i _ _) in *.
    assert (Es1 : space s1 i = space s i <| tables := pg |> <| slot_page := pg |> <| slot_off := AS_SLOT |>).
    { unfold s1. rewrite space_set; [by rewrite decide_True| |done]. apply (to_len _ _ _ _ Ht). }
    destruct (nocache_ok L _ tabs s1 pg T1) as (T2 & G2 & Esp & _). set (s2 := vm_table_nocache pg s1) in *.
    assert (Es2 : space s2 i = space s1 i) by (unfold space; by rewrite Esp).
    destruct (table_step_ok L _ tabs s2 i T2 Hi) as (T3 & G3 & N3).
    { unfold add_page. by rewrite decide_True. } { rewrite Es2, Es1. done. }
    exists (add_page i pg pgs). split; [exact T3|]. split; [|exact N3].
    eapply grows_trans; [exact T2| |exact G3]. eapply grows_trans; [exact T1|exact G1|exact G2].
  - right. cbn [negb]. apply orb_false_iff in Eo as [Eo1%Z.eqb_neq Eo2%Z.ltb_ge]. destruct (to_bump _ _ _ _ Ht i ltac:(lia)) as [D1 D2 D3 D4 D5 D6].
    destruct (table_step_ok L pgs tabs s i Ht Hi) as (T3 & G3 & N3).
    { intros En. by rewrite En in D2. }
    { unfold AS_SLOT, PMM.PAGE_SIZE in *. lia. }
    by exists pgs.
Qed.
(** Where a table is linked from. *)
Definition parent_of (k : key) : option (key * Z * Z) :=
  match k with KRoot => None | KPtr r => Some (KRoot, r, PTR_TABLE_MASK) | KPage r p => Some (KPtr r, p, PAGE_TABLE_MASK) end.
Definition set_tabs (i : nat) (f : tabs_of) (tabs : nat -> tabs_of) : nat -> tabs_of := fun j => if decide (j = i) then f else tabs j.
Lemma live_tab L pgs tabs s i k t : tables_ok L pgs tabs s -> tabs i k = Some t -> L i = true.
Proof. intros Ht Hk. destruct (L i) eqn:E; [done|]. by rewrite (to_none _ _ _ _ Ht i k E) in Hk. Qed.
Lemma table_dec L pgs tabs s a : tables_ok L pgs tabs s -> (exists i, a ∈ pgs i) \/ forall i, a ∉ pgs i.
Proof.
  intros Ht. destruct (decide (Exists (fun i => a ∈ pgs i) (seq 0 65))) as [(i & _ & Hi)%Exists_exists|Hn]; [left; by exists i|right].
  intros i Hi. apply Hn, Exists_exists. exists i. split; [|done]. apply elem_of_seq. pose proof (to_out _ _ _ _ Ht i a Hi). unfold KERNEL in *. lia.
Qed.
Lemma link_table_ok L pgs tabs s i k kp parent idx mask t : tables_ok L pgs tabs s -> (i < KERNEL)%nat -> next_block s pgs tabs i t ->
  parent_of k = Some (kp, idx, mask) -> tabs i kp = Some parent -> 0 <= idx < 128 -> tabs i k = None ->
  let s' := set_word parent idx (Z.lor t UDT_RESIDENT) s in
  let tabs' := set_tabs i (add_tab k t (tabs i)) tabs in
  tables_ok L pgs tabs' s' /\ grows s s' pgs pgs tabs tabs' /\ ent mask (word s' parent idx) (Some t).
Proof.
  intros Ht Hi [[(N1 & N2 & N3) Nn Nz] No Nl] Hpar Hkp Hidx Hk s' tabs'. pose proof (live_tab _ _ _ _ _ _ _ Ht Hkp) as Hli.
  pose proof Ht as [A Al Ad B C D E F Fo G K]. destruct (B i Hli) as [Htr Hroot]. destruct (tr_block _ _ _ Htr kp parent Hkp) as (P1 & P2 & P3).
  destruct (page_held _ _ _ _ _ _ Ht P3) as (Q1 & Q2 & Q3).
  assert (Hin : blk_page parent <= parent + 4 * idx /\ parent + 4 * idx + 4 <= blk_page parent + 4096) by (unfold blk_page in *; Z.div_mod_to_equations; lia).
  destruct (ent_fresh t mask N2 ltac:(lia)) as [Hv Hent]; [destruct k; [done| |]; injection Hpar as _ _ <-; auto|].
  destruct (store32_ok (mm s) (blk_page parent) (parent + 4 * idx) _ A ltac:(lia) ltac:(lia) ltac:(lia) Hv) as [Hs Hl].
  change (store32 _ _ _) with (mm s') in *.
  assert (Esp : forall j, space s' j = space s j) by done. assert (Er : forall j, root_of s' j = root_of s j) by done.
  assert (Ek : kernel_root s' = kernel_root s) by done. assert (El : length (spaces s') = length (spaces s)) by done.
  assert (Ere : rest s' = rest s) by done. unfold word. rewrite Hl. clearbody s'. set (w' := mm s') in *.
  assert (Hpt : parent <> t) by (intros ->; by apply (Nn kp)).
  destruct (tree_add (mm s) w' (pgs i) (tabs i) k parent idx mask t Htr) as [Htr' Hd']; [|destruct k; [done| |]; by injection Hpar as <- <- <-|done|done|done|done|].
  { constructor; [done|done|]. intros y Hy. rewrite (st_other _ _ _ _ Hs); [by apply Nz|]. Z.div_mod_to_equations. lia. }
  assert (Hb : forall j a y, j <> i -> a ∈ pgs j -> in_page a y -> pg_load w' y = pg_load (mm s) y).
  { intros j a y Hj Ha Hy. apply (st_other _ _ _ _ Hs). destruct (Z.lt_ge_cases y (parent + 4 * idx)); [by left|].
    destruct (Z.lt_ge_cases y (parent + 4 * idx + 4)) as [Hlt|]; [|by right]. destruct (table_byte _ _ _ _ i _ parent y j a Ht Hkp ltac:(lia) Ha Hy) as [-> _]. done. }
  assert (Hbi : bump w' (space s i) (pgs i) (add_tab k t (tabs i))).
  { destruct (bump_set (mm s) w' (space s i) (pgs i) (tabs i) kp parent idx) as [D1 D2 D3 D4 D5 D6]; [apply D; lia|done|done|done|lia| |done|].
    { intros q Hq. by apply (page_held _ _ _ _ _ _ Ht Hq). }
    constructor; try done; intros k' t'; unfold add_tab; case_decide; [intros [= <-]; lia|apply D5|intros [= <-]; lia|apply D6]. }
  split; [constructor; try done|split; [constructor; auto|done]].
  - apply (st_ok _ _ _ _ Hs).
  - by rewrite El.
  - intros j Hj. rewrite Er. unfold tabs', set_tabs. destruct (B j Hj) as [Bt Br]. case_decide as Ej.
    + subst j. split; [done|]. unfold add_tab. rewrite decide_False; [done|]. by intros <-.
    + split; [|done]. apply (tree_page (mm s)); [done|]. intros a y. by apply Hb.
  - intros j k' Hj. unfold tabs', set_tabs. rewrite decide_False by (intros ->; congruence). by apply C.
  - intros j Hj. rewrite Esp. unfold tabs', set_tabs. case_decide as Ej; [by subst j|].
    apply (bump_frame (mm s) _ (space s j)); [intros a y; by apply Hb|done|by apply D].
  - intros j a Ha. fold w'. rewrite (st_held _ _ _ _ Hs). by apply (E j).
  - by rewrite Ek.
  - intros a _. apply (st_held _ _ _ _ Hs).
  - intros a y Ha Hn Hy. apply (st_other _ _ _ _ Hs). destruct (pg_held_page (mm s) a A Ha) as [_ Ma].
    assert (a <> blk_page parent) by (intros ->; by apply (Hn i)). unfold in_page in Hy. Z.div_mod_to_equations. lia.
  - intros a. apply (st_foreign _ _ _ _ Hs).
  - intros j k' t' Hj. unfold tabs', set_tabs, add_tab. case_decide; [subst j|done]. rewrite decide_False; [done|]. intros ->. congruence.
  - intros j. by rewrite Esp.
  - intros j v Hj Hv'. unfold desc, tabs', set_tabs. destruct (vpn_range v Hv') as (_ & _ & He). case_decide as Ej; [subst j; by apply Hd'|].
    destruct (L j) eqn:Ej'; [|unfold tdesc; by rewrite C]. destruct (B j Ej') as [Bt _].
    apply (tree_page (mm s) w' (pgs j)); [done| |done]. intros a y. by apply Hb.
Qed.
Lemma next_table_ok L pgs tabs s i k kp parent idx mask : tables_ok L pgs tabs s -> (i < KERNEL)%nat ->
  parent_of k = Some (kp, idx, mask) -> tabs i kp = Some parent -> 0 <= idx < 128 ->
  let '(t, s') := next_table i parent idx mask true s in
  exists pgs' tabs', tables_ok L pgs' tabs' s' /\ grows s s' pgs pgs' tabs tabs' /\ (t = 0 \/ tabs' i k = Some t).
Proof.
  intros Ht Hi Hpar Hkp Hidx. pose proof (live_tab _ _ _ _ _ _ _ Ht Hkp) as Hli. destruct (to_tree _ _ _ _ Ht i Hli) as [Htr _].
  assert (Hent : ent mask (word s parent idx) (tabs i k)).
  { destruct k as [|r|r p]; [done| |]; injection Hpar as <- <- <-; [by apply (tr_rootw _ _ _ Htr)|by apply (tr_ptrw _ _ _ Htr)]. }
  unfold next_table. cbn [negb]. destruct (tabs i k) as [t|] eqn:Ek; cbn [ent] in Hent.
  { destruct Hent as [-> ->]. cbn [negb]. exists pgs, tabs. split; [done|]. split; [apply grows_refl|by right]. }
  rewrite Hent. cbn [negb]. pose proof (table_alloc_ok L pgs tabs s i Ht Hi) as Ha. destruct (as_table_alloc i s) as [t s1].
  destruct Ha as [[-> ->]|(pgs' & T1 & G1 & N1)].
  { exists pgs, tabs. split; [done|]. split; [apply grows_refl|by left]. }
  assert (Htne : t <> 0) by (destruct N1 as [[(N & _) _ _] _ _]; lia). rewrite (proj2 (Z.eqb_neq t 0)) by done.
  destruct (link_table_ok L pgs' tabs s1 i k kp parent idx mask t T1 Hi N1 Hpar Hkp Hidx Ek) as (T2 & G2 & E2). cbn [ent] in E2.
  exists pgs', (set_tabs i (add_tab k t (tabs i)) tabs). split; [exact T2|]. split; [exact (grows_trans _ _ _ _ _ _ _ _ _ _ T1 G1 G2)|]. right.
  destruct E2 as [_ ->]. unfold set_tabs, add_tab. by rewrite !decide_True.
Qed.
(** The page table of an address, made if it is not there. *)
Lemma as_pagetable_ok L pgs tabs s i va : tables_ok L pgs tabs s -> (i < KERNEL)%nat -> L i = true ->
  let '(t, s') := as_pagetable i va true s in
  exists pgs' tabs', tables_ok L pgs' tabs' s' /\ grows s s' pgs pgs' tabs tabs' /\
    (t = 0 \/ user_va va /\ t <> 0 /\ tabs' i (KPage (ri (vpn va)) (pi (vpn va))) = Some t).
Proof.
  intros Ht Hi Hli. unfold as_pagetable. rewrite (space_lookup _ _ _ _ _ Ht Hi).
  destruct (_ || _) eqn:Ev. { exists pgs, tabs. split; [done|]. split; [apply grows_refl|by left]. }
  apply orb_false_iff in Ev as [E1%Z.ltb_ge E2%Z.leb_gt]. assert (Hva : user_va va) by done.
  destruct (va_index va Hva) as (Hv & I1 & I2 & _). destruct (vpn_range _ Hv) as (R1 & R2 & _). rewrite I1, I2.
  destruct (to_tree _ _ _ _ Ht i Hli) as [_ Hr]. unfold root_of in Hr. rewrite decide_False in Hr by lia.
  pose proof (next_table_ok L pgs tabs s i (KPtr (ri (vpn va))) _ _ _ _ Ht Hi eq_refl Hr R1) as Hn.
  destruct (next_table _ _ _ _ _ s) as [ptr s1]. destruct Hn as (pgs1 & tabs1 & T1 & G1 & [-> |Hp]). { cbn. exists pgs1, tabs1. auto. }
  assert (ptr <> 0) by (destruct (to_tree _ _ _ _ T1 i Hli) as [Htr1 _]; destruct (tr_block _ _ _ Htr1 _ _ Hp); lia).
  rewrite (proj2 (Z.eqb_neq ptr 0)) by done.
  pose proof (next_table_ok L pgs1 tabs1 s1 i (KPage (ri (vpn va)) (pi (vpn va))) _ _ _ _ T1 Hi eq_refl Hp R2) as Hn.
  destruct (next_table _ _ _ _ _ s1) as [t s2]. destruct Hn as (pgs2 & tabs2 & T2 & G2 & Ht2). exists pgs2, tabs2. split; [done|].
  split; [exact (grows_trans _ _ _ _ _ _ _ _ _ _ T1 G1 G2)|]. destruct Ht2 as [-> |Ht2]; [by left|right]. split; [done|]. split; [|done].
  destruct (to_tree _ _ _ _ T2 i Hli) as [Htr2 _]. destruct (tr_block _ _ _ Htr2 _ _ Ht2). lia.
Qed.
End tables.
End VMTAB.
