(* ===== verification/Vminv.v ===== *)
(** * Address spaces: the invariant (kernel/vm.c)

    Every page and every swap slot is held once for each descriptor that
    names it, once for each hold of the cache of file pages, and for what the
    calls in progress have in hand; a page one may write through a private
    descriptor is named by no other. *)

From S2P Require Import Prelude Pmm Pages Swap Vm Vmtab.
Local Open Scope Z_scope.

Module VMINV.
Import VM VMTAB.

(** ** Sums over all descriptors *)

Definition everywhere : list (nat * Z) := list_prod (seq 0 64) (seqZ 0 65536).
Definition place (i : nat) (v : Z) : Prop := (i < KERNEL)%nat /\ 0 <= v < 65536.
Lemma everywhere_elem i v : (i, v) ∈ everywhere <-> place i v.
Proof. unfold everywhere, place, KERNEL. rewrite list_elem_of_In, in_prod_iff, <- !list_elem_of_In, elem_of_seq, elem_of_seqZ. lia. Qed.
Lemma prod_nodup (l : list nat) (m : list Z) : NoDup l -> NoDup m -> NoDup (list_prod l m).
Proof.
  intros Hl Hm. induction Hl as [|i l Hi _ IH]; [constructor|]. cbn [list_prod]. apply NoDup_app. split; [|split; [|done]].
  - by apply (NoDup_fmap_2 (pair i)).
  - intros [j v] (w & Ew & _)%list_elem_of_fmap (Hj & _)%list_elem_of_In%in_prod_iff. injection Ew as -> _. by apply Hi, list_elem_of_In.
Qed.
Lemma everywhere_nodup : NoDup everywhere.
Proof. apply prod_nodup; [apply NoDup_seq|apply NoDup_seqZ]. Qed.
#[global] Opaque everywhere.

Definition sum_over (f : Z -> Z) (D : nat -> Z -> Z) (l : list (nat * Z)) : Z := foldr (fun '(i, v) n => f (D i v) + n) 0 l.
Definition tally (f : Z -> Z) (D : nat -> Z -> Z) : Z := sum_over f D everywhere.
Lemma tally_same f D D' : (forall i v, place i v -> f (D' i v) = f (D i v)) -> tally f D' = tally f D.
Proof.
  intros Hd. unfold tally. assert (Hl : forall i v, (i, v) ∈ everywhere -> f (D' i v) = f (D i v)) by (intros i v Hi; by apply Hd, everywhere_elem).
  revert Hl. generalize everywhere. induction l as [|[i v] l IH]; intros Hl; cbn [sum_over foldr]; [done|].
  rewrite (Hl i v) by (by left). unfold sum_over in IH. rewrite IH; [done|]. intros j w Hj. apply Hl. by right.
Qed.
Lemma tally_ext f D D' : (forall i v, place i v -> D' i v = D i v) -> tally f D' = tally f D.
Proof. intros Hd. apply tally_same. intros i v Hp. by rewrite Hd. Qed.
Lemma sum_over_upd f D D' i v l : NoDup l -> (forall j w, (j, w) <> (i, v) -> D' j w = D j w) ->
  sum_over f D' l = sum_over f D l + if decide ((i, v) ∈ l) then f (D' i v) - f (D i v) else 0.
Proof.
  intros Hn Hd. induction Hn as [|[j w] l Hj Hn IH]; [done|]. cbn [sum_over foldr]. unfold sum_over in IH. rewrite IH.
  destruct (decide ((j, w) = (i, v))) as [[= -> ->]|Hne].
  - rewrite (decide_False (P := (i, v) ∈ l)), decide_True by (by left || done). lia.
  - rewrite Hd by done. destruct (decide ((i, v) ∈ l)) as [Hx|Hx].
    + rewrite decide_True by (by right). lia.
    + rewrite decide_False by (intros [E|E]%elem_of_cons; [by apply Hne|done]). lia.
Qed.
Lemma tally_upd f D D' i v : place i v -> (forall j w, place j w -> (j, w) <> (i, v) -> D' j w = D j w) ->
  tally f D' = tally f D + f (D' i v) - f (D i v).
Proof.
  intros Hp Hd. set (D2 := fun j w => if decide ((j, w) = (i, v)) then D' i v else D j w).
  transitivity (tally f D2).
  - apply tally_ext. intros j w Hj. unfold D2. case_decide as E; [by injection E as -> ->|by apply Hd].
  - unfold tally. rewrite (sum_over_upd f D D2 i v); [|apply everywhere_nodup|intros j w Hne; unfold D2; by rewrite decide_False].
    rewrite decide_True by (by apply everywhere_elem). unfold D2. rewrite decide_True by done. lia.
Qed.
Lemma sum_over_nonneg f D l : (forall d, 0 <= f d) -> 0 <= sum_over f D l.
Proof. intros Hf. induction l as [|[i v] l IH]; [done|]. cbn [sum_over foldr]. unfold sum_over in IH. specialize (Hf (D i v)). lia. Qed.
Lemma tally_zero_at f D i v : place i v ->
  exists D', tally f D' = tally f D - f (D i v) + f 0 /\ forall j w, (j, w) <> (i, v) -> D' j w = D j w.
Proof.
  intros Hp. exists (fun j w => if decide ((j, w) = (i, v)) then 0 else D j w).
  split; [|intros j w Hne; by rewrite decide_False]. erewrite (tally_upd f D _ i v); [|done|intros j w _ Hne; by rewrite decide_False].
  rewrite decide_True by done. lia.
Qed.
Lemma tally_le f D i v : (forall d, 0 <= f d) -> f 0 = 0 -> place i v -> f (D i v) <= tally f D.
Proof. intros Hf H0 Hp. destruct (tally_zero_at f D i v Hp) as (D' & E & _). pose proof (sum_over_nonneg f D' everywhere Hf). unfold tally in *. lia. Qed.
Lemma tally_two f D i v j w : (forall d, 0 <= f d) -> f 0 = 0 -> place i v -> place j w -> (j, w) <> (i, v) ->
  f (D i v) + f (D j w) <= tally f D.
Proof.
  intros Hf H0 Hp Hq Hne. destruct (tally_zero_at f D i v Hp) as (D' & E & Hd). pose proof (tally_le f D' j w Hf H0 Hq) as G. rewrite Hd in G by done. lia.
Qed.
Lemma tally_nonneg f D : (forall d, 0 <= f d) -> 0 <= tally f D.
Proof. intros Hf. by apply sum_over_nonneg. Qed.
Lemma tally_none f D : (forall i v, place i v -> D i v = 0) -> f 0 = 0 -> tally f D = 0.
Proof.
  intros Hd H0. rewrite (tally_ext f (fun _ _ => 0)) by done. unfold tally. generalize everywhere.
  induction l as [|[i v] l IH]; [done|]. cbn [sum_over foldr]. unfold sum_over in IH. lia.
Qed.
#[global] Opaque tally.

(** ** What a descriptor holds *)

Definition hold (a d : Z) : Z := if desc_has_page d && (page_of d =? a) then 1 else 0.
Definition in_swap (d : Z) : bool := negb (desc_has_page d) && has d DESC_SW_SWAP.
Definition slot_hold (k d : Z) : Z := if in_swap d && (slot_of d =? k) then 1 else 0.
(** One may write the page through it, and it is not a file's. *)
Definition own_write (d : Z) : bool := has d PDT_RESIDENT && negb (has d DESC_WP) && negb (has d DESC_SW_SHARED).
Definition desc_wf (d : Z) : Prop :=
  is_u32 d /\ (has d PDT_RESIDENT = true -> has d DESC_SW_LAZY = false /\ has d DESC_SW_SWAP = false) /\
  (has d DESC_SW_LAZY = true -> has d DESC_SW_SWAP = false).
Lemma hold_bound a d : 0 <= hold a d <= 1.
Proof. unfold hold. destruct (_ && _); lia. Qed.
Lemma slot_hold_bound k d : 0 <= slot_hold k d <= 1.
Proof. unfold slot_hold. destruct (_ && _); lia. Qed.
Lemma hold_0 a : hold a 0 = 0.
Proof. done. Qed.
Lemma slot_hold_0 k : slot_hold k 0 = 0.
Proof. done. Qed.
Lemma hold_page d : desc_has_page d = true -> hold (page_of d) d = 1.
Proof. unfold hold. intros ->. by rewrite Z.eqb_refl. Qed.
Lemma hold_inv a d : hold a d <> 0 -> desc_has_page d = true /\ page_of d = a.
Proof. unfold hold. destruct (desc_has_page d); cbn [andb]; [|done]. destruct (Z.eqb_spec (page_of d) a); done. Qed.
Lemma own_write_page d : own_write d = true -> desc_has_page d = true.
Proof. unfold own_write, desc_has_page. by destruct (has d PDT_RESIDENT). Qed.

Section inv.
Context {W S T : Type} `{TextCache T W} `{SwapSlots S}.
#[local] Abbreviation vm := (@vm W S T).
(** While a call changes a descriptor it does not count: its place is [X]. *)
Context {X : option (nat * Z)}.
Definition mdesc (s : vm) (tabs : nat -> tabs_of) (i : nat) (v : Z) : Z := if decide (X = Some (i, v)) then 0 else desc s tabs i v.
Lemma mdesc_same s s' tabs tabs' i v : desc s' tabs' i v = desc s tabs i v -> mdesc s' tabs' i v = mdesc s tabs i v.
Proof. unfold mdesc. by intros ->. Qed.

Definition named (s : vm) (tabs : nat -> tabs_of) (a : Z) : Z := tally (hold a) (mdesc s tabs).
Definition slotted (s : vm) (tabs : nat -> tabs_of) (k : Z) : Z := tally (slot_hold k) (mdesc s tabs).
Definition hand_ok (s : vm) : Prop := 0 <= hand_space s < 64 /\ is_u32 (hand_va s) /\ hand_va s mod 4096 = 0.
(** Only a page of a program's own is ever marked for copying. *)
Definition cow_ok (s : vm) (d : Z) : Prop := has d PDT_RESIDENT = true -> has d DESC_SW_COW = true ->
  pg_foreign (mm s) (page_of d) = false /\ has d DESC_SW_SHARED = false.
Record vm_ok (L : nat -> bool) (pgs : nat -> list Z) (tabs : nat -> tabs_of) (base sbase : Z -> Z) (s : vm) : Prop := {
  vo_tables : tables_ok L pgs tabs s;
  vo_sw : sl_ok (sw s);
  vo_tc : tc_ok (tc s);
  vo_base : forall a, 0 <= base a;
  vo_sbase : forall k, 0 <= sbase k;
  vo_tab : forall i a, a ∈ pgs i -> base a = 0 /\ tc_held (tc s) a = 0 /\ named s tabs a = 0;
  vo_foreign : forall a, pg_foreign (mm s) a = true -> tc_held (tc s) a = 0;
  vo_held : forall a, pg_foreign (mm s) a = false -> (forall i, a ∉ pgs i) ->
    pg_held (mm s) a = base a + tc_held (tc s) a + named s tabs a;
  vo_slots : forall k, sl_held (sw s) k = sbase k + slotted s tabs k;
  vo_wf : forall i v, place i v -> desc_wf (mdesc s tabs i v);
  vo_hand : hand_ok s;
  vo_cow : forall i v, place i v -> cow_ok s (mdesc s tabs i v);
  vo_own : forall i v, place i v -> own_write (mdesc s tabs i v) = true -> pg_foreign (mm s) (page_of (mdesc s tabs i v)) = false ->
    named s tabs (page_of (mdesc s tabs i v)) = 1 /\ tc_held (tc s) (page_of (mdesc s tabs i v)) = 0 }.

Lemma named_nonneg s tabs a : 0 <= named s tabs a.
Proof. apply tally_nonneg. intros d. apply hold_bound. Qed.
Lemma named_le s tabs a i v : place i v -> hold a (mdesc s tabs i v) <= named s tabs a.
Proof. intros Hp. apply (tally_le (hold a)); [intros d; apply hold_bound|done|done]. Qed.
Lemma slotted_nonneg s tabs k : 0 <= slotted s tabs k.
Proof. apply tally_nonneg. intros d. apply slot_hold_bound. Qed.
Lemma slotted_le s tabs k i v : place i v -> slot_hold k (mdesc s tabs i v) <= slotted s tabs k.
Proof. intros Hp. apply (tally_le (slot_hold k)); [intros d; apply slot_hold_bound|done|done]. Qed.
Lemma named_two s tabs a i v j w : place i v -> place j w -> (j, w) <> (i, v) -> hold a (mdesc s tabs i v) + hold a (mdesc s tabs j w) <= named s tabs a.
Proof. intros Hp Hq Hne. apply (tally_two (hold a)); try done. intros d. apply hold_bound. Qed.

Section facts.
Context L pgs tabs base sbase s (Hok : vm_ok L pgs tabs base sbase s).
Lemma ok_mm : pg_ok (mm s).
Proof using Hok. apply (to_mm _ _ _ _ (vo_tables _ _ _ _ _ _ Hok)). Qed.
Lemma tc_nonneg a : 0 <= tc_held (tc s) a.
Proof using Hok. apply tc_held_nonneg, Hok. Qed.
Lemma held_foreign a : 0 < pg_held (mm s) a -> pg_foreign (mm s) a = false.
Proof using Hok. intros Hh. destruct (pg_foreign (mm s) a) eqn:E; [|done]. destruct (pg_foreign_spec (mm s) a ok_mm E). lia. Qed.
(** A page in the spaces' own use, or in a call's hand. *)
Lemma base_page a : 0 < base a -> pg_foreign (mm s) a = false -> (forall i, a ∉ pgs i) /\ 0 < pg_held (mm s) a.
Proof using Hok.
  intros Hb Hf. assert (Hn : forall i, a ∉ pgs i) by (intros i Hi; destruct (vo_tab _ _ _ _ _ _ Hok i a Hi); lia). split; [done|].
  rewrite (vo_held _ _ _ _ _ _ Hok a Hf Hn). pose proof (tc_nonneg a). pose proof (named_nonneg s tabs a). lia.
Qed.
Lemma named_page a : 0 < named s tabs a -> pg_foreign (mm s) a = false -> (forall i, a ∉ pgs i) /\ 0 < pg_held (mm s) a.
Proof using Hok.
  intros Hb Hf. assert (Hn : forall i, a ∉ pgs i) by (intros i Hi; destruct (vo_tab _ _ _ _ _ _ Hok i a Hi); lia). split; [done|].
  rewrite (vo_held _ _ _ _ _ _ Hok a Hf Hn). pose proof (tc_nonneg a). pose proof (vo_base _ _ _ _ _ _ Hok a). lia.
Qed.
Lemma tc_le a : tc_held (tc s) a <= pg_held (mm s) a.
Proof using Hok.
  pose proof (pg_held_nonneg (mm s) a ok_mm). destruct (pg_foreign (mm s) a) eqn:Ef; [by rewrite (vo_foreign _ _ _ _ _ _ Hok a Ef)|].
  destruct (table_dec _ _ _ _ a (vo_tables _ _ _ _ _ _ Hok)) as [[i Hi]|Hn].
  - destruct (vo_tab _ _ _ _ _ _ Hok i a Hi) as (_ & -> & _). done.
  - rewrite (vo_held _ _ _ _ _ _ Hok a Ef Hn). pose proof (vo_base _ _ _ _ _ _ Hok a). pose proof (named_nonneg s tabs a). lia.
Qed.
Lemma desc_page i v : place i v -> desc_has_page (mdesc s tabs i v) = true -> 0 < named s tabs (page_of (mdesc s tabs i v)).
Proof using Hok. intros Hp Hd. pose proof (named_le s tabs (page_of (mdesc s tabs i v)) i v Hp) as Hn. rewrite hold_page in Hn by done. lia. Qed.
Lemma desc_slot i v : place i v -> in_swap (mdesc s tabs i v) = true -> 0 < sl_held (sw s) (slot_of (mdesc s tabs i v)).
Proof using Hok.
  intros Hp Hd. rewrite (vo_slots _ _ _ _ _ _ Hok). pose proof (slotted_le s tabs (slot_of (mdesc s tabs i v)) i v Hp) as Hn.
  unfold slot_hold in Hn at 1. rewrite Hd, Z.eqb_refl in Hn. cbn in Hn. pose proof (vo_sbase _ _ _ _ _ _ Hok (slot_of (mdesc s tabs i v))). lia.
Qed.
End facts.

(** ** What a program sees *)

(** The bytes of a page of its own, or a page of a file's or a device's. *)
Inductive content := Own (bs : list Z) | Other (pa : Z).
Definition view_of (s : vm) (d : Z) : option (Z * content) :=
  if negb (desc_owned d) then None
  else Some (desc_prot d,
    if desc_has_page d then
      if has d DESC_SW_SHARED || pg_foreign (mm s) (page_of d) then Other (page_of d) else Own (page_bytes (page_of d) 4096 (mm s))
    else Own (if has d DESC_SW_LAZY then replicate 4096 0 else page_image (sl_bytes (sw s) (slot_of d)))).
Lemma view_none s d : view_of s d = None <-> desc_owned d = false.
Proof. unfold view_of. by destruct (desc_owned d). Qed.
Definition page_va (v : Z) : Z := USER_VA_BASE + v * PMM.PAGE_SIZE.
(** The descriptor of page [v] of a space, by the walk, and what is seen there. *)
Definition descr (s : vm) (i : nat) (v : Z) : Z :=
  if decide (X = Some (i, v)) then 0
  else if used (space s i) then
    let pt := pagetable i (page_va v) s in if pt =? 0 then 0 else word s pt (PAGE_INDEX (page_va v))
  else 0.
Definition sees (s : vm) (i : nat) (v : Z) : option (Z * content) := view_of s (descr s i v).
Lemma page_va_user v : 0 <= v < 65536 -> user_va (page_va v) /\ vpn (page_va v) = v.
Proof.
  unfold user_va, page_va, vpn, USER_VA_END, USER_VA_SIZE, USER_VA_BASE, PMM.PAGE_SIZE. intros Hv. split; [lia|].
  replace (268435456 + v * 4096 - 268435456) with (v * 4096) by lia. by apply Z.div_mul.
Qed.
Definition live (s : vm) (i : nat) : bool := if decide (i = KERNEL) then negb (kernel_root s =? 0) else used (space s i).
Lemma walk_desc_tab pgs tabs s i v : tables_ok (live s) pgs tabs s -> place i v ->
  (if used (space s i) then let pt := pagetable i (page_va v) s in if pt =? 0 then 0 else word s pt (PAGE_INDEX (page_va v)) else 0) = desc s tabs i v.
Proof.
  intros Ht [Hlt Hv]. assert (El : live s i = used (space s i)) by (unfold live; by rewrite decide_False by lia).
  destruct (page_va_user v Hv) as [Hu Ev]. destruct (used (space s i)) eqn:Hi.
  2:{ unfold desc, tdesc. by rewrite (to_none _ _ _ _ Ht i _ El). }
  rewrite (pagetable_tab _ _ _ _ _ _ Ht El Hlt Hu), Ev.
  destruct (va_index _ Hu) as (_ & _ & _ & ->). rewrite Ev. unfold desc, tdesc, word. destruct (tabs i _) as [t|] eqn:Et; [|done]. cbn [default id].
  destruct (to_tree _ _ _ _ Ht i El) as [Htr _]. destruct (tr_block _ _ _ Htr _ _ Et) as (B1 & _). by rewrite (proj2 (Z.eqb_neq t 0)) by lia.
Qed.
Lemma descr_desc pgs tabs s i v : tables_ok (live s) pgs tabs s -> place i v -> descr s i v = mdesc s tabs i v.
Proof. intros Ht Hp. unfold descr, mdesc. case_decide; [done|]. by apply (walk_desc_tab pgs). Qed.
Lemma pagetable_out i va (s : vm) : ~ user_va va -> pagetable i va s = 0.
Proof.
  intros Hn. unfold pagetable, as_pagetable. destruct (spaces s !! i); [|done]. destruct (_ || _) eqn:E; [done|].
  apply orb_false_iff in E as [E1%Z.ltb_ge E2%Z.leb_gt]. by destruct Hn.
Qed.

(** ** A change the spaces do not notice *)

Lemma view_frame L pgs tabs base sbase s s' i v : vm_ok L pgs tabs base sbase s -> place i v ->
  (forall a, pg_foreign (mm s') a = pg_foreign (mm s) a) ->
  (forall a y, base a + tc_held (tc s) a < pg_held (mm s) a -> in_page a y -> pg_load (mm s') y = pg_load (mm s) y) ->
  (forall k, sbase k < sl_held (sw s) k -> sl_bytes (sw s') k = sl_bytes (sw s) k) ->
  view_of s' (mdesc s tabs i v) = view_of s (mdesc s tabs i v).
Proof.
  intros Hok Hp Hf Hb Hs. unfold view_of. set (d := mdesc s tabs i v). destruct (desc_owned d) eqn:Eo; cbn [negb]; [|done]. do 2 f_equal.
  destruct (desc_has_page d) eqn:Ep.
  - rewrite Hf. destruct (_ || _) eqn:Ex; [done|]. apply orb_false_iff in Ex as [_ Ef]. f_equal.
    apply list_fmap_ext. intros n k [-> ?]%lookup_seq. apply (Hb (page_of d)); [|unfold in_page; lia].
    pose proof (desc_page _ _ _ _ _ _ Hok i v Hp Ep) as Hn. fold d in Hn. destruct (named_page _ _ _ _ _ _ Hok _ Hn Ef) as [Hnt _].
    rewrite (vo_held _ _ _ _ _ _ Hok _ Ef Hnt). lia.
  - destruct (has d DESC_SW_LAZY) eqn:El; [done|]. do 2 f_equal. apply Hs.
    assert (Hi : in_swap d = true).
    { unfold in_swap, desc_owned, desc_has_page in *. rewrite !has_mask_or, El in *. destruct (has d PDT_RESIDENT), (has d DESC_SW_NONE), (has d DESC_SW_SWAP); done. }
    rewrite (vo_slots _ _ _ _ _ _ Hok). pose proof (slotted_le s tabs (slot_of d) i v Hp) as Hn. fold d in Hn.
    unfold slot_hold in Hn at 1. rewrite Hi, Z.eqb_refl in Hn. cbn in Hn. lia.
Qed.
Record unnoticed (L : nat -> bool) (pgs : nat -> list Z) (base sbase base' sbase' : Z -> Z) (s s' : vm) : Prop := {
  un_mm : pg_ok (mm s'); un_sw : sl_ok (sw s'); un_tc : tc_ok (tc s');
  un_foreign : forall a, pg_foreign (mm s') a = pg_foreign (mm s) a;
  un_base : forall a, 0 <= base' a;
  un_sbase : forall k, 0 <= sbase' k;
  un_tab : forall i a, a ∈ pgs i -> base' a = 0;
  un_tcle : forall a, tc_held (tc s') a <= tc_held (tc s) a;
  un_held : forall a, pg_foreign (mm s) a = false ->
    pg_held (mm s') a - base' a - tc_held (tc s') a = pg_held (mm s) a - base a - tc_held (tc s) a;
  un_slots : forall k, sl_held (sw s') k - sbase' k = sl_held (sw s) k - sbase k;
  un_load : forall a y, base a + tc_held (tc s) a < pg_held (mm s) a -> in_page a y -> pg_load (mm s') y = pg_load (mm s) y;
  un_hand : hand_ok s';
  un_len : length (spaces s') = length (spaces s);
  un_links : forall i, links (space s' i) = links (space s i);
  un_kernel : kernel_root s' = kernel_root s }.
Lemma inv_frame L pgs tabs base sbase base' sbase' s s' : vm_ok L pgs tabs base sbase s -> unnoticed L pgs base sbase base' sbase' s s' ->
  vm_ok L pgs tabs base' sbase' s' /\ forall i v, place i v -> mdesc s' tabs i v = mdesc s tabs i v.
Proof.
  intros Hok [U1 U2 U3 U4 U5 U6 U7 U8 U9 U10 U11 Uh U12 U13 U14]. pose proof Hok as [Ht A1 A2 A3 A4 A5 A6 A7 A8 A9 Ah Ac A10].
  assert (Htab : forall i a, a ∈ pgs i -> base a + tc_held (tc s) a < pg_held (mm s) a /\ pg_foreign (mm s) a = false).
  { intros i a Hi. destruct (A5 i a Hi) as (-> & -> & _). rewrite (to_held _ _ _ _ Ht i a Hi). split; [done|].
    apply (held_foreign _ _ _ _ _ _ Hok). rewrite (to_held _ _ _ _ Ht i a Hi). lia. }
  assert (Hh : forall i a, a ∈ pgs i -> pg_held (mm s') a = pg_held (mm s) a /\ tc_held (tc s') a = 0).
  { intros i a Hi. destruct (Htab i a Hi) as [_ Hf]. destruct (A5 i a Hi) as (B1 & B2 & _). specialize (U9 a Hf). rewrite (U7 i a Hi) in U9.
    pose proof (U8 a). pose proof (tc_held_nonneg _ a U3). lia. }
  destruct (tables_frame L pgs tabs s s' Ht U1) as [Ht' Hd]; [|intros i a Hi; by apply (Hh i)|done|done|done|].
  { intros i a y Hi. apply U11. by apply (Htab i). }
  assert (Hd' : forall i v, place i v -> mdesc s' tabs i v = mdesc s tabs i v) by (intros i v [_ Hv]; by apply mdesc_same, Hd).
  assert (Hn : forall a, named s' tabs a = named s tabs a) by (intros a; by apply tally_ext).
  split; [|done]. constructor; try done.
  - intros i a Hi. rewrite Hn. split; [by apply (U7 i)|]. split; [by apply (Hh i)|by apply (A5 i)].
  - intros a. rewrite U4. intros Hf. pose proof (A6 a Hf). pose proof (U8 a). pose proof (tc_held_nonneg _ a U3). lia.
  - intros a. rewrite U4, Hn. intros Hf Hnt. specialize (U9 a Hf). rewrite (A7 a Hf Hnt) in U9. lia.
  - intros k. unfold slotted. rewrite (tally_ext _ (mdesc s tabs)) by done. specialize (A8 k). unfold slotted in A8. specialize (U10 k). lia.
  - intros i v Hp. rewrite Hd' by done. by apply A9.
  - intros i v Hp. unfold cow_ok. rewrite Hd', U4 by done. by apply Ac.
  - intros i v Hp. rewrite Hd', Hn, U4 by done. intros Ho Hf. destruct (A10 i v Hp Ho Hf) as [C1 C2]. split; [done|].
    pose proof (U8 (page_of (mdesc s tabs i v))). pose proof (tc_held_nonneg _ (page_of (mdesc s tabs i v)) U3). lia.
Qed.

(** ** More tables *)

Lemma inv_grow L pgs pgs' tabs tabs' base sbase s s' : vm_ok L pgs tabs base sbase s -> tables_ok L pgs' tabs' s' ->
  grows s s' pgs pgs' tabs tabs' -> vm_ok L pgs' tabs' base sbase s' /\
  forall i v, place i v -> mdesc s' tabs' i v = mdesc s tabs i v /\ view_of s' (mdesc s tabs i v) = view_of s (mdesc s tabs i v).
Proof.
  intros Hok Ht' G. pose proof Hok as [Hta A1 A2 A3 A4 A5 A6 A7 A8 A9 Ah Ac A10]. pose proof G as [G1 G2 G3 G4 G5 G6 G7 G8 G9].
  injection G7 as Esw Etc _ Ehs Ehv _ _ _.
  assert (Hd : forall i v, place i v -> mdesc s' tabs' i v = mdesc s tabs i v) by (intros i v [Hi Hv]; apply mdesc_same, G9; [lia|done]).
  assert (Hn : forall a, named s' tabs' a = named s tabs a) by (intros a; by apply tally_ext).
  assert (Hnt : forall a, (forall i, a ∉ pgs' i) -> forall i, a ∉ pgs i) by (intros a Ha i Hi; by apply (Ha i), G3).
  split; [constructor; rewrite ?Esw, ?Etc; try done|].
  - intros i a Hi. rewrite Hn. destruct (G2 i a Hi) as [Hold|Hz]; [by apply (A5 i)|]. destruct (page_held _ _ _ _ _ _ Ht' Hi) as (Hh & _).
    assert (Hf : pg_foreign (mm s) a = false).
    { rewrite <- G5. destruct (pg_foreign (mm s') a) eqn:E; [|done]. destruct (pg_foreign_spec (mm s') a (to_mm _ _ _ _ Ht') E). lia. }
    assert (Hnn : forall j, a ∉ pgs j) by (intros j Hj; rewrite (to_held _ _ _ _ Hta j a Hj) in Hz; done).
    pose proof (A7 a Hf Hnn). pose proof (A3 a). pose proof (tc_held_nonneg _ a A2). pose proof (named_nonneg s tabs a). lia.
  - intros a. rewrite G5. apply A6.
  - intros a. rewrite G5, Hn. intros Hf Ha. rewrite (G1 a Ha). apply A7; auto.
  - intros k. unfold slotted. rewrite (tally_ext _ (mdesc s tabs)) by done. apply A8.
  - intros i v Hp. rewrite Hd by done. by apply A9.
  - unfold hand_ok. by rewrite Ehs, Ehv.
  - intros i v Hp. unfold cow_ok. rewrite Hd, G5 by done. by apply Ac.
  - intros i v Hp. rewrite Hd, Hn, G5 by done. by apply A10.
  - intros i v Hp. split; [by apply Hd|]. unfold view_of. set (d := mdesc s tabs i v). destruct (desc_owned d); cbn [negb]; [|done]. do 2 f_equal. rewrite Esw.
    destruct (desc_has_page d) eqn:Ep; [|done]. rewrite G5. destruct (_ || _) eqn:Ex; [done|]. apply orb_false_iff in Ex as [_ Ef]. f_equal.
    pose proof (desc_page _ _ _ _ _ _ Hok i v Hp Ep) as Hpos. destruct (named_page _ _ _ _ _ _ Hok _ Hpos Ef) as [B1 B2].
    apply list_fmap_ext. intros n k [-> ?]%lookup_seq. apply (G4 (page_of d)); [done|done|unfold in_page; lia].
Qed.

(** ** The invariant of a state *)

(** [base] and [sbase] are the pages and slots in the hand of calls in
    progress, and of the rest of the kernel. *)
Definition idle (s : vm) : Prop := forall i, (i < KERNEL)%nat -> used (space s i) = false -> links (space s i) = (0, 0, 0, 0).
Definition vm_inv (base sbase : Z -> Z) (s : vm) : Prop := idle s /\ exists pgs tabs, vm_ok (live s) pgs tabs base sbase s.
(** How many descriptors name a page. *)
Definition cnt (s : vm) (a : Z) : Z := tally (hold a) (descr s).
Lemma ok_live L L' pgs tabs base sbase s : (forall i, L' i = L i) -> vm_ok L pgs tabs base sbase s -> vm_ok L' pgs tabs base sbase s.
Proof.
  intros E [[A Al Ad B C D E' F Fo G K] A1 A2 A3 A4 A5 A6 A7 A8 A9 Ah Ac A10]. constructor; try done. constructor; try done.
  - intros i. rewrite E. apply Ad.
  - intros i. rewrite E. apply B.
  - intros i k. rewrite E. apply C.
  - rewrite E. apply K.
Qed.
Lemma live_same s s' i : kernel_root s' = kernel_root s -> used (space s' i) = used (space s i) -> live s' i = live s i.
Proof. unfold live. by intros -> ->. Qed.
Lemma cnt_named pgs tabs s a : tables_ok (live s) pgs tabs s -> named s tabs a = cnt s a.
Proof. intros Ht. apply tally_ext. intros i v Hp. symmetry. by apply (descr_desc pgs). Qed.
Lemma cnt_nonneg s a : 0 <= cnt s a.
Proof. apply tally_nonneg. intros d. apply hold_bound. Qed.
Lemma cnt_le s i v : place i v -> desc_has_page (descr s i v) = true -> 0 < cnt s (page_of (descr s i v)).
Proof.
  intros Hp Hd. pose proof (tally_le (hold (page_of (descr s i v))) (descr s) i v ltac:(intros; apply hold_bound) eq_refl Hp) as Hn.
  rewrite hold_page in Hn by done. unfold cnt. lia.
Qed.
Lemma inv_count base sbase s a : vm_inv base sbase s -> pg_foreign (mm s) a = false -> 0 < base a + cnt s a ->
  pg_held (mm s) a = base a + tc_held (tc s) a + cnt s a.
Proof.
  intros (Hidle & pgs & tabs & Hok) Hf Hp. pose proof (vo_tables _ _ _ _ _ _ Hok) as Ht. rewrite <- (cnt_named pgs tabs) in * by done.
  apply (vo_held _ _ _ _ _ _ Hok a Hf). intros i Hi. destruct (vo_tab _ _ _ _ _ _ Hok i a Hi). lia.
Qed.
Lemma inv_bases base sbase base' sbase' s : (forall a, base' a = base a) -> (forall k, sbase' k = sbase k) -> vm_inv base sbase s -> vm_inv base' sbase' s.
Proof.
  intros E1 E2 (Hidle & pgs & tabs & [A0 A1 A2 A3 A4 A5 A6 A7 A8 A9 Ah Ac A10]). split; [done|]. exists pgs, tabs. constructor; try done.
  - intros a. by rewrite E1.
  - intros k. by rewrite E2.
  - intros i a Hi. rewrite E1. by apply (A5 i).
  - intros a Hf Hn. rewrite E1. by apply A7.
  - intros k. rewrite E2. apply A8.
Qed.
Section known.
Context base sbase s (Hinv : vm_inv base sbase s).
Lemma inv_mm : pg_ok (mm s).
Proof using Hinv. destruct Hinv as (Hidle & pgs & tabs & Hok). by apply (ok_mm _ _ _ _ _ _ Hok). Qed.
Lemma inv_sw : sl_ok (sw s).
Proof using Hinv. by destruct Hinv as (Hidle & pgs & tabs & [_ ? _]). Qed.
Lemma inv_tc : tc_ok (tc s).
Proof using Hinv. by destruct Hinv as (Hidle & pgs & tabs & [_ _ ?]). Qed.
Lemma inv_base a : 0 <= base a.
Proof using Hinv. destruct Hinv as (Hidle & pgs & tabs & Hok). by apply (vo_base _ _ _ _ _ _ Hok). Qed.
Lemma inv_sbase k : 0 <= sbase k.
Proof using Hinv. destruct Hinv as (Hidle & pgs & tabs & Hok). by apply (vo_sbase _ _ _ _ _ _ Hok). Qed.
Lemma inv_tcle a : tc_held (tc s) a <= pg_held (mm s) a.
Proof using Hinv. destruct Hinv as (Hidle & pgs & tabs & Hok). by apply (tc_le _ _ _ _ _ _ Hok). Qed.
Lemma inv_foreign a : 0 < pg_held (mm s) a -> pg_foreign (mm s) a = false.
Proof using Hinv. destruct Hinv as (Hidle & pgs & tabs & Hok). by apply (held_foreign _ _ _ _ _ _ Hok). Qed.
Lemma inv_wf i v : place i v -> desc_wf (descr s i v).
Proof using Hinv.
  intros Hp. destruct Hinv as (Hidle & pgs & tabs & Hok). rewrite (descr_desc pgs tabs) by (done || apply Hok). by apply (vo_wf _ _ _ _ _ _ Hok).
Qed.
Lemma inv_hand : hand_ok s.
Proof using Hinv. destruct Hinv as (Hidle & pgs & tabs & Hok). by apply (vo_hand _ _ _ _ _ _ Hok). Qed.
Lemma inv_cow i v : place i v -> cow_ok s (descr s i v).
Proof using Hinv.
  intros Hp. destruct Hinv as (Hidle & pgs & tabs & Hok). rewrite (descr_desc pgs tabs) by (done || apply Hok). by apply (vo_cow _ _ _ _ _ _ Hok).
Qed.
Lemma inv_own i v : place i v -> own_write (descr s i v) = true -> pg_foreign (mm s) (page_of (descr s i v)) = false ->
  cnt s (page_of (descr s i v)) = 1 /\ tc_held (tc s) (page_of (descr s i v)) = 0.
Proof using Hinv.
  intros Hp. destruct Hinv as (Hidle & pgs & tabs & Hok). rewrite <- (cnt_named pgs tabs) by apply Hok.
  rewrite (descr_desc pgs tabs) by (done || apply Hok). by apply (vo_own _ _ _ _ _ _ Hok).
Qed.
Lemma inv_slot i v : place i v -> in_swap (descr s i v) = true -> sbase (slot_of (descr s i v)) < sl_held (sw s) (slot_of (descr s i v)).
Proof using Hinv.
  intros Hp. destruct Hinv as (Hidle & pgs & tabs & Hok). rewrite (descr_desc pgs tabs) by (done || apply Hok). set (d := mdesc s tabs i v). intros Hd.
  rewrite (vo_slots _ _ _ _ _ _ Hok). pose proof (slotted_le s tabs (slot_of d) i v Hp) as Hn. fold d in Hn.
  unfold slot_hold in Hn at 1. rewrite Hd, Z.eqb_refl in Hn. cbn in Hn. lia.
Qed.
Lemma inv_sheld k : sbase k <= sl_held (sw s) k.
Proof using Hinv. destruct Hinv as (Hidle & pgs & tabs & Hok). rewrite (vo_slots _ _ _ _ _ _ Hok). pose proof (slotted_nonneg s tabs k). lia. Qed.
Lemma inv_len : length (spaces s) = KERNEL.
Proof using Hinv. destruct Hinv as (Hidle & pgs & tabs & Hok). apply (to_len _ _ _ _ (vo_tables _ _ _ _ _ _ Hok)). Qed.
Lemma used_lt i : used (space s i) = true -> (i < KERNEL)%nat.
Proof using Hinv. rewrite <- inv_len. unfold space. destruct (spaces s !! i) eqn:E; [intros _; by eapply lookup_lt_Some|done]. Qed.
End known.

(** ** What happens behind a space's back *)

(** The tables of the spaces in [Q], and of those being built, stay, and what
    is seen in them too unless a page could not be written out. *)
Record kept (Q : nat -> bool) (s s' : vm) : Prop := {
  ke_lost : lost s <= lost s';
  ke_foreign : forall a, pg_foreign (mm s') a = pg_foreign (mm s) a;
  ke_used : forall i, used (space s i) = true -> Q i || busy (space s i) = true ->
    used (space s' i) = true /\ busy (space s' i) = busy (space s i);
  ke_tabs : forall i va, used (space s i) = true -> Q i || busy (space s i) = true -> pagetable i va s <> 0 -> pagetable i va s' = pagetable i va s;
  ke_kernel : kernel_root s' = kernel_root s }.
Record calm (Q : nat -> bool) (s s' : vm) : Prop := {
  cm_kept : kept Q s s';
  cm_none : forall i v, place i v -> used (space s i) = true -> Q i || busy (space s i) = true -> (sees s' i v = None <-> sees s i v = None);
  cm_view : lost s' = lost s -> forall i v, place i v -> used (space s i) = true -> Q i || busy (space s i) = true -> sees s' i v = sees s i v }.
Lemma kept_trans Q s1 s2 s3 : kept Q s1 s2 -> kept Q s2 s3 -> kept Q s1 s3.
Proof.
  intros [A1 F1 B1 C1 R1] [A2 F2 B2 C2 R2]. constructor.
  - lia.
  - intros a. by rewrite F2.
  - intros i Hu Hq. destruct (B1 i Hu Hq) as [U1 U2]. rewrite <- U2 in Hq. destruct (B2 i U1 Hq) as [-> ->]. done.
  - intros i va Hu Hq Hp. destruct (B1 i Hu Hq) as [U1 U2]. pose proof (C1 i va Hu Hq Hp) as E. rewrite <- U2 in Hq. rewrite C2; [done|done|done|by rewrite E].
  - by rewrite R2.
Qed.
Lemma calm_refl Q s : calm Q s s.
Proof. by constructor. Qed.
Lemma calm_trans Q s1 s2 s3 : calm Q s1 s2 -> calm Q s2 s3 -> calm Q s1 s3.
Proof.
  intros [K1 N1 D1] [K2 N2 D2]. constructor; [by eapply kept_trans| |].
  { intros i v Hp Hu Hq. destruct (ke_used _ _ _ K1 i Hu Hq) as [U1 U2]. rewrite <- (N1 i v Hp Hu Hq). rewrite <- U2 in Hq. by apply N2. }
  pose proof (ke_lost _ _ _ K1). pose proof (ke_lost _ _ _ K2).
  intros Hl i v Hp Hu Hq. destruct (ke_used _ _ _ K1 i Hu Hq) as [U1 U2]. rewrite <- (D1 ltac:(lia) i v Hp Hu Hq). rewrite <- U2 in Hq. apply D2; [lia|done|done|done].
Qed.
Lemma calm_lost Q s s' : kept Q s s' -> (forall i v, place i v -> used (space s i) = true -> Q i || busy (space s i) = true -> (sees s' i v = None <-> sees s i v = None)) ->
  lost s < lost s' -> calm Q s s'.
Proof. intros K N Hl. constructor; [done|done|lia]. Qed.
Lemma used_live s i : (i < KERNEL)%nat -> live s i = used (space s i).
Proof. intros Hi. unfold live. by rewrite decide_False by lia. Qed.
Lemma pagetable_some base sbase s i va : vm_inv base sbase s -> used (space s i) = true -> pagetable i va s <> 0 ->
  user_va va /\ place i (vpn va) /\ PAGE_INDEX va = ei (vpn va) /\
  (X <> Some (i, vpn va) -> descr s i (vpn va) = word s (pagetable i va s) (PAGE_INDEX va)).
Proof.
  intros Hinv Hu Hp. pose proof (used_lt _ _ _ Hinv i Hu) as Hi. assert (Hva : user_va va).
  { destruct (decide (USER_VA_BASE <= va < USER_VA_END)) as [|Hn]; [done|]. by rewrite pagetable_out in Hp. }
  destruct (va_index va Hva) as (Hv & _ & _ & Ei). split; [done|]. split; [done|]. split; [done|]. intros HX.
  destruct Hinv as (Hidle & pgs & tabs & Hok). pose proof (vo_tables _ _ _ _ _ _ Hok) as Ht. pose proof (used_live s i Hi) as El. rewrite Hu in El.
  rewrite (descr_desc pgs tabs) by done. unfold mdesc. rewrite decide_False by done. rewrite (pagetable_tab _ _ _ _ _ _ Ht El Hi Hva) in *. rewrite Ei. unfold desc, tdesc, word. by destruct (tabs i _).
Qed.
Lemma calm_intro Q pgs pgs' tabs tabs' s s' : tables_ok (live s) pgs tabs s -> tables_ok (live s') pgs' tabs' s' -> lost s <= lost s' ->
  (forall a, pg_foreign (mm s') a = pg_foreign (mm s) a) -> kernel_root s' = kernel_root s -> (forall i k t, tabs i k = Some t -> tabs' i k = Some t) ->
  (forall i, used (space s i) = true -> used (space s' i) = true /\ busy (space s' i) = busy (space s i)) ->
  (forall i v, place i v -> used (space s i) = true -> Q i || busy (space s i) = true ->
     view_of s' (mdesc s' tabs' i v) = view_of s (mdesc s tabs i v)) -> calm Q s s'.
Proof.
  intros Ht Ht' Hl Hfo Hkr Htb Hus Hv. assert (Hse : forall i v, place i v -> used (space s i) = true -> Q i || busy (space s i) = true -> sees s' i v = sees s i v).
  { intros i v Hp Hu Hq. unfold sees. rewrite (descr_desc pgs tabs s), (descr_desc pgs' tabs' s') by done. auto. }
  constructor; [constructor; [done|done|auto| |done]|intros i v Hp Hu Hq; by rewrite Hse|auto].
  - intros i va Hu Hq Hp. destruct (decide (USER_VA_BASE <= va < USER_VA_END)) as [Hva|Hn]; [|by rewrite pagetable_out in Hp].
    assert (Hi : (i < KERNEL)%nat).
    { rewrite <- (to_len _ _ _ _ Ht). unfold space in Hu. destruct (spaces s !! i) eqn:E; [by eapply lookup_lt_Some|done]. }
    pose proof (used_live s i Hi) as El. pose proof (used_live s' i Hi) as El'. destruct (Hus i Hu) as [Hu' _]. rewrite Hu in El. rewrite Hu' in El'.
    rewrite (pagetable_tab _ _ _ _ _ _ Ht El Hi Hva) in *. rewrite (pagetable_tab _ _ _ _ _ _ Ht' El' Hi Hva).
    destruct (tabs i _) as [t|] eqn:Et; [|done]. by rewrite (Htb _ _ _ Et).
Qed.

(** ** Steps *)

Record slight (base sbase base' sbase' : Z -> Z) (s s' : vm) : Prop := {
  sg_mm : pg_ok (mm s'); sg_sw : sl_ok (sw s'); sg_tc : tc_ok (tc s');
  sg_foreign : forall a, pg_foreign (mm s') a = pg_foreign (mm s) a;
  sg_base : forall a, 0 <= base' a;
  sg_sbase : forall k, 0 <= sbase' k;
  sg_tab : forall a, 0 < base' a -> pg_foreign (mm s) a = false -> 0 < base a + cnt s a \/ pg_held (mm s) a = 0;
  sg_tcle : forall a, tc_held (tc s') a <= tc_held (tc s) a;
  sg_held : forall a, pg_foreign (mm s) a = false ->
    pg_held (mm s') a - base' a - tc_held (tc s') a = pg_held (mm s) a - base a - tc_held (tc s) a;
  sg_slots : forall k, sl_held (sw s') k - sbase' k = sl_held (sw s) k - sbase k;
  sg_load : forall a y, base a + tc_held (tc s) a < pg_held (mm s) a -> in_page a y -> pg_load (mm s') y = pg_load (mm s) y;
  sg_bytes : forall k, sbase k < sl_held (sw s) k -> sl_bytes (sw s') k = sl_bytes (sw s) k;
  sg_hand : hand_ok s';
  sg_spaces : spaces s' = spaces s;
  sg_kernel : kernel_root s' = kernel_root s;
  sg_lost : lost s <= lost s' }.
Lemma inv_slight Q base sbase base' sbase' s s' : vm_inv base sbase s -> slight base sbase base' sbase' s s' ->
  vm_inv base' sbase' s' /\ calm Q s s' /\ (forall i v, place i v -> descr s' i v = descr s i v) /\ (forall a, cnt s' a = cnt s a) /\
  (forall i va, pagetable i va s' = pagetable i va s \/ used (space s i) = false).
Proof.
  intros (Hidle & pgs & tabs & Hok) [G1 G2 G3 G4 G5 G6 G7 G8 G9 G10 G11 G12 Gh G13 G14 G15]. pose proof (vo_tables _ _ _ _ _ _ Hok) as Ht.
  assert (Hsp : forall i, space s' i = space s i) by (intros i; unfold space; by rewrite G13).
  assert (Hl : forall i, live s' i = live s i) by (intros i; apply live_same; [done|by rewrite Hsp]).
  destruct (inv_frame (live s) pgs tabs base sbase base' sbase' s s' Hok) as [Hok' Hd].
  { constructor; try done.
    - intros i a Hi. destruct (vo_tab _ _ _ _ _ _ Hok i a Hi) as (B1 & B2 & B3). rewrite (cnt_named pgs) in B3 by done.
      pose proof (to_held _ _ _ _ Ht i a Hi) as Hh. pose proof (G7 a) as Hx. pose proof (G5 a).
      pose proof (held_foreign _ _ _ _ _ _ Hok a ltac:(lia)) as Hf. destruct (Z.eq_dec (base' a) 0) as [|Hne]; [done|]. destruct (Hx ltac:(lia) Hf); lia.
    - by rewrite G13.
    - intros i. by rewrite Hsp. }
  pose proof (ok_live _ _ _ _ _ _ _ Hl Hok') as Hok2. pose proof (vo_tables _ _ _ _ _ _ Hok2) as Ht2.
  assert (Hde : forall i v, place i v -> descr s' i v = descr s i v).
  { intros i v Hp. rewrite (descr_desc pgs tabs s), (descr_desc pgs tabs s') by done. by apply Hd. }
  split; [split; [intros i; rewrite Hsp; by apply Hidle|by exists pgs, tabs]|]. split; [|split; [done|split; [intros a; by apply tally_ext|]]].
  - apply (calm_intro Q pgs pgs tabs tabs); try done; [intros i; by rewrite Hsp|]. intros i v Hp _ _. rewrite Hd by done.
    by apply (view_frame _ _ _ _ _ _ _ _ _ Hok).
  - intros i va. destruct (used (space s i)) eqn:Hu; [left|by right]. assert (Hi : (i < KERNEL)%nat).
    { apply (used_lt base sbase s); [by split; [|exists pgs, tabs]|done]. }
    destruct (decide (USER_VA_BASE <= va < USER_VA_END)) as [Hva|Hn]; [|by rewrite !pagetable_out].
    rewrite (pagetable_tab _ _ _ _ _ _ Ht2), (pagetable_tab _ _ _ _ _ _ Ht); try done; rewrite used_live; try done. by rewrite Hsp.
Qed.

End inv.
(** Where a descriptor is written, it counts again. *)
Definition masks (X X' : option (nat * Z)) (p : nat * Z) : Prop := (X' = X /\ X <> Some p) \/ (X' = None /\ X = Some p).
Lemma masks_none p : masks None None p.
Proof. by left. Qed.
Lemma masks_some p : masks (Some p) None p.
Proof. by right. Qed.
Lemma masks_keep p q : q <> p -> masks (Some q) (Some q) p.
Proof. intros Hne. left. split; [done|congruence]. Qed.
Lemma masks_other X X' p q : masks X X' p -> q <> p -> (X' = Some q <-> X = Some q).
Proof. intros [[-> _]|[-> ->]] Hne; [done|]. split; [done|congruence]. Qed.
Lemma masks_at X X' p : masks X X' p -> X' <> Some p.
Proof. by intros [[-> ?]|[-> _]]. Qed.

Section sets.
Context {W S T : Type} `{TextCache T W} `{SwapSlots S} {X X' : option (nat * Z)}.
#[local] Abbreviation vm := (@vm W S T).
#[local] Abbreviation mdescX := (mdesc (X := X)).
#[local] Abbreviation mdesc0 := (mdesc (X := X')).
#[local] Abbreviation namedX := (named (X := X)).
#[local] Abbreviation named0 := (named (X := X')).
#[local] Abbreviation slottedX := (slotted (X := X)).
#[local] Abbreviation slotted0 := (slotted (X := X')).
#[local] Abbreviation vm_okX := (vm_ok (X := X)).
#[local] Abbreviation vm_ok0 := (vm_ok (X := X')).
#[local] Abbreviation vm_invX := (vm_inv (X := X)).
#[local] Abbreviation vm_inv0 := (vm_inv (X := X')).
#[local] Abbreviation descrX := (descr (X := X)).
#[local] Abbreviation descr0 := (descr (X := X')).
#[local] Abbreviation cntX := (cnt (X := X)).
#[local] Abbreviation seesX := (sees (X := X)).
#[local] Abbreviation sees0 := (sees (X := X')).
#[local] Abbreviation calmX := (calm (X := X)).
#[local] Abbreviation calm0 := (calm (X := X')).

(** ** One descriptor changed *)

(** May [d'] be put where [mdescX s tabs i v] is: nobody writes its page through
    another descriptor, and it is the only one if it can itself. *)
Definition may_name (s : vm) (tabs : nat -> tabs_of) (i : nat) (v d' : Z) : Prop :=
  desc_has_page d' = true -> pg_foreign (mm s) (page_of d') = false ->
  (own_write d' = true -> namedX s tabs (page_of d') = hold (page_of d') (mdescX s tabs i v) /\ tc_held (tc s) (page_of d') = 0) /\
  forall j w, place j w -> (j, w) <> (i, v) -> own_write (mdescX s tabs j w) = true -> page_of (mdescX s tabs j w) <> page_of d'.
Record set_desc (base sbase base' sbase' : Z -> Z) (s : vm) (tabs : nat -> tabs_of) (i : nat) (v d' : Z) : Prop := {
  sd_wf : desc_wf d';
  sd_base : forall a, 0 <= base' a;
  sd_sbase : forall k, 0 <= sbase' k;
  sd_held : forall a, pg_foreign (mm s) a = false -> base' a + hold a d' = base a + hold a (mdescX s tabs i v);
  sd_slots : forall k, sbase' k + slot_hold k d' = sbase k + slot_hold k (mdescX s tabs i v);
  sd_cow : cow_ok s d';
  sd_name : may_name s tabs i v d' }.
Lemma inv_set L pgs tabs base sbase base' sbase' s i v t d' : vm_okX L pgs tabs base sbase s -> masks X X' (i, v) -> place i v ->
  tabs i (KPage (ri v) (pi v)) = Some t -> set_desc base sbase base' sbase' s tabs i v d' ->
  let s' := set_word t (ei v) d' s in
  vm_ok0 L pgs tabs base' sbase' s' /\ mdesc0 s' tabs i v = d' /\
  (forall j w, place j w -> (j, w) <> (i, v) -> mdesc0 s' tabs j w = mdescX s tabs j w) /\
  (forall a, pg_held (mm s') a = pg_held (mm s) a) /\
  (forall a, pg_foreign (mm s') a = pg_foreign (mm s) a) /\
  (forall a y, 0 < pg_held (mm s) a -> (forall i, a ∉ pgs i) -> in_page a y -> pg_load (mm s') y = pg_load (mm s) y).
Proof.
  intros Hok HX Hp Ht [Dw Db Ds Dh Dk Dc Dn] s'. pose proof Hok as [Hta A1 A2 A3 A4 A5 A6 A7 A8 A9 Ah Ac A10]. destruct Hp as [Hi Hv].
  destruct (vpn_range v Hv) as (R1 & R2 & R3). destruct (set_entry L pgs tabs s i _ _ t (ei v) d' Hta Ht R3 (proj1 Dw)) as (T1 & T2 & (pg & G1 & G2 & G3) & T4).
  fold s' in T1, T2, T4. set (d := mdescX s tabs i v) in *.
  assert (E1 : mdesc0 s' tabs i v = d') by (unfold mdesc, desc; rewrite T4 by done; by rewrite decide_False, decide_True by (done || by apply (masks_at X))).
  assert (E2 : forall j w, place j w -> (j, w) <> (i, v) -> mdesc0 s' tabs j w = mdescX s tabs j w).
  { intros j w [_ Hw] Hne. unfold mdesc. pose proof (masks_other X X' (i, v) (j, w) HX Hne) as Hm. destruct (decide (X = Some (j, w))) as [Ex|Ex]; [by rewrite decide_True by (by apply Hm)|].
    rewrite decide_False by (by rewrite Hm). unfold desc. destruct (vpn_range w Hw) as (_ & _ & Hew). rewrite T4 by done. rewrite decide_False; [done|].
    intros (-> & X1 & X2 & X3). apply Hne. f_equal. by apply index_inj. }
  assert (Hn : forall a, named0 s' tabs a = namedX s tabs a + hold a d' - hold a d).
  { intros a. unfold named. rewrite (tally_upd (hold a) (mdescX s tabs) (mdesc0 s' tabs) i v); [by rewrite E1|done|done]. }
  assert (Hsl : forall k, slotted0 s' tabs k = slottedX s tabs k + slot_hold k d' - slot_hold k d).
  { intros k. unfold slotted. rewrite (tally_upd (slot_hold k) (mdescX s tabs) (mdesc0 s' tabs) i v); [by rewrite E1|done|done]. }
  assert (Ef : forall a, pg_foreign (mm s') a = pg_foreign (mm s) a) by apply T2. assert (Eh : forall a, pg_held (mm s') a = pg_held (mm s) a) by apply T2.
  assert (Etc : tc s' = tc s) by done. assert (Esw : sw s' = sw s) by done. assert (Eha : hand_ok s') by done. clearbody s'.
  split; [constructor; try done; rewrite ?Etc, ?Esw; try done|split; [done|split; [done|split; [done|split; [done|]]]]].
  - intros j a Ha. destruct (A5 j a Ha) as (B1 & B2 & B3).
    assert (Hf : pg_foreign (mm s) a = false) by (apply (held_foreign _ _ _ _ _ _ Hok); rewrite (to_held _ _ _ _ Hta j a Ha); lia).
    pose proof (Dh a Hf). pose proof (named_le (X := X) s tabs a i v ltac:(done)) as Hle. fold d in Hle. rewrite Hn.
    pose proof (hold_bound a d). pose proof (hold_bound a d'). pose proof (Db a). lia.
  - intros a. rewrite Ef. apply A6.
  - intros a. rewrite Ef, Eh, Hn. intros Hf Hnt. rewrite (A7 a Hf Hnt). specialize (Dh a Hf). lia.
  - intros k. rewrite Hsl, A8. specialize (Dk k). lia.
  - intros j w Hj. destruct (decide ((j, w) = (i, v))) as [[= -> ->]|Hne]; [by rewrite E1|]. rewrite E2 by done. by apply A9.
  - intros j w Hj. unfold cow_ok. rewrite Ef. destruct (decide ((j, w) = (i, v))) as [[= -> ->]|Hne]; [by rewrite E1|]. rewrite E2 by done. by apply Ac.
  - intros j w Hj. rewrite Ef, Hn. destruct (decide ((j, w) = (i, v))) as [[= -> ->]|Hne].
    + rewrite E1. intros Ho Hf. destruct (Dn (own_write_page _ Ho) Hf) as [N1 _]. destruct (N1 Ho) as [N2 N3]. split; [|done].
      rewrite hold_page by (by apply own_write_page). fold d in N2. lia.
    + rewrite E2 by done. intros Ho Hf. destruct (A10 j w Hj Ho Hf) as [B1 B2]. split; [|done]. set (a := page_of (mdescX s tabs j w)) in *.
      pose proof (named_two (X := X) s tabs a i v j w ltac:(done) Hj Hne) as H12. unfold a in H12 at 2. rewrite hold_page in H12 by (by apply own_write_page). fold a d in H12.
      assert (hold a d' = 0); [|pose proof (hold_bound a d); lia]. destruct (Z.eq_dec (hold a d') 0) as [|Hnz]; [done|exfalso].
      destruct (hold_inv a d' Hnz) as [X1 X2]. rewrite <- X2 in Hf. destruct (Dn X1 Hf) as [_ N2]. by apply (N2 j w Hj Hne Ho).
  - intros a y Ha Hnt Hy. apply (st_other _ _ _ _ T2). destruct (page_held _ _ _ _ _ _ Hta G1) as (_ & _ & M1).
    destruct (pg_held_page _ _ (ok_mm _ _ _ _ _ _ Hok) Ha) as [_ M2]. assert (a <> pg) by (intros ->; by apply (Hnt i)).
    unfold in_page in Hy. Z.div_mod_to_equations. lia.
Qed.

Record set_at (base sbase base' sbase' : Z -> Z) (s : vm) (i : nat) (v d' : Z) : Prop := {
  sa_wf : desc_wf d';
  sa_base : forall a, 0 <= base' a;
  sa_sbase : forall k, 0 <= sbase' k;
  sa_held : forall a, pg_foreign (mm s) a = false -> base' a + hold a d' = base a + hold a (descrX s i v);
  sa_slots : forall k, sbase' k + slot_hold k d' = sbase k + slot_hold k (descrX s i v);
  sa_cow : cow_ok s d';
  sa_name : desc_has_page d' = true -> pg_foreign (mm s) (page_of d') = false ->
    (own_write d' = true -> cntX s (page_of d') = hold (page_of d') (descrX s i v) /\ tc_held (tc s) (page_of d') = 0) /\
    forall j w, place j w -> (j, w) <> (i, v) -> own_write (descrX s j w) = true -> page_of (descrX s j w) <> page_of d' }.
(** A descriptor written through the walk. *)
Record set_done (base : Z -> Z) (s s' : vm) (i : nat) (v d' : Z) : Prop := {
  se_descr : forall j w, place j w -> descr0 s' j w = if decide ((j, w) = (i, v)) then d' else descrX s j w;
  se_held : forall a, pg_held (mm s') a = pg_held (mm s) a;
  se_foreign : forall a, pg_foreign (mm s') a = pg_foreign (mm s) a;
  se_tabs : forall j va, used (space s j) = true -> pagetable j va s' = pagetable j va s;
  se_sees : forall j w, place j w -> (j, w) <> (i, v) -> sees0 s' j w = seesX s j w;
  se_view : view_of s' d' = view_of s d';
  se_load : forall a y, 0 < base a + cntX s a -> pg_foreign (mm s) a = false -> in_page a y -> pg_load (mm s') y = pg_load (mm s) y;
  se_kernel : kernel_root s' = kernel_root s }.
Lemma set_ok base sbase base' sbase' s i va d' : vm_invX base sbase s -> masks X X' (i, vpn va) -> used (space s i) = true -> pagetable i va s <> 0 ->
  set_at base sbase base' sbase' s i (vpn va) d' ->
  let s' := set_word (pagetable i va s) (PAGE_INDEX va) d' s in
  vm_inv0 base' sbase' s' /\ set_done base s s' i (vpn va) d'.
Proof.
  intros Hinv HX Hu Hp Hs s'. destruct (pagetable_some _ _ _ _ _ Hinv Hu Hp) as (Hva & Hpl & Ei & _). set (v := vpn va) in *.
  pose proof Hinv as (Hidle & pgs & tabs & Hok). pose proof (vo_tables _ _ _ _ _ _ Hok) as Ht. pose proof Hpl as [Hi Hv].
  pose proof (used_live s i Hi) as El. rewrite Hu in El.
  assert (Hd : forall j w, place j w -> mdescX s tabs j w = descrX s j w) by (intros j w Hj; symmetry; by apply (descr_desc pgs)).
  unfold s'. rewrite Ei. rewrite (pagetable_tab _ _ _ _ _ _ Ht El Hi Hva) in *. fold v. fold v in Hp.
  destruct (tabs i (KPage (ri v) (pi v))) as [t|] eqn:Et; [|done]. cbn [default id] in *. clear s'.
  destruct (inv_set (live s) pgs tabs base sbase base' sbase' s i v t d' Hok HX Hpl Et) as (I1 & I2 & I3 & I4 & I5 & I6).
  { destruct Hs as [S1 S2 S3 S4 S5 Sc S6]. constructor; try done; [intros a Hf; rewrite Hd by done; by apply S4|intros k; rewrite Hd by done; by apply S5|].
    intros D1 D2. rewrite (cnt_named pgs), Hd by done. destruct (S6 D1 D2) as [X1 X2]. split; [done|]. intros j w Hj. rewrite Hd by done. by apply X2. }
  set (s' := set_word t (ei v) d' s) in *. cbn zeta in I1.
  assert (I1' : vm_ok0 (live s') pgs tabs base' sbase' s') by (by apply (ok_live (live s))).
  assert (Hd' : forall j w, place j w -> descr0 s' j w = mdesc0 s' tabs j w) by (intros j w Hj; apply (descr_desc (X := X') pgs); [apply (vo_tables _ _ _ _ _ _ I1')|done]).
  assert (Hb : forall a y, 0 < base a + cntX s a -> pg_foreign (mm s) a = false -> in_page a y -> pg_load (mm s') y = pg_load (mm s) y).
  { intros a y Hpos Hf. apply (I6 a).
    - rewrite (inv_count base sbase) by done. pose proof (tc_held_nonneg _ a (vo_tc _ _ _ _ _ _ Hok)). lia.
    - intros j Hj. destruct (vo_tab _ _ _ _ _ _ Hok j a Hj) as (B1 & _ & B3). rewrite (cnt_named pgs) in B3 by done. lia. }
  assert (Hview : forall d, (desc_has_page d = true -> pg_foreign (mm s) (page_of d) = false -> 0 < base (page_of d) + cntX s (page_of d)) -> view_of s' d = view_of s d).
  { intros d Hpos. unfold view_of. destruct (desc_owned d); cbn [negb]; [|done]. do 2 f_equal. destruct (desc_has_page d); [|done]. rewrite I5.
    destruct (_ || _) eqn:Ex; [done|]. apply orb_false_iff in Ex as [_ Ef]. f_equal.
    apply list_fmap_ext. intros x k [-> ?]%lookup_seq. apply (Hb (page_of d)); [by apply Hpos|done|unfold in_page; lia]. }
  pose proof (inv_base _ _ _ Hinv) as Hbn.
  split; [by split; [|exists pgs, tabs]|]. constructor.
  - intros j w Hj. rewrite Hd' by done. case_decide as E; [by injection E as -> ->|]. rewrite I3 by done. by apply Hd.
  - done.
  - done.
  - intros j va' Hj. destruct (decide (USER_VA_BASE <= va' < USER_VA_END)) as [Hva'|Hn]; [|by rewrite !pagetable_out].
    pose proof (used_lt _ _ _ Hinv j Hj) as Hjl. pose proof (used_live s j Hjl) as Elj. rewrite Hj in Elj.
    by rewrite (pagetable_tab _ _ _ _ _ _ (vo_tables _ _ _ _ _ _ I1) Elj Hjl Hva'), (pagetable_tab _ _ _ _ _ _ Ht Elj Hjl Hva').
  - intros j w Hj Hne. unfold sees. rewrite Hd', I3, Hd by done. apply Hview. intros D1 _. pose proof (cnt_le (X := X) s j w Hj D1). pose proof (Hbn (page_of (descrX s j w))). lia.
  - apply Hview. intros D1 D2. pose proof (sa_held _ _ _ _ _ _ _ _ Hs _ D2) as E. rewrite hold_page in E by done.
    pose proof (sa_base _ _ _ _ _ _ _ _ Hs (page_of d')). pose proof (cnt_nonneg (X := X) s (page_of d')). pose proof (Hbn (page_of d')).
    destruct (Z.eq_dec (hold (page_of d') (descrX s i v)) 0) as [Ez|Ez]; [lia|]. destruct (hold_inv _ _ Ez) as [X1 X2].
    pose proof (cnt_le (X := X) s i v Hpl X1). rewrite X2 in *. lia.
  - done.
  - done.
Qed.
Lemma set_kept Q base sbase s s' i v d' : vm_invX base sbase s -> set_done base s s' i v d' -> spaces s' = spaces s -> lost s' = lost s -> kept Q s s'.
Proof.
  intros Hinv Hd Hsp Hl. assert (Hs : forall j, space s' j = space s j) by (intros j; unfold space; by rewrite Hsp). constructor.
  - lia.
  - apply (se_foreign _ _ _ _ _ _ Hd).
  - intros j. by rewrite Hs.
  - intros j va Hu _ _. by apply (se_tabs _ _ _ _ _ _ Hd).
  - apply (se_kernel _ _ _ _ _ _ Hd).
Qed.
Definition same_none (Q : nat -> bool) (s s' : vm) : Prop :=
  forall i v, place i v -> used (space s i) = true -> Q i || busy (space s i) = true -> (sees0 s' i v = None <-> sees0 s i v = None).
(** The same is seen at [v] as at first: nothing shows. *)
Lemma set_calm Q base sbase s0 s s' i v d' : vm_invX base sbase s -> masks X X' (i, v) -> place i v -> set_done base s s' i v d' ->
  spaces s' = spaces s -> lost s' = lost s -> calmX Q s0 s ->
  (used (space s0 i) = true -> Q i || busy (space s0 i) = true -> view_of s d' = None <-> sees0 s0 i v = None) ->
  (lost s = lost s0 -> used (space s0 i) = true -> Q i || busy (space s0 i) = true -> view_of s d' = sees0 s0 i v) -> calm0 Q s0 s'.
Proof.
  intros Hinv HX Hp Hd Hsp Hl Hc Hn Hv. assert (Hx : forall j w, (j, w) <> (i, v) -> sees0 s0 j w = seesX s0 j w).
  { intros j w Hne. unfold sees. f_equal. unfold descr. pose proof (masks_other X X' (i, v) (j, w) HX Hne) as Hm.
    destruct (decide (X = Some (j, w))) as [Ex|Ex]; [by rewrite decide_True by (by apply Hm)|]. by rewrite decide_False by (by rewrite Hm). }
  constructor; [eapply kept_trans; [apply Hc|by eapply set_kept]| |]; destruct Hd as [D1 D2 D3 D4 D5 D6 _].
  { intros j w Hj Hu Hq. destruct (decide ((j, w) = (i, v))) as [[= -> ->]|Hne]; [|rewrite D5, Hx by done; by apply (cm_none _ _ _ Hc)].
    unfold sees at 1. rewrite D1, decide_True, D6 by done. by apply Hn. }
  rewrite Hl. intros Hl0 j w Hj Hu Hq. destruct (decide ((j, w) = (i, v))) as [[= -> ->]|Hne].
  - unfold sees at 1. rewrite D1, decide_True by done. rewrite D6. by apply Hv.
  - rewrite D5, Hx by done. by apply (cm_view _ _ _ Hc Hl0 j w Hj Hu Hq).
Qed.
(** A descriptor set aside: what it holds is in hand. *)
Lemma mask_ok base sbase s i v : vm_inv (X := None) base sbase s -> place i v ->
  vm_inv (X := Some (i, v)) (fun a => base a + hold a (descr (X := None) s i v)) (fun k => sbase k + slot_hold k (descr (X := None) s i v)) s.
Proof using Type.
  intros (Hidle & pgs & tabs & Hok) Hp. split; [done|]. exists pgs, tabs. pose proof Hok as [Ht A1 A2 A3 A4 A5 A6 A7 A8 A9 Ah Ac A10]. rewrite (descr_desc pgs tabs) by done.
  assert (E1 : mdesc (X := Some (i, v)) s tabs i v = 0) by (unfold mdesc; by rewrite decide_True).
  assert (E2 : forall j w, (j, w) <> (i, v) -> mdesc (X := Some (i, v)) s tabs j w = (mdesc (X := None)) s tabs j w).
  { intros j w Hne. unfold mdesc. rewrite decide_False; [by rewrite decide_False|]. intros [= -> ->]. done. }
  set (d := (mdesc (X := None)) s tabs i v).
  assert (Hn : forall a, named (X := Some (i, v)) s tabs a = named (X := None) s tabs a - hold a d).
  { intros a. unfold named. rewrite (tally_upd (hold a) ((mdesc (X := None)) s tabs) _ i v Hp) by auto. rewrite E1, hold_0. fold d. lia. }
  assert (Hs : forall k, slotted (X := Some (i, v)) s tabs k = slotted (X := None) s tabs k - slot_hold k d).
  { intros k. unfold slotted. rewrite (tally_upd (slot_hold k) ((mdesc (X := None)) s tabs) _ i v Hp) by auto. rewrite E1, slot_hold_0. fold d. lia. }
  constructor; try done.
  - intros a. pose proof (A3 a). pose proof (hold_bound a d). lia.
  - intros k. pose proof (A4 k). pose proof (slot_hold_bound k d). lia.
  - intros j a Ha. destruct (A5 j a Ha) as (B1 & B2 & B3). rewrite Hn. pose proof (named_le (X := None) s tabs a i v Hp). pose proof (hold_bound a d). fold d in H3. lia.
  - intros a Hf Ha. rewrite Hn, (A7 a Hf Ha). lia.
  - intros k. rewrite Hs, A8. lia.
  - intros j w Hj. destruct (decide ((j, w) = (i, v))) as [[= -> ->]|Hne]; [by rewrite E1|]. rewrite E2 by done. by apply A9.
  - intros j w Hj. destruct (decide ((j, w) = (i, v))) as [[= -> ->]|Hne]; [by rewrite E1|]. rewrite E2 by done. by apply Ac.
  - intros j w Hj. destruct (decide ((j, w) = (i, v))) as [[= -> ->]|Hne]; [by rewrite E1|]. rewrite E2, Hn by done. intros Ho Hf.
    destruct (A10 j w Hj Ho Hf) as [B1 B2]. split; [|done]. set (a := page_of ((mdesc (X := None)) s tabs j w)) in *.
    pose proof (named_two (X := None) s tabs a i v j w Hp Hj Hne) as H12. unfold a in H12 at 2. rewrite hold_page in H12 by (by apply own_write_page).
    fold a d in H12. pose proof (hold_bound a d). lia.
Qed.
End sets.
End VMINV.
