(* ===== verification/Vmdesc.v ===== *)
(** * Address spaces: descriptors put together and taken apart (kernel/vm.c) *)

From S2P Require Import Prelude Pmm Pages Swap Vm Vmtab Vminv.
Local Open Scope Z_scope.

Module VMDESC.
Import VM VMTAB VMINV.

Definition is_page (p : Z) : Prop := is_u32 p /\ p mod 4096 = 0.
(** An address and its low bits. *)
Lemma page_low p b : is_page p -> 0 <= b < 4096 ->
  is_u32 (Z.lor p b) /\ page_of (Z.lor p b) = p /\ slot_of (Z.lor p b) = p / 4096 /\ forall m, 0 <= m < 4096 -> has (Z.lor p b) m = has b m.
Proof.
  intros [Hu Hm] Hb. rewrite (lor_add p b 12) by (done || lia). assert (Hr : is_u32 (p + b)) by (unfold is_u32 in *; Z.div_mod_to_equations; lia).
  split; [done|]. split; [|split].
  - unfold page_of. change PAGE_ADDR_MASK with (4294967296 - 2 ^ 12). rewrite land_high by done. change (2 ^ 12) with 4096. Z.div_mod_to_equations. lia.
  - unfold slot_of, PAGE_SHIFT. rewrite Z.shiftr_div_pow2 by lia. change (2 ^ 12) with 4096. Z.div_mod_to_equations. lia.
  - intros m Hm'. rewrite <- (lor_add p b 12) by (done || lia). by rewrite has_or, has_aligned.
Qed.
Lemma page_of_page d : is_u32 d -> is_page (page_of d).
Proof.
  intros Hu. unfold page_of. change PAGE_ADDR_MASK with (4294967296 - 2 ^ 12). rewrite land_high by done. change (2 ^ 12) with 4096.
  unfold is_page, is_u32 in *. Z.div_mod_to_equations. lia.
Qed.
Lemma slot_word k : 0 <= k < 1048576 -> is_page (u32 (Z.shiftl k PAGE_SHIFT)) /\ u32 (Z.shiftl k PAGE_SHIFT) / 4096 = k.
Proof.
  intros Hk. unfold PAGE_SHIFT, u32. rewrite Z.shiftl_mul_pow2, Z.mod_small by lia. change (2 ^ 12) with 4096.
  unfold is_page, is_u32. Z.div_mod_to_equations. lia.
Qed.
(** What a descriptor is depends on its low bits and its address only. *)
Definition BITS : list Z := [PDT_RESIDENT; DESC_WP; DESC_SUPER; DESC_SW_NONE; DESC_SW_LAZY; DESC_SW_SWAP; DESC_SW_SHARED].
Definition alike (d d' : Z) : Prop := forall m, m ∈ BITS -> has d' m = has d m.
Lemma alike_bits d d' : alike d d' -> desc_owned d' = desc_owned d /\ desc_has_page d' = desc_has_page d /\ desc_prot d' = desc_prot d /\
  has d' DESC_SW_SHARED = has d DESC_SW_SHARED /\ has d' DESC_SW_LAZY = has d DESC_SW_LAZY /\ in_swap d' = in_swap d /\ own_write d' = own_write d /\
  (is_u32 d' -> desc_wf d -> desc_wf d').
Proof.
  intros Ha. assert (E : forall m, m ∈ BITS -> has d' m = has d m) by done. unfold in_swap, own_write, desc_wf, desc_prot, desc_owned, desc_has_page. rewrite !has_mask_or.
  change DESC_SW_COW with DESC_SW_NONE. rewrite !E by (unfold BITS; set_solver). naive_solver.
Qed.
Section view.
Context {W S T : Type} `{TextCache T W} `{SwapSlots S}.
Lemma view_alike (s : @vm W S T) d d' : alike d d' -> page_of d' = page_of d -> slot_of d' = slot_of d -> view_of s d' = view_of s d.
Proof. intros (E1 & E2 & E3 & E4 & E5 & _)%alike_bits Ep Es. unfold view_of. by rewrite E1, E2, E3, E4, E5, Ep, Es. Qed.
End view.
Lemma hold_alike d d' a : alike d d' -> page_of d' = page_of d -> hold a d' = hold a d.
Proof. intros (_ & E2 & _)%alike_bits Ep. unfold hold. by rewrite E2, Ep. Qed.
Lemma slot_hold_alike d d' k : alike d d' -> slot_of d' = slot_of d -> slot_hold k d' = slot_hold k d.
Proof. intros (_ & _ & _ & _ & _ & E & _)%alike_bits Es. unfold slot_hold. by rewrite E, Es. Qed.
(** The low bits of a descriptor cleared. *)
Lemma testbit_not32 c n : 0 <= n < 32 -> Z.testbit (not32 c) n = negb (Z.testbit c n).
Proof. intros Hn. unfold not32. rewrite u32_land, Z.land_spec, Z.ones_spec_low, Z.lnot_spec, andb_true_r by lia. done. Qed.
Lemma not32_u32 c : is_u32 (not32 c).
Proof. unfold not32, u32, is_u32. apply Z.mod_pos_bound. lia. Qed.
Lemma testbit_u32 d n : is_u32 d -> 32 <= n -> Z.testbit d n = false.
Proof. intros Hu Hn. by apply (testbit_high d 32); [|lia]. Qed.
Lemma clear_low d c : is_u32 d -> 0 <= c < 4096 ->
  is_u32 (Z.land d (not32 c)) /\ page_of (Z.land d (not32 c)) = page_of d /\ slot_of (Z.land d (not32 c)) = slot_of d /\
  forall m, is_u32 m -> Z.land c m = 0 -> has (Z.land d (not32 c)) m = has d m.
Proof.
  intros Hu Hc. assert (Hbit : forall n, 12 <= n -> Z.testbit (Z.land d (not32 c)) n = Z.testbit d n).
  { intros n Hn. rewrite Z.land_spec. destruct (Z.lt_ge_cases n 32); [|by rewrite testbit_u32]. rewrite testbit_not32, (testbit_high c 12), andb_true_r by lia. done. }
  split; [apply land_u32; by left|]. split; [|split].
  - unfold page_of. apply Z.bits_inj'. intros n Hn. rewrite !(Z.land_spec _ PAGE_ADDR_MASK). destruct (Z.lt_ge_cases n 12) as [Hl|]; [|by rewrite Hbit].
    replace (Z.testbit PAGE_ADDR_MASK n) with false; [by rewrite !andb_false_r|]. change PAGE_ADDR_MASK with (Z.shiftl 1048575 12). by rewrite Z.shiftl_spec_low.
  - unfold slot_of, PAGE_SHIFT. apply Z.bits_inj'. intros n Hn. rewrite !Z.shiftr_spec by lia. apply Hbit. lia.
  - intros m Hm Hcm. rewrite has_clear. unfold has. do 2 f_equal. replace (Z.land (not32 c) m) with m; [done|].
    apply Z.bits_inj'. intros n Hn. rewrite Z.land_spec. destruct (Z.lt_ge_cases n 32); [|by rewrite (testbit_u32 m), andb_false_r].
    rewrite testbit_not32 by lia. assert (Hx : Z.testbit (Z.land c m) n = false) by (by rewrite Hcm, Z.bits_0). rewrite Z.land_spec in Hx.
    by destruct (Z.testbit c n), (Z.testbit m n).
Qed.
(** And set. *)
Lemma set_low d b : is_u32 d -> 0 <= b < 4096 ->
  is_u32 (Z.lor d b) /\ page_of (Z.lor d b) = page_of d /\ slot_of (Z.lor d b) = slot_of d /\ forall m, has (Z.lor d b) m = has d m || has b m.
Proof.
  intros Hu Hb. assert (Hbit : forall n, 12 <= n -> Z.testbit (Z.lor d b) n = Z.testbit d n).
  { intros n Hn. by rewrite Z.lor_spec, (testbit_high b 12), orb_false_r by lia. }
  split; [apply lor_u32; [done|unfold is_u32; lia]|]. split; [|split].
  - unfold page_of. apply Z.bits_inj'. intros n Hn. rewrite !(Z.land_spec _ PAGE_ADDR_MASK). destruct (Z.lt_ge_cases n 12) as [Hl|]; [|by rewrite Hbit].
    replace (Z.testbit PAGE_ADDR_MASK n) with false; [by rewrite !andb_false_r|]. change PAGE_ADDR_MASK with (Z.shiftl 1048575 12). by rewrite Z.shiftl_spec_low.
  - unfold slot_of, PAGE_SHIFT. apply Z.bits_inj'. intros n Hn. rewrite !Z.shiftr_spec by lia. apply Hbit. lia.
  - intros m. apply has_or.
Qed.
(** A descriptor of page [p] is as its low bits are. *)
Record low_bits (p b d : Z) : Prop := {
  lb_u32 : is_u32 d; lb_page : page_of d = p; lb_slot : slot_of d = p / 4096; lb_has : forall m, 0 <= m < 4096 -> has d m = has b m }.
Lemma low_bits_of p b : is_page p -> 0 <= b < 4096 -> low_bits p b (Z.lor p b).
Proof. intros Hp Hb. destruct (page_low p b Hp Hb) as (H1 & H2 & H3 & H4). by constructor. Qed.
Lemma low_facts p b d : low_bits p b d -> desc_owned d = desc_owned b /\ desc_has_page d = desc_has_page b /\ desc_prot d = desc_prot b /\
  has d DESC_SW_SHARED = has b DESC_SW_SHARED /\ has d DESC_SW_LAZY = has b DESC_SW_LAZY /\ in_swap d = in_swap b /\ own_write d = own_write b.
Proof.
  intros [_ _ _ E]. destruct (alike_bits b d) as (E1 & E2 & E3 & E4 & E5 & E6 & E7 & _); [|done]. intros m Hm. apply E. unfold BITS in Hm.
  repeat (apply elem_of_cons in Hm as [->|Hm]; [done|]). by apply elem_of_nil in Hm.
Qed.
Lemma low_wf p b d : low_bits p b d -> desc_wf b -> desc_wf d.
Proof.
  intros [Hu _ _ E] Hb. destruct (alike_bits b d) as (_ & _ & _ & _ & _ & _ & _ & E8); [|by apply E8]. intros m Hm. apply E. unfold BITS in Hm.
  repeat (apply elem_of_cons in Hm as [->|Hm]; [done|]). by apply elem_of_nil in Hm.
Qed.
Lemma next_span va : is_u32 va -> va mod 4096 = 0 -> va < USER_VA_END ->
  let next := Z.land va (not32 (TABLE_SPAN - 1)) + TABLE_SPAN in is_u32 next /\ next mod 4096 = 0 /\ 1 <= (next - va) / PMM.PAGE_SIZE.
Proof.
  intros Hu Hm Hlt. unfold TABLE_SPAN, PMM.PAGE_SIZE. change (not32 (64 * 4096 - 1)) with (4294967296 - 2 ^ 18). rewrite land_high by done.
  change (2 ^ 18) with 262144. unfold is_u32, USER_VA_END, USER_VA_SIZE, USER_VA_BASE in *. cbn zeta. Z.div_mod_to_equations. lia.
Qed.
Lemma clear_used_alike d : is_u32 d -> alike d (Z.land d (not32 DESC_USED)).
Proof.
  intros Hu m Hm. destruct (clear_low d DESC_USED Hu ltac:(done)) as (_ & _ & _ & Hc). unfold BITS in Hm.
  repeat (apply elem_of_cons in Hm as [->|Hm]; [by apply Hc|]). by apply elem_of_nil in Hm.
Qed.
End VMDESC.
