(* ===== verification/Vmstep.v ===== *)
(** * Address spaces: the steps (kernel/vm.c)

    What each thing a call does in between its sleeps does to the invariant:
    a page taken, given back, held once more or written while in hand, a slot
    likewise, a table added, a descriptor changed. *)

From S2P Require Import Prelude Pmm Pages Swap Vm Vmtab Vminv.
Local Open Scope Z_scope.

Module VMSTEP.
Import VM VMTAB VMINV.

Definition in_hand (a : Z) (base : Z -> Z) : Z -> Z := fun x => base x + if x =? a then 1 else 0.

Section steps.
Context {W S T : Type} `{TextCache T W} `{SwapSlots S} {X : option (nat * Z)}.
#[local] Abbreviation vm := (@vm W S T).
#[local] Abbreviation vm_inv := (vm_inv (X := X)).
#[local] Abbreviation descr := (descr (X := X)).
#[local] Abbreviation cnt := (cnt (X := X)).
#[local] Abbreviation cnt_nonneg := (cnt_nonneg (X := X)).
#[local] Abbreviation calm := (calm (X := X)).
#[local] Abbreviation slight := (slight (X := X)).

(** Pages only the call holds are left alone. *)
Definition alone (base : Z -> Z) (s s' : vm) : Prop := forall a, 0 < base a -> pg_foreign (mm s) a = false -> pg_held (mm s) a = base a ->
  pg_held (mm s') a = base a /\ pg_foreign (mm s') a = false /\ forall y, in_page a y -> pg_load (mm s') y = pg_load (mm s) y.
Lemma alone_refl base s : alone base s s.
Proof. by intros a. Qed.
Lemma alone_trans base s1 s2 s3 : alone base s1 s2 -> alone base s2 s3 -> alone base s1 s3.
Proof.
  intros A1 A2 a Hb Hf Hh. destruct (A1 a Hb Hf Hh) as (B1 & B2 & B3). destruct (A2 a Hb B2 B1) as (C1 & C2 & C3).
  split; [done|]. split; [done|]. intros y Hy. by rewrite C3, B3.
Qed.
Lemma alone_less base base' sbase s s' : vm_inv base' sbase s -> (forall a, base a <= base' a) -> alone base' s s' -> alone base s s'.
Proof.
  intros Hi Hle Ha a Hb Hf Hh. pose proof (Hle a). pose proof (cnt_nonneg s a). pose proof (tc_held_nonneg _ a (inv_tc _ _ _ Hi)).
  pose proof (inv_count _ _ _ a Hi Hf ltac:(lia)) as E. assert (Eb : base' a = base a) by lia. rewrite <- Eb in Hb, Hh |- *. by apply Ha.
Qed.

(** Nothing shows: the descriptors are as they were. *)
Record still (Q : nat -> bool) (base : Z -> Z) (s s' : vm) : Prop := {
  sl_calm : calm Q s s';
  sl_alone : alone base s s';
  sl_descr : forall i v, place i v -> descr s' i v = descr s i v;
  sl_spaces : forall i, about (space s' i) = about (space s i);
  sl_tabs : forall i va, used (space s i) = true -> pagetable i va s <> 0 -> pagetable i va s' = pagetable i va s;
  sl_foreign : forall a, pg_foreign (mm s') a = pg_foreign (mm s) a }.
Lemma still_cnt Q base s s' a : still Q base s s' -> cnt s' a = cnt s a.
Proof. intros Hs. apply tally_ext, Hs. Qed.
Lemma about_used (a a' : addrspace) : about a' = about a -> used a' = used a /\ busy a' = busy a.
Proof. unfold about. by intros [= _ _ -> _ -> _]. Qed.
Lemma still_used Q base s s' i : still Q base s s' -> used (space s' i) = used (space s i) /\ busy (space s' i) = busy (space s i).
Proof. intros Hs. apply about_used, Hs. Qed.
Lemma still_refl Q base s : still Q base s s.
Proof. constructor; auto using calm_refl, alone_refl. Qed.
Lemma still_trans Q base s1 s2 s3 : still Q base s1 s2 -> still Q base s2 s3 -> still Q base s1 s3.
Proof.
  intros S1 S2. pose proof S1 as [A1 B1 C1 D1 E1 F1]. pose proof S2 as [A2 B2 C2 D2 E2 F2]. constructor.
  - by eapply calm_trans.
  - by eapply alone_trans.
  - intros i v Hp. by rewrite C2, C1.
  - intros i. by rewrite D2, D1.
  - intros i va Hu Hp. destruct (still_used _ _ _ _ i S1) as [U _]. pose proof (E1 i va Hu Hp) as E. rewrite E2; [done|by rewrite U|by rewrite E].
  - intros a. by rewrite F2, F1.
Qed.
Lemma still_less Q base base' sbase s s' : vm_inv base' sbase s -> (forall a, base a <= base' a) -> still Q base' s s' -> still Q base s s'.
Proof. intros Hi Hle [A B C D E F]. constructor; try done. by eapply alone_less. Qed.
Lemma slight_still Q base0 base sbase base' sbase' s s' : vm_inv base sbase s -> slight base sbase base' sbase' s s' -> alone base0 s s' ->
  vm_inv base' sbase' s' /\ still Q base0 s s'.
Proof.
  intros Hi Hs Ha. destruct (inv_slight Q _ _ _ _ _ _ Hi Hs) as (I1 & I2 & I3 & I4 & I5). split; [done|]. constructor; try done.
  - intros i. unfold space. by rewrite (sg_spaces _ _ _ _ _ _ Hs).
  - intros i va Hu _. destruct (I5 i va) as [|E]; [done|]. by rewrite Hu in E.
  - apply (sg_foreign _ _ _ _ _ _ Hs).
Qed.

(** ** Pages *)

Record fresh (s : vm) (base : Z -> Z) (a : Z) : Prop := {
  fr_u32 : is_u32 a; fr_pos : 0 < a; fr_page : a mod 4096 = 0; fr_mine : pg_foreign (mm s) a = false;
  fr_cnt : cnt s a = 0; fr_tc : tc_held (tc s) a = 0; fr_base : base a = 0 }.
Lemma fresh_of base sbase s a : vm_inv (in_hand a base) sbase s -> pg_held (mm s) a = in_hand a base a -> base a = 0 -> fresh s base a.
Proof.
  intros Hi Hh Hb. pose proof (inv_mm _ _ _ Hi) as Hw. unfold in_hand in Hh. rewrite Z.eqb_refl in Hh.
  destruct (pg_held_page _ a Hw ltac:(lia)) as [P1 P2]. pose proof (pg_held_u32 _ a Hw ltac:(lia)). pose proof (inv_foreign _ _ _ Hi a ltac:(lia)) as Hf.
  pose proof (cnt_nonneg s a). pose proof (tc_held_nonneg _ a (inv_tc _ _ _ Hi)).
  pose proof (inv_count _ _ _ a Hi Hf) as E. unfold in_hand in E. rewrite Z.eqb_refl in E. specialize (E ltac:(lia)).
  constructor; try done; unfold is_u32; lia.
Qed.
Lemma palloc_ok Q base sbase s : vm_inv base sbase s ->
  let '(a, s') := palloc s in
  (a = 0 /\ s' = s) \/ (a <> 0 /\ vm_inv (in_hand a base) sbase s' /\ still Q base s s' /\ fresh s' base a /\ page_bytes a 4096 (mm s') = replicate 4096 0).
Proof.
  intros Hi. unfold palloc. pose proof (inv_mm _ _ _ Hi) as Hw.
  destruct (pg_alloc_spec (mm s) Hw) as [->|(a & w & E & Hne & W1 & W2 & W3 & W4 & W5 & W6)]; [left; by destruct s|rewrite E; right].
  split; [done|]. set (s' := s <| mm := w |>). assert (Ef : forall b, pg_foreign w b = pg_foreign (mm s) b).
  { intros b. pose proof (pg_foreign_alloc (mm s) b Hw) as Y. by rewrite E in Y. }
  assert (Hfa : pg_foreign (mm s) a = false).
  { rewrite <- Ef. destruct (pg_foreign w a) eqn:Y; [|done]. destruct (pg_foreign_spec w a W1 Y). lia. }
  pose proof (inv_base _ _ _ Hi a) as Hba.
  assert (Hb0 : base a = 0).
  { destruct (Z.eq_dec (base a) 0) as [|Hnz]; [done|]. pose proof (cnt_nonneg s a). pose proof (tc_held_nonneg _ a (inv_tc _ _ _ Hi)).
    pose proof (inv_count _ _ _ a Hi Hfa ltac:(lia)). lia. }
  destruct (slight_still Q base base sbase (in_hand a base) sbase s s' Hi) as [I1 I2].
  { constructor; try done; cbn [mm sw tc lost spaces kernel_root store s'].
    - apply (inv_sw _ _ _ Hi).
    - apply (inv_tc _ _ _ Hi).
    - intros b. unfold in_hand. pose proof (inv_base _ _ _ Hi b). destruct (b =? a); lia.
    - apply (inv_sbase _ _ _ Hi).
    - intros b. unfold in_hand. intros Hb Hf. destruct (Z.eqb_spec b a) as [Eb|Hnb]; [right; by rewrite Eb|]. left. pose proof (cnt_nonneg s b). lia.
    - intros b _. unfold in_hand. destruct (Z.eqb_spec b a) as [Eb|Hnb]; [rewrite Eb; lia|]. rewrite W4 by done. lia.
    - intros b y Hb Hy. apply (W6 b); [|done]. pose proof (inv_base _ _ _ Hi b). pose proof (tc_held_nonneg _ b (inv_tc _ _ _ Hi)). lia.
    - apply (inv_hand _ _ _ Hi). }
  { intros b Hb Hf Hh. cbn [mm store s']. assert (b <> a) by (intros ->; lia). rewrite W4, Ef by done. split; [done|]. split; [done|].
    intros y. apply (W6 b). lia. }
  split; [done|]. split; [done|]. split; [apply (fresh_of _ sbase); [done|unfold in_hand; rewrite Z.eqb_refl; cbn [mm store s']; lia|done]|].
  apply list_eq. intros k. destruct (lookup (M := list Z) k (page_bytes _ _ _)) as [b|] eqn:Ek.
  - unfold page_bytes in Ek. apply list_lookup_fmap_Some in Ek as (n & -> & [-> Hlt]%lookup_seq). rewrite W5 by (unfold in_page; lia).
    symmetry. apply lookup_replicate. split; [done|lia].
  - apply lookup_ge_None in Ek. rewrite length_page_bytes in Ek. symmetry. apply lookup_ge_None. rewrite length_replicate. lia.
Qed.
Lemma in_hand_nonneg a base : (forall x, 0 <= base x) -> forall x, 0 <= in_hand a base x.
Proof. intros Hb x. unfold in_hand. specialize (Hb x). destruct (x =? a); lia. Qed.
Lemma in_hand_le a base x : base x <= in_hand a base x.
Proof. unfold in_hand. destruct (x =? a); lia. Qed.
Lemma in_hand_at a base : in_hand a base a = base a + 1.
Proof. unfold in_hand. by rewrite Z.eqb_refl. Qed.
Lemma in_hand_ne a base x : x <> a -> in_hand a base x = base x.
Proof. intros Hx. unfold in_hand. rewrite (proj2 (Z.eqb_neq x a)) by done. lia. Qed.
Lemma pfree_ok Q base sbase s a : (forall x, 0 <= base x) -> vm_inv (in_hand a base) sbase s ->
  vm_inv base sbase (pfree a s) /\ still Q base s (pfree a s).
Proof.
  intros Hb Hi. pose proof (inv_mm _ _ _ Hi) as Hw. pose proof (inv_tc _ _ _ Hi) as Htc.
  apply (slight_still Q base (in_hand a base) sbase base sbase); [done| |].
  - assert (Hx : exists w, mm (pfree a s) = w /\ pg_ok w /\ (forall b, pg_foreign w b = pg_foreign (mm s) b) /\
      (forall b, pg_foreign (mm s) b = false -> pg_held w b - base b = pg_held (mm s) b - in_hand a base b) /\
      forall b y, 0 < pg_held (mm s) b -> in_page b y -> pg_load w y = pg_load (mm s) y).
    { exists (pg_free a (mm s)). split; [done|]. destruct (pg_foreign (mm s) a) eqn:Ef.
      - destruct (pg_foreign_spec _ a Hw Ef) as (_ & _ & _ & ->). split; [done|]. split; [done|]. split; [|done]. intros b Hf.
        rewrite in_hand_ne; [done|]. intros ->. congruence.
      - pose proof (inv_count _ _ _ a Hi Ef) as E. rewrite in_hand_at in E. pose proof (cnt_nonneg s a). pose proof (tc_held_nonneg _ a Htc). pose proof (Hb a).
        specialize (E ltac:(lia)). destruct (pg_free_spec _ a Hw ltac:(lia)) as (F1 & F2 & F3 & F4). split; [done|].
        split; [intros b; by apply pg_foreign_free; [|lia]|]. split; [|done]. intros b _. destruct (Z.eq_dec b a) as [E'|Hne].
        + rewrite E', F2, in_hand_at. lia.
        + rewrite F3, in_hand_ne by done. lia. }
    destruct Hx as (w & Em & X1 & X2 & X3 & X4). constructor; rewrite ?Em; try done; [apply (inv_sw _ _ _ Hi)|apply (inv_sbase _ _ _ Hi)| | | |apply (inv_hand _ _ _ Hi)].
    + intros b Hbb _. left. pose proof (in_hand_le a base b). pose proof (cnt_nonneg s b). lia.
    + intros b Hf. specialize (X3 b Hf). cbn [tc pfree store]. lia.
    + intros b y Hbb. apply X4. pose proof (in_hand_nonneg a base Hb b). pose proof (tc_held_nonneg _ b Htc). lia.
  - intros b Hbb Hf Hh. assert (Hne : b <> a).
    { intros ->. pose proof (inv_count _ _ _ a Hi Hf) as E. rewrite in_hand_at in E. pose proof (cnt_nonneg s a). pose proof (tc_held_nonneg _ a Htc). lia. }
    cbn [mm pfree store]. destruct (pg_foreign (mm s) a) eqn:Ef.
    + destruct (pg_foreign_spec _ a Hw Ef) as (_ & _ & _ & ->). done.
    + pose proof (inv_count _ _ _ a Hi Ef) as E. rewrite in_hand_at in E. pose proof (cnt_nonneg s a). pose proof (tc_held_nonneg _ a Htc). pose proof (Hb a).
      specialize (E ltac:(lia)). destruct (pg_free_spec _ a Hw ltac:(lia)) as (F1 & F2 & F3 & F4). rewrite F3, pg_foreign_free by (done || lia).
      split; [done|]. split; [done|]. intros y. apply F4. lia.
Qed.
Lemma pref_ok Q base sbase s a : vm_inv base sbase s -> (pg_foreign (mm s) a = false -> 0 < cnt s a) ->
  let '(more, s') := pref a s in
  (more = false /\ s' = s /\ (pg_foreign (mm s) a = false -> pg_held (mm s) a = 65536)) \/ (more = true /\ pg_foreign (mm s) a = false /\ vm_inv (in_hand a base) sbase s' /\ still Q base s s' /\
    forall x, pg_held (mm s') x = pg_held (mm s) x + (if x =? a then 1 else 0)).
Proof.
  intros Hi Hc. pose proof (inv_mm _ _ _ Hi) as Hw. pose proof (inv_base _ _ _ Hi) as Hb. pose proof (inv_tc _ _ _ Hi) as Htc. unfold pref.
  destruct (pg_foreign (mm s) a) eqn:Ef.
  { destruct (pg_foreign_spec _ a Hw Ef) as (_ & _ & -> & _). left. by destruct s. }
  specialize (Hc eq_refl). pose proof (inv_count _ _ _ a Hi Ef) as E. pose proof (Hb a). pose proof (tc_held_nonneg _ a Htc). specialize (E ltac:(lia)).
  destruct (pg_ref_spec _ a Hw ltac:(lia)) as [[-> Hfull]|(w & Er & W1 & W2 & W3 & W4)]; [left; by destruct s|]. rewrite Er. right.
  assert (Efo : forall b, pg_foreign w b = pg_foreign (mm s) b) by (intros b; pose proof (pg_foreign_ref (mm s) b a Hw) as Y; by rewrite Er in Y).
  split; [done|]. split; [done|]. assert (Hx : forall x, pg_held w x = pg_held (mm s) x + (if x =? a then 1 else 0)).
  { intros x. destruct (Z.eqb_spec x a) as [->|Hne]; [done|]. rewrite W3 by done. lia. }
  enough (G : vm_inv (in_hand a base) sbase (s <| mm := w |>) /\ still Q base s (s <| mm := w |>)) by (destruct G; done).
  apply (slight_still Q base base sbase (in_hand a base) sbase); [done| |].
  - constructor; try done; cbn [mm sw tc store].
    + apply (inv_sw _ _ _ Hi).
    + by apply in_hand_nonneg.
    + apply (inv_sbase _ _ _ Hi).
    + intros b Hbb _. left. destruct (Z.eq_dec b a) as [->|Hne]; [lia|]. rewrite in_hand_ne in Hbb by done. pose proof (cnt_nonneg s b). lia.
    + intros b _. rewrite Hx. unfold in_hand. lia.
    + intros b y Hbb. apply W4. pose proof (Hb b). pose proof (tc_held_nonneg _ b Htc). lia.
    + apply (inv_hand _ _ _ Hi).
  - intros b Hbb Hf Hh. cbn [mm store]. assert (b <> a) by (intros ->; lia). rewrite W3, Efo by done. split; [done|]. split; [done|]. intros y. apply W4. lia.
Qed.
(** Writing into a page only the call holds. *)
Lemma fill_ok Q base sbase s a bs : vm_inv (in_hand a base) sbase s -> (forall x, 0 <= base x) -> fresh s base a -> (length bs <= 4096)%nat ->
  Forall (fun b => 0 <= b < 256) bs ->
  let s' := s <| mm := store_bytes a bs (mm s) |> in
  vm_inv (in_hand a base) sbase s' /\ still Q base s s' /\ fresh s' base a /\ page_bytes a (length bs) (mm s') = bs /\
  forall b y, 0 < pg_held (mm s) b -> b <> a -> in_page b y -> pg_load (mm s') y = pg_load (mm s) y.
Proof.
  intros Hi Hb Hfr Hlen Hbs s'. pose proof (inv_mm _ _ _ Hi) as Hw. pose proof (inv_tc _ _ _ Hi) as Htc.
  assert (Hh : pg_held (mm s) a = 1).
  { rewrite (inv_count _ _ _ a Hi (fr_mine _ _ _ Hfr)), in_hand_at, (fr_cnt _ _ _ Hfr), (fr_tc _ _ _ Hfr), (fr_base _ _ _ Hfr); [done|].
    rewrite in_hand_at, (fr_cnt _ _ _ Hfr), (fr_base _ _ _ Hfr). done. }
  destruct (store_bytes_ok (mm s) a a bs Hw ltac:(lia) ltac:(lia) ltac:(lia) Hbs) as [[S1 S2 S3 S4] S5].
  assert (Hoth : forall b y, 0 < pg_held (mm s) b -> b <> a -> in_page b y -> pg_load (mm s') y = pg_load (mm s) y).
  { intros b y Hbb Hne Hy. apply S4. destruct (pg_held_page _ b Hw Hbb) as [_ M1]. pose proof (fr_page _ _ _ Hfr). unfold in_page in Hy. Z.div_mod_to_equations. lia. }
  destruct (slight_still Q base (in_hand a base) sbase (in_hand a base) sbase s s' Hi) as [I1 I2].
  - constructor; try done; [apply (inv_sw _ _ _ Hi)|by apply in_hand_nonneg|apply (inv_sbase _ _ _ Hi)|..].
    + intros b Hbb _. left. pose proof (cnt_nonneg s b). lia.
    + intros b _. cbn [mm tc store s']. rewrite S2. lia.
    + intros b y Hlt. pose proof (in_hand_nonneg a base Hb b). pose proof (tc_held_nonneg _ b Htc). apply (Hoth b); [lia|]. intros ->.
      rewrite in_hand_at, (fr_base _ _ _ Hfr) in Hlt. lia.
    + apply (inv_hand _ _ _ Hi).
  - intros b Hbb Hf Hhb. cbn [mm store s']. rewrite S2, S3. split; [done|]. split; [done|]. intros y. apply (Hoth b); [lia|].
    intros ->. rewrite (fr_base _ _ _ Hfr) in Hbb. lia.
  - split; [done|]. split; [done|]. split; [|by split]. destruct Hfr as [F1 F2 F3 F4 F5 F6 F7]. constructor; try done; [cbn [mm store s']; by rewrite S3|].
    by rewrite (still_cnt _ _ _ _ _ I2).
Qed.

(** ** Slots, and what is kept beside *)

Lemma swap_ok Q base sbase sbase' s w : vm_inv base sbase s -> sl_ok w -> (forall k, 0 <= sbase' k) ->
  (forall k, sl_held w k - sbase' k = sl_held (sw s) k - sbase k) -> (forall k, sbase k < sl_held (sw s) k -> sl_bytes w k = sl_bytes (sw s) k) ->
  vm_inv base sbase' (s <| sw := w |>) /\ still Q base s (s <| sw := w |>).
Proof.
  intros Hi Hw Hs Hh Hb. apply (slight_still Q base base sbase base sbase'); [done| |by intros a].
  constructor; try done; [apply (inv_mm _ _ _ Hi)|apply (inv_tc _ _ _ Hi)|apply (inv_base _ _ _ Hi)| |apply (inv_hand _ _ _ Hi)].
  intros b Hbb _. left. pose proof (cnt_nonneg s b). lia.
Qed.
(** The numbers kept for the hand, the counts and the clock of sleeps. *)
Lemma aside_ok Q base sbase s s' : vm_inv base sbase s -> mm s' = mm s -> sw s' = sw s -> tc s' = tc s -> spaces s' = spaces s ->
  kernel_root s' = kernel_root s -> lost s <= lost s' -> hand_ok s' -> vm_inv base sbase s' /\ still Q base s s'.
Proof.
  intros Hi E1 E2 E3 E4 E5 E6 E7. apply (slight_still Q base base sbase base sbase); [done| |intros a; by rewrite E1].
  constructor; rewrite ?E1, ?E2, ?E3; try done; [apply (inv_mm _ _ _ Hi)|apply (inv_sw _ _ _ Hi)|apply (inv_tc _ _ _ Hi)|apply (inv_base _ _ _ Hi)|apply (inv_sbase _ _ _ Hi)|].
  intros b Hbb _. left. pose proof (cnt_nonneg s b). lia.
Qed.
(** The cache of file pages gives some up, or is told of a mapping. *)
Lemma cache_ok Q base sbase s t w : vm_inv base sbase s -> tc_ok t -> pg_ok w -> (forall a, tc_held t a <= tc_held (tc s) a) ->
  (forall a, pg_held w a - tc_held t a = pg_held (mm s) a - tc_held (tc s) a) ->
  (forall a x, 0 < pg_held w a -> in_page a x -> pg_load w x = pg_load (mm s) x) -> (forall a, pg_foreign w a = pg_foreign (mm s) a) ->
  vm_inv base sbase (s <| tc := t |> <| mm := w |>) /\ still Q base s (s <| tc := t |> <| mm := w |>).
Proof.
  intros Hi Ht Hw Hle Hh Hl Hf. pose proof (inv_base _ _ _ Hi) as Hb. pose proof (fun a => tc_held_nonneg _ a (inv_tc _ _ _ Hi)) as Hn.
  apply (slight_still Q base base sbase base sbase); [done| |].
  - constructor; try done; cbn [mm sw tc store]; [apply (inv_sw _ _ _ Hi)|apply (inv_sbase _ _ _ Hi)|..].
    + intros b Hbb _. left. pose proof (cnt_nonneg s b). lia.
    + intros a _. pose proof (Hh a). lia.
    + intros a y Hlt. apply Hl. pose proof (Hh a). pose proof (Hb a). pose proof (tc_held_nonneg _ a Ht). lia.
    + apply (inv_hand _ _ _ Hi).
  - intros a Ha Hfa Hha. cbn [mm store]. rewrite Hf. pose proof (inv_count _ _ _ a Hi Hfa) as E. pose proof (cnt_nonneg s a).
    pose proof (Hn a). specialize (E ltac:(lia)). pose proof (Hle a). pose proof (tc_held_nonneg _ a Ht). pose proof (Hh a).
    split; [lia|]. split; [done|]. intros y. apply Hl. lia.
Qed.
Lemma cache_told_ok Q base sbase s t : vm_inv base sbase s -> tc_ok t -> (forall a, tc_held t a = tc_held (tc s) a) ->
  vm_inv base sbase (s <| tc := t |>) /\ still Q base s (s <| tc := t |>).
Proof.
  intros Hi Ht Hh. replace (s <| tc := t |>) with (s <| tc := t |> <| mm := mm s |>) by (by destruct s).
  apply cache_ok; try done; [apply (inv_mm _ _ _ Hi)|intros a; rewrite Hh; lia|intros a; rewrite Hh; lia].
Qed.
Lemma shrink_ok Q base sbase s n : vm_inv base sbase s ->
  let '(_, t, w) := tc_shrink n (tc s) (mm s) in vm_inv base sbase (s <| tc := t |> <| mm := w |>) /\ still Q base s (s <| tc := t |> <| mm := w |>).
Proof.
  intros Hi. pose proof (tc_shrink_spec n (tc s) (mm s) (inv_tc _ _ _ Hi) (inv_mm _ _ _ Hi) (inv_tcle _ _ _ Hi)) as Hs.
  destruct (tc_shrink n (tc s) (mm s)) as [[r t] w]. destruct Hs as (S1 & S2 & S3 & S4 & S5 & S6). by apply cache_ok.
Qed.
Lemma release_ok Q base sbase s p : vm_inv base sbase s ->
  let '(t, w) := tc_release p (tc s) (mm s) in vm_inv base sbase (s <| tc := t |> <| mm := w |>) /\ still Q base s (s <| tc := t |> <| mm := w |>).
Proof.
  intros Hi. pose proof (tc_release_spec p (tc s) (mm s) (inv_tc _ _ _ Hi) (inv_mm _ _ _ Hi) (inv_tcle _ _ _ Hi)) as Hs.
  destruct (tc_release p (tc s) (mm s)) as [t w]. destruct Hs as (S1 & S2 & S3 & S4 & S5 & S6). apply cache_ok; try done.
  - intros a. by rewrite S3.
  - intros a. by rewrite S3, S4.
Qed.

(** ** Tables *)

Lemma pages_still Q base sbase s i va : vm_inv base sbase s -> used (space s i) = true ->
  let '(t, s') := as_pagetable i va true s in
  vm_inv base sbase s' /\ still Q base s s' /\ rest s' = rest s /\ (t = 0 \/ t <> 0 /\ t = pagetable i va s') /\
  (forall x, 0 < base x + cnt s x -> pg_foreign (mm s) x = false -> pg_held (mm s') x = pg_held (mm s) x).
Proof.
  intros (Hidle & pgs & tabs & Hok) Hu. assert (Hi : (i < KERNEL)%nat) by (apply (used_lt (X := X) base sbase s); [by split; [|exists pgs, tabs]|done]).
  pose proof (vo_tables _ _ _ _ _ _ Hok) as Ht. pose proof (used_live s i Hi) as El. rewrite Hu in El.
  pose proof (as_pagetable_ok (live s) pgs tabs s i va Ht Hi El) as Hp. pose proof (as_pagetable_spaces i va true s) as Hsp. destruct (as_pagetable i va true s) as [t s']. cbn [snd] in Hsp.
  destruct Hp as (pgs' & tabs' & T1 & G & Ht'). destruct (inv_grow _ _ _ _ _ _ _ _ _ Hok T1 G) as [Hok1 Hd].
  pose proof (gr_rest _ _ _ _ _ _ G) as Gr. pose proof Gr as Gr'. injection Gr' as _ _ Ek _ _ _ El' _.
  assert (Hus : forall j, used (space s' j) = used (space s j) /\ busy (space s' j) = busy (space s j)) by (intros j; apply about_used, G).
  assert (Hl : forall j, live s' j = live s j) by (intros j; apply live_same; [done|apply Hus]).
  pose proof (ok_live _ _ _ _ _ _ _ Hl Hok1) as Hok2. pose proof (vo_tables _ _ _ _ _ _ Hok2) as Ht2.
  assert (Hnt : forall a, 0 < base a + cnt s a -> forall j, a ∉ pgs' j).
  { intros a Ha j Hj. destruct (vo_tab _ _ _ _ _ _ Hok2 j a Hj) as (B1 & B2 & B3). rewrite (cnt_named (X := X) pgs') in B3 by done.
    assert (cnt s' a = cnt s a); [|lia]. apply tally_ext. intros j' w Hj'. rewrite (descr_desc pgs' tabs' s'), (descr_desc pgs tabs s) by done. by apply Hd. }
  assert (Hc : calm Q s s').
  { apply (calm_intro Q pgs pgs' tabs tabs'); try done; [lia|apply G|apply G| |].
    - intros j Hj. destruct (Hus j) as [-> ->]. done.
    - intros j v Hp _ _. destruct (Hd j v Hp) as [-> ->]. done. }
  assert (Hidle' : idle s').
  { intros j Hj. destruct (Hus j) as [-> _]. intros Hnu. rewrite Hsp by (intros ->; congruence). by apply Hidle. }
  split; [by split; [|exists pgs', tabs']|]. split; [|split; [done|split]].
  - constructor; try done.
    + intros a Ha Hf Hh. pose proof (cnt_nonneg s a). assert (Hx : forall j, a ∉ pgs' j) by (apply Hnt; lia).
      rewrite (gr_held _ _ _ _ _ _ G a Hx), (gr_foreign _ _ _ _ _ _ G a). split; [done|]. split; [done|]. intros y. apply (gr_load _ _ _ _ _ _ G); [lia|].
      intros j Hj. by apply (Hx j), (gr_pgs _ _ _ _ _ _ G).
    + intros j v Hp. rewrite (descr_desc pgs' tabs' s'), (descr_desc pgs tabs s) by done. by apply Hd.
    + apply G.
    + intros j va' Hj Hp. destruct (decide (USER_VA_BASE <= va' < USER_VA_END)) as [Hva|Hn]; [|by rewrite pagetable_out in Hp].
      assert (Hjl : (j < KERNEL)%nat) by (apply (used_lt (X := X) base sbase s); [by split; [|exists pgs, tabs]|done]).
      assert (El1 : live s j = true) by (by rewrite used_live). assert (El2 : live s' j = true) by (by rewrite Hl).
      rewrite (pagetable_tab _ _ _ _ _ _ Ht El1 Hjl Hva) in *. rewrite (pagetable_tab _ _ _ _ _ _ Ht2 El2 Hjl Hva).
      destruct (tabs j _) as [t0|] eqn:Et; [|done]. by rewrite (gr_tabs _ _ _ _ _ _ G _ _ _ Et).
    + apply G.
  - destruct Ht' as [-> |(Hva & Hne & Et)]; [by left|right]. split; [done|]. assert (El2 : live s' i = true) by (by rewrite Hl).
    by rewrite (pagetable_tab _ _ _ _ _ _ Ht2 El2 Hi Hva), Et.
  - intros x Hx _. apply (gr_held _ _ _ _ _ _ G). by apply Hnt.
Qed.

(** ** Descriptors *)

Lemma set_cnt X' base (s s' : vm) i v d' a : place i v -> set_done (X := X) (X' := X') base s s' i v d' ->
  VMINV.cnt (X := X') s' a = cnt s a + hold a d' - hold a (descr s i v).
Proof.
  intros Hp Hd. unfold VMINV.cnt. rewrite (tally_upd (hold a) (descr s) (VMINV.descr (X := X') s') i v); [|done|].
  - by rewrite (se_descr _ _ _ _ _ _ Hd i v Hp), decide_True.
  - intros j w Hj Hne. by rewrite (se_descr _ _ _ _ _ _ Hd j w Hj), decide_False.
Qed.
Lemma set_alone X' base sbase (s s' : vm) i v d' : vm_inv base sbase s -> set_done (X := X) (X' := X') base s s' i v d' -> alone base s s'.
Proof.
  intros Hi Hd a Ha Hf Hh. rewrite (se_held _ _ _ _ _ _ Hd), (se_foreign _ _ _ _ _ _ Hd). split; [done|]. split; [done|].
  intros y. apply (se_load _ _ _ _ _ _ Hd); [|done]. pose proof (cnt_nonneg s a). lia.
Qed.
End steps.
End VMSTEP.

(** No descriptor set aside. *)
Module VMPLAIN.
Abbreviation vm_inv := (VMINV.vm_inv (X := None)).
Abbreviation descr := (VMINV.descr (X := None)).
Abbreviation sees := (VMINV.sees (X := None)).
Abbreviation cnt := (VMINV.cnt (X := None)).
Abbreviation cnt_le := (VMINV.cnt_le (X := None)).
Abbreviation cnt_nonneg := (VMINV.cnt_nonneg (X := None)).
Abbreviation calm := (VMINV.calm (X := None)).
Abbreviation calm_refl := (VMINV.calm_refl (X := None)).
Abbreviation still := (VMSTEP.still (X := None)).
Abbreviation fresh := (VMSTEP.fresh (X := None)).
Abbreviation same_none := (VMINV.same_none (X' := None)).
End VMPLAIN.
