(* ===== verification/Vmput.v ===== *)
(** * Address spaces: descriptors changed (kernel/vm.c)

    The ways a call changes a descriptor: a page it took put in place, the
    page there given another mark, what was there given back first. *)

From S2P Require Import Prelude Pmm Pages Swap Vm Vmtab Vminv Vmdesc Vmstep.
Local Open Scope Z_scope.

Module VMPUT.
Import VM VMTAB VMINV VMDESC VMSTEP.

Section puts.
Context {W S T : Type} `{TextCache T W} `{SwapSlots S} {X X' : option (nat * Z)}.
#[local] Abbreviation vm := (@vm W S T).

Definition holds_none (d : Z) : Prop := desc_has_page d = false /\ in_swap d = false.
Lemma holds_none_hold d a : holds_none d -> hold a d = 0.
Proof. intros [E _]. unfold hold. by rewrite E. Qed.
Lemma holds_none_slot d k : holds_none d -> slot_hold k d = 0.
Proof. intros [_ E]. unfold slot_hold. by rewrite E. Qed.
Lemma holds_none_0 : holds_none 0.
Proof. done. Qed.
Lemma not_owned_none d : desc_owned d = false -> holds_none d.
Proof.
  unfold desc_owned, holds_none, in_swap, desc_has_page. rewrite !has_mask_or. destruct (has d PDT_RESIDENT), (has d DESC_SW_NONE), (has d DESC_SW_LAZY), (has d DESC_SW_SWAP); done.
Qed.
(** A page only this call has. *)
Lemma put_fresh base sbase s i va a b d' : VMINV.vm_inv (X := X) (in_hand a base) sbase s -> masks X X' (i, vpn va) ->
  used (space s i) = true -> pagetable i va s <> 0 -> holds_none (VMINV.descr (X := X) s i (vpn va)) -> (forall x, 0 <= base x) ->
  VMSTEP.fresh (X := X) s base a -> low_bits a b d' -> desc_has_page b = true -> desc_wf b -> has b DESC_SW_COW = false \/ has b PDT_RESIDENT = false ->
  let s' := set_word (pagetable i va s) (PAGE_INDEX va) d' s in
  VMINV.vm_inv (X := X') base sbase s' /\ set_done (X := X) (X' := X') (in_hand a base) s s' i (vpn va) d'.
Proof.
  intros Hi HX Hu Hpt Hn Hb Hfr Hl Hdp Hwf Hcow. destruct (low_facts _ _ _ Hl) as (F1 & F2 & F3 & F4 & F5 & F6 & F7).
  assert (Hp' : desc_has_page d' = true) by (by rewrite F2). destruct Hfr as [R1 R2 R3 R4 R5 R6 R7].
  apply (set_ok (in_hand a base) sbase base sbase); try done. constructor.
  - by apply (low_wf a b).
  - done.
  - apply (inv_sbase _ _ _ Hi).
  - intros x _. rewrite (holds_none_hold _ x Hn). unfold hold. rewrite Hp', (lb_page _ _ _ Hl). cbn [andb]. unfold in_hand. rewrite (Z.eqb_sym a x). lia.
  - intros k. rewrite (holds_none_slot _ k Hn). unfold slot_hold, in_swap. by rewrite Hp'.
  - unfold cow_ok. rewrite !(lb_has _ _ _ Hl) by done. destruct Hcow as [-> | ->]; done.
  - rewrite (lb_page _ _ _ Hl). intros _ _. split; [intros _; by rewrite R5, (holds_none_hold _ a Hn)|]. intros j w Hj _ Ho E.
    pose proof (VMINV.cnt_le (X := X) s j w Hj (own_write_page _ Ho)) as Hc. rewrite E, R5 in Hc. lia.
Qed.
(** Nothing but a promise. *)
Lemma put_none base sbase s i va d' : VMINV.vm_inv (X := X) base sbase s -> masks X X' (i, vpn va) ->
  used (space s i) = true -> pagetable i va s <> 0 -> holds_none (VMINV.descr (X := X) s i (vpn va)) -> holds_none d' -> desc_wf d' ->
  let s' := set_word (pagetable i va s) (PAGE_INDEX va) d' s in
  VMINV.vm_inv (X := X') base sbase s' /\ set_done (X := X) (X' := X') base s s' i (vpn va) d'.
Proof.
  intros Hi HX Hu Hpt Hn Hn' Hwf. apply (set_ok base sbase base sbase); try done. constructor; try done.
  - apply (inv_base _ _ _ Hi).
  - apply (inv_sbase _ _ _ Hi).
  - intros a _. by rewrite !holds_none_hold.
  - intros k. by rewrite !holds_none_slot.
  - intros Hr. destruct Hn' as [E _]. unfold desc_has_page in E. by rewrite Hr in E.
  - destruct Hn' as [-> _]. done.
Qed.
End puts.

Section same.
Context {W S T : Type} `{TextCache T W} `{SwapSlots S}.
#[local] Abbreviation vm := (@vm W S T).
Import VMPLAIN.
(** The same page, otherwise marked. *)
Lemma repage_ok base sbase s i va d' : vm_inv base sbase s -> used (space s i) = true -> pagetable i va s <> 0 ->
  let d := descr s i (vpn va) in
  desc_has_page d = true -> desc_has_page d' = true -> page_of d' = page_of d -> desc_wf d' -> cow_ok s d' ->
  (own_write d' = true -> pg_foreign (mm s) (page_of d) = false -> cnt s (page_of d) = 1 /\ tc_held (tc s) (page_of d) = 0) ->
  let s' := set_word (pagetable i va s) (PAGE_INDEX va) d' s in
  vm_inv base sbase s' /\ set_done (X := None) (X' := None) base s s' i (vpn va) d'.
Proof.
  intros Hi Hu Hpt d Hp Hp' Ep Hwf Hcow Ho. destruct (pagetable_some _ _ _ _ _ Hi Hu Hpt) as (_ & Hpl & _).
  apply (set_ok base sbase base sbase); [done|apply masks_none|done|done|]. constructor; try done.
  - apply (inv_base _ _ _ Hi).
  - apply (inv_sbase _ _ _ Hi).
  - intros a _. unfold hold. fold d. by rewrite Hp, Hp', Ep.
  - intros k. unfold slot_hold, in_swap. fold d. by rewrite Hp, Hp'.
  - rewrite Ep. intros _ Hf. split.
    + intros Ho'. destruct (Ho Ho' Hf) as [-> ->]. split; [|done]. fold d. by rewrite hold_page.
    + intros j w Hj Hne Ho' E. destruct (inv_own _ _ _ Hi j w Hj Ho' ltac:(by rewrite E)) as [E1 _]. rewrite E in E1.
      pose proof (tally_two (hold (page_of d)) (descr s) i (vpn va) j w ltac:(intros; apply hold_bound) eq_refl Hpl Hj Hne) as H12.
      fold (cnt s (page_of d)) in H12. fold d in H12. rewrite E1, hold_page in H12 by done. rewrite <- E, hold_page in H12 by (by apply own_write_page). lia.
Qed.
Lemma cnt_mask (s : vm) i v a : place i v -> VMINV.cnt (X := Some (i, v)) s a = cnt s a - hold a (descr s i v).
Proof.
  intros Hp. unfold VMINV.cnt. rewrite (tally_upd (hold a) (descr s) (VMINV.descr (X := Some (i, v)) s) i v Hp).
  - unfold VMINV.descr at 2. rewrite decide_True, hold_0 by done. lia.
  - intros j w _ Hne. unfold VMINV.descr. rewrite decide_False by (intros [= -> ->]; done). by rewrite decide_False.
Qed.
Lemma fresh_mask (s : vm) base a i v : place i v -> fresh s base a -> VMSTEP.fresh (X := Some (i, v)) s base a.
Proof.
  intros Hp [R1 R2 R3 R4 R5 R6 R7]. constructor; try done. pose proof (cnt_mask s i v a Hp) as E. pose proof (VMINV.cnt_nonneg (X := Some (i, v)) s a).
  pose proof (hold_bound a (descr s i v)). lia.
Qed.
Lemma descr_mask (s : vm) i v : VMINV.descr (X := Some (i, v)) s i v = 0.
Proof. unfold VMINV.descr. by rewrite decide_True. Qed.
Definition mask_base (base : Z -> Z) (d : Z) : Z -> Z := fun a => base a + hold a d.
Definition mask_sbase (sbase : Z -> Z) (d : Z) : Z -> Z := fun k => sbase k + slot_hold k d.
(** What the old descriptor held given back, then a page this call has put
    in its place. *)
Lemma trade_page Q base sbase s s1 i va a b d' : vm_inv (in_hand a base) sbase s -> (forall x, 0 <= base x) -> used (space s i) = true -> pagetable i va s <> 0 ->
  let d := descr s i (vpn va) in
  desc_owned d = true -> fresh s base a -> low_bits a b d' -> desc_has_page b = true -> desc_wf b -> has b DESC_SW_COW = false \/ has b PDT_RESIDENT = false ->
  spaces s1 = spaces s -> lost s1 = lost s ->
  (VMINV.vm_inv (X := Some (i, vpn va)) (mask_base (in_hand a base) d) (mask_sbase sbase d) s ->
     VMINV.vm_inv (X := Some (i, vpn va)) (in_hand a base) sbase s1 /\ VMSTEP.still (X := Some (i, vpn va)) Q (in_hand a base) s s1) ->
  let s' := set_word (pagetable i va s) (PAGE_INDEX va) d' s1 in
  vm_inv base sbase s' /\ alone base s s' /\ kept Q s s' /\ same_none Q s s' /\
  ((Q i || busy (space s i) = true -> view_of s d' = sees s i (vpn va)) -> calm Q s s') /\
  sees s' i (vpn va) = view_of s d' /\
  forall j w, place j w -> used (space s j) = true -> Q j || busy (space s j) = true -> (j, w) <> (i, vpn va) -> sees s' j w = sees s j w.
Proof.
  intros Hi Hb Hu Hpt d Hown Hfr Hl Hdp Hwf Hcow Hsp Hlo Hrel. destruct (pagetable_some _ _ _ _ _ Hi Hu Hpt) as (_ & Hpl & _).
  destruct (Hrel (mask_ok _ _ s i (vpn va) Hi Hpl)) as [I1 S1]. rewrite <- (sl_tabs _ _ _ _ S1 i va Hu Hpt).
  assert (Hu1 : used (space s1 i) = true) by (by rewrite (proj1 (still_used _ _ _ _ i S1))).
  assert (Hpt1 : pagetable i va s1 <> 0) by (by rewrite (sl_tabs _ _ _ _ S1 i va Hu Hpt)).
  assert (Hfr1 : VMSTEP.fresh (X := Some (i, vpn va)) s1 base a /\ forall y, in_page a y -> pg_load (mm s1) y = pg_load (mm s) y).
  { destruct (fresh_mask s base a i (vpn va) Hpl Hfr) as [R1 R2 R3 R4 R5 R6 R7].
    assert (Hh : pg_held (mm s) a = in_hand a base a).
    { rewrite (inv_count _ _ _ a Hi R4), R6; [rewrite (fr_cnt _ _ _ Hfr); lia|]. rewrite in_hand_at, (fr_cnt _ _ _ Hfr), R7. lia. }
    destruct (sl_alone _ _ _ _ S1 a) as (A1 & A2 & A3); [rewrite in_hand_at, R7; lia|done|done|]. split; [|done].
    by apply (fresh_of base sbase). }
  destruct Hfr1 as [Hfr1 Hload].
  destruct (put_fresh (X := Some (i, vpn va)) (X' := None) base sbase s1 i va a b d' I1 (masks_some _) Hu1 Hpt1) as [I2 D2]; try done; [by rewrite descr_mask|].
  set (s' := set_word _ _ d' s1) in *.
  assert (Hown' : desc_owned d' = true).
  { destruct (low_facts _ _ _ Hl) as (-> & _). unfold desc_owned, desc_has_page in *. rewrite !has_mask_or. destruct (has b PDT_RESIDENT), (has b DESC_SW_NONE); done. }
  assert (Hnn : view_of s1 d' = None <-> sees s i (vpn va) = None) by (unfold VMINV.sees; fold d; rewrite !view_none, Hown, Hown'; done).
  assert (Hview : view_of s1 d' = view_of s d').
  { destruct (low_facts _ _ _ Hl) as (F1 & F2 & F3 & F4 & F5 & F6 & F7). unfold view_of. rewrite F2, Hdp, (sl_foreign _ _ _ _ S1), (lb_page _ _ _ Hl), F4.
    destruct (negb _); [done|]. do 2 f_equal. destruct (has b DESC_SW_SHARED || pg_foreign (mm s) a); [done|]. f_equal. apply list_fmap_ext. intros x n [-> ?]%lookup_seq. apply Hload. unfold in_page. lia. }
  assert (Hat : sees s' i (vpn va) = view_of s d') by (unfold VMINV.sees; by rewrite (se_descr _ _ _ _ _ _ D2), decide_True, (se_view _ _ _ _ _ _ D2)).
  assert (Hel : forall j w, (j, w) <> (i, vpn va) -> VMINV.sees (X := Some (i, vpn va)) s j w = sees s j w).
  { intros j w Hne. unfold VMINV.sees, VMINV.descr. rewrite decide_False by congruence. by rewrite decide_False. }
  split; [done|]. split; [|split; [|split; [|split; [|split]]]].
  - eapply alone_trans; [eapply alone_less; [exact Hi|apply in_hand_le|apply S1]|]. eapply alone_less; [exact I1|apply in_hand_le|by eapply set_alone].
  - eapply kept_trans; [apply (sl_calm _ _ _ _ S1)|]. by apply (set_kept Q _ _ _ _ _ _ _ I1 D2).
  - intros j w Hj Huj Hqj. destruct (decide ((j, w) = (i, vpn va))) as [[= -> ->]|Hne]; [by rewrite Hat, <- Hview|].
    rewrite (se_sees _ _ _ _ _ _ D2), <- Hel by done. by apply (cm_none _ _ _ (sl_calm _ _ _ _ S1)).
  - intros Hv. eapply set_calm; [exact I1|apply masks_some|exact Hpl|exact D2|done|done|apply (sl_calm _ _ _ _ S1)|done|]. intros _ _ Hq. rewrite <- (Hv Hq). exact Hview.
  - done.
  - intros j w Hj Huj Hqj Hne. rewrite (se_sees _ _ _ _ _ _ D2), <- Hel by done. by apply (cm_view _ _ _ (sl_calm _ _ _ _ S1)).
Qed.
(** The old descriptor's page let go; or its slot. *)
Lemma let_page_go X Q base sbase (s : vm) d : (forall x, 0 <= base x) -> desc_has_page d = true ->
  VMINV.vm_inv (X := X) (mask_base base d) (mask_sbase sbase d) s ->
  VMINV.vm_inv (X := X) base sbase (pfree (page_of d) s) /\ VMSTEP.still (X := X) Q base s (pfree (page_of d) s).
Proof.
  intros Hb Hd Hi. apply pfree_ok; [done|]. eapply inv_bases; [| |exact Hi].
  - intros a. unfold mask_base, in_hand, hold. rewrite Hd, (Z.eqb_sym a). done.
  - intros k. unfold mask_sbase, slot_hold, in_swap. rewrite Hd. cbn. lia.
Qed.
Lemma let_slot_go X Q base sbase (s : vm) d : (forall k, 0 <= sbase k) -> in_swap d = true ->
  VMINV.vm_inv (X := X) (mask_base base d) (mask_sbase sbase d) s ->
  let s1 := s <| sw := sl_free (slot_of d) (sw s) |> in
  VMINV.vm_inv (X := X) base sbase s1 /\ VMSTEP.still (X := X) Q base s s1.
Proof.
  intros Hb Hd Hi. assert (Hi' : VMINV.vm_inv (X := X) base (in_hand (slot_of d) sbase) s).
  { eapply inv_bases; [| |exact Hi].
    - intros a. unfold mask_base, hold. unfold in_swap in Hd. apply andb_true_iff in Hd as [Hd%negb_true_iff _]. rewrite Hd. cbn. lia.
    - intros k. unfold mask_sbase, in_hand, slot_hold. rewrite Hd, (Z.eqb_sym k). done. }
  pose proof (inv_sheld _ _ _ Hi' (slot_of d)) as Hsh. rewrite in_hand_at in Hsh. pose proof (Hb (slot_of d)).
  destruct (sl_free_spec (sw s) (slot_of d) (inv_sw _ _ _ Hi') ltac:(lia)) as (F1 & F2 & F3 & F4). apply (swap_ok Q base (in_hand (slot_of d) sbase)); try done.
  intros k. unfold in_hand. destruct (Z.eqb_spec k (slot_of d)) as [->|Hne]; [rewrite F2; lia|]. rewrite F3 by done. lia.
Qed.
Lemma desc_release_ok X Q base sbase (s : vm) d : (forall x, 0 <= base x) -> (forall k, 0 <= sbase k) ->
  VMINV.vm_inv (X := X) (mask_base base d) (mask_sbase sbase d) s ->
  VMINV.vm_inv (X := X) base sbase (desc_release d s) /\ VMSTEP.still (X := X) Q base s (desc_release d s).
Proof.
  intros Hb Hsb Hi. unfold desc_release. destruct (desc_has_page d) eqn:Ep.
  - destruct (has d DESC_SW_SHARED); [|by apply let_page_go]. pose proof (release_ok Q _ _ s (page_of d) Hi) as Hr.
    destruct (tc_release (page_of d) (tc s) (mm s)) as [t w]. destruct Hr as [I1 S1]. destruct (let_page_go X Q base sbase _ d Hb Ep I1) as [I2 S2]. split; [done|].
    eapply still_trans; [|exact S2]. eapply still_less; [exact Hi| |exact S1]. intros a. unfold mask_base. pose proof (hold_bound a d). lia.
  - destruct (has d DESC_SW_SWAP) eqn:Es; [apply let_slot_go; [done|unfold in_swap; by rewrite Ep, Es|done]|]. split; [|apply still_refl].
    eapply inv_bases; [| |exact Hi]; [intros a; unfold mask_base, hold; rewrite Ep|intros k; unfold mask_sbase, slot_hold, in_swap; rewrite Ep, Es]; cbn; lia.
Qed.
End same.
End VMPUT.
