(* ===== verification/Vmfault.v ===== *)
(** * Address spaces: faults and reclaiming (kernel/vm.c)

    Writing a page out, the clock hand, taking a page for a program and
    handling a fault keep the invariant, and a program sees none of it, as
    long as what the others do while a call sleeps is as careful. *)

From S2P Require Import Prelude Pmm Pages Swap Vm Vmtab Vminv Vmdesc Vmstep Vmput.
Local Open Scope Z_scope.

Module VMFAULT.
Import VM VMTAB VMINV VMDESC VMSTEP VMPUT VMPLAIN.

Section calls.
Context {W S T : Type} `{TextCache T W} `{SwapSlots S}.
#[local] Abbreviation vm := (@vm W S T).

(** What a call may do to the others, its own page aside. *)
Record goes (Q : nat -> bool) (base : Z -> Z) (s s' : vm) : Prop := { go_calm : calm Q s s'; go_alone : alone base s s' }.
Lemma goes_refl Q base s : goes Q base s s.
Proof. constructor; [apply calm_refl|apply alone_refl]. Qed.
Lemma goes_trans Q base s1 s2 s3 : goes Q base s1 s2 -> goes Q base s2 s3 -> goes Q base s1 s3.
Proof. intros [A B] [C D]. constructor; [by eapply calm_trans|by eapply alone_trans]. Qed.
Lemma still_goes Q base s s' : still Q base s s' -> goes Q base s s'.
Proof. intros Hs. constructor; apply Hs. Qed.
Lemma goes_less Q base base' sbase s s' : vm_inv base' sbase s -> (forall a, base a <= base' a) -> goes Q base' s s' -> goes Q base s s'.
Proof. intros Hi Hle [A B]. constructor; [done|by eapply alone_less]. Qed.
Definition tame (Q : nat -> bool) (f : vm -> vm) : Prop :=
  forall base sbase s, vm_inv base sbase s -> vm_inv base sbase (f s) /\ goes Q base s (f s).

Context (others : nat -> vm -> vm) (patience : nat) (Q : nat -> bool) (Hothers : forall n, tame Q (others n)).

Lemma sleep_ok base sbase s : vm_inv base sbase s -> vm_inv base sbase (sleep others s) /\ goes Q base s (sleep others s).
Proof using Hothers.
  intros Hi. unfold sleep. destruct (aside_ok Q base sbase s (s <| sleeps := Datatypes.S (sleeps s) |>) Hi) as [I1 I2]; try done; [apply (inv_hand _ _ _ Hi)|].
  destruct (Hothers (sleeps s) _ _ _ I1) as [I3 I4]. split; [done|]. by eapply goes_trans; [apply still_goes|].
Qed.

Lemma count_ok X base sbase (s : vm) f : VMINV.vm_inv (X := X) base sbase s ->
  VMINV.vm_inv (X := X) base sbase (count_stat f s) /\ VMSTEP.still (X := X) Q base s (count_stat f s).
Proof using Hothers. intros Hi. apply aside_ok; try done. apply (inv_hand _ _ _ Hi). Qed.

(** ** Writing a page out *)

Lemma swap_desc k b (ro : bool) : 0 <= k < 1048576 -> b = Z.lor DESC_SW_SWAP (if ro then DESC_WP else 0) ->
  low_bits (u32 (Z.shiftl k PAGE_SHIFT)) b (Z.lor (Z.lor (u32 (Z.shiftl k PAGE_SHIFT)) DESC_SW_SWAP) (if ro then DESC_WP else 0)) /\
  slot_of (Z.lor (Z.lor (u32 (Z.shiftl k PAGE_SHIFT)) DESC_SW_SWAP) (if ro then DESC_WP else 0)) = k.
Proof.
  intros Hk ->. rewrite <- Z.lor_assoc. destruct (slot_word k Hk) as [P1 P2].
  assert (Hl : low_bits (u32 (Z.shiftl k PAGE_SHIFT)) (Z.lor DESC_SW_SWAP (if ro then DESC_WP else 0)) (Z.lor (u32 (Z.shiftl k PAGE_SHIFT)) (Z.lor DESC_SW_SWAP (if ro then DESC_WP else 0)))).
  { apply low_bits_of; [done|]. by destruct ro. }
  split; [done|]. by rewrite (lb_slot _ _ _ Hl).
Qed.
Lemma page_image_id p : length p = 4096%nat -> Forall (fun b => 0 <= b < 256) p -> page_image p = p.
Proof.
  intros Hl Hb. apply list_eq. intros n. unfold page_image. rewrite list_lookup_fmap. destruct (decide (n < 4096)%nat) as [Hn|Hn].
  - rewrite lookup_seq_lt by lia. cbn. destruct (p !! n) as [b|] eqn:E; [|by apply lookup_ge_None in E; lia]. cbn. f_equal.
    apply Z.mod_small. by eapply Forall_lookup_1 in Hb.
  - rewrite lookup_seq_ge by lia. cbn. symmetry. apply lookup_ge_None. lia.
Qed.
Lemma page_image_ok p : length (page_image p) = 4096%nat /\ Forall (fun b => 0 <= b < 256) (page_image p).
Proof.
  unfold page_image. rewrite length_fmap, length_seq. split; [done|]. apply Forall_fmap, Forall_forall. intros n _. cbn. apply Z.mod_pos_bound. lia.
Qed.
Lemma page_bytes_range w a n : pg_ok w -> Forall (fun b => 0 <= b < 256) (page_bytes a n w).
Proof. intros Hw. apply Forall_fmap, Forall_forall. intros k _. by apply pg_load_byte. Qed.
(** The slot a page is written to, taken and filled before anything shows. *)
Lemma fill_slot base sbase s k w p : vm_inv base sbase s -> sl_alloc (sw s) = (k, w) -> k <> SWAP.SWAP_NONE ->
  let '(r, w') := sl_write k p (sl_set_busy k true w) in
  0 <= k < 1048576 /\ vm_inv base (in_hand k sbase) (s <| sw := w' |>) /\ still Q base s (s <| sw := w' |>) /\ r <= 0 /\ (r = 0 -> sl_bytes w' k = p).
Proof.
  intros Hi Ea Hk. pose proof (inv_sw _ _ _ Hi) as Hw. pose proof (inv_sbase _ _ _ Hi) as Hsb. pose proof (inv_sheld _ _ _ Hi) as Hsh.
  destruct (sl_alloc_spec (sw s) Hw) as [E|(k0 & w0 & E & A1 & A2 & A3 & A4 & A5)]; rewrite Ea in E; [by injection E as -> _|]. injection E as <- <-.
  destruct (sl_busy_spec w k true A1) as (B1 & B2 & B3). pose proof (sl_write_spec (sl_set_busy k true w) k p B1 ltac:(rewrite B2; lia)) as Hx.
  destruct (sl_write k p _) as [r w']. destruct Hx as (C1 & C2 & C3 & C4 & C5). pose proof (sl_held_slot w k A1 ltac:(lia)) as Hkr.
  pose proof (Hsb k). pose proof (Hsh k). split; [done|]. enough (G : vm_inv base (in_hand k sbase) (s <| sw := w' |>) /\ still Q base s (s <| sw := w' |>)) by (destruct G; done).
  apply (swap_ok Q base sbase); [done|done|by apply in_hand_nonneg| |].
  - intros j. rewrite C2, B2. unfold in_hand. destruct (Z.eqb_spec j k) as [->|Hne]; [lia|]. rewrite A4 by done. lia.
  - intros j Hj. pose proof (Hsb j). assert (j <> k) by (intros ->; lia). rewrite C5, B3, A5; [done|done|rewrite B2, A4 by done; lia].
Qed.
Lemma evict_ok base sbase s i va : vm_inv base sbase s -> used (space s i) = true -> pagetable i va s <> 0 ->
  has (descr s i (vpn va)) PDT_RESIDENT = true -> has (descr s i (vpn va)) DESC_SW_SHARED = false ->
  pg_foreign (mm s) (page_of (descr s i (vpn va))) = false ->
  let '(r, s') := evict others (pagetable i va s) (PAGE_INDEX va) s in vm_inv base sbase s' /\ goes Q base s s'.
Proof using Hothers.
  intros Hi Hu Hpt Hres Hsh Hf. destruct (pagetable_some _ _ _ _ _ Hi Hu Hpt) as (Hva & Hpl & Ei & Ew). specialize (Ew ltac:(done)). pose proof (inv_base _ _ _ Hi) as Hb. pose proof (inv_sbase _ _ _ Hi) as Hsb.
  unfold evict. rewrite <- Ew. set (pt := pagetable i va s) in *. set (d := descr s i (vpn va)) in *. set (pa := page_of d) in *.
  set (ro := has d DESC_WP && negb (has d DESC_SW_COW)).
  destruct (sl_alloc (sw s)) as [k w] eqn:Ea. destruct (Z.eqb_spec k SWAP.SWAP_NONE) as [->|Hk].
  { destruct (sl_alloc_spec (sw s) (inv_sw _ _ _ Hi)) as [E|(k0 & w0 & E & A1 & _ & A3 & _)]; rewrite Ea in E.
    - injection E as ->. replace (s <| sw := sw s |>) with s by (by destruct s). split; [done|apply goes_refl].
    - injection E as <- <-. pose proof (sl_held_slot w SWAP.SWAP_NONE A1 ltac:(lia)). unfold SWAP.SWAP_NONE in *. lia. }
  set (d' := Z.lor (Z.lor (u32 (Z.shiftl k PAGE_SHIFT)) DESC_SW_SWAP) (if ro then DESC_WP else 0)). cbn [sw store].
  set (p := page_bytes pa 4096 _). change (sl_write k p _) with (sl_write k p (sl_set_busy k true w)). pose proof (fill_slot base sbase s k w p Hi Ea Hk) as Hfill.
  destruct (sl_write k p (sl_set_busy k true w)) as [r w'] eqn:Ewr. destruct Hfill as (Hkr & I1 & St1 & Hr0 & Hbytes).
  destruct (swap_desc k _ ro Hkr eq_refl) as [Hlow Hslot]. fold d' in Hlow, Hslot. destruct (low_facts _ _ _ Hlow) as (F1 & F2 & F3 & F4 & F5 & F6 & F7).
  set (s1 := s <| sw := w' |>) in *. assert (Hu1 : used (space s1 i) = true) by done. assert (Ept : pagetable i va s1 = pt) by (by apply (sl_tabs _ _ _ _ St1)).
  assert (Ed1 : descr s1 i (vpn va) = d) by (by rewrite (sl_descr _ _ _ _ St1)).
  assert (Hdp : desc_has_page d = true) by (unfold desc_has_page; by rewrite Hres).
  assert (Hnp : desc_has_page d' = false) by (rewrite F2; by destruct ro).
  assert (Hsw' : in_swap d' = true) by (rewrite F6; by destruct ro).
  destruct (set_ok base (in_hand k sbase) (in_hand pa base) sbase s1 i va d' I1 (masks_none _) Hu1 ltac:(by rewrite Ept)) as [I2 D2].
  { constructor; [apply (low_wf _ _ _ Hlow); by destruct ro|by apply in_hand_nonneg|done| | | |].
    - intros a _. rewrite Ed1. unfold hold. rewrite Hnp, Hdp. fold pa. unfold in_hand. cbn [andb]. rewrite (Z.eqb_sym pa a). lia.
    - intros k'. rewrite Ed1. unfold slot_hold, in_hand. rewrite Hsw', Hslot. unfold in_swap. rewrite Hdp. cbn [andb negb]. rewrite (Z.eqb_sym k k'). lia.
    - intros X. rewrite (lb_has _ _ _ Hlow) in X by done. by destruct ro.
    - by rewrite Hnp. }
  rewrite Ept in I2, D2. set (s2 := set_word pt (PAGE_INDEX va) d' s1) in *.
  assert (Kept : kept Q s s2) by (eapply kept_trans; [apply (cm_kept _ _ _ (sl_calm _ _ _ _ St1))|by eapply set_kept]).
  assert (Al : alone base s s2) by (eapply alone_trans; [apply St1|by eapply set_alone]).
  assert (Hdo : desc_owned d = true) by (unfold desc_owned; by rewrite Hres). assert (Hdo' : desc_owned d' = true) by (rewrite F1; by destruct ro).
  assert (Hnn : view_of s1 d' = None <-> sees s1 i (vpn va) = None) by (unfold VMINV.sees; rewrite Ed1, !view_none, Hdo, Hdo'; done).
  assert (Hsn : same_none Q s s2).
  { intros j v' Hj Huj Hqj. destruct (decide ((j, v') = (i, vpn va))) as [[= -> ->]|Hne].
    - unfold VMINV.sees at 1. rewrite (se_descr _ _ _ _ _ _ D2), decide_True, (se_view _ _ _ _ _ _ D2) by done. rewrite Hnn. by apply (cm_none _ _ _ (sl_calm _ _ _ _ St1)).
    - rewrite (se_sees _ _ _ _ _ _ D2) by done. by apply (cm_none _ _ _ (sl_calm _ _ _ _ St1)). }
  assert (Hcalm : r = 0 -> calm Q s s2).
  { intros ->. eapply calm_trans; [apply (sl_calm _ _ _ _ St1)|]. eapply set_calm; [exact I1|apply masks_none|exact Hpl|exact D2|done|done|apply calm_refl|by intros _ _; apply Hnn|]. intros _ _ _.
    unfold VMINV.sees. rewrite Ed1. unfold view_of. rewrite F1, F3, Hnp, F5, Hdp, Hsh. change (mm s1) with (mm s). fold pa. rewrite Hf. cbn [orb].
    rewrite Hdo. replace (desc_owned _) with true by (by destruct ro). cbn [negb]. do 2 f_equal.
    - unfold desc_prot. rewrite Hdo, Hres. unfold ro. destruct (has d DESC_WP), (has d DESC_SW_COW); done.
    - replace (has _ DESC_SW_LAZY) with false by (by destruct ro). rewrite Hslot. change (sw s1) with w'. rewrite Hbytes by done. f_equal.
      assert (Ep : p = page_bytes pa 4096 (mm s)).
      { apply list_fmap_ext. intros x n [-> ?]%lookup_seq. apply (se_load _ _ _ _ _ _ D2 pa); [|done|unfold in_page; lia].
        pose proof (cnt_le s1 i (vpn va) Hpl) as Hc. rewrite Ed1 in Hc. specialize (Hc Hdp). fold pa in Hc. pose proof (Hb pa). lia. }
      rewrite Ep. apply page_image_id; [apply length_page_bytes|]. apply page_bytes_range, (inv_mm _ _ _ Hi). }
  match goal with |- context [sleep others ?x] => change x with s2 end.
  destruct (sleep_ok _ _ s2 I2) as [I3 G3]. set (s3 := sleep others s2) in *. apply (goes_less Q base _ sbase) in G3; [|done|apply in_hand_le].
  set (s4 := if r <? 0 then s3 <| lost := lost s3 + 1 |> else s3).
  destruct (aside_ok Q _ _ s3 s4 I3) as [I4 S4]; try (unfold s4; by destruct (r <? 0)); [unfold s4; destruct (r <? 0); cbn [lost store]; lia|unfold s4; destruct (r <? 0); apply (inv_hand _ _ _ I3)|].
  destruct (sl_busy_spec (sw s4) k false (inv_sw _ _ _ I4)) as (B1 & B2 & B3).
  destruct (swap_ok Q _ _ sbase s4 (sl_set_busy k false (sw s4)) I4 B1 Hsb) as [I5 S5]; [intros j; by rewrite B2|done|].
  set (s5 := s4 <| sw := sl_set_busy k false (sw s4) |>) in *. destruct (pfree_ok Q base sbase s5 pa Hb I5) as [I6 S6].
  set (s6 := pfree pa s5) in *. set (s7 := count_stat _ s6).
  destruct (count_ok None base sbase s6 (fun t => t <| evicted := u32 (evicted t + 1) |>) I6) as [I7 S7]. fold s7 in I7, S7. split; [done|].
  assert (G35 : goes Q base s3 s7).
  { eapply goes_trans; [eapply (goes_less Q base _ sbase); [exact I3|apply in_hand_le|apply still_goes, S4]|].
    eapply goes_trans; [eapply (goes_less Q base _ sbase); [exact I4|apply in_hand_le|apply still_goes, S5]|].
    eapply goes_trans; apply still_goes; [exact S6|exact S7]. }
  constructor; [|eapply alone_trans; [exact Al|]; eapply alone_trans; [apply G3|apply G35]].
  destruct (Z.ltb_spec r 0) as [Hneg|Hpos].
  - pose proof (calm_trans _ _ _ _ (go_calm _ _ _ _ G3) (go_calm _ _ _ _ G35)) as C37.
    apply calm_lost; [eapply kept_trans; [exact Kept|]; eapply kept_trans; [apply G3|apply G35]| |].
    { intros j v' Hj Huj Hqj. rewrite <- (Hsn j v' Hj Huj Hqj). destruct (ke_used _ _ _ Kept j Huj Hqj) as [U1 U2]. rewrite <- U2 in Hqj. by apply (cm_none _ _ _ C37). }
    assert (lost s4 = lost s3 + 1) by done. pose proof (ke_lost _ _ _ (cm_kept _ _ _ (go_calm _ _ _ _ G3))). change (lost s7) with (lost s4). change (lost s) with (lost s2). lia.
  - eapply calm_trans; [apply Hcalm; lia|]. eapply calm_trans; [apply G3|apply G35].
Qed.

(** ** The clock hand *)

Definition hand_to (sp va : Z) (s : vm) : vm := s <| hand_space := sp |> <| hand_va := va |>.
Lemma hand_moves base sbase s sp va : vm_inv base sbase s -> 0 <= sp < 64 -> is_u32 va -> va mod 4096 = 0 ->
  vm_inv base sbase (hand_to sp va s) /\ goes Q base s (hand_to sp va s).
Proof using Hothers.
  intros Hi Hsp Hu Hm. destruct (aside_ok Q base sbase s (hand_to sp va s) Hi) as [I1 I2]; try done. by split; [|apply still_goes].
Qed.
(** Marks that mean nothing to the program. *)
Lemma remark_ok base sbase s i va d' : vm_inv base sbase s -> used (space s i) = true -> pagetable i va s <> 0 ->
  let d := descr s i (vpn va) in
  is_u32 d' -> alike d d' -> page_of d' = page_of d -> slot_of d' = slot_of d ->
  vm_inv base sbase (set_word (pagetable i va s) (PAGE_INDEX va) d' s) /\ goes Q base s (set_word (pagetable i va s) (PAGE_INDEX va) d' s).
Proof using Hothers.
  intros Hi Hu Hpt d Hu32 Ha Ep Es. destruct (pagetable_some _ _ _ _ _ Hi Hu Hpt) as (Hva & Hpl & Ei & Ew). specialize (Ew ltac:(done)).
  destruct (alike_bits _ _ Ha) as (E1 & E2 & E3 & E4 & E5 & E6 & E7 & E8).
  destruct (set_ok base sbase base sbase s i va d' Hi (masks_none _) Hu Hpt) as [I1 D1].
  { constructor.
    - apply E8; [done|]. by apply (inv_wf _ _ _ Hi).
    - apply (inv_base _ _ _ Hi).
    - apply (inv_sbase _ _ _ Hi).
    - intros a _. by rewrite (hold_alike d d').
    - intros k. by rewrite (slot_hold_alike d d').
    - unfold cow_ok. rewrite Ep. rewrite !Ha by (unfold BITS, DESC_SW_COW; change 2048 with DESC_SW_NONE; set_solver). by apply (inv_cow _ _ _ Hi).
    - rewrite E2, E7, Ep. intros Hdp Hf. split.
      + intros Ho. destruct (inv_own _ _ _ Hi i (vpn va) Hpl Ho Hf) as [O1 O2]. fold d in O1, O2. split; [|done]. rewrite hold_page; done.
      + intros j w Hj Hne Ho Epg. destruct (inv_own _ _ _ Hi j w Hj Ho) as [O1 _]; [by rewrite Epg|].
        pose proof (tally_two (hold (page_of d)) (descr s) i (vpn va) j w ltac:(intros; apply hold_bound) eq_refl Hpl Hj Hne) as H12.
        fold d in H12. rewrite Epg in O1. unfold VMINV.cnt in O1. rewrite O1, hold_page in H12 by done. rewrite <- Epg, hold_page in H12 by (by apply own_write_page). lia. }
  split; [done|]. constructor; [|by eapply set_alone]. eapply set_calm; [exact Hi|apply masks_none|exact Hpl|exact D1|done|done|apply calm_refl| |]; unfold VMINV.sees; fold d.
  - intros _ _. by rewrite !view_none, E1.
  - intros _ _ _. by apply view_alike.
Qed.
Lemma turn_ok base sbase want freed steps s : vm_inv base sbase s ->
  let '(go, (_, steps', s')) := reclaim_turn others want (freed, steps, s) in
  vm_inv base sbase s' /\ goes Q base s s' /\ (go = true -> steps < 8388608 /\ steps + 1 <= steps').
Proof using Hothers.
  intros Hi. unfold reclaim_turn. change (2 * Z.of_nat MAX_SPACES * (USER_VA_SIZE / PMM.PAGE_SIZE)) with 8388608.
  destruct (Z.ltb_spec steps 8388608) as [Hst|_]; cbn [andb negb]; [|by split; [|split; [apply goes_refl|]]].
  destruct (freed <? want); cbn [negb]; [|by split; [|split; [apply goes_refl|]]].
  destruct (inv_hand _ _ _ Hi) as (H1' & H2' & H3'). set (i := Z.to_nat (hand_space s)).
  destruct (_ || _ || _) eqn:Eskip.
  { change (USER_VA_SIZE / PMM.PAGE_SIZE) with 65536.
    destruct (hand_moves base sbase s ((hand_space s + 1) mod Z.of_nat MAX_SPACES) USER_VA_BASE Hi) as [I G]; [apply (Z.mod_pos_bound _ 64); lia|done|done|].
    split; [exact I|]. split; [exact G|lia]. }
  apply orb_false_iff in Eskip as [[Hu%negb_false_iff Hb]%orb_false_iff Hend%Z.leb_gt].
  destruct (Z.eqb_spec (pagetable i (hand_va s) s) 0) as [Ez|Hpt].
  { destruct (next_span (hand_va s) H2' H3' Hend) as (N1 & N2 & N3). destruct (hand_moves base sbase s (hand_space s) _ Hi H1' N1 N2) as [I G].
    split; [|split; [|lia]]; by destruct s. }
  destruct (pagetable_some _ _ _ _ _ Hi Hu Hpt) as (Hva & Hpl & Ei & Ew). specialize (Ew ltac:(done)). rewrite <- Ew. set (d := descr s i (vpn (hand_va s))) in *.
  assert (Hnext : is_u32 (u32 (hand_va s + PMM.PAGE_SIZE)) /\ u32 (hand_va s + PMM.PAGE_SIZE) mod 4096 = 0).
  { unfold is_u32, u32, PMM.PAGE_SIZE in *. Z.div_mod_to_equations. lia. }
  destruct (_ && _ && _ && _) eqn:Ec.
  2:{ destruct (hand_moves base sbase s (hand_space s) _ Hi H1' (proj1 Hnext) (proj2 Hnext)) as [I G]. split; [|split; [|lia]]; by destruct s. }
  apply andb_true_iff in Ec as [[[Hres Hsup]%andb_true_iff Hsh%negb_true_iff]%andb_true_iff Hheld].
  pose proof (inv_wf _ _ _ Hi i _ Hpl) as Hwf. fold d in Hwf.
  assert (Hstep : forall s1 : vm, vm_inv base sbase s1 -> goes Q base s s1 -> vm_inv base sbase (s1 <| hand_va := u32 (hand_va s1 + PMM.PAGE_SIZE) |>) /\
    goes Q base s (s1 <| hand_va := u32 (hand_va s1 + PMM.PAGE_SIZE) |>)).
  { intros s1 I1 G1. destruct (inv_hand _ _ _ I1) as (K1 & K2 & K3). assert (Hn1 : is_u32 (u32 (hand_va s1 + PMM.PAGE_SIZE)) /\ u32 (hand_va s1 + PMM.PAGE_SIZE) mod 4096 = 0).
    { unfold is_u32, u32, PMM.PAGE_SIZE in *. Z.div_mod_to_equations. lia. }
    destruct (hand_moves base sbase s1 (hand_space s1) _ I1 K1 (proj1 Hn1) (proj2 Hn1)) as [I2 G2].
    replace (s1 <| hand_va := _ |>) with (hand_to (hand_space s1) (u32 (hand_va s1 + PMM.PAGE_SIZE)) s1) by (by destruct s1).
    split; [done|]. by eapply goes_trans. }
  destruct (has d DESC_USED).
  - destruct (clear_low d DESC_USED (proj1 Hwf) ltac:(done)) as (C1 & C2 & C3 & _).
    destruct (remark_ok base sbase s i (hand_va s) (Z.land d (not32 DESC_USED)) Hi Hu Hpt C1 (clear_used_alike d (proj1 Hwf)) C2 C3) as [I1 G1].
    destruct (Hstep _ I1 G1) as [I2 G2]. split; [exact I2|]. split; [exact G2|lia].
  - assert (Hf : pg_foreign (mm s) (page_of d) = false).
    { rewrite Hres in Hheld. apply orb_true_iff in Hheld as [Hone%Z.eqb_eq|Hcow]; [|by apply (inv_cow _ _ _ Hi i _ Hpl)].
      destruct (pg_foreign (mm s) (page_of d)) eqn:Ef; [|done]. destruct (pg_foreign_spec _ _ (inv_mm _ _ _ Hi) Ef) as (_ & E & _). lia. }
    pose proof (evict_ok base sbase s i (hand_va s) Hi Hu Hpt Hres Hsh Hf) as He. destruct (evict others _ _ s) as [err s1]. destruct He as [I1 G1].
    destruct (err =? 0); [|by split; [|split; [|done]]]. destruct (Hstep _ I1 G1) as [I2 G2]. split; [exact I2|]. split; [exact G2|lia].
Qed.
Lemma reclaim_ok base sbase s want : vm_inv base sbase s ->
  let '(_, s') := vm_reclaim others want s in vm_inv base sbase s' /\ goes Q base s s'.
Proof using Hothers.
  intros Hi. unfold vm_reclaim. pose proof (shrink_ok Q base sbase s want Hi) as Hs. destruct (tc_shrink want (tc s) (mm s)) as [[freed t] w].
  destruct Hs as [I1 S1]. set (s1 := s <| tc := t |> <| mm := w |>) in *. apply still_goes in S1. destruct (_ || _); [done|].
  pose proof (loop_ind (fun x : Z * Z * vm => vm_inv base sbase (snd x) /\ goes Q base s (snd x)) 8388609 (reclaim_turn others want) (freed, 0, s1)) as Hl.
  destruct (loop 8388609 _ _) as [go [[f st] s2]]. apply Hl; [|done]. intros [[f1 st1] s3] [I3 G3]. cbn [fst snd] in I3, G3.
  pose proof (turn_ok base sbase want f1 st1 s3 I3) as Ht. destruct (reclaim_turn others want (f1, st1, s3)) as [g [[f4 st4] s4]].
  destruct Ht as (I4 & G4 & _). split; [done|]. by eapply goes_trans.
Qed.
(** The hand stops of itself. *)
Lemma reclaim_stops base sbase s want freed : vm_inv base sbase s -> fst (loop 8388609 (reclaim_turn others want) (freed, 0, s)) = false.
Proof using Hothers.
  intros Hi. destruct (fst (loop _ _ _)) eqn:E; [|done]. exfalso.
  pose proof (loop_turns (fun x : Z * Z * vm => vm_inv base sbase (snd x) /\ 0 <= snd (fst x)) (fun x : Z * Z * vm => Z.min (snd (fst x)) 8388608) 8388609 (reclaim_turn others want) (freed, 0, s)) as Hl.
  destruct Hl as [_ Hm]; [|done|done|].
  - intros [[f1 st1] s3] [I3 G3] Hgo. cbn [fst snd] in I3, G3 |- *. pose proof (turn_ok base sbase want f1 st1 s3 I3) as Ht. destruct (reclaim_turn others want (f1, st1, s3)) as [g [[f4 st4] s4]].
    cbn [fst] in Hgo. destruct Ht as (I4 & _ & Hst). specialize (Hst Hgo). cbn [fst snd]. split; [split; [done|lia]|lia].
  - cbn [fst snd] in Hm. lia.
Qed.

(** ** A page for a program *)

Lemma alloc_user_ok base sbase s : vm_inv base sbase s ->
  let '(a, s') := page_alloc_user others s in
  goes Q base s s' /\
  ((a = 0 /\ vm_inv base sbase s') \/
   (a <> 0 /\ vm_inv (in_hand a base) sbase s' /\ fresh s' base a /\ page_bytes a 4096 (mm s') = replicate 4096 0)).
Proof using Hothers.
  intros Hi. unfold page_alloc_user. set (s1 := if pg_available (mm s) <=? RESERVE_PAGES + 1 then snd (vm_reclaim others RECLAIM_BATCH s) else s). assert (Hs1 : vm_inv base sbase s1 /\ goes Q base s s1).
  { unfold s1. destruct (_ <=? _); [|split; [done|apply goes_refl]]. pose proof (reclaim_ok base sbase s RECLAIM_BATCH Hi) as Hr.
    by destruct (vm_reclaim others RECLAIM_BATCH s). }
  destruct Hs1 as [I1 G1]. clearbody s1. destruct (_ <=? _); [by split; [|left]|].
  pose proof (palloc_ok Q base sbase s1 I1) as Hp. destruct (palloc s1) as [a s2]. destruct Hp as [[-> ->]|(Hne & I2 & S2 & F2 & Z2)]; [by split; [|left]|].
  split; [by eapply goes_trans; [|apply still_goes]|by right].
Qed.
Lemma give_back base sbase s s' a : (forall x, 0 <= base x) -> vm_inv (in_hand a base) sbase s' -> goes Q base s s' ->
  vm_inv base sbase (pfree a s') /\ goes Q base s (pfree a s').
Proof using Hothers.
  intros Hb Hi Hg. destruct (pfree_ok Q base sbase s' a Hb Hi) as [I1 S1]. split; [done|]. by eapply goes_trans; [|apply still_goes].
Qed.
(** A space that is kept, after a sleep. *)
Lemma goes_kept base s s' i : goes Q base s s' -> used (space s i) = true -> Q i || busy (space s i) = true ->
  used (space s' i) = true /\ Q i || busy (space s' i) = true /\ forall va, pagetable i va s <> 0 -> pagetable i va s' = pagetable i va s.
Proof using Hothers.
  intros [[K _] _] Hu Hq. destruct (ke_used _ _ _ K i Hu Hq) as [-> ->]. split; [done|]. split; [done|]. intros va. by apply (ke_tabs _ _ _ K).
Qed.

(** ** Faults *)

Lemma page_bits_facts fl : let b := Z.lor (page_bits fl) DESC_USED in
  0 <= b < 4096 /\ desc_wf b /\ desc_has_page b = true /\ has b DESC_SW_COW = false /\ has b PDT_RESIDENT = true /\ desc_owned b = true /\
  has b DESC_SW_SHARED = has fl VM_SHARED /\ desc_prot b = (if has fl VM_WRITE then VM_WRITE else 0) /\
  own_write b = has fl VM_WRITE && negb (has fl VM_SHARED).
Proof using Type.
  unfold page_bits. destruct (has fl VM_SHARED), (has fl VM_USER), (has fl VM_WRITE), (has fl VM_NOCACHE); vm_compute; intuition congruence.
Qed.
Lemma wait_ok base sbase n slot s : vm_inv base sbase s ->
  let '(_, s') := swap_wait_idle others n slot s in vm_inv base sbase s' /\ goes Q base s s'.
Proof using Hothers.
  revert s. induction n as [|n IH]; intros s Hi; cbn [swap_wait_idle].
  - destruct (sl_is_busy slot (sw s)); (split; [done|apply goes_refl]).
  - destruct (sl_is_busy slot (sw s)); [|split; [done|apply goes_refl]]. destruct (sleep_ok base sbase s Hi) as [I1 G1]. specialize (IH _ I1).
    destruct (swap_wait_idle others n slot (sleep others s)) as [r s']. destruct IH as [I2 G2]. split; [done|]. by eapply goes_trans.
Qed.
Lemma bytes_view (s : vm) d : desc_owned d = true -> desc_has_page d = true -> has d DESC_SW_SHARED = false -> pg_foreign (mm s) (page_of d) = false ->
  view_of s d = Some (desc_prot d, Own (page_bytes (page_of d) 4096 (mm s))).
Proof using Type. intros E1 E2 E3 E4. unfold view_of. by rewrite E1, E2, E3, E4. Qed.
(** A private copy put in place of a page that others name too. *)
Lemma copy_out base sbase s i va a b d' : vm_inv (in_hand a base) sbase s -> (forall x, 0 <= base x) -> fresh s base a -> used (space s i) = true -> pagetable i va s <> 0 ->
  let d := descr s i (vpn va) in
  desc_owned d = true -> desc_has_page d = true -> pg_foreign (mm s) (page_of d) = false ->
  low_bits a b d' -> desc_has_page b = true -> desc_owned b = true -> desc_wf b -> has b DESC_SW_COW = false \/ has b PDT_RESIDENT = false -> has b DESC_SW_SHARED = false ->
  let s' := set_word (pagetable i va s) (PAGE_INDEX va) d' (pfree (page_of d) (page_copy a (page_of d) s)) in
  vm_inv base sbase s' /\ alone base s s' /\ kept Q s s' /\ lost s' = lost s /\ same_none Q s s' /\
  sees s' i (vpn va) = Some (desc_prot b, Own (page_bytes (page_of d) 4096 (mm s))) /\
  forall j w, place j w -> used (space s j) = true -> Q j || busy (space s j) = true -> (j, w) <> (i, vpn va) -> sees s' j w = sees s j w.
Proof using Hothers.
  intros Hi Hb Hfr Hu Hpt d Hdo Hdp Hf Hl B1 B2 B3 B4 B5 s'. destruct (pagetable_some _ _ _ _ _ Hi Hu Hpt) as (Hva & Hpl & _).
  destruct (low_facts _ _ _ Hl) as (F1 & F2 & F3 & F4 & F5 & F6 & F7).
  destruct (fill_ok Q base sbase s a (page_bytes (page_of d) 4096 (mm s)) Hi Hb Hfr) as (I2 & S2 & Hfr2 & Hby & Hoth); [by rewrite length_page_bytes|apply page_bytes_range, (inv_mm _ _ _ Hi)|].
  rewrite length_page_bytes in Hby. change (s <| mm := _ |>) with (page_copy a (page_of d) s) in *. unfold s'. clear s'. assert (El2 : lost (page_copy a (page_of d) s) = lost s) by done.
  set (s2 := page_copy a (page_of d) s) in *. clearbody s2.
  destruct (still_used _ _ _ _ i S2) as [Eu2 Eb2]. assert (Hpt2 : pagetable i va s2 = pagetable i va s) by (by rewrite (sl_tabs _ _ _ _ S2)).
  assert (Ed2 : descr s2 i (vpn va) = d) by (by rewrite (sl_descr _ _ _ _ S2)).
  destruct (trade_page Q base sbase s2 (pfree (page_of d) s2) i va a b d' I2 Hb ltac:(by rewrite Eu2) ltac:(by rewrite Hpt2) ltac:(by rewrite Ed2) Hfr2 Hl B1 B3 B4) as (I4 & A4 & K4 & N4 & _ & V4 & E4); [done|done| |].
  { rewrite Ed2. apply let_page_go; [by apply in_hand_nonneg|done]. }
  rewrite Hpt2 in I4, A4, K4, N4, V4, E4. set (s4 := set_word _ _ _ _) in *. split; [done|]. split; [eapply alone_trans; [apply S2|done]|].
  split; [eapply kept_trans; [apply (sl_calm _ _ _ _ S2)|done]|]. split; [done|]. split; [|split].
  - intros j w Hj Huj Hqj. rewrite <- (cm_none _ _ _ (sl_calm _ _ _ _ S2) j w Hj Huj Hqj). destruct (still_used _ _ _ _ j S2) as [Ej1 Ej2]. apply N4; by rewrite ?Ej1, ?Ej2.
  - rewrite V4, bytes_view, (lb_page _ _ _ Hl), F3, Hby; [done|by rewrite F1|by rewrite F2|by rewrite F4|]. rewrite (lb_page _ _ _ Hl). apply Hfr2.
  - intros j w Hj Huj Hqj Hne. destruct (still_used _ _ _ _ j S2) as [Ej1 Ej2]. rewrite E4 by (rewrite ?Ej1, ?Ej2; done). by apply (cm_view _ _ _ (sl_calm _ _ _ _ S2)).
Qed.
Lemma cow_split base sbase s i va d : vm_inv base sbase s -> used (space s i) = true -> Q i || busy (space s i) = true -> pagetable i va s <> 0 ->
  d = descr s i (vpn va) -> has d PDT_RESIDENT = true -> has d DESC_WP = true -> has d DESC_SW_COW = true ->
  let '(_, s') := fault_cow others (pagetable i va s) (PAGE_INDEX va) d s in vm_inv base sbase s' /\ goes Q base s s'.
Proof using Hothers.
  intros Hi Hu Hq Hpt Ed Hres Hwp Hcow. pose proof (inv_base _ _ _ Hi) as Hb. destruct (pagetable_some _ _ _ _ _ Hi Hu Hpt) as (Hva & Hpl & Ei & Ew).
  specialize (Ew ltac:(done)). pose proof (inv_cow _ _ _ Hi i _ Hpl) as Hc. rewrite <- Ed in Hc. destruct (Hc Hres Hcow) as [Hf Hsh].
  assert (Hdp : desc_has_page d = true) by (unfold desc_has_page; by rewrite Hres). assert (Hdo : desc_owned d = true) by (unfold desc_owned; by rewrite Hres).
  assert (Hpr : desc_prot d = VM_WRITE) by (unfold desc_prot; by rewrite Hdo, Hres, Hwp, Hcow).
  pose proof (inv_wf _ _ _ Hi i _ Hpl) as Hwf. rewrite <- Ed in Hwf. pose proof (page_of_page d (proj1 Hwf)) as Hpage.
  destruct (page_bits_facts (Z.lor VM_USER VM_WRITE)) as (B1 & B2 & B3 & B4 & B5 & B6 & B7 & B8 & B9). set (b := Z.lor (page_bits (Z.lor VM_USER VM_WRITE)) DESC_USED) in *.
  unfold fault_cow. set (pt := pagetable i va s) in *. destruct (Z.ltb_spec 1 (pg_refcount (page_of d) (mm s))) as [Hmany|Hone].
  - pose proof (alloc_user_ok base sbase s Hi) as Ha. destruct (page_alloc_user others s) as [a s1]. destruct Ha as [G1 [[-> I1]|(Hne & I1 & Hfr & _)]]; [done|].
    rewrite (proj2 (Z.eqb_neq a 0)) by done. destruct (Z.eqb_spec (word s1 pt (PAGE_INDEX va)) d) as [Ewd|]; cbn [negb]; [|by apply give_back].
    destruct (goes_kept _ _ _ i G1 Hu Hq) as (Hu1 & Hq1 & Ht1). specialize (Ht1 va Hpt). fold pt in Ht1.
    assert (Hpt1 : pagetable i va s1 <> 0) by (by rewrite Ht1). destruct (pagetable_some _ _ _ _ _ I1 Hu1 Hpt1) as (_ & _ & _ & Ew1). specialize (Ew1 ltac:(done)).
    rewrite Ht1, Ewd in Ew1. pose proof (inv_cow _ _ _ I1 i _ Hpl) as Hc1. rewrite Ew1 in Hc1. destruct (Hc1 Hres Hcow) as [Hf1 _].
    assert (Hl : low_bits a b (Z.lor (Z.lor a (page_bits (Z.lor VM_USER VM_WRITE))) DESC_USED)).
    { rewrite <- Z.lor_assoc. apply low_bits_of; [|done]. split; [apply Hfr|apply Hfr]. }
    pose proof (copy_out base sbase s1 i va a b _ I1 Hb Hfr Hu1 Hpt1 ltac:(by rewrite Ew1) ltac:(by rewrite Ew1) ltac:(by rewrite Ew1) Hl B3 B6 B2 (or_introl B4) B7) as Hco.
    rewrite Ew1, Ht1 in Hco. destruct Hco as (I4 & A4 & K4 & L4 & N4 & V4 & E4). set (s4 := set_word _ _ _ _) in *.
    destruct (count_ok None base sbase s4 (fun t => t <| faults_cow := u32 (faults_cow t + 1) |>) I4) as [I5 S5].
    split; [done|]. eapply goes_trans; [exact G1|]. eapply goes_trans; [|apply still_goes, S5]. constructor; [|done]. constructor; [done|done|].
    intros _ j w Hj Huj Hqj. destruct (decide ((j, w) = (i, vpn va))) as [[= -> ->]|Hne']; [|by apply E4]. rewrite V4. unfold VMINV.sees. rewrite Ew1, bytes_view by done. by rewrite B8, Hpr.
  - assert (Hc1 : cnt s (page_of d) = 1 /\ tc_held (tc s) (page_of d) = 0).
    { assert (Hpos : 0 < cnt s (page_of d)) by (rewrite Ed; apply cnt_le; [done|by rewrite <- Ed]). pose proof (Hb (page_of d)).
      pose proof (tc_held_nonneg _ (page_of d) (inv_tc _ _ _ Hi)). pose proof (inv_count _ _ _ _ Hi Hf ltac:(lia)) as Hh.
      rewrite (pg_refcount_spec _ _ (inv_mm _ _ _ Hi)) in Hone by lia. lia. }
    assert (Hl : low_bits (page_of d) b (Z.lor (Z.lor (page_of d) (page_bits (Z.lor VM_USER VM_WRITE))) DESC_USED)).
    { rewrite <- Z.lor_assoc. by apply low_bits_of. }
    destruct (low_facts _ _ _ Hl) as (F1 & F2 & F3 & F4 & F5 & F6 & F7). set (d' := Z.lor (Z.lor (page_of d) _) DESC_USED) in *.
    assert (Hp' : desc_has_page d' = true) by (by rewrite F2). assert (Ep' : page_of d' = page_of d) by apply Hl. pose proof (low_wf _ _ _ Hl B2) as Hwf'.
    assert (Hco' : cow_ok s d') by (unfold cow_ok; rewrite (lb_has _ _ _ Hl DESC_SW_COW), B4 by done; done).
    destruct (repage_ok base sbase s i va d' Hi Hu Hpt) as [I1 D1]; rewrite <- ?Ed; try done.
    set (s1 := set_word _ _ d' s) in *. destruct (count_ok None base sbase s1 (fun t => t <| faults_cow := u32 (faults_cow t + 1) |>) I1) as [I5 S5].
    split; [done|]. eapply goes_trans; [|apply still_goes, S5]. constructor; [|by eapply set_alone].
    eapply set_calm; [exact Hi|apply masks_none|exact Hpl|exact D1|done|done|apply calm_refl| |].
    { intros _ _. unfold VMINV.sees. by rewrite !view_none, <- Ed, F1, B6, Hdo. }
    intros _ _ _. unfold VMINV.sees. rewrite <- Ed, !bytes_view; rewrite ?F1, ?F2, ?F4, ?(lb_page _ _ _ Hl); try done.
    by rewrite F3, B8, Hpr.
Qed.
(** The bytes of a slot brought into a page in hand. *)
Lemma swap_in_ok base sbase s a slot : vm_inv (in_hand a base) sbase s -> (forall x, 0 <= base x) -> fresh s base a ->
  let '(r, s') := swap_in others slot a s in
  vm_inv (in_hand a base) sbase s' /\ goes Q base s s' /\ fresh s' base a /\
  (0 <= r -> 0 < sl_held (sw s) slot -> page_bytes a 4096 (mm s') = page_image (sl_bytes (sw s) slot)).
Proof using Hothers.
  intros Hi Hb Hfr. unfold swap_in. pose proof (sl_read_spec (sw s) slot (inv_sw _ _ _ Hi)) as Hr. destruct (sl_read slot (sw s)) as [[r p] w].
  destruct Hr as (R1 & R2 & R3 & R4 & R5).
  destruct (swap_ok Q _ sbase sbase s w Hi R1 (inv_sbase _ _ _ Hi)) as [I1 S1]; [intros k; by rewrite R2|done|]. set (s1 := s <| sw := w |>) in *.
  assert (Hfr1 : fresh s1 base a) by (destruct Hfr as [F1 F2 F3 F4 F5 F6 F7]; constructor; try done; by rewrite (still_cnt _ _ _ _ _ S1)).
  set (s2 := if r <? 0 then s1 else s1 <| mm := store_bytes a (page_image p) (mm s1) |>).
  assert (H2' : vm_inv (in_hand a base) sbase s2 /\ goes Q base s s2 /\ fresh s2 base a /\ (0 <= r -> page_bytes a 4096 (mm s2) = page_image p)).
  { apply (still_less Q base _ sbase) in S1; [|done|apply in_hand_le]. unfold s2. destruct (Z.ltb_spec r 0).
    - split; [done|]. split; [by apply still_goes|]. split; [done|lia].
    - destruct (page_image_ok p) as [P1 P2]. destruct (fill_ok Q base sbase s1 a (page_image p) I1 Hb Hfr1) as (I2 & S2 & Hfr2 & Hby & _); [by rewrite P1|done|].
      rewrite P1 in Hby. split; [done|]. split; [eapply goes_trans; apply still_goes; [exact S1|exact S2]|]. by split. }
  destruct H2' as (I2 & G2 & Hfr2 & Hby). clearbody s2. destruct (sleep_ok _ _ s2 I2) as [I3 G3]. set (s3 := sleep others s2) in *.
  assert (Hh : pg_held (mm s2) a = in_hand a base a).
  { destruct Hfr2 as [F1 F2 F3 F4 F5 F6 F7]. rewrite (inv_count _ _ _ a I2 F4), F6, F5; [lia|]. rewrite in_hand_at, F5, F7. lia. }
  destruct (go_alone _ _ _ _ G3 a) as (A1 & A2 & A3); [rewrite in_hand_at, (fr_base _ _ _ Hfr); lia|apply Hfr2|done|].
  split; [done|]. split; [eapply goes_trans; [exact G2|]; by eapply goes_less; [exact I2|apply in_hand_le|]|].
  split; [apply (fresh_of base sbase); [done|done|apply Hfr]|]. intros Hr0 Hheld. rewrite <- R5, <- Hby by (done || lia).
  apply list_fmap_ext. intros x n [-> ?]%lookup_seq. apply A3. unfold in_page. lia.
Qed.
Lemma absent_ok base sbase s i va d : vm_inv base sbase s -> used (space s i) = true -> Q i || busy (space s i) = true -> pagetable i va s <> 0 ->
  d = descr s i (vpn va) -> has d PDT_RESIDENT = false -> has d DESC_SW_NONE = false -> has d DESC_SW_LAZY || has d DESC_SW_SWAP = true ->
  let '(_, s') := fault_absent others patience (pagetable i va s) (PAGE_INDEX va) d s in vm_inv base sbase s' /\ goes Q base s s'.
Proof using Hothers.
  intros Hi Hu Hq Hpt Ed Hres Hnone Hkind. pose proof (inv_base _ _ _ Hi) as Hb. destruct (pagetable_some _ _ _ _ _ Hi Hu Hpt) as (Hva & Hpl & Ei & _).
  pose proof (inv_wf _ _ _ Hi i _ Hpl) as Hwf. rewrite <- Ed in Hwf. clear Ed. set (pt := pagetable i va s) in *.
  assert (Hnp : desc_has_page d = false) by (unfold desc_has_page; by rewrite Hres, Hnone).
  assert (Hdo : desc_owned d = true) by (unfold desc_owned; by rewrite !has_mask_or, Hres, Hnone).
  assert (Hpr : desc_prot d = if has d DESC_WP then 0 else VM_WRITE) by (unfold desc_prot; by rewrite Hdo, Hres, Hnone).
  unfold fault_absent. set (w1 := if has d DESC_SW_SWAP then _ else _).
  assert (Hw1 : vm_inv base sbase (snd w1) /\ goes Q base s (snd w1)).
  { unfold w1. destruct (has d DESC_SW_SWAP); [|split; [done|apply goes_refl]]. pose proof (wait_ok base sbase patience (slot_of d) s Hi) as Hw. by destruct (swap_wait_idle _ _ _ _). }
  clearbody w1. destruct w1 as [idle s0]. cbn [snd] in Hw1. destruct Hw1 as [I0 G0]. destruct idle; cbn [negb]; [|done].
  pose proof (alloc_user_ok base sbase s0 I0) as Ha. destruct (page_alloc_user others s0) as [a s1]. destruct Ha as [G1 Ha].
  assert (G01 : goes Q base s s1) by (by eapply goes_trans). clear G0 G1. destruct Ha as [[-> I1]|(Hne & I1 & Hfr & Hzero)]; [done|].
  rewrite (proj2 (Z.eqb_neq a 0)) by done. destruct (Z.eqb_spec (word s1 pt (PAGE_INDEX va)) d) as [Ewd|]; cbn [negb]; [|by apply give_back].
  destruct (goes_kept _ _ _ i G01 Hu Hq) as (Hu1 & Hq1 & Ht1). specialize (Ht1 va Hpt). fold pt in Ht1.
  assert (Hpt1 : pagetable i va s1 <> 0) by (by rewrite Ht1). destruct (pagetable_some _ _ _ _ _ I1 Hu1 Hpt1) as (_ & _ & _ & Ew1). specialize (Ew1 ltac:(done)). rewrite Ht1, Ewd in Ew1.
  set (fl := Z.lor VM_USER (if has d DESC_WP then 0 else VM_WRITE)). destruct (page_bits_facts fl) as (B1 & B2 & B3 & B4 & B5 & B6 & B7 & B8 & B9).
  assert (Hl : low_bits a (Z.lor (page_bits fl) DESC_USED) (Z.lor (Z.lor a (page_bits fl)) DESC_USED)).
  { rewrite <- Z.lor_assoc. apply low_bits_of; [|done]. split; apply Hfr. }
  destruct (low_facts _ _ _ Hl) as (F1 & F2 & F3 & F4 & F5 & F6 & F7). set (b := Z.lor (page_bits fl) DESC_USED) in *. set (d' := Z.lor (Z.lor a (page_bits fl)) DESC_USED) in *.
  assert (Hvd' : forall st : vm, pg_foreign (mm st) a = false -> view_of st d' = Some (desc_prot d, Own (page_bytes a 4096 (mm st)))).
  { intros st Hf. rewrite bytes_view; rewrite ?F1, ?F2, ?F4, ?(lb_page _ _ _ Hl), ?B7; try done; [|unfold fl; by destruct (has d DESC_WP)].
    do 2 f_equal. rewrite F3, B8, Hpr. unfold fl. by destruct (has d DESC_WP). }
  destruct (has d DESC_SW_SWAP) eqn:Esw.
  - assert (Hin : in_swap d = true) by (unfold in_swap; by rewrite Hnp, Esw).
    pose proof (swap_in_ok base sbase s1 a (slot_of d) I1 Hb Hfr) as Hs2. destruct (swap_in others (slot_of d) a s1) as [err s2]. destruct Hs2 as (I2 & G2 & Hfr2 & Hby).
    destruct (Z.ltb_spec err 0) as [|Herr]; [apply give_back; [done|done|by eapply goes_trans]|].
    destruct (Z.eqb_spec (word s2 pt (PAGE_INDEX va)) d) as [Ewd2|]; cbn [negb]; [|apply give_back; [done|done|by eapply goes_trans]].
    destruct (goes_kept _ _ _ i G2 Hu1 Hq1) as (Hu2 & Hq2 & Ht2). specialize (Ht2 va Hpt1). rewrite Ht1 in Ht2.
    assert (Hpt2 : pagetable i va s2 <> 0) by (by rewrite Ht2). destruct (pagetable_some _ _ _ _ _ I2 Hu2 Hpt2) as (_ & _ & _ & Ew2). specialize (Ew2 ltac:(done)). rewrite Ht2, Ewd2 in Ew2.
    assert (Hheld : 0 < sl_held (sw s1) (slot_of d)).
    { pose proof (inv_slot _ _ _ I1 i _ Hpl) as Hx. rewrite Ew1 in Hx. specialize (Hx Hin). pose proof (inv_sbase _ _ _ I1 (slot_of d)). lia. }
    set (f := fun t : vm_stats => t <| faults_swapin := u32 (faults_swapin t + 1) |>). set (s3 := count_stat f (s2 <| sw := sl_free (slot_of d) (sw s2) |>)).
    destruct (trade_page Q base sbase s2 s3 i va a b d' I2 Hb Hu2 Hpt2 ltac:(by rewrite Ew2) Hfr2 Hl B3 B2 (or_introl B4)) as (I4 & A4 & K4 & N4 & C4 & _); [done|done| |].
    { rewrite Ew2. intros Hm. apply (let_slot_go _ Q (in_hand a base) sbase) in Hm as [M1 M2]; [|apply (inv_sbase _ _ _ I2)|done].
      destruct (count_ok _ _ _ _ f M1) as [M3 M4]. split; [exact M3|]. exact (still_trans _ _ _ _ _ M2 M4). }
    rewrite Ht2 in I4, A4, K4, N4, C4. set (s4 := set_word pt (PAGE_INDEX va) d' s3) in *.
    split; [done|]. eapply goes_trans; [exact G01|]. constructor; [|eapply alone_trans; [apply G2|done]].
    constructor; [eapply kept_trans; [apply G2|exact K4]| |].
    { intros j w Hj Huj Hqj. destruct (ke_used _ _ _ (cm_kept _ _ _ (go_calm _ _ _ _ G2)) j Huj Hqj) as [U1 U2]. rewrite <- (cm_none _ _ _ (go_calm _ _ _ _ G2) j w Hj Huj Hqj). rewrite <- U2 in Hqj. by apply N4. }
    intros Hlost.
    assert (Hc4 : Q i || busy (space s2 i) = true -> lost s2 = lost s1 -> view_of s2 d' = sees s2 i (vpn va)).
    { intros _ Hl2. rewrite Hvd' by apply Hfr2. rewrite (cm_view _ _ _ (go_calm _ _ _ _ G2) Hl2 i (vpn va) Hpl Hu1 Hq1). unfold VMINV.sees, view_of. rewrite Ew1, Hdo, Hnp. cbn [negb].
      destruct Hwf as (_ & _ & Hx). destruct (has d DESC_SW_LAZY); [by rewrite Hx in Esw|]. by rewrite (Hby Herr Hheld). }
    assert (Hl2 : lost s2 = lost s1) by (pose proof (ke_lost _ _ _ K4); pose proof (ke_lost _ _ _ (cm_kept _ _ _ (go_calm _ _ _ _ G2))); lia).
    apply (cm_view _ _ _ (calm_trans Q s1 s2 s4 (go_calm _ _ _ _ G2) (C4 (fun Hqq => Hc4 Hqq Hl2))) Hlost).
  - assert (Hlz : has d DESC_SW_LAZY = true) by (by rewrite orb_false_r in Hkind).
    assert (Hn : holds_none d) by (split; [done|unfold in_swap; by rewrite Esw, andb_false_r]).
    set (s2 := count_stat (fun t => t <| faults_zero := u32 (faults_zero t + 1) |>) s1).
    destruct (count_ok None _ _ s1 (fun t => t <| faults_zero := u32 (faults_zero t + 1) |>) I1) as [I2 S2]. fold s2 in I2, S2.
    assert (Ht2 : pagetable i va s2 = pt) by (by rewrite (sl_tabs _ _ _ _ S2)). assert (Ew2 : descr s2 i (vpn va) = d) by (by rewrite (sl_descr _ _ _ _ S2)).
    assert (Hfr2 : fresh s2 base a) by (destruct Hfr as [R1 R2 R3 R4 R5 R6 R7]; constructor; try done; by rewrite (still_cnt _ _ _ _ _ S2)).
    destruct (put_fresh (X := None) (X' := None) base sbase s2 i va a b d' I2 (masks_none _) Hu1 ltac:(by rewrite Ht2) ltac:(by rewrite Ew2) Hb Hfr2 Hl B3 B2 (or_introl B4)) as [I3 D3].
    rewrite Ht2 in I3, D3. set (s3 := set_word pt (PAGE_INDEX va) d' s2) in *. split; [done|]. eapply goes_trans; [exact G01|].
    eapply goes_trans; [eapply goes_less; [exact I1|apply in_hand_le|apply still_goes, S2]|].
    constructor; [|eapply alone_less; [exact I2|apply in_hand_le|by eapply set_alone]].
    eapply set_calm; [exact I2|apply masks_none|exact Hpl|exact D3|done|done|apply calm_refl| |].
    { intros _ _. unfold VMINV.sees. by rewrite !view_none, Ew2, Hdo, F1, B6. }
    intros _ _ _. rewrite Hvd' by apply Hfr2. unfold VMINV.sees, view_of.
    rewrite Ew2, Hdo, Hnp, Hlz. cbn [negb]. change (mm s2) with (mm s1). by rewrite Hzero.
Qed.
Lemma fault_ok base sbase s i va write : vm_inv base sbase s -> used (space s i) = true -> Q i || busy (space s i) = true ->
  let '(_, s') := vm_fault others patience i va write s in vm_inv base sbase s' /\ goes Q base s s'.
Proof using Hothers.
  intros Hi Hu Hq. unfold vm_fault. assert (Hno : forall r : option Z, let '(_, s') := (r, s) in vm_inv base sbase s' /\ goes Q base s s') by (intros _; split; [done|apply goes_refl]).
  destruct (Z.eqb_spec (pagetable i va s) 0) as [|Hpt]; [exact (Hno None)|]. destruct (pagetable_some _ _ _ _ _ Hi Hu Hpt) as (_ & _ & _ & Ew). specialize (Ew ltac:(done)).
  destruct (has (word _ _ _) PDT_RESIDENT) eqn:Hres.
  - destruct (has (word _ _ _) DESC_SUPER); [exact (Hno None)|]. destruct (negb write || _) eqn:Ew1; [exact (Hno None)|]. destruct (has (word _ _ _) DESC_SW_COW) eqn:Ec; cbn [negb]; [|exact (Hno None)].
    apply orb_false_iff in Ew1 as [_ Hwp%negb_false_iff]. by apply cow_split.
  - destruct (has _ DESC_SW_NONE || _) eqn:Ek; [exact (Hno None)|]. destruct (write && _); [exact (Hno None)|]. apply orb_false_iff in Ek as [Hn Hk%negb_false_iff].
    rewrite has_mask_or in Hk. by apply absent_ok.
Qed.
End calls.
End VMFAULT.
