(* ===== verification/Vmcalls.v ===== *)
(** * Address spaces: the calls (kernel/vm.c)

    Mapping, protecting, moving and unmapping pages, and the heap: each keeps
    the invariant, changes what is seen where it is asked to, and nothing
    else. *)

From S2P Require Import Prelude Pmm Pages Swap Vm Vmtab Vminv Vmdesc Vmstep Vmput Vmfault.
Local Open Scope Z_scope.

Module VMCALLS.
Import VM VMTAB VMINV VMDESC VMSTEP VMPUT VMPLAIN VMFAULT.

Section calls.
Context {W S T : Type} `{TextCache T W} `{SwapSlots S}.
#[local] Abbreviation vm := (@vm W S T).

(** A call that changes what is seen at the pages in [P] of one space only. *)
Record only_at (Q : nat -> bool) (base : Z -> Z) (i : nat) (P : Z -> Prop) (s s' : vm) : Prop := {
  oa_kept : kept Q s s';
  oa_alone : alone base s s';
  oa_none : forall j w, place j w -> used (space s j) = true -> Q j || busy (space s j) = true ->
    ~ (j = i /\ P w) -> (sees s' j w = None <-> sees s j w = None);
  oa_sees : lost s' = lost s -> forall j w, place j w -> used (space s j) = true -> Q j || busy (space s j) = true ->
    ~ (j = i /\ P w) -> sees s' j w = sees s j w }.
Lemma goes_only Q base i P s s' : goes Q base s s' -> only_at Q base i P s s'.
Proof. intros [[K N V] A]. constructor; [done|done|intros j w Hp Hu Hq _; by apply N|]. intros Hl j w Hp Hu Hq _. by apply V. Qed.
Lemma only_at_trans Q base i P s1 s2 s3 : only_at Q base i P s1 s2 -> only_at Q base i P s2 s3 -> only_at Q base i P s1 s3.
Proof.
  intros [K1 A1 N1 V1] [K2 A2 N2 V2]. constructor; [by eapply kept_trans|by eapply alone_trans| |].
  { intros j w Hp Hu Hq Hn. destruct (ke_used _ _ _ K1 j Hu Hq) as [U1 U2]. rewrite <- (N1 j w Hp Hu Hq Hn). rewrite <- U2 in Hq. by apply N2. } pose proof (ke_lost _ _ _ K1). pose proof (ke_lost _ _ _ K2).
  intros Hl j w Hp Hu Hq Hn. destruct (ke_used _ _ _ K1 j Hu Hq) as [U1 U2]. rewrite <- (V1 ltac:(lia) j w Hp Hu Hq Hn).
  rewrite <- U2 in Hq. apply V2; [lia|done|done|done|done].
Qed.
Lemma only_at_less Q base base' sbase i P s s' : vm_inv base' sbase s -> (forall a, base a <= base' a) -> only_at Q base' i P s s' -> only_at Q base i P s s'.
Proof. intros Hi Hle [K A N V]. constructor; [done|by eapply alone_less|done|done]. Qed.
Lemma only_at_more Q base i (P P' : Z -> Prop) s s' : (forall v, P v -> P' v) -> only_at Q base i P s s' -> only_at Q base i P' s s'.
Proof. intros HP [K A N V]. constructor; [done|done|intros j w Hp Hu Hq Hn; apply N; naive_solver|]. intros Hl j w Hp Hu Hq Hn. apply V; try done. naive_solver. Qed.
Lemma set_only Q base sbase s s' i v d' : vm_inv base sbase s -> set_done (X := None) (X' := None) base s s' i v d' -> spaces s' = spaces s -> lost s' = lost s ->
  only_at Q base i (eq v) s s'.
Proof.
  intros Hi Hd Hsp Hl. constructor; [by apply (set_kept Q _ _ _ _ _ _ _ Hi Hd)|by eapply set_alone| |].
  - intros j w Hp Hu Hq Hn. rewrite (se_sees _ _ _ _ _ _ Hd); [done|done|]. intros [= -> ->]. by apply Hn.
  - intros _ j w Hp Hu Hq Hn. apply (se_sees _ _ _ _ _ _ Hd); [done|]. intros [= -> ->]. by apply Hn.
Qed.
(** Nobody is disturbed who does not use the space. *)
Lemma only_at_goes Q base i P s s' : only_at Q base i P s s' -> Q i = false -> busy (space s i) = false -> goes Q base s s'.
Proof.
  intros [K A N V] Hq Hb. assert (Hx : forall j w, Q j || busy (space s j) = true -> ~ (j = i /\ P w)) by (intros j w Hqj [-> _]; by rewrite Hq, Hb in Hqj).
  constructor; [constructor; [done| |]|done]; auto.
Qed.

(** ** Unmapping *)

Lemma descr_out base sbase s i va : vm_inv base sbase s -> used (space s i) = true -> pagetable i va s = 0 -> user_va va -> descr s i (vpn va) = 0.
Proof.
  intros Hi Hu Ez Hva. pose proof (used_lt _ _ _ Hi i Hu) as Hlt. destruct (va_index va Hva) as (Hv & _). pose proof Hi as (Hidle & pgs & tabs & Hok). pose proof (vo_tables _ _ _ _ _ _ Hok) as Ht.
  rewrite (descr_desc pgs tabs) by done. rewrite (pagetable_tab _ _ _ _ _ _ Ht) in Ez; [|by rewrite used_live|done|done].
  unfold mdesc, desc, tdesc. rewrite decide_False by done. destruct (tabs i _) as [t|] eqn:Et; [|done]. cbn in Ez. subst t.
  destruct (to_tree _ _ _ _ Ht i) as [Htr _]; [by rewrite used_live|]. destruct (tr_block _ _ _ Htr _ _ Et). lia.
Qed.
Lemma unmap_ok Q base sbase s i va : vm_inv base sbase s -> used (space s i) = true ->
  let s' := vm_unmap i va s in
  vm_inv base sbase s' /\ only_at Q base i (eq (vpn va)) s s' /\ about (space s' i) = about (space s i) /\ (user_va va -> desc_owned (descr s' i (vpn va)) = false) /\
  (forall w, place i w -> w <> vpn va -> descr s' i w = descr s i w).
Proof.
  intros Hi Hu. unfold vm_unmap. destruct (Z.eqb_spec (pagetable i va s) 0) as [Ez|Hpt].
  { cbn zeta. split; [done|]. split; [apply goes_only, goes_refl|]. split; [done|]. split; [|done]. intros Hva. by rewrite (descr_out base sbase). }
  destruct (pagetable_some _ _ _ _ _ Hi Hu Hpt) as (Hva & Hpl & Ei & Ew). specialize (Ew ltac:(done)). rewrite <- Ew. set (d := descr s i (vpn va)) in *.
  destruct (desc_owned d) eqn:Eo; cbn [negb].
  2:{ split; [done|]. split; [apply goes_only, goes_refl|]. split; [done|]. by split. }
  pose proof (inv_base _ _ _ Hi) as Hb. pose proof (inv_sbase _ _ _ Hi) as Hsb.
  destruct (set_ok (X' := None) base sbase (mask_base base d) (mask_sbase sbase d) s i va 0 Hi (masks_none _) Hu Hpt) as [I1 D1].
  { constructor; try done.
    - intros a. unfold mask_base. pose proof (Hb a). pose proof (hold_bound a d). lia.
    - intros k. unfold mask_sbase. pose proof (Hsb k). pose proof (slot_hold_bound k d). lia.
    - intros a _. fold d. unfold mask_base. rewrite hold_0. lia.
    - intros k. fold d. unfold mask_sbase. rewrite slot_hold_0. lia. }
  set (s1 := set_word _ _ 0 s) in *. pose proof (set_only Q base sbase s s1 i _ 0 Hi D1 eq_refl eq_refl) as O1.
  destruct (desc_release_ok None Q base sbase s1 d Hb Hsb I1) as [I2 S2]. split; [done|].
  split; [eapply only_at_trans; [exact O1|]; by apply goes_only, still_goes|]. split; [apply (sl_spaces _ _ _ _ S2 i)|].
  split; [intros _; by rewrite (sl_descr _ _ _ _ S2), (se_descr _ _ _ _ _ _ D1), decide_True by done|].
  intros w Hw Hne. rewrite (sl_descr _ _ _ _ S2), (se_descr _ _ _ _ _ _ D1) by done. rewrite decide_False; [done|congruence].
Qed.

(** ** Mapping *)

Lemma map_lazy_ok Q base sbase s i va flags : vm_inv base sbase s -> used (space s i) = true -> desc_owned (descr s i (vpn va)) = false ->
  let '(r, s') := vm_map_lazy i va flags s in
  vm_inv base sbase s' /\ only_at Q base i (eq (vpn va)) s s' /\ about (space s' i) = about (space s i) /\
  (forall w, place i w -> w <> vpn va \/ r < 0 -> descr s' i w = descr s i w) /\
  (r < 0 \/
   r = 0 /\ user_va va /\ forall s2 : vm, view_of s2 (descr s' i (vpn va)) = Some (if has flags VM_NONE then VM_NONE else if has flags VM_WRITE then VM_WRITE else 0, Own (replicate 4096 0))).
Proof.
  intros Hi Hu Hno. unfold vm_map_lazy. pose proof (pages_still Q base sbase s i va Hi Hu) as Hp. destruct (as_pagetable i va true s) as [t s1].
  destruct Hp as (I1 & S1 & _ & [-> |[Hne Et]] & _).
  { cbn [Z.eqb]. split; [done|]. split; [by apply goes_only, still_goes|]. split; [apply S1|]. split; [intros w Hw _; by apply S1|by left]. }
  rewrite (proj2 (Z.eqb_neq t 0)) by done. subst t. destruct (still_used _ _ _ _ i S1) as [Hu1 _]. rewrite Hu in Hu1.
  destruct (pagetable_some _ _ _ _ _ I1 Hu1 Hne) as (Hva & Hpl & Ei & Ew).
  set (d' := if has flags VM_NONE then _ else _).
  assert (Hd' : holds_none d' /\ desc_wf d' /\ forall s2 : vm, view_of s2 d' = Some (if has flags VM_NONE then VM_NONE else if has flags VM_WRITE then VM_WRITE else 0, Own (replicate 4096 0))).
  { unfold d'. destruct (has flags VM_NONE), (has flags VM_WRITE); (split; [done|]; split; [|done]); vm_compute; intuition congruence. }
  destruct Hd' as (N1 & N2 & N3). clearbody d'.
  destruct (put_none (X := None) (X' := None) base sbase s1 i va d' I1 (masks_none _) Hu1 Hne) as [I2 D2]; [rewrite (sl_descr _ _ _ _ S1) by done; by apply not_owned_none|done|done|].
  set (s2 := set_word _ _ d' s1) in *. split; [done|]. split; [eapply only_at_trans; [by apply goes_only, still_goes|]; by apply (set_only Q base sbase s1 s2 i _ d')|].
  split; [apply (sl_spaces _ _ _ _ S1 i)|]. split.
  - intros w Hw [Hnw|]; [|done]. rewrite (se_descr _ _ _ _ _ _ D2), decide_False by (done || congruence). by apply S1.
  - right. split; [done|]. split; [done|]. intros s3. by rewrite (se_descr _ _ _ _ _ _ D2), decide_True.
Qed.

Section sleeping.
Context (others : nat -> vm -> vm) (patience : nat) (Q : nat -> bool) (Hothers : forall n, tame Q (others n)).

(** A page that may be put at a place where there is none: a device's, one
    only the caller has, or one of the cache's that will not be written. *)
Definition mappable (s : vm) (base : Z -> Z) (pa flags : Z) : Prop :=
  is_page pa /\ (pg_foreign (mm s) pa = true \/ fresh s base pa \/ (0 < tc_held (tc s) pa /\ (has flags VM_WRITE = false \/ has flags VM_SHARED = true))).
Lemma page_bits_desc pa fl : is_page pa -> let b := page_bits (Z.lor fl VM_USER) in
  low_bits pa b (Z.lor (Z.land pa PAGE_ADDR_MASK) b) /\ desc_wf b /\ desc_owned b = true /\ desc_has_page b = true /\ has b DESC_SW_COW = false /\
  has b DESC_SW_SHARED = has fl VM_SHARED /\ desc_prot b = (if has fl VM_WRITE then VM_WRITE else 0) /\ own_write b = has fl VM_WRITE && negb (has fl VM_SHARED).
Proof using Type.
  intros Hp b. assert (Hb : 0 <= b < 4096 /\ desc_wf b /\ desc_owned b = true /\ desc_has_page b = true /\ has b DESC_SW_COW = false /\
    has b DESC_SW_SHARED = has fl VM_SHARED /\ desc_prot b = (if has fl VM_WRITE then VM_WRITE else 0) /\ own_write b = has fl VM_WRITE && negb (has fl VM_SHARED)).
  { unfold b, page_bits. rewrite !has_or. change (has VM_USER VM_SHARED) with false. change (has VM_USER VM_WRITE) with false. change (has VM_USER VM_USER) with true. change (has VM_USER VM_NOCACHE) with false.
    rewrite !orb_false_r, !orb_true_r. destruct (has fl VM_SHARED), (has fl VM_WRITE), (has fl VM_NOCACHE); vm_compute; intuition congruence. }
  destruct Hb as (B1 & Hb). split; [|done]. replace (Z.land pa PAGE_ADDR_MASK) with pa; [by apply low_bits_of|].
  destruct Hp as [Hu Hm]. change PAGE_ADDR_MASK with (4294967296 - 2 ^ 12). rewrite land_high by done. change (2 ^ 12) with 4096. lia.
Qed.
(** A page given to a place where nothing was. *)
Lemma put_given base sbase s i va pa flags : (forall x, 0 <= base x) -> vm_inv (in_hand pa base) sbase s -> used (space s i) = true -> pagetable i va s <> 0 ->
  holds_none (descr s i (vpn va)) -> mappable s base pa flags ->
  let d' := Z.lor (Z.land pa PAGE_ADDR_MASK) (page_bits (Z.lor flags VM_USER)) in
  let s' := set_word (pagetable i va s) (PAGE_INDEX va) d' s in
  vm_inv base sbase s' /\ set_done (X := None) (X' := None) (in_hand pa base) s s' i (vpn va) d' /\ desc_owned d' = true /\ page_of d' = pa /\ desc_has_page d' = true.
Proof using Type.
  intros Hb Hi Hu Hpt Hn [Hpg Hmap] d' s'. destruct (page_bits_desc pa flags Hpg) as (Hl & B2 & B3 & B4 & B5 & B6 & B7 & B8). fold d' in Hl.
  destruct (low_facts _ _ _ Hl) as (F1 & F2 & F3 & F4 & F5 & F6 & F7). assert (Hp' : desc_has_page d' = true) by (by rewrite F2).
  rewrite F1, F2, (lb_page _ _ _ Hl). enough (G : vm_inv base sbase s' /\ set_done (X := None) (X' := None) (in_hand pa base) s s' i (vpn va) d') by (destruct G; done).
  destruct (pagetable_some _ _ _ _ _ Hi Hu Hpt) as (_ & Hpl & _). apply (set_ok (in_hand pa base) sbase base sbase); [done|apply masks_none|done|done|]. constructor.
  - by apply (low_wf _ _ _ Hl).
  - done.
  - apply (inv_sbase _ _ _ Hi).
  - intros x _. rewrite (holds_none_hold _ x Hn). unfold hold. rewrite Hp', (lb_page _ _ _ Hl). cbn [andb]. unfold in_hand. rewrite (Z.eqb_sym pa x). lia.
  - intros k. rewrite (holds_none_slot _ k Hn). unfold slot_hold, in_swap. by rewrite Hp'.
  - unfold cow_ok. rewrite (lb_has _ _ _ Hl DESC_SW_COW), B5 by done. done.
  - rewrite (lb_page _ _ _ Hl), F7, B8. intros _ Hf. destruct Hmap as [Hf'|[Hfr|[Htc Hw]]]; [congruence| |].
    + split; [intros _; rewrite (holds_none_hold _ pa Hn); split; apply Hfr|]. intros j w Hj _ Ho E. pose proof (cnt_le s j w Hj (own_write_page _ Ho)) as Hc.
      rewrite E, (fr_cnt _ _ _ Hfr) in Hc. lia.
    + split; [destruct Hw as [-> | ->]; [done|by rewrite andb_false_r]|]. intros j w Hj _ Ho E. destruct (inv_own _ _ _ Hi j w Hj Ho) as [_ X2]; [by rewrite E|]. rewrite E in X2. lia.
Qed.
Lemma still_fresh base (s s' : vm) a : still Q base s s' -> tc s' = tc s -> fresh s base a -> fresh s' base a.
Proof using Type.
  intros Hs Et [F1 F2 F3 F4 F5 F6 F7]. constructor; try done; [by rewrite (sl_foreign _ _ _ _ Hs)|by rewrite (still_cnt _ _ _ _ _ Hs)|by rewrite Et].
Qed.
Lemma still_mappable base (s s' : vm) pa fl : still Q base s s' -> tc s' = tc s -> mappable s base pa fl -> mappable s' base pa fl.
Proof using Type.
  intros Hs Et [Hp Hm]. split; [done|]. rewrite (sl_foreign _ _ _ _ Hs), Et. destruct Hm as [Hm|[Hm|Hm]]; [by left| |by right; right].
  right. left. by eapply still_fresh.
Qed.
(** [vm_map] with the caller's page: it takes the page over if it succeeds. *)
Lemma map_given_ok base sbase s i va pa flags : (forall x, 0 <= base x) -> vm_inv (in_hand pa base) sbase s -> used (space s i) = true -> pa <> 0 ->
  desc_owned (descr s i (vpn va)) = false -> mappable s base pa flags ->
  let '(r, s') := vm_map others i va pa flags s in
  (r = 0 /\ vm_inv (in_hand pa base) sbase s' /\ goes Q (in_hand pa base) s s') \/
  (r = pa /\ vm_inv base sbase s' /\ only_at Q base i (eq (vpn va)) s s' /\ user_va va /\
    sees s' i (vpn va) = view_of s' (Z.lor (Z.land pa PAGE_ADDR_MASK) (page_bits (Z.lor flags VM_USER)))).
Proof using Type.
  intros Hb Hi Hu Hpa Hno Hm. unfold vm_map. pose proof (pages_still Q _ sbase s i va Hi Hu) as Hp. destruct (as_pagetable i va true s) as [t s1].
  destruct Hp as (I1 & S1 & R1 & Hp & _). destruct Hp as [-> |[Hne Et]]; [cbn [Z.eqb]; left; split; [done|]; split; [done|by apply still_goes]|].
  rewrite (proj2 (Z.eqb_neq t 0)), (proj2 (Z.eqb_neq pa 0)) by done. cbv beta iota. rewrite (proj2 (Z.eqb_neq pa 0)) by done. right. subst t. destruct (still_used _ _ _ _ i S1) as [Hu1 _]. rewrite Hu in Hu1.
  destruct (pagetable_some _ _ _ _ _ I1 Hu1 Hne) as (Hva & Hpl & Ei & Ew). assert (Etc : tc s1 = tc s) by (by injection R1).
  assert (S1' : still Q base s s1) by (by eapply still_less; [exact Hi|apply in_hand_le|]).
  destruct (put_given base sbase s1 i va pa flags Hb I1 Hu1 Hne) as (I2 & D2 & _); [rewrite (sl_descr _ _ _ _ S1) by done; by apply not_owned_none|by apply (still_mappable base s)|].
  set (d' := Z.lor _ _) in *. set (s2 := set_word _ _ d' s1) in *. split; [done|]. split; [done|]. split; [|split; [done|]].
  - eapply only_at_trans; [by apply goes_only, still_goes|]. eapply only_at_less; [exact I1|apply in_hand_le|]. by apply (set_only Q _ sbase s1 s2 i _ d').
  - unfold VMINV.sees. by rewrite (se_descr _ _ _ _ _ _ D2), decide_True.
Qed.
Lemma goes_none base (s s' : vm) i v : goes Q base s s' -> place i v -> used (space s i) = true -> Q i || busy (space s i) = true ->
  desc_owned (descr s' i v) = desc_owned (descr s i v).
Proof using Type.
  intros [[_ N _] _] Hp Hu Hq. pose proof (N i v Hp Hu Hq) as E. unfold VMINV.sees in E. rewrite !view_none in E.
  destruct (desc_owned (descr s' i v)), (desc_owned (descr s i v)); naive_solver.
Qed.
(** [vm_map] with a new page. *)
Lemma map_new_ok base sbase s i va flags : vm_inv base sbase s -> used (space s i) = true -> Q i || busy (space s i) = true ->
  desc_owned (descr s i (vpn va)) = false ->
  let '(r, s') := vm_map others i va 0 flags s in
  vm_inv base sbase s' /\ only_at Q base i (eq (vpn va)) s s' /\
  (r <> 0 -> user_va va /\ exists c, sees s' i (vpn va) = Some (if has flags VM_WRITE then VM_WRITE else 0, c) /\ (has flags VM_SHARED = false -> c = Own (replicate 4096 0))).
Proof using Hothers.
  intros Hi Hu Hq Hno. pose proof (inv_base _ _ _ Hi) as Hb. unfold vm_map. pose proof (pages_still Q base sbase s i va Hi Hu) as Hp. destruct (as_pagetable i va true s) as [t s1].
  destruct Hp as (I1 & S1 & _ & Hp & _). destruct Hp as [-> |[Hne Et]]. { cbn [Z.eqb]. split; [done|]. split; [by apply goes_only, still_goes|done]. }
  rewrite (proj2 (Z.eqb_neq t 0)) by done. cbn [Z.eqb]. subst t. destruct (still_used _ _ _ _ i S1) as [Hu1 Hb1]. rewrite Hu in Hu1. rewrite <- Hb1 in Hq.
  destruct (pagetable_some _ _ _ _ _ I1 Hu1 Hne) as (Hva & Hpl & _).
  pose proof (alloc_user_ok others Q Hothers base sbase s1 I1) as Ha. destruct (page_alloc_user others s1) as [a s2].
  destruct Ha as [G2 Ha]. assert (G02 : goes Q base s s2) by (by eapply goes_trans; [apply still_goes|]).
  destruct Ha as [[-> I2]|(Hna & I2 & Hfr & Hz)]; [cbn [Z.eqb]; split; [done|]; split; [by apply goes_only|done]|]. rewrite (proj2 (Z.eqb_neq a 0)) by done.
  destruct (goes_kept others Q Hothers _ _ _ i G2 Hu1 Hq) as (Hu2 & Hq2 & _). pose proof (pages_still Q _ sbase s2 i va I2 Hu2) as Hp. destruct (as_pagetable i va true s2) as [t s3].
  destruct Hp as (I3 & S3 & R3 & Hp & _). assert (S3' : still Q base s2 s3) by (by eapply still_less; [exact I2|apply in_hand_le|]).
  assert (G03 : goes Q base s s3) by (by eapply goes_trans; [|apply still_goes]).
  destruct Hp as [-> |[Hne3 Et3]].
  { cbn [Z.eqb]. destruct (give_back others Q Hothers base sbase s s3 a Hb I3 G03) as [I4 G4]. split; [done|]. split; [by apply goes_only|done]. }
  rewrite (proj2 (Z.eqb_neq t 0)) by done. cbv beta iota. rewrite (proj2 (Z.eqb_neq a 0)) by done. subst t. assert (Etc : tc s3 = tc s2) by (by injection R3).
  destruct (still_used _ _ _ _ i S3) as [Hu3 _]. rewrite Hu2 in Hu3. pose proof (still_fresh base s2 s3 a S3' Etc Hfr) as Hfr3.
  assert (Hno3 : desc_owned (descr s3 i (vpn va)) = false).
  { rewrite (sl_descr _ _ _ _ S3) by done. rewrite (goes_none base s1 s2 i (vpn va) G2 Hpl Hu1 Hq). by rewrite (sl_descr _ _ _ _ S1). }
  destruct (put_given base sbase s3 i va a flags Hb I3 Hu3 Hne3 (not_owned_none _ Hno3)) as (I4 & D4 & E1 & E2 & E3). { split; [split; apply Hfr3|]. right. by left. }
  destruct (page_bits_desc a flags) as (Hl & _ & _ & _ & _ & B6 & B7 & _); [split; apply Hfr3|]. destruct (low_facts _ _ _ Hl) as (F1 & F2 & F3 & F4 & _).
  set (d' := Z.lor _ _) in *. set (s4 := set_word _ _ d' s3) in *. split; [done|]. split.
  { eapply only_at_trans; [by apply goes_only|]. eapply only_at_less; [exact I3|apply in_hand_le|]. by apply (set_only Q _ sbase s3 s4 i _ d'). }
  intros _. split; [done|]. unfold VMINV.sees. rewrite (se_descr _ _ _ _ _ _ D4), decide_True, (se_view _ _ _ _ _ _ D4) by done. unfold view_of. rewrite E1, E3, E2, F3, B7. cbn [negb].
  eexists. split; [reflexivity|]. rewrite F4, B6. intros ->. rewrite (fr_mine _ _ _ Hfr3). cbn [orb]. f_equal. rewrite <- Hz. apply list_fmap_ext. intros x n [-> ?]%lookup_seq.
  assert (Hh : pg_held (mm s2) a = in_hand a base a).
  { rewrite (inv_count _ _ _ a I2 (fr_mine _ _ _ Hfr)), (fr_cnt _ _ _ Hfr), (fr_tc _ _ _ Hfr); [lia|]. rewrite in_hand_at, (fr_cnt _ _ _ Hfr), (fr_base _ _ _ Hfr). lia. }
  destruct (sl_alone _ _ _ _ S3 a) as (_ & _ & A3); [rewrite in_hand_at, (fr_base _ _ _ Hfr); lia|apply Hfr|done|]. apply A3. unfold in_page. lia.
Qed.

(** ** Protecting *)

Definition prot_of (flags : Z) : Z := if has flags VM_NONE then VM_NONE else if has flags VM_WRITE then VM_WRITE else 0.
Definition fin_desc (pa flags : Z) : Z :=
  if has flags VM_NONE then Z.lor (Z.lor pa DESC_SW_NONE) (if has flags VM_SHARED then DESC_SW_SHARED else 0) else Z.lor pa (page_bits (Z.lor flags VM_USER)).
Lemma fin_desc_facts pa fl : is_page pa -> exists b, low_bits pa b (fin_desc pa fl) /\ desc_wf b /\ desc_owned b = true /\ desc_has_page b = true /\
  (has b DESC_SW_COW = false \/ has b PDT_RESIDENT = false) /\ has b DESC_SW_SHARED = has fl VM_SHARED /\ desc_prot b = prot_of fl /\
  own_write b = has fl VM_WRITE && negb (has fl VM_NONE) && negb (has fl VM_SHARED).
Proof using Type.
  intros Hp. unfold fin_desc, prot_of. destruct (has fl VM_NONE).
  - exists (Z.lor DESC_SW_NONE (if has fl VM_SHARED then DESC_SW_SHARED else 0)). rewrite <- Z.lor_assoc.
    split; [apply low_bits_of; [done|by destruct (has fl VM_SHARED)]|]. rewrite andb_false_r. destruct (has fl VM_SHARED); vm_compute; intuition congruence.
  - destruct (page_bits_desc pa fl Hp) as (Hl & B2 & B3 & B4 & B5 & B6 & B7 & B8). exists (page_bits (Z.lor fl VM_USER)). rewrite andb_true_r.
    split; [|do 3 (split; [done|]); split; [by left|done]]. destruct Hp as [Hu Hm]. replace (Z.land pa PAGE_ADDR_MASK) with pa in Hl; [done|].
    change PAGE_ADDR_MASK with (4294967296 - 2 ^ 12). rewrite land_high by done. change (2 ^ 12) with 4096. lia.
Qed.
Definition absent_desc (d flags : Z) : Z :=
  let nd := Z.land d (not32 (Z.lor DESC_WP DESC_SW_NONE)) in
  let nd := if has flags VM_WRITE then nd else Z.lor nd DESC_WP in if has flags VM_NONE then Z.lor nd DESC_SW_NONE else nd.
Lemma absent_desc_facts d fl : desc_wf d -> desc_owned d = true -> desc_has_page d = false -> let d' := absent_desc d fl in
  is_u32 d' /\ slot_of d' = slot_of d /\ has d' PDT_RESIDENT = false /\ has d' DESC_SW_LAZY = has d DESC_SW_LAZY /\ has d' DESC_SW_SWAP = has d DESC_SW_SWAP /\
  desc_has_page d' = false /\ desc_owned d' = true /\ desc_prot d' = prot_of fl /\ desc_wf d'.
Proof using Type.
  intros (Hu & Hw1 & Hw2) Ho Hp. unfold desc_owned, desc_has_page in Ho, Hp. rewrite !has_mask_or in Ho. rewrite !has_mask_or in Hp.
  destruct (clear_low d (Z.lor DESC_WP DESC_SW_NONE) Hu ltac:(done)) as (C1 & _ & C3 & C4). unfold absent_desc. set (n0 := Z.land d _) in *.
  assert (N0 : has n0 PDT_RESIDENT = false /\ has n0 DESC_SW_LAZY = has d DESC_SW_LAZY /\ has n0 DESC_SW_SWAP = has d DESC_SW_SWAP /\ has n0 DESC_WP = false /\ has n0 DESC_SW_NONE = false).
  { rewrite (C4 PDT_RESIDENT), (C4 DESC_SW_LAZY), (C4 DESC_SW_SWAP) by done. unfold n0. rewrite !has_clear. change (Z.land (not32 (Z.lor DESC_WP DESC_SW_NONE)) DESC_WP) with 0. change (Z.land (not32 (Z.lor DESC_WP DESC_SW_NONE)) DESC_SW_NONE) with 0.
    assert (Hm0 : has d 0 = false) by (unfold has; by rewrite Z.land_0_r). rewrite Hm0. destruct (has d PDT_RESIDENT); done. }
  clearbody n0. destruct N0 as (N1 & N2 & N3 & N4 & N5).
  set (d' := if has fl VM_NONE then _ else _). assert (Hx : is_u32 d' /\ slot_of d' = slot_of d /\ forall m, has d' m = has n0 m || (negb (has fl VM_WRITE) && has DESC_WP m) || (has fl VM_NONE && has DESC_SW_NONE m)).
  { unfold d'. destruct (has fl VM_WRITE), (has fl VM_NONE); cbn [negb andb].
    - destruct (set_low n0 DESC_SW_NONE C1 ltac:(done)) as (L1 & _ & L3 & L4). split; [done|]. split; [by rewrite L3|]. intros m. rewrite L4. by rewrite orb_false_r.
    - split; [done|]. split; [done|]. intros m. by rewrite !orb_false_r.
    - destruct (set_low n0 DESC_WP C1 ltac:(done)) as (L1 & _ & L3 & L4). destruct (set_low _ DESC_SW_NONE L1 ltac:(done)) as (M1 & _ & M3 & M4).
      split; [done|]. split; [by rewrite M3, L3|]. intros m. by rewrite M4, L4.
    - destruct (set_low n0 DESC_WP C1 ltac:(done)) as (L1 & _ & L3 & L4). split; [done|]. split; [by rewrite L3|]. intros m. rewrite L4. by rewrite orb_false_r. }
  destruct Hx as (X1 & X2 & X3). clearbody d'. split; [done|]. split; [done|].
  assert (Hr : has d' PDT_RESIDENT = false) by (rewrite X3, N1; by destruct (has fl VM_WRITE), (has fl VM_NONE)).
  assert (Hz : has d' DESC_SW_LAZY = has d DESC_SW_LAZY) by (rewrite X3, N2; by destruct (has fl VM_WRITE), (has fl VM_NONE), (has d DESC_SW_LAZY)).
  assert (Hs : has d' DESC_SW_SWAP = has d DESC_SW_SWAP) by (rewrite X3, N3; by destruct (has fl VM_WRITE), (has fl VM_NONE), (has d DESC_SW_SWAP)).
  assert (Hn : has d' DESC_SW_NONE = has fl VM_NONE) by (rewrite X3, N5; by destruct (has fl VM_WRITE), (has fl VM_NONE)).
  assert (Hwp : has d' DESC_WP = negb (has fl VM_WRITE)) by (rewrite X3, N4; by destruct (has fl VM_WRITE), (has fl VM_NONE)).
  assert (Hls : has d DESC_SW_LAZY || has d DESC_SW_SWAP = true) by (revert Ho Hp; by destruct (has d PDT_RESIDENT), (has d DESC_SW_NONE), (has d DESC_SW_LAZY), (has d DESC_SW_SWAP)).
  assert (Ho' : desc_owned d' = true) by (unfold desc_owned; rewrite !has_mask_or, Hz, Hs; revert Hls; destruct (has d DESC_SW_LAZY), (has d DESC_SW_SWAP), (has d' DESC_SW_NONE), (has d' PDT_RESIDENT); done).
  split; [done|]. split; [done|]. split; [done|]. split; [unfold desc_has_page; rewrite Hr, has_mask_or, Hz, Hs, Hls; by rewrite andb_false_r|]. split; [done|]. split.
  - unfold desc_prot, prot_of. rewrite Ho', Hr, Hn, Hwp. by destruct (has fl VM_NONE), (has fl VM_WRITE).
  - split; [done|]. rewrite Hr, Hz, Hs. by split.
Qed.
(** What is seen has the new protection, and is otherwise the same. *)
Definition reprot (flags : Z) (v v' : option (Z * content)) : Prop := exists p c, v = Some (p, c) /\ v' = Some (prot_of flags, c).
Lemma reprot_same base sbase s i va flags : vm_inv base sbase s -> used (space s i) = true -> pagetable i va s <> 0 ->
  let d := descr s i (vpn va) in
  desc_has_page d = true -> has flags VM_SHARED = has d DESC_SW_SHARED ->
  (has flags VM_WRITE && negb (has flags VM_NONE) && negb (has flags VM_SHARED) = true -> pg_foreign (mm s) (page_of d) = false -> cnt s (page_of d) = 1 /\ tc_held (tc s) (page_of d) = 0) ->
  let s' := set_word (pagetable i va s) (PAGE_INDEX va) (fin_desc (page_of d) flags) s in
  vm_inv base sbase s' /\ only_at Q base i (eq (vpn va)) s s' /\ reprot flags (sees s i (vpn va)) (sees s' i (vpn va)).
Proof using Type.
  intros Hi Hu Hpt d Hdp Hsh Hown s'. destruct (pagetable_some _ _ _ _ _ Hi Hu Hpt) as (_ & Hpl & _).
  pose proof (inv_wf _ _ _ Hi i _ Hpl) as Hwf. fold d in Hwf. destruct (fin_desc_facts (page_of d) flags (page_of_page d (proj1 Hwf))) as (b & Hl & B2 & B3 & B4 & B5 & B6 & B7 & B8).
  destruct (low_facts _ _ _ Hl) as (F1 & F2 & F3 & F4 & F5 & F6 & F7).
  assert (Hc : cow_ok s (fin_desc (page_of d) flags)).
  { unfold cow_ok. rewrite !(lb_has _ _ _ Hl) by done. destruct B5 as [-> | ->]; done. }
  destruct (repage_ok base sbase s i va (fin_desc (page_of d) flags) Hi Hu Hpt Hdp) as [I1 D1]; [by rewrite F2|apply Hl|by apply (low_wf _ _ _ Hl)|done|by rewrite F7, B8|].
  fold s' in I1, D1. split; [done|]. split; [by apply (set_only Q base sbase s s' i _ (fin_desc (page_of d) flags))|].
  unfold reprot, VMINV.sees. rewrite (se_descr _ _ _ _ _ _ D1), decide_True, (se_view _ _ _ _ _ _ D1) by done. fold d. unfold view_of.
  rewrite F1, B3, F2, B4, F3, B7, F4, B6, (lb_page _ _ _ Hl), Hdp, Hsh. cbn [negb]. assert (Ho : desc_owned d = true).
  { unfold desc_owned, desc_has_page in *. rewrite !has_mask_or. revert Hdp. by destruct (has d PDT_RESIDENT), (has d DESC_SW_NONE). }
  rewrite Ho. cbn [negb]. eauto.
Qed.
(** One turn; [k] starts again. *)
Definition protect_turn (k : vm -> option Z * vm) (i : nat) (va flags : Z) (s : vm) : option Z * vm :=
  let pt := pagetable i va s in
  if pt =? 0 then (Some (-1), s)
  else
    let d := word s pt (PAGE_INDEX va) in
    if negb (desc_owned d) then (Some (-1), s)
    else if negb (desc_has_page d) then (Some 0, set_word pt (PAGE_INDEX va) (absent_desc d flags) s)
    else
      let pa := page_of d in
      let grant := has flags VM_WRITE && negb (has flags VM_NONE) in
      if has d DESC_SW_SHARED then
        (Some 0, set_word pt (PAGE_INDEX va) (fin_desc pa (Z.lor flags VM_SHARED)) (if grant then s <| tc := tc_dirty pa (tc s) |> else s))
      else if grant && (1 <? pg_refcount pa (mm s)) then
        let '(copy, s) := page_alloc_user others s in
        if copy =? 0 then (Some (-1), s)
        else if negb (word s pt (PAGE_INDEX va) =? d) then k (pfree copy s)
        else (Some 0, set_word pt (PAGE_INDEX va) (fin_desc copy flags) (pfree pa (page_copy copy pa s)))
      else (Some 0, set_word pt (PAGE_INDEX va) (fin_desc pa flags) s).
Lemma protect_unfold n i va flags s : vm_protect others n i va flags s =
  protect_turn (fun s => match n with O => (None, s) | Datatypes.S n' => vm_protect others n' i va flags s end) i va flags s.
Proof using Type. destruct n; reflexivity. Qed.
Definition protects (base sbase : Z -> Z) (i : nat) (va flags : Z) (k : vm -> option Z * vm) : Prop :=
  forall s, vm_inv base sbase s -> used (space s i) = true -> Q i || busy (space s i) = true ->
  let '(r, s') := k s in
  vm_inv base sbase s' /\ only_at Q base i (eq (vpn va)) s s' /\
  (r = Some 0 -> lost s' = lost s -> reprot flags (sees s i (vpn va)) (sees s' i (vpn va))).
Lemma reprot_absent base sbase s i va flags : vm_inv base sbase s -> used (space s i) = true -> pagetable i va s <> 0 ->
  let d := descr s i (vpn va) in
  desc_owned d = true -> desc_has_page d = false ->
  let s' := set_word (pagetable i va s) (PAGE_INDEX va) (absent_desc d flags) s in
  vm_inv base sbase s' /\ only_at Q base i (eq (vpn va)) s s' /\ reprot flags (sees s i (vpn va)) (sees s' i (vpn va)).
Proof using Type.
  intros Hi Hu Hpt d Ho Hp s'. destruct (pagetable_some _ _ _ _ _ Hi Hu Hpt) as (_ & Hpl & _). pose proof (inv_wf _ _ _ Hi i _ Hpl) as Hwf. fold d in Hwf.
  destruct (absent_desc_facts d flags Hwf Ho Hp) as (X1 & X2 & X3 & X4 & X5 & X6 & X7 & X8 & X9). set (d' := absent_desc d flags) in *.
  destruct (set_ok (X' := None) base sbase base sbase s i va d' Hi (masks_none _) Hu Hpt) as [I1 D1].
  { constructor; try done; [apply (inv_base _ _ _ Hi)|apply (inv_sbase _ _ _ Hi)|..].
    - intros a _. unfold hold. fold d. by rewrite Hp, X6.
    - intros k. unfold slot_hold, in_swap. fold d. by rewrite Hp, X6, X2, X5.
    - intros Hr. congruence.
    - by rewrite X6. }
  fold s' in I1, D1. split; [done|]. split; [by apply (set_only Q base sbase s s' i _ d')|]. unfold reprot, VMINV.sees.
  rewrite (se_descr _ _ _ _ _ _ D1), decide_True, (se_view _ _ _ _ _ _ D1) by done. fold d. unfold view_of. rewrite X7, X6, X8, X4, X2, Ho, Hp. cbn [negb]. eauto.
Qed.
Lemma protect_turn_ok k base sbase i va flags : has flags VM_SHARED = false -> protects base sbase i va flags k -> protects base sbase i va flags (protect_turn k i va flags).
Proof using Hothers.
  intros Hfs Hk s Hi Hu Hq. unfold protect_turn. destruct (Z.eqb_spec (pagetable i va s) 0) as [_|Hpt]; [by split; [|split; [apply goes_only, goes_refl|]]|].
  destruct (pagetable_some _ _ _ _ _ Hi Hu Hpt) as (Hva & Hpl & Ei & Ew). specialize (Ew ltac:(done)). rewrite <- Ew. set (d := descr s i (vpn va)) in *.
  destruct (desc_owned d) eqn:Eo; cbn [negb]; [|by split; [|split; [apply goes_only, goes_refl|]]].
  pose proof (inv_wf _ _ _ Hi i _ Hpl) as Hwf. fold d in Hwf. pose proof (inv_base _ _ _ Hi) as Hb.
  destruct (desc_has_page d) eqn:Ep; cbn [negb].
  2:{ destruct (reprot_absent base sbase s i va flags Hi Hu Hpt Eo Ep) as (I1 & O1 & R1). by split; [|split]. }
  destruct (has d DESC_SW_SHARED) eqn:Esh.
  { set (s1 := if _ && _ then _ else s). assert (Hs1 : vm_inv base sbase s1 /\ still Q base s s1).
    { unfold s1. destruct (_ && _); [|split; [done|apply still_refl]]. destruct (tc_dirty_spec (page_of d) (tc s) (inv_tc _ _ _ Hi)) as [T1 T2]. by apply cache_told_ok. }
    destruct Hs1 as [I1 S1]. destruct (still_used _ _ _ _ i S1) as [Hu1 _]. rewrite Hu in Hu1. pose proof (sl_tabs _ _ _ _ S1 i va Hu Hpt) as Et. pose proof (sl_descr _ _ _ _ S1 i _ Hpl) as Ed. fold d in Ed.
    destruct (reprot_same base sbase s1 i va (Z.lor flags VM_SHARED) I1 Hu1 ltac:(by rewrite Et)) as (I2 & O2 & R2); rewrite ?Ed; try done.
    - rewrite has_or, Esh. change (has VM_SHARED VM_SHARED) with true. by rewrite orb_true_r.
    - rewrite !has_or. change (has VM_SHARED VM_SHARED) with true. by rewrite !orb_true_r, andb_false_r.
    - rewrite Et, Ed in I2, O2, R2. split; [done|]. split; [eapply only_at_trans; [by apply goes_only, still_goes|done]|]. intros _ Hl. destruct R2 as (p & c & R2 & R3).
      rewrite (cm_view _ _ _ (sl_calm _ _ _ _ S1)) in R2 by (done || (unfold s1; by destruct (_ && _))). exists p, c. split; [done|]. rewrite R3. do 2 f_equal. unfold prot_of. rewrite !has_or.
      change (has VM_SHARED VM_NONE) with false. change (has VM_SHARED VM_WRITE) with false. by rewrite !orb_false_r. }
  destruct (has flags VM_WRITE && negb (has flags VM_NONE) && (1 <? pg_refcount (page_of d) (mm s))) eqn:Eg.
  2:{ destruct (reprot_same base sbase s i va flags Hi Hu Hpt Ep) as (I1 & O1 & R1); [by fold d; rewrite Hfs, Esh| |by split; [|split]]. fold d.
      rewrite Hfs, andb_true_r. intros Hgr Hf. rewrite Hgr in Eg. cbn [andb] in Eg. apply Z.ltb_ge in Eg.
      assert (Hpos : 0 < cnt s (page_of d)) by (by apply cnt_le). pose proof (Hb (page_of d)). pose proof (tc_held_nonneg _ (page_of d) (inv_tc _ _ _ Hi)).
      pose proof (inv_count _ _ _ _ Hi Hf ltac:(lia)) as Hh. rewrite (pg_refcount_spec _ _ (inv_mm _ _ _ Hi)) in Eg by lia. lia. }
  apply andb_true_iff in Eg as [Hgr Hmany%Z.ltb_lt].
  assert (Hf : pg_foreign (mm s) (page_of d) = false).
  { destruct (pg_foreign (mm s) (page_of d)) eqn:Ef; [|done]. destruct (pg_foreign_spec _ _ (inv_mm _ _ _ Hi) Ef) as (_ & E & _). lia. }
  pose proof (alloc_user_ok others Q Hothers base sbase s Hi) as Ha. destruct (page_alloc_user others s) as [a s1].
  destruct Ha as [G1 [[-> I1]|(Hne & I1 & Hfr & _)]]; [by split; [|split; [apply goes_only|]]|]. rewrite (proj2 (Z.eqb_neq a 0)) by done.
  destruct (goes_kept others Q Hothers _ _ _ i G1 Hu Hq) as (Hu1 & Hq1 & Ht1). specialize (Ht1 va Hpt).
  destruct (Z.eqb_spec (word s1 (pagetable i va s) (PAGE_INDEX va)) d) as [Ewd|]; cbn [negb].
  2:{ destruct (give_back others Q Hothers base sbase s s1 a Hb I1 G1) as [I2 G2]. destruct (goes_kept others Q Hothers _ _ _ i G2 Hu Hq) as (Hu2 & Hq2 & _).
      specialize (Hk _ I2 Hu2 Hq2). destruct (k (pfree a s1)) as [r s']. destruct Hk as (I3 & O3 & R3). split; [done|].
      split; [eapply only_at_trans; [by apply goes_only|done]|]. intros Hr Hl. pose proof (ke_lost _ _ _ (oa_kept _ _ _ _ _ _ O3)). pose proof (ke_lost _ _ _ (cm_kept _ _ _ (go_calm _ _ _ _ G2))).
      rewrite <- (cm_view _ _ _ (go_calm _ _ _ _ G2)) by (done || lia). apply R3; [done|lia]. }
  destruct (fin_desc_facts a flags) as (b & Hl & B2 & B3 & B4 & B5 & B6 & B7 & B8); [split; apply Hfr|].
  assert (Hpt1 : pagetable i va s1 <> 0) by (by rewrite Ht1). destruct (pagetable_some _ _ _ _ _ I1 Hu1 Hpt1) as (_ & _ & _ & Ew1). specialize (Ew1 ltac:(done)). rewrite Ht1, Ewd in Ew1.
  assert (Hf1 : pg_foreign (mm s1) (page_of d) = false).
  { by rewrite (ke_foreign _ _ _ (cm_kept _ _ _ (go_calm _ _ _ _ G1))). }
  pose proof (copy_out others Q Hothers base sbase s1 i va a b _ I1 Hb Hfr Hu1 Hpt1 ltac:(by rewrite Ew1) ltac:(by rewrite Ew1) ltac:(by rewrite Ew1) Hl B4 B3 B2 B5 ltac:(by rewrite B6)) as Hco.
  rewrite Ew1, Ht1 in Hco. destruct Hco as (I4 & A4 & K4 & L4 & N4 & V4 & E4). set (s4 := set_word _ _ _ _) in *. split; [done|]. split.
  - eapply only_at_trans; [by apply goes_only|]. constructor; [done|done| |].
    + intros j w Hj Huj Hqj _. by apply N4.
    + intros _ j w Hj Huj Hqj Hn. apply E4; try done. intros [= -> ->]. by apply Hn.
  - intros _ Hl4. rewrite L4 in Hl4. rewrite <- (cm_view _ _ _ (go_calm _ _ _ _ G1)) by done. rewrite V4, B7. unfold VMINV.sees. rewrite Ew1, bytes_view by done. by repeat eexists.
Qed.
Lemma protect_ok n base sbase i va flags : has flags VM_SHARED = false -> protects base sbase i va flags (vm_protect others n i va flags).
Proof using Hothers.
  intros Hfs. induction n as [|n IH]; intros s Hi Hu Hq; rewrite protect_unfold; apply protect_turn_ok; try done.
  all: intros s1 I1 U1 Q1; split; [done|]; split; [apply goes_only, goes_refl|done].
Qed.
End sleeping.

(** ** Moving *)

Lemma mask_descr (s : vm) p i v : (i, v) <> p -> VMINV.descr (X := Some p) s i v = descr s i v.
Proof. intros Hne. unfold VMINV.descr. rewrite decide_False by congruence. by rewrite decide_False. Qed.
Lemma vm_move_ok Q base sbase s i from to : vm_inv base sbase s -> used (space s i) = true -> Q i || busy (space s i) = true -> desc_owned (descr s i (vpn to)) = false ->
  let '(r, s') := vm_move i from to s in
  vm_inv base sbase s' /\ only_at Q base i (fun v => v = vpn from \/ v = vpn to) s s' /\
  (r = 1 -> sees s' i (vpn to) = sees s i (vpn from) /\ sees s' i (vpn from) = None) /\
  (r <> 1 -> only_at Q base i (fun _ => False) s s').
Proof.
  intros Hi Hu Hq Hno. unfold vm_move. pose proof (pages_still Q base sbase s i to Hi Hu) as Hp. destruct (as_pagetable i to true s) as [t s1].
  destruct Hp as (I1 & S1 & R1 & Hp & _). pose proof (still_goes _ _ _ _ S1) as G1. assert (El : lost s1 = lost s) by (by injection R1).
  destruct Hp as [-> |[Hne Et]]; [cbn [Z.eqb]; split; [done|]; split; [by apply goes_only|]; split; [done|intros _; by apply goes_only]|].
  rewrite (proj2 (Z.eqb_neq t 0)) by done. subst t. destruct (still_used _ _ _ _ i S1) as [Hu1 _]. rewrite Hu in Hu1.
  destruct (Z.eqb_spec (pagetable i from s1) 0) as [_|Hpf]; [split; [done|]; split; [by apply goes_only|]; split; [done|intros _; by apply goes_only]|].
  destruct (pagetable_some _ _ _ _ _ I1 Hu1 Hne) as (Hva & Hpl & _). destruct (pagetable_some _ _ _ _ _ I1 Hu1 Hpf) as (Hvf & Hplf & _ & Ewf). specialize (Ewf ltac:(done)).
  rewrite <- Ewf. set (d := descr s1 i (vpn from)) in *. destruct (desc_owned d) eqn:Eo; cbn [negb]; [|split; [done|]; split; [by apply goes_only|]; split; [done|intros _; by apply goes_only]].
  assert (Hno1 : desc_owned (descr s1 i (vpn to)) = false) by (by rewrite (sl_descr _ _ _ _ S1)).
  assert (Hft : (i, vpn to) <> (i, vpn from)) by (intros E; injection E as E; unfold d in Eo; rewrite <- E in Eo; congruence).
  pose proof (inv_base _ _ _ I1) as Hb. pose proof (inv_sbase _ _ _ I1) as Hsb. pose proof (mask_ok _ _ s1 i (vpn from) I1 Hplf) as Im. fold d in Im.
  destruct (set_ok (X := Some (i, vpn from)) (X' := Some (i, vpn from)) _ _ base sbase s1 i to d Im (masks_keep _ _ (not_eq_sym Hft)) Hu1 Hne) as [I2 D2].
  { pose proof (not_owned_none _ Hno1) as Hn. constructor; try done; [by apply (inv_wf _ _ _ I1)|..].
    - intros a _. rewrite mask_descr, (holds_none_hold _ a Hn) by done. lia.
    - intros k. rewrite mask_descr, (holds_none_slot _ k Hn) by done. lia.
    - by apply (inv_cow _ _ _ I1).
    - intros Hdp Hf. rewrite mask_descr, (holds_none_hold _ _ Hn) by done. pose proof (cnt_mask s1 i (vpn from) (page_of d) Hplf) as Ec. fold d in Ec. rewrite hold_page in Ec by done. split.
      + intros Ho. destruct (inv_own _ _ _ I1 i _ Hplf Ho Hf) as [O1 O2]. fold d in O1, O2. rewrite Ec, O1. by split.
      + intros j w Hj Hnj Ho E. destruct (decide ((j, w) = (i, vpn from))) as [[= -> ->]|Hnf]; [by rewrite descr_mask in Ho|]. rewrite mask_descr in Ho, E by done.
        destruct (inv_own _ _ _ I1 j w Hj Ho ltac:(by rewrite E)) as [O1 _]. rewrite E in O1.
        pose proof (tally_two (hold (page_of d)) (descr s1) i (vpn from) j w ltac:(intros; apply hold_bound) eq_refl Hplf Hj Hnf) as H12.
        fold (cnt s1 (page_of d)) in H12. fold d in H12. rewrite O1, hold_page in H12 by done. rewrite <- E, hold_page in H12 by (by apply own_write_page). lia. }
  set (s2 := set_word (pagetable i to s1) (PAGE_INDEX to) d s1) in *. assert (Hu2 : used (space s2 i) = true) by done.
  assert (Hpf2 : pagetable i from s2 = pagetable i from s1) by (by apply (se_tabs _ _ _ _ _ _ D2)).
  destruct (put_none (X := Some (i, vpn from)) (X' := None) base sbase s2 i from 0 I2 (masks_some _) Hu2 ltac:(by rewrite Hpf2)) as [I3 D3]; [by rewrite descr_mask|done|done|].
  rewrite Hpf2 in I3, D3. set (s3 := set_word (pagetable i from s1) _ 0 s2) in *.
  assert (Hsee : forall j w, place j w -> (j, w) <> (i, vpn to) -> (j, w) <> (i, vpn from) -> sees s3 j w = sees s1 j w).
  { intros j w Hj H1' H2'. rewrite (se_sees _ _ _ _ _ _ D3), (se_sees _ _ _ _ _ _ D2) by done. unfold VMINV.sees. by rewrite mask_descr. }
  assert (Hv1 : view_of s1 d = sees s1 i (vpn from)) by (unfold VMINV.sees; by fold d).
  split; [done|]. split; [|split; [|done]].
  - eapply only_at_trans; [by apply goes_only|]. constructor.
    + eapply kept_trans; [by apply (set_kept Q _ _ _ _ _ _ _ Im D2)|by apply (set_kept Q _ _ _ _ _ _ _ I2 D3)].
    + eapply alone_trans; [|exact (set_alone _ _ _ _ _ _ _ _ I2 D3)]. apply (alone_less (X := Some (i, vpn from)) _ _ _ _ _ Im); [|exact (set_alone _ _ _ _ _ _ _ _ Im D2)]. intros a. cbn beta. pose proof (hold_bound a d). lia.
    + intros j w Hj _ _ Hn. rewrite Hsee; [done|done|intros [= -> ->]; apply Hn; auto..].
    + intros _ j w Hj _ _ Hn. apply Hsee; [done|intros [= -> ->]; apply Hn; auto..].
  - intros _. split.
    + rewrite (se_sees _ _ _ _ _ _ D3) by done. unfold VMINV.sees at 1. rewrite (se_descr _ _ _ _ _ _ D2), decide_True, (se_view _ _ _ _ _ _ D2), Hv1 by done.
      by apply (cm_view _ _ _ (sl_calm _ _ _ _ S1)).
    + unfold VMINV.sees. by rewrite (se_descr _ _ _ _ _ _ D3), decide_True.
Qed.

(** ** What is kept of a space beside its tables *)

Lemma tweak_ok Q base sbase s i a' : vm_inv base sbase s -> (i < KERNEL)%nat -> links a' = links (space s i) -> used a' = used (space s i) ->
  let s' := set_space i a' s in
  vm_inv base sbase s' /\ (forall j v, place j v -> descr s' j v = descr s j v /\ sees s' j v = sees s j v) /\
  (busy a' = busy (space s i) -> goes Q base s s').
Proof.
  intros (Hidle & pgs & tabs & Hok) Hlt Hl Hu s'. pose proof (vo_tables _ _ _ _ _ _ Hok) as Ht. pose proof (to_len _ _ _ _ Ht) as Hlen.
  assert (Hsp : forall j, space s' j = if decide (j = i) then a' else space s j) by (intros j; by apply space_set).
  assert (Hlv : forall j, live s' j = live s j) by (intros j; apply live_same; [done|]; rewrite Hsp; case_decide; [by subst j|done]).
  pose proof (vo_base _ _ _ _ _ _ Hok) as Hb. pose proof (vo_sbase _ _ _ _ _ _ Hok) as Hsb.
  destruct (inv_frame (live s) pgs tabs base sbase base sbase s s' Hok) as [Hok1 Hd].
  { destruct Hok as [K1 K2 K3 K4 K5 K6 K7 K8 K9 K10 K11 K12 K13]. constructor; try done.
    - apply (to_mm _ _ _ _ Ht).
    - intros j a Ha. by apply (K6 j).
    - unfold s', set_space. cbn [spaces store]. apply length_insert.
    - intros j. rewrite Hsp. case_decide; [by subst j|done]. }
  pose proof (ok_live _ _ _ _ _ _ _ Hlv Hok1) as Hok2. pose proof (vo_tables _ _ _ _ _ _ Hok2) as Ht2.
  assert (Hde : forall j v, place j v -> descr s' j v = descr s j v).
  { intros j v Hp. rewrite (descr_desc pgs tabs s), (descr_desc pgs tabs s') by done. by apply Hd. }
  split; [split; [|by exists pgs, tabs]|]; [intros j Hj; rewrite Hsp; case_decide as Ej; [subst j; rewrite Hl, Hu|]; by apply Hidle|]. split; [intros j v Hp; split; [by apply Hde|]; unfold VMINV.sees; by rewrite Hde|]. intros Hby. constructor; [|by intros a].
  apply (calm_intro Q pgs pgs tabs tabs); [done|done|done|done|done|done| |].
  - intros j Hj. rewrite Hsp. case_decide as E; [subst j; by rewrite Hu, Hby|done].
  - intros j v Hp _ _. by rewrite Hd.
Qed.

(** ** The heap *)

Lemma descr_off (s : vm) i va : ~ user_va va -> descr s i (vpn va) = 0.
Proof.
  intros Hn. unfold VMINV.descr. rewrite decide_False by done. destruct (used (space s i)); [|done]. rewrite pagetable_out; [done|].
  unfold user_va, page_va, vpn, USER_VA_END, USER_VA_SIZE, USER_VA_BASE, PMM.PAGE_SIZE in *. intros Hu. apply Hn. Z.div_mod_to_equations. lia.
Qed.
Lemma is_mapped_owned base sbase s i va : vm_inv base sbase s -> used (space s i) = true -> vm_is_mapped i va s = desc_owned (descr s i (vpn va)).
Proof.
  intros Hi Hu. unfold vm_is_mapped. destruct (Z.eqb_spec (pagetable i va s) 0) as [E|Hne]; cbn [negb andb].
  - destruct (decide (USER_VA_BASE <= va < USER_VA_END)) as [Hva|Hn]; [by rewrite (descr_out base sbase)|by rewrite descr_off].
  - destruct (pagetable_some _ _ _ _ _ Hi Hu Hne) as (_ & _ & _ & ->); done.
Qed.
Definition zero_page (p : Z) : option (Z * content) := Some (p, Own (replicate 4096 0)).
(** The pages of [l] given back again. *)
Lemma unmap_list_ok Q base sbase i l s : vm_inv base sbase s -> used (space s i) = true ->
  let s' := foldl (fun s va => vm_unmap i va s) s l in
  vm_inv base sbase s' /\ only_at Q base i (fun v => v ∈ vpn <$> l) s s' /\ about (space s' i) = about (space s i) /\
  (forall va, va ∈ l -> user_va va -> desc_owned (descr s' i (vpn va)) = false) /\
  (forall w, place i w -> w ∉ vpn <$> l -> descr s' i w = descr s i w).
Proof.
  revert s. induction l as [|va l IH]; intros s Hi Hu; cbn [foldl]; cbn zeta.
  { split; [done|]. split; [apply goes_only, goes_refl|]. split; [done|]. split; [|done]. intros va Hva. by apply elem_of_nil in Hva. }
  destruct (unmap_ok Q base sbase s i va Hi Hu) as (I1 & O1 & A1 & N1 & D1). destruct (about_used _ _ A1) as [Hu1 _]. rewrite Hu in Hu1.
  destruct (IH _ I1 Hu1) as (I2 & O2 & A2 & N2 & D2). split; [done|]. split; [|split; [by rewrite A2|split]].
  - eapply only_at_trans; (eapply only_at_more; [|eassumption]); cbn beta; intros v; cbn [fmap list_fmap]; rewrite elem_of_cons; [by intros ->; left|by right].
  - intros va' [->|Hin]%elem_of_cons Huv; [|by apply N2]. destruct (decide (vpn va ∈ vpn <$> l)) as [(va2 & E & Hin)%list_elem_of_fmap|Hni].
    + rewrite E. apply N2; [done|]. unfold user_va, vpn, USER_VA_END, USER_VA_SIZE, USER_VA_BASE in *. Z.div_mod_to_equations. lia.
    + destruct (va_index va Huv) as (Hv & _). rewrite D2; [by apply N1|by split; [apply (used_lt _ _ _ Hi)|]|done].
  - intros w Hw Hni. cbn [fmap list_fmap] in Hni. rewrite not_elem_of_cons in Hni. destruct Hni as [H1' H2']. rewrite D2 by done. by apply D1.
Qed.
Lemma map_list_ok Q base sbase i flags l s done0 : vm_inv base sbase s -> used (space s i) = true ->
  (forall va, va ∈ l -> desc_owned (descr s i (vpn va)) = false) -> NoDup (vpn <$> l) ->
  let '(ok, (done, s')) := try_each (fun va '(done, s) => let '(r, s) := vm_map_lazy i va flags s in if r <? 0 then (false, (done, s)) else (true, (va :: done, s))) l (done0, s) in
  vm_inv base sbase s' /\ only_at Q base i (fun v => v ∈ vpn <$> l) s s' /\ about (space s' i) = about (space s i) /\
  (forall va, va ∈ done -> va ∈ l \/ va ∈ done0) /\ (forall va, va ∈ done0 -> va ∈ done) /\ (forall va, va ∈ l -> va ∈ done \/ desc_owned (descr s' i (vpn va)) = false) /\
  (forall w, place i w -> w ∉ vpn <$> l -> descr s' i w = descr s i w) /\
  (ok = true -> forall va, va ∈ l -> user_va va /\ forall s2 : vm, view_of s2 (descr s' i (vpn va)) = zero_page (prot_of flags)).
Proof.
  revert s done0. induction l as [|va l IH]; intros s done0 Hi Hu Hno Hnd; cbn [try_each].
  { split; [done|]. split; [apply goes_only, goes_refl|]. split; [done|]. split; [by right|]. split; [done|]. split; [intros va Hva; by apply elem_of_nil in Hva|]. split; [done|].
    intros _ va Hva. by apply elem_of_nil in Hva. }
  cbn [fmap list_fmap] in Hnd. apply NoDup_cons in Hnd as [Hni Hnd]. pose proof (map_lazy_ok Q base sbase s i va flags Hi Hu (Hno va ltac:(by left))) as Hm.
  destruct (vm_map_lazy i va flags s) as [r s1]. destruct Hm as (I1 & O1 & A1 & D1 & Hr). destruct (about_used _ _ A1) as [Hu1 _]. rewrite Hu in Hu1.
  assert (Hoff : forall va', va' ∈ l -> descr s1 i (vpn va') = descr s i (vpn va')).
  { intros va' Hin. destruct (decide (USER_VA_BASE <= va' < USER_VA_END)) as [Hva|Hn]; [|by rewrite !descr_off]. destruct (va_index va' Hva) as (Hv & _).
    apply D1; [split; [by apply (used_lt _ _ _ Hi)|done]|left]. intros E. apply Hni. rewrite <- E. by apply list_elem_of_fmap_2. }
  assert (Hmore : only_at Q base i (fun v => v ∈ vpn <$> va :: l) s s1) by (eapply only_at_more; [|exact O1]; cbn beta; intros v <-; by left).
  destruct (Z.ltb_spec r 0) as [Hneg|Hpos].
  - split; [done|]. split; [done|]. split; [done|]. split; [by right|]. split; [done|]. split; [|split; [intros w Hw _; apply D1; [done|by right]|done]].
    intros va' [->|Hin]%elem_of_cons; right; [|rewrite Hoff by done; apply Hno; by right].
    destruct (decide (USER_VA_BASE <= va < USER_VA_END)) as [Hva|Hn]; [|by rewrite descr_off]. destruct (va_index va Hva) as (Hv & _).
    rewrite D1; [apply Hno; by left|split; [by apply (used_lt _ _ _ Hi)|done]|by right].
  - destruct Hr as [|(-> & Hva & Hz)]; [lia|]. specialize (IH s1 (va :: done0) I1 Hu1 ltac:(intros va' Hin; rewrite Hoff by done; apply Hno; by right) Hnd).
    destruct (try_each _ l (va :: done0, s1)) as [ok [done s2]]. destruct IH as (I2 & O2 & A2 & E2 & K2 & F2 & D2 & Z2). destruct (va_index va Hva) as (Hv & _).
    assert (Eva : descr s2 i (vpn va) = descr s1 i (vpn va)) by (apply D2; [split; [by apply (used_lt _ _ _ Hi)|done]|done]).
    split; [done|]. split; [eapply only_at_trans; [exact Hmore|]; eapply only_at_more; [|exact O2]; cbn beta; intros v Hin; by right|].
    split; [by rewrite A2|]. split; [intros va' Hin; destruct (E2 va' Hin) as [|[->|]%elem_of_cons]; [left; by right|left; by left|by right]|].
    split; [intros va' Hin; apply K2; by right|]. split; [|split].
    + intros va' [->|Hin]%elem_of_cons; [left; apply K2; by left|by apply F2].
    + intros w Hw Hn. cbn [fmap list_fmap] in Hn. apply not_elem_of_cons in Hn as [Hn1 Hn2]. rewrite D2 by done. apply D1; [done|by left].
    + intros Hok va' [->|Hin]%elem_of_cons; [|by apply Z2]. split; [done|]. intros s3. rewrite Eva. apply Hz.
Qed.

Lemma map_all_ok Q base sbase i flags lo hi s : vm_inv base sbase s -> used (space s i) = true ->
  (forall va, va ∈ pages_between lo hi -> desc_owned (descr s i (vpn va)) = false) -> NoDup (vpn <$> pages_between lo hi) ->
  let '(ok, s') := map_all_lazy i flags lo hi s in
  vm_inv base sbase s' /\ only_at Q base i (fun v => v ∈ vpn <$> pages_between lo hi) s s' /\ about (space s' i) = about (space s i) /\
  forall va, va ∈ pages_between lo hi -> if (ok : bool) then user_va va /\ sees s' i (vpn va) = zero_page (prot_of flags) else sees s' i (vpn va) = None.
Proof.
  intros Hi Hu Hno Hnd. unfold map_all_lazy. pose proof (map_list_ok Q base sbase i flags (pages_between lo hi) s [] Hi Hu Hno Hnd) as Hm.
  destruct (try_each _ _ _) as [ok [done s1]]. destruct Hm as (I1 & O1 & A1 & E1 & _ & F1 & _ & Z1). destruct ok.
  { split; [done|]. split; [done|]. split; [done|]. intros va Hin. destruct (Z1 eq_refl va Hin) as [X1 X2]. split; [done|]. apply X2. }
  destruct (about_used _ _ A1) as [Hu1 _]. rewrite Hu in Hu1. destruct (unmap_list_ok Q base sbase i done s1 I1 Hu1) as (I2 & O2 & A2 & N2 & D2). split; [done|].
  assert (Hsub : forall va, va ∈ done -> va ∈ pages_between lo hi) by (intros va Hin; destruct (E1 va Hin) as [|Hx]; [done|by apply elem_of_nil in Hx]).
  split; [eapply only_at_trans; [exact O1|]; eapply only_at_more; [|exact O2]; cbn beta; intros v (va & -> & Hin)%list_elem_of_fmap; apply list_elem_of_fmap_2; auto|].
  split; [by rewrite A2|]. intros va Hin. unfold VMINV.sees. apply view_none. destruct (decide (USER_VA_BASE <= va < USER_VA_END)) as [Hva|Hn]; [|by rewrite descr_off].
  destruct (va_index va Hva) as (Hv & _). destruct (F1 va Hin) as [Hd|Hd]; [by apply N2|]. destruct (decide (vpn va ∈ vpn <$> done)) as [(va2 & E & Hin2)%list_elem_of_fmap|Hni].
  - rewrite E. apply N2; [done|]. unfold user_va, vpn, USER_VA_END, USER_VA_SIZE, USER_VA_BASE in *. Z.div_mod_to_equations. lia.
  - rewrite D2; [done|split; [by apply (used_lt _ _ _ Hi)|done]|done].
Qed.
Lemma pages_between_nodup lo hi : lo mod 4096 = 0 -> NoDup (vpn <$> pages_between lo hi).
Proof.
  intros Hm. unfold pages_between. rewrite <- list_fmap_compose. apply NoDup_fmap_2_strong; [|apply NoDup_seq]. intros x y _ _ E. cbn in E.
  unfold vpn, USER_VA_BASE, PMM.PAGE_SIZE in E. Z.div_mod_to_equations. lia.
Qed.
Lemma page_align_up_mod x : PMM.PAGE_ALIGN_UP x mod 4096 = 0.
Proof.
  unfold PMM.PAGE_ALIGN_UP. rewrite PMM.align_down_eq by (unfold u32; apply Z.mod_pos_bound; lia). unfold PMM.PAGE_SIZE. Z.div_mod_to_equations. lia.
Qed.
(** [vm_brk]: the new end if it can be had, with new pages of zeros that the
    program may write and the pages past the end gone; the old end and
    nothing seen to change if it cannot. *)
Lemma brk_ok Q base sbase s i addr : vm_inv base sbase s -> used (space s i) = true -> Q i || busy (space s i) = true ->
  let a := space s i in
  let '(r, s') := vm_brk i addr s in
  vm_inv base sbase s' /\
  ((r = addr /\ brk_cur (space s' i) = addr /\
    only_at Q base i (fun v => v ∈ vpn <$> pages_between (PMM.PAGE_ALIGN_UP (brk_cur a)) (PMM.PAGE_ALIGN_UP addr) \/ v ∈ vpn <$> pages_between (PMM.PAGE_ALIGN_UP addr) (PMM.PAGE_ALIGN_UP (brk_cur a))) s s' /\
    (forall va, va ∈ pages_between (PMM.PAGE_ALIGN_UP (brk_cur a)) (PMM.PAGE_ALIGN_UP addr) -> user_va va /\ sees s' i (vpn va) = zero_page VM_WRITE) /\
    (forall va, va ∈ pages_between (PMM.PAGE_ALIGN_UP addr) (PMM.PAGE_ALIGN_UP (brk_cur a)) -> user_va va -> sees s' i (vpn va) = None)) \/
   (r = brk_cur a /\ brk_cur (space s' i) = brk_cur a /\ only_at Q base i (fun _ => False) s s')).
Proof.
  intros Hi Hu Hq a. pose proof (used_lt _ _ _ Hi i Hu) as Hlt. unfold vm_brk. assert (El : spaces s !! i = Some a).
  { destruct Hi as (Hidle & pgs & tabs & Hok). apply (space_lookup _ _ _ _ _ (vo_tables _ _ _ _ _ _ Hok) Hlt). }
  rewrite El. destruct ((addr <? brk_start a) || (USER_BRK_LIMIT <? addr)); [split; [done|]; right; split; [done|]; split; [done|]; apply goes_only, goes_refl|].
  set (lo := PMM.PAGE_ALIGN_UP (brk_cur a)). set (hi := PMM.PAGE_ALIGN_UP addr).
  assert (Hal : forall x, PMM.PAGE_ALIGN_UP x mod 4096 = 0) by (intros x; apply page_align_up_mod).
  assert (Hend : forall s1 P, vm_inv base sbase s1 -> only_at Q base i P s s1 -> about (space s1 i) = about a ->
    let s2 := set_space i (space s1 i <| brk_cur := addr |>) s1 in
    vm_inv base sbase s2 /\ brk_cur (space s2 i) = addr /\ only_at Q base i P s s2 /\ forall w, place i w -> sees s2 i w = sees s1 i w).
  { intros s1 P I1 O1 A1. destruct (tweak_ok Q base sbase s1 i (space s1 i <| brk_cur := addr |>) I1 Hlt ltac:(done) ltac:(done)) as (I2 & D2 & G2). cbn zeta. split; [done|].
    split; [rewrite space_set by (done || apply (inv_len _ _ _ I1)); by rewrite decide_True|].
    split; [eapply only_at_trans; [exact O1|]; by apply goes_only, G2|]. intros w Hw. by apply D2. }
  assert (Hsee : forall va, user_va va -> place i (vpn va)) by (intros va Hva; destruct (va_index va Hva) as (Hv & _); done).
  destruct (Z.ltb_spec lo hi) as [Hgrow|Hshrink].
  - assert (Hsame : only_at Q base i (fun _ => False) s s) by apply goes_only, goes_refl.
    destruct (negb (vm_commit_ok _ s) || _); [split; [done|]; right; done|]. destruct (existsb _ _) eqn:Ex; [split; [done|]; right; done|].
    assert (Hno : forall va, va ∈ pages_between lo hi -> desc_owned (descr s i (vpn va)) = false).
    { intros va Hin. rewrite <- (is_mapped_owned base sbase) by done. destruct (vm_is_mapped i va s) eqn:Em; [|done]. rewrite <- Ex. symmetry.
      apply existsb_exists. exists va. split; [by apply list_elem_of_In|done]. }
    pose proof (map_all_ok Q base sbase i (Z.lor VM_USER VM_WRITE) lo hi s Hi Hu Hno (pages_between_nodup lo hi (Hal _))) as Hm.
    destruct (map_all_lazy i _ lo hi s) as [ok s1]. destruct Hm as (I1 & O1 & A1 & Z1). assert (Hnil : pages_between hi lo = []).
    { unfold pages_between. replace (Z.to_nat _) with 0%nat; [done|]. unfold PMM.PAGE_SIZE. Z.div_mod_to_equations. lia. }
    destruct ok.
    + destruct (Hend s1 _ I1 O1 A1) as (I2 & B2 & O2 & S2). split; [done|]. left. rewrite Hnil. split; [done|]. split; [done|].
      split; [eapply only_at_more; [|exact O2]; cbn beta; by left|]. split; [|intros va Hin; by apply elem_of_nil in Hin].
      intros va Hin. destruct (Z1 va Hin) as [X1 X2]. split; [done|]. by rewrite S2, X2 by auto.
    + split; [done|]. right. split; [done|]. split; [by injection A1|]. destruct O1 as [K1 L1 N1 V1].
      assert (Hno2 : forall w, w ∈ vpn <$> pages_between lo hi -> sees s1 i w = None /\ sees s i w = None).
      { intros w (va & -> & Hin)%list_elem_of_fmap. split; [by apply Z1|]. by apply view_none, Hno. }
      constructor; [done|done|intros j w Hj Huj Hqj _|intros Hl j w Hj Huj Hqj _];
        (destruct (decide (j = i /\ w ∈ vpn <$> pages_between lo hi)) as [[-> Hin]|Hn]; [destruct (Hno2 w Hin) as [-> ->]; done|auto]).
  - destruct (unmap_list_ok Q base sbase i (pages_between hi lo) s Hi Hu) as (I1 & O1 & A1 & N1 & _). assert (Hnil : pages_between lo hi = []).
    { unfold pages_between. replace (Z.to_nat _) with 0%nat; [done|]. unfold PMM.PAGE_SIZE. Z.div_mod_to_equations. lia. }
    destruct (Hend _ _ I1 O1 A1) as (I2 & B2 & O2 & S2). split; [done|]. left. rewrite Hnil. split; [done|]. split; [done|].
    split; [eapply only_at_more; [|exact O2]; cbn beta; by right|]. split; [intros va Hin; by apply elem_of_nil in Hin|].
    intros va Hin Hva. rewrite S2 by auto. unfold VMINV.sees. apply view_none. by apply N1.
Qed.
End calls.
End VMCALLS.
