(* ===== verification/Vmspace.v ===== *)
(** * Address spaces: made, copied and given back (kernel/vm.c)

    A space made has nothing in it; one copied shows its parent's pages, and
    a write to either is not seen in the other; one given back leaves its
    pages, slots and tables to the rest. *)

From S2P Require Import Prelude Pmm Pages Swap Vm Vmtab Vminv Vmdesc Vmstep Vmput Vmfault Vmcalls.
Local Open Scope Z_scope.

(** A loop whose turns are known. *)
Inductive runs {A : Type} (turn : A -> bool * A) : nat -> A -> A -> Prop :=
  | runs_end x : runs turn 0 x x
  | runs_turn n x y z : turn x = (true, y) -> runs turn n y z -> runs turn (Datatypes.S n) x z.
Lemma loop_runs {A : Type} (turn : A -> bool * A) p n x y f : runs turn n x y -> turn y = (false, f) ->
  if decide (n < Pos.to_nat p)%nat then loop p turn x = (false, f) else exists z, loop p turn x = (true, z) /\ runs turn (n - Pos.to_nat p) z y.
Proof.
  intros Hr Hf. assert (Htwo : forall q, (forall n x, runs turn n x y -> if decide (n < Pos.to_nat q)%nat then loop q turn x = (false, f) else exists z, loop q turn x = (true, z) /\ runs turn (n - Pos.to_nat q) z y) ->
    forall n x, runs turn n x y -> let r := let '(go, z) := loop q turn x in if go then loop q turn z else (false, z) in
      if decide (n < 2 * Pos.to_nat q)%nat then r = (false, f) else exists z, r = (true, z) /\ runs turn (n - 2 * Pos.to_nat q) z y).
  { intros q IH m z Hz. cbn zeta. pose proof (IH m z Hz) as H1. case_decide as E1.
    - rewrite H1. by rewrite decide_True by lia.
    - destruct H1 as (z1 & -> & H1). pose proof (IH _ z1 H1) as H2. case_decide as E2; [by rewrite decide_True by lia|]. rewrite decide_False by lia.
      destruct H2 as (z2 & -> & H2). exists z2. split; [done|]. by replace (m - 2 * Pos.to_nat q)%nat with (m - Pos.to_nat q - Pos.to_nat q)%nat by lia. }
  revert n x Hr. induction p as [p IH|p IH|]; intros n x Hr; cbn [loop].
  - rewrite Pos2Nat.inj_xI. destruct Hr as [x|n x x1 z Ht Hr]; [rewrite Hf; by rewrite decide_True by lia|]. rewrite Ht. pose proof (Htwo p (fun n x => IH n x) n x1 Hr) as H2. cbn zeta in H2.
    case_decide as E; [by rewrite decide_True by lia|]. rewrite decide_False by lia. done.
  - rewrite Pos2Nat.inj_xO. by apply (Htwo p (fun n x => IH n x)).
  - change (Pos.to_nat 1) with 1%nat. destruct Hr as [x|n x x1 z Ht Hr]; [by rewrite decide_True by lia|]. rewrite decide_False by lia. exists x1. split; [done|]. by replace (Datatypes.S n - 1)%nat with n by lia.
Qed.

Module VMSPACE.
Import VM VMTAB VMINV VMDESC VMSTEP VMPUT VMPLAIN VMFAULT VMCALLS.

Section spaces.
Context {W S T : Type} `{TextCache T W} `{SwapSlots S}.
#[local] Abbreviation vm := (@vm W S T).

(** ** Making a space *)

Definition one_tab (t : Z) : tabs_of := fun k => if decide (k = KRoot) then Some t else None.
Lemma one_tab_tree w pgs tabs t : fresh_block (W := W) w pgs tabs t -> tree w pgs (one_tab t).
Proof.
  intros [(T1 & T2 & T3) _ Tz]. unfold one_tab. constructor; try done.
  - intros k k' t'. case_decide; [|done]. case_decide; [congruence|done].
  - intros k t'. case_decide; [by intros [= <-]|done].
  - intros t' r. rewrite decide_True by done. intros [= <-] Hr. rewrite decide_False by done. cbn [ent]. rewrite load32_zero by (intros y Hy; apply Tz; lia). apply has_0.
Qed.
(** The space's record says that its first table is in use. *)
Lemma activate_ok L pgs tabs base sbase s i t a' : vm_ok (X := None) L pgs tabs base sbase s -> (i < KERNEL)%nat -> L i = false -> next_block s pgs tabs i t ->
  links a' = (t, tables (space s i), slot_page (space s i), slot_off (space s i)) ->
  let tabs' := set_tabs i (one_tab t) tabs in
  vm_ok (X := None) (fun j => if decide (j = i) then true else L j) pgs tabs' base sbase (set_space i a' s) /\
  forall j v, desc (set_space i a' s) tabs' j v = desc s tabs j v.
Proof.
  intros [Ht A1 A2 A3 A4 A5 A6 A7 A8 A9 Ah Ac A10] Hi HL [Nf No Nl] Ha tabs'. set (s' := set_space i a' s). injection Ha as Ea1 Ea2 Ea3 Ea4.
  assert (Hsp : forall j, space s' j = if decide (j = i) then a' else space s j) by (intros j; apply space_set; [apply (to_len _ _ _ _ Ht)|done]).
  assert (Hd : forall j v, desc s' tabs' j v = desc s tabs j v).
  { intros j v. unfold desc, tdesc, tabs', set_tabs. case_decide as E; [|done]. subst j. by rewrite (to_none _ _ _ _ Ht i _ HL). }
  assert (Hm : forall j v, mdesc (X := None) s' tabs' j v = mdesc (X := None) s tabs j v) by (intros j v; by apply mdesc_same).
  assert (Hn : forall a, named (X := None) s' tabs' a = named (X := None) s tabs a) by (intros a; apply tally_ext; auto).
  assert (Hsl : forall k, slotted (X := None) s' tabs' k = slotted (X := None) s tabs k) by (intros k; apply tally_ext; auto).
  split; [|done]. constructor; try done.
  - destruct Ht as [B0 Bl Bd Bt Bn Bb Bh Ba Bo Bnd Bk]. constructor; try done.
    + unfold s', set_space. cbn [spaces store]. by rewrite length_insert.
    + intros j. case_decide; [lia|apply Bd].
    + intros j. unfold root_of, tabs', set_tabs. rewrite Hsp. case_decide as E; [|apply Bt]. intros _. subst j. split; [by apply (one_tab_tree _ _ (tabs i))|].
      rewrite decide_False by lia. unfold one_tab. by rewrite decide_True, Ea1.
    + intros j k. unfold tabs', set_tabs. case_decide; [done|apply Bn].
    + intros j Hj. rewrite Hsp. unfold tabs', set_tabs. case_decide as E; [|by apply Bb]. subst j. destruct (Bb i Hj) as [D1 D2 D3 D4 D5 D6].
      constructor; rewrite ?Ea2, ?Ea3, ?Ea4; try done; unfold one_tab; intros k t'; (case_decide; [intros [= <-]|done]); lia.
    + rewrite decide_False by lia. done.
  - intros j a Ha. rewrite Hn. by apply (A5 j).
  - intros a. rewrite Hn. apply A7.
  - intros k. rewrite Hsl. apply A8.
  - intros j v. rewrite Hm. apply A9.
  - intros j v. rewrite Hm. apply Ac.
  - intros j v. rewrite Hm, Hn. apply A10.
Qed.
(** The call answers to nobody for space [i]. *)
Record besides (i : nat) (Q : nat -> bool) (base : Z -> Z) (s s' : vm) : Prop := {
  be_lost : lost s <= lost s';
  be_foreign : forall a, pg_foreign (mm s') a = pg_foreign (mm s) a;
  be_alone : alone base s s';
  be_used : forall j, j <> i -> used (space s j) = true -> Q j || busy (space s j) = true -> used (space s' j) = true /\ busy (space s' j) = busy (space s j);
  be_tabs : forall j va, j <> i -> used (space s j) = true -> Q j || busy (space s j) = true -> pagetable j va s <> 0 -> pagetable j va s' = pagetable j va s;
  be_none : forall j v, j <> i -> place j v -> used (space s j) = true -> Q j || busy (space s j) = true -> (sees s' j v = None <-> sees s j v = None);
  be_sees : lost s' = lost s -> forall j v, j <> i -> place j v -> used (space s j) = true -> Q j || busy (space s j) = true -> sees s' j v = sees s j v;
  be_kernel : kernel_root s' = kernel_root s }.
Lemma besides_trans i Q base s1 s2 s3 : besides i Q base s1 s2 -> besides i Q base s2 s3 -> besides i Q base s1 s3.
Proof.
  intros [A1 A2 A3 A4 A5 A6 A7 A8] [B1 B2 B3 B4 B5 B6 B7 B8]. constructor.
  - lia.
  - intros a. by rewrite B2.
  - by eapply alone_trans.
  - intros j Hj Hu Hq. destruct (A4 j Hj Hu Hq) as [U1 U2]. rewrite <- U2 in Hq |- *. by apply B4.
  - intros j va Hj Hu Hq Hp. destruct (A4 j Hj Hu Hq) as [U1 U2]. pose proof (A5 j va Hj Hu Hq Hp) as E. rewrite <- U2 in Hq. rewrite B5; [done|done|done|done|by rewrite E].
  - intros j v Hj Hp Hu Hq. destruct (A4 j Hj Hu Hq) as [U1 U2]. rewrite <- (A6 j v Hj Hp Hu Hq). rewrite <- U2 in Hq. by apply B6.
  - intros Hl j v Hj Hp Hu Hq. destruct (A4 j Hj Hu Hq) as [U1 U2]. rewrite <- (A7 ltac:(lia) j v Hj Hp Hu Hq). rewrite <- U2 in Hq. apply B7; [lia|done..].
  - by rewrite B8.
Qed.
Lemma only_besides i Q base P s s' : only_at Q base i P s s' -> besides i Q base s s'.
Proof.
  intros [[K1 K2 K3 K4 K5] A N V]. constructor; auto.
  - intros j v Hj Hp Hu Hq. apply N; naive_solver.
  - intros Hl j v Hj Hp Hu Hq. apply V; naive_solver.
Qed.
Lemma goes_besides i Q base s s' : goes Q base s s' -> besides i Q base s s'.
Proof. intros Hg. by apply (only_besides i Q base (fun _ => False)), goes_only. Qed.
Lemma besides_goes i Q base s s' : besides i Q base s s' -> used (space s i) = false \/ Q i || busy (space s i) = false -> goes Q base s s'.
Proof.
  intros [A1 A2 A3 A4 A5 A6 A7 A8] Hi. assert (Hx : forall j, used (space s j) = true -> Q j || busy (space s j) = true -> j <> i) by (intros j Hu Hq ->; destruct Hi; congruence).
  constructor; [constructor; [constructor|..]|]; auto.
Qed.
Lemma besides_less i Q base base' sbase s s' : vm_inv base' sbase s -> (forall a, base a <= base' a) -> besides i Q base' s s' -> besides i Q base s s'.
Proof. intros Hi Hle [A1 A2 A3 A4 A5 A6 A7 A8]. constructor; try done. by eapply alone_less. Qed.

(** What a call that makes a space may count on. *)
Record made (i : nat) (s s' : vm) : Prop := {
  md_lt : (i < KERNEL)%nat;
  md_unused : used (space s i) = false;
  md_used : used (space s' i) = true;
  md_busy : busy (space s' i) = true;
  md_refs : refs (space s' i) = 1;
  md_brk : brk_start (space s' i) = 0 /\ brk_cur (space s' i) = 0;
  md_empty : forall v, place i v -> descr s' i v = 0;
  md_space : forall j, j <> i -> space s' j = space s j;
  md_descr : forall j v, j <> i -> place j v -> descr s' j v = descr s j v }.
Lemma set_space_twice i a b (s : vm) : set_space i b (set_space i a s) = set_space i b s.
Proof. unfold set_space. cbn [spaces store]. by rewrite list_insert_insert_eq. Qed.
Lemma create_ok Q base sbase s : vm_inv base sbase s ->
  let '(r, s') := vm_create s in
  vm_inv base sbase s' /\ goes Q base s s' /\ rest s' = rest s /\
  (forall x, 0 < base x + cnt s x -> pg_foreign (mm s) x = false -> pg_held (mm s') x = pg_held (mm s) x) /\
  match r with Some i => made i s s' | None => forall j, used (space s' j) = used (space s j) end.
Proof.
  intros Hinv. unfold vm_create. destruct (find_idx _ (spaces s)) as [i|] eqn:Ef.
  2:{ split; [done|]. split; [apply goes_refl|done]. }
  apply find_idx_Some in Ef as [(a & Ea & Hna%negb_true_iff) _]. assert (Es : space s i = a) by (unfold space; by rewrite Ea).
  pose proof (inv_len _ _ _ Hinv) as Hlen. assert (Hi : (i < KERNEL)%nat) by (rewrite <- Hlen; by eapply lookup_lt_Some). rewrite Es.
  assert (Hl : links a = (0, 0, 0, 0)) by (rewrite <- Es; apply (proj1 Hinv); [done|by rewrite Es]). pose proof Hl as [= Hl1 Hl2 Hl3 Hl4].
  set (a1 := _ <| img := no_image |>). destruct (tweak_ok Q base sbase s i a1 Hinv Hi) as (I1 & V1 & G1).
  { rewrite Es, Hl. unfold a1, links. cbn. by rewrite Hl1. } { by rewrite Es. } specialize (G1 ltac:(by rewrite Es)).
  assert (Hna1 : used a1 = false) by done. set (s1 := set_space i a1 s) in *. assert (Hsp1 : forall j, space s1 j = if decide (j = i) then a1 else space s j) by (intros j; by apply space_set).
  pose proof I1 as (Hidle & pgs & tabs & Hok). pose proof (vo_tables _ _ _ _ _ _ Hok) as Ht.
  pose proof (table_alloc_ok (live s1) pgs tabs s1 i Ht Hi) as Hal. pose proof (table_alloc_spaces i s1) as Hoth. destruct (as_table_alloc i s1) as [t s2]. cbn [snd] in Hoth.
  destruct Hal as [[-> ->]|(pgs' & T2 & G2 & N2)].
  { cbn [Z.eqb]. rewrite Hsp1, decide_True by done. unfold s1. rewrite set_space_twice. destruct (tweak_ok Q base sbase s i (a1 <| root := 0 |>) Hinv Hi) as (I3 & V3 & G3).
    { by rewrite Es, Hl. } { by rewrite Es. } specialize (G3 ltac:(by rewrite Es)). split; [done|]. split; [done|]. split; [done|]. split; [done|].
    intros j. rewrite space_set by done. case_decide as E; [by subst j; rewrite Es|done]. }
  assert (Htne : t <> 0) by (destruct N2 as [[(N & _) _ _] _ _]; lia). rewrite (proj2 (Z.eqb_neq t 0)) by done.
  pose proof (to_len _ _ _ _ T2) as Hlen2. rewrite space_set, decide_True by done. rewrite set_space_twice.
  set (a3 := _ <| busy := true |>). destruct (inv_grow _ _ _ _ _ _ _ _ _ Hok T2 G2) as [Hok2 Hd2]. pose proof (gr_rest _ _ _ _ _ _ G2) as Hrest.
  pose proof (gr_about _ _ _ _ _ _ G2 i) as Hab. rewrite Hsp1, decide_True in Hab by done.
  destruct (activate_ok (live s1) pgs' tabs base sbase s2 i t a3 Hok2 Hi) as [Hok3 Hd3]; [rewrite used_live, Hsp1, decide_True by done; done|done|done|].
  set (s3 := set_space i a3 s2) in *. set (tabs' := set_tabs i (one_tab t) tabs) in *.
  assert (Hsp3 : forall j, space s3 j = if decide (j = i) then a3 else space s j).
  { intros j. unfold s3. rewrite space_set by done. case_decide as E; [done|]. rewrite Hoth by done. by rewrite Hsp1, decide_False. }
  assert (Hk : kernel_root s3 = kernel_root s) by (by injection Hrest).
  assert (Hlv : forall j, live s3 j = if decide (j = i) then true else live s1 j).
  { intros j. unfold live. rewrite Hsp3, Hsp1, Hk. case_decide as Ek; [by rewrite decide_False by lia|]. by case_decide. }
  pose proof (ok_live _ _ _ _ _ _ _ Hlv Hok3) as Hok4. pose proof (vo_tables _ _ _ _ _ _ Hok4) as Ht4.
  assert (I4 : vm_inv base sbase s3).
  { split; [|by exists pgs', tabs']. intros j Hj. rewrite Hsp3. case_decide; [done|]. by apply (proj1 Hinv). }
  assert (Hde : forall j v, place j v -> descr s3 j v = descr s1 j v).
  { intros j v Hp. rewrite (descr_desc pgs' tabs' s3), (descr_desc pgs tabs s1) by done. unfold mdesc. rewrite !decide_False by done. rewrite Hd3. by apply (Hd2 j v). }
  assert (Hde0 : forall v, place i v -> descr s3 i v = 0).
  { intros v Hp. rewrite Hde by done. unfold VMINV.descr. rewrite decide_False, Hsp1, decide_True by done. by rewrite Hna1. }
  assert (Hvw : forall j v, place j v -> sees s3 j v = sees s1 j v).
  { intros j v Hp. unfold VMINV.sees. rewrite Hde by done. rewrite (descr_desc pgs tabs s1) by done. apply (Hd2 j v Hp). }
  assert (Hnt : forall x, 0 < base x + cnt s x -> forall j, x ∉ pgs' j).
  { intros x Hx j Hj. destruct (vo_tab _ _ _ _ _ _ Hok2 j x Hj) as (B1 & B2 & B3). assert (named (X := None) s2 tabs x = cnt s x); [|lia].
    unfold VMINV.cnt. rewrite <- (tally_ext (hold x) (descr s) (descr s1)); [|intros j' v Hp; by apply V1]. apply tally_ext. intros j' v Hp. rewrite (descr_desc pgs tabs s1) by done. by apply (Hd2 j' v). }
  assert (Hg : goes Q base s1 s3).
  { constructor.
    - apply (calm_intro Q pgs pgs' tabs tabs'); [done|done| |apply G2|by injection Hrest| | |].
      + assert (El : lost s3 = lost s1) by (by injection Hrest). lia.
      + intros j k t' Hk'. unfold tabs', set_tabs. rewrite decide_False; [done|]. intros ->. rewrite (to_none _ _ _ _ Ht i) in Hk'; [done|]. by rewrite used_live, Hsp1, decide_True.
      + intros j. rewrite Hsp3, Hsp1. case_decide; [by rewrite Hna1|done].
      + intros j v Hp _ _. rewrite <- !(descr_desc (X := None) pgs' tabs' s3), <- !(descr_desc (X := None) pgs tabs s1) by done. apply (Hvw j v Hp).
    - intros x Hb Hf Hh. pose proof (cnt_nonneg s x). assert (Hx : forall j, x ∉ pgs' j) by (apply Hnt; lia).
      split; [etransitivity; [exact (gr_held _ _ _ _ _ _ G2 x Hx)|done]|]. split; [etransitivity; [exact (gr_foreign _ _ _ _ _ _ G2 x)|done]|]. intros y. apply (gr_load _ _ _ _ _ _ G2 x); [change (mm s1) with (mm s) in *; lia|].
      intros j Hj. by apply (Hx j), (gr_pgs _ _ _ _ _ _ G2). }
  split; [done|]. split; [by eapply goes_trans|]. split; [done|]. split.
  { intros x Hx Hf. apply (gr_held _ _ _ _ _ _ G2). by apply Hnt. }
  constructor; try done; rewrite ?Hsp3, ?decide_True by done; try done.
  - by rewrite Es.
  - unfold a3. cbn [brk_start brk_cur store]. unfold about in Hab. by injection Hab as -> -> _.
  - intros j Hj. by rewrite Hsp3, decide_False.
  - intros j v Hj Hp. rewrite Hde by done. by apply V1.
Qed.

(** ** Giving a space back *)

(** The table of a page is that of its 64 neighbours. *)
Lemma table_of base sbase s i v n : vm_inv base sbase s -> used (space s i) = true -> place i v -> v / 64 = Z.of_nat n -> pagetable i (page_va v) s = pagetable i (table_va n) s.
Proof.
  intros Hinv Hu [Hi Hv] Hn. pose proof Hinv as (_ & pgs & tabs & Hok). pose proof (vo_tables _ _ _ _ _ _ Hok) as Ht. pose proof (used_live s i Hi) as El. rewrite Hu in El.
  assert (Hn' : table_va n = page_va (64 * Z.of_nat n)) by (unfold table_va, page_va, TABLE_SPAN; lia). assert (Hr : 0 <= 64 * Z.of_nat n < 65536) by (Z.div_mod_to_equations; lia).
  destruct (page_va_user v Hv) as [U1 E1]. destruct (page_va_user _ Hr) as [U2 E2]. rewrite Hn', !(pagetable_tab _ _ _ _ _ _ Ht El Hi), E1, E2 by done.
  do 3 f_equal; unfold ri, pi; Z.div_mod_to_equations; lia.
Qed.
Record cleared (Q : nat -> bool) (base sbase : Z -> Z) (i : nat) (P : Z -> Prop) (s s' : vm) : Prop := {
  cl_inv : vm_inv base sbase s';
  cl_only : only_at Q base i (fun _ => True) s s';
  cl_spaces : spaces s' = spaces s;
  cl_lost : lost s' = lost s;
  cl_none : forall w, place i w -> P w \/ desc_owned (descr s i w) = false -> desc_owned (descr s' i w) = false;
  cl_tabs : forall va, pagetable i va s <> 0 -> pagetable i va s' = pagetable i va s }.
Lemma cleared_refl Q base sbase i s : vm_inv base sbase s -> cleared Q base sbase i (fun _ => False) s s.
Proof. intros Hi. constructor; try done. by intros w _ [[]|?]. Qed.
Lemma cleared_trans Q base sbase i P1 P2 s1 s2 s3 : cleared Q base sbase i P1 s1 s2 -> cleared Q base sbase i P2 s2 s3 -> cleared Q base sbase i (fun v => P1 v \/ P2 v) s1 s3.
Proof.
  intros [A1 A2 A3 A4 A5 A6] [B1 B2 B3 B4 B5 B6]. constructor; [done|by eapply only_at_trans|congruence|congruence| |].
  - intros w Hp Hw. apply B5; [done|]. destruct Hw as [[Hw|Hw]|Hw]; [right; apply A5; [done|by left]|by left|right; apply A5; [done|by right]].
  - intros va Hp. pose proof (A6 va Hp) as E. rewrite B6; [done|by rewrite E].
Qed.
Lemma cleared_less Q base sbase i (P P' : Z -> Prop) s s' : (forall v, P' v -> P v) -> cleared Q base sbase i P s s' -> cleared Q base sbase i P' s s'.
Proof. intros HP [A1 A2 A3 A4 A5 A6]. constructor; try done. intros w Hp Hw. apply A5; naive_solver. Qed.
Lemma release_keeps d (s : vm) : spaces (desc_release d s) = spaces s /\ lost (desc_release d s) = lost s.
Proof. unfold desc_release. destruct (desc_has_page d); [|by destruct (has d DESC_SW_SWAP)]. destruct (has d DESC_SW_SHARED); [|done]. by destruct (tc_release _ _ _). Qed.
Definition drop_entry (pt e : Z) (s : vm) : vm := let d := word s pt e in if desc_owned d then set_word pt e 0 (desc_release d s) else s.
Lemma drop_ok Q base sbase s i va : vm_inv base sbase s -> used (space s i) = true -> pagetable i va s <> 0 ->
  cleared Q base sbase i (eq (vpn va)) s (drop_entry (pagetable i va s) (PAGE_INDEX va) s).
Proof.
  intros Hi Hu Hpt. destruct (pagetable_some _ _ _ _ _ Hi Hu Hpt) as (Hva & Hpl & Ei & Ew). specialize (Ew ltac:(done)). unfold drop_entry. rewrite <- Ew. set (v := vpn va) in *. set (d := descr s i v) in *.
  destruct (desc_owned d) eqn:Eo.
  2:{ constructor; [done|apply goes_only, goes_refl|done|done| |done]. intros w Hw [<-|Hn]; done. }
  pose proof (inv_base _ _ _ Hi) as Hb. pose proof (inv_sbase _ _ _ Hi) as Hsb.
  destruct (desc_release_ok (Some (i, v)) Q base sbase s d Hb Hsb (mask_ok _ _ s i v Hi Hpl)) as [I1 S1]. destruct (release_keeps d s) as [Esp Elo].
  set (s1 := desc_release d s) in *. rewrite <- (sl_tabs _ _ _ _ S1 i va Hu Hpt). assert (Hu1 : used (space s1 i) = true) by (by rewrite (proj1 (still_used _ _ _ _ i S1))).
  assert (Hpt1 : pagetable i va s1 <> 0) by (by rewrite (sl_tabs _ _ _ _ S1 i va Hu Hpt)).
  destruct (put_none (X := Some (i, v)) (X' := None) base sbase s1 i va 0 I1 (masks_some _) Hu1 Hpt1) as [I2 D2]; [unfold v; by rewrite descr_mask|done|done|].
  fold v in D2. set (s2 := set_word _ _ 0 s1) in *.
  assert (Hoth : forall j w, (j, w) <> (i, v) -> VMINV.sees (X := Some (i, v)) s j w = sees s j w) by (intros j w Hne; unfold VMINV.sees; by rewrite mask_descr).
  constructor; [done| |done|done| |].
  - constructor.
    + eapply kept_trans; [apply (sl_calm _ _ _ _ S1)|]. by apply (set_kept Q _ _ _ _ _ _ _ I1 D2).
    + eapply alone_trans; [apply S1|]. by eapply set_alone.
    + intros j w Hj Huj Hqj Hn. assert (Hne : (j, w) <> (i, v)) by (intros [= -> ->]; by apply Hn). rewrite (se_sees _ _ _ _ _ _ D2), <- Hoth by done.
      by apply (cm_none _ _ _ (sl_calm _ _ _ _ S1)).
    + intros Hl j w Hj Huj Hqj Hn. assert (Hne : (j, w) <> (i, v)) by (intros [= -> ->]; by apply Hn). rewrite (se_sees _ _ _ _ _ _ D2), <- Hoth by done.
      by apply (cm_view _ _ _ (sl_calm _ _ _ _ S1)).
  - intros w Hw Hc. rewrite (se_descr _ _ _ _ _ _ D2) by done. case_decide as E; [done|]. rewrite (sl_descr _ _ _ _ S1) by done. rewrite mask_descr by done.
    destruct Hc as [<-|Hn]; [done|done].
  - intros va' Hp. rewrite (se_tabs _ _ _ _ _ _ D2) by done. by apply (sl_tabs _ _ _ _ S1).
Qed.
Lemma destroy_entries_ok Q base sbase i n pt l s : vm_inv base sbase s -> used (space s i) = true -> (i < KERNEL)%nat -> (n < 1024)%nat -> pt <> 0 -> pagetable i (table_va n) s = pt ->
  (forall e, e ∈ l -> (e < 64)%nat) ->
  cleared Q base sbase i (fun v => exists e, e ∈ l /\ v = 64 * Z.of_nat n + Z.of_nat e) s (foldl (fun s e => drop_entry pt (Z.of_nat e) s) s l).
Proof.
  intros Hi Hu Hlt Hn Hne. revert s Hi Hu. induction l as [|e l IH]; intros s Hi Hu Hpt Hl; cbn [foldl].
  { eapply cleared_less; [|by apply cleared_refl]. intros v (e & He & _). by apply elem_of_nil in He. }
  assert (He : (e < 64)%nat) by (apply Hl; by left). set (v := 64 * Z.of_nat n + Z.of_nat e). assert (Hv : 0 <= v < 65536) by (unfold v; lia).
  destruct (page_va_user v Hv) as [Hva Ev]. assert (Htb : pagetable i (page_va v) s = pt).
  { rewrite (table_of base sbase s i v n); [done|done|done|done|]. unfold v. Z.div_mod_to_equations. lia. }
  assert (Epi : PAGE_INDEX (page_va v) = Z.of_nat e).
  { destruct (va_index _ Hva) as (_ & _ & _ & ->). rewrite Ev. unfold ei, v. Z.div_mod_to_equations. lia. }
  pose proof (drop_ok Q base sbase s i (page_va v) Hi Hu ltac:(by rewrite Htb)) as C1. rewrite Htb, Epi, Ev in C1. set (s1 := drop_entry pt _ s) in *.
  assert (Hsp : forall j, space s1 j = space s j) by (intros j; unfold space; by rewrite (cl_spaces _ _ _ _ _ _ _ C1)).
  pose proof (IH s1 (cl_inv _ _ _ _ _ _ _ C1) ltac:(by rewrite Hsp) ltac:(rewrite (cl_tabs _ _ _ _ _ _ _ C1); by rewrite Hpt) ltac:(intros e' He'; apply Hl; by right)) as C2.
  eapply cleared_less; [|by eapply cleared_trans]. intros w (e' & He' & ->). apply elem_of_cons in He' as [->|He']; [by left|right]. by exists e'.
Qed.
Lemma destroy_table_ok Q base sbase i n s : vm_inv base sbase s -> used (space s i) = true -> (n < 1024)%nat ->
  cleared Q base sbase i (fun v => v / 64 = Z.of_nat n) s (let pt := pagetable i (table_va n) s in if pt =? 0 then s else destroy_table pt s).
Proof.
  intros Hi Hu Hn. pose proof (used_lt _ _ _ Hi i Hu) as Hlt. cbn zeta. destruct (Z.eqb_spec (pagetable i (table_va n) s) 0) as [Ez|Hne].
  - pose proof (cleared_refl Q base sbase i s Hi) as [A1 A2 A3 A4 A5 A6]. constructor; try done. intros w Hp [Hw|?]; [|done].
    destruct (page_va_user w (proj2 Hp)) as [Hva Ev]. rewrite <- Ev. rewrite (descr_out base sbase); try done. by rewrite (table_of base sbase s i w n).
  - eapply cleared_less; [|apply (destroy_entries_ok Q base sbase i n _ (seq 0 64)); try done].
    + intros v Hv. exists (Z.to_nat (v mod 64)). rewrite elem_of_seq. split; [Z.div_mod_to_equations; lia|]. rewrite Z2Nat.id by (Z.div_mod_to_equations; lia). Z.div_mod_to_equations. lia.
    + intros e He%elem_of_seq. lia.
Qed.
Lemma destroy_pages_ok Q base sbase i l s : vm_inv base sbase s -> used (space s i) = true -> (forall n, n ∈ l -> (n < 1024)%nat) ->
  cleared Q base sbase i (fun v => exists n, n ∈ l /\ v / 64 = Z.of_nat n) s
    (foldl (fun s n => let pt := pagetable i (table_va n) s in if pt =? 0 then s else destroy_table pt s) s l).
Proof.
  revert s. induction l as [|n l IH]; intros s Hi Hu Hl; cbn [foldl].
  { eapply cleared_less; [|by apply cleared_refl]. intros v (n & Hn & _). by apply elem_of_nil in Hn. }
  pose proof (destroy_table_ok Q base sbase i n s Hi Hu ltac:(apply Hl; by left)) as C1. set (s1 := if _ =? 0 then s else _) in *.
  assert (Hsp : forall j, space s1 j = space s j) by (intros j; unfold space; by rewrite (cl_spaces _ _ _ _ _ _ _ C1)).
  pose proof (IH s1 (cl_inv _ _ _ _ _ _ _ C1) ltac:(by rewrite Hsp) ltac:(intros n' Hn'; apply Hl; by right)) as C2.
  eapply cleared_less; [|by eapply cleared_trans]. intros w (n' & Hn' & E). apply elem_of_cons in Hn' as [->|Hn']; [by left|right]. by exists n'.
Qed.
(** The tables of a space that has no pages left are in hand. *)
Definition is_in (l : list Z) (a : Z) : Z := if decide (a ∈ l) then 1 else 0.
Lemma deactivate_ok base sbase s pgs tabs i a' : vm_ok (X := None) (live s) pgs tabs base sbase s -> idle s -> (i < KERNEL)%nat ->
  (forall v, place i v -> desc_owned (descr s i v) = false) -> links a' = (0, 0, 0, 0) -> used a' = false ->
  let s' := set_space i a' s in
  vm_inv (fun a => base a + is_in (pgs i) a) sbase s' /\ (forall j v, place j v -> j <> i -> descr s' j v = descr s j v) /\
  forall j va, j <> i -> used (space s j) = true -> pagetable j va s' = pagetable j va s.
Proof.
  intros Hok Hidle Hi Hno Ha Hua s'. pose proof Hok as [Ht A1 A2 A3 A4 A5 A6 A7 A8 A9 Ah Ac A10].
  set (pgs' := fun j => if decide (j = i) then [] else pgs j). set (tabs' := set_tabs i (fun _ => None) tabs).
  assert (Hsp : forall j, space s' j = if decide (j = i) then a' else space s j) by (intros j; apply space_set; [apply (to_len _ _ _ _ Ht)|done]).
  assert (Hlv : forall j, live s' j = if decide (j = i) then false else live s j).
  { intros j. unfold live. rewrite Hsp. case_decide as Ek; [by rewrite decide_False by lia|]. by case_decide. }
  assert (Hdj : forall j v, j <> i -> mdesc (X := None) s' tabs' j v = mdesc (X := None) s tabs j v).
  { intros j v Hj. apply mdesc_same. unfold desc, tdesc, tabs', set_tabs. by rewrite decide_False. }
  assert (Hdi : forall v, mdesc (X := None) s' tabs' i v = 0) by (intros v; unfold mdesc, desc, tdesc, tabs', set_tabs; by rewrite decide_False, decide_True).
  assert (Hho : forall j v, place j v -> (forall a, hold a (mdesc (X := None) s' tabs' j v) = hold a (mdesc (X := None) s tabs j v)) /\
    forall k, slot_hold k (mdesc (X := None) s' tabs' j v) = slot_hold k (mdesc (X := None) s tabs j v)).
  { intros j v Hp. destruct (decide (j = i)) as [->|Hj]; [|by rewrite Hdj]. rewrite Hdi. pose proof (Hno v Hp) as Hn. rewrite (descr_desc pgs tabs s) in Hn by done.
    apply not_owned_none in Hn. split; [intros a; by rewrite (holds_none_hold _ a Hn)|intros k; by rewrite (holds_none_slot _ k Hn)]. }
  assert (Hn : forall a, named (X := None) s' tabs' a = named (X := None) s tabs a) by (intros a; apply tally_same; intros j v Hp; by apply Hho).
  assert (Hsl : forall k, slotted (X := None) s' tabs' k = slotted (X := None) s tabs k) by (intros k; apply tally_same; intros j v Hp; by apply Hho).
  assert (Hin : forall j a, a ∈ pgs' j -> j <> i /\ a ∈ pgs j).
  { intros j a. unfold pgs'. case_decide; [intros E; by apply elem_of_nil in E|done]. }
  assert (Hiz : forall j a, a ∈ pgs' j -> is_in (pgs i) a = 0).
  { intros j a [Hj Hx]%Hin. unfold is_in. rewrite decide_False; [done|]. intros Hy. by apply Hj, (to_apart _ _ _ _ Ht j i a). }
  assert (Ht' : tables_ok (live s') pgs' tabs' s').
  { destruct Ht as [B0 Bl Bd Bt Bn Bb Bh Ba Bo Bnd Bk]. constructor; try done.
    - unfold s', set_space. cbn [spaces store]. by rewrite length_insert.
    - intros j. rewrite Hlv. case_decide; [done|apply Bd].
    - intros j. rewrite Hlv. unfold root_of, tabs', pgs', set_tabs. rewrite Hsp. case_decide as E; [done|apply Bt].
    - intros j k. rewrite Hlv. unfold tabs', set_tabs. case_decide; [done|apply Bn].
    - intros j Hj. rewrite Hsp. unfold tabs', pgs', set_tabs. case_decide as E; [|by apply Bb]. injection Ha as _ E2 E3 E4. constructor; rewrite ?E2, ?E3, ?E4; done.
    - intros j a [_ Hx]%Hin. by apply (Bh j).
    - intros j k a [_ Hx]%Hin [_ Hy]%Hin. by apply (Ba j k a).
    - intros j a [_ Hx]%Hin. by apply (Bo j a).
    - intros j. unfold pgs'. case_decide; [constructor|done].
    - rewrite Hlv, decide_False by lia. unfold pgs'. by rewrite decide_False by lia. }
  split; [split|split].
  - intros j Hj. rewrite Hsp. case_decide; [done|by apply Hidle].
  - exists pgs', tabs'. constructor; try done.
    + intros a. pose proof (A3 a). unfold is_in. case_decide; lia.
    + intros j a Hx. rewrite Hn, (Hiz j a Hx). destruct (Hin j a Hx) as [_ Hy]. destruct (A5 j a Hy) as (-> & ? & ?). done.
    + intros a. change (mm s') with (mm s). change (tc s') with (tc s). rewrite Hn. intros Hf Hnt. unfold is_in. case_decide as E.
      * rewrite (to_held _ _ _ _ Ht i a E). destruct (A5 i a E) as (-> & -> & ->). done.
      * rewrite (A7 a Hf); [lia|]. intros j Hx. destruct (decide (j = i)) as [->|Hj]; [done|]. apply (Hnt j). unfold pgs'. by rewrite decide_False.
    + intros k. rewrite Hsl. apply A8.
    + intros j v Hp. destruct (decide (j = i)) as [->|Hj]; [by rewrite Hdi|]. rewrite Hdj by done. by apply A9.
    + intros j v Hp. destruct (decide (j = i)) as [->|Hj]; [by rewrite Hdi|]. rewrite Hdj by done. by apply Ac.
    + intros j v Hp. rewrite Hn. destruct (decide (j = i)) as [->|Hj]; [by rewrite Hdi|]. rewrite Hdj by done. by apply A10.
  - intros j v Hp Hj. rewrite (descr_desc pgs' tabs' s'), (descr_desc pgs tabs s) by done. by apply Hdj.
  - intros j va Hj Hu. assert (Hjl : (j < KERNEL)%nat) by (rewrite <- (to_len _ _ _ _ Ht); unfold space in Hu; destruct (spaces s !! j) eqn:E; [by eapply lookup_lt_Some|done]).
    destruct (decide (USER_VA_BASE <= va < USER_VA_END)) as [Hva|Hnv]; [|by rewrite !pagetable_out].
    rewrite (pagetable_tab _ _ _ _ _ _ Ht'), (pagetable_tab _ _ _ _ _ _ Ht); try done; [|by rewrite used_live|by rewrite Hlv, decide_False, used_live by done].
    unfold tabs', set_tabs. by rewrite decide_False.
Qed.
Lemma frees_ok Q base sbase l s : (forall x, 0 <= base x) -> NoDup l -> vm_inv (fun a => base a + is_in l a) sbase s ->
  let s' := foldl (fun s p => pfree p s) s l in vm_inv base sbase s' /\ still Q base s s'.
Proof.
  intros Hb Hn. revert s. induction Hn as [|p l Hp Hn IH]; intros s Hi; cbn [foldl]; cbn zeta.
  { split; [|apply still_refl]. eapply inv_bases; [| |exact Hi]; [|done]. intros a. unfold is_in. rewrite decide_False; [lia|]. intros E. by apply elem_of_nil in E. }
  assert (Hi' : vm_inv (in_hand p (fun a => base a + is_in l a)) sbase s).
  { eapply inv_bases; [| |exact Hi]; [|done]. intros a. unfold in_hand, is_in. destruct (Z.eqb_spec a p) as [->|Hne].
    - rewrite decide_False, decide_True; [lia|by left|done].
    - destruct (decide (a ∈ l)) as [Hx|Hx]; [rewrite (decide_True (P := a ∈ p :: l)); [lia|by right]|]. rewrite decide_False; [lia|]. intros [?|?]%elem_of_cons; done. }
  assert (Hb' : forall a, 0 <= base a + is_in l a) by (intros a; pose proof (Hb a); unfold is_in; case_decide; lia).
  destruct (pfree_ok Q _ sbase s p Hb' Hi') as [I1 S1]. destruct (IH _ I1) as [I2 S2]. split; [done|]. eapply still_trans; [|exact S2].
  destruct S1 as [A B C D E F]. constructor; try done. intros a Ha Hf Hh. pose proof (inv_count _ _ _ a Hi' Hf) as Hc. pose proof (cnt_nonneg s a).
  pose proof (tc_held_nonneg _ a (inv_tc _ _ _ Hi')). pose proof (in_hand_le p (fun a => base a + is_in l a) a) as Hle. cbn beta in Hle.
  assert (Hz : 0 <= is_in l a) by (unfold is_in; case_decide; lia). specialize (Hc ltac:(lia)). assert (Ez : base a + is_in l a = base a) by lia.
  pose proof (B a) as Ba. cbn beta in Ba. rewrite Ez in Ba. by apply Ba.
Qed.
(** Reading the next page of the chain before each is given back. *)
Lemma frees_runs l (s : vm) x : chain (mm s) x l -> NoDup l -> pg_ok (mm s) -> (forall p, p ∈ l -> 0 < pg_held (mm s) p) ->
  let turn := fun '(pg, s) => if pg =? 0 then (false, (pg, s)) else let next := word s pg 0 in (true, (next, pfree pg s)) : bool * (Z * vm) in
  runs turn (length l) (x, s) (0, foldl (fun s p => pfree p s) s l).
Proof.
  intros Hc Hn. revert s x Hc. induction Hn as [|p l Hp Hn IH]; intros s x Hc Hw Hh; cbn [foldl length]; cbn zeta.
  { cbn [chain] in Hc. subst x. constructor. }
  cbn [chain] in Hc. destruct Hc as [-> Hc]. assert (Hhp : 0 < pg_held (mm s) p) by (apply Hh; by left). destruct (pg_held_page _ p Hw Hhp) as [Hpos _].
  destruct (pg_free_spec _ p Hw Hhp) as (F1 & F2 & F3 & F4).
  apply (runs_turn _ _ _ (word s p 0, pfree p s)); [by rewrite (proj2 (Z.eqb_neq p 0)) by lia|]. apply IH; [|done|].
  - unfold word. replace (p + 4 * 0) with p by lia. apply (chain_frame (mm s)); [|done]. intros a y Ha Hy. apply (F4 a); [apply Hh; by right|unfold in_page; lia].
  - intros q Hq. cbn [mm pfree store]. rewrite F3; [apply Hh; by right|]. intros ->. done.
Qed.
Lemma pages_few (l : list Z) : NoDup l -> (forall p, p ∈ l -> 0 <= p < 4294967296 /\ p mod 4096 = 0) -> Z.of_nat (length l) <= 1048576.
Proof using Type.
  intros Hn Hl. assert (Hs : (length l <= length (seqZ 0 1048576))%nat).
  { rewrite <- (length_fmap (fun p => p / 4096)). apply submseteq_length, NoDup_submseteq.
    - apply NoDup_fmap_2_strong; [|done]. intros x y Hx Hy E. destruct (Hl x Hx), (Hl y Hy). Z.div_mod_to_equations. lia.
    - intros q (p & -> & Hp)%list_elem_of_fmap. apply elem_of_seqZ. destruct (Hl p Hp). Z.div_mod_to_equations. lia. }
  rewrite length_seqZ in Hs. apply Nat2Z.inj_le in Hs. rewrite Z2Nat.id in Hs by lia. done.
Qed.
Lemma free_tables_all l (s : vm) x : chain (mm s) x l -> NoDup l -> pg_ok (mm s) -> (forall p, p ∈ l -> 0 < pg_held (mm s) p) ->
  free_tables x s = foldl (fun s p => pfree p s) s l.
Proof.
  intros Hc Hn Hw Hh. pose proof (frees_runs l s x Hc Hn Hw Hh) as Hr. cbn zeta in Hr. pose proof (loop_runs _ 1048577 _ _ _ (0, foldl (fun s p => pfree p s) s l) Hr eq_refl) as Hl.
  assert (Hf : Z.of_nat (length l) <= 1048576).
  { apply pages_few; [done|]. intros p Hp. pose proof (pg_held_page _ p Hw (Hh p Hp)). pose proof (pg_held_u32 _ p Hw (Hh p Hp)). lia. }
  rewrite decide_True in Hl by lia. unfold free_tables. by rewrite Hl.
Qed.
Lemma frees_space i a l (s : vm) : set_space i a (foldl (fun s p => pfree p s) s l) = foldl (fun s p => pfree p s) (set_space i a s) l.
Proof. revert s. induction l as [|p l IH]; intros s; cbn [foldl]; [done|]. by rewrite IH. Qed.
Lemma frees_keep l (s : vm) : spaces (foldl (fun s p => pfree p s) s l) = spaces s /\ lost (foldl (fun s p => pfree p s) s l) = lost s.
Proof. revert s. induction l as [|p l IH]; intros s; cbn [foldl]; [done|]. destruct (IH (pfree p s)) as [-> ->]. done. Qed.
Lemma table_numbers n : n ∈ seq 0 USER_TABLES -> (n < 1024)%nat.
Proof using Type. intros [_ Hn]%elem_of_seq. exact Hn. Qed.
Record gone (i : nat) (s s' : vm) : Prop := {
  gn_unused : used (space s' i) = false;
  gn_empty : forall v, place i v -> sees s' i v = None;
  gn_space : forall j, j <> i -> space s' j = space s j;
  gn_lost : lost s' = lost s }.
Definition retire (i : nat) (s : vm) : vm :=
  let s := free_tables (tables (space s i)) s in
  set_space i (space s i <| used := false |> <| tables := 0 |> <| slot_page := 0 |> <| slot_off := 0 |> <| brk_start := 0 |> <| brk_cur := 0 |> <| root := 0 |>) s.
Lemma retire_ok Q base sbase s i : vm_inv base sbase s -> (i < KERNEL)%nat -> (forall v, place i v -> desc_owned (descr s i v) = false) ->
  let s' := retire i s in vm_inv base sbase s' /\ besides i Q base s s' /\ gone i s s'.
Proof.
  intros I1 Hlt Hno. unfold retire. pose proof I1 as (Hidle & pgs & tabs & Hok). pose proof (vo_tables _ _ _ _ _ _ Hok) as Ht.
  destruct (to_bump _ _ _ _ Ht i ltac:(lia)) as [Hch _ _ _ _ _].
  rewrite (free_tables_all (pgs i) s); [|done|apply (to_nodup _ _ _ _ Ht)|apply (to_mm _ _ _ _ Ht)|intros p Hp; rewrite (to_held _ _ _ _ Ht i p Hp); lia].
  rewrite frees_space. set (a' := _ <| root := 0 |>).
  destruct (deactivate_ok base sbase s pgs tabs i a' Hok Hidle Hlt Hno eq_refl eq_refl) as (I2 & D2 & P2).
  set (s2 := set_space i a' s) in *. pose proof (inv_base _ _ _ I1) as Hb.
  destruct (frees_ok Q base sbase (pgs i) s2 Hb (to_nodup _ _ _ _ Ht i) I2) as [I3 S3]. destruct (frees_keep (pgs i) s2) as [Ksp2 Klo2]. set (s3 := foldl _ s2 _) in *.
  assert (Hsp2 : forall j, space s2 j = if decide (j = i) then a' else space s j) by (intros j; apply space_set; [apply (to_len _ _ _ _ Ht)|done]).
  assert (Hsp3 : forall j, space s3 j = if decide (j = i) then a' else space s j) by (intros j; unfold space at 1; rewrite Ksp2; apply Hsp2).
  assert (Hsee : forall j v, place j v -> j <> i -> sees s2 j v = sees s j v) by (intros j v Hp Hj; unfold VMINV.sees; by rewrite D2).
  split; [done|]. split.
  - eapply besides_trans; [|apply goes_besides; by apply still_goes]. constructor; try done.
    + intros j Hj. by rewrite Hsp2, decide_False.
    + intros j va Hj Hu' _ _. by apply P2.
    + intros j v Hj Hp _ _. by rewrite Hsee.
    + intros _ j v Hj Hp _ _. by apply Hsee.
  - constructor; [by rewrite Hsp3, decide_True| | |done].
    + intros v Hp. unfold VMINV.sees, VMINV.descr. rewrite decide_False by done. by rewrite Hsp3, decide_True.
    + intros j Hj. by rewrite Hsp3, decide_False.
Qed.
Definition destroy_pages (i : nat) (s : vm) : vm :=
  foldl (fun s n => let pt := pagetable i (table_va n) s in if pt =? 0 then s else destroy_table pt s) s (seq 0 USER_TABLES).
Lemma destroy_unfold s i a : spaces s !! i = Some a -> used a = true -> refs a <= 1 -> vm_destroy i s = retire i (destroy_pages i s).
Proof. intros Hl Hu Hr. unfold vm_destroy. rewrite Hl, Hu, (proj2 (Z.ltb_ge 1 _) Hr). unfold retire, destroy_pages. reflexivity. Qed.
Lemma destroy_last_ok Q base sbase s i : vm_inv base sbase s -> used (space s i) = true -> refs (space s i) <= 1 ->
  let s' := vm_destroy i s in vm_inv base sbase s' /\ besides i Q base s s' /\ gone i s s'.
Proof.
  intros Hi Hu Hr. pose proof (used_lt _ _ _ Hi i Hu) as Hlt. assert (Hl : spaces s !! i = Some (space s i)).
  { unfold space in Hu |- *. by destruct (spaces s !! i). }
  assert (C1 : cleared Q base sbase i (fun v => exists n, n ∈ seq 0 USER_TABLES /\ v / 64 = Z.of_nat n) s (destroy_pages i s)).
  { unfold destroy_pages. exact (destroy_pages_ok Q base sbase i (seq 0 USER_TABLES) s Hi Hu table_numbers). }
  rewrite (destroy_unfold s i _ Hl Hu Hr).
  revert C1. generalize (destroy_pages i s). intros s1 C1. cbn zeta. destruct (retire_ok Q base sbase s1 i (cl_inv _ _ _ _ _ _ _ C1) Hlt) as (I2 & B2 & [G1 G2 G3 G4]).
  { intros v Hp. apply (cl_none _ _ _ _ _ _ _ C1); [done|]. left. exists (Z.to_nat (v / 64)). destruct Hp as [_ Hv]. rewrite elem_of_seq. unfold USER_TABLES.
    rewrite Z2Nat.id by (Z.div_mod_to_equations; lia). split; [Z.div_mod_to_equations; lia|done]. }
  split; [done|]. split; [eapply besides_trans; [eapply only_besides, (cl_only _ _ _ _ _ _ _ C1)|done]|].
  constructor; [done|done| |rewrite G4; apply (cl_lost _ _ _ _ _ _ _ C1)]. intros j Hj. rewrite G3 by done. unfold space. by rewrite (cl_spaces _ _ _ _ _ _ _ C1).
Qed.
Lemma destroy_ok Q base sbase s i : vm_inv base sbase s -> used (space s i) = true ->
  let s' := vm_destroy i s in
  vm_inv base sbase s' /\ besides i Q base s s' /\
  (refs (space s i) <= 1 -> gone i s s') /\
  (1 < refs (space s i) -> goes Q base s s' /\ refs (space s' i) = refs (space s i) - 1 /\ forall j v, place j v -> sees s' j v = sees s j v).
Proof.
  intros Hi Hu. destruct (Z.le_gt_cases (refs (space s i)) 1) as [Hr|Hr].
  { destruct (destroy_last_ok Q base sbase s i Hi Hu Hr) as (I1 & B1 & G1). cbn zeta. split; [done|]. split; [done|]. split; [done|]. intros ?; lia. }
  pose proof (used_lt _ _ _ Hi i Hu) as Hlt. unfold vm_destroy. assert (Hl : spaces s !! i = Some (space s i)).
  { unfold space in Hu |- *. by destruct (spaces s !! i). }
  rewrite Hl, Hu, (proj2 (Z.ltb_lt 1 _)) by done. cbn [negb]. cbn zeta.
  destruct (tweak_ok Q base sbase s i (space s i <| refs := refs (space s i) - 1 |>) Hi Hlt ltac:(done) ltac:(done)) as (I1 & V1 & G1). specialize (G1 ltac:(done)).
  split; [done|]. split; [by apply goes_besides|]. split; [intros ?; lia|]. intros _. split; [done|]. split; [|intros j v Hp; by apply V1].
  by rewrite space_set, decide_True by (done || apply (inv_len _ _ _ Hi)).
Qed.
End spaces.
End VMSPACE.
