(* ===== verification/Vmclone.v ===== *)
(** * Address spaces: the copy a fork makes (kernel/vm.c)

    The child names the parent's pages and slots once more; a page either may
    write is marked for copying in both, so that what one writes the other
    does not see. *)

From S2P Require Import Prelude Pmm Pages Swap Vm Vmtab Vminv Vmdesc Vmstep Vmput Vmfault Vmcalls Vmspace.
Local Open Scope Z_scope.

Module VMCLONE.
Import VM VMTAB VMINV VMDESC VMSTEP VMPUT VMPLAIN VMFAULT VMCALLS VMSPACE.

(** A page marked for copying. *)
Definition cow_mark (d : Z) : Z := Z.land (Z.lor (Z.lor d DESC_WP) DESC_SW_COW) (not32 DESC_USED).
Lemma cow_mark_facts d : desc_wf d -> has d PDT_RESIDENT = true -> negb (has d DESC_WP) || has d DESC_SW_COW = true -> let d' := cow_mark d in
  desc_wf d' /\ page_of d' = page_of d /\ has d' PDT_RESIDENT = true /\ desc_owned d' = true /\ desc_has_page d' = true /\ own_write d' = false /\
  has d' DESC_SW_SHARED = has d DESC_SW_SHARED /\ desc_prot d' = VM_WRITE /\ desc_prot d = VM_WRITE.
Proof.
  intros (Hu & Hw1 & Hw2) Hr Hc. unfold cow_mark. destruct (set_low d DESC_WP Hu ltac:(done)) as (A1 & A2 & _ & A4). destruct (set_low _ DESC_SW_COW A1 ltac:(done)) as (B1 & B2 & _ & B4).
  destruct (clear_low _ DESC_USED B1 ltac:(done)) as (C1 & C2 & _ & C4). set (d' := Z.land _ _) in *. cbn zeta.
  assert (Hb : forall m, is_u32 m -> Z.land DESC_USED m = 0 -> has d' m = has d m || has DESC_WP m || has DESC_SW_COW m) by (intros m M1 M2; by rewrite C4, B4, A4).
  assert (H1 : has d' PDT_RESIDENT = true) by (by rewrite Hb, Hr). assert (H2 : has d' DESC_SW_LAZY = has d DESC_SW_LAZY) by (rewrite Hb by done; by destruct (has d DESC_SW_LAZY)).
  assert (H3 : has d' DESC_SW_SWAP = has d DESC_SW_SWAP) by (rewrite Hb by done; by destruct (has d DESC_SW_SWAP)).
  assert (H4 : has d' DESC_WP = true) by (rewrite Hb by done; by destruct (has d DESC_WP)). assert (H5 : has d' DESC_SW_COW = true) by (rewrite Hb by done; by destruct (has d DESC_SW_COW), (has d DESC_WP)).
  assert (H6 : has d' DESC_SW_SHARED = has d DESC_SW_SHARED) by (rewrite Hb by done; by destruct (has d DESC_SW_SHARED)).
  unfold desc_wf, desc_owned, desc_has_page, own_write, desc_prot. rewrite H1, H2, H3, H4, H5, H6, Hr, B2 in *. split; [auto|]. split; [by rewrite C2, A2|].
  unfold desc_owned. rewrite H1, Hr. cbn [orb negb andb]. by rewrite Hc.
Qed.

Section clone.
Context {W S T : Type} `{TextCache T W} `{SwapSlots S}.
#[local] Abbreviation vm := (@vm W S T).

(** No other descriptor lets its page be written, where one that does not
    names it. *)
Lemma named_read base sbase (s : vm) j v : vm_inv base sbase s -> place j v -> desc_has_page (descr s j v) = true -> own_write (descr s j v) = false ->
  pg_foreign (mm s) (page_of (descr s j v)) = false ->
  forall k w, place k w -> own_write (descr s k w) = true -> page_of (descr s k w) <> page_of (descr s j v).
Proof.
  intros Hi Hp Hd Ho Hf k w Hk Hw E. set (a := page_of (descr s j v)) in *. destruct (inv_own _ _ _ Hi k w Hk Hw ltac:(by rewrite E)) as [E1 _]. rewrite E in E1.
  assert (Hne : (k, w) <> (j, v)) by (intros [= -> ->]; congruence).
  pose proof (tally_two (hold a) (descr s) j v k w ltac:(intros; apply hold_bound) eq_refl Hp Hk Hne) as H12.
  change (tally (hold a) (descr s)) with (cnt s a) in H12. rewrite E1 in H12. unfold a in H12 at 1. rewrite hold_page in H12 by done.
  rewrite <- E, hold_page in H12 by (by apply own_write_page). lia.
Qed.
(** The page in hand put in place, for reading. *)
Lemma put_more base sbase (s : vm) i va d' : vm_inv (in_hand (page_of d') base) sbase s -> (forall x, 0 <= base x) -> used (space s i) = true -> pagetable i va s <> 0 ->
  holds_none (descr s i (vpn va)) -> desc_wf d' -> desc_has_page d' = true -> own_write d' = false -> cow_ok s d' ->
  (forall k w, place k w -> own_write (descr s k w) = true -> page_of (descr s k w) <> page_of d') ->
  let s' := set_word (pagetable i va s) (PAGE_INDEX va) d' s in
  vm_inv base sbase s' /\ set_done (X := None) (X' := None) (in_hand (page_of d') base) s s' i (vpn va) d'.
Proof.
  intros Hi Hb Hu Hpt Hn Hwf Hp Ho Hc Hr. apply (set_ok (in_hand (page_of d') base) sbase base sbase); [done|apply masks_none|done|done|]. constructor; try done.
  - apply (inv_sbase _ _ _ Hi).
  - intros x _. rewrite (holds_none_hold _ x Hn). unfold hold. rewrite Hp. cbn [andb]. unfold in_hand. rewrite (Z.eqb_sym x). lia.
  - intros k. rewrite (holds_none_slot _ k Hn). unfold slot_hold, in_swap. by rewrite Hp.
  - intros _ _. split; [by rewrite Ho|]. intros j w Hj _ Hw. by apply Hr.
Qed.
(** A device's page. *)
Lemma put_foreign base sbase (s : vm) i va d' : vm_inv base sbase s -> used (space s i) = true -> pagetable i va s <> 0 ->
  holds_none (descr s i (vpn va)) -> desc_wf d' -> desc_has_page d' = true -> pg_foreign (mm s) (page_of d') = true -> cow_ok s d' ->
  let s' := set_word (pagetable i va s) (PAGE_INDEX va) d' s in
  vm_inv base sbase s' /\ set_done (X := None) (X' := None) base s s' i (vpn va) d'.
Proof.
  intros Hi Hu Hpt Hn Hwf Hp Hf Hc. apply (set_ok base sbase base sbase); [done|apply masks_none|done|done|]. constructor; try done.
  - apply (inv_base _ _ _ Hi).
  - apply (inv_sbase _ _ _ Hi).
  - intros x Hx. rewrite (holds_none_hold _ x Hn). unfold hold. rewrite Hp. cbn [andb]. destruct (Z.eqb_spec (page_of d') x) as [E|_]; [by rewrite <- E, Hf in Hx|lia].
  - intros k. rewrite (holds_none_slot _ k Hn). unfold slot_hold, in_swap. by rewrite Hp.
  - rewrite Hf. done.
Qed.
(** A slot in hand. *)
Lemma put_slot base sbase (s : vm) i va d' : vm_inv base (in_hand (slot_of d') sbase) s -> (forall k, 0 <= sbase k) -> used (space s i) = true -> pagetable i va s <> 0 ->
  holds_none (descr s i (vpn va)) -> desc_wf d' -> in_swap d' = true ->
  let s' := set_word (pagetable i va s) (PAGE_INDEX va) d' s in
  vm_inv base sbase s' /\ set_done (X := None) (X' := None) base s s' i (vpn va) d'.
Proof.
  intros Hi Hb Hu Hpt Hn Hwf Hs. pose proof Hs as Hs'. unfold in_swap in Hs'. apply andb_true_iff in Hs' as [Hp%negb_true_iff _].
  apply (set_ok base (in_hand (slot_of d') sbase) base sbase); [done|apply masks_none|done|done|]. constructor; try done.
  - apply (inv_base _ _ _ Hi).
  - intros x _. rewrite (holds_none_hold _ x Hn). unfold hold. by rewrite Hp.
  - intros k. rewrite (holds_none_slot _ k Hn). unfold slot_hold. rewrite Hs. cbn [andb]. unfold in_hand. rewrite (Z.eqb_sym k). lia.
  - intros Hr. unfold desc_has_page in Hp. by rewrite Hr in Hp.
  - by rewrite Hp.
Qed.

(** ** One page *)

Context (others : nat -> vm -> vm) (Q : nat -> bool) (Hothers : forall n, tame Q (others n)).

(** One more hold of the page can be had, and no device's page is hidden. *)
Definition fits (s : vm) (d : Z) : Prop := desc_has_page d = true ->
  if pg_foreign (mm s) (page_of d) then has d PDT_RESIDENT = true else pg_held (mm s) (page_of d) < 65536.
Record copied (src i : nat) (v : Z) (s s' : vm) : Prop := {
  cp_lost : lost s' = lost s;
  cp_sees : sees s' i v = sees s src v;
  cp_src : forall w, place src w -> w <> v -> descr s' src w = descr s src w;
  cp_held : forall a, pg_foreign (mm s) a = false -> 0 < cnt s a -> pg_held (mm s') a <= pg_held (mm s) a + hold a (descr s src v) }.
Definition entry_ok (base sbase : Z -> Z) (src i : nat) (v : Z) (s : vm) (r : bool * vm) : Prop := exists base', (forall a, base a <= base' a) /\
  vm_inv base' sbase (snd r) /\ only_at Q base i (eq v) s (snd r) /\
  (fits s (descr s src v) -> (forall a, base' a = base a) /\ (fst r = true -> copied src i v s (snd r))).
Lemma entry_stop base sbase src i v s s' : vm_inv base sbase s' -> goes Q base s s' -> entry_ok base sbase src i v s (false, s').
Proof using Type. intros Hi Hg. exists base. split; [done|]. split; [done|]. split; [by apply goes_only|]. by split. Qed.
Lemma entry_put base base2 sbase sbase2 src i v d' s s2 s3 : vm_inv base2 sbase2 s2 -> (forall a, base a <= base2 a) -> goes Q base s s2 ->
  vm_inv base sbase s3 -> set_done (X := None) (X' := None) base2 s2 s3 i v d' -> spaces s3 = spaces s2 -> lost s3 = lost s2 ->
  used (space s src) = true -> Q src || busy (space s src) = true -> place src v -> place i v -> src <> i ->
  (fits s (descr s src v) -> lost s2 = lost s /\ view_of s2 d' = sees s2 src v /\ (forall w, place src w -> w <> v -> descr s2 src w = descr s src w) /\
    forall a, pg_foreign (mm s) a = false -> 0 < cnt s a -> pg_held (mm s2) a <= pg_held (mm s) a + hold a (descr s src v)) ->
  entry_ok base sbase src i v s (true, s3).
Proof using Type.
  intros I2 Hle G2 I3 D3 Esp Elo Hu Hq Hps Hpi Hne Hf. exists base. split; [done|]. split; [done|]. split.
  { eapply only_at_trans; [by apply goes_only|]. eapply only_at_less; [exact I2|exact Hle|]. by eapply set_only. }
  intros Hfit. split; [done|]. intros _. destruct (Hf Hfit) as (F1 & F2 & F3 & F4). cbn [snd]. constructor.
  - by rewrite Elo.
  - unfold VMINV.sees at 1. rewrite (se_descr _ _ _ _ _ _ D3), decide_True, (se_view _ _ _ _ _ _ D3), F2 by done. by apply (cm_view _ _ _ (go_calm _ _ _ _ G2)).
  - intros w Hw Hnw. rewrite (se_descr _ _ _ _ _ _ D3), decide_False by (done || congruence). by apply F3.
  - intros a Ha Hc. rewrite (se_held _ _ _ _ _ _ D3). by apply F4.
Qed.
Lemma copied_page base sbase s a p : vm_inv (in_hand a base) sbase s -> (forall x, 0 <= base x) -> fresh s base a ->
  vm_inv (in_hand a base) sbase (page_copy a p s) /\ still Q base s (page_copy a p s) /\ fresh (page_copy a p s) base a.
Proof using Type.
  intros Hi Hb Hf. unfold page_copy. assert (Hl : (length (page_bytes p 4096 (mm s)) <= 4096)%nat) by (by rewrite length_page_bytes).
  revert Hl. pose proof (page_bytes_range (mm s) p 4096 (inv_mm _ _ _ Hi)) as Hr. revert Hr. generalize (page_bytes p 4096 (mm s)). intros bs Hr Hl.
  destruct (fill_ok Q base sbase s a bs Hi Hb Hf Hl Hr) as (A & B & C & _). exact (conj A (conj B C)).
Qed.
(** What is done once the child's table is there. *)
Definition clone_private (dst va pt d : Z) (e : nat) (s : vm) : bool * vm :=
  let put (d : Z) (s : vm) : bool * vm := (true, set_word dst (PAGE_INDEX va) d s) in
  let pa := page_of d in
  if has d PDT_RESIDENT && (pg_refcount pa (mm s) =? 0) then put d s
  else
    let '(more, s) := pref pa s in
    if more : bool then
      if has d PDT_RESIDENT && (negb (has d DESC_WP) || has d DESC_SW_COW) then put (cow_mark d) (set_word pt (Z.of_nat e) (cow_mark d) s) else put d s
    else
      let '(copy, s) := page_alloc_user others s in
      if copy =? 0 then (false, s)
      else put (Z.lor copy (Z.land d (not32 (Z.lor PAGE_ADDR_MASK DESC_SW_COW)))) (page_copy copy pa s).
Definition clone_page (dst va pt d : Z) (e : nat) (s : vm) : bool * vm :=
  let '(shared, s) := if has d DESC_SW_SHARED && desc_has_page d then pref (page_of d) s else (false, s) in
  if shared : bool then (true, set_word dst (PAGE_INDEX va) (Z.land d (not32 DESC_USED)) (s <| tc := tc_dup (page_of d) (tc s) |>))
  else clone_private dst va pt d e s.
Definition clone_promise (dst va d : Z) (s : vm) : bool * vm :=
  let put (d : Z) (s : vm) : bool * vm := (true, set_word dst (PAGE_INDEX va) d s) in
  if has d DESC_SW_LAZY then put d s
  else let '(r, w) := sl_ref (slot_of d) (sw s) in let s := s <| sw := w |> in if r <? 0 then (false, s) else put d s.
Lemma clone_unfold i pt va e s : clone_entry others i pt va e s =
  let d := word s pt (Z.of_nat e) in
  if negb (desc_owned d) then (true, s)
  else let '(dst, s) := as_pagetable i va true s in
    if dst =? 0 then (false, s) else if has d DESC_SW_LAZY || has d DESC_SW_SWAP then clone_promise dst va d s else clone_page dst va pt d e s.
Proof using Type.
  unfold clone_entry, clone_promise, clone_page, clone_private. cbv zeta. destruct (negb _); [done|]. destruct (as_pagetable _ _ _ _) as [dst s1]. destruct (dst =? 0); [done|].
  destruct (has _ DESC_SW_LAZY); [done|]. by destruct (has _ DESC_SW_SWAP).
Qed.
Lemma entry_back base sbase src i v s s1 r : still Q base s s1 -> lost s1 = lost s -> (forall x, 0 < base x + cnt s x -> pg_foreign (mm s) x = false -> pg_held (mm s1) x = pg_held (mm s) x) ->
  (forall x, 0 <= base x) -> place src v -> used (space s src) = true -> Q src || busy (space s src) = true -> entry_ok base sbase src i v s1 r -> entry_ok base sbase src i v s r.
Proof using Type.
  intros St El Hh Hb Hp Hu Hq (base' & E1 & E2 & E3 & E4). exists base'. split; [done|]. split; [done|]. split; [by eapply only_at_trans; [apply goes_only, still_goes|]|].
  rewrite (sl_descr _ _ _ _ St) in E4 by done. intros Hf. destruct E4 as [E4 E5].
  { intros Hd. specialize (Hf Hd). rewrite (sl_foreign _ _ _ _ St). destruct (pg_foreign (mm s) (page_of (descr s src v))) eqn:Ef; [done|].
    rewrite Hh; [done| |done]. pose proof (cnt_le s src v Hp Hd). pose proof (Hb (page_of (descr s src v))). lia. }
  split; [done|]. intros Hr. destruct (E5 Hr) as [C1 C2 C3 C4]. constructor; [by rewrite C1| | |].
  - rewrite C2. by apply (cm_view _ _ _ (sl_calm _ _ _ _ St)).
  - intros w Hw Hnw. by rewrite C3, (sl_descr _ _ _ _ St).
  - intros a Ha Hc. rewrite <- (sl_descr _ _ _ _ St src v Hp), <- (Hh a); [|pose proof (Hb a); lia|done]. apply C4; [by rewrite (sl_foreign _ _ _ _ St)|by rewrite (still_cnt _ _ _ _ _ St)].
Qed.

Section entry.
Context (base sbase : Z -> Z) (src i : nat) (v : Z) (s : vm).
Context (Hi : vm_inv base sbase s) (Hus : used (space s src) = true) (Hqs : Q src || busy (space s src) = true) (Hui : used (space s i) = true) (Hqi : Q i || busy (space s i) = true).
Context (Hne : src <> i) (Hv : 0 <= v < 65536) (Hsrc : pagetable src (page_va v) s <> 0) (Hdst : pagetable i (page_va v) s <> 0) (Hno : desc_owned (descr s i v) = false).
#[local] Abbreviation va := (page_va v).
#[local] Abbreviation d := (descr s src v).
Lemma entry_places : place src v /\ place i v /\ vpn va = v.
Proof using Hi Hus Hui Hv. split; [|split]; [split; [by apply (used_lt _ _ _ Hi)|done]|split; [by apply (used_lt _ _ _ Hi)|done]|by apply page_va_user]. Qed.
Lemma entry_none : holds_none (descr s i (vpn va)).
Proof using Hi Hus Hui Hv Hno. destruct entry_places as (_ & _ & ->). by apply not_owned_none. Qed.
(** The state as it is, or with one more hold of the page. *)
Lemma entry_more base2 sbase2 s2 d' s3 : vm_inv base2 sbase2 s2 -> (forall a, base a <= base2 a) -> still Q base s s2 -> lost s2 = lost s ->
  (forall a, pg_held (mm s2) a <= pg_held (mm s) a + hold a d) ->
  vm_inv base sbase s3 -> set_done (X := None) (X' := None) base2 s2 s3 i v d' -> spaces s3 = spaces s2 -> lost s3 = lost s2 -> view_of s2 d' = view_of s2 d ->
  entry_ok base sbase src i v s (true, s3).
Proof using Hi Hus Hqs Hui Hv Hne.
  intros I2 Hle St El Hh I3 D3 Esp Elo Hvw. destruct entry_places as (Hps & Hpi & _). eapply (entry_put base base2 sbase sbase2); try done; [by apply still_goes|].
  intros _. split; [done|]. split; [|split; [intros w Hw _; by apply St|intros a _ _; apply Hh]]. rewrite Hvw. unfold VMINV.sees. by rewrite (sl_descr _ _ _ _ St).
Qed.
Lemma promise_ok : desc_owned d = true -> has d DESC_SW_LAZY || has d DESC_SW_SWAP = true -> entry_ok base sbase src i v s (clone_promise (pagetable i va s) va d s).
Proof using Hi Hus Hqs Hui Hv Hne Hdst Hno Hsrc Hqi.
  intros Ho Hk. destruct entry_places as (Hps & Hpi & Ev). pose proof (inv_wf _ _ _ Hi src v Hps) as Hwf. pose proof Hwf as (Hu & Hw1 & Hw2). pose proof (inv_sbase _ _ _ Hi) as Hsb.
  assert (Hr : has d PDT_RESIDENT = false) by (destruct (has d PDT_RESIDENT); [destruct (Hw1 eq_refl) as [E1 E2]; by rewrite E1, E2 in Hk|done]).
  assert (Hp : desc_has_page d = false) by (unfold desc_has_page; rewrite Hr, has_mask_or, Hk, andb_false_r; done).
  assert (Hb : forall a, pg_held (mm s) a <= pg_held (mm s) a + hold a d) by (intros a; pose proof (hold_bound a d); lia).
  unfold clone_promise. destruct (has d DESC_SW_LAZY) eqn:El.
  - assert (Hn : holds_none d) by (split; [done|unfold in_swap; by rewrite (Hw2 eq_refl), andb_false_r]).
    destruct (put_none (X := None) (X' := None) base sbase s i va d Hi (masks_none _) Hui Hdst entry_none Hn) as [I3 D3]; [done|]. rewrite Ev in D3.
    by eapply (entry_more base sbase s d).
  - cbn [orb] in Hk. assert (Hs : in_swap d = true) by (unfold in_swap; by rewrite Hp, Hk). pose proof (inv_slot _ _ _ Hi src v Hps Hs) as Hsl. pose proof (Hsb (slot_of d)) as Hs0.
    assert (Hpos : 0 < sl_held (sw s) (slot_of d)) by lia. destruct (sl_ref_spec (sw s) (slot_of d) (inv_sw _ _ _ Hi) Hpos) as [->|(w & -> & W1 & W2 & W3 & W4)].
    { cbn [Z.ltb Z.compare]. replace (s <| sw := sw s |>) with s by (by destruct s). apply entry_stop; [done|apply goes_refl]. }
    cbn [Z.ltb Z.compare]. destruct (swap_ok Q base sbase (in_hand (slot_of d) sbase) s w Hi W1) as [I2 S2]; [by apply in_hand_nonneg| |done|].
    { intros k. unfold in_hand. destruct (Z.eqb_spec k (slot_of d)) as [->|Hnk]; [lia|]. rewrite W3 by done. lia. }
    set (s2 := s <| sw := w |>) in *. rewrite <- (sl_tabs _ _ _ _ S2 i va Hui Hdst).
    destruct (put_slot base sbase s2 i va d I2 Hsb) as [I3 D3]; [done|by rewrite (sl_tabs _ _ _ _ S2)|rewrite (sl_descr _ _ _ _ S2) by (by rewrite Ev); apply entry_none|done|done|].
    rewrite Ev in D3. by eapply (entry_more base (in_hand (slot_of d) sbase) s2 d).
Qed.
Context (e : nat) (He : PAGE_INDEX va = Z.of_nat e).
Lemma page_fits : desc_has_page d = true -> pg_foreign (mm s) (page_of d) = false -> 0 < cnt s (page_of d).
Proof using Hi Hus Hui Hv. intros Hd _. destruct entry_places as (Hps & _). by apply cnt_le. Qed.
Lemma shared_ok s1 : desc_has_page d = true -> has d DESC_SW_SHARED = true -> pref (page_of d) s = (true, s1) ->
  entry_ok base sbase src i v s (true, set_word (pagetable i va s) (PAGE_INDEX va) (Z.land d (not32 DESC_USED)) (s1 <| tc := tc_dup (page_of d) (tc s1) |>)).
Proof using Hi Hus Hqs Hui Hv Hne Hdst Hno Hsrc Hqi He Hothers.
  intros Hd Hsh Hpr. destruct entry_places as (Hps & Hpi & Ev). pose proof (inv_base _ _ _ Hi) as Hb. pose proof (inv_wf _ _ _ Hi src v Hps) as Hwf.
  pose proof (pref_ok Q base sbase s (page_of d) Hi (page_fits Hd)) as Hp. rewrite Hpr in Hp. destruct Hp as [[Hp _]|(_ & Hf & I1 & S1 & H1h)]; [done|].
  destruct (tc_dup_spec (page_of d) (tc s1) (inv_tc _ _ _ I1)) as [T1 T2]. destruct (cache_told_ok Q _ sbase s1 _ I1 T1 T2) as [I2 S2]. set (s2 := s1 <| tc := _ |>) in *.
  assert (St : still Q base s s2) by (eapply still_trans; [exact S1|]; eapply still_less; [exact I1|apply in_hand_le|exact S2]).
  assert (Hal : alike d (Z.land d (not32 DESC_USED))) by (apply clear_used_alike, Hwf). destruct (clear_low d DESC_USED (proj1 Hwf) ltac:(done)) as (C1 & C2 & C3 & C4).
  set (d' := Z.land d (not32 DESC_USED)) in *. destruct (alike_bits _ _ Hal) as (A1 & A2 & A3 & A4 & A5 & A6 & A7 & A8).
  assert (Eds : descr s2 src v = d) by (by apply St). assert (Hod : own_write d = false) by (unfold own_write; by rewrite Hsh, andb_false_r).
  rewrite <- C2 in I2. rewrite <- (sl_tabs _ _ _ _ St i va Hui Hdst). destruct (still_used _ _ _ _ i St) as [Hu2 _]. rewrite Hui in Hu2.
  destruct (put_more base sbase s2 i va d' I2 Hb Hu2) as [I3 D3].
  - by rewrite (sl_tabs _ _ _ _ St).
  - rewrite (sl_descr _ _ _ _ St) by (by rewrite Ev). apply entry_none.
  - by apply A8.
  - by rewrite A2.
  - by rewrite A7.
  - unfold cow_ok. rewrite C2. rewrite !Hal by (unfold BITS, DESC_SW_COW; change 2048 with DESC_SW_NONE; set_solver). rewrite <- Eds. by apply (inv_cow _ _ _ I2).
  - rewrite C2. rewrite <- Eds. apply (named_read _ _ _ src v I2); rewrite ?Eds; try done. by rewrite (sl_foreign _ _ _ _ St).
  - rewrite Ev in D3. eapply (entry_more _ sbase s2 d'); try done.
    + intros a. rewrite C2. apply in_hand_le.
    + unfold s2. cbn [lost store]. unfold pref in Hpr. destruct (pg_ref _ _). by injection Hpr as _ <-.
    + intros a. change (mm s2) with (mm s1). rewrite H1h. unfold hold. rewrite Hd. cbn [andb]. rewrite (Z.eqb_sym a). lia.
    + by apply view_alike.
Qed.
(** A page that can be named once more. *)
Lemma more_ok s1 : desc_has_page d = true -> pref (page_of d) s = (true, s1) -> has d DESC_SW_SHARED = false ->
  entry_ok base sbase src i v s
    (if has d PDT_RESIDENT && (negb (has d DESC_WP) || has d DESC_SW_COW) then (true, set_word (pagetable i va s) (PAGE_INDEX va) (cow_mark d) (set_word (pagetable src va s) (Z.of_nat e) (cow_mark d) s1))
     else (true, set_word (pagetable i va s) (PAGE_INDEX va) d s1)).
Proof using Hi Hus Hqs Hui Hv Hne Hdst Hno Hsrc Hqi He Hothers.
  intros Hd Hpr Hsh. destruct entry_places as (Hps & Hpi & Ev). pose proof (inv_base _ _ _ Hi) as Hb. pose proof (inv_wf _ _ _ Hi src v Hps) as Hwf.
  pose proof (pref_ok Q base sbase s (page_of d) Hi (page_fits Hd)) as Hp. rewrite Hpr in Hp. destruct Hp as [[Hp _]|(_ & Hf & I1 & S1 & H1h)]; [done|].
  assert (El1 : lost s1 = lost s) by (unfold pref in Hpr; destruct (pg_ref _ _); by injection Hpr as _ <-).
  assert (Eds : descr s1 src v = d) by (by apply S1). destruct (still_used _ _ _ _ i S1) as [Hu1 _]. rewrite Hui in Hu1. destruct (still_used _ _ _ _ src S1) as [Hus1 _]. rewrite Hus in Hus1.
  assert (Hn1 : holds_none (descr s1 i (vpn va))) by (rewrite (sl_descr _ _ _ _ S1) by (by rewrite Ev); apply entry_none).
  assert (Hh : forall a, pg_held (mm s1) a <= pg_held (mm s) a + hold a d) by (intros a; rewrite H1h; unfold hold; rewrite Hd; cbn [andb]; rewrite (Z.eqb_sym a); lia).
  rewrite <- (sl_tabs _ _ _ _ S1 i va Hui Hdst), <- (sl_tabs _ _ _ _ S1 src va Hus Hsrc).
  assert (Hpt1 : pagetable i va s1 <> 0) by (by rewrite (sl_tabs _ _ _ _ S1)). assert (Hpt1s : pagetable src va s1 <> 0) by (by rewrite (sl_tabs _ _ _ _ S1)).
  destruct (has d PDT_RESIDENT && (negb (has d DESC_WP) || has d DESC_SW_COW)) eqn:Erw.
  - apply andb_true_iff in Erw as [Er Ew]. destruct (cow_mark_facts d Hwf Er Ew) as (M1 & M2 & M3 & M4 & M5 & M6 & M7 & M8 & M9). set (d' := cow_mark d) in *.
    assert (Hcow : cow_ok s1 d') by (intros _ _; rewrite M2, M7, (sl_foreign _ _ _ _ S1); done).
    destruct (repage_ok (in_hand (page_of d) base) sbase s1 src va d' I1 Hus1 Hpt1s) as [I2 D2]; rewrite ?Ev, ?Eds; try done; [by rewrite M6|].
    rewrite He in I2, D2 |- *. rewrite Ev in D2. set (s2 := set_word _ (Z.of_nat e) d' s1) in *.
    assert (Hvw : view_of s1 d' = sees s1 src v) by (unfold VMINV.sees; rewrite Eds; unfold view_of; rewrite M4, M5, M2, M7, M8, M9, Hd; unfold desc_owned; by rewrite Er).
    assert (G2 : goes Q (in_hand (page_of d) base) s1 s2).
    { constructor; [|by eapply set_alone]. eapply set_calm; [exact I1|apply masks_none|exact Hps|exact D2|done|done|apply calm_refl| |]; intros; by rewrite Hvw. }
    assert (Eds2 : descr s2 src v = d') by (by rewrite (se_descr _ _ _ _ _ _ D2), decide_True).
    rewrite <- M2 in I2. rewrite <- (se_tabs _ _ _ _ _ _ D2 i va Hu1). rewrite <- He.
    destruct (put_more base sbase s2 i va d' I2 Hb Hu1) as [I3 D3]; try done.
    + by rewrite (se_tabs _ _ _ _ _ _ D2).
    + rewrite (se_descr _ _ _ _ _ _ D2) by (by rewrite Ev). rewrite decide_False by (rewrite Ev; congruence). done.
    + unfold cow_ok. by rewrite (se_foreign _ _ _ _ _ _ D2).
    + rewrite <- Eds2. apply (named_read _ _ _ src v I2); rewrite ?Eds2; try done. rewrite (se_foreign _ _ _ _ _ _ D2), M2. by rewrite (sl_foreign _ _ _ _ S1).
    + rewrite Ev in D3. eapply (entry_put base _ sbase sbase src i v d' s s2); try done.
      * rewrite M2. apply in_hand_le.
      * eapply goes_trans; [by apply still_goes|]. eapply goes_less; [exact I1|apply in_hand_le|exact G2].
      * intros _. split; [done|]. split; [unfold VMINV.sees; by rewrite Eds2|]. split.
        -- intros w Hw Hnw. rewrite (se_descr _ _ _ _ _ _ D2), decide_False by (done || congruence). by apply S1.
        -- intros a _ _. rewrite (se_held _ _ _ _ _ _ D2). apply Hh.
  - assert (Hod : own_write d = false) by (unfold own_write; by destruct (has d PDT_RESIDENT), (has d DESC_WP), (has d DESC_SW_SHARED)).
    destruct (put_more base sbase s1 i va d I1 Hb Hu1 Hpt1 Hn1 Hwf Hd Hod) as [I3 D3].
    + rewrite <- Eds. by apply (inv_cow _ _ _ I1).
    + rewrite <- Eds. apply (named_read _ _ _ src v I1); rewrite ?Eds; try done. by rewrite (sl_foreign _ _ _ _ S1).
    + rewrite Ev in D3. eapply (entry_more _ sbase s1 d); try done. apply in_hand_le.
Qed.
(** A copy, where the page can not be named once more. *)
Lemma copy_ok : desc_has_page d = true -> (fits s d -> False) ->
  entry_ok base sbase src i v s
    (let '(copy, s2) := page_alloc_user others s in
     if copy =? 0 then (false, s2) else (true, set_word (pagetable i va s) (PAGE_INDEX va) (Z.lor copy (Z.land d (not32 (Z.lor PAGE_ADDR_MASK DESC_SW_COW)))) (page_copy copy (page_of d) s2))).
Proof using Hi Hus Hqs Hui Hv Hne Hdst Hno Hsrc Hqi He Hothers.
  intros Hd Hnf. destruct entry_places as (Hps & Hpi & Ev). pose proof (inv_base _ _ _ Hi) as Hb. pose proof (inv_wf _ _ _ Hi src v Hps) as Hwf.
  pose proof (alloc_user_ok others Q Hothers base sbase s Hi) as Ha. destruct (page_alloc_user others s) as [copy s2]. destruct Ha as (G2 & [[-> I2]|(Hc & I2 & F2 & _)]).
  { cbn [Z.eqb]. by apply entry_stop. }
  rewrite (proj2 (Z.eqb_neq copy 0)) by done.
  destruct (copied_page base sbase s2 copy (page_of d) I2 Hb F2) as (I3 & S3 & F3). revert I3 S3 F3. generalize (page_copy copy (page_of d) s2). intros s3 I3 S3 F3.
  assert (G3 : goes Q base s s3) by (eapply goes_trans; [exact G2|by apply still_goes]).
  destruct (goes_kept others Q Hothers base s s3 i G3 Hui Hqi) as (Hu3 & _ & Ht3). rewrite <- (Ht3 va Hdst).
  assert (Hn3 : holds_none (descr s3 i (vpn va))) by (apply not_owned_none; rewrite Ev; by rewrite (goes_none Q base s s3 i v G3 Hpi Hui Hqi)).
  assert (Hbd : exists b, b = Z.land d (not32 (Z.lor PAGE_ADDR_MASK DESC_SW_COW)) /\ 0 <= b < 4096 /\ desc_wf b /\ has b DESC_SW_COW = false /\ desc_has_page b = has d PDT_RESIDENT /\ desc_owned b = has d PDT_RESIDENT).
  { exists (Z.land d 2047). split; [done|]. assert (Hr : 0 <= Z.land d 2047 < 4096) by (change 2047 with (Z.ones 11); rewrite Z.land_ones by lia; pose proof (Z.mod_pos_bound d (2 ^ 11)); lia).
    split; [done|]. unfold desc_wf, desc_has_page, desc_owned in *. rewrite !has_mask_or in *. rewrite !has_clear.
    change (Z.land 2047 PDT_RESIDENT) with PDT_RESIDENT. change (Z.land 2047 DESC_SW_NONE) with 0. change (Z.land 2047 DESC_SW_LAZY) with DESC_SW_LAZY. change (Z.land 2047 DESC_SW_SWAP) with DESC_SW_SWAP. change (Z.land 2047 DESC_SW_COW) with 0.
    assert (Hz : has d 0 = false) by (unfold has; by rewrite Z.land_0_r). rewrite Hz. destruct Hwf as (_ & W1 & W2). unfold is_u32. split; [split; [lia|done]|]. split; [done|].
    destruct (has d PDT_RESIDENT), (has d DESC_SW_NONE), (has d DESC_SW_LAZY), (has d DESC_SW_SWAP); naive_solver. }
  destruct Hbd as (b & <- & B1 & B2 & B3 & B4 & B5). pose proof F3 as [R1 _ R3 _ _ _ _]. pose proof (low_bits_of copy b ltac:(done) B1) as Hl. set (d' := Z.lor copy b) in *.
  destruct (low_facts _ _ _ Hl) as (L1 & L2 & _). assert (Hp3 : pagetable i va s3 <> 0) by (by rewrite Ht3).
  destruct (has d PDT_RESIDENT) eqn:Er.
  - destruct (put_fresh (X := None) (X' := None) base sbase s3 i va copy b d' I3 (masks_none _) Hu3 Hp3 Hn3 Hb F3 Hl B4 B2) as [I4 D4]; [by left|]. rewrite Ev in D4.
    eapply (entry_put base _ sbase sbase src i v d' s s3); try done. apply in_hand_le.
  - assert (Hn' : holds_none d') by (apply not_owned_none; by rewrite L1).
    destruct (put_none (X := None) (X' := None) (in_hand copy base) sbase s3 i va d' I3 (masks_none _) Hu3 Hp3 Hn3 Hn' (low_wf _ _ _ Hl B2)) as [I4 D4]. rewrite Ev in D4.
    exists (in_hand copy base). split; [apply in_hand_le|]. split; [done|]. split; [|done].
    eapply only_at_trans; [by apply goes_only|]. eapply only_at_less; [exact I3|apply in_hand_le|]. by eapply set_only.
Qed.
Lemma private_ok : desc_has_page d = true -> (has d DESC_SW_SHARED = true -> exists s1, pref (page_of d) s = (false, s1)) ->
  entry_ok base sbase src i v s (clone_private (pagetable i va s) va (pagetable src va s) d e s).
Proof using Hi Hus Hqs Hui Hv Hne Hdst Hno Hsrc Hqi He Hothers.
  intros Hd Hsh. destruct entry_places as (Hps & Hpi & Ev). pose proof (inv_base _ _ _ Hi) as Hb. pose proof (inv_wf _ _ _ Hi src v Hps) as Hwf. unfold clone_private.
  pose proof (page_fits Hd) as Hcnt. assert (Hcount : pg_foreign (mm s) (page_of d) = false -> 0 < pg_held (mm s) (page_of d)).
  { intros Hf. pose proof (Hcnt Hf). pose proof (Hb (page_of d)). pose proof (inv_count _ _ _ (page_of d) Hi Hf ltac:(lia)). pose proof (tc_held_nonneg _ (page_of d) (inv_tc _ _ _ Hi)). lia. }
  destruct (has d PDT_RESIDENT && (pg_refcount (page_of d) (mm s) =? 0)) eqn:Edev.
  { apply andb_true_iff in Edev as [Er Ez%Z.eqb_eq]. assert (Hf : pg_foreign (mm s) (page_of d) = true).
    { destruct (pg_foreign (mm s) (page_of d)) eqn:Ef; [done|]. pose proof (Hcount eq_refl). rewrite (pg_refcount_spec _ _ (inv_mm _ _ _ Hi)) in Ez by done. lia. }
    destruct (put_foreign base sbase s i va d Hi Hui Hdst entry_none Hwf Hd Hf) as [I3 D3]; [by apply (inv_cow _ _ _ Hi)|]. rewrite Ev in D3.
    eapply (entry_more base sbase s d); try done. intros a. pose proof (hold_bound a d). lia. }
  pose proof (pref_ok Q base sbase s (page_of d) Hi Hcnt) as Hp. destruct (pref (page_of d) s) as [more s1] eqn:Epr. destruct Hp as [(-> & -> & Hfull)|(-> & Hf & _)].
  - apply copy_ok; [done|]. intros Hfit. specialize (Hfit Hd). destruct (pg_foreign (mm s) (page_of d)) eqn:Ef.
    + rewrite Hfit in Edev. cbn [andb] in Edev. destruct (pg_foreign_spec _ _ (inv_mm _ _ _ Hi) Ef) as (_ & Ez & _). by rewrite Ez in Edev.
    + rewrite Hfull in Hfit by done. lia.
  - apply more_ok; [done|done|]. destruct (has d DESC_SW_SHARED); [|done]. by destruct (Hsh eq_refl) as [? ?].
Qed.
Lemma page_entry_ok : desc_has_page d = true -> entry_ok base sbase src i v s (clone_page (pagetable i va s) va (pagetable src va s) d e s).
Proof using Hi Hus Hqs Hui Hv Hne Hdst Hno Hsrc Hqi He Hothers.
  intros Hd. unfold clone_page. rewrite Hd, andb_true_r. destruct (has d DESC_SW_SHARED) eqn:Esh; [|apply private_ok; [done|congruence]].
  pose proof (pref_ok Q base sbase s (page_of d) Hi (page_fits Hd)) as Hp. destruct (pref (page_of d) s) as [more s1] eqn:Epr. destruct Hp as [(-> & -> & _)|(-> & _)].
  - apply private_ok; [done|]. intros _. by exists s.
  - by apply shared_ok.
Qed.
End entry.

(** ** Parent and child *)

Record cloner (src i : nat) (s : vm) : Prop := {
  cr_src : used (space s src) = true; cr_qs : Q src || busy (space s src) = true;
  cr_dst : used (space s i) = true; cr_qi : Q i || busy (space s i) = true; cr_ne : src <> i }.
Lemma cloner_kept src i s s' : cloner src i s -> kept Q s s' -> cloner src i s'.
Proof using Type.
  intros [A B C D E] K. destruct (ke_used _ _ _ K src A B) as [A1 A2]. destruct (ke_used _ _ _ K i C D) as [B1 B2]. constructor; try done; [by rewrite A2|by rewrite B2].
Qed.
Lemma entry_all base sbase src i v e s : vm_inv base sbase s -> cloner src i s -> 0 <= v < 65536 -> PAGE_INDEX (page_va v) = Z.of_nat e ->
  pagetable src (page_va v) s <> 0 -> desc_owned (descr s i v) = false ->
  entry_ok base sbase src i v s (clone_entry others i (pagetable src (page_va v) s) (page_va v) e s).
Proof using Hothers.
  intros Hi [A B C D E] Hv He Hpt Hno. destruct (page_va_user v Hv) as [Hva Ev]. pose proof (used_lt _ _ _ Hi src A) as Hls. pose proof (used_lt _ _ _ Hi i C) as Hli.
  rewrite clone_unfold. cbv zeta. destruct (pagetable_some _ _ _ _ _ Hi A Hpt) as (_ & Hps & Ei & Ew). specialize (Ew ltac:(done)). rewrite <- He, <- Ew, Ev. rewrite Ev in Hps.
  pose proof (inv_base _ _ _ Hi) as Hb. destruct (desc_owned (descr s src v)) eqn:Eo; cbn [negb].
  2:{ exists base. split; [done|]. split; [done|]. split; [apply goes_only, goes_refl|]. intros _. split; [done|]. intros _. cbn [snd]. constructor; [reflexivity| |reflexivity|].
      - unfold VMINV.sees. by rewrite (proj2 (view_none s (descr s i v)) Hno), (proj2 (view_none s (descr s src v)) Eo).
      - intros a _ _. pose proof (hold_bound a (descr s src v)). cbn. lia. }
  pose proof (pages_still Q base sbase s i (page_va v) Hi C) as Hp. destruct (as_pagetable i (page_va v) true s) as [t s1]. destruct Hp as (I1 & S1 & R1 & Hp & Hh).
  assert (El : lost s1 = lost s) by (by injection R1). destruct Hp as [-> |[Hne Et]]; [cbn [Z.eqb]; apply entry_stop; [done|by apply still_goes]|].
  rewrite (proj2 (Z.eqb_neq t 0)) by done. subst t. apply (entry_back base sbase src i v s s1); try done. rewrite <- (sl_descr _ _ _ _ S1 src v Hps), <- (sl_tabs _ _ _ _ S1 src _ A Hpt).
  destruct (still_used _ _ _ _ src S1) as [U1 U2]. destruct (still_used _ _ _ _ i S1) as [U3 U4].
  assert (Hpt1 : pagetable src (page_va v) s1 <> 0) by (by rewrite (sl_tabs _ _ _ _ S1)). assert (Hno1 : desc_owned (descr s1 i v) = false) by (by rewrite (sl_descr _ _ _ _ S1)).
  assert (Eo1 : desc_owned (descr s1 src v) = true) by (by rewrite (sl_descr _ _ _ _ S1)). rewrite A in U1. rewrite C in U3. rewrite <- U2 in B. rewrite <- U4 in D.
  destruct (has (descr s1 src v) DESC_SW_LAZY || has (descr s1 src v) DESC_SW_SWAP) eqn:Ek; [by apply promise_ok|]. apply page_entry_ok; try done.
  unfold desc_owned, desc_has_page in *. rewrite !has_mask_or in *. destruct (has (descr s1 src v) PDT_RESIDENT), (has (descr s1 src v) DESC_SW_NONE), (has (descr s1 src v) DESC_SW_LAZY), (has (descr s1 src v) DESC_SW_SWAP); done.
Qed.

(** ** Many pages *)

(** How often the pages of [l] name the page [a]. *)
Definition times (src : nat) (a : Z) (l : list Z) (s : vm) : Z := foldr (fun v n => hold a (descr s src v) + n) 0 l.
Definition room (src : nat) (l : list Z) (s : vm) : Prop := forall a, pg_foreign (mm s) a = false -> 0 < times src a l s -> pg_held (mm s) a + times src a l s <= 65536.
Definition shown (src : nat) (l : list Z) (s : vm) : Prop := forall v, v ∈ l -> desc_has_page (descr s src v) = true -> pg_foreign (mm s) (page_of (descr s src v)) = true ->
  has (descr s src v) PDT_RESIDENT = true.
Lemma times_nonneg src a l s : 0 <= times src a l s.
Proof using Type. induction l as [|v l IH]; cbn [times foldr]; [done|]. pose proof (hold_bound a (descr s src v)). unfold times in IH. lia. Qed.
Lemma times_app src a l1 l2 s : times src a (l1 ++ l2) s = times src a l1 s + times src a l2 s.
Proof using Type. induction l1 as [|v l1 IH]; [done|]. cbn [times foldr app]. unfold times in IH. rewrite IH. unfold times. lia. Qed.
Lemma times_same src a l s s' : (forall v, v ∈ l -> descr s' src v = descr s src v) -> times src a l s' = times src a l s.
Proof using Type. induction l as [|v l IH]; intros Hd; [done|]. cbn [times foldr]. unfold times in IH. rewrite IH, Hd; [done|by left|]. intros w Hw. apply Hd. by right. Qed.
Lemma times_some src a l s : 0 < times src a l s -> exists w, w ∈ l /\ hold a (descr s src w) <> 0.
Proof using Type.
  induction l as [|v l IH]; [done|]. cbn [times foldr]. unfold times in IH. intros Hp. destruct (Z.eq_dec (hold a (descr s src v)) 0) as [E|E].
  - destruct IH as (w & Hw & Hh); [lia|]. exists w. split; [by right|done].
  - exists v. split; [by left|done].
Qed.
Record batched (src i : nat) (l : list Z) (s s' : vm) : Prop := {
  bt_lost : lost s' = lost s;
  bt_sees : forall v, v ∈ l -> sees s' i v = sees s src v;
  bt_src : forall w, place src w -> w ∉ l -> descr s' src w = descr s src w;
  bt_held : forall a w, pg_foreign (mm s) a = false -> place src w -> w ∉ l -> hold a (descr s src w) <> 0 -> pg_held (mm s') a <= pg_held (mm s) a + times src a l s }.
Definition batch (base sbase : Z -> Z) (src i : nat) (l : list Z) (s : vm) (r : bool * vm) : Prop := exists base', (forall a, base a <= base' a) /\
  vm_inv base' sbase (snd r) /\ only_at Q base i (fun v => v ∈ l) s (snd r) /\
  (room src l s -> shown src l s -> (forall a, base' a = base a) /\ (fst r = true -> batched src i l s (snd r))).
Lemma batch_one base sbase src i v s r : (forall x, 0 <= base x) -> place src v -> entry_ok base sbase src i v s r -> batch base sbase src i [v] s r.
Proof using Type.
  intros Hb Hp (base' & E1 & E2 & E3 & E4). exists base'. split; [done|]. split; [done|]. split; [eapply only_at_more; [|exact E3]; intros w <-; by left|].
  intros Hr Hs. destruct E4 as [E4 E5].
  { intros Hd. destruct (pg_foreign (mm s) (page_of (descr s src v))) eqn:Ef; [apply Hs; [by left|done|done]|]. specialize (Hr _ Ef). unfold times in Hr. cbn [foldr] in Hr.
    rewrite hold_page in Hr by done. specialize (Hr ltac:(lia)). lia. }
  split; [done|]. intros Ho. destruct (E5 Ho) as [C1 C2 C3 C4]. constructor; [done| | |].
  - intros w [->|Hw]%elem_of_cons; [done|]. by apply elem_of_nil in Hw.
  - intros w Hw Hnw. apply C3; [done|]. intros ->. apply Hnw. by left.
  - intros a w Ha Hw _ Hh. destruct (hold_inv _ _ Hh) as [X1 X2]. pose proof (cnt_le s src w Hw X1) as Hc. rewrite X2 in Hc. specialize (C4 a Ha Hc). cbn [times foldr]. lia.
Qed.
Lemma batch_stop base sbase src i l1 l2 s s1 : batch base sbase src i l1 s (false, s1) -> batch base sbase src i (l1 ++ l2) s (false, s1).
Proof using Type.
  intros (base' & E1 & E2 & E3 & E4). exists base'. split; [done|]. split; [done|]. split; [eapply only_at_more; [|exact E3]; intros w Hw; apply elem_of_app; by left|].
  intros Hr Hs. destruct E4 as [E4 _]; [| |done].
  - intros a Hf Ht. specialize (Hr a Hf). rewrite times_app in Hr. pose proof (times_nonneg src a l2 s). lia.
  - intros v Hv. apply Hs, elem_of_app. by left.
Qed.
Lemma batch_app base sbase src i l1 l2 s s1 r : cloner src i s -> (forall v, v ∈ l1 ++ l2 -> place src v /\ place i v) -> NoDup (l1 ++ l2) ->
  batch base sbase src i l1 s (true, s1) -> (forall base1, vm_inv base1 sbase s1 -> batch base1 sbase src i l2 s1 r) -> batch base sbase src i (l1 ++ l2) s r.
Proof using Type.
  intros [A B C D E] Hl (_ & Hdis & _)%NoDup_app (base1 & E1 & I1 & O1 & F1) Hnext. cbn [snd fst] in *. destruct (Hnext base1 I1) as (base2 & E2 & I2 & O2 & F2).
  assert (Hx : forall w, w ∈ l1 -> w ∉ l2) by done. assert (Hl1 : forall w, w ∈ l1 -> place src w /\ place i w) by (intros w Hw; apply Hl, elem_of_app; by left).
  assert (Hl2 : forall w, w ∈ l2 -> place src w /\ place i w) by (intros w Hw; apply Hl, elem_of_app; by right).
  exists base2. split; [intros a; specialize (E1 a); specialize (E2 a); lia|]. split; [done|]. split.
  { eapply only_at_trans; (eapply only_at_more; [|first [exact O1|eapply only_at_less; [exact I1|exact E1|exact O2]]]); intros w Hw; apply elem_of_app; auto. }
  intros Hr Hs. destruct F1 as [Eb1 F1].
  { intros a Hf Ht. specialize (Hr a Hf). rewrite times_app in Hr. pose proof (times_nonneg src a l2 s). lia. }
  { intros v Hv. apply Hs, elem_of_app. by left. }
  destruct (F1 eq_refl) as [L1 V1 S1 H1h]. pose proof (oa_kept _ _ _ _ _ _ O1) as K1.
  assert (Hd2 : forall w, w ∈ l2 -> descr s1 src w = descr s src w) by (intros w Hw; apply S1; [by apply Hl2|]; intros Hw1; by apply (Hx w)).
  assert (Ht2 : forall a, times src a l2 s1 = times src a l2 s) by (intros a; by apply times_same).
  destruct F2 as [Eb2 F2].
  { intros a. rewrite (ke_foreign _ _ _ K1), Ht2. intros Hf Ht. pose proof (times_nonneg src a l1 s). specialize (Hr a Hf). rewrite times_app in Hr. specialize (Hr ltac:(lia)).
    destruct (times_some src a l2 s ltac:(lia)) as (w & Hw & Hh). specialize (H1h a w Hf ltac:(by apply Hl2) ltac:(intros Hw1; by apply (Hx w)) Hh). lia. }
  { intros v Hv. rewrite Hd2, (ke_foreign _ _ _ K1) by done. apply Hs, elem_of_app. by right. }
  split; [intros a; by rewrite Eb2, Eb1|]. intros Ho. destruct (F2 Ho) as [L2 V2 S2 H2h]. destruct (ke_used _ _ _ K1 i C D) as [U1 U2]. constructor.
  - by rewrite L2, L1.
  - intros w [Hw|Hw]%elem_of_app.
    + rewrite <- V1 by done. apply (oa_sees _ _ _ _ _ _ O2 L2 i w); [by apply Hl1|done|by rewrite U2|]. intros [_ Hw2]. by apply (Hx w).
    + rewrite V2 by done. apply (oa_sees _ _ _ _ _ _ O1 L1 src w); [by apply Hl2|done|done|]. intros [? _]. done.
  - intros w Hw Hnw. rewrite S2; [apply S1; [done|]|done|]; intros Hin; apply Hnw, elem_of_app; auto.
  - intros a w Hf Hw Hnw Hh. rewrite times_app, <- Ht2. assert (Hn : w ∉ l1 /\ w ∉ l2) by (split; intros Hin; apply Hnw, elem_of_app; auto). destruct Hn as [Hn1 Hn2].
    specialize (H1h a w Hf Hw Hn1 Hh). specialize (H2h a w ltac:(by rewrite (ke_foreign _ _ _ K1)) Hw Hn2 ltac:(by rewrite S1)). lia.
Qed.
Lemma batch_empty base sbase src i l s : vm_inv base sbase s -> (forall v, v ∈ l -> desc_owned (descr s src v) = false /\ desc_owned (descr s i v) = false) -> batch base sbase src i l s (true, s).
Proof using Type.
  intros Hi Hl. exists base. split; [done|]. split; [done|]. split; [apply goes_only, goes_refl|]. intros _ _. split; [done|]. intros _. cbn [snd]. constructor; [reflexivity| |reflexivity|].
  - intros v Hv. destruct (Hl v Hv) as [E1 E2]. unfold VMINV.sees. by rewrite (proj2 (view_none s _) E1), (proj2 (view_none s _) E2).
  - intros a w _ _ _ _. pose proof (times_nonneg src a l s). lia.
Qed.
Definition unset (i : nat) (l : list Z) (s : vm) : Prop := forall v, v ∈ l -> desc_owned (descr s i v) = false.
Lemma unset_kept base src i (l1 l2 : list Z) s s' : cloner src i s -> (forall v, v ∈ l2 -> place i v) -> (forall v, v ∈ l2 -> v ∉ l1) -> only_at Q base i (fun v => v ∈ l1) s s' -> unset i l2 s -> unset i l2 s'.
Proof using Type.
  intros [A B C D E] Hl Hd O1 Hun v Hv. apply (view_none s'). apply (oa_none _ _ _ _ _ _ O1 i v); [by apply Hl|done|done| |].
  - intros [_ Hv1]. by apply (Hd v).
  - apply view_none. by apply Hun.
Qed.
Definition vpns (n : nat) (es : list nat) : list Z := (fun e => 64 * Z.of_nat n + Z.of_nat e) <$> es.
Lemma vpns_elem n es v : v ∈ vpns n es <-> exists e, e ∈ es /\ v = 64 * Z.of_nat n + Z.of_nat e.
Proof using Type. unfold vpns. rewrite list_elem_of_fmap. naive_solver. Qed.
Lemma vpns_nodup n es : NoDup es -> NoDup (vpns n es).
Proof using Type. intros Hn. apply NoDup_fmap_2; [|done]. intros x y E. lia. Qed.
Lemma entries_ok sbase src i n pt es : (n < 1024)%nat -> pt <> 0 -> (forall e, e ∈ es -> (e < 64)%nat) -> NoDup es -> forall base s, vm_inv base sbase s -> cloner src i s ->
  pagetable src (table_va n) s = pt -> unset i (vpns n es) s ->
  batch base sbase src i (vpns n es) s (try_each (fun e s => clone_entry others i pt (table_va n + Z.of_nat e * PMM.PAGE_SIZE) e s) es s).
Proof using Hothers.
  intros Hn Hpt Hes Hnd. induction Hnd as [|e es Hin Hnd IH]; intros base s Hi Hc Hp Hun; cbn [try_each]; [apply batch_empty; [done|]; intros v Hv; by apply elem_of_nil in Hv|].
  assert (He : (e < 64)%nat) by (apply Hes; by left). set (v := 64 * Z.of_nat n + Z.of_nat e). assert (Hv : 0 <= v < 65536) by (unfold v; lia).
  assert (Eva : table_va n + Z.of_nat e * PMM.PAGE_SIZE = page_va v) by (unfold table_va, page_va, v, TABLE_SPAN; lia). rewrite Eva.
  destruct (page_va_user v Hv) as [Hva Ev]. pose proof (used_lt _ _ _ Hi _ (cr_src _ _ _ Hc)) as Hls. pose proof (used_lt _ _ _ Hi _ (cr_dst _ _ _ Hc)) as Hli.
  assert (Htb : pagetable src (page_va v) s = pt) by (rewrite (table_of base sbase s src v n); [done|done|apply Hc|done|unfold v; Z.div_mod_to_equations; lia]).
  assert (Epi : PAGE_INDEX (page_va v) = Z.of_nat e) by (destruct (va_index _ Hva) as (_ & _ & _ & ->); rewrite Ev; unfold ei, v; Z.div_mod_to_equations; lia).
  pose proof (entry_all base sbase src i v e s Hi Hc Hv Epi ltac:(by rewrite Htb) ltac:(apply Hun; by left)) as He1. rewrite Htb in He1.
  apply (batch_one base sbase src i v s) in He1; [|apply (inv_base _ _ _ Hi)|done].
  destruct (clone_entry others i pt (page_va v) e s) as [ok s1]. destruct ok; [|by apply (batch_stop base sbase src i [v])].
  assert (Hpl : forall w, w ∈ [v] ++ vpns n es -> place src w /\ place i w).
  { intros w [->%list_elem_of_singleton|(e' & He' & ->)%vpns_elem]%elem_of_app; [done|]. assert (e' < 64)%nat by (apply Hes; by right). split; (split; [done|lia]). }
  assert (Hnv : v ∉ vpns n es) by (intros (e' & He' & E)%vpns_elem; unfold v in E; assert (e' = e) as -> by lia; done).
  apply (batch_app base sbase src i [v] (vpns n es) s s1); [done|done|constructor; [done|by apply vpns_nodup]|done|].
  intros base1 I1. destruct He1 as (_ & _ & _ & O1 & _). cbn [snd] in O1. pose proof (oa_kept _ _ _ _ _ _ O1) as K1. apply IH; [intros e' He'; apply Hes; by right|done|by eapply cloner_kept| |].
  - rewrite (ke_tabs _ _ _ K1); [done|apply Hc|apply Hc|by rewrite Hp].
  - apply (unset_kept base src i [v] _ s); try done.
    + intros w Hw. apply Hpl, elem_of_app. by right.
    + intros w Hw ->%list_elem_of_singleton. done.
    + intros w Hw. apply Hun. by right.
Qed.
Lemma table_ok base sbase src i n s : (n < 1024)%nat -> vm_inv base sbase s -> cloner src i s -> unset i (vpns n (seq 0 PAGE_ENTRIES)) s ->
  batch base sbase src i (vpns n (seq 0 PAGE_ENTRIES)) s (clone_table others src i n s).
Proof using Hothers.
  intros Hn Hi Hc Hun. pose proof (used_lt _ _ _ Hi _ (cr_src _ _ _ Hc)) as Hls. assert (Hes : forall e, e ∈ seq 0 PAGE_ENTRIES -> (e < 64)%nat) by (intros e [_ He]%elem_of_seq; exact He).
  unfold clone_table. destruct (Z.eqb_spec (pagetable src (table_va n) s) 0) as [Ez|Hpt].
  - apply batch_empty; [done|]. intros v Hv. split; [|by apply Hun]. apply vpns_elem in Hv as (e & He%Hes & ->). set (v := _ + _). assert (Hv : 0 <= v < 65536) by (unfold v; lia).
    destruct (page_va_user v Hv) as [Hva Ev]. rewrite <- Ev. rewrite (descr_out base sbase); [done|done|apply Hc| |done].
    rewrite (table_of base sbase s src v n); [done|done|apply Hc|done|unfold v; Z.div_mod_to_equations; lia].
  - apply entries_ok; try done. apply NoDup_seq.
Qed.
Fixpoint table_pages (ns : list nat) : list Z := match ns with [] => [] | n :: ns => vpns n (seq 0 PAGE_ENTRIES) ++ table_pages ns end.
Lemma table_pages_elem ns v : v ∈ table_pages ns <-> exists n, n ∈ ns /\ v / 64 = Z.of_nat n.
Proof using Type.
  induction ns as [|n ns IH]; cbn [table_pages].
  { split; [intros E; by apply elem_of_nil in E|]. intros (n & E & _). by apply elem_of_nil in E. }
  rewrite elem_of_app, IH, vpns_elem. split.
  - intros [(e & [_ He]%elem_of_seq & ->)|(m & Hm & E)]; [|exists m; split; [by right|done]]. exists n. split; [by left|]. unfold PAGE_ENTRIES in He. Z.div_mod_to_equations. lia.
  - intros (m & [->|Hm]%elem_of_cons & E); [left|right; by exists m]. exists (Z.to_nat (v mod 64)). rewrite elem_of_seq. unfold PAGE_ENTRIES. pose proof (Z.mod_pos_bound v 64 ltac:(lia)).
    rewrite Z2Nat.id by lia. split; [lia|]. Z.div_mod_to_equations. lia.
Qed.
Lemma table_pages_nodup ns : NoDup ns -> NoDup (table_pages ns).
Proof using Type.
  intros Hn. induction Hn as [|n ns Hin Hn IH]; cbn [table_pages]; [constructor|]. apply NoDup_app. split; [apply vpns_nodup, NoDup_seq|]. split; [|done].
  intros v (e & [_ He]%elem_of_seq & ->)%vpns_elem (m & Hm & E)%table_pages_elem. apply Hin. unfold PAGE_ENTRIES in He. assert (m = n) as -> by (Z.div_mod_to_equations; lia). done.
Qed.
Lemma tables_all_ok sbase src i ns : (forall n, n ∈ ns -> (n < 1024)%nat) -> NoDup ns -> forall base s, vm_inv base sbase s -> cloner src i s ->
  unset i (table_pages ns) s -> batch base sbase src i (table_pages ns) s (try_each (clone_table others src i) ns s).
Proof using Hothers.
  intros Hns Hnd. induction Hnd as [|n ns Hin Hnd IH]; intros base s Hi Hc Hun; cbn [try_each table_pages]; [apply batch_empty; [done|]; intros v Hv; by apply elem_of_nil in Hv|].
  pose proof (used_lt _ _ _ Hi _ (cr_src _ _ _ Hc)) as Hls. pose proof (used_lt _ _ _ Hi _ (cr_dst _ _ _ Hc)) as Hli. assert (Hn : (n < 1024)%nat) by (apply Hns; by left).
  pose proof (table_ok base sbase src i n s Hn Hi Hc ltac:(intros v Hv; apply Hun; cbn [table_pages]; apply elem_of_app; by left)) as Hb1.
  destruct (clone_table others src i n s) as [ok s1]. destruct ok; [|by apply batch_stop].
  pose proof (table_pages_nodup (n :: ns) ltac:(by constructor)) as Hnd'. cbn [table_pages] in Hnd'.
  assert (Hpl : forall w, w ∈ table_pages (n :: ns) -> place src w /\ place i w).
  { intros w (m & Hm%Hns & E)%table_pages_elem. assert (0 <= w < 65536) by (Z.div_mod_to_equations; lia). done. }
  cbn [table_pages] in Hpl. apply (batch_app base sbase src i _ _ s s1); try done. intros base1 I1. destruct Hb1 as (_ & _ & _ & O1 & _). cbn [snd] in O1.
  apply IH; [intros m Hm; apply Hns; by right|done|eapply cloner_kept; [done|apply (oa_kept _ _ _ _ _ _ O1)]|].
  apply (unset_kept base src i (vpns n (seq 0 PAGE_ENTRIES)) _ s); try done.
  - intros w Hw. apply Hpl, elem_of_app. by right.
  - intros w Hw Hw1. apply NoDup_app in Hnd' as (_ & Hd & _). by apply (Hd w).
  - intros w Hw. apply Hun. cbn [table_pages]. apply elem_of_app. by right.
Qed.

(** ** The whole space *)

Definition all_pages : list Z := table_pages (seq 0 USER_TABLES).
Lemma all_pages_elem v : v ∈ all_pages <-> 0 <= v < 65536.
Proof using Type.
  unfold all_pages. rewrite table_pages_elem. split.
  - intros (n & [_ Hn]%elem_of_seq & E). unfold USER_TABLES in Hn. Z.div_mod_to_equations. lia.
  - intros Hv. exists (Z.to_nat (v / 64)). rewrite elem_of_seq. unfold USER_TABLES. assert (0 <= v / 64 < 1024) by (Z.div_mod_to_equations; lia). rewrite Z2Nat.id by lia. lia.
Qed.
Lemma all_tables_ok base sbase src i s : vm_inv base sbase s -> cloner src i s -> unset i all_pages s ->
  batch base sbase src i all_pages s (try_each (clone_table others src i) (seq 0 USER_TABLES) s).
Proof using Hothers. intros Hi Hc Hun. exact (tables_all_ok sbase src i (seq 0 USER_TABLES) table_numbers (NoDup_seq _ _) base s Hi Hc Hun). Qed.
#[local] Opaque all_pages.
(** There is room for a copy: every page has a hold left for each time the
    space names it, and no page of a device is hidden. *)
Definition copyable (src : nat) (s : vm) : Prop := room src all_pages s /\ shown src all_pages s.
Lemma copyable_same base src s s' : (forall v, place src v -> descr s' src v = descr s src v) -> (src < KERNEL)%nat -> (forall a, 0 <= base a) ->
  (forall a, pg_foreign (mm s') a = pg_foreign (mm s) a) -> (forall a, 0 < base a + cnt s a -> pg_foreign (mm s) a = false -> pg_held (mm s') a = pg_held (mm s) a) ->
  copyable src s -> copyable src s'.
Proof using Type.
  intros Hd Hs Hb Hf Hh [Hr Hsh]. assert (Hdl : forall v, v ∈ all_pages -> descr s' src v = descr s src v) by (intros v Hv%all_pages_elem; by apply Hd).
  assert (Ht : forall a, times src a all_pages s' = times src a all_pages s) by (intros a; by apply times_same). split.
  - intros a. rewrite Ht, Hf. intros Hfa Hp. rewrite Hh; [by apply Hr| |done]. destruct (times_some _ _ _ _ Hp) as (w & Hw%all_pages_elem & Hx).
    destruct (hold_inv _ _ Hx) as [X1 <-]. pose proof (cnt_le s src w ltac:(done) X1). pose proof (Hb (page_of (descr s src w))). lia.
  - intros v Hv. rewrite Hdl, Hf by done. by apply Hsh.
Qed.
Lemma tweak_besides base i a' (s : vm) : (i < KERNEL)%nat -> length (spaces s) = KERNEL -> (forall j v, place j v -> sees (set_space i a' s) j v = sees s j v) ->
  besides i Q base s (set_space i a' s).
Proof using Type.
  intros Hi Hlen Hse. assert (Hsp : forall j, j <> i -> space (set_space i a' s) j = space s j) by (intros j Hj; by apply set_space_other).
  constructor; try done.
  - intros j Hj. by rewrite Hsp.
  - intros j va Hj _ _ _. unfold pagetable, as_pagetable. cbn [spaces set_space store]. rewrite list_lookup_insert_ne by done. destruct (spaces s !! j); [|done]. destruct (_ || _); [done|].
    unfold next_table. cbn [negb]. change (word (set_space i a' s)) with (word s). destruct (negb (has _ _)); [done|]. destruct (_ =? 0); [done|]. change (word (set_space i a' s)) with (word s). by destruct (negb (has _ _)).
  - intros j v Hj Hp _ _. by rewrite Hse.
  - intros _ j v Hj Hp _ _. by apply Hse.
Qed.
Record forked (src i : nat) (s s' : vm) : Prop := {
  fk_new : used (space s i) = false;
  fk_used : used (space s' i) = true;
  fk_ready : busy (space s' i) = false;
  fk_brk : brk_start (space s' i) = brk_start (space s' src) /\ brk_cur (space s' i) = brk_cur (space s' src);
  fk_lost : lost s' = lost s;
  fk_child : forall v, place i v -> sees s' i v = sees s src v;
  fk_parent : forall v, place src v -> sees s' src v = sees s src v }.
Lemma clone_ok base sbase s src : vm_inv base sbase s -> used (space s src) = true -> Q src || busy (space s src) = true ->
  let '(r, s') := vm_clone others src s in
  exists base', (forall a, base a <= base' a) /\ vm_inv base' sbase s' /\ goes Q base s s' /\
    (copyable src s -> (forall a, base' a = base a) /\ forall i, r = Some i -> forked src i s s').
Proof using Hothers.
  intros Hi Hu Hq. pose proof (inv_base _ _ _ Hi) as Hb. pose proof (used_lt _ _ _ Hi src Hu) as Hls. unfold vm_clone.
  destruct (_ <? _). { exists base. split; [done|]. split; [done|]. split; [apply goes_refl|]. by split. }
  pose proof (create_ok Q base sbase s Hi) as Hcr. destruct (vm_create s) as [r s1]. destruct Hcr as (I1 & G1 & R1 & Hh1 & Hm).
  destruct r as [i|]. 2:{ exists base. split; [done|]. split; [done|]. split; [done|]. by split. }
  destruct Hm as [M1 M2 M3 M4 M5 M6 M7 M8 M9]. assert (Hne : src <> i) by (intros ->; congruence). assert (El1 : lost s1 = lost s) by (by injection R1).
  assert (Hc1 : cloner src i s1) by (constructor; try done; [by rewrite M8|by rewrite M8|by rewrite M4, orb_true_r]).
  assert (Hun : unset i all_pages s1) by (intros v Hv%all_pages_elem; by rewrite M7).
  pose proof (all_tables_ok base sbase src i s1 I1 Hc1 Hun) as Hbt.
  destruct (try_each (clone_table others src i) (seq 0 USER_TABLES) s1) as [ok s2]. destruct Hbt as (base' & E1 & I2 & O2 & F2). cbn [snd fst] in *.
  pose proof (oa_kept _ _ _ _ _ _ O2) as K2. pose proof (cloner_kept _ _ _ _ Hc1 K2) as [C1 C2 C3 C4 _]. assert (B2 : besides i Q base s s2) by (eapply besides_trans; [by apply goes_besides|by eapply only_besides]).
  assert (F2' : copyable src s -> (forall a, base' a = base a) /\ (ok = true -> batched src i all_pages s1 s2)).
  { intros Hcp. apply (copyable_same base src s s1) in Hcp as [X1 X2]; try done; [by apply F2|intros v Hp; by apply M9|apply (ke_foreign _ _ _ (cm_kept _ _ _ (go_calm _ _ _ _ G1)))]. }
  destruct ok.
  - set (p := space s2 src). set (a' := _ <| busy := false |>). pose proof (inv_len _ _ _ I2) as Hlen2.
    destruct (tweak_ok Q base' sbase s2 i a' I2 M1 ltac:(done) ltac:(done)) as (I3 & V3 & _). set (s3 := set_space i a' s2) in *.
    assert (B3 : besides i Q base s2 s3) by (apply tweak_besides; [done|done|]; intros j v Hp; by apply V3).
    pose proof (besides_trans _ _ _ _ _ _ B2 B3) as B4. assert (Hsp : forall j, space s3 j = if decide (j = i) then a' else space s2 j) by (intros j; by apply space_set).
    exists base'. split; [done|]. split; [done|]. split; [by eapply besides_goes; [|left]|]. intros Hcp. destruct (F2' Hcp) as [Eb Hbt]. split; [done|]. intros i' [= <-].
    destruct (Hbt eq_refl) as [L2 V2 _ _]. assert (El3 : lost s3 = lost s) by (change (lost s3) with (lost s2); congruence). constructor; rewrite ?Hsp, ?decide_True by done; try done.
    + by rewrite decide_False.
    + intros v Hp. destruct (V3 i v Hp) as [_ ->]. rewrite V2 by (by apply all_pages_elem, Hp). apply (cm_view _ _ _ (go_calm _ _ _ _ G1)); try done. split; [done|apply Hp].
    + intros v Hp. by apply (be_sees _ _ _ _ _ B4).
  - destruct (destroy_ok Q base' sbase s2 i I2 C3) as (I3 & B3 & _). exists base'. split; [done|]. split; [done|]. split.
    + eapply besides_goes; [|by left]. eapply besides_trans; [exact B2|]. by eapply besides_less.
    + intros Hcp. by destruct (F2' Hcp).
Qed.
End clone.
End VMCLONE.
