(* ===== verification/Vmoff.v ===== *)
(** * Address spaces: bringing everything back from the swap file (kernel/vm.c)

    A page read back takes the place of the slot it was in, if its descriptor
    is after the read what it was before; the invariant is kept, and every
    page mapped stays mapped. *)

From S2P Require Import Prelude Pmm Pages Swap Vm Vmtab Vminv Vmdesc Vmstep Vmput Vmfault Vmcalls.
Local Open Scope Z_scope.

Module VMOFF.
Import VM VMTAB VMINV VMDESC VMSTEP VMPUT VMPLAIN VMFAULT VMCALLS.

Section off.
Context {W S T : Type} `{TextCache T W} `{SwapSlots S}.
#[local] Abbreviation vm := (@vm W S T).
Context (others : nat -> vm -> vm) (patience : nat) (Q : nat -> bool) (Hothers : forall n, tame Q (others n)).

(** What is mapped stays so. *)
Record tidy (base : Z -> Z) (s s' : vm) : Prop := { ty_kept : kept Q s s'; ty_alone : alone base s s'; ty_none : same_none Q s s' }.
Lemma tidy_trans base s1 s2 s3 : tidy base s1 s2 -> tidy base s2 s3 -> tidy base s1 s3.
Proof using Type.
  intros [K1 A1 N1] [K2 A2 N2]. constructor; [by eapply kept_trans|by eapply alone_trans|]. intros i v Hp Hu Hq. destruct (ke_used _ _ _ K1 i Hu Hq) as [U1 U2].
  rewrite <- (N1 i v Hp Hu Hq). rewrite <- U2 in Hq. by apply N2.
Qed.
Lemma goes_tidy base s s' : goes Q base s s' -> tidy base s s'.
Proof using Type. intros [[K N _] A]. by constructor. Qed.
Lemma tidy_less base base' sbase s s' : vm_inv base' sbase s -> (forall a, base a <= base' a) -> tidy base' s s' -> tidy base s s'.
Proof using Type. intros Hi Hle [K A N]. constructor; [done|by eapply alone_less|done]. Qed.

(** A page read back, put where its slot was. *)
Definition back_desc (pa d : Z) : Z :=
  if has d DESC_SW_NONE then Z.lor pa DESC_SW_NONE else Z.lor pa (page_bits (Z.lor VM_USER (if has d DESC_WP then 0 else VM_WRITE))).
Lemma back_desc_facts pa d : is_page pa -> exists b, low_bits pa b (back_desc pa d) /\ desc_has_page b = true /\ desc_wf b /\ (has b DESC_SW_COW = false \/ has b PDT_RESIDENT = false).
Proof using Type.
  intros Hp. unfold back_desc. destruct (has d DESC_SW_NONE).
  - exists DESC_SW_NONE. split; [by apply low_bits_of|]. vm_compute. intuition congruence.
  - exists (page_bits (Z.lor VM_USER (if has d DESC_WP then 0 else VM_WRITE))). destruct (has d DESC_WP); (split; [by apply low_bits_of|]); vm_compute; intuition congruence.
Qed.
Lemma put_back_ok base sbase s i va pa d : (forall x, 0 <= base x) -> vm_inv (in_hand pa base) sbase s -> fresh s base pa -> used (space s i) = true -> pagetable i va s <> 0 ->
  word s (pagetable i va s) (PAGE_INDEX va) = d -> has d DESC_SW_SWAP = true ->
  let s' := set_word (pagetable i va s) (PAGE_INDEX va) (back_desc pa d) (s <| sw := sl_free (slot_of d) (sw s) |>) in vm_inv base sbase s' /\ tidy base s s'.
Proof using Type.
  intros Hb Hi Hf Hu Hpt Ewd Hsw. destruct (pagetable_some _ _ _ _ _ Hi Hu Hpt) as (Hva & Hpl & Ei & Ew). specialize (Ew ltac:(done)). rewrite Ewd in Ew.
  pose proof (inv_wf _ _ _ Hi i _ Hpl) as (_ & W1 & W2). rewrite Ew in W1, W2.
  assert (Hr : has d PDT_RESIDENT = false) by (destruct (has d PDT_RESIDENT); [destruct (W1 eq_refl); congruence|done]).
  assert (Hnp : desc_has_page d = false) by (unfold desc_has_page; by rewrite Hr, has_mask_or, Hsw, orb_true_r, andb_false_r).
  assert (Hdo : desc_owned d = true) by (unfold desc_owned; by rewrite !has_mask_or, Hsw, !orb_true_r).
  assert (Hin : in_swap d = true) by (unfold in_swap; by rewrite Hnp, Hsw).
  destruct (back_desc_facts pa d) as (b & Hl & B1 & B2 & B3); [split; apply Hf|]. set (s3 := s <| sw := sl_free (slot_of d) (sw s) |>).
  destruct (trade_page Q base sbase s s3 i va pa b (back_desc pa d) Hi Hb Hu Hpt ltac:(by rewrite Ew) Hf Hl B1 B2 B3) as (I4 & A4 & K4 & N4 & _); [done|done| |split; [exact I4|by constructor]].
  rewrite Ew. intros Hm. apply (let_slot_go _ Q (in_hand pa base) sbase) in Hm; [done|apply (inv_sbase _ _ _ Hi)|done].
Qed.
(** Only a call that waits for a slot for good has a page in hand. *)
Definition off_ok (base sbase : Z -> Z) (s : vm) (go : bool) (st : option Z * vm) : Prop :=
  exists base', (forall a, base a <= base' a) /\ vm_inv base' sbase (snd st) /\ tidy base s (snd st) /\ (go = true \/ is_Some (fst st) -> forall a, base' a = base a).
Lemma entry_back_ok base sbase s i n pt e : vm_inv base sbase s -> (n < 1024)%nat -> (e < 64)%nat -> pt <> 0 ->
  let '(r, go, s') := swapoff_entry others patience i n pt e s in off_ok base sbase s go (r, s').
Proof using Hothers.
  intros Hi Hn He Hpt. pose proof (inv_base _ _ _ Hi) as Hb. unfold swapoff_entry. set (d := word s pt (Z.of_nat e)).
  assert (Hstop : forall go r s', vm_inv base sbase s' -> tidy base s s' -> off_ok base sbase s go (r, s')) by (intros go r s' I G; by exists base).
  destruct (has d DESC_SW_SWAP) eqn:Esw; cbn [negb]; [|apply Hstop; [done|apply goes_tidy, goes_refl]].
  assert (Hal : let '(pa, s1) := if RESERVE_PAGES <? pg_available (mm s) then palloc s else (0, s) in
    (pa = 0 /\ vm_inv base sbase s1 /\ goes Q base s s1) \/ (pa <> 0 /\ vm_inv (in_hand pa base) sbase s1 /\ goes Q base s s1 /\ fresh s1 base pa)).
  { destruct (_ <? _); [|left; split; [done|]; split; [done|apply goes_refl]]. pose proof (palloc_ok Q base sbase s Hi) as Hp. destruct (palloc s) as [pa s1].
    destruct Hp as [[-> ->]|(P1 & P2 & P3 & P4 & _)]; [left; split; [done|]; split; [done|apply goes_refl]|right]. split; [done|]. split; [done|]. split; [by apply still_goes|done]. }
  destruct (if RESERVE_PAGES <? pg_available (mm s) then palloc s else (0, s)) as [pa s1]. destruct Hal as [(-> & I1 & G1)|(Hne & I1 & G1 & F1)]; [cbn [Z.eqb]; apply Hstop; [done|by apply goes_tidy]|].
  rewrite (proj2 (Z.eqb_neq pa 0)) by done. pose proof (wait_ok others Q Hothers (in_hand pa base) sbase patience (slot_of d) s1 I1) as Hw.
  destruct (swap_wait_idle others patience (slot_of d) s1) as [ok s2]. destruct Hw as [I2 G2].
  assert (G2' : goes Q base s s2) by (eapply goes_trans; [exact G1|eapply goes_less; [exact I1|apply in_hand_le|exact G2]]).
  destruct ok; cbn [negb]. 2:{ exists (in_hand pa base). split; [apply in_hand_le|]. split; [done|]. split; [by apply goes_tidy|]. intros [?|[]]; done. }
  assert (F2 : fresh s2 base pa).
  { destruct F1 as [R1 R2 R3 R4 R5 R6 R7]. assert (Hh : pg_held (mm s1) pa = in_hand pa base pa) by (rewrite (inv_count _ _ _ pa I1 R4), R6, R5; [lia|rewrite in_hand_at; lia]).
    destruct (go_alone _ _ _ _ G2 pa) as (A1 & A2 & A3); [rewrite in_hand_at; lia|done|done|]. by apply (fresh_of base sbase). }
  pose proof (swap_in_ok others Q Hothers base sbase s2 pa (slot_of d) I2 Hb F2) as Hs. destruct (swap_in others (slot_of d) pa s2) as [err s3]. destruct Hs as (I3 & G3 & F3 & _).
  assert (G3' : goes Q base s s3) by (by eapply goes_trans). destruct (err <? 0).
  { destruct (give_back others Q Hothers base sbase s s3 pa Hb I3 G3') as [I4 G4]. apply Hstop; [done|by apply goes_tidy]. }
  set (v := 64 * Z.of_nat n + Z.of_nat e). assert (Hv : 0 <= v < 65536) by (unfold v; lia).
  assert (Eva : table_va n + Z.of_nat e * PMM.PAGE_SIZE = page_va v) by (unfold table_va, page_va, v, TABLE_SPAN; lia). rewrite Eva.
  destruct (page_va_user v Hv) as [Hva Ev]. assert (Epi : PAGE_INDEX (page_va v) = Z.of_nat e) by (destruct (va_index _ Hva) as (_ & _ & _ & ->); rewrite Ev; unfold ei, v; Z.div_mod_to_equations; lia).
  destruct (negb (used (space s3 i)) || negb (pagetable i (page_va v) s3 =? pt) || negb (word s3 pt (Z.of_nat e) =? d)) eqn:Ec.
  { destruct (give_back others Q Hothers base sbase s s3 pa Hb I3 G3') as [I4 G4]. apply Hstop; [done|by apply goes_tidy]. }
  apply orb_false_iff in Ec as [Ec E3%negb_false_iff%Z.eqb_eq]. apply orb_false_iff in Ec as [E1%negb_false_iff E2%negb_false_iff%Z.eqb_eq].
  rewrite <- Epi, <- E2. fold (back_desc pa d). destruct (put_back_ok base sbase s3 i (page_va v) pa d Hb I3 F3 E1 ltac:(by rewrite E2) ltac:(by rewrite E2, Epi) Esw) as [I4 T4].
  apply Hstop; [done|]. eapply tidy_trans; [by apply goes_tidy|done].
Qed.
Lemma off_refl base sbase st go : vm_inv base sbase (snd st) -> off_ok base sbase (snd st) go st.
Proof using Type. intros Hi. exists base. split; [done|]. split; [done|]. split; [apply goes_tidy, goes_refl|done]. Qed.
Lemma off_each {A : Type} (f : A -> option Z * vm -> bool * (option Z * vm)) sbase l base st : vm_inv base sbase (snd st) ->
  (forall x base st, x ∈ l -> vm_inv base sbase (snd st) -> let '(go, st') := f x st in off_ok base sbase (snd st) go st') ->
  let '(go, st') := try_each f l st in off_ok base sbase (snd st) go st'.
Proof using Type.
  revert base st. induction l as [|x l IH]; intros base st Hi Hf; cbn [try_each]; [by apply off_refl|].
  pose proof (Hf x base st ltac:(by left) Hi) as H1x. destruct (f x st) as [go st1]. destruct go; [|done]. destruct H1x as (base' & E1 & I1 & T1 & E2). specialize (E2 (or_introl eq_refl)).
  assert (I1' : vm_inv base sbase (snd st1)) by (eapply inv_bases; [| |exact I1]; [|done]; intros a; by rewrite E2).
  pose proof (IH base st1 I1' ltac:(intros y base2 st2 Hy; apply Hf; by right)) as H2x. destruct (try_each f l st1) as [go st2]. destruct H2x as (base2 & F1 & I2 & T2 & F2).
  exists base2. split; [done|]. split; [done|]. split; [by eapply tidy_trans|done].
Qed.
Lemma table_back_ok base sbase i n st : (n < 1024)%nat -> vm_inv base sbase (snd st) ->
  let '(go, st') := swapoff_table others patience i n st in off_ok base sbase (snd st) go st'.
Proof using Hothers.
  intros Hn Hi. unfold swapoff_table. destruct (Z.eqb_spec (pagetable i (table_va n) (snd st)) 0) as [_|Hpt]; [by apply off_refl|].
  apply off_each; [done|]. intros e base1 [r s] [_ He]%elem_of_seq I1. cbn [snd] in *.
  pose proof (entry_back_ok base1 sbase s i n _ e I1 Hn He Hpt) as Hx. by destruct (swapoff_entry _ _ _ _ _ _ _) as [[r' go] s'].
Qed.
Lemma swapoff_ok base sbase s : vm_inv base sbase s ->
  let '(r, s') := vm_swapoff others patience s in exists base', (forall a, base a <= base' a) /\ vm_inv base' sbase s' /\ tidy base s s' /\ (is_Some r -> forall a, base' a = base a).
Proof using Hothers.
  intros Hi. unfold vm_swapoff. set (f := fun i st => _). pose proof (off_each f sbase (seq 0 MAX_SPACES) base (None, s) Hi) as Hx.
  destruct (try_each f _ _) as [go [r s']]. cbn [snd] in Hx. destruct Hx as (base' & E1 & I1 & T1 & E2).
  { intros i base1 st _ I1. unfold f. destruct (used _); [|by apply off_refl]. apply off_each; [done|]. intros n base2 st2 [_ Hn]%elem_of_seq I2. by apply table_back_ok. }
  cbn [snd fst] in *. destruct go; exists base'; (split; [done|]; split; [done|]; split; [done|]); intros Hr; apply E2; auto.
Qed.
End off.
End VMOFF.
