(* ===== verification/Vmmem.v ===== *)
(** * Address spaces as memory (kernel/vm.c, kernel/uaccess.c)

    Reading and writing through the tables: the walk finds the byte of the
    page that is seen, a page maps whole, and a byte written to a page of a
    program's own is seen nowhere else. *)

From S2P Require Import Prelude Pmm Pages Swap Uaccess Vm Vmtab Vminv Vmdesc Vmstep Vmput Vmfault Vmcalls Vmspace Vmclone.
Local Open Scope Z_scope.

Module VMMEM.
Import VM VMTAB VMINV VMDESC VMSTEP VMPUT VMPLAIN VMFAULT VMCALLS VMSPACE VMCLONE.

Section walk.
Context {W S T : Type} `{TextCache T W} `{SwapSlots S}.
#[local] Abbreviation vm := (@vm W S T).

Lemma offset_land va : Z.land va PMM.PAGE_MASK = va mod 4096.
Proof using Type. change PMM.PAGE_MASK with (Z.ones 12). by rewrite Z.land_ones. Qed.
(** What the walk's answer says of the descriptor. *)
Record reaches (i : nat) (va : Z) (write : bool) (s : vm) (pa : Z) : Prop := {
  re_va : user_va va;
  re_place : place i (vpn va);
  re_page : has (descr s i (vpn va)) PDT_RESIDENT = true;
  re_write : write = true -> has (descr s i (vpn va)) DESC_WP = false;
  re_pa : pa = page_of (descr s i (vpn va)) + va mod 4096 }.
Lemma translate_reaches base sbase s i va write : vm_inv base sbase s -> used (space s i) = true -> vm_translate i va write s <> 0 ->
  reaches i va write s (vm_translate i va write s).
Proof.
  intros Hi Hu. unfold vm_translate. destruct (Z.eqb_spec (pagetable i va s) 0) as [|Hpt]; [done|]. destruct (pagetable_some _ _ _ _ _ Hi Hu Hpt) as (Hva & Hpl & _ & Ew).
  rewrite <- Ew by done. set (d := descr s i (vpn va)). destruct (has d PDT_RESIDENT) eqn:Er; cbn [negb]; [|done]. destruct (write && has d DESC_WP) eqn:Ewp; [done|].
  destruct (has d DESC_SUPER); [done|]. intros _. pose proof (inv_wf _ _ _ Hi i _ Hpl) as [Hu32 _]. fold d in Hu32. destruct (page_of_page d Hu32) as [_ Hm].
  constructor; try done; fold d; [destruct write; [by rewrite <- Ewp|done]|]. rewrite offset_land. rewrite (lor_add _ _ 12); [done|lia|done|apply Z.mod_pos_bound; lia].
Qed.
(** The tables map a page whole: what the copies of uaccess.c rely on. *)
Lemma walk_within (s : vm) i a k : 0 <= k -> a mod 4096 + k < 4096 -> pagetable i (a + k) s = pagetable i a s /\ PAGE_INDEX (a + k) = PAGE_INDEX a.
Proof.
  intros Hk Hp. assert (Hidx : (a + k) / 4096 = a / 4096) by (Z.div_mod_to_equations; lia).
  unfold pagetable, as_pagetable, ROOT_INDEX, PTR_INDEX, PAGE_INDEX. rewrite !Z.shiftr_div_pow2 by lia.
  assert (E : forall n, 12 <= n -> (a + k) / 2 ^ n = a / 2 ^ n).
  { intros n Hn. replace (2 ^ n) with (4096 * 2 ^ (n - 12)) by (change 4096 with (2 ^ 12); rewrite <- Z.pow_add_r by lia; f_equal; lia).
    rewrite <- !Z.div_div by (try apply Z.pow_pos_nonneg; lia). by rewrite Hidx. }
  rewrite !E by lia. split; [|done]. destruct (spaces s !! i); [|done]. replace (a + k <? USER_VA_BASE) with (a <? USER_VA_BASE); [replace (USER_VA_END <=? a + k) with (USER_VA_END <=? a); [done|]|];
    unfold USER_VA_END, USER_VA_SIZE, USER_VA_BASE; apply eq_true_iff_eq; rewrite ?Z.ltb_lt, ?Z.leb_le; Z.div_mod_to_equations; lia.
Qed.
Lemma vpn_within a k : 0 <= k -> a mod 4096 + k < 4096 -> vpn (a + k) = vpn a.
Proof. intros. unfold vpn, USER_VA_BASE. Z.div_mod_to_equations. lia. Qed.
Lemma translate_within base sbase s i a k w : vm_inv base sbase s -> used (space s i) = true -> 0 <= k -> a mod 4096 + k < 4096 -> vm_translate i a w s <> 0 ->
  vm_translate i (a + k) w s = vm_translate i a w s + k /\ vm_translate i (a + k) w s <> 0.
Proof.
  intros Hi Hu Hk Hp Hne. destruct (translate_reaches base sbase s i a w Hi Hu Hne) as [_ Hpl _ _ Hpa]. destruct (walk_within s i a k Hk Hp) as [E1 E2].
  destruct (page_of_page _ (proj1 (inv_wf _ _ _ Hi i _ Hpl))) as [[Hlo _] Hm]. set (d := descr s i (vpn a)) in *.
  assert (Epa : (a + k) mod 4096 = a mod 4096 + k) by (pose proof (Z.mod_pos_bound a 4096 ltac:(lia)); Z.div_mod_to_equations; lia). pose proof (Z.mod_pos_bound a 4096 ltac:(lia)).
  enough (E : vm_translate i (a + k) w s = page_of d + (a + k) mod 4096) by (split; lia). revert Hne.
  unfold vm_translate. rewrite E1, E2. destruct (Z.eqb_spec (pagetable i a s) 0) as [|Hpt]; [done|]. destruct (pagetable_some _ _ _ _ _ Hi Hu Hpt) as (_ & _ & _ & Ew). rewrite <- Ew by done. fold d.
  destruct (negb _); [done|]. destruct (w && _); [done|]. destruct (has d DESC_SUPER); [done|]. intros _. rewrite offset_land, (lor_add _ _ 12); [done|lia|done|apply Z.mod_pos_bound; lia].
Qed.
Lemma translate_linear base sbase s i : vm_inv base sbase s -> used (space s i) = true ->
  (forall v, place i v -> has (descr s i v) PDT_RESIDENT = true -> page_of (descr s i v) <> 0) -> UACCESS.page_linear (fun va w => vm_translate i va w s).
Proof.
  intros Hi Hu Hno a w k Ha Hk Hp. change PMM.PAGE_SIZE with 4096 in Hp. destruct (walk_within s i a k Hk Hp) as [E1 E2].
  split; [|intros Hne; by apply (translate_within base sbase)].
  unfold vm_translate. rewrite E1, E2. destruct (Z.eqb_spec (pagetable i a s) 0) as [|Hne]; [done|]. destruct (negb _) eqn:Er; [done|]. destruct (w && _); [done|]. destruct (has _ DESC_SUPER); [done|].
  destruct (pagetable_some _ _ _ _ _ Hi Hu Hne) as (_ & Hpl & _ & Ew). rewrite <- Ew in * by done. apply negb_false_iff in Er. pose proof (Hno _ Hpl Er) as Hn0. pose proof (inv_wf _ _ _ Hi i _ Hpl) as [Hu32 _]. destruct (page_of_page _ Hu32) as [_ Hm].
  rewrite !offset_land, !(lor_add _ _ 12) by (done || lia || (apply Z.mod_pos_bound; lia)). pose proof (Z.mod_pos_bound a 4096 ltac:(lia)). pose proof (Z.mod_pos_bound (a + k) 4096 ltac:(lia)). unfold is_u32 in *. intros; Z.div_mod_to_equations; lia.
Qed.
(** ** Bytes written *)

Lemma poke_ok base sbase s a x b : vm_inv base sbase s -> a mod 4096 = 0 -> pg_foreign (mm s) a = true \/ 0 < cnt s a -> in_page a x -> 0 <= b < 256 ->
  let s' := s <| mm := pg_store x b (mm s) |> in
  vm_inv base sbase s' /\ (forall j v, place j v -> descr s' j v = descr s j v) /\
  (forall y, pg_load (mm s') y = if y =? x then b else pg_load (mm s) y) /\ (forall c, pg_foreign (mm s') c = pg_foreign (mm s) c) /\
  (forall j va, used (space s j) = true -> pagetable j va s' = pagetable j va s) /\ (forall Q, kept Q s s') /\ alone base s s'.
Proof.
  intros Hi Hma Hfc Hx Hb s'. pose proof Hi as (Hidle & pgs & tabs & Hok). pose proof Hok as [Ht A1 A2 A3 A4 A5 A6 A7 A8 A9 Ah Ac A10].
  assert (Hst : pg_foreign (mm s) a = true /\ pg_held (mm s) a = 0 \/ pg_foreign (mm s) a = false /\ 0 < cnt s a /\ 0 < pg_held (mm s) a).
  { destruct (pg_foreign (mm s) a) eqn:Hf; [left; split; [done|by apply (pg_foreign_spec _ a (inv_mm _ _ _ Hi))]|right]. destruct Hfc as [|Hc]; [done|]. split; [done|]. split; [done|].
    rewrite (inv_count _ _ _ a Hi Hf); pose proof (A3 a); pose proof (tc_held_nonneg _ a A2); lia. }
  assert (Hw : pg_ok (pg_store x b (mm s)) /\ (forall c, pg_held (pg_store x b (mm s)) c = pg_held (mm s) c) /\ (forall y, pg_load (pg_store x b (mm s)) y = if y =? x then b else pg_load (mm s) y)).
  { destruct Hst as [[Hf _]|(_ & _ & Hh)]; [by apply (pg_store_foreign (mm s) a x b (inv_mm _ _ _ Hi))|by apply (pg_store_spec (mm s) a x b (inv_mm _ _ _ Hi))]. }
  destruct Hw as (W1 & W2 & W3). assert (W4 : forall c, pg_foreign (mm s') c = pg_foreign (mm s) c) by (intros c; apply pg_foreign_store).
  assert (Hnt : forall j, a ∉ pgs j).
  { intros j Hj. destruct Hst as [[_ Hz]|(_ & Hc & _)]; [destruct (page_held _ _ _ _ _ _ Ht Hj); lia|]. destruct (A5 j a Hj) as (_ & _ & E). rewrite (cnt_named (X := None) pgs) in E by done. lia. }
  destruct (tables_frame (live s) pgs tabs s s' Ht W1) as [Ht' Hd]; [|intros; apply W2|done|done|done|].
  { intros j c y Hj Hy. cbn [mm s' store]. rewrite W3. rewrite (proj2 (Z.eqb_neq y x)); [done|]. intros ->. apply (Hnt j).
    destruct (page_held _ _ _ _ _ _ Ht Hj) as (_ & _ & Hm). by rewrite (in_page_same a c x Hma Hm). }
  assert (Hm : forall j v, place j v -> mdesc (X := None) s' tabs j v = mdesc (X := None) s tabs j v) by (intros j v [_ Hv]; by apply mdesc_same, Hd).
  assert (Hn : forall c, named (X := None) s' tabs c = named (X := None) s tabs c) by (intros c; by apply tally_ext).
  assert (Hpt : forall j va, used (space s j) = true -> pagetable j va s' = pagetable j va s).
  { intros j va Hu. destruct (decide (user_va va)) as [Hva|Hva]; [|by rewrite !pagetable_out]. pose proof (used_lt _ _ _ Hi j Hu) as Hlt.
    by rewrite (pagetable_tab _ _ _ _ _ _ Ht'), (pagetable_tab _ _ _ _ _ _ Ht) by (done || by rewrite used_live). }
  assert (Ha : alone base s s').
  { intros c Hbc Hcf Hhc. rewrite W4. cbn [mm s' store]. rewrite W2. split; [done|]. split; [done|]. intros y Hy. rewrite W3. rewrite (proj2 (Z.eqb_neq y x)); [done|]. intros ->.
    destruct (pg_held_page _ c (inv_mm _ _ _ Hi) ltac:(lia)) as [_ Hmc]. assert (a = c) as <- by (by apply (in_page_same a c x)).
    destruct Hst as [[Hf _]|(Hf & Hc & _)]; [congruence|]. rewrite (inv_count _ _ _ a Hi Hf) in Hhc by (pose proof (A3 a); lia). pose proof (tc_held_nonneg _ a A2). lia. }
  split; [split; [done|]|split; [|split; [done|split; [done|split; [done|split; [|done]]]]]].
  3:{ intros Q. constructor; try done. intros j va Hu _ _. by apply Hpt. }
  - exists pgs, tabs. constructor; try done.
    + intros j c Hj. rewrite Hn. by apply (A5 j).
    + intros c. rewrite W4. apply A6.
    + intros c. rewrite W4, Hn. cbn [mm s' store]. rewrite W2. apply A7.
    + intros k. unfold slotted. rewrite (tally_ext _ (mdesc (X := None) s tabs)) by done. apply A8.
    + intros j v Hp. rewrite Hm by done. by apply A9.
    + intros j v Hp. unfold cow_ok. rewrite Hm, W4 by done. by apply Ac.
    + intros j v Hp. rewrite Hm, Hn, W4 by done. by apply A10.
  - intros j v Hp. rewrite (descr_desc pgs tabs s'), (descr_desc pgs tabs s) by done. by apply Hm.
Qed.
(** A program's byte, as the processor or copy_to_user writes it. *)
Definition user_store (i : nat) (va b : Z) (s : vm) : vm :=
  let pa := vm_translate i va true s in if pa =? 0 then s else s <| mm := pg_store pa b (mm s) |>.
Lemma store_ok base sbase s i va b : vm_inv base sbase s -> used (space s i) = true -> vm_translate i va true s <> 0 -> 0 <= b < 256 ->
  has (descr s i (vpn va)) DESC_SW_SHARED = false -> pg_foreign (mm s) (page_of (descr s i (vpn va))) = false ->
  let s' := user_store i va b s in
  vm_inv base sbase s' /\ (forall Q, kept Q s s') /\ alone base s s' /\ (forall j w, place j w -> (j, w) <> (i, vpn va) -> sees s' j w = sees s j w) /\
  exists p bs, sees s i (vpn va) = Some (p, Own bs) /\ length bs = 4096%nat /\ sees s' i (vpn va) = Some (p, Own (<[Z.to_nat (va mod 4096) := b]> bs)).
Proof.
  intros Hi Hu Hne Hb Hsh Hf. destruct (translate_reaches base sbase s i va true Hi Hu Hne) as [Hva Hpl Hr Hwp Hpa]. specialize (Hwp eq_refl).
  unfold user_store. rewrite (proj2 (Z.eqb_neq _ 0)), Hpa by done. set (d := descr s i (vpn va)) in *. set (a := page_of d) in *. pose proof (Z.mod_pos_bound va 4096 ltac:(lia)) as Hoff.
  assert (Hd : desc_has_page d = true) by (unfold desc_has_page; by rewrite Hr). pose proof (cnt_le s i (vpn va) Hpl Hd) as Hc.
  destruct (page_of_page d (proj1 (inv_wf _ _ _ Hi i _ Hpl))) as [_ Hma]. fold a in Hma. destruct (poke_ok base sbase s a (a + va mod 4096) b Hi Hma (or_intror Hc) ltac:(unfold in_page; lia) Hb) as (I1 & D1 & L1 & F1 & _ & K1 & A1). cbn zeta. set (s' := s <| mm := _ |>) in *.
  assert (Ho : own_write d = true) by (unfold own_write; by rewrite Hr, Hwp, Hsh). destruct (inv_own _ _ _ Hi i _ Hpl Ho Hf) as [Hone _]. fold d a in Hone.
  assert (Hpg : forall j w, place j w -> is_page (page_of (descr s j w))) by (intros j w Hj; apply page_of_page, (inv_wf _ _ _ Hi j w Hj)).
  split; [done|]. split; [done|]. split; [done|]. split.
  - intros j w Hj Hnw. unfold VMINV.sees. rewrite D1 by done. unfold view_of. destruct (desc_owned _); cbn [negb]; [|done]. do 2 f_equal. destruct (desc_has_page (descr s j w)) eqn:Edp; [|done].
    rewrite F1. destruct (_ || _); [done|]. f_equal. apply list_fmap_ext. intros n k [-> ?]%lookup_seq. rewrite L1. rewrite (proj2 (Z.eqb_neq _ _)); [done|].
    assert (Hneq : page_of (descr s j w) <> a).
    { intros E. pose proof (tally_two (hold a) (descr s) i (vpn va) j w ltac:(intros; apply hold_bound) eq_refl Hpl Hj Hnw) as H12. change (tally (hold a) (descr s)) with (cnt s a) in H12.
      rewrite Hone in H12. fold d in H12. unfold a in H12 at 1. rewrite hold_page in H12 by done. rewrite <- E, hold_page in H12 by done. lia. }
    destruct (Hpg j w Hj) as [_ M1]. destruct (Hpg i _ Hpl) as [_ M2]. fold d a in M2. Z.div_mod_to_equations. lia.
  - exists (desc_prot d), (page_bytes a 4096 (mm s)). assert (Hdo : desc_owned d = true) by (unfold desc_owned; by rewrite Hr).
    split; [unfold VMINV.sees; fold d; by rewrite bytes_view|]. split; [apply length_page_bytes|]. unfold VMINV.sees. rewrite D1 by done. fold d. rewrite bytes_view by (done || by rewrite F1). fold a. do 3 f_equal.
    apply list_eq. intros k. destruct (decide (k < 4096)%nat) as [Hk|Hk].
    + unfold page_bytes. rewrite list_lookup_fmap, lookup_seq_lt by done. cbn [fmap option_fmap option_map Nat.add]. rewrite L1. destruct (decide (k = Z.to_nat (va mod 4096))) as [->|Hkn].
      * rewrite list_lookup_insert_eq by (rewrite length_fmap, length_seq; lia). rewrite Z2Nat.id, (proj2 (Z.eqb_eq _ _)) by lia. done.
      * rewrite list_lookup_insert_ne by done. rewrite list_lookup_fmap, lookup_seq_lt by done. cbn [fmap option_fmap option_map Nat.add]. by rewrite (proj2 (Z.eqb_neq _ _)) by lia.
    + transitivity (@None Z); [|symmetry]; apply lookup_ge_None; rewrite ?length_insert, length_page_bytes; lia.
Qed.
(** And read. *)
Lemma load_seen base sbase s i va write p bs : vm_inv base sbase s -> used (space s i) = true -> vm_translate i va write s <> 0 -> sees s i (vpn va) = Some (p, Own bs) ->
  bs !! Z.to_nat (va mod 4096) = Some (pg_load (mm s) (vm_translate i va write s)).
Proof.
  intros Hi Hu Hne Hs. destruct (translate_reaches base sbase s i va write Hi Hu Hne) as [Hva Hpl Hr _ Hpa]. rewrite Hpa. unfold VMINV.sees, view_of in Hs. set (d := descr s i (vpn va)) in *.
  assert (Hd : desc_has_page d = true) by (unfold desc_has_page; by rewrite Hr). assert (Hdo : desc_owned d = true) by (unfold desc_owned; by rewrite Hr). rewrite Hd, Hdo in Hs. cbn [negb] in Hs.
  destruct (_ || _); [done|]. injection Hs as _ <-. pose proof (Z.mod_pos_bound va 4096 ltac:(lia)). unfold page_bytes. rewrite list_lookup_fmap, lookup_seq_lt by lia. cbn. by rewrite Z2Nat.id by lia.
Qed.

(** ** A fault lets the access through *)

Definition nobody (n : nat) (s : vm) : vm := s.
Lemma nobody_tame Q n : tame Q (nobody n).
Proof. intros base sbase s Hi. split; [done|apply goes_refl]. Qed.
(** A descriptor just written is the one the walk finds. *)
Lemma word_set X base sbase s i va d' : VMINV.vm_inv (X := X) base sbase s -> used (space s i) = true -> pagetable i va s <> 0 -> is_u32 d' ->
  let s' := set_word (pagetable i va s) (PAGE_INDEX va) d' s in pagetable i va s' = pagetable i va s /\ word s' (pagetable i va s) (PAGE_INDEX va) = d'.
Proof.
  intros Hi Hu Hpt Hd. destruct (pagetable_some _ _ _ _ _ Hi Hu Hpt) as (Hva & Hpl & Ei & _). pose proof Hi as (_ & pgs & tabs & Hok). pose proof (vo_tables _ _ _ _ _ _ Hok) as Ht.
  destruct Hpl as [Hlt Hv]. pose proof (used_live s i Hlt) as El. rewrite Hu in El. destruct (vpn_range _ Hv) as (_ & _ & He). rewrite Ei.
  rewrite (pagetable_tab _ _ _ _ _ _ Ht El Hlt Hva) in *. destruct (tabs i _) as [t|] eqn:Et; [|done]. cbn [default id] in *.
  destruct (set_entry _ pgs tabs s i _ _ t (ei (vpn va)) d' Ht Et He Hd) as (T1 & _ & _ & T4). cbn zeta. split; [by rewrite (pagetable_tab _ _ _ _ _ _ T1 El Hlt Hva), Et|].
  specialize (T4 i (ri (vpn va)) (pi (vpn va)) (ei (vpn va)) He). rewrite decide_True in T4 by done. unfold tdesc in T4. by rewrite Et in T4.
Qed.
Lemma served X base sbase s i va (write : bool) d' : VMINV.vm_inv (X := X) base sbase s -> used (space s i) = true -> pagetable i va s <> 0 -> is_u32 d' ->
  has d' PDT_RESIDENT = true -> has d' DESC_SUPER = false -> write && has d' DESC_WP = false -> page_of d' <> 0 ->
  vm_translate i va write (set_word (pagetable i va s) (PAGE_INDEX va) d' s) <> 0.
Proof.
  intros Hi Hu Hpt Hd Hr Hs Hw Hp. destruct (word_set X base sbase s i va d' Hi Hu Hpt Hd) as [E1 E2]. cbn zeta in E1, E2. unfold vm_translate. rewrite E1, E2, Hr, Hw, Hs, (proj2 (Z.eqb_neq _ 0)) by done. cbn [negb].
  destruct (page_of_page d' Hd) as [Hu32 Hm]. rewrite offset_land, (lor_add _ _ 12); [|lia|done|apply Z.mod_pos_bound; lia]. pose proof (Z.mod_pos_bound va 4096 ltac:(lia)). unfold is_u32 in Hu32. lia.
Qed.
Lemma swap_in_quiet Q base sbase s a slot : vm_inv (in_hand a base) sbase s -> (forall x, 0 <= base x) -> fresh s base a ->
  let '(r, s') := swap_in nobody slot a s in vm_inv (in_hand a base) sbase s' /\ still Q base s s' /\ fresh s' base a.
Proof.
  intros Hi Hb Hfr. unfold swap_in. pose proof (sl_read_spec (sw s) slot (inv_sw _ _ _ Hi)) as Hr. destruct (sl_read slot (sw s)) as [[r p] w]. destruct Hr as (R1 & R2 & R3 & R4 & R5).
  destruct (swap_ok Q _ sbase sbase s w Hi R1 (inv_sbase _ _ _ Hi)) as [I1 S1]; [intros k; by rewrite R2|done|]. set (s1 := s <| sw := w |>) in *.
  assert (Hfr1 : fresh s1 base a) by (destruct Hfr as [F1 F2 F3 F4 F5 F6 F7]; constructor; try done; by rewrite (still_cnt _ _ _ _ _ S1)).
  apply (still_less Q base _ sbase) in S1; [|done|apply in_hand_le]. set (s2 := if r <? 0 then s1 else _).
  assert (Hs2 : vm_inv (in_hand a base) sbase s2 /\ still Q base s s2 /\ fresh s2 base a).
  { unfold s2. destruct (r <? 0); [done|]. destruct (page_image_ok p) as [P1 P2].
    destruct (fill_ok Q base sbase s1 a (page_image p) I1 Hb Hfr1) as (I2 & S2 & F2 & _); [by rewrite P1|done|]. split; [exact I2|]. split; [exact (still_trans _ _ _ _ _ S1 S2)|exact F2]. }
  clearbody s2. destruct Hs2 as (I2 & S2 & F2). unfold sleep, nobody. destruct (aside_ok Q _ sbase s2 (s2 <| sleeps := Datatypes.S (sleeps s2) |>) I2) as [I3 S3]; try done; [apply (inv_hand _ _ _ I2)|].
  split; [done|]. split; [eapply still_trans; [exact S2|]; by eapply still_less; [exact I2|apply in_hand_le|]|].
  destruct F2 as [X1 X2 X3 X4 X5 X6 X7]. constructor; try done. by rewrite (still_cnt _ _ _ _ _ S3).
Qed.
Lemma alloc_quiet s : RESERVE_PAGES + 1 < pg_available (mm s) -> page_alloc_user nobody s = palloc s.
Proof. intros Ha. unfold page_alloc_user. rewrite (proj2 (Z.leb_gt (pg_available (mm s)) (RESERVE_PAGES + 1))) by lia. cbv iota zeta. by rewrite (proj2 (Z.leb_gt (pg_available (mm s)) RESERVE_PAGES)) by lia. Qed.
Lemma wait_quiet n slot s : fst (swap_wait_idle nobody n slot s) = true -> swap_wait_idle nobody n slot s = (true, s).
Proof.
  revert s. induction n as [|n IH]; intros s; cbn [swap_wait_idle]; destruct (sl_is_busy slot (sw s)) eqn:Eb; try done. intros Hf. rewrite (IH _ Hf).
  exfalso. clear IH. revert s Eb Hf. induction n as [|n IH]; intros s Eb; cbn [swap_wait_idle]; change (sw (sleep nobody s)) with (sw s); rewrite Eb; [done|]. intros Hf. by apply (IH (sleep nobody s)).
Qed.
(** What a fault puts in place. *)
Lemma fault_desc a w : is_page a -> 0 < a -> let d' := Z.lor (Z.lor a (page_bits (Z.lor VM_USER (if (w : bool) then VM_WRITE else 0)))) DESC_USED in
  is_u32 d' /\ has d' PDT_RESIDENT = true /\ has d' DESC_SUPER = false /\ has d' DESC_WP = negb w /\ page_of d' = a.
Proof.
  intros Hp Ha. rewrite <- Z.lor_assoc. set (b := Z.lor (page_bits _) DESC_USED). assert (Hb : 0 <= b < 4096 /\ has b PDT_RESIDENT = true /\ has b DESC_SUPER = false /\ has b DESC_WP = negb w) by (unfold b; by destruct w).
  destruct Hb as (B1 & B2 & B3 & B4). destruct (low_bits_of a b Hp B1) as [L1 L2 _ L4]. cbn zeta. by rewrite !L4.
Qed.
Lemma pagetable_count i va f (s : vm) : pagetable i va (count_stat f s) = pagetable i va s.
Proof.
  unfold pagetable, as_pagetable. change (spaces (count_stat f s)) with (spaces s). destruct (spaces s !! i); [|done]. destruct (_ || _); [done|].
  unfold next_table. change (word (count_stat f s)) with (word s). cbn [negb]. destruct (negb (has _ _)); [done|]. destruct (_ =? 0); [done|]. change (word (count_stat f s)) with (word s). by destruct (negb (has _ _)).
Qed.
Lemma translate_count i va w f (s : vm) : vm_translate i va w (count_stat f s) = vm_translate i va w s.
Proof. unfold vm_translate. by rewrite pagetable_count. Qed.
Lemma cow_serves base sbase s i va d s' : vm_inv base sbase s -> used (space s i) = true -> pagetable i va s <> 0 -> d = descr s i (vpn va) ->
  has d PDT_RESIDENT = true -> has d DESC_SW_COW = true -> RESERVE_PAGES + 1 < pg_available (mm s) ->
  fault_cow nobody (pagetable i va s) (PAGE_INDEX va) d s = (Some 0, s') -> vm_translate i va true s' <> 0.
Proof.
  intros Hi Hu Hpt Ed Hr Hc Hav. pose proof (inv_base _ _ _ Hi) as Hb. destruct (pagetable_some _ _ _ _ _ Hi Hu Hpt) as (Hva & Hpl & Ei & Ew). specialize (Ew ltac:(done)). rewrite <- Ed in Ew.
  destruct (inv_cow _ _ _ Hi i _ Hpl) as [Hf _]; [by rewrite <- Ed|by rewrite <- Ed|]. rewrite <- Ed in Hf. assert (Hd : desc_has_page d = true) by (unfold desc_has_page; by rewrite Hr).
  pose proof (inv_wf _ _ _ Hi i _ Hpl) as [Hu32 _]. rewrite <- Ed in Hu32. unfold fault_cow. rewrite alloc_quiet by done.
  assert (Hfin : forall X base1 s1 a, VMINV.vm_inv (X := X) base1 sbase s1 -> used (space s1 i) = true -> pagetable i va s1 = pagetable i va s -> is_page a -> 0 < a ->
    vm_translate i va true (set_word (pagetable i va s) (PAGE_INDEX va) (Z.lor (Z.lor a (page_bits (Z.lor VM_USER VM_WRITE))) DESC_USED) s1) <> 0).
  { intros X base1 s1 a I1 U1 E1 P1 P2. destruct (fault_desc a true P1 P2) as (D1 & D2 & D3 & D4 & D5). rewrite <- E1. apply (served X base1 sbase); try done; [by rewrite E1|rewrite D5; lia]. }
  destruct (1 <? pg_refcount (page_of d) (mm s)).
  - pose proof (palloc_ok (fun _ => true) base sbase s Hi) as Ha. destruct (palloc s) as [a s1]. destruct Ha as [[-> ->]|(Hne & I1 & S1 & F1 & _)]; [done|].
    rewrite (proj2 (Z.eqb_neq a 0)) by done. assert (Ew1 : word s1 (pagetable i va s) (PAGE_INDEX va) = d).
    { destruct (still_used _ _ _ _ i S1) as [U1 _]. rewrite Hu in U1. assert (Hpt1 : pagetable i va s1 <> 0) by (by rewrite (sl_tabs _ _ _ _ S1)).
      destruct (pagetable_some _ _ _ _ _ I1 U1 Hpt1) as (_ & _ & _ & E). rewrite (sl_tabs _ _ _ _ S1) in E by done. rewrite <- E by done. by rewrite (sl_descr _ _ _ _ S1). }
    rewrite Ew1, Z.eqb_refl. cbn [negb]. destruct (copied_page (fun _ => true) base sbase s1 a (page_of d) I1 Hb F1) as (I2 & S2 & F2). revert I2 S2 F2. generalize (page_copy a (page_of d) s1). intros s2 I2 S2 F2 [= <-].
    pose proof (still_trans _ _ _ _ _ S1 S2) as S12. assert (Ed2 : descr s2 i (vpn va) = d) by (by rewrite (sl_descr _ _ _ _ S12)).
    pose proof (mask_ok _ _ s2 i (vpn va) I2 Hpl) as M2. rewrite Ed2 in M2. destruct (let_page_go _ (fun _ => true) (in_hand a base) sbase s2 d ltac:(by apply in_hand_nonneg) Hd M2) as [I3 S3].
    rewrite translate_count. apply (Hfin (Some (i, vpn va)) (in_hand a base)); [done|by rewrite (proj1 (still_used _ _ _ _ i S3)), (proj1 (still_used _ _ _ _ i S12))| |split; apply F2|apply F2].
    rewrite (sl_tabs _ _ _ _ S3), (sl_tabs _ _ _ _ S12); [done|done|done|by rewrite (proj1 (still_used _ _ _ _ i S12))|by rewrite (sl_tabs _ _ _ _ S12)].
  - intros [= <-]. rewrite translate_count. apply (Hfin None base s); try done; [by apply page_of_page|]. pose proof (cnt_le s i _ Hpl ltac:(by rewrite <- Ed)) as Hcn. rewrite <- Ed in Hcn.
    pose proof (inv_count _ _ _ _ Hi Hf ltac:(pose proof (Hb (page_of d)); lia)) as Hh. pose proof (tc_held_nonneg _ (page_of d) (inv_tc _ _ _ Hi)). pose proof (Hb (page_of d)).
    apply (pg_held_page (mm s)); [apply (inv_mm _ _ _ Hi)|lia].
Qed.
Lemma absent_serves base sbase s i va d patience (write : bool) s' : vm_inv base sbase s -> used (space s i) = true -> pagetable i va s <> 0 -> d = descr s i (vpn va) ->
  write && has d DESC_WP = false -> RESERVE_PAGES + 1 < pg_available (mm s) ->
  fault_absent nobody patience (pagetable i va s) (PAGE_INDEX va) d s = (Some 0, s') -> vm_translate i va write s' <> 0.
Proof.
  intros Hi Hu Hpt Ed Hw Hav. pose proof (inv_base _ _ _ Hi) as Hb. destruct (pagetable_some _ _ _ _ _ Hi Hu Hpt) as (Hva & Hpl & Ei & Ew). specialize (Ew ltac:(done)). rewrite <- Ed in Ew.
  unfold fault_absent. set (w0 := if has d DESC_SW_SWAP then _ else (true, s)). assert (Hw0 : fst w0 = true -> w0 = (true, s)).
  { unfold w0. destruct (has d DESC_SW_SWAP); [apply wait_quiet|done]. } clearbody w0. destruct w0 as [ok s0]. cbn [fst] in Hw0. destruct ok; [|done]. injection (Hw0 eq_refl) as ->. cbn [negb].
  rewrite alloc_quiet by done. pose proof (palloc_ok (fun _ => true) base sbase s Hi) as Ha. destruct (palloc s) as [a s1]. destruct Ha as [[-> ->]|(Hne & I1 & S1 & F1 & _)]; [done|].
  rewrite (proj2 (Z.eqb_neq a 0)) by done. assert (Hsame : forall s2, vm_inv (in_hand a base) sbase s2 -> still (fun _ => true) base s s2 ->
    used (space s2 i) = true /\ pagetable i va s2 = pagetable i va s /\ word s2 (pagetable i va s) (PAGE_INDEX va) = d).
  { intros s2 I2 S2. destruct (still_used _ _ _ _ i S2) as [U1 _]. rewrite Hu in U1. pose proof (sl_tabs _ _ _ _ S2 i va Hu Hpt) as E2. split; [done|]. split; [done|].
    destruct (pagetable_some _ _ _ _ _ I2 U1 ltac:(by rewrite E2)) as (_ & _ & _ & E). rewrite E2 in E. rewrite <- E by done. by rewrite (sl_descr _ _ _ _ S2). }
  destruct (Hsame s1 I1 S1) as (U1 & P1 & W1). rewrite W1, Z.eqb_refl. cbn [negb].
  assert (Hfin : forall X base2 sbase2 s2, VMINV.vm_inv (X := X) base2 sbase2 s2 -> used (space s2 i) = true -> pagetable i va s2 = pagetable i va s ->
    vm_translate i va write (set_word (pagetable i va s) (PAGE_INDEX va) (Z.lor (Z.lor a (page_bits (Z.lor VM_USER (if has d DESC_WP then 0 else VM_WRITE)))) DESC_USED) s2) <> 0).
  { intros X base2 sbase2 s2 I2 U2 E2. destruct (fault_desc a (negb (has d DESC_WP)) ltac:(split; apply F1) ltac:(apply F1)) as (D1 & D2 & D3 & D4 & D5).
    replace (if has d DESC_WP then 0 else VM_WRITE) with (if negb (has d DESC_WP) then VM_WRITE else 0) by (by destruct (has d DESC_WP)).
    rewrite <- E2. apply (served X base2 sbase2); try done; [by rewrite E2|by rewrite D4, negb_involutive|rewrite D5; pose proof (fr_pos _ _ _ F1); lia]. }
  destruct (has d DESC_SW_SWAP) eqn:Esw.
  - pose proof (swap_in_quiet (fun _ => true) base sbase s1 a (slot_of d) I1 Hb F1) as Hs. destruct (swap_in nobody (slot_of d) a s1) as [err s2]. destruct Hs as (I2 & S2 & F2).
    destruct (err <? 0); [done|]. pose proof (still_trans _ _ _ _ _ S1 S2) as S12. destruct (Hsame s2 I2 S12) as (U2 & P2 & W2). rewrite W2, Z.eqb_refl. cbn [negb]. intros [= <-].
    pose proof (inv_wf _ _ _ Hi i _ Hpl) as (_ & X1 & _). rewrite <- Ed in X1. assert (Hnp : desc_has_page d = false).
    { unfold desc_has_page. rewrite has_mask_or, Esw, orb_true_r, andb_false_r, orb_false_r. destruct (has d PDT_RESIDENT); [destruct (X1 eq_refl); congruence|done]. }
    pose proof (mask_ok _ _ s2 i (vpn va) I2 Hpl) as M2. rewrite (sl_descr _ _ _ _ S12), <- Ed in M2 by done.
    destruct (let_slot_go _ (fun _ => true) (in_hand a base) sbase s2 d (inv_sbase _ _ _ I2) ltac:(unfold in_swap; by rewrite Hnp, Esw) M2) as [I3 S3].
    apply (Hfin (Some (i, vpn va)) (in_hand a base) sbase); [by apply (count_ok nobody (fun _ => true) (nobody_tame _))|done|]. rewrite pagetable_count, <- P2. apply (sl_tabs _ _ _ _ S3); [done|by rewrite P2].
  - intros [= <-]. apply (Hfin None (in_hand a base) sbase); [by apply (count_ok nobody (fun _ => true) (nobody_tame _))|done|by rewrite pagetable_count].
Qed.
Lemma fault_serves base sbase s i va patience (write : bool) s' : vm_inv base sbase s -> used (space s i) = true -> RESERVE_PAGES + 1 < pg_available (mm s) ->
  vm_fault nobody patience i va write s = (Some 0, s') -> vm_translate i va write s' <> 0.
Proof.
  intros Hi Hu Hav. unfold vm_fault. destruct (Z.eqb_spec (pagetable i va s) 0) as [|Hpt]; [done|]. destruct (pagetable_some _ _ _ _ _ Hi Hu Hpt) as (_ & _ & _ & Ew). rewrite <- Ew by done.
  set (d := descr s i (vpn va)). destruct (has d PDT_RESIDENT) eqn:Er.
  - destruct (has d DESC_SUPER); [done|]. destruct (negb write || _) eqn:Ewr; [done|]. apply orb_false_iff in Ewr as [Ewr%negb_false_iff _]. rewrite Ewr.
    destruct (has d DESC_SW_COW) eqn:Ec; cbn [negb]; [|done]. by apply (cow_serves base sbase s i va d).
  - destruct (_ || _); [done|]. destruct (write && has d DESC_WP) eqn:Ewp; [done|]. by apply (absent_serves base sbase s i va d).
Qed.
End walk.
End VMMEM.
