(* ===== verification/Vmflat.v ===== *)
(** * Address spaces: what they amount to (kernel/vm.c)

    The calls as a machine: each keeps the invariant, and seen from the
    programs every space is a flat memory of its own, in which a fault does
    nothing, a store changes one byte, and a fork copies. *)

From S2P Require Import Prelude Pmm Pages Swap Uaccess Vm Vmtab Vminv Vmdesc Vmstep Vmput Vmfault Vmcalls Vmspace Vmclone Vmoff Vmmem.
Local Open Scope Z_scope.

Module VMFLAT.
Import VM VMTAB VMINV VMDESC VMSTEP VMPUT VMPLAIN VMFAULT VMCALLS VMSPACE VMCLONE VMOFF VMMEM.

(** ** The calls *)

Inductive call :=
| Create | Share (i : nat) | Destroy (i : nat) | Clone (src : nat)
| MapLazy (i : nat) (va flags : Z) | MapNew (i : nat) (va flags : Z) | Unmap (i : nat) (va : Z)
| Protect (i : nat) (va flags : Z) | Move (i : nat) (from to : Z) | Brk (i : nat) (addr : Z)
| Fault (i : nat) (va : Z) (write : bool) | Store (i : nat) (va b : Z).
(** The space a call is made on. *)
Definition target (c : call) : option nat :=
  match c with
  | Create => None
  | Share i | Destroy i | Clone i | MapLazy i _ _ | MapNew i _ _ | Unmap i _ | Protect i _ _ | Move i _ _ | Brk i _ | Fault i _ _ | Store i _ _ => Some i
  end.

(** ** The flat memory *)

(** [fl_seen] are the spaces only their own programs change. *)
Record flat := mk_flat {
  fl_used : nat -> bool; fl_seen : nat -> bool; fl_refs : nat -> Z; fl_brk : nat -> Z; fl_mem : nat -> Z -> option (Z * content) }.
Definition keeps (P : nat -> Z -> Prop) (m m' : flat) : Prop :=
  forall j v, place j v -> fl_seen m j = true -> ~ P j v -> fl_seen m' j = true /\ fl_mem m' j v = fl_mem m j v.
Definition nowhere (j : nat) (v : Z) : Prop := False.
Definition at_page (i : nat) (va : Z) (j : nat) (v : Z) : Prop := j = i /\ v = vpn va.
Definition flat_step (c : call) (r : option Z) (m m' : flat) : Prop :=
  match c with
  | Create => keeps nowhere m m' /\
      forall i, r = Some (Z.of_nat i) -> fl_used m i = false /\ fl_used m' i = true /\ fl_refs m' i = 1 /\ fl_brk m' i = 0 /\ forall v, place i v -> fl_mem m' i v = None
  | Share i => keeps nowhere m m' /\ fl_refs m' i = fl_refs m i + 1
  | Destroy i => keeps (fun j _ => j = i) m m' /\
      (fl_refs m i <= 1 -> fl_used m' i = false /\ forall v, place i v -> fl_mem m' i v = None) /\
      (1 < fl_refs m i -> keeps nowhere m m' /\ fl_refs m' i = fl_refs m i - 1)
  | Clone src => keeps nowhere m m' /\
      forall i, r = Some (Z.of_nat i) -> fl_used m i = false /\ fl_used m' i = true /\ fl_brk m' i = fl_brk m' src /\ forall v, place i v -> fl_mem m' i v = fl_mem m src v
  | MapLazy i va flags => keeps (at_page i va) m m' /\
      (r <> Some 0 -> keeps nowhere m m') /\ (r = Some 0 -> fl_mem m' i (vpn va) = zero_page (if has flags VM_NONE then VM_NONE else if has flags VM_WRITE then VM_WRITE else 0))
  | MapNew i va flags => keeps (at_page i va) m m' /\
      (r <> Some 0 -> exists k, fl_mem m' i (vpn va) = Some (if has flags VM_WRITE then VM_WRITE else 0, k) /\ (has flags VM_SHARED = false -> k = Own (replicate 4096 0)))
  | Unmap i va => keeps (at_page i va) m m' /\ (user_va va -> fl_mem m' i (vpn va) = None)
  | Protect i va flags => keeps (at_page i va) m m' /\ (r = Some 0 -> reprot flags (fl_mem m i (vpn va)) (fl_mem m' i (vpn va)))
  | Move i from to => keeps (fun j v => at_page i from j v \/ at_page i to j v) m m' /\
      (r <> Some 1 -> keeps nowhere m m') /\ (r = Some 1 -> fl_mem m' i (vpn to) = fl_mem m i (vpn from) /\ fl_mem m' i (vpn from) = None)
  | Brk i addr =>
      let new := pages_between (PMM.PAGE_ALIGN_UP (fl_brk m i)) (PMM.PAGE_ALIGN_UP addr) in
      let old := pages_between (PMM.PAGE_ALIGN_UP addr) (PMM.PAGE_ALIGN_UP (fl_brk m i)) in
      (r = Some addr /\ fl_brk m' i = addr /\ keeps (fun j v => j = i /\ (v ∈ vpn <$> new \/ v ∈ vpn <$> old)) m m' /\
       (forall va, va ∈ new -> user_va va /\ fl_mem m' i (vpn va) = zero_page VM_WRITE) /\ (forall va, va ∈ old -> user_va va -> fl_mem m' i (vpn va) = None)) \/
      (r = Some (fl_brk m i) /\ fl_brk m' i = fl_brk m i /\ keeps nowhere m m')
  | Fault i va write => keeps nowhere m m'
  | Store i va b => keeps (at_page i va) m m' /\
      exists p bs, fl_mem m i (vpn va) = Some (p, Own bs) /\ length bs = 4096%nat /\ fl_mem m' i (vpn va) = Some (p, Own (<[Z.to_nat (va mod 4096) := b]> bs))
  end.
Inductive flat_run : list (call * option Z) -> flat -> flat -> Prop :=
| flat_done m : flat_run [] m m
| flat_next c r tr m m1 m' : flat_step c r m m1 -> flat_run tr m1 m' -> flat_run ((c, r) :: tr) m m'.

Section machine.
Context {W S T : Type} `{TextCache T W} `{SwapSlots S}.
#[local] Abbreviation vm := (@vm W S T).

Definition flat_of (Q : nat -> bool) (s : vm) : flat :=
  mk_flat (fun i => used (space s i)) (fun i => used (space s i) && (Q i || busy (space s i))) (fun i => refs (space s i)) (fun i => brk_cur (space s i)) (sees s).

Section run.
Context (others : nat -> vm -> vm) (patience : nat).
Definition perform (c : call) (s : vm) : option Z * vm :=
  match c with
  | Create => let '(r, s) := vm_create s in (Some (match r with Some i => Z.of_nat i | None => -1 end), s)
  | Share i => (Some 0, vm_share i s)
  | Destroy i => (Some 0, vm_destroy i s)
  | Clone src => let '(r, s) := vm_clone others src s in (Some (match r with Some i => Z.of_nat i | None => -1 end), s)
  | MapLazy i va flags => let '(r, s) := vm_map_lazy i va flags s in (Some r, s)
  | MapNew i va flags => let '(r, s) := vm_map others i va 0 flags s in (Some r, s)
  | Unmap i va => (Some 0, vm_unmap i va s)
  | Protect i va flags => vm_protect others patience i va flags s
  | Move i from to => let '(r, s) := vm_move i from to s in (Some r, s)
  | Brk i addr => let '(r, s) := vm_brk i addr s in (Some r, s)
  | Fault i va write => vm_fault others patience i va write s
  | Store i va b => (Some 0, user_store i va b s)
  end.
(** What the callers see to first. *)
Definition allowed (c : call) (s : vm) : Prop :=
  match c with
  | Clone src => copyable src s
  | MapLazy i va _ | MapNew i va _ => desc_owned (descr s i (vpn va)) = false
  | Protect _ _ flags => has flags VM_SHARED = false
  | Move i _ to => desc_owned (descr s i (vpn to)) = false
  | Store i va b => vm_translate i va true s <> 0 /\ 0 <= b < 256 /\ has (descr s i (vpn va)) DESC_SW_SHARED = false /\ pg_foreign (mm s) (page_of (descr s i (vpn va))) = false
  | _ => True
  end.
Definition held_by (Q : nat -> bool) (c : call) (s : vm) : Prop :=
  match target c with Some i => used (space s i) = true /\ Q i || busy (space s i) = true | None => True end.
Inductive run (Q : nat -> bool) : list (call * option Z) -> vm -> vm -> Prop :=
| run_done s : run Q [] s s
| run_next c r tr s s1 s' : held_by Q c s -> allowed c s -> perform c s = (r, s1) -> run Q tr s1 s' -> run Q ((c, r) :: tr) s s'.

Context (Q : nat -> bool) (Hothers : forall n, tame Q (others n)).

(** What holds of every call, done and seen. *)
Record sound (base sbase : Z -> Z) (c : call) (s : vm) (r : option Z) (s' : vm) : Prop := {
  so_inv : vm_inv base sbase s';
  so_others : match target c with Some i => besides i Q base s s' | None => goes Q base s s' end;
  so_flat : lost s' = lost s -> flat_step c r (flat_of Q s) (flat_of Q s') }.
Lemma seen_split s j : fl_seen (flat_of Q s) j = true -> used (space s j) = true /\ Q j || busy (space s j) = true.
Proof using Type. cbn. by intros [? ?]%andb_true_iff. Qed.
Lemma only_keeps base i P s s' : only_at Q base i P s s' -> lost s' = lost s -> keeps (fun j v => j = i /\ P v) (flat_of Q s) (flat_of Q s').
Proof using Type.
  intros [K _ _ V] Hl j v Hp [Hu Hq]%seen_split Hn. destruct (ke_used _ _ _ K j Hu Hq) as [U1 U2]. cbn. rewrite U1, U2, Hq. split; [done|]. by apply V.
Qed.
Lemma keeps_less P P' m m' : (forall j v, P j v -> P' j v) -> keeps P m m' -> keeps P' m m'.
Proof using Type. intros Hle Hk j v Hp Hs Hn. apply Hk; auto. Qed.
Lemma goes_keeps base s s' : goes Q base s s' -> lost s' = lost s -> keeps nowhere (flat_of Q s) (flat_of Q s').
Proof using Type. intros Hg Hl. apply (keeps_less (fun j v => j = 0%nat /\ False)); [by intros j v [_ []]|]. apply (only_keeps base); [|done]. by apply goes_only. Qed.
Lemma at_keeps base i va s s' : only_at Q base i (eq (vpn va)) s s' -> lost s' = lost s -> keeps (at_page i va) (flat_of Q s) (flat_of Q s').
Proof using Type. intros Ho Hl. eapply keeps_less; [|by eapply only_keeps]. intros j v [-> <-]. done. Qed.
Definition perform_sound (base sbase : Z -> Z) (c : call) (s : vm) : Prop := let '(r, s') := perform c s in sound base sbase c s r s'.
Section each.
Context (base sbase : Z -> Z) (s : vm) (Hi : vm_inv base sbase s).
Lemma create_sound : perform_sound base sbase Create s.
Proof using Hi.
  unfold perform_sound, perform. pose proof (create_ok Q base sbase s Hi) as Hc. destruct (vm_create s) as [r s']. destruct Hc as (I1 & G1 & _ & _ & Hm). constructor; [done|done|].
  intros Hl. split; [by eapply goes_keeps|]. intros i [= Er]. destruct r as [i'|]; [|lia]. apply Nat2Z.inj in Er as ->. destruct Hm as [M1 M2 M3 M4 M5 [_ M6] M7 M8 M9]. cbn.
  split; [done|]. split; [done|]. split; [done|]. split; [done|]. intros v Hv. unfold VMINV.sees. by rewrite M7.
Qed.
Lemma share_sound i : held_by Q (Share i) s -> perform_sound base sbase (Share i) s.
Proof using Hi.
  intros [Hu Hq]. pose proof (used_lt _ _ _ Hi i Hu) as Hlt. unfold perform_sound, perform, vm_share. assert (Hl : spaces s !! i = Some (space s i)) by (unfold space in Hu |- *; by destruct (spaces s !! i)). rewrite Hl.
  destruct (tweak_ok Q base sbase s i (space s i <| refs := refs (space s i) + 1 |>) Hi Hlt ltac:(done) ltac:(done)) as (I1 & _ & G1). specialize (G1 ltac:(done)).
  constructor; [done|by apply goes_besides|]. intros Hlo. split; [by eapply goes_keeps|]. cbn. unfold space at 1. cbn. rewrite list_lookup_insert_eq; [done|]. by apply lookup_lt_Some in Hl.
Qed.
Lemma destroy_sound i : held_by Q (Destroy i) s -> perform_sound base sbase (Destroy i) s.
Proof using Hi.
  intros [Hu Hq]. unfold perform_sound, perform. destruct (destroy_ok Q base sbase s i Hi Hu) as (I1 & B1 & Hg & Hk). constructor; [done|done|]. intros Hl. split; [|split].
  - intros j v Hp [Hju Hjq]%seen_split Hne. destruct (be_used _ _ _ _ _ B1 j Hne Hju Hjq) as [U1 U2]. cbn. rewrite U1, U2, Hjq. split; [done|]. by apply (be_sees _ _ _ _ _ B1).
  - intros Hr. destruct (Hg Hr) as [G1 G2 _ _]. done.
  - intros Hr. destruct (Hk Hr) as (G1 & G2 & _). split; [by eapply goes_keeps|done].
Qed.
Lemma maplazy_sound i va flags : held_by Q (MapLazy i va flags) s -> allowed (MapLazy i va flags) s -> perform_sound base sbase (MapLazy i va flags) s.
Proof using Hi.
  intros [Hu Hq] Ha. unfold perform_sound, perform. pose proof (map_lazy_ok Q base sbase s i va flags Hi Hu Ha) as Hm. destruct (vm_map_lazy i va flags s) as [r s']. destruct Hm as (I1 & O1 & _ & D1 & Hr).
  constructor; [done|by eapply only_besides|]. intros Hl. pose proof (at_keeps base i va s s' O1 Hl) as Hk. split; [done|]. split.
  - intros Hne. destruct Hr as [Hr|(-> & _)]; [|done]. intros j v Hp Hs _. destruct (decide (at_page i va j v)) as [[-> ->]|Hn]; [|by apply Hk].
    destruct (seen_split _ _ Hs) as [Hju Hjq]. destruct (ke_used _ _ _ (oa_kept _ _ _ _ _ _ O1) i Hju Hjq) as [U1 U2]. cbn. rewrite U1, U2, Hjq. split; [done|].
    unfold VMINV.sees. rewrite D1 by (done || by right). by rewrite !(proj2 (view_none _ _) Ha).
  - intros [= ->]. destruct Hr as [Hr|(_ & _ & Hv)]; [lia|]. cbn. unfold VMINV.sees. apply Hv.
Qed.
Lemma unmap_sound i va : held_by Q (Unmap i va) s -> perform_sound base sbase (Unmap i va) s.
Proof using Hi.
  intros [Hu Hq]. unfold perform_sound, perform. destruct (unmap_ok Q base sbase s i va Hi Hu) as (I1 & O1 & _ & Hn & _). constructor; [done|by eapply only_besides|]. intros Hl. split; [by eapply at_keeps|].
  intros Hva. cbn. by apply view_none, Hn.
Qed.
Lemma move_sound i from to : held_by Q (Move i from to) s -> allowed (Move i from to) s -> perform_sound base sbase (Move i from to) s.
Proof using Hi.
  intros [Hu Hq] Ha. unfold perform_sound, perform. pose proof (vm_move_ok Q base sbase s i from to Hi Hu Hq Ha) as Hm. destruct (vm_move i from to s) as [r s']. destruct Hm as (I1 & O1 & M1 & M2).
  constructor; [done|by eapply only_besides|]. intros Hl. split; [|split].
  - eapply keeps_less; [|by eapply only_keeps]. unfold at_page. intros j v [-> [->| ->]]; tauto.
  - intros Hr. eapply keeps_less; [|eapply only_keeps; [apply M2; congruence|done]]. by intros j v [_ []].
  - intros [= ->]. by apply M1.
Qed.
Lemma brk_sound i addr : held_by Q (Brk i addr) s -> perform_sound base sbase (Brk i addr) s.
Proof using Hi.
  intros [Hu Hq]. unfold perform_sound, perform. pose proof (brk_ok Q base sbase s i addr Hi Hu Hq) as Hb. destruct (vm_brk i addr s) as [r s']. destruct Hb as (I1 & Hb). 
  assert (B1 : besides i Q base s s') by (destruct Hb as [(_ & _ & O1 & _)|(_ & _ & O1)]; by eapply only_besides). constructor; [done|done|]. intros Hl. destruct Hb as [(-> & E1 & O1 & Z1 & N1)|(-> & E1 & O1)].
  - left. split; [done|]. split; [done|]. split; [by eapply (only_keeps base i)|]. by split.
  - right. split; [done|]. split; [done|]. eapply keeps_less; [|by eapply only_keeps]. by intros j v [_ []].
Qed.
Lemma store_sound i va b : held_by Q (Store i va b) s -> allowed (Store i va b) s -> perform_sound base sbase (Store i va b) s.
Proof using Hi.
  intros [Hu Hq] (A1 & A2 & A3 & A4). unfold perform_sound, perform. destruct (store_ok base sbase s i va b Hi Hu A1 A2 A3 A4) as (I1 & K1 & L1 & V1 & p & bs & E1 & E2 & E3).
  assert (O1 : only_at Q base i (eq (vpn va)) s (user_store i va b s)).
  { constructor; try done; intros; rewrite V1; try done; intros [= -> ->]; auto. }
  constructor; [done|by eapply only_besides|]. intros Hl. split; [by eapply at_keeps|]. by exists p, bs.
Qed.
Lemma mapnew_sound i va flags : held_by Q (MapNew i va flags) s -> allowed (MapNew i va flags) s -> perform_sound base sbase (MapNew i va flags) s.
Proof using Hi Hothers.
  intros [Hu Hq] Ha. unfold perform_sound, perform. pose proof (map_new_ok others Q Hothers base sbase s i va flags Hi Hu Hq Ha) as Hm. destruct (vm_map others i va 0 flags s) as [r s']. destruct Hm as (I1 & O1 & Hr).
  constructor; [done|by eapply only_besides|]. intros Hl. split; [by eapply at_keeps|]. intros Hne. by apply Hr; congruence.
Qed.
Lemma protect_sound i va flags : held_by Q (Protect i va flags) s -> allowed (Protect i va flags) s -> perform_sound base sbase (Protect i va flags) s.
Proof using Hi Hothers.
  intros [Hu Hq] Ha. unfold perform_sound, perform. pose proof (protect_ok others Q Hothers patience base sbase i va flags Ha s Hi Hu Hq) as Hm. destruct (vm_protect others patience i va flags s) as [r s']. destruct Hm as (I1 & O1 & Hr).
  constructor; [done|by eapply only_besides|]. intros Hl. split; [by eapply at_keeps|]. intros ->. by apply Hr.
Qed.
Lemma fault_sound i va write : held_by Q (Fault i va write) s -> perform_sound base sbase (Fault i va write) s.
Proof using Hi Hothers.
  intros [Hu Hq]. unfold perform_sound, perform. pose proof (fault_ok others patience Q Hothers base sbase s i va write Hi Hu Hq) as Hm. destruct (vm_fault others patience i va write s) as [r s']. destruct Hm as (I1 & G1).
  constructor; [done|by apply goes_besides|]. intros Hl. by eapply goes_keeps.
Qed.
Lemma clone_sound src : held_by Q (Clone src) s -> allowed (Clone src) s -> perform_sound base sbase (Clone src) s.
Proof using Hi Hothers.
  intros [Hu Hq] Ha. unfold perform_sound, perform. pose proof (clone_ok others Q Hothers base sbase s src Hi Hu Hq) as Hm. destruct (vm_clone others src s) as [r s']. destruct Hm as (base' & _ & I1 & G1 & Hc). destruct (Hc Ha) as [Eb Hf].
  constructor; [by apply (inv_bases base' sbase)|by apply goes_besides|]. intros Hl. split; [by eapply goes_keeps|]. intros i [= Er]. destruct r as [i'|]; [|lia]. apply Nat2Z.inj in Er as ->.
  destruct (Hf i eq_refl) as [F1 F2 F3 [_ F4] F5 F6 F7]. done.
Qed.
End each.
Lemma perform_ok base sbase c s : vm_inv base sbase s -> held_by Q c s -> allowed c s -> perform_sound base sbase c s.
Proof using Hothers.
  intros Hi Hh Ha. destruct c; auto using create_sound, share_sound, destroy_sound, clone_sound, maplazy_sound, mapnew_sound, unmap_sound, protect_sound, move_sound, brk_sound, fault_sound, store_sound.
Qed.
Lemma sound_lost base sbase c s r s' : sound base sbase c s r s' -> lost s <= lost s'.
Proof using Type. intros [_ Ho _]. destruct (target c); [apply Ho|apply Ho]. Qed.
Lemma sound_kernel base sbase c s r s' : sound base sbase c s r s' -> kernel_root s' = kernel_root s.
Proof using Type. intros [_ Ho _]. destruct (target c); [apply Ho|apply Ho]. Qed.
Lemma run_kernel base sbase tr s s' : vm_inv base sbase s -> run Q tr s s' -> kernel_root s' = kernel_root s.
Proof using Hothers.
  intros Hi Hr. induction Hr as [s|c r tr s s1 s' Hh Ha Hp Hr IH]; [done|].
  pose proof (perform_ok base sbase c s Hi Hh Ha) as Hs. unfold perform_sound in Hs. rewrite Hp in Hs.
  rewrite (IH (so_inv _ _ _ _ _ _ Hs)). by apply (sound_kernel base sbase c s r).
Qed.
Lemma run_ok base sbase tr s s' : vm_inv base sbase s -> run Q tr s s' ->
  vm_inv base sbase s' /\ lost s <= lost s' /\ (lost s' = lost s -> flat_run tr (flat_of Q s) (flat_of Q s')).
Proof using Hothers.
  intros Hi Hr. induction Hr as [s|c r tr s s1 s' Hh Ha Hp Hr IH]; [split; [done|]; split; [lia|constructor]|].
  pose proof (perform_ok base sbase c s Hi Hh Ha) as Hs. unfold perform_sound in Hs. rewrite Hp in Hs. destruct (IH (so_inv _ _ _ _ _ _ Hs)) as (I2 & L2 & F2). pose proof (sound_lost _ _ _ _ _ _ Hs) as L1.
  split; [done|]. split; [lia|]. intros Hl. econstructor; [apply Hs; lia|apply F2; lia].
Qed.
End run.

(** ** The others *)

(** There is room for a copy of a space, decided. *)
Definition can_copy (src : nat) (s : vm) : bool :=
  forallb (fun v =>
    let d := descr s src v in
    let a := page_of d in
    negb (desc_has_page d) || (if pg_foreign (mm s) a then has d PDT_RESIDENT else pg_held (mm s) a + times src a all_pages s <=? 65536)) all_pages.
Lemma can_copy_spec src (s : vm) : can_copy src s = true -> copyable src s.
Proof.
  intros Hc. unfold can_copy in Hc. rewrite forallb_forall in Hc. split.
  - intros a Hf Hp. destruct (times_some _ _ _ _ Hp) as (v & Hv & Hx). destruct (hold_inv _ _ Hx) as [Hd Ea].
    specialize (Hc v ltac:(by apply list_elem_of_In)). cbv zeta in Hc. rewrite Hd, Ea, Hf in Hc. by apply Z.leb_le in Hc.
  - intros v Hv Hd Hf. specialize (Hc v ltac:(by apply list_elem_of_In)). cbv zeta in Hc. by rewrite Hd, Hf in Hc.
Qed.

(** What runs while a call sleeps: calls on spaces that no sleeping call is
    at work on, which sleep in turn, [k] deep. They keep to what the callers of
    vm.c see to, and a fork among them has room for its copy. *)
Definition and_target (Q : nat -> bool) (c : call) (j : nat) : bool := Q j || match target c with Some i => (j =? i)%nat | None => false end.
Definition polite (Q : nat -> bool) (c : call) (s : vm) : bool :=
  match target c with Some i => used (space s i) && negb (Q i) && negb (busy (space s i)) | None => true end &&
  match c with
  | Clone src => can_copy src s
  | MapLazy i va _ | MapNew i va _ => negb (desc_owned (descr s i (vpn va)))
  | Protect _ _ flags => negb (has flags VM_SHARED)
  | Move i _ to => negb (desc_owned (descr s i (vpn to)))
  | Store i va b => negb (vm_translate i va true s =? 0) && (0 <=? b) && (b <? 256) && negb (has (descr s i (vpn va)) DESC_SW_SHARED) && negb (pg_foreign (mm s) (page_of (descr s i (vpn va))))
  | _ => true
  end.
Fixpoint bystanders (patience : nat) (prog : nat -> nat -> list call) (k : nat) (Q : nat -> bool) (n : nat) (s : vm) : vm :=
  match k with
  | O => s
  | Datatypes.S k' => foldl (fun s c => if polite Q c s then snd (perform (bystanders patience prog k' (and_target Q c)) patience c s) else s) s (prog k' n)
  end.
Lemma polite_allowed Q c (s : vm) : polite Q c s = true -> held_by (and_target Q c) c s /\ allowed c s /\ match target c with Some i => Q i || busy (space s i) = false | None => True end.
Proof.
  intros [Ht Hc]%andb_true_iff. split; [|split].
  - unfold held_by, and_target. destruct (target c) as [i|]; [|done]. rewrite Nat.eqb_refl, orb_true_r. by apply andb_true_iff in Ht as [[? _]%andb_true_iff _].
  - destruct c; try done; cbn [allowed]; try (by apply negb_true_iff); [by apply can_copy_spec|]. apply andb_true_iff in Hc as [[[[C1 C2]%andb_true_iff C3]%andb_true_iff C4]%andb_true_iff C5].
    apply negb_true_iff in C1, C4, C5. apply Z.eqb_neq in C1. by split; [|split; [lia|]].
  - destruct (target c) as [i|]; [|done]. apply andb_true_iff in Ht as [[_ Hq%negb_true_iff]%andb_true_iff Hb%negb_true_iff]. by rewrite Hq, Hb.
Qed.
Lemma besides_weak i (Q Q' : nat -> bool) base (s s' : vm) : (forall j, Q j = true -> Q' j = true) -> besides i Q' base s s' -> besides i Q base s s'.
Proof.
  intros Hq [A1 A2 A3 A4 A5 A6 A7 A8]. assert (Ho : forall j, Q j || busy (space s j) = true -> Q' j || busy (space s j) = true) by (intros j [?| ->]%orb_true_iff; [by rewrite Hq|apply orb_true_r]).
  constructor; auto.
Qed.
Lemma bystanders_tame patience prog k Q n : tame Q (bystanders patience prog k Q n).
Proof.
  revert Q n. induction k as [|k IH]; intros Q n base sbase s Hi; cbn [bystanders]; [split; [done|apply goes_refl]|].
  generalize (prog k n). intros l. revert s Hi. induction l as [|c l IHl]; intros s Hi; cbn [foldl]; [split; [done|apply goes_refl]|].
  destruct (polite Q c s) eqn:Ep; [|by apply IHl]. destruct (polite_allowed _ _ _ Ep) as (P1 & P2 & P3).
  pose proof (perform_ok (bystanders patience prog k (and_target Q c)) patience (and_target Q c) (IH _) base sbase c s Hi P1 P2) as Hs. unfold perform_sound in Hs. destruct (perform _ _ c s) as [r s1]. cbn [snd].
  destruct Hs as [I1 O1 _]. destruct (IHl s1 I1) as [I2 G2]. split; [done|]. eapply goes_trans; [|exact G2].
  assert (Hw : forall j, Q j = true -> and_target Q c j = true) by (intros j Hj; unfold and_target; by rewrite Hj).
  destruct (target c) as [i|]; [apply (besides_goes i); [by apply (besides_weak i Q (and_target Q c))|by right]|].
  apply (besides_goes KERNEL); [apply (besides_weak _ Q (and_target Q c)); [done|]; by apply goes_besides|left].
  destruct (used (space s KERNEL)) eqn:E; [|done]. pose proof (used_lt _ _ _ Hi _ E). lia.
Qed.

(** ** Start *)

Lemma boot_counted (s : vm) : pg_ok (mm s) -> sl_ok (sw s) -> tc_ok (tc s) -> (forall a, tc_held (tc s) a <= pg_held (mm s) a) -> spaces s = replicate 64 no_space -> kernel_root s = 0 -> hand_ok s ->
  vm_inv (fun a => pg_held (mm s) a - tc_held (tc s) a) (sl_held (sw s)) s.
Proof.
  intros Hm Hs Ht Hle Hsp Hk Hh. assert (Hno : forall i, space s i = no_space).
  { intros i. unfold space. rewrite Hsp. destruct (replicate 64 no_space !! i) eqn:E; [|done]. by apply lookup_replicate in E as [-> _]. }
  split; [intros i _ _; by rewrite Hno|]. exists (fun _ => []), (fun _ _ => None). assert (Hl : forall i, live s i = false) by (intros i; unfold live; rewrite Hno, Hk; by case_decide).
  assert (Hd : forall i v, mdesc (X := None) s (fun _ _ => None) i v = 0) by (intros i v; unfold mdesc; by case_decide).
  assert (Hz : forall f, f 0 = 0 -> tally f (mdesc (X := None) s (fun _ _ => None)) = 0) by (intros f Hf; by apply tally_none).
  constructor; [|exact Hs|exact Ht| | | | | | | |exact Hh| |].
  - constructor; [exact Hm| | | | | | | | | |].
    + rewrite Hsp. apply length_replicate.
    + intros i. by rewrite Hl.
    + intros i. by rewrite Hl.
    + reflexivity.
    + intros i _. rewrite Hno. by constructor.
    + intros i a Ha. destruct (not_elem_of_nil a Ha).
    + intros i j a Ha. destruct (not_elem_of_nil a Ha).
    + intros i a Ha. destruct (not_elem_of_nil a Ha).
    + intros i. constructor.
    + intros _. exact (conj Hk eq_refl).
  - intros a. specialize (Hle a). lia.
  - intros k. by apply sl_held_nonneg.
  - intros i a Ha. destruct (not_elem_of_nil a Ha).
  - intros a Hf. destruct (pg_foreign_spec (mm s) a Hm Hf) as [E _]. specialize (Hle a). pose proof (tc_held_nonneg _ a Ht). lia.
  - intros a _ _. unfold named. rewrite Hz by apply hold_0. lia.
  - intros k. unfold slotted. rewrite Hz by apply slot_hold_0. lia.
  - intros i v _. by rewrite Hd.
  - intros i v _. rewrite Hd. by intros.
  - intros i v _. rewrite Hd. by intros.
Qed.
Lemma inv_slots base sbase (s : vm) n : vm_inv base sbase s -> sl_held (sw s) n = sbase n + tally (slot_hold n) (descr s).
Proof.
  intros (_ & pgs & tabs & Hok). rewrite (vo_slots _ _ _ _ _ _ Hok). unfold slotted. f_equal. apply tally_ext. intros i v Hp. symmetry. apply (descr_desc pgs tabs); [apply Hok|done].
Qed.
(** Where every hold of a page comes from: the chains of table pages of the
    spaces, the rest of the kernel, the cache of file pages, the descriptors. *)
Lemma inv_pages base sbase (s : vm) : vm_inv base sbase s -> kernel_root s = 0 ->
  exists pgs : nat -> list Z,
    (forall i, (i < KERNEL)%nat -> chain (mm s) (tables (space s i)) (pgs i) /\ NoDup (pgs i) /\ 0 ∉ pgs i) /\
    (forall i j a, a ∈ pgs i -> a ∈ pgs j -> i = j) /\
    forall a, pg_foreign (mm s) a = false ->
      (exists i, (i < KERNEL)%nat /\ a ∈ pgs i /\ base a = 0 /\ pg_held (mm s) a = 1 /\ tc_held (tc s) a = 0 /\ cnt s a = 0) \/
      (forall i, a ∉ pgs i) /\ pg_held (mm s) a = base a + tc_held (tc s) a + cnt s a.
Proof.
  intros (_ & pgs & tabs & Hok) Hk. pose proof (vo_tables _ _ _ _ _ _ Hok) as Ht.
  assert (Hl : live s KERNEL = false) by (unfold live; rewrite decide_True, Hk by done; done).
  destruct (to_kernel _ _ _ _ Ht Hl) as [_ Hnk]. exists pgs. split; [|split].
  - intros i Hi. split; [apply (to_bump _ _ _ _ Ht i ltac:(lia))|]. split; [apply (to_nodup _ _ _ _ Ht)|].
    intros Hin. destruct (page_held _ _ _ _ i 0 Ht Hin). lia.
  - apply (to_apart _ _ _ _ Ht).
  - intros a Hf. destruct (table_dec _ _ _ _ a Ht) as [[i Hi]|Hn].
    + left. exists i. pose proof (to_out _ _ _ _ Ht i a Hi) as Hle. destruct (decide (i = KERNEL)) as [->|]; [rewrite Hnk in Hi; by apply elem_of_nil in Hi|].
      destruct (vo_tab _ _ _ _ _ _ Hok i a Hi) as (B1 & B2 & B3). rewrite (cnt_named pgs) in B3 by done. split; [lia|]. split; [done|]. split; [done|]. split; [by apply (to_held _ _ _ _ Ht i)|]. done.
    + right. split; [done|]. rewrite (vo_held _ _ _ _ _ _ Hok a Hf Hn). by rewrite (cnt_named pgs).
Qed.

(** What the program of space [i] may do at [va]. *)
Definition entitled (s : vm) (i : nat) (va : Z) (write : bool) : Prop :=
  match sees s i (vpn va) with Some (p, _) => p <> VM_NONE /\ (write = true -> p = VM_WRITE) | None => False end.
(** An access the program may not make is refused at once; one that it may
    make is not refused, except by a page that cannot be read back. *)
Lemma fault_refuses others patience base sbase s i va (write : bool) : vm_inv base sbase s -> used (space s i) = true ->
  ~ entitled s i va write -> vm_fault others patience i va write s = (Some (- EFAULT), s).
Proof.
  intros Hi Hu. unfold vm_fault, entitled, sees. destruct (Z.eqb_spec (pagetable i va s) 0) as [|Hpt]; [done|].
  destruct (pagetable_some _ _ _ _ _ Hi Hu Hpt) as (_ & _ & _ & Ew). rewrite <- Ew by done. set (d := descr s i (vpn va)).
  unfold view_of, desc_prot, desc_owned. rewrite !has_mask_or.
  destruct (has d PDT_RESIDENT), (has d DESC_SW_NONE), (has d DESC_SW_LAZY), (has d DESC_SW_SWAP), (has d DESC_SUPER), write, (has d DESC_WP), (has d DESC_SW_COW); cbn [negb orb andb]; try done;
    intros Hn; destruct Hn; by repeat split.
Qed.
Lemma fault_grants others patience base sbase s i va (write : bool) : vm_inv base sbase s -> used (space s i) = true -> entitled s i va write ->
  has (descr s i (vpn va)) DESC_SUPER = false -> has (descr s i (vpn va)) DESC_SW_SWAP = false ->
  fst (vm_fault others patience i va write s) ∈ [Some 0; Some VM_FAULT_NOCHANGE; Some (- ENOMEM)].
Proof.
  intros Hi Hu. unfold vm_fault, entitled, sees. destruct (Z.eqb_spec (pagetable i va s) 0) as [Hpt|Hpt].
  { intros He _ _. exfalso. revert He. destruct (decide (USER_VA_BASE <= va < USER_VA_END)) as [Hva|Hn]; [by rewrite (descr_out base sbase)|by rewrite descr_off]. }
  destruct (pagetable_some _ _ _ _ _ Hi Hu Hpt) as (_ & _ & _ & Ew). rewrite <- Ew by done. set (d := descr s i (vpn va)).
  intros He Hs Hw. rewrite Hs. unfold fault_cow, fault_absent. rewrite Hw. revert He.
  unfold view_of, desc_prot, desc_owned. rewrite !has_mask_or, Hw.
  assert (Hcow : forall pt idx, fst (let '(r, pa, s0) := if 1 <? pg_refcount (page_of d) (mm s) then
      let '(copy, s1) := page_alloc_user others s in if copy =? 0 then (Some (- ENOMEM), page_of d, s1)
      else if negb (word s1 pt idx =? d) then (Some 0, page_of d, pfree copy s1) else (None, copy, pfree (page_of d) (page_copy copy (page_of d) s1))
      else (None, page_of d, s) in
    match r with Some r => (Some r, s0) | None => (Some 0, count_stat (fun t => t <| faults_cow := u32 (faults_cow t + 1) |>) (set_word pt idx (Z.lor (Z.lor pa (page_bits (Z.lor VM_USER VM_WRITE))) DESC_USED) s0)) end)
    ∈ [Some 0; Some VM_FAULT_NOCHANGE; Some (- ENOMEM)]).
  { intros pt idx. destruct (_ <? _); [|by left]. destruct (page_alloc_user others s) as [c s1]. destruct (c =? 0); [by do 2 right; left|]. by destruct (negb _); left. }
  assert (Hab : forall pt idx, fst (let '(pa, s0) := page_alloc_user others s in if pa =? 0 then (Some (- ENOMEM), s0)
      else if negb (word s0 pt idx =? d) then (Some 0, pfree pa s0) else
      (Some 0, set_word pt idx (Z.lor (Z.lor pa (page_bits (Z.lor VM_USER (if has d DESC_WP then 0 else VM_WRITE)))) DESC_USED)
         (count_stat (fun t => t <| faults_zero := u32 (faults_zero t + 1) |>) s0))) ∈ [Some 0; Some VM_FAULT_NOCHANGE; Some (- ENOMEM)]).
  { intros pt idx. destruct (page_alloc_user others s) as [c s1]. destruct (c =? 0); [by do 2 right; left|]. by destruct (negb _); left. }
  destruct (has d PDT_RESIDENT), (has d DESC_SW_NONE), (has d DESC_SW_LAZY), write, (has d DESC_WP), (has d DESC_SW_COW); cbn [negb orb andb]; try done;
    intros He; try apply Hcow; try apply Hab; try (by right; left); exfalso; naive_solver.
Qed.

(** The fault had been dealt with before. *)
Lemma fault_nothing base sbase s i va patience (write : bool) s' : vm_inv base sbase s -> used (space s i) = true -> vm_fault nobody patience i va write s = (Some VM_FAULT_NOCHANGE, s') ->
  s' = s /\ (page_of (descr s i (vpn va)) <> 0 -> vm_translate i va write s <> 0).
Proof.
  intros Hi Hu. unfold vm_fault, vm_translate, VM_FAULT_NOCHANGE. destruct (Z.eqb_spec (pagetable i va s) 0) as [|Hpt]; [done|]. destruct (pagetable_some _ _ _ _ _ Hi Hu Hpt) as (_ & Hpl & _ & Ew). rewrite <- Ew by done.
  set (d := descr s i (vpn va)). destruct (has d PDT_RESIDENT).
  - destruct (has d DESC_SUPER); [done|]. destruct (negb write || _) eqn:Ewr.
    + intros [= <-]. split; [done|]. intros Hp. cbn [negb]. replace (write && has d DESC_WP) with false by (revert Ewr; by destruct write, (has d DESC_WP)).
      pose proof (inv_wf _ _ _ Hi i _ Hpl) as [Hu32 _]. destruct (page_of_page d Hu32) as [Hu2 Hm]. rewrite offset_land, (lor_add _ _ 12); [|lia|done|apply Z.mod_pos_bound; lia].
      pose proof (Z.mod_pos_bound va 4096 ltac:(lia)). unfold is_u32 in Hu2. lia.
    + destruct (negb (has d DESC_SW_COW)); [done|]. unfold fault_cow. destruct (_ <? _); [|intros [=]]. destruct (page_alloc_user nobody s) as [c s1]. destruct (c =? 0); [done|]. destruct (negb (_ =? _)); intros [=].
  - destruct (_ || _); [done|]. destruct (_ && _); [done|]. unfold fault_absent. destruct (if has d DESC_SW_SWAP then _ else _) as [ok s1]. destruct ok; cbn [negb]; [|done].
    destruct (page_alloc_user nobody s1) as [c s2]. destruct (c =? 0); [done|]. destruct (negb (_ =? _)); [done|]. destruct (has d DESC_SW_SWAP); [|intros [=]].
    destruct (swap_in nobody _ c s2) as [e s3]. destruct (e <? 0); [done|]. destruct (negb (_ =? _)); intros [=].
Qed.
(** A space with one page of its own can be copied. *)
Lemma few_copyable (s : vm) src v0 : (src < KERNEL)%nat -> (forall v, place src v -> v <> v0 -> sees s src v = None) ->
  pg_foreign (mm s) (page_of (descr s src v0)) = false -> pg_held (mm s) (page_of (descr s src v0)) < 65536 -> copyable src s.
Proof.
  intros Hlt Hno Hf Hh. assert (Hnp : forall v, v ∈ all_pages -> v <> v0 -> desc_has_page (descr s src v) = false).
  { intros v Hv%all_pages_elem Hne. pose proof (proj1 (view_none _ _) (Hno v (conj Hlt Hv) Hne)) as Ho. revert Ho. unfold desc_owned, desc_has_page. rewrite !has_mask_or.
    by destruct (has _ PDT_RESIDENT), (has _ DESC_SW_NONE). }
  assert (Hz : forall a v, v ∈ all_pages -> v <> v0 -> hold a (descr s src v) = 0) by (intros a v Hv Hne; unfold hold; by rewrite Hnp).
  assert (Ht : forall a l, NoDup l -> (forall v, v ∈ l -> v ∈ all_pages) -> times src a l s <= if decide (v0 ∈ l) then 1 else 0).
  { intros a l Hl. induction Hl as [|v l Hv Hl IH]; intros Hs; [by case_decide|]. cbn [times foldr]. specialize (IH ltac:(intros w Hw; apply Hs; by right)). unfold times in IH.
    destruct (decide (v = v0)) as [->|Hne].
    - rewrite (decide_False (P := v0 ∈ l)) in IH by done. rewrite decide_True by (by left). pose proof (hold_bound a (descr s src v0)). lia.
    - rewrite Hz by (done || apply Hs; by left). case_decide as H1'; case_decide as H2'; try lia. destruct H2'. by right. }
  split.
  - intros a _ Hp. destruct (times_some _ _ _ _ Hp) as (w & Hw & Hx). destruct (decide (w = v0)) as [->|Hne]; [|by rewrite Hz in Hx]. destruct (hold_inv _ _ Hx) as [_ <-].
    pose proof (Ht (page_of (descr s src v0)) all_pages ltac:(apply table_pages_nodup, NoDup_seq) ltac:(done)) as Hle. case_decide; lia.
  - intros v Hv Hp Hx. destruct (decide (v = v0)) as [->|Hne]; [congruence|]. by rewrite Hnp in Hp.
Qed.

(** ** The properties *)

Section claims.
Context (patience : nat) (prog : nat -> nat -> list call) (k : nat) (Q : nat -> bool).
#[local] Abbreviation others := (bystanders patience prog k Q).



(** C38: The clock hand stops: within 8388609 turns it has freed what was
    wanted or been twice round every page of every space, whatever the others
    do while pages are written out. *)
Theorem reclaim_ends base sbase s want freed : vm_inv base sbase s -> fst (loop 8388609 (reclaim_turn others want) (freed, 0, s)) = false.
Proof. apply (reclaim_stops others Q (fun n => bystanders_tame patience prog k Q n)). Qed.

(** C39: swapoff, whether it ends well, runs out of memory or cannot read a
    page, and whatever runs while it sleeps, keeps every page and slot
    counted, leaves the holds of the rest of the kernel as they are, and takes
    no page from a program and gives it none. *)
Theorem swapoff_keeps_counts base sbase s : vm_inv base sbase s ->
  let '(r, s') := vm_swapoff others patience s in
  (is_Some r -> vm_inv base sbase s') /\
  forall i v, place i v -> used (space s i) = true -> Q i || busy (space s i) = true -> (sees s' i v = None <-> sees s i v = None).
Proof.
  intros Hi. pose proof (swapoff_ok others patience Q (fun n => bystanders_tame patience prog k Q n) base sbase s Hi) as Ho. destruct (vm_swapoff others patience s) as [r s'].
  destruct Ho as (base' & _ & I1 & [_ _ N1] & E1). split; [|done]. intros Hr. apply (inv_bases base' sbase); [intros a; symmetry; by apply E1|done|done].
Qed.
End claims.

(** C7: A byte that a program may write of a page of its own, written through
    the tables: that byte of that page of that space changes, and nothing else
    that any program sees, whoever else the page was once shared with. *)
Theorem store_isolated base sbase s i va b : vm_inv base sbase s -> used (space s i) = true -> vm_translate i va true s <> 0 -> 0 <= b < 256 ->
  has (descr s i (vpn va)) DESC_SW_SHARED = false -> pg_foreign (mm s) (page_of (descr s i (vpn va))) = false ->
  let s' := user_store i va b s in
  (forall j w, place j w -> (j, w) <> (i, vpn va) -> sees s' j w = sees s j w) /\
  exists p bs, sees s i (vpn va) = Some (p, Own bs) /\ length bs = 4096%nat /\ sees s' i (vpn va) = Some (p, Own (<[Z.to_nat (va mod 4096) := b]> bs)).
Proof. intros Hi Hu Ht Hb Hs Hf. by destruct (store_ok base sbase s i va b Hi Hu Ht Hb Hs Hf) as (_ & _ & _ & V1 & E1). Qed.

(** C8: Faults let through what the program may do and nothing else. Whoever
    else runs, an access the program is not entitled to (no page there, one it
    may not touch, a write to one it may only read) is answered with -EFAULT and
    nothing changes; one that it is entitled to, to a page that is not out on
    the disk and not the supervisor's, is answered with 0, nothing-to-do or
    -ENOMEM. With nobody else at work and more than RESERVE_PAGES + 1 pages free
    (otherwise the page may be gone again), after a fault that returns 0 the walk
    translates the address for the access that faulted; and a fault that says
    there was nothing to do changed nothing, and the walk translates (to an
    address other than 0, which says no: so not for the physical page 0). *)
Theorem fault_lets_through base sbase s i va patience (write : bool) : vm_inv base sbase s -> used (space s i) = true ->
  (forall others, ~ entitled s i va write -> vm_fault others patience i va write s = (Some (- EFAULT), s)) /\
  (forall others, entitled s i va write -> has (descr s i (vpn va)) DESC_SUPER = false -> has (descr s i (vpn va)) DESC_SW_SWAP = false ->
     fst (vm_fault others patience i va write s) ∈ [Some 0; Some VM_FAULT_NOCHANGE; Some (- ENOMEM)]) /\
  let '(r, s') := vm_fault nobody patience i va write s in
  (r = Some 0 -> RESERVE_PAGES + 1 < pg_available (mm s) -> vm_translate i va write s' <> 0) /\
  (r = Some VM_FAULT_NOCHANGE -> s' = s /\ (page_of (descr s i (vpn va)) <> 0 -> vm_translate i va write s <> 0)).
Proof.
  intros Hi Hu. split; [intros others; by apply (fault_refuses others patience base sbase)|].
  split; [intros others; by apply (fault_grants others patience base sbase)|].
  destruct (vm_fault nobody patience i va write s) as [r s'] eqn:Ef. split; [intros -> Ha; by eapply fault_serves|].
  intros ->. by apply (fault_nothing base sbase s i va patience write).
Qed.

(** C40: The tables map whole pages, which is what the copies to and from a
    program rely on: two addresses in one page translate together, to
    addresses as far apart. *)
Theorem tables_map_whole_pages base sbase s i : vm_inv base sbase s -> used (space s i) = true ->
  (forall v, place i v -> has (descr s i v) PDT_RESIDENT = true -> page_of (descr s i v) <> 0) -> UACCESS.page_linear (fun va w => vm_translate i va w s).
Proof. apply translate_linear. Qed.
End machine.

(** ** A machine of 64 pages *)

(** A cache of file pages that holds none. *)
#[local] Instance no_texts {W} `{PageRefs W} : TextCache unit W.
Proof. refine {| tc_shrink := fun _ t w => (0, t, w); tc_idle := fun _ _ => 0; tc_release := fun _ t w => (t, w); tc_dup := fun _ t => t; tc_dirty := fun _ t => t; tc_ok := fun _ => True; tc_held := fun _ _ => 0 |}; try done; intros; split; done. Defined.
#[local] Existing Instance PAGES.pmm_pages.
#[local] Existing Instance PAGES.pmm_refs.
#[local] Existing Instance SWAP.log_disk.
#[local] Existing Instance SWAP.swap_slots.
Definition pool64 : PMM.pmm := PMM.pmm_init 1048576 1310720 PMM.blank.
Lemma pool64_inv : PMM.pmm_inv pool64.
Proof. destruct (PMM.pmm_init_spec 1048576 1310720 PMM.blank) as [[Hn _]|[Hn _]]; [lia|lia|simpl; lia| |exact Hn]. vm_compute in Hn. discriminate. Qed.
#[local] Abbreviation machine := (@vm PMM.pmm (@SWAP.sw (list (Z * list Z))) unit).
Definition start64 : machine := mk_vm pool64 SWAP.swapping tt (replicate 64 no_space) 0 0 0 0 USER_VA_BASE (mk_stats 0 0 0 0) 0 0%nat.
Definition start_base (a : Z) : Z := pg_held (mm start64) a - tc_held (tc start64) a.
Lemma start64_inv : vm_inv start_base (sl_held (sw start64)) start64.
Proof.
  apply (boot_counted start64); [exact pool64_inv|exact SWAP.swapping_facts|exact I|intros a; exact (pg_held_nonneg pool64 a pool64_inv)|reflexivity|reflexivity|].
  split; [split; [discriminate|reflexivity]|]. split; [split; [discriminate|reflexivity]|reflexivity].
Qed.
(** The first page of a space touched and written; the second made read-only,
    moved, and gone; the heap grown and cut; the space shared and given up. *)
Definition second : Z := USER_VA_BASE + 4096.
Definition some_calls : list (call * option Z) :=
  [(Create, Some 0); (MapLazy 0 USER_VA_BASE 3, Some 0); (Fault 0 USER_VA_BASE true, Some 0); (Store 0 USER_VA_BASE 7, Some 0);
   (MapNew 0 second 3, Some 1060864); (Protect 0 second 1, Some 0); (Move 0 second (second + 8192), Some 1); (Unmap 0 (second + 8192), Some 0);
   (Create, Some 1); (Share 1, Some 0); (Destroy 1, Some 0); (Destroy 1, Some 0)].
#[local] Abbreviation those := (bystanders 4 (fun _ _ => [Create; Fault 1 USER_VA_BASE true]) 1 (fun _ => true)).
Definition after (l : list (call * option Z)) : machine := foldl (fun s '(c, _) => snd (perform those 4 c s)) start64 l.
Lemma run_cons c r tr (s s' : machine) : held_by (fun _ => true) c s -> allowed c s -> fst (perform those 4 c s) = r -> run those 4 (fun _ => true) tr (snd (perform those 4 c s)) s' ->
  run those 4 (fun _ => true) ((c, r) :: tr) s s'.
Proof. intros Hh Ha <- Hr. econstructor; [done|done|apply surjective_pairing|done]. Qed.
Ltac see := vm_compute; first [reflexivity | discriminate | exact I | intros ?; discriminate].
Lemma some_calls_run : run those 4 (fun _ => true) some_calls start64 (after some_calls).
Proof.
  unfold some_calls, after. cbn [foldl]. repeat (apply run_cons; [first [exact I | split; see] | first [see | (split; [see|split; [split; see|split; see]])] | see |]). apply run_done.
Qed.
Definition touched : machine := after (take 3 some_calls).
Lemma step_sound c (s : machine) base sbase : vm_inv base sbase s -> held_by (fun _ => true) c s -> allowed c s ->
  sound (fun _ => true) base sbase c s (fst (perform those 4 c s)) (snd (perform those 4 c s)).
Proof.
  intros Hi Hh Ha. pose proof (perform_ok those 4 (fun _ => true) (fun n => bystanders_tame 4 _ 1 (fun _ => true) n) base sbase c s Hi Hh Ha) as Hs. unfold perform_sound in Hs. by destruct (perform those 4 c s).
Qed.
Lemma touched_facts : vm_inv start_base (sl_held (sw start64)) touched /\ forall v, place 0 v -> v <> 0 -> sees touched 0 v = None.
Proof.
  unfold touched, after, some_calls. cbn [take foldl].
  pose proof (step_sound Create start64 _ _ start64_inv I I) as [I1 _ F1]. destruct (F1 ltac:(see)) as [_ M1]. clear F1. destruct (M1 0%nat ltac:(see)) as (_ & _ & _ & _ & N1). clear M1.
  pose proof (step_sound (MapLazy 0 USER_VA_BASE 3) _ _ _ I1 ltac:(split; see) ltac:(see)) as [I2 _ F2]. destruct (F2 ltac:(see)) as [K2 _]. clear F2.
  pose proof (step_sound (Fault 0 USER_VA_BASE true) _ _ _ I2 ltac:(split; see) I) as [I3 _ F3]. pose proof (F3 ltac:(see)) as K3. clear F3.
  assert (S2 : fl_seen (flat_of (fun _ => true) (snd (perform those 4 (MapLazy 0 USER_VA_BASE 3) (snd (perform those 4 Create start64))))) 0%nat = true) by see.
  assert (S1 : fl_seen (flat_of (fun _ => true) (snd (perform those 4 Create start64))) 0%nat = true) by see.
  revert I3 K3 K2 N1 S1 S2. clear I1 I2. generalize (snd (perform those 4 Create start64)). intros s1. generalize (snd (perform those 4 (MapLazy 0 USER_VA_BASE 3) s1)). intros s2.
  generalize (snd (perform those 4 (Fault 0 USER_VA_BASE true) s2)). intros s3 I3 K3 K2 N1 S1 S2. split; [exact I3|]. intros v Hp Hv.
  destruct (K3 0%nat v Hp S2) as [_ E3]; [by intros []|]. destruct (K2 0%nat v Hp S1) as [_ E2]; [by intros [_ E]|]. exact (eq_trans E3 (eq_trans E2 (N1 v Hp))).
Qed.
#[local] Abbreviation asleep := (fun _ _ => [Create; Fault 1 USER_VA_BASE true]).
(** A fork of the space with one page. *)
Definition a_fork : list (call * option Z) := [(Clone 0, Some 1)].
Definition forked64 : machine := snd (perform those 4 (Clone 0) touched).
Lemma a_fork_run : run those 4 (fun _ => true) a_fork touched forked64.
Proof.
  unfold a_fork, forked64. apply run_cons; [split; see| |see|apply run_done].
  apply (few_copyable touched 0 0); [unfold KERNEL; lia|exact (proj2 touched_facts)|see|see].
Qed.
Lemma reclaim_ends_witness : fst (loop 8388609 (reclaim_turn those 3) (0, 0, touched)) = false.
Proof. exact (reclaim_ends 4 asleep 1 (fun _ => true) start_base (sl_held (sw start64)) touched 3 0 (proj1 touched_facts)). Defined.
Lemma swapoff_keeps_counts_witness :
  let '(r, s') := vm_swapoff those 4 touched in
  (is_Some r -> vm_inv start_base (sl_held (sw start64)) s') /\
  forall i v, place i v -> used (space touched i) = true -> true || busy (space touched i) = true -> (sees s' i v = None <-> sees touched i v = None).
Proof. exact (swapoff_keeps_counts 4 asleep 1 (fun _ => true) start_base (sl_held (sw start64)) touched (proj1 touched_facts)). Defined.
Lemma store_isolated_witness : exists p bs, sees touched 0 0 = Some (p, Own bs) /\ length bs = 4096%nat /\ sees (user_store 0 USER_VA_BASE 7 touched) 0 0 = Some (p, Own (<[0%nat := 7]> bs)).
Proof.
  refine (proj2 (store_isolated start_base (sl_held (sw start64)) touched 0 USER_VA_BASE 7 (proj1 touched_facts) _ _ _ _ _)); [see|see|split; see|see|see].
Defined.
(** The space with its page mapped but not touched: the fault brings it in,
    and an access beyond it is refused. *)
Definition lazy64 : machine := after (take 2 some_calls).
Lemma lazy64_inv : vm_inv start_base (sl_held (sw start64)) lazy64.
Proof.
  unfold lazy64, after, some_calls. cbn [take foldl].
  pose proof (step_sound Create start64 _ _ start64_inv I I) as [I1 _ _].
  pose proof (step_sound (MapLazy 0 USER_VA_BASE 3) _ _ _ I1 ltac:(split; see) ltac:(see)) as [I2 _ _]. exact I2.
Qed.
Lemma fault_lets_through_witness : fst (vm_fault nobody 4 0 USER_VA_BASE true lazy64) = Some 0 /\
  vm_translate 0 USER_VA_BASE true (snd (vm_fault nobody 4 0 USER_VA_BASE true lazy64)) <> 0 /\
  fst (vm_fault nobody 4 0 (USER_VA_BASE + 4096) true lazy64) = Some (- EFAULT).
Proof.
  split; [see|]. split.
  - pose proof (fault_lets_through start_base (sl_held (sw start64)) lazy64 0 USER_VA_BASE 4 true lazy64_inv ltac:(see)) as H.
    assert (E : fst (vm_fault nobody 4 0 USER_VA_BASE true lazy64) = Some 0) by see. assert (Ha : RESERVE_PAGES + 1 < pg_available (mm lazy64)) by see.
    revert H E Ha. generalize lazy64. intros s (_ & _ & H). revert H. destruct (vm_fault nobody 4 0 USER_VA_BASE true s) as [r s']. cbn [fst snd]. intros [H _] E. exact (H E).
  - pose proof (fault_lets_through start_base (sl_held (sw start64)) lazy64 0 (USER_VA_BASE + 4096) 4 true lazy64_inv ltac:(see)) as H.
    assert (E : sees lazy64 0 (vpn (USER_VA_BASE + 4096)) = None) by see. revert H E. unfold entitled. generalize lazy64. generalize (USER_VA_BASE + 4096). intros va s (H & _ & _) E. rewrite (H nobody); [reflexivity|]. rewrite E. intros [].
Defined.
Lemma unseen_absent (s : machine) i v : sees s i v = None -> has (descr s i v) PDT_RESIDENT = false.
Proof. intros Hs%view_none. revert Hs. unfold desc_owned. by destruct (has _ PDT_RESIDENT). Qed.
Lemma tables_map_whole_pages_witness : UACCESS.page_linear (fun va w => vm_translate 0 va w touched) /\ vm_translate 0 (USER_VA_BASE + 5) true touched = 1056773.
Proof.
  split; [|see]. apply (tables_map_whole_pages start_base (sl_held (sw start64)) touched 0 (proj1 touched_facts)); [see|].
  destruct touched_facts as [_ Hno]. intros v Hp Hr. destruct (decide (v = 0)) as [->|Hv]; [see|]. destruct (eq_true_false_abs _ Hr (unseen_absent touched 0 v (Hno v Hp Hv))).
Defined.
End VMFLAT.
