(* ===== verification/Vmuser.v ===== *)
(** * Copies to and from a program, page faults included (kernel/uaccess.c)

    The copies of uaccess.c over the address spaces of vm.c: each page of the
    program's range is looked up with the walk, asked of the page fault where
    it is lazy, out on the disk or shared until written, and looked up again.
    The fault may sleep, and whatever the others do then happens in the middle
    of the copy. (Uaccess has the same copies over tables that stay as they
    are, for the kernel's other parts to use.) *)

From S2P Require Import Prelude Pmm Pages Swap Uaccess Vm Vmtab Vminv Vmdesc Vmstep Vmput Vmfault Vmcalls Vmspace Vmclone Vmoff Vmmem Vmflat.
Local Open Scope Z_scope.

Module VMUSER.
Import VM VMTAB VMINV VMDESC VMSTEP VMPUT VMPLAIN VMFAULT VMCALLS VMSPACE VMCLONE VMOFF VMMEM VMFLAT.

(** ** Whose memory *)

(** What the copies look at of the running task. *)
Record task := mk_task { ua_override : option nat; as_of : option nat }.
#[export] Instance task_fields : Fields task := fun t => mk_task (ua_override t) (as_of t).
Definition uaccess_set (a : option nat) (current : option task) : option nat * option task :=
  match current with
  | None => (None, None)
  | Some t => (ua_override t, Some (t <| ua_override := a |>))
  end.
Definition uaccess_current (current : option task) : option nat :=
  match current with
  | None => None
  | Some t => match ua_override t with Some a => Some a | None => as_of t end
  end.

Section machine.
Context {W S T : Type} `{TextCache T W} `{SwapSlots S}.
#[local] Abbreviation vm := (@vm W S T).

(** ** The copies *)

Section ops.
Context (others : nat -> vm -> vm) (patience : nat).

(** [None] if the fault waits for good. *)
Definition translate (i : nat) (uva : Z) (write : bool) (s : vm) : option Z * vm :=
  let pa := vm_translate i uva write s in
  if pa =? 0 then
    let '(r, s) := vm_fault others patience i uva write s in
    match r with
    | None => (None, s)
    | Some r => (Some (if 0 <=? r then vm_translate i uva write s else pa), s)
    end
  else (Some pa, s).

(** The address of the first byte, or 0, and how many follow it in its page. *)
Definition uaccess_chunk (cur : option nat) (uva len : Z) (write : bool) (s : vm) : option (Z * Z) * vm :=
  match cur with
  | None => (Some (0, len), s)
  | Some i =>
      if len =? 0 then (Some (0, len), s)
      else
        let '(pa, s) := translate i uva write s in
        match pa with
        | None => (None, s)
        | Some pa => (Some (if pa =? 0 then (0, len) else (pa, UACCESS.chunk_len uva len)), s)
        end
  end.

Fixpoint check_loop (fuel : nat) (i : nat) (uva len : Z) (write : bool) (s : vm) : option Z * vm :=
  match fuel with
  | O => (Some 0, s)
  | Datatypes.S fuel' =>
      if 0 <? len then
        let n := UACCESS.chunk_len uva len in
        let '(pa, s) := translate i uva write s in
        match pa with
        | None => (None, s)
        | Some pa => if pa =? 0 then (Some (- EFAULT), s) else check_loop fuel' i (u32 (uva + n)) (len - n) write s
        end
      else (Some 0, s)
  end.
Definition uaccess_check (current : option task) (uva len : Z) (write : bool) (s : vm) : option Z * vm :=
  match uaccess_current current with
  | None => (Some (- EFAULT), s)
  | Some i =>
      if len =? 0 then (Some 0, s)
      else if u32 (uva + len) <? uva then (Some (- EFAULT), s)
      else check_loop (Z.to_nat len) i uva len write s
  end.

(** The result, and the bytes copied before it was known. *)
Fixpoint copy_in (fuel : nat) (cur : option nat) (uva len : Z) (out : list Z) (s : vm) : option Z * list Z * vm :=
  match fuel with
  | O => (Some 0, out, s)
  | Datatypes.S fuel' =>
      if 0 <? len then
        let '(c, s) := uaccess_chunk cur uva len false s in
        match c with
        | None => (None, out, s)
        | Some (src, n) =>
            if src =? 0 then (Some (- EFAULT), out, s)
            else copy_in fuel' cur (u32 (uva + n)) (len - n) (out ++ page_bytes src (Z.to_nat n) (mm s)) s
        end
      else (Some 0, out, s)
  end.
Definition copy_from_user (current : option task) (uva len : Z) (s : vm) : option Z * list Z * vm :=
  match uaccess_current current with
  | None => (Some (- EFAULT), [], s)
  | Some i =>
      if u32 (uva + len) <? uva then (Some (- EFAULT), [], s)
      else copy_in (Z.to_nat len) (Some i) uva len [] s
  end.

Fixpoint copy_out (fuel : nat) (cur : option nat) (uva : Z) (bs : list Z) (s : vm) : option Z * vm :=
  match fuel with
  | O => (Some 0, s)
  | Datatypes.S fuel' =>
      let len := Z.of_nat (length bs) in
      if 0 <? len then
        let '(c, s) := uaccess_chunk cur uva len true s in
        match c with
        | None => (None, s)
        | Some (dst, n) =>
            if dst =? 0 then (Some (- EFAULT), s)
            else copy_out fuel' cur (u32 (uva + n)) (drop (Z.to_nat n) bs) (s <| mm := store_bytes dst (take (Z.to_nat n) bs) (mm s) |>)
        end
      else (Some 0, s)
  end.
Definition copy_to_user (current : option task) (uva : Z) (bs : list Z) (s : vm) : option Z * vm :=
  match uaccess_current current with
  | None => (Some (- EFAULT), s)
  | Some i =>
      if u32 (uva + Z.of_nat (length bs)) <? uva then (Some (- EFAULT), s)
      else copy_out (length bs) (Some i) uva bs s
  end.

Fixpoint strncpy_loop (fuel : nat) (cur : option nat) (uva max : Z) (out : list Z) (s : vm) : option Z * list Z * vm :=
  match fuel with
  | O => (Some (- ENAMETOOLONG), out, s)
  | Datatypes.S fuel' =>
      let dn := Z.of_nat (length out) in
      if dn <? max then
        let '(c, s) := uaccess_chunk cur uva (max - dn) false s in
        match c with
        | None => (None, out, s)
        | Some (src, n) =>
            if src =? 0 then (Some (- EFAULT), out, s)
            else
              let '(ended, out') := UACCESS.scan_chunk (page_bytes src (Z.to_nat n) (mm s)) out in
              if ended : bool then (Some (Z.of_nat (length out')), out', s)
              else strncpy_loop fuel' cur (u32 (uva + n)) max out' s
        end
      else (Some (- ENAMETOOLONG), out, s)
  end.
(** The string's length and the string, without its terminator. *)
Definition strncpy_from_user (current : option task) (uva max : Z) (s : vm) : option Z * list Z * vm :=
  match uaccess_current current with
  | None => (Some (- EFAULT), [], s)
  | Some i => if max =? 0 then (Some (- EFAULT), [], s) else strncpy_loop (Z.to_nat max) (Some i) uva max [] s
  end.
End ops.
(** ** A byte and a chunk stored *)

Lemma seen_private (s : vm) i v p bs : sees s i v = Some (p, Own bs) -> desc_has_page (descr s i v) = true ->
  has (descr s i v) DESC_SW_SHARED = false /\ pg_foreign (mm s) (page_of (descr s i v)) = false.
Proof. unfold VMINV.sees, view_of. intros Hs Hd. rewrite Hd in Hs. destruct (desc_owned _); [|done]. cbn [negb] in Hs. by destruct (has _ DESC_SW_SHARED), (pg_foreign _ _). Qed.
Lemma seen_length (s : vm) i v p bs : sees s i v = Some (p, Own bs) -> length bs = 4096%nat.
Proof.
  unfold VMINV.sees, view_of. destruct (desc_owned _); [|done]. cbn [negb]. 
  intros E. apply (f_equal (fun o => match o with Some (_, Own l) => length l | _ => 4096%nat end)) in E. cbv beta iota in E. rewrite <- E. revert E. generalize (length bs). intros n E.
  destruct (desc_has_page _); [destruct (_ || _); [reflexivity|apply length_page_bytes]|destruct (has _ _)]; [apply length_replicate|].
  unfold page_image. by rewrite length_fmap, length_seq.
Qed.
(** A byte through the walk, into whatever page is there. *)
Lemma store_any base sbase s i va b : vm_inv base sbase s -> used (space s i) = true -> vm_translate i va true s <> 0 -> 0 <= b < 256 ->
  let s' := s <| mm := pg_store (vm_translate i va true s) b (mm s) |> in
  vm_inv base sbase s' /\ (forall Q, kept Q s s') /\ alone base s s' /\ forall va' w, vm_translate i va' w s' = vm_translate i va' w s.
Proof.
  intros Hi Hu Hne Hb s'. destruct (translate_reaches base sbase s i va true Hi Hu Hne) as [Hva Hpl Hr _ Hpa]. unfold s'. clear s'. rewrite Hpa. set (d := descr s i (vpn va)) in *.
  assert (Hd : desc_has_page d = true) by (unfold desc_has_page; by rewrite Hr). destruct (page_of_page d (proj1 (inv_wf _ _ _ Hi i _ Hpl))) as [_ Hma].
  pose proof (Z.mod_pos_bound va 4096 ltac:(lia)).
  destruct (poke_ok base sbase s (page_of d) (page_of d + va mod 4096) b Hi Hma (or_intror (cnt_le s i (vpn va) Hpl Hd)) ltac:(unfold in_page; lia) Hb) as (I1 & D1 & _ & _ & P1 & K1 & A1).
  split; [done|]. split; [done|]. split; [done|]. intros va' w. set (s' := s <| mm := _ |>) in *. unfold vm_translate. rewrite (P1 i va' Hu). destruct (Z.eqb_spec (pagetable i va' s) 0) as [|Hpt]; [done|].
  destruct (pagetable_some _ _ _ _ _ Hi Hu Hpt) as (_ & Hpl' & _ & Ew). destruct (pagetable_some _ _ s' i va' I1 Hu ltac:(by rewrite P1)) as (_ & _ & _ & Ew').
  rewrite P1 in Ew' by done. by rewrite <- Ew', <- Ew, D1 by done.
Qed.

(** ** What a copy to the program does to what it sees *)

(** Page [v] with the bytes [bs], laid out from [uva] on, written over it. *)
Definition overwrite (uva : Z) (bs : list Z) (v : Z) (o : option (Z * content)) : option (Z * content) :=
  match o with
  | Some (p, Own page) => Some (p, Own (imap (fun k b =>
      let off := page_va v + Z.of_nat k - uva in if 0 <=? off then default b (bs !! Z.to_nat off) else b) page))
  | _ => o
  end.
Lemma overwrite_nil uva v o : overwrite uva [] v o = o.
Proof using Type.
  destruct o as [[p [page|pa]]|]; [|done|done]. cbn [overwrite]. do 3 f_equal. apply list_eq. intros k. rewrite list_lookup_imap. destruct (page !! k); [|done]. cbn. by destruct (0 <=? _).
Qed.
Lemma overwrite_app uva b1 b2 v o : overwrite (uva + Z.of_nat (length b1)) b2 v (overwrite uva b1 v o) = overwrite uva (b1 ++ b2) v o.
Proof using Type.
  destruct o as [[p [page|pa]]|]; [|done|done]. cbn [overwrite]. do 3 f_equal. apply list_eq. intros k. rewrite !list_lookup_imap. destruct (page !! k) as [b|]; [|done]. cbn [fmap option_fmap option_map]. f_equal. cbv zeta.
  set (x := page_va v + Z.of_nat k - uva). replace (page_va v + Z.of_nat k - (uva + Z.of_nat (length b1))) with (x - Z.of_nat (length b1)) by lia.
  destruct (Z.leb_spec 0 (x - Z.of_nat (length b1))).
  - rewrite (proj2 (Z.leb_le 0 x)) by lia. rewrite (lookup_ge_None_2 b1) by lia. rewrite lookup_app_r by lia. cbn [default from_option]. by replace (Z.to_nat (x - Z.of_nat (length b1))) with (Z.to_nat x - length b1)%nat by lia.
  - destruct (Z.leb_spec 0 x); [|done]. by rewrite lookup_app_l by lia.
Qed.
Lemma page_va_vpn va : va = page_va (vpn va) + va mod 4096.
Proof using Type. unfold page_va, vpn, USER_VA_BASE, PMM.PAGE_SIZE. Z.div_mod_to_equations. lia. Qed.
Lemma overwrite_here va b p page : length page = 4096%nat -> overwrite va [b] (vpn va) (Some (p, Own page)) = Some (p, Own (<[Z.to_nat (va mod 4096) := b]> page)).
Proof using Type.
  intros Hl. cbn [overwrite]. do 3 f_equal. apply list_eq. intros k. rewrite list_lookup_imap. pose proof (page_va_vpn va). pose proof (Z.mod_pos_bound va 4096 ltac:(lia)).
  replace (page_va (vpn va) + Z.of_nat k - va) with (Z.of_nat k - va mod 4096) by lia.
  destruct (decide (k = Z.to_nat (va mod 4096))) as [->|Hk].
  - rewrite list_lookup_insert_eq by lia. destruct (lookup_lt_is_Some_2 page (Z.to_nat (va mod 4096)) ltac:(lia)) as [x ->]. cbn. by rewrite Z2Nat.id, Z.sub_diag by lia.
  - rewrite list_lookup_insert_ne by done. destruct (page !! k) as [x|]; [|done]. cbn. f_equal. destruct (Z.leb_spec 0 (Z.of_nat k - va mod 4096)); [|done].
    by rewrite (lookup_ge_None_2 [b]) by (cbn; lia).
Qed.
Lemma overwrite_there va b v o : v <> vpn va -> (forall p page, o = Some (p, Own page) -> length page = 4096%nat) -> overwrite va [b] v o = o.
Proof using Type.
  intros Hv Hl. destruct o as [[p [page|pa]]|]; [|done|done]. specialize (Hl _ _ eq_refl). cbn [overwrite]. do 3 f_equal. apply list_eq. intros k. rewrite list_lookup_imap.
  destruct (page !! k) as [x|] eqn:E; [|done]. apply lookup_lt_Some in E. cbn. f_equal. pose proof (page_va_vpn va). pose proof (Z.mod_pos_bound va 4096 ltac:(lia)).
  destruct (Z.leb_spec 0 (page_va v + Z.of_nat k - va)); [|done]. rewrite (lookup_ge_None_2 [b]); [done|]. unfold page_va, PMM.PAGE_SIZE in *. cbn. lia.
Qed.
(** It stays a page of the program's own, or none, and as it may be used. *)
Definition own (o : option (Z * content)) : Prop := match o with Some (_, Other _) => False | _ => True end.
Lemma overwrite_own uva bs v o : own (overwrite uva bs v o) <-> own o.
Proof using Type. by destruct o as [[p [page|pa]]|]. Qed.
Lemma overwrite_prot uva bs v o : fst <$> overwrite uva bs v o = fst <$> o.
Proof using Type. by destruct o as [[p [page|pa]]|]. Qed.

Section proofs.
Context (others : nat -> vm -> vm) (patience : nat) (Q : nat -> bool) (Hothers : forall n, tame Q (others n)) (base sbase : Z -> Z).

(** The pages of a range are the program's own, where it has any. *)
Definition private (i : nat) (uva : Z) (n : nat) (s : vm) : Prop := forall k, 0 <= k < Z.of_nat n -> own (sees s i (vpn (uva + k))).
(** The space's own call is under way. *)
Definition mine (i : nat) (s : vm) : Prop := vm_inv base sbase s /\ used (space s i) = true /\ Q i || busy (space s i) = true.
Lemma mine_kept i s s' : mine i s -> vm_inv base sbase s' -> kept Q s s' -> mine i s'.
Proof using Type. intros (Hi & Hu & Hq) Hi' K. destruct (ke_used _ _ _ K i Hu Hq) as [U1 U2]. split; [done|]. split; [done|]. by rewrite U2. Qed.
Lemma seen_off (s : vm) i va : ~ user_va va -> sees s i (vpn va) = None.
Proof using Type. intros Hn. unfold VMINV.sees. by rewrite descr_off. Qed.
Lemma entitled_prot (s s' : vm) i va w : fst <$> sees s' i (vpn va) = fst <$> sees s i (vpn va) -> entitled s' i va w <-> entitled s i va w.
Proof using Type. unfold entitled. destruct (sees s' i (vpn va)) as [[p c]|], (sees s i (vpn va)) as [[p' c']|]; cbn; intros [=]; by subst. Qed.
Lemma translate_entitled s i va w : mine i s -> vm_translate i va w s <> 0 -> entitled s i va w.
Proof using Type.
  intros (Hi & Hu & _). unfold entitled, VMINV.sees, vm_translate. destruct (Z.eqb_spec (pagetable i va s) 0) as [|Hpt]; [done|]. destruct (pagetable_some _ _ _ _ _ Hi Hu Hpt) as (_ & _ & _ & Ew). rewrite <- Ew by done.
  set (d := descr s i (vpn va)). unfold view_of, desc_prot, desc_owned. rewrite !has_mask_or. destruct (has d PDT_RESIDENT); cbn [negb orb]; [|done]. destruct (w && has d DESC_WP) eqn:E; [done|]. intros _.
  destruct (has d DESC_WP), (has d DESC_SW_COW), w; try done; by split.
Qed.

Record wrote (i : nat) (uva : Z) (bs : list Z) (s s' : vm) : Prop := {
  wr_mine : mine i s';
  wr_kept : kept Q s s';
  wr_alone : alone base s s';
  wr_sees : lost s' = lost s -> private i uva (length bs) s ->
    (forall j v, place j v -> used (space s j) = true -> Q j || busy (space s j) = true ->
       sees s' j v = if (j =? i)%nat then overwrite uva bs v (sees s j v) else sees s j v) /\
    forall k, 0 <= k < Z.of_nat (length bs) -> entitled s i (uva + k) true }.
Lemma goes_wrote i uva s s' : mine i s -> vm_inv base sbase s' -> goes Q base s s' -> wrote i uva [] s s'.
Proof using Type.
  intros Hm Hi' [[K _ V] A]. constructor; [by eapply mine_kept|done|done|]. intros Hl _. split; [|intros k Hk; cbn in Hk; lia].
  intros j v Hp Hu Hq. rewrite (V Hl j v Hp Hu Hq). destruct (j =? i)%nat; [by rewrite overwrite_nil|done].
Qed.
Lemma wrote_at i uva bs s s' va : mine i s -> wrote i uva bs s s' -> lost s' = lost s -> private i uva (length bs) s ->
  (own (sees s' i (vpn va)) <-> own (sees s i (vpn va))) /\ fst <$> sees s' i (vpn va) = fst <$> sees s i (vpn va).
Proof using Type.
  intros (Hi & Hu & Hq) [_ _ _ V] Hl Hp. destruct (V Hl Hp) as [V1 _]. destruct (decide (user_va va)) as [Hva|Hn]; [|by rewrite !seen_off by done].
  rewrite (V1 i (vpn va)), Nat.eqb_refl; [|split; [by eapply used_lt|unfold vpn, user_va, USER_VA_END, USER_VA_SIZE, USER_VA_BASE in *; Z.div_mod_to_equations; lia]|done|done]. split; [apply overwrite_own|apply overwrite_prot].
Qed.
Lemma wrote_then i uva b1 b2 s s1 s2 : mine i s -> wrote i uva b1 s s1 -> wrote i (uva + Z.of_nat (length b1)) b2 s1 s2 -> wrote i uva (b1 ++ b2) s s2.
Proof using Type.
  intros Hm W1 W2. pose proof W1 as [M1 K1 A1 V1]. pose proof W2 as [M2 K2 A2 V2].
  constructor; [done|by eapply kept_trans|by eapply alone_trans|]. pose proof (ke_lost _ _ _ K1). pose proof (ke_lost _ _ _ K2). intros Hl Hp. rewrite length_app in *.
  assert (L1 : lost s1 = lost s) by lia. assert (P1 : private i uva (length b1) s) by (intros k Hk; apply Hp; lia).
  assert (P2 : private i (uva + Z.of_nat (length b1)) (length b2) s1).
  { intros k Hk. rewrite <- Z.add_assoc. apply (wrote_at i uva b1 s s1 _ Hm W1 L1 P1). apply Hp. lia. }
  destruct (V1 L1 P1) as [S1 E1]. destruct (V2 ltac:(lia) P2) as [S2 E2]. split.
  - intros j v Hj Hu Hq. destruct (ke_used _ _ _ K1 j Hu Hq) as [U1 U2]. rewrite S2, S1 by (done || by rewrite U2). destruct (j =? i)%nat; [apply overwrite_app|done].
  - intros k Hk. destruct (decide (k < Z.of_nat (length b1))); [apply E1; lia|]. apply (entitled_prot s s1); [by apply (wrote_at i uva b1)|].
    replace (uva + k) with (uva + Z.of_nat (length b1) + (k - Z.of_nat (length b1))) by lia. apply E2. lia.
Qed.
Lemma wrote_byte i va b s : mine i s -> vm_translate i va true s <> 0 -> 0 <= b < 256 -> wrote i va [b] s (s <| mm := pg_store (vm_translate i va true s) b (mm s) |>).
Proof using Type.
  intros Hm Ht Hb. pose proof Hm as (Hi & Hu & Hq). destruct (store_any base sbase s i va b Hi Hu Ht Hb) as (I1 & K1 & A1 & _). constructor; [by eapply mine_kept|done|done|]. intros _ Hp.
  split; [|intros k Hk; cbn in Hk; replace k with 0 by lia; rewrite Z.add_0_r; by apply translate_entitled].
  destruct (translate_reaches base sbase s i va true Hi Hu Ht) as [_ Hpl Hr _ _]. assert (Hd : desc_has_page (descr s i (vpn va)) = true) by (unfold desc_has_page; by rewrite Hr).
  assert (Ho : exists p bs, sees s i (vpn va) = Some (p, Own bs)).
  { pose proof (Hp 0 ltac:(cbn; lia)) as Ho. rewrite Z.add_0_r in Ho. pose proof (translate_entitled s i va true Hm Ht) as He. unfold entitled in He. destruct (sees s i (vpn va)) as [[p [bs|pa]]|]; [by exists p, bs|done|done]. }
  destruct Ho as (p & bs & Es). destruct (seen_private _ _ _ _ _ Es Hd) as [Hs Hf]. destruct (store_ok base sbase s i va b Hi Hu Ht Hb Hs Hf) as (_ & _ & _ & V1 & p' & bs' & E1 & E2 & E3).
  unfold user_store in V1, E3. rewrite (proj2 (Z.eqb_neq _ 0)) in V1, E3 by done. intros j v Hj _ _. destruct (decide (j = i /\ v = vpn va)) as [[-> ->]|Hne].
  - rewrite E3, Nat.eqb_refl, E1. by rewrite overwrite_here.
  - rewrite V1; [|done|intros [= -> ->]; by apply Hne]. destruct (Nat.eqb_spec j i) as [->|]; [|done]. rewrite overwrite_there; [done|intros ->; by apply Hne|]. intros q page. apply seen_length.
Qed.
Lemma store_bytes_cons a b bs (w : W) : store_bytes a (b :: bs) w = store_bytes (a + 1) bs (pg_store a b w).
Proof using Type. done. Qed.
(** A chunk within one page. *)
Lemma wrote_chunk i bs : forall uva s, mine i s -> vm_translate i uva true s <> 0 -> uva mod 4096 + Z.of_nat (length bs) <= 4096 -> Forall (fun b => 0 <= b < 256) bs ->
  wrote i uva bs s (s <| mm := store_bytes (vm_translate i uva true s) bs (mm s) |>).
Proof using Type.
  induction bs as [|b bs IH]; intros uva s Hm Ht Hlen Hbs.
  { destruct s. apply goes_wrote; [done|apply Hm|apply goes_refl]. }
  apply Forall_cons in Hbs as [Hb Hbs]. cbn [length] in Hlen. pose proof (wrote_byte i uva b s Hm Ht Hb) as W1. pose proof Hm as (Hi & Hu & _).
  destruct (store_any base sbase s i uva b Hi Hu Ht Hb) as (_ & _ & _ & T1). set (s1 := s <| mm := pg_store _ b (mm s) |>) in *.
  destruct bs as [|b' bs]; [exact W1|]. cbn [length] in Hlen. destruct (translate_within base sbase s i uva 1 true Hi Hu ltac:(lia) ltac:(lia) Ht) as [E1 N1].
  apply (wrote_then i uva [b] (b' :: bs) s s1); [done|done|]. replace (s <| mm := _ |>) with (s1 <| mm := store_bytes (vm_translate i (uva + 1) true s1) (b' :: bs) (mm s1) |>).
  - apply IH; [apply W1|by rewrite T1| |done]. cbn [length]. Z.div_mod_to_equations. lia.
  - rewrite T1, E1. done.
Qed.

(** ** The loops *)

Lemma translate_ok i uva w s : mine i s ->
  let '(r, s') := translate others patience i uva w s in mine i s' /\ goes Q base s s' /\ forall pa, r = Some pa -> pa <> 0 -> pa = vm_translate i uva w s'.
Proof using Hothers.
  intros Hm. pose proof Hm as (Hi & Hu & Hq). unfold translate. destruct (Z.eqb_spec (vm_translate i uva w s) 0) as [E|E].
  - pose proof (fault_ok others patience Q Hothers base sbase s i uva w Hi Hu Hq) as Hf. destruct (vm_fault others patience i uva w s) as [[r|] s']; destruct Hf as [I1 G1]; (split; [by eapply mine_kept, G1|]); (split; [done|]).
    + intros pa [= <-] Hne. destruct (0 <=? r); [done|]. by rewrite E in Hne.
    + by intros pa [=].
  - split; [done|]. split; [apply goes_refl|]. by intros pa [= <-].
Qed.
(** A chunk asked for: refused, or an address the walk now gives. *)
Lemma chunk_ok i uva len w s : mine i s -> 0 <= uva -> 0 < len ->
  let '(c, s') := uaccess_chunk others patience (Some i) uva len w s in mine i s' /\ goes Q base s s' /\
  forall a n, c = Some (a, n) -> a = 0 \/ vm_translate i uva w s' = a /\ a <> 0 /\ 1 <= n <= len /\ uva mod 4096 + n <= 4096 /\ uva + n < 4294967296.
Proof using Hothers.
  intros Hm Hva Hl. unfold uaccess_chunk. rewrite (proj2 (Z.eqb_neq len 0)) by lia. pose proof (translate_ok i uva w s Hm) as Ht. destruct (translate others patience i uva w s) as [[pa|] s']; destruct Ht as (M1 & G1 & Ht); (split; [done|]); (split; [done|]).
  - intros a n. destruct (Z.eqb_spec pa 0) as [|Hne]; intros [= <- <-]; [by left|right]. specialize (Ht pa eq_refl Hne). destruct (UACCESS.chunk_len_range uva len Hva Hl) as [C1 C2]. change PMM.PAGE_SIZE with 4096 in C2.
    destruct M1 as (I1 & U1 & _). destruct (translate_reaches base sbase s' i uva w I1 U1 ltac:(congruence)) as [Huv _ _ _ _]. split; [done|]. split; [done|]. split; [done|]. split; [done|].
    unfold user_va, USER_VA_END, USER_VA_SIZE, USER_VA_BASE in Huv. pose proof (Z.mod_pos_bound uva 4096 ltac:(lia)). lia.
  - by intros a n [=].
Qed.
(** How a copy ends: [r] after [n] of [len] bytes. *)
Definition ends (r : option Z) (n len : Z) : Prop := r = Some 0 /\ n = len \/ (r = Some (- EFAULT) \/ r = None) /\ 0 <= n < len.
Lemma copy_out_ok i fuel : forall uva bs s, mine i s -> 0 <= uva -> (length bs <= fuel)%nat -> Forall (fun b => 0 <= b < 256) bs ->
  let '(r, s') := copy_out others patience fuel (Some i) uva bs s in
  exists n : nat, ends r (Z.of_nat n) (Z.of_nat (length bs)) /\ wrote i uva (take n bs) s s'.
Proof using Hothers.
  induction fuel as [|fuel IH]; intros uva bs s Hm Hva Hlen Hbs.
  { destruct bs; [|cbn in Hlen; lia]. exists 0%nat. split; [by left|]. apply goes_wrote; [done|apply Hm|apply goes_refl]. }
  cbn [copy_out]. destruct (Z.ltb_spec 0 (Z.of_nat (length bs))) as [Hpos|Hz].
  2:{ destruct bs; [|cbn in Hz; lia]. exists 0%nat. split; [by left|]. apply goes_wrote; [done|apply Hm|apply goes_refl]. }
  pose proof (chunk_ok i uva (Z.of_nat (length bs)) true s Hm Hva Hpos) as Hc. destruct (uaccess_chunk others patience (Some i) uva (Z.of_nat (length bs)) true s) as [[[dst n]|] s1]; destruct Hc as (M1 & G1 & Hc).
  2:{ exists 0%nat. split; [right; split; [by right|lia]|]. apply goes_wrote; [done|apply M1|done]. }
  destruct (Z.eqb_spec dst 0) as [_|Hne]; [exists 0%nat; split; [right; split; [by left|lia]|]; apply goes_wrote; [done|apply M1|done]|].
  destruct (Hc dst n eq_refl) as [|(Ht & _ & C1 & C2 & C3)]; [done|]. rewrite u32_small by lia.
  pose proof (wrote_chunk i (take (Z.to_nat n) bs) uva s1 M1 ltac:(congruence) ltac:(rewrite length_take; lia) ltac:(by apply Forall_take)) as W1. rewrite Ht in W1. set (s2 := s1 <| mm := _ |>) in *.
  assert (W2 : wrote i uva (take (Z.to_nat n) bs) s s2).
  { change (take (Z.to_nat n) bs) with ([] ++ take (Z.to_nat n) bs). apply (wrote_then i uva [] _ s s1); [done|apply goes_wrote; [done|apply M1|done]|]. by rewrite Z.add_0_r. }
  specialize (IH (uva + n) (drop (Z.to_nat n) bs) s2 (wr_mine _ _ _ _ _ W1) ltac:(lia) ltac:(rewrite length_drop; lia) ltac:(by apply Forall_drop)).
  destruct (copy_out others patience fuel (Some i) (uva + n) _ s2) as [r s']. destruct IH as (n2 & E2 & W3). exists (Z.to_nat n + n2)%nat. split.
  - unfold ends in *. rewrite length_drop in E2. destruct E2 as [[-> E2]|[E2 E3]]; [left; split; [done|lia]|right; split; [done|lia]].
  - rewrite <- (take_drop (Z.to_nat n) bs) at 1. rewrite take_app_ge by (rewrite length_take; lia). rewrite length_take. replace (Z.to_nat n + n2 - Z.to_nat n `min` length bs)%nat with n2 by lia. apply (wrote_then i uva _ _ s s2); [done|done|]. rewrite length_take. by replace (Z.of_nat (Z.to_nat n `min` length bs)) with n by lia.
Qed.

(** The byte of a private page that the program sees at an address. *)
Definition ubyte (s : vm) (i : nat) (va : Z) : option Z :=
  match sees s i (vpn va) with Some (_, Own page) => page !! Z.to_nat (va mod 4096) | _ => None end.
Record fetched (i : nat) (uva : Z) (xs : list Z) (s s' : vm) : Prop := {
  fe_mine : mine i s';
  fe_goes : goes Q base s s';
  fe_bytes : lost s' = lost s -> forall k, (k < length xs)%nat ->
    entitled s i (uva + Z.of_nat k) false /\ forall b, ubyte s i (uva + Z.of_nat k) = Some b -> xs !! k = Some b }.
Lemma fetched_nil i uva s s' : mine i s' -> goes Q base s s' -> fetched i uva [] s s'.
Proof using Type. intros Hm Hg. constructor; [done|done|]. cbn. lia. Qed.
Lemma goes_seen i s s' va : mine i s -> goes Q base s s' -> lost s' = lost s -> sees s' i (vpn va) = sees s i (vpn va).
Proof using Type.
  intros (Hi & Hu & Hq) [[_ _ V] _] Hl. destruct (decide (user_va va)) as [Hva|Hn]; [|by rewrite !seen_off by done].
  apply (V Hl); [split; [by eapply used_lt|]|done|done]. unfold vpn, user_va, USER_VA_END, USER_VA_SIZE, USER_VA_BASE in *. Z.div_mod_to_equations. lia.
Qed.
Lemma fetched_app i uva x1 x2 s s1 s2 : mine i s -> fetched i uva x1 s s1 -> fetched i (uva + Z.of_nat (length x1)) x2 s1 s2 -> fetched i uva (x1 ++ x2) s s2.
Proof using Type.
  intros Hm [M1 G1 B1] [M2 G2 B2]. constructor; [done|by eapply goes_trans|]. intros Hl k Hk. rewrite length_app in Hk. pose proof (ke_lost _ _ _ (cm_kept _ _ _ (go_calm _ _ _ _ G1))). pose proof (ke_lost _ _ _ (cm_kept _ _ _ (go_calm _ _ _ _ G2))).
  destruct (decide (k < length x1)%nat) as [Hlt|Hge]; [rewrite lookup_app_l by done; apply B1; lia|]. rewrite lookup_app_r by lia.
  destruct (B2 ltac:(lia) (k - length x1)%nat ltac:(lia)) as [E1 E2]. replace (uva + Z.of_nat (length x1) + Z.of_nat (k - length x1)) with (uva + Z.of_nat k) in * by lia.
  unfold entitled, ubyte in *. by rewrite <- (goes_seen i s s1) by (done || lia).
Qed.
Lemma fetched_chunk i uva n s : mine i s -> vm_translate i uva false s <> 0 -> uva mod 4096 + Z.of_nat n <= 4096 ->
  fetched i uva (page_bytes (vm_translate i uva false s) n (mm s)) s s.
Proof using Type.
  intros Hm Ht Hn. pose proof Hm as (Hi & Hu & _). constructor; [done|apply goes_refl|]. intros _ k. rewrite length_page_bytes. intros Hk.
  destruct (translate_within base sbase s i uva (Z.of_nat k) false Hi Hu ltac:(lia) ltac:(lia) Ht) as [E1 N1]. split; [by apply translate_entitled|]. intros b. unfold ubyte.
  destruct (sees s i (vpn (uva + Z.of_nat k))) as [[p [page|pa]]|] eqn:Es; [|done|done]. intros Hb. pose proof (load_seen base sbase s i _ false p page Hi Hu N1 Es) as Hp. rewrite Hb, E1 in Hp.
  unfold page_bytes. rewrite list_lookup_fmap, lookup_seq_lt by done. cbn. congruence.
Qed.
Lemma fetched_take i uva xs m s s' : fetched i uva xs s s' -> fetched i uva (take m xs) s s'.
Proof using Type.
  intros [M G B]. constructor; [done|done|]. intros Hl k Hk. rewrite length_take in Hk. destruct (B Hl k ltac:(lia)) as [E1 E2]. split; [done|]. intros b Hb. rewrite lookup_take_lt by lia. by apply E2.
Qed.
(** A chunk fetched after the fault it took. *)
Lemma fetched_next i uva n s s1 : mine i s -> mine i s1 -> goes Q base s s1 -> vm_translate i uva false s1 <> 0 -> uva mod 4096 + n <= 4096 ->
  fetched i uva (page_bytes (vm_translate i uva false s1) (Z.to_nat n) (mm s1)) s s1.
Proof using Type.
  intros Hm M1 G1 Ht Hn. apply (fetched_app i uva [] _ s s1); [done|by apply fetched_nil|]. cbn [length]. rewrite Z.add_0_r. apply fetched_chunk; [done|done|]. pose proof (Z.mod_pos_bound uva 4096 ltac:(lia)). lia.
Qed.
Lemma copy_in_ok i fuel : forall uva len out s, mine i s -> 0 <= uva -> 0 <= len <= Z.of_nat fuel ->
  let '(r, out', s') := copy_in others patience fuel (Some i) uva len out s in
  exists xs, out' = out ++ xs /\ ends r (Z.of_nat (length xs)) len /\ fetched i uva xs s s'.
Proof using Hothers.
  induction fuel as [|fuel IH]; intros uva len out s Hm Hva Hlen.
  { exists []. rewrite app_nil_r. split; [done|]. split; [left; split; [done|cbn; lia]|]. apply fetched_nil; [done|apply goes_refl]. }
  cbn [copy_in]. destruct (Z.ltb_spec 0 len) as [Hpos|Hz].
  2:{ exists []. rewrite app_nil_r. split; [done|]. split; [left; split; [done|cbn; lia]|]. apply fetched_nil; [done|apply goes_refl]. }
  pose proof (chunk_ok i uva len false s Hm Hva Hpos) as Hc. destruct (uaccess_chunk others patience (Some i) uva len false s) as [[[src n]|] s1]; destruct Hc as (M1 & G1 & Hc).
  2:{ exists []. rewrite app_nil_r. split; [done|]. split; [right; split; [by right|cbn; lia]|]. by apply fetched_nil. }
  destruct (Z.eqb_spec src 0) as [_|Hne].
  { exists []. rewrite app_nil_r. split; [done|]. split; [right; split; [by left|cbn; lia]|]. by apply fetched_nil. }
  destruct (Hc src n eq_refl) as [|(Ht & _ & C1 & C2 & C3)]; [done|]. rewrite u32_small by lia.
  pose proof (fetched_next i uva n s s1 Hm M1 G1 ltac:(congruence) C2) as F1. rewrite Ht in F1. set (x1 := page_bytes src (Z.to_nat n) (mm s1)) in *.
  specialize (IH (uva + n) (len - n) (out ++ x1) s1 M1 ltac:(lia) ltac:(lia)). destruct (copy_in others patience fuel (Some i) (uva + n) _ _ s1) as [[r out'] s']. destruct IH as (x2 & -> & E2 & F2).
  assert (Lx : Z.of_nat (length x1) = n) by (unfold x1; rewrite length_page_bytes; lia).
  exists (x1 ++ x2). rewrite app_assoc. split; [done|]. split; [|apply (fetched_app i uva x1 x2 s s1); [done|done|by rewrite Lx]]. rewrite length_app. unfold ends in *. destruct E2 as [[-> E2]|[E2 E3]]; [left; split; [done|lia]|right; split; [done|lia]].
Qed.
(** How the copy of a string ends: with its length and a zero byte after it,
    with the room used up, or at a page that is not to be had. *)
Definition string_ends (i : nat) (uva : Z) (max : Z) (r : option Z) (xs : list Z) (s s' : vm) : Prop :=
  Forall (fun b => b <> 0) xs /\
  (r = Some (Z.of_nat (length xs)) /\ Z.of_nat (length xs) < max /\ fetched i uva (xs ++ [0]) s s' \/
   r = Some (- ENAMETOOLONG) /\ Z.of_nat (length xs) = max /\ fetched i uva xs s s' \/
   (r = Some (- EFAULT) \/ r = None) /\ Z.of_nat (length xs) < max /\ fetched i uva xs s s').
Lemma string_loop_ok i fuel : forall uva max out s s0, mine i s0 -> fetched i (uva - Z.of_nat (length out)) out s0 s -> 0 <= uva -> Z.of_nat (length out) <= max <= Z.of_nat (length out + fuel) -> Forall (fun b => b <> 0) out ->
  let '(r, out', s') := strncpy_loop others patience fuel (Some i) uva max out s in
  string_ends i (uva - Z.of_nat (length out)) max r out' s0 s'.
Proof using Hothers.
  induction fuel as [|fuel IH]; intros uva max out s s0 Hm0 Hf Hva Hmax Hout.
  { split; [done|]. right; left. split; [done|]. split; [lia|done]. }
  pose proof (fe_mine _ _ _ _ _ Hf) as Hm. cbn [strncpy_loop]. destruct (Z.ltb_spec (Z.of_nat (length out)) max) as [Hpos|Hz]; [|split; [done|]; right; left; split; [done|]; split; [lia|done]].
  pose proof (chunk_ok i uva (max - Z.of_nat (length out)) false s Hm Hva ltac:(lia)) as Hc. destruct (uaccess_chunk others patience (Some i) uva _ false s) as [[[src n]|] s1]; destruct Hc as (M1 & G1 & Hc).
  all: set (u0 := uva - Z.of_nat (length out)) in *; assert (Eu : uva = u0 + Z.of_nat (length out)) by lia.
  all: assert (Hstop : fetched i u0 out s0 s1) by (rewrite <- (app_nil_r out); apply (fetched_app i u0 out [] s0 s); [done|done|by apply fetched_nil]).
  2:{ split; [done|]. do 2 right. split; [by right|]. by split. }
  destruct (Z.eqb_spec src 0) as [_|Hne]; [split; [done|]; do 2 right; split; [by left|]; by split|].
  destruct (Hc src n eq_refl) as [|(Ht & _ & C1 & C2 & C3)]; [done|]. rewrite u32_small by lia.
  pose proof (fetched_next i uva n s s1 Hm M1 G1 ltac:(congruence) C2) as F1. rewrite Ht in F1. set (x1 := page_bytes src (Z.to_nat n) (mm s1)) in *.
  assert (F2 : forall m, fetched i u0 (out ++ take m x1) s0 s1) by (intros m; apply (fetched_app i u0 out _ s0 s); [done|done|rewrite <- Eu; by apply fetched_take]).
  assert (Lx : Z.of_nat (length x1) = n) by (unfold x1; rewrite length_page_bytes; lia).
  rewrite UACCESS.scan_chunk_spec. destruct (find_idx (fun b => b =? 0) x1) as [j|] eqn:Ej.
  - apply find_idx_Some in Ej as [(b & Eb & Hb%Z.eqb_eq) Hbefore]. subst b. pose proof (lookup_lt_Some _ _ _ Eb).
    split; [apply Forall_app; split; [done|]; apply Forall_lookup; intros k b Hk; apply lookup_take_Some in Hk as [Hk Hlt]; by apply Z.eqb_neq, (Hbefore k)|].
    left. split; [done|]. rewrite length_app, length_take. split; [lia|]. rewrite <- app_assoc. by rewrite <- (take_S_r x1 j 0 Eb).
  - rewrite find_idx_None in Ej. specialize (IH (uva + n) max (out ++ x1) s1 s0 Hm0). rewrite !length_app in IH.
    replace (uva + n - Z.of_nat (length out + length x1)) with u0 in IH by lia. apply IH; [|lia|lia|].
    + specialize (F2 (length x1)). by rewrite take_ge in F2 by done.
    + apply Forall_app. split; [done|]. apply Forall_lookup. intros k b Hk. by apply Z.eqb_neq, (Ej k).
Qed.
Lemma check_loop_ok i w fuel : forall uva len s, mine i s -> 0 <= uva -> 0 <= len <= Z.of_nat fuel ->
  let '(r, s') := check_loop others patience fuel i uva len w s in
  mine i s' /\ goes Q base s s' /\ (r = Some 0 \/ r = Some (- EFAULT) \/ r = None) /\
  (r = Some 0 -> lost s' = lost s -> forall k, 0 <= k < len -> entitled s i (uva + k) w).
Proof using Hothers.
  induction fuel as [|fuel IH]; intros uva len s Hm Hva Hlen.
  { split; [done|]. split; [apply goes_refl|]. split; [by left|]. intros _ _ k. lia. }
  cbn [check_loop]. destruct (Z.ltb_spec 0 len) as [Hpos|Hz]; [|split; [done|]; split; [apply goes_refl|]; split; [by left|]; intros _ _ k; lia].
  pose proof (translate_ok i uva w s Hm) as Ht. destruct (translate others patience i uva w s) as [[pa|] s1]; destruct Ht as (M1 & G1 & Ht); [|split; [done|]; split; [done|]; split; [by do 2 right|done]].
  destruct (Z.eqb_spec pa 0) as [|Hne]; [split; [done|]; split; [done|]; split; [by right; left|done]|]. specialize (Ht pa eq_refl Hne).
  destruct (UACCESS.chunk_len_range uva len Hva Hpos) as [C1 C2]. change PMM.PAGE_SIZE with 4096 in C2. set (n := UACCESS.chunk_len uva len) in *. pose proof M1 as (I1 & U1 & _).
  assert (Huv : user_va uva) by (apply (translate_reaches base sbase s1 i uva w I1 U1 ltac:(congruence))). unfold user_va, USER_VA_END, USER_VA_SIZE, USER_VA_BASE in Huv. pose proof (Z.mod_pos_bound uva 4096 ltac:(lia)). rewrite u32_small by lia.
  specialize (IH (uva + n) (len - n) s1 M1 ltac:(lia) ltac:(lia)). destruct (check_loop others patience fuel i (uva + n) (len - n) w s1) as [r s']. destruct IH as (M2 & G2 & R2 & E2).
  split; [done|]. split; [by eapply goes_trans|]. split; [done|]. intros Hr Hl k Hk. pose proof (ke_lost _ _ _ (cm_kept _ _ _ (go_calm _ _ _ _ G1))). pose proof (ke_lost _ _ _ (cm_kept _ _ _ (go_calm _ _ _ _ G2))).
  apply (entitled_prot s s1); [by rewrite (goes_seen i s s1) by (done || lia)|]. destruct (decide (k < n)) as [Hkn|Hkn].
  - apply translate_entitled; [done|]. apply (translate_within base sbase s1 i uva k w I1 U1); [lia|lia|congruence].
  - replace (uva + k) with (uva + n + (k - n)) by lia. apply E2; [done|lia|lia].
Qed.

(** ** Pages that are there *)

Definition present (i : nat) (uva n : Z) (w : bool) (s : vm) : Prop := forall k, 0 <= k < n -> vm_translate i (uva + k) w s <> 0.
Lemma present_chunk i uva n w s : 0 < n -> present i uva n w s -> uaccess_chunk others patience (Some i) uva n w s = (Some (vm_translate i uva w s, UACCESS.chunk_len uva n), s).
Proof using Type.
  intros Hn Hp. pose proof (Hp 0 ltac:(lia)) as Hp0. rewrite Z.add_0_r in Hp0. unfold uaccess_chunk, translate. rewrite (proj2 (Z.eqb_neq n 0)), (proj2 (Z.eqb_neq _ 0) Hp0) by lia. by rewrite (proj2 (Z.eqb_neq _ 0) Hp0).
Qed.
Lemma present_fits i uva n w s : mine i s -> 0 <= uva -> 0 < n -> present i uva n w s ->
  let c := UACCESS.chunk_len uva n in 1 <= c <= n /\ uva mod 4096 + c <= 4096 /\ u32 (uva + c) = uva + c.
Proof using Type.
  intros (Hi & Hu & _) Hva Hn Hp c. destruct (UACCESS.chunk_len_range uva n Hva Hn) as [C1 C2]. fold c in C1, C2. change PMM.PAGE_SIZE with 4096 in C2. pose proof (Hp 0 ltac:(lia)) as Hp0. rewrite Z.add_0_r in Hp0.
  destruct (translate_reaches base sbase s i uva w Hi Hu Hp0) as [Huv _ _ _ _]. split; [done|]. split; [done|]. apply u32_small.
  unfold user_va, USER_VA_END, USER_VA_SIZE, USER_VA_BASE in Huv. pose proof (Z.mod_pos_bound uva 4096 ltac:(lia)). lia.
Qed.
Lemma copy_in_present i fuel : forall uva len out s, mine i s -> 0 <= uva -> 0 <= len <= Z.of_nat fuel -> present i uva len false s ->
  exists out', copy_in others patience fuel (Some i) uva len out s = (Some 0, out', s).
Proof using Hothers.
  induction fuel as [|fuel IH]; intros uva len out s Hm Hva Hlen Hp; [by exists out|]. cbn [copy_in]. destruct (Z.ltb_spec 0 len) as [Hpos|Hz]; [|by exists out].
  rewrite present_chunk by done. pose proof (Hp 0 ltac:(lia)) as Hp0. rewrite Z.add_0_r in Hp0. rewrite (proj2 (Z.eqb_neq _ 0) Hp0).
  destruct (present_fits i uva len false s Hm Hva Hpos Hp) as (C1 & C2 & ->). apply IH; [done|lia|lia|]. intros k Hk. rewrite <- Z.add_assoc. apply Hp. lia.
Qed.
Lemma chunk_walk i bs : forall uva s, mine i s -> vm_translate i uva true s <> 0 -> uva mod 4096 + Z.of_nat (length bs) <= 4096 -> Forall (fun b => 0 <= b < 256) bs ->
  forall va w, vm_translate i va w (s <| mm := store_bytes (vm_translate i uva true s) bs (mm s) |>) = vm_translate i va w s.
Proof using Type.
  induction bs as [|b bs IH]; intros uva s Hm Ht Hlen Hbs va w; [by destruct s|]. apply Forall_cons in Hbs as [Hb Hbs]. cbn [length] in Hlen. pose proof Hm as (Hi & Hu & _).
  destruct (store_any base sbase s i uva b Hi Hu Ht Hb) as (_ & _ & _ & T1). pose proof (wr_mine _ _ _ _ _ (wrote_byte i uva b s Hm Ht Hb)) as M1. set (s1 := s <| mm := pg_store _ b (mm s) |>) in *.
  destruct bs as [|b' bs]; [apply T1|]. cbn [length] in Hlen. destruct (translate_within base sbase s i uva 1 true Hi Hu ltac:(lia) ltac:(lia) Ht) as [E1 N1].
  replace (s <| mm := _ |>) with (s1 <| mm := store_bytes (vm_translate i (uva + 1) true s1) (b' :: bs) (mm s1) |>) by (by rewrite T1, E1).
  rewrite IH; [apply T1|done|by rewrite T1| |done]. cbn [length]. Z.div_mod_to_equations. lia.
Qed.
Lemma copy_out_present i fuel : forall uva bs s, mine i s -> 0 <= uva -> (length bs <= fuel)%nat -> Forall (fun b => 0 <= b < 256) bs -> present i uva (Z.of_nat (length bs)) true s ->
  fst (copy_out others patience fuel (Some i) uva bs s) = Some 0.
Proof using Hothers.
  induction fuel as [|fuel IH]; intros uva bs s Hm Hva Hlen Hbs Hp; [done|]. cbn [copy_out]. destruct (Z.ltb_spec 0 (Z.of_nat (length bs))) as [Hpos|Hz]; [|done].
  rewrite present_chunk by done. pose proof (Hp 0 ltac:(lia)) as Hp0. rewrite Z.add_0_r in Hp0. rewrite (proj2 (Z.eqb_neq _ 0) Hp0).
  destruct (present_fits i uva _ true s Hm Hva Hpos Hp) as (C1 & C2 & ->). set (c := UACCESS.chunk_len uva _) in *.
  apply IH; [apply (wr_mine i uva (take (Z.to_nat c) bs) s), wrote_chunk; [done|done|rewrite length_take; lia|by apply Forall_take]|lia|rewrite length_drop; lia|by apply Forall_drop|].
  intros k Hk. rewrite length_drop in Hk. rewrite chunk_walk; [|done|done|rewrite length_take; lia|by apply Forall_take]. rewrite <- Z.add_assoc. apply Hp. lia.
Qed.
Lemma wraps_off i uva len w s : mine i s -> is_u32 uva -> is_u32 len -> u32 (uva + len) < uva -> 0 < len /\ ~ present i uva len w s.
Proof using Type.
  intros (Hi & Hu & _) [U1 U2] [L1 L2] Hw. assert (Hge : 4294967296 <= uva + len) by (destruct (decide (uva + len < 4294967296)); [rewrite u32_small in Hw by lia; lia|lia]). split; [lia|].
  intros Hp. destruct (translate_reaches base sbase s i _ w Hi Hu (Hp (len - 1) ltac:(lia))) as [Huv _ _ _ _]. unfold user_va, USER_VA_END, USER_VA_SIZE, USER_VA_BASE in Huv. lia.
Qed.
End proofs.

Section claims.
Context (patience : nat) (prog : nat -> nat -> list call) (k : nat) (Q : nat -> bool).
#[local] Abbreviation others := (bystanders patience prog k Q).
Context (base sbase : Z -> Z) (s : vm) (i : nat) (current : option task).
Context (Hm : mine Q base sbase i s) (Hcur : uaccess_current current = Some i).


End claims.
End machine.

(** ** On the machine of 64 pages *)

#[local] Existing Instance no_texts.
#[local] Existing Instance PAGES.pmm_pages.
#[local] Existing Instance PAGES.pmm_refs.
#[local] Existing Instance SWAP.log_disk.
#[local] Existing Instance SWAP.swap_slots.
#[local] Abbreviation machine := (@vm PMM.pmm (@SWAP.sw (list (Z * list Z))) unit).
#[local] Abbreviation those := (bystanders 4 (fun _ _ => [Create; Fault 1 USER_VA_BASE true]) 1 (fun _ => true)).
Definition program : option task := Some (mk_task None (Some 0%nat)).
Lemma lazy64_mine : mine (fun _ => true) start_base (sl_held (sw start64)) 0 lazy64.
Proof. split; [exact lazy64_inv|]. split; see. Qed.
End VMUSER.
